(* ===== verification/_CoqProject ===== *)
-Q . S2P
Prelude.v
Compat.v
AddressSet.v
RingBuffer.v
MpscRing.v
MpscSystem.v
PerfRing.v
EventRings.v
PerfSample.v
LiveAlloc.v
Dso.v
DsoHdr.v
Ddres.v
JitDump.v
ElfModule.v
ElfLookup.v
Overrides.v
Sha256.v
CpuMask.v
Demangler.v
Identifiers.v
Hooks.v
Interposition.v
Symbols.v
RuntimeSymbols.v
PerfMap.v
SymbolTables.v
Unwind.v
UnwindProofs.v
UnwindFrames.v
UnwindDemo.v
StackMemory.v
Clocks.v
AllocTracker.v
AllocTrackerProofs.v
AllocTrackerPush.v
AllocTrackerSet.v
Watcher.v
KernelSample.v
EventConfig.v
EventConfigProofs.v
Exporter.v
Pprof.v
PprofProofs.v
PprofDemo.v
Pevent.v
PeventProofs.v
MainLoop.v
Profiling.v
Loader.v
LoaderProofs.v
Logging.v
Startup.v
StartupProofs.v
CommandLine.v
Ipc.v
WorkerServer.v
MainLoopProofs.v
MainLoopSafety.v
MainLoopBatch.v
MainLoopDemo.v
Stats.v
Process.v
Worker.v
WorkerProofs.v
WorkerSafety.v
WorkerUnwinder.v
WorkerEvents.v
WorkerLoop.v
WorkerDemo.v
WorkerLoopDemo.v
