(* ===== verification/Prelude.v ===== *)
(** * Verification of ddprof

    ddprof is a native profiler for Linux.  The kernel writes perf records (samples,
    mmap, fork, exec, lost events) into ring buffers; a library loaded into the
    profiled program samples its allocations and writes records of its own into a
    multi-producer ring; a worker process reads all of them, keeps track of the
    mappings and the live allocations of every process, unwinds the stacks,
    aggregates values into profiles and exports them in cycles.

    ** Parts, files and sources

    - [Prelude]: machine integers, undefined behaviour as [None], lemmas on lists,
      options and integers, tactics and hint databases shared by the other files.
    - [AddressSet]: [AddressBitset] (src/lib/address_bitset.cc), the open-addressing
      set of sampled addresses: hashing, lazily allocated tables, [add], [remove],
      [clear], [count].
    - [RingBuffer]: the rings (include/ringbuffer_utils.hpp, src/perf_ringbuffer.cc):
      perf reader and writer, multi-producer writer ([mpsc_reserve], [mpsc_commit],
      [mpsc_discard]) and readers.  [MpscRing] has the invariant of the
      multi-producer ring and the specification of each operation, [MpscSystem] the
      step relation of producers and consumer and its theorems, [PerfRing] the
      theorems on the perf ring.
    - [PerfSample]: [hdr2samp], [samp2hdr], [hdr_time] (src/perf_ringbuffer.cc);
      [KernelSample]: the layout in which the kernel writes samples, against which the
      decoder is proved.
    - [LiveAlloc]: [LiveAllocation] (src/live_allocation.cc), per watcher and process
      the live addresses and the aggregates of their stacks.
    - [Dso], [DsoHdr]: mappings (src/dso.cc, src/dso_hdr.cc): insertion with removal of
      overlaps, lookup, back-population, fork, clean-up, file identifiers.
    - [Ddres]: results and error messages (include/ddres_*.hpp, src/ddres_list.cc).
    - [AllocTracker]: the allocation tracker (src/lib/allocation_tracker.cc), against
      the interface [AddrSet]/[AddrSetLaws] of its address set;
      [AllocTrackerProofs], [AllocTrackerPush] have its theorems, and
      [AllocTrackerSet] shows that [AddressBitset] implements the interface.
    - [Watcher]: event table, perf attributes, sample values, ring size
      (src/perf_watcher.cc, src/perf.cc, src/pevent_lib.cc).
    - [Stats], [Process]: statistics and processes (src/ddprof_stats.cc,
      src/ddprof_process.cc).
    - [Worker]: event handlers, samples, export cycle, start
      (src/ddprof_worker.cc, src/unwind.cc, src/unwind_helper.cc).  [WorkerProofs],
      [WorkerSafety], [WorkerEvents] have its theorems, [WorkerUnwinder] shows that the
      unwinder of [Unwind] keeps the promise they ask for, [WorkerDemo] is a concrete run.
    - [EventRings]: both kinds of ring behind one abstraction, [ring_holds], for the
      main loop.
    - [MainLoop]: polling, ordered and unordered processing of the rings, the parent
      and its reply to the library (src/perf_mainloop.cc), against the classes
      [PriorityQueue], [WorkerOps] and [LoopEnv] and their laws; [MainLoopProofs],
      [MainLoopSafety], [MainLoopBatch] have its theorems, [MainLoopDemo] a run.
      [WorkerLoop] and [WorkerLoopDemo] put the worker inside the loop.
    - [Pevent], [PeventProofs]: descriptors and pages of the events while they are
      opened, mapped, enabled and released (src/pevent_lib.cc,
      src/ringbuffer_utils.cc, perfown_sz and perfdisown of src/perf.cc).
    - [Clocks]: duration conversions, calibration of the counter, choice of the perf
      clock, rate limiter (src/perf_clock.cc, src/tsc_clock.cc, src/ratelimiter.cc).
    - [ElfModule]: notes, build ids, segments and bias of a module
      (src/ddprof_module_lib.cc, src/build_id.cc).  [Unwind]: the frames of a sample
      and the modules of a process (src/unwind_dwfl.cc, src/dwfl_wrapper.cc,
      src/unwind_state.cc); [UnwindProofs], [UnwindFrames] have the theorems,
      [UnwindDemo] a run.  [StackMemory]: registers and stack of a sample
      (src/stack_helper.cc, src/dwfl_thread_callbacks.cc).
    - [Symbols], [RuntimeSymbols]: the symbol lookups and their caches
      (src/*_lookup.cc, src/symbol_map.cc); [JitDump], [PerfMap]: the readers of both
      formats of symbols of a runtime (src/jit/jitdump.cc,
      src/runtime_symbol_lookup.cc); [SymbolTables]: the invariant of the tables and what
      an index stands for after any sequence of lookups.
    - [Pprof]: value slots, labels, locations, symbolizers, profiles
      (src/pprof/ddprof_pprof.cc, src/symbolizer.cc, src/ddog_profiling_utils.cc);
      [PprofProofs] has the theorems, [PprofDemo] a profile.  [Demangler]: Rust names
      (src/demangler/demangler.cc).
    - [Hooks]: the replaced allocation functions (src/lib/symbol_overrides.cc);
      [ElfLookup]: hash tables and symbols of a loaded library, [Overrides]:
      redirection of its relocations (src/lib/elfutils.cc); [Interposition]: setting
      up, updating and removing all hooks.
    - [Ipc], [WorkerServer]: messages with descriptors between library and profiler,
      and the loop that answers them (src/ipc.cc).
    - [Sha256], [CpuMask]: src/lib/sha256.c, src/ddprof_cpumask.cc.
    - [EventConfig]: scanner, parser and watchers of an event configuration
      (src/event_parser/, src/ddprof_cmdline_watcher.cc, src/tracepoint_config.cc);
      [EventConfigProofs] has the grammar and the theorems.
    - [Exporter]: tags, address, export and its answer (src/tags.cc,
      src/exporter/ddprof_exporter.cc).
    - [Profiling]: start and stop of the library (src/lib/dd_profiling.cc,
      src/ddprof_cmdline.cc, src/daemonize.cc).
    - [Loader], [LoaderProofs]: temporary files (src/tempfile.cc), libraries to inject
      (src/exe/main.cc), the loader of the library (src/lib/loader.c).  [Compat]:
      functions that a libc lacks (src/lib/glibc_fixes.c, src/lib/libc_compatibility.c).
    - [Startup], [StartupProofs]: watchers of the command line, processes of the start,
      change of user (src/ddprof_context_lib.cc, src/presets.cc, src/ddprof.cc,
      src/user_override.cc, src/exe/main.cc).  [CommandLine]: what follows the parsing
      of the options, the context, the composition of main (src/ddprof_cli.cc).
    - [Logging]: logger, statistics sockets, system checks (src/logger.cc,
      src/logger_setup.cc, src/statsd.cc, src/system_check.cc, src/procutils.cc).
      [Identifiers]: containers, UUIDs, random generator, addresses
      (src/container_id.cc, src/uuid.cc, include/prng.hpp, src/signal_helper.cc).

    State is a record per component; an operation is a function from state to
    state, in [option] where the code could leave the preconditions of a data
    structure ([None] is undefined behaviour, an invalid access or a failed fatal
    check), with [DDRes] for the code's own errors.  What the environment answers
    (locks taken, system calls, files, clocks, random draws, other threads) is an
    argument of the operation, so the theorems hold for all its behaviours.

    ** What the theorems show

    Each theorem states its conditions in its doc comment; the main ones follow.

    - Rings: for every interleaving of producers and consumer, exactly the committed
      payloads are delivered, in order (discards only with a consumer that releases in
      batches); reads make progress; commits notify the reader when they must; released
      space comes back.  The perf ring returns events in order, wrapped or not.
    - Records: a sample in the layout the kernel documents is decoded exactly; decoding
      inverts encoding on scalar fields but the CPU; the shortcut that reads the time of
      a record agrees with decoding; stacks lie inside the event.
    - Address set and live allocations: refinement of multisets and of an ideal map
      from addresses to stacks and sizes, isolation of processes and watchers.
    - Allocation tracker: sampling conserves bytes and terminates; with tracking of
      deallocations events and address set stay in step; what is pushed decodes to what
      was recorded.
    - Mappings: after any history no two mappings of a process overlap, lookups find
      the mapping that contains an address, an mmap event changes its range only.
    - Worker: no well-formed record and no export cycle leaves the preconditions of the
      data, if the unwinder keeps the mappings well-formed (the modelled one does:
      [WorkerUnwinder]) and values have a slot;
      tracker records have their effect on the live profile and the rest of the worker;
      no aggregated value is exported twice, and none is lost when the export threads can
      be created; a cycle forgets exactly the unvisited processes.
    - Main loop: with perf rings in the order of time each record of each ring is
      processed exactly once; with all rings in that order and a bounded latency the
      processing follows the order of times; the drain at the end processes everything;
      the worker never leaves its preconditions inside the loop.
    - Set-up: whatever the kernel refuses, the clean-up gives back exactly the
      descriptors and pages taken; a chosen clock passed its test.
    - Unwinding and symbols: every stack has between one and the maximum of frames and
      ends with the executable or the process; memory is read inside the copied stack
      only; each lookup returns an index that leads to what was asked, or to the first
      mapping asked for at the address; the reader of jitdump files accepts a truncated
      file of LLVM up to the last complete record.
    - Profiles: without inlined functions a sample is aggregated with its value at the
      slots of its watcher and locations and labels that are exactly those of its stack.
    - Library: with tracking of deallocations, after any nest of hooked calls the blocks
      reported are the live ones; the lookup of an ASCII name in a table of a linker finds
      what a search of the symbol table finds; removing the hooks restores every
      relocation, libraries loaded or unloaded in between included unless one took the
      address of another.
    - Event configurations: the parser accepts exactly the grammar, a printed
      configuration reads back, every watcher made of a text is well typed.
    - Start: the options select the watchers they name, once and ordered; the target
      runs whatever fails in the profiler but an exception in the search of its libraries
      and a change of user, and no null command is executed while profiling
      is enabled; what is attached is detached; a change of user is undone.  Starts and
      stops of the library implement sessions.
    - Loader: files are published atomically, a temporary one is left only when it cannot
      be removed; the library that is loaded has the digest
      of the build; the lookups of the linker's functions return.
    - Exporter: one exporter gives up exactly on a refusal or after repeated failures to
      connect.
    - Logs and identifiers: a message stays inside its buffer, the logger holds at most
      the descriptor it opened, a statistic is sent whole or reported; the matcher of
      regular expressions decides their languages, the generator never reaches its fixed
      point, UUIDs have version 4.
    - Messages: any fragmentation of the exchange gives the same information and
      descriptors; each client is answered once.  The digest is that of FIPS 180-4.
    - Behaviours that differ from the intent of the code are stated as theorems or
      examples: duplicates in the address set, the inverted bounds test of raw
      values, the cpu time counted twice, retries that cannot succeed, a limit
      on messages that is never set, an unverified file in the temporary directory.

    ** Bounds and fuel

    Machine integers keep their width where the code's arithmetic can wrap; sizes of
    live maps are assumed below [2 ^ 62] and durations are unbounded.  Loops over a
    ring have fuel [ring_fuel] (one iteration per 8 bytes of the ring), the probing
    loops the probe distance of the code, the sampling loop a number of iterations
    computed from the remaining bytes, the search of the ring size 32 iterations,
    the jitdump reader the bytes of the file, the loops of a socket one more than the
    answers of the kernel, the chains of a hash table one step per word of the table,
    the symbolization one more than the frames, the Rust names their characters,
    the scanner the characters of the configuration and its parser one more than the
    tokens, the wait for the profiler one iteration per ten milliseconds, the lookups of
    the linker three nested calls; the theorems show that the fuel is enough.  A stack
    has at most 512 frames, symbol tables fewer than [2 ^ 31] entries, hashed data fewer than [2 ^ 61] bytes.

    ** Not modelled

    Parsing and printing of the options (CLI11), reading the status of the process with
    scanf, the crash handler, capabilities, versions, the third-party header of scope
    guards (scope.hpp), the name of the debug file of a profile, and the tables of
    registers of aarch64.  libdwfl, libelf, blazesym, libdatadog, the demangler of LLVM and
    the kernel are parameters or inputs.  Interleavings of the atomic operations inside
    [AddressBitset] are not modelled: its operations are sequential. *)

From Stdlib Require Export ZArith Lia Bool.
From stdpp Require Export base gmap list strings fin_maps sets.

Global Open Scope Z_scope.

(** ** Machine integers

    A w-bit unsigned integer is a [Z] in [[0, 2^w)]; the wrap-around of C++'s
    unsigned arithmetic is written out with [u8] .. [u64], and the conversion
    to a signed 64-bit integer with [i64]. *)

Definition u8 (x : Z) : Z := x mod 2 ^ 8.
Definition u16 (x : Z) : Z := x mod 2 ^ 16.
Definition u32 (x : Z) : Z := x mod 2 ^ 32.
Definition u64 (x : Z) : Z := x mod 2 ^ 64.
Definition i32 (x : Z) : Z := (x + 2 ^ 31) mod 2 ^ 32 - 2 ^ 31.
Definition i64 (x : Z) : Z := (x + 2 ^ 63) mod 2 ^ 64 - 2 ^ 63.

#[global] Arguments u8 : simpl never.
#[global] Arguments u16 : simpl never.
#[global] Arguments u32 : simpl never.
#[global] Arguments u64 : simpl never.
#[global] Arguments i32 : simpl never.
#[global] Arguments i64 : simpl never.

Definition is_u64 (x : Z) : Prop := 0 <= x < 2 ^ 64.

Declare Scope word_scope.
Delimit Scope word_scope with word.
Notation "x +w y" := (u64 (x + y)) (at level 50, left associativity) : word_scope.
Notation "x -w y" := (u64 (x - y)) (at level 50, left associativity) : word_scope.
Notation "x *w y" := (u64 (x * y)) (at level 40, left associativity) : word_scope.
Global Open Scope word_scope.

(** ** Undefined behaviour

    A definition whose C++ original would dereference an invalid pointer, index
    out of range or call a standard function outside its precondition returns
    [None]; [let? x := e in k] stops at the first such step.  Theorems show when
    it does not happen. *)

Notation "'let?' x := e 'in' k" :=
  (match e with Some x => k | None => None end)
  (at level 10, x pattern, e at level 100, k at level 200) : word_scope.

(** Number of occurrences of [x] in a list of machine words. *)
Fixpoint occ (x : Z) (l : list Z) : nat :=
  match l with
  | [] => 0%nat
  | y :: l' => if y =? x then S (occ x l') else occ x l'
  end.

(** Number of elements of [l] that satisfy the boolean predicate [p]. *)
Fixpoint count_if {A} (p : A -> bool) (l : list A) : nat :=
  match l with
  | [] => 0%nat
  | y :: l' => if p y then S (count_if p l') else count_if p l'
  end.

(** Sum of a list of integers. *)
Fixpoint zsum (l : list Z) : Z :=
  match l with
  | [] => 0
  | x :: l' => x + zsum l'
  end.

(** First index at or after [i] of an element satisfying [p]; [length] when none. *)
Fixpoint find_index {A} (p : A -> bool) (l : list A) : nat :=
  match l with
  | [] => 0%nat
  | x :: l' => if p x then 0%nat else S (find_index p l')
  end.

(** ** Proof automation *)

Create HintDb ddprof.
Create Rewrite HintDb word.

(** Turn boolean comparisons on [Z] and [nat] in hypotheses into propositions. *)
Ltac zbool :=
  repeat match goal with
  | H : (_ =? _) = true |- _ => apply Z.eqb_eq in H
  | H : (_ =? _) = false |- _ => apply Z.eqb_neq in H
  | H : (_ <? _) = true |- _ => apply Z.ltb_lt in H
  | H : (_ <? _) = false |- _ => apply Z.ltb_ge in H
  | H : (_ <=? _) = true |- _ => apply Z.leb_le in H
  | H : (_ <=? _) = false |- _ => apply Z.leb_gt in H
  | H : (_ && _)%bool = true |- _ => apply andb_true_iff in H; destruct H
  | H : (_ || _)%bool = false |- _ => apply orb_false_iff in H; destruct H
  | H : (_ || _)%bool = true |- _ => apply orb_true_iff in H
  | H : (_ && _)%bool = false |- _ => apply andb_false_iff in H
  | H : negb _ = true |- _ => apply negb_true_iff in H
  | H : negb _ = false |- _ => apply negb_false_iff in H
  end.

(** Case on the conditions of the [if]s of the goal, with boolean reflection. *)
Ltac zcase :=
  match goal with
  | |- context [if ?b then _ else _] =>
      match b with
      | context [if _ then _ else _] => fail 1
      | _ => let E := fresh "E" in destruct b eqn:E; zbool
      end
  end.

Ltac zcases := repeat zcase.

(** The sixteen cases of a hexadecimal digit. *)
Ltac each_digit u :=
  let H := fresh in
  assert (H : u = 0 \/ u = 1 \/ u = 2 \/ u = 3 \/ u = 4 \/ u = 5 \/ u = 6 \/ u = 7 \/ u = 8 \/ u = 9 \/ u = 10 \/ u = 11 \/ u = 12 \/ u = 13 \/ u = 14 \/ u = 15) by lia;
  repeat (destruct H as [H|H]); subst u.

(** ** Machine-integer lemmas *)

Lemma u64_range x : 0 <= u64 x < 2 ^ 64.
Proof. apply Z.mod_pos_bound. lia. Qed.

Lemma u32_range x : 0 <= u32 x < 2 ^ 32.
Proof. apply Z.mod_pos_bound. lia. Qed.

Lemma u64_small x : is_u64 x -> u64 x = x.
Proof. intros H. apply Z.mod_small. exact H. Qed.

Lemma u32_small x : 0 <= x < 2 ^ 32 -> u32 x = x.
Proof. apply Z.mod_small. Qed.

Lemma i64_small x : - 2 ^ 63 <= x < 2 ^ 63 -> i64 x = x.
Proof. intros H. unfold i64. rewrite Z.mod_small; lia. Qed.

Lemma u64_u64 x : u64 (u64 x) = u64 x.
Proof. apply u64_small, u64_range. Qed.

Lemma u64_add_l x y : u64 (u64 x + y) = u64 (x + y).
Proof. unfold u64. apply Zplus_mod_idemp_l. Qed.

Lemma u64_add_r x y : u64 (x + u64 y) = u64 (x + y).
Proof. unfold u64. apply Zplus_mod_idemp_r. Qed.

Lemma u64_sub_l x y : u64 (u64 x - y) = u64 (x - y).
Proof. unfold u64. apply Zminus_mod_idemp_l. Qed.

Lemma u64_sub_r x y : u64 (x - u64 y) = u64 (x - y).
Proof. unfold u64. apply Zminus_mod_idemp_r. Qed.

(** Masking with [2^k - 1] is the remainder modulo [2^k]. *)
Lemma land_mask x k : 0 <= k -> Z.land x (2 ^ k - 1) = x mod 2 ^ k.
Proof.
  intros Hk. replace (2 ^ k - 1) with (Z.ones k) by (rewrite Z.ones_equiv; lia).
  by apply Z.land_ones.
Qed.

Lemma land_mask_bound x k : 0 <= k -> 0 <= Z.land x (2 ^ k - 1) < 2 ^ k.
Proof. intros Hk. rewrite land_mask by done. apply Z.mod_pos_bound. lia. Qed.

#[export] Hint Resolve u64_range u32_range : ddprof.
#[export] Hint Rewrite u64_u64 u64_add_l u64_add_r u64_sub_l u64_sub_r : word.

(** ** List lemmas *)

Lemma occ_app x l1 l2 : occ x (l1 ++ l2) = (occ x l1 + occ x l2)%nat.
Proof. induction l1; simpl; [done|]. zcases; lia. Qed.

(** Overwriting position [i] removes one occurrence of the old element and adds
    one of the new. *)
Lemma occ_insert x l i old new :
  l !! i = Some old ->
  (occ x (<[i := new]> l) + Nat.b2n (old =? x)%Z
   = occ x l + Nat.b2n (new =? x)%Z)%nat.
Proof.
  revert i. induction l as [|y l IH]; intros [|i] H; simplify_eq/=.
  - unfold Nat.b2n. zcases; lia.
  - specialize (IH _ H). unfold Nat.b2n in *. repeat case_match; lia.
Qed.

Lemma occ_elem x l : (0 < occ x l)%nat <-> x ∈ l.
Proof.
  induction l as [|y l IH]; simpl.
  - split; [lia|]. intros H. by apply not_elem_of_nil in H.
  - rewrite elem_of_cons, <- IH. zcases; intuition lia.
Qed.

Lemma occ_replicate_ne x y n : x <> y -> occ x (replicate n y) = 0%nat.
Proof. intros. induction n; simpl; [done|]. zcases; lia. Qed.

Lemma count_if_insert {A} (p : A -> bool) l i old new :
  l !! i = Some old ->
  (count_if p (<[i := new]> l) + Nat.b2n (p old)
   = count_if p l + Nat.b2n (p new))%nat.
Proof.
  revert i. induction l as [|y l IH]; intros [|i] H; simplify_eq/=.
  - unfold Nat.b2n. zcases; lia.
  - specialize (IH _ H). unfold Nat.b2n in *. repeat case_match; lia.
Qed.

Lemma count_if_le {A} (p : A -> bool) l : (count_if p l <= length l)%nat.
Proof. induction l; simpl; [done|]. zcases; lia. Qed.

Lemma count_if_app {A} (p : A -> bool) l1 l2 :
  count_if p (l1 ++ l2) = (count_if p l1 + count_if p l2)%nat.
Proof. induction l1; simpl; [done|]. zcases; lia. Qed.

Lemma zsum_app l1 l2 : zsum (l1 ++ l2) = zsum l1 + zsum l2.
Proof. induction l1; simpl; lia. Qed.

Lemma find_index_le {A} (p : A -> bool) l : (find_index p l <= length l)%nat.
Proof. induction l; simpl; [done|]. zcases; lia. Qed.

Lemma find_index_lt_lookup {A} (p : A -> bool) l :
  (find_index p l < length l)%nat ->
  exists x, l !! find_index p l = Some x /\ p x = true.
Proof.
  induction l as [|y l IH]; simpl; [lia|]. zcases; intros H; [by exists y|].
  apply IH. lia.
Qed.

Lemma find_index_before {A} (p : A -> bool) l i x :
  (i < find_index p l)%nat -> l !! i = Some x -> p x = false.
Proof.
  revert i. induction l as [|y l IH]; intros [|i] Hi Hl; simplify_eq/=.
  - destruct (p x) eqn:E; [|done]. simpl in Hi. lia.
  - destruct (p y) eqn:E; simpl in Hi; [lia|]. eapply IH; [|done]. lia.
Qed.

Lemma zsum_perm l1 l2 : l1 ≡ₚ l2 -> zsum l1 = zsum l2.
Proof. induction 1; simpl; lia. Qed.

(** Sum of [f] over the values of a finite map. *)
Definition msum `{Countable K} {A} (f : A -> Z) (m : gmap K A) : Z :=
  zsum (map (fun kv => f (snd kv)) (map_to_list m)).

Lemma msum_insert `{Countable K} {A} (f : A -> Z) (m : gmap K A) k x :
  m !! k = None -> msum f (<[k := x]> m) = f x + msum f m.
Proof.
  intros Hk. unfold msum. rewrite (zsum_perm _ (map (fun kv => f (snd kv)) ((k, x) :: map_to_list m))).
  - done.
  - apply fmap_Permutation. by apply map_to_list_insert.
Qed.

Lemma msum_delete `{Countable K} {A} (f : A -> Z) (m : gmap K A) k x :
  m !! k = Some x -> msum f m = f x + msum f (delete k m).
Proof.
  intros Hk. rewrite <- (insert_delete_id m k x Hk) at 1. apply msum_insert. apply lookup_delete_eq.
Qed.

Lemma msum_empty `{Countable K} {A} (f : A -> Z) : msum f (∅ : gmap K A) = 0.
Proof. unfold msum. by rewrite map_to_list_empty. Qed.

Lemma msum_nonneg `{Countable K} {A} (f : A -> Z) (m : gmap K A) : (forall x, 0 <= f x) -> 0 <= msum f m.
Proof.
  intros Hf. unfold msum. induction (map_to_list m) as [|[k x] l IH]; cbn [map zsum snd]; [lia|].
  specialize (Hf x). lia.
Qed.

(** A set of integers of [[0, n)] has at most [n] elements. *)
Lemma size_bounded (X : gset Z) n : (forall x, x ∈ X -> 0 <= x < n) -> (size X <= Z.to_nat n)%nat.
Proof.
  intros H. rewrite <- (length_seqZ 0 n), <- (size_list_to_set (C := gset Z)) by apply NoDup_seqZ.
  apply subseteq_size. intros x Hx. apply elem_of_list_to_set, elem_of_seqZ. specialize (H x Hx). lia.
Qed.
