(* ===== verification/Compat.v ===== *)
(** * Replacements of libc functions

    Model of [src/lib/libc_compatibility.c] ([getentropy]) and of [src/lib/glibc_fixes.c]: functions that an old or another libc lacks, looked up once and
    kept in a static variable.  The random bytes and the symbols that the linker finds are inputs. *)

From S2P Require Import Prelude.

Local Open Scope Z_scope.

(** ** getentropy *)

(** A call of [getrandom]: bytes, an interruption, another failure. *)
Inductive random_answer := Bytes (l : list Z) | Interrupted | Failed.

(** The bytes written so far and what is left to write; at most the bytes asked for are returned.  [None]: the answers do not suffice. *)
Fixpoint getrandom_loop (answers : list random_answer) (len : nat) (written : list Z) : option (Z * list Z) :=
  match len with
  | O => Some (0, written)
  | _ =>
      match answers with
      | [] => None
      | Bytes l :: answers' => let got := take len l in getrandom_loop answers' (len - length got) (written ++ got)
      | Interrupted :: answers' => getrandom_loop answers' len written
      | Failed :: _ => Some (-1, written)
      end
  end.

Definition getentropy (len : nat) (answers : list random_answer) : option (Z * list Z) :=
  if (256 <? len)%nat then Some (-1, []) else getrandom_loop answers len [].

Lemma getrandom_loop_spec answers : forall len written ret out, getrandom_loop answers len written = Some (ret, out) ->
  (ret = 0 /\ length out = (length written + len)%nat) \/ (ret = -1 /\ (length out < length written + len)%nat).
Proof.
  induction answers as [|a answers IH]; intros len written ret out; (destruct len as [|len]; [intros [= <- <-]; left; split; [done|lia]|]); cbn [getrandom_loop]; [done|].
  destruct a as [l| |].
  - intros H%IH. rewrite length_app, length_take in H. lia.
  - apply IH.
  - intros [= <- <-]. right. split; [done|lia].
Qed.

(** The buffer is filled whole when the call succeeds, and never reported as filled when it is not. *)
Theorem getentropy_all_or_error len answers ret out : getentropy len answers = Some (ret, out) ->
  (ret = 0 /\ length out = len /\ (len <= 256)%nat) \/ (ret = -1 /\ ((length out < len)%nat)).
Proof.
  unfold getentropy. destruct (256 <? len)%nat eqn:E; [apply Nat.ltb_lt in E; intros [= <- <-]; right; cbn; split; [done|lia]|].
  apply Nat.ltb_ge in E. intros [[H1 H2] | [H1 H2]]%getrandom_loop_spec; [left|right]; cbn in *; auto.
Qed.

(** ** glibc_fixes.c *)

(** A function that is called: one that glibc exports, one that the linker found, or the replacement itself. *)
Inductive target := Exported | Found (addr : Z) | Itself.
#[global] Instance target_eq_dec : EqDecision target.
Proof. solve_decision. Defined.

(** What a call does: another function is called, or the end that should not happen ([-1] without assertions). *)
Inductive outcome := Calls (t : target) | ShouldNotHappen.

(** The common lookup: the exported function when there is one, else the cached one, looked up once. *)
Definition forward (exported has_dlsym : bool) (dlsym_next : option target) (cached : option target) : outcome * option target :=
  if exported then (Calls Exported, cached)
  else
    let cached := match cached with None => if has_dlsym then dlsym_next else None | Some _ => cached end in
    (match cached with Some t => Calls t | None => ShouldNotHappen end, cached).

Definition fstat_ (has_fxstat : bool) := forward has_fxstat.
Definition stat_ (has_xstat : bool) := forward has_xstat.
Definition lstat_ := forward false.

(** The symbol of the whole process may be the replacement: it is not kept. *)
Definition pthread_atfork_ (has_register_atfork has_dlsym : bool) (next default_ : option target) (cached : option target) : outcome * option target :=
  if has_register_atfork then (Calls Exported, cached)
  else
    let cached :=
      match cached with
      | Some _ => cached
      | None =>
          if has_dlsym then
            match next with
            | Some t => Some t
            | None => if bool_decide (default_ = Some Itself) then None else default_
            end
          else None
      end in
    (match cached with Some t => Calls t | None => ShouldNotHappen end, cached).

(** Any sequence of calls, with what the linker answers to each. *)
Fixpoint atfork_calls (l : list (bool * bool * option target * option target)) (cached : option target) : list outcome :=
  match l with
  | [] => []
  | (reg, dl, next, def) :: l' => let '(o, cached) := pthread_atfork_ reg dl next def cached in o :: atfork_calls l' cached
  end.

(** The replacement of [pthread_atfork] never calls itself, when the next symbol after a library is not one of that library. *)
Theorem atfork_never_recurses l : Forall (fun '(_, _, next, _) => next <> Some Itself) l -> Calls Itself ∉ atfork_calls l None.
Proof.
  assert (forall cached, cached <> Some Itself -> Forall (fun '(_, _, next, _) => next <> Some Itself) l -> Calls Itself ∉ atfork_calls l cached) as H; [|by apply H].
  induction l as [|[[[reg dl] next] def] l IH]; intros cached Hc Hl; [by apply not_elem_of_nil|]. apply Forall_cons in Hl as [Hn Hl]. cbn [atfork_calls].
  unfold pthread_atfork_. destruct reg; [apply not_elem_of_cons; split; [done|by apply IH]|].
  set (cached' := match cached with Some _ => cached | None => _ end). assert (cached' <> Some Itself) as Hc'.
  { unfold cached'. destruct cached; [done|]. destruct dl; [|done]. destruct next; [done|]. by case_bool_decide. }
  clearbody cached'. apply not_elem_of_cons. split; [destruct cached'; [intros [= <-]; done|done]|by apply IH].
Qed.

(** A function that was found once is not looked up again. *)
Theorem forward_looks_up_once exported has_dlsym next next' t cached o :
  forward exported has_dlsym next cached = (o, Some t) -> forward exported has_dlsym next' (Some t) = (if exported then Calls Exported else Calls t, Some t).
Proof. unfold forward. by destruct exported. Qed.
