(* ===== verification/AddressSet.v ===== *)
(** * AddressBitset: the set of sampled live addresses

    Model of [src/lib/address_bitset.cc] and [include/lib/address_bitset.hpp]:
    a two-level sharded open-addressing hash set that the allocation tracker
    uses to remember which sampled addresses are still allocated.  Each
    operation runs alone; the interleaving of the atomic steps of several
    threads is not modelled.  [None] is undefined behaviour (null or
    out-of-range access). *)

From S2P Require Import Prelude.

(** ** Level 2: one hash table *)

Definition k_empty_slot : Z := 0.
Definition k_deleted_slot : Z := 1.
Definition k_max_load_factor_percent : Z := 80.
Definition k_percent_divisor : Z := 100.

(** [while (num) { num >>= 1; count++; }]: 64 iterations empty a 64-bit word. *)
Fixpoint shift_count (fuel : nat) (num count : Z) : Z :=
  match fuel with
  | O => count
  | S f => if num =? 0 then count else shift_count f (Z.shiftr num 1) (count + 1)
  end.

(** [None]: [size_t{1} << 64] is undefined. *)
Definition round_up_to_power_of_two (num : Z) : option Z :=
  if num =? 0 then Some num
  else if Z.land num (num -w 1) =? 0 then Some num
  else
    let count := shift_count 64 num 0 in
    if count <? 64 then Some (Z.shiftl 1 count) else None.

Record AddressTable := mkTable {
  table_size : Z;
  table_mask : Z;
  max_capacity : Z;
  slots : list Z;
  tcount : Z
}.

Definition mk_address_table (size : Z) : option AddressTable :=
  let? ts := round_up_to_power_of_two size in
  Some {| table_size := ts;
          table_mask := ts -w 1;
          max_capacity := (ts *w k_max_load_factor_percent) / k_percent_divisor;
          slots := replicate (Z.to_nat ts) k_empty_slot;
          tcount := 0 |}.

Definition with_slots (t : AddressTable) (s : list Z) (c : Z) : AddressTable :=
  {| table_size := table_size t; table_mask := table_mask t;
     max_capacity := max_capacity t; slots := s; tcount := c |}.

Definition k_max_bits_ignored : Z := 4.
Definition k_hash_multiplier_1 : Z := 0x9E3779B97F4A7C15.
Definition k_hash_multiplier_2 : Z := 0x85EBCA77C2B2AE63.

Definition compute_full_hash (addr : Z) : Z :=
  let h := Z.shiftr addr k_max_bits_ignored in
  let h := h *w k_hash_multiplier_1 in
  let h := Z.lxor h (Z.shiftr h 32) in
  let h := h *w k_hash_multiplier_2 in
  Z.lxor h (Z.shiftr h 32).

Definition hash_to_slot (hash mask : Z) : Z := u32 (Z.land (u32 hash) mask).

(** [slot = (slot + 1) & table_mask] on a [uint32_t] slot. *)
Definition next_slot (slot mask : Z) : Z := u32 (Z.land (u32 (slot + 1)) mask).

Definition k_max_probe_distance : nat := 64.

(** The probing loop of [add]; running alone, the compare-exchange on the value
    just loaded succeeds. *)
Fixpoint add_probe (fuel : nat) (mask addr slot : Z) (s : list Z) : option (bool * list Z) :=
  match fuel with
  | O => Some (false, s)
  | S f =>
      let? current := s !! Z.to_nat slot in
      if (current =? k_empty_slot) || (current =? k_deleted_slot)
      then Some (true, <[Z.to_nat slot := addr]> s)
      else if current =? addr then Some (false, s)
      else add_probe f mask addr (next_slot slot mask) s
  end.

(** The probing loop of [remove]. *)
Fixpoint remove_probe (fuel : nat) (mask addr slot : Z) (s : list Z) : option (bool * list Z) :=
  match fuel with
  | O => Some (false, s)
  | S f =>
      let? current := s !! Z.to_nat slot in
      if current =? k_empty_slot then Some (false, s)
      else if current =? k_deleted_slot then remove_probe f mask addr (next_slot slot mask) s
      else if current =? addr then Some (true, <[Z.to_nat slot := k_deleted_slot]> s)
      else remove_probe f mask addr (next_slot slot mask) s
  end.

Definition table_add (t : AddressTable) (addr : Z) : option (bool * AddressTable) :=
  if max_capacity t <=? tcount t then Some (false, t)
  else
    let slot := hash_to_slot (compute_full_hash addr) (table_mask t) in
    let? (ok, s) := add_probe k_max_probe_distance (table_mask t) addr slot (slots t) in
    Some (ok, with_slots t s (if ok then tcount t +w 1 else tcount t)).

Definition table_remove (t : AddressTable) (addr : Z) : option (bool * AddressTable) :=
  let slot := hash_to_slot (compute_full_hash addr) (table_mask t) in
  let? (ok, s) := remove_probe k_max_probe_distance (table_mask t) addr slot (slots t) in
  Some (ok, with_slots t s (if ok then tcount t -w 1 else tcount t)).

(** ** Level 1: the redirect table *)

Definition k_chunk_shift : Z := 27.
Definition k_max_chunks : nat := 128.
Definition k_default_table_size : Z := 32768.

(** [_chunk_tables] and [_large_alloc_table] are [unique_ptr]s to (arrays of)
    table pointers: the outer [option] is the null [unique_ptr] of a moved-from
    object, the inner one a table not created yet. *)
Record AddressBitset := mkBitset {
  per_table_size : Z;
  chunk_tables : option (list (option AddressTable));
  large_alloc_table : option (option AddressTable)
}.

Definition init (table_size : Z) : option AddressBitset :=
  let per := if table_size =? 0 then k_default_table_size else table_size in
  let? large := mk_address_table per in
  Some {| per_table_size := per;
          chunk_tables := Some (replicate k_max_chunks None);
          large_alloc_table := Some (Some large) |}.

(** The result of [move_from(other)]: the new [*this] and what is left of [other]. *)
Definition move_from (other : AddressBitset) : AddressBitset * AddressBitset :=
  (other, {| per_table_size := 0; chunk_tables := None; large_alloc_table := None |}).

(** [table_ptr]: the atomic pointer an address selects. *)
Inductive table_ref := RefLarge | RefChunk (i : nat).

Definition select_ref (addr : Z) (is_large_alloc : bool) : table_ref :=
  if is_large_alloc then RefLarge
  else RefChunk (Z.to_nat (Z.land (Z.shiftr addr k_chunk_shift) (Z.of_nat k_max_chunks - 1))).

Definition load_ref (bs : AddressBitset) (r : table_ref) : option (option AddressTable) :=
  match r with
  | RefLarge => large_alloc_table bs
  | RefChunk i => let? ts := chunk_tables bs in ts !! i
  end.

Definition store_ref (bs : AddressBitset) (r : table_ref) (t : AddressTable) : AddressBitset :=
  match r with
  | RefLarge => {| per_table_size := per_table_size bs; chunk_tables := chunk_tables bs;
                   large_alloc_table := Some (Some t) |}
  | RefChunk i => {| per_table_size := per_table_size bs;
                     chunk_tables := option_map (fun ts => <[i := Some t]> ts) (chunk_tables bs);
                     large_alloc_table := large_alloc_table bs |}
  end.

(** The table of [addr], created on demand, and the object after the call. *)
Definition get_table (bs : AddressBitset) (addr : Z) (is_large_alloc create_if_missing : bool) :
    option (option AddressTable * AddressBitset) :=
  let r := select_ref addr is_large_alloc in
  let? table := load_ref bs r in
  match table with
  | Some t => Some (Some t, bs)
  | None =>
      if create_if_missing then
        let? nt := mk_address_table (per_table_size bs) in
        Some (Some nt, store_ref bs r nt)
      else Some (None, bs)
  end.

Definition add (bs : AddressBitset) (addr : Z) (is_large_alloc : bool) :
    option (bool * AddressBitset) :=
  let? g := get_table bs addr is_large_alloc true in
  match g with
  | (None, bs1) => Some (false, bs1)
  | (Some t, bs1) =>
      let? (ok, t') := table_add t addr in
      Some (ok, store_ref bs1 (select_ref addr is_large_alloc) t')
  end.

Definition remove (bs : AddressBitset) (addr : Z) (is_large_alloc : bool) :
    option (bool * AddressBitset) :=
  let? g := get_table bs addr is_large_alloc false in
  match g with
  | (None, bs1) => Some (false, bs1)
  | (Some t, bs1) =>
      let? (ok, t') := table_remove t addr in
      Some (ok, store_ref bs1 (select_ref addr is_large_alloc) t')
  end.

Definition clear_table (t : AddressTable) : AddressTable :=
  with_slots t (replicate (Z.to_nat (table_size t)) k_empty_slot) 0.

Definition clear (bs : AddressBitset) : AddressBitset :=
  {| per_table_size := per_table_size bs;
     chunk_tables := option_map (map (option_map clear_table)) (chunk_tables bs);
     large_alloc_table := option_map (option_map clear_table) (large_alloc_table bs) |}.

(** [total += table->count] on an [int]. *)
Definition add_count (total : Z) (ot : option AddressTable) : Z :=
  match ot with Some t => i32 (total + tcount t) | None => total end.

Definition count (bs : AddressBitset) : Z :=
  match chunk_tables bs with
  | None => 0
  | Some ts =>
      let total := fold_left add_count ts 0 in
      match large_alloc_table bs with
      | Some ot => add_count total ot
      | None => total
      end
  end.

Definition is_active (ot : option AddressTable) : bool :=
  match ot with Some _ => true | None => false end.

Definition active_shards (bs : AddressBitset) : Z :=
  match chunk_tables bs with
  | None => 0
  | Some ts =>
      let active := Z.of_nat (count_if is_active ts) in
      match large_alloc_table bs with
      | Some (Some _) => active + 1
      | _ => active
      end
  end.

(** ** Invariants *)

(** A slot holds a tracked address. *)
Definition occupied (x : Z) : bool := negb ((x =? k_empty_slot) || (x =? k_deleted_slot)).

(** The address of the [d]-th probe for [a] in a table of [2^k] slots. *)
Definition probe_at (k a : Z) (d : nat) : nat :=
  Z.to_nat ((hash_to_slot (compute_full_hash a) (2 ^ k - 1) + Z.of_nat d) mod 2 ^ k).

(** Every stored address is found by probing from its hash slot: it lies within
    the probe distance, and no slot before it is empty. *)
Definition reachable (k : Z) (s : list Z) : Prop :=
  forall i x, s !! i = Some x -> occupied x = true ->
    exists d, (d < k_max_probe_distance)%nat /\ i = probe_at k x d /\
      forall d', (d' < d)%nat -> s !! probe_at k x d' <> Some k_empty_slot.

Record table_wf (t : AddressTable) : Prop := {
  wf_size : exists k, 0 <= k <= 32 /\ table_size t = 2 ^ k /\ table_mask t = 2 ^ k - 1 /\
              length (slots t) = Z.to_nat (2 ^ k) /\ reachable k (slots t);
  wf_count : tcount t = Z.of_nat (count_if occupied (slots t))
}.

Definition opt_table_wf (ot : option AddressTable) : Prop :=
  match ot with Some t => table_wf t | None => True end.

Record bitset_wf (bs : AddressBitset) : Prop := {
  wf_per : 1 <= per_table_size bs <= 2 ^ 32;
  wf_chunks : exists ts, chunk_tables bs = Some ts /\ length ts = k_max_chunks /\
                Forall opt_table_wf ts;
  wf_large : exists ot, large_alloc_table bs = Some ot /\ opt_table_wf ot
}.

(** Addresses the client may pass (the code asserts it is neither sentinel). *)
Definition valid_addr (a : Z) : Prop := is_u64 a /\ a <> k_empty_slot /\ a <> k_deleted_slot.

(** How many times [b] is recorded in the table [r] selects. *)
Definition tracked (bs : AddressBitset) (r : table_ref) (b : Z) : nat :=
  match load_ref bs r with
  | Some (Some t) => occ b (slots t)
  | _ => 0%nat
  end.

(** ** Slot arithmetic *)

#[local] Arguments probe_at : simpl never.
#[local] Arguments compute_full_hash : simpl never.
#[local] Arguments hash_to_slot : simpl never.
#[local] Arguments next_slot : simpl never.

Lemma mod_pow2_mod x k n : 0 <= k <= n -> (x mod 2 ^ n) mod 2 ^ k = x mod 2 ^ k.
Proof.
  intros H. apply Z.mod_mod_divide.
  exists (2 ^ (n - k)). rewrite <- Z.pow_add_r by lia. f_equal. lia.
Qed.

Lemma u32_land_mask x k : 0 <= k <= 32 -> u32 (Z.land (u32 x) (2 ^ k - 1)) = x mod 2 ^ k.
Proof.
  intros H. rewrite land_mask by lia. unfold u32 at 2. rewrite mod_pow2_mod by lia.
  apply u32_small. pose proof (Z.mod_pos_bound x (2 ^ k)).
  assert (2 ^ k <= 2 ^ 32) by (apply Z.pow_le_mono_r; lia). lia.
Qed.

Lemma next_slot_probe k a d : 0 <= k <= 32 ->
  next_slot (Z.of_nat (probe_at k a d)) (2 ^ k - 1) = Z.of_nat (probe_at k a (S d)).
Proof.
  intros H. unfold next_slot, probe_at. rewrite u32_land_mask by done.
  assert (0 < 2 ^ k) by lia.
  rewrite !Z2Nat.id by (apply Z.mod_pos_bound; lia).
  rewrite Zplus_mod_idemp_l. f_equal. lia.
Qed.

Lemma hash_slot_probe k a : 0 <= k <= 32 ->
  hash_to_slot (compute_full_hash a) (2 ^ k - 1) = Z.of_nat (probe_at k a 0).
Proof.
  intros H. unfold probe_at. rewrite Z.add_0_r. unfold hash_to_slot.
  rewrite u32_land_mask by done.
  rewrite Z.mod_mod by lia. rewrite Z2Nat.id; [done|]. apply Z.mod_pos_bound. lia.
Qed.

Lemma probe_at_lookup {A} k a d (s : list A) :
  0 <= k -> length s = Z.to_nat (2 ^ k) -> exists x, s !! probe_at k a d = Some x.
Proof.
  intros Hk Hl. apply lookup_lt_is_Some_2. rewrite Hl. unfold probe_at.
  apply Z2Nat.inj_lt; try apply Z.mod_pos_bound; lia.
Qed.

Lemma unoccupied_cases x :
  ((x =? k_empty_slot) || (x =? k_deleted_slot)) = negb (occupied x).
Proof. unfold occupied. by rewrite negb_involutive. Qed.

Lemma valid_addr_occupied a : valid_addr a -> occupied a = true.
Proof.
  intros (_ & H0 & H1). unfold occupied. apply negb_true_iff, orb_false_iff.
  split; by apply Z.eqb_neq.
Qed.

(** ** The probing loops *)

(** Slots probed before [d] hold other addresses. *)
Definition passed (k a : Z) (s : list Z) (d : nat) : Prop :=
  forall d', (d' < d)%nat -> exists y, s !! probe_at k a d' = Some y /\ occupied y = true /\ y <> a.

Lemma passed_S k a s d y :
  passed k a s d -> s !! probe_at k a d = Some y -> occupied y = true -> y <> a ->
  passed k a s (S d).
Proof.
  intros Hp Hy Ho Hne d' Hd. destruct (decide (d' = d)) as [->|]; [by exists y|].
  apply Hp. lia.
Qed.

(** [add] claims the first free slot of the window, unless it meets the address. *)
Lemma add_probe_spec k a s fuel d :
  0 <= k <= 32 -> length s = Z.to_nat (2 ^ k) -> passed k a s d ->
  (exists d1 x, (d <= d1 < d + fuel)%nat /\ passed k a s d1 /\
     s !! probe_at k a d1 = Some x /\ occupied x = false /\
     add_probe fuel (2 ^ k - 1) a (Z.of_nat (probe_at k a d)) s
       = Some (true, <[probe_at k a d1 := a]> s)) \/
  (add_probe fuel (2 ^ k - 1) a (Z.of_nat (probe_at k a d)) s = Some (false, s) /\
     (passed k a s (d + fuel) \/
      exists d1, (d1 < d + fuel)%nat /\ s !! probe_at k a d1 = Some a /\ occupied a = true)).
Proof.
  intros Hk Hl. revert d. induction fuel as [|f IH]; intros d Hp; cbn [add_probe].
  { right. split; [done|]. left. by rewrite Nat.add_0_r. }
  rewrite Nat2Z.id. destruct (probe_at_lookup k a d s) as [x Hx]; [lia|done|].
  rewrite Hx, unoccupied_cases. destruct (occupied x) eqn:Ho; cbn [negb].
  - destruct (Z.eqb_spec x a) as [->|Hne].
    + right. split; [done|]. right. exists d. repeat split; [lia|done..].
    + rewrite next_slot_probe by done.
      destruct (IH (S d)) as [(d1 & y & ? & ? & ? & ? & E)|(E & [?|(d1 & ? & ?)])];
        [by eapply passed_S| | |]; rewrite E.
      * left. exists d1, y. repeat split; [lia..|done|done|done].
      * right. split; [done|]. left. by rewrite <- plus_n_Sm.
      * right. split; [done|]. right. exists d1. split; [lia|done].
  - left. exists d, x. repeat split; [lia..|done|done|done].
Qed.

(** [remove] deletes [a] exactly when it is within reach; every slot it skips is
    not empty. *)
Lemma remove_probe_spec k a s fuel d :
  0 <= k <= 32 -> length s = Z.to_nat (2 ^ k) -> occupied a = true ->
  (exists d1, (d <= d1 < d + fuel)%nat /\ s !! probe_at k a d1 = Some a /\
     remove_probe fuel (2 ^ k - 1) a (Z.of_nat (probe_at k a d)) s
       = Some (true, <[probe_at k a d1 := k_deleted_slot]> s)) \/
  (remove_probe fuel (2 ^ k - 1) a (Z.of_nat (probe_at k a d)) s = Some (false, s) /\
     forall d1, (d <= d1 < d + fuel)%nat -> s !! probe_at k a d1 = Some a ->
       exists d2, (d <= d2 < d1)%nat /\ s !! probe_at k a d2 = Some k_empty_slot).
Proof.
  intros Hk Hl Ha. revert d. induction fuel as [|f IH]; intros d; cbn [remove_probe].
  { right. split; [done|]. lia. }
  rewrite Nat2Z.id. destruct (probe_at_lookup k a d s) as [x Hx]; [lia|done|].
  rewrite Hx, next_slot_probe by done.
  assert (Hskip : x <> a -> forall d1, (d <= d1 < d + S f)%nat ->
     s !! probe_at k a d1 = Some a -> (S d <= d1 < S d + f)%nat).
  { intros Hne d1 ? Hd1. destruct (decide (d1 = d)) as [->|]; [congruence|lia]. }
  specialize (IH (S d)).
  destruct (Z.eqb_spec x k_empty_slot) as [->|Hne0].
  { right. split; [done|]. intros d1 Hr Hd1. exists d. split; [|done].
    apply Hskip in Hd1; [lia| |done]. intros <-. done. }
  destruct (Z.eqb_spec x a) as [->|Hne].
  { left. exists d. split; [lia|]. split; [done|].
    unfold occupied in Ha. apply negb_true_iff, orb_false_iff in Ha as [_ ->]. done. }
  assert (Hgo : (if x =? k_deleted_slot
      then remove_probe f (2 ^ k - 1) a (Z.of_nat (probe_at k a (S d))) s
      else remove_probe f (2 ^ k - 1) a (Z.of_nat (probe_at k a (S d))) s)
      = remove_probe f (2 ^ k - 1) a (Z.of_nat (probe_at k a (S d))) s) by by destruct (x =? _).
  rewrite Hgo. clear Hgo.
  destruct IH as [(d1 & ? & ? & E)|(E & Hno)]; rewrite E.
  - left. exists d1. repeat split; [lia..|done].
  - right. split; [done|]. intros d1 Hr Hd1. pose proof (Hskip Hne d1 Hr Hd1) as Hr'.
    destruct (Hno d1 Hr' Hd1) as (d2 & ? & ?). exists d2. split; [lia|done].
Qed.

(** ** One table *)

Lemma reachable_insert_free k s i x a d :
  reachable k s -> s !! i = Some x -> occupied x = false -> occupied a = true ->
  i = probe_at k a d -> (d < k_max_probe_distance)%nat -> passed k a s d ->
  reachable k (<[i := a]> s).
Proof.
  intros Hr Hi Hx Ha -> Hd Hp j y Hj Hy.
  assert (Hkeep : forall p, s !! p <> Some k_empty_slot ->
            <[probe_at k a d := a]> s !! p <> Some k_empty_slot).
  { intros p Hp0. rewrite list_lookup_insert. case_decide as C; [|done].
    intros [= ->]. done. }
  apply list_lookup_insert_Some in Hj as [(<- & <- & _)|(Hne & Hj)].
  - exists d. split; [done|]. split; [done|]. intros d' Hd'. apply Hkeep.
    destruct (Hp d' Hd') as (z & Hz & Ho & _). rewrite Hz. intros [= ->]. done.
  - destruct (Hr j y Hj Hy) as (d1 & ? & -> & Hn). exists d1. split; [done|]. split; [done|].
    intros d' Hd'. by apply Hkeep, Hn.
Qed.

Lemma reachable_delete k s i :
  reachable k s -> reachable k (<[i := k_deleted_slot]> s).
Proof.
  intros Hr j y Hj Hy.
  apply list_lookup_insert_Some in Hj as [(-> & <- & _)|(Hne & Hj)]; [done|].
  destruct (Hr j y Hj Hy) as (d1 & ? & -> & Hn). exists d1. split; [done|]. split; [done|].
  intros d' Hd'. rewrite list_lookup_insert. case_decide; [by intros [= ]|]. by apply Hn.
Qed.

Lemma table_count_small t : table_wf t -> 0 <= tcount t <= 2 ^ 32.
Proof.
  intros [(k & Hk & _ & _ & Hl & _) ->]. pose proof (count_if_le occupied (slots t)).
  assert (2 ^ k <= 2 ^ 32) by (apply Z.pow_le_mono_r; lia). lia.
Qed.

Lemma table_add_spec t a :
  table_wf t -> valid_addr a ->
  exists ok t', table_add t a = Some (ok, t') /\ table_wf t' /\
    (forall b, occupied b = true ->
       occ b (slots t') = occ b (slots t) + Nat.b2n (ok && (b =? a)%Z))%nat /\
    (ok = false -> t' = t) /\
    (ok = false -> tcount t < max_capacity t -> occ a (slots t) = 0%nat ->
       forall k, 0 <= k <= 32 -> table_mask t = 2 ^ k - 1 ->
         passed k a (slots t) k_max_probe_distance).
Proof.
  intros Hwf Ha. pose proof (table_count_small t Hwf) as Hc. pose proof Hwf as Hwf0.
  destruct Hwf as [(k & Hk & Hsz & Hm & Hl & Hr) Hcnt]. unfold table_add.
  destruct (Z.leb_spec (max_capacity t) (tcount t)).
  { exists false, t. split; [done|]. split; [done|]. split; [intros b _; simpl; lia|].
    split; [done|lia]. }
  rewrite Hm, hash_slot_probe by done.
  assert (Hp0 : passed k a (slots t) 0) by (intros d'; lia).
  destruct (add_probe_spec k a (slots t) k_max_probe_distance 0 Hk Hl Hp0)
    as [(d1 & x & Hd & Hp & Hx & Hfree & E)|(E & Hwhy)]; rewrite E.
  - exists true. eexists. split; [done|]. split; [|split; [|done]].
    + split; simpl.
      * exists k. rewrite length_insert. split_and!; [lia..|done|done|done|].
        eapply reachable_insert_free; [done|done|done|by apply valid_addr_occupied|done|lia|done].
      * pose proof (count_if_insert occupied _ _ _ a Hx) as Hi.
        rewrite Hfree, (valid_addr_occupied a Ha) in Hi. simpl in Hi.
        rewrite Hcnt, u64_small by (unfold is_u64; lia). lia.
    + intros b Hb. simpl. pose proof (occ_insert b _ _ _ a Hx) as Hi.
      destruct (Z.eqb_spec x b) as [->|]; [congruence|]. rewrite (Z.eqb_sym b a).
      cbn [andb Nat.b2n] in *. lia.
  - exists false, t. split; [by destruct t|]. split; [done|].
    split; [intros b _; simpl; lia|]. split; [done|].
    intros _ _ Hocc k' Hk' Hm'.
    assert (k' = k) as ->.
    { apply (Z.pow_inj_r 2); lia. }
    destruct Hwhy as [?|(d1 & _ & Hin & _)]; [done|].
    exfalso. apply list_elem_of_lookup_2, occ_elem in Hin. lia.
Qed.

Lemma table_remove_spec t a :
  table_wf t -> valid_addr a ->
  exists ok t', table_remove t a = Some (ok, t') /\ table_wf t' /\
    ok = (0 <? occ a (slots t))%nat /\
    (forall b, occupied b = true ->
       occ b (slots t) = occ b (slots t') + Nat.b2n (ok && (b =? a)%Z))%nat.
Proof.
  intros Hwf Ha. pose proof (table_count_small t Hwf) as Hc. pose proof Hwf as Hwf0.
  destruct Hwf as [(k & Hk & Hsz & Hm & Hl & Hr) Hcnt]. unfold table_remove.
  pose proof (valid_addr_occupied a Ha) as Ho.
  rewrite Hm, hash_slot_probe by done.
  destruct (remove_probe_spec k a (slots t) k_max_probe_distance 0 Hk Hl Ho)
    as [(d1 & Hd & Hx & E)|(E & Hno)]; rewrite E.
  - exists true. eexists. split; [done|].
    pose proof (count_if_insert occupied _ _ _ k_deleted_slot Hx) as Hi.
    rewrite Ho in Hi. simpl in Hi. split; [split; simpl|split].
    + exists k. rewrite length_insert. split_and!; [lia..|done|done|done|].
      by apply reachable_delete.
    + rewrite Hcnt, u64_small by (unfold is_u64; lia). lia.
    + symmetry. apply Nat.ltb_lt, occ_elem. by eapply list_elem_of_lookup_2.
    + intros b Hb. simpl. pose proof (occ_insert b _ _ _ k_deleted_slot Hx) as Hj.
      destruct (Z.eqb_spec k_deleted_slot b) as [<-|]; [done|]. rewrite (Z.eqb_sym b a).
      cbn [andb Nat.b2n] in *. lia.
  - exists false, t. split; [by destruct t|]. split; [done|].
    split; [|intros b _; simpl; lia].
    symmetry. apply Nat.ltb_ge, Nat.nlt_ge. intros Hin. apply occ_elem in Hin.
    apply list_elem_of_lookup in Hin as [i Hi].
    destruct (Hr i a Hi Ho) as (d & Hd & -> & Hnoempty).
    destruct (Hno d) as (d2 & Hd2 & He); [lia|done|]. by apply (Hnoempty d2); [lia|].
Qed.

(** ** Rounding to a power of two *)

Lemma shift_count_spec fuel num c :
  0 < num < 2 ^ Z.of_nat fuel -> shift_count fuel num c = c + Z.log2 num + 1.
Proof.
  revert num c. induction fuel as [|f IH]; intros num c H; [simpl in H; lia|].
  cbn [shift_count]. rewrite Nat2Z.inj_succ, Z.pow_succ_r in H by lia.
  destruct (Z.eqb_spec num 0); [lia|]. rewrite Z.shiftr_div_pow2, Z.pow_1_r by lia.
  destruct (decide (num = 1)) as [->|].
  { change (1 / 2) with 0. destruct f; simpl; lia. }
  rewrite IH by (split; [apply Z.div_str_pos; lia|apply Z.div_lt_upper_bound; lia]).
  assert (Hlog : Z.log2 (num / 2) = Z.log2 num - 1).
  { change (num / 2) with (num / 2 ^ 1). rewrite <- Z.shiftr_div_pow2 by lia.
    rewrite Z.log2_shiftr by lia. pose proof (Z.log2_pos num). lia. }
  lia.
Qed.

Lemma land_pred_zero_pow2 n :
  0 < n -> Z.land n (n - 1) = 0 -> n = 2 ^ Z.log2 n.
Proof.
  intros Hn H. destruct (Z.log2_spec n Hn) as [Hlo Hhi]. rewrite Z.pow_succ_r in Hhi by apply Z.log2_nonneg.
  destruct (decide (n = 2 ^ Z.log2 n)) as [|Hne]; [done|]. exfalso.
  assert (Hl : Z.log2 (n - 1) = Z.log2 n).
  { apply Z.log2_unique; [apply Z.log2_nonneg|]. rewrite Z.pow_succ_r by apply Z.log2_nonneg. lia. }
  assert (Hb : Z.testbit (Z.land n (n - 1)) (Z.log2 n) = true).
  { rewrite Z.land_spec, Z.bit_log2 by done. rewrite <- Hl, Z.bit_log2; [done|].
    pose proof (Z.pow_pos_nonneg 2 (Z.log2 n)). pose proof (Z.log2_nonneg n). lia. }
  rewrite H, Z.bits_0 in Hb. done.
Qed.

Lemma round_up_ok n : 0 < n <= 2 ^ 63 ->
  exists k, 0 <= k <= 63 /\ round_up_to_power_of_two n = Some (2 ^ k) /\ n <= 2 ^ k < 2 * n.
Proof.
  intros H. unfold round_up_to_power_of_two. destruct (Z.eqb_spec n 0); [lia|].
  rewrite u64_small by (unfold is_u64; lia).
  destruct (Z.eqb_spec (Z.land n (n - 1)) 0) as [E|E].
  - exists (Z.log2 n). pose proof (land_pred_zero_pow2 n) as Hp. rewrite <- Hp by (lia||done).
    pose proof (Z.log2_le_mono n (2 ^ 63)) as Hm. rewrite Z.log2_pow2 in Hm by lia.
    pose proof (Z.log2_nonneg n). split; [lia|]. split; [done|lia].
  - assert (Hn : n < 2 ^ 63).
    { destruct (decide (n = 2 ^ 63)) as [->|]; [|lia]. exfalso. apply E. by vm_compute. }
    rewrite shift_count_spec by (simpl; lia). rewrite Z.add_0_l.
    destruct (Z.log2_spec n) as [Hlo Hhi]; [lia|].
    pose proof (Z.log2_nonneg n). pose proof (Z.log2_lt_pow2 n 63) as Hlt.
    destruct (Z.ltb_spec (Z.log2 n + 1) 64); [|lia].
    exists (Z.log2 n + 1). rewrite Z.shiftl_1_l. split; [lia|]. split; [done|].
    rewrite Z.add_1_r. split; [lia|]. rewrite Z.pow_succ_r by lia. 
    destruct (decide (n = 2 ^ Z.log2 n)) as [Hp|]; [|lia].
    exfalso. apply E. rewrite Hp at 1 2. rewrite land_mask by lia. apply Z.mod_same. lia.
Qed.

Lemma replicate_unoccupied i n x : replicate n k_empty_slot !! i = Some x -> occupied x = false.
Proof. intros H. apply lookup_replicate in H as [-> _]. done. Qed.

Lemma empty_slots_reachable k n : reachable k (replicate n k_empty_slot).
Proof. intros i x Hi Hx. apply replicate_unoccupied in Hi. congruence. Qed.

Lemma empty_slots_count n : count_if occupied (replicate n k_empty_slot) = 0%nat.
Proof. by induction n. Qed.

Lemma empty_slots_occ b n : occupied b = true -> occ b (replicate n k_empty_slot) = 0%nat.
Proof. intros H. apply occ_replicate_ne. by intros ->. Qed.

Lemma mk_address_table_spec size : 1 <= size <= 2 ^ 32 ->
  exists t, mk_address_table size = Some t /\ table_wf t /\
    (forall b, occupied b = true -> occ b (slots t) = 0%nat) /\
    size <= table_size t < 2 * size /\
    max_capacity t = table_size t * k_max_load_factor_percent / k_percent_divisor.
Proof.
  intros H. destruct (round_up_ok size) as (k & Hk & E & Hb); [lia|].
  assert (Hk32 : k <= 32).
  { destruct (decide (k <= 32)); [done|]. assert (2 ^ 33 <= 2 ^ k) by (apply Z.pow_le_mono_r; lia). lia. }
  assert (Hp : 1 <= 2 ^ k <= 2 ^ 32).
  { split; [lia|]. apply Z.pow_le_mono_r; lia. }
  unfold mk_address_table. rewrite E. eexists. split; [done|]. split; [split; simpl|split; [|split]].
  - exists k. rewrite length_replicate. split_and!; [lia..|done| |done|apply empty_slots_reachable].
    apply u64_small. unfold is_u64. lia.
  - by rewrite empty_slots_count.
  - intros b Hb'. by apply empty_slots_occ.
  - simpl. lia.
  - simpl. rewrite u64_small; [done|]. unfold is_u64, k_max_load_factor_percent. lia.
Qed.

(** ** The two levels together *)

#[export] Instance table_ref_eq_dec : EqDecision table_ref.
Proof. solve_decision. Defined.

Lemma select_ref_load bs a l : bitset_wf bs ->
  exists ot, load_ref bs (select_ref a l) = Some ot /\ opt_table_wf ot.
Proof.
  intros [_ (ts & Hts & Hlen & Hall) (ol & Hol & Hwl)]. unfold select_ref.
  destruct l; cbn [load_ref]; [by exists ol|]. rewrite Hts.
  assert (Hb : 0 <= Z.land (Z.shiftr a k_chunk_shift) (2 ^ 7 - 1) < 2 ^ 7) by (apply land_mask_bound; lia).
  change (Z.of_nat k_max_chunks - 1) with (2 ^ 7 - 1).
  destruct (lookup_lt_is_Some_2 ts (Z.to_nat (Z.land (Z.shiftr a k_chunk_shift) (2 ^ 7 - 1)))) as [ot Hot].
  { rewrite Hlen. unfold k_max_chunks. lia. }
  exists ot. split; [done|]. by eapply Forall_lookup_1 in Hall.
Qed.

Lemma store_ref_wf bs r t ot :
  bitset_wf bs -> load_ref bs r = Some ot -> table_wf t -> bitset_wf (store_ref bs r t).
Proof.
  intros [Hper (ts & Hts & Hlen & Hall) (ol & Hol & Hwl)] Hload Ht. destruct r as [|i]; split; simpl; try done.
  - by exists ts.
  - by exists (Some t).
  - rewrite Hts. simpl. eexists. split; [done|]. rewrite length_insert. split; [done|].
    by apply Forall_insert.
  - by exists ol.
Qed.

Lemma load_store_ref bs r r' t ot :
  load_ref bs r = Some ot ->
  load_ref (store_ref bs r t) r' = if decide (r = r') then Some (Some t) else load_ref bs r'.
Proof.
  intros H. destruct r as [|i], r' as [|j]; simpl in *; repeat case_decide; try done.
  - destruct (chunk_tables bs) as [ts|]; [|done]. simplify_eq. simpl.
    apply list_lookup_insert_eq. by eapply lookup_lt_Some.
  - destruct (chunk_tables bs) as [ts|]; [|done]. simpl.
    apply list_lookup_insert_ne. congruence.
Qed.

Lemma tracked_store bs r r' t ot b :
  load_ref bs r = Some ot ->
  tracked (store_ref bs r t) r' b = if decide (r = r') then occ b (slots t) else tracked bs r' b.
Proof. intros H. unfold tracked. erewrite load_store_ref by done. by case_decide. Qed.

(** [get_table] for [add]: a well-formed table, with the same tracked addresses. *)
Lemma get_table_create_spec bs a l : bitset_wf bs ->
  exists t bs1, get_table bs a l true = Some (Some t, bs1) /\ table_wf t /\ bitset_wf bs1 /\
    load_ref bs1 (select_ref a l) = Some (Some t) /\
    forall r b, occupied b = true -> tracked bs1 r b = tracked bs r b.
Proof.
  intros Hwf. destruct (select_ref_load bs a l Hwf) as (ot & Hot & Hwt). unfold get_table.
  rewrite Hot. destruct ot as [t|].
  { exists t, bs. by split_and!. }
  destruct (mk_address_table_spec (per_table_size bs)) as (nt & -> & Hnt & Hocc & _).
  { by destruct Hwf. }
  exists nt. eexists. split; [done|]. split; [done|]. split; [by eapply store_ref_wf|].
  erewrite load_store_ref by done. split; [by rewrite decide_True|].
  intros r b Hb. erewrite tracked_store by done. case_decide as E; [|done]. subst r.
  rewrite Hocc by done. unfold tracked. by rewrite Hot.
Qed.

(** Both operations are defined on well-formed objects and keep them so. *)
Lemma add_preserves_wf bs a large :
  bitset_wf bs -> valid_addr a -> exists ok bs', add bs a large = Some (ok, bs') /\ bitset_wf bs'.
Proof.
  intros Hwf Ha. destruct (get_table_create_spec bs a large Hwf) as (t & bs1 & E & Ht & Hwf1 & Hl & _).
  destruct (table_add_spec t a Ht Ha) as (ok & t' & E' & Ht' & _).
  unfold add. rewrite E, E'. eexists _, _. split; [done|]. by eapply store_ref_wf.
Qed.

Lemma remove_preserves_wf bs a large :
  bitset_wf bs -> valid_addr a -> exists ok bs', remove bs a large = Some (ok, bs') /\ bitset_wf bs'.
Proof.
  intros Hwf Ha. destruct (select_ref_load bs a large Hwf) as (ot & Hot & Hwt).
  unfold remove, get_table. rewrite Hot. destruct ot as [t|]; [|by eexists _, _].
  destruct (table_remove_spec t a Hwt Ha) as (ok & t' & -> & Ht' & _).
  eexists _, _. split; [done|]. by eapply store_ref_wf.
Qed.

(** ** Properties *)

Lemma add_spec bs a large :
  bitset_wf bs -> valid_addr a ->
  exists ok bs', add bs a large = Some (ok, bs') /\ bitset_wf bs' /\
    forall r b, occupied b = true ->
      (tracked bs' r b = tracked bs r b
         + Nat.b2n (ok && bool_decide (r = select_ref a large) && (b =? a)%Z))%nat.
Proof.
  intros Hwf Ha. destruct (get_table_create_spec bs a large Hwf) as (t & bs1 & E & Ht & Hwf1 & Hl & Htr).
  destruct (table_add_spec t a Ht Ha) as (ok & t' & E' & Ht' & Hocc & _ & _).
  unfold add. rewrite E, E'. exists ok. eexists. split; [done|]. split; [by eapply store_ref_wf|].
  intros r b Hb. erewrite tracked_store by done. rewrite <- (Htr r b Hb).
  case_decide as C; [subst r|].
  - rewrite bool_decide_eq_true_2, andb_true_r, Hocc by done. unfold tracked. by rewrite Hl.
  - rewrite bool_decide_eq_false_2 by done. rewrite andb_false_r. simpl. lia.
Qed.

(** C3: [add] refines insertion into a multiset of addresses per table.  On a
    well-formed object it never dereferences a bad pointer or slot, keeps the
    object well formed, records exactly one more occurrence of [a] when it
    returns true and changes nothing when it returns false. *)
Theorem add_refines_multiset bs a large :
  bitset_wf bs -> valid_addr a ->
  exists ok bs', add bs a large = Some (ok, bs') /\ bitset_wf bs' /\
    forall r b, occupied b = true ->
      (tracked bs' r b = tracked bs r b
         + Nat.b2n (ok && bool_decide (r = select_ref a large) && (b =? a)%Z))%nat.
Proof. apply add_spec. Qed.

Lemma remove_spec bs a large :
  bitset_wf bs -> valid_addr a ->
  exists ok bs', remove bs a large = Some (ok, bs') /\ bitset_wf bs' /\
    ok = (0 <? tracked bs (select_ref a large) a)%nat /\
    forall r b, occupied b = true ->
      (tracked bs r b = tracked bs' r b
         + Nat.b2n (ok && bool_decide (r = select_ref a large) && (b =? a)%Z))%nat.
Proof.
  intros Hwf Ha. destruct (select_ref_load bs a large Hwf) as (ot & Hot & Hwt).
  unfold remove, get_table. rewrite Hot. unfold tracked at 1. rewrite Hot. destruct ot as [t|].
  - destruct (table_remove_spec t a Hwt Ha) as (ok & t' & -> & Ht' & Hok & Hocc).
    exists ok. eexists. split; [done|]. split; [by eapply store_ref_wf|]. split; [done|].
    intros r b Hb. erewrite tracked_store by done. case_decide as C; [subst r|].
    + rewrite bool_decide_eq_true_2, andb_true_r by done. unfold tracked. rewrite Hot. by apply Hocc.
    + rewrite bool_decide_eq_false_2 by done. rewrite andb_false_r. simpl. lia.
  - exists false, bs. split; [done|]. split; [done|]. split; [done|]. intros; simpl; lia.
Qed.

(** C4: [remove] returns true exactly when the address is recorded in its table
    (no tracked address is ever missed by the bounded probing) and then forgets
    exactly one occurrence of it; otherwise nothing changes. *)
Theorem remove_refines_multiset bs a large :
  bitset_wf bs -> valid_addr a ->
  exists ok bs', remove bs a large = Some (ok, bs') /\ bitset_wf bs' /\
    ok = (0 <? tracked bs (select_ref a large) a)%nat /\
    forall r b, occupied b = true ->
      (tracked bs r b = tracked bs' r b
         + Nat.b2n (ok && bool_decide (r = select_ref a large) && (b =? a)%Z))%nat.
Proof. apply remove_spec. Qed.

Lemma init_spec size : 0 <= size <= 2 ^ 32 ->
  exists bs, init size = Some bs /\ bitset_wf bs /\
    forall r b, occupied b = true -> tracked bs r b = 0%nat.
Proof.
  intros H. unfold init.
  set (per := if size =? 0 then k_default_table_size else size).
  assert (Hper : 1 <= per <= 2 ^ 32).
  { unfold per, k_default_table_size. destruct (Z.eqb_spec size 0); lia. }
  destruct (mk_address_table_spec per Hper) as (t & -> & Ht & Hocc & _).
  eexists. split; [done|]. split; [split; cbn|].
  - done.
  - eexists. split; [done|]. split; [done|]. by repeat constructor.
  - by eexists.
  - intros [|i] b Hb; unfold tracked; cbn [load_ref chunk_tables large_alloc_table]; [by apply Hocc|].
    destruct (replicate k_max_chunks None !! i) as [ot|] eqn:E; [|done].
    apply lookup_replicate in E as [-> _]. done.
Qed.

(** [add] makes progress.  When the address is not tracked, its table is
    below its maximum load and one of the 64 probed slots is free (empty or a
    tombstone), [add] returns true. *)
Theorem add_succeeds_when_room bs a large t bs1 d x :
  bitset_wf bs -> valid_addr a ->
  get_table bs a large true = Some (Some t, bs1) ->
  tcount t < max_capacity t -> occ a (slots t) = 0%nat ->
  (d < k_max_probe_distance)%nat ->
  slots t !! probe_at (Z.log2 (table_size t)) a d = Some x -> occupied x = false ->
  exists bs', add bs a large = Some (true, bs').
Proof.
  intros Hwf Ha E Hcap Hocc Hd Hx Hfree.
  destruct (get_table_create_spec bs a large Hwf) as (t0 & bs0 & E0 & Ht & _).
  rewrite E in E0. injection E0 as <- <-.
  destruct (table_add_spec t a Ht Ha) as (ok & t' & E' & _ & _ & _ & Hwin).
  unfold add. rewrite E, E'. destruct ok; [by eexists|]. exfalso.
  destruct Ht as [(k & Hk & Hsz & Hm & _) _]. rewrite Hsz, Z.log2_pow2 in Hx by lia.
  destruct (Hwin eq_refl Hcap Hocc k Hk Hm d Hd) as (y & Hy & Ho & _). congruence.
Qed.

(** Number of tracked addresses of an object. *)
Definition table_total (ot : option AddressTable) : nat :=
  match ot with Some t => count_if occupied (slots t) | None => 0%nat end.

Definition total_tracked (bs : AddressBitset) : nat :=
  (match chunk_tables bs with Some ts => sum_list_with table_total ts | None => 0 end
   + match large_alloc_table bs with Some ot => table_total ot | None => 0 end)%nat.

Lemma add_count_small total ot :
  opt_table_wf ot -> 0 <= total -> total + Z.of_nat (table_total ot) < 2 ^ 31 ->
  add_count total ot = total + Z.of_nat (table_total ot).
Proof.
  intros Hwf H0 H. destruct ot as [t|]; simpl in *; [|lia].
  destruct Hwf as [_ Hc]. rewrite Hc. unfold i32. rewrite Z.mod_small; lia.
Qed.

Lemma fold_add_count ts total :
  Forall opt_table_wf ts -> 0 <= total ->
  total + Z.of_nat (sum_list_with table_total ts) < 2 ^ 31 ->
  fold_left add_count ts total = total + Z.of_nat (sum_list_with table_total ts).
Proof.
  revert total. induction ts as [|ot ts IH]; intros total Hf H0 H; cbn [fold_left sum_list_with] in *; [lia|].
  inversion_clear Hf. rewrite add_count_small by (done || lia). rewrite IH; [lia|done|lia|lia].
Qed.

(** [count] reports the number of tracked addresses (as an [int], as long as
    they are fewer than [2^31]), and [active_shards] the number of tables. *)
Theorem count_is_total_tracked bs :
  bitset_wf bs -> Z.of_nat (total_tracked bs) < 2 ^ 31 -> count bs = Z.of_nat (total_tracked bs).
Proof.
  intros [_ (ts & Hts & _ & Hall) (ol & Hol & Hwl)]. unfold count, total_tracked. rewrite Hts, Hol.
  intros H. rewrite fold_add_count, Z.add_0_l by (done || lia). rewrite add_count_small by (done || lia). lia.
Qed.

(** The code does not keep addresses unique.  When a tombstone precedes an
    already tracked address on its probe path, [add] of that address returns
    true and records it a second time (the loop claims the tombstone before it
    looks further). *)
Theorem add_tracked_address_duplicates :
  exists bs bs' a, bitset_wf bs /\ valid_addr a /\ tracked bs (select_ref a false) a = 1%nat /\
    add bs a false = Some (true, bs') /\ tracked bs' (select_ref a false) a = 2%nat.
Proof.
  destruct (init_spec 4) as (b0 & E0 & W0 & _); [lia|].
  assert (V1 : valid_addr 0x1000) by (repeat split; lia || done).
  assert (V2 : valid_addr 0x1010) by (repeat split; lia || done).
  destruct (add_preserves_wf b0 0x1000 false W0 V1) as (r1 & b1 & E1 & W1).
  destruct (add_preserves_wf b1 0x1010 false W1 V2) as (r2 & b2 & E2 & W2).
  destruct (remove_preserves_wf b2 0x1000 false W2 V1) as (r3 & b3 & E3 & W3).
  injection E0 as <-. vm_compute in E1. injection E1 as <- <-.
  vm_compute in E2. injection E2 as <- <-. vm_compute in E3. injection E3 as <- <-.
  eexists _, _, 0x1010. split; [exact W3|]. split; [done|]. split; [by vm_compute|].
  split; by vm_compute.
Qed.

(** Rounding a table size up: the result is the least power of two that is
    at least the requested size, with no undefined shift, up to [2^63]. *)
Theorem round_up_least_power_of_two n :
  0 < n <= 2 ^ 63 ->
  exists k, 0 <= k <= 63 /\ round_up_to_power_of_two n = Some (2 ^ k) /\
    n <= 2 ^ k /\ forall j, 0 <= j -> n <= 2 ^ j -> 2 ^ k <= 2 ^ j.
Proof.
  intros H. destruct (round_up_ok n H) as (k & Hk & E & Hlo & Hhi). exists k. split_and!; [lia..|done|done|].
  intros j Hj Hnj. apply Z.pow_le_mono_r; [lia|]. destruct (decide (k <= j)); [done|].
  assert (2 ^ (j + 1) <= 2 ^ k) by (apply Z.pow_le_mono_r; lia).
  rewrite Z.pow_add_r in * by lia. lia.
Qed.

(** ** Witnesses *)

Definition demo_set : AddressBitset :=
  {| per_table_size := 4;
     chunk_tables := Some (replicate k_max_chunks None);
     large_alloc_table := Some (Some {| table_size := 4; table_mask := 3; max_capacity := 3;
                                        slots := [0; 0; 0; 0]; tcount := 0 |}) |}.

Lemma demo_set_wf : bitset_wf demo_set.
Proof. destruct (init_spec 4) as (b & E & W & _); [lia|]. by injection E as <-. Qed.

Lemma demo_addr_valid : valid_addr 0x1000.
Proof. split; [unfold is_u64; lia|done]. Qed.

Lemma add_refines_multiset_witness :
  bitset_wf demo_set /\ valid_addr 0x1000 /\
  exists bs', add demo_set 0x1000 false = Some (true, bs') /\
    tracked bs' (select_ref 0x1000 false) 0x1000 = 1%nat.
Proof.
  split; [exact demo_set_wf|]. split; [exact demo_addr_valid|].
  destruct (add_refines_multiset demo_set 0x1000 false demo_set_wf demo_addr_valid)
    as (ok & bs' & E & _ & H).
  assert (ok = true) as -> by (vm_compute in E; congruence).
  exists bs'. split; [exact E|]. rewrite H by reflexivity. by vm_compute.
Defined.

Lemma remove_refines_multiset_witness :
  bitset_wf demo_set /\ valid_addr 0x1000 /\
  exists bs', remove demo_set 0x1000 true = Some (false, bs').
Proof.
  split; [exact demo_set_wf|]. split; [exact demo_addr_valid|].
  destruct (remove_refines_multiset demo_set 0x1000 true demo_set_wf demo_addr_valid)
    as (ok & bs' & E & _ & -> & _).
  exists bs'. exact E.
Defined.

Lemma add_succeeds_when_room_witness :
  bitset_wf demo_set /\ exists bs', add demo_set 0x1000 true = Some (true, bs').
Proof.
  split; [exact demo_set_wf|].
  refine (add_succeeds_when_room demo_set 0x1000 true
    {| table_size := 4; table_mask := 3; max_capacity := 3; slots := [0; 0; 0; 0]; tcount := 0 |}
    demo_set 0 0 demo_set_wf demo_addr_valid _ _ _ _ _ _); try reflexivity; vm_compute; lia.
Defined.

Lemma count_is_total_tracked_witness :
  bitset_wf demo_set /\ count demo_set = 0.
Proof.
  split; [exact demo_set_wf|].
  rewrite (count_is_total_tracked demo_set demo_set_wf); [reflexivity|by vm_compute].
Defined.

Lemma round_up_least_power_of_two_witness :
  0 < 5 <= 2 ^ 63 /\ exists k, round_up_to_power_of_two 5 = Some (2 ^ k) /\ 5 <= 2 ^ k.
Proof.
  split; [lia|]. destruct (round_up_least_power_of_two 5) as (k & _ & E & Hk & _); [lia|].
  by exists k.
Defined.
