(* ===== verification/RingBuffer.v ===== *)
(** * Ring buffers: data model and operations

    Model of [include/ringbuffer_utils.hpp], [include/perf_ringbuffer.hpp],
    [rb_init]/[rb_free] of [src/perf_ringbuffer.cc] and the address arithmetic
    of [src/perf.cc]: the multi-producer ring the instrumented process writes
    into, and the perf ring the kernel writes into.

    The data area is a function from linear offsets to bytes.  A mirrored mapping
    makes an access that runs past the end of the area continue at its start;
    without it such an access is out of range ([None]). *)

From S2P Require Import Prelude.

Definition kRingBufferAlignment : Z := 8.

Definition align_up (x pow2 : Z) : Z := Z.lor (x -w 1) (pow2 - 1) +w 1.
Definition align_down (x pow2 : Z) : Z := Z.land x (u64 (Z.lnot (pow2 - 1))).

(** ** Little-endian words in the data area *)

Fixpoint le_bytes (n : nat) (v : Z) : list Z :=
  match n with
  | O => []
  | S n' => v mod 256 :: le_bytes n' (v / 256)
  end.

Fixpoint le_val (bs : list Z) : Z :=
  match bs with
  | [] => 0
  | b :: bs' => b + 256 * le_val bs'
  end.

(** Bytes [p .. p+n) of a circular area of [size] bytes. *)
Definition rd (d : Z -> Z) (size p n : Z) : list Z :=
  map (fun i => d ((p + i) mod size)) (seqZ 0 n).

Definition wr (d : Z -> Z) (size p : Z) (bs : list Z) : Z -> Z :=
  fun j => let k := (j - p) mod size in
           if k <? Z.of_nat (length bs) then nth (Z.to_nat k) bs 0 else d j.

(** ** The shared structure *)

Inductive RingBufferType := kPerfRingBuffer | kMPSCRingBuffer.

Record RingBuffer := mkRB {
  rb_type : RingBufferType;
  mask : Z;
  data_size : Z;
  data : Z -> Z;
  mirrored_mapping : bool;
  writer_pos : Z;
  reader_pos : Z;
  intermediate_reader_pos : Z;
  wrap_copy : option (list Z);
  wrap_copy_capacity : Z
}.

Definition set_data (rb : RingBuffer) (d : Z -> Z) : RingBuffer :=
  mkRB (rb_type rb) (mask rb) (data_size rb) d (mirrored_mapping rb) (writer_pos rb)
       (reader_pos rb) (intermediate_reader_pos rb) (wrap_copy rb) (wrap_copy_capacity rb).
Definition set_writer_pos (rb : RingBuffer) (p : Z) : RingBuffer :=
  mkRB (rb_type rb) (mask rb) (data_size rb) (data rb) (mirrored_mapping rb) p
       (reader_pos rb) (intermediate_reader_pos rb) (wrap_copy rb) (wrap_copy_capacity rb).
Definition set_reader_pos (rb : RingBuffer) (p : Z) : RingBuffer :=
  mkRB (rb_type rb) (mask rb) (data_size rb) (data rb) (mirrored_mapping rb) (writer_pos rb)
       p (intermediate_reader_pos rb) (wrap_copy rb) (wrap_copy_capacity rb).
Definition set_intermediate (rb : RingBuffer) (p : Z) : RingBuffer :=
  mkRB (rb_type rb) (mask rb) (data_size rb) (data rb) (mirrored_mapping rb) (writer_pos rb)
       (reader_pos rb) p (wrap_copy rb) (wrap_copy_capacity rb).
Definition set_wrap_copy (rb : RingBuffer) (w : option (list Z)) (c : Z) : RingBuffer :=
  mkRB (rb_type rb) (mask rb) (data_size rb) (data rb) (mirrored_mapping rb) (writer_pos rb)
       (reader_pos rb) (intermediate_reader_pos rb) w c.

(** [perf_mmap_size] and [get_mask_from_size]; the page size is the system's. *)
Definition perf_mmap_size (page_size buf_size_shift : Z) : Z :=
  (u32 (u32 (Z.shiftl 1 buf_size_shift) + 1)) *w page_size.
Definition get_mask_from_size (page_size size : Z) : Z := size -w page_size -w 1.

(** [rb_init] over a mapping whose metadata page holds the positions [wpos], [rpos]. *)
Definition rb_init (page_size size : Z) (d : Z -> Z) (wpos rpos : Z) (ty : RingBufferType)
    (mirrored : bool) : RingBuffer :=
  {| rb_type := ty; mask := get_mask_from_size page_size size; data_size := size -w page_size;
     data := d; mirrored_mapping := mirrored; writer_pos := wpos; reader_pos := rpos;
     intermediate_reader_pos := rpos; wrap_copy := None; wrap_copy_capacity := 0 |}.

Definition rb_free (rb : RingBuffer) : RingBuffer := set_wrap_copy rb None 0.

(** A range of bytes handed to a client: in the data area or in the copy. *)
Inductive buf_loc := InData (off : Z) | InWrapCopy.
Record ConstBuffer := mkBuf { buf_data : buf_loc; buf_size : Z }.

Definition access_ok (rb : RingBuffer) (off n : Z) : bool :=
  off + n <=? (if mirrored_mapping rb then 2 * data_size rb else data_size rb).

(** The bytes a client sees through a buffer. *)
Definition deref (rb : RingBuffer) (b : ConstBuffer) : option (list Z) :=
  match buf_data b with
  | InData off => if access_ok rb off (buf_size b)
                  then Some (rd (data rb) (data_size rb) off (buf_size b)) else None
  | InWrapCopy => let? w := wrap_copy rb in Some (take (Z.to_nat (buf_size b)) w)
  end.

Definition load_u64 (rb : RingBuffer) (off : Z) : option Z :=
  if access_ok rb off 8 then Some (le_val (rd (data rb) (data_size rb) off 8)) else None.
Definition store_bytes (rb : RingBuffer) (off : Z) (bs : list Z) : option RingBuffer :=
  if access_ok rb off (Z.of_nat (length bs))
  then Some (set_data rb (wr (data rb) (data_size rb) off bs)) else None.
Definition store_u64 (rb : RingBuffer) (off v : Z) : option RingBuffer :=
  store_bytes rb off (le_bytes 8 v).

(** [ensure_wrap_copy_buffer]; [alloc_ok] is the outcome of [posix_memalign]. *)
Definition ensure_wrap_copy_buffer (rb : RingBuffer) (required_size : Z) (alloc_ok : bool) :
    bool * RingBuffer :=
  let present := match wrap_copy rb with Some _ => true | None => false end in
  if required_size =? 0 then (present, rb)
  else
    let aligned_size := align_up required_size kRingBufferAlignment in
    if negb present || (wrap_copy_capacity rb <? aligned_size) then
      if alloc_ok
      then (true, set_wrap_copy rb (Some (replicate (Z.to_nat aligned_size) 0)) aligned_size)
      else (false, set_wrap_copy rb None 0)
    else (present, rb).

(** Copy [n] bytes that start at linear offset [off] and wrap to the start of the
    area into the wrap copy: the two [memcpy] of the readers. *)
Definition copy_wrapped (rb : RingBuffer) (off n : Z) : option RingBuffer :=
  let first_chunk := data_size rb - off in
  let? w := wrap_copy rb in
  let bytes := map (fun i => data rb (off + i)) (seqZ 0 first_chunk)
                 ++ map (data rb) (seqZ 0 (n - first_chunk)) in
  if (n <=? wrap_copy_capacity rb) && (n - first_chunk <=? data_size rb)
  then Some (set_wrap_copy rb (Some (bytes ++ drop (length bytes) w)) (wrap_copy_capacity rb))
  else None.

(** ** PerfRingBufferWriter *)

Record PerfRingBufferWriter := mkPW { pw_tail : Z; pw_initial_head : Z; pw_head : Z }.

Definition pw_create (rb : RingBuffer) : PerfRingBufferWriter :=
  mkPW (reader_pos rb) (writer_pos rb) (writer_pos rb).
Definition pw_update_available (rb : RingBuffer) (w : PerfRingBufferWriter) : PerfRingBufferWriter :=
  mkPW (reader_pos rb) (pw_initial_head w) (pw_head w).
Definition pw_available_size (rb : RingBuffer) (w : PerfRingBufferWriter) : Z :=
  mask rb -w (pw_head w -w pw_tail w).

Definition pw_reserve (rb : RingBuffer) (w : PerfRingBufferWriter) (n : Z) :
    option ConstBuffer * PerfRingBufferWriter :=
  let n_aligned := align_up n kRingBufferAlignment in
  if (n_aligned =? 0) || (pw_available_size rb w <? n_aligned) then (None, w)
  else
    let head_linear := Z.land (pw_head w) (mask rb) in
    (Some (mkBuf (InData head_linear) n),
     mkPW (pw_tail w) (pw_initial_head w) (pw_head w +w n_aligned)).

Definition pw_write (rb : RingBuffer) (w : PerfRingBufferWriter) (buf : list Z) :
    option (bool * RingBuffer * PerfRingBufferWriter) :=
  match pw_reserve rb w (Z.of_nat (length buf)) with
  | (Some (mkBuf (InData off) _), w') => let? rb' := store_bytes rb off buf in Some (true, rb', w')
  | (_, w') => Some (false, rb, w')
  end.

(** [commit]: publish the head; true when the consumer has to be notified. *)
Definition pw_commit (rb : RingBuffer) (w : PerfRingBufferWriter) :
    bool * RingBuffer * PerfRingBufferWriter :=
  let rb' := set_writer_pos rb (pw_head w) in
  let w' := pw_update_available rb' w in
  (pw_initial_head w <=? pw_tail w', rb', mkPW (pw_tail w') (pw_head w) (pw_head w)).

(** The destructor commits what was reserved and not committed. *)
Definition pw_destroy (rb : RingBuffer) (w : PerfRingBufferWriter) : RingBuffer :=
  if pw_initial_head w =? pw_head w then rb else set_writer_pos rb (pw_head w).

(** ** PerfRingBufferReader; [head] is the reader's snapshot [_head] *)

Definition pr_update_available (rb : RingBuffer) : Z := writer_pos rb.
Definition pr_available_size (rb : RingBuffer) (head : Z) : Z :=
  head -w intermediate_reader_pos rb.

Definition pr_read_all_available (rb : RingBuffer) (head : Z) (alloc_ok : bool) :
    option (option ConstBuffer * RingBuffer) :=
  let current_tail := intermediate_reader_pos rb in
  let tail_linear := Z.land current_tail (mask rb) in
  let n := head -w current_tail in
  if mirrored_mapping rb || (tail_linear + n <=? data_size rb) then
    Some (Some (mkBuf (InData tail_linear) n), set_intermediate rb head)
  else
    match ensure_wrap_copy_buffer rb n alloc_ok with
    | (false, rb1) => Some (None, rb1)
    | (true, rb1) =>
        let? rb2 := copy_wrapped rb1 tail_linear n in
        Some (Some (mkBuf InWrapCopy n), set_intermediate rb2 head)
    end.

Definition pr_advance_all (rb : RingBuffer) : RingBuffer :=
  set_reader_pos rb (intermediate_reader_pos rb).
Definition pr_advance (rb : RingBuffer) (n : Z) : RingBuffer :=
  set_reader_pos rb (reader_pos rb +w align_up n kRingBufferAlignment).
Definition pr_destroy (rb : RingBuffer) : RingBuffer :=
  if reader_pos rb <? intermediate_reader_pos rb then pr_advance_all rb else rb.

Definition perf_rb_has_inflight_events (rb : RingBuffer) : bool :=
  negb (intermediate_reader_pos rb =? reader_pos rb).

(** [sizeof(perf_event_header)]: type (4 bytes), misc (2), size (2). *)
Definition sizeof_perf_event_header : Z := 8.
Definition hdr_size (hdr : list Z) : Z := le_val (take 2 (drop 6 hdr)).

Definition perf_rb_read_event (rb : RingBuffer) (alloc_ok : bool) :
    option (option ConstBuffer * RingBuffer) :=
  let head := writer_pos rb in
  let tail := intermediate_reader_pos rb in
  if tail =? head then Some (None, rb)
  else
    let tail_linear := Z.land tail (mask rb) in
    let split_hdr := negb (mirrored_mapping rb)
                     && (data_size rb <? tail_linear + sizeof_perf_event_header) in
    let hdr := rd (data rb) (data_size rb) tail_linear sizeof_perf_event_header in
    let sz_sample := hdr_size hdr in
    let bytes_to_copy := Z.max sz_sample sizeof_perf_event_header in
    let needs_copy := split_hdr || (negb (mirrored_mapping rb)
                                    && (data_size rb <? tail_linear + bytes_to_copy)) in
    let advance rb := set_intermediate rb
                        (intermediate_reader_pos rb +w align_up sz_sample kRingBufferAlignment) in
    if needs_copy then
      match ensure_wrap_copy_buffer rb bytes_to_copy alloc_ok with
      | (false, rb1) => Some (None, rb1)
      | (true, rb1) =>
          let? rb2 := copy_wrapped rb1 tail_linear bytes_to_copy in
          Some (Some (mkBuf InWrapCopy sz_sample), advance rb2)
      end
    else Some (Some (mkBuf (InData tail_linear) sz_sample), advance rb).

Definition perf_rb_advance (rb : RingBuffer) : RingBuffer :=
  set_reader_pos rb (intermediate_reader_pos rb).

(** ** MPSCRingBufferHeader *)

Definition k_discard_bit : Z := 2 ^ 62.
Definition k_busy_bit : Z := 2 ^ 63.
Definition sizeof_mpsc_header : Z := 8.

Definition is_busy (size : Z) : bool := negb (Z.land size k_busy_bit =? 0).
Definition is_discarded (size : Z) : bool := negb (Z.land size k_discard_bit =? 0).
Definition get_size (size : Z) : Z := Z.land size (u64 (Z.lnot k_discard_bit)).
Definition set_busy (size : Z) : Z := Z.lor size k_busy_bit.
Definition set_discarded (size : Z) : Z := Z.lor size k_discard_bit.

(** ** MPSCRingBufferWriter; [tail] is the writer object's snapshot [_tail] *)

Inductive reserve_result := Reserved (b : ConstBuffer) | NoSpace | LockTimeout.

(** [reserve(n, &timeout, high_priority)]; [lock_ok]: the spinlock was acquired
    before the timeout. *)
Definition mpsc_reserve (rb : RingBuffer) (tail area : Z) (n : Z) (high_priority lock_ok : bool) :
    option (reserve_result * RingBuffer) :=
  let n2 := align_up (n +w sizeof_mpsc_header) kRingBufferAlignment in
  if n2 =? 0 then Some (NoSpace, rb)
  else if negb lock_ok then Some (LockTimeout, rb)
  else
    let new_writer_pos := writer_pos rb +w n2 in
    let adjusted_writer_pos := if high_priority then new_writer_pos else new_writer_pos +w area in
    if mask rb <? (adjusted_writer_pos -w tail) then Some (NoSpace, rb)
    else
      let head_linear := Z.land (writer_pos rb) (mask rb) in
      let? rb1 := store_u64 rb head_linear (Z.lor n k_busy_bit) in
      Some (Reserved (mkBuf (InData (head_linear + sizeof_mpsc_header)) n),
            set_writer_pos rb1 new_writer_pos).

(** [commit_internal(buf, discard)]: whether to notify, and the new snapshot. *)
Definition commit_internal (rb : RingBuffer) (buf_off : Z) (discard : bool) :
    option (bool * Z * RingBuffer) :=
  let hdr_off := buf_off - sizeof_mpsc_header in
  let? sz := load_u64 rb hdr_off in
  let new_size := Z.lxor sz k_busy_bit in
  let new_size := if discard then Z.lor new_size k_discard_bit else new_size in
  let? rb1 := store_u64 rb hdr_off new_size in
  let tail := reader_pos rb1 in
  Some (Z.land tail (mask rb1) =? hdr_off, tail, rb1).

Definition mpsc_commit (rb : RingBuffer) (buf_off : Z) := commit_internal rb buf_off false.
Definition mpsc_discard (rb : RingBuffer) (buf_off : Z) := commit_internal rb buf_off true.

(** ** The reading side of the MPSC ring *)

Fixpoint read_sample_loop (fuel : nat) (rb : RingBuffer) (head : Z) :
    option (option ConstBuffer * RingBuffer) :=
  match fuel with
  | O => None
  | S f =>
      let tail := intermediate_reader_pos rb in
      if head =? tail then Some (None, rb)
      else
        let tail_linear := Z.land tail (mask rb) in
        let? sz := load_u64 rb tail_linear in
        if is_busy sz then Some (None, rb)
        else
          let rb1 := set_intermediate rb
                       (tail +w align_up (get_size sz +w sizeof_mpsc_header) kRingBufferAlignment) in
          if is_discarded sz then read_sample_loop f rb1 head
          else Some (Some (mkBuf (InData (tail_linear + sizeof_mpsc_header)) sz), rb1)
  end.

(** Each iteration consumes at least 8 bytes of the ring, which has [mask + 1]. *)
Definition ring_fuel (rb : RingBuffer) : nat := Z.to_nat ((mask rb + 1) / 8 + 1).

Definition mpsc_rb_read_sample_head (rb : RingBuffer) (head : Z) :=
  read_sample_loop (ring_fuel rb) rb head.
Definition mpsc_rb_read_sample (rb : RingBuffer) := mpsc_rb_read_sample_head rb (writer_pos rb).

(** The scan of [mpsc_rb_advance_if_possible]: skip discarded events. *)
Fixpoint advance_loop (fuel : nat) (rb : RingBuffer) (new_tail head : Z) : option Z :=
  match fuel with
  | O => None
  | S f =>
      if new_tail <? head then
        let? sz := load_u64 rb (Z.land new_tail (mask rb)) in
        if is_discarded sz
        then advance_loop f rb
               (new_tail +w align_up (get_size sz +w sizeof_mpsc_header) kRingBufferAlignment) head
        else Some new_tail
      else Some new_tail
  end.

(** [mpsc_rb_advance_if_possible(rb, event)], [event] at linear offset [event_off]. *)
Definition mpsc_rb_advance_if_possible (rb : RingBuffer) (event_off : Z) : option RingBuffer :=
  let hdr_off := event_off - sizeof_mpsc_header in
  let? sz := load_u64 rb hdr_off in
  let? rb1 := store_u64 rb hdr_off (set_discarded sz) in
  let? new_tail := advance_loop (ring_fuel rb1) rb1 (reader_pos rb1) (writer_pos rb1) in
  Some (set_reader_pos rb1 new_tail).

(** [MPSCRingBufferReader::advance] and its destructor. *)
Definition mr_advance (rb : RingBuffer) : RingBuffer := set_reader_pos rb (intermediate_reader_pos rb).
Definition mr_destroy (rb : RingBuffer) : RingBuffer :=
  if reader_pos rb <? intermediate_reader_pos rb then mr_advance rb else rb.

(** ** Alignment *)

Lemma lor_mask y k : 0 <= k -> Z.lor y (2 ^ k - 1) = y - y mod 2 ^ k + (2 ^ k - 1).
Proof.
  intros Hk. pose proof (Z.add_lor_land y (2 ^ k - 1)) as H.
  rewrite land_mask in H by done. lia.
Qed.

Lemma align_up_eq x k :
  0 <= k < 64 -> 0 < x <= 2 ^ 64 - 2 ^ k ->
  align_up x (2 ^ k) = 2 ^ k * ((x + 2 ^ k - 1) / 2 ^ k).
Proof.
  intros Hk Hx. unfold align_up.
  assert (H2 : 0 < 2 ^ k) by lia.
  rewrite (u64_small (x - 1)) by (unfold is_u64; lia). rewrite lor_mask by lia.
  set (m := 2 ^ k) in *.
  replace (x + m - 1) with (x - 1 + 1 * m) by lia. rewrite Z.div_add by lia.
  pose proof (Z.div_mod (x - 1) m). pose proof (Z.mod_pos_bound (x - 1) m).
  assert (Hdiv : (x - 1) / m * m + m <= 2 ^ 64).
  { assert (Hm : (m | 2 ^ 64)). { exists (2 ^ (64 - k)). unfold m. rewrite <- Z.pow_add_r by lia. f_equal. lia. }
    destruct Hm as [c Hc]. rewrite Hc in *.
    assert ((x - 1) / m < c) by (apply Z.div_lt_upper_bound; lia). nia. }
  destruct (decide ((x - 1) / m * m + m = 2 ^ 64)).
  { exfalso. assert ((x - 1) / m * m <= x - 1) by nia. lia. }
  rewrite u64_small; [lia|]. unfold is_u64. lia.
Qed.

Lemma align_up8 x : 0 < x <= 2 ^ 64 - 8 -> align_up x 8 = 8 * ((x + 7) / 8).
Proof.
  intros H. change (align_up x 8) with (align_up x (2 ^ 3)). rewrite align_up_eq by lia.
  change (2 ^ 3) with 8. do 2 f_equal. lia.
Qed.

Lemma align_up8_bounds x : 0 < x <= 2 ^ 64 - 8 ->
  x <= align_up x 8 < x + 8 /\ align_up x 8 mod 8 = 0.
Proof.
  intros H. rewrite align_up8 by done. pose proof (Z.div_mod (x + 7) 8).
  pose proof (Z.mod_pos_bound (x + 7) 8). split; [lia|]. rewrite Z.mul_comm. apply Z.mod_mul. lia.
Qed.

(** ** Memory *)

Lemma length_le_bytes n v : length (le_bytes n v) = n.
Proof. revert v. induction n; intros v; simpl; [done|]. by rewrite IHn. Qed.

Lemma le_val_le_bytes n v : 0 <= v < 256 ^ Z.of_nat n -> le_val (le_bytes n v) = v.
Proof.
  revert v. induction n as [|n IH]; intros v H.
  { rewrite Z.pow_0_r in H. simpl. lia. }
  cbn [le_bytes le_val]. rewrite Nat2Z.inj_succ, Z.pow_succ_r in H by lia.
  rewrite IH by (split; [apply Z.div_pos; lia|apply Z.div_lt_upper_bound; lia]).
  pose proof (Z.div_mod v 256). lia.
Qed.

Lemma length_rd d size p n : length (rd d size p n) = Z.to_nat n.
Proof. unfold rd. by rewrite length_map, length_seqZ. Qed.

Lemma rd_ext d1 d2 size p n :
  (forall i, 0 <= i < n -> d1 ((p + i) mod size) = d2 ((p + i) mod size)) ->
  rd d1 size p n = rd d2 size p n.
Proof.
  intros H. unfold rd. apply map_ext_in. intros i Hi.
  apply list_elem_of_In, elem_of_seqZ in Hi. apply H. lia.
Qed.

Lemma rd_mod d size p n : 0 < size -> rd d size (p mod size) n = rd d size p n.
Proof.
  intros H. unfold rd. apply map_ext. intros i. by rewrite Zplus_mod_idemp_l.
Qed.

Lemma wr_mod d size p bs j : 0 < size -> wr d size (p mod size) bs j = wr d size p bs j.
Proof. intros H. unfold wr. by rewrite Zminus_mod_idemp_r. Qed.

Lemma rd_wr_mod d size p q bs n :
  0 < size -> rd (wr d size (p mod size) bs) size q n = rd (wr d size p bs) size q n.
Proof. intros H. apply rd_ext. intros i _. by apply wr_mod. Qed.

Lemma rd_lookup d size p n i :
  0 <= i < n -> rd d size p n !! Z.to_nat i = Some (d ((p + i) mod size)).
Proof.
  intros H. unfold rd. rewrite list_lookup_fmap, lookup_seqZ_lt by lia. simpl. do 3 f_equal. lia.
Qed.

Lemma wr_in d size p bs i :
  0 <= i < Z.of_nat (length bs) -> Z.of_nat (length bs) <= size ->
  wr d size p bs ((p + i) mod size) = nth (Z.to_nat i) bs 0.
Proof.
  intros Hi Hs. unfold wr. rewrite Zminus_mod_idemp_l.
  replace (p + i - p) with i by lia. rewrite Z.mod_small by lia.
  destruct (Z.ltb_spec i (Z.of_nat (length bs))); [done|lia].
Qed.

(** Bytes just written are read back. *)
Lemma rd_wr_same d size p bs :
  Z.of_nat (length bs) <= size -> rd (wr d size p bs) size p (Z.of_nat (length bs)) = bs.
Proof.
  intros H. apply list_eq. intros i. destruct (decide (i < length bs)%nat) as [Hi|Hi].
  - rewrite <- (Nat2Z.id i) at 1. rewrite rd_lookup by lia. rewrite wr_in by lia.
    rewrite Nat2Z.id. destruct (lookup_lt_is_Some_2 bs i Hi) as [x Hx]. rewrite Hx. f_equal.
    apply nth_lookup_Some with (d := 0) in Hx. done.
  - rewrite !lookup_ge_None_2; [done|lia|]. rewrite length_rd. lia.
Qed.

(** A write leaves every range that is disjoint from it, within one lap, alone. *)
Lemma rd_wr_disjoint d size p bs q n :
  0 < size ->
  (p + Z.of_nat (length bs) <= q /\ q + n <= p + size) \/
  (q + n <= p /\ p + Z.of_nat (length bs) <= q + size) ->
  rd (wr d size p bs) size q n = rd d size q n.
Proof.
  intros Hs Hd. apply rd_ext. intros i Hi. unfold wr. rewrite Zminus_mod_idemp_l.
  assert (Hk : Z.of_nat (length bs) <= (q + i - p) mod size).
  { destruct Hd.
    - rewrite Z.mod_small; lia.
    - rewrite <- (Z.mod_add _ 1) by lia. rewrite Z.mod_small; lia. }
  destruct (Z.ltb_spec ((q + i - p) mod size) (Z.of_nat (length bs))); [lia|done].
Qed.
