(* ===== verification/MpscRing.v ===== *)
(** * The multi-producer single-consumer ring: correctness

    The operations of [RingBuffer] on an MPSC ring refine a queue of records.
    A record is reserved by a producer (busy), filled, then committed or
    discarded; the consumer receives the committed payloads in reservation
    order.  Theorems cover every interleaving of producers and consumer, each
    operation being one step ([reserve] runs under the spinlock, [commit] is one
    release store). *)

From S2P Require Import Prelude RingBuffer.

(** ** Abstract queue *)

Inductive status := Busy | Committed | Discarded.

#[export] Instance status_eq_dec : EqDecision status.
Proof. solve_decision. Defined.

Record entry := mkE { e_n : Z; e_st : status; e_data : list Z }.

(** Bytes a record takes in the ring, header included. *)
Definition e_len (e : entry) : Z := align_up (e_n e + sizeof_mpsc_header) kRingBufferAlignment.

Fixpoint q_end (p : Z) (q : list entry) : Z :=
  match q with [] => p | e :: q' => q_end (p + e_len e) q' end.

(** What the consumer gets next, and how many records it moves past. *)
Fixpoint next_sample (q : list entry) : option entry * nat :=
  match q with
  | [] => (None, 0%nat)
  | e :: q' =>
      match e_st e with
      | Busy => (None, 0%nat)
      | Committed => (Some e, 1%nat)
      | Discarded => let '(r, c) := next_sample q' in (r, S c)
      end
  end.

(** The records that can be released: the longest discarded prefix. *)
Fixpoint discarded_prefix (q : list entry) : nat :=
  match q with
  | e :: q' => if decide (e_st e = Discarded) then S (discarded_prefix q') else 0%nat
  | [] => 0%nat
  end.

(** ** Representation *)

Definition hdr_word (n : Z) (st : status) : Z :=
  match st with
  | Busy => Z.lor n k_busy_bit
  | Committed => n
  | Discarded => Z.lor n k_discard_bit
  end.

Definition entry_ok (rb : RingBuffer) (p : Z) (e : entry) : Prop :=
  0 < e_n e < 2 ^ 61 /\
  le_val (rd (data rb) (data_size rb) p 8) = hdr_word (e_n e) (e_st e) /\
  rd (data rb) (data_size rb) (p + 8) (e_n e) = e_data e.

Fixpoint tiles (rb : RingBuffer) (p : Z) (q : list entry) : Prop :=
  match q with
  | [] => True
  | e :: q' => entry_ok rb p e /\ tiles rb (p + e_len e) q'
  end.

(** The ring [rb] represents the unreleased records [q], the first [i] of which
    the consumer has already read. *)
Record ring_inv (rb : RingBuffer) (q : list entry) (i : nat) : Prop := {
  ri_size : exists k, 3 <= k <= 60 /\ data_size rb = 2 ^ k /\ mask rb = 2 ^ k - 1;
  ri_mirrored : mirrored_mapping rb = true;
  ri_reader : 0 <= reader_pos rb /\ reader_pos rb mod 8 = 0;
  ri_writer : writer_pos rb = q_end (reader_pos rb) q /\ writer_pos rb < 2 ^ 64;
  ri_room : writer_pos rb - reader_pos rb <= mask rb;
  ri_inter : (i <= length q)%nat /\
             intermediate_reader_pos rb = q_end (reader_pos rb) (take i q);
  ri_tiles : tiles rb (reader_pos rb) q
}.

(** ** Header words *)

Lemma testbit_high n j : 0 <= n < 2 ^ 62 -> 62 <= j -> Z.testbit n j = false.
Proof.
  intros Hn Hj. apply Z.bits_above_log2; [lia|]. destruct (decide (n = 0)) as [->|]; [cbn; lia|].
  assert (Z.log2 n < 62) by (apply Z.log2_lt_pow2; lia). lia.
Qed.

Lemma land_pow2_testbit x j : 0 <= j -> Z.land x (2 ^ j) = if Z.testbit x j then 2 ^ j else 0.
Proof.
  intros Hj. apply Z.bits_inj'. intros m Hm. rewrite Z.land_spec, Z.pow2_bits_eqb by lia.
  destruct (Z.eqb_spec j m) as [->|Hne].
  - destruct (Z.testbit x m); [by rewrite Z.pow2_bits_true|by rewrite Z.bits_0].
  - rewrite andb_false_r. destruct (Z.testbit x j); [by rewrite Z.pow2_bits_false|by rewrite Z.bits_0].
Qed.

Lemma flag_testbit x j : 0 <= j -> negb (Z.land x (2 ^ j) =? 0) = Z.testbit x j.
Proof. intros Hj. rewrite land_pow2_testbit by done. destruct (Z.testbit x j); [|done].
  destruct (Z.eqb_spec (2 ^ j) 0); [lia|done].
Qed.

Lemma lor_flag_add n j : 0 <= n < 2 ^ 62 -> 62 <= j -> Z.lor n (2 ^ j) = n + 2 ^ j.
Proof.
  intros Hn Hj. pose proof (Z.add_lor_land n (2 ^ j)) as H.
  rewrite land_pow2_testbit, testbit_high in H by lia. lia.
Qed.

Lemma hdr_word_range n st : 0 <= n < 2 ^ 62 -> 0 <= hdr_word n st < 2 ^ 64.
Proof.
  intros Hn. destruct st; simpl; unfold k_busy_bit, k_discard_bit; rewrite ?lor_flag_add by lia; lia.
Qed.

Lemma hdr_word_busy n st : 0 <= n < 2 ^ 62 -> is_busy (hdr_word n st) = bool_decide (st = Busy).
Proof.
  intros Hn. unfold is_busy, k_busy_bit. rewrite flag_testbit by lia.
  destruct st; cbn [hdr_word]; unfold k_busy_bit, k_discard_bit;
    rewrite ?Z.lor_spec, ?Z.pow2_bits_eqb, testbit_high by lia; done.
Qed.

Lemma hdr_word_discarded n st : 0 <= n < 2 ^ 62 ->
  is_discarded (hdr_word n st) = bool_decide (st = Discarded).
Proof.
  intros Hn. unfold is_discarded, k_discard_bit. rewrite flag_testbit by lia.
  destruct st; cbn [hdr_word]; unfold k_busy_bit, k_discard_bit;
    rewrite ?Z.lor_spec, ?Z.pow2_bits_eqb, testbit_high by lia; done.
Qed.

Lemma get_size_hdr_word n st : 0 <= n < 2 ^ 62 -> st <> Busy -> get_size (hdr_word n st) = n.
Proof.
  intros Hn Hst. unfold get_size.
  replace (u64 (Z.lnot k_discard_bit)) with (Z.ones 64 - 2 ^ 62) by reflexivity.
  apply Z.bits_inj'. intros m Hm. rewrite Z.land_spec.
  assert (Hc : Z.testbit (Z.ones 64 - 2 ^ 62) m = (m <? 64) && negb (m =? 62)).
  { replace (Z.ones 64 - 2 ^ 62) with (Z.ldiff (Z.ones 64) (2 ^ 62)) by reflexivity.
    rewrite Z.ldiff_spec, Z.testbit_ones_nonneg, Z.pow2_bits_eqb by lia. by rewrite (Z.eqb_sym 62 m). }
  rewrite Hc.
  assert (Hb : Z.testbit (hdr_word n st) m = Z.testbit n m || (bool_decide (st = Discarded) && (m =? 62))).
  { destruct st; [done| |]; cbn [hdr_word].
    - by rewrite orb_false_r.
    - unfold k_discard_bit. rewrite Z.lor_spec, Z.pow2_bits_eqb by lia. by rewrite (Z.eqb_sym 62 m). }
  rewrite Hb. destruct (Z.eqb_spec m 62) as [->|].
  - rewrite testbit_high by lia. by rewrite !andb_false_r.
  - rewrite !andb_false_r, orb_false_r, andb_true_r.
    destruct (Z.ltb_spec m 64); [by rewrite andb_true_r|]. by rewrite testbit_high by lia.
Qed.

(** Commit clears the busy bit and discard also sets the discard bit. *)
Lemma hdr_word_commit n : 0 <= n < 2 ^ 62 -> Z.lxor (hdr_word n Busy) k_busy_bit = n.
Proof.
  intros Hn. cbn [hdr_word]. apply Z.bits_inj'. intros m Hm. unfold k_busy_bit.
  rewrite Z.lxor_spec, Z.lor_spec, Z.pow2_bits_eqb by lia. destruct (Z.eqb_spec 63 m) as [<-|].
  - by rewrite testbit_high by lia.
  - by rewrite orb_false_r, xorb_false_r.
Qed.

Lemma hdr_word_set_discarded n st : st <> Busy ->
  set_discarded (hdr_word n st) = hdr_word n Discarded.
Proof.
  intros Hst. unfold set_discarded. destruct st; [done|done|]. cbn [hdr_word].
  by rewrite <- Z.lor_assoc, Z.lor_diag.
Qed.

(** ** Tiling of the ring by records *)

Definition entry_size_ok (e : entry) : Prop := 0 < e_n e < 2 ^ 61.

Lemma e_len_bounds e : entry_size_ok e ->
  e_n e + 8 <= e_len e < e_n e + 16 /\ e_len e mod 8 = 0 /\ 16 <= e_len e.
Proof.
  intros H. unfold entry_size_ok, e_len, sizeof_mpsc_header, kRingBufferAlignment in *.
  destruct (align_up8_bounds (e_n e + 8)) as [Hb Hm]; [lia|]. split; [lia|]. split; [done|].
  pose proof (Z.div_mod (align_up (e_n e + 8) 8) 8). lia.
Qed.

Lemma q_end_app p q1 q2 : q_end p (q1 ++ q2) = q_end (q_end p q1) q2.
Proof. revert p. induction q1; intros p; simpl; [done|]. by rewrite IHq1. Qed.

Lemma q_end_ge p q : Forall entry_size_ok q -> p <= q_end p q.
Proof.
  intros H. revert p. induction H as [|e q He _ IH]; intros p; simpl; [lia|].
  specialize (IH (p + e_len e)). pose proof (e_len_bounds e He). lia.
Qed.

Lemma q_end_mod8 p q : Forall entry_size_ok q -> p mod 8 = 0 -> q_end p q mod 8 = 0.
Proof.
  intros H. revert p. induction H as [|e q He _ IH]; intros p Hp; simpl; [done|]. apply IH.
  pose proof (e_len_bounds e He) as (_ & Hm & _). rewrite Z.add_mod, Hp, Hm by lia. done.
Qed.

Lemma tiles_sizes rb p q : tiles rb p q -> Forall entry_size_ok q.
Proof. revert p. induction q; intros p H; constructor; [apply H|]. eapply IHq, H. Qed.

Lemma tiles_app rb p q1 q2 : tiles rb p (q1 ++ q2) <-> tiles rb p q1 /\ tiles rb (q_end p q1) q2.
Proof. revert p. induction q1; intros p; simpl; [tauto|]. rewrite IHq1. tauto. Qed.

(** Records only depend on the bytes of their range. *)
Lemma tiles_frame rb rb' p q :
  data_size rb' = data_size rb ->
  (forall x n, p <= x -> x + n <= q_end p q -> rd (data rb') (data_size rb) x n = rd (data rb) (data_size rb) x n) ->
  tiles rb p q -> tiles rb' p q.
Proof.
  intros Hs. revert p. induction q as [|e q IH]; intros p Hrd; simpl; [done|].
  intros [(Hn & Hh & Hd) Ht]. pose proof (e_len_bounds e Hn) as (Hb & _).
  pose proof (q_end_ge (p + e_len e) q (tiles_sizes _ _ _ Ht)) as Hge. simpl in Hrd.
  split.
  - unfold entry_ok. rewrite Hs. rewrite !Hrd by lia. done.
  - apply IH; [|done]. intros x n Hx Hxn. apply Hrd; lia.
Qed.

(** A write that starts after the records, within one lap, or that ends before
    them, leaves them alone. *)
Lemma tiles_wr rb p q w bs :
  0 < data_size rb ->
  (q_end p q <= w /\ w + Z.of_nat (length bs) <= p + data_size rb) \/
  (w + Z.of_nat (length bs) <= p /\ q_end p q <= w + data_size rb) ->
  tiles rb p q -> tiles (set_data rb (wr (data rb) (data_size rb) w bs)) p q.
Proof.
  intros Hs Hw. apply tiles_frame; [done|]. intros x n Hx Hn. cbn [data set_data].
  apply rd_wr_disjoint; [done|]. lia.
Qed.

Lemma tiles_wr_mod rb p q w bs :
  0 < data_size rb ->
  tiles (set_data rb (wr (data rb) (data_size rb) w bs)) p q ->
  tiles (set_data rb (wr (data rb) (data_size rb) (w mod data_size rb) bs)) p q.
Proof.
  intros Hs. apply tiles_frame; [done|]. intros x n Hx Hn. cbn [data data_size set_data].
  by apply rd_wr_mod.
Qed.

Lemma ring_pos rb q i : ring_inv rb q i -> 0 < data_size rb /\ mask rb = data_size rb - 1 /\ 8 <= data_size rb <= 2 ^ 60.
Proof.
  intros [(k & Hk & -> & ->) _ _ _ _ _ _]. assert (2 ^ 3 <= 2 ^ k <= 2 ^ 60).
  { split; apply Z.pow_le_mono_r; lia. } lia.
Qed.

Lemma ring_linear rb q i p : ring_inv rb q i -> Z.land p (mask rb) = p mod data_size rb.
Proof. intros [(k & Hk & -> & ->) _ _ _ _ _ _]. apply land_mask. lia. Qed.

Lemma ring_access rb q i p n : ring_inv rb q i -> n <= data_size rb ->
  access_ok rb (p mod data_size rb) n = true.
Proof.
  intros H Hn. pose proof (ring_pos _ _ _ H) as (Hs & _). unfold access_ok. rewrite (ri_mirrored _ _ _ H).
  apply Z.leb_le. pose proof (Z.mod_pos_bound p (data_size rb)). lia.
Qed.

(** Reading and writing header words at a logical position. *)
Lemma ring_load rb q i p : ring_inv rb q i ->
  load_u64 rb (p mod data_size rb) = Some (le_val (rd (data rb) (data_size rb) p 8)).
Proof.
  intros H. pose proof (ring_pos _ _ _ H) as (Hs & _ & Hb). unfold load_u64.
  rewrite (ring_access rb q i p 8) by (done || lia). by rewrite rd_mod.
Qed.

Lemma ring_store rb q i p v : ring_inv rb q i ->
  store_u64 rb (p mod data_size rb) v
  = Some (set_data rb (wr (data rb) (data_size rb) (p mod data_size rb) (le_bytes 8 v))).
Proof.
  intros H. pose proof (ring_pos _ _ _ H) as (Hs & _ & Hb). unfold store_u64, store_bytes.
  rewrite length_le_bytes. by rewrite (ring_access rb q i p (Z.of_nat 8)) by (done || lia).
Qed.

(** Overwriting the header word of a record changes its status only. *)
Lemma entry_ok_set_hdr rb p e st :
  0 < data_size rb -> e_len e <= data_size rb -> entry_ok rb p e ->
  entry_ok (set_data rb (wr (data rb) (data_size rb) p (le_bytes 8 (hdr_word (e_n e) st)))) p
           (mkE (e_n e) st (e_data e)).
Proof.
  intros Hs Hl (Hn & _ & Hd). pose proof (e_len_bounds e Hn) as (Hb & _).
  unfold entry_ok. cbn [data data_size set_data e_n e_st e_data]. split; [done|]. split.
  - pose proof (rd_wr_same (data rb) (data_size rb) p (le_bytes 8 (hdr_word (e_n e) st))) as E.
    rewrite length_le_bytes in E. change (Z.of_nat 8) with 8 in E. rewrite E by lia.
    apply le_val_le_bytes, hdr_word_range. lia.
  - rewrite rd_wr_disjoint by (rewrite ?length_le_bytes; lia). done.
Qed.

Lemma entry_ok_wr_mod rb p e w bs :
  0 < data_size rb ->
  entry_ok (set_data rb (wr (data rb) (data_size rb) w bs)) p e ->
  entry_ok (set_data rb (wr (data rb) (data_size rb) (w mod data_size rb) bs)) p e.
Proof. unfold entry_ok. cbn [data data_size set_data]. intros Hs. by rewrite !rd_wr_mod. Qed.

(** Replacing one record in the middle of the queue. *)
Lemma tiles_update rb p q1 e q2 e' w bs :
  0 < data_size rb -> tiles rb p (q1 ++ e :: q2) ->
  q_end p (q1 ++ e :: q2) - p <= data_size rb -> e_len e' = e_len e ->
  q_end p q1 <= w -> w + Z.of_nat (length bs) <= q_end p q1 + e_len e ->
  entry_ok (set_data rb (wr (data rb) (data_size rb) w bs)) (q_end p q1) e' ->
  tiles (set_data rb (wr (data rb) (data_size rb) w bs)) p (q1 ++ e' :: q2).
Proof.
  intros Hs Ht Hend Hlen Hlo Hhi He'. pose proof (tiles_sizes _ _ _ Ht) as Hf.
  apply Forall_app in Hf as [Hf1 Hf2]. inversion_clear Hf2 as [|? ? He Hf3].
  rewrite q_end_app in Hend. cbn [q_end] in Hend.
  pose proof (q_end_ge p q1 Hf1) as H1. pose proof (q_end_ge (q_end p q1 + e_len e) q2 Hf3) as H2.
  apply tiles_app in Ht as [Ht1 [_ Ht2]]. apply tiles_app. split; [|split; [done|]].
  - apply tiles_wr; [done| |done]. left. lia.
  - rewrite Hlen. apply tiles_wr; [done| |done]. right. lia.
Qed.

(** ** Operations on the representation *)

Lemma take_prefix {A} (q r : list A) i : (i <= length q)%nat -> take i (q ++ r) = take i q.
Proof. intros H. by rewrite take_app_le. Qed.

Lemma reserve_len n : 0 < n < 2 ^ 61 ->
  align_up (n +w sizeof_mpsc_header) kRingBufferAlignment = e_len (mkE n Busy []).
Proof. intros H. unfold e_len. cbn [e_n]. rewrite u64_small; [done|]. unfold is_u64, sizeof_mpsc_header. lia. Qed.

(** [reserve] appends a busy record or leaves the ring unchanged; it never
    overwrites a record that is not released. *)
Lemma reserve_spec rb q i tail area n hp lock :
  ring_inv rb q i -> 0 < n < 2 ^ 61 -> 0 <= area < 2 ^ 61 -> 0 <= tail <= reader_pos rb ->
  writer_pos rb < 2 ^ 63 ->
  exists r rb', mpsc_reserve rb tail area n hp lock = Some (r, rb') /\
    match r with
    | Reserved b =>
        b = mkBuf (InData (writer_pos rb mod data_size rb + 8)) n /\
        reader_pos rb' = reader_pos rb /\
        exists payload, ring_inv rb' (q ++ [mkE n Busy payload]) i
    | _ => rb' = rb
    end.
Proof.
  intros H Hn Ha Ht Hw. pose proof (ring_pos _ _ _ H) as (Hs & Hm & Hb).
  unfold mpsc_reserve. rewrite reserve_len by done.
  set (e0 := mkE n Busy []). pose proof (e_len_bounds e0 Hn) as (Hl & Hl8 & Hl16). cbn [e_n e0] in Hl.
  destruct (Z.eqb_spec (e_len e0) 0); [lia|]. destruct lock; cbn [negb]; [|by eexists _, _].
  pose proof (ri_writer _ _ _ H) as [Hwp _]. pose proof (ri_room _ _ _ H) as Hroom.
  pose proof (ri_reader _ _ _ H) as [Hr0 _].
  pose proof (tiles_sizes _ _ _ (ri_tiles _ _ _ H)) as Hf.
  pose proof (q_end_ge (reader_pos rb) q Hf) as Hge.
  assert (Hnew : writer_pos rb +w e_len e0 = writer_pos rb + e_len e0) by (apply u64_small; unfold is_u64; lia).
  rewrite Hnew.
  assert (Hadj : u64 ((if hp then writer_pos rb + e_len e0 else writer_pos rb + e_len e0 +w area) - tail)
     = writer_pos rb + e_len e0 + (if hp then 0 else area) - tail).
  { destruct hp; rewrite ?u64_sub_l, u64_small; unfold is_u64; lia. }
  rewrite Hadj. destruct (Z.ltb_spec (mask rb) (writer_pos rb + e_len e0 + (if hp then 0 else area) - tail));
    [by eexists _, _|].
  assert (Hfit : writer_pos rb + e_len e0 - reader_pos rb <= mask rb) by (destruct hp; lia).
  rewrite (ring_linear rb q i) by done. rewrite (ring_store rb q i) by done.
  eexists _, _. split; [done|]. split; [done|]. split; [done|].
  set (w := writer_pos rb) in *. set (bytes := le_bytes 8 (Z.lor n k_busy_bit)).
  set (d' := wr (data rb) (data_size rb) (w mod data_size rb) bytes).
  exists (rd d' (data_size rb) (w + 8) n).
  assert (Hlb : Z.of_nat (length bytes) = 8) by (unfold bytes; by rewrite length_le_bytes).
  split; cbn [set_writer_pos set_data data data_size mask mirrored_mapping reader_pos writer_pos intermediate_reader_pos].
  - apply (ri_size _ _ _ H).
  - apply (ri_mirrored _ _ _ H).
  - apply (ri_reader _ _ _ H).
  - rewrite q_end_app, <- Hwp. cbn [q_end]. change (e_len _) with (e_len e0). lia.
  - lia.
  - pose proof (ri_inter _ _ _ H) as [Hi Hin]. rewrite length_app. split; [simpl; lia|].
    by rewrite take_prefix by done.
  - apply tiles_app. rewrite <- Hwp. split; [|split; [|done]].
    + apply (tiles_frame (set_data rb d')); [done|by intros|].
      apply tiles_wr_mod; [done|]. apply tiles_wr; [done| |apply (ri_tiles _ _ _ H)].
      left. rewrite <- Hwp, Hlb. lia.
    + split; [done|]. split; [|done]. cbn [data data_size set_writer_pos set_data e_n e_st].
      unfold d'. rewrite rd_wr_mod by done.
      pose proof (rd_wr_same (data rb) (data_size rb) w bytes) as E. rewrite Hlb in E. rewrite E by lia.
      apply le_val_le_bytes. apply (hdr_word_range n Busy). lia.
Qed.

(** The producer fills the payload of its busy record. *)
Definition write_payload (rb : RingBuffer) (b : ConstBuffer) (bs : list Z) : option RingBuffer :=
  match buf_data b with InData off => store_bytes rb off bs | InWrapCopy => None end.

Lemma ring_inv_update rb q1 e q2 i e' w bs :
  ring_inv rb (q1 ++ e :: q2) i -> e_len e' = e_len e ->
  q_end (reader_pos rb) q1 <= w -> w + Z.of_nat (length bs) <= q_end (reader_pos rb) q1 + e_len e ->
  entry_ok (set_data rb (wr (data rb) (data_size rb) w bs)) (q_end (reader_pos rb) q1) e' ->
  ring_inv (set_data rb (wr (data rb) (data_size rb) (w mod data_size rb) bs)) (q1 ++ e' :: q2) i.
Proof.
  intros H Hlen Hlo Hhi He'. pose proof (ring_pos _ _ _ H) as (Hs & Hm & Hb).
  assert (Hq : forall p r, q_end p (q1 ++ e' :: r) = q_end p (q1 ++ e :: r)).
  { intros p r. rewrite !q_end_app. cbn [q_end]. by rewrite Hlen. }
  pose proof (ri_writer _ _ _ H) as [Hwp Hw64]. pose proof (ri_room _ _ _ H) as Hroom.
  split; cbn [set_data data data_size mask mirrored_mapping reader_pos writer_pos intermediate_reader_pos].
  - apply (ri_size _ _ _ H).
  - apply (ri_mirrored _ _ _ H).
  - apply (ri_reader _ _ _ H).
  - by rewrite Hq.
  - done.
  - pose proof (ri_inter _ _ _ H) as [Hi Hin]. rewrite length_app in *. split; [done|]. rewrite Hin.
    destruct (decide (i <= length q1)%nat).
    + by rewrite !take_app_le by lia.
    + rewrite !take_app_ge by lia. destruct (i - length q1)%nat as [|j] eqn:E; [lia|].
      cbn [take]. by rewrite Hq.
  - apply tiles_wr_mod; [done|]. eapply tiles_update; [done|apply (ri_tiles _ _ _ H)| |done..]. lia.
Qed.

Lemma e_len_room rb q1 e q2 i : ring_inv rb (q1 ++ e :: q2) i ->
  entry_ok rb (q_end (reader_pos rb) q1) e /\ e_len e <= data_size rb /\
  reader_pos rb <= q_end (reader_pos rb) q1 /\
  q_end (reader_pos rb) q1 + e_len e <= writer_pos rb.
Proof.
  intros H. pose proof (ring_pos _ _ _ H) as (Hs & Hm & Hb).
  pose proof (ri_tiles _ _ _ H) as Ht. pose proof (tiles_sizes _ _ _ Ht) as Hf.
  apply Forall_app in Hf as [Hf1 Hf2]. inversion_clear Hf2 as [|? ? He Hf3].
  pose proof (q_end_ge (reader_pos rb) q1 Hf1).
  pose proof (q_end_ge (q_end (reader_pos rb) q1 + e_len e) q2 Hf3) as H2.
  pose proof (ri_writer _ _ _ H) as [Hwp _]. pose proof (ri_room _ _ _ H) as Hroom.
  rewrite q_end_app in Hwp. cbn [q_end] in Hwp. apply tiles_app in Ht as [_ [Hok _]].
  split; [done|]. lia.
Qed.

(** The payload of a record, through the buffer handed out for it. *)
Lemma deref_spec rb q1 e q2 i :
  ring_inv rb (q1 ++ e :: q2) i ->
  deref rb (mkBuf (InData (q_end (reader_pos rb) q1 mod data_size rb + 8)) (e_n e)) = Some (e_data e).
Proof.
  intros H. destruct (e_len_room _ _ _ _ _ H) as ((Hn & _ & Hd) & Hl & _).
  pose proof (ring_pos _ _ _ H) as (Hs & _). pose proof (e_len_bounds e Hn) as (Hb & _).
  unfold deref. cbn [buf_data buf_size]. set (p := q_end (reader_pos rb) q1) in *.
  assert (Hacc : access_ok rb (p mod data_size rb + 8) (e_n e) = true).
  { unfold access_ok. rewrite (ri_mirrored _ _ _ H). apply Z.leb_le.
    pose proof (Z.mod_pos_bound p (data_size rb)). lia. }
  rewrite Hacc. rewrite <- Hd. f_equal. rewrite <- (rd_mod _ _ (p + 8)) by done.
  rewrite <- (rd_mod _ _ (p mod data_size rb + 8)) by done. by rewrite Zplus_mod_idemp_l.
Qed.

Lemma mpsc_reserve_size rb tail area n hp lock b rb' :
  mpsc_reserve rb tail area n hp lock = Some (Reserved b, rb') -> data_size rb' = data_size rb.
Proof.
  unfold mpsc_reserve, store_u64, store_bytes. intros E. repeat (case_match; simplify_eq/=); done.
Qed.

Lemma write_payload_spec rb q1 e q2 i bs :
  ring_inv rb (q1 ++ e :: q2) i -> Z.of_nat (length bs) = e_n e ->
  exists rb', write_payload rb (mkBuf (InData (q_end (reader_pos rb) q1 mod data_size rb + 8)) (e_n e)) bs = Some rb' /\
    reader_pos rb' = reader_pos rb /\ data_size rb' = data_size rb /\
    forall st, e_st e = st -> ring_inv rb' (q1 ++ mkE (e_n e) st bs :: q2) i.
Proof.
  intros H Hbs. pose proof (ring_pos _ _ _ H) as (Hs & Hm & Hb).
  destruct (e_len_room _ _ _ _ _ H) as (Hok & Hl & Hlo & Hhi). pose proof Hok as (Hn & Hh & Hd).
  pose proof (e_len_bounds e Hn) as (Hlb & _).
  set (p := q_end (reader_pos rb) q1) in *.
  unfold write_payload, store_bytes. cbn [buf_data].
  assert (Hacc : access_ok rb (p mod data_size rb + 8) (Z.of_nat (length bs)) = true).
  { unfold access_ok. rewrite (ri_mirrored _ _ _ H). apply Z.leb_le.
    pose proof (Z.mod_pos_bound p (data_size rb)). lia. }
  rewrite Hacc. eexists. split; [done|]. split; [done|]. split; [done|]. intros st Hst.
  assert (Hmem : forall x n, rd (wr (data rb) (data_size rb) (p mod data_size rb + 8) bs) (data_size rb) x n
     = rd (wr (data rb) (data_size rb) ((p + 8) mod data_size rb) bs) (data_size rb) x n).
  { intros x n. rewrite <- rd_wr_mod by done. by rewrite Zplus_mod_idemp_l. }
  assert (Hinv : ring_inv (set_data rb (wr (data rb) (data_size rb) ((p + 8) mod data_size rb) bs))
                   (q1 ++ mkE (e_n e) st bs :: q2) i).
  { apply (ring_inv_update rb q1 e q2); [done|done|lia|lia|].
    unfold entry_ok. cbn [set_data data data_size e_n e_st e_data]. split; [done|]. split.
    - rewrite rd_wr_disjoint by lia. by rewrite <- Hst.
    - rewrite <- Hbs. apply rd_wr_same. lia. }
  destruct Hinv as [? ? ? ? ? ? Htl]. split; try done.
  eapply tiles_frame; [..|exact Htl]; [done|]. intros x n _ _. apply Hmem.
Qed.

(** [commit]/[discard] publish a busy record, and ask for a notification exactly
    when that record is the oldest one not released. *)
Lemma commit_spec rb q1 e q2 i (discard : bool) :
  ring_inv rb (q1 ++ e :: q2) i -> e_st e = Busy ->
  exists rb', commit_internal rb (q_end (reader_pos rb) q1 mod data_size rb + 8) discard
      = Some (bool_decide (q1 = []), reader_pos rb, rb') /\
    reader_pos rb' = reader_pos rb /\
    ring_inv rb' (q1 ++ mkE (e_n e) (if discard then Discarded else Committed) (e_data e) :: q2) i.
Proof.
  intros H Hst. pose proof (ring_pos _ _ _ H) as (Hs & Hm & Hb).
  destruct (e_len_room _ _ _ _ _ H) as (Hok & Hl & Hlo & Hhi). pose proof Hok as (Hn & Hh & Hd).
  pose proof (e_len_bounds e Hn) as (Hlb & _). pose proof (ri_room _ _ _ H) as Hroom.
  set (p := q_end (reader_pos rb) q1) in *. unfold commit_internal, sizeof_mpsc_header.
  replace (p mod data_size rb + 8 - 8) with (p mod data_size rb) by lia.
  rewrite (ring_load rb _ i p H), Hh, Hst, hdr_word_commit by lia.
  set (st := if discard then Discarded else Committed).
  replace (if discard then Z.lor (e_n e) k_discard_bit else e_n e) with (hdr_word (e_n e) st)
    by (unfold st; by destruct discard).
  rewrite (ring_store rb _ i p _ H). eexists (set_data rb _). split; [|split; [done|]].
  - cbn [reader_pos set_data mask]. rewrite (ring_linear rb _ i _ H).
    enough (E : (reader_pos rb mod data_size rb =? p mod data_size rb) = bool_decide (q1 = []))
      by (rewrite E; reflexivity).
    destruct (decide (q1 = [])) as [->|Hne].
    + unfold p. cbn [q_end]. by rewrite Z.eqb_refl.
    + rewrite bool_decide_eq_false_2 by done. apply Z.eqb_neq. intros Heq.
      assert (Hlt : reader_pos rb < p).
      { destruct q1 as [|e1 q1']; [done|]. pose proof (ri_tiles _ _ _ H) as Ht.
        pose proof (tiles_sizes _ _ _ Ht) as Hf. inversion_clear Hf as [|? ? He1 Hf'].
        apply Forall_app in Hf' as [Hf' _]. unfold p. cbn [q_end].
        pose proof (e_len_bounds e1 He1). pose proof (q_end_ge (reader_pos rb + e_len e1) q1' Hf'). lia. }
      assert ((p - reader_pos rb) mod data_size rb = 0) by (rewrite Zminus_mod, Heq, Z.sub_diag; apply Z.mod_0_l; lia).
      rewrite Z.mod_small in *; lia.
  - apply (ring_inv_update rb q1 e q2 i _ p); [done|done|lia|rewrite length_le_bytes; lia|].
    apply entry_ok_set_hdr; [lia..|done].
Qed.

(** ** Reading *)

Lemma ring_inv_set_intermediate rb q i j p :
  ring_inv rb q i -> (j <= length q)%nat -> p = q_end (reader_pos rb) (take j q) ->
  ring_inv (set_intermediate rb p) q j.
Proof.
  intros [? ? ? ? ? ? Htl] Hj ->. split; try done.
  eapply tiles_frame; [..|exact Htl]; [done|]. by intros.
Qed.

Lemma take_S_app {A} (q1 q2 : list A) e i : i = length q1 -> take (S i) (q1 ++ e :: q2) = q1 ++ [e].
Proof. intros ->. rewrite take_app_ge by lia. by replace (S (length q1) - length q1)%nat with 1%nat by lia. Qed.

Lemma q_step rb q1 e q2 i :
  ring_inv rb (q1 ++ e :: q2) i -> e_st e <> Busy ->
  q_end (reader_pos rb) q1
    +w align_up (get_size (hdr_word (e_n e) (e_st e)) +w sizeof_mpsc_header) kRingBufferAlignment
  = q_end (reader_pos rb) (q1 ++ [e]).
Proof.
  intros H Hst. destruct (e_len_room _ _ _ _ _ H) as ((Hn & _) & Hl & Hlo & Hhi).
  pose proof (e_len_bounds e Hn) as (Hlb & _).
  pose proof (ri_writer _ _ _ H) as [_ Hw]. pose proof (ri_reader _ _ _ H) as [Hr _].
  rewrite get_size_hdr_word by (done || lia). rewrite reserve_len by lia.
  change (e_len (mkE (e_n e) Busy [])) with (e_len e).
  rewrite q_end_app. cbn [q_end]. apply u64_small. unfold is_u64. lia.
Qed.

(** The loop delivers what [next_sample] says, given enough fuel for the
    records left to read. *)
Lemma read_sample_loop_spec fuel rb q1 q2 :
  ring_inv rb (q1 ++ q2) (length q1) -> (length q2 < fuel)%nat ->
  exists rb', let '(r, c) := next_sample q2 in
    read_sample_loop fuel rb (writer_pos rb)
    = Some (match r with
            | Some e => Some (mkBuf (InData (q_end (reader_pos rb) (q1 ++ take (c - 1) q2) mod data_size rb + 8)) (e_n e))
            | None => None
            end, rb') /\
    ring_inv rb' (q1 ++ q2) (length q1 + c) /\ reader_pos rb' = reader_pos rb /\
    data rb' = data rb /\ data_size rb' = data_size rb.
Proof.
  revert rb q1 fuel. induction q2 as [|e q2 IH]; intros rb q1 [|f] H Hfuel; try (simpl in Hfuel; lia).
  - exists rb. cbn [next_sample read_sample_loop]. pose proof (ri_inter _ _ _ H) as [_ Hi].
    pose proof (ri_writer _ _ _ H) as [Hw _]. rewrite take_app_length in Hi. rewrite app_nil_r in *.
    rewrite Hw, Hi, Z.eqb_refl, Nat.add_0_r. done.
  - cbn [read_sample_loop].
    destruct (e_len_room _ _ _ _ _ H) as ((Hn & Hh & Hd) & Hl & Hlo & Hhi).
    pose proof (e_len_bounds e Hn) as (Hlb & _).
    pose proof (ri_inter _ _ _ H) as [_ Hi]. rewrite take_app_length in Hi. rewrite Hi.
    destruct (Z.eqb_spec (writer_pos rb) (q_end (reader_pos rb) q1)); [lia|].
    rewrite (ring_linear rb _ _ _ H), (ring_load rb _ _ _ H), Hh, hdr_word_busy by lia.
    cbn [next_sample]. destruct (e_st e) eqn:Est.
    + exists rb. rewrite bool_decide_eq_true_2, Nat.add_0_r by done. done.
    + rewrite bool_decide_eq_false_2 by done. rewrite <- Est, (q_step rb q1 e q2 _ H) by (by rewrite Est).
      rewrite hdr_word_discarded by lia. rewrite bool_decide_eq_false_2 by (by rewrite Est).
      eexists (set_intermediate rb _). split; [|split; [|done]].
      * rewrite Est. cbn [hdr_word Nat.sub take]. by rewrite app_nil_r.
      * apply (ring_inv_set_intermediate _ _ _ _ _ H); [rewrite length_app; simpl; lia|].
        rewrite Nat.add_1_r, take_S_app by done. done.
    + rewrite bool_decide_eq_false_2 by done. rewrite <- Est, (q_step rb q1 e q2 _ H) by (by rewrite Est).
      rewrite hdr_word_discarded by lia. rewrite bool_decide_eq_true_2 by (by rewrite Est).
      set (rb1 := set_intermediate rb (q_end (reader_pos rb) (q1 ++ [e]))).
      destruct (IH rb1 (q1 ++ [e]) f) as (rb' & Hrb').
      { rewrite <- app_assoc. apply (ring_inv_set_intermediate _ _ _ _ _ H).
        - rewrite !length_app. simpl. lia.
        - rewrite length_app, Nat.add_1_r, take_S_app by done. done. }
      { simpl in Hfuel. lia. }
      exists rb'. destruct (next_sample q2) as [r c] eqn:En.
      rewrite <- app_assoc in Hrb'. destruct Hrb' as (E & Hinv & Hrest).
      change (writer_pos rb1) with (writer_pos rb) in E. rewrite E.
      rewrite length_app in Hinv. split; [|split; [|done]].
      * destruct r as [e'|]; [|done]. destruct c as [|c'].
        { exfalso. destruct q2 as [|e2 q2']; [done|]. cbn [next_sample] in En.
          destruct (e_st e2); simplify_eq. by destruct (next_sample q2'). }
        cbn [Nat.sub app take]. rewrite Nat.sub_0_r. done.
      * cbn [length] in Hinv. replace (length q1 + S c)%nat with (length q1 + 1 + c)%nat by lia. rewrite <- app_assoc in Hinv. exact Hinv.
Qed.

(** Every record takes at least 16 bytes, so the ring holds fewer records than
    the fuel of the loops. *)
Lemma q_end_length p q : Forall entry_size_ok q -> p + 16 * Z.of_nat (length q) <= q_end p q.
Proof.
  intros H. revert p. induction H as [|e q He _ IH]; intros p; cbn [q_end length]; [lia|].
  specialize (IH (p + e_len e)). pose proof (e_len_bounds e He). lia.
Qed.

Lemma ring_fuel_enough rb q i : ring_inv rb q i -> (length q < ring_fuel rb)%nat.
Proof.
  intros H. pose proof (ring_pos _ _ _ H) as (Hs & Hm & Hb).
  pose proof (q_end_length (reader_pos rb) q (tiles_sizes _ _ _ (ri_tiles _ _ _ H))).
  pose proof (ri_writer _ _ _ H) as [Hw _]. pose proof (ri_room _ _ _ H).
  unfold ring_fuel. assert (Z.of_nat (length q) <= (mask rb + 1) / 8); [|lia].
  apply Z.div_le_lower_bound; lia.
Qed.

Lemma next_sample_split q : let '(r, c) := next_sample q in
  (c <= length q)%nat /\
  match r with
  | Some e => (0 < c)%nat /\ e_st e = Committed /\ take c q = take (c - 1) q ++ [e]
  | None => True
  end /\ (forall j e, (j < match r with Some _ => c - 1 | None => c end)%nat -> q !! j = Some e -> e_st e = Discarded).
Proof.
  induction q as [|e q IH]; cbn [next_sample].
  { split_and!; [simpl; lia|done|]. intros j e Hj. lia. }
  destruct (e_st e) eqn:Est.
  - split_and!; [simpl; lia|done|]. intros j e' Hj. lia.
  - split_and!; [simpl; lia|lia|done|done|]. intros j e' Hj. lia.
  - destruct (next_sample q) as [r c]. destruct IH as (Hc & Hr & Hd).
    split_and!; [simpl; lia| |].
    + destruct r as [e'|]; [|done]. destruct Hr as (H0 & Hst & Ht). split_and!; [lia|done|].
      destruct c as [|c]; [lia|]. cbn [Nat.sub] in *. rewrite Nat.sub_0_r in *. cbn [take app]. by rewrite Ht.
    + intros [|j] e' Hj Hl; [by simplify_eq/=|]. apply (Hd j); [|done]. destruct r; lia.
Qed.

(** [mpsc_rb_read_sample] returns the next committed record, past discarded ones,
    or nothing when a busy record or the end of the queue comes first. *)
Lemma read_sample_spec rb q i :
  ring_inv rb q i ->
  exists b rb', mpsc_rb_read_sample rb = Some (b, rb') /\
    let '(r, c) := next_sample (drop i q) in
    ring_inv rb' q (i + c) /\ reader_pos rb' = reader_pos rb /\ data_size rb' = data_size rb /\
    match b, r with
    | Some b, Some e =>
        b = mkBuf (InData (q_end (reader_pos rb) (take (i + c - 1) q) mod data_size rb + 8)) (e_n e) /\
        deref rb' b = Some (e_data e)
    | None, None => True
    | _, _ => False
    end.
Proof.
  intros H. pose proof (ring_fuel_enough _ _ _ H) as Hfuel. pose proof (ri_inter _ _ _ H) as [Hi _].
  pose proof (take_drop i q) as Hq.
  assert (Hlen : length (take i q) = i) by (rewrite length_take; lia).
  destruct (read_sample_loop_spec (ring_fuel rb) rb (take i q) (drop i q)) as (rb' & Hr).
  { by rewrite Hq, Hlen. }
  { rewrite length_drop. lia. }
  rewrite Hq, Hlen in Hr. unfold mpsc_rb_read_sample, mpsc_rb_read_sample_head.
  pose proof (next_sample_split (drop i q)) as Hns.
  destruct (next_sample (drop i q)) as [r c]. destruct Hr as (E & Hinv & Hrp & Hdata & Hsz).
  eexists _, rb'. split; [exact E|]. split_and!; [done..|].
  destruct r as [e|]; [|done]. destruct Hns as (Hc & (H0 & Hst & Htk) & _).
  rewrite length_drop in Hc.
  assert (Htake : take (i + c - 1) q = take i q ++ take (c - 1) (drop i q)).
  { rewrite <- Hq at 1. rewrite take_app, Hlen. rewrite take_ge by lia. do 2 f_equal. lia. }
  rewrite Htake. split; [done|].
  assert (Hsplit : q = (take i q ++ take (c - 1) (drop i q)) ++ e :: drop c (drop i q)).
  { rewrite <- Hq at 1. rewrite <- (take_drop c (drop i q)) at 1. rewrite Htk.
    by rewrite <- !app_assoc. }
  rewrite Hsplit in Hinv. rewrite <- Hrp, <- Hsz. by eapply deref_spec.
Qed.

(** [advance] releases the records already read. *)
Lemma mr_advance_spec rb q i : ring_inv rb q i -> ring_inv (mr_advance rb) (drop i q) 0.
Proof.
  intros [Hsz Hmir Hr [Hw Hw64] Hroom [Hi Hin] Htl]. pose proof (tiles_sizes _ _ _ Htl) as Hf.
  rewrite <- (take_drop i q) in Hw, Htl, Hf. rewrite q_end_app in Hw. apply tiles_app in Htl as [_ Htl].
  apply Forall_app in Hf as [Hf1 Hf2].
  pose proof (q_end_ge (reader_pos rb) _ Hf1) as Hge.
  unfold mr_advance. split; cbn [set_reader_pos reader_pos writer_pos intermediate_reader_pos mask data_size mirrored_mapping]; try done.
  - rewrite Hin. split; [lia|]. apply q_end_mod8; [done|apply Hr].
  - by rewrite Hin.
  - rewrite Hin. lia.
  - split; [lia|]. done.
  - rewrite Hin. eapply tiles_frame; [..|exact Htl]; [done|by intros].
Qed.

(** ** Out-of-order release *)

Lemma advance_loop_spec fuel rb q1 q2 i :
  ring_inv rb (q1 ++ q2) i -> (length q2 < fuel)%nat ->
  advance_loop fuel rb (q_end (reader_pos rb) q1) (writer_pos rb)
  = Some (q_end (reader_pos rb) (q1 ++ take (discarded_prefix q2) q2)).
Proof.
  revert q1 fuel. induction q2 as [|e q2 IH]; intros q1 [|f] H Hfuel; try (simpl in Hfuel; lia).
  - cbn [advance_loop discarded_prefix take]. rewrite app_nil_r in *.
    pose proof (ri_writer _ _ _ H) as [Hw _]. rewrite Hw, Z.ltb_irrefl. done.
  - cbn [advance_loop].
    destruct (e_len_room _ _ _ _ _ H) as ((Hn & Hh & Hd) & Hl & Hlo & Hhi).
    pose proof (e_len_bounds e Hn) as (Hlb & _).
    destruct (Z.ltb_spec (q_end (reader_pos rb) q1) (writer_pos rb)); [|lia].
    rewrite (ring_linear rb _ _ _ H), (ring_load rb _ _ _ H), Hh, hdr_word_discarded by lia.
    cbn [discarded_prefix]. case_decide as Hst.
    + rewrite bool_decide_eq_true_2 by done. rewrite (q_step rb q1 e q2 _ H) by (by rewrite Hst).
      rewrite IH; [|by rewrite <- app_assoc|simpl in Hfuel; lia]. cbn [take]. by rewrite <- app_assoc.
    + rewrite bool_decide_eq_false_2 by done. cbn [take]. by rewrite app_nil_r.
Qed.

Lemma discarded_prefix_le q : (discarded_prefix q <= length q)%nat.
Proof. induction q as [|e q IH]; simpl; [done|]. case_decide; lia. Qed.

(** Releasing up to a position the consumer has read keeps the representation. *)
Lemma ring_inv_release rb q i d : ring_inv rb q i -> (d <= i)%nat ->
  ring_inv (set_reader_pos rb (q_end (reader_pos rb) (take d q))) (drop d q) (i - d).
Proof.
  intros [Hsz Hmir Hr [Hw Hw64] Hroom [Hi Hin] Htl] Hd. pose proof (tiles_sizes _ _ _ Htl) as Hf.
  rewrite <- (take_drop d q) in Hw, Htl, Hf. rewrite q_end_app in Hw. apply tiles_app in Htl as [_ Htl].
  apply Forall_app in Hf as [Hf1 Hf2].
  pose proof (q_end_ge (reader_pos rb) _ Hf1) as Hge.
  split; cbn [set_reader_pos reader_pos writer_pos intermediate_reader_pos mask data_size mirrored_mapping]; try done.
  - split; [lia|]. apply q_end_mod8; [done|apply Hr].
  - lia.
  - rewrite length_drop. split; [lia|]. rewrite Hin, <- q_end_app. f_equal.
    rewrite take_take_drop. f_equal. lia.
  - eapply tiles_frame; [..|exact Htl]; [done|by intros].
Qed.

(** [mpsc_rb_advance_if_possible] marks a read record and releases the longest
    marked prefix of the ring. *)
Lemma advance_if_possible_spec rb q1 e q2 i :
  let q' := q1 ++ mkE (e_n e) Discarded (e_data e) :: q2 in
  ring_inv rb (q1 ++ e :: q2) i -> e_st e <> Busy -> (discarded_prefix q' <= i)%nat ->
  exists rb', mpsc_rb_advance_if_possible rb (q_end (reader_pos rb) q1 mod data_size rb + 8) = Some rb' /\
    reader_pos rb' = q_end (reader_pos rb) (take (discarded_prefix q') q') /\
    data_size rb' = data_size rb /\
    ring_inv rb' (drop (discarded_prefix q') q') (i - discarded_prefix q').
Proof.
  intros q' H Hst Hd. destruct (e_len_room _ _ _ _ _ H) as (Hok & Hl & Hlo & Hhi).
  pose proof (ring_pos _ _ _ H) as (Hs & Hm & Hb).
  pose proof Hok as (Hn & Hh & _). pose proof (e_len_bounds e Hn) as (Hlb & _).
  set (p := q_end (reader_pos rb) q1) in *.
  unfold mpsc_rb_advance_if_possible, sizeof_mpsc_header.
  replace (p mod data_size rb + 8 - 8) with (p mod data_size rb) by lia.
  rewrite (ring_load rb _ i p H), Hh, hdr_word_set_discarded by done.
  rewrite (ring_store rb _ i p _ H).
  set (rb1 := set_data rb _).
  assert (Hinv : ring_inv rb1 q' i).
  { apply (ring_inv_update rb q1 e q2 i _ p); [done|done|lia|rewrite length_le_bytes; lia|].
    apply entry_ok_set_hdr; [lia..|done]. }
  pose proof (advance_loop_spec (ring_fuel rb1) rb1 [] q' i Hinv (ring_fuel_enough _ _ _ Hinv)) as E.
  cbn [q_end] in E. rewrite E.
  eexists. split; [done|]. split; [done|]. split; [done|]. by apply (ring_inv_release rb1 q' i).
Qed.
