(* ===== verification/MpscSystem.v ===== *)
(** * The multi-producer ring as a system of producers and one consumer

    A step relation whose steps are the operations of [RingBuffer]: producers
    take a writer (snapshot of the reader position), reserve, fill, commit or
    discard records in any interleaving, and the consumer reads and releases.
    The consumer works in one of the two modes of [perf_mainloop.cc]: [Batch]
    ([MPSCRingBufferReader]: read records, then release all of them) or [Ordered]
    ([worker_process_ring_buffers_ordered]: release each event on its own, in any
    order, with [mpsc_rb_advance_if_possible]). *)

From S2P Require Import Prelude RingBuffer MpscRing.

Inductive consumer_mode := Batch | Ordered.

(** A reservation as its producer sees it. *)
Record ticket := mkT { t_buf : ConstBuffer; t_st : status; t_data : list Z }.

Record sys := mkSys {
  s_rb : RingBuffer;
  s_tails : list Z;                              (* the writers' snapshots of reader_pos *)
  s_tickets : list ticket;                       (* in reservation order *)
  s_delivered : list (list Z);                   (* payloads the consumer received *)
  s_held : list (ConstBuffer * list Z)           (* received and not yet released *)
}.

(** [discards]: whether a producer may discard a record.  The code of the ring allows it in both
    modes; no caller in the repository does.  A failed reservation (no space, or the lock was not
    acquired in time) is a step too. *)
Inductive step (discards : bool) (m : consumer_mode) : sys -> sys -> Prop :=
| step_writer rb tl tk dl hd :
    step discards m (mkSys rb tl tk dl hd) (mkSys rb (reader_pos rb :: tl) tk dl hd)
| step_reserve rb tl tk dl hd tail area n hp lock b rb' old :
    tail ∈ tl -> 0 < n < 2 ^ 61 -> 0 <= area < 2 ^ 61 -> writer_pos rb < 2 ^ 63 ->
    mpsc_reserve rb tail area n hp lock = Some (Reserved b, rb') ->
    deref rb' b = Some old ->
    step discards m (mkSys rb tl tk dl hd) (mkSys rb' tl (tk ++ [mkT b Busy old]) dl hd)
| step_reserve_fail rb tl tk dl hd tail area n hp lock res rb' :
    tail ∈ tl -> 0 < n < 2 ^ 61 -> 0 <= area < 2 ^ 61 -> writer_pos rb < 2 ^ 63 ->
    mpsc_reserve rb tail area n hp lock = Some (res, rb') -> (forall b, res <> Reserved b) ->
    step discards m (mkSys rb tl tk dl hd) (mkSys rb' tl tk dl hd)
| step_write rb tl tk dl hd k t bs rb' :
    tk !! k = Some t -> t_st t = Busy -> Z.of_nat (length bs) = buf_size (t_buf t) ->
    write_payload rb (t_buf t) bs = Some rb' ->
    step discards m (mkSys rb tl tk dl hd) (mkSys rb' tl (<[k := mkT (t_buf t) Busy bs]> tk) dl hd)
| step_commit rb tl tk dl hd k t off (discard notify : bool) tail rb' :
    tk !! k = Some t -> t_st t = Busy -> buf_data (t_buf t) = InData off ->
    (discard = true -> discards = true) ->
    commit_internal rb off discard = Some (notify, tail, rb') ->
    step discards m (mkSys rb tl tk dl hd)
      (mkSys rb' (tail :: tl)
         (<[k := mkT (t_buf t) (if discard then Discarded else Committed) (t_data t)]> tk) dl hd)
| step_read rb tl tk dl hd b bs rb' :
    mpsc_rb_read_sample rb = Some (Some b, rb') -> deref rb' b = Some bs ->
    step discards m (mkSys rb tl tk dl hd) (mkSys rb' tl tk (dl ++ [bs]) (hd ++ [(b, bs)]))
| step_read_none rb tl tk dl hd rb' :
    mpsc_rb_read_sample rb = Some (None, rb') ->
    step discards m (mkSys rb tl tk dl hd) (mkSys rb' tl tk dl hd)
| step_advance rb tl tk dl hd :
    m = Batch ->
    step discards m (mkSys rb tl tk dl hd) (mkSys (mr_advance rb) tl tk dl [])
| step_release rb tl tk dl h1 b bs h2 off rb' :
    m = Ordered -> buf_data b = InData off ->
    mpsc_rb_advance_if_possible rb off = Some rb' ->
    step discards m (mkSys rb tl tk dl (h1 ++ (b, bs) :: h2)) (mkSys rb' tl tk dl (h1 ++ h2)).

Definition committed_payloads (tk : list ticket) : list (list Z) :=
  omap (fun t => if decide (t_st t = Committed) then Some (t_data t) else None) tk.

(** Ring bytes taken by the records of [tk]. *)
Definition ring_bytes (tk : list ticket) : Z :=
  zsum (map (fun t => align_up (buf_size (t_buf t) + sizeof_mpsc_header) kRingBufferAlignment) tk).

(** The state after [rb_init] on a fresh mapping of [2^shift] pages. *)
Definition sys_init (page_size shift : Z) (d : Z -> Z) : sys :=
  mkSys (rb_init page_size (perf_mmap_size page_size shift) d 0 0 kMPSCRingBuffer true) [] [] [] [].

Definition reachable (discards : bool) (m : consumer_mode) (s : sys) : Prop :=
  exists pk shift d, 12 <= pk <= 16 /\ 0 <= shift <= 28 /\ rtc (step discards m) (sys_init (2 ^ pk) shift d) s.

(** ** Indexed forms of the ring lemmas *)

(** The buffer handed out for the [j]-th unreleased record. *)
Definition buf_at (rb : RingBuffer) (q : list entry) (j : nat) (n : Z) : ConstBuffer :=
  mkBuf (InData (q_end (reader_pos rb) (take j q) mod data_size rb + 8)) n.

Lemma q_end_take_insert p q k e e' j :
  q !! k = Some e -> e_n e' = e_n e -> q_end p (take j (<[k := e']> q)) = q_end p (take j q).
Proof.
  intros Hk He. revert p k j Hk. induction q as [|x q IH]; intros p [|k] [|j] Hk; simplify_eq/=; try done.
  - unfold e_len. by rewrite He.
  - by apply IH.
Qed.

Lemma ring_deref rb q i j e :
  ring_inv rb q i -> q !! j = Some e -> deref rb (buf_at rb q j (e_n e)) = Some (e_data e).
Proof.
  intros H Hj. pose proof (take_drop_middle q j e Hj) as Hq. rewrite <- Hq in H at 1.
  unfold buf_at. by eapply deref_spec.
Qed.

Lemma write_at rb q i j e bs :
  ring_inv rb q i -> q !! j = Some e -> Z.of_nat (length bs) = e_n e ->
  exists rb', write_payload rb (buf_at rb q j (e_n e)) bs = Some rb' /\
    reader_pos rb' = reader_pos rb /\ data_size rb' = data_size rb /\
    ring_inv rb' (<[j := mkE (e_n e) (e_st e) bs]> q) i.
Proof.
  intros H Hj Hbs. pose proof (take_drop_middle q j e Hj) as Hq.
  rewrite (insert_take_drop q j) by (by eapply lookup_lt_Some). rewrite <- Hq in H.
  destruct (write_payload_spec _ _ _ _ _ bs H Hbs) as (rb' & E & Hr & Hs & Hinv).
  exists rb'. split; [exact E|]. split; [done|]. split; [done|]. by apply Hinv.
Qed.

Lemma commit_at rb q i j e off (discard : bool) :
  ring_inv rb q i -> q !! j = Some e -> e_st e = Busy ->
  InData off = buf_data (buf_at rb q j (e_n e)) ->
  exists rb', commit_internal rb off discard = Some (bool_decide (j = 0%nat), reader_pos rb, rb') /\
    reader_pos rb' = reader_pos rb /\ data_size rb' = data_size rb /\
    ring_inv rb' (<[j := mkE (e_n e) (if discard then Discarded else Committed) (e_data e)]> q) i.
Proof.
  intros H Hj Hst Hoff. pose proof (take_drop_middle q j e Hj) as Hq.
  rewrite (insert_take_drop q j) by (by eapply lookup_lt_Some). rewrite <- Hq in H.
  destruct (commit_spec _ _ _ _ _ discard H Hst) as (rb' & E & Hr & Hinv).
  unfold buf_at in Hoff. simplify_eq/=. exists rb'. rewrite E. split_and!; [|done| |done].
  - do 3 f_equal. apply bool_decide_ext. destruct j as [|j]; [done|].
    destruct q; [done|]. split; [|done]. simpl. done.
  - unfold commit_internal, store_u64, store_bytes in E. repeat (case_match; simplify_eq/=); done.
Qed.

Lemma release_at rb q i j e off :
  let q' := <[j := mkE (e_n e) Discarded (e_data e)]> q in
  ring_inv rb q i -> q !! j = Some e -> e_st e <> Busy -> (discarded_prefix q' <= i)%nat ->
  InData off = buf_data (buf_at rb q j (e_n e)) ->
  exists rb', mpsc_rb_advance_if_possible rb off = Some rb' /\
    reader_pos rb' = q_end (reader_pos rb) (take (discarded_prefix q') q') /\
    data_size rb' = data_size rb /\
    ring_inv rb' (drop (discarded_prefix q') q') (i - discarded_prefix q').
Proof.
  intros q' H Hj Hst Hd Hoff. pose proof (take_drop_middle q j e Hj) as Hq.
  assert (Eq : q' = take j q ++ mkE (e_n e) Discarded (e_data e) :: drop (S j) q).
  { apply insert_take_drop. by eapply lookup_lt_Some. }
  rewrite Eq in *. rewrite <- Hq in H. unfold buf_at in Hoff. simplify_eq/=.
  by apply (advance_if_possible_spec rb (take j q) e (drop (S j) q) i).
Qed.

(** ** The simulation invariant *)

(** Ticket [t] and the [j]-th unreleased record agree; a record the consumer has
    released out of order reads as discarded. *)
Definition ticket_ok (rb : RingBuffer) (q : list entry) (i j : nat) (t : ticket) (e : entry) : Prop :=
  t_buf t = buf_at rb q j (e_n e) /\ t_data t = e_data e /\
  (t_st t = e_st e \/ ((j < i)%nat /\ t_st t = Committed /\ e_st e = Discarded)).

Definition held_ok (rb : RingBuffer) (q : list entry) (i j : nat) (h : ConstBuffer * list Z) : Prop :=
  (j < i)%nat /\ exists e, q !! j = Some e /\ e_st e = Committed /\ h = (buf_at rb q j (e_n e), e_data e).

Record rep (m : consumer_mode) (s : sys) (r : nat) (q : list entry) (i : nat) (js : list nat) : Prop := {
  rp_ring : ring_inv (s_rb s) q i;
  rp_len : length (s_tickets s) = (r + length q)%nat;
  rp_ok : forall j t e, s_tickets s !! (r + j)%nat = Some t -> q !! j = Some e ->
            ticket_ok (s_rb s) q i j t e;
  rp_closed : Forall (fun t => t_st t <> Busy) (take (r + i) (s_tickets s));
  rp_delivered : s_delivered s = committed_payloads (take (r + i) (s_tickets s));
  rp_pos : reader_pos (s_rb s) = ring_bytes (take r (s_tickets s));
  rp_tails : Forall (fun x => 0 <= x <= reader_pos (s_rb s)) (s_tails s);
  rp_held : NoDup js /\ Forall2 (held_ok (s_rb s) q i) js (s_held s);
  rp_ordered : m = Ordered ->
    (forall j e, (j < i)%nat -> q !! j = Some e -> e_st e = Committed -> j ∈ js) /\
    (forall j e, q !! j = Some e -> e_st e = Discarded -> (0 < j < i)%nat)
}.

(** The part of the invariant that mentions only positions is stable under a
    change of the ring that keeps positions and sizes. *)
Lemma buf_at_ext rb rb' q q' j n :
  reader_pos rb' = reader_pos rb -> data_size rb' = data_size rb ->
  q_end (reader_pos rb) (take j q') = q_end (reader_pos rb) (take j q) ->
  buf_at rb' q' j n = buf_at rb q j n.
Proof. intros Hr Hs Hq. unfold buf_at. by rewrite Hr, Hs, Hq. Qed.

Lemma busy_not_read m s r q i js k t :
  rep m s r q i js -> s_tickets s !! k = Some t -> t_st t = Busy -> (r + i <= k)%nat.
Proof.
  intros H Hk Hst. destruct (decide (r + i <= k)%nat); [done|exfalso].
  pose proof (rp_closed _ _ _ _ _ _ H) as Hc. rewrite Forall_lookup in Hc.
  apply (Hc k t); [|done]. by rewrite lookup_take_lt by lia.
Qed.

(** A busy ticket is the [k - r]-th record of the ring. *)
Lemma busy_entry m s r q i js k t :
  rep m s r q i js -> s_tickets s !! k = Some t -> t_st t = Busy ->
  exists j e, k = (r + j)%nat /\ (i <= j)%nat /\ q !! j = Some e /\ e_st e = Busy /\
    ticket_ok (s_rb s) q i j t e.
Proof.
  intros H Hk Hst. pose proof (busy_not_read _ _ _ _ _ _ _ _ H Hk Hst) as Hi.
  pose proof (rp_len _ _ _ _ _ _ H) as Hl. pose proof (lookup_lt_Some _ _ _ Hk) as Hlt.
  destruct (lookup_lt_is_Some_2 q (k - r)) as [e He]; [lia|].
  exists (k - r)%nat, e. replace (r + (k - r))%nat with k by lia.
  assert (Hok : ticket_ok (s_rb s) q i (k - r) t e).
  { apply (rp_ok _ _ _ _ _ _ H); [|done]. by replace (r + (k - r))%nat with k by lia. }
  split_and!; [done|lia|done| |done]. destruct Hok as (_ & _ & [E|(Hlt' & _)]); [congruence|lia].
Qed.

(** Replacing an unread record and its ticket. *)
Lemma rep_update m s rb' tl' r q i js j t e t' e' :
  rep m s r q i js -> s_tickets s !! (r + j)%nat = Some t -> q !! j = Some e -> (i <= j)%nat ->
  ring_inv rb' (<[j := e']> q) i ->
  reader_pos rb' = reader_pos (s_rb s) -> data_size rb' = data_size (s_rb s) ->
  Forall (fun x => 0 <= x <= reader_pos (s_rb s)) tl' ->
  e_n e' = e_n e -> t_buf t' = t_buf t -> t_data t' = e_data e' -> t_st t' = e_st e' ->
  (m = Ordered -> e_st e' <> Discarded) ->
  rep m (mkSys rb' tl' (<[(r + j)%nat := t']> (s_tickets s)) (s_delivered s) (s_held s)) r (<[j := e']> q) i js.
Proof.
  intros H Ht He Hij Hring Hr Hs Htl Hn Hb Hd Hst Hm.
  pose proof (rp_ok _ _ _ _ _ _ H _ _ _ Ht He) as (Hbuf & _).
  assert (Hpos : forall k n, buf_at rb' (<[j := e']> q) k n = buf_at (s_rb s) q k n).
  { intros k n. apply buf_at_ext; [done..|]. by eapply q_end_take_insert. }
  split; cbn [s_rb s_tails s_tickets s_delivered s_held].
  - done.
  - rewrite !length_insert. apply (rp_len _ _ _ _ _ _ H).
  - intros k t1 e1 Ht1 He1. destruct (decide (k = j)) as [->|Hne].
    + rewrite list_lookup_insert_eq in Ht1 by (by eapply lookup_lt_Some).
      rewrite list_lookup_insert_eq in He1 by (by eapply lookup_lt_Some). simplify_eq.
      unfold ticket_ok. rewrite Hpos, Hb, Hbuf, Hn, Hd. by split_and!; [..|left].
    + rewrite list_lookup_insert_ne in Ht1 by lia. rewrite list_lookup_insert_ne in He1 by lia.
      destruct (rp_ok _ _ _ _ _ _ H _ _ _ Ht1 He1) as (E1 & E2 & E3).
      unfold ticket_ok. by rewrite Hpos.
  - rewrite take_insert_ge by lia. apply (rp_closed _ _ _ _ _ _ H).
  - rewrite take_insert_ge by lia. apply (rp_delivered _ _ _ _ _ _ H).
  - rewrite Hr, take_insert_ge by lia. apply (rp_pos _ _ _ _ _ _ H).
  - by rewrite Hr.
  - destruct (rp_held _ _ _ _ _ _ H) as [Hnd Hh]. split; [done|].
    eapply Forall2_impl; [exact Hh|]. intros k h (Hk & e1 & Hq & Hst1 & ->). split; [done|].
    exists e1. rewrite list_lookup_insert_ne by lia. by rewrite Hpos.
  - intros HO. destruct (rp_ordered _ _ _ _ _ _ H HO) as [H1 H2]. split.
    + intros k e1 Hk. rewrite list_lookup_insert_ne by lia. by apply H1.
    + intros k e1. destruct (decide (k = j)) as [->|Hne].
      * rewrite list_lookup_insert_eq by (by eapply lookup_lt_Some). intros E Hdis. simplify_eq. by destruct Hm.
      * rewrite list_lookup_insert_ne by lia. apply H2.
Qed.

(** ** Every step preserves the invariant *)

Lemma rep_reserve m s r q i js tail area n hp lock b rb' old :
  rep m s r q i js -> tail ∈ s_tails s -> 0 < n < 2 ^ 61 -> 0 <= area < 2 ^ 61 ->
  writer_pos (s_rb s) < 2 ^ 63 ->
  mpsc_reserve (s_rb s) tail area n hp lock = Some (Reserved b, rb') -> deref rb' b = Some old ->
  rep m (mkSys rb' (s_tails s) (s_tickets s ++ [mkT b Busy old]) (s_delivered s) (s_held s))
    r (q ++ [mkE n Busy old]) i js.
Proof.
  intros H Htail Hn Ha Hw E Hold. pose proof (rp_tails _ _ _ _ _ _ H) as Htl.
  pose proof (proj1 (Forall_forall _ _) Htl _ Htail) as Ht.
  pose proof (rp_ring _ _ _ _ _ _ H) as Hring. pose proof (ri_inter _ _ _ Hring) as [Hi _].
  destruct (reserve_spec _ _ _ tail area n hp lock Hring Hn Ha Ht Hw) as (res & rb1 & E1 & Hres).
  rewrite E in E1. simplify_eq. destruct Hres as (-> & Hrp & payload & Hinv).
  pose proof (mpsc_reserve_size _ _ _ _ _ _ _ _ E) as Hsz.
  pose proof (ri_writer _ _ _ Hring) as [Hwp _].
  assert (Hbuf : mkBuf (InData (writer_pos (s_rb s) mod data_size (s_rb s) + 8)) n
                 = buf_at rb1 (q ++ [mkE n Busy payload]) (length q) n).
  { unfold buf_at. by rewrite take_app_length, Hrp, Hsz, Hwp. }
  assert (payload = old) as ->.
  { rewrite Hbuf in Hold. rewrite (ring_deref rb1 _ i _ (mkE n Busy payload) Hinv) in Hold; [by simplify_eq|].
    by rewrite list_lookup_middle. }
  assert (Hpos : forall j e n', q !! j = Some e -> buf_at rb1 (q ++ [mkE n Busy old]) j n' = buf_at (s_rb s) q j n').
  { intros j e n' Hj. apply buf_at_ext; [done..|]. apply lookup_lt_Some in Hj. by rewrite take_app_le by lia. }
  pose proof (rp_len _ _ _ _ _ _ H) as Hlen.
  split; cbn [s_rb s_tails s_tickets s_delivered s_held].
  - done.
  - rewrite !length_app, Hlen. simpl. lia.
  - intros j t e Ht1 He1. destruct (decide (j < length q)%nat) as [Hj|Hj].
    + rewrite lookup_app_l in Ht1 by lia. rewrite lookup_app_l in He1 by lia.
      destruct (rp_ok _ _ _ _ _ _ H _ _ _ Ht1 He1) as (E1 & E2 & E3).
      unfold ticket_ok. by rewrite (Hpos j e).
    + assert (j = length q) as ->. { apply lookup_lt_Some in He1. rewrite length_app in He1. simpl in He1. lia. }
      rewrite list_lookup_middle in He1 by done. rewrite list_lookup_middle in Ht1 by done. simplify_eq.
      unfold ticket_ok. cbn [t_buf t_data t_st e_n e_st e_data]. rewrite Hbuf. by split_and!; [..|left].
  - rewrite take_app_le by lia. apply (rp_closed _ _ _ _ _ _ H).
  - rewrite take_app_le by lia. apply (rp_delivered _ _ _ _ _ _ H).
  - rewrite Hrp, take_app_le by lia. apply (rp_pos _ _ _ _ _ _ H).
  - by rewrite Hrp.
  - destruct (rp_held _ _ _ _ _ _ H) as [Hnd Hh]. split; [done|].
    eapply Forall2_impl; [exact Hh|]. intros k h (Hk & e1 & Hq & Hst1 & ->). split; [done|].
    exists e1. rewrite lookup_app_l by (by eapply lookup_lt_Some). by rewrite (Hpos k e1).
  - intros HO. destruct (rp_ordered _ _ _ _ _ _ H HO) as [H1 H2]. split.
    + intros k e1 Hk Hq. apply H1; [done|]. rewrite lookup_app_l in Hq by lia. done.
    + intros k e1 Hq Hst. apply lookup_app_Some in Hq as [Hq|[_ Hq]]; [by eapply H2|].
      destruct (k - length q)%nat; simplify_eq/=.
Qed.

(** What the consumer moves past, in terms of the tickets. *)
Lemma next_sample_tickets tk q :
  Forall2 (fun t e => t_st t = e_st e /\ t_data t = e_data e) tk q ->
  let '(r, c) := next_sample q in
  Forall (fun t => t_st t <> Busy) (take c tk) /\
  committed_payloads (take c tk) = match r with Some e => [e_data e] | None => [] end.
Proof.
  induction 1 as [|t e tk q [Hst Hd] _ IH]; [done|]. cbn [next_sample]. destruct (e_st e) eqn:E.
  - done.
  - cbn [take]. split; [constructor; [by rewrite Hst|done]|]. unfold committed_payloads. cbn [omap list_omap].
    rewrite decide_True by done. by rewrite Hd.
  - destruct (next_sample q) as [r c]. destruct IH as [IH1 IH2]. cbn [take].
    split; [constructor; [by rewrite Hst|done]|]. unfold committed_payloads in *. cbn [omap list_omap].
    rewrite decide_False by (by rewrite Hst). done.
Qed.

Lemma unread_tickets m s r q i js : rep m s r q i js ->
  Forall2 (fun t e => t_st t = e_st e /\ t_data t = e_data e) (drop (r + i) (s_tickets s)) (drop i q).
Proof.
  intros H. pose proof (rp_len _ _ _ _ _ _ H) as Hl. apply Forall2_same_length_lookup.
  split; [rewrite !length_drop; lia|]. intros k t e Ht He. rewrite lookup_drop in Ht. rewrite lookup_drop in He.
  destruct (rp_ok _ _ _ _ _ _ H (i + k)%nat t e) as (_ & E2 & E3); [by rewrite Nat.add_assoc|done|].
  split; [|done]. destruct E3 as [E3|(? & _)]; [done|lia].
Qed.

Lemma committed_payloads_app a b : committed_payloads (a ++ b) = committed_payloads a ++ committed_payloads b.
Proof. apply omap_app. Qed.

(** The invariant after the consumer moved past [c] more records, none of them busy. *)
Lemma rep_read_core m s r q i js c rb1 js' dl' hd' :
  rep m s r q i js -> ring_inv rb1 q (i + c) -> reader_pos rb1 = reader_pos (s_rb s) -> data_size rb1 = data_size (s_rb s) ->
  Forall (fun t => t_st t <> Busy) (take c (drop (r + i) (s_tickets s))) ->
  dl' = s_delivered s ++ committed_payloads (take c (drop (r + i) (s_tickets s))) ->
  NoDup js' -> Forall2 (held_ok rb1 q (i + c)) js' hd' ->
  (m = Ordered -> forall j e, (j < i + c)%nat -> q !! j = Some e -> e_st e = Committed -> j ∈ js') ->
  rep m (mkSys rb1 (s_tails s) (s_tickets s) dl' hd') r q (i + c) js'.
Proof.
  intros H Hinv Hrp Hsz Hcl Hdl Hnd Hh Hord.
  assert (Hpos : forall j n', buf_at rb1 q j n' = buf_at (s_rb s) q j n') by (intros; by apply buf_at_ext).
  assert (Htk : take (r + (i + c)) (s_tickets s)
                = take (r + i) (s_tickets s) ++ take c (drop (r + i) (s_tickets s))).
  { rewrite take_take_drop. f_equal. lia. }
  split; cbn [s_rb s_tails s_tickets s_delivered s_held]; try done.
  - apply (rp_len _ _ _ _ _ _ H).
  - intros j t e Ht He. destruct (rp_ok _ _ _ _ _ _ H _ _ _ Ht He) as (E1 & E2 & E3).
    unfold ticket_ok. rewrite Hpos. split_and!; [done..|]. destruct E3 as [E3|(?&?&?)]; [by left|right; split_and!; [lia|done..]].
  - rewrite Htk. apply Forall_app. split; [apply (rp_closed _ _ _ _ _ _ H)|done].
  - rewrite Htk, committed_payloads_app, Hdl. by rewrite (rp_delivered _ _ _ _ _ _ H).
  - rewrite Hrp. apply (rp_pos _ _ _ _ _ _ H).
  - rewrite Hrp. apply (rp_tails _ _ _ _ _ _ H).
  - intros HO. split; [by apply Hord|]. intros j e Hq Hst.
    destruct (rp_ordered _ _ _ _ _ _ H HO) as [_ H2]. specialize (H2 j e Hq Hst). lia.
Qed.

(** Every committed record up to [i + c] is held, the [c] new ones being discarded but
    for the last. *)
Lemma read_committed_held m s r q i js c (b : bool) : rep m s r q i js -> m = Ordered ->
  (forall j e, (j < if b then c - 1 else c)%nat -> drop i q !! j = Some e -> e_st e = Discarded) ->
  forall j e, (j < i + c)%nat -> q !! j = Some e -> e_st e = Committed ->
  j ∈ js \/ (b = true /\ j = (i + c - 1)%nat).
Proof.
  intros H HO Hdis j e Hj Hq Hst. destruct (decide (j < i)%nat); [left; by eapply (rp_ordered _ _ _ _ _ _ H HO)|].
  destruct (decide (b = true /\ j = (i + c - 1)%nat)) as [|Hn]; [by right|].
  assert (e_st e = Discarded); [|congruence]. apply (Hdis (j - i)%nat).
  - destruct b; [|lia]. assert (j <> (i + c - 1)%nat) by (intros ->; by apply Hn). lia.
  - rewrite lookup_drop. by replace (i + (j - i))%nat with j by lia.
Qed.

Lemma rep_read m s r q i js b rb' :
  rep m s r q i js -> mpsc_rb_read_sample (s_rb s) = Some (b, rb') ->
  let c := snd (next_sample (drop i q)) in
  match b with
  | None => rep m (mkSys rb' (s_tails s) (s_tickets s) (s_delivered s) (s_held s)) r q (i + c) js
  | Some b => forall bs, deref rb' b = Some bs ->
      rep m (mkSys rb' (s_tails s) (s_tickets s) (s_delivered s ++ [bs]) (s_held s ++ [(b, bs)]))
        r q (i + c) (js ++ [(i + c - 1)%nat])
  end.
Proof.
  intros H E. pose proof (rp_ring _ _ _ _ _ _ H) as Hring.
  destruct (read_sample_spec _ _ _ Hring) as (b1 & rb1 & E1 & Hspec). rewrite E in E1. simplify_eq.
  pose proof (next_sample_tickets _ _ (unread_tickets _ _ _ _ _ _ H)) as Hnt.
  pose proof (next_sample_split (drop i q)) as Hns.
  destruct (next_sample (drop i q)) as [res c]. destruct Hspec as (Hinv & Hrp & Hsz & Hb).
  destruct Hnt as [Hcl Hpay]. destruct Hns as (Hc & Hlast & Hdis). cbn [snd].
  destruct (rp_held _ _ _ _ _ _ H) as [Hnd Hh].
  assert (Hh' : Forall2 (held_ok rb1 q (i + c)) js (s_held s)).
  { eapply Forall2_impl; [exact Hh|]. intros k h (Hk & e1 & Hq & Hst1 & ->). split; [lia|].
    exists e1. by rewrite (buf_at_ext (s_rb s) rb1 q q). }
  destruct b1 as [b|], res as [e|]; try done.
  - destruct Hb as [-> Hder]. intros bs Hbs. rewrite Hder in Hbs. simplify_eq.
    destruct Hlast as (H0 & Hst & Hlast).
    assert (He : q !! (i + c - 1)%nat = Some e).
    { replace (i + c - 1)%nat with (i + (c - 1))%nat by lia. rewrite <- lookup_drop.
      rewrite <- (lookup_take_lt _ c) by lia. rewrite Hlast. apply list_lookup_middle.
      rewrite length_take. lia. }
    eapply rep_read_core; [exact H|done..| | | |].
    + by rewrite Hpay.
    + apply NoDup_app. split_and!; [done| |apply NoDup_singleton]. intros j Hj Hj1.
      apply list_elem_of_singleton in Hj1 as ->. apply list_elem_of_lookup in Hj as [k Hk].
      destruct (Forall2_lookup_l _ _ _ _ _ Hh Hk) as (h & _ & (Hlt & _)). lia.
    + apply Forall2_app; [done|]. constructor; [|done]. split; [lia|]. exists e.
      by rewrite (buf_at_ext (s_rb s) rb1 q q).
    + intros HO j e1 Hj Hq Hst1. apply elem_of_app. rewrite list_elem_of_singleton.
      destruct (read_committed_held _ _ _ _ _ _ c true H HO Hdis j e1) as [|[_ ->]]; [done..|by left|by right].
  - eapply rep_read_core; [exact H|done..| |done|done|].
    + by rewrite Hpay, app_nil_r.
    + intros HO j e1 Hj Hq Hst1.
      destruct (read_committed_held _ _ _ _ _ _ c false H HO Hdis j e1) as [|[? _]]; done.
Qed.

Lemma ring_bytes_take tk q r d :
  (forall j t e, tk !! (r + j)%nat = Some t -> q !! j = Some e -> buf_size (t_buf t) = e_n e) ->
  length tk = (r + length q)%nat ->
  q_end (ring_bytes (take r tk)) (take d q) = ring_bytes (take (r + d) tk).
Proof.
  intros Hs Hl. rewrite <- take_take_drop. unfold ring_bytes. rewrite map_app, zsum_app.
  generalize (zsum (map (fun t => align_up (buf_size (t_buf t) + sizeof_mpsc_header) kRingBufferAlignment) (take r tk))).
  assert (Hs' : forall j t e, drop r tk !! j = Some t -> q !! j = Some e -> buf_size (t_buf t) = e_n e).
  { intros j t e Ht. apply Hs. by rewrite <- lookup_drop. }
  assert (Hl' : length (drop r tk) = length q) by (rewrite length_drop; lia). clear Hs Hl. revert Hs' Hl'.
  generalize (drop r tk). intros tk'. revert tk' d. induction q as [|e q IH]; intros [|t tk'] [|d] Hs Hl p; simplify_eq/=; try lia.
  rewrite IH with (tk' := tk'); [|intros j; apply (Hs (S j))|done].
  unfold e_len. rewrite (Hs 0%nat t e) by done. lia.
Qed.

(** Releasing the first [d] records. *)
Lemma rep_drop m s rb' r q0 q i d js js' hd' :
  rep m s r q0 i js -> length q = length q0 -> Forall entry_size_ok q -> (d <= i)%nat ->
  (forall j t e, s_tickets s !! (r + j)%nat = Some t -> q !! j = Some e -> ticket_ok (s_rb s) q i j t e) ->
  ring_inv rb' (drop d q) (i - d) -> data_size rb' = data_size (s_rb s) ->
  reader_pos rb' = q_end (reader_pos (s_rb s)) (take d q) ->
  NoDup js' -> Forall2 (held_ok (s_rb s) q i) js' hd' -> Forall (le d) js' ->
  (m = Ordered -> (forall j e, (d <= j < i)%nat -> q !! j = Some e -> e_st e = Committed -> j ∈ js') /\
                  (forall j e, (d <= j)%nat -> q !! j = Some e -> e_st e = Discarded -> (d < j < i)%nat)) ->
  rep m (mkSys rb' (s_tails s) (s_tickets s) (s_delivered s) hd') (r + d) (drop d q) (i - d)
    (map (fun x => x - d)%nat js').
Proof.
  intros H Hlq Hsz Hd Hok Hring Hds Hrp Hnd Hh Hge Hord.
  pose proof (q_end_ge (reader_pos (s_rb s)) (take d q) (Forall_take _ d _ Hsz)) as Hmono.
  pose proof (rp_ring _ _ _ _ _ _ H) as Hr0. pose proof (ri_inter _ _ _ Hr0) as [Hi _].
  assert (Hpos : forall j n', (d <= j)%nat -> buf_at rb' (drop d q) (j - d) n' = buf_at (s_rb s) q j n').
  { intros j n' Hj. unfold buf_at. rewrite Hds, Hrp, <- q_end_app, take_take_drop.
    by replace (d + (j - d))%nat with j by lia. }
  split; cbn [s_rb s_tails s_tickets s_delivered s_held].
  - done.
  - rewrite length_drop, (rp_len _ _ _ _ _ _ H). lia.
  - intros j t e Ht He. rewrite lookup_drop in He.
    destruct (Hok (d + j)%nat t e) as (E1 & E2 & E3); [by rewrite Nat.add_assoc|done|].
    unfold ticket_ok. rewrite E1, <- Hpos by lia. replace (d + j - d)%nat with j by lia.
    split_and!; [done..|]. destruct E3 as [E3|(?&?&?)]; [by left|right; split_and!; [lia|done..]].
  - replace (r + d + (i - d))%nat with (r + i)%nat by lia. apply (rp_closed _ _ _ _ _ _ H).
  - replace (r + d + (i - d))%nat with (r + i)%nat by lia. apply (rp_delivered _ _ _ _ _ _ H).
  - rewrite Hrp, (rp_pos _ _ _ _ _ _ H). apply (ring_bytes_take _ _ r d); [|rewrite (rp_len _ _ _ _ _ _ H); lia].
    intros j t e Ht He. by destruct (Hok j t e Ht He) as (-> & _).
  - eapply Forall_impl; [apply (rp_tails _ _ _ _ _ _ H)|]. cbn beta. intros x Hx. lia.
  - split.
    + clear -Hnd Hge. induction Hnd as [|x l Hx _ IH]; [constructor|]. inversion_clear Hge as [|? ? Hdx Hl].
      cbn [map]. constructor; [|by apply IH]. intros Hin. apply list_elem_of_fmap in Hin as (y & Hy & Hyl).
      rewrite Forall_forall in Hl. specialize (Hl y Hyl). apply Hx. by replace x with y by lia.
    + clear Hnd Hord. induction Hh as [|x h js' hd' (Hx & e & Hq & Hst & ->) _ IH]; [constructor|].
      inversion_clear Hge as [|? ? Hdx Hl]. cbn [map]. constructor; [|by apply IH]. split; [lia|].
      exists e. rewrite lookup_drop, Hpos by lia. by replace (d + (x - d))%nat with x by lia.
  - intros HO. destruct (Hord HO) as [H1 H2]. split.
    + intros j e Hj Hq Hst. rewrite lookup_drop in Hq. apply list_elem_of_fmap.
      exists (d + j)%nat. split; [lia|]. eapply H1; [lia|done..].
    + intros j e Hq Hst. rewrite lookup_drop in Hq. specialize (H2 (d + j)%nat e). lia || (destruct H2; [lia|done..|lia]).
Qed.

Lemma rep_advance s r q i js :
  rep Batch s r q i js ->
  rep Batch (mkSys (mr_advance (s_rb s)) (s_tails s) (s_tickets s) (s_delivered s) []) (r + i) (drop i q) 0 [].
Proof.
  intros H. pose proof (rp_ring _ _ _ _ _ _ H) as Hr. pose proof (ri_inter _ _ _ Hr) as [Hi Hin].
  pose proof (mr_advance_spec _ _ _ Hr) as Hadv. replace 0%nat with (i - i)%nat in * by lia.
  apply (rep_drop Batch s (mr_advance (s_rb s)) r q q i i js [] []); try done.
  - eapply tiles_sizes, (ri_tiles _ _ _ Hr).
  - apply (rp_ok _ _ _ _ _ _ H).
  - constructor.
Qed.

Lemma discarded_prefix_spec q :
  (forall j e, (j < discarded_prefix q)%nat -> q !! j = Some e -> e_st e = Discarded) /\
  (forall e, q !! discarded_prefix q = Some e -> e_st e <> Discarded).
Proof.
  induction q as [|x q [IH1 IH2]]; cbn [discarded_prefix]; [split; [lia|done]|].
  case_decide as Hx; (split; [|done || (intros e He; by simplify_eq/=)]).
  - intros [|j] e Hj He; [by simplify_eq/=|]. apply (IH1 j); [lia|done].
  - lia.
Qed.

(** Only records that were read are skipped by a release. *)
Lemma release_prefix_le q i j e' :
  (forall k x, q !! k = Some x -> e_st x = Discarded -> (0 < k < i)%nat) -> (j < i)%nat -> (i <= length q)%nat ->
  (discarded_prefix (<[j := e']> q) <= i)%nat.
Proof.
  intros Hd Hj Hi. destruct (decide (discarded_prefix (<[j := e']> q) <= i)%nat) as [|Hn]; [done|exfalso].
  pose proof (discarded_prefix_le (<[j := e']> q)) as Hle. destruct (discarded_prefix_spec (<[j := e']> q)) as [Hpre _].
  destruct (lookup_lt_is_Some_2 (<[j := e']> q) i) as [x Hx]; [lia|].
  pose proof (Hpre i x ltac:(lia) Hx) as Hdx. rewrite list_lookup_insert_ne in Hx by lia.
  specialize (Hd i x Hx Hdx). lia.
Qed.

Lemma held_update rb q i j e e' js h :
  q !! j = Some e -> e_n e' = e_n e -> (forall x, x ∈ js -> x <> j) ->
  Forall2 (held_ok rb q i) js h -> Forall2 (held_ok rb (<[j := e']> q) i) js h.
Proof.
  intros Hq Hn Hne Hh. apply Forall2_same_length_lookup. split; [by eapply Forall2_length|].
  intros k x y Hx Hy. destruct (Forall2_lookup_lr _ _ _ _ _ _ Hh Hx Hy) as (Hlt & e1 & Hq1 & Hst1 & ->).
  split; [done|]. exists e1. rewrite list_lookup_insert_ne by (intros ->; eapply Hne; [by eapply list_elem_of_lookup_2|done]).
  split_and!; [done..|]. f_equal. symmetry. apply buf_at_ext; [done..|]. by eapply q_end_take_insert.
Qed.

(** The tickets of the ring in which the [j]-th record was marked as released. *)
Lemma ticket_release m s r q i js j e k t x :
  rep m s r q i js -> q !! j = Some e -> (j < i)%nat -> e_st e = Committed ->
  s_tickets s !! (r + k)%nat = Some t -> <[j := mkE (e_n e) Discarded (e_data e)]> q !! k = Some x ->
  ticket_ok (s_rb s) (<[j := mkE (e_n e) Discarded (e_data e)]> q) i k t x.
Proof.
  intros H Hq Hji Hst Ht Hx. unfold ticket_ok.
  rewrite (buf_at_ext (s_rb s) (s_rb s) q) by (try done; by eapply q_end_take_insert).
  destruct (decide (k = j)) as [->|Hne].
  - rewrite list_lookup_insert_eq in Hx by (by eapply lookup_lt_Some). simplify_eq.
    destruct (rp_ok _ _ _ _ _ _ H _ _ _ Ht Hq) as (E1 & E2 & E3).
    split_and!; [done..|]. right. split_and!; [done| |done]. destruct E3 as [E3|(_&E3&_)]; congruence.
  - rewrite list_lookup_insert_ne in Hx by done. apply (rp_ok _ _ _ _ _ _ H _ _ _ Ht Hx).
Qed.

Lemma rep_release s r q i js1 j js2 h1 b bs h2 :
  rep Ordered s r q i (js1 ++ j :: js2) -> s_held s = h1 ++ (b, bs) :: h2 -> length js1 = length h1 ->
  exists off rb' q' d js', buf_data b = InData off /\ mpsc_rb_advance_if_possible (s_rb s) off = Some rb' /\
    rep Ordered (mkSys rb' (s_tails s) (s_tickets s) (s_delivered s) (h1 ++ h2)) (r + d) (drop d q') (i - d) js' /\
    drop (i - d) (drop d q') = drop i q.
Proof.
  intros H Hheld Hlen. pose proof (rp_ring _ _ _ _ _ _ H) as Hr. pose proof (ri_inter _ _ _ Hr) as [Hi _].
  destruct (rp_held _ _ _ _ _ _ H) as [Hnd Hh]. rewrite Hheld in Hh.
  apply Forall2_app_inv in Hh as [Hh1 Hh2]; [|done]. inversion_clear Hh2 as [|? ? ? ? Hj Hh3].
  destruct Hj as (Hji & e & Hq & Hst & Eb). simplify_eq.
  destruct (rp_ordered _ _ _ _ _ _ H eq_refl) as [Hord1 Hord2].
  apply NoDup_app in Hnd as (Hnd1 & Hdisj & Hnd2). apply NoDup_cons in Hnd2 as [Hj2 Hnd2].
  assert (Hnej : forall x, x ∈ js1 ++ js2 -> x <> j).
  { intros x Hx ->. apply elem_of_app in Hx as [Hx|Hx]; [|done]. apply (Hdisj j Hx). by left. }
  pose proof (release_prefix_le q i j (mkE (e_n e) Discarded (e_data e)) Hord2 Hji Hi) as Hd.
  set (q' := <[j := mkE (e_n e) Discarded (e_data e)]> q) in *. set (d := discarded_prefix q') in *.
  destruct (discarded_prefix_spec q') as [Hpre Hstop]. fold d in Hpre, Hstop.
  assert (Hq'ne : forall k, k <> j -> q' !! k = q !! k) by (intros k Hk; by apply list_lookup_insert_ne).
  destruct (release_at (s_rb s) q i j e (q_end (reader_pos (s_rb s)) (take j q) mod data_size (s_rb s) + 8) Hr Hq)
    as (rb1 & E1 & Hrp & Hds & Hinv); [by rewrite Hst|done|done|].
  eexists _, rb1, q', d, (map (fun x => x - d)%nat (js1 ++ js2)). split_and!; [done|exact E1| |].
  2: { rewrite drop_drop. replace (d + (i - d))%nat with i by lia. unfold q'. by rewrite drop_insert_lt. }
  assert (Hheld' : Forall2 (held_ok (s_rb s) q' i) (js1 ++ js2) (h1 ++ h2)).
  { eapply held_update; [done..|]. by apply Forall2_app. }
  pose proof (tiles_sizes _ _ _ (ri_tiles _ _ _ Hr)) as Hf.
  apply (rep_drop Ordered s rb1 r q q' i d (js1 ++ j :: js2)); try done.
  - by apply length_insert.
  - apply Forall_insert; [done|]. rewrite Forall_lookup in Hf. by apply (Hf j e).
  - intros k t x. by apply (ticket_release _ _ _ _ _ _ _ _ _ _ _ H).
  - apply NoDup_app. split_and!; [done| |done]. intros x Hx Hx2. apply (Hdisj x Hx). by right.
  - apply Forall_forall. intros x Hx. destruct (decide (d <= x)%nat) as [|Hlt]; [done|exfalso].
    apply list_elem_of_lookup in Hx as [k Hk]. destruct (Forall2_lookup_l _ _ _ _ _ Hheld' Hk) as (h & _ & _ & e1 & Hq1 & Hst1 & _).
    rewrite (Hpre x e1) in Hst1; [done|lia|done].
  - intros _. split; intros k x Hk Hx Hstx.
    + destruct (decide (k = j)) as [->|Hne].
      { unfold q' in Hx. rewrite list_lookup_insert_eq in Hx by (by eapply lookup_lt_Some). simplify_eq/=. }
      rewrite Hq'ne in Hx by done. specialize (Hord1 k x ltac:(lia) Hx Hstx).
      rewrite elem_of_app, elem_of_cons in Hord1. rewrite elem_of_app. clear -Hord1 Hne. tauto.
    + assert (Hkd : k <> d). { intros ->. by apply (Hstop x Hx). }
      split; [lia|]. destruct (decide (k = j)) as [->|Hne]; [done|].
      rewrite Hq'ne in Hx by done. specialize (Hord2 k x Hx Hstx). lia.
Qed.

Definition sys_inv (m : consumer_mode) (s : sys) : Prop := exists r q i js, rep m s r q i js.

(** The discipline under which the ring is used: when the consumer releases events one by one,
    the producers do not discard. *)
Definition discipline (discards : bool) (m : consumer_mode) : Prop := m = Ordered -> discards = false.

Lemma step_inv discards m s s' : discipline discards m -> step discards m s s' -> sys_inv m s -> sys_inv m s'.
Proof.
  intros Hdis Hstep (r & q & i & js & H). destruct Hstep.
  - exists r, q, i, js. destruct H as [Hr ? ? ? ? Htl ? ?]. split; try done. cbn [s_tails s_rb] in *.
    constructor; [|done]. pose proof (ri_reader _ _ _ Hr). lia.
  - exists r, (q ++ [mkE n Busy old]), i, js. by eapply (rep_reserve m (mkSys rb tl tk dl hd)).
  - exists r, q, i, js. pose proof (rp_tails _ _ _ _ _ _ H) as Htl. rewrite Forall_forall in Htl. specialize (Htl tail ltac:(done)).
    destruct (reserve_spec rb q i tail area n hp lock (rp_ring _ _ _ _ _ _ H)) as (res1 & rb1 & E & Hres); [done..|].
    assert (res1 = res) as -> by congruence. assert (rb1 = rb') as -> by congruence.
    destruct res; [by match goal with Hx : forall b, _ <> Reserved b |- _ => edestruct Hx end|subst rb'; exact H|subst rb'; exact H].
  - match goal with Hk : tk !! k = Some t, Hs : t_st t = Busy |- _ =>
      destruct (busy_entry _ _ _ _ _ _ _ _ H Hk Hs) as (j & e & -> & Hij & Hq & Hst & Hb & Hd & _) end.
    cbn [s_rb] in Hb. rewrite Hb in *. cbn [buf_size buf_at] in *.
    destruct (write_at rb q i j e bs (rp_ring _ _ _ _ _ _ H) Hq) as (rb1 & E & Hrp & Hsz & Hinv); [done|].
    rewrite E in *. simplify_eq. rewrite Hst in Hinv. exists r, (<[j := mkE (e_n e) Busy bs]> q), i, js.
    eapply (rep_update m (mkSys rb tl tk dl hd)); try done. apply (rp_tails _ _ _ _ _ _ H).
  - match goal with Hk : tk !! k = Some t, Hs : t_st t = Busy |- _ =>
      destruct (busy_entry _ _ _ _ _ _ _ _ H Hk Hs) as (j & e & -> & Hij & Hq & Hst & Hb & Hd & _) end.
    cbn [s_rb] in Hb. pose proof (ri_reader _ _ _ (rp_ring _ _ _ _ _ _ H)) as [Hr0 _].
    destruct (commit_at rb q i j e off discard (rp_ring _ _ _ _ _ _ H) Hq Hst) as (rb1 & E & Hrp & Hsz & Hinv);
      [by rewrite <- Hb|].
    rewrite E in *. simplify_eq. eexists r, _, i, js.
    eapply (rep_update m (mkSys rb tl tk dl hd)); try done.
    + constructor; [cbn [s_rb] in *; lia|apply (rp_tails _ _ _ _ _ _ H)].
    + intros HO. destruct discard; [|done]. rewrite (Hdis HO) in *. match goal with Hx : true = true -> _ |- _ => by specialize (Hx eq_refl) end.
  - pose proof (rep_read _ _ _ _ _ _ (Some b) rb' H) as Hrd. eexists _, _, _, _. by apply Hrd.
  - pose proof (rep_read _ _ _ _ _ _ None rb' H) as Hrd. eexists _, _, _, _. by apply Hrd.
  - subst m. eexists _, _, _, _. by apply (rep_advance (mkSys rb tl tk dl hd) r q i js).
  - subst m. destruct (rp_held _ _ _ _ _ _ H) as [_ Hh]. cbn [s_held] in Hh.
    apply Forall2_app_inv_r in Hh as (js1 & js2 & Hh1 & Hh2 & ->).
    inversion Hh2 as [|j ? js3 ? _ _]. subst. pose proof (Forall2_length _ _ _ Hh1).
    destruct (rep_release (mkSys rb tl tk dl (h1 ++ (b, bs) :: h2)) r q i js1 j js3 h1 b bs h2)
      as (off' & rb1 & q' & d & js' & Eo & Er & Hrep & _); [done..|].
    assert (off' = off) as -> by congruence. assert (rb1 = rb') as -> by (cbn [s_rb] in Er; congruence).
    by eexists _, _, _, _.
Qed.

Lemma init_ring pk shift d : 12 <= pk <= 16 -> 0 <= shift <= 28 ->
  ring_inv (s_rb (sys_init (2 ^ pk) shift d)) [] 0.
Proof.
  intros Hpk Hsh. assert (Hmm : perf_mmap_size (2 ^ pk) shift = 2 ^ (shift + pk) + 2 ^ pk).
  { unfold perf_mmap_size. rewrite Z.shiftl_1_l.
    assert (2 ^ shift <= 2 ^ 28) by (apply Z.pow_le_mono_r; lia).
    assert (2 ^ pk <= 2 ^ 16) by (apply Z.pow_le_mono_r; lia).
    rewrite (u32_small (2 ^ shift)), u32_small by lia. rewrite u64_small by (unfold is_u64; nia).
    rewrite Z.pow_add_r by lia. lia. }
  assert (Hk : 2 ^ 3 <= 2 ^ (shift + pk) <= 2 ^ 44) by (split; apply Z.pow_le_mono_r; lia).
  unfold sys_init. cbn [s_rb]. unfold rb_init, get_mask_from_size. rewrite Hmm.
  assert (Hsub : 2 ^ (shift + pk) + 2 ^ pk -w 2 ^ pk = 2 ^ (shift + pk)).
  { replace (2 ^ (shift + pk) + 2 ^ pk - 2 ^ pk) with (2 ^ (shift + pk)) by lia. apply u64_small. unfold is_u64. lia. }
  rewrite Hsub. rewrite (u64_small (2 ^ (shift + pk) - 1)) by (unfold is_u64; lia).
  split; cbn [data_size mask mirrored_mapping reader_pos writer_pos intermediate_reader_pos q_end take tiles length]; try done.
  - exists (shift + pk). lia.
  - lia.
Qed.

Lemma reachable_inv discards m s : discipline discards m -> reachable discards m s -> sys_inv m s.
Proof.
  intros Hdis (pk & shift & d & Hpk & Hsh & Hsteps).
  assert (H0 : sys_inv m (sys_init (2 ^ pk) shift d)).
  { exists 0%nat, [], 0%nat, []. split; cbn [s_tickets s_delivered s_tails s_held sys_init]; try done.
    - by apply init_ring.
    - split; [constructor|done]. }
  revert H0. induction Hsteps as [|x y z Hxy _ IH]; [done|]. intros H0. by eapply IH, step_inv.
Qed.

(** ** A concrete run *)

(** Executable versions of the steps: a step that is not possible changes nothing. *)
Definition run_writer (s : sys) : sys :=
  mkSys (s_rb s) (reader_pos (s_rb s) :: s_tails s) (s_tickets s) (s_delivered s) (s_held s).

Definition run_reserve (n : Z) (s : sys) : sys :=
  match s_tails s with
  | tail :: _ =>
      if (0 <? n) && (n <? 2 ^ 61) && (writer_pos (s_rb s) <? 2 ^ 63) then
        match mpsc_reserve (s_rb s) tail 0 n false true with
        | Some (Reserved b, rb') =>
            match deref rb' b with
            | Some old => mkSys rb' (s_tails s) (s_tickets s ++ [mkT b Busy old]) (s_delivered s) (s_held s)
            | None => s
            end
        | _ => s
        end
      else s
  | [] => s
  end.

Definition run_fill_commit (k : nat) (bs : list Z) (s : sys) : sys :=
  match s_tickets s !! k with
  | Some t =>
      match t_st t, buf_data (t_buf t) with
      | Busy, InData off =>
          if Z.of_nat (length bs) =? buf_size (t_buf t) then
            match write_payload (s_rb s) (t_buf t) bs with
            | Some rb1 =>
                match commit_internal rb1 off false with
                | Some (_, tail, rb2) =>
                    mkSys rb2 (tail :: s_tails s) (<[k := mkT (t_buf t) Committed bs]> (s_tickets s))
                      (s_delivered s) (s_held s)
                | None => s
                end
            | None => s
            end
          else s
      | _, _ => s
      end
  | None => s
  end.

Definition run_read (s : sys) : sys :=
  match mpsc_rb_read_sample (s_rb s) with
  | Some (Some b, rb') =>
      match deref rb' b with
      | Some bs => mkSys rb' (s_tails s) (s_tickets s) (s_delivered s ++ [bs]) (s_held s ++ [(b, bs)])
      | None => s
      end
  | Some (None, rb') => mkSys rb' (s_tails s) (s_tickets s) (s_delivered s) (s_held s)
  | None => s
  end.

(** Release the event read last. *)
Definition run_release (s : sys) : sys :=
  match rev (s_held s) with
  | (b, bs) :: h =>
      match buf_data b with
      | InData off =>
          match mpsc_rb_advance_if_possible (s_rb s) off with
          | Some rb' => mkSys rb' (s_tails s) (s_tickets s) (s_delivered s) (rev h)
          | None => s
          end
      | InWrapCopy => s
      end
  | [] => s
  end.

Inductive command := CWriter | CReserve (n : Z) | CFillCommit (k : nat) (bs : list Z) | CRead | CRelease.

Definition run_command (s : sys) (c : command) : sys :=
  match c with
  | CWriter => run_writer s
  | CReserve n => run_reserve n s
  | CFillCommit k bs => run_fill_commit k bs s
  | CRead => run_read s
  | CRelease => run_release s
  end.

Definition run (cs : list command) (s : sys) : sys := foldl run_command s cs.

Lemma run_command_steps c s : rtc (step false Ordered) s (run_command s c).
Proof.
  destruct s as [rb tl tk dl hd]. destruct c as [|n|k bs| |];
    cbn [run_command]; unfold run_writer, run_reserve, run_fill_commit, run_read, run_release;
    cbn [s_rb s_tails s_tickets s_delivered s_held].
  - apply rtc_once. constructor.
  - destruct tl as [|tail tl]; [done|]. zcase; [|done]. repeat (case_match; [|done]); simplify_eq.
    repeat (case_match; try done). simplify_eq. apply rtc_once. eapply step_reserve; try done; [by left|lia..].
  - repeat (case_match; try done). zbool. simplify_eq. eapply rtc_l; [by eapply step_write|].
    apply rtc_once. assert (Hlt : (k < length tk)%nat) by (by eapply lookup_lt_Some).
    rewrite <- (list_insert_insert_eq tk k (mkT (t_buf t) Committed bs) (mkT (t_buf t) Busy bs)).
    apply (step_commit false Ordered r tl (<[k := mkT (t_buf t) Busy bs]> tk) dl hd k (mkT (t_buf t) Busy bs) off false b z); try done.
    by apply list_lookup_insert_eq.
  - repeat (case_match; try done); simplify_eq; apply rtc_once; by econstructor.
  - repeat (case_match; try done); simplify_eq. apply rtc_once.
    match goal with H : rev hd = (?b, ?bs) :: ?h |- _ =>
      assert (hd = rev h ++ (b, bs) :: []) as -> by (by rewrite <- (rev_involutive hd), H);
      rewrite <- (app_nil_r (rev h)) at 2 end.
    by eapply step_release.
Qed.

Lemma run_reachable cs d  : reachable false Ordered (run cs (sys_init 4096 0 d)).
Proof.
  exists 12, 0, d. split; [lia|]. split; [lia|]. change (2 ^ 12) with 4096.
  generalize (sys_init 4096 0 d). induction cs as [|c cs IH]; intros s; [done|].
  etrans; [apply run_command_steps|apply IH].
Qed.

(** Two producers; the second commits first, the consumer then reads both and
    releases them newest first. *)
Definition demo_commands : list command :=
  [CWriter; CReserve 3; CReserve 5; CFillCommit 1 [10; 11; 12; 13; 14]; CRead;
   CFillCommit 0 [1; 2; 3]; CRead; CRead].
Definition demo_run (cs : list command) : sys := run cs (sys_init 4096 0 (fun _ => 0)).

(** ** System theorems *)

(** C1: For every interleaving of producers (writer creation, reservations that
    succeed or fail, fill, commit, discard) and consumer steps, of rings of 2^0 to
    2^28 pages, as long as the writer position is below 2^63 - with discards only
    when the consumer releases its events in batches, not when it releases them one
    by one in any order ([discard_overtakes_ordered_reader]) - the payloads the
    consumer received are exactly the committed payloads of the first [k]
    reservations, in reservation order and with the bytes the producers wrote; no
    reservation among them is still open, discarded ones are skipped; and every
    event the consumer still holds reads back the bytes it was delivered with. *)
Theorem mpsc_delivers_committed_in_order discards m s :
  (m = Ordered -> discards = false) -> reachable discards m s ->
  (exists k, (k <= length (s_tickets s))%nat /\
     s_delivered s = committed_payloads (take k (s_tickets s)) /\
     Forall (fun t => t_st t <> Busy) (take k (s_tickets s))) /\
  (forall b bs, (b, bs) ∈ s_held s -> deref (s_rb s) b = Some bs).
Proof.
  intros Hdis Hr. destruct (reachable_inv discards m s Hdis Hr) as (r & q & i & js & H).
  pose proof (rp_ring _ _ _ _ _ _ H) as Hring. pose proof (ri_inter _ _ _ Hring) as [Hi _]. split.
  - exists (r + i)%nat. rewrite (rp_len _ _ _ _ _ _ H). split; [lia|].
    split; [apply (rp_delivered _ _ _ _ _ _ H)|apply (rp_closed _ _ _ _ _ _ H)].
  - intros b bs Hin. apply list_elem_of_lookup in Hin as [k Hk].
    destruct (rp_held _ _ _ _ _ _ H) as [_ Hh].
    destruct (Forall2_lookup_r _ _ _ _ _ Hh Hk) as (j & _ & _ & e & Hq & _ & Eb). simplify_eq.
    by eapply ring_deref.
Qed.

Lemma mpsc_delivers_committed_in_order_witness :
  s_delivered (demo_run demo_commands) = [[1; 2; 3]; [10; 11; 12; 13; 14]] /\
  (forall b bs, (b, bs) ∈ s_held (demo_run demo_commands) -> deref (s_rb (demo_run demo_commands)) b = Some bs).
Proof.
  split; [by vm_compute|]. apply (mpsc_delivers_committed_in_order false Ordered); [done|apply run_reachable].
Defined.

(** C39: In every state reachable under the same conditions (discards only with a
    consumer that releases in batches) the consumer's read is defined.  It returns the
    payload of the oldest committed reservation not yet delivered, or nothing, and
    then every reservation up to the first open one has been delivered: no
    committed record is lost or held back by anything but an older open one. *)
Theorem mpsc_read_makes_progress discards m s :
  (m = Ordered -> discards = false) -> reachable discards m s ->
  exists b rb' k, mpsc_rb_read_sample (s_rb s) = Some (b, rb') /\
    s_delivered s = committed_payloads (take k (s_tickets s)) /\
    match b with
    | Some b => exists t, s_tickets s !! k = Some t /\ t_st t = Committed /\ deref rb' b = Some (t_data t)
    | None => match s_tickets s !! k with Some t => t_st t = Busy | None => True end
    end.
Proof.
  intros Hdis Hr. destruct (reachable_inv discards m s Hdis Hr) as (r & q & i & js & H).
  destruct (read_sample_spec _ _ _ (rp_ring _ _ _ _ _ _ H)) as (b & rb' & E & Hspec).
  pose proof (unread_tickets _ _ _ _ _ _ H) as Hun. pose proof (rp_delivered _ _ _ _ _ _ H) as Hdl.
  exists b, rb'. assert (Hgen : forall n, take (r + i + n) (s_tickets s)
      = take (r + i) (s_tickets s) ++ take n (drop (r + i) (s_tickets s))) by (intros; by rewrite take_take_drop).
  assert (Hstop : exists n, committed_payloads (take n (drop (r + i) (s_tickets s))) = [] /\
    match fst (next_sample (drop i q)) with
    | Some e => exists t, drop (r + i) (s_tickets s) !! n = Some t /\ t_st t = Committed /\ t_data t = e_data e
    | None => match drop (r + i) (s_tickets s) !! n with Some t => t_st t = Busy | None => True end
    end).
  { clear -Hun. induction Hun as [|t e tk q' [Hst Hd] _ (n & IH1 & IH2)]; [by exists 0%nat|].
    cbn [next_sample]. destruct (e_st e) eqn:Est.
    - by exists 0%nat.
    - exists 0%nat. split; [done|]. by exists t.
    - exists (S n). cbn [take]. unfold committed_payloads in *. cbn [omap list_omap]. rewrite decide_False by (by rewrite Hst).
      split; [done|]. destruct (next_sample q') as [r' c']. cbn [fst] in *. done. }
  destruct Hstop as (n & Hn1 & Hn2). exists (r + i + n)%nat. split; [done|].
  rewrite Hgen, committed_payloads_app, Hn1, app_nil_r. split; [done|]. rewrite lookup_drop in Hn2.
  destruct (next_sample (drop i q)) as [res c]. cbn [fst] in Hn2. destruct Hspec as (_ & _ & _ & Hb).
  destruct b as [b|], res as [e|]; try done. destruct Hn2 as (t & Ht & Hst & Hd). exists t.
  split_and!; [done..|]. rewrite Hd. apply Hb.
Qed.

Lemma mpsc_read_makes_progress_witness :
  exists b rb' k, mpsc_rb_read_sample (s_rb (demo_run (take 6 demo_commands))) = Some (b, rb') /\
    s_delivered (demo_run (take 6 demo_commands)) = committed_payloads (take k (s_tickets (demo_run (take 6 demo_commands)))) /\
    match b with
    | Some b => exists t, s_tickets (demo_run (take 6 demo_commands)) !! k = Some t /\ t_st t = Committed /\ deref rb' b = Some (t_data t)
    | None => match s_tickets (demo_run (take 6 demo_commands)) !! k with Some t => t_st t = Busy | None => True end
    end.
Proof. apply (mpsc_read_makes_progress false Ordered); [done|apply run_reachable]. Defined.

(** In every reachable state filling and committing an open reservation is
    defined, and the commit asks for a notification exactly when the consumer has
    released every older reservation (its position is the number of ring bytes of
    the older ones): a commit that does not notify leaves an older record behind
    whose commit will. *)
Theorem mpsc_commit_notifies_oldest discards m s k t (discard : bool) :
  (m = Ordered -> discards = false) -> reachable discards m s -> s_tickets s !! k = Some t -> t_st t = Busy ->
  exists off notify rb', t_buf t = mkBuf (InData off) (buf_size (t_buf t)) /\
    commit_internal (s_rb s) off discard = Some (notify, reader_pos (s_rb s), rb') /\
    (notify = true <-> reader_pos (s_rb s) = ring_bytes (take k (s_tickets s))) /\
    (forall bs, Z.of_nat (length bs) = buf_size (t_buf t) -> write_payload (s_rb s) (t_buf t) bs <> None).
Proof.
  intros Hdis Hr Hk Hst. destruct (reachable_inv discards m s Hdis Hr) as (r & q & i & js & H).
  pose proof (rp_ring _ _ _ _ _ _ H) as Hring.
  destruct (busy_entry _ _ _ _ _ _ _ _ H Hk Hst) as (j & e & -> & Hij & Hq & Hste & Hb & _).
  rewrite Hb. unfold buf_at at 1 2. cbn [buf_size]. eexists _.
  destruct (commit_at _ q i j e _ discard Hring Hq Hste eq_refl) as (rb' & E & _).
  exists (bool_decide (j = 0%nat)), rb'. split; [done|]. split; [exact E|]. split.
  - rewrite bool_decide_eq_true, (rp_pos _ _ _ _ _ _ H).
    rewrite <- (ring_bytes_take _ q r j); [|intros j' t' e' Ht' He'; by destruct (rp_ok _ _ _ _ _ _ H _ _ _ Ht' He') as (-> & _)
      |apply (rp_len _ _ _ _ _ _ H)].
    pose proof (tiles_sizes _ _ _ (ri_tiles _ _ _ Hring)) as Hf.
    pose proof (q_end_length (ring_bytes (take r (s_tickets s))) (take j q) (Forall_take _ j _ Hf)) as Hlen.
    apply lookup_lt_Some in Hq. rewrite length_take in Hlen. split; [by intros ->|]. lia.
  - intros bs Hbs. destruct (write_at _ q i j e bs Hring Hq Hbs) as (rb1 & E1 & _). by rewrite E1.
Qed.

Lemma mpsc_commit_notifies_oldest_witness :
  exists t off notify rb', s_tickets (demo_run (take 5 demo_commands)) !! 0%nat = Some t /\
    t_buf t = mkBuf (InData off) (buf_size (t_buf t)) /\
    commit_internal (s_rb (demo_run (take 5 demo_commands))) off false
      = Some (notify, reader_pos (s_rb (demo_run (take 5 demo_commands))), rb') /\
    (notify = true <-> reader_pos (s_rb (demo_run (take 5 demo_commands))) = 0).
Proof.
  assert (Hb : option_map t_st (s_tickets (demo_run (take 5 demo_commands)) !! 0%nat) = Some Busy)
    by (vm_compute; reflexivity).
  destruct (s_tickets (demo_run (take 5 demo_commands)) !! 0%nat) as [t|] eqn:Et; [|discriminate Hb].
  injection Hb as Hb.
  destruct (mpsc_commit_notifies_oldest false Ordered (demo_run (take 5 demo_commands)) 0 t false) as (off & nt & rb' & H1 & H2 & H3 & _).
  - done.
  - apply run_reachable.
  - exact Et.
  - exact Hb.
  - exists t, off, nt, rb'. split; [reflexivity|]. split; [exact H1|]. split; [exact H2|exact H3].
Defined.

(** A consumer that releases events one by one, in any order, gives all the
    space back: when it holds no event, the position the writers see has caught up
    with what was read. *)
Theorem ordered_release_gives_space_back s :
  reachable false Ordered s -> s_held s = [] ->
  reader_pos (s_rb s) = intermediate_reader_pos (s_rb s).
Proof.
  intros Hr Hh. destruct (reachable_inv false Ordered s ltac:(done) Hr) as (r & q & i & js & H).
  destruct (rp_held _ _ _ _ _ _ H) as [_ Hhd]. rewrite Hh in Hhd. apply Forall2_nil_inv_r in Hhd as ->.
  destruct (rp_ordered _ _ _ _ _ _ H eq_refl) as [H1 H2].
  pose proof (ri_inter _ _ _ (rp_ring _ _ _ _ _ _ H)) as [Hi ->].
  destruct i as [|i]; [done|exfalso]. destruct q as [|e q]; [simpl in Hi; lia|].
  pose proof (rp_closed _ _ _ _ _ _ H) as Hc. pose proof (rp_len _ _ _ _ _ _ H) as Hl.
  destruct (lookup_lt_is_Some_2 (s_tickets s) r) as [t Ht]; [simpl in Hl; lia|].
  destruct (rp_ok _ _ _ _ _ _ H 0%nat t e) as (_ & _ & E3); [by rewrite Nat.add_0_r|done|].
  assert (Hnb : t_st t <> Busy).
  { rewrite Forall_lookup in Hc. apply (Hc r t). by rewrite lookup_take_lt by lia. }
  destruct (e_st e) eqn:Est.
  - destruct E3 as [E3|(_&_&?)]; [by rewrite E3 in Hnb|done].
  - by apply not_elem_of_nil with (1 := H1 0%nat e ltac:(lia) eq_refl Est).
  - specialize (H2 0%nat e eq_refl Est). lia.
Qed.

Lemma ordered_release_gives_space_back_witness :
  let s := demo_run (demo_commands ++ [CRelease; CRelease]) in
  s_held s = [] /\ reader_pos (s_rb s) = 32 /\ reader_pos (s_rb s) = intermediate_reader_pos (s_rb s).
Proof.
  intros s. assert (Hh : s_held s = []) by by vm_compute. split; [done|]. split; [by vm_compute|].
  apply ordered_release_gives_space_back; [apply run_reachable|done].
Defined.

(** A record its writer discarded, released together with an older event, moves
    the writers' position past the consumer's own: the records the consumer has
    not walked over yet can be overwritten.  (No caller of the ring discards.) *)
Example discard_overtakes_ordered_reader :
  (let rb0 := s_rb (sys_init 4096 0 (fun _ => 0)) in
   let? (_, rb1) := mpsc_reserve rb0 0 0 8 false true in
   let? (_, rb2) := mpsc_reserve rb1 0 0 8 false true in
   let? (_, _, rb3) := mpsc_commit rb2 8 in
   let? (_, _, rb4) := mpsc_discard rb3 24 in
   let? (event, rb5) := mpsc_rb_read_sample rb4 in
   let? rb6 := mpsc_rb_advance_if_possible rb5 8 in
   Some (event, intermediate_reader_pos rb6, reader_pos rb6))
  = Some (Some (mkBuf (InData 8) 8), 16, 32).
Proof. vm_compute. reflexivity. Qed.
