(* ===== verification/PerfRing.v ===== *)
(** * The perf ring: correctness

    The kernel appends events to the ring; [perf_rb_read_event] hands them out one
    at a time, through a copy when an event wraps and the mapping is not mirrored.
    [PerfRingBufferWriter] plays the kernel's role for in-process producers. *)

From S2P Require Import Prelude RingBuffer.

(** An event: its header's 16-bit size field is its length, a multiple of 8. *)
Definition event_ok (ev : list Z) : Prop :=
  hdr_size ev = Z.of_nat (length ev) /\ 8 <= Z.of_nat (length ev) < 2 ^ 16 /\
  Z.of_nat (length ev) mod 8 = 0.

Definition ev_len (ev : list Z) : Z := Z.of_nat (length ev).

Fixpoint evs_end (p : Z) (evs : list (list Z)) : Z :=
  match evs with [] => p | ev :: evs' => evs_end (p + ev_len ev) evs' end.

Fixpoint holds_events (rb : RingBuffer) (p : Z) (evs : list (list Z)) : Prop :=
  match evs with
  | [] => True
  | ev :: evs' => event_ok ev /\ rd (data rb) (data_size rb) p (ev_len ev) = ev /\
                  holds_events rb (p + ev_len ev) evs'
  end.

(** The ring holds the unread events [evs]; events read and not released lie
    before them. *)
Record perf_inv (rb : RingBuffer) (evs : list (list Z)) : Prop := {
  pi_size : exists k, 3 <= k <= 60 /\ data_size rb = 2 ^ k /\ mask rb = 2 ^ k - 1;
  pi_reader : 0 <= reader_pos rb <= intermediate_reader_pos rb /\ intermediate_reader_pos rb mod 8 = 0;
  pi_writer : writer_pos rb = evs_end (intermediate_reader_pos rb) evs /\ writer_pos rb < 2 ^ 64;
  pi_room : writer_pos rb - reader_pos rb <= data_size rb;
  pi_events : holds_events rb (intermediate_reader_pos rb) evs
}.

Lemma evs_end_ge p evs : p <= evs_end p evs.
Proof. revert p. induction evs as [|ev evs IH]; intros p; simpl; [lia|]. specialize (IH (p + ev_len ev)). unfold ev_len in *. lia. Qed.

Lemma evs_end_app p a b : evs_end p (a ++ b) = evs_end (evs_end p a) b.
Proof. revert p. induction a; intros p; simpl; [done|]. by rewrite IHa. Qed.

Lemma perf_pos rb evs : perf_inv rb evs -> 8 <= data_size rb <= 2 ^ 60 /\ mask rb = data_size rb - 1 /\
  (forall p, Z.land p (mask rb) = p mod data_size rb).
Proof.
  intros [(k & Hk & -> & ->) _ _ _ _]. assert (2 ^ 3 <= 2 ^ k <= 2 ^ 60) by (split; apply Z.pow_le_mono_r; lia).
  split; [lia|]. split; [done|]. intros p. apply land_mask. lia.
Qed.

Lemma holds_events_frame rb rb' p evs :
  data_size rb' = data_size rb ->
  (forall x n, p <= x -> x + n <= evs_end p evs -> rd (data rb') (data_size rb) x n = rd (data rb) (data_size rb) x n) ->
  holds_events rb p evs -> holds_events rb' p evs.
Proof.
  intros Hs. revert p. induction evs as [|ev evs IH]; intros p Hrd; [done|]. intros (Hok & Hd & Ht).
  cbn [evs_end] in Hrd. pose proof (evs_end_ge (p + ev_len ev) evs).
  assert (0 <= ev_len ev) by (unfold ev_len; lia). split_and!; [done| |].
  - rewrite Hs, Hrd by lia. done.
  - apply IH; [|done]. intros. apply Hrd; lia.
Qed.

(** ** The wrap copy *)

Lemma seqZ_split n m : 0 <= m <= n -> seqZ 0 n = seqZ 0 m ++ map (Z.add m) (seqZ 0 (n - m)).
Proof.
  intros H. replace n with (m + (n - m)) at 1 by lia. rewrite seqZ_app by lia. f_equal.
  rewrite (fmap_add_seqZ m 0). by rewrite Z.add_0_l, Z.add_0_r.
Qed.

(** The two [memcpy] assemble the bytes in ring order. *)
Lemma rd_two_chunks d size off n :
  0 <= off < size -> size - off <= n -> n - (size - off) <= size ->
  rd d size off n = map (fun i => d (off + i)) (seqZ 0 (size - off)) ++ map d (seqZ 0 (n - (size - off))).
Proof.
  intros Ho Hn Hn2. unfold rd. rewrite (seqZ_split n (size - off)) by lia. rewrite map_app, map_map. f_equal.
  - apply map_ext_in. intros i Hi. apply list_elem_of_In, elem_of_seqZ in Hi. rewrite Z.mod_small by lia. done.
  - apply map_ext_in. intros i Hi. apply list_elem_of_In, elem_of_seqZ in Hi.
    replace (off + (size - off + i)) with (i + 1 * size) by lia. rewrite Z.mod_add, Z.mod_small by lia. done.
Qed.

Lemma ensure_wrap_copy_capacity rb n ok rb1 : 0 < n < 2 ^ 61 ->
  ensure_wrap_copy_buffer rb n ok = (true, rb1) ->
  (exists w, wrap_copy rb1 = Some w) /\ n <= wrap_copy_capacity rb1 /\
  exists w c, rb1 = set_wrap_copy rb w c.
Proof.
  intros Hn. unfold ensure_wrap_copy_buffer, kRingBufferAlignment. destruct (Z.eqb_spec n 0); [lia|].
  destruct (align_up8_bounds n) as [Hb _]; [lia|].
  destruct (wrap_copy rb) as [w|] eqn:E; cbn [negb orb].
  - destruct (Z.ltb_spec (wrap_copy_capacity rb) (align_up n 8)).
    + destruct ok; intros ?; simplify_eq. cbn [wrap_copy wrap_copy_capacity set_wrap_copy].
      split; [by eexists|]. split; [lia|]. by eexists _, _.
    + intros ?; simplify_eq. split; [by eexists|]. split; [lia|].
      exists (wrap_copy rb1), (wrap_copy_capacity rb1). by destruct rb1.
  - destruct ok; intros ?; simplify_eq. cbn [wrap_copy wrap_copy_capacity set_wrap_copy].
    split; [by eexists|]. split; [lia|]. by eexists _, _.
Qed.

Lemma ensure_wrap_copy_fail rb n ok rb1 : 0 < n ->
  ensure_wrap_copy_buffer rb n ok = (false, rb1) -> ok = false /\ exists w c, rb1 = set_wrap_copy rb w c.
Proof.
  intros Hn. unfold ensure_wrap_copy_buffer. destruct (Z.eqb_spec n 0); [lia|].
  destruct (wrap_copy rb); cbn [negb orb]; [zcase; [|done]|]; destruct ok; intros ?; simplify_eq;
    (split; [done|by eexists _, _]).
Qed.

Lemma copy_wrapped_deref rb off n w :
  wrap_copy rb = Some w -> n <= wrap_copy_capacity rb -> 0 <= off < data_size rb ->
  data_size rb - off <= n -> n - (data_size rb - off) <= data_size rb ->
  exists rb', copy_wrapped rb off n = Some rb' /\
    (exists w', rb' = set_wrap_copy rb (Some w') (wrap_copy_capacity rb)) /\
    forall m, 0 <= m <= n -> forall p, deref (set_intermediate rb' p) (mkBuf InWrapCopy m) = Some (rd (data rb) (data_size rb) off m).
Proof.
  intros Hw Hcap Ho Hn Hn2. unfold copy_wrapped. rewrite Hw.
  destruct (Z.leb_spec n (wrap_copy_capacity rb)); [|lia].
  destruct (Z.leb_spec (n - (data_size rb - off)) (data_size rb)); [|lia]. cbn [andb].
  eexists. split; [done|]. split; [by eexists|]. intros m Hm p.
  unfold deref. cbn [buf_data buf_size set_intermediate set_wrap_copy wrap_copy].
  rewrite <- rd_two_chunks by lia. f_equal. rewrite take_app_le by (rewrite length_rd; lia).
  unfold rd. rewrite (seqZ_split n m) by lia. rewrite map_app. apply take_app_length'.
  rewrite length_map, length_seqZ. lia.
Qed.

(** ** Reading *)

Lemma perf_inv_step rb evs ev rb' :
  perf_inv rb (ev :: evs) -> data rb' = data rb -> data_size rb' = data_size rb -> mask rb' = mask rb ->
  writer_pos rb' = writer_pos rb -> reader_pos rb' = reader_pos rb ->
  intermediate_reader_pos rb' = intermediate_reader_pos rb + ev_len ev -> perf_inv rb' evs.
Proof.
  intros [Hsz [Hr Hr8] [Hw Hw64] Hroom (Hok & Hd & Ht)] E1 E2 E3 E4 E5 E6. destruct Hok as (_ & Hl & Hl8). cbn [evs_end] in Hw.
  split; rewrite ?E2, ?E3, ?E4, ?E5, ?E6; try done.
  - split; [unfold ev_len; lia|]. rewrite Z.add_mod by lia. unfold ev_len. by rewrite Hr8, Hl8.
  - eapply holds_events_frame; [done| |done]. intros. by rewrite E1.
Qed.

Lemma event_aligned ev : event_ok ev -> align_up (ev_len ev) kRingBufferAlignment = ev_len ev.
Proof.
  intros (_ & Hl & Hl8). unfold kRingBufferAlignment, ev_len. rewrite align_up8 by lia.
  pose proof (Z.div_mod (Z.of_nat (length ev)) 8).
  replace (Z.of_nat (length ev) + 7) with (7 + (Z.of_nat (length ev) / 8) * 8) by lia.
  rewrite Z.div_add by lia. change (7 / 8) with 0. lia.
Qed.

(** What reading leaves alone: all but the read cursor and the wrap copy. *)
Definition same_ring (rb rb' : RingBuffer) : Prop :=
  rb_type rb' = rb_type rb /\ mask rb' = mask rb /\ data_size rb' = data_size rb /\ data rb' = data rb /\
  mirrored_mapping rb' = mirrored_mapping rb /\ writer_pos rb' = writer_pos rb /\ reader_pos rb' = reader_pos rb.

Lemma perf_inv_read rb ev evs rb' : perf_inv rb (ev :: evs) -> same_ring rb rb' ->
  intermediate_reader_pos rb' = intermediate_reader_pos rb + ev_len ev -> perf_inv rb' evs.
Proof. intros H (?&?&?&?&?&?&?) Hi. by eapply perf_inv_step. Qed.

Lemma perf_inv_same rb evs rb' : perf_inv rb evs -> same_ring rb rb' ->
  intermediate_reader_pos rb' = intermediate_reader_pos rb -> perf_inv rb' evs.
Proof.
  intros [? ? ? ? He] (E1&E2&E3&E4&E5&E6&E7) Hi. split; rewrite ?E2, ?E3, ?E6, ?E7, ?Hi; try done.
  apply (holds_events_frame rb); [done| |done]. intros. by rewrite E4.
Qed.

Lemma set_wrap_copy_same rb w c p : same_ring rb (set_intermediate (set_wrap_copy rb w c) p).
Proof. done. Qed.

(** The header of the next event gives its length. *)
Lemma perf_read_header rb ev evs : perf_inv rb (ev :: evs) ->
  hdr_size (rd (data rb) (data_size rb) (intermediate_reader_pos rb mod data_size rb) sizeof_perf_event_header) = ev_len ev.
Proof.
  intros H. pose proof (perf_pos _ _ H) as (Hs & _). pose proof (pi_events _ _ H) as ((Hhs & Hl & _) & Hrd & _).
  unfold ev_len in *. rewrite <- Hhs, rd_mod by lia. rewrite <- Hrd at 1. unfold hdr_size, rd, sizeof_perf_event_header.
  rewrite (seqZ_split (Z.of_nat (length ev)) 8) by lia. rewrite map_app, drop_app_le, take_app_le; [done|..];
    rewrite ?length_drop, length_map, length_seqZ; lia.
Qed.

(** [perf_rb_read_event] on a non-empty ring, with what is kept of the ring and where
    the event lies. *)
Lemma perf_read_spec rb ev evs alloc_ok : perf_inv rb (ev :: evs) ->
  exists b rb', perf_rb_read_event rb alloc_ok = Some (b, rb') /\ same_ring rb rb' /\
    match b with
    | Some b => intermediate_reader_pos rb' = intermediate_reader_pos rb + ev_len ev /\ deref rb' b = Some ev /\
        (b = mkBuf (InData (intermediate_reader_pos rb mod data_size rb)) (ev_len ev) \/ b = mkBuf InWrapCopy (ev_len ev))
    | None => alloc_ok = false /\ mirrored_mapping rb = false /\ intermediate_reader_pos rb' = intermediate_reader_pos rb
    end.
Proof.
  intros H. pose proof (perf_pos _ _ H) as (Hs & Hm & Hland). pose proof (pi_writer _ _ H) as [Hw Hw64].
  pose proof (pi_reader _ _ H) as [Hr _]. pose proof (pi_room _ _ H) as Hroom. pose proof (perf_read_header _ _ _ H) as Hhdr.
  pose proof (pi_events _ _ H) as (Hok & Hrd & _). pose proof Hok as (_ & Hl & _).
  cbn [evs_end] in Hw. pose proof (evs_end_ge (intermediate_reader_pos rb + ev_len ev) evs) as Hge. unfold perf_rb_read_event.
  set (p := intermediate_reader_pos rb) in *. destruct (Z.eqb_spec p (writer_pos rb)) as [|Hne]; [unfold ev_len in *; lia|].
  rewrite Hland. set (off := p mod data_size rb) in *. assert (Hoff : 0 <= off < data_size rb) by (apply Z.mod_pos_bound; lia).
  rewrite Hhdr. set (n := ev_len ev) in *. assert (Hn : 8 <= n < 2 ^ 16) by done.
  assert (Hmax : Z.max n sizeof_perf_event_header = n) by (unfold sizeof_perf_event_header; lia).
  assert (Hadv : p +w align_up n kRingBufferAlignment = p + n).
  { unfold n. rewrite event_aligned by done. apply u64_small. unfold is_u64. lia. }
  rewrite Hmax. destruct (mirrored_mapping rb) eqn:Hmir; cbn [negb andb orb];
    [|destruct (Z.ltb_spec (data_size rb) (off + n))].
  - eexists _, _. split; [done|]. split; [done|]. split; [exact Hadv|]. split; [|by left].
    unfold deref, access_ok. cbn [buf_data buf_size set_intermediate mirrored_mapping data_size data]. rewrite Hmir.
    destruct (Z.leb_spec (off + n) (2 * data_size rb)); [|lia]. unfold off. by rewrite rd_mod, Hrd by lia.
  - rewrite orb_true_r. destruct (ensure_wrap_copy_buffer rb n alloc_ok) as [[|] rb1] eqn:Ee.
    + destruct (ensure_wrap_copy_capacity rb n alloc_ok rb1) as ((w & Hwc) & Hcap & w0 & c0 & ->); [lia|done|].
      destruct (copy_wrapped_deref (set_wrap_copy rb w0 c0) off n w) as (rb2 & E2 & (w2 & ->) & Hde);
        [done|done|done|cbn [set_wrap_copy data_size]; lia..|].
      rewrite E2. eexists _, _. split; [done|]. split; [done|]. split; [exact Hadv|]. split; [|by right].
      rewrite Hde by lia. cbn [data data_size set_wrap_copy]. unfold off. by rewrite rd_mod, Hrd by lia.
    + destruct (ensure_wrap_copy_fail rb n alloc_ok rb1) as (-> & w0 & c0 & ->); [lia|done|].
      eexists _, _. done.
  - destruct (Z.ltb_spec (data_size rb) (off + sizeof_perf_event_header)); [unfold sizeof_perf_event_header in *; lia|].
    cbn [orb]. eexists _, _. split; [done|]. split; [done|]. split; [exact Hadv|]. split; [|by left].
    unfold deref, access_ok. cbn [buf_data buf_size set_intermediate mirrored_mapping data_size data]. rewrite Hmir.
    destruct (Z.leb_spec (off + n) (data_size rb)); [|lia]. unfold off. by rewrite rd_mod, Hrd by lia.
Qed.

Lemma perf_read_empty rb alloc_ok : perf_inv rb [] -> perf_rb_read_event rb alloc_ok = Some (None, rb).
Proof. intros H. pose proof (pi_writer _ _ H) as [Hw _]. unfold perf_rb_read_event. cbn in Hw. by rewrite Hw, Z.eqb_refl. Qed.

(** [perf_rb_read_event] on a ring that holds events: it returns the oldest
    unread event, byte for byte, whether or not it wraps and whether or not the
    mapping is mirrored, and leaves the others to be read; with no unread event it
    returns nothing; and when the copy of a wrapped event cannot be allocated it
    returns nothing and loses no event. *)
Theorem perf_read_event_in_order rb evs alloc_ok :
  perf_inv rb evs ->
  exists b rb', perf_rb_read_event rb alloc_ok = Some (b, rb') /\ reader_pos rb' = reader_pos rb /\
    match b, evs with
    | Some b, ev :: evs' => deref rb' b = Some ev /\ perf_inv rb' evs'
    | Some _, [] => False
    | None, [] => rb' = rb
    | None, _ :: _ => alloc_ok = false /\ mirrored_mapping rb = false /\ perf_inv rb' evs
    end.
Proof.
  intros H. destruct evs as [|ev evs].
  { rewrite perf_read_empty by done. by eexists _, _. }
  destruct (perf_read_spec rb ev evs alloc_ok H) as (b & rb' & E & Hsame & Hb).
  exists b, rb'. split; [done|]. split; [apply Hsame|]. destruct b as [b|].
  - destruct Hb as (Hi & Hd & _). split; [done|]. by eapply perf_inv_read.
  - destruct Hb as (-> & Hm & Hi). split_and!; [done..|]. by eapply perf_inv_same.
Qed.

Lemma holds_events_app rb p a b :
  holds_events rb p (a ++ b) <-> holds_events rb p a /\ holds_events rb (evs_end p a) b.
Proof. revert p. induction a as [|ev a IH]; intros p; simpl; [tauto|]. rewrite IH. tauto. Qed.

(** ** Writing *)

(** [PerfRingBufferWriter::write] then [commit], on a mirrored ring that the
    writer has not overfilled: the event is appended behind the unread events,
    which are untouched, exactly when it fits in the free space; otherwise nothing
    is written.  The commit asks for a notification exactly when the consumer had
    released everything written before. *)
Theorem perf_write_commit_appends rb evs ev :
  perf_inv rb evs -> mirrored_mapping rb = true -> event_ok ev ->
  writer_pos rb < 2 ^ 63 -> writer_pos rb - reader_pos rb <= mask rb ->
  exists ok rb1 w notify rb2 w2,
    pw_write rb (pw_create rb) ev = Some (ok, rb1, w) /\ pw_commit rb1 w = (notify, rb2, w2) /\
    perf_inv rb2 (if ok : bool then evs ++ [ev] else evs) /\
    ok = (writer_pos rb - reader_pos rb + ev_len ev <=? mask rb) /\
    notify = (writer_pos rb <=? reader_pos rb) /\
    writer_pos rb2 - reader_pos rb2 <= mask rb2.
Proof.
  intros H Hmir Hok Hw63 Hfull. pose proof (perf_pos _ _ H) as (Hs & Hm & Hland).
  pose proof (pi_writer _ _ H) as [Hw Hw64]. pose proof (pi_reader _ _ H) as [Hr Hr8].
  pose proof (event_aligned _ Hok) as Hal. pose proof Hok as (_ & Hl & _).
  pose proof (evs_end_ge (intermediate_reader_pos rb) evs) as Hge.
  unfold pw_write, pw_reserve, pw_available_size. fold (ev_len ev) in *. rewrite Hal.
  cbn [pw_create pw_head pw_tail pw_initial_head].
  rewrite (u64_small (writer_pos rb - reader_pos rb)), u64_small by (unfold is_u64; lia).
  destruct (Z.eqb_spec (ev_len ev) 0); [lia|]. cbn [orb].
  destruct (Z.ltb_spec (mask rb - (writer_pos rb - reader_pos rb)) (ev_len ev)).
  - do 6 eexists. split; [done|]. unfold pw_commit, pw_update_available.
    cbn [pw_create pw_head pw_tail pw_initial_head]. split; [done|].
    cbn [set_writer_pos reader_pos writer_pos mask]. split_and!; [|symmetry; apply Z.leb_gt; lia|done|done].
    destruct H as [? ? ? ? He]. split; try done. by apply (holds_events_frame rb).
  - rewrite (u64_small (writer_pos rb + ev_len ev)) by (unfold is_u64; lia). rewrite Hland. unfold store_bytes.
    assert (Hacc : access_ok rb (writer_pos rb mod data_size rb) (Z.of_nat (length ev)) = true).
    { unfold access_ok. rewrite Hmir. apply Z.leb_le. pose proof (Z.mod_pos_bound (writer_pos rb) (data_size rb)).
      unfold ev_len in *. lia. }
    rewrite Hacc. do 6 eexists. split; [done|]. unfold pw_commit, pw_update_available.
    cbn [pw_create pw_head pw_tail pw_initial_head]. split; [done|].
    cbn [set_writer_pos set_data reader_pos writer_pos mask]. split_and!; [|symmetry; apply Z.leb_le; lia|done|lia].
    destruct H as [? ? ? ? He]. split; cbn [set_writer_pos set_data data_size mask reader_pos writer_pos intermediate_reader_pos]; try done.
    + rewrite evs_end_app, <- Hw. cbn [evs_end]. lia.
    + lia.
    + apply holds_events_app. rewrite <- Hw. split.
      * apply (holds_events_frame rb); [done| |done]. intros x m Hx Hn. cbn [data set_data set_writer_pos].
        rewrite rd_wr_mod by lia. rewrite <- Hw in Hn. apply rd_wr_disjoint; [lia|]. unfold ev_len in *. lia.
      * split_and!; [done| |done]. cbn [data data_size set_data set_writer_pos]. rewrite rd_wr_mod by lia.
        apply rd_wr_same. unfold ev_len in *. lia.
Qed.

(** ** Concrete ring for the witnesses *)

(** A 16-byte sample event: type 9, misc 0, size 16, then a payload word. *)
Definition demo_event (x : Z) : list Z := [9; 0; 0; 0; 0; 0; 16; 0] ++ le_bytes 8 x.

(** A 64-byte ring whose positions are about to wrap, with one unread event. *)
Definition demo_ring (mirrored : bool) : RingBuffer :=
  mkRB kPerfRingBuffer 63 64 (wr (fun _ => 0) 64 56 (demo_event 7)) mirrored 72 56 56 None 0.

Lemma demo_event_ok x : event_ok (demo_event x).
Proof. by split. Qed.

Lemma demo_ring_inv mirrored : perf_inv (demo_ring mirrored) [demo_event 7].
Proof.
  split; try (cbn; lia).
  - exists 6. done.
  - cbn. done.
  - split; [done|]. done.
  - split; [apply demo_event_ok|]. split; [by vm_compute|done].
Qed.

Lemma perf_read_event_in_order_witness :
  exists b rb', perf_rb_read_event (demo_ring false) true = Some (b, rb') /\
    match b with Some b => deref rb' b = Some (demo_event 7) /\ perf_inv rb' [] | None => true = false end.
Proof.
  destruct (perf_read_event_in_order (demo_ring false) [demo_event 7] true (demo_ring_inv false)) as (b & rb' & E & _ & Hb).
  exists b, rb'. split; [exact E|]. destruct b; [exact Hb|apply Hb].
Defined.

Lemma perf_write_commit_appends_witness :
  exists ok rb1 w notify rb2 w2,
    pw_write (demo_ring true) (pw_create (demo_ring true)) (demo_event 8) = Some (ok, rb1, w) /\
    pw_commit rb1 w = (notify, rb2, w2) /\
    perf_inv rb2 (if ok : bool then [demo_event 7; demo_event 8] else [demo_event 7]) /\ ok = true.
Proof.
  destruct (perf_write_commit_appends (demo_ring true) [demo_event 7] (demo_event 8) (demo_ring_inv true) eq_refl (demo_event_ok 8))
    as (ok & rb1 & w & nt & rb2 & w2 & E1 & E2 & Hinv & Hok & _); [done|done|].
  exists ok, rb1, w, nt, rb2, w2. split_and!; [exact E1|exact E2|exact Hinv|exact Hok].
Defined.
