(* ===== verification/EventRings.v ===== *)
(** * The rings as the main loop sees them

    The two kinds of ring behind one abstraction, [ring_holds rb pending held]: the
    events that can be read, in order, and the events that were read and not yet
    released, with the buffer through which the reader sees each.  The operations of
    the readers ([perf_rb_read_event], [perf_rb_advance], [mpsc_rb_read_sample],
    [mpsc_rb_advance_if_possible]) are given their meaning on it, and the writers of
    both rings are shown to only append to the pending events. *)

From S2P Require Import Prelude RingBuffer MpscRing MpscSystem PerfRing.

#[global] Instance RingBufferType_eq_dec : EqDecision RingBufferType.
Proof. solve_decision. Defined.

Abbreviation held_events := (list (ConstBuffer * list Z)).

(** ** The perf ring *)

(** The held event lies between the release cursor and the read cursor, or was
    copied because it wraps. *)
Definition perf_held (rb : RingBuffer) (b : ConstBuffer) (ev : list Z) : Prop :=
  event_ok ev /\ intermediate_reader_pos rb = reader_pos rb + ev_len ev /\ deref rb b = Some ev /\
  (b = mkBuf (InData (reader_pos rb mod data_size rb)) (ev_len ev) \/ b = mkBuf InWrapCopy (ev_len ev)).

Definition perf_holds (rb : RingBuffer) (pending : list (list Z)) (held : held_events) : Prop :=
  perf_inv rb pending /\
  match held with
  | [] => intermediate_reader_pos rb = reader_pos rb
  | [(b, ev)] => perf_held rb b ev
  | _ => False
  end.

Lemma perf_holds_inflight rb p h : perf_holds rb p h -> perf_rb_has_inflight_events rb = bool_decide (h <> []).
Proof.
  intros [_ H]. unfold perf_rb_has_inflight_events. destruct h as [|[b ev] [|]]; [| |done].
  - by rewrite H, Z.eqb_refl.
  - destruct H as ((_ & Hl & _) & -> & _). destruct (Z.eqb_spec (reader_pos rb + ev_len ev) (reader_pos rb)); [|done].
    unfold ev_len in *. lia.
Qed.

Lemma perf_holds_read rb ev p alloc_ok : perf_holds rb (ev :: p) [] ->
  exists b rb', perf_rb_read_event rb alloc_ok = Some (b, rb') /\ rb_type rb' = rb_type rb /\
    match b with
    | Some b => deref rb' b = Some ev /\ perf_holds rb' p [(b, ev)]
    | None => alloc_ok = false /\ perf_holds rb' (ev :: p) []
    end.
Proof.
  intros [Hinv Hin]. destruct (perf_read_spec rb ev p alloc_ok Hinv) as (b & rb' & E & Hsame & Hb).
  exists b, rb'. split; [done|]. split; [apply Hsame|]. pose proof Hsame as (_&_&Hds&_&_&_&Hrp).
  pose proof (pi_events _ _ Hinv) as (Hok & _). destruct b as [b|].
  - destruct Hb as (Hi & Hd & Hloc). split; [done|]. split; [by eapply perf_inv_read|].
    unfold perf_held. rewrite Hds, Hrp, Hi, Hin. rewrite Hin in Hloc. done.
  - destruct Hb as (-> & _ & Hi). split; [done|]. split; [by eapply perf_inv_same|]. congruence.
Qed.

Lemma perf_holds_advance rb p b ev : perf_holds rb p [(b, ev)] ->
  perf_holds (perf_rb_advance rb) p [] /\ rb_type (perf_rb_advance rb) = rb_type rb.
Proof.
  intros [Hinv (_ & Hi & _)]. split; [|done]. split; [|done]. destruct Hinv as [? [Hr Hr8] ? ? He]. unfold perf_rb_advance.
  split; cbn [set_reader_pos data_size mask reader_pos writer_pos intermediate_reader_pos]; try done.
  - split; [lia|done].
  - lia.
  - by apply (holds_events_frame rb).
Qed.

(** A write of the kernel (or of [PerfRingBufferWriter]) that fits in the free space. *)
Lemma perf_holds_write rb p h ev : perf_holds rb p h -> event_ok ev ->
  writer_pos rb + ev_len ev < 2 ^ 64 -> writer_pos rb + ev_len ev - reader_pos rb <= data_size rb ->
  perf_holds (set_writer_pos (set_data rb (wr (data rb) (data_size rb) (writer_pos rb mod data_size rb) ev))
                (writer_pos rb + ev_len ev)) (p ++ [ev]) h.
Proof.
  intros [Hinv Hh] Hok Hw64 Hroom. pose proof (perf_pos _ _ Hinv) as (Hs & _). pose proof (pi_writer _ _ Hinv) as [Hw _].
  pose proof (pi_reader _ _ Hinv) as [Hr _]. pose proof (evs_end_ge (intermediate_reader_pos rb) p) as Hge.
  assert (Hframe : forall x n, reader_pos rb <= x -> x + n <= writer_pos rb ->
     rd (wr (data rb) (data_size rb) (writer_pos rb mod data_size rb) ev) (data_size rb) x n = rd (data rb) (data_size rb) x n).
  { intros x n Hx Hn. rewrite rd_wr_mod by lia. apply rd_wr_disjoint; [lia|]. unfold ev_len in *. lia. }
  split.
  - destruct Hinv as [? ? ? ? He]. split; cbn [set_writer_pos set_data data_size mask reader_pos writer_pos intermediate_reader_pos]; try done.
    + rewrite evs_end_app, <- Hw. cbn [evs_end]. lia.
    + apply holds_events_app. rewrite <- Hw. split.
      * apply (holds_events_frame rb); [done| |done]. intros x m Hx Hn. cbn [data set_data set_writer_pos].
        apply Hframe; lia.
      * split_and!; [done| |done]. cbn [data data_size set_data set_writer_pos]. rewrite rd_wr_mod by lia.
        apply rd_wr_same. unfold ev_len in *. lia.
  - destruct h as [|[b e] [|]]; [done| |done]. destruct Hh as (Hoke & Hi & Hd & Hloc).
    split_and!; [done|exact Hi| |exact Hloc]. destruct Hloc as [->| ->]; [|exact Hd].
    revert Hd. unfold deref, access_ok. cbn [buf_data buf_size set_writer_pos set_data mirrored_mapping data_size data].
    case_match; [|done]. rewrite rd_mod by lia. intros <-. f_equal. rewrite rd_mod by lia. apply Hframe; lia.
Qed.

(** ** The multi-producer ring *)

(** What the reader can get of the unread records: the committed ones before the
    first that is still being written. *)
Fixpoint deliverable (q : list entry) : list (list Z) :=
  match q with
  | [] => []
  | e :: q' =>
      match e_st e with
      | Busy => []
      | Committed => e_data e :: deliverable q'
      | Discarded => deliverable q'
      end
  end.

Lemma next_sample_deliverable q :
  let '(r, c) := next_sample q in
  deliverable q = match r with Some e => e_data e :: deliverable (drop c q) | None => deliverable (drop c q) end /\
  (r = None -> deliverable q = []).
Proof.
  induction q as [|e q IH]; [done|]. cbn [next_sample deliverable]. destruct (e_st e) eqn:E; cbn [drop deliverable].
  - by rewrite E.
  - done.
  - destruct (next_sample q) as [[r|] c]; destruct IH as [IH1 IH2]; (split; [exact IH1|auto]).
Qed.

Definition mpsc_holds (rb : RingBuffer) (pending : list (list Z)) (held : held_events) : Prop :=
  exists s r q i js, rep Ordered s r q i js /\ s_rb s = rb /\ s_held s = held /\ pending = deliverable (drop i q).

Lemma mpsc_holds_deref rb p h b ev : mpsc_holds rb p h -> (b, ev) ∈ h -> deref rb b = Some ev.
Proof.
  intros (s & r & q & i & js & H & <- & <- & _) Hin. destruct (rp_held _ _ _ _ _ _ H) as [_ Hh].
  apply list_elem_of_lookup in Hin as [k Hk]. destruct (Forall2_lookup_r _ _ _ _ _ Hh Hk) as (j & _ & _ & e & Hq & _ & E).
  simplify_eq. eapply ring_deref; [apply (rp_ring _ _ _ _ _ _ H)|done].
Qed.

Lemma read_sample_type rb b rb' : mpsc_rb_read_sample rb = Some (b, rb') -> rb_type rb' = rb_type rb.
Proof.
  unfold mpsc_rb_read_sample, mpsc_rb_read_sample_head. generalize (ring_fuel rb) as f, (writer_pos rb) as w. intros f w. revert rb.
  induction f as [|f IH]; intros rb; cbn [read_sample_loop]; [done|].
  repeat (case_match; try done); intros E; simplify_eq/=; try done. by rewrite (IH _ E).
Qed.

Lemma release_type rb off rb' : mpsc_rb_advance_if_possible rb off = Some rb' -> rb_type rb' = rb_type rb.
Proof. unfold mpsc_rb_advance_if_possible, store_u64, store_bytes. repeat (case_match; try done); intros; by simplify_eq/=. Qed.

Lemma mpsc_holds_read rb p h : mpsc_holds rb p h ->
  exists b rb', mpsc_rb_read_sample rb = Some (b, rb') /\ rb_type rb' = rb_type rb /\
    match b, p with
    | Some b, ev :: p' => deref rb' b = Some ev /\ mpsc_holds rb' p' (h ++ [(b, ev)])
    | None, [] => mpsc_holds rb' [] h
    | _, _ => False
    end.
Proof.
  intros (s & r & q & i & js & H & <- & <- & ->).
  destruct (read_sample_spec _ _ _ (rp_ring _ _ _ _ _ _ H)) as (b & rb' & E & Hspec).
  pose proof (rep_read _ _ _ _ _ _ b rb' H E) as Hrep. pose proof (next_sample_deliverable (drop i q)) as Hdel.
  exists b, rb'. split; [done|]. split; [by eapply read_sample_type|].
  destruct (next_sample (drop i q)) as [res c]. destruct Hspec as (_ & _ & _ & Hb). destruct Hdel as [Hdel Hnone].
  rewrite drop_drop in Hdel. cbn [snd] in Hrep. destruct b as [b|], res as [e|]; try done.
  - destruct Hb as [_ Hd]. rewrite Hdel. split; [done|]. eexists _, r, q, (i + c)%nat, _. by split; [apply Hrep|].
  - rewrite Hnone by done. eexists _, r, q, (i + c)%nat, _. split; [apply Hrep|]. split_and!; [done..|].
    by rewrite <- Hdel, Hnone.
Qed.

Lemma mpsc_holds_release rb p h1 b ev h2 : mpsc_holds rb p (h1 ++ (b, ev) :: h2) ->
  exists off rb', buf_data b = InData off /\ mpsc_rb_advance_if_possible rb off = Some rb' /\
    rb_type rb' = rb_type rb /\ mpsc_holds rb' p (h1 ++ h2).
Proof.
  intros (s & r & q & i & js & H & <- & Eh & ->). destruct (rp_held _ _ _ _ _ _ H) as [_ Hh]. rewrite Eh in Hh.
  apply Forall2_app_inv_r in Hh as (js1 & js2 & Hh1 & Hh2 & ->). inversion Hh2 as [|j ? js3 ? _ _]. subst.
  destruct (rep_release s r q i js1 j js3 h1 b ev h2) as (off & rb' & q' & d & js' & Eo & Er & Hrep & Hdrop);
    [done|done|by eapply Forall2_length|].
  exists off, rb'. split_and!; [done..|by eapply release_type|]. eexists _, _, _, _, _. split; [exact Hrep|]. by rewrite Hdrop.
Qed.

Lemma rep_perm m s r q i js h' : rep m s r q i js -> s_held s ≡ₚ h' ->
  exists js', rep m (mkSys (s_rb s) (s_tails s) (s_tickets s) (s_delivered s) h') r q i js'.
Proof.
  intros H Hp. destruct (rp_held _ _ _ _ _ _ H) as [Hnd Hh].
  destruct (Permutation_Forall2 Hp (proj2 (Forall2_flip _ _ _) Hh)) as (js' & Hp' & Hh'%Forall2_flip).
  exists js'. destruct H as [? ? ? ? ? ? ? ? Hord]. split; try done.
  - split; [by rewrite <- Hp'|done].
  - intros HO. destruct (Hord HO) as [H1 H2]. split; [|done]. intros j e Hj Hq Hst. rewrite <- Hp'. by eapply H1.
Qed.

Lemma mpsc_holds_perm rb p h h' : mpsc_holds rb p h -> h ≡ₚ h' -> mpsc_holds rb p h'.
Proof.
  intros (s & r & q & i & js & H & <- & <- & ->) Hp. destruct (rep_perm _ _ _ _ _ _ _ H Hp) as [js' H'].
  by eexists _, r, q, i, js'.
Qed.

Lemma deliverable_app a b : deliverable a `prefix_of` deliverable (a ++ b).
Proof.
  induction a as [|e a IH]; cbn [app deliverable]; [apply prefix_nil|].
  destruct (e_st e); [apply prefix_nil|by apply prefix_cons|done].
Qed.

Lemma deliverable_unblock q j e e' : q !! j = Some e -> e_st e = Busy -> deliverable q `prefix_of` deliverable (<[j := e']> q).
Proof.
  revert j. induction q as [|x q IH]; intros [|j] Hj He; simplify_eq/=.
  - rewrite He. apply prefix_nil.
  - specialize (IH j Hj He). destruct (e_st x); [apply prefix_nil|by apply prefix_cons|done].
Qed.

Lemma commit_type rb off d n t rb' : commit_internal rb off d = Some (n, t, rb') -> rb_type rb' = rb_type rb.
Proof. unfold commit_internal, store_u64, store_bytes. repeat (case_match; try done); intros; by simplify_eq/=. Qed.

(** Writing or closing a record that was being written keeps what could be read before. *)
Lemma mpsc_update_holds s rb' tl' r q i js j t e t' e' :
  rep Ordered s r q i js -> s_tickets s !! (r + j)%nat = Some t -> q !! j = Some e -> (i <= j)%nat -> e_st e = Busy ->
  ring_inv rb' (<[j := e']> q) i -> reader_pos rb' = reader_pos (s_rb s) -> data_size rb' = data_size (s_rb s) ->
  Forall (fun x => 0 <= x <= reader_pos (s_rb s)) tl' ->
  e_n e' = e_n e -> t_buf t' = t_buf t -> t_data t' = e_data e' -> t_st t' = e_st e' -> e_st e' <> Discarded ->
  exists new, mpsc_holds rb' (deliverable (drop i q) ++ new) (s_held s).
Proof.
  intros H Ht Hq Hij Hst Hinv Hrp Hds Htl Hn Hb Hd Hs Hdis.
  destruct (deliverable_unblock (drop i q) (j - i) e e') as [new Hnew]; [|done|].
  { rewrite lookup_drop. by replace (i + (j - i))%nat with j by lia. }
  exists new. eexists _, r, (<[j := e']> q), i, js. split; [by eapply (rep_update Ordered s)|].
  split_and!; [done..|]. by rewrite drop_insert_ge.
Qed.

(** The producers, and a read that found nothing, only add to what can be read. *)
Lemma mpsc_external_step s s' r q i js :
  rep Ordered s r q i js -> step false Ordered s s' -> s_held s' = s_held s ->
  exists new, mpsc_holds (s_rb s') (deliverable (drop i q) ++ new) (s_held s).
Proof.
  intros H Hstep. pose proof (rp_tails _ _ _ _ _ _ H) as Htails. pose proof (rp_ring _ _ _ _ _ _ H) as Hring.
  pose proof (ri_inter _ _ _ Hring) as [Hi _]. pose proof (ri_reader _ _ _ Hring) as [Hr0 _].
  destruct Hstep; cbn [s_held s_rb s_tails] in *; intros Hheld.
  - exists []. rewrite app_nil_r. by eexists _, r, q, i, js.
  - destruct (deliverable_app (drop i q) [mkE n Busy old]) as [new Hnew]. exists new.
    eexists _, _, _, _, _. split; [by eapply (rep_reserve _ (mkSys rb tl tk dl hd))|]. split_and!; [done..|].
    by rewrite drop_app_le.
  - rewrite Forall_forall in Htails. specialize (Htails tail ltac:(done)).
    destruct (reserve_spec rb q i tail area n hp lock Hring) as (res1 & rb1 & E & Hres); [done..|].
    assert (res1 = res) as -> by congruence. assert (rb1 = rb') as -> by congruence.
    assert (rb' = rb) as -> by (destruct res; [by match goal with Hx : forall b, _ <> Reserved b |- _ => edestruct Hx end|done|done]).
    exists []. rewrite app_nil_r. by eexists _, r, q, i, js.
  - match goal with Hk : tk !! k = Some t, Hs : t_st t = Busy |- _ =>
      destruct (busy_entry _ _ _ _ _ _ _ _ H Hk Hs) as (j & e & -> & Hij & Hq & Hst & Hb & Hd & _) end.
    cbn [s_rb] in Hb. rewrite Hb in *. cbn [buf_size buf_at] in *.
    destruct (write_at rb q i j e bs Hring Hq) as (rb1 & E & Hrp & Hsz & Hinv); [done|].
    rewrite E in *. simplify_eq. rewrite Hst in Hinv.
    eapply (mpsc_update_holds (mkSys rb tl tk dl hd) _ tl r q i js j t e (mkT (t_buf t) Busy bs)); done.
  - match goal with Hk : tk !! k = Some t, Hs : t_st t = Busy |- _ =>
      destruct (busy_entry _ _ _ _ _ _ _ _ H Hk Hs) as (j & e & -> & Hij & Hq & Hst & Hb & Hd & _) end.
    cbn [s_rb] in Hb. destruct discard; [match goal with Hx : true = true -> _ |- _ => by specialize (Hx eq_refl) end|].
    destruct (commit_at rb q i j e off false Hring Hq Hst) as (rb1 & E & Hrp & Hsz & Hinv); [by rewrite <- Hb|].
    rewrite E in *. simplify_eq.
    eapply (mpsc_update_holds (mkSys rb tl tk dl hd) _ tl r q i js j t e (mkT (t_buf t) Committed (t_data t))); done.
  - exfalso. apply (f_equal length) in Hheld. rewrite length_app in Hheld. cbn in Hheld. lia.
  - exists []. rewrite app_nil_r.
    assert (Hh : mpsc_holds rb (deliverable (drop i q)) hd) by (by eexists _, r, q, i, js).
    destruct (mpsc_holds_read _ _ _ Hh) as (b & rb1 & E & Hty & Hb).
    assert (Some (b, rb1) = Some (None, rb')) by congruence. simplify_eq. by destruct (deliverable (drop i q)).
  - done.
  - exfalso. apply (f_equal length) in Hheld. rewrite !length_app in Hheld. cbn in Hheld. lia.
Qed.

(** ** Both kinds *)

Definition ring_holds (rb : RingBuffer) (pending : list (list Z)) (held : held_events) : Prop :=
  match rb_type rb with
  | kPerfRingBuffer => perf_holds rb pending held
  | kMPSCRingBuffer => mpsc_holds rb pending held
  end.

Lemma ring_holds_deref rb p h b ev : ring_holds rb p h -> (b, ev) ∈ h -> deref rb b = Some ev.
Proof.
  unfold ring_holds. case_match; [|apply mpsc_holds_deref]. intros [_ Hh] Hin.
  destruct h as [|[b' e] [|]]; [by apply elem_of_nil in Hin| |done].
  apply list_elem_of_singleton in Hin. simplify_eq. apply Hh.
Qed.

Lemma ring_holds_perm rb p h h' : ring_holds rb p h -> h ≡ₚ h' -> ring_holds rb p h'.
Proof.
  unfold ring_holds. case_match; [|apply mpsc_holds_perm]. intros Hh Hp.
  destruct h as [|x [|y h]]; [by apply Permutation_nil_l in Hp as <-|by apply Permutation_singleton_l in Hp as <-|].
  by destruct Hh as [_ Hf]; destruct x.
Qed.
