(* ===== verification/PerfSample.v ===== *)
(** * Perf samples: decoding, encoding and time stamps

    Model of [samp2hdr], [hdr2samp] and [hdr_time] of [src/perf_ringbuffer.cc] and
    of the event structures of [include/perf.hpp] and
    [include/ddprof_perf_event.hpp].  An event is the list of its bytes; a pointer
    into it is a byte offset; an access outside the bytes is undefined ([None]). *)

From S2P Require Import Prelude RingBuffer.

(** ** Kernel constants *)

Definition PERF_SAMPLE_IP : Z := 2 ^ 0.
Definition PERF_SAMPLE_TID : Z := 2 ^ 1.
Definition PERF_SAMPLE_TIME : Z := 2 ^ 2.
Definition PERF_SAMPLE_ADDR : Z := 2 ^ 3.
Definition PERF_SAMPLE_READ : Z := 2 ^ 4.
Definition PERF_SAMPLE_CALLCHAIN : Z := 2 ^ 5.
Definition PERF_SAMPLE_ID : Z := 2 ^ 6.
Definition PERF_SAMPLE_CPU : Z := 2 ^ 7.
Definition PERF_SAMPLE_PERIOD : Z := 2 ^ 8.
Definition PERF_SAMPLE_STREAM_ID : Z := 2 ^ 9.
Definition PERF_SAMPLE_RAW : Z := 2 ^ 10.
Definition PERF_SAMPLE_REGS_USER : Z := 2 ^ 12.
Definition PERF_SAMPLE_STACK_USER : Z := 2 ^ 13.
Definition PERF_SAMPLE_IDENTIFIER : Z := 2 ^ 16.

Definition PERF_RECORD_MMAP : Z := 1.
Definition PERF_RECORD_LOST : Z := 2.
Definition PERF_RECORD_COMM : Z := 3.
Definition PERF_RECORD_EXIT : Z := 4.
Definition PERF_RECORD_FORK : Z := 7.
Definition PERF_RECORD_SAMPLE : Z := 9.
Definition PERF_RECORD_MMAP2 : Z := 10.
Definition PERF_CUSTOM_EVENT_DEALLOCATION : Z := 1000.
Definition PERF_CUSTOM_EVENT_CLEAR_LIVE_ALLOCATION : Z := 1001.
Definition PERF_CUSTOM_EVENT_ALLOCATION_TRACKER_STATE : Z := 1002.

Definition PERF_SAMPLE_REGS_ABI_64 : Z := 2.
Definition k_perf_register_count : Z := 20.

Definition has (mask flag : Z) : bool := negb (Z.land flag mask =? 0).

(** ** Byte buffers *)

Definition load (n : nat) (ev : list Z) (off : Z) : option Z :=
  if (0 <=? off) && (off + Z.of_nat n <=? Z.of_nat (length ev))
  then Some (le_val (take n (drop (Z.to_nat off) ev))) else None.

Definition store (ev : list Z) (off : Z) (bs : list Z) : option (list Z) :=
  if (0 <=? off) && (off + Z.of_nat (length bs) <=? Z.of_nat (length ev))
  then Some (take (Z.to_nat off) ev ++ bs ++ drop (Z.to_nat off + length bs) ev) else None.

Definition memcpy_from (src : list Z) (off n : Z) : option (list Z) :=
  if n =? 0 then Some []
  else if (0 <=? off) && (off + n <=? Z.of_nat (length src))
  then Some (take (Z.to_nat n) (drop (Z.to_nat off) src)) else None.

(** ** Structures *)

Record perf_event_header := mkHdr { h_type : Z; h_misc : Z; h_size : Z }.

Definition sizeof_hdr : Z := 8.

Definition load_hdr (ev : list Z) : option perf_event_header :=
  let? ty := load 4 ev 0 in let? mi := load 2 ev 4 in let? sz := load 2 ev 6 in Some (mkHdr ty mi sz).

Definition hdr_bytes (h : perf_event_header) : list Z :=
  le_bytes 4 (h_type h) ++ le_bytes 2 (h_misc h) ++ le_bytes 2 (h_size h).

(** Pointer members are offsets into the byte buffer the sample refers to. *)
Record perf_event_sample := mkSample {
  header : perf_event_header;
  sample_id : Z; ip : Z; pid : Z; tid : Z; time : Z; addr : Z; id : Z; stream_id : Z;
  cpu : Z; res : Z; period : Z; v : option Z; nr : Z; ips : option Z;
  size_raw : Z; data_raw : option Z; abi : Z; regs : option Z;
  size_stack : Z; data_stack : option Z; dyn_size_stack : Z
}.

(** ** hdr2samp *)

(** [if (flag & mask) field = *buf++]. *)
Definition get64 (mask flag : Z) (ev : list Z) (buf old : Z) : option (Z * Z) :=
  if has mask flag then let? x := load 8 ev buf in Some (x, buf + 8) else Some (old, buf).

(** Two 32-bit halves of one word. *)
Definition get_halves (mask flag : Z) (ev : list Z) (buf old0 old1 : Z) : option (Z * Z * Z) :=
  if has mask flag then
    let? a := load 4 ev buf in let? b := load 4 ev (buf + 4) in Some (a, b, buf + 8)
  else Some (old0, old1, buf).

(** [hdr2samp(hdr, mask)]; [s] is the static sample, which keeps the fields that
    the mask leaves out.  The result is the new static sample and whether it is
    returned ([nullptr] otherwise). *)
Definition hdr2samp (s : perf_event_sample) (ev : list Z) (mask : Z) : option (bool * perf_event_sample) :=
  let? h := load_hdr ev in
  let buf := sizeof_hdr in
  let? (sample_id', buf) := get64 mask PERF_SAMPLE_IDENTIFIER ev buf (sample_id s) in
  let? (ip', buf) := get64 mask PERF_SAMPLE_IP ev buf (ip s) in
  let? (pid', tid', buf) := get_halves mask PERF_SAMPLE_TID ev buf (pid s) (tid s) in
  let? (time', buf) := get64 mask PERF_SAMPLE_TIME ev buf (time s) in
  let? (addr', buf) := get64 mask PERF_SAMPLE_ADDR ev buf (addr s) in
  let? (id', buf) := get64 mask PERF_SAMPLE_ID ev buf (id s) in
  let? (stream_id', buf) := get64 mask PERF_SAMPLE_STREAM_ID ev buf (stream_id s) in
  let? (cpu', res', buf) := get_halves mask PERF_SAMPLE_CPU ev buf (cpu s) (res s) in
  let? (period', buf) := get64 mask PERF_SAMPLE_PERIOD ev buf (period s) in
  let '(v', buf) := if has mask PERF_SAMPLE_READ then (Some buf, buf + 8) else (v s, buf) in
  let? (nr', ips', buf) :=
    if has mask PERF_SAMPLE_CALLCHAIN then
      let? n := load 8 ev buf in Some (n, Some (buf + 8), buf + 8 + 8 * n)
    else Some (nr s, ips s, buf) in
  let? (size_raw', data_raw', buf) :=
    if has mask PERF_SAMPLE_RAW then
      let? n := load 4 ev buf in
      Some (n, if n =? 0 then None else Some (buf + 4), buf + 8 * (1 + n / 8))
    else Some (size_raw s, data_raw s, buf) in
  let? (ok, abi', regs', buf) :=
    if has mask PERF_SAMPLE_REGS_USER then
      let? a := load 8 ev buf in
      if a =? PERF_SAMPLE_REGS_ABI_64
      then Some (true, a, Some (buf + 8), buf + 8 + 8 * k_perf_register_count)
      else Some (false, a, regs s, buf + 8)
    else Some (true, abi s, regs s, buf) in
  let mk := mkSample h sample_id' ip' pid' tid' time' addr' id' stream_id' cpu' res' period' v'
              nr' ips' size_raw' data_raw' abi' regs' in
  if negb ok then Some (false, mk (size_stack s) (data_stack s) (dyn_size_stack s))
  else if has mask PERF_SAMPLE_STACK_USER then
    let? sz := load 8 ev buf in
    if sz =? 0 then Some (true, mk 0 None 0)
    else
      let data := buf + 8 in
      let? dynsz := load 8 ev (data + 8 * ((sz + 7) / 8)) in
      Some (true, mk (if sz <? dynsz then 0 else dynsz) (Some data) dynsz)
  else Some (true, mk (size_stack s) (data_stack s) (dyn_size_stack s)).

(** ** samp2hdr *)

(** The output buffer, the write offset [buf] and the accounted size [sz];
    [inl false]-style early exits are [Stop]. *)
Inductive wr_state := Go (out : list Z) (buf sz : Z) | Stop (out : list Z).

Definition size_check (sz_hdr : Z) (out : list Z) (buf sz : Z) : wr_state :=
  if sz_hdr <=? sz then Stop out else Go out buf sz.

(** A block of [samp2hdr] guarded by [flag]. *)
Definition when_flag (mask flag : Z) (f : list Z -> Z -> Z -> option wr_state) (st : option wr_state) :
    option wr_state :=
  let? st' := st in
  match st' with
  | Stop out => Some (Stop out)
  | Go out buf sz => if has mask flag then f out buf sz else Some st'
  end.

Definition put64 (sz_hdr x : Z) (out : list Z) (buf sz : Z) : option wr_state :=
  let? out := store out buf (le_bytes 8 x) in Some (size_check sz_hdr out (buf + 8) (sz + 8)).

(** [advance]: whether [buf++] follows. *)
Definition put_halves (sz_hdr a b : Z) (advance : bool) (out : list Z) (buf sz : Z) : option wr_state :=
  let? out := store out buf (le_bytes 4 a) in
  let? out := store out (buf + 4) (le_bytes 4 b) in
  Some (size_check sz_hdr out (if advance then buf + 8 else buf) (sz + 8)).

(** The word [x], then an array of [n] words accounted with [8 * n] bytes of which
    the first [n] bytes are copied. *)
Definition put_array (src : list Z) (sz_hdr x n : Z) (p : option Z) (out : list Z) (buf sz : Z) : option wr_state :=
  let? st := put64 sz_hdr x out buf sz in
  match st with
  | Stop out => Some (Stop out)
  | Go out buf sz =>
      let sz := sz +w 8 *w n in
      if sz_hdr <=? sz then Some (Stop out)
      else
        let? bytes := memcpy_from src (default 0 p) n in
        let? out := store out buf bytes in
        Some (Go out (buf + 8 * n) sz)
  end.

Definition put_read (src : list Z) (sz_hdr : Z) (p : option Z) (out : list Z) (buf sz : Z) : option wr_state :=
  let? bytes := memcpy_from src (default 0 p) 24 in
  let? out := store out buf bytes in
  Some (size_check sz_hdr out (buf + 24) (sz + 24)).

Definition put_raw (src : list Z) (sz_hdr n : Z) (p : option Z) (out : list Z) (buf sz : Z) : option wr_state :=
  let? out := store out buf (le_bytes 4 n) in
  let? bytes := memcpy_from src (default 0 p) n in
  let? out := store out (buf + 4) bytes in
  Some (size_check sz_hdr out (buf + 8 * (1 + n / 8)) (sz + 8)).

Definition put_stack (src : list Z) (sz_hdr : Z) (s : perf_event_sample) (out : list Z) (buf sz : Z) : option wr_state :=
  let? st := put64 sz_hdr (size_stack s) out buf sz in
  match st with
  | Stop out => Some (Stop out)
  | Go out buf sz =>
      if size_stack s =? 0 then Some (Go out buf sz)
      else
        let sz := sz +w size_stack s in
        if sz_hdr <=? sz then Some (Stop out)
        else
          let? bytes := memcpy_from src (default 0 (data_stack s)) (size_stack s) in
          let? out := store out buf bytes in
          put64 sz_hdr (dyn_size_stack s) out (buf + 8 * ((size_stack s + 7) / 8)) sz
  end.

(** [samp2hdr(hdr, sample, sz_hdr, mask)] into the memory [hdr]; the sample's
    pointers refer to [src].  Whether it succeeded, and the memory. *)
Definition samp2hdr (hdr src : list Z) (s : perf_event_sample) (sz_hdr mask : Z) : option (bool * list Z) :=
  if sz_hdr <? sizeof_hdr then Some (false, hdr)
  else
    let? out := store hdr 0 (replicate (Z.to_nat sz_hdr) 0) in
    let? out := store out 0
                  (hdr_bytes (mkHdr (h_type (header s)) (h_misc (header s)) 0)) in
    if sz_hdr <=? sizeof_hdr then Some (false, out)
    else
      let st := Some (Go out sizeof_hdr sizeof_hdr) in
      let st := when_flag mask PERF_SAMPLE_IDENTIFIER (put64 sz_hdr (sample_id s)) st in
      let st := when_flag mask PERF_SAMPLE_IP (put64 sz_hdr (ip s)) st in
      let st := when_flag mask PERF_SAMPLE_TID (put_halves sz_hdr (pid s) (tid s) true) st in
      let st := when_flag mask PERF_SAMPLE_TIME (put64 sz_hdr (time s)) st in
      let st := when_flag mask PERF_SAMPLE_ADDR (put64 sz_hdr (addr s)) st in
      let st := when_flag mask PERF_SAMPLE_ID (put64 sz_hdr (id s)) st in
      let st := when_flag mask PERF_SAMPLE_STREAM_ID (put64 sz_hdr (stream_id s)) st in
      let st := when_flag mask PERF_SAMPLE_CPU (put_halves sz_hdr (cpu s) (res s) false) st in
      let st := when_flag mask PERF_SAMPLE_PERIOD (put64 sz_hdr (period s)) st in
      let st := when_flag mask PERF_SAMPLE_READ (put_read src sz_hdr (v s)) st in
      let st := when_flag mask PERF_SAMPLE_CALLCHAIN (put_array src sz_hdr (nr s) (nr s) (ips s)) st in
      let st := when_flag mask PERF_SAMPLE_RAW (put_raw src sz_hdr (size_raw s) (data_raw s)) st in
      let st := when_flag mask PERF_SAMPLE_REGS_USER
                  (put_array src sz_hdr (abi s) k_perf_register_count (regs s)) st in
      let st := when_flag mask PERF_SAMPLE_STACK_USER (put_stack src sz_hdr s) st in
      let? st' := st in
      match st' with
      | Stop out => Some (false, out)
      | Go out _ sz => let? out := store out 6 (le_bytes 2 (u16 sz)) in Some (true, out)
      end.

(** ** hdr_time *)

Definition popcount (flags : list Z) (mask : Z) : Z := Z.of_nat (count_if (has mask) flags).

Definition hdr_time (ev : list Z) (mask : Z) : option Z :=
  if negb (has mask PERF_SAMPLE_TIME) then Some 0
  else
    let? h := load_hdr ev in
    let ty := h_type h in
    if ty =? PERF_RECORD_SAMPLE then
      let nb_fields_before := popcount [PERF_SAMPLE_IDENTIFIER; PERF_SAMPLE_IP; PERF_SAMPLE_TID] mask in
      load 8 ev (sizeof_hdr + 8 * nb_fields_before)
    else if existsb (Z.eqb ty) [PERF_RECORD_MMAP; PERF_RECORD_MMAP2; PERF_RECORD_COMM;
                                PERF_RECORD_EXIT; PERF_RECORD_FORK; PERF_RECORD_LOST] then
      let nb_fields_after := popcount [PERF_SAMPLE_TIME; PERF_SAMPLE_ID; PERF_SAMPLE_STREAM_ID;
                                       PERF_SAMPLE_CPU; PERF_SAMPLE_IDENTIFIER] mask in
      load 8 ev (h_size h - 8 * nb_fields_after)
    else if existsb (Z.eqb ty) [PERF_CUSTOM_EVENT_DEALLOCATION; PERF_CUSTOM_EVENT_CLEAR_LIVE_ALLOCATION;
                                PERF_CUSTOM_EVENT_ALLOCATION_TRACKER_STATE] then
      load 8 ev (sizeof_hdr + 8)
    else Some 0.

(** ** Buffer lemmas *)

(** [ev] continues with [rest] at offset [buf]. *)
Definition at_off (ev : list Z) (buf : Z) (rest : list Z) : Prop :=
  exists pre, ev = pre ++ rest /\ buf = Z.of_nat (length pre).

Lemma at_off_0 ev : at_off ev 0 ev.
Proof. by exists []. Qed.

Lemma at_off_skip ev buf a rest :
  at_off ev buf (a ++ rest) -> at_off ev (buf + Z.of_nat (length a)) rest.
Proof.
  intros (pre & -> & ->). exists (pre ++ a). rewrite <- app_assoc, length_app. split; [done|lia].
Qed.

Lemma load_at ev buf n bs rest : at_off ev buf (bs ++ rest) -> n = length bs -> load n ev buf = Some (le_val bs).
Proof.
  intros (pre & -> & ->) ->. unfold load. rewrite !length_app.
  destruct (Z.leb_spec 0 (Z.of_nat (length pre))); [|lia].
  destruct (Z.leb_spec (Z.of_nat (length pre) + Z.of_nat (length bs)) (Z.of_nat (length pre + (length bs + length rest)))); [|lia].
  cbn [andb]. rewrite Nat2Z.id, drop_app_length, take_app_length. done.
Qed.

Lemma load_word_at ev buf n x rest :
  at_off ev buf (le_bytes n x ++ rest) -> 0 <= x < 256 ^ Z.of_nat n ->
  load n ev buf = Some x /\ at_off ev (buf + Z.of_nat n) rest.
Proof.
  intros H Hx. split.
  - rewrite (load_at _ _ _ _ _ H) by (by rewrite length_le_bytes). by rewrite le_val_le_bytes.
  - apply at_off_skip in H. by rewrite length_le_bytes in H.
Qed.

Lemma get64_at mask flag ev buf old x rest :
  at_off ev buf ((if has mask flag then le_bytes 8 x else []) ++ rest) -> is_u64 x ->
  exists buf', get64 mask flag ev buf old = Some (if has mask flag then x else old, buf') /\ at_off ev buf' rest.
Proof.
  intros H Hx. unfold get64. destruct (has mask flag); [|by exists buf].
  destruct (load_word_at _ _ _ _ _ H Hx) as [-> Hat]. by eexists.
Qed.

Lemma get_halves_at mask flag ev buf old0 old1 x y rest :
  at_off ev buf ((if has mask flag then le_bytes 4 x ++ le_bytes 4 y else []) ++ rest) ->
  0 <= x < 2 ^ 32 -> 0 <= y < 2 ^ 32 ->
  exists buf', get_halves mask flag ev buf old0 old1
    = Some (if has mask flag then x else old0, if has mask flag then y else old1, buf') /\ at_off ev buf' rest.
Proof.
  intros H Hx Hy. unfold get_halves. destruct (has mask flag); [|by exists buf]. rewrite <- app_assoc in H.
  destruct (load_word_at _ _ _ _ _ H Hx) as [-> H1]. destruct (load_word_at _ _ _ _ _ H1 Hy) as [E2 H2].
  change (Z.of_nat 4) with 4 in *. rewrite E2. eexists. split; [done|].
  by replace (buf + 8) with (buf + 4 + 4) by lia.
Qed.

Lemma load_hdr_at ev h rest : ev = hdr_bytes h ++ rest ->
  0 <= h_type h < 2 ^ 32 -> 0 <= h_misc h < 2 ^ 16 -> 0 <= h_size h < 2 ^ 16 ->
  load_hdr ev = Some h /\ at_off ev sizeof_hdr rest.
Proof.
  intros -> Ht Hm Hs. unfold load_hdr, hdr_bytes.
  pose proof (at_off_0 ((le_bytes 4 (h_type h) ++ le_bytes 2 (h_misc h) ++ le_bytes 2 (h_size h)) ++ rest)) as H0.
  set (ev := _ ++ rest) in *. unfold ev at 2 in H0. rewrite <- !app_assoc in H0.
  destruct (load_word_at _ _ _ _ _ H0 Ht) as [E1 H1]. destruct (load_word_at _ _ _ _ _ H1 Hm) as [E2 H2].
  destruct (load_word_at _ _ _ _ _ H2 Hs) as [E3 H3]. rewrite E1.
  change (0 + Z.of_nat 4) with 4 in *. change (4 + Z.of_nat 2) with 6 in *. rewrite E2, E3. by destruct h.
Qed.

(** ** Time stamps *)

Lemma get64_buf mask flag ev buf old x buf' :
  get64 mask flag ev buf old = Some (x, buf') -> buf' = buf + 8 * Z.b2z (has mask flag).
Proof. unfold get64. destruct (has mask flag); [destruct (load 8 ev buf)|]; intros; simplify_eq/=; lia. Qed.

Lemma get_halves_buf mask flag ev buf old0 old1 x y buf' :
  get_halves mask flag ev buf old0 old1 = Some (x, y, buf') -> buf' = buf + 8 * Z.b2z (has mask flag).
Proof.
  unfold get_halves. destruct (has mask flag); [destruct (load 4 ev buf), (load 4 ev (buf + 4))|];
    intros; simplify_eq; cbn [Z.b2z]; lia.
Qed.

(** For a sample record, [hdr_time]'s shortcut (count the fields before the
    time) returns the time field that the full decoder [hdr2samp] returns, for
    every sample mask that has a time. *)
Theorem hdr_time_agrees_with_hdr2samp s ev mask ok s' :
  hdr2samp s ev mask = Some (ok, s') -> h_type (header s') = PERF_RECORD_SAMPLE ->
  has mask PERF_SAMPLE_TIME = true -> hdr_time ev mask = Some (time s').
Proof.
  unfold hdr2samp, hdr_time. intros H Hty Ht. rewrite Ht. cbn [negb].
  destruct (load_hdr ev) as [h|]; [|done].
  destruct (get64 mask PERF_SAMPLE_IDENTIFIER ev sizeof_hdr (sample_id s)) as [[x1 b1]|] eqn:E1; [|done].
  destruct (get64 mask PERF_SAMPLE_IP ev b1 (ip s)) as [[x2 b2]|] eqn:E2; [|done].
  destruct (get_halves mask PERF_SAMPLE_TID ev b2 (pid s) (tid s)) as [[[x3 x3'] b3]|] eqn:E3; [|done].
  destruct (get64 mask PERF_SAMPLE_TIME ev b3 (time s)) as [[x4 b4]|] eqn:E4; [|done].
  assert (Hrest : h = header s' /\ x4 = time s').
  { repeat (case_match; simplify_eq/=; try done). }
  destruct Hrest as [-> ->]. rewrite Hty, Z.eqb_refl.
  apply get64_buf in E1 as ->. apply get64_buf in E2 as ->.
  assert (b3 = sizeof_hdr + 8 * popcount [PERF_SAMPLE_IDENTIFIER; PERF_SAMPLE_IP; PERF_SAMPLE_TID] mask) as <-.
  { rewrite (get_halves_buf _ _ _ _ _ _ _ _ _ E3). unfold popcount. cbn [count_if].
    destruct (has mask PERF_SAMPLE_IDENTIFIER), (has mask PERF_SAMPLE_IP), (has mask PERF_SAMPLE_TID);
      cbn [Z.b2z]; lia. }
  unfold get64 in E4. rewrite Ht in E4. destruct (load 8 ev b3); by simplify_eq.
Qed.

(** The trailer the kernel appends to records other than samples
    ([perf_event_open], sample_id_all): the fields the mask selects. *)
Definition sample_id_trailer (mask pid tid time id stream_id cpu res : Z) : list Z :=
  (if has mask PERF_SAMPLE_TID then le_bytes 4 pid ++ le_bytes 4 tid else []) ++
  (if has mask PERF_SAMPLE_TIME then le_bytes 8 time else []) ++
  (if has mask PERF_SAMPLE_ID then le_bytes 8 id else []) ++
  (if has mask PERF_SAMPLE_STREAM_ID then le_bytes 8 stream_id else []) ++
  (if has mask PERF_SAMPLE_CPU then le_bytes 4 cpu ++ le_bytes 4 res else []) ++
  (if has mask PERF_SAMPLE_IDENTIFIER then le_bytes 8 id else []).

(** For MMAP, MMAP2, COMM, EXIT, FORK and LOST records of any body,
    [hdr_time] returns the time of the trailer, for every mask that has a time. *)
Theorem hdr_time_of_record_trailer ty misc body mask pid tid time id stream_id cpu res :
  let n := 8 + Z.of_nat (length body) + Z.of_nat (length (sample_id_trailer mask pid tid time id stream_id cpu res)) in
  ty ∈ [PERF_RECORD_MMAP; PERF_RECORD_MMAP2; PERF_RECORD_COMM; PERF_RECORD_EXIT; PERF_RECORD_FORK; PERF_RECORD_LOST] ->
  has mask PERF_SAMPLE_TIME = true -> is_u64 time -> 0 <= misc < 2 ^ 16 -> n < 2 ^ 16 ->
  hdr_time (hdr_bytes (mkHdr ty misc n) ++ body ++ sample_id_trailer mask pid tid time id stream_id cpu res) mask
  = Some time.
Proof.
  intros n Hty Ht Htime Hmisc Hn. set (tr := sample_id_trailer mask pid tid time id stream_id cpu res) in *.
  assert (Hty32 : 0 <= ty < 2 ^ 32 /\ existsb (Z.eqb ty) [PERF_RECORD_MMAP; PERF_RECORD_MMAP2; PERF_RECORD_COMM;
                                PERF_RECORD_EXIT; PERF_RECORD_FORK; PERF_RECORD_LOST] = true /\ ty <> PERF_RECORD_SAMPLE).
  { repeat (apply elem_of_cons in Hty as [->|Hty]; [done|]). by apply not_elem_of_nil in Hty. }
  destruct Hty32 as (Hty32 & Hex & Hns).
  destruct (load_hdr_at _ (mkHdr ty misc n) (body ++ tr) eq_refl) as [Eh Hat]; cbn [h_type h_misc h_size]; [lia..|].
  unfold hdr_time. rewrite Ht, Eh. cbn [negb h_type h_size]. rewrite Hex. destruct (Z.eqb_spec ty PERF_RECORD_SAMPLE); [done|].
  set (ev := hdr_bytes _ ++ _) in *. apply at_off_skip in Hat.
  assert (Hpos : exists rest, at_off ev (sizeof_hdr + Z.of_nat (length body)
     + Z.of_nat (length (if has mask PERF_SAMPLE_TID then le_bytes 4 pid ++ le_bytes 4 tid else []))) (le_bytes 8 time ++ rest) /\
     Z.of_nat (length (if has mask PERF_SAMPLE_TID then le_bytes 4 pid ++ le_bytes 4 tid else []))
     = Z.of_nat (length tr) - 8 * popcount [PERF_SAMPLE_TIME; PERF_SAMPLE_ID; PERF_SAMPLE_STREAM_ID; PERF_SAMPLE_CPU; PERF_SAMPLE_IDENTIFIER] mask).
  { unfold tr, sample_id_trailer in Hat |- *. apply at_off_skip in Hat. rewrite Ht in Hat |- *. eexists. split; [exact Hat|].
    rewrite !length_app, length_le_bytes. unfold popcount. cbn [count_if]. rewrite Ht.
    destruct (has mask PERF_SAMPLE_ID), (has mask PERF_SAMPLE_STREAM_ID), (has mask PERF_SAMPLE_CPU), (has mask PERF_SAMPLE_IDENTIFIER);
      rewrite ?length_app, ?length_le_bytes; cbn [length]; lia. }
  destruct Hpos as (rest & Hp & Hlen). destruct (load_word_at _ _ _ _ _ Hp Htime) as [<- _]. f_equal.
  unfold n, sizeof_hdr. lia.
Qed.

Lemma load_Some n ev off x : load n ev off = Some x -> Forall (fun b => 0 <= b < 256) ev ->
  0 <= off /\ off + Z.of_nat n <= Z.of_nat (length ev) /\ 0 <= x.
Proof.
  unfold load. intros E Hev. destruct (_ && _) eqn:Hb; [|done]. zbool. split; [done|]. split; [done|].
  injection E as <-. apply (Forall_drop _ (Z.to_nat off)), (Forall_take _ n) in Hev.
  clear -Hev. induction Hev; cbn [le_val]; lia.
Qed.

(** The user stack a decoded sample points to lies inside the event, whatever
    sizes the event announces. *)
Theorem hdr2samp_stack_in_event s ev mask s' d :
  hdr2samp s ev mask = Some (true, s') -> has mask PERF_SAMPLE_STACK_USER = true ->
  data_stack s' = Some d -> Forall (fun b => 0 <= b < 256) ev ->
  0 <= size_stack s' /\ 0 <= d /\ d + size_stack s' + 8 <= Z.of_nat (length ev).
Proof.
  unfold hdr2samp. intros H Hst Hd Hev. rewrite Hst in H.
  destruct (load_hdr ev) as [h|]; [|done].
  do 9 (match type of H with
        | match ?e with _ => _ end = _ => destruct e as [[? ?]|] || destruct e as [[[? ?] ?]|]
        end; [|discriminate H]; try match type of H with (let (_, _) := ?p in _) = _ => destruct p end).
  do 2 (match type of H with match ?e with _ => _ end = _ => destruct e as [[[? ?] ?]|] end; [|discriminate H]).
  match type of H with match ?e with _ => _ end = _ => destruct e as [[[[[] ?] ?] buf]|] end; [|discriminate H..].
  cbn [negb] in H. destruct (load 8 ev buf) as [sz|] eqn:Esz; [|discriminate H].
  destruct (load_Some _ _ _ _ Esz Hev) as (Hb & Hb2 & Hsz).
  destruct (Z.eqb_spec sz 0); [injection H as <-; discriminate Hd|].
  destruct (load 8 ev (buf + 8 + 8 * ((sz + 7) / 8))) as [dyn|] eqn:Edyn; [|discriminate H].
  destruct (load_Some _ _ _ _ Edyn Hev) as (_ & Hd2 & Hdyn).
  injection H as <-. cbn [data_stack size_stack] in *. injection Hd as <-.
  pose proof (Z.div_mod (sz + 7) 8). pose proof (Z.mod_pos_bound (sz + 7) 8).
  destruct (Z.ltb_spec sz dyn); lia.
Qed.

(** ** Encoding then decoding *)

(** The scalar fields [samp2hdr] and [hdr2samp] agree on: all but the CPU, after which the encoder
    does not advance. *)
Definition scalar_mask (mask : Z) : Prop :=
  has mask PERF_SAMPLE_CPU = false /\ has mask PERF_SAMPLE_READ = false /\
  has mask PERF_SAMPLE_CALLCHAIN = false /\ has mask PERF_SAMPLE_RAW = false /\
  has mask PERF_SAMPLE_REGS_USER = false /\ has mask PERF_SAMPLE_STACK_USER = false.

Definition sample_ok (s : perf_event_sample) : Prop :=
  0 <= h_type (header s) < 2 ^ 32 /\ 0 <= h_misc (header s) < 2 ^ 16 /\
  is_u64 (sample_id s) /\ is_u64 (ip s) /\ 0 <= pid s < 2 ^ 32 /\ 0 <= tid s < 2 ^ 32 /\
  is_u64 (time s) /\ is_u64 (addr s) /\ is_u64 (id s) /\ is_u64 (stream_id s) /\ is_u64 (period s).

(** The state of the encoder after writing [pre], if it has not stopped. *)
Definition wrote (pre : list Z) (st : option wr_state) : Prop :=
  match st with
  | Some (Go out buf sz) => exists z, out = pre ++ z /\ buf = Z.of_nat (length pre) /\ sz = buf
  | _ => True
  end.

Lemma store_append pre z bs out :
  store (pre ++ z) (Z.of_nat (length pre)) bs = Some out -> out = (pre ++ bs) ++ drop (length bs) z.
Proof.
  unfold store. destruct (_ && _); [|done]. rewrite Nat2Z.id, take_app_length. intros [= <-].
  rewrite drop_app_add. by rewrite app_assoc.
Qed.

Lemma wrote_put64 mask flag sz_hdr x pre st : wrote pre st ->
  wrote (pre ++ if has mask flag then le_bytes 8 x else []) (when_flag mask flag (put64 sz_hdr x) st).
Proof.
  destruct st as [[out buf sz|]|]; try done. intros (z & -> & -> & ->). unfold when_flag.
  destruct (has mask flag); [|rewrite app_nil_r; by exists z]. unfold put64.
  destruct (store _ _ _) as [out|] eqn:E; [|done]. apply store_append in E as ->.
  unfold size_check. destruct (_ <=? _); [done|]. eexists. split; [done|].
  rewrite length_app, length_le_bytes. lia.
Qed.

Lemma wrote_halves mask flag sz_hdr x y pre st : wrote pre st ->
  wrote (pre ++ if has mask flag then le_bytes 4 x ++ le_bytes 4 y else [])
        (when_flag mask flag (put_halves sz_hdr x y true) st).
Proof.
  destruct st as [[out buf sz|]|]; try done. intros (z & -> & -> & ->). unfold when_flag.
  destruct (has mask flag); [|rewrite app_nil_r; by exists z]. unfold put_halves.
  destruct (store _ _ _) as [out|] eqn:E; [|done]. apply store_append in E as ->.
  replace (Z.of_nat (length pre) + 4) with (Z.of_nat (length (pre ++ le_bytes 4 x)))
    by (rewrite length_app, length_le_bytes; lia).
  destruct (store _ _ _) as [out|] eqn:E; [|done]. apply store_append in E as ->.
  unfold size_check. destruct (_ <=? _); [done|]. rewrite app_assoc. eexists. split; [done|].
  rewrite !length_app, !length_le_bytes. lia.
Qed.

Lemma when_flag_off mask flag f st : has mask flag = false -> when_flag mask flag f st = st.
Proof. intros H. unfold when_flag. destruct st as [[]|]; by rewrite ?H. Qed.

(** The scalar fields in their order in the record. *)
Definition scalar_layout (mask : Z) (s : perf_event_sample) : list Z :=
  (if has mask PERF_SAMPLE_IDENTIFIER then le_bytes 8 (sample_id s) else []) ++
  (if has mask PERF_SAMPLE_IP then le_bytes 8 (ip s) else []) ++
  (if has mask PERF_SAMPLE_TID then le_bytes 4 (pid s) ++ le_bytes 4 (tid s) else []) ++
  (if has mask PERF_SAMPLE_TIME then le_bytes 8 (time s) else []) ++
  (if has mask PERF_SAMPLE_ADDR then le_bytes 8 (addr s) else []) ++
  (if has mask PERF_SAMPLE_ID then le_bytes 8 (id s) else []) ++
  (if has mask PERF_SAMPLE_STREAM_ID then le_bytes 8 (stream_id s) else []) ++
  (if has mask PERF_SAMPLE_PERIOD then le_bytes 8 (period s) else []).

Lemma length_hdr_bytes h : length (hdr_bytes h) = 8%nat.
Proof. done. Qed.

Lemma samp2hdr_layout hdr src s sz_hdr mask out :
  scalar_mask mask -> samp2hdr hdr src s sz_hdr mask = Some (true, out) ->
  exists size rest, 0 <= size < 2 ^ 16 /\
    out = hdr_bytes (mkHdr (h_type (header s)) (h_misc (header s)) size) ++ scalar_layout mask s ++ rest.
Proof.
  intros (F1 & F2 & F3 & F4 & F5 & F6) H. unfold samp2hdr in H. destruct (_ <? _); [done|].
  destruct (store hdr 0 _) as [out0|]; [|done].
  set (h0 := mkHdr (h_type (header s)) (h_misc (header s)) 0) in *.
  destruct (store out0 0 (hdr_bytes h0)) as [out1|] eqn:E1; [|done].
  apply (store_append []) in E1. cbn [app] in E1. destruct (_ <=? _); [done|].
  assert (W : wrote (hdr_bytes h0) (Some (Go out1 sizeof_hdr sizeof_hdr))) by (eexists; split; [exact E1|done]).
  rewrite (when_flag_off _ PERF_SAMPLE_STACK_USER) in H by done. rewrite (when_flag_off _ PERF_SAMPLE_REGS_USER) in H by done.
  rewrite (when_flag_off _ PERF_SAMPLE_RAW) in H by done. rewrite (when_flag_off _ PERF_SAMPLE_CALLCHAIN) in H by done.
  rewrite (when_flag_off _ PERF_SAMPLE_READ) in H by done. rewrite (when_flag_off _ PERF_SAMPLE_CPU) in H by done.
  apply (wrote_put64 mask PERF_SAMPLE_IDENTIFIER sz_hdr (sample_id s)) in W.
  apply (wrote_put64 mask PERF_SAMPLE_IP sz_hdr (ip s)) in W.
  apply (wrote_halves mask PERF_SAMPLE_TID sz_hdr (pid s) (tid s)) in W.
  apply (wrote_put64 mask PERF_SAMPLE_TIME sz_hdr (time s)) in W.
  apply (wrote_put64 mask PERF_SAMPLE_ADDR sz_hdr (addr s)) in W.
  apply (wrote_put64 mask PERF_SAMPLE_ID sz_hdr (id s)) in W.
  apply (wrote_put64 mask PERF_SAMPLE_STREAM_ID sz_hdr (stream_id s)) in W.
  apply (wrote_put64 mask PERF_SAMPLE_PERIOD sz_hdr (period s)) in W.
  destruct (when_flag mask PERF_SAMPLE_PERIOD _ _) as [[out2 buf sz|]|]; [|done..].
  destruct W as (z & -> & _ & _). rewrite <- !app_assoc in H.
  exists (u16 sz), z. split; [apply Z.mod_pos_bound; lia|].
  replace (hdr_bytes h0) with (take 6 (hdr_bytes h0) ++ drop 6 (hdr_bytes h0)) in H by done.
  rewrite <- app_assoc in H. destruct (store _ _ _) as [o|] eqn:E; [|done]. injection H as <-.
  apply (store_append (take 6 (hdr_bytes h0))) in E. rewrite E. unfold scalar_layout. by rewrite <- !app_assoc.
Qed.

(** Decoding what [samp2hdr] encoded gives the sample back: for every mask of
    scalar fields other than [PERF_SAMPLE_CPU], every sample whose fields are in the
    range of their types and every buffer the encoder accepts, each selected field
    is the sample's and the others keep the value they had. *)
Theorem samp2hdr_hdr2samp_roundtrip hdr src s sz_hdr mask out s0 :
  scalar_mask mask -> sample_ok s -> samp2hdr hdr src s sz_hdr mask = Some (true, out) ->
  exists s', hdr2samp s0 out mask = Some (true, s') /\
    sample_id s' = (if has mask PERF_SAMPLE_IDENTIFIER then sample_id s else sample_id s0) /\
    ip s' = (if has mask PERF_SAMPLE_IP then ip s else ip s0) /\
    pid s' = (if has mask PERF_SAMPLE_TID then pid s else pid s0) /\
    tid s' = (if has mask PERF_SAMPLE_TID then tid s else tid s0) /\
    time s' = (if has mask PERF_SAMPLE_TIME then time s else time s0) /\
    addr s' = (if has mask PERF_SAMPLE_ADDR then addr s else addr s0) /\
    id s' = (if has mask PERF_SAMPLE_ID then id s else id s0) /\
    stream_id s' = (if has mask PERF_SAMPLE_STREAM_ID then stream_id s else stream_id s0) /\
    period s' = (if has mask PERF_SAMPLE_PERIOD then period s else period s0).
Proof.
  intros Hm Hok Henc. destruct (samp2hdr_layout _ _ _ _ _ _ Hm Henc) as (size & rest & Hsz & ->).
  destruct Hm as (F1 & F2 & F3 & F4 & F5 & F6).
  destruct Hok as (K1 & K2 & K3 & K4 & K5 & K6 & K7 & K8 & K9 & K10 & K11).
  destruct (load_hdr_at _ (mkHdr (h_type (header s)) (h_misc (header s)) size) (scalar_layout mask s ++ rest) eq_refl) as [Eh A];
    [done..|]. set (ev := hdr_bytes _ ++ _) in *. unfold scalar_layout in A. rewrite <- !app_assoc in A.
  unfold hdr2samp. rewrite Eh.
  destruct (get64_at _ _ _ _ (sample_id s0) _ _ A K3) as (b1 & -> & A1).
  destruct (get64_at _ _ _ _ (ip s0) _ _ A1 K4) as (b2 & -> & A2).
  destruct (get_halves_at _ _ _ _ (pid s0) (tid s0) _ _ _ A2 K5 K6) as (b3 & -> & A3).
  destruct (get64_at _ _ _ _ (time s0) _ _ A3 K7) as (b4 & -> & A4).
  destruct (get64_at _ _ _ _ (addr s0) _ _ A4 K8) as (b5 & -> & A5).
  destruct (get64_at _ _ _ _ (id s0) _ _ A5 K9) as (b6 & -> & A6).
  destruct (get64_at _ _ _ _ (stream_id s0) _ _ A6 K10) as (b7 & -> & A7).
  unfold get_halves. rewrite F1.
  destruct (get64_at _ _ _ _ (period s0) _ _ A7 K11) as (b8 & -> & A8).
  rewrite F2, F3, F4, F5, F6. eexists. split; [reflexivity|]. done.
Qed.

(** ** Concrete events *)

Definition demo_sample : perf_event_sample :=
  mkSample (mkHdr PERF_RECORD_SAMPLE 2 0) 11 12 100 101 123456 77 13 14 3 0 999 None 0 None 0 None 0 None 0 None 0.
Definition zero_sample : perf_event_sample :=
  mkSample (mkHdr 0 0 0) 0 0 0 0 0 0 0 0 0 0 0 None 0 None 0 None 0 None 0 None 0.
Definition demo_mask : Z := PERF_SAMPLE_TID + PERF_SAMPLE_TIME + PERF_SAMPLE_ADDR + PERF_SAMPLE_PERIOD.
Definition demo_bytes : list Z :=
  match samp2hdr (replicate 64 255) [] demo_sample 64 demo_mask with Some (_, out) => out | None => [] end.

Lemma hdr_time_agrees_with_hdr2samp_witness : hdr_time demo_bytes demo_mask = Some 123456.
Proof.
  destruct (hdr2samp zero_sample demo_bytes demo_mask) as [[ok s']|] eqn:E; [|vm_compute in E; discriminate E].
  pose proof (hdr_time_agrees_with_hdr2samp zero_sample demo_bytes demo_mask ok s' E) as H.
  assert (E' := E). vm_compute in E'. injection E' as <- <-. exact (H eq_refl eq_refl).
Defined.

Lemma hdr_time_of_record_trailer_witness :
  hdr_time (hdr_bytes (mkHdr PERF_RECORD_FORK 0 48)
            ++ replicate 24 7 ++ sample_id_trailer demo_mask 1 1 4242 0 0 0 0) demo_mask = Some 4242.
Proof.
  apply (hdr_time_of_record_trailer PERF_RECORD_FORK 0 (replicate 24 7) demo_mask 1 1 4242 0 0 0 0).
  - apply list_elem_of_In. cbn. tauto.
  - reflexivity.
  - unfold is_u64. lia.
  - lia.
  - vm_compute. reflexivity.
Defined.

Lemma bytes_forallb ev : forallb (fun b => (0 <=? b) && (b <? 256)) ev = true -> Forall (fun b => 0 <= b < 256) ev.
Proof. intros H. apply Forall_forall. intros b Hb. apply list_elem_of_In in Hb.
  rewrite forallb_forall in H. specialize (H b Hb). zbool. lia.
Qed.

(** A stack record that announces 16 bytes of stack, of which 12 are valid. *)
Definition demo_stack_event : list Z :=
  hdr_bytes (mkHdr PERF_RECORD_SAMPLE 2 40) ++ le_bytes 8 16 ++ replicate 16 5 ++ le_bytes 8 12.

Lemma hdr2samp_stack_in_event_witness : exists s',
  hdr2samp zero_sample demo_stack_event PERF_SAMPLE_STACK_USER = Some (true, s') /\ size_stack s' = 12 /\
  16 + size_stack s' + 8 <= Z.of_nat (length demo_stack_event).
Proof.
  destruct (hdr2samp zero_sample demo_stack_event PERF_SAMPLE_STACK_USER) as [[ok s']|] eqn:E;
    [|vm_compute in E; discriminate E].
  assert (E' := E). vm_compute in E'. injection E' as <- <-. eexists. split; [reflexivity|]. split; [reflexivity|].
  destruct (hdr2samp_stack_in_event _ _ _ _ 16 E) as (_ & _ & H); [reflexivity|reflexivity| |exact H].
  apply bytes_forallb. vm_compute. reflexivity.
Defined.

Lemma samp2hdr_hdr2samp_roundtrip_witness : exists s',
  hdr2samp zero_sample demo_bytes demo_mask = Some (true, s') /\ pid s' = 100 /\ time s' = 123456 /\ ip s' = 0.
Proof.
  destruct (samp2hdr_hdr2samp_roundtrip (replicate 64 255) [] demo_sample 64 demo_mask demo_bytes zero_sample)
    as (s' & E & _ & Hip & Hpid & _ & Ht & _).
  - repeat split.
  - unfold sample_ok, is_u64. cbn [demo_sample header h_type h_misc sample_id ip pid tid time addr id stream_id period].
    unfold PERF_RECORD_SAMPLE. lia.
  - vm_compute. reflexivity.
  - exists s'. split; [exact E|]. split; [exact Hpid|]. split; [exact Ht|exact Hip].
Defined.

(** Encoded with CPU and PERIOD, the period overwrites the cpu word. *)
Example samp2hdr_cpu_overwritten :
  (let? (_, out) := samp2hdr (replicate 64 0) [] demo_sample 64 (PERF_SAMPLE_CPU + PERF_SAMPLE_PERIOD) in
   let? (_, s') := hdr2samp zero_sample out (PERF_SAMPLE_CPU + PERF_SAMPLE_PERIOD) in
   Some (cpu s', period s'))
  = Some (999, 0).
Proof. vm_compute. reflexivity. Qed.

(** A call chain of two addresses is encoded with their first two bytes only. *)
Example samp2hdr_callchain_truncated :
  let s := mkSample (header demo_sample) 0 0 0 0 0 0 0 0 0 0 0 None 2 (Some 0) 0 None 0 None 0 None 0 in
  (let? (_, out) := samp2hdr (replicate 64 0) (le_bytes 8 1193046 ++ le_bytes 8 7) s 64 PERF_SAMPLE_CALLCHAIN in
   let? (_, s') := hdr2samp zero_sample out PERF_SAMPLE_CALLCHAIN in
   let? p := ips s' in let? a := load 8 out p in let? b := load 8 out (p + 8) in Some (nr s', a, b))
  = Some (2, 13398, 0).
Proof. vm_compute. reflexivity. Qed.
