(* ===== verification/LiveAlloc.v ===== *)
(** * Live allocations

    Model of [include/live_allocation.hpp] and [src/live_allocation.cc]: per
    watcher and process, the profiler keeps the live addresses and, per unique
    stack, the aggregated size and count.  An address points at the node of its
    stack inside the [unordered_map]; nodes are modelled as a heap indexed by node
    identifiers, so that erasing a stack leaves dangling pointers behind if the
    code lets it happen (following one is undefined, [None]). *)

From S2P Require Import Prelude.

(** ** Stacks *)

Record FunLoc := mkFunLoc {
  fl_ip : Z; fl_elf_addr : Z; fl_file_info_id : Z; fl_symbol_idx : Z; fl_map_info_idx : Z
}.
Record UnwindOutput := mkUO {
  locs : list FunLoc; container_id : string; exe_name : string; thread_name : string;
  uo_pid : Z; uo_tid : Z
}.

#[export] Instance FunLoc_eq_dec : EqDecision FunLoc.
Proof. solve_decision. Defined.
#[export] Instance FunLoc_countable : Countable FunLoc.
Proof.
  apply (inj_countable' (fun f => (fl_ip f, fl_elf_addr f, fl_file_info_id f, fl_symbol_idx f, fl_map_info_idx f))
           (fun '(a, b, c, d, e) => mkFunLoc a b c d e)).
  by intros [].
Defined.
#[export] Instance UnwindOutput_eq_dec : EqDecision UnwindOutput.
Proof. solve_decision. Defined.
#[export] Instance UnwindOutput_countable : Countable UnwindOutput.
Proof.
  apply (inj_countable' (fun u => (locs u, container_id u, exe_name u, thread_name u, uo_pid u, uo_tid u))
           (fun '(a, b, c, d, e, f) => mkUO a b c d e f)).
  by intros [].
Defined.

(** ** State *)

Record ValueAndCount := mkVC { vc_value : Z; vc_count : Z }.
Record ValuePerAddress := mkVPA { vpa_value : Z; vpa_stack : option nat }.

Record PidStacks := mkPS {
  address_map : gmap Z ValuePerAddress;
  unique_stacks : gmap UnwindOutput nat;                  (* stack -> its node *)
  nodes : gmap nat (UnwindOutput * ValueAndCount);        (* the nodes of the map *)
  next_node : nat;
  address_conflict_count : Z;
  tracked_address_count : Z
}.
Definition empty_PidStacks : PidStacks := mkPS ∅ ∅ ∅ 0 0 0.

Definition set_maps (ps : PidStacks) am us ns nx : PidStacks :=
  mkPS am us ns nx (address_conflict_count ps) (tracked_address_count ps).

Record Stats := mkStats { unmatched_deallocations : Z; already_existing_allocations : Z }.
Record LiveAllocation := mkLA { watcher_vector : list (gmap Z PidStacks); stats : Stats }.

(** ** Operations on one process *)

(** Take the value [v] off the node [n]. *)
Definition decrement_node (ns : gmap nat (UnwindOutput * ValueAndCount)) (n : nat) (v : Z) :
    option (gmap nat (UnwindOutput * ValueAndCount) * UnwindOutput * Z) :=
  let? (u, vc) := ns !! n in
  let c := if vc_count vc =? 0 then 0 else i64 (vc_count vc - 1) in
  Some (<[n := (u, mkVC (i64 (vc_value vc - v)) c)]> ns, u, c).

(** [stacks.erase(key)]: drop the key and the node it designates. *)
Definition erase_stack (us : gmap UnwindOutput nat) (ns : gmap nat (UnwindOutput * ValueAndCount)) (u : UnwindOutput) :=
  match us !! u with
  | Some n => (delete u us, delete n ns)
  | None => (us, ns)
  end.

Definition register_deallocation_ps (address : Z) (ps : PidStacks) : option (bool * PidStacks) :=
  match address_map ps !! address with
  | None => Some (false, ps)
  | Some v =>
      let? (us, ns) :=
        match vpa_stack v with
        | None => Some (unique_stacks ps, nodes ps)
        | Some n =>
            let? (ns1, u, c) := decrement_node (nodes ps) n (vpa_value v) in
            Some (if c =? 0 then erase_stack (unique_stacks ps) ns1 u else (unique_stacks ps, ns1))
        end in
      Some (true, set_maps ps (delete address (address_map ps)) us ns (next_node ps))
  end.

(** [stacks.find(uo)], or [emplace] of an empty aggregate. *)
Definition find_or_emplace (ps : PidStacks) (uo : UnwindOutput) :
    nat * gmap UnwindOutput nat * gmap nat (UnwindOutput * ValueAndCount) * nat :=
  match unique_stacks ps !! uo with
  | Some n => (n, unique_stacks ps, nodes ps, next_node ps)
  | None => (next_node ps, <[uo := next_node ps]> (unique_stacks ps),
             <[next_node ps := (uo, mkVC 0 0)]> (nodes ps), S (next_node ps))
  end.

(** The result, whether an allocation was already there, and the new state. *)
Definition register_allocation_ps (uo : UnwindOutput) (address value : Z) (ps : PidStacks) :
    option (bool * bool * PidStacks) :=
  match locs uo with
  | [] => Some (false, false, ps)
  | _ =>
      let '(unique, us, ns, nx) := find_or_emplace ps uo in
      let v := default (mkVPA 0 None) (address_map ps !! address) in
      let? (existing, us, ns) :=
        if vpa_value v =? 0 then Some (false, us, ns)
        else
          match vpa_stack v with
          | None => Some (true, us, ns)
          | Some n =>
              let? (ns1, u, c) := decrement_node ns n (vpa_value v) in
              let '(us2, ns2) := if negb (n =? unique)%nat && (c =? 0) then erase_stack us ns1 u else (us, ns1) in
              Some (true, us2, ns2)
          end in
      let? (u, vc) := ns !! unique in
      let ns := <[unique := (u, mkVC (i64 (vc_value vc + value)) (i64 (vc_count vc + 1)))]> ns in
      Some (true, existing, set_maps ps (<[address := mkVPA value (Some unique)]> (address_map ps)) us ns nx)
  end.

(** ** The class *)

(** [access_resize]: the vector grown so that [index] exists. *)
Definition access_resize (w : list (gmap Z PidStacks)) (index : nat) : list (gmap Z PidStacks) :=
  if (length w <=? index)%nat then w ++ replicate (S index - length w) ∅ else w.

(** The vector and process entry an operation starts from ([pid_map[pid]]). *)
Definition pid_entry (la : LiveAllocation) (watcher_pos : nat) (pid : Z) : list (gmap Z PidStacks) * gmap Z PidStacks * PidStacks :=
  let w := access_resize (watcher_vector la) watcher_pos in
  let pm := default ∅ (w !! watcher_pos) in
  (w, pm, default empty_PidStacks (pm !! pid)).

Definition register_library_state (la : LiveAllocation) (watcher_pos : nat) (pid conflicts tracked : Z) : LiveAllocation :=
  let '(w, pm, ps) := pid_entry la watcher_pos pid in
  let ps := mkPS (address_map ps) (unique_stacks ps) (nodes ps) (next_node ps) conflicts tracked in
  mkLA (<[watcher_pos := <[pid := ps]> pm]> w) (stats la).

Definition register_allocation (la : LiveAllocation) (uo : UnwindOutput) (addr size : Z) (watcher_pos : nat) (pid : Z) :
    option LiveAllocation :=
  let '(w, pm, ps) := pid_entry la watcher_pos pid in
  let? (_, existing, ps') := register_allocation_ps uo addr (i64 size) ps in
  Some (mkLA (<[watcher_pos := <[pid := ps']> pm]> w)
         (if existing : bool
          then mkStats (unmatched_deallocations (stats la)) (u32 (already_existing_allocations (stats la) + 1))
          else stats la)).

Definition register_deallocation (la : LiveAllocation) (addr : Z) (watcher_pos : nat) (pid : Z) : option LiveAllocation :=
  let '(w, pm, ps) := pid_entry la watcher_pos pid in
  let? (ok, ps') := register_deallocation_ps addr ps in
  Some (mkLA (<[watcher_pos := <[pid := ps']> pm]> w)
         (if ok : bool then stats la
          else mkStats (u32 (unmatched_deallocations (stats la) + 1)) (already_existing_allocations (stats la)))).

Definition clear_pid_for_watcher (la : LiveAllocation) (watcher_pos : nat) (pid : Z) : LiveAllocation :=
  let '(w, pm, _) := pid_entry la watcher_pos pid in
  mkLA (<[watcher_pos := delete pid pm]> w) (stats la).

Definition clear_pid (la : LiveAllocation) (pid : Z) : LiveAllocation :=
  mkLA (map (delete pid) (watcher_vector la)) (stats la).

Definition cycle (la : LiveAllocation) : LiveAllocation := mkLA (watcher_vector la) (mkStats 0 0).

(** ** Invariant and abstraction *)

Definition refs (n : nat) (v : ValuePerAddress) : Z := if decide (vpa_stack v = Some n) then 1 else 0.
Definition refs_value (n : nat) (v : ValuePerAddress) : Z := if decide (vpa_stack v = Some n) then vpa_value v else 0.

(** Stacks and nodes correspond one to one; every address points at a node; a
    node's count and value are those of the addresses that point at it, and it is
    pointed at. *)
Record ps_inv (ps : PidStacks) : Prop := {
  pv_fwd : forall u n, unique_stacks ps !! u = Some n -> exists vc, nodes ps !! n = Some (u, vc);
  pv_bwd : forall u n vc, nodes ps !! n = Some (u, vc) -> unique_stacks ps !! u = Some n;
  pv_next : forall n x, nodes ps !! n = Some x -> (n < next_node ps)%nat;
  pv_addr : forall a v, address_map ps !! a = Some v ->
              vpa_value v <> 0 /\ exists n x, vpa_stack v = Some n /\ nodes ps !! n = Some x;
  pv_count : forall n u vc, nodes ps !! n = Some (u, vc) ->
              vc_count vc = msum (refs n) (address_map ps) /\ 0 < vc_count vc /\
              vc_value vc = i64 (msum (refs_value n) (address_map ps))
}.

(** What the client sees: the stack and value of each live address. *)
Definition live (ps : PidStacks) : gmap Z (UnwindOutput * Z) :=
  omap (fun v => let? n := vpa_stack v in let? (u, _) := nodes ps !! n in Some (u, vpa_value v)) (address_map ps).

(** The invariant while an operation is under way: the node [z] may be unused. *)
Record gen_inv (us : gmap UnwindOutput nat) (ns : gmap nat (UnwindOutput * ValueAndCount)) (nx : nat)
    (am : gmap Z ValuePerAddress) (z : option nat) : Prop := {
  gi_fwd : forall u n, us !! u = Some n -> exists vc, ns !! n = Some (u, vc);
  gi_bwd : forall u n vc, ns !! n = Some (u, vc) -> us !! u = Some n;
  gi_next : forall n x, ns !! n = Some x -> (n < nx)%nat;
  gi_addr : forall a v, am !! a = Some v -> vpa_value v <> 0 /\ exists n x, vpa_stack v = Some n /\ ns !! n = Some x;
  gi_count : forall n u vc, ns !! n = Some (u, vc) ->
              vc_count vc = msum (refs n) am /\ (z <> Some n -> 0 < vc_count vc) /\
              vc_value vc = i64 (msum (refs_value n) am)
}.

Lemma ps_inv_gen ps : ps_inv ps <-> gen_inv (unique_stacks ps) (nodes ps) (next_node ps) (address_map ps) None.
Proof.
  split; intros [H1 H2 H3 H4 H5]; split; try done; intros n u vc Hn; destruct (H5 n u vc Hn) as (? & Hp & ?);
    (split; [done|split; [|done]]).
  - done.
  - by apply Hp.
Qed.

Lemma refs_nonneg n v : 0 <= refs n v.
Proof. unfold refs. case_decide; lia. Qed.

(** Number of references to a node is at most the number of addresses. *)
Lemma msum_refs_bound n (am : gmap Z ValuePerAddress) : 0 <= msum (refs n) am <= Z.of_nat (size am).
Proof.
  split; [apply msum_nonneg, refs_nonneg|]. unfold msum. rewrite <- length_map_to_list.
  induction (map_to_list am) as [|[a v] l IH]; cbn [map zsum snd length]; [lia|].
  unfold refs at 1. case_decide; lia.
Qed.

Lemma i64_i64_add x y : i64 (i64 x + y) = i64 (x + y).
Proof.
  unfold i64. replace ((x + 2 ^ 63) mod 2 ^ 64 - 2 ^ 63 + y + 2 ^ 63) with ((x + 2 ^ 63) mod 2 ^ 64 + y) by lia.
  rewrite Zplus_mod_idemp_l. do 2 f_equal. lia.
Qed.

(** Nodes keep their stack. *)
Definition same_stacks (ns ns' : gmap nat (UnwindOutput * ValueAndCount)) : Prop :=
  forall n u vc u' vc', ns !! n = Some (u, vc) -> ns' !! n = Some (u', vc') -> u' = u.

(** [ns'] has only nodes of [ns]. *)
Definition sub_stacks (ns ns' : gmap nat (UnwindOutput * ValueAndCount)) : Prop :=
  forall n u vc, ns' !! n = Some (u, vc) -> exists vc0, ns !! n = Some (u, vc0).

Lemma renew_node ns n u vc vc' : ns !! n = Some (u, vc) ->
  sub_stacks ns (<[n := (u, vc')]> ns) /\ sub_stacks (<[n := (u, vc')]> ns) ns.
Proof.
  intros Hn. split; intros k u' w Hk.
  - apply lookup_insert_Some in Hk as [[<- [= <- <-]]|[_ Hk]]; by eexists.
  - destruct (decide (k = n)) as [->|]; [rewrite lookup_insert_eq; simplify_eq|rewrite lookup_insert_ne by done]; by eexists.
Qed.

(** Counts and values of the nodes agree with the addresses; [z] and [n] may be
    unused. *)
Definition counted (ns : gmap nat (UnwindOutput * ValueAndCount)) (am : gmap Z ValuePerAddress) (z : option nat) (n : nat) : Prop :=
  forall k u vc, ns !! k = Some (u, vc) ->
    vc_count vc = msum (refs k) am /\ (k <> n -> z <> Some k -> 0 < vc_count vc) /\ vc_value vc = i64 (msum (refs_value k) am).

Lemma decrement_counts us ns nx am z a v n u vc : gen_inv us ns nx am z -> am !! a = Some v -> vpa_stack v = Some n ->
  ns !! n = Some (u, vc) ->
  counted (<[n := (u, mkVC (i64 (vc_value vc - vpa_value v)) (vc_count vc - 1))]> ns) (delete a am) z n.
Proof.
  intros [_ _ _ _ H5] Ha Hn Hns k u' vc' Hk. destruct (decide (k = n)) as [->|Hne].
  - rewrite lookup_insert_eq in Hk. simplify_eq. cbn [vc_count vc_value]. destruct (H5 _ _ _ Hns) as (Hc & _ & Hval).
    rewrite Hc, Hval. unfold Z.sub. rewrite i64_i64_add, (msum_delete (refs n) am a v Ha), (msum_delete (refs_value n) am a v Ha).
    unfold refs at 1, refs_value at 1. rewrite !decide_True by done. split; [lia|]. split; [done|]. f_equal. lia.
  - rewrite lookup_insert_ne in Hk by done. destruct (H5 _ _ _ Hk) as (E1 & E2 & E3).
    rewrite (msum_delete (refs k) am a v Ha) in E1. rewrite (msum_delete (refs_value k) am a v Ha) in E3.
    unfold refs at 1 in E1. unfold refs_value at 1 in E3. rewrite decide_False in E1, E3 by congruence.
    split; [lia|]. split; [by intros _|]. by rewrite Z.add_0_l in E3.
Qed.

(** Nodes renewed, addresses removed. *)
Lemma gen_inv_renew us ns ns1 nx am z a n : gen_inv us ns nx am z -> sub_stacks ns ns1 -> sub_stacks ns1 ns ->
  counted ns1 (delete a am) z n -> (z <> Some n -> forall u vc, ns1 !! n = Some (u, vc) -> 0 < vc_count vc) ->
  gen_inv us ns1 nx (delete a am) z.
Proof.
  intros [H1 H2 H3 H4 H5] Hlook Hdom Hcount Hpos. split.
  - intros u' k Hk. destruct (H1 _ _ Hk) as [vc' Hk']. by eapply Hdom.
  - intros u' k vc' Hk. destruct (Hlook _ _ _ Hk) as [vc0 Hk0]. by eapply H2.
  - intros k [u' vc'] Hk. destruct (Hlook _ _ _ Hk) as [vc0 Hk0]. by eapply H3.
  - intros b w Hb'. apply lookup_delete_Some in Hb' as [_ Hb']. destruct (H4 _ _ Hb') as (? & k & [u' vc'] & Hk & Hk').
    split; [done|]. destruct (Hdom _ _ _ Hk') as [vc2 ?]. by eexists _, _.
  - intros k u' vc' Hk. destruct (Hcount _ _ _ Hk) as (E1 & E2 & E3). split; [done|]. split; [|done].
    intros Hzk. destruct (decide (k = n)) as [->|Hne]; [by eapply Hpos|by apply E2].
Qed.

(** A node that no address points at is dropped with its stack. *)
Lemma gen_inv_drop us ns ns1 nx am z a n u vc : gen_inv us ns nx am z -> sub_stacks ns ns1 -> sub_stacks ns1 ns ->
  counted ns1 (delete a am) z n -> ns !! n = Some (u, vc) -> msum (refs n) (delete a am) = 0 ->
  gen_inv (delete u us) (delete n ns1) nx (delete a am) z.
Proof.
  intros [H1 H2 H3 H4 H5] Hlook Hdom Hcount Hns Hzero.
  assert (Huniq : forall u' k vc', ns1 !! k = Some (u', vc') -> k <> n -> u' <> u).
  { intros u' k vc' Hk Hne ->. destruct (Hlook _ _ _ Hk) as [vc0 Hk0]. apply H2 in Hk0. apply H2 in Hns. congruence. }
  split.
  - intros u' k Hk. apply lookup_delete_Some in Hk as [Hu Hk]. destruct (H1 _ _ Hk) as [vc' Hk'].
    destruct (Hdom _ _ _ Hk') as [vc2 Hk2]. exists vc2. rewrite lookup_delete_ne; [done|]. intros <-. congruence.
  - intros u' k vc' Hk. apply lookup_delete_Some in Hk as [Hne Hk]. rewrite lookup_delete_ne.
    + destruct (Hlook _ _ _ Hk) as [vc0 Hk0]. by eapply H2.
    + intros <-. by apply (Huniq u k vc' Hk).
  - intros k [u' vc'] Hk. apply lookup_delete_Some in Hk as [_ Hk]. destruct (Hlook _ _ _ Hk) as [vc0 Hk0]. by eapply H3.
  - intros b w Hb'. pose proof Hb' as Hbd. apply lookup_delete_Some in Hb' as [Hba Hb'].
    destruct (H4 _ _ Hb') as (? & k & [u' vc'] & Hk & Hk').
    split; [done|]. destruct (Hdom _ _ _ Hk') as [vc2 ?]. exists k, (u', vc2). split; [done|].
    rewrite lookup_delete_ne; [done|]. intros <-. pose proof (msum_delete (refs n) (delete a am) b w Hbd) as Hd2.
    pose proof (msum_nonneg (refs n) (delete b (delete a am)) (refs_nonneg n)).
    assert (refs n w = 1) by (unfold refs; by rewrite decide_True). lia.
  - intros k u' vc' Hk. apply lookup_delete_Some in Hk as [Hne Hk].
    destruct (Hcount _ _ _ Hk) as (E1 & E2 & E3). split; [done|]. split; [|done]. intros. by apply E2.
Qed.

(** Taking an address off its node. *)
Lemma decrement_inv us ns nx am z a v n :
  gen_inv us ns nx am z -> am !! a = Some v -> vpa_stack v = Some n -> Z.of_nat (size am) < 2 ^ 62 ->
  exists ns1 u c, decrement_node ns n (vpa_value v) = Some (ns1, u, c) /\ sub_stacks ns ns1 /\
    us !! u = Some n /\ (exists vc, ns1 !! n = Some (u, vc)) /\
    (z = Some n \/ c <> 0 -> gen_inv us ns1 nx (delete a am) z) /\
    (z <> Some n -> c = 0 -> gen_inv (delete u us) (delete n ns1) nx (delete a am) z).
Proof.
  intros H Ha Hn Hsz. destruct (gi_addr _ _ _ _ _ H a v Ha) as (Hv & n' & [u vc] & Hn' & Hns).
  rewrite Hn in Hn'. simplify_eq. destruct (gi_count _ _ _ _ _ H _ _ _ Hns) as (Hc & _ & _).
  pose proof (msum_refs_bound n' am) as Hb. pose proof (msum_delete (refs n') am a v Ha) as Hd.
  assert (Hr1 : refs n' v = 1) by (unfold refs; by rewrite decide_True).
  pose proof (msum_nonneg (refs n') (delete a am) (refs_nonneg n')) as Hpos.
  unfold decrement_node. rewrite Hns. destruct (Z.eqb_spec (vc_count vc) 0); [lia|].
  rewrite (i64_small (vc_count vc - 1)) by lia. pose proof (decrement_counts _ _ _ _ _ _ _ _ _ _ H Ha Hn Hns) as Hcount.
  set (vc' := mkVC _ _) in *. destruct (renew_node ns n' u vc vc' Hns) as [Hlook Hdom]. set (ns1 := <[n' := _]> ns) in *.
  assert (Hn1 : ns1 !! n' = Some (u, vc')) by apply lookup_insert_eq.
  exists ns1, u, (vc_count vc - 1). split; [done|]. split; [done|]. split; [by eapply (gi_bwd _ _ _ _ _ H)|].
  split; [by eexists|]. split.
  - intros Hz. eapply gen_inv_renew; [exact H|done..|]. intros Hzn u' w Hw. rewrite Hn1 in Hw. injection Hw as _ <-.
    unfold vc'. cbn [vc_count]. destruct Hz as [?|?]; [done|lia].
  - intros _ Hc0. eapply gen_inv_drop; [exact H|done..|lia].
Qed.

(** Adding an address to the node under construction. *)
Lemma increment_inv us ns nx am unique u vc a value :
  gen_inv us ns nx am (Some unique) -> ns !! unique = Some (u, vc) -> am !! a = None -> value <> 0 ->
  Z.of_nat (size am) < 2 ^ 62 ->
  gen_inv us (<[unique := (u, mkVC (i64 (vc_value vc + value)) (i64 (vc_count vc + 1)))]> ns) nx
    (<[a := mkVPA value (Some unique)]> am) None.
Proof.
  intros [H1 H2 H3 H4 H5] Hu Ha Hv Hsz. destruct (H5 _ _ _ Hu) as (Hc & _ & Hval).
  pose proof (msum_refs_bound unique am) as Hb. rewrite (i64_small (vc_count vc + 1)) by lia.
  split.
  - intros u' k Hk. destruct (H1 _ _ Hk) as [vc' Hk']. destruct (decide (k = unique)) as [->|Hne].
    + rewrite lookup_insert_eq. simplify_eq. by eexists.
    + rewrite lookup_insert_ne by done. by eexists.
  - intros u' k vc' Hk. apply lookup_insert_Some in Hk as [[<- ?]|[_ Hk]]; simplify_eq; by eapply H2.
  - intros k x Hk. apply lookup_insert_Some in Hk as [[<- ?]|[_ Hk]]; by eapply H3.
  - intros b w Hb'. apply lookup_insert_Some in Hb' as [[<- <-]|[_ Hb']].
    + split; [done|]. eexists _, _. split; [done|]. apply lookup_insert_eq.
    + destruct (H4 _ _ Hb') as (? & k & x & Hk & Hk'). split; [done|].
      destruct (decide (k = unique)) as [->|Hne]; eexists _, _; (split; [done|]).
      * apply lookup_insert_eq.
      * by rewrite lookup_insert_ne.
  - intros k u' vc' Hk. rewrite !msum_insert by done. apply lookup_insert_Some in Hk as [[<- ?]|[Hne Hk]]; simplify_eq.
    + cbn [vc_count vc_value]. unfold refs at 1, refs_value at 1. rewrite !decide_True by done. cbn [vpa_value].
      split; [lia|]. split; [lia|]. rewrite Hval, i64_i64_add. f_equal. lia.
    + destruct (H5 _ _ _ Hk) as (E1 & E2 & E3). unfold refs at 1, refs_value at 1. cbn [vpa_stack].
      rewrite !decide_False by congruence. rewrite !Z.add_0_l. split; [done|]. split; [|done]. intros _. apply E2. congruence.
Qed.

(** ** The operations preserve the invariant and refine the map of live addresses *)

Lemma size_delete_le {A} (m : gmap Z A) k : (size (delete k m) <= size m)%nat.
Proof. rewrite map_size_delete. destruct (m !! k); simpl; lia. Qed.

Lemma size_insert_le {A} (m : gmap Z A) k x : (size (<[k := x]> m) <= size m + 1)%nat.
Proof. rewrite map_size_insert. destruct (m !! k); simpl; lia. Qed.

Lemma live_lookup ps a : live ps !! a =
  let? v := address_map ps !! a in let? n := vpa_stack v in let? (u, _) := nodes ps !! n in Some (u, vpa_value v).
Proof. unfold live. rewrite lookup_omap. by destruct (address_map ps !! a). Qed.

(** Addresses other than [a] keep what they had. *)
Lemma live_frame ps us ns nx am' a b :
  ps_inv ps -> gen_inv us ns nx am' None -> same_stacks (nodes ps) ns ->
  address_map ps !! b = am' !! b -> b <> a ->
  live (set_maps ps am' us ns nx) !! b = live ps !! b.
Proof.
  intros Hinv Hg Hs Hb _. rewrite !live_lookup. cbn [set_maps address_map nodes]. rewrite <- Hb.
  destruct (address_map ps !! b) as [v|] eqn:E; [|done].
  destruct (pv_addr _ Hinv _ _ E) as (_ & n & [u vc] & Hn & Hu). rewrite Hn, Hu.
  symmetry in Hb. destruct (gi_addr _ _ _ _ _ Hg _ _ Hb) as (_ & n' & [u' vc'] & Hn' & Hu'). simplify_eq.
  rewrite Hu'. by rewrite (Hs _ _ _ _ _ Hu Hu').
Qed.

Lemma erase_stack_eq us ns u n : us !! u = Some n -> erase_stack us ns u = (delete u us, delete n ns).
Proof. intros H. unfold erase_stack. by rewrite H. Qed.

Lemma same_stacks_refl ns : same_stacks ns ns.
Proof. intros n u vc u' vc' H1 H2. by simplify_eq. Qed.

Lemma same_stacks_delete ns ns' n : same_stacks ns ns' -> same_stacks ns (delete n ns').
Proof. intros H k u vc u' vc' H1 H2. apply lookup_delete_Some in H2 as [_ H2]. by eapply H. Qed.

Lemma same_stacks_sub ns ns1 ns2 : same_stacks ns ns1 -> sub_stacks ns1 ns2 -> same_stacks ns ns2.
Proof. intros H Hsub k u vc u' vc' H1 H2. destruct (Hsub _ _ _ H2) as [vc0 H3]. by eapply H. Qed.

Lemma dealloc_spec address ps :
  ps_inv ps -> Z.of_nat (size (address_map ps)) < 2 ^ 62 ->
  exists ps', register_deallocation_ps address ps
      = Some (bool_decide (is_Some (live ps !! address)), ps') /\
    ps_inv ps' /\ live ps' = delete address (live ps) /\
    (Z.of_nat (size (address_map ps')) <= Z.of_nat (size (address_map ps))).
Proof.
  intros Hinv Hsz. unfold register_deallocation_ps.
  destruct (address_map ps !! address) as [v|] eqn:Ha.
  2: { exists ps. assert (live ps !! address = None) as E by (by rewrite live_lookup, Ha).
       rewrite E, delete_id by done. rewrite bool_decide_eq_false_2 by (by intros [? ?]). split_and!; [done..|lia]. }
  pose proof (proj1 (ps_inv_gen ps) Hinv) as Hg.
  destruct (pv_addr _ Hinv _ _ Ha) as (_ & n & [u0 vc0] & Hn & Hu0). rewrite Hn.
  destruct (decrement_inv _ _ _ _ _ _ _ _ Hg Ha Hn Hsz) as (ns1 & u & c & -> & Hsub & Hus & _ & Hkeep & Herase).
  pose proof (same_stacks_sub _ _ _ (same_stacks_refl _) Hsub) as Hs.
  assert (Hlive : live ps !! address = Some (u0, vpa_value v)) by (by rewrite live_lookup, Ha, Hn, Hu0).
  rewrite Hlive, bool_decide_eq_true_2 by done.
  assert (Hfin : forall us ns, gen_inv us ns (next_node ps) (delete address (address_map ps)) None -> same_stacks (nodes ps) ns ->
     let ps' := set_maps ps (delete address (address_map ps)) us ns (next_node ps) in
     ps_inv ps' /\ live ps' = delete address (live ps) /\
     (Z.of_nat (size (address_map ps')) <= Z.of_nat (size (address_map ps)))).
  { intros us ns Hg' Hs' ps'. split; [by apply ps_inv_gen|]. split.
    - apply map_eq. intros b. destruct (decide (b = address)) as [->|Hne].
      + rewrite lookup_delete_eq, live_lookup. cbn [ps' set_maps address_map]. by rewrite lookup_delete_eq.
      + rewrite lookup_delete_ne by done. eapply live_frame; [done|done|done| |done]. by rewrite lookup_delete_ne.
    - cbn [ps' set_maps address_map]. pose proof (size_delete_le (address_map ps) address). lia. }
  destruct (Z.eqb_spec c 0) as [->|Hc].
  - rewrite (erase_stack_eq _ _ _ _ Hus). eexists. split; [done|]. apply Hfin; [by apply Herase|by apply same_stacks_delete].
  - eexists. split; [done|]. apply Hfin; [by apply Hkeep; right|done].
Qed.

(** [find_or_emplace] yields the node of [uo], new nodes being empty. *)
Lemma find_or_emplace_spec ps uo unique us ns nx :
  ps_inv ps -> find_or_emplace ps uo = (unique, us, ns, nx) ->
  gen_inv us ns nx (address_map ps) (Some unique) /\ same_stacks (nodes ps) ns /\ us !! uo = Some unique /\
  exists vc, ns !! unique = Some (uo, vc).
Proof.
  intros Hinv. pose proof (proj1 (ps_inv_gen ps) Hinv) as [H1 H2 H3 H4 H5].
  unfold find_or_emplace. destruct (unique_stacks ps !! uo) as [n|] eqn:E; intros ?; simplify_eq.
  - split; [|split; [apply same_stacks_refl|split; [done|by apply H1]]]. split; try done.
    intros n u vc Hn. destruct (H5 _ _ _ Hn) as (? & Hp & ?). split; [done|]. split; [|done]. intros _. by apply Hp.
  - assert (Hfresh : nodes ps !! next_node ps = None).
    { destruct (nodes ps !! next_node ps) as [x|] eqn:F; [|done]. apply H3 in F. lia. }
    assert (Hnoref : forall f : nat -> ValuePerAddress -> Z, (forall v, vpa_stack v <> Some (next_node ps) -> f (next_node ps) v = 0) ->
       msum (f (next_node ps)) (address_map ps) = 0).
    { intros f Hf. unfold msum. assert (Hall : Forall (fun kv => f (next_node ps) (snd kv) = 0) (map_to_list (address_map ps))).
      { apply Forall_forall. intros [a v] Hin. apply elem_of_map_to_list in Hin. apply Hf. intros Hv.
        destruct (H4 _ _ Hin) as (_ & n & x & Hn & Hx). cbn [snd] in Hv. rewrite Hn in Hv. injection Hv as ->. congruence. }
      clear -Hall. induction Hall; cbn [map zsum]; lia. }
    split; [|split; [|split; [apply lookup_insert_eq|eexists; apply lookup_insert_eq]]].
    + split.
      * intros u n Hn. apply lookup_insert_Some in Hn as [[<- <-]|[Hne Hn]]; [eexists; apply lookup_insert_eq|].
        destruct (H1 _ _ Hn) as [vc Hv]. exists vc. rewrite lookup_insert_ne; [done|]. intros <-. congruence.
      * intros u n vc Hn. apply lookup_insert_Some in Hn as [[<- ?]|[Hne Hn]]; simplify_eq; [apply lookup_insert_eq|].
        rewrite lookup_insert_ne; [by eapply H2|]. intros <-. apply H2 in Hn. congruence.
      * intros n x Hn. apply lookup_insert_Some in Hn as [[<- ?]|[_ Hn]]; [lia|]. apply H3 in Hn. lia.
      * intros a v Hv. destruct (H4 _ _ Hv) as (? & n & x & Hn & Hx). split; [done|]. exists n, x.
        split; [done|]. rewrite lookup_insert_ne; [done|]. intros <-. congruence.
      * intros n u vc Hn. apply lookup_insert_Some in Hn as [[<- ?]|[Hne Hn]]; simplify_eq.
        -- cbn [vc_count vc_value]. rewrite !Hnoref; [done|intros v Hv; unfold refs_value|intros v Hv; unfold refs]; by rewrite decide_False.
        -- destruct (H5 _ _ _ Hn) as (? & Hp & ?). split; [done|]. split; [|done]. intros _. by apply Hp.
    + intros n u vc u' vc' Hn Hn'. rewrite lookup_insert_ne in Hn' by (intros <-; congruence). by simplify_eq.
Qed.

Lemma decrement_node_other ns n v ns1 u c k x :
  decrement_node ns n v = Some (ns1, u, c) -> n <> k -> ns !! k = Some x -> ns1 !! k = Some x.
Proof.
  unfold decrement_node. destruct (ns !! n) as [[u0 vc0]|]; [|done]. intros E Hne Hk. simplify_eq.
  by rewrite lookup_insert_ne.
Qed.

(** The end of an allocation: the address is counted on its node. *)
Lemma alloc_finish uo address value ps unique us ns nx vc :
  ps_inv ps -> value <> 0 -> Z.of_nat (size (address_map ps)) < 2 ^ 62 ->
  gen_inv us ns nx (delete address (address_map ps)) (Some unique) ->
  same_stacks (nodes ps) ns -> ns !! unique = Some (uo, vc) ->
  let ns' := <[unique := (uo, mkVC (i64 (vc_value vc + value)) (i64 (vc_count vc + 1)))]> ns in
  let ps' := set_maps ps (<[address := mkVPA value (Some unique)]> (address_map ps)) us ns' nx in
  ps_inv ps' /\ live ps' = <[address := (uo, value)]> (live ps) /\
  Z.of_nat (size (address_map ps')) <= Z.of_nat (size (address_map ps)) + 1.
Proof.
  intros Hinv Hval Hsz Hg Hs Hun ns' ps'.
  assert (Hg' : gen_inv us ns' nx (<[address := mkVPA value (Some unique)]> (address_map ps)) None).
  { rewrite <- insert_delete_eq. apply increment_inv; [done|done|apply lookup_delete_eq|done|].
    pose proof (size_delete_le (address_map ps) address). lia. }
  assert (Hs' : same_stacks (nodes ps) ns').
  { intros k u1 vc1 u2 vc2 H1 H2. apply lookup_insert_Some in H2 as [[<- ?]|[_ H2]]; simplify_eq; by eapply Hs. }
  split; [by apply ps_inv_gen|]. split.
  - apply map_eq. intros b. destruct (decide (b = address)) as [->|Hne].
    + rewrite lookup_insert_eq, live_lookup. cbn [ps' set_maps address_map nodes]. rewrite lookup_insert_eq.
      cbn [vpa_stack vpa_value]. unfold ns'. by rewrite lookup_insert_eq.
    + rewrite lookup_insert_ne by done. eapply live_frame; [done|done|done| |done]. by rewrite lookup_insert_ne.
  - cbn [ps' set_maps address_map]. pose proof (size_insert_le (address_map ps) address (mkVPA value (Some unique))). lia.
Qed.

Lemma alloc_spec uo address value ps :
  ps_inv ps -> locs uo <> [] -> value <> 0 -> Z.of_nat (size (address_map ps)) < 2 ^ 62 ->
  exists ps', register_allocation_ps uo address value ps
      = Some (true, bool_decide (is_Some (live ps !! address)), ps') /\
    ps_inv ps' /\ live ps' = <[address := (uo, value)]> (live ps) /\
    Z.of_nat (size (address_map ps')) <= Z.of_nat (size (address_map ps)) + 1.
Proof.
  intros Hinv Hlocs Hval Hsz. unfold register_allocation_ps. destruct (locs uo) as [|l0 ls] eqn:El; [done|]. clear El.
  destruct (find_or_emplace ps uo) as [[[unique us] ns] nx] eqn:Ef.
  destruct (find_or_emplace_spec _ _ _ _ _ _ Hinv Ef) as (Hg & Hs & Hus & vc & Hun).
  pose proof (alloc_finish uo address value ps unique) as Hfin.
  destruct (address_map ps !! address) as [v|] eqn:Ha.
  - change (default (mkVPA 0 None) (Some v)) with v.
    destruct (pv_addr _ Hinv _ _ Ha) as (Hv0 & n & [u0 vc0] & Hn & Hu0).
    destruct (Z.eqb_spec (vpa_value v) 0) as [|_]; [done|]. rewrite Hn.
    assert (Hlive : live ps !! address = Some (u0, vpa_value v)) by (by rewrite live_lookup, Ha, Hn, Hu0).
    rewrite Hlive, bool_decide_eq_true_2 by done.
    destruct (decrement_inv _ _ _ _ _ _ _ _ Hg Ha Hn Hsz) as (ns1 & u & c & Edec & Hs1 & Husu & (vcn & Hvcn) & Hkeep & Herase).
    pose proof (same_stacks_sub _ _ _ Hs Hs1) as Htrans. rewrite Edec.
    assert (Hun1 : n <> unique -> exists vc1, ns1 !! unique = Some (uo, vc1)).
    { intros Hne. exists vc. by eapply decrement_node_other. }
    assert (Hfin1 : forall us ns vc, gen_inv us ns nx (delete address (address_map ps)) (Some unique) ->
       same_stacks (nodes ps) ns -> ns !! unique = Some (uo, vc) -> exists ps',
       (let? (u, vc) := ns !! unique in
        Some (true, true, set_maps ps (<[address := mkVPA value (Some unique)]> (address_map ps)) us
           (<[unique := (u, mkVC (i64 (vc_value vc + value)) (i64 (vc_count vc + 1)))]> ns) nx)) = Some (true, true, ps') /\
       ps_inv ps' /\ live ps' = <[address := (uo, value)]> (live ps) /\
       Z.of_nat (size (address_map ps')) <= Z.of_nat (size (address_map ps)) + 1).
    { intros us2 ns2 vc2 G2 S2 U2. rewrite U2. eexists. split; [done|]. by apply Hfin. }
    destruct (Nat.eqb_spec n unique) as [->|Hne]; cbn [negb andb].
    + destruct (Hs1 _ _ _ Hvcn) as [vc1 Hvc1]. simplify_eq. apply (Hfin1 us ns1 vcn); [apply Hkeep; by left|done|done].
    + destruct (Hun1 Hne) as [vc1 Hvc1]. destruct (Z.eqb_spec c 0) as [->|Hc].
      * rewrite (erase_stack_eq _ _ _ _ Husu).
        apply (Hfin1 _ _ vc1); [apply Herase; congruence|by apply same_stacks_delete|by rewrite lookup_delete_ne].
      * apply (Hfin1 us ns1 vc1); [apply Hkeep; by right|done|done].
  - change (default (mkVPA 0 None) None) with (mkVPA 0 None). cbn [vpa_value]. rewrite Z.eqb_refl, Hun.
    assert (live ps !! address = None) as -> by (by rewrite live_lookup, Ha).
    rewrite bool_decide_eq_false_2 by (by intros [? ?]). eexists. split; [done|].
    apply Hfin; [done|done|done| |done|done]. by rewrite delete_id by done.
Qed.

(** ** Aggregates *)

Lemma msum_ext {A} (f g : A -> Z) (m : gmap Z A) : (forall k x, m !! k = Some x -> f x = g x) -> msum f m = msum g m.
Proof.
  intros H. unfold msum. assert (Hall : Forall (fun kv => f (snd kv) = g (snd kv)) (map_to_list m)).
  { apply Forall_forall. intros [k x] Hin. apply elem_of_map_to_list in Hin. by eapply H. }
  induction Hall; cbn [map zsum]; lia.
Qed.

Lemma msum_omap {A B} (f : B -> Z) (g : A -> option B) (m : gmap Z A) :
  msum f (omap g m) = msum (fun x => match g x with Some y => f y | None => 0 end) m.
Proof.
  induction m as [|k x m Hk IH] using map_ind; [by rewrite omap_empty, !msum_empty|].
  rewrite msum_insert, <- IH by done. assert (Hok : omap g m !! k = None) by (by rewrite lookup_omap, Hk).
  destruct (g x) as [y|] eqn:E.
  - rewrite (omap_insert_Some _ _ _ _ y) by done. by rewrite msum_insert.
  - rewrite omap_insert_None by done. by rewrite delete_id.
Qed.

(** The aggregate the profile exports for a stack. *)
Definition aggregate (ps : PidStacks) (u : UnwindOutput) : option (Z * Z) :=
  let? n := unique_stacks ps !! u in let? (_, vc) := nodes ps !! n in Some (vc_value vc, vc_count vc).

Definition live_count (u : UnwindOutput) (l : gmap Z (UnwindOutput * Z)) : Z :=
  msum (fun x => if decide (fst x = u) then 1 else 0) l.
Definition live_total (u : UnwindOutput) (l : gmap Z (UnwindOutput * Z)) : Z :=
  msum (fun x => if decide (fst x = u) then snd x else 0) l.

Lemma aggregate_live ps u : ps_inv ps ->
  aggregate ps u = if live_count u (live ps) =? 0 then None
                   else Some (i64 (live_total u (live ps)), live_count u (live ps)).
Proof.
  intros [H1 H2 H3 H4 H5]. unfold aggregate.
  assert (Hpt : forall a v, address_map ps !! a = Some v -> exists n u0 vc0, vpa_stack v = Some n /\ nodes ps !! n = Some (u0, vc0) /\
     (u0 = u <-> unique_stacks ps !! u = Some n)).
  { intros a v Ha. destruct (H4 _ _ Ha) as (_ & n & [u0 vc0] & Hn & Hx). exists n, u0, vc0. split; [done|]. split; [done|].
    split; [intros <-; by eapply H2|]. intros Hu. destruct (H1 _ _ Hu) as [vc1 Hv1]. congruence. }
  unfold live_count, live_total, live. rewrite !msum_omap.
  destruct (unique_stacks ps !! u) as [n|] eqn:Eu.
  - destruct (H1 _ _ Eu) as [vc Hn]. destruct (H5 _ _ _ Hn) as (Hc & Hpos & Hv). rewrite Hn, Hv, Hc.
    match goal with |- _ = (if msum ?f _ =? 0 then None else Some (i64 (msum ?g _), _)) =>
      assert (Ef : msum f (address_map ps) = msum (refs n) (address_map ps));
      [|assert (Eg : msum g (address_map ps) = msum (refs_value n) (address_map ps))] end.
    + apply msum_ext. intros a v Ha. destruct (Hpt _ _ Ha) as (n' & u0 & vc0 & Hn' & Hx & Hiff).
      unfold refs. rewrite Hn', Hx. cbn [fst].
      destruct (decide (u0 = u)) as [E|E]; [apply Hiff in E; by rewrite decide_True|].
      rewrite decide_False; [done|]. intros E2. apply E, Hiff. congruence.
    + apply msum_ext. intros a v Ha. destruct (Hpt _ _ Ha) as (n' & u0 & vc0 & Hn' & Hx & Hiff).
      unfold refs_value. rewrite Hn', Hx. cbn [fst snd].
      destruct (decide (u0 = u)) as [E|E]; [apply Hiff in E; by rewrite decide_True|].
      rewrite decide_False; [done|]. intros E2. apply E, Hiff. congruence.
    + rewrite Ef, Eg. destruct (Z.eqb_spec (msum (refs n) (address_map ps)) 0); [lia|done].
  - rewrite (msum_ext _ (fun _ => 0)).
    + assert (msum (fun _ : ValuePerAddress => 0) (address_map ps) = 0) as ->; [|done].
      unfold msum. induction (map_to_list (address_map ps)); cbn [map zsum]; lia.
    + intros a v Ha. destruct (Hpt _ _ Ha) as (n' & u0 & vc0 & Hn' & Hx & Hiff). rewrite Hn', Hx. cbn [fst].
      rewrite decide_False; [done|]. intros E. by apply Hiff in E.
Qed.

(** ** Runs *)

Inductive la_op := OAlloc (uo : UnwindOutput) (a value : Z) | OFree (a : Z).

Definition ps_step (ps : PidStacks) (o : la_op) : option PidStacks :=
  match o with
  | OAlloc uo a v => let? (_, _, ps') := register_allocation_ps uo a v ps in Some ps'
  | OFree a => let? (_, ps') := register_deallocation_ps a ps in Some ps'
  end.

Fixpoint ps_run (ps : PidStacks) (os : list la_op) : option PidStacks :=
  match os with
  | [] => Some ps
  | o :: os' => let? ps' := ps_step ps o in ps_run ps' os'
  end.

(** The reference: an ideal tracker that maps live addresses to stack and size. *)
Definition ideal_step (l : gmap Z (UnwindOutput * Z)) (o : la_op) : gmap Z (UnwindOutput * Z) :=
  match o with
  | OAlloc uo a v => match locs uo with [] => l | _ => <[a := (uo, v)]> l end
  | OFree a => delete a l
  end.

Definition op_ok (o : la_op) : Prop := match o with OAlloc _ _ v => v <> 0 | OFree _ => True end.

Lemma ps_step_spec ps o :
  ps_inv ps -> op_ok o -> Z.of_nat (size (address_map ps)) < 2 ^ 62 ->
  exists ps', ps_step ps o = Some ps' /\ ps_inv ps' /\ live ps' = ideal_step (live ps) o /\
    Z.of_nat (size (address_map ps')) <= Z.of_nat (size (address_map ps)) + 1.
Proof.
  intros Hinv Hok Hsz. destruct o as [uo a v|a]; cbn [ps_step ideal_step].
  - destruct (locs uo) as [|l0 ls] eqn:El.
    + exists ps. unfold register_allocation_ps. rewrite El. split_and!; [done..|lia].
    + destruct (alloc_spec uo a v ps Hinv) as (ps' & -> & H1 & H2 & H3); [by rewrite El|done|done|]. by exists ps'.
  - destruct (dealloc_spec a ps Hinv Hsz) as (ps' & -> & H1 & H2 & H3). exists ps'. split_and!; [done..|lia].
Qed.

Lemma empty_ps_inv : ps_inv empty_PidStacks.
Proof. split; cbn [empty_PidStacks unique_stacks nodes address_map]; intros *; rewrite lookup_empty; done. Qed.

Lemma ps_run_spec os ps :
  ps_inv ps -> Forall op_ok os -> Z.of_nat (size (address_map ps)) + Z.of_nat (length os) < 2 ^ 62 ->
  exists ps', ps_run ps os = Some ps' /\ ps_inv ps' /\ live ps' = foldl ideal_step (live ps) os.
Proof.
  intros Hinv Hok. revert ps Hinv. induction Hok as [|o os Ho _ IH]; intros ps Hinv Hsz; cbn [ps_run foldl].
  { by exists ps. }
  cbn [length] in Hsz. destruct (ps_step_spec ps o Hinv Ho) as (ps' & -> & Hinv' & <- & Hsz'); [lia|].
  apply IH; [done|lia].
Qed.

Lemma live_empty : live empty_PidStacks = ∅.
Proof. apply omap_empty. Qed.

(** C22: Any sequence of allocations (of non-zero size) and frees is handled
    without touching a freed node, and the result is that of an ideal tracker:
    the live addresses with their stack and size are the map obtained by applying
    the operations, and the profile has an aggregate for a stack exactly when a
    live address has it, with the sum of their sizes and their number. *)
Theorem live_profile_matches_ideal os :
  Forall op_ok os -> Z.of_nat (length os) < 2 ^ 62 ->
  exists ps, ps_run empty_PidStacks os = Some ps /\
    live ps = foldl ideal_step ∅ os /\
    forall u, aggregate ps u
      = if live_count u (live ps) =? 0 then None
        else Some (i64 (live_total u (live ps)), live_count u (live ps)).
Proof.
  intros Hok Hsz. destruct (ps_run_spec os empty_PidStacks empty_ps_inv Hok) as (ps & E & Hinv & Hl).
  { cbn [empty_PidStacks address_map]. rewrite map_size_empty. lia. }
  exists ps. rewrite live_empty in Hl. split_and!; [done..|]. intros u. by apply aggregate_live.
Qed.

Definition demo_stack (x : Z) : UnwindOutput := mkUO [mkFunLoc x 0 0 0 0] "" "" "" 1 1.
Definition demo_ops : list la_op :=
  [OAlloc (demo_stack 1) 4096 10; OAlloc (demo_stack 2) 8192 20; OAlloc (demo_stack 2) 4096 5; OFree 8192; OFree 77].

Lemma live_profile_matches_ideal_witness : exists ps,
  ps_run empty_PidStacks demo_ops = Some ps /\ live ps = foldl ideal_step ∅ demo_ops /\
  aggregate ps (demo_stack 2) = Some (5, 1) /\ aggregate ps (demo_stack 1) = None.
Proof.
  destruct (live_profile_matches_ideal demo_ops) as (ps & E & Hl & Hagg).
  - repeat constructor; cbn; lia.
  - cbn. lia.
  - exists ps. split; [exact E|]. split; [exact Hl|]. rewrite !Hagg, Hl. split; vm_compute; reflexivity.
Defined.

(** An allocation of size 0 is not recognised as live when its address is
    allocated again: the old stack keeps its count for ever. *)
Example zero_size_allocation_leaks_count :
  (let? ps := ps_run empty_PidStacks [OAlloc (demo_stack 1) 4096 0; OAlloc (demo_stack 2) 4096 5; OFree 4096] in
   Some (map_to_list (address_map ps), aggregate ps (demo_stack 1), aggregate ps (demo_stack 2)))
  = Some ([], Some (0, 1), None).
Proof. vm_compute. reflexivity. Qed.

(** ** The class: watchers and processes are independent *)

Definition ps_of (la : LiveAllocation) (w : nat) (p : Z) : PidStacks :=
  default empty_PidStacks (default ∅ (watcher_vector la !! w) !! p).

Inductive la_call :=
| CAlloc (uo : UnwindOutput) (a sz : Z) (w : nat) (p : Z)
| CDealloc (a : Z) (w : nat) (p : Z)
| CLibraryState (conflicts tracked : Z) (w : nat) (p : Z)
| CClearWatcher (w : nat) (p : Z)
| CClearPid (p : Z)
| CCycle.

Definition la_exec (la : LiveAllocation) (c : la_call) : option LiveAllocation :=
  match c with
  | CAlloc uo a size w p => register_allocation la uo a size w p
  | CDealloc a w p => register_deallocation la a w p
  | CLibraryState conflicts tracked w p => Some (register_library_state la w p conflicts tracked)
  | CClearWatcher w p => Some (clear_pid_for_watcher la w p)
  | CClearPid p => Some (clear_pid la p)
  | CCycle => Some (cycle la)
  end.

(** What a call does to the live addresses of watcher [w] and process [p]. *)
Definition ideal_call (c : la_call) (w : nat) (p : Z) (l : gmap Z (UnwindOutput * Z)) : gmap Z (UnwindOutput * Z) :=
  match c with
  | CAlloc uo a size w' p' => if decide (w' = w /\ p' = p) then ideal_step l (OAlloc uo a (i64 size)) else l
  | CDealloc a w' p' => if decide (w' = w /\ p' = p) then ideal_step l (OFree a) else l
  | CClearWatcher w' p' => if decide (w' = w /\ p' = p) then ∅ else l
  | CClearPid p' => if decide (p' = p) then ∅ else l
  | CLibraryState _ _ _ _ | CCycle => l
  end.

Definition la_inv (la : LiveAllocation) : Prop :=
  forall w p, ps_inv (ps_of la w p) /\ Z.of_nat (size (address_map (ps_of la w p))) < 2 ^ 62.

Definition call_ok (la : LiveAllocation) (c : la_call) : Prop :=
  match c with
  | CAlloc _ _ sz w p => i64 sz <> 0 /\ Z.of_nat (size (address_map (ps_of la w p))) + 1 < 2 ^ 62
  | _ => True
  end.

Lemma access_resize_lookup v i w : default ∅ (access_resize v i !! w) = default ∅ (v !! w).
Proof.
  unfold access_resize. destruct (Nat.leb_spec (length v) i) as [Hle|]; [|done].
  destruct (decide (w < length v)%nat).
  - by rewrite lookup_app_l.
  - rewrite lookup_app_r, (lookup_ge_None_2 v) by lia. destruct (_ !! _) as [x|] eqn:E; [|done].
    apply lookup_replicate in E as [-> _]. done.
Qed.

Lemma access_resize_length v i : (i < length (access_resize v i))%nat.
Proof.
  unfold access_resize. destruct (Nat.leb_spec (length v) i); [|lia]. rewrite length_app, length_replicate. lia.
Qed.

(** Writing back the entry of one watcher and process. *)
Lemma ps_of_update la w p v pm ps pm' st w' p' :
  pid_entry la w p = (v, pm, ps) ->
  ps = ps_of la w p /\
  ps_of (mkLA (<[w := pm']> v) st) w' p' =
    if decide (w = w') then default empty_PidStacks (pm' !! p') else ps_of la w' p'.
Proof.
  unfold pid_entry. intros [= <- <- <-]. split.
  { unfold ps_of. by rewrite access_resize_lookup. }
  unfold ps_of. cbn [watcher_vector]. case_decide as Hw.
  - subst w'. by rewrite list_lookup_insert_eq by apply access_resize_length.
  - rewrite list_lookup_insert_ne by done. by rewrite access_resize_lookup.
Qed.

Lemma ps_of_update1 la w p v pm ps ps' st w' p' :
  pid_entry la w p = (v, pm, ps) ->
  ps_of (mkLA (<[w := <[p := ps']> pm]> v) st) w' p' = if decide (w = w' /\ p = p') then ps' else ps_of la w' p'.
Proof.
  intros E. destruct (ps_of_update la w p v pm ps (<[p := ps']> pm) st w' p' E) as [_ ->].
  unfold pid_entry in E. injection E as _ <- _.
  destruct (decide (w = w')) as [<-|]; [|by rewrite decide_False by tauto].
  destruct (decide (p = p')) as [<-|].
  - rewrite decide_True by done. by rewrite lookup_insert_eq.
  - rewrite decide_False by tauto. rewrite lookup_insert_ne by done. unfold ps_of. by rewrite access_resize_lookup.
Qed.

Lemma ps_of_delete la w p v pm ps st w' p' :
  pid_entry la w p = (v, pm, ps) ->
  ps_of (mkLA (<[w := delete p pm]> v) st) w' p'
  = if decide (w = w' /\ p = p') then empty_PidStacks else ps_of la w' p'.
Proof.
  intros E. destruct (ps_of_update la w p v pm ps (delete p pm) st w' p' E) as [_ ->].
  unfold pid_entry in E. injection E as _ <- _.
  destruct (decide (w = w')) as [<-|]; [|by rewrite decide_False by tauto].
  destruct (decide (p = p')) as [<-|].
  - rewrite decide_True by done. by rewrite lookup_delete_eq.
  - rewrite decide_False by tauto. rewrite lookup_delete_ne by done. unfold ps_of. by rewrite access_resize_lookup.
Qed.

Lemma ps_of_clear_pid la p w' p' :
  ps_of (clear_pid la p) w' p' = if decide (p = p') then empty_PidStacks else ps_of la w' p'.
Proof.
  unfold ps_of, clear_pid. cbn [watcher_vector].
  assert (El : (map (delete p) (watcher_vector la)) !! w' = option_map (delete p) (watcher_vector la !! w'))
    by (apply list_lookup_fmap).
  rewrite El. destruct (watcher_vector la !! w') as [pm|]; cbn [option_map];
    change (default ∅ (Some ?x)) with x; change (default ∅ None) with (∅ : gmap Z PidStacks);
    rewrite ?lookup_empty; case_decide as Hp; try done.
  - subst p'. change (default ∅ (Some (delete p pm))) with (delete p pm). by rewrite lookup_delete_eq.
  - change (default ∅ (Some (delete p pm))) with (delete p pm). by rewrite lookup_delete_ne.
Qed.

Lemma empty_ps_ok : ps_inv empty_PidStacks /\ Z.of_nat (size (address_map empty_PidStacks)) < 2 ^ 62.
Proof. split; [apply empty_ps_inv|]. cbn [empty_PidStacks address_map]. rewrite map_size_empty. lia. Qed.

(** Replacing one entry. *)
Lemma la_set_entry la w p v pm ps ps' st l' : la_inv la -> pid_entry la w p = (v, pm, ps) ->
  ps_inv ps' /\ Z.of_nat (size (address_map ps')) < 2 ^ 62 -> live ps' = l' ->
  la_inv (mkLA (<[w := <[p := ps']> pm]> v) st) /\
  forall w' p', live (ps_of (mkLA (<[w := <[p := ps']> pm]> v) st) w' p')
    = if decide (w = w' /\ p = p') then l' else live (ps_of la w' p').
Proof.
  intros Hinv E Hps <-. split.
  - intros w' p'. rewrite (ps_of_update1 la w p v pm ps) by done. by case_decide.
  - intros w' p'. rewrite (ps_of_update1 la w p v pm ps) by done. by case_decide.
Qed.

Lemma live_call_spec la c :
  la_inv la -> call_ok la c ->
  exists la', la_exec la c = Some la' /\ la_inv la' /\
    forall w p, live (ps_of la' w p) = ideal_call c w p (live (ps_of la w p)).
Proof.
  intros Hinv Hok.
  destruct c as [uo a sz w p|a w p|cf tr w p|w p|p|]; cbn [la_exec ideal_call].
  - unfold register_allocation. destruct (pid_entry la w p) as [[v pm] ps] eqn:E.
    destruct (ps_of_update la w p v pm ps pm (stats la) w p E) as [-> _].
    destruct (Hinv w p) as [Hi Hs]. destruct Hok as [Hnz Hs1].
    destruct (ps_step_spec (ps_of la w p) (OAlloc uo a (i64 sz)) Hi Hnz Hs) as (ps' & Es & Hi' & Hl & Hs').
    cbn [ps_step] in Es. destruct (register_allocation_ps uo a (i64 sz) (ps_of la w p)) as [[[? ex] ps2]|]; [|done].
    injection Es as ->. eexists. split; [done|].
    assert (Hps : ps_inv ps' /\ Z.of_nat (size (address_map ps')) < 2 ^ 62) by (split; [done|lia]).
    match goal with |- la_inv (mkLA _ ?st) /\ _ =>
      destruct (la_set_entry la w p v pm _ ps' st _ Hinv E Hps Hl) as [G1 G2] end.
    split; [done|]. intros w' p'. rewrite G2. case_decide as Hd; [|done]. by destruct Hd as [-> ->].
  - unfold register_deallocation. destruct (pid_entry la w p) as [[v pm] ps] eqn:E.
    destruct (ps_of_update la w p v pm ps pm (stats la) w p E) as [-> _].
    destruct (Hinv w p) as [Hi Hs]. destruct (dealloc_spec a _ Hi Hs) as (ps' & -> & Hi' & Hl & Hs').
    eexists. split; [done|].
    assert (Hps : ps_inv ps' /\ Z.of_nat (size (address_map ps')) < 2 ^ 62) by (split; [done|lia]).
    match goal with |- la_inv (mkLA _ ?st) /\ _ => destruct (la_set_entry la w p v pm _ ps' st _ Hinv E Hps Hl) as [G1 G2] end.
    split; [done|]. intros w' p'. rewrite G2. case_decide as Hd; [|done]. by destruct Hd as [-> ->].
  - unfold register_library_state. destruct (pid_entry la w p) as [[v pm] ps] eqn:E.
    destruct (ps_of_update la w p v pm ps pm (stats la) w p E) as [-> _]. eexists. split; [done|].
    destruct (Hinv w p) as [Hi Hs].
    match goal with |- la_inv (mkLA (<[_ := <[_ := ?ps']> _]> _) ?st) /\ _ =>
      destruct (la_set_entry la w p v pm _ ps' st (live (ps_of la w p)) Hinv E) as [G1 G2]; [|reflexivity|] end.
    { split; [|done]. destruct Hi as [? ? ? ? ?]. by split. }
    split; [done|]. intros w' p'. rewrite G2. case_decide as Hd; [|done]. by destruct Hd as [-> ->].
  - unfold clear_pid_for_watcher. destruct (pid_entry la w p) as [[v pm] ps] eqn:E. eexists. split; [done|]. split.
    + intros w' p'. rewrite (ps_of_delete la w p v pm ps) by done. case_decide; [apply empty_ps_ok|done].
    + intros w' p'. rewrite (ps_of_delete la w p v pm ps) by done. case_decide; [apply live_empty|done].
  - eexists. split; [done|]. split; intros w' p'; rewrite ps_of_clear_pid; case_decide; done || apply empty_ps_ok || apply live_empty.
  - eexists. split; [done|]. by split.
Qed.

(** Every call of the class is defined and preserves the invariant of all
    watchers and processes; the live addresses of the watcher and process it names
    change as in the ideal tracker, and those of all others do not change. *)
Theorem live_calls_safe_and_isolated la c :
  la_inv la -> call_ok la c ->
  exists la', la_exec la c = Some la' /\ la_inv la' /\
    forall w p, live (ps_of la' w p) = ideal_call c w p (live (ps_of la w p)).
Proof. apply live_call_spec. Qed.

Lemma live_calls_safe_and_isolated_witness : exists la',
  la_exec (mkLA [] (mkStats 0 0)) (CAlloc (demo_stack 1) 4096 10 2 77) = Some la' /\
  live (ps_of la' 2 77) = {[4096 := (demo_stack 1, 10)]} /\ live (ps_of la' 1 77) = ∅.
Proof.
  destruct (live_calls_safe_and_isolated (mkLA [] (mkStats 0 0)) (CAlloc (demo_stack 1) 4096 10 2 77)) as (la' & E & _ & H).
  - intros w p. exact empty_ps_ok.
  - split; [done|]. vm_compute. reflexivity.
  - exists la'. split; [exact E|]. rewrite !H. split; vm_compute; reflexivity.
Defined.
