(* ===== verification/Dso.v ===== *)
(** * Memory mappings of a process

    Model of [src/dso.cc], [include/dso.hpp] and [include/dso_type.hpp]: a mapping
    of a file (or of anonymous memory) at an inclusive range of addresses. *)

From Stdlib Require Import Ascii.
From S2P Require Import Prelude.

Inductive DsoType :=
  kStandard | kVdso | kVsysCall | kStack | kHeap | kUndef | kAnon | kRuntime | kSocket | kDDProfiling | kJITDump.

#[export] Instance DsoType_eq_dec : EqDecision DsoType.
Proof. solve_decision. Defined.

Definition has_relevant_path (t : DsoType) : bool :=
  match t with kDDProfiling | kStandard => true | _ => false end.

Definition dso_type_str (t : DsoType) : string :=
  match t with
  | kStandard => "Standard" | kVdso => "Vdso" | kVsysCall => "VsysCall" | kStack => "Stack"
  | kHeap => "Heap" | kUndef => "Undefined" | kAnon => "Anonymous" | kRuntime => "Runtime"
  | kSocket => "kSocket" | kDDProfiling => "kDDProfiling" | kJITDump => "Unhandled"
  end.

(** ** File names *)

Definition starts_with (p s : string) : bool := String.prefix p s.

(** [ends_with]: the suffix of the right length equals [p]. *)
Definition ends_with (p s : string) : bool :=
  (String.length p <=? String.length s)%nat
  && bool_decide (String.substring (String.length s - String.length p) (String.length p) s = p).

(** [substr(rfind('/') + 1)]: what follows the last slash, if there is one. *)
Fixpoint after_last_slash (s : string) : option string :=
  match s with
  | EmptyString => None
  | String c s' =>
      match after_last_slash s' with
      | Some r => Some r
      | None => if Ascii.eqb c "/"%char then Some s' else None
      end
  end.

Definition is_digit (c : Ascii.ascii) : bool :=
  let n := Ascii.nat_of_ascii c in ((48 <=? n) && (n <=? 57))%nat.

Fixpoint all_digits (s : string) : bool :=
  match s with EmptyString => true | String c s' => is_digit c && all_digits s' end.

Definition is_jit_dump_str (file_path : string) : bool :=
  let prefix := "jit-"%string in
  let ext := ".dump"%string in
  if negb (ends_with ext file_path) then false
  else
    let p := String.substring 0 (String.length file_path - String.length ext) file_path in
    let p := default p (after_last_slash p) in
    if negb (starts_with prefix p) then false
    else all_digits (String.substring (String.length prefix) (String.length p - String.length prefix) p).

Definition k_libdd_profiling_name : string := "libdd_profiling.so".

Definition determine_dso_type (file_path : string) : DsoType :=
  if starts_with "[vdso]" file_path then kVdso
  else if starts_with "[vsyscall]" file_path then kVsysCall
  else if starts_with "[stack]" file_path then kStack
  else if starts_with "[heap]" file_path then kHeap
  else if bool_decide (file_path = ""%string) || starts_with "//anon" file_path || starts_with "anon_inode" file_path
          || starts_with "[anon" file_path || starts_with "/dev/zero" file_path
          || starts_with "/dev/null" file_path || starts_with "/memfd" file_path then kAnon
  else if ends_with ".jsa" file_path || ends_with ".dll" file_path then kRuntime
  else if starts_with "socket" file_path then kSocket
  else if starts_with "[" file_path then kUndef
  else if is_jit_dump_str file_path then kJITDump
  else match after_last_slash file_path with
       | Some base => if starts_with k_libdd_profiling_name base then kDDProfiling else kStandard
       | None => kStandard
       end.

(** ** Mappings *)

Definition PROT_READ : Z := 1.
Definition PROT_WRITE : Z := 2.
Definition PROT_EXEC : Z := 4.

Inductive DsoOrigin := kPerfMmapEvent | kProcMaps.

#[export] Instance DsoOrigin_eq_dec : EqDecision DsoOrigin.
Proof. solve_decision. Defined.

Definition k_file_info_undef : Z := -1.
Definition k_file_info_error : Z := 0.

Record Dso := mkDso {
  d_start : Z;
  d_end : Z;           (* inclusive *)
  d_offset : Z;
  d_filename : string;
  d_inode : Z;
  d_pid : Z;
  d_prot : Z;
  d_id : Z;
  d_type : DsoType;
  d_origin : DsoOrigin
}.

Definition invalid_dso : Dso := mkDso 0 0 0 "" 0 (-1) 0 k_file_info_error kUndef kPerfMmapEvent.

Definition new_dso (pid start end_ offset : Z) (filename : string) (inode prot : Z) (origin : DsoOrigin) : Dso :=
  mkDso start end_ offset filename inode pid prot k_file_info_undef (determine_dso_type filename) origin.

Definition set_pid (d : Dso) (p : Z) : Dso :=
  mkDso (d_start d) (d_end d) (d_offset d) (d_filename d) (d_inode d) p (d_prot d) (d_id d) (d_type d) (d_origin d).
Definition adjust_end (d : Dso) (e : Z) : Dso :=
  mkDso (d_start d) e (d_offset d) (d_filename d) (d_inode d) (d_pid d) (d_prot d) (d_id d) (d_type d) (d_origin d).
Definition adjust_start (d : Dso) (s : Z) : Dso :=
  mkDso s (d_end d) (d_offset d) (d_filename d) (d_inode d) (d_pid d) (d_prot d) (d_id d) (d_type d) (d_origin d).
Definition set_id (d : Dso) (i : Z) : Dso :=
  mkDso (d_start d) (d_end d) (d_offset d) (d_filename d) (d_inode d) (d_pid d) (d_prot d) i (d_type d) (d_origin d).

Definition is_within (d : Dso) (a : Z) : bool := (d_start d <=? a) && (a <=? d_end d).
Definition is_executable (d : Dso) : bool := negb (Z.land (d_prot d) PROT_EXEC =? 0).

Definition intersects (d o : Dso) : bool :=
  if d_start d <? d_start o then negb (d_end d <? d_start o) else negb (d_end o <? d_start d).

Definition is_same_or_smaller (d o : Dso) : bool :=
  if negb (d_start d =? d_start o) then false
  else if negb (d_offset d =? d_offset o) then false
  else if bool_decide (d_type d <> d_type o) then false
  else if bool_decide (d_type d = kStandard)
          && (bool_decide (d_filename d <> d_filename o) || negb (d_inode d =? d_inode o)) then false
  else if negb (d_prot d =? d_prot o) then false
  else d_end o <=? d_end d.

Definition is_same_file (d o : Dso) : bool :=
  bool_decide (d_type d = d_type o) && bool_decide (d_type d = kStandard)
  && bool_decide (d_filename d = d_filename o) && (d_inode d =? d_inode o).

(** [adjust_same]: shrink to [o] when [o] is the same mapping, or a smaller one. *)
Definition adjust_same (d o : Dso) : bool * Dso :=
  if is_same_or_smaller d o
  then (true, mkDso (d_start d) (d_end o) (d_offset d) (d_filename d) (d_inode d) (d_pid d) (d_prot d)
                (d_id d) (d_type d) (d_origin o))
  else (false, d).

Definition has_runtime_symbols (d : Dso) : bool :=
  (bool_decide (d_type d = kRuntime) || bool_decide (d_type d = kAnon)) && is_executable d.

Definition format_filename (d : Dso) : string :=
  if has_relevant_path (d_type d) then d_filename d else dso_type_str (d_type d).

(** ** Lemmas *)

(** [intersects] is the existence of a common address. *)
Lemma intersects_iff d o : d_start d <= d_end d -> d_start o <= d_end o ->
  intersects d o = true <-> exists a, is_within d a = true /\ is_within o a = true.
Proof.
  intros Hd Ho. unfold intersects, is_within. split.
  - intros H. exists (Z.max (d_start d) (d_start o)). destruct (Z.ltb_spec (d_start d) (d_start o)); zbool;
      rewrite !andb_true_iff, !Z.leb_le; lia.
  - intros (a & H1 & H2). zbool. destruct (Z.ltb_spec (d_start d) (d_start o)); apply negb_true_iff, Z.ltb_ge; lia.
Qed.

Lemma is_within_iff d a : is_within d a = true <-> d_start d <= a <= d_end d.
Proof. unfold is_within. rewrite andb_true_iff, !Z.leb_le. done. Qed.

Example dso_type_examples :
  map determine_dso_type
    ["/usr/lib/libc.so.6"; "[vdso]"; "[heap]"; ""; "//anon"; "/app/classes.jsa"; "socket:[12]"; "[vvar]";
     "/tmp/.debug/jit-123.dump"; "jit-.dump"; "/tmp/libdd_profiling.so-abc"; "libdd_profiling.so"]%string
  = [kStandard; kVdso; kHeap; kAnon; kAnon; kRuntime; kSocket; kUndef; kJITDump; kJITDump; kDDProfiling; kStandard].
Proof. vm_compute. reflexivity. Qed.
