(* ===== verification/DsoHdr.v ===== *)
(** * Mappings of all processes

    Model of [src/dso_hdr.cc] and [include/dso_hdr.hpp]: per process, a map of the
    memory mappings ordered by start address (a [std::map]: an association list
    sorted by key, iterators being positions), updated by mmap events, by reading
    [/proc/<pid>/maps] (backpopulate) and by forks; and the table of file
    identifiers.  The operating system's answers (the lines of the maps file,
    inodes of paths, the clock) are arguments. *)

From Stdlib Require Import Ascii Sorted.
From stdpp Require Import pretty.
From S2P Require Import Prelude Dso.

(** ** DsoStats *)

Inductive DsoEventType := kTargetDso | kNewDso.

Definition dso_type_index (t : DsoType) : nat :=
  match t with
  | kStandard => 0 | kVdso => 1 | kVsysCall => 2 | kStack => 3 | kHeap => 4 | kUndef => 5 | kAnon => 6
  | kRuntime => 7 | kSocket => 8 | kDDProfiling => 9 | kJITDump => 10
  end%nat.

Record DsoStats := mkDsoStats { m_target : list Z; m_new : list Z; backpopulate_count : Z }.
Definition init_stats : DsoStats := mkDsoStats (replicate 11 0) (replicate 11 0) 0.

Definition incr_at (l : list Z) (i : nat) : list Z := alter (fun x => x +w 1) i l.
Definition incr_metric (s : DsoStats) (e : DsoEventType) (t : DsoType) : DsoStats :=
  match e with
  | kTargetDso => mkDsoStats (incr_at (m_target s) (dso_type_index t)) (m_new s) (backpopulate_count s)
  | kNewDso => mkDsoStats (m_target s) (incr_at (m_new s) (dso_type_index t)) (backpopulate_count s)
  end.
Definition incr_backpopulate_count (s : DsoStats) : DsoStats :=
  mkDsoStats (m_target s) (m_new s) (backpopulate_count s +w 1).
Definition sum_event_metric (s : DsoStats) (e : DsoEventType) : Z :=
  foldl (fun acc x => acc +w x) 0 (match e with kTargetDso => m_target s | kNewDso => m_new s end).
Definition reset_stats (s : DsoStats) : DsoStats :=
  mkDsoStats (map (fun _ => 0) (m_target s)) (map (fun _ => 0) (m_new s)) 0.

(** ** State *)

Abbreviation DsoMap := (list (Z * Dso)).

Inductive BackpopulatePermission := kForbidden | kAllowed.
Record BackpopulateState := mkBP { nb_unfound_dsos : Z; last_backpopulate_time : Z; perm : BackpopulatePermission }.
Definition init_bp : BackpopulateState := mkBP 0 0 kAllowed.
Definition k_nb_requests_between_backpopulates : Z := 10.

Record PidMapping := mkPM { pm_map : DsoMap; pm_bp : BackpopulateState; jitdump_addr : Z }.
Definition empty_pm : PidMapping := mkPM [] init_bp 0.

Record FileInfo := mkFI { fi_path : string; fi_size : Z; fi_inode : Z }.
Record FileInfoValue := mkFIV { fiv_info : FileInfo; fiv_id : Z }.

Record DsoHdr := mkDH {
  pid_map : gmap Z PidMapping;
  dh_stats : DsoStats;
  file_info_inode_map : gmap (Z * Z) Z;
  file_info_vector : list FileInfoValue;
  path_to_proc : string;
  dd_profiling_fd : Z;
  dd_profiling_file_info : Z
}.

(** The constructor; [proc_path] is the path it settled on. *)
Definition init_DsoHdr (proc_path : string) (fd : Z) : DsoHdr :=
  mkDH ∅ init_stats ∅ [mkFIV (mkFI "" 0 0) 0] proc_path fd k_file_info_undef.

Definition set_pid_map (h : DsoHdr) (m : gmap Z PidMapping) : DsoHdr :=
  mkDH m (dh_stats h) (file_info_inode_map h) (file_info_vector h) (path_to_proc h) (dd_profiling_fd h) (dd_profiling_file_info h).
Definition set_stats (h : DsoHdr) (s : DsoStats) : DsoHdr :=
  mkDH (pid_map h) s (file_info_inode_map h) (file_info_vector h) (path_to_proc h) (dd_profiling_fd h) (dd_profiling_file_info h).

(** [_pid_map[pid]], which creates the entry. *)
Definition get_pid_mapping (h : DsoHdr) (p : Z) : PidMapping := default empty_pm (pid_map h !! p).

(** ** std::map operations *)

Definition upper_bound (m : DsoMap) (a : Z) : nat := find_index (fun kv => a <? fst kv) m.
Definition lower_bound (m : DsoMap) (a : Z) : nat := find_index (fun kv => a <=? fst kv) m.

(** [map[k] = v]. *)
Fixpoint map_assign (k : Z) (v : Dso) (m : DsoMap) : DsoMap :=
  match m with
  | [] => [(k, v)]
  | (k', v') :: m' =>
      if k <? k' then (k, v) :: m
      else if k =? k' then (k, v) :: m'
      else (k', v') :: map_assign k v m'
  end.

(** [map.insert]: fails when the key is there. *)
Definition map_has (k : Z) (m : DsoMap) : bool := existsb (fun kv => fst kv =? k) m.
Definition map_insert (k : Z) (v : Dso) (m : DsoMap) : bool * DsoMap :=
  if map_has k m then (false, m) else (true, map_assign k v m).

(** Modify the element with key [k] in place. *)
Definition map_modify (k : Z) (f : Dso -> Dso) (m : DsoMap) : DsoMap :=
  map (fun kv => if fst kv =? k then (fst kv, f (snd kv)) else kv) m.

Definition map_erase_at (i : nat) (m : DsoMap) : DsoMap := take i m ++ drop (S i) m.

(** ** Lookup *)

(** Results are a position ([length] is [end()]) and whether it is a match. *)
Definition dso_find_closest (m : DsoMap) (addr : Z) : nat * bool :=
  let it := upper_bound m addr in
  match it with
  | O => (length m, false)
  | S i => (i, match m !! i with Some (_, d) => is_within d addr | None => false end)
  end.

Definition dso_find_first_std_executable (m : DsoMap) : nat * bool :=
  let it := find_index (fun kv => is_executable (snd kv) || bool_decide (d_type (snd kv) = kStandard)) m in
  (it, (it <? length m)%nat).

(** The range of neighbours that map the same file. *)
Definition get_elf_range (m : DsoMap) (it : nat) : option (nat * nat) :=
  let? (_, d) := m !! it in
  let not_same_file kv := negb (d_inode d =? d_inode (snd kv)) || bool_decide (d_filename d <> d_filename (snd kv)) in
  Some ((it - find_index not_same_file (rev (take it m)))%nat,
        (S it + find_index not_same_file (drop (S it) m))%nat).

Definition get_intersection (m : DsoMap) (dso : Dso) : nat * nat :=
  let first := upper_bound m (d_start dso) in
  let first :=
    match first with
    | O => first
    | S p => match m !! p with
             | Some (_, d) => if d_start dso <=? d_end d then p else first
             | None => first
             end
    end in
  let last :=
    match m !! first with
    | None => first
    | Some (k, _) => if d_end dso <? k then first else lower_bound m (d_end dso +w 1)
    end in
  (first, last).

Definition is_intersection_allowed (old_so new_dso : Dso) : bool :=
  is_same_file old_so new_dso
  || (bool_decide (d_type old_so = kStandard) && bool_decide (d_type new_dso = kAnon)).

(** ** Update *)

(** The part of [erase_range] after the last mapping has been dealt with. *)
Definition erase_front (m : DsoMap) (first second : nat) (new_mapping : Dso) : option DsoMap :=
  let? (k, f) := m !! first in
  if (d_start f <? d_start new_mapping) && is_intersection_allowed f new_mapping then
    let m := map_modify k (fun d => adjust_end d (d_start new_mapping -w 1)) m in
    Some (take (S first) m ++ drop second m)
  else Some (take first m ++ drop second m).

(** [erase_range]; [None] is the fatal check on overlapping mappings. *)
Definition erase_range (m : DsoMap) (range : nat * nat) (new_mapping : Dso) : option DsoMap :=
  let '(first, second) := range in
  if (first =? second)%nat then Some m
  else
    let last := (second - 1)%nat in
    let? (klast, last_mapping) := m !! last in
    if (d_end new_mapping <? d_end last_mapping) && is_intersection_allowed last_mapping new_mapping then
      if d_start last_mapping <? d_start new_mapping then
        let right_part := adjust_start last_mapping (d_end new_mapping +w 1) in
        let m := map_assign (d_start right_part) right_part m in
        Some (map_modify klast (fun d => adjust_end d (d_start new_mapping -w 1)) m)
      else
        let only_one_mapping := (first =? last)%nat in
        let m1 := map_erase_at last m in
        let new_start := d_end new_mapping +w 1 in
        let '(inserted, m2) := map_insert new_start (adjust_start last_mapping new_start) m1 in
        if negb inserted then None
        else if only_one_mapping then Some m2
        else erase_front m2 first (second - 1) new_mapping
    else erase_front m first second new_mapping.

(** The position of [start], whether the mapping there is the same one, and the
    map with its end adjusted in that case. *)
Definition dso_find_adjust_same (m : DsoMap) (dso : Dso) : nat * bool * DsoMap :=
  let it := find_index (fun kv => fst kv =? d_start dso) m in
  match m !! it with
  | Some (k, d) => let '(same, d') := adjust_same d dso in (it, same, <[it := (k, d')]> m)
  | None => (it, false, m)
  end.

Definition insert_erase_overlap_pm (s : DsoStats) (pm : PidMapping) (dso : Dso) :
    option (bool * PidMapping * DsoStats) :=
  let '(_, same, m) := dso_find_adjust_same (pm_map pm) dso in
  if same : bool then Some (true, mkPM m (pm_bp pm) (jitdump_addr pm), s)
  else
    let? m := erase_range m (get_intersection m dso) dso in
    let jit := if bool_decide (d_type dso = kJITDump) then d_start dso else jitdump_addr pm in
    let '(inserted, m) := map_insert (d_start dso) dso m in
    Some (inserted, mkPM m (pm_bp pm) jit, incr_metric s kNewDso (d_type dso)).

Definition insert_erase_overlap (h : DsoHdr) (dso : Dso) : option (bool * DsoHdr) :=
  let? (r, pm, s) := insert_erase_overlap_pm (dh_stats h) (get_pid_mapping h (d_pid dso)) dso in
  Some (r, set_stats (set_pid_map h (<[d_pid dso := pm]> (pid_map h))) s).

Definition maybe_insert_erase_overlap (h : DsoHdr) (dso : Dso) (timestamp : Z) : option (bool * DsoHdr) :=
  let pm := get_pid_mapping h (d_pid dso) in
  if timestamp <? last_backpopulate_time (pm_bp pm)
  then Some (false, set_pid_map h (<[d_pid dso := pm]> (pid_map h)))
  else let? (_, h') := insert_erase_overlap h dso in Some (true, h').

(** ** Backpopulate *)

(** What [sscanf] extracts from a line; [None] when it does not match. *)
Record proc_fields := mkPF {
  pf_start : Z; pf_end : Z; pf_mode : list ascii; pf_off : Z; pf_inode : Z; pf_rest : string
}.

Definition mode_string_to_prot (mode : list ascii) : Z :=
  let bit i c p := match mode !! i with Some x => if Ascii.eqb x c then p else 0 | None => 0 end in
  Z.lor (Z.lor (bit 0%nat "r"%char PROT_READ) (bit 1%nat "w"%char PROT_WRITE)) (bit 2%nat "x"%char PROT_EXEC).

Fixpoint trim_left (s : string) : string :=
  match s with
  | String c s' => if Ascii.eqb c " "%char || Ascii.eqb c "009"%char then trim_left s' else s
  | EmptyString => s
  end.

Definition newline : string := String "010"%char EmptyString.

Definition dso_from_proc_line (pid : Z) (line : option proc_fields) : Dso :=
  match line with
  | None => invalid_dso
  | Some f =>
      let remaining := trim_left (pf_rest f) in
      let remaining := if ends_with newline remaining
                       then String.substring 0 (String.length remaining - 1) remaining else remaining in
      new_dso pid (pf_start f) (pf_end f -w 1) (pf_off f) remaining (pf_inode f) (mode_string_to_prot (pf_mode f)) kProcMaps
  end.

Fixpoint backpopulate_lines (s : DsoStats) (pm : PidMapping) (pid : Z) (lines : list (option proc_fields)) (added : Z) :
    option (PidMapping * DsoStats * Z) :=
  match lines with
  | [] => Some (pm, s, added)
  | l :: lines' =>
      let dso := dso_from_proc_line pid l in
      if d_pid dso =? -1 then backpopulate_lines s pm pid lines' added
      else
        let? (inserted, pm', s') := insert_erase_overlap_pm s pm dso in
        backpopulate_lines s' pm' pid lines' (if inserted : bool then i32 (added + 1) else added)
  end.

(** [pid_backpopulate]; [maps]: the lines of the maps file, if it can be opened;
    [now]: the clock.  Whether it was available, the number of elements added. *)
Definition pid_backpopulate_pm (s : DsoStats) (pm : PidMapping) (pid now : Z) (maps : option (list (option proc_fields)))
    (nb_elts_added : Z) : option (bool * Z * PidMapping * DsoStats) :=
  let bp := pm_bp pm in
  let bp := mkBP (i32 (nb_unfound_dsos bp + 1)) (last_backpopulate_time bp) (perm bp) in
  match perm bp with
  | kForbidden => Some (false, nb_elts_added, mkPM (pm_map pm) bp (jitdump_addr pm), s)
  | kAllowed =>
      let s := incr_backpopulate_count s in
      let bp := mkBP (nb_unfound_dsos bp) now (perm bp) in
      let pm := mkPM (pm_map pm) bp (jitdump_addr pm) in
      match maps with
      | None => Some (false, 0, pm, s)
      | Some lines =>
          let? (pm, s, added) := backpopulate_lines s pm pid lines 0 in
          let pm := if added =? 0
                    then mkPM (pm_map pm) (mkBP (nb_unfound_dsos (pm_bp pm)) (last_backpopulate_time (pm_bp pm)) kForbidden) (jitdump_addr pm)
                    else pm in
          Some (true, added, pm, s)
      end
  end.

Definition pid_backpopulate (h : DsoHdr) (pid now : Z) (maps : option (list (option proc_fields))) (nb_elts_added : Z) :
    option (bool * Z * DsoHdr) :=
  let? (ok, added, pm, s) := pid_backpopulate_pm (dh_stats h) (get_pid_mapping h pid) pid now maps nb_elts_added in
  Some (ok, added, set_stats (set_pid_map h (<[pid := pm]> (pid_map h))) s).

Definition k_zero_page_limit : Z := 4096.

(** [dso_find_or_backpopulate]: the lookup result refers to the returned map. *)
Definition dso_find_or_backpopulate (h : DsoHdr) (pid addr now : Z) (maps : option (list (option proc_fields))) :
    option (nat * bool * DsoHdr) :=
  let pm := get_pid_mapping h pid in
  let h := set_pid_map h (<[pid := pm]> (pid_map h)) in
  if addr <? k_zero_page_limit then Some (length (pm_map pm), false, h)
  else
    let '(it, found) := dso_find_closest (pm_map pm) addr in
    if found : bool then Some (it, true, h)
    else
      let? (ok, added, h') := pid_backpopulate h pid now maps 0 in
      if ok && negb (added =? 0)
      then let '(it, found) := dso_find_closest (pm_map (get_pid_mapping h' pid)) addr in Some (it, found, h')
      else Some (it, false, h').

(** ** Processes *)

Definition pid_free (h : DsoHdr) (pid : Z) : DsoHdr := set_pid_map h (delete pid (pid_map h)).

Definition pid_fork (h : DsoHdr) (child_pid parent_pid : Z) : DsoHdr :=
  match pid_map h !! parent_pid, pid_map h !! child_pid with
  | None, _ => h
  | _, Some _ => h
  | Some parent, None =>
      let m := foldl (fun m kv => map_assign (fst kv) (set_pid (snd kv) child_pid) m) [] (pm_map parent) in
      set_pid_map h (<[child_pid := mkPM m init_bp 0]> (pid_map h))
  end.

Definition reset_backpopulate_state (h : DsoHdr) (reset_threshold : Z) : DsoHdr :=
  set_pid_map h (fmap (fun pm => if reset_threshold <=? nb_unfound_dsos (pm_bp pm)
                                 then mkPM (pm_map pm) init_bp (jitdump_addr pm) else pm) (pid_map h)).

Definition clear_unvisited (h : DsoHdr) (visited_pids : gset Z) : Z * DsoHdr :=
  let pids_to_clear := filter (fun p => p ∉ visited_pids) (map fst (map_to_list (pid_map h))) in
  (Z.of_nat (length pids_to_clear), set_pid_map h (foldl (fun m p => delete p m) (pid_map h) pids_to_clear)).

Definition get_nb_dso (h : DsoHdr) : Z :=
  i32 (u32 (zsum (map (fun el => Z.of_nat (length (pm_map (snd el)))) (map_to_list (pid_map h))))).

Fixpoint check_mapping (pid : Z) (previous : option Dso) (m : DsoMap) : bool :=
  match m with
  | [] => true
  | (start, dso) :: m' =>
      if negb (d_pid dso =? pid) then false
      else if negb (start =? d_start dso) then false
      else if match previous with Some p => d_start dso <=? d_end p | None => false end then false
      else check_mapping pid (Some dso) m'
  end.

Definition check_invariants (h : DsoHdr) : bool :=
  forallb (fun el => check_mapping (fst el) None (pm_map (snd el))) (map_to_list (pid_map h)).

(** ** File identifiers *)

Section file_info.
(** [get_file_inode]: inode and size of a path. *)
Variable get_file_inode : string -> option (Z * Z).

Definition find_file_info (h : DsoHdr) (dso : Dso) : FileInfo :=
  let proc_path := (path_to_proc h +:+ "/proc/" +:+ pretty (d_pid dso) +:+ "/root" +:+ d_filename dso)%string in
  let from_proc := match get_file_inode proc_path with
                   | Some (inode, size) => mkFI proc_path size inode
                   | None => mkFI "" 0 0
                   end in
  match get_file_inode (d_filename dso) with
  | Some (inode, size) => if inode =? d_inode dso then mkFI (d_filename dso) size inode else from_proc
  | None => from_proc
  end.

Definition set_files (h : DsoHdr) (m : gmap (Z * Z) Z) (v : list FileInfoValue) (dd : Z) : DsoHdr :=
  mkDH (pid_map h) (dh_stats h) m v (path_to_proc h) (dd_profiling_fd h) dd.

(** The identifier (also stored in the mapping) and the new state. *)
Definition update_id_from_path (h : DsoHdr) (dso : Dso) : Z * DsoHdr :=
  let file_info := find_file_info h dso in
  if fi_inode file_info =? 0 then (k_file_info_error, h)
  else
    let key := (fi_inode file_info, u64 (fi_size file_info)) in
    match file_info_inode_map h !! key with
    | None =>
        let id := i32 (Z.of_nat (length (file_info_vector h))) in
        (id, set_files h (<[key := id]> (file_info_inode_map h))
               (file_info_vector h ++ [mkFIV file_info id]) (dd_profiling_file_info h))
    | Some id =>
        (id, match file_info_vector h !! Z.to_nat id with
             | Some old =>
                 if bool_decide (fi_path file_info = fi_path (fiv_info old)) then h
                 else set_files h (file_info_inode_map h)
                        (<[Z.to_nat id := mkFIV file_info id]> (file_info_vector h)) (dd_profiling_file_info h)
             | None => h
             end)
    end.

Definition set_dd (h : DsoHdr) (dd : Z) : DsoHdr := set_files h (file_info_inode_map h) (file_info_vector h) dd.

Definition update_id_dd_profiling (h : DsoHdr) (dso : Dso) : Z * DsoHdr :=
  if negb (dd_profiling_file_info h =? k_file_info_undef) then (dd_profiling_file_info h, h)
  else if negb (dd_profiling_fd h =? -1) then
    let id := i32 (Z.of_nat (length (file_info_vector h))) in
    (id, set_files h (file_info_inode_map h) (file_info_vector h ++ [mkFIV (mkFI (d_filename dso) 0 0) id]) id)
  else
    let '(id, h') := update_id_from_path h dso in (id, set_dd h' id).

Definition update_id_from_dso (h : DsoHdr) (dso : Dso) : Z * DsoHdr :=
  if negb (has_relevant_path (d_type dso)) then (k_file_info_error, h)
  else if bool_decide (d_type dso = kDDProfiling) then update_id_dd_profiling h dso
  else update_id_from_path h dso.

Definition get_or_insert_file_info (h : DsoHdr) (dso : Dso) : Z * DsoHdr :=
  if negb (d_id dso =? k_file_info_undef) then (d_id dso, h)
  else update_id_from_dso (set_stats h (incr_metric (dh_stats h) kTargetDso (d_type dso))) dso.

End file_info.

(** ** Well-formed maps *)

Definition dso_ok (d : Dso) : Prop := 0 <= d_start d <= d_end d /\ d_end d < 2 ^ 64 - 1.

Definition kv_ok (pid : Z) (kv : Z * Dso) : Prop :=
  fst kv = d_start (snd kv) /\ dso_ok (snd kv) /\ d_pid (snd kv) = pid.

Definition before (a b : Z * Dso) : Prop := d_end (snd a) < fst b.

Record map_wf (pid : Z) (m : DsoMap) : Prop := {
  mw_ok : Forall (kv_ok pid) m;
  mw_sorted : StronglySorted before m
}.

(** ** Sorted lists *)

Lemma find_index_app {A} (p : A -> bool) x y :
  Forall (fun a => p a = false) x -> Forall (fun a => p a = true) y -> find_index p (x ++ y) = length x.
Proof.
  intros Hx Hy. induction Hx as [|a x Ha _ IH]; cbn [app find_index length].
  - destruct Hy as [|b y Hb _]; [done|]. cbn [find_index]. by rewrite Hb.
  - by rewrite Ha, IH.
Qed.

Lemma find_index_false {A} (p : A -> bool) l : Forall (fun a => p a = false) (take (find_index p l) l).
Proof.
  induction l as [|a l IH]; cbn [find_index take]; [constructor|].
  destruct (p a) eqn:E; cbn [take]; by constructor.
Qed.

(** When the predicate is monotone along the list, all elements from the found
    one on satisfy it. *)
Lemma find_index_true {A} (R : A -> A -> Prop) (p : A -> bool) l :
  StronglySorted R l -> (forall a b, a ∈ l -> b ∈ l -> R a b -> p a = true -> p b = true) ->
  Forall (fun a => p a = true) (drop (find_index p l) l).
Proof.
  intros Hs. induction Hs as [|a l Hs IH Ha]; intros Hm; cbn [find_index drop]; [constructor|].
  destruct (p a) eqn:E; cbn [drop].
  - constructor; [done|]. rewrite Forall_forall in Ha |- *. intros b Hb.
    eapply Hm; [by left|by right|by apply Ha|done].
  - apply IH. intros x y Hx Hy. apply Hm; by right.
Qed.

Lemma StronglySorted_app_iff {A} (R : A -> A -> Prop) x y :
  StronglySorted R (x ++ y) <-> StronglySorted R x /\ StronglySorted R y /\ (forall a b, a ∈ x -> b ∈ y -> R a b).
Proof.
  induction x as [|a x IH]; cbn [app].
  - split; [intros H; split_and!; [constructor|done|]; intros a b Ha; by apply not_elem_of_nil in Ha|tauto].
  - split.
    + intros H. inversion_clear H as [|? ? H1 H2]. apply IH in H1 as (H3 & H4 & H5). apply Forall_app in H2 as [H6 H7].
      split_and!; [by constructor|done|]. intros u v Hu Hv. apply elem_of_cons in Hu as [->|Hu]; [|by apply H5].
      rewrite Forall_forall in H7. by apply H7.
    + intros (H1 & H2 & H3). inversion_clear H1 as [|? ? H4 H5]. constructor.
      * apply IH. split_and!; [done..|]. intros u v Hu. apply H3. by right.
      * apply Forall_app. split; [done|]. apply Forall_forall. intros v Hv. apply H3; [by left|done].
Qed.

Lemma map_wf_app pid x y : map_wf pid (x ++ y) <->
  map_wf pid x /\ map_wf pid y /\ (forall a b, a ∈ x -> b ∈ y -> before a b).
Proof.
  split.
  - intros [H1 H2]. apply Forall_app in H1 as [? ?]. apply StronglySorted_app_iff in H2 as (? & ? & ?). by split_and!.
  - intros ([? ?] & [? ?] & ?). split; [by apply Forall_app|by apply StronglySorted_app_iff].
Qed.

Lemma map_wf_cons pid kv m : map_wf pid (kv :: m) <-> kv_ok pid kv /\ map_wf pid m /\ Forall (before kv) m.
Proof.
  split.
  - intros [H1 H2]. inversion_clear H1. inversion_clear H2. by split_and!.
  - intros (H1 & [H2 H3] & H4). split; by constructor.
Qed.

Lemma map_wf_nil pid : map_wf pid [].
Proof. split; constructor. Qed.

Lemma map_wf_elem pid m kv : map_wf pid m -> kv ∈ m -> kv_ok pid kv.
Proof. intros [H _]. rewrite Forall_forall in H. apply H. Qed.

(** Mappings that end before, overlap, and start after a new mapping. *)
Record split3 (pid : Z) (m : DsoMap) (dso : Dso) (a b c : DsoMap) : Prop := {
  s3_eq : m = a ++ b ++ c;
  s3_a : Forall (fun kv => d_end (snd kv) < d_start dso) a;
  s3_b : Forall (fun kv => d_start dso <= d_end (snd kv) /\ fst kv <= d_end dso) b;
  s3_c : Forall (fun kv => d_end dso < fst kv) c
}.

Lemma split3_exists pid m dso : map_wf pid m -> dso_ok dso -> exists a b c, split3 pid m dso a b c.
Proof.
  intros Hm Hd. pose proof Hm as [_ Hs].
  set (p1 := fun kv : Z * Dso => d_start dso <=? d_end (snd kv)).
  set (p2 := fun kv : Z * Dso => d_end dso <? fst kv).
  pose proof (find_index_false p1 m) as Ha. assert (Hr : Forall (fun kv => p1 kv = true) (drop (find_index p1 m) m)).
  { apply (find_index_true before); [done|]. unfold before, p1. intros x y Hx Hy Hxy E. zbool. apply Z.leb_le.
    destruct (map_wf_elem _ _ _ Hm Hy) as (E2 & (Hy1 & _) & _). rewrite E2 in Hxy. lia. }
  set (r := drop (find_index p1 m) m) in *.
  assert (Hmr : m = take (find_index p1 m) m ++ r) by (unfold r; by rewrite take_drop).
  assert (Hwr : map_wf pid r). { rewrite Hmr in Hm. by apply map_wf_app in Hm as (_ & ? & _). }
  pose proof (find_index_false p2 r) as Hb. assert (Hc : Forall (fun kv => p2 kv = true) (drop (find_index p2 r) r)).
  { apply (find_index_true before); [apply Hwr|]. unfold before, p2. intros x y Hx Hy Hxy E. zbool. apply Z.ltb_lt.
    destruct (map_wf_elem _ _ _ Hwr Hx) as (E2 & (Hx1 & _) & _). lia. }
  exists (take (find_index p1 m) m), (take (find_index p2 r) r), (drop (find_index p2 r) r). split.
  - rewrite take_drop. exact Hmr.
  - eapply Forall_impl; [exact Ha|]. unfold p1. intros x Hx. cbn beta in Hx. zbool. lia.
  - apply Forall_forall. intros x Hx. rewrite Forall_forall in Hb, Hr. specialize (Hb x Hx). unfold p2 in Hb.
    assert (Hxr : x ∈ r) by (eapply elem_of_take in Hx as (i & Hx & _); by eapply list_elem_of_lookup_2).
    specialize (Hr x Hxr). unfold p1 in Hr. zbool. lia.
  - eapply Forall_impl; [exact Hc|]. unfold p2. intros x Hx. cbn beta in Hx. zbool. lia.
Qed.

Lemma upper_bound_split pid m dso a b c :
  map_wf pid m -> dso_ok dso -> split3 pid m dso a b c ->
  upper_bound m (d_start dso) =
    match b with (k, _) :: _ => if k <=? d_start dso then S (length a) else length a | [] => length a end.
Proof.
  intros Hm Hd [-> Ha Hb Hc]. unfold upper_bound.
  assert (Hpa : Forall (fun kv => (d_start dso <? fst kv) = false) a).
  { rewrite Forall_forall in Ha |- *. intros x Hx. specialize (Ha x Hx). apply Z.ltb_ge.
    apply map_wf_app in Hm as (Hma & _). destruct (map_wf_elem _ _ _ Hma Hx) as (-> & (? & _) & _). lia. }
  assert (Hpc : Forall (fun kv => (d_start dso <? fst kv) = true) c).
  { eapply Forall_impl; [exact Hc|]. cbn beta. intros x Hx. apply Z.ltb_lt. destruct Hd. lia. }
  destruct b as [|[k d] b]; [by apply find_index_app|].
  apply map_wf_app in Hm as (_ & Hm & _). cbn [app] in Hm. apply map_wf_cons in Hm as (Hk & _ & Hbef).
  inversion_clear Hb as [|? ? [Hkd Hke] Hb']. cbn [snd fst] in *.
  assert (Hpb : Forall (fun kv => (d_start dso <? fst kv) = true) (b ++ c)).
  { eapply Forall_impl; [exact Hbef|]. cbn beta. unfold before. cbn [snd]. intros kv Hkv. apply Z.ltb_lt. lia. }
  destruct (Z.leb_spec k (d_start dso)).
  - change (((k, d) :: b) ++ c) with ([(k, d)] ++ (b ++ c)). rewrite app_assoc.
    rewrite find_index_app; [rewrite length_app; simpl; lia| |done].
    apply Forall_app. split; [done|]. constructor; [|done]. cbn [fst]. by apply Z.ltb_ge.
  - change (((k, d) :: b) ++ c) with ((k, d) :: (b ++ c)). apply find_index_app; [done|].
    constructor; [|done]. cbn [fst]. by apply Z.ltb_lt.
Qed.

(** [get_intersection] returns exactly the overlapping mappings. *)
Lemma get_intersection_split pid m dso a b c :
  map_wf pid m -> dso_ok dso -> split3 pid m dso a b c ->
  get_intersection m dso = (length a, (length a + length b)%nat).
Proof.
  intros Hm Hd Hs. pose proof (upper_bound_split _ _ _ _ _ _ Hm Hd Hs) as Hub. destruct Hs as [Em Ha Hb Hc].
  unfold get_intersection. rewrite Hub.
  assert (Hfirst : match match b with (k, _) :: _ => if k <=? d_start dso then S (length a) else length a | [] => length a end with
     | O => O
     | S p => match m !! p with
              | Some (_, d) => if d_start dso <=? d_end d then p else S p
              | None => S p
              end
     end = length a).
  { assert (Hprev : match length a with
       | O => O
       | S p => match m !! p with Some (_, d) => if d_start dso <=? d_end d then p else S p | None => S p end
       end = length a).
    { destruct (length a) as [|p] eqn:El; [done|]. rewrite Em, lookup_app_l by lia.
      destruct (a !! p) as [[k d]|] eqn:Ep; [|done]. rewrite Forall_lookup in Ha. specialize (Ha _ _ Ep). cbn [snd] in Ha.
      destruct (Z.leb_spec (d_start dso) (d_end d)); [lia|done]. }
    destruct b as [|[k d] b]; [done|]. destruct (Z.leb_spec k (d_start dso)); [|done].
    rewrite Em. cbn [app]. rewrite list_lookup_middle by done. inversion_clear Hb as [|? ? [Hkd _] _]. cbn [snd] in Hkd.
    destruct (Z.leb_spec (d_start dso) (d_end d)); [done|lia]. }
  set (f0 := match b with (k, _) :: _ => if k <=? d_start dso then S (length a) else length a | [] => length a end) in *.
  assert (Hf : match f0 with
     | O => f0
     | S p => match m !! p with
              | Some (_, d) => if d_start dso <=? d_end d then p else f0
              | None => f0
              end
     end = length a) by (rewrite <- Hfirst; by destruct f0).
  rewrite Hf. f_equal. rewrite Em, lookup_app_r, Nat.sub_diag by lia.
  assert (Hlb : lower_bound (a ++ b ++ c) (d_end dso +w 1) = (length a + length b)%nat).
  { unfold lower_bound. destruct Hd as [Hd1 Hd2]. rewrite u64_small by (unfold is_u64; lia).
    rewrite app_assoc, <- length_app. apply find_index_app.
    - apply Forall_app. split.
      + rewrite Em in Hm. apply map_wf_app in Hm as (Hma & _). rewrite Forall_forall in Ha |- *. intros x Hx.
        specialize (Ha x Hx). destruct (map_wf_elem _ _ _ Hma Hx) as (-> & (? & _) & _). apply Z.leb_gt. lia.
      + eapply Forall_impl; [exact Hb|]. cbn beta. intros x Hx. apply Z.leb_gt. lia.
    - eapply Forall_impl; [exact Hc|]. cbn beta. intros x Hx. apply Z.leb_le. lia. }
  destruct b as [|[k d] b]; cbn [app].
  - destruct c as [|[k d] c]; [simpl; lia|]. cbn [lookup list_lookup]. inversion_clear Hc as [|? ? Hk _]. cbn [fst] in Hk.
    destruct (Z.ltb_spec (d_end dso) k); [simpl; lia|lia].
  - cbn [lookup list_lookup]. inversion_clear Hb as [|? ? [_ Hk] _]. cbn [fst] in Hk.
    destruct (Z.ltb_spec (d_end dso) k); [lia|done].
Qed.

(** ** std::map operations on sorted lists *)

Lemma map_assign_app k v x y :
  Forall (fun kv => fst kv < k) x -> Forall (fun kv => k < fst kv) y -> map_assign k v (x ++ y) = x ++ (k, v) :: y.
Proof.
  intros Hx Hy. induction Hx as [|[k' v'] x Hk _ IH]; cbn [app map_assign].
  - destruct Hy as [|[k' v'] y Hk _]; [done|]. cbn [map_assign fst] in *. destruct (Z.ltb_spec k k'); [done|lia].
  - cbn [fst] in Hk. destruct (Z.ltb_spec k k'); [lia|]. destruct (Z.eqb_spec k k'); [lia|]. by rewrite IH.
Qed.

Lemma map_insert_app k v x y :
  Forall (fun kv => fst kv < k) x -> Forall (fun kv => k < fst kv) y ->
  map_insert k v (x ++ y) = (true, x ++ (k, v) :: y).
Proof.
  intros Hx Hy. unfold map_insert. assert (map_has k (x ++ y) = false) as ->.
  { unfold map_has. rewrite existsb_app. apply orb_false_iff. split.
    - apply not_true_iff_false. intros H. apply existsb_exists in H as (kv & Hin & E). zbool.
      rewrite Forall_forall in Hx. apply list_elem_of_In, Hx in Hin. lia.
    - apply not_true_iff_false. intros H. apply existsb_exists in H as (kv & Hin & E). zbool.
      rewrite Forall_forall in Hy. apply list_elem_of_In, Hy in Hin. lia. }
  by rewrite map_assign_app.
Qed.

Lemma map_modify_app k f x d y :
  Forall (fun kv => fst kv <> k) x -> Forall (fun kv => fst kv <> k) y ->
  map_modify k f (x ++ (k, d) :: y) = x ++ (k, f d) :: y.
Proof.
  intros Hx Hy. assert (Hid : forall l : DsoMap, Forall (fun kv => fst kv <> k) l ->
    map (fun kv => if fst kv =? k then (fst kv, f (snd kv)) else kv) l = l).
  { intros l Hl. induction Hl as [|kv l Hkv _ IH]; [done|]. cbn [map]. rewrite IH.
    destruct (Z.eqb_spec (fst kv) k); [done|done]. }
  unfold map_modify. rewrite map_app. cbn [map fst snd]. by rewrite Z.eqb_refl, !Hid.
Qed.

(** ** What remains of the overlapped mappings *)

Definition left_part (b : DsoMap) (new : Dso) (l : DsoMap) : Prop :=
  l = [] \/ exists k f b', b = (k, f) :: b' /\ d_start f < d_start new /\ l = [(k, adjust_end f (d_start new - 1))].
Definition right_part (b : DsoMap) (new : Dso) (r : DsoMap) : Prop :=
  r = [] \/ exists k l b', b = b' ++ [(k, l)] /\ d_end new < d_end l /\
            r = [(d_end new + 1, adjust_start l (d_end new + 1))].

Lemma wf_keys_lt pid x y : map_wf pid (x ++ y) -> forall a b, a ∈ x -> b ∈ y -> fst a < fst b.
Proof.
  intros H a b Ha Hb. apply map_wf_app in H as (Hx & _ & Hb'). specialize (Hb' a b Ha Hb). unfold before in Hb'.
  destruct (map_wf_elem _ _ _ Hx Ha) as (-> & (? & _) & _). lia.
Qed.

Lemma erase_front_shape pid a b c new :
  dso_ok new -> b <> [] -> map_wf pid (a ++ b) -> Forall (fun kv => forall k, k ∈ map fst b -> k < fst kv) c ->
  exists l, erase_front (a ++ b ++ c) (length a) (length a + length b) new = Some (a ++ l ++ c) /\ left_part b new l.
Proof.
  intros Hnew Hb Hm Hc. destruct b as [|[k f] b]; [done|]. unfold erase_front.
  rewrite lookup_app_r, Nat.sub_diag by lia. cbn [app lookup list_lookup].
  assert (Hfk : kv_ok pid (k, f)). { apply map_wf_app in Hm as (_ & Hm & _). by apply map_wf_cons in Hm as (? & _). }
  destruct Hfk as (Ek & (Hf1 & Hf2) & _). cbn [fst snd] in *.
  destruct (Z.ltb_spec (d_start f) (d_start new)); cbn [andb].
  - destruct (is_intersection_allowed f new).
    + exists [(k, adjust_end f (d_start new - 1))]. split; [|right; by exists k, f, b].
      destruct Hnew as [Hn1 Hn2].
      rewrite map_modify_app.
      * rewrite u64_small by (unfold is_u64; lia).
        set (x := (k, adjust_end f (d_start new - 1))).
        replace (a ++ x :: b ++ c) with ((a ++ [x]) ++ b ++ c) by (by rewrite <- app_assoc).
        rewrite (take_app_length' (a ++ [x])) by (rewrite length_app; simpl; lia).
        rewrite (app_assoc (a ++ [x]) b c), drop_app_length' by (rewrite !length_app; simpl; lia).
        by rewrite <- app_assoc.
      * apply Forall_forall. intros x Hx. pose proof (wf_keys_lt _ _ _ Hm x (k, f) Hx ltac:(by left)). cbn [fst] in *. lia.
      * apply Forall_app. split.
        -- apply map_wf_app in Hm as (_ & Hm & _). change ((k, f) :: b) with ([(k, f)] ++ b) in Hm.
           apply Forall_forall. intros x Hx. pose proof (wf_keys_lt _ _ _ Hm (k, f) x ltac:(by left) Hx). cbn [fst] in *. lia.
        -- eapply Forall_impl; [exact Hc|]. cbn beta. intros x Hx. specialize (Hx k ltac:(by left)). lia.
    + exists []. split; [|by left]. cbn [app]. rewrite take_app_length. f_equal. f_equal.
      change (a ++ (k, f) :: b ++ c) with (a ++ ((k, f) :: b) ++ c). rewrite app_assoc. apply drop_app_length'.
      rewrite length_app. simpl. lia.
  - exists []. split; [|by left]. cbn [app]. rewrite take_app_length. f_equal. f_equal.
    change (a ++ (k, f) :: b ++ c) with (a ++ ((k, f) :: b) ++ c). rewrite app_assoc. apply drop_app_length'.
    rewrite length_app. simpl. lia.
Qed.

Lemma left_part_app b l new x : left_part b new x -> left_part (b ++ l) new x.
Proof. intros [->|(k & f & b' & -> & H1 & ->)]; [by left|]. right. by exists k, f, (b' ++ l). Qed.

Lemma split3_keys pid m new a b c : map_wf pid m -> dso_ok new -> split3 pid m new a b c ->
  Forall (fun kv => fst kv < d_start new) a /\ Forall (fun kv => d_end new < fst kv) c /\
  (forall x y, x ∈ b -> y ∈ c -> fst x < fst y).
Proof.
  intros Hm Hn [-> Ha Hb Hc]. split_and!.
  - apply map_wf_app in Hm as (Hma & _). rewrite Forall_forall in Ha |- *. intros x Hx. specialize (Ha x Hx).
    destruct (map_wf_elem _ _ _ Hma Hx) as (-> & (? & _) & _). lia.
  - done.
  - apply map_wf_app in Hm as (_ & Hm & _). by apply (wf_keys_lt pid).
Qed.

(** [erase_range] never hits the fatal check; it keeps the mappings that do not
    overlap, possibly a left part of the first overlapped one and a right part of
    the last. *)
Lemma erase_range_shape pid m new a b c :
  map_wf pid m -> dso_ok new -> split3 pid m new a b c ->
  exists l r, erase_range m (length a, length a + length b)%nat new = Some (a ++ l ++ r ++ c) /\
    left_part b new l /\ right_part b new r.
Proof.
  intros Hm Hn Hs. destruct (split3_keys _ _ _ _ _ _ Hm Hn Hs) as (Ka & Kc & Kbc). destruct Hs as [Em Ha Hb Hc].
  unfold erase_range. destruct (Nat.eqb_spec (length a) (length a + length b)) as [Hl|Hl].
  { destruct b; [|simpl in Hl; lia]. exists [], []. split; [by rewrite Em|]. split; by left. }
  destruct (rev b) as [|[klast l] rb0] eqn:Er.
  { apply (f_equal (@length _)) in Er. rewrite length_rev in Er. simpl in Er. lia. }
  set (b0 := rev rb0). assert (Eb : b = b0 ++ [(klast, l)]) by (by rewrite <- (rev_involutive b), Er). clear Er.
  assert (Hlen : length b = S (length b0)) by (rewrite Eb, length_app; simpl; lia).
  assert (Hmb : map_wf pid (a ++ b)). { rewrite Em, app_assoc in Hm. by apply map_wf_app in Hm as (? & _). }
  assert (Hlast : kv_ok pid (klast, l)). { eapply (map_wf_elem pid (a ++ b)); [done|]. rewrite Eb. rewrite !elem_of_app, list_elem_of_singleton. tauto. }
  destruct Hlast as (El & (Hl1 & Hl2) & _). cbn [fst snd] in *. destruct Hn as [Hn1 Hn2].
  assert (Hlk : m !! (length a + length b - 1)%nat = Some (klast, l)).
  { rewrite Em, Eb, lookup_app_r by (rewrite length_app; simpl; lia). rewrite <- app_assoc.
    rewrite lookup_app_r by (rewrite length_app; simpl; lia). rewrite length_app. simpl.
    replace (length a + (length b0 + 1) - 1 - length a - length b0)%nat with 0%nat by lia. done. }
  rewrite Hlk. destruct (Z.ltb_spec (d_end new) (d_end l)) as [Hend|Hend]; cbn [andb].
  2: { destruct (erase_front_shape pid a b c new) as (lf & E & Hlf); [by split|by rewrite Eb; destruct b0|done| |].
       - apply Forall_forall. intros y Hy k Hk. apply list_elem_of_fmap in Hk as (x & -> & Hx). by apply Kbc.
       - exists lf, []. rewrite Em, E. split; [done|]. split; [done|by left]. }
  assert (Hright : right_part b new [(d_end new + 1, adjust_start l (d_end new + 1))]) by (right; by exists klast, l, b0).
  assert (Hu : d_end new +w 1 = d_end new + 1) by (apply u64_small; unfold is_u64; lia).
  assert (Hcgt : Forall (fun kv => d_end new + 1 < fst kv) c).
  { apply Forall_forall. intros y Hy. assert (Hyl : before (klast, l) y).
    { rewrite Em, app_assoc in Hm. apply map_wf_app in Hm as (_ & _ & Hbf). apply Hbf; [|done]. rewrite Eb. rewrite !elem_of_app, list_elem_of_singleton. tauto. }
    unfold before in Hyl. cbn [snd] in Hyl. lia. }
  destruct (is_intersection_allowed l new); cbn [andb].
  2: { destruct (erase_front_shape pid a b c new) as (lf & E & Hlf); [by split|by rewrite Eb; destruct b0|done| |].
       - apply Forall_forall. intros y Hy k Hk. apply list_elem_of_fmap in Hk as (x & -> & Hx). by apply Kbc.
       - exists lf, []. rewrite Em, E. split; [done|]. split; [done|by left]. }
  assert (Hb0lt : Forall (fun kv => fst kv < d_end new + 1) b0).
  { rewrite Eb in Hb. apply Forall_app in Hb as [Hb _]. eapply Forall_impl; [exact Hb|]. cbn beta. intros x Hx. lia. }
  assert (Halt : Forall (fun kv => fst kv < d_end new + 1) a).
  { eapply Forall_impl; [exact Ka|]. cbn beta. intros x Hx. lia. }
  rewrite Hu. cbn [adjust_start d_start].
  destruct (Z.ltb_spec (d_start l) (d_start new)) as [Hst|Hst].
  - (* the new mapping is inside the last one *)
    assert (b0 = []) as E0.
    { destruct b0 as [|x b1]; [done|]. exfalso. rewrite Eb in Hb, Hmb. cbn [app] in Hb. inversion_clear Hb as [|? ? [Hx _] _].
      apply map_wf_app in Hmb as (_ & Hmb & _). cbn [app] in Hmb. apply map_wf_cons in Hmb as (_ & _ & Hbf).
      rewrite Forall_forall in Hbf. specialize (Hbf (klast, l) ltac:(apply elem_of_app; right; by left)). unfold before in Hbf. cbn [fst] in Hbf. lia. }
    rewrite E0 in *. cbn [app] in Eb. rewrite Em, Eb.
    replace (a ++ [(klast, l)] ++ c) with ((a ++ [(klast, l)]) ++ c) by (by rewrite <- app_assoc).
    rewrite map_assign_app; [|apply Forall_app; split; [done|constructor; [cbn [fst]; lia|done]]|done].
    rewrite <- app_assoc. cbn [app]. rewrite map_modify_app.
    + exists [(klast, adjust_end l (d_start new - 1))], [(d_end new + 1, adjust_start l (d_end new + 1))].
      rewrite u64_small by (unfold is_u64; lia). rewrite Eb in Hright.
      split; [done|]. split; [|done]. right. by exists klast, l, [].
    + apply Forall_forall. intros x Hx. pose proof (wf_keys_lt pid a b Hmb x (klast, l) Hx) as Hlt.
      rewrite Eb in Hlt. specialize (Hlt ltac:(by left)). cbn [fst] in Hlt. lia.
    + constructor; [cbn [fst]; lia|]. eapply Forall_impl; [exact Hcgt|]. cbn beta. intros x Hx. lia.
  - (* the new mapping covers the start of the last one *)
    assert (Herase : map_erase_at (length a + length b - 1) m = (a ++ b0) ++ c).
    { unfold map_erase_at. rewrite Em, Eb. replace (a ++ (b0 ++ [(klast, l)]) ++ c) with ((a ++ b0) ++ (klast, l) :: c)
        by (by rewrite <- !app_assoc). rewrite take_app_length' by (rewrite !length_app; simpl; lia).
      f_equal. rewrite length_app. simpl. replace (S (length a + (length b0 + 1) - 1)) with (length (a ++ b0) + 1)%nat
        by (rewrite length_app; lia). by rewrite drop_app_add. }
    rewrite Herase, map_insert_app; [|by apply Forall_app|done]. cbn [negb].
    destruct (Nat.eqb_spec (length a) (length a + length b - 1)) as [Hone|Hone].
    + assert (b0 = []) as E0 by (destruct b0; [done|simpl in Hlen; lia]). rewrite E0 in *. rewrite app_nil_r.
      exists [], [(d_end new + 1, adjust_start l (d_end new + 1))]. split; [done|]. split; [by left|done].
    + rewrite <- app_assoc. replace (length a + length b - 1)%nat with (length a + length b0)%nat by lia.
      destruct (erase_front_shape pid a b0 ((d_end new + 1, adjust_start l (d_end new + 1)) :: c) new) as (lf & E & Hlf);
        [by split|intros E0; rewrite E0 in Hlen; simpl in *; lia| | |].
      * rewrite Eb, app_assoc in Hmb. by apply map_wf_app in Hmb as (? & _).
      * apply Forall_forall. intros y Hy k Hk. apply list_elem_of_fmap in Hk as (x & -> & Hx).
        apply elem_of_cons in Hy as [->|Hy].
        -- rewrite Forall_forall in Hb0lt. by apply Hb0lt.
        -- apply Kbc; [|done]. rewrite Eb. rewrite !elem_of_app, list_elem_of_singleton. tauto.
      * exists lf, [(d_end new + 1, adjust_start l (d_end new + 1))]. rewrite E. split; [done|]. split; [|done].
        rewrite Eb. by apply left_part_app.
Qed.

(** ** Insertion *)

(** [m] maps address [x] through the mapping [d]. *)
Definition maps (m : DsoMap) (x : Z) (d : Dso) : Prop := exists k, (k, d) ∈ m /\ is_within d x = true.

(** The same mapping up to its bounds and where it was learnt from. *)
Definition same_mapping (d d' : Dso) : Prop :=
  d_offset d' = d_offset d /\ d_filename d' = d_filename d /\ d_inode d' = d_inode d /\ d_pid d' = d_pid d /\
  d_prot d' = d_prot d /\ d_id d' = d_id d /\ d_type d' = d_type d.

(** [d] stands for [dso]: same range, offset, protection, kind and, for files, the
    same file. *)
Definition stands_for (d dso : Dso) : Prop :=
  d_start d = d_start dso /\ d_end d = d_end dso /\ d_offset d = d_offset dso /\ d_prot d = d_prot dso /\
  d_type d = d_type dso /\ (d_type dso = kStandard -> d_filename d = d_filename dso /\ d_inode d = d_inode dso).

(** What inserting [dso] does to the map. *)
Record inserted (m : DsoMap) (dso : Dso) (m' : DsoMap) : Prop := {
  in_new : forall x, is_within dso x = true -> exists d, maps m' x d /\ stands_for d dso;
  in_old : forall x d', maps m' x d' -> is_within dso x = false -> exists d, maps m x d /\ same_mapping d d';
  in_keep : forall x d, maps m x d -> intersects d dso = false -> maps m' x d
}.

(** A mapping kept in part: its bounds shrink and stay clear of the new one. *)
Definition shrunk (d d' : Dso) : Prop := d_start d <= d_start d' /\ d_end d' <= d_end d /\ same_mapping d d'.

Lemma left_part_elem pid b new l k d' :
  map_wf pid b -> dso_ok new -> Forall (fun kv => d_start new <= d_end (snd kv) /\ fst kv <= d_end new) b ->
  left_part b new l -> (k, d') ∈ l ->
  kv_ok pid (k, d') /\ d_end d' < d_start new /\ exists d, (k, d) ∈ b /\ shrunk d d'.
Proof.
  intros Hm [Hn1 Hn2] Hb [->|(k' & f & b' & -> & Hlt & ->)] Hin; [by apply not_elem_of_nil in Hin|].
  apply list_elem_of_singleton in Hin. simplify_eq. apply map_wf_cons in Hm as (Hk & _).
  destruct Hk as (Ek & (Hf1 & Hf2) & Ep). inversion_clear Hb as [|? ? [Hb1 Hb2] _]. cbn [fst snd] in *.
  split; [|split].
  - split; [done|]. split; [|done]. split; cbn [adjust_end d_start d_end snd]; lia.
  - cbn [adjust_end d_end]. lia.
  - exists f. split; [by left|]. split; cbn [adjust_end d_start d_end]; [lia|]. split; [lia|done].
Qed.

Lemma right_part_elem pid b new r k d' :
  map_wf pid b -> dso_ok new -> Forall (fun kv => d_start new <= d_end (snd kv) /\ fst kv <= d_end new) b ->
  right_part b new r -> (k, d') ∈ r ->
  kv_ok pid (k, d') /\ d_end new < k /\ exists k0 d, (k0, d) ∈ b /\ shrunk d d' /\ d_end d' = d_end d.
Proof.
  intros Hm [Hn1 Hn2] Hb [->|(k' & f & b' & -> & Hlt & ->)] Hin; [by apply not_elem_of_nil in Hin|].
  apply list_elem_of_singleton in Hin. simplify_eq. apply map_wf_app in Hm as (_ & Hm & _). apply map_wf_cons in Hm as (Hk & _).
  destruct Hk as (Ek & (Hf1 & Hf2) & Ep). apply Forall_app in Hb as [_ Hb]. inversion_clear Hb as [|? ? [Hb1 Hb2] _]. cbn [fst snd] in *.
  split; [|split].
  - split; [done|]. split; [|done]. split; cbn [adjust_start d_start d_end snd]; lia.
  - lia.
  - exists k', f. split; [apply elem_of_app; right; by left|]. split; [|done].
    split; cbn [adjust_start d_start d_end]; [lia|]. split; [lia|done].
Qed.

Lemma singleton_sorted {A} (R : A -> A -> Prop) l : (length l <= 1)%nat -> StronglySorted R l.
Proof. destruct l as [|x [|y l]]; intros H; [constructor|repeat constructor|simpl in H; lia]. Qed.

Lemma left_part_length b new l : left_part b new l -> (length l <= 1)%nat.
Proof. intros [->|(?&?&?&_&_&->)]; simpl; lia. Qed.
Lemma right_part_length b new r : right_part b new r -> (length r <= 1)%nat.
Proof. intros [->|(?&?&?&_&_&->)]; simpl; lia. Qed.

Lemma insert_shape_wf pid m new a b c l r :
  map_wf pid m -> dso_ok new -> d_pid new = pid -> split3 pid m new a b c ->
  left_part b new l -> right_part b new r -> map_wf pid (a ++ l ++ (d_start new, new) :: r ++ c).
Proof.
  intros Hm Hn Hp Hs Hl Hr. destruct (split3_keys _ _ _ _ _ _ Hm Hn Hs) as (Ka & Kc & _). destruct Hs as [-> Ha Hb Hc].
  pose proof Hm as Hm0. apply map_wf_app in Hm as (Hwa & Hm & Habc). apply map_wf_app in Hm as (Hwb & Hwc & Hbc).
  assert (Lel : forall x, x ∈ l -> kv_ok pid x /\ d_end (snd x) < d_start new /\ exists d, (fst x, d) ∈ b /\ shrunk d (snd x)).
  { intros [k d'] Hx. by apply (left_part_elem pid b new l). }
  assert (Rel : forall x, x ∈ r -> kv_ok pid x /\ d_end new < fst x /\ exists k0 d, (k0, d) ∈ b /\ shrunk d (snd x) /\ d_end (snd x) = d_end d).
  { intros [k d'] Hx. by apply (right_part_elem pid b new r). }
  rewrite Forall_forall in Ha, Hc. destruct Hn as [Hn1 Hn2].
  apply map_wf_app. split; [done|]. split.
  - apply map_wf_app. split; [|split].
    + split; [apply Forall_forall; intros x Hx; by apply Lel|eapply singleton_sorted, left_part_length, Hl].
    + apply map_wf_cons. split; [|split].
      * split; [done|]. by split; [split|].
      * apply map_wf_app. split; [|split; [done|]].
        -- split; [apply Forall_forall; intros x Hx; by apply Rel|eapply singleton_sorted, right_part_length, Hr].
        -- intros x y Hx Hy. destruct (Rel x Hx) as (_ & _ & k0 & d & Hd & _ & Eend).
           specialize (Hbc (k0, d) y Hd Hy). unfold before in *. cbn [snd] in Hbc. by rewrite Eend.
      * apply Forall_app. split; apply Forall_forall; intros x Hx; unfold before; cbn [snd].
        -- by apply Rel.
        -- by apply Hc.
    + intros x y Hx Hy. destruct (Lel x Hx) as (_ & Hlx & _). unfold before. apply elem_of_cons in Hy as [->|Hy]; [done|].
      apply elem_of_app in Hy as [Hy|Hy]; [destruct (Rel y Hy) as (_ & Hry & _); lia|specialize (Hc y Hy); cbn beta in Hc; lia].
  - intros x y Hx Hy. specialize (Ha x Hx). cbn beta in Ha. unfold before. apply elem_of_app in Hy as [Hy|Hy].
    + destruct (Lel y Hy) as (_ & _ & d & Hd & _). apply (Habc x (fst y, d) Hx). apply elem_of_app. by left.
    + apply elem_of_cons in Hy as [->|Hy]; [done|]. apply elem_of_app in Hy as [Hy|Hy].
      * destruct (Rel y Hy) as (_ & Hry & _). lia.
      * specialize (Hc y Hy). cbn beta in Hc. lia.
Qed.

Lemma same_mapping_refl d : same_mapping d d.
Proof. by repeat split. Qed.

Lemma within_intersects d o x : is_within d x = true -> is_within o x = true -> intersects d o = true.
Proof.
  intros H1 H2. apply is_within_iff in H1. apply is_within_iff in H2. apply intersects_iff; [lia|lia|].
  exists x. by rewrite !is_within_iff.
Qed.

Lemma insert_shape_inserted pid m new a b c l r :
  map_wf pid m -> dso_ok new -> split3 pid m new a b c -> left_part b new l -> right_part b new r ->
  inserted m new (a ++ l ++ (d_start new, new) :: r ++ c).
Proof.
  intros Hm Hn [-> Ha Hb Hc] Hl Hr.
  pose proof Hm as Hm0. apply map_wf_app in Hm as (_ & Hm & _). apply map_wf_app in Hm as (Hwb & _ & _). split.
  - intros x Hx. exists new. split; [|by repeat split]. exists (d_start new). split; [|done].
    apply elem_of_app. right. apply elem_of_app. right. by left.
  - intros x d' (k & Hin & Hx) Hout.
    assert (Hcase : (k, d') ∈ a ++ b ++ c \/ exists k0 d, (k0, d) ∈ b /\ shrunk d d').
    { apply elem_of_app in Hin as [Hin|Hin]; [left; apply elem_of_app; by left|].
      apply elem_of_app in Hin as [Hin|Hin].
      - right. destruct (left_part_elem pid b new l k d' Hwb Hn Hb Hl Hin) as (_ & _ & d & Hd & Hsh). by exists k, d.
      - apply elem_of_cons in Hin as [Heq|Hin]; [simplify_eq; congruence|]. apply elem_of_app in Hin as [Hin|Hin].
        + right. destruct (right_part_elem pid b new r k d' Hwb Hn Hb Hr Hin) as (_ & _ & k0 & d & Hd & Hsh & _). by exists k0, d.
        + left. apply elem_of_app. right. apply elem_of_app. by right. }
    destruct Hcase as [Hcase|(k0 & d & Hd & Hsh1 & Hsh2 & Hsame)].
    + exists d'. split; [by exists k|apply same_mapping_refl].
    + exists d. split; [|done]. exists k0. split; [apply elem_of_app; right; apply elem_of_app; by left|].
      apply is_within_iff in Hx. apply is_within_iff. lia.
  - intros x d (k & Hin & Hx) Hni. exists k. split; [|done].
    apply elem_of_app in Hin as [Hin|Hin]; [apply elem_of_app; by left|]. apply elem_of_app in Hin as [Hin|Hin].
    + exfalso. rewrite Forall_forall in Hb. specialize (Hb _ Hin). cbn [fst snd] in Hb.
      destruct (map_wf_elem _ _ _ Hwb Hin) as (Ek & (Hd1 & _) & _). cbn [fst snd] in *. destruct Hn as [Hn1 _].
      unfold intersects in Hni. destruct (Z.ltb_spec (d_start d) (d_start new)); zbool; lia.
    + apply elem_of_app. right. apply elem_of_app. right. right. apply elem_of_app. by right.
Qed.

Lemma find_key pid m k : map_wf pid m -> forall i d, m !! i = Some (k, d) ->
  exists x y, m = x ++ (k, d) :: y /\ i = length x /\ Forall (fun kv => fst kv <> k) x.
Proof.
  intros Hm i d Hi. exists (take i m), (drop (S i) m). rewrite take_drop_middle by done.
  pose proof (lookup_lt_Some _ _ _ Hi). split; [done|]. split; [rewrite length_take; lia|].
  apply Forall_forall. intros kv Hkv. rewrite <- (take_drop_middle m i (k, d) Hi) in Hm.
  pose proof (wf_keys_lt _ _ _ Hm kv (k, d) Hkv ltac:(by left)). cbn [fst] in *. lia.
Qed.

Lemma is_same_or_smaller_iff d o : is_same_or_smaller d o = true ->
  d_start d = d_start o /\ d_offset d = d_offset o /\ d_type d = d_type o /\ d_prot d = d_prot o /\ d_end o <= d_end d /\
  (d_type o = kStandard -> d_filename d = d_filename o /\ d_inode d = d_inode o).
Proof.
  unfold is_same_or_smaller. intros H. destruct (Z.eqb_spec (d_start d) (d_start o)); [|done]. cbn [negb] in H.
  destruct (Z.eqb_spec (d_offset d) (d_offset o)); [|done]. cbn [negb] in H.
  destruct (bool_decide_reflect (d_type d <> d_type o)) as [|Hty]; [done|].
  apply dec_stable in Hty. destruct (bool_decide_reflect (d_type d = kStandard)) as [Hk|Hk]; cbn [andb] in H.
  - destruct (bool_decide_reflect (d_filename d <> d_filename o)) as [|Hfn]; [done|]. apply dec_stable in Hfn. cbn [orb] in H.
    destruct (Z.eqb_spec (d_inode d) (d_inode o)); [|done]. cbn [negb] in H.
    destruct (Z.eqb_spec (d_prot d) (d_prot o)); [|done]. cbn [negb] in H. zbool. by split_and!.
  - destruct (Z.eqb_spec (d_prot d) (d_prot o)); [|done]. cbn [negb] in H. zbool. split_and!; try done.
    intros Ho. congruence.
Qed.

(** Shrinking the mapping that starts where the new one does. *)
Lemma shrink_inserted pid x k d y dso :
  map_wf pid (x ++ (k, d) :: y) -> dso_ok dso -> is_same_or_smaller d dso = true ->
  let d' := snd (adjust_same d dso) in
  map_wf pid (x ++ (k, d') :: y) /\ inserted (x ++ (k, d) :: y) dso (x ++ (k, d') :: y).
Proof.
  intros Hm [Hn1 Hn2] Hsame d'. destruct (is_same_or_smaller_iff _ _ Hsame) as (Es & Eo & Et & Epr & Ee & Ef).
  assert (Ed' : d' = mkDso (d_start d) (d_end dso) (d_offset d) (d_filename d) (d_inode d) (d_pid d) (d_prot d) (d_id d) (d_type d) (d_origin dso)).
  { unfold d', adjust_same. by rewrite Hsame. }
  pose proof Hm as Hm0. apply map_wf_app in Hm as (Hx & Hky & Hbf). apply map_wf_cons in Hky as (Hk & Hy & Hby).
  destruct Hk as (Ek & (Hd1 & Hd2) & Ep). cbn [fst snd] in *. split.
  - apply map_wf_app. split; [done|]. split.
    + apply map_wf_cons. split; [|split; [done|]].
      * rewrite Ed'. split; [done|]. split; [|done]. split; cbn [snd d_start d_end]; lia.
      * eapply Forall_impl; [exact Hby|]. unfold before. cbn [snd]. rewrite Ed'. cbn [d_end]. intros kv Hkv. lia.
    + intros u v Hu Hv. apply elem_of_cons in Hv as [->|Hv]; [|apply Hbf; [done|by right]].
      apply (Hbf u (k, d) Hu). by left.
  - split.
    + intros a Ha. apply is_within_iff in Ha. exists d'. split.
      * exists k. split; [apply elem_of_app; right; by left|]. apply is_within_iff. rewrite Ed'. cbn [d_start d_end]. lia.
      * rewrite Ed'. split_and!; cbn [d_start d_end d_offset d_prot d_type d_filename d_inode]; done.
    + intros a d0 (k0 & Hin & Ha) Hout. apply elem_of_app in Hin as [Hin|Hin].
      * exists d0. split; [|apply same_mapping_refl]. exists k0. split; [apply elem_of_app; by left|done].
      * apply elem_of_cons in Hin as [Heq|Hin].
        -- simplify_eq. exfalso. rewrite <- not_true_iff_false, is_within_iff in Hout. apply is_within_iff in Ha.
           rewrite Ed' in Ha. cbn [d_start d_end] in Ha. lia.
        -- exists d0. split; [|apply same_mapping_refl]. exists k0. split; [apply elem_of_app; right; by right|done].
    + intros a d0 (k0 & Hin & Ha) Hni. exists k0. split; [|done]. apply elem_of_app in Hin as [Hin|Hin]; [apply elem_of_app; by left|].
      apply elem_of_cons in Hin as [Heq|Hin]; [|apply elem_of_app; right; by right]. simplify_eq. exfalso.
      unfold intersects in Hni. destruct (Z.ltb_spec (d_start d) (d_start dso)); zbool; lia.
Qed.

Lemma insert_pm_spec s pm dso :
  map_wf (d_pid dso) (pm_map pm) -> dso_ok dso ->
  exists pm' s', insert_erase_overlap_pm s pm dso = Some (true, pm', s') /\
    map_wf (d_pid dso) (pm_map pm') /\ inserted (pm_map pm) dso (pm_map pm') /\ pm_bp pm' = pm_bp pm.
Proof.
  intros Hm Hn. unfold insert_erase_overlap_pm, dso_find_adjust_same.
  set (it := find_index (fun kv => fst kv =? d_start dso) (pm_map pm)).
  assert (Hmain : exists pm' s', (let? m := erase_range (pm_map pm) (get_intersection (pm_map pm) dso) dso in
     let jit := if bool_decide (d_type dso = kJITDump) then d_start dso else jitdump_addr pm in
     let '(inserted, m) := map_insert (d_start dso) dso m in
     Some (inserted, mkPM m (pm_bp pm) jit, incr_metric s kNewDso (d_type dso))) = Some (true, pm', s') /\
     map_wf (d_pid dso) (pm_map pm') /\ inserted (pm_map pm) dso (pm_map pm') /\ pm_bp pm' = pm_bp pm).
  { destruct (split3_exists _ _ _ Hm Hn) as (a & b & c & Hs). rewrite (get_intersection_split _ _ _ _ _ _ Hm Hn Hs).
    destruct (erase_range_shape _ _ _ _ _ _ Hm Hn Hs) as (l & r & -> & Hl & Hr).
    pose proof (insert_shape_wf _ _ _ _ _ _ _ _ Hm Hn eq_refl Hs Hl Hr) as Hwf.
    pose proof (insert_shape_inserted _ _ _ _ _ _ _ _ Hm Hn Hs Hl Hr) as Hins.
    rewrite app_assoc in Hwf, Hins |- *. rewrite map_insert_app.
    - eexists _, _. split; [done|]. cbn [pm_map pm_bp]. by split_and!.
    - apply Forall_forall. intros kv Hkv. by apply (wf_keys_lt _ _ _ Hwf kv (d_start dso, dso) Hkv ltac:(by left)).
    - apply map_wf_app in Hwf as (_ & Hwf & _). change ((d_start dso, dso) :: r ++ c) with ([(d_start dso, dso)] ++ (r ++ c)) in Hwf.
      apply Forall_forall. intros kv Hkv. by apply (wf_keys_lt _ _ _ Hwf (d_start dso, dso) kv ltac:(by left) Hkv). }
  destruct (pm_map pm !! it) as [[k d]|] eqn:Ei; [|done]. unfold adjust_same.
  destruct (is_same_or_smaller d dso) eqn:Hsame.
  - destruct (find_key _ _ k Hm _ _ Ei) as (x & y & Em & El & _). rewrite Em, El. rewrite insert_app_r_alt, Nat.sub_diag by done.
    cbn [insert list_insert]. eexists _, _. split; [done|]. cbn [pm_map pm_bp]. rewrite Em in Hm.
    destruct (shrink_inserted _ _ _ _ _ _ Hm Hn Hsame) as [H1 H2]. unfold adjust_same in H1, H2. rewrite Hsame in H1, H2. by split_and!.
  - rewrite list_insert_id by done. exact Hmain.
Qed.

(** ** Lookup *)

(** In a well-formed map, looking up an address finds the position of the one
    mapping that contains it, and reports a miss exactly when no mapping does. *)
Theorem dso_find_closest_correct pid m addr :
  map_wf pid m ->
  match dso_find_closest m addr with
  | (i, true) => exists k d, m !! i = Some (k, d) /\ is_within d addr = true /\ (forall d', maps m addr d' -> d' = d)
  | (_, false) => forall d, ~ maps m addr d
  end.
Proof.
  intros Hm. unfold dso_find_closest, upper_bound. set (p := fun kv : Z * Dso => addr <? fst kv).
  pose proof (find_index_false p m) as Hlo. pose proof (find_index_le p m) as Hle.
  assert (Hhi : Forall (fun kv => p kv = true) (drop (find_index p m) m)).
  { apply (find_index_true before); [apply Hm|]. unfold p, before. intros x y Hx _ Hxy E. zbool. apply Z.ltb_lt.
    destruct (map_wf_elem _ _ _ Hm Hx) as (E2 & (? & _) & _). lia. }
  assert (Hin : forall kv, kv ∈ m -> is_within (snd kv) addr = true -> kv ∈ take (find_index p m) m).
  { intros kv Hkv Hw. rewrite <- (take_drop (find_index p m) m) in Hkv. apply elem_of_app in Hkv as [|Hkv]; [done|].
    rewrite Forall_forall in Hhi. specialize (Hhi kv Hkv). unfold p in Hhi. zbool. apply is_within_iff in Hw.
    assert (Hkm : kv ∈ m) by (rewrite <- (take_drop (find_index p m) m); apply elem_of_app; by right).
    destruct (map_wf_elem _ _ _ Hm Hkm) as (E2 & _). lia. }
  destruct (find_index p m) as [|i] eqn:Ef.
  { intros d (k & Hk & Hw). apply (Hin (k, d) Hk) in Hw. by apply not_elem_of_nil in Hw. }
  destruct (lookup_lt_is_Some_2 m i) as [[k d] Hi]; [lia|]. rewrite Hi.
  assert (Htake : take (S i) m = take i m ++ [(k, d)]) by (by apply take_S_r).
  assert (Hpref : forall kv, kv ∈ take i m -> d_end (snd kv) < k).
  { intros kv Hkv. rewrite <- (take_drop (S i) m), Htake in Hm. apply map_wf_app in Hm as (Hm & _).
    apply map_wf_app in Hm as (_ & _ & Hb). apply (Hb kv (k, d) Hkv). by left. }
  assert (Hka : k <= addr).
  { rewrite Htake in Hlo. apply Forall_app in Hlo as [_ Hlo]. inversion_clear Hlo as [|? ? H1 _]. unfold p in H1. cbn [fst] in H1. zbool. lia. }
  assert (Hall : forall d', maps m addr d' -> d' = d).
  { intros d' (k' & Hk' & Hw). pose proof (Hin (k', d') Hk' Hw) as Ht. rewrite Htake in Ht.
    apply elem_of_app in Ht as [Ht|Ht]; [|apply list_elem_of_singleton in Ht; congruence].
    specialize (Hpref _ Ht). cbn [snd] in *. apply is_within_iff in Hw. lia. }
  destruct (is_within d addr) eqn:Ew.
  - by exists k, d.
  - intros d' Hd'. pose proof (Hall d' Hd') as ->. destruct Hd' as (k' & _ & Hw). congruence.
Qed.

(** ** All processes *)

Definition hdr_wf (h : DsoHdr) : Prop := forall p pm, pid_map h !! p = Some pm -> map_wf p (pm_map pm).

Lemma get_pid_mapping_wf h p : hdr_wf h -> map_wf p (pm_map (get_pid_mapping h p)).
Proof.
  intros H. unfold get_pid_mapping. destruct (pid_map h !! p) as [pm|] eqn:E; [by apply (H p pm)|apply map_wf_nil].
Qed.

Lemma hdr_wf_insert h p pm : hdr_wf h -> map_wf p (pm_map pm) ->
  forall s, hdr_wf (set_stats (set_pid_map h (<[p := pm]> (pid_map h))) s).
Proof.
  intros H Hpm s p' pm'. cbn [set_stats set_pid_map pid_map]. intros Hl.
  apply lookup_insert_Some in Hl as [[<- <-]|[_ Hl]]; [done|by apply (H p' pm')].
Qed.

(** A line of the maps file describes a non-empty range of user addresses. *)
Definition proc_line_ok (l : option proc_fields) : Prop :=
  match l with Some f => 0 <= pf_start f < pf_end f /\ pf_end f < 2 ^ 64 | None => True end.

Lemma dso_from_proc_line_ok pid l : proc_line_ok l -> d_pid (dso_from_proc_line pid l) <> -1 ->
  dso_ok (dso_from_proc_line pid l) /\ d_pid (dso_from_proc_line pid l) = pid.
Proof.
  destruct l as [f|]; [|done]. cbn [proc_line_ok dso_from_proc_line]. intros Hf _. cbn [new_dso d_pid]. split; [|done].
  unfold dso_ok. cbn [new_dso d_start d_end]. rewrite u64_small by (unfold is_u64; lia). lia.
Qed.

Lemma backpopulate_lines_spec pid lines s pm added :
  Forall proc_line_ok lines -> map_wf pid (pm_map pm) ->
  exists pm' s' n, backpopulate_lines s pm pid lines added = Some (pm', s', n) /\ map_wf pid (pm_map pm') /\ pm_bp pm' = pm_bp pm.
Proof.
  intros Hl. revert s pm added. induction Hl as [|l lines Hok _ IH]; intros s pm added Hm; cbn [backpopulate_lines].
  { by eexists _, _, _. }
  destruct (Z.eqb_spec (d_pid (dso_from_proc_line pid l)) (-1)) as [|Hne]; [by apply IH|].
  destruct (dso_from_proc_line_ok pid l Hok Hne) as [Hd Hp].
  destruct (insert_pm_spec s pm (dso_from_proc_line pid l)) as (pm' & s' & -> & Hwf & _ & Hbp); [by rewrite Hp|done|].
  rewrite Hp in Hwf. destruct (IH s' pm' (i32 (added + 1)) Hwf) as (pm2 & s2 & n & E & H1 & H2).
  exists pm2, s2, n. by rewrite E, H2, Hbp.
Qed.

Definition maps_ok (maps : option (list (option proc_fields))) : Prop :=
  match maps with Some lines => Forall proc_line_ok lines | None => True end.

Lemma pid_backpopulate_pm_spec s pm pid now maps n0 :
  maps_ok maps -> map_wf pid (pm_map pm) ->
  exists ok n pm' s', pid_backpopulate_pm s pm pid now maps n0 = Some (ok, n, pm', s') /\ map_wf pid (pm_map pm') /\
    (perm (pm_bp pm) = kForbidden -> ok = false /\ pm_map pm' = pm_map pm) /\
    (perm (pm_bp pm) = kAllowed -> last_backpopulate_time (pm_bp pm') = now).
Proof.
  intros Hmaps Hm. unfold pid_backpopulate_pm. cbn [perm]. destruct (perm (pm_bp pm)) eqn:Ep.
  - do 4 eexists. split; [done|]. by split_and!.
  - destruct maps as [lines|].
    + set (pm1 := mkPM (pm_map pm) _ _).
      destruct (backpopulate_lines_spec pid lines (incr_backpopulate_count s) pm1 0 Hmaps Hm) as (pm' & s' & n & -> & Hwf & Hbp).
      do 4 eexists. split; [done|]. destruct (n =? 0); cbn [pm_map pm_bp last_backpopulate_time]; rewrite Hbp; by split_and!.
    + do 4 eexists. split; [done|]. by split_and!.
Qed.

Lemma fork_map pid m child : map_wf pid m ->
  foldl (fun acc kv => map_assign (fst kv) (set_pid (snd kv) child) acc) [] m
  = map (fun kv => (fst kv, set_pid (snd kv) child)) m.
Proof.
  intros Hm. assert (Hgen : forall x y, map_wf pid (x ++ y) ->
    foldl (fun acc kv => map_assign (fst kv) (set_pid (snd kv) child) acc) (map (fun kv => (fst kv, set_pid (snd kv) child)) x) y
    = map (fun kv => (fst kv, set_pid (snd kv) child)) (x ++ y)).
  { intros x y. revert x. induction y as [|kv y IH]; intros x Hxy; cbn [foldl]; [by rewrite app_nil_r|].
    rewrite <- (app_nil_r (map _ x)) at 1. rewrite map_assign_app.
    - replace (map (fun kv0 => (fst kv0, set_pid (snd kv0) child)) x ++ [(fst kv, set_pid (snd kv) child)])
        with (map (fun kv0 => (fst kv0, set_pid (snd kv0) child)) (x ++ [kv])) by (by rewrite map_app).
      rewrite IH; by rewrite <- app_assoc.
    - apply Forall_forall. intros z Hz. apply list_elem_of_fmap in Hz as (z0 & -> & Hz0). cbn [fst].
      by apply (wf_keys_lt _ _ _ Hxy z0 kv Hz0 ltac:(by left)).
    - constructor. }
  by apply (Hgen [] m).
Qed.

Lemma set_pid_wf pid m child : map_wf pid m -> map_wf child (map (fun kv => (fst kv, set_pid (snd kv) child)) m).
Proof.
  intros [H1 H2]. split.
  - apply Forall_forall. intros z Hz. apply list_elem_of_fmap in Hz as ([k d] & -> & Hz). rewrite Forall_forall in H1.
    destruct (H1 _ Hz) as (E1 & E2 & _). split; [done|]. by split.
  - clear H1. induction H2 as [|a l H IH Ha]; cbn [map]; constructor; [done|].
    apply Forall_forall. intros z Hz. apply list_elem_of_fmap in Hz as (b & -> & Hb). rewrite Forall_forall in Ha.
    specialize (Ha b Hb). done.
Qed.

Lemma check_mapping_wf pid prev m :
  map_wf pid m -> match prev with Some d => Forall (fun kv => d_end d < fst kv) m | None => True end ->
  check_mapping pid prev m = true.
Proof.
  revert prev. induction m as [|[k d] m IH]; intros prev Hm Hprev; [done|]. cbn [check_mapping].
  apply map_wf_cons in Hm as ((Ek & (Hd & _) & Ep) & Hm & Hb). cbn [fst snd] in *.
  rewrite Ep, Z.eqb_refl. cbn [negb]. rewrite Ek, Z.eqb_refl. cbn [negb].
  assert (match prev with Some p => d_start d <=? d_end p | None => false end = false) as ->.
  { destruct prev as [p|]; [|done]. inversion_clear Hprev as [|? ? Hk _]. cbn [fst] in Hk. apply Z.leb_gt. lia. }
  by apply IH.
Qed.

Lemma check_invariants_wf h : hdr_wf h -> check_invariants h = true.
Proof.
  intros H. unfold check_invariants. apply forallb_forall. intros [p pm] Hin. apply list_elem_of_In, elem_of_map_to_list in Hin.
  cbn [fst snd]. by apply check_mapping_wf; [apply (H p pm)|].
Qed.

(** ** Histories *)

Inductive hdr_op :=
| HInsert (dso : Dso)
| HMmap (dso : Dso) (timestamp : Z)
| HBackpopulate (pid now : Z) (maps : option (list (option proc_fields)))
| HFind (pid addr now : Z) (maps : option (list (option proc_fields)))
| HFree (pid : Z)
| HFork (child parent : Z)
| HResetBackpopulate (threshold : Z)
| HClearUnvisited (visited : gset Z)
| HFileInfo (dso : Dso).

Section histories.
Variable get_file_inode : string -> option (Z * Z).

Definition hdr_exec (h : DsoHdr) (o : hdr_op) : option DsoHdr :=
  match o with
  | HInsert dso => let? (_, h') := insert_erase_overlap h dso in Some h'
  | HMmap dso t => let? (_, h') := maybe_insert_erase_overlap h dso t in Some h'
  | HBackpopulate p now maps => let? (_, _, h') := pid_backpopulate h p now maps 0 in Some h'
  | HFind p a now maps => let? (_, _, h') := dso_find_or_backpopulate h p a now maps in Some h'
  | HFree p => Some (pid_free h p)
  | HFork c p => Some (pid_fork h c p)
  | HResetBackpopulate t => Some (reset_backpopulate_state h t)
  | HClearUnvisited v => Some (snd (clear_unvisited h v))
  | HFileInfo dso => Some (snd (get_or_insert_file_info get_file_inode h dso))
  end.

Fixpoint hdr_run (h : DsoHdr) (os : list hdr_op) : option DsoHdr :=
  match os with [] => Some h | o :: os' => let? h' := hdr_exec h o in hdr_run h' os' end.

Definition hdr_op_ok (o : hdr_op) : Prop :=
  match o with
  | HInsert dso | HMmap dso _ => dso_ok dso
  | HBackpopulate _ _ maps | HFind _ _ _ maps => maps_ok maps
  | _ => True
  end.

Lemma insert_hdr_spec h dso : hdr_wf h -> dso_ok dso ->
  exists h', insert_erase_overlap h dso = Some (true, h') /\ hdr_wf h' /\
    inserted (pm_map (get_pid_mapping h (d_pid dso))) dso (pm_map (get_pid_mapping h' (d_pid dso))) /\
    forall p, p <> d_pid dso -> pid_map h' !! p = pid_map h !! p.
Proof.
  intros H Hd. unfold insert_erase_overlap.
  destruct (insert_pm_spec (dh_stats h) _ dso (get_pid_mapping_wf h (d_pid dso) H) Hd) as (pm' & s' & -> & Hwf & Hins & _).
  eexists. split; [done|]. split; [by apply hdr_wf_insert|]. split.
  - unfold get_pid_mapping at 2. cbn [set_stats set_pid_map pid_map]. by rewrite lookup_insert_eq.
  - intros p Hp. cbn [set_stats set_pid_map pid_map]. by rewrite lookup_insert_ne.
Qed.

Lemma pid_backpopulate_spec h pid now maps n0 : hdr_wf h -> maps_ok maps ->
  exists ok n h', pid_backpopulate h pid now maps n0 = Some (ok, n, h') /\ hdr_wf h'.
Proof.
  intros H Hmaps. unfold pid_backpopulate.
  destruct (pid_backpopulate_pm_spec (dh_stats h) _ pid now maps n0 Hmaps (get_pid_mapping_wf h pid H))
    as (ok & n & pm' & s' & -> & Hwf & _). do 3 eexists. split; [done|]. by apply hdr_wf_insert.
Qed.

Lemma update_id_from_path_map h dso : pid_map (snd (update_id_from_path get_file_inode h dso)) = pid_map h.
Proof. unfold update_id_from_path. repeat (case_match; cbn [snd]; try done). Qed.

Lemma file_info_map h dso : pid_map (snd (get_or_insert_file_info get_file_inode h dso)) = pid_map h.
Proof.
  unfold get_or_insert_file_info, update_id_from_dso, update_id_dd_profiling. repeat (case_match; cbn [snd]; try done).
  - pose proof (update_id_from_path_map (set_stats h (incr_metric (dh_stats h) kTargetDso (d_type dso))) dso) as E'.
    match goal with E : update_id_from_path _ _ _ = _ |- _ => rewrite E in E' end. exact E'.
  - apply (update_id_from_path_map (set_stats h (incr_metric (dh_stats h) kTargetDso (d_type dso))) dso).
Qed.

Lemma hdr_wf_map h h' : hdr_wf h -> pid_map h' = pid_map h -> hdr_wf h'.
Proof. intros H E p pm. rewrite E. apply H. Qed.

Lemma hdr_exec_spec h o : hdr_wf h -> hdr_op_ok o -> exists h', hdr_exec h o = Some h' /\ hdr_wf h'.
Proof.
  intros H Hok. destruct o as [dso|dso t|p now maps|p a now maps|p|c p|t|v|dso]; cbn [hdr_exec hdr_op_ok] in *.
  - destruct (insert_hdr_spec h dso H Hok) as (h' & -> & Hwf & _). by exists h'.
  - unfold maybe_insert_erase_overlap. destruct (_ <? _).
    + eexists. split; [done|]. apply (hdr_wf_insert h _ _ H (get_pid_mapping_wf h _ H) (dh_stats h)).
    + destruct (insert_hdr_spec h dso H Hok) as (h' & -> & Hwf & _). by exists h'.
  - destruct (pid_backpopulate_spec h p now maps 0 H Hok) as (? & ? & h' & -> & Hwf). by exists h'.
  - unfold dso_find_or_backpopulate.
    assert (H1 : hdr_wf (set_pid_map h (<[p := get_pid_mapping h p]> (pid_map h)))).
    { apply (hdr_wf_insert h _ _ H (get_pid_mapping_wf h _ H) (dh_stats h)). }
    destruct (_ <? _); [by eexists|]. destruct (dso_find_closest _ _) as [it [|]]; [by eexists|].
    destruct (pid_backpopulate_spec _ p now maps 0 H1 Hok) as (ok & n & h' & -> & Hwf).
    destruct (ok && _); [destruct (dso_find_closest _ _)|]; by eexists.
  - eexists. split; [done|]. intros q pm Hq. cbn [pid_free set_pid_map pid_map] in Hq.
    apply lookup_delete_Some in Hq as [_ Hq]. by apply (H q pm).
  - eexists. split; [done|]. unfold pid_fork. destruct (pid_map h !! p) as [parent|] eqn:Ep; [|done].
    destruct (pid_map h !! c) eqn:Ec; [done|]. apply (hdr_wf_insert h c _ H) with (s := dh_stats h). cbn [pm_map].
    rewrite (fork_map p) by (by apply (H p parent)). apply (set_pid_wf p). by apply (H p parent).
  - eexists. split; [done|]. intros q pm Hq. cbn [reset_backpopulate_state set_pid_map pid_map] in Hq.
    apply lookup_fmap_Some in Hq as (pm0 & <- & Hq). destruct (_ <=? _); cbn [pm_map]; by apply (H q pm0).
  - eexists. split; [done|]. intros q pm. cbn [clear_unvisited snd set_pid_map pid_map].
    assert (Hdel : forall l (m : gmap Z PidMapping), foldl (fun m p => delete p m) m l !! q = Some pm -> m !! q = Some pm).
    { intros l. induction l as [|x l IH]; intros m Hq; [done|]. cbn [foldl] in Hq. apply IH in Hq.
      by apply lookup_delete_Some in Hq as [_ ?]. }
    intros Hq. apply (H q pm). by eapply Hdel.
  - eexists. split; [done|]. apply (hdr_wf_map h); [done|apply file_info_map].
Qed.

End histories.

(** C23: Whatever sequence of mmap events, proc-maps reads, lookups, forks, exits
    and clean-ups the profiler processes, no step reaches the fatal check on
    overlapping mappings, and [check_invariants] holds: every mapping is under its
    process and start address, and mappings of a process do not overlap. *)
Theorem dso_hdr_invariants_hold get_file_inode proc_path fd os :
  Forall hdr_op_ok os ->
  exists h, hdr_run get_file_inode (init_DsoHdr proc_path fd) os = Some h /\ check_invariants h = true.
Proof.
  intros Hok. assert (Hgen : forall h, hdr_wf h -> exists h', hdr_run get_file_inode h os = Some h' /\ hdr_wf h').
  { induction Hok as [|o os Ho _ IH]; intros h Hwf; cbn [hdr_run]; [by exists h|].
    destruct (hdr_exec_spec get_file_inode h o Hwf Ho) as (h1 & -> & H1). by apply IH. }
  destruct (Hgen (init_DsoHdr proc_path fd)) as (h & E & Hwf).
  { intros p pm. cbn [init_DsoHdr pid_map]. by rewrite lookup_empty. }
  exists h. split; [done|]. by apply check_invariants_wf.
Qed.

(** An mmap event older than the last read of the maps file of its process is
    ignored and changes no mapping.  Any other one is inserted: every address of
    its range is then found in it (or in an identical mapping already known, cut
    to its size); an address outside its range is found, if at all, in the mapping
    that had it; mappings that do not overlap it are kept whole; other processes
    are untouched. *)
Theorem mmap_event_updates_mappings h dso timestamp :
  hdr_wf h -> dso_ok dso ->
  exists r h', maybe_insert_erase_overlap h dso timestamp = Some (r, h') /\
    r = negb (timestamp <? last_backpopulate_time (pm_bp (get_pid_mapping h (d_pid dso)))) /\
    (forall p, p <> d_pid dso -> pid_map h' !! p = pid_map h !! p) /\
    if r : bool
    then inserted (pm_map (get_pid_mapping h (d_pid dso))) dso (pm_map (get_pid_mapping h' (d_pid dso)))
    else get_pid_mapping h' (d_pid dso) = get_pid_mapping h (d_pid dso).
Proof.
  intros H Hd. unfold maybe_insert_erase_overlap. destruct (_ <? _).
  - do 2 eexists. split; [done|]. split; [done|]. cbn [set_pid_map pid_map]. split.
    + intros p Hp. by rewrite lookup_insert_ne.
    + unfold get_pid_mapping at 1. cbn [set_pid_map pid_map]. by rewrite lookup_insert_eq.
  - destruct (insert_hdr_spec h dso H Hd) as (h' & -> & _ & Hins & Hother). exists true, h'. by split_and!.
Qed.

(** A fork gives a process without mappings a copy of its parent's, attributed
    to the child, and changes nothing else; the child starts with a fresh
    backpopulate state. *)
Theorem pid_fork_copies_parent h child parent pm :
  hdr_wf h -> pid_map h !! parent = Some pm -> pid_map h !! child = None ->
  (forall x d, maps (pm_map (get_pid_mapping (pid_fork h child parent) child)) x d <->
     exists d0, maps (pm_map pm) x d0 /\ d = set_pid d0 child) /\
  pm_bp (get_pid_mapping (pid_fork h child parent) child) = init_bp /\
  (forall p, p <> child -> pid_map (pid_fork h child parent) !! p = pid_map h !! p).
Proof.
  intros H Hp Hc. unfold pid_fork. rewrite Hp, Hc.
  assert (Eget : get_pid_mapping (set_pid_map h (<[child := mkPM (foldl (fun m kv => map_assign (fst kv) (set_pid (snd kv) child) m) [] (pm_map pm)) init_bp 0]> (pid_map h))) child
     = mkPM (map (fun kv => (fst kv, set_pid (snd kv) child)) (pm_map pm)) init_bp 0).
  { unfold get_pid_mapping. cbn [set_pid_map pid_map]. rewrite lookup_insert_eq.
    by rewrite (fork_map parent) by (by apply (H parent pm)). }
  rewrite Eget. cbn [pm_map pm_bp]. split; [|split; [done|]].
  - intros x d. split.
    + intros (k & Hin & Hw). apply list_elem_of_fmap in Hin as ([k0 d0] & Heq & Hin). simplify_eq/=.
      exists d0. split; [|done]. by exists k0.
    + intros (d0 & (k & Hin & Hw) & ->). exists k. split; [|done]. apply list_elem_of_fmap. by exists (k, d0).
  - intros p Hne. cbn [set_pid_map pid_map]. by rewrite lookup_insert_ne.
Qed.

(** ** File identifiers *)

(** Entries carry their own position, known files are entries, and the entry of a
    known file is that file. *)
Record files_inv (h : DsoHdr) : Prop := {
  fv_ids : forall i v, file_info_vector h !! i = Some v -> fiv_id v = Z.of_nat i;
  fv_keys : forall key id, file_info_inode_map h !! key = Some id -> exists i v,
     id = Z.of_nat i /\ (0 < i)%nat /\ file_info_vector h !! i = Some v /\
     key = (fi_inode (fiv_info v), u64 (fi_size (fiv_info v)));
  fv_len : (0 < length (file_info_vector h))%nat /\ Z.of_nat (length (file_info_vector h)) < 2 ^ 31
}.

Lemma i32_small x : 0 <= x < 2 ^ 31 -> i32 x = x.
Proof. intros H. unfold i32. rewrite Z.mod_small; lia. Qed.

Lemma files_inv_append h fi dd m :
  files_inv h -> Z.of_nat (length (file_info_vector h)) + 1 < 2 ^ 31 ->
  (forall key id, m !! key = Some id -> file_info_inode_map h !! key = Some id \/
     (id = Z.of_nat (length (file_info_vector h)) /\ key = (fi_inode fi, u64 (fi_size fi)))) ->
  files_inv (set_files h m (file_info_vector h ++ [mkFIV fi (i32 (Z.of_nat (length (file_info_vector h))))]) dd).
Proof.
  intros [H1 H2 [H3 H4]] Hlen Hm. rewrite i32_small by lia.
  split; cbn [set_files file_info_vector file_info_inode_map].
  - intros i v Hi. apply lookup_app_Some in Hi as [Hi|[Hle Hi]]; [by apply H1|].
    destruct (i - length (file_info_vector h))%nat eqn:E; simplify_eq/=. lia.
  - intros key id Hk. destruct (Hm key id Hk) as [Hold|[-> ->]].
    + destruct (H2 _ _ Hold) as (i & v & -> & Hi0 & Hi & ->). exists i, v. split_and!; try done. by apply lookup_app_l_Some.
    + eexists _, _. split; [done|]. split; [lia|]. split; [by apply list_lookup_middle|done].
  - rewrite length_app. simpl. lia.
Qed.

(** Resolving the file of a mapping: when the file is found, the identifier
    designates a table entry for that very file (inode and size), every file that
    already had an identifier keeps it, and the table stays consistent; when it is
    not found the identifier is the error one and nothing changes. *)
Theorem file_id_identifies_file get_file_inode h dso :
  files_inv h -> Z.of_nat (length (file_info_vector h)) + 1 < 2 ^ 31 ->
  let fi := find_file_info get_file_inode h dso in
  let '(id, h') := update_id_from_path get_file_inode h dso in
  if fi_inode fi =? 0 then id = k_file_info_error /\ h' = h
  else files_inv h' /\ id <> k_file_info_error /\
    file_info_inode_map h' !! (fi_inode fi, u64 (fi_size fi)) = Some id /\
    (exists v, file_info_vector h' !! Z.to_nat id = Some v /\ fi_inode (fiv_info v) = fi_inode fi /\
               u64 (fi_size (fiv_info v)) = u64 (fi_size fi) /\ fi_path (fiv_info v) = fi_path fi) /\
    forall key id0, file_info_inode_map h !! key = Some id0 -> file_info_inode_map h' !! key = Some id0.
Proof.
  intros H Hlen fi. unfold update_id_from_path. fold fi. destruct (Z.eqb_spec (fi_inode fi) 0) as [E0|E0].
  { destruct (fi_inode fi =? 0); done. }
  set (key := (fi_inode fi, u64 (fi_size fi))). pose proof (fv_len h H) as [Hl0 Hl1].
  destruct (file_info_inode_map h !! key) as [id|] eqn:Ek.
  - destruct (fv_keys h H _ _ Ek) as (i & v & -> & Hi0 & Hi & Hkey). rewrite Nat2Z.id, Hi. injection Hkey as Hk1 Hk2.
    assert (Hne : Z.of_nat i <> k_file_info_error) by (unfold k_file_info_error; lia).
    destruct (bool_decide_reflect (fi_path fi = fi_path (fiv_info v))) as [Hp|Hp].
    + split_and!; try done. exists v. by split_and!.
    + split; [|split_and!; try done].
      * destruct H as [F1 F2 F3]. split; cbn [set_files file_info_vector file_info_inode_map].
        -- intros j w Hj. apply list_lookup_insert_Some in Hj as [(<- & <- & _)|[_ Hj]]; [done|by apply F1].
        -- intros key' id' Hk'. destruct (F2 _ _ Hk') as (j & w & -> & Hj0 & Hj & ->). destruct (decide (i = j)) as [<-|Hij].
           ++ rewrite Hi in Hj. simplify_eq. eexists _, _. split; [done|]. split; [done|]. split; [apply list_lookup_insert_eq; by eapply lookup_lt_Some|].
              cbn [fiv_info]. congruence.
           ++ exists j, w. rewrite list_lookup_insert_ne by done. by split_and!.
        -- by rewrite length_insert.
      * eexists. cbn [set_files file_info_vector]. split; [apply list_lookup_insert_eq; by eapply lookup_lt_Some|]. done.
  - assert (Hid : i32 (Z.of_nat (length (file_info_vector h))) = Z.of_nat (length (file_info_vector h))) by (apply i32_small; lia).
    split; [|split_and!].
    + apply files_inv_append; [done..|]. intros key' id' Hk'. rewrite Hid in Hk'.
      apply lookup_insert_Some in Hk' as [[<- <-]|[_ Hk']]; [by right|by left].
    + rewrite Hid. unfold k_file_info_error. lia.
    + cbn [set_files file_info_inode_map]. apply lookup_insert_eq.
    + exists (mkFIV fi (i32 (Z.of_nat (length (file_info_vector h))))). cbn [set_files file_info_vector].
      split; [|done]. apply list_lookup_middle. rewrite Hid. by rewrite Nat2Z.id.
    + intros key' id' Hk'. cbn [set_files file_info_inode_map]. rewrite lookup_insert_ne; [done|]. intros <-. congruence.
Qed.

(** ** Concrete mappings *)

Definition libc (start end_ off : Z) : Dso := new_dso 42 start end_ off "/usr/lib/libc.so.6" 77 (PROT_READ + PROT_EXEC) kPerfMmapEvent.
Definition anon (start end_ : Z) : Dso := new_dso 42 start end_ 0 "//anon" 0 PROT_READ kPerfMmapEvent.
Definition demo_map : DsoMap := [(4096, libc 4096 20479 0); (32768, anon 32768 36863)].
Definition demo_hdr : DsoHdr :=
  set_pid_map (init_DsoHdr "" (-1)) {[42 := mkPM demo_map init_bp 0]}.
Definition demo_inode (path : string) : option (Z * Z) :=
  if bool_decide (path = "/usr/lib/libc.so.6"%string) then Some (77, 2000) else None.

Lemma demo_map_wf : map_wf 42 demo_map.
Proof. split; repeat constructor; cbn; lia. Qed.

Lemma demo_hdr_wf : hdr_wf demo_hdr.
Proof.
  intros p pm. cbn [demo_hdr set_pid_map pid_map]. intros H. apply lookup_singleton_Some in H as [<- <-]. exact demo_map_wf.
Qed.

Lemma dso_find_closest_correct_witness :
  (exists k d, demo_map !! 0%nat = Some (k, d) /\ is_within d 5000 = true /\ (forall d', maps demo_map 5000 d' -> d' = d)) /\
  (forall d, ~ maps demo_map 25000 d).
Proof.
  split.
  - exact (dso_find_closest_correct 42 demo_map 5000 demo_map_wf).
  - exact (dso_find_closest_correct 42 demo_map 25000 demo_map_wf).
Defined.

(** The loader maps a library, then maps anonymous memory inside it; the process
    forks, the child maps something else, and the parent exits. *)
Definition demo_history : list hdr_op :=
  [HMmap (libc 4096 20479 0) 5; HMmap (anon 8192 12287) 6; HFork 43 42; HFree 42;
   HBackpopulate 43 9 (Some [Some (mkPF 8192 16384 ["r"; "w"; "-"; "p"]%char 0 0 " [heap]"%string); None]);
   HFind 43 4200 10 None; HFileInfo (libc 4096 20479 0); HResetBackpopulate 10; HClearUnvisited {[43]}].

Lemma demo_history_ok : Forall hdr_op_ok demo_history.
Proof. repeat constructor; cbn; lia. Qed.

Lemma dso_hdr_invariants_hold_witness : exists h,
  hdr_run demo_inode (init_DsoHdr "" (-1)) demo_history = Some h /\ check_invariants h = true.
Proof. exact (dso_hdr_invariants_hold demo_inode "" (-1) demo_history demo_history_ok). Defined.

Lemma mmap_event_updates_mappings_witness : exists h',
  maybe_insert_erase_overlap demo_hdr (anon 8192 12287) 5 = Some (true, h') /\
  inserted demo_map (anon 8192 12287) (pm_map (get_pid_mapping h' 42)).
Proof.
  destruct (mmap_event_updates_mappings demo_hdr (anon 8192 12287) 5 demo_hdr_wf) as (r & h' & E & Er & _ & Hins).
  - unfold dso_ok. cbn. lia.
  - assert (r = true) as -> by (rewrite Er; reflexivity). exists h'. split; [exact E|exact Hins].
Defined.

Lemma pid_fork_copies_parent_witness :
  pm_bp (get_pid_mapping (pid_fork demo_hdr 43 42) 43) = init_bp /\
  (forall x d, maps (pm_map (get_pid_mapping (pid_fork demo_hdr 43 42) 43)) x d <->
    exists d0, maps demo_map x d0 /\ d = set_pid d0 43).
Proof.
  destruct (pid_fork_copies_parent demo_hdr 43 42 (mkPM demo_map init_bp 0) demo_hdr_wf) as (H & Hb & _);
    [reflexivity|reflexivity|split; [exact Hb|exact H]].
Defined.

Lemma init_files_inv : files_inv (init_DsoHdr "" (-1)).
Proof.
  split; cbn [init_DsoHdr file_info_vector file_info_inode_map].
  - intros [|[|i]] v Hi; by simplify_eq/=.
  - intros key id Hk. by rewrite lookup_empty in Hk.
  - cbn. lia.
Qed.

Lemma file_id_identifies_file_witness :
  let '(id, h') := update_id_from_path demo_inode (init_DsoHdr "" (-1)) (libc 4096 20479 0) in
  id = 1 /\ file_info_inode_map h' !! (77, 2000) = Some id /\ files_inv h'.
Proof.
  pose proof (file_id_identifies_file demo_inode (init_DsoHdr "" (-1)) (libc 4096 20479 0) init_files_inv) as H.
  destruct (update_id_from_path demo_inode (init_DsoHdr "" (-1)) (libc 4096 20479 0)) as [id h'] eqn:E.
  destruct H as (H1 & _ & H2 & _); [cbn; lia|].
  split; [|split; [exact H2|exact H1]]. vm_compute in E. by injection E as <- _.
Defined.

(** Unmapped memory between mappings: the anonymous mapping splits the library's. *)
Example insert_splits_file_mapping :
  (let? (_, h) := insert_erase_overlap demo_hdr (anon 8192 12287) in
   Some (map (fun kv => (fst kv, d_end (snd kv), d_offset (snd kv), d_type (snd kv))) (pm_map (get_pid_mapping h 42))))
  = Some [(4096, 8191, 0, kStandard); (8192, 12287, 0, kAnon); (12288, 20479, 0, kStandard); (32768, 36863, 0, kAnon)].
Proof. vm_compute. reflexivity. Qed.

(** A mapping that reaches the last address: the end of the range wraps to 0, the
    range of overlapped mappings is not found and the check that no mappings
    overlap fails. *)
Example last_address_mapping_overlaps :
  (let? (_, h) := insert_erase_overlap demo_hdr (anon 8192 (2 ^ 64 - 1)) in Some (check_invariants h)) = Some false.
Proof. vm_compute. reflexivity. Qed.

(** The first mapping that is executable or a file is returned, not the first
    executable file mapping. *)
Example first_std_executable_not_executable :
  let m := [(4096, new_dso 42 4096 8191 0 "/etc/locale" 5 PROT_READ kProcMaps); (8192, libc 8192 12287 0)] in
  dso_find_first_std_executable m = (0%nat, true).
Proof. reflexivity. Qed.
