(* ===== verification/Ddres.v ===== *)
(** * Result codes

    Model of [include/ddres_def.hpp], [include/ddres_list.hpp],
    [src/ddres_list.cc] and of the control flow of the macros of
    [include/ddres_helpers.hpp] and [include/ddres_exception.hpp]. *)

From S2P Require Import Prelude.

Definition DD_SEV_OK : Z := 0.
Definition DD_SEV_NOTICE : Z := 1.
Definition DD_SEV_WARN : Z := 2.
Definition DD_SEV_ERROR : Z := 3.

(** [_what] and [_sev] are 16-bit halves of the 32-bit [_val]. *)
Record DDRes := mkRes { res_what : Z; res_sev : Z }.

#[export] Instance DDRes_eq_dec : EqDecision DDRes.
Proof. solve_decision. Defined.

Definition res_val (r : DDRes) : Z := i32 (u16 (res_what r) + 2 ^ 16 * u16 (res_sev r)).

Definition i16 (x : Z) : Z := (x + 2 ^ 15) mod 2 ^ 16 - 2 ^ 15.

Definition ddres_create (sev what : Z) : DDRes := mkRes (i16 what) (i16 sev).
Definition ddres_error (what : Z) : DDRes := ddres_create DD_SEV_ERROR what.
Definition ddres_warn (what : Z) : DDRes := ddres_create DD_SEV_WARN what.
Definition ddres_init : DDRes := mkRes 0 0.
Definition ddres_equal (a b : DDRes) : bool := res_val a =? res_val b.

Definition IsDDResNotOK (r : DDRes) : bool := negb (res_sev r =? DD_SEV_OK).
Definition IsDDResOK (r : DDRes) : bool := res_sev r =? DD_SEV_OK.
Definition IsDDResFatal (r : DDRes) : bool := res_sev r =? DD_SEV_ERROR.

(** ** Control flow *)

(** [DDRES_CHECK_FWD(e); k]: return a fatal result, go on after any other. *)
Definition DDRES_CHECK_FWD (e k : DDRes) : DDRes := if IsDDResNotOK e then if IsDDResFatal e then e else k else k.

(** [DDRES_CHECK_FWD_STRICT(e); k]. *)
Definition DDRES_CHECK_FWD_STRICT (e k : DDRes) : DDRes := if IsDDResNotOK e then e else k.

Definition DDRES_CHECK_INT (eval what : Z) (k : DDRes) : DDRes := if eval =? -1 then ddres_error what else k.
Definition DDRES_CHECK_BOOL (eval : bool) (what : Z) (k : DDRes) : DDRes := if negb eval then ddres_error what else k.

(** Log levels of [include/logger.hpp]. *)
Definition LL_ERROR : Z := 3.
Definition LL_WARNING : Z := 4.
Definition LL_DEBUG : Z := 7.
Definition LL_LENGTH : Z := 8.

Definition ddres_sev_to_log_level (sev : Z) : Z :=
  if sev =? DD_SEV_ERROR then LL_ERROR
  else if sev =? DD_SEV_WARN then LL_WARNING
  else if sev =? DD_SEV_NOTICE then LL_DEBUG
  else LL_LENGTH.

(** ** Error tables *)

Definition DD_COMMON_START_RANGE : Z := 1000.
Definition DD_NATIVE_START_RANGE : Z := 2000.

Definition COMMON_ERROR_TABLE : list (string * string) :=
  [("UKNW", "undocumented error"); ("BADALLOC", "allocation error");
   ("STDEXCEPT", "standard exception caught"); ("UKNWEXCEPT", "unknown exception caught")]%string.

Definition NATIVE_ERROR_TABLE : list (string * string) :=
  [("DWFL_LIB_ERROR", "error withing dwfl library"); ("UW_CACHE_ERROR", "error from unwinding cache");
   ("UW_ERROR", "error from unwinding code"); ("UW_MAX_PIDS", "Maximum number of PIDs reached");
   ("UW_MAX_DEPTH", "max depth reached in unwinding"); ("CAPLIB", "error when reading capabilities");
   ("USERID", "error in user ID manipulations"); ("MODULE", "error retrieving debug info in modules");
   ("PEINIT", "error allocating space for pevent"); ("PERFOPEN", "error during perf_event_open");
   ("PERFRB", "error with perf_event ringbuffer"); ("PERFSAMP", "error processing perf sample");
   ("IOCTL", "error during perf_event_open"); ("PERFMMAP", "error in mmap operations");
   ("MAINLOOP", "error in main_loop coordinator"); ("MAINLOOP_INIT", "error initializing the profiling mainloop");
   ("POLLTIMEOUT", "timeout when polling perf events"); ("POLLERROR", "Unknown poll error");
   ("POLLHANGUP", "perf event file descriptor hang up"); ("PROCSTATE", "error when retrieving process state");
   ("PPROF", "error in pprof manipulations"); ("STATSD", "statsd interface");
   ("DDPROF_STATS", "error in stats module"); ("EXPORTER", "error exporting");
   ("EXPORT_TIMEOUT", "pending export failed to return in time"); ("ARGUMENT", "error writing arguments");
   ("INPUT_PROCESS", ""); ("DSO", ""); ("JIT", "Error parsing JIT files"); ("NO_JIT_FILE", "File not readable for JIT");
   ("UNHANDLED_CONFIG", "unhandled configuration"); ("UNHANDLED_DSO", "ignore dso type");
   ("WORKERLOOP_INIT", "error initializing the worker loop"); ("SYS_CONFIG", "error checking system configuration");
   ("UNITTEST", "unit test error"); ("SOCKET", "error during socket operation");
   ("TEMP_FILE", "error during temporary file creation"); ("CGROUP", "error while reading cgroup information");
   ("TSC", "failed to setup TSC"); ("INVALID_ELF", "invalid elf file");
   ("AMBIGUOUS_LOAD_SEGMENT", "ambiguous executable LOAD segment"); ("SYMBOLIZER", "symbolizer error");
   ("NO_MATCHING_LOAD_SEGMENT", "unable to find a LOAD segment matching mapping")]%string.

(** The enumerators that follow each table. *)
Definition DD_WHAT_MIN_ERRNO : Z := DD_COMMON_START_RANGE.
Definition COMMON_ERROR_SIZE : Z := DD_WHAT_MIN_ERRNO + 1 + Z.of_nat (length COMMON_ERROR_TABLE).
Definition NATIVE_ERROR_SIZE : Z := DD_NATIVE_START_RANGE + 1 + Z.of_nat (length NATIVE_ERROR_TABLE).

(** The enumerator [DD_WHAT_<name>]. *)
Definition what_of (name : string) : Z :=
  let idx l := find_index (fun e => bool_decide (fst e = name)) l in
  if (idx COMMON_ERROR_TABLE <? length COMMON_ERROR_TABLE)%nat
  then DD_COMMON_START_RANGE + 1 + Z.of_nat (idx COMMON_ERROR_TABLE)
  else DD_NATIVE_START_RANGE + 1 + Z.of_nat (idx NATIVE_ERROR_TABLE).

Definition error_messages (start : string) (table : list (string * string)) : list string :=
  start :: map (fun e => (fst e +:+ ": " +:+ snd e)%string) table.
Definition s_common_error_messages : list string := error_messages "Common start range" COMMON_ERROR_TABLE.
Definition s_native_error_messages : list string := error_messages "native start range" NATIVE_ERROR_TABLE.

(** [None] would be an access outside the arrays. *)
Definition ddres_error_message (what : Z) : option string :=
  if what <? DD_WHAT_MIN_ERRNO then Some "Check errno"%string
  else if what <? COMMON_ERROR_SIZE then s_common_error_messages !! Z.to_nat (what - DD_COMMON_START_RANGE)
  else if (DD_NATIVE_START_RANGE <=? what) && (what <? NATIVE_ERROR_SIZE)
  then s_native_error_messages !! Z.to_nat (what - DD_NATIVE_START_RANGE)
  else Some "Unknown error. Please update src/ddres_list.cc"%string.

(** ** Lemmas *)

Lemma res_val_inj a b :
  - 2 ^ 15 <= res_what a < 2 ^ 15 -> - 2 ^ 15 <= res_sev a < 2 ^ 15 ->
  - 2 ^ 15 <= res_what b < 2 ^ 15 -> - 2 ^ 15 <= res_sev b < 2 ^ 15 ->
  res_val a = res_val b -> a = b.
Proof.
  destruct a as [wa sa], b as [wb sb]. cbn [res_what res_sev]. intros H1 H2 H3 H4. unfold res_val, i32, u16. cbn [res_what res_sev].
  intros E. pose proof (Z.mod_pos_bound wa (2 ^ 16)). pose proof (Z.mod_pos_bound wb (2 ^ 16)).
  pose proof (Z.mod_pos_bound sa (2 ^ 16)). pose proof (Z.mod_pos_bound sb (2 ^ 16)).
  set (x := wa mod 2 ^ 16 + 2 ^ 16 * (sa mod 2 ^ 16)) in *. set (y := wb mod 2 ^ 16 + 2 ^ 16 * (sb mod 2 ^ 16)) in *.
  assert (Hxy : x = y).
  { pose proof (Z.div_mod (x + 2 ^ 31) (2 ^ 32)). pose proof (Z.div_mod (y + 2 ^ 31) (2 ^ 32)). lia. }
  pose proof (Z.div_mod wa (2 ^ 16)). pose proof (Z.div_mod wb (2 ^ 16)).
  pose proof (Z.div_mod sa (2 ^ 16)). pose proof (Z.div_mod sb (2 ^ 16)). f_equal; lia.
Qed.

(** Every 16-bit result code has a message: no access falls outside the
    message tables; and the code of every table entry yields that entry's text. *)
Theorem ddres_error_message_total :
  (forall what, - 2 ^ 15 <= what < 2 ^ 15 -> ddres_error_message what <> None) /\
  Forall (fun e => ddres_error_message (what_of (fst e)) = Some (fst e +:+ ": " +:+ snd e)%string)
    (COMMON_ERROR_TABLE ++ NATIVE_ERROR_TABLE).
Proof.
  split.
  - intros what Hw. unfold ddres_error_message. zcases; try done.
    + intros Hn. apply lookup_ge_None in Hn. cbn in Hn. unfold COMMON_ERROR_SIZE, DD_WHAT_MIN_ERRNO, DD_COMMON_START_RANGE in *. cbn in *. lia.
    + intros Hn. apply lookup_ge_None in Hn. cbn in Hn. unfold NATIVE_ERROR_SIZE, DD_NATIVE_START_RANGE in *. cbn in *. lia.
  - repeat constructor.
Qed.
