(* ===== verification/JitDump.v ===== *)
(** * The reader of jitdump files

    Model of [src/jit/jitdump.cc] and [include/jit/jitdump.hpp].  A file is the list of
    its bytes; a read outside a buffer is [None].  Records are read from the file while it
    is being written: the theorem shows what any truncated file gives. *)

From S2P Require Import Prelude RingBuffer PerfSample Ddres.

(** ** Data *)

Record JITHeader := mkJH {
  jh_magic : Z; jh_version : Z; jh_total_size : Z; jh_elf_mach : Z; jh_pad1 : Z; jh_pid : Z; jh_timestamp : Z; jh_flags : Z
}.

Definition k_jit_header_version : Z := 1.

Definition JIT_CODE_LOAD : Z := 0.
Definition JIT_CODE_MOVE : Z := 1.
Definition JIT_CODE_DEBUG_INFO : Z := 2.
Definition JIT_CODE_CLOSE : Z := 3.
Definition JIT_CODE_UNWINDING_INFO : Z := 4.
Definition JIT_CODE_MAX : Z := 5.

Record JITRecordPrefix := mkJP { jp_id : Z; jp_total_size : Z; jp_timestamp : Z }.
Record JITRecordCodeLoad := mkJC {
  jc_prefix : JITRecordPrefix; jc_pid : Z; jc_tid : Z; jc_vma : Z; jc_code_addr : Z; jc_code_size : Z; jc_code_index : Z;
  jc_func_name : list Z
}.
Record DebugEntry := mkDE { de_addr : Z; de_lineno : Z; de_discrim : Z; de_name : list Z }.
Record JITRecordDebugInfo := mkJD { jd_prefix : JITRecordPrefix; jd_code_addr : Z; jd_nr_entry : Z; jd_entries : list DebugEntry }.
Record JITDump := mkDump { jit_header : JITHeader; code_load : list JITRecordCodeLoad; debug_info : list JITRecordDebugInfo }.

Definition zero_header : JITHeader := mkJH 0 0 0 0 0 0 0 0.
Definition empty_dump : JITDump := mkDump zero_header [] [].

Definition sizeof_JITHeader : Z := 40.
Definition sizeof_JITRecordPrefix : Z := 16.
Definition code_load_size_integers : Z := 40.
Definition debug_info_size_integers : Z := 16.
Definition sizeof_DebugEntry : Z := 48.

Definition k_header_magic : Z := 0x4A695444.
Definition k_header_magic_rev : Z := 0x4454694A.

(** ** The stream *)

Record stream := mkStream { s_bytes : list Z; s_pos : Z }.

(** [read]: all the bytes, or a failure. *)
Definition sread (s : stream) (n : Z) : option (list Z * stream) :=
  if s_pos s + n <=? Z.of_nat (length (s_bytes s))
  then Some (take (Z.to_nat n) (drop (Z.to_nat (s_pos s)) (s_bytes s)), mkStream (s_bytes s) (s_pos s + n))
  else None.

(** [seekg] sets the position from the start of the file. *)
Definition seekg (s : stream) (pos : Z) : stream := mkStream (s_bytes s) pos.

(** An integer of a buffer that was read. *)
Definition word (n : nat) (bs : list Z) (off : nat) : Z := le_val (take n (drop off bs)).

Definition warn_jit : DDRes := ddres_warn (what_of "JIT").

(** ** Reading *)

Definition jit_read_header (s : stream) : DDRes * JITHeader * stream :=
  match sread s sizeof_JITHeader with
  | None => (warn_jit, zero_header, s)
  | Some (b, s) =>
      let header := mkJH (word 4 b 0) (word 4 b 4) (word 4 b 8) (word 4 b 12) (word 4 b 16) (word 4 b 20) (word 8 b 24) (word 8 b 32) in
      if jh_magic header =? k_header_magic then
        let remaining_size := i64 (jh_total_size header - sizeof_JITHeader) in
        if remaining_size <? 0 then (warn_jit, header, s)
        else
          let s := if 0 <? remaining_size then seekg s remaining_size else s in
          if negb (jh_version header =? k_jit_header_version) then (warn_jit, header, s) else (ddres_init, header, s)
      else (warn_jit, header, s)
  end.

(** [None]: no further record. *)
Definition jit_read_prefix (s : stream) : option (JITRecordPrefix * stream) :=
  match sread s sizeof_JITRecordPrefix with
  | None => None
  | Some (b, s) =>
      let prefix := mkJP (word 4 b 0) (word 4 b 4) (word 8 b 8) in
      if jp_id prefix =? JIT_CODE_CLOSE then None
      else if JIT_CODE_MAX <=? jp_id prefix then None
      else Some (prefix, s)
  end.

(** The first [n] bytes at [off] of a buffer, [None] past its end. *)
Definition bytes_at (b : list Z) (off n : Z) : option (list Z) :=
  if off + n <=? Z.of_nat (length b) then Some (take (Z.to_nat n) (drop (Z.to_nat off) b)) else None.

Definition jit_read_code_load (s : stream) (p : JITRecordPrefix) : option (DDRes * JITRecordCodeLoad * stream) :=
  let none := mkJC p 0 0 0 0 0 0 [] in
  if jp_total_size p <? sizeof_JITRecordPrefix + code_load_size_integers then Some (warn_jit, none, s)
  else
    match sread s (jp_total_size p - sizeof_JITRecordPrefix) with
    | None => Some (warn_jit, none, s)
    | Some (b, s) =>
        let code_size := word 8 b 24 in
        let cl name := mkJC p (word 4 b 0) (word 4 b 4) (word 8 b 8) (word 8 b 16) code_size (word 8 b 32) name in
        let remaining_size := i32 (jp_total_size p - sizeof_JITRecordPrefix - code_load_size_integers) in
        if remaining_size <? i32 code_size then Some (warn_jit, cl [], s)
        else
          let str_size := i32 (remaining_size -w code_size) in
          if 1 <? str_size then
            let? name := bytes_at b code_load_size_integers (str_size - 1) in Some (ddres_init, cl name, s)
          else Some (ddres_init, cl [], s)
    end.

(** The C string at the head of a buffer, if it ends in the buffer. *)
Fixpoint cstring (b : list Z) : option (list Z) :=
  match b with
  | [] => None
  | x :: b' => if x =? 0 then Some [] else let? s := cstring b' in Some (x :: s)
  end.

(** The entries from position [off] of the buffer; an entry has 17 bytes or more, so the
    fuel is at least the number of entries that fit in the buffer.  The name ["\xff"]
    stands for the name of the previous entry; the copy the code makes of it is
    overwritten by the next assignment. *)
Fixpoint read_entries (fuel : nat) (b : list Z) (off : Z) (nr : Z) : option (list DebugEntry) :=
  if nr <=? 0 then Some []
  else
    match fuel with
    | O => None
    | S f =>
        let? addr := load 8 b off in
        let? lineno := load 4 b (off + 8) in
        let? discrim := load 4 b (off + 12) in
        let? c0 := load 1 b (off + 16) in
        let? _ := (if c0 =? 0xff then load 1 b (off + 17) else Some 0) in
        let? name := cstring (drop (Z.to_nat (off + 16)) b) in
        let? rest := read_entries f b (off + 16 + Z.of_nat (length name) + 1) (nr - 1) in
        Some (mkDE addr (i32 lineno) (i32 discrim) name :: rest)
    end.

(** Whether a vector of so many entries can be allocated; beyond [max_size] [resize]
    throws [length_error]. *)
Section Read.
Context (alloc_entries : Z -> bool).

Definition resize_error (n : Z) : option DDRes :=
  if Z.quot (2 ^ 63 - 1) sizeof_DebugEntry <? n then Some (ddres_error (what_of "STDEXCEPT"))
  else if negb (alloc_entries n) then Some (ddres_error (what_of "BADALLOC"))
  else None.

(** An exception thrown inside is the result of [jitdump_read], like any other error. *)
Definition jit_read_debug_info (s : stream) (p : JITRecordPrefix) : option (DDRes * JITRecordDebugInfo * stream) :=
  let none := mkJD p 0 0 [] in
  if jp_total_size p <? sizeof_JITRecordPrefix + debug_info_size_integers then Some (warn_jit, none, s)
  else
    match sread s (jp_total_size p - sizeof_JITRecordPrefix) with
    | None => Some (warn_jit, none, s)
    | Some (b, s) =>
        let code_addr := word 8 b 0 in
        let nr_entry := word 8 b 8 in
        match resize_error nr_entry with
        | Some r => Some (r, none, s)
        | None =>
            let? entries := read_entries (length b) b debug_info_size_integers nr_entry in
            Some (ddres_init, mkJD p code_addr nr_entry entries, s)
        end
    end.

Definition add_code_load (d : JITDump) (c : JITRecordCodeLoad) : JITDump :=
  mkDump (jit_header d) (code_load d ++ [c]) (debug_info d).
Definition add_debug_info (d : JITDump) (i : JITRecordDebugInfo) : JITDump :=
  mkDump (jit_header d) (code_load d) (debug_info d ++ [i]).

(** A record has 16 bytes or more: the fuel is the number of bytes. *)
Fixpoint jit_read_records (fuel : nat) (s : stream) (d : JITDump) : option (DDRes * JITDump) :=
  match fuel with
  | O => None
  | S f =>
      match jit_read_prefix s with
      | None => Some (ddres_init, d)
      | Some (p, s) =>
          if jp_id p =? JIT_CODE_LOAD then
            let? (r, c, s) := jit_read_code_load s p in
            if IsDDResNotOK r then Some (r, d) else jit_read_records f s (add_code_load d c)
          else if jp_id p =? JIT_CODE_DEBUG_INFO then
            let? (r, i, s) := jit_read_debug_info s p in
            if IsDDResNotOK r then Some (r, d) else jit_read_records f s (add_debug_info d i)
          else Some (ddres_error (what_of "JIT"), d)
      end
  end.

(** [file]: the contents, [None] when it cannot be opened. *)
Definition jitdump_read (file : option (list Z)) (d : JITDump) : option (DDRes * JITDump) :=
  match file with
  | None => Some (ddres_error (what_of "NO_JIT_FILE"), d)
  | Some bytes =>
      let '(r, header, s) := jit_read_header (mkStream bytes 0) in
      let d := mkDump header (code_load d) (debug_info d) in
      if IsDDResNotOK r then Some (r, d) else jit_read_records (S (length bytes)) s d
  end.

End Read.

(** ** Files as the format describes them *)

(** A record before it is written: its numbers, the name and the code of a function, the
    entries of its debug information. *)
Inductive jit_record :=
| RLoad (timestamp pid tid vma code_addr code_index : Z) (name code : list Z)
| RDebug (timestamp code_addr : Z) (entries : list DebugEntry).

Definition entry_bytes (e : DebugEntry) : list Z :=
  le_bytes 8 (de_addr e) ++ le_bytes 4 (u32 (de_lineno e)) ++ le_bytes 4 (u32 (de_discrim e)) ++ de_name e ++ [0].

Definition record_body (r : jit_record) : list Z :=
  match r with
  | RLoad _ pid tid vma code_addr code_index name code =>
      le_bytes 4 pid ++ le_bytes 4 tid ++ le_bytes 8 vma ++ le_bytes 8 code_addr ++ le_bytes 8 (Z.of_nat (length code)) ++
      le_bytes 8 code_index ++ name ++ [0] ++ code
  | RDebug _ code_addr entries =>
      le_bytes 8 code_addr ++ le_bytes 8 (Z.of_nat (length entries)) ++ concat (map entry_bytes entries)
  end.

Definition record_prefix (r : jit_record) : JITRecordPrefix :=
  match r with
  | RLoad t _ _ _ _ _ _ _ => mkJP JIT_CODE_LOAD (16 + Z.of_nat (length (record_body r))) t
  | RDebug t _ _ => mkJP JIT_CODE_DEBUG_INFO (16 + Z.of_nat (length (record_body r))) t
  end.

Definition prefix_bytes (p : JITRecordPrefix) : list Z :=
  le_bytes 4 (jp_id p) ++ le_bytes 4 (jp_total_size p) ++ le_bytes 8 (jp_timestamp p).

Definition jit_record_bytes (r : jit_record) : list Z := prefix_bytes (record_prefix r) ++ record_body r.

Definition header_bytes (h : JITHeader) : list Z :=
  le_bytes 4 (jh_magic h) ++ le_bytes 4 (jh_version h) ++ le_bytes 4 (jh_total_size h) ++ le_bytes 4 (jh_elf_mach h) ++
  le_bytes 4 (jh_pad1 h) ++ le_bytes 4 (jh_pid h) ++ le_bytes 8 (jh_timestamp h) ++ le_bytes 8 (jh_flags h).

Definition file_bytes (h : JITHeader) (rs : list jit_record) : list Z := header_bytes h ++ concat (map jit_record_bytes rs).

(** What reading the records should give. *)
Definition add_record (d : JITDump) (r : jit_record) : JITDump :=
  match r with
  | RLoad _ pid tid vma code_addr code_index name code =>
      add_code_load d (mkJC (record_prefix r) pid tid vma code_addr (Z.of_nat (length code)) code_index name)
  | RDebug _ code_addr entries => add_debug_info d (mkJD (record_prefix r) code_addr (Z.of_nat (length entries)) entries)
  end.

Definition dump_of (h : JITHeader) (rs : list jit_record) : JITDump := foldl add_record (mkDump h [] []) rs.

(** ** Theorems *)

Abbreviation fits n v := (0 <= v < 256 ^ Z.of_nat n).

Definition header_ok (h : JITHeader) : Prop :=
  jh_magic h = k_header_magic /\ jh_version h = k_jit_header_version /\ jh_total_size h = sizeof_JITHeader /\
  fits 4 (jh_elf_mach h) /\ fits 4 (jh_pad1 h) /\ fits 4 (jh_pid h) /\ fits 8 (jh_timestamp h) /\ fits 8 (jh_flags h).

(** The marker that stands for the name of the previous entry is not a name
    ([previous_name_not_copied]). *)
Definition same_name_marker : list Z := [0xff].

Definition entry_ok (e : DebugEntry) : Prop :=
  fits 8 (de_addr e) /\ - 2 ^ 31 <= de_lineno e < 2 ^ 31 /\ - 2 ^ 31 <= de_discrim e < 2 ^ 31 /\ Forall (fun b => b <> 0) (de_name e) /\
  de_name e <> same_name_marker.

Definition record_ok (alloc_entries : Z -> bool) (r : jit_record) : Prop :=
  16 + Z.of_nat (length (record_body r)) < 2 ^ 31 /\
  match r with
  | RLoad t pid tid vma addr idx name code => fits 8 t /\ fits 4 pid /\ fits 4 tid /\ fits 8 vma /\ fits 8 addr /\ fits 8 idx
  | RDebug t addr entries =>
      fits 8 t /\ fits 8 addr /\ Forall entry_ok entries /\ alloc_entries (Z.of_nat (length entries)) = true
  end.

Lemma word_head n x rest : fits n x -> word n (le_bytes n x ++ rest) 0 = x.
Proof. intros Hx. unfold word. rewrite drop_0, take_app_length' by (by rewrite length_le_bytes). by apply le_val_le_bytes. Qed.

Lemma word_skip n m x rest off : (m <= off)%nat -> word n (le_bytes m x ++ rest) off = word n rest (off - m).
Proof.
  intros Hm. unfold word. rewrite drop_app_ge by (by rewrite length_le_bytes). by rewrite length_le_bytes.
Qed.

(** Evaluate the words of a buffer written word by word. *)
Ltac words := repeat first [rewrite word_head by assumption | rewrite word_skip by lia; cbn [Nat.sub]].

Lemma sread_some bytes pos a rest n : at_off bytes pos (a ++ rest) -> n = Z.of_nat (length a) ->
  sread (mkStream bytes pos) n = Some (a, mkStream bytes (pos + n)) /\ at_off bytes (pos + n) rest.
Proof.
  intros H ->. split; [|by apply at_off_skip]. destruct H as (pre & -> & ->). unfold sread. cbn [s_bytes s_pos].
  rewrite !length_app. destruct (Z.leb_spec (Z.of_nat (length pre) + Z.of_nat (length a)) (Z.of_nat (length pre + (length a + length rest)))); [|lia].
  by rewrite !Nat2Z.id, drop_app_length, take_app_length.
Qed.

Lemma sread_none bytes pos rest n : at_off bytes pos rest -> Z.of_nat (length rest) < n -> sread (mkStream bytes pos) n = None.
Proof.
  intros (pre & -> & ->) Hn. unfold sread. cbn [s_bytes s_pos]. rewrite length_app.
  destruct (Z.leb_spec (Z.of_nat (length pre) + n) (Z.of_nat (length pre + length rest))); [lia|done].
Qed.

Lemma length_prefix_bytes p : length (prefix_bytes p) = 16%nat.
Proof. unfold prefix_bytes. by rewrite !length_app, !length_le_bytes. Qed.

Lemma read_prefix bytes pos p rest : at_off bytes pos (prefix_bytes p ++ rest) ->
  jp_id p = JIT_CODE_LOAD \/ jp_id p = JIT_CODE_DEBUG_INFO -> fits 4 (jp_total_size p) -> fits 8 (jp_timestamp p) ->
  jit_read_prefix (mkStream bytes pos) = Some (p, mkStream bytes (pos + 16)) /\ at_off bytes (pos + 16) rest.
Proof.
  intros H Hid Hs Ht. assert (Hf : fits 4 (jp_id p)) by (destruct Hid as [-> | ->]; cbv; done).
  destruct (sread_some _ _ _ _ 16 H) as [E Hr]; [by rewrite length_prefix_bytes|]. split; [|done].
  unfold jit_read_prefix. change sizeof_JITRecordPrefix with 16. rewrite E. unfold prefix_bytes. rewrite <- (app_nil_r (le_bytes 8 _)).
  words. cbn [jp_id]. assert (p = mkJP (jp_id p) (jp_total_size p) (jp_timestamp p)) as -> by (by destruct p). cbn [jp_id jp_total_size jp_timestamp].
  destruct Hid as [-> | ->]; done.
Qed.

(** A function record is read back. *)
Lemma read_code_load alloc bytes pos r rest : at_off bytes pos (record_body r ++ rest) -> record_ok alloc r ->
  match r with
  | RLoad t pid tid vma addr idx name code =>
      jit_read_code_load (mkStream bytes pos) (record_prefix r)
        = Some (ddres_init, mkJC (record_prefix r) pid tid vma addr (Z.of_nat (length code)) idx name,
                mkStream bytes (pos + Z.of_nat (length (record_body r))))
  | RDebug _ _ _ => True
  end.
Proof.
  intros Hat [Hlen Hr]. destruct r as [t pid tid vma addr idx name code|]; [|done]. destruct Hr as (Ht & Hp & Hti & Hv & Ha & Hi).
  set (r := RLoad _ _ _ _ _ _ _ _) in *. unfold jit_read_code_load. change (jp_total_size (record_prefix r)) with (16 + Z.of_nat (length (record_body r))).
  assert (Hbl : Z.of_nat (length (record_body r)) = 40 + Z.of_nat (length name) + 1 + Z.of_nat (length code)).
  { cbn [record_body r]. rewrite !length_app, !length_le_bytes. cbn [length]. lia. }
  unfold sizeof_JITRecordPrefix, code_load_size_integers. destruct (Z.ltb_spec (16 + Z.of_nat (length (record_body r))) (16 + 40)); [lia|].
  replace (16 + Z.of_nat (length (record_body r)) - 16) with (Z.of_nat (length (record_body r))) by lia.
  destruct (sread_some _ _ _ _ _ Hat eq_refl) as [-> _].
  assert (Hc : fits 8 (Z.of_nat (length code))) by lia. rewrite Hbl.
  assert (Hi32 : forall x, 0 <= x < 2 ^ 31 -> i32 x = x) by (intros x Hx; unfold i32; rewrite Z.mod_small; lia).
  replace (40 + Z.of_nat (length name) + 1 + Z.of_nat (length code) - 40) with (Z.of_nat (length name) + 1 + Z.of_nat (length code)) by lia.
  rewrite (Hi32 (Z.of_nat (length name) + 1 + Z.of_nat (length code))) by lia.
  cbn [record_body r]. words. rewrite (Hi32 (Z.of_nat (length code))) by lia.
  destruct (Z.ltb_spec (Z.of_nat (length name) + 1 + Z.of_nat (length code)) (Z.of_nat (length code))); [lia|].
  rewrite u64_small by (unfold is_u64; lia). rewrite Hi32 by lia.
  replace (Z.of_nat (length name) + 1 + Z.of_nat (length code) - Z.of_nat (length code)) with (Z.of_nat (length name) + 1) by lia.
  destruct (Z.ltb_spec 1 (Z.of_nat (length name) + 1)) as [Hn|Hn].
  - unfold bytes_at. rewrite !length_app, !length_le_bytes. cbn [length].
    destruct (Z.leb_spec (40 + (Z.of_nat (length name) + 1 - 1)) (Z.of_nat (4 + (4 + (8 + (8 + (8 + (8 + (length name + (1 + length code)))))))))); [|lia].
    change (Z.to_nat 40) with 40%nat. do 6 (rewrite drop_app_ge by (rewrite length_le_bytes; lia); rewrite length_le_bytes; cbn [Nat.sub]).
    rewrite drop_0, take_app_length' by lia. done.
  - destruct name; [done|cbn [length] in Hn; lia].
Qed.

Lemma cstring_name name rest : Forall (fun b => b <> 0) name -> cstring (name ++ 0 :: rest) = Some name.
Proof.
  induction 1 as [|b name Hb _ IH]; [done|]. cbn [app cstring]. destruct (Z.eqb_spec b 0); [done|]. by rewrite IH.
Qed.

Lemma at_off_drop ev off rest : at_off ev off rest -> drop (Z.to_nat off) ev = rest.
Proof. intros (pre & -> & ->). by rewrite Nat2Z.id, drop_app_length. Qed.

Lemma i32_u32 x : - 2 ^ 31 <= x < 2 ^ 31 -> i32 (u32 x) = x.
Proof. intros Hx. unfold i32, u32. rewrite Zplus_mod_idemp_l, Z.mod_small; lia. Qed.

Lemma u32_fits x : fits 4 (u32 x).
Proof. apply u32_range. Qed.

Lemma read_entries_spec es fuel b off rest : at_off b off (concat (map entry_bytes es) ++ rest) -> Forall entry_ok es ->
  (length es <= fuel)%nat -> read_entries fuel b off (Z.of_nat (length es)) = Some es.
Proof.
  revert fuel off. induction es as [|e es IH]; intros fuel off Hat Hok Hf; [by destruct fuel|].
  apply Forall_cons in Hok as [(Ha & Hl & Hd & Hn & _) Hok']. destruct fuel as [|fuel]; [cbn in Hf; lia|]. cbn [length] in *.
  cbn [read_entries]. destruct (Z.leb_spec (Z.of_nat (S (length es))) 0); [lia|].
  cbn [map concat] in Hat. unfold entry_bytes in Hat at 1. rewrite <- !app_assoc in Hat.
  destruct (load_word_at _ _ _ _ _ Hat Ha) as [-> Hat1]. destruct (load_word_at _ _ _ _ _ Hat1 (u32_fits _)) as [E1 Hat2].
  change (off + Z.of_nat 8) with (off + 8) in *. rewrite E1. destruct (load_word_at _ _ _ _ _ Hat2 (u32_fits _)) as [E2 Hat3].
  replace (off + 8 + Z.of_nat 4) with (off + 12) in * by lia. rewrite E2. replace (off + 12 + Z.of_nat 4) with (off + 16) in * by lia.
  assert (Hc : is_Some (load 1 b (off + 16)) /\ (load 1 b (off + 16) = Some 255 -> is_Some (load 1 b (off + 17)))).
  { destruct (de_name e) as [|c0 name] eqn:En.
    - pose proof (load_at _ _ 1 [0] _ Hat3 eq_refl) as ->. cbn. split; [by eexists|]. intros [=].
    - pose proof Hat3 as Hat4. cbn [app] in Hat3. pose proof (load_at _ _ 1 [c0] (name ++ [0] ++ concat (map entry_bytes es) ++ rest) Hat3 eq_refl) as ->.
      split; [by eexists|]. intros _. apply (at_off_skip _ _ [c0] (name ++ [0] ++ concat (map entry_bytes es) ++ rest)) in Hat3.
      change (off + 16 + Z.of_nat (length [c0])) with (off + 16 + 1) in Hat3. replace (off + 16 + 1) with (off + 17) in Hat3 by lia.
      destruct name as [|c1 name]; cbn [app] in Hat3; [rewrite (load_at _ _ 1 [0] _ Hat3 eq_refl)|rewrite (load_at _ _ 1 [c1] _ Hat3 eq_refl)]; by eexists. }
  destruct Hc as [[c0 Ec] Hc]. rewrite Ec in *.
  assert (exists x, (if c0 =? 0xff then load 1 b (off + 17) else Some 0) = Some x) as [x ->].
  { destruct (Z.eqb_spec c0 0xff) as [->|]; [|by eexists]. destruct Hc as [x ->]; [done|]. by eexists. }
  rewrite (at_off_drop _ _ _ Hat3). cbn [app]. rewrite cstring_name by done.
  replace (Z.of_nat (S (length es)) - 1) with (Z.of_nat (length es)) by lia.
  apply at_off_skip, (at_off_skip _ _ [0]) in Hat3. cbn [length] in Hat3. change (Z.of_nat 1) with 1 in Hat3.
  rewrite (IH fuel _ Hat3) by (done || lia). rewrite !i32_u32 by done. by destruct e.
Qed.

Lemma read_debug_info alloc bytes pos r rest : at_off bytes pos (record_body r ++ rest) -> record_ok alloc r ->
  match r with
  | RDebug t addr entries =>
      jit_read_debug_info alloc (mkStream bytes pos) (record_prefix r)
        = Some (ddres_init, mkJD (record_prefix r) addr (Z.of_nat (length entries)) entries,
                mkStream bytes (pos + Z.of_nat (length (record_body r))))
  | RLoad _ _ _ _ _ _ _ _ => True
  end.
Proof.
  intros Hat [Hlen Hr]. destruct r as [|t addr entries]; [done|]. destruct Hr as (Ht & Ha & He & Hal).
  set (r := RDebug _ _ _) in *. unfold jit_read_debug_info. change (jp_total_size (record_prefix r)) with (16 + Z.of_nat (length (record_body r))).
  assert (Hel : (length entries <= length (concat (map entry_bytes entries)))%nat).
  { clear. induction entries as [|e es IH]; [done|]. cbn [map concat length]. rewrite length_app. unfold entry_bytes at 1.
    rewrite !length_app, !length_le_bytes. lia. }
  assert (Hbl : length (record_body r) = (16 + length (concat (map entry_bytes entries)))%nat).
  { cbn [record_body r]. by rewrite !length_app, !length_le_bytes. }
  unfold sizeof_JITRecordPrefix, debug_info_size_integers. destruct (Z.ltb_spec (16 + Z.of_nat (length (record_body r))) (16 + 16)); [lia|].
  replace (16 + Z.of_nat (length (record_body r)) - 16) with (Z.of_nat (length (record_body r))) by lia.
  destruct (sread_some _ _ _ _ _ Hat eq_refl) as [-> _].
  assert (Hc : fits 8 (Z.of_nat (length entries))) by lia.
  assert (Hn : word 8 (record_body r) 8 = Z.of_nat (length entries) /\ word 8 (record_body r) 0 = addr) by (cbn [record_body r]; by words).
  destruct Hn as [-> ->]. unfold resize_error, sizeof_DebugEntry.
  destruct (Z.ltb_spec (Z.quot (2 ^ 63 - 1) 48) (Z.of_nat (length entries))) as [Hq|_].
  { change (Z.quot (2 ^ 63 - 1) 48) with 192153584101141162 in Hq. lia. }
  rewrite Hal. cbn [negb]. rewrite (read_entries_spec entries _ _ _ []); [done| |done|lia].
  rewrite app_nil_r. pose proof (at_off_0 (record_body r)) as H0. cbn [record_body r] in H0 |- *. rewrite app_assoc in H0 |- *.
  apply at_off_skip in H0. by rewrite length_app, !length_le_bytes in H0.
Qed.

(** One complete record is read and added. *)
Lemma read_record alloc bytes pos r rest fuel d : at_off bytes pos (jit_record_bytes r ++ rest) -> record_ok alloc r ->
  exists pos', at_off bytes pos' rest /\
    jit_read_records alloc (S fuel) (mkStream bytes pos) d = jit_read_records alloc fuel (mkStream bytes pos') (add_record d r).
Proof.
  intros Hat Hok. unfold jit_record_bytes in Hat. rewrite <- app_assoc in Hat. pose proof Hok as [Hlen Hr].
  assert (Hp : (jp_id (record_prefix r) = JIT_CODE_LOAD \/ jp_id (record_prefix r) = JIT_CODE_DEBUG_INFO) /\
               fits 4 (jp_total_size (record_prefix r)) /\ fits 8 (jp_timestamp (record_prefix r))).
  { destruct r; cbn [record_prefix jp_id jp_total_size jp_timestamp]; (split_and!; [auto|lia|lia|apply Hr..]). }
  destruct Hp as (H1 & H2 & H3). destruct (read_prefix _ _ _ _ Hat H1 H2 H3) as [E Hat1].
  exists (pos + 16 + Z.of_nat (length (record_body r))). split; [by apply at_off_skip|]. cbn [jit_read_records]. rewrite E.
  pose proof (read_code_load _ _ _ _ _ Hat1 Hok) as Hc. pose proof (read_debug_info _ _ _ _ _ Hat1 Hok) as Hd.
  destruct r as [t pid tid vma addr idx name code|t addr es].
  - change (jp_id _ =? JIT_CODE_LOAD) with true. cbn match. by rewrite Hc.
  - change (jp_id _ =? JIT_CODE_LOAD) with false. change (jp_id _ =? JIT_CODE_DEBUG_INFO) with true. cbn match. by rewrite Hd.
Qed.

(** A record cut in its body. *)
Lemma read_cut_record alloc bytes pos r m fuel d : at_off bytes pos (take m (jit_record_bytes r)) -> record_ok alloc r ->
  (m < length (jit_record_bytes r))%nat -> exists res, (res = ddres_init \/ res = warn_jit) /\
    jit_read_records alloc (S fuel) (mkStream bytes pos) d = Some (res, d).
Proof.
  intros Hat [Hlen Hr] Hm. cbn [jit_read_records]. unfold jit_record_bytes in *. rewrite length_app, length_prefix_bytes in Hm.
  destruct (decide (m < 16)%nat) as [Hs|Hs].
  { unfold jit_read_prefix. rewrite (sread_none _ _ _ sizeof_JITRecordPrefix Hat); [by eauto|].
    rewrite length_take, length_app, length_prefix_bytes. unfold sizeof_JITRecordPrefix. lia. }
  rewrite take_app_ge in Hat by (rewrite length_prefix_bytes; lia). rewrite length_prefix_bytes in Hat.
  assert (Hp : (jp_id (record_prefix r) = JIT_CODE_LOAD \/ jp_id (record_prefix r) = JIT_CODE_DEBUG_INFO) /\
               fits 4 (jp_total_size (record_prefix r)) /\ fits 8 (jp_timestamp (record_prefix r))).
  { destruct r; cbn [record_prefix jp_id jp_total_size jp_timestamp]; (split_and!; [auto|lia|lia|apply Hr..]). }
  destruct Hp as (H1 & H2 & H3). destruct (read_prefix _ _ _ _ Hat H1 H2 H3) as [-> Hat1].
  assert (Hnone : sread (mkStream bytes (pos + 16)) (jp_total_size (record_prefix r) - sizeof_JITRecordPrefix) = None).
  { apply (sread_none _ _ _ _ Hat1). rewrite length_take. unfold sizeof_JITRecordPrefix.
    destruct r; cbn [record_prefix jp_total_size]; lia. }
  destruct H1 as [E|E]; rewrite E; cbn match.
  - change (JIT_CODE_LOAD =? JIT_CODE_LOAD) with true. cbn match. unfold jit_read_code_load. rewrite Hnone.
    destruct (_ <? _); by eauto.
  - change (JIT_CODE_DEBUG_INFO =? JIT_CODE_LOAD) with false. change (JIT_CODE_DEBUG_INFO =? JIT_CODE_DEBUG_INFO) with true. cbn match.
    unfold jit_read_debug_info. rewrite Hnone. destruct (_ <? _); by eauto.
Qed.

Lemma length_record_bytes r : (16 <= length (jit_record_bytes r))%nat.
Proof. unfold jit_record_bytes. rewrite length_app, length_prefix_bytes. lia. Qed.

Lemma read_records_truncated alloc rs m fuel bytes pos d :
  at_off bytes pos (take m (concat (map jit_record_bytes rs))) -> Forall (record_ok alloc) rs ->
  (length (take m (concat (map jit_record_bytes rs))) < fuel)%nat ->
  exists k res, jit_read_records alloc fuel (mkStream bytes pos) d = Some (res, foldl add_record d (take k rs)) /\
    (res = ddres_init \/ res = warn_jit) /\
    ((length (concat (map jit_record_bytes rs)) <= m)%nat -> res = ddres_init /\ k = length rs).
Proof.
  revert m fuel pos d. induction rs as [|r rs IH]; intros m fuel pos d Hat Hok Hf; (destruct fuel as [|fuel]; [lia|]).
  { cbn [map concat] in Hat. rewrite take_nil in Hat. exists 0%nat, ddres_init. split; [|by auto]. cbn [jit_read_records]. unfold jit_read_prefix.
    by rewrite (sread_none _ _ _ sizeof_JITRecordPrefix Hat). }
  apply Forall_cons in Hok as [Hr Hok]. cbn [map concat] in *. destruct (decide (m < length (jit_record_bytes r))%nat) as [Hm|Hm].
  - rewrite take_app_le in Hat by lia. destruct (read_cut_record _ _ _ _ _ fuel d Hat Hr Hm) as (res & Hres & ->).
    exists 0%nat, res. split_and!; [done..|]. rewrite length_app. lia.
  - rewrite take_app_ge in Hat, Hf by lia. rewrite length_app in Hf. pose proof (length_record_bytes r).
    destruct (read_record _ _ _ _ _ fuel d Hat Hr) as (pos' & Hat' & ->).
    destruct (IH _ fuel _ (add_record d r) Hat' Hok) as (k & res & -> & Hres & Hall); [lia|].
    exists (S k), res. split_and!; [done..|]. rewrite length_app. intros Hle. destruct Hall as [-> ->]; [lia|done].
Qed.

Lemma length_header_bytes h : length (header_bytes h) = 40%nat.
Proof. unfold header_bytes. by rewrite !length_app, !length_le_bytes. Qed.

Lemma read_header h rest : header_ok h ->
  jit_read_header (mkStream (header_bytes h ++ rest) 0) = (ddres_init, h, mkStream (header_bytes h ++ rest) 40).
Proof.
  intros (Hm & Hv & Hs & H4 & H5 & H6 & H7 & H8). unfold jit_read_header. change sizeof_JITHeader with 40.
  destruct (sread_some (header_bytes h ++ rest) 0 (header_bytes h) rest 40 (at_off_0 _)) as [-> _]; [by rewrite length_header_bytes|].
  destruct h as [magic version total mach pad pid t fl]. cbn [jh_magic jh_version jh_total_size jh_elf_mach jh_pad1 jh_pid jh_timestamp jh_flags] in *. subst.
  set (s := mkStream _ (0 + 40)). set (s' := mkStream _ 40). assert (s' = s) as -> by done. clearbody s.
  assert (F1 : fits 4 k_header_magic) by done. assert (F2 : fits 4 k_jit_header_version) by done. assert (F3 : fits 4 sizeof_JITHeader) by done.
  unfold header_bytes. cbn [jh_magic jh_version jh_total_size jh_elf_mach jh_pad1 jh_pid jh_timestamp jh_flags].
  rewrite <- (app_nil_r (le_bytes 8 fl)). words. done.
Qed.

Lemma read_truncated alloc_entries h rs n : header_ok h -> Forall (record_ok alloc_entries) rs -> (40 <= n)%nat ->
  exists k r, jitdump_read alloc_entries (Some (take n (file_bytes h rs))) empty_dump = Some (r, dump_of h (take k rs)) /\
    (r = ddres_init \/ r = warn_jit) /\ ((length (file_bytes h rs) <= n)%nat -> r = ddres_init /\ k = length rs).
Proof.
  intros Hh Hr Hn. unfold jitdump_read, file_bytes. rewrite take_app_ge by (rewrite length_header_bytes; lia).
  rewrite length_header_bytes. set (m := (n - 40)%nat). rewrite read_header by done. change (IsDDResNotOK ddres_init) with false.
  cbn [code_load debug_info empty_dump].
  destruct (read_records_truncated alloc_entries rs m (S (length (header_bytes h ++ take m (concat (map jit_record_bytes rs)))))
              (header_bytes h ++ take m (concat (map jit_record_bytes rs))) 40 (mkDump h [] [])) as (k & r & -> & Hres & Hall).
  - exists (header_bytes h). split; [done|by rewrite length_header_bytes].
  - done.
  - rewrite length_app. lia.
  - exists k, r. split_and!; [done..|]. intros Hle. apply Hall. rewrite length_app, length_header_bytes in Hle. lia.
Qed.

(** A file that does not start as a jitdump is not read. *)
Definition not_jitdump (bytes : list Z) : Prop := word 4 bytes 0 <> k_header_magic.

Lemma read_not_jitdump alloc_entries bytes : not_jitdump bytes -> exists d, jitdump_read alloc_entries (Some bytes) empty_dump = Some (warn_jit, d) /\ code_load d = [].
Proof.
  intros Hm. unfold jitdump_read, jit_read_header, sread. cbn [s_pos s_bytes]. destruct (_ <=? _); [|by eexists].
  cbn [jh_magic]. assert (E : word 4 (take (Z.to_nat sizeof_JITHeader) (drop (Z.to_nat 0) bytes)) 0 = word 4 bytes 0).
  { unfold word. cbn [Z.to_nat]. rewrite !drop_0, take_take. done. }
  rewrite E, (proj2 (Z.eqb_neq _ _) Hm). by eexists.
Qed.

Lemma dump_of_length h rs : (length (code_load (dump_of h rs)) <= length rs)%nat.
Proof.
  unfold dump_of. assert (H : forall d, (length (code_load (foldl add_record d rs)) <= length (code_load d) + length rs)%nat); [|apply H].
  induction rs as [|r rs IH]; intros d; cbn [foldl length]; [lia|]. specialize (IH (add_record d r)).
  assert (length (code_load (add_record d r)) <= S (length (code_load d)))%nat; [|lia].
  destruct r; cbn [add_record add_code_load add_debug_info code_load]; [rewrite length_app; cbn [length]; lia|lia].
Qed.

(** C34: reading a jitdump file while it is being written.  The file has a header of exactly 40
    bytes and records of the two kinds that LLVM writes (functions and debug information, each
    below 2^31 bytes, its debug entries all with names of their own, for which memory can be
    allocated).  Whatever part of it, from the 40 bytes of the header on, is on disk, the reader
    stays inside its buffers and returns, without error or with a warning, exactly the first
    records of the file; a complete file gives all the records, without a warning, equal to those
    written.  Longer headers and the marker for the previous name are misread
    ([longer_header_misread], [previous_name_not_copied]). *)
Theorem jitdump_reads_truncated alloc_entries h rs n : header_ok h -> Forall (record_ok alloc_entries) rs -> (40 <= n)%nat ->
  exists k r, jitdump_read alloc_entries (Some (take n (file_bytes h rs))) empty_dump = Some (r, dump_of h (take k rs)) /\
    (r = ddres_init \/ r = warn_jit) /\ ((length (file_bytes h rs) <= n)%nat -> r = ddres_init /\ k = length rs).
Proof. apply read_truncated. Qed.

(** A header cut in the middle gives nothing. *)
Lemma jitdump_header_cut alloc_entries h rs n : (n < 40)%nat ->
  jitdump_read alloc_entries (Some (take n (file_bytes h rs))) empty_dump = Some (warn_jit, empty_dump).
Proof.
  intros Hn. unfold jitdump_read, jit_read_header. rewrite (sread_none _ 0 (take n (file_bytes h rs)) sizeof_JITHeader (at_off_0 _)); [done|].
  rewrite length_take. unfold sizeof_JITHeader. lia.
Qed.

(** *** Any file *)

Abbreviation byte b := (0 <= b < 256).

Lemma le_val_range n bs : Forall (fun b => byte b) bs -> (length bs <= n)%nat -> 0 <= le_val bs < 256 ^ Z.of_nat n.
Proof.
  revert n. induction bs as [|b bs IH]; intros n Hb Hl; cbn [le_val length] in *; [split; [done|apply Z.pow_pos_nonneg; lia]|].
  apply Forall_cons in Hb as [Hb Hbs]. destruct n as [|n]; [lia|]. specialize (IH n Hbs ltac:(lia)).
  rewrite Nat2Z.inj_succ, Z.pow_succ_r by lia. lia.
Qed.

Lemma word_range n bs off : Forall (fun b => byte b) bs -> 0 <= word n bs off < 256 ^ Z.of_nat n.
Proof. intros H. apply le_val_range; [by apply Forall_take, Forall_drop|]. rewrite length_take. lia. Qed.

Lemma sread_bytes s n b s' : sread s n = Some (b, s') -> Forall (fun b => byte b) (s_bytes s) ->
  Forall (fun b => byte b) b /\ s_bytes s' = s_bytes s.
Proof. unfold sread. destruct (_ <=? _); [|done]. intros [= <- <-] H. split; [by apply Forall_take, Forall_drop|done]. Qed.

(** A function's address and size are 64-bit numbers. *)
Definition load_ok (c : JITRecordCodeLoad) : Prop := is_u64 (jc_code_addr c) /\ is_u64 (jc_code_size c).

Lemma code_load_read_ok s p r c s' : jit_read_code_load s p = Some (r, c, s') -> Forall (fun b => byte b) (s_bytes s) ->
  load_ok c /\ s_bytes s' = s_bytes s.
Proof.
  intros E H. unfold jit_read_code_load in E. assert (Hz : forall q, load_ok (mkJC q 0 0 0 0 0 0 [])) by (split; cbn; unfold is_u64; lia).
  destruct (_ <? _); [by injection E as <- <- <-|]. destruct (sread s _) as [[b s1]|] eqn:Es; [|by injection E as <- <- <-].
  apply sread_bytes in Es as [Hb <-]; [|done]. assert (Hok : forall name, load_ok (mkJC p (word 4 b 0) (word 4 b 4) (word 8 b 8) (word 8 b 16) (word 8 b 24) (word 8 b 32) name)).
  { intros name. split; cbn; apply (word_range 8 b _ Hb). }
  cbv zeta in E. destruct (_ <? _); [by injection E as <- <- <-|]. destruct (1 <? _); [|by injection E as <- <- <-].
  destruct (bytes_at _ _ _) as [name|]; [|done]. by injection E as <- <- <-.
Qed.

Lemma debug_info_read_bytes alloc s p r d s' : jit_read_debug_info alloc s p = Some (r, d, s') -> Forall (fun b => byte b) (s_bytes s) ->
  s_bytes s' = s_bytes s.
Proof.
  intros E H. unfold jit_read_debug_info in E. destruct (_ <? _); [by injection E as <- <- <-|].
  destruct (sread s _) as [[b s1]|] eqn:Es; [|by injection E as <- <- <-]. apply sread_bytes in Es as [Hb <-]; [|done].
  cbv zeta in E. destruct (resize_error _ _); [by injection E as <- <- <-|]. destruct (read_entries _ _ _ _); [|done]. by injection E as <- <- <-.
Qed.

Lemma records_loads alloc fuel s d r d' : jit_read_records alloc fuel s d = Some (r, d') -> Forall (fun b => byte b) (s_bytes s) ->
  Forall load_ok (code_load d) -> Forall load_ok (code_load d') /\ (length (code_load d') <= length (code_load d) + fuel)%nat.
Proof.
  revert s d. induction fuel as [|f IH]; intros s d E Hb Hd; cbn [jit_read_records] in E; [done|].
  destruct (jit_read_prefix s) as [[p s1]|] eqn:Ep; [|injection E as <- <-; split; [done|lia]].
  assert (Hs1 : s_bytes s1 = s_bytes s).
  { unfold jit_read_prefix in Ep. destruct (sread s _) as [[b s2]|] eqn:Es; [|done]. apply sread_bytes in Es as [_ <-]; [|done].
    cbv zeta in Ep. repeat (destruct (_ =? _); [done|]). destruct (_ <=? _); [done|]. by injection Ep as <- <-. }
  rewrite <- Hs1 in Hb. destruct (jp_id p =? JIT_CODE_LOAD).
  - destruct (jit_read_code_load s1 p) as [[[r1 c] s2]|] eqn:Ec; [|done]. apply code_load_read_ok in Ec as [Hc Es2]; [|done].
    destruct (IsDDResNotOK r1); [injection E as <- <-; split; [done|lia]|]. rewrite <- Es2 in Hb.
    apply IH in E as [Hf Hl]; [|done|apply Forall_app; split; [done|by apply Forall_singleton]]. split; [done|].
    cbn [code_load add_code_load] in Hl. rewrite length_app in Hl. cbn [length] in Hl. lia.
  - destruct (_ =? _); [|injection E as <- <-; split; [done|lia]].
    destruct (jit_read_debug_info alloc s1 p) as [[[r1 c] s2]|] eqn:Ec; [|done]. apply debug_info_read_bytes in Ec as Es2; [|done].
    destruct (IsDDResNotOK r1); [injection E as <- <-; split; [done|lia]|]. rewrite <- Es2 in Hb.
    apply IH in E as [Hf Hl]; [|done..]. split; [done|]. cbn [code_load add_debug_info] in Hl. lia.
Qed.

(** The functions that are read from any file. *)
Lemma jitdump_loads alloc file d r d' : jitdump_read alloc file d = Some (r, d') -> code_load d = [] ->
  (forall bytes, file = Some bytes -> Forall (fun b => byte b) bytes) ->
  Forall load_ok (code_load d') /\ (length (code_load d') <= S (length (default [] file)))%nat.
Proof.
  intros E Hd Hb. unfold jitdump_read in E. destruct file as [bytes|].
  - change (default [] (Some bytes)) with bytes. destruct (jit_read_header (mkStream bytes 0)) as [[r1 h] s] eqn:Eh. cbv zeta in E.
    assert (Hs : s_bytes s = bytes).
    { unfold jit_read_header in Eh. destruct (sread _ _) as [[b s1]|] eqn:Es; [|by injection Eh as <- <- <-].
      apply sread_bytes in Es as [_ Es]; [|by apply Hb]. cbn in Es. rewrite <- Es. destruct (_ =? _); [|by injection Eh as <- <- <-].
      cbv zeta in Eh. destruct (_ <? 0); [by injection Eh as <- <- <-|]. destruct (0 <? _); destruct (negb _); by injection Eh as <- <- <-. }
    destruct (IsDDResNotOK r1); [injection E as <- <-; cbn [code_load]; rewrite Hd; split; [constructor|cbn; lia]|].
    apply records_loads in E as [Hf Hl]; [|by rewrite Hs; apply Hb|cbn [code_load]; rewrite Hd; constructor].
    cbn [code_load] in Hl. rewrite Hd in Hl. cbn [length Nat.add] in Hl. split; [done|lia].
  - injection E as <- <-. rewrite Hd. split; [constructor|cbn; lia].
Qed.

(** Only a file that cannot be opened is reported as missing. *)
Definition not_missing (r : DDRes) : bool := negb (res_what r =? what_of "NO_JIT_FILE").

Lemma records_not_missing alloc fuel s d r d' : jit_read_records alloc fuel s d = Some (r, d') -> not_missing r = true.
Proof.
  revert s d. induction fuel as [|f IH]; intros s d E; cbn [jit_read_records] in E; [done|].
  destruct (jit_read_prefix s) as [[p s1]|]; [|by injection E as <- <-]. destruct (jp_id p =? JIT_CODE_LOAD).
  - destruct (jit_read_code_load s1 p) as [[[r1 c] s2]|] eqn:Ec; [|done]. destruct (IsDDResNotOK r1); [|by apply IH in E].
    injection E as <- <-. unfold jit_read_code_load in Ec. cbv zeta in Ec.
    repeat case_match; try done; injection Ec as <- _ _; done.
  - destruct (_ =? _); [|by injection E as <- <-].
    destruct (jit_read_debug_info alloc s1 p) as [[[r1 c] s2]|] eqn:Ec; [|done]. destruct (IsDDResNotOK r1); [|by apply IH in E].
    injection E as <- <-. unfold jit_read_debug_info, resize_error in Ec. cbv zeta in Ec.
    repeat case_match; try done; simplify_eq; done.
Qed.

Lemma jitdump_not_missing alloc bytes d r d' : jitdump_read alloc (Some bytes) d = Some (r, d') -> not_missing r = true.
Proof.
  unfold jitdump_read. destruct (jit_read_header (mkStream bytes 0)) as [[r1 h] s] eqn:Eh. cbv zeta.
  destruct (IsDDResNotOK r1); [|apply records_not_missing]. intros [= <- <-]. unfold jit_read_header in Eh. cbv zeta in Eh.
  repeat case_match; injection Eh as <- _ _; done.
Qed.

(** A file with a function of four bytes and its line, complete and cut in the debug
    information. *)
Definition demo_header : JITHeader := mkJH k_header_magic 1 40 62 0 42 7 0.
Definition demo_records : list jit_record :=
  [RLoad 8 42 43 4096 4096 1 [102; 111; 111] [144; 144; 144; 195]; RDebug 9 4096 [mkDE 4096 12 0 [97; 46; 99]]].

Lemma jitdump_reads_truncated_witness :
  jitdump_read (fun _ => true) (Some (file_bytes demo_header demo_records)) empty_dump = Some (ddres_init, dump_of demo_header demo_records) /\
  jitdump_read (fun _ => true) (Some (take 110 (file_bytes demo_header demo_records))) empty_dump
    = Some (ddres_init, dump_of demo_header (take 1 demo_records)) /\
  exists k r, jitdump_read (fun _ => true) (Some (take 130 (file_bytes demo_header demo_records))) empty_dump
                = Some (r, dump_of demo_header (take k demo_records)) /\ (r = ddres_init \/ r = warn_jit).
Proof.
  split; [by vm_compute|]. split; [by vm_compute|].
  destruct (jitdump_reads_truncated (fun _ => true) demo_header demo_records 130) as (k & r & E & Hr & _).
  - split_and!; vm_compute; congruence.
  - repeat constructor; vm_compute; try congruence.
  - lia.
  - by exists k, r.
Defined.

(** ** Malformed files *)

(** The code size is compared as a signed 32-bit number: a size just below [2^32] passes
    the check and makes the name longer than the record, read past the buffer. *)
Example code_size_reads_past_record :
  jitdump_read (fun _ => true) (Some (header_bytes demo_header ++ prefix_bytes (mkJP JIT_CODE_LOAD 64 0) ++
    le_bytes 4 1 ++ le_bytes 4 1 ++ le_bytes 8 0 ++ le_bytes 8 4096 ++ le_bytes 8 (2 ^ 32 - 100) ++ le_bytes 8 0 ++ le_bytes 8 0)) empty_dump = None.
Proof. by vm_compute. Qed.

(** The number of entries is not compared with the size of the record. *)
Example entries_read_past_record :
  jitdump_read (fun _ => true) (Some (header_bytes demo_header ++ prefix_bytes (mkJP JIT_CODE_DEBUG_INFO 32 0) ++ le_bytes 8 0 ++ le_bytes 8 1)) empty_dump = None.
Proof. by vm_compute. Qed.

(** The rest of a longer header is skipped from the start of the file instead of from the
    end of the known fields: the records are not found. *)
Example longer_header_misread :
  jitdump_read (fun _ => true) (Some (header_bytes (mkJH k_header_magic 1 48 62 0 42 7 0) ++ le_bytes 8 0 ++ concat (map jit_record_bytes demo_records))) empty_dump
    = Some (ddres_init, mkDump (mkJH k_header_magic 1 48 62 0 42 7 0) [] []).
Proof. by vm_compute. Qed.

(** The name of the previous entry is not taken over. *)
Example previous_name_not_copied :
  option_map (fun x => map (fun i => map de_name (jd_entries i)) (debug_info (snd x)))
    (jitdump_read (fun _ => true) (Some (header_bytes demo_header ++
       jit_record_bytes (RDebug 9 4096 [mkDE 4096 12 0 [97; 46; 99]; mkDE 4100 13 0 [255]]))) empty_dump)
  = Some [[[97; 46; 99]; [255]]].
Proof. by vm_compute. Qed.
