(* ===== verification/ElfModule.v ===== *)
(** * Modules: the files of a process, for the unwinder

    Model of [src/ddprof_module_lib.cc], [include/ddprof_module.hpp] and [src/build_id.cc]: where
    the segments of a file lie in the process, its build id, and how the file is reported to
    libdwfl.  What libelf reads of a file is a record; libdwfl is a parameter. *)

From S2P Require Import Prelude Ddres Dso DsoHdr.

(** ** Files, as libelf reads them *)

Definition PT_LOAD : Z := 1.
Definition PT_NOTE : Z := 4.
Definition SHT_NOTE : Z := 7.
Definition ET_EXEC : Z := 2.
Definition ET_DYN : Z := 3.
Definition ET_CORE : Z := 4.
Definition PF_X : Z := 1.
Definition PF_W : Z := 2.
Definition PF_R : Z := 4.
Definition NT_GNU_BUILD_ID : Z := 3.

Record Note := mkNote { n_type : Z; n_name : list Z; n_desc : list Z }.

(** The notes of a segment or a section, if its data can be read. *)
Record Phdr := mkPhdr { p_type : Z; p_flags : Z; p_offset : Z; p_vaddr : Z; p_filesz : Z; p_notes : option (list Note) }.
Record Scn := mkScn { sh_type : option Z; sh_name : option string; scn_notes : option (list Note) }.

Record Elf := mkElf {
  e_type : option Z;                     (* the type in the header, if there is one *)
  e_shstrndx : bool;                     (* the names of the sections can be read *)
  e_sections : list Scn;
  e_phdrs : option (list (option Phdr))  (* [None]: the headers cannot be counted, or read *)
}.

(** ** Build ids *)

Definition int_to_hex_digit (c : Z) : Ascii.ascii := Ascii.ascii_of_nat (Z.to_nat (if c <? 10 then 48 + c else 97 + (c - 10))).

Fixpoint format_build_id (bs : list Z) : string :=
  match bs with
  | [] => EmptyString
  | c :: bs' => String (int_to_hex_digit (Z.shiftr c 4)) (String (int_to_hex_digit (Z.land c 15)) (format_build_id bs'))
  end.

Definition kGoBuildIdNoteName : list Z := [71; 111; 0; 0].
Definition kGnuBuildIdNoteName : list Z := [71; 78; 85; 0].
Definition kGoBuildIdSection : string := ".note.go.buildid".
Definition kGnuBuildIdSection : string := ".note.gnu.build-id".
Definition kGoBuildIdTag : Z := 4.

Definition find_note_section (elf : Elf) (section_name : string) : option Scn :=
  if negb (e_shstrndx elf) then None
  else List.find (fun s => bool_decide (sh_type s = Some SHT_NOTE) && bool_decide (sh_name s = Some section_name)) (e_sections elf).

(** The description of the first note that matches, or nothing. *)
Definition process_note (notes : list Note) (note_type : Z) (note_name : list Z) : list Z :=
  match List.find (fun n => (n_type n =? note_type) && bool_decide (n_name n = note_name)) notes with
  | Some n => n_desc n
  | None => []
  end.

Fixpoint program_notes (phdrs : list (option Phdr)) (note_type : Z) (note_name : list Z) : list Z :=
  match phdrs with
  | [] => []
  | ph :: phdrs' =>
      let result :=
        match ph with
        | Some p => if p_type p =? PT_NOTE then match p_notes p with Some ns => process_note ns note_type note_name | None => [] end else []
        | None => []
        end in
      match result with [] => program_notes phdrs' note_type note_name | _ => result end
  end.

Definition get_elf_note (elf : Elf) (section_name : string) (note_type : Z) (note_name : list Z) : list Z :=
  let from_program := match e_phdrs elf with None => [] | Some phdrs => program_notes phdrs note_type note_name end in
  match e_sections elf with
  | [] => from_program
  | _ :: _ =>
      match find_note_section elf section_name with
      | None => []
      | Some s =>
          match scn_notes s with
          | Some ns => match process_note ns note_type note_name with [] => from_program | result => result end
          | None => from_program
          end
      end
  end.

Definition string_of (bs : list Z) : string := fold_right (fun b s => String (Ascii.ascii_of_nat (Z.to_nat b)) s) EmptyString bs.

Definition get_gnu_build_id (elf : Elf) : option string :=
  match get_elf_note elf kGnuBuildIdSection NT_GNU_BUILD_ID kGnuBuildIdNoteName with [] => None | note => Some (format_build_id note) end.

Definition get_golang_build_id (elf : Elf) : option string :=
  match get_elf_note elf kGoBuildIdSection kGoBuildIdTag kGoBuildIdNoteName with [] => None | note => Some (string_of note) end.

Definition find_build_id (elf : Elf) : option string :=
  match get_gnu_build_id elf with
  | Some id => Some id
  | None => match get_golang_build_id elf with Some id => Some id | None => None end
  end.

(** ** Segments *)

Record Segment := mkSegment { seg_addr : Z; seg_offset : Z; seg_prot : Z }.

Definition elf_flags_to_prot (flags : Z) : Z :=
  Z.lor (Z.lor (if Z.land flags PF_X =? 0 then 0 else PROT_EXEC) (if Z.land flags PF_R =? 0 then 0 else PROT_READ))
        (if Z.land flags PF_W =? 0 then 0 else PROT_WRITE).

Definition invalid_elf : DDRes := ddres_error (what_of "INVALID_ELF").

Fixpoint find_load_segment (phdrs : list (option Phdr)) (file_offset : Z) : DDRes + Segment :=
  match phdrs with
  | [] => inl (ddres_error (what_of "NO_MATCHING_LOAD_SEGMENT"))
  | None :: _ => inl invalid_elf
  | Some ph :: phdrs' =>
      if (p_type ph =? PT_LOAD) && (p_offset ph <=? file_offset) && (file_offset <? p_offset ph +w p_filesz ph)
      then inr (mkSegment (p_vaddr ph) (p_offset ph) (elf_flags_to_prot (p_flags ph)))
      else find_load_segment phdrs' file_offset
  end.

Definition find_elf_segment (elf : Elf) (file_offset : Z) : DDRes + Segment :=
  match e_type elf with
  | None => inl invalid_elf
  | Some ty =>
      if (ty =? ET_EXEC) || (ty =? ET_CORE) || (ty =? ET_DYN) then
        match e_phdrs elf with
        | None => inl invalid_elf
        | Some phdrs => find_load_segment phdrs file_offset
        end
      else inl invalid_elf
  end.

Definition compute_elf_bias (elf : Elf) (dso : Dso) (pc : Z) : DDRes + Z :=
  let file_offset := u64 (pc - d_start dso + d_offset dso) in
  match find_elf_segment elf file_offset with
  | inl res => inl res
  | inr segment => inr (u64 (d_start dso - d_offset dso - (seg_addr segment - seg_offset segment)))
  end.

(** ** Modules *)

Inductive ModStatus := kUnknown | kInconsistent.

Record DDProfMod := mkMod { mod_build_id : string; mod_reported : bool; mod_low_addr : Z; mod_high_addr : Z; mod_sym_bias : Z; mod_status : ModStatus }.
Definition new_mod : DDProfMod := mkMod "" false 0 0 (u64 (-1)) kUnknown.

Section Report.
(** libdwfl: its last error, which is reset; whether a module is loaded at an address, and the range of a file that is loaded at
    a bias; [open_elf]: the file at a path, [Some None] when it is not an ELF file. *)
Context {D : Type} (dwfl_errno : D -> Z * D) (dwfl_addrmodule : D -> Z -> bool) (dwfl_report_elf : D -> string -> string -> Z -> option (Z * Z) * D)
        (open_elf : string -> option (option Elf)).

Definition warn_module : DDRes := ddres_warn (what_of "MODULE").

(** The result, the module, libdwfl's state and whether the file is flagged as errored; [None]:
    the path has no slash, so its name is computed from a null pointer. *)
Definition report_module (d : D) (pc : Z) (dso : Dso) (file : FileInfoValue) (errored : bool) : option (DDRes * DDProfMod * D * bool) :=
  let filepath := fi_path (fiv_info file) in
  let? module_name := after_last_slash filepath in
  if errored then Some (warn_module, new_mod, d, errored)
  else if dwfl_addrmodule d pc then Some (warn_module, mkMod "" false 0 0 (u64 (-1)) kInconsistent, d, errored)
  else
    match open_elf filepath with
    | None => Some (warn_module, new_mod, d, errored)
    | Some None => Some (invalid_elf, new_mod, snd (dwfl_errno d), errored)
    | Some (Some elf) =>
        let d := snd (dwfl_errno d) in
        match compute_elf_bias elf dso pc with
        | inl res => Some (res, new_mod, d, true)
        | inr bias =>
            let '(range, d) := dwfl_report_elf d module_name filepath bias in
            let build_id := default "" (find_build_id elf) in
            match range with
            | None => Some (warn_module, mkMod build_id false 0 0 (u64 (-1)) kUnknown, d, true)
            | Some (low, high) => Some (ddres_init, mkMod build_id true low high bias kUnknown, d, errored)
            end
        end
    end.

End Report.

(** ** Theorems *)

(** *** Build ids *)

Definition digit_value (c : Ascii.ascii) : option Z :=
  let n := Z.of_nat (Ascii.nat_of_ascii c) in
  if (48 <=? n) && (n <=? 57) then Some (n - 48) else if (97 <=? n) && (n <=? 102) then Some (n - 87) else None.

Fixpoint parse_build_id (s : string) : option (list Z) :=
  match s with
  | EmptyString => Some []
  | String hi (String lo s') =>
      let? h := digit_value hi in let? l := digit_value lo in let? bs := parse_build_id s' in Some (h * 16 + l :: bs)
  | String _ EmptyString => None
  end.

Lemma digit_value_hex c : 0 <= c < 16 -> digit_value (int_to_hex_digit c) = Some c.
Proof.
  intros Hc. assert (Hd : c ∈ seqZ 0 16) by (apply elem_of_seqZ; lia). clear Hc. revert c Hd. apply Forall_forall. vm_compute. repeat constructor.
Qed.

(** The text of a build id stands for its bytes: it has two digits for each byte, and reading
    the digits back gives the bytes. *)
Theorem build_id_roundtrip bs : Forall (fun b => 0 <= b < 256) bs ->
  parse_build_id (format_build_id bs) = Some bs /\ String.length (format_build_id bs) = (2 * length bs)%nat.
Proof.
  induction bs as [|b bs IH]; intros Hb; [done|]. apply Forall_cons in Hb as [Hb Hbs]. destruct (IH Hbs) as [IH1 IH2].
  cbn [format_build_id parse_build_id String.length length]. split; [|lia].
  assert (Hlo : Z.land b 15 = b mod 16) by (apply (land_mask b 4); lia). assert (Hhi : Z.shiftr b 4 = b / 16) by (apply Z.shiftr_div_pow2; lia).
  rewrite Hlo, Hhi. pose proof (Z.div_mod b 16 ltac:(lia)). pose proof (Z.mod_pos_bound b 16 ltac:(lia)).
  rewrite !digit_value_hex, IH1 by (try apply Z.div_le_lower_bound; try apply Z.div_lt_upper_bound; lia || (split; [apply Z.div_pos; lia|apply Z.div_lt_upper_bound; lia])).
  do 2 f_equal. lia.
Qed.

(** *** Segments *)

(** A LOAD segment with the byte of the file. *)
Definition segment_at (file_offset : Z) (ph : Phdr) : Prop :=
  p_type ph = PT_LOAD /\ p_offset ph <= file_offset < p_offset ph +w p_filesz ph.

Lemma find_load_segment_some phs fo : (exists ph, ph ∈ phs /\ segment_at fo ph) ->
  exists ph, ph ∈ phs /\ segment_at fo ph /\
    find_load_segment (map Some phs) fo = inr (mkSegment (p_vaddr ph) (p_offset ph) (elf_flags_to_prot (p_flags ph))).
Proof.
  intros (ph & Hin & Hseg). induction phs as [|ph0 phs IH]; [by apply not_elem_of_nil in Hin|]. cbn [map find_load_segment].
  destruct (_ && _ && _) eqn:E.
  - zbool. exists ph0. split; [apply list_elem_of_here|]. split; [|done]. split; [done|lia].
  - apply elem_of_cons in Hin as [->|Hin].
    + destruct Hseg as (Ht & H1 & H2). rewrite (proj2 (Z.eqb_eq _ _) Ht), (proj2 (Z.leb_le _ _) H1), (proj2 (Z.ltb_lt _ _) H2) in E. done.
    + destruct (IH Hin) as (ph1 & ? & ? & ?). exists ph1. split; [by apply list_elem_of_further|done].
Qed.

(** The loader maps the byte [file_offset] of the file of [dso] where its segments say, from [base] on. *)
Definition loaded_at (base : Z) (elf : Elf) (dso : Dso) (file_offset : Z) : Prop :=
  exists phs, e_phdrs elf = Some (map Some phs) /\ (e_type elf = Some ET_EXEC \/ e_type elf = Some ET_DYN) /\
    (exists ph, ph ∈ phs /\ segment_at file_offset ph) /\
    forall ph, ph ∈ phs -> segment_at file_offset ph -> u64 (d_start dso - d_offset dso) = u64 (base + p_vaddr ph - p_offset ph).

Lemma bias_is_base base elf dso pc : loaded_at base elf dso (u64 (pc - d_start dso + d_offset dso)) -> compute_elf_bias elf dso pc = inr (u64 base).
Proof.
  intros (phs & Eph & Ety & Hex & Hall). unfold compute_elf_bias, find_elf_segment. rewrite Eph.
  destruct (find_load_segment_some phs _ Hex) as (ph & Hin & Hseg & E). specialize (Hall ph Hin Hseg).
  assert (Hbias : u64 (d_start dso - d_offset dso - (p_vaddr ph - p_offset ph)) = u64 base).
  { rewrite <- u64_sub_l, Hall, u64_sub_l. f_equal. lia. }
  destruct Ety as [-> | ->]; rewrite E; cbn -[u64]; by rewrite Hbias.
Qed.

(** For a file that the loader mapped from [base] on, every mapping of it and every address in
    a LOAD segment give the same bias, [base]: the one that is computed when the file is first
    seen serves for all its mappings, and the address of a frame minus the bias is the address
    in the file, the segment's address plus the distance from its start. *)
Theorem module_bias_is_load_address base elf dso pc dso' pc' ph' :
  let offset' := u64 (pc' - d_start dso' + d_offset dso') in
  loaded_at base elf dso (u64 (pc - d_start dso + d_offset dso)) -> loaded_at base elf dso' offset' ->
  (exists phs, e_phdrs elf = Some (map Some phs) /\ ph' ∈ phs) -> segment_at offset' ph' ->
  compute_elf_bias elf dso pc = compute_elf_bias elf dso' pc' /\
  exists bias, compute_elf_bias elf dso pc = inr bias /\ pc' -w bias = u64 (p_vaddr ph' + (offset' - p_offset ph')).
Proof.
  intros offset' H H' (phs & Eph & Hin) Hseg. rewrite (bias_is_base base elf dso pc H), (bias_is_base base elf dso' pc' H'). split; [done|].
  exists (u64 base). split; [done|]. destruct H' as (phs' & Eph' & _ & _ & Hall). rewrite Eph in Eph'. injection Eph' as Eph'.
  assert (Ephs : phs = phs') by (apply (inj (fmap Some)); exact Eph').
  subst phs'. specialize (Hall ph' Hin Hseg). unfold offset'. rewrite u64_sub_r.
  replace (p_vaddr ph' + (u64 (pc' - d_start dso' + d_offset dso') - p_offset ph')) with (u64 (pc' - d_start dso' + d_offset dso') + (p_vaddr ph' - p_offset ph')) by lia.
  rewrite u64_add_l. replace (pc' - d_start dso' + d_offset dso' + (p_vaddr ph' - p_offset ph')) with (pc' + p_vaddr ph' - p_offset ph' - (d_start dso' - d_offset dso')) by lia.
  rewrite <- (u64_sub_r (pc' + p_vaddr ph' - p_offset ph') (d_start dso' - d_offset dso')), Hall, u64_sub_r. f_equal. lia.
Qed.

(** ** At work *)

(** A shared library with a read-only and an executable segment. *)
Definition demo_note : Note := mkNote NT_GNU_BUILD_ID kGnuBuildIdNoteName [0xde; 0xad; 0x0b].
Definition demo_phdrs : list Phdr := [mkPhdr PT_LOAD PF_R 0 0 0x1000 None; mkPhdr PT_LOAD (PF_R + PF_X) 0x1000 0x2000 0x800 None; mkPhdr PT_NOTE PF_R 0x100 0x100 36 (Some [demo_note])].
Definition demo_elf : Elf := mkElf (Some ET_DYN) true [] (Some (map Some demo_phdrs)).
Definition demo_text : Dso := new_dso 42 0x7f0000002000 0x7f0000002fff 0x1000 "/lib/libx.so" 7 (PROT_READ + PROT_EXEC) kPerfMmapEvent.
Definition demo_rodata : Dso := new_dso 42 0x7f0000000000 0x7f0000000fff 0 "/lib/libx.so" 7 PROT_READ kPerfMmapEvent.

Lemma build_id_roundtrip_witness : parse_build_id (format_build_id [0xde; 0xad; 0x0b]) = Some [0xde; 0xad; 0x0b] /\ find_build_id demo_elf = Some "dead0b"%string.
Proof. split; [apply (build_id_roundtrip [0xde; 0xad; 0x0b]); repeat constructor; vm_compute; done|vm_compute; reflexivity]. Defined.

Lemma module_bias_is_load_address_witness : compute_elf_bias demo_elf demo_rodata 0x7f0000000010 = inr 0x7f0000000000 /\
  exists bias, compute_elf_bias demo_elf demo_rodata 0x7f0000000010 = inr bias /\ 0x7f0000002010 -w bias = 0x2010.
Proof.
  split; [vm_compute; reflexivity|].
  destruct (module_bias_is_load_address 0x7f0000000000 demo_elf demo_rodata 0x7f0000000010 demo_text 0x7f0000002010
              (mkPhdr PT_LOAD (PF_R + PF_X) 0x1000 0x2000 0x800 None)) as [_ (bias & E & Ha)].
  - exists demo_phdrs. split; [reflexivity|]. split; [right; reflexivity|]. split.
    + exists (mkPhdr PT_LOAD PF_R 0 0 0x1000 None). split; [left|]. split; [reflexivity|vm_compute; split; [discriminate|reflexivity]].
    + intros ph Hph. repeat (apply elem_of_cons in Hph as [->|Hph]); [reflexivity|intros (_ & Hle & _)|intros (Ht & _)|apply not_elem_of_nil in Hph; destruct Hph]; exfalso; vm_compute in *; [apply Hle; reflexivity|discriminate].
  - exists demo_phdrs. split; [reflexivity|]. split; [right; reflexivity|]. split.
    + exists (mkPhdr PT_LOAD (PF_R + PF_X) 0x1000 0x2000 0x800 None). split; [right; left|]. split; [reflexivity|vm_compute; split; [discriminate|reflexivity]].
    + intros ph Hph. repeat (apply elem_of_cons in Hph as [->|Hph]); [intros (_ & _ & Hlt)|reflexivity|intros (Ht & _)|apply not_elem_of_nil in Hph; destruct Hph]; exfalso; vm_compute in *; discriminate.
  - exists demo_phdrs. split; [reflexivity|right; left].
  - split; [reflexivity|vm_compute; split; [discriminate|reflexivity]].
  - exists bias. split; [exact E|]. rewrite Ha. vm_compute. reflexivity.
Defined.

(** ** Divergences *)

(** The program headers are tried when the note is not in the sections, but not when the section
    is missing: the build id of a file that kept other sections is not found. *)
Example build_id_of_program_headers_missed :
  find_build_id (mkElf (Some ET_DYN) true [mkScn (Some 3) (Some ".strtab"%string) None] (Some (map Some demo_phdrs))) = None.
Proof. vm_compute. reflexivity. Qed.
