(* ===== verification/ElfLookup.v ===== *)
(** * Symbols of loaded libraries

    Model of the lookups of [src/lib/elfutils.cc]: the hash functions, the lookups in the two
    kinds of hash tables of a library and the number of its symbols.  A table is the list of
    its 32-bit words, the symbol table a list of symbols, the string table a list of bytes; a
    read outside of them is [None]. *)

From S2P Require Import Prelude RingBuffer PerfSample JitDump.

(** ** Data *)

Record Sym := mkSym { st_name : Z; st_info : Z; st_shndx : Z; st_value : Z; st_size : Z }.

Definition SHN_ABS : Z := 0xfff1.
Definition STT_NOTYPE : Z := 0.
Definition STT_OBJECT : Z := 1.
Definition STT_FUNC : Z := 2.
Definition STT_COMMON : Z := 5.
Definition STT_TLS : Z := 6.
Definition STT_GNU_IFUNC : Z := 10.
Definition STN_UNDEF : Z := 0.

Definition ELF64_ST_TYPE (info : Z) : Z := Z.land info 0xf.

(** The element [i] of an array. *)
Definition at_index {A} (l : list A) (i : Z) : option A := if i <? 0 then None else l !! Z.to_nat i.

(** The string at an offset of the string table. *)
Definition c_str (strtab : list Z) (off : Z) : option (list Z) := if off <? 0 then None else cstring (drop (Z.to_nat off) strtab).

(** A character of a name is signed. *)
Definition char_value (b : Z) : Z := if b <? 128 then b else b - 256.

Definition gnu_hash (name : list Z) : Z := foldl (fun h c => u32 (u32 (Z.shiftl h 5) + h + char_value c)) 5381 name.

Definition elf_hash (name : list Z) : Z :=
  Z.land (foldl (fun h c => let h := u32 (u32 (Z.shiftl h 4) + char_value c) in Z.lxor h (Z.shiftr (Z.land h 0xf0000000) 24)) 0 name) 0x0fffffff.

Definition known_types : Z :=
  Z.lor (Z.lor (Z.lor (Z.shiftl 1 STT_NOTYPE) (Z.shiftl 1 STT_OBJECT)) (Z.lor (Z.shiftl 1 STT_FUNC) (Z.shiftl 1 STT_COMMON)))
        (Z.lor (Z.shiftl 1 STT_TLS) (Z.shiftl 1 STT_GNU_IFUNC)).

(** The name of the symbol is read last. *)
Definition check (sym : Sym) (symname : option (list Z)) (name : list Z) : option bool :=
  let stt := ELF64_ST_TYPE (st_info sym) in
  if (st_value sym =? 0) && negb (st_shndx sym =? SHN_ABS) && negb (stt =? STT_TLS) then Some false
  else if Z.land (Z.shiftl 1 stt) known_types =? 0 then Some false
  else let? symname := symname in Some (bool_decide (name = symname)).

(** ** Hash tables of ELF *)

Fixpoint elf_chain (fuel : nat) (strtab : list Z) (symtab : list Sym) (chain : Z -> option Z) (symidx : Z) (symname : list Z) : option (option Sym) :=
  match fuel with
  | O => None
  | S f =>
      if symidx =? STN_UNDEF then Some None
      else
        let? sym := at_index symtab symidx in
        let? found := check sym (c_str strtab (st_name sym)) symname in
        if found : bool then Some (Some sym)
        else let? next := chain symidx in elf_chain f strtab symtab chain next symname
  end.

(** The fuel is one step per symbol and one more: a chain is not longer than the table. *)
Definition elf_hash_lookup (strtab : list Z) (symtab : list Sym) (hashtab : list Z) (symname : list Z) : option (option Sym) :=
  let hash := elf_hash symname in
  let? nbuckets := at_index hashtab 0 in
  if nbuckets =? 0 then None
  else
    let buckets i := at_index hashtab (2 + i) in
    let chain i := at_index hashtab (2 + nbuckets + i) in
    let? first := buckets (hash mod nbuckets) in
    elf_chain (S (length symtab)) strtab symtab chain first symname.

Definition elf_hash_symbol_count (hashtab : list Z) : option Z := at_index hashtab 1.

(** ** Hash tables of GNU *)

Record gnu_table := mkGT { gt_nbuckets : Z; gt_symbias : Z; gt_bloom_size : Z; gt_bloom_shift : Z }.

Definition gnu_header (hashtab : list Z) : option gnu_table :=
  let? nbuckets := at_index hashtab 0 in
  let? symbias := at_index hashtab 1 in
  let? bloom_size := at_index hashtab 2 in
  let? bloom_shift := at_index hashtab 3 in
  Some (mkGT nbuckets symbias bloom_size bloom_shift).

(** Words of the filter, the buckets and the chains; [chain_zero] starts before the chains. *)
Definition bloom (hashtab : list Z) (i : Z) : option Z :=
  let? lo := at_index hashtab (4 + 2 * i) in let? hi := at_index hashtab (5 + 2 * i) in Some (lo + Z.shiftl hi 32).
Definition buckets (t : gnu_table) (hashtab : list Z) (i : Z) : option Z := at_index hashtab (4 + 2 * gt_bloom_size t + i).
Definition chain_zero (t : gnu_table) (hashtab : list Z) (i : Z) : option Z :=
  at_index hashtab (4 + 2 * gt_bloom_size t + gt_nbuckets t - gt_symbias t + i).

Fixpoint gnu_chain (fuel : nat) (strtab : list Z) (symtab : list Sym) (chain : Z -> option Z) (hash symidx : Z) (symname : list Z) : option (option Sym) :=
  match fuel with
  | O => None
  | S f =>
      let? h := chain symidx in
      let? found :=
        (if Z.shiftr (Z.lxor h hash) 1 =? 0 then
           let? sym := at_index symtab symidx in
           let? ok := check sym (c_str strtab (st_name sym)) symname in
           Some (if ok : bool then Some sym else None)
         else Some None) in
      match found with
      | Some sym => Some (Some sym)
      | None => if negb (Z.land h 1 =? 0) then Some None else gnu_chain f strtab symtab chain hash (u32 (symidx + 1)) symname
      end
  end.

(** The fuel is one step per word of the table. *)
Definition gnu_hash_lookup (strtab : list Z) (symtab : list Sym) (hashtab : list Z) (symname : list Z) : option (option Sym) :=
  let? t := gnu_header hashtab in
  if gt_nbuckets t =? 0 then Some None
  else
    let hash := gnu_hash symname in
    let? bitmask_word := bloom hashtab (Z.land (hash / 64) (gt_bloom_size t - 1)) in
    let hashbit1 := Z.land hash 63 in
    let hashbit2 := Z.land (Z.shiftr hash (gt_bloom_shift t)) 63 in
    if Z.land (Z.land (Z.shiftr bitmask_word hashbit1) (Z.shiftr bitmask_word hashbit2)) 1 =? 0 then Some None
    else
      let? symidx := buckets t hashtab (hash mod gt_nbuckets t) in
      if symidx =? 0 then Some None
      else gnu_chain (S (length hashtab)) strtab symtab (chain_zero t hashtab) hash symidx symname.

Fixpoint count_up (fuel : nat) (chain : Z -> option Z) (idx : Z) : option Z :=
  match fuel with
  | O => None
  | S f => let? h := chain idx in if Z.land h 1 =? 0 then count_up f chain (u32 (idx + 1)) else Some (u32 (idx + 1))
  end.

Definition gnu_hash_symbol_count (hashtab : list Z) : option Z :=
  let? t := gnu_header hashtab in
  if gt_nbuckets t =? 0 then Some 0
  else
    let? bs := mapM (fun i => buckets t hashtab i) (seqZ 0 (gt_nbuckets t)) in
    count_up (S (length hashtab)) (chain_zero t hashtab) (foldr Z.max 0 bs).

(** ** Theorems *)

(** *** Lists *)

Lemma find_none_drop {A} (m : A -> bool) l i : (forall j x, l !! j = Some x -> (i <= j)%nat -> m x = false) -> List.find m (drop i l) = None.
Proof.
  revert i. induction l as [|y l IH]; intros i H; [by destruct i|]. destruct i as [|i]; cbn [drop].
  - cbn [List.find]. rewrite (H 0%nat y) by (done || lia). rewrite <- (IH 0%nat); [done|]. intros j x Hj _. apply (H (S j) x); [done|lia].
  - apply IH. intros j x Hj Hi. apply (H (S j) x); [done|lia].
Qed.

Lemma find_drop_skip {A} (m : A -> bool) l i v : (i <= v)%nat -> (forall j x, l !! j = Some x -> (i <= j < v)%nat -> m x = false) ->
  List.find m (drop i l) = List.find m (drop v l).
Proof.
  intros Hi H. induction Hi as [|v Hi IH]; [done|]. rewrite IH by (intros j x Hj Hr; apply (H j x); [done|lia]).
  destruct (l !! v) as [x|] eqn:E; [|by rewrite !drop_ge by (apply lookup_ge_None in E; lia)].
  rewrite (drop_S _ _ _ E). cbn [List.find]. by rewrite (H v x) by (done || lia).
Qed.

Lemma at_index_Some {A} (l : list A) i x : l !! i = Some x -> at_index l (Z.of_nat i) = Some x.
Proof. intros H. unfold at_index. destruct (Z.ltb_spec (Z.of_nat i) 0); [lia|]. by rewrite Nat2Z.id. Qed.

Lemma same_but_bit h hash : Z.shiftr (Z.lxor h hash) 1 = 0 <-> h / 2 = hash / 2.
Proof.
  rewrite Z.shiftr_lxor, !Z.shiftr_div_pow2 by lia. change (2 ^ 1) with 2. rewrite Z.lxor_eq_0_iff. done.
Qed.

Lemma gnu_hash_range name : 0 <= gnu_hash name < 2 ^ 32.
Proof.
  unfold gnu_hash. assert (H : forall h, 0 <= h < 2 ^ 32 -> 0 <= foldl (fun h c => u32 (u32 (Z.shiftl h 5) + h + char_value c)) h name < 2 ^ 32); [|by apply H].
  induction name as [|c name IH]; intros h Hh; [done|]. cbn [foldl]. apply IH, u32_range.
Qed.

(** The hash that linkers write in a table, on the bytes of a name: a polynomial in 33, modulo [2 ^ 32]. *)
Fixpoint linker_hash_from (h : Z) (name : list Z) : Z := match name with [] => h mod 2 ^ 32 | c :: name' => linker_hash_from (33 * h + c) name' end.
Definition linker_hash (name : list Z) : Z := linker_hash_from 5381 name.

Definition ascii_name (name : list Z) : Prop := Forall (fun c => 0 <= c < 128) name.

Lemma linker_hash_from_mod h h' name : h mod 2 ^ 32 = h' mod 2 ^ 32 -> linker_hash_from h name = linker_hash_from h' name.
Proof.
  revert h h'. induction name as [|c name IH]; intros h h' H; [done|]. cbn [linker_hash_from]. apply IH.
  rewrite Z.add_mod, Z.mul_mod, H, <- Z.mul_mod, <- Z.add_mod by lia. done.
Qed.

(** The hash of the code is that of the linker when no character has its sign bit set. *)
Lemma gnu_hash_linker name : ascii_name name -> gnu_hash name = linker_hash name.
Proof.
  intros Hn. unfold gnu_hash, linker_hash. assert (H : forall h, 0 <= h < 2 ^ 32 -> foldl (fun h c => u32 (u32 (Z.shiftl h 5) + h + char_value c)) h name = linker_hash_from h name); [|by apply H].
  induction Hn as [|c name Hc _ IH]; intros h Hh; cbn [foldl linker_hash_from]; [by rewrite Z.mod_small|]. rewrite IH by apply u32_range. apply linker_hash_from_mod.
  unfold u32, char_value. destruct (Z.ltb_spec c 128); [|lia]. rewrite Z.shiftl_mul_pow2, Z.mod_mod by lia. rewrite <- Z.add_assoc, Zplus_mod_idemp_l. f_equal. lia.
Qed.

(** *** The lookup *)

Section GnuTable.
Context (strtab : list Z) (symtab : list Sym) (hashtab : list Z) (t : gnu_table).

Definition sym_hash (sym : Sym) : Z := match c_str strtab (st_name sym) with Some n => linker_hash n | None => 0 end.
Definition bucket_of (sym : Sym) : Z := sym_hash sym mod gt_nbuckets t.

Definition last_of_bucket (i : nat) (sym : Sym) : Prop := forall next, symtab !! S i = Some next -> bucket_of next <> bucket_of sym.

(** The filter has both bits of a hash. *)
Definition in_bloom (hash : Z) : Prop :=
  exists w, bloom hashtab (Z.land (hash / 64) (gt_bloom_size t - 1)) = Some w /\ Z.testbit w (Z.land hash 63) = true /\
    Z.testbit w (Z.land (Z.shiftr hash (gt_bloom_shift t)) 63) = true.

(** A table as linkers write it: the symbols from [gt_symbias] on are sorted by bucket; a bucket
    has the index of its first symbol, or 0; a chain has the hash of each symbol, with the
    lowest bit replaced by the mark of the last symbol of a bucket. *)
Record gnu_table_ok : Prop := {
  gk_header : gnu_header hashtab = Some t;
  gk_nbuckets : 0 < gt_nbuckets t;
  gk_symbias : 1 <= gt_symbias t <= Z.of_nat (length symtab);
  gk_count : Z.of_nat (length symtab) < 2 ^ 32;
  gk_names : forall i sym, symtab !! i = Some sym -> is_Some (c_str strtab (st_name sym));
  gk_filter : exists k, 0 <= k /\ gt_bloom_size t = 2 ^ k;
  gk_words : forall j, 0 <= j < gt_bloom_size t -> is_Some (bloom hashtab j);
  gk_bloom : forall i sym, symtab !! i = Some sym -> gt_symbias t <= Z.of_nat i -> in_bloom (sym_hash sym);
  gk_sorted : forall i j x y, symtab !! i = Some x -> symtab !! j = Some y -> gt_symbias t <= Z.of_nat i -> (i <= j)%nat -> bucket_of x <= bucket_of y;
  gk_bucket : forall b, 0 <= b < gt_nbuckets t -> exists v, buckets t hashtab b = Some v /\
    ((v = 0 /\ forall i sym, symtab !! i = Some sym -> gt_symbias t <= Z.of_nat i -> bucket_of sym <> b) \/
     (exists i sym, v = Z.of_nat i /\ symtab !! i = Some sym /\ gt_symbias t <= v /\ bucket_of sym = b /\
        forall j x, symtab !! j = Some x -> gt_symbias t <= Z.of_nat j -> (j < i)%nat -> bucket_of x <> b));
  gk_chain : forall i sym, symtab !! i = Some sym -> gt_symbias t <= Z.of_nat i ->
    exists h, chain_zero t hashtab (Z.of_nat i) = Some h /\ h / 2 = sym_hash sym / 2 /\ (Z.land h 1 <> 0 <-> last_of_bucket i sym)
}.

Context (Hok : gnu_table_ok).

(** The symbols that a lookup may return. *)
Definition matches (name : list Z) (sym : Sym) : bool := bool_decide (check sym (c_str strtab (st_name sym)) name = Some true).

Lemma matches_hash name sym : ascii_name name -> matches name sym = true -> sym_hash sym = gnu_hash name.
Proof.
  intros Hn. rewrite (gnu_hash_linker name Hn). unfold matches. rewrite bool_decide_eq_true. unfold check, sym_hash. destruct (_ && _); [done|]. destruct (_ =? 0); [done|].
  destruct (c_str strtab (st_name sym)) as [n|]; [|done]. intros [= Hb]. apply bool_decide_eq_true in Hb. by subst n.
Qed.

Lemma check_defined name i sym : symtab !! i = Some sym -> check sym (c_str strtab (st_name sym)) name = Some (matches name sym).
Proof.
  intros Hi. destruct (gk_names Hok i sym Hi) as [n Hn]. unfold matches, check. rewrite Hn. destruct (_ && _); [done|].
  destruct (_ =? 0); [done|]. by destruct (bool_decide (name = n)).
Qed.

Lemma other_bucket name sym : ascii_name name -> bucket_of sym <> gnu_hash name mod gt_nbuckets t -> matches name sym = false.
Proof. intros Hn H. apply not_true_is_false. intros Hm. apply H. unfold bucket_of. by rewrite (matches_hash name sym Hn Hm). Qed.

Lemma gnu_chain_spec name fuel i sym : ascii_name name -> symtab !! i = Some sym -> gt_symbias t <= Z.of_nat i -> bucket_of sym = gnu_hash name mod gt_nbuckets t ->
  (length symtab < fuel + i)%nat ->
  gnu_chain fuel strtab symtab (chain_zero t hashtab) (gnu_hash name) (Z.of_nat i) name = Some (List.find (matches name) (drop i symtab)).
Proof.
  intros Hname. revert i sym. induction fuel as [|f IH]; intros i sym Hi Hb Hbu Hf; [apply lookup_lt_Some in Hi; lia|].
  destruct (gk_chain Hok i sym Hi Hb) as (h & Hc & Hh & Hlast). cbn [gnu_chain]. rewrite Hc, (at_index_Some _ _ _ Hi), (check_defined name i sym Hi).
  rewrite (drop_S _ _ _ Hi). cbn [List.find].
  assert (Hrest : matches name sym = false ->
    (if negb (Z.land h 1 =? 0) then Some None else gnu_chain f strtab symtab (chain_zero t hashtab) (gnu_hash name) (u32 (Z.of_nat i + 1)) name)
    = Some (List.find (matches name) (drop (S i) symtab))).
  { intros _. destruct (Z.eqb_spec (Z.land h 1) 0) as [H0|H0]; cbn [negb].
    - destruct (symtab !! S i) as [next|] eqn:En; [|exfalso; apply Hlast in H0; [done|]; intros x Hx; congruence].
      pose proof (gk_count Hok). pose proof (lookup_lt_Some _ _ _ En). rewrite u32_small by lia. replace (Z.of_nat i + 1) with (Z.of_nat (S i)) by lia.
      apply (IH (S i) next); [done|lia| |lia]. destruct (decide (bucket_of next = bucket_of sym)); [congruence|]. exfalso. apply Hlast in H0; [done|].
      intros x Hx. congruence.
    - rewrite find_none_drop; [done|]. intros j x Hj Hij. apply other_bucket; [done|]. rewrite <- Hbu. destruct (symtab !! S i) as [next|] eqn:En.
      + apply Hlast in H0. specialize (H0 next En). pose proof (gk_sorted Hok i (S i) sym next Hi En Hb ltac:(lia)).
        pose proof (gk_sorted Hok (S i) j next x En Hj ltac:(lia) Hij). lia.
      + apply lookup_lt_Some in Hj. apply lookup_ge_None in En. lia. }
  destruct (Z.eqb_spec (Z.shiftr (Z.lxor h (gnu_hash name)) 1) 0) as [Hx|Hx].
  - destruct (matches name sym); [done|by apply Hrest].
  - destruct (matches name sym) eqn:Em; [|by apply Hrest]. exfalso. apply Hx, same_but_bit. by rewrite Hh, (matches_hash _ _ Hname Em).
Qed.

Lemma low_bit x : (Z.land x 1 =? 0) = negb (Z.testbit x 0).
Proof. rewrite Z.land_comm. apply eq_true_iff_eq. rewrite Z.eqb_eq, negb_true_iff, (Z.land_comm 1 x). change 1 with (Z.ones 1). rewrite Z.land_ones, <- Z.bit0_mod by lia. by destruct (Z.testbit x 0). Qed.

Lemma bloom_index hash : 0 <= hash -> is_Some (bloom hashtab (Z.land (hash / 64) (gt_bloom_size t - 1))).
Proof.
  intros Hh. apply (gk_words Hok). destruct (gk_filter Hok) as (k & Hk & ->). apply land_mask_bound. lia.
Qed.

(** The chains are inside the table. *)
Lemma fuel_enough i sym : symtab !! i = Some sym -> gt_symbias t <= Z.of_nat i -> (length symtab < S (length hashtab) + i)%nat.
Proof.
  intros Hi Hb. pose proof (lookup_lt_Some _ _ _ Hi) as Hlt. destruct (symtab !! (length symtab - 1)%nat) as [last|] eqn:El; [|apply lookup_ge_None in El; lia].
  destruct (gk_chain Hok _ _ El) as (h & Hc & _); [lia|]. unfold chain_zero, at_index in Hc. destruct (_ <? 0) eqn:E0 in Hc; [done|].
  apply lookup_lt_Some in Hc. zbool. destruct (gk_filter Hok) as (k & Hk & E). pose proof (gk_nbuckets Hok). pose proof (Z.pow_nonneg 2 k). lia.
Qed.

Lemma gnu_lookup_spec name : ascii_name name ->
  gnu_hash_lookup strtab symtab hashtab name = Some (List.find (matches name) (drop (Z.to_nat (gt_symbias t)) symtab)).
Proof.
  intros Hname. unfold gnu_hash_lookup. rewrite (gk_header Hok). destruct (Z.eqb_spec (gt_nbuckets t) 0) as [H0|_]; [pose proof (gk_nbuckets Hok); lia|]. cbv zeta.
  pose proof (gnu_hash_range name) as Hr. pose proof (gk_symbias Hok) as Hbias.
  destruct (bloom_index (gnu_hash name) ltac:(lia)) as [w Hw]. rewrite Hw, low_bit, Z.land_spec, !Z.shiftr_spec, !Z.add_0_l by lia.
  destruct (Z.testbit w _ && Z.testbit w _) eqn:Eb; cbn [negb].
  - destruct (gk_bucket Hok (gnu_hash name mod gt_nbuckets t)) as (v & -> & Hv); [apply Z.mod_pos_bound; apply (gk_nbuckets Hok)|].
    destruct Hv as [[-> Hnone]|(i & sym & -> & Hi & Hb & Hbu & Hfirst)].
    + cbn. f_equal. symmetry. apply find_none_drop. intros j x Hj Hle. apply other_bucket; [done|]. apply (Hnone j x Hj). lia.
    + destruct (Z.eqb_spec (Z.of_nat i) 0); [lia|]. rewrite (gnu_chain_spec name _ i sym Hname Hi Hb Hbu).
      * f_equal. symmetry. apply find_drop_skip; [lia|]. intros j x Hj Hle. apply other_bucket; [done|]. apply (Hfirst j x Hj); lia.
      * by apply (fuel_enough i sym).
  - f_equal. symmetry. apply find_none_drop. intros j x Hj Hle. apply not_true_is_false. intros Hm.
    destruct (gk_bloom Hok j x Hj ltac:(lia)) as (w' & Hw' & H1 & H2). rewrite (matches_hash _ _ Hname Hm) in Hw', H1, H2. rewrite Hw in Hw'. injection Hw' as <-. by rewrite H1, H2 in Eb.
Qed.

(** *** The number of symbols *)

Lemma count_up_spec fuel i sym : symtab !! i = Some sym -> gt_symbias t <= Z.of_nat i -> (length symtab < fuel + i)%nat ->
  (forall j x, symtab !! j = Some x -> (i <= j)%nat -> bucket_of x = bucket_of sym) ->
  count_up fuel (chain_zero t hashtab) (Z.of_nat i) = Some (Z.of_nat (length symtab)).
Proof.
  revert i sym. induction fuel as [|f IH]; intros i sym Hi Hb Hf Hall; [apply lookup_lt_Some in Hi; lia|].
  destruct (gk_chain Hok i sym Hi Hb) as (h & Hc & _ & Hlast). cbn [count_up]. rewrite Hc. pose proof (gk_count Hok). pose proof (lookup_lt_Some _ _ _ Hi) as Hlt.
  destruct (Z.eqb_spec (Z.land h 1) 0) as [H0|H0].
  - destruct (symtab !! S i) as [next|] eqn:En; [|exfalso; apply Hlast in H0; [done|]; intros x Hx; congruence]. pose proof (lookup_lt_Some _ _ _ En).
    rewrite u32_small by lia. replace (Z.of_nat i + 1) with (Z.of_nat (S i)) by lia. apply (IH (S i) next); [done|lia|lia|].
    intros j x Hj Hle. rewrite (Hall j x Hj) by lia. symmetry. apply (Hall (S i) next En). lia.
  - rewrite u32_small by lia. f_equal. apply Hlast in H0. destruct (symtab !! S i) as [next|] eqn:En; [|apply lookup_ge_None in En; lia].
    exfalso. apply (H0 next En). apply (Hall (S i) next En). lia.
Qed.

Lemma foldr_max_spec l : (forall x, x ∈ l -> 0 <= x) -> (foldr Z.max 0 l ∈ l \/ foldr Z.max 0 l = 0) /\ forall x, x ∈ l -> x <= foldr Z.max 0 l.
Proof.
  induction l as [|y l IH]; intros Hl; [split; [by right|intros x Hx; by apply not_elem_of_nil in Hx]|].
  destruct IH as [H1 H2]; [intros x Hx; apply Hl; by apply list_elem_of_further|]. cbn [foldr]. pose proof (Hl y (list_elem_of_here _ _)). split.
  - destruct (Z.max_spec y (foldr Z.max 0 l)) as [[_ ->]|[_ ->]]; [destruct H1; [left; by apply list_elem_of_further|by right]|left; apply list_elem_of_here].
  - intros x [->|Hx]%elem_of_cons; [lia|]. specialize (H2 x Hx). lia.
Qed.

Lemma symbol_count_spec : gt_symbias t < Z.of_nat (length symtab) -> gnu_hash_symbol_count hashtab = Some (Z.of_nat (length symtab)).
Proof.
  intros Hne. unfold gnu_hash_symbol_count. rewrite (gk_header Hok). pose proof (gk_nbuckets Hok) as Hnb. pose proof (gk_symbias Hok) as Hbias.
  destruct (Z.eqb_spec (gt_nbuckets t) 0); [lia|].
  assert (Hbs : exists bs, mapM (fun i => buckets t hashtab i) (seqZ 0 (gt_nbuckets t)) = Some bs).
  { apply mapM_is_Some_2, Forall_forall. intros b Hb. apply elem_of_seqZ in Hb. destruct (gk_bucket Hok b ltac:(lia)) as (v & Hv & _). by exists v. }
  destruct Hbs as [bs Ebs]. rewrite Ebs. apply mapM_Some_1 in Ebs.
  assert (Hin : forall b, 0 <= b < gt_nbuckets t -> exists v, buckets t hashtab b = Some v /\ v ∈ bs).
  { intros b Hb. destruct (Forall2_lookup_l _ _ _ (Z.to_nat b) b Ebs) as (v & Hv & Ev); [apply lookup_seqZ; lia|]. exists v. split; [done|by eapply list_elem_of_lookup_2]. }
  assert (Hout : forall v, v ∈ bs -> exists b, 0 <= b < gt_nbuckets t /\ buckets t hashtab b = Some v).
  { intros v [k Hk]%list_elem_of_lookup_1. destruct (Forall2_lookup_r _ _ _ k v Ebs Hk) as (b & Hb & Ev). exists b. apply lookup_seqZ in Hb. split; [lia|done]. }
  assert (Hpos : forall v, v ∈ bs -> 0 <= v).
  { intros v Hv. destruct (Hout v Hv) as (b & Hb & Ev). destruct (gk_bucket Hok b Hb) as (v' & Ev' & Hcase). assert (v' = v) as -> by congruence.
    destruct Hcase as [[-> _]|(i & ? & -> & _)]; lia. }
  destruct (foldr_max_spec bs Hpos) as [Hmax Hle]. set (top := foldr Z.max 0 bs) in *.
  (* the bucket of the last symbol *)
  destruct (symtab !! (length symtab - 1)%nat) as [last|] eqn:El; [|apply lookup_ge_None in El; lia].
  destruct (gk_bucket Hok (bucket_of last) (Z.mod_pos_bound _ _ Hnb)) as (v & Ev & [[-> Hnone]|(i & sym & -> & Hi & Hib & Hbu & Hfirst)]); [by destruct (Hnone _ _ El); [lia|]|].
  destruct (Hin (bucket_of last) (Z.mod_pos_bound _ _ Hnb)) as (v & Ev' & Hv). rewrite Ev in Ev'. injection Ev' as <-. specialize (Hle _ Hv) as Hitop.
  assert (Htop : top = Z.of_nat i).
  { destruct Hmax as [Hmax|Hmax]; [|lia]. destruct (Hout _ Hmax) as (b & Hb & Eb). destruct (gk_bucket Hok b Hb) as (v' & Ev' & Hcase). rewrite Eb in Ev'. injection Ev' as <-.
    destruct Hcase as [[? _]|(j & y & Ej & Hj & Hjb & Hyb & Hfirst')]; [lia|]. rewrite Ej in *. destruct (decide (i = j)) as [->|Hij]; [done|exfalso].
    pose proof (lookup_lt_Some _ _ _ Hj). assert (bucket_of y = bucket_of last).
    { pose proof (gk_sorted Hok i j sym y Hi Hj Hib ltac:(lia)). pose proof (gk_sorted Hok j (length symtab - 1) y last Hj El Hjb ltac:(lia)). lia. }
    apply (Hfirst' i sym Hi Hib); [lia|congruence]. }
  rewrite Htop. apply (count_up_spec _ i sym Hi Hib).
  - by apply (fuel_enough i sym).
  - intros j x Hj Hle'. pose proof (lookup_lt_Some _ _ _ Hj). pose proof (gk_sorted Hok i j sym x Hi Hj Hib Hle').
    pose proof (gk_sorted Hok j (length symtab - 1) x last Hj El ltac:(lia) ltac:(lia)). lia.
Qed.

End GnuTable.

(** C36: The lookup in the hash table of a library is the search through its symbols.  In every table that is written with the hash
    of linkers (on unsigned characters), the lookup of a name of ASCII characters stays inside the tables and returns the first
    hashed symbol with that name that is defined and of a known type, or nothing when there is none; and the number of symbols,
    of a table with at least one hashed symbol, is that of the symbol table. *)
Theorem gnu_lookup_is_search strtab symtab hashtab t : gnu_table_ok strtab symtab hashtab t ->
  (forall name, ascii_name name ->
     gnu_hash_lookup strtab symtab hashtab name = Some (List.find (matches strtab name) (drop (Z.to_nat (gt_symbias t)) symtab))) /\
  (gt_symbias t < Z.of_nat (length symtab) -> gnu_hash_symbol_count hashtab = Some (Z.of_nat (length symtab))).
Proof. intros Hok. split; [intros name Hn; by apply gnu_lookup_spec|by apply (symbol_count_spec strtab symtab hashtab t)]. Qed.

(** ** At work *)

(** The symbols [a], undefined, [free] and [malloc]; one bucket. *)
Definition demo_strtab : list Z := [0; 97; 0; 102; 114; 101; 101; 0; 109; 97; 108; 108; 111; 99; 0].
Definition name_malloc : list Z := [109; 97; 108; 108; 111; 99].
Definition name_free : list Z := [102; 114; 101; 101].
Definition demo_symtab : list Sym := [mkSym 0 0 0 0 0; mkSym 1 0x12 0 0 0; mkSym 3 0x12 7 0x1000 16; mkSym 8 0x12 7 0x2000 32].
Definition demo_hashtab : list Z :=
  [1; 1; 1; 6; 2 ^ 32 - 1; 2 ^ 32 - 1; 1; Z.land (linker_hash [97]) (-2); Z.land (linker_hash name_free) (-2); Z.lor (linker_hash name_malloc) 1].
Definition demo_table : gnu_table := mkGT 1 1 1 6.

Lemma demo_table_ok : gnu_table_ok demo_strtab demo_symtab demo_hashtab demo_table.
Proof.
  assert (Hsyms : forall i sym, demo_symtab !! i = Some sym -> i = 0%nat /\ sym = mkSym 0 0 0 0 0 \/ i = 1%nat /\ sym = mkSym 1 0x12 0 0 0 \/
    i = 2%nat /\ sym = mkSym 3 0x12 7 0x1000 16 \/ i = 3%nat /\ sym = mkSym 8 0x12 7 0x2000 32).
  { intros [|[|[|[|i]]]] sym; cbn; [intros [= <-]; tauto..|done]. }
  split; cbn [gt_nbuckets gt_symbias gt_bloom_size gt_bloom_shift demo_table].
  - reflexivity.
  - lia.
  - cbn. lia.
  - vm_compute. reflexivity.
  - intros i sym H. apply Hsyms in H as [[_ ->]|[[_ ->]|[[_ ->]|[_ ->]]]]; vm_compute; eauto.
  - exists 0. split; [lia|reflexivity].
  - intros j Hj. assert (j = 0) as -> by lia. vm_compute. eauto.
  - intros i sym H _. apply Hsyms in H as [[_ ->]|[[_ ->]|[[_ ->]|[_ ->]]]]; (eexists; split; [vm_compute; reflexivity|split; vm_compute; reflexivity]).
  - intros i j x y _ _ _ _. unfold bucket_of. cbn. rewrite !Z.mod_1_r. lia.
  - intros b Hb. assert (b = 0) as -> by lia. exists 1. split; [reflexivity|]. right. exists 1%nat. eexists. split; [reflexivity|]. split; [reflexivity|]. split; [lia|].
    split; [vm_compute; reflexivity|]. intros j x _ H1 H2. lia.
  - intros i sym H Hi. apply Hsyms in H as [[-> ->]|[[-> ->]|[[-> ->]|[-> ->]]]]; [lia|..]; (eexists; split; [vm_compute; reflexivity|]; split; [vm_compute; reflexivity|]).
    + split; [intros H0; exfalso; apply H0; reflexivity|]. intros Hl. exfalso. apply (Hl (mkSym 3 0x12 7 0x1000 16) eq_refl). vm_compute. reflexivity.
    + split; [intros H0; exfalso; apply H0; reflexivity|]. intros Hl. exfalso. apply (Hl (mkSym 8 0x12 7 0x2000 32) eq_refl). vm_compute. reflexivity.
    + split; [intros _ next Hn; discriminate Hn|]. intros _. discriminate.
Qed.

Lemma gnu_lookup_is_search_witness :
  gnu_hash_lookup demo_strtab demo_symtab demo_hashtab name_malloc = Some (Some (mkSym 8 0x12 7 0x2000 32)) /\
  gnu_hash_lookup demo_strtab demo_symtab demo_hashtab [97] = Some None /\ gnu_hash_symbol_count demo_hashtab = Some 4.
Proof.
  split; [|split].
  - rewrite (proj1 (gnu_lookup_is_search _ _ _ _ demo_table_ok) name_malloc); [vm_compute; reflexivity|]. repeat constructor; lia.
  - rewrite (proj1 (gnu_lookup_is_search _ _ _ _ demo_table_ok) [97]); [vm_compute; reflexivity|]. repeat constructor; lia.
  - apply (proj2 (gnu_lookup_is_search _ _ _ _ demo_table_ok)). vm_compute. reflexivity.
Defined.

(** ** Divergences *)

(** The table of a library that exports no symbol has a bucket that is 0: its count starts
    before the chains and runs past the end of the table. *)
Example count_of_empty_table_runs_past_end : gnu_hash_symbol_count [1; 1; 1; 6; 0; 0; 0] = None.
Proof. vm_compute. reflexivity. Qed.

(** Linkers take the characters of a name as unsigned: a name with other than ASCII characters
    has another hash. *)
Example hash_of_other_characters :
  gnu_hash [0xc3; 0xa9] <> linker_hash [0xc3; 0xa9].
Proof. vm_compute. discriminate. Qed.
