(* ===== verification/Overrides.v ===== *)
(** * Overriding the symbols of loaded libraries

    Model of the rest of [src/lib/elfutils.cc]: the dynamic section of a library, the lookup of
    a symbol over all libraries, and [SymbolOverrides], which redirects the relocations of the
    libraries to the hooks and restores them.

    The memory of the process that matters are the words that relocations fill, by address.
    What the loader reports is a list of libraries; what a library has at an address is given
    by its [image].  Whether a page can be made writable is a parameter. *)

From S2P Require Import Prelude RingBuffer PerfSample JitDump ElfLookup.

(** ** Dynamic sections *)

Record Reloc := mkReloc { r_offset : Z; r_info : Z }.
Definition ELF64_R_SYM (info : Z) : Z := Z.shiftr info 32.

Definition DT_NULL : Z := 0.
Definition DT_PLTRELSZ : Z := 2.
Definition DT_HASH : Z := 4.
Definition DT_STRTAB : Z := 5.
Definition DT_SYMTAB : Z := 6.
Definition DT_RELA : Z := 7.
Definition DT_RELASZ : Z := 8.
Definition DT_STRSZ : Z := 10.
Definition DT_REL : Z := 17.
Definition DT_RELSZ : Z := 18.
Definition DT_PLTREL : Z := 20.
Definition DT_JMPREL : Z := 23.
Definition DT_GNU_HASH : Z := 0x6ffffef5.

Definition sizeof_Rel : Z := 16.
Definition sizeof_Rela : Z := 24.

(** What a process has in memory from an address on, as the type of the pointer says. *)
Record image := mkImage { im_bytes : Z -> list Z; im_words : Z -> list Z; im_syms : Z -> list Sym; im_rels : Z -> list Reloc; im_relas : Z -> list Reloc }.

Record DynamicInfo := mkDI {
  di_strtab : list Z; di_strtab_size : Z; di_symtab : list Sym; di_sym_count : Z;
  di_rels : list Reloc; di_relas : list Reloc; di_jmprels : list Reloc; di_gnu_hash : option (list Z); di_base_address : Z
}.

(** The entries of the dynamic section that are used: pointers, null when there is none. *)
Record dyn_state := mkDyn {
  dy_strtab : Z; dy_strtab_size : Z; dy_symtab : Z; dy_rels : Z; dy_rels_size : Z; dy_relas : Z; dy_relas_size : Z;
  dy_jmprels : Z; dy_jmprels_size : Z; dy_gnu_hash : Z; dy_pltrel_type : Z
}.

Definition correct_address (base_address ptr : Z) : Z := if base_address <? ptr then ptr else base_address +w ptr.

Definition dyn_entry (base : Z) (s : dyn_state) (e : Z * Z) : dyn_state :=
  let '(mkDyn a an b c cn d dn j jn g p) := s in
  let '(tag, v) := e in
  let ptr := correct_address base v in
  if tag =? DT_STRTAB then mkDyn ptr an b c cn d dn j jn g p
  else if tag =? DT_STRSZ then mkDyn a v b c cn d dn j jn g p
  else if tag =? DT_SYMTAB then mkDyn a an ptr c cn d dn j jn g p
  else if tag =? DT_GNU_HASH then mkDyn a an b c cn d dn j jn ptr p
  else if tag =? DT_REL then mkDyn a an b ptr cn d dn j jn g p
  else if tag =? DT_RELA then mkDyn a an b c cn ptr dn j jn g p
  else if tag =? DT_JMPREL then mkDyn a an b c cn d dn ptr jn g p
  else if tag =? DT_RELSZ then mkDyn a an b c v d dn j jn g p
  else if tag =? DT_RELASZ then mkDyn a an b c cn d v j jn g p
  else if tag =? DT_PLTRELSZ then mkDyn a an b c cn d dn j v g p
  else if tag =? DT_PLTREL then mkDyn a an b c cn d dn j jn g v
  else s.

(** The entries up to [DT_NULL]. *)
Fixpoint dyn_entries (base : Z) (s : dyn_state) (es : list (Z * Z)) : option dyn_state :=
  match es with
  | [] => None
  | e :: es' => if fst e =? DT_NULL then Some s else dyn_entries base (dyn_entry base s e) es'
  end.

Definition span {A} (from : Z -> list A) (ptr count : Z) : list A := take (Z.to_nat count) (from ptr).

Definition retrieve_dynamic_section (im : image) (es : list (Z * Z)) (base_address : Z) : option DynamicInfo :=
  let? s := dyn_entries base_address (mkDyn 0 0 0 0 0 0 0 0 0 0 0) es in
  let '(jmprels, jmprels_size) := if dy_pltrel_type s =? DT_RELA then (dy_jmprels s, dy_jmprels_size s) else (0, 0) in
  let? sym_count := (if dy_gnu_hash s =? 0 then Some 0 else gnu_hash_symbol_count (im_words im (dy_gnu_hash s))) in
  Some (mkDI (if dy_strtab s =? 0 then [] else im_bytes im (dy_strtab s)) (dy_strtab_size s) (im_syms im (dy_symtab s)) sym_count
          (span (im_rels im) (dy_rels s) (dy_rels_size s / sizeof_Rel)) (span (im_relas im) (dy_relas s) (dy_relas_size s / sizeof_Rela))
          (span (im_relas im) jmprels (jmprels_size / sizeof_Rela)) (if dy_gnu_hash s =? 0 then None else Some (im_words im (dy_gnu_hash s))) base_address).

(** ** Libraries *)

Definition PT_LOAD : Z := 1.
Definition PT_DYNAMIC : Z := 2.
Definition PF_X : Z := 1.

Record lib_phdr := mkPh { ph_type : Z; ph_flags : Z; ph_vaddr : Z; ph_memsz : Z }.

(** What [dl_iterate_phdr] reports; [lb_dyn] are the entries of the dynamic section at an address. *)
Record Library := mkLib { lb_name : string; lb_addr : Z; lb_phdrs : list lib_phdr; lb_dyn : Z -> list (Z * Z); lb_image : image }.

(** [self]: the address of [retrieve_dynamic_info] itself. *)
Definition contains_self (self : Z) (lib : Library) (ph : lib_phdr) : bool :=
  (ph_type ph =? PT_LOAD) && negb (Z.land (ph_flags ph) PF_X =? 0) &&
  (ph_vaddr ph +w lb_addr lib <=? self) && (self <? u64 (ph_vaddr ph + lb_addr lib + ph_memsz ph)).

Definition last_dynamic (phdrs : list lib_phdr) : option lib_phdr := last (List.filter (fun ph => ph_type ph =? PT_DYNAMIC) phdrs).

(** The dynamic section of a library that has symbols, unless it is the profiling library itself. *)
Definition retrieve_dynamic_info (self : Z) (lib : Library) (exclude_self : bool) : option (option DynamicInfo) :=
  if exclude_self && existsb (contains_self self lib) (lb_phdrs lib) then Some None
  else
    match last_dynamic (lb_phdrs lib) with
    | None => Some None
    | Some ph =>
        let? d := retrieve_dynamic_section (lb_image lib) (lb_dyn lib (lb_addr lib +w ph_vaddr ph)) (lb_addr lib) in
        Some (if (di_strtab_size d =? 0) || (di_sym_count d =? 0) || bool_decide (di_gnu_hash d = None) then None else Some d)
    end.

(** ** Lookup over the libraries *)

Record LookupResult := mkLR { lr_symbol : Sym; lr_object_name : string }.
Definition no_symbol : LookupResult := mkLR (mkSym 0 0 0 0 0) "".

(** [SymbolLookup::operator()] *)
Definition lookup_in (symname : list Z) (accept_null_sized_symbol : bool) (not_sym : Z) (object_name : string) (d : DynamicInfo) : option (option LookupResult) :=
  let? s := (match di_gnu_hash d with Some h => gnu_hash_lookup (di_strtab d) (di_symtab d) h symname | None => Some None end) in
  Some (match s with
        | Some s =>
            let value := st_value s +w di_base_address d in
            if (accept_null_sized_symbol || (0 <? st_size s)) && negb (value =? not_sym)
            then Some (mkLR (mkSym (st_name s) (st_info s) (st_shndx s) value (st_size s)) object_name) else None
        | None => None
        end).

Fixpoint lookup_symbol (self : Z) (libs : list Library) (symbol_name : list Z) (accept_null_sized_symbol : bool) (not_this_symbol : Z) : option LookupResult :=
  match libs with
  | [] => Some no_symbol
  | lib :: libs' =>
      let? dyn_info := retrieve_dynamic_info self lib false in
      let? found := (match dyn_info with Some d => lookup_in symbol_name accept_null_sized_symbol not_this_symbol (lb_name lib) d | None => Some None end) in
      match found with
      | Some r => Some r
      | None => lookup_symbol self libs' symbol_name accept_null_sized_symbol not_this_symbol
      end
  end.

(** ** Overrides *)

Record SymbolOverrideInfo := mkSO { so_ref : Z; so_new_symbol : Z; so_do_not_override : Z }.
Record LibraryRevertInfo := mkLRI { ri_library_name : string; ri_old_values : gmap Z Z; ri_processed : bool }.
Record SymbolOverrides := mkSOs { so_revert_info : gmap Z LibraryRevertInfo; so_overrides : gmap (list Z) SymbolOverrideInfo; so_nb_loaded_libs : Z }.

Definition new_SymbolOverrides : SymbolOverrides := mkSOs ∅ ∅ (-1).

(** The state of the reference, which the hook reads, is kept with the override. *)
Definition register_override (s : SymbolOverrides) (symbol_name : list Z) (new_symbol ref do_not_override_this_symbol : Z) : bool * SymbolOverrides :=
  match so_overrides s !! symbol_name with
  | Some _ => (false, s)
  | None => (true, mkSOs (so_revert_info s) (<[symbol_name := mkSO ref new_symbol do_not_override_this_symbol]> (so_overrides s)) (so_nb_loaded_libs s))
  end.

(** The words that relocations fill. *)
Abbreviation memory := (gmap Z Z).

Section Memory.
Context (self : Z) (mprotect : Z -> bool).

(** A word can be written when its page could be made writable. *)
Definition override_entry (entry_addr new_value : Z) (mem : memory) : memory := if mprotect entry_addr then <[entry_addr := new_value]> mem else mem.

(** [write64] of a page that is not writable is [None]. *)
Definition write64 (addr value : Z) (mem : memory) : option memory := if mprotect addr then Some (<[addr := value]> mem) else None.

(** The entry of a relocation: the name of its symbol. *)
Definition reloc_symbol (d : DynamicInfo) (reloc : Reloc) : option (list Z) :=
  let? sym := at_index (di_symtab d) (ELF64_R_SYM (r_info reloc)) in c_str (di_strtab d) (st_name sym).

Definition may_override (o : SymbolOverrideInfo) (addr : Z) (old_values : gmap Z Z) : bool :=
  negb (addr =? so_do_not_override o) && bool_decide (old_values !! addr = None) && negb (so_ref o =? 0).

Fixpoint process_relocations (overrides : gmap (list Z) SymbolOverrideInfo) (d : DynamicInfo) (relocs : list Reloc) (old_values : gmap Z Z) (mem : memory) :
    option (gmap Z Z * memory) :=
  match relocs with
  | [] => Some (old_values, mem)
  | reloc :: relocs' =>
      let? symname := reloc_symbol d reloc in
      match overrides !! symname with
      | Some o =>
          let addr := r_offset reloc +w di_base_address d in
          if may_override o addr old_values then
            let? old := mem !! addr in
            process_relocations overrides d relocs' (<[addr := old]> old_values) (override_entry addr (so_new_symbol o) mem)
          else process_relocations overrides d relocs' old_values mem
      | None => process_relocations overrides d relocs' old_values mem
      end
  end.

Definition has_substring (sub s : string) : bool := match String.index 0 sub s with Some _ => true | None => false end.
Definition is_excluded (library_name : string) : bool := has_substring "linux-vdso" library_name || has_substring "/ld-linux" library_name.

Definition apply_overrides_to_library (s : SymbolOverrides) (d : DynamicInfo) (library_name : string) (mem : memory) : option (SymbolOverrides * memory) :=
  if is_excluded library_name then Some (s, mem)
  else
    let base := di_base_address d in
    match so_revert_info s !! base with
    | Some i => Some (mkSOs (<[base := mkLRI (ri_library_name i) (ri_old_values i) true]> (so_revert_info s)) (so_overrides s) (so_nb_loaded_libs s), mem)
    | None =>
        let? (old_values, mem) := process_relocations (so_overrides s) d (di_rels d) ∅ mem in
        let? (old_values, mem) := process_relocations (so_overrides s) d (di_relas d) old_values mem in
        let? (old_values, mem) := process_relocations (so_overrides s) d (di_jmprels d) old_values mem in
        Some (mkSOs (<[base := mkLRI library_name old_values true]> (so_revert_info s)) (so_overrides s) (so_nb_loaded_libs s), mem)
    end.

Fixpoint override_libraries (s : SymbolOverrides) (libs : list Library) (is_exe : bool) (mem : memory) : option (SymbolOverrides * memory) :=
  match libs with
  | [] => Some (s, mem)
  | lib :: libs' =>
      let? dyn_info := retrieve_dynamic_info self lib (negb is_exe) in
      let? (s, mem) := (match dyn_info with Some d => apply_overrides_to_library s d (lb_name lib) mem | None => Some (s, mem) end) in
      override_libraries s libs' false mem
  end.

Definition set_revert (s : SymbolOverrides) (m : gmap Z LibraryRevertInfo) : SymbolOverrides := mkSOs m (so_overrides s) (so_nb_loaded_libs s).
Definition unprocessed (i : LibraryRevertInfo) : LibraryRevertInfo := mkLRI (ri_library_name i) (ri_old_values i) false.

(** [adds] is the number of libraries loaded so far, 0 when none is reported. *)
Definition update_overrides (s : SymbolOverrides) (libs : list Library) (adds : Z) (mem : memory) : option (SymbolOverrides * memory) :=
  let nb_loaded_libraries := match libs with [] => 0 | _ => adds end in
  if nb_loaded_libraries =? so_nb_loaded_libs s then Some (s, mem)
  else
    let s := mkSOs (unprocessed <$> so_revert_info s) (so_overrides s) nb_loaded_libraries in
    let? (s, mem) := override_libraries s libs true mem in
    Some (set_revert s (filter (fun kv => ri_processed (snd kv) = true) (so_revert_info s)), mem).

(** The references of the hooks that are found. *)
Definition resolve (libs : list Library) (symbol_name : list Z) (o : SymbolOverrideInfo) : option SymbolOverrideInfo :=
  let? r := lookup_symbol self libs symbol_name false 0 in
  Some (if (0 <? st_value (lr_symbol r)) && (0 <? st_size (lr_symbol r)) then mkSO (st_value (lr_symbol r)) (so_new_symbol o) (so_do_not_override o) else o).

Fixpoint resolve_all (libs : list Library) (os : list (list Z * SymbolOverrideInfo)) : option (list (list Z * SymbolOverrideInfo)) :=
  match os with
  | [] => Some []
  | (name, o) :: os' => let? o := resolve libs name o in let? os' := resolve_all libs os' in Some ((name, o) :: os')
  end.

Definition apply_overrides (s : SymbolOverrides) (libs : list Library) (adds : Z) (mem : memory) : option (SymbolOverrides * memory) :=
  let? os := resolve_all libs (map_to_list (so_overrides s)) in
  update_overrides (mkSOs (so_revert_info s) (list_to_map os) (so_nb_loaded_libs s)) libs adds mem.

(** [override_symbol]: one symbol in all libraries, without a way back. *)
Fixpoint override_relocations (symname : list Z) (new_symbol do_not_override_this_symbol : Z) (d : DynamicInfo) (relocs : list Reloc) (mem : memory) : option memory :=
  match relocs with
  | [] => Some mem
  | reloc :: relocs' =>
      let? name := reloc_symbol d reloc in
      let addr := r_offset reloc +w di_base_address d in
      let mem := if bool_decide (name = symname) && negb (addr =? do_not_override_this_symbol) then override_entry addr new_symbol mem else mem in
      override_relocations symname new_symbol do_not_override_this_symbol d relocs' mem
  end.

Fixpoint override_symbol (symbol_name : list Z) (new_symbol do_not_override_this_symbol : Z) (libs : list Library) (is_exe : bool) (mem : memory) : option memory :=
  match libs with
  | [] => Some mem
  | lib :: libs' =>
      let? dyn_info := retrieve_dynamic_info self lib (negb is_exe) in
      let? mem := (match dyn_info with
                   | Some d => if is_excluded (lb_name lib) then Some mem
                               else override_relocations symbol_name new_symbol do_not_override_this_symbol d (di_rels d ++ di_relas d ++ di_jmprels d) mem
                   | None => Some mem
                   end) in
      override_symbol symbol_name new_symbol do_not_override_this_symbol libs' false mem
  end.

(** ** Restoring *)

Fixpoint write_values (vs : list (Z * Z)) (mem : memory) : option memory :=
  match vs with [] => Some mem | (a, v) :: vs' => let? mem := write64 a v mem in write_values vs' mem end.

Definition restore_library_overrides (s : SymbolOverrides) (library_name : string) (base_address : Z) (mem : memory) : option memory :=
  match so_revert_info s !! base_address with
  | Some i => if bool_decide (ri_library_name i = library_name) then write_values (map_to_list (ri_old_values i)) mem else Some mem
  | None => Some mem
  end.

Fixpoint restore_libraries (s : SymbolOverrides) (libs : list Library) (mem : memory) : option memory :=
  match libs with
  | [] => Some mem
  | lib :: libs' => let? mem := restore_library_overrides s (lb_name lib) (lb_addr lib) mem in restore_libraries s libs' mem
  end.

Definition restore_overrides (s : SymbolOverrides) (libs : list Library) (mem : memory) : option (SymbolOverrides * memory) :=
  let? mem := restore_libraries s libs mem in Some (set_revert s ∅, mem).

End Memory.

(** ** Theorems *)

Section Restore.
Context (self : Z) (mprotect : Z -> bool).

(** A loaded library, and whether it is the executable. *)
Abbreviation loaded := (bool * Library)%type.

Definition lib_info (x : loaded) : option DynamicInfo :=
  match retrieve_dynamic_info self (snd x) (negb (fst x)) with
  | Some (Some d) => if is_excluded (lb_name (snd x)) then None else Some d
  | _ => None
  end.

(** The addresses of the words that the relocations of a library fill. *)
Definition slot (d : DynamicInfo) (r : Reloc) : Z := r_offset r +w di_base_address d.
Definition lib_slots (x : loaded) : list Z := match lib_info x with Some d => map (slot d) (di_rels d ++ di_relas d ++ di_jmprels d) | None => [] end.

Lemma info_base self' lib e d : retrieve_dynamic_info self' lib e = Some (Some d) -> di_base_address d = lb_addr lib.
Proof.
  unfold retrieve_dynamic_info. destruct (_ && _); [done|]. destruct (last_dynamic _); [|done]. unfold retrieve_dynamic_section.
  destruct (dyn_entries _ _ _) as [st|]; [|done]. destruct (if dy_pltrel_type st =? DT_RELA then _ else _) as [j jn].
  destruct (if dy_gnu_hash st =? 0 then Some 0 else _); [|done]. destruct (_ || _ || _); [done|]. by intros [= <-].
Qed.

(** A word that holds a hook whose reference is known. *)
Definition hooked (os : gmap (list Z) SymbolOverrideInfo) (v : Z) : Prop := exists name o, os !! name = Some o /\ so_ref o <> 0 /\ v = so_new_symbol o.

(** From one state of the words of a library to a later one: a word is as it was, or its value
    was recorded and it now holds a hook. *)
Definition redirected (os : gmap (list Z) SymbolOverrideInfo) (slots : list Z) (old : gmap Z Z) (mem : memory) (old' : gmap Z Z) (mem' : memory) : Prop :=
  forall a, (old' !! a = old !! a /\ mem' !! a = mem !! a) \/
    (old !! a = None /\ a ∈ slots /\ exists v w, old' !! a = Some v /\ mem !! a = Some v /\ mem' !! a = Some w /\ hooked os w).

Lemma redirected_trans os slots old mem old1 mem1 old2 mem2 :
  redirected os slots old mem old1 mem1 -> redirected os slots old1 mem1 old2 mem2 -> redirected os slots old mem old2 mem2.
Proof.
  intros H1 H2 a. destruct (H1 a) as [[E1 M1]|(N1 & S1 & v & w & O1 & M1 & M1' & K1)], (H2 a) as [[E2 M2]|(N2 & S2 & v' & w' & O2 & M2 & M2' & K2)].
  - left. split; congruence.
  - right. split; [congruence|]. split; [done|]. exists v', w'. split; [done|]. split; [congruence|]. done.
  - right. split; [done|]. split; [done|]. exists v, w. split; [congruence|]. split; [done|]. split; [congruence|done].
  - congruence.
Qed.

Lemma process_relocations_spec os d relocs slots old mem old' mem' : (forall a, a ∈ slots -> mprotect a = true) -> Forall (fun r => slot d r ∈ slots) relocs ->
  process_relocations mprotect os d relocs old mem = Some (old', mem') -> redirected os slots old mem old' mem'.
Proof.
  intros Hw Hs. revert old mem. induction Hs as [|r relocs Hr _ IH]; intros old mem E; cbn [process_relocations] in E; [injection E as <- <-; intros a; by left|].
  destruct (reloc_symbol d r) as [name|]; [|done]. destruct (os !! name) as [o|] eqn:Eo; [|by apply IH]. fold (slot d r) in E.
  destruct (may_override o (slot d r) old) eqn:Em; [|by apply IH]. destruct (mem !! slot d r) as [v|] eqn:Ev; [|done].
  eapply redirected_trans; [|by apply IH]. unfold may_override in Em. zbool. unfold override_entry. rewrite Hw by done.
  intros a. destruct (decide (a = slot d r)) as [->|Hne].
  - right. split; [by case_bool_decide|]. split; [done|]. exists v, (so_new_symbol o). split; [apply lookup_insert_eq|].
    split; [exact Ev|]. split; [apply lookup_insert_eq|]. exists name, o. by split.
  - left. split; by apply lookup_insert_ne.
Qed.

(** *** The invariant *)

(** The libraries [L] are loaded; [orig] is what the words would hold without overrides. *)
Definition records (s : SymbolOverrides) (x : loaded) (a v : Z) : Prop := exists i, so_revert_info s !! lb_addr (snd x) = Some i /\ ri_old_values i !! a = Some v.

Record libs_ok (L : list loaded) : Prop := {
  lo_bases : NoDup (map (fun x => lb_addr (snd x)) L);
  lo_slots : forall x y a, x ∈ L -> y ∈ L -> a ∈ lib_slots x -> a ∈ lib_slots y -> x = y;
  lo_writable : forall x a, x ∈ L -> a ∈ lib_slots x -> mprotect a = true
}.

Record overrides_inv (L : list loaded) (s : SymbolOverrides) (mem orig : memory) : Prop := {
  oi_libs : libs_ok L;
  oi_known : forall x i, x ∈ L -> so_revert_info s !! lb_addr (snd x) = Some i -> ri_library_name i = lb_name (snd x) /\ is_Some (lib_info x);
  oi_old : forall x a v, x ∈ L -> records s x a v -> a ∈ lib_slots x /\ orig !! a = Some v /\ exists w, mem !! a = Some w /\ hooked (so_overrides s) w;
  oi_mem : forall a, (forall x v, x ∈ L -> ~ records s x a v) -> mem !! a = orig !! a
}.

Lemma same_base L x y : libs_ok L -> x ∈ L -> y ∈ L -> lb_addr (snd x) = lb_addr (snd y) -> x = y.
Proof.
  intros HL Hx Hy E. apply list_elem_of_lookup in Hx as [i Hi]. apply list_elem_of_lookup in Hy as [j Hj].
  assert (i = j) as <-; [|congruence]. eapply (NoDup_lookup _ _ _ (lb_addr (snd x)) (lo_bases _ HL)).
  - by rewrite list_lookup_fmap, Hi.
  - by rewrite list_lookup_fmap, Hj, E.
Qed.

(** A library that is met for the first time. *)
Lemma apply_new_library L s mem orig x d s' mem' : overrides_inv L s mem orig -> x ∈ L -> lib_info x = Some d -> so_revert_info s !! lb_addr (snd x) = None ->
  apply_overrides_to_library mprotect s d (lb_name (snd x)) mem = Some (s', mem') ->
  overrides_inv L s' mem' orig /\ so_overrides s' = so_overrides s /\
    exists old, so_revert_info s' = <[lb_addr (snd x) := mkLRI (lb_name (snd x)) old true]> (so_revert_info s).
Proof.
  intros [HL Hk Ho Hm] Hx Hd Hnew E. pose proof Hd as Hinfo. unfold lib_info in Hinfo. destruct (retrieve_dynamic_info _ _ _) as [[d'|]|] eqn:Er; [|done..].
  unfold apply_overrides_to_library in E. destruct (is_excluded _); [done|]. injection Hinfo as ->. rewrite (info_base _ _ _ _ Er), Hnew in E.
  destruct (process_relocations mprotect (so_overrides s) d (di_rels d) ∅ mem) as [[o1 m1]|] eqn:E1; [|done].
  destruct (process_relocations mprotect (so_overrides s) d (di_relas d) o1 m1) as [[o2 m2]|] eqn:E2; [|done].
  destruct (process_relocations mprotect (so_overrides s) d (di_jmprels d) o2 m2) as [[o3 m3]|] eqn:E3; [|done]. injection E as <- <-.
  assert (Hw : forall a, a ∈ lib_slots x -> mprotect a = true) by (intros a; by apply (lo_writable _ HL)).
  assert (Hall : Forall (fun r => slot d r ∈ lib_slots x) (di_rels d ++ di_relas d ++ di_jmprels d)).
  { unfold lib_slots. rewrite Hd. apply Forall_forall. intros r Hr. apply list_elem_of_fmap. by exists r. }
  apply Forall_app in Hall as [F1 [F2 F3]%Forall_app].
  pose proof (redirected_trans _ _ _ _ _ _ _ _ (process_relocations_spec _ _ _ _ _ _ _ _ Hw F1 E1)
    (redirected_trans _ _ _ _ _ _ _ _ (process_relocations_spec _ _ _ _ _ _ _ _ Hw F2 E2) (process_relocations_spec _ _ _ _ _ _ _ _ Hw F3 E3))) as Hred.
  clear E1 E2 E3 o1 m1 o2 m2.
  assert (Hrec : forall y a v, y ∈ L -> records (mkSOs (<[lb_addr (snd x) := mkLRI (lb_name (snd x)) o3 true]> (so_revert_info s)) (so_overrides s) (so_nb_loaded_libs s)) y a v ->
    (y = x /\ o3 !! a = Some v) \/ (y <> x /\ records s y a v)).
  { intros y a v Hy (i & Hi & Ha). cbn [so_revert_info] in Hi. apply lookup_insert_Some in Hi as [[Eb <-]|[Hne Hi]]; [left; split; [by eapply same_base|done]|right; split; [by intros ->|by exists i]]. }
  assert (Hnone : forall a v, ~ records s x a v) by (intros a v (i & Hi & _); congruence).
  split; [|split; [done|by exists o3]]. split; [done|..].
  - intros y i Hy Hi. cbn [so_revert_info] in Hi. apply lookup_insert_Some in Hi as [[Eb <-]|[_ Hi]]; [|by apply Hk]. assert (y = x) as -> by by eapply same_base. by rewrite Hd.
  - intros y a v Hy Hr. destruct (Hrec y a v Hy Hr) as [[-> Ha]|[Hne Ha]].
    + destruct (Hred a) as [[Eo _]|(_ & Hs & v' & w & Eo & Em & Em' & Hh)]; [rewrite Eo in Ha; by apply lookup_empty_Some in Ha|].
      assert (v' = v) as -> by congruence. split; [done|]. split; [|by exists w]. rewrite <- Em. symmetry. apply Hm. intros z u Hz Hzr.
      destruct (Ho z a u Hz Hzr) as (Hsz & _). assert (z = x) as -> by by eapply lo_slots. by apply Hnone in Hzr.
    + destruct (Ho y a v Hy Ha) as (Hs & Ev & w & Ew & Hh). split; [done|]. split; [done|]. exists w. split; [|done].
      destruct (Hred a) as [[_ ->]|(_ & Hsx & _)]; [done|]. destruct Hne. by eapply lo_slots.
  - intros a Hno. destruct (Hred a) as [[_ ->]|(_ & Hsx & v & w & Eo & _)].
    + apply Hm. intros y v Hy Hr. apply (Hno y v Hy). destruct Hr as (i & Hi & Ha). exists i. split; [|done]. cbn [so_revert_info]. rewrite lookup_insert_ne; [done|congruence].
    + destruct (Hno x v Hx). exists (mkLRI (lb_name (snd x)) o3 true). split; [apply lookup_insert_eq|done].
Qed.

(** Whether a library was seen in the update does not matter. *)
Definition reverts (i : LibraryRevertInfo) : string * gmap Z Z := (ri_library_name i, ri_old_values i).

Lemma overrides_inv_ext L s mem orig m' n' : overrides_inv L s mem orig -> (forall x, x ∈ L -> reverts <$> m' !! lb_addr (snd x) = reverts <$> so_revert_info s !! lb_addr (snd x)) ->
  overrides_inv L (mkSOs m' (so_overrides s) n') mem orig.
Proof.
  intros [HL Hk Ho Hm] Hext.
  assert (Hfound : forall x i, x ∈ L -> m' !! lb_addr (snd x) = Some i -> exists i', so_revert_info s !! lb_addr (snd x) = Some i' /\ reverts i' = reverts i).
  { intros x i Hx Hi. specialize (Hext x Hx). rewrite Hi in Hext. destruct (so_revert_info s !! lb_addr (snd x)) as [i'|]; [|done]. injection Hext as E1 E2. exists i'. split; [done|].
    unfold reverts. congruence. }
  assert (Hback : forall x i, x ∈ L -> so_revert_info s !! lb_addr (snd x) = Some i -> exists i', m' !! lb_addr (snd x) = Some i' /\ reverts i' = reverts i).
  { intros x i Hx Hi. specialize (Hext x Hx). rewrite Hi in Hext. destruct (m' !! lb_addr (snd x)) as [i'|]; [|done]. injection Hext as E1 E2. exists i'. split; [done|]. unfold reverts. congruence. }
  split; [done|..].
  - intros x i Hx Hi. destruct (Hfound x i Hx Hi) as (i' & Hi' & E). injection E as E1 E2. rewrite <- E1. by apply Hk.
  - intros x a v Hx (i & Hi & Ha). destruct (Hfound x i Hx Hi) as (i' & Hi' & E). injection E as E1 E2. apply (Ho x a v Hx). exists i'. split; [done|congruence].
  - intros a Hno. apply Hm. intros x v Hx (i & Hi & Ha). destruct (Hback x i Hx Hi) as (i' & Hi' & E). injection E as E1 E2. apply (Hno x v Hx). exists i'. split; [done|congruence].
Qed.

Definition processed_at (s : SymbolOverrides) (b : Z) : Prop := exists i, so_revert_info s !! b = Some i /\ ri_processed i = true.

(** One library of the update. *)
Lemma apply_library L s mem orig x s' mem' : overrides_inv L s mem orig -> x ∈ L ->
  (let? info := retrieve_dynamic_info self (snd x) (negb (fst x)) in
   match info with Some d => apply_overrides_to_library mprotect s d (lb_name (snd x)) mem | None => Some (s, mem) end) = Some (s', mem') ->
  overrides_inv L s' mem' orig /\ so_overrides s' = so_overrides s /\
  (forall b, processed_at s b -> processed_at s' b) /\ (is_Some (lib_info x) -> processed_at s' (lb_addr (snd x))).
Proof.
  intros Hinv Hx E. destruct (retrieve_dynamic_info _ _ _) as [info|] eqn:Er; [|done].
  destruct (lib_info x) as [d|] eqn:Ed.
  - pose proof Ed as Hd. unfold lib_info in Hd. rewrite Er in Hd. destruct info as [d'|]; [|done]. destruct (is_excluded (lb_name (snd x))) eqn:Eex; [done|]. injection Hd as ->.
    destruct (so_revert_info s !! lb_addr (snd x)) as [i|] eqn:Ei.
    + unfold apply_overrides_to_library in E. rewrite Eex, (info_base _ _ _ _ Er), Ei in E. injection E as <- <-.
      set (j := mkLRI (ri_library_name i) (ri_old_values i) true).
      assert (Hj : forall b, processed_at s b \/ b = lb_addr (snd x) -> processed_at (mkSOs (<[lb_addr (snd x) := j]> (so_revert_info s)) (so_overrides s) (so_nb_loaded_libs s)) b).
      { intros b Hb. unfold processed_at. cbn [so_revert_info]. destruct (decide (b = lb_addr (snd x))) as [->|Hne]; [exists j; by rewrite lookup_insert_eq|].
        destruct Hb as [(k & Hk & Hp)|]; [|done]. exists k. by rewrite lookup_insert_ne. }
      split; [|split; [done|split; [intros b Hb; apply Hj; by left|intros _; apply Hj; by right]]].
      apply overrides_inv_ext; [done|]. intros y Hy. destruct (decide (lb_addr (snd y) = lb_addr (snd x))) as [->|Hne]; [by rewrite lookup_insert_eq, Ei|by rewrite lookup_insert_ne].
    + destruct (apply_new_library L s mem orig x d s' mem' Hinv Hx Ed Ei E) as (Hinv' & Hov & old & Hrev). split; [done|]. split; [done|].
      unfold processed_at. rewrite Hrev. split.
      * intros b (k & Hk & Hp). exists k. rewrite lookup_insert_ne; [done|congruence].
      * intros _. eexists. by rewrite lookup_insert_eq.
  - assert (E' : s' = s /\ mem' = mem).
    { unfold lib_info in Ed. rewrite Er in Ed. destruct info as [d|]; [|by injection E as <- <-]. unfold apply_overrides_to_library in E.
      destruct (is_excluded (lb_name (snd x))); [by injection E as <- <-|done]. }
    destruct E' as [-> ->]. split; [done|]. split; [done|]. split; [done|]. by intros [d Hd].
Qed.

(** The flags of the libraries: the executable comes first. *)
Fixpoint flags_ok (e : bool) (l : list loaded) : Prop := match l with [] => True | x :: l' => fst x = e /\ flags_ok false l' end.

Lemma override_libraries_spec L l e s mem orig s' mem' : overrides_inv L s mem orig -> (forall x, x ∈ l -> x ∈ L) -> flags_ok e l ->
  override_libraries self mprotect s (map snd l) e mem = Some (s', mem') ->
  overrides_inv L s' mem' orig /\ so_overrides s' = so_overrides s /\ (forall b, processed_at s b -> processed_at s' b) /\
  (forall x, x ∈ l -> is_Some (lib_info x) -> processed_at s' (lb_addr (snd x))).
Proof.
  revert e s mem. induction l as [|x l IH]; intros e s mem Hinv Hin Hf E; cbn [map override_libraries] in E.
  - injection E as <- <-. split; [done|]. split; [done|]. split; [done|]. intros x Hx. by apply not_elem_of_nil in Hx.
  - destruct Hf as [<- Hf]. destruct (let? info := retrieve_dynamic_info self (snd x) (negb (fst x)) in
      match info with Some d => apply_overrides_to_library mprotect s d (lb_name (snd x)) mem | None => Some (s, mem) end) as [[s1 mem1]|] eqn:E1.
    + destruct (apply_library L s mem orig x s1 mem1 Hinv (Hin x (list_elem_of_here _ _)) E1) as (Hinv1 & Hov1 & Hp1 & Hx1).
      assert (E' : override_libraries self mprotect s1 (map snd l) false mem1 = Some (s', mem')).
      { destruct (retrieve_dynamic_info _ _ _) as [info|]; [|done]. by rewrite E1 in E. }
      destruct (IH false s1 mem1 Hinv1 (fun y Hy => Hin y (list_elem_of_further _ _ _ Hy)) Hf E') as (Hinv2 & Hov2 & Hp2 & Hx2).
      split; [done|]. split; [congruence|]. split; [auto|]. intros y [->|Hy]%elem_of_cons Hs; [by apply Hp2, Hx1|by apply Hx2].
    + destruct (retrieve_dynamic_info _ _ _) as [info|]; [|done]. by rewrite E1 in E.
Qed.

Lemma update_spec L s mem orig adds s' mem' : overrides_inv L s mem orig -> flags_ok true L ->
  update_overrides self mprotect s (map snd L) adds mem = Some (s', mem') -> overrides_inv L s' mem' orig /\ so_overrides s' = so_overrides s.
Proof.
  intros Hinv Hf E. unfold update_overrides in E. destruct (_ =? _); [by injection E as <- <-|]. set (n := match map snd L with [] => 0 | _ => adds end) in E.
  assert (Hinv0 : overrides_inv L (mkSOs (unprocessed <$> so_revert_info s) (so_overrides s) n) mem orig).
  { apply overrides_inv_ext; [done|]. intros x Hx. rewrite lookup_fmap. by destruct (so_revert_info s !! lb_addr (snd x)). }
  cbv zeta in E. destruct (override_libraries _ _ _ _ _ _) as [[s1 mem1]|] eqn:E1; [|done]. injection E as <- <-.
  destruct (override_libraries_spec L L true _ _ orig s1 mem1 Hinv0 (fun x Hx => Hx) Hf E1) as (Hinv1 & Hov & _ & Hp). split; [|done].
  unfold set_revert. apply overrides_inv_ext; [done|]. intros x Hx. destruct (so_revert_info s1 !! lb_addr (snd x)) as [i|] eqn:Ei.
  - destruct (oi_known _ _ _ _ Hinv1 x i Hx Ei) as [_ Hd]. destruct (Hp x Hx Hd) as (i' & Hi' & Hpi). assert (i' = i) as -> by congruence.
    rewrite (proj2 (map_lookup_filter_Some _ _ _ i)); [done|]. by split.
  - rewrite (proj2 (map_lookup_filter_None _ _ _)); [done|]. by left.
Qed.

(** *** Restoring *)

Lemma write_values_spec l mem : NoDup l.*1 -> (forall a v, (a, v) ∈ l -> mprotect a = true) -> write_values mprotect l mem = Some (list_to_map l ∪ mem).
Proof.
  revert mem. induction l as [|[a v] l IH]; intros mem Hnd Hw; cbn [write_values].
  - f_equal. symmetry. apply map_empty_union.
  - apply NoDup_cons in Hnd as [Ha Hnd]. unfold write64. rewrite (Hw a v (list_elem_of_here _ _)). rewrite IH; [|done|intros b w Hb; by eapply Hw, list_elem_of_further].
    f_equal. rewrite list_to_map_cons. apply map_eq. intros b. rewrite !lookup_union. destruct (decide (b = a)) as [->|Hne].
    + rewrite !lookup_insert_eq. rewrite (not_elem_of_list_to_map_1 l a) by done. by destruct (mem !! a).
    + by rewrite !lookup_insert_ne.
Qed.

Lemma restore_libraries_spec L l s mem orig : overrides_inv L s mem orig -> (forall x, x ∈ l -> x ∈ L) ->
  forall m, (forall a, (forall x v, x ∈ l -> ~ records s x a v) -> m !! a = orig !! a) -> restore_libraries mprotect s (map snd l) m = Some orig.
Proof.
  intros [HL Hk Ho Hm] Hin. induction l as [|x l IH]; intros m Hmem; cbn [map restore_libraries].
  - f_equal. apply map_eq. intros a. apply Hmem. intros x v Hx. by apply not_elem_of_nil in Hx.
  - assert (Hx : x ∈ L) by apply Hin, list_elem_of_here. unfold restore_library_overrides.
    destruct (so_revert_info s !! lb_addr (snd x)) as [i|] eqn:Ei.
    + destruct (Hk x i Hx Ei) as [Hn _]. rewrite bool_decide_eq_true_2 by done. rewrite write_values_spec.
      * rewrite list_to_map_to_list. apply IH; [intros y Hy; by apply Hin, list_elem_of_further|]. intros a Hno. rewrite lookup_union.
        destruct (ri_old_values i !! a) as [v|] eqn:Ea.
        -- destruct (Ho x a v Hx) as (_ & -> & _); [by exists i|]. by destruct (m !! a).
        -- rewrite (left_id_L None _). apply Hmem. intros y v [->|Hy]%elem_of_cons; [intros (j & Hj & Hv); congruence|by apply Hno].
      * apply NoDup_fst_map_to_list.
      * intros a v Hav. apply elem_of_map_to_list in Hav. destruct (Ho x a v Hx) as (Hs & _); [by exists i|]. by eapply lo_writable.
    + apply IH; [intros y Hy; by apply Hin, list_elem_of_further|]. intros a Hno. apply Hmem. intros y v [->|Hy]%elem_of_cons; [intros (j & Hj & _); congruence|by apply Hno].
Qed.

(** *** Resolving the references *)

(** The overrides [os'] are those of [os], with references that are known at least where they were. *)
Definition more_refs (os os' : gmap (list Z) SymbolOverrideInfo) : Prop :=
  forall name o, os !! name = Some o -> exists o', os' !! name = Some o' /\ so_new_symbol o' = so_new_symbol o /\ (so_ref o <> 0 -> so_ref o' <> 0).

Lemma resolve_all_spec libs l l' : resolve_all self libs l = Some l' ->
  l'.*1 = l.*1 /\ forall name o, (name, o) ∈ l -> exists o', (name, o') ∈ l' /\ so_new_symbol o' = so_new_symbol o /\ (so_ref o <> 0 -> so_ref o' <> 0).
Proof.
  revert l'. induction l as [|[n o] l IH]; intros l' E; cbn [resolve_all] in E; [injection E as <-; split; [done|]; intros ? ? H; by apply not_elem_of_nil in H|].
  unfold resolve in E. destruct (lookup_symbol _ _ _ _ _) as [r|]; [|done]. destruct (resolve_all _ _ _) as [l1|]; [|done]. injection E as <-.
  destruct (IH l1 eq_refl) as [E1 H1]. split; [cbn; by f_equal|]. intros name o0 [E0|Hin]%elem_of_cons.
  - injection E0 as -> ->. eexists. split; [apply list_elem_of_here|]. destruct (_ && _) eqn:Eb; cbn; [|done]. zbool. split; [done|]. lia.
  - destruct (H1 name o0 Hin) as (o' & Ho' & Hs). exists o'. split; [by apply list_elem_of_further|done].
Qed.

Lemma resolve_more_refs libs os l : resolve_all self libs (map_to_list os) = Some l -> more_refs os (list_to_map l).
Proof.
  intros E. destruct (resolve_all_spec _ _ _ E) as [Ek H]. intros name o Ho. destruct (H name o) as (o' & Ho' & Hs); [by apply elem_of_map_to_list|].
  exists o'. split; [|done]. apply elem_of_list_to_map_1; [rewrite Ek; apply NoDup_fst_map_to_list|done].
Qed.

Lemma overrides_inv_refs L s mem orig os' : overrides_inv L s mem orig -> more_refs (so_overrides s) os' -> overrides_inv L (mkSOs (so_revert_info s) os' (so_nb_loaded_libs s)) mem orig.
Proof.
  intros [HL Hk Ho Hm] Hos. split; [done|done| |done]. intros x a v Hx Hr. destruct (Ho x a v Hx Hr) as (Hs & Ev & w & Ew & name & o & Eo & Hr0 & ->).
  split; [done|]. split; [done|]. eexists. split; [done|]. destruct (Hos name o Eo) as (o' & Eo' & En & Hr'). exists name, o'. split; [done|]. split; [by apply Hr'|done].
Qed.

(** *** The life of a process *)

Record process_image := mkPI { pi_libs : list loaded; pi_adds : Z; pi_mem : memory; pi_orig : memory; pi_so : SymbolOverrides }.

(** What may happen: overrides are applied or updated; a library is loaded - if [reuse], also at
    the address of one that was unloaded and that the overrides still remember; one other than
    the executable is unloaded with the words of its own; a word that is not redirected is
    written. *)
Inductive image_step (reuse : bool) : process_image -> process_image -> Prop :=
| step_apply L n mem orig s s' mem' : apply_overrides self mprotect s (map snd L) n mem = Some (s', mem') -> image_step reuse (mkPI L n mem orig s) (mkPI L n mem' orig s')
| step_update L n mem orig s s' mem' : update_overrides self mprotect s (map snd L) n mem = Some (s', mem') -> image_step reuse (mkPI L n mem orig s) (mkPI L n mem' orig s')
| step_load L n mem orig s lib words : libs_ok (L ++ [(false, lib)]) -> (is_Some (so_revert_info s !! lb_addr lib) -> reuse = true) -> words ##ₘ mem -> words ##ₘ orig ->
    image_step reuse (mkPI L n mem orig s) (mkPI (L ++ [(false, lib)]) (n + 1) (words ∪ mem) (words ∪ orig) s)
| step_unload exe pre x post n mem orig s (gone : gset Z) : (forall a, a ∈ lib_slots x -> a ∈ gone) ->
    (forall y a, y ∈ exe :: pre ++ post -> a ∈ lib_slots y -> a ∉ gone) ->
    image_step reuse (mkPI (exe :: pre ++ x :: post) n mem orig s)
      (mkPI (exe :: pre ++ post) n (filter (fun kv => fst kv ∉ gone) mem) (filter (fun kv => fst kv ∉ gone) orig) s)
| step_write L n mem orig s a v : (forall x u, x ∈ L -> ~ records s x a u) -> image_step reuse (mkPI L n mem orig s) (mkPI L n (<[a := v]> mem) (<[a := v]> orig) s).

Definition image_ok (p : process_image) : Prop := overrides_inv (pi_libs p) (pi_so p) (pi_mem p) (pi_orig p) /\ flags_ok true (pi_libs p) /\ pi_libs p <> [].

Lemma flags_app e l x : flags_ok e l -> l <> [] -> flags_ok e (l ++ [(false, x)]).
Proof. revert e. induction l as [|y [|z l] IH]; intros e; [done|..]; intros [H1 H2] _; [done|]. split; [done|]. by apply IH. Qed.

Lemma flags_false_app l l' : flags_ok false (l ++ l') <-> flags_ok false l /\ flags_ok false l'.
Proof. induction l as [|y l IH]; cbn; [tauto|]. rewrite IH. tauto. Qed.

Lemma filter_in_gone (gone : gset Z) (m : memory) a : a ∈ gone -> filter (fun kv => fst kv ∉ gone) m !! a = None.
Proof. intros Ha. apply map_lookup_filter_None. right. intros v _ Hn. by apply Hn. Qed.

Lemma filter_not_gone (gone : gset Z) (m : memory) a : a ∉ gone -> filter (fun kv => fst kv ∉ gone) m !! a = m !! a.
Proof.
  intros Ha. destruct (m !! a) as [v|] eqn:E; [by apply map_lookup_filter_Some|]. apply map_lookup_filter_None. by left.
Qed.

Lemma load_ok L n mem orig s lib words : image_ok (mkPI L n mem orig s) -> libs_ok (L ++ [(false, lib)]) -> so_revert_info s !! lb_addr lib = None -> words ##ₘ mem -> words ##ₘ orig ->
  overrides_inv (L ++ [(false, lib)]) s (words ∪ mem) (words ∪ orig).
Proof.
  intros [[HL Hk Ho Hm] _] HL' Hnew Hd1 Hd2. cbn [pi_libs pi_so pi_mem pi_orig] in *.
  assert (Hrec : forall x a v, x ∈ L ++ [(false, lib)] -> records s x a v -> x ∈ L).
  { intros x a v Hx (i & Hi & _). apply elem_of_app in Hx as [?|Hx]; [done|]. apply list_elem_of_singleton in Hx as ->. cbn in Hi. congruence. }
  split; [done|..].
  - intros x i Hx Hi. apply (Hk x i); [|done]. apply elem_of_app in Hx as [?|Hx]; [done|]. apply list_elem_of_singleton in Hx as ->. cbn in Hi. congruence.
  - intros x a v Hx Hr. destruct (Ho x a v (Hrec x a v Hx Hr) Hr) as (Hs & Ev & w & Ew & Hh). split; [done|]. split; [by apply lookup_union_Some_r|].
    exists w. split; [by apply lookup_union_Some_r|done].
  - intros a Hno. rewrite !lookup_union, Hm; [done|]. intros x v Hx. apply Hno, elem_of_app. by left.
Qed.

Lemma unload_ok exe pre x post n mem orig s (gone : gset Z) : image_ok (mkPI (exe :: pre ++ x :: post) n mem orig s) -> (forall a, a ∈ lib_slots x -> a ∈ gone) ->
  (forall y a, y ∈ exe :: pre ++ post -> a ∈ lib_slots y -> a ∉ gone) ->
  overrides_inv (exe :: pre ++ post) s (filter (fun kv => fst kv ∉ gone) mem) (filter (fun kv => fst kv ∉ gone) orig).
Proof.
  intros [[HL Hk Ho Hm] _] Hx Hothers. cbn [pi_libs pi_so pi_mem pi_orig] in *.
  assert (Hsub : forall y, y ∈ exe :: pre ++ post -> y ∈ exe :: pre ++ x :: post).
  { intros y. rewrite !elem_of_cons, !elem_of_app, elem_of_cons. tauto. }
  assert (Hcase : forall y, y ∈ exe :: pre ++ x :: post -> y = x \/ y ∈ exe :: pre ++ post).
  { intros y. rewrite !elem_of_cons, !elem_of_app, elem_of_cons. tauto. }
  split.
  - destruct HL as [H1 H2 H3]. split; [|eauto|eauto]. cbn [map] in *. rewrite map_app in *. cbn [map] in H1. apply NoDup_cons in H1 as [H1 H4]. apply NoDup_app in H4 as (H4 & H5 & H6).
    apply NoDup_cons in H6 as [H6 H7]. apply NoDup_cons. split; [intros Hin; apply H1; apply elem_of_app in Hin as [?|?]; apply elem_of_app; [by left|right; by apply list_elem_of_further]|].
    apply NoDup_app. split; [done|]. split; [|done]. intros b Hb1 Hb2. apply (H5 b Hb1). by apply list_elem_of_further.
  - intros y i Hy Hi. apply (Hk y i); auto.
  - intros y a v Hy Hr. destruct (Ho y a v (Hsub y Hy) Hr) as (Hs & Ev & w & Ew & Hh). pose proof (Hothers y a Hy Hs) as Hng. split; [done|]. rewrite !filter_not_gone by done. eauto.
  - intros a Hno. destruct (decide (a ∈ gone)) as [Hg|Hg]; [by rewrite !filter_in_gone|]. rewrite !filter_not_gone by done. apply Hm. intros y v Hy Hr.
    destruct (Hcase y Hy) as [->|Hy']; [|by apply (Hno y v)]. destruct (Ho x a v Hy Hr) as (Hs & _). by apply Hg, Hx.
Qed.

(** Without such a reuse of an address. *)
Lemma image_step_ok p p' : image_step false p p' -> image_ok p -> image_ok p'.
Proof.
  intros Hstep Hp. destruct Hstep as [L n mem orig s s' mem' E|L n mem orig s s' mem' E|L n mem orig s lib words H1 H2 H3 H4|exe pre x post n mem orig s gone H1 H2|L n mem orig s a v H];
    pose proof Hp as (Hinv & Hf & Hne); unfold image_ok; cbn [pi_libs pi_so pi_mem pi_orig] in *.
  - unfold apply_overrides in E. destruct (resolve_all _ _ _) as [os|] eqn:Er; [|done].
    destruct (update_spec L _ mem orig n s' mem' (overrides_inv_refs _ _ _ _ _ Hinv (resolve_more_refs _ _ _ Er)) Hf E) as [? _]. done.
  - destruct (update_spec L s mem orig n s' mem' Hinv Hf E) as [? _]. done.
  - assert (so_revert_info s !! lb_addr lib = None) as H2' by (destruct (so_revert_info s !! lb_addr lib); [by specialize (H2 ltac:(by eexists))|done]).
    split; [by eapply load_ok|]. split; [by apply flags_app|]. by destruct L.
  - split; [by eapply unload_ok|]. split; [|done]. destruct Hf as [He Hf]. split; [done|]. apply flags_false_app in Hf as [Hf1 [_ Hf2]]. by apply flags_false_app.
  - split; [|done]. destruct Hinv as [HL Hk Ho Hm]. split; [done|done| |].
    + intros x b u Hx Hr. destruct (decide (b = a)) as [->|Hne']; [by destruct (H x u Hx)|]. rewrite !lookup_insert_ne by done. by apply Ho.
    + intros b Hno. destruct (decide (b = a)) as [->|Hne']; [by rewrite !lookup_insert_eq|]. rewrite !lookup_insert_ne by done. by apply Hm.
Qed.

Lemma records_or_not s a (L : list loaded) : (exists x u, x ∈ L /\ records s x a u) \/ (forall x u, x ∈ L -> ~ records s x a u).
Proof.
  induction L as [|x L IH]; [right; intros x u Hx; by apply not_elem_of_nil in Hx|]. destruct IH as [(y & u & Hy & Hr)|IH]; [left; exists y, u; split; [by apply list_elem_of_further|done]|].
  destruct (so_revert_info s !! lb_addr (snd x)) as [i|] eqn:Ei; [destruct (ri_old_values i !! a) as [u|] eqn:Ea|].
  - left. exists x, u. split; [apply list_elem_of_here|by exists i].
  - right. intros y u [->|Hy]%elem_of_cons; [intros (j & Hj & Hu); congruence|by apply IH].
  - right. intros y u [->|Hy]%elem_of_cons; [intros (j & Hj & Hu); congruence|by apply IH].
Qed.

End Restore.

(** *** What holds in every state *)

Lemma image_start self mprotect L n mem s : libs_ok self mprotect L -> flags_ok true L -> L <> [] -> so_revert_info s = ∅ -> image_ok self mprotect (mkPI L n mem mem s).
Proof.
  intros HL Hf Hne Hs. split; [|done]. split; [done|..]; cbn [pi_so pi_mem pi_orig]; [intros x i _ Hi|intros x a v _ (i & Hi & _)|done]; rewrite Hs in Hi; by apply lookup_empty_Some in Hi.
Qed.

Lemma image_reachable self mprotect p p' : image_ok self mprotect p -> rtc (image_step self mprotect false) p p' -> image_ok self mprotect p'.
Proof. intros H0 Hrun. induction Hrun as [|p1 p2 p3 H12 _ IH]; [done|]. by eapply IH, image_step_ok. Qed.

Lemma image_redirected self mprotect p a v : image_ok self mprotect p -> pi_mem p !! a = Some v -> pi_orig p !! a = Some v \/ hooked (so_overrides (pi_so p)) v.
Proof.
  intros [Hinv _] Ha. destruct (records_or_not (pi_so p) a (pi_libs p)) as [(x & u & Hx & Hr)|Hno].
  - destruct (oi_old _ _ _ _ _ _ Hinv x a u Hx Hr) as (_ & _ & w & Ew & Hh). right. congruence.
  - left. by rewrite <- (oi_mem _ _ _ _ _ _ Hinv a Hno).
Qed.

Lemma image_restored self mprotect p : image_ok self mprotect p ->
  restore_overrides mprotect (pi_so p) (map snd (pi_libs p)) (pi_mem p) = Some (set_revert (pi_so p) ∅, pi_orig p).
Proof.
  intros [Hinv _]. unfold restore_overrides. rewrite (restore_libraries_spec self mprotect (pi_libs p) (pi_libs p) (pi_so p) (pi_mem p) (pi_orig p) Hinv (fun x Hx => Hx) (pi_mem p)); [done|].
  apply (oi_mem _ _ _ _ _ _ Hinv).
Qed.

(** Overrides can be undone.  Whatever libraries are loaded and unloaded (none where one was that
    the overrides still remember, [reloaded_library_not_hooked]), however often the
    overrides are applied and updated and whatever the program writes to other words, every
    redirected word holds a hook whose reference function is known; and restoring is
    defined and gives every word the value it would have without overrides. *)
Theorem overrides_restored self mprotect L n mem s p :
  libs_ok self mprotect L -> flags_ok true L -> L <> [] -> so_revert_info s = ∅ -> rtc (image_step self mprotect false) (mkPI L n mem mem s) p ->
  (forall a v, pi_mem p !! a = Some v -> pi_orig p !! a = Some v \/ hooked (so_overrides (pi_so p)) v) /\
  restore_overrides mprotect (pi_so p) (map snd (pi_libs p)) (pi_mem p) = Some (set_revert (pi_so p) ∅, pi_orig p).
Proof.
  intros HL Hf Hne Hs Hrun. assert (Hp : image_ok self mprotect p) by (by eapply image_reachable; [apply image_start|]).
  split; [intros a v; by apply image_redirected with self mprotect|by apply image_restored with self].
Qed.

(** ** At work *)

(** An executable and a library that define and use [malloc] and [free]; another library that
    uses them is loaded later. *)
Definition demo_image : image :=
  mkImage (fun _ => demo_strtab) (fun _ => demo_hashtab) (fun _ => demo_symtab) (fun _ => []) (fun _ => [mkReloc 0x3000 (Z.shiftl 3 32 + 7); mkReloc 0x3008 (Z.shiftl 2 32 + 7)]).
Definition demo_dyn : list (Z * Z) :=
  [(DT_STRTAB, 0x100); (DT_STRSZ, 15); (DT_SYMTAB, 0x200); (DT_GNU_HASH, 0x300); (DT_JMPREL, 0x400); (DT_PLTRELSZ, 48); (DT_PLTREL, DT_RELA); (DT_NULL, 0)].
Definition demo_library (name : string) (base : Z) : Library := mkLib name base [mkPh PT_LOAD 5 0 0x4000; mkPh PT_DYNAMIC 6 0x500 128] (fun _ => demo_dyn) demo_image.

Definition demo_exe : Library := demo_library "" 0x550000000000.
Definition demo_libc : Library := demo_library "/lib/libc.so.6" 0x7f0000000000.
Definition demo_plugin : Library := demo_library "/lib/plugin.so" 0x7f1000000000.

Definition demo_overrides : SymbolOverrides :=
  snd (register_override (snd (register_override new_SymbolOverrides name_malloc 0x7e0000001000 0 0)) name_free 0x7e0000002000 0 0).

Definition demo_words (lib : Library) : gmap Z Z := {[lb_addr lib + 0x3000 := 0x11; lb_addr lib + 0x3008 := 0x22]}.
Definition demo_memory : gmap Z Z := demo_words demo_exe ∪ demo_words demo_libc.

Definition demo_loaded (with_plugin : bool) : list (bool * Library) := [(true, demo_exe); (false, demo_libc)] ++ if with_plugin then [(false, demo_plugin)] else [].

Lemma demo_slots x : x ∈ demo_loaded true -> lib_slots 0 x = [lb_addr (snd x) + 0x3000; lb_addr (snd x) + 0x3008].
Proof. intros Hx. repeat (apply elem_of_cons in Hx as [->|Hx]; [vm_compute; reflexivity|]). by apply not_elem_of_nil in Hx. Qed.

Lemma demo_libs_ok b : libs_ok 0 (fun _ => true) (demo_loaded b).
Proof.
  assert (Hin : forall x, x ∈ demo_loaded b -> x ∈ demo_loaded true) by (intros x; destruct b; [done|]; intros Hx; apply elem_of_app in Hx as [Hx|Hx]; [by apply elem_of_app; left|by apply not_elem_of_nil in Hx]).
  split; [|intros x y a Hx Hy|done].
  - apply (bool_decide_unpack _). destruct b; vm_compute; exact I.
  - rewrite !demo_slots by auto. intros Ha Hb. apply Hin in Hx, Hy.
    repeat (apply elem_of_cons in Hx as [->|Hx]); [..|by apply not_elem_of_nil in Hx]; (repeat (apply elem_of_cons in Hy as [->|Hy]); [..|by apply not_elem_of_nil in Hy]); try reflexivity;
      exfalso; repeat (apply elem_of_cons in Ha as [->|Ha]); try (by apply not_elem_of_nil in Ha); revert Hb; apply (bool_decide_unpack _); vm_compute; exact I.
Qed.

Lemma demo_words_new lib (m : gmap Z Z) : m !! (lb_addr lib + 0x3000) = None -> m !! (lb_addr lib + 0x3008) = None -> demo_words lib ##ₘ m.
Proof. intros H1 H2. apply map_disjoint_insert_l_2; [done|]. by apply map_disjoint_singleton_l_2. Qed.

Definition or_start (r : option (SymbolOverrides * gmap Z Z)) : SymbolOverrides * gmap Z Z := default (demo_overrides, ∅) r.
Definition demo_applied : SymbolOverrides * gmap Z Z := or_start (apply_overrides 0 (fun _ => true) demo_overrides (map snd (demo_loaded false)) 2 demo_memory).
Definition demo_updated : SymbolOverrides * gmap Z Z :=
  or_start (update_overrides 0 (fun _ => true) (fst demo_applied) (map snd (demo_loaded true)) 3 (demo_words demo_plugin ∪ snd demo_applied)).

Lemma or_start_Some r : bool_decide (is_Some r) = true -> r = Some (fst (or_start r), snd (or_start r)).
Proof. rewrite bool_decide_eq_true. intros [[s m] ->]. done. Qed.

Definition demo_end : process_image := mkPI (demo_loaded true) 3 (snd demo_updated) (demo_words demo_plugin ∪ demo_memory) (fst demo_updated).

Lemma demo_run : rtc (image_step 0 (fun _ => true) false) (mkPI (demo_loaded false) 2 demo_memory demo_memory demo_overrides) demo_end.
Proof.
  eapply rtc_l; [apply step_apply, or_start_Some; vm_compute; reflexivity|].
  eapply rtc_l; [apply (step_load 0 (fun _ => true) false (demo_loaded false) 2 _ demo_memory _ demo_plugin (demo_words demo_plugin))|].
  - apply (demo_libs_ok true).
  - intros [? H]. vm_compute in H. discriminate H.
  - apply demo_words_new; vm_compute; reflexivity.
  - apply demo_words_new; vm_compute; reflexivity.
  - eapply rtc_l; [apply step_update, or_start_Some; vm_compute; reflexivity|]. apply rtc_refl.
Qed.

Lemma overrides_restored_witness :
  pi_mem demo_end !! (lb_addr demo_plugin + 0x3000) = Some 0x7e0000001000 /\ pi_mem demo_end !! (lb_addr demo_libc + 0x3008) = Some 0x7e0000002000 /\
  restore_overrides (fun _ => true) (pi_so demo_end) (map snd (pi_libs demo_end)) (pi_mem demo_end) = Some (set_revert (pi_so demo_end) ∅, demo_words demo_plugin ∪ demo_memory).
Proof.
  split; [vm_compute; reflexivity|]. split; [vm_compute; reflexivity|].
  apply (overrides_restored 0 (fun _ => true) (demo_loaded false) 2 demo_memory demo_overrides demo_end).
  - apply (demo_libs_ok false).
  - repeat split.
  - discriminate.
  - reflexivity.
  - exact demo_run.
Defined.

(** ** Divergences *)

(** A library that is unloaded, and another one that is loaded at its address before the next
    update: the new one is taken for the old one and is not hooked. *)
Example reloaded_library_not_hooked :
  (let? (s, mem) := apply_overrides 0 (fun _ => true) demo_overrides [demo_exe; demo_library "/lib/old.so" 0x7f1000000000] 2 (demo_words demo_exe ∪ demo_words demo_plugin) in
   let? (s, mem) := update_overrides 0 (fun _ => true) s [demo_exe; demo_plugin] 3 (demo_words demo_plugin ∪ mem) in
   mem !! (lb_addr demo_plugin + 0x3000)) = Some 0x11.
Proof. vm_compute. reflexivity. Qed.

(** A word whose page could not be made writable is recorded as if it had been redirected, and
    restoring writes to the page without making it writable. *)
Example restore_of_protected_page :
  (let? (s, mem) := apply_overrides 0 (fun _ => false) demo_overrides [demo_exe] 1 (demo_words demo_exe) in
   Some (bool_decide (mem = demo_words demo_exe), restore_overrides (fun _ => false) s [demo_exe] mem)) = Some (true, None).
Proof. vm_compute. reflexivity. Qed.
