(* ===== verification/Sha256.v ===== *)
(** * SHA-256

    Model of [src/lib/sha256.c], with which the loader names the file of the profiling library:
    the transformation of a block, the loop over the blocks, the padding in a buffer of one
    block, and the text of a digest.  The theorem compares it with the function of FIPS 180-4:
    the message is padded first, then cut into blocks. *)

From S2P Require Import Prelude ElfModule.

(** ** The code *)

(** The table, in the rows of the source. *)
Definition k_sha256_k : list Z :=
  concat [
    [0x428a2f98; 0x71374491; 0xb5c0fbcf; 0xe9b5dba5; 0x3956c25b; 0x59f111f1];
    [0x923f82a4; 0xab1c5ed5; 0xd807aa98; 0x12835b01; 0x243185be; 0x550c7dc3];
    [0x72be5d74; 0x80deb1fe; 0x9bdc06a7; 0xc19bf174; 0xe49b69c1; 0xefbe4786];
    [0x0fc19dc6; 0x240ca1cc; 0x2de92c6f; 0x4a7484aa; 0x5cb0a9dc; 0x76f988da];
    [0x983e5152; 0xa831c66d; 0xb00327c8; 0xbf597fc7; 0xc6e00bf3; 0xd5a79147];
    [0x06ca6351; 0x14292967; 0x27b70a85; 0x2e1b2138; 0x4d2c6dfc; 0x53380d13];
    [0x650a7354; 0x766a0abb; 0x81c2c92e; 0x92722c85; 0xa2bfe8a1; 0xa81a664b];
    [0xc24b8b70; 0xc76c51a3; 0xd192e819; 0xd6990624; 0xf40e3585; 0x106aa070];
    [0x19a4c116; 0x1e376c08; 0x2748774c; 0x34b0bcb5; 0x391c0cb3; 0x4ed8aa4a];
    [0x5b9cca4f; 0x682e6ff3; 0x748f82ee; 0x78a5636f; 0x84c87814; 0x8cc70208];
    [0x90befffa; 0xa4506ceb; 0xbef9a3f7; 0xc67178f2]].

Definition RR (x n : Z) : Z := Z.lor (Z.shiftr x n) (u32 (Z.shiftl x (32 - n))).
Definition S0 (x : Z) : Z := Z.lxor (Z.lxor (RR x 2) (RR x 13)) (RR x 22).
Definition S1 (x : Z) : Z := Z.lxor (Z.lxor (RR x 6) (RR x 11)) (RR x 25).
Definition s0 (x : Z) : Z := Z.lxor (Z.lxor (RR x 7) (RR x 18)) (Z.shiftr x 3).
Definition s1 (x : Z) : Z := Z.lxor (Z.lxor (RR x 17) (RR x 19)) (Z.shiftr x 10).
Definition CH (x y z : Z) : Z := Z.lxor (Z.land x y) (Z.land (Z.lxor x (2 ^ 32 - 1)) z).
Definition MAJ (x y z : Z) : Z := Z.lxor (Z.lxor (Z.land x y) (Z.land x z)) (Z.land y z).

Record state := mkState { sa : Z; sb : Z; sc : Z; sd : Z; se : Z; sf : Z; sg : Z; sh : Z }.

(** Element [i] of an array that is large enough. *)
Definition nthz (l : list Z) (i : nat) : Z := nth i l 0.

Definition block_word (block : list Z) (i : nat) : Z :=
  Z.lor (Z.lor (Z.lor (Z.shiftl (nthz block (i * 4)) 24) (Z.shiftl (nthz block (i * 4 + 1)) 16)) (Z.shiftl (nthz block (i * 4 + 2)) 8)) (nthz block (i * 4 + 3)).

(** [w[i]] for [i] from 16 on, appended to those before. *)
Fixpoint extend_words (n : nat) (w : list Z) : list Z :=
  match n with
  | O => w
  | S n' =>
      let i := length w in
      extend_words n' (w ++ [u32 (s1 (nthz w (i - 2)) + nthz w (i - 7) + s0 (nthz w (i - 15)) + nthz w (i - 16))])
  end.

Definition message_words (block : list Z) : list Z := extend_words 48 (map (block_word block) (seq 0 16)).

Definition round (w : list Z) (s : state) (i : nat) : state :=
  let t1 := u32 (sh s + S1 (se s) + CH (se s) (sf s) (sg s) + nthz k_sha256_k i + nthz w i) in
  let t2 := u32 (S0 (sa s) + MAJ (sa s) (sb s) (sc s)) in
  mkState (u32 (t1 + t2)) (sa s) (sb s) (sc s) (u32 (sd s + t1)) (se s) (sf s) (sg s).

Definition add_state (s r : state) : state :=
  mkState (u32 (sa s + sa r)) (u32 (sb s + sb r)) (u32 (sc s + sc r)) (u32 (sd s + sd r))
          (u32 (se s + se r)) (u32 (sf s + sf r)) (u32 (sg s + sg r)) (u32 (sh s + sh r)).

Definition sha256_transform (s : state) (block : list Z) : state := add_state s (foldl (round (message_words block)) s (seq 0 64)).

Definition initial_state : state :=
  mkState 0x6a09e667 0xbb67ae85 0x3c6ef372 0xa54ff53a 0x510e527f 0x9b05688c 0x1f83d9ab 0x5be0cd19.

(** The loop over whole blocks: the state, and what is left of the data. *)
Fixpoint whole_blocks (fuel : nat) (s : state) (data : list Z) : state * list Z :=
  match fuel with
  | O => (s, data)
  | S f => if (64 <=? length data)%nat then whole_blocks f (sha256_transform s (take 64 data)) (drop 64 data) else (s, data)
  end.

(** Bytes written in a buffer. *)
Definition splice (off : nat) (bytes buf : list Z) : list Z := take off buf ++ bytes ++ drop (off + length bytes) buf.

Definition be_bytes (n : nat) (x : Z) : list Z := map (fun j => Z.land (Z.shiftr x (8 * Z.of_nat (n - 1 - j))) 0xff) (seq 0 n).

Definition state_words (s : state) : list Z := [sa s; sb s; sc s; sd s; se s; sf s; sg s; sh s].

(** [junk] is what the buffer of the last blocks holds before it is written. *)
Definition sha256 (junk data : list Z) : list Z :=
  let len := length data in
  let '(s, rest) := whole_blocks (S len) initial_state data in
  let rem := length rest in
  let block := splice 0 rest junk in
  let block := splice rem [0x80] block in
  let rem := S rem in
  let '(s, block, rem) :=
    if (56 <? rem)%nat then
      let block := splice rem (repeat 0 (64 - rem)) block in (sha256_transform s block, block, 0%nat)
    else (s, block, rem) in
  let block := splice rem (repeat 0 (56 - rem)) block in
  let bits := Z.of_nat len *w 8 in
  let block := splice 56 (be_bytes 8 bits) block in
  concat (map (be_bytes 4) (state_words (sha256_transform s block))).

Definition hex_chars : string := "0123456789abcdef".
Definition hex_char (i : Z) : Ascii.ascii := default Ascii.zero (String.get (Z.to_nat i) hex_chars).

(** Without the final null character. *)
Fixpoint sha256_hex (hash : list Z) : string :=
  match hash with
  | [] => EmptyString
  | b :: hash' => String (hex_char (Z.shiftr b 4)) (String (hex_char (Z.land b 0xf)) (sha256_hex hash'))
  end.

(** ** FIPS 180-4 *)

(** 4.2.2 and 5.3.3: the first 32 bits of the fractional parts of the cube roots of the first 64 primes, and of
    the square roots of the first 8. *)
Definition is_prime (n : Z) : bool := forallb (fun d => negb (n mod d =? 0)) (seqZ 2 (n - 2)).
Definition primes : list Z := List.filter is_prime (seqZ 2 310).

(** The largest integer whose cube is at most [n], bit by bit from [2 ^ bits]. *)
Fixpoint cube_root (bits : nat) (n r : Z) : Z :=
  match bits with
  | O => r
  | S b => let r' := r + 2 ^ Z.of_nat b in cube_root b n (if r' ^ 3 <=? n then r' else r)
  end.

Definition fips_K : list Z := map (fun p => cube_root 64 (p * 2 ^ 96) 0 mod 2 ^ 32) primes.
Definition fips_H : list Z := map (fun p => Z.sqrt (p * 2 ^ 64) mod 2 ^ 32) (take 8 primes).
Definition fips_initial : state :=
  mkState (nthz fips_H 0) (nthz fips_H 1) (nthz fips_H 2) (nthz fips_H 3) (nthz fips_H 4) (nthz fips_H 5) (nthz fips_H 6) (nthz fips_H 7).

(** 6.2.2: the message schedule, by its recursive definition (the fuel exceeds the index), and
    the rounds over it. *)
Fixpoint W (fuel : nat) (block : list Z) (t : nat) : Z :=
  match fuel with
  | O => 0
  | S f =>
      if (t <? 16)%nat then block_word block t
      else u32 (s1 (W f block (t - 2)) + W f block (t - 7) + s0 (W f block (t - 15)) + W f block (t - 16))
  end.

Definition fips_round (block : list Z) (s : state) (t : nat) : state :=
  let t1 := u32 (sh s + S1 (se s) + CH (se s) (sf s) (sg s) + nthz fips_K t + W 64 block t) in
  let t2 := u32 (S0 (sa s) + MAJ (sa s) (sb s) (sc s)) in
  mkState (u32 (t1 + t2)) (sa s) (sb s) (sc s) (u32 (sd s + t1)) (se s) (sf s) (sg s).

Definition fips_compress (s : state) (block : list Z) : state := add_state s (foldl (fips_round block) s (seq 0 64)).

(** 5.1.1: the message, a one bit, zeros and the number of bits; 5.2.1: blocks of 64 bytes. *)
Definition fips_pad (data : list Z) : list Z :=
  data ++ [0x80] ++ repeat 0 ((119 - length data mod 64) mod 64)%nat ++ be_bytes 8 (8 * Z.of_nat (length data)).

Fixpoint fips_blocks (n : nat) (data : list Z) : list (list Z) :=
  match n with O => [] | S n' => take 64 data :: fips_blocks n' (drop 64 data) end.

Definition fips_sha256 (data : list Z) : list Z :=
  let padded := fips_pad data in
  concat (map (be_bytes 4) (state_words (foldl fips_compress fips_initial (fips_blocks (length padded / 64) padded)))).

(** ** Theorems *)

Lemma cube_root_spec bits n r : 0 <= r -> r ^ 3 <= n < (r + 2 ^ Z.of_nat bits) ^ 3 -> cube_root bits n r ^ 3 <= n < (cube_root bits n r + 1) ^ 3.
Proof.
  revert r. induction bits as [|b IH]; intros r Hr Hn; [by rewrite Z.pow_0_r in Hn|]. cbn [cube_root]. cbv zeta. rewrite Nat2Z.inj_succ, Z.pow_succ_r in Hn by lia. pose proof (Z.pow_pos_nonneg 2 (Z.of_nat b)).
  destruct (Z.leb_spec ((r + 2 ^ Z.of_nat b) ^ 3) n); apply IH; [lia| |lia|lia]. split; [done|]. replace (r + 2 ^ Z.of_nat b + 2 ^ Z.of_nat b) with (r + 2 * 2 ^ Z.of_nat b) by lia. lia.
Qed.

(** The list has the 64 primes, and the roots are computed exactly. *)
Lemma fips_K_roots : length primes = 64%nat /\ Forall (fun p => let r := cube_root 64 (p * 2 ^ 96) 0 in r ^ 3 <= p * 2 ^ 96 < (r + 1) ^ 3) primes.
Proof.
  split; [vm_compute; reflexivity|]. apply Forall_forall. intros p Hp. cbv zeta. apply cube_root_spec; [lia|]. assert (Hr : 2 <= p < 312) by (apply list_elem_of_In, List.filter_In in Hp as [Hp _]; apply list_elem_of_In, elem_of_seqZ in Hp; lia).
  change (Z.of_nat 64) with 64. rewrite Z.add_0_l, <- Z.pow_mul_r by lia. change (2 ^ (64 * 3)) with (2 ^ 96 * 2 ^ 96). lia.
Qed.

(** The constants of the code are those of the standard. *)
Lemma constants_are_fips : k_sha256_k = fips_K /\ initial_state = fips_initial.
Proof. split; vm_compute; reflexivity. Qed.

Lemma nthz_app_l w x i : (i < length w)%nat -> nthz (w ++ x) i = nthz w i.
Proof. apply app_nth1. Qed.

Lemma W_fuel block t : forall f f', (t < f)%nat -> (t < f')%nat -> W f block t = W f' block t.
Proof.
  induction t as [t IH] using lt_wf_ind. intros [|f] [|f'] Hf Hf'; [lia..|]. cbn [W]. destruct (Nat.ltb_spec t 16); [done|].
  rewrite (IH (t - 2)%nat ltac:(lia) f f'), (IH (t - 7)%nat ltac:(lia) f f'), (IH (t - 15)%nat ltac:(lia) f f'), (IH (t - 16)%nat ltac:(lia) f f') by lia. done.
Qed.

Lemma W_S f block t : W (S f) block t =
  if (t <? 16)%nat then block_word block t else u32 (s1 (W f block (t - 2)) + W f block (t - 7) + s0 (W f block (t - 15)) + W f block (t - 16)).
Proof. reflexivity. Qed.

#[local] Opaque W.

Lemma W_step block t : (16 <= t < 64)%nat -> W 64 block t = u32 (s1 (W 64 block (t - 2)) + W 64 block (t - 7) + s0 (W 64 block (t - 15)) + W 64 block (t - 16)).
Proof.
  intros Ht. rewrite (W_S 63 block t). destruct (Nat.ltb_spec t 16); [lia|].
  rewrite (W_fuel block (t - 2) 63 64), (W_fuel block (t - 7) 63 64), (W_fuel block (t - 15) 63 64), (W_fuel block (t - 16) 63 64) by lia. done.
Qed.

(** The words computed so far are those of the schedule. *)
Definition words_of (block w : list Z) : Prop := forall t, (t < length w)%nat -> nthz w t = W 64 block t.

Lemma extend_words_spec block n w : (16 <= length w)%nat -> (length w + n <= 64)%nat -> words_of block w ->
  length (extend_words n w) = (length w + n)%nat /\ words_of block (extend_words n w).
Proof.
  revert w. induction n as [|n IH]; intros w H16 H64 Hw; [cbn; split; [lia|done]|]. cbn [extend_words]. set (x := u32 _).
  destruct (IH (w ++ [x])) as [H1 H2]; [rewrite length_app; cbn; lia..| |rewrite H1, length_app; cbn; split; [lia|done]].
  intros t Ht. rewrite length_app in Ht. cbn in Ht. destruct (decide (t < length w)%nat) as [Hlt|Hge]; [rewrite nthz_app_l by done; by apply Hw|].
  assert (t = length w) as -> by lia. unfold nthz at 1. rewrite app_nth2, Nat.sub_diag by lia. cbn [nth]. unfold x.
  rewrite (Hw (length w - 2)%nat), (Hw (length w - 7)%nat), (Hw (length w - 15)%nat), (Hw (length w - 16)%nat) by lia.
  symmetry. apply W_step. lia.
Qed.

Lemma message_words_spec block t : (t < 64)%nat -> nthz (message_words block) t = W 64 block t.
Proof.
  intros Ht. destruct (extend_words_spec block 48 (map (block_word block) (seq 0 16))) as [Hl Hw]; [cbn; lia..| |apply Hw; rewrite Hl; cbn; lia].
  intros i Hi. rewrite length_map, length_seq in Hi. unfold nthz. rewrite (nth_indep _ 0 (block_word block 0)) by (rewrite length_map, length_seq; lia).
  rewrite map_nth, seq_nth by lia. rewrite (W_S 63). by destruct (Nat.ltb_spec i 16); [|lia].
Qed.

Lemma transform_compress s block : sha256_transform s block = fips_compress s block.
Proof.
  unfold sha256_transform, fips_compress. apply (f_equal (add_state s)). assert (H : forall n m s, (n + m <= 64)%nat -> foldl (round (message_words block)) s (seq n m) = foldl (fips_round block) s (seq n m)).
  { intros n m. revert n. induction m as [|m IH]; intros n s' Hn; [done|]. cbn [seq foldl]. unfold round at 2, fips_round at 2. rewrite message_words_spec, (proj1 constants_are_fips) by lia. apply IH. lia. }
  apply H. lia.
Qed.

(** *** Blocks *)

Lemma whole_blocks_spec fuel s data : (length data < 64 * fuel)%nat ->
  whole_blocks fuel s data = (foldl sha256_transform s (fips_blocks (length data / 64) data), drop (length data / 64 * 64) data).
Proof.
  revert s data. induction fuel as [|f IH]; intros s data Hf; [lia|]. cbn [whole_blocks]. destruct (Nat.leb_spec 64 (length data)) as [H|H].
  - rewrite IH by (rewrite length_drop; lia). rewrite length_drop. assert (E : (length data / 64 = S ((length data - 64) / 64))%nat).
    { replace (length data) with ((length data - 64) + 1 * 64)%nat at 1 by lia. rewrite Nat.div_add by lia. lia. }
    rewrite E. cbn [fips_blocks foldl]. f_equal. by rewrite drop_drop.
  - rewrite Nat.div_small by done. done.
Qed.

Lemma fips_blocks_app n x y : length x = (64 * n)%nat -> forall m, fips_blocks (n + m) (x ++ y) = fips_blocks n x ++ fips_blocks m y.
Proof.
  revert x. induction n as [|n IH]; intros x Hx m; [by destruct x|]. cbn [Nat.add fips_blocks app]. rewrite take_app_le, drop_app_le by lia. f_equal.
  apply IH. rewrite length_drop. lia.
Qed.

Lemma fips_blocks_take n x : fips_blocks n (take (64 * n) x) = fips_blocks n x.
Proof.
  revert x. induction n as [|n IH]; intros x; [done|]. cbn [fips_blocks]. rewrite take_take. f_equal; [f_equal; lia|]. rewrite skipn_firstn_comm.
  replace (64 * S n - 64)%nat with (64 * n)%nat by lia. apply IH.
Qed.

(** *** The buffer *)

Lemma splice_grow pre bytes buf : splice (length pre) bytes (pre ++ drop (length pre) buf) = (pre ++ bytes) ++ drop (length (pre ++ bytes)) buf.
Proof.
  unfold splice. rewrite take_app_length, <- app_assoc, length_app. f_equal. f_equal. rewrite <- drop_drop, drop_app_length, drop_drop. done.
Qed.

Lemma splice_0 bytes buf : splice 0 bytes buf = bytes ++ drop (length bytes) buf.
Proof. reflexivity. Qed.

Lemma be_bytes_length n x : length (be_bytes n x) = n.
Proof. unfold be_bytes. by rewrite length_map, length_seq. Qed.

(** The last blocks. *)
Definition last_blocks (rest : list Z) (bits : Z) : list (list Z) :=
  if (56 <? S (length rest))%nat then [rest ++ [0x80] ++ repeat 0 (63 - length rest); repeat 0 56 ++ be_bytes 8 bits]
  else [rest ++ [0x80] ++ repeat 0 (55 - length rest) ++ be_bytes 8 bits].

Lemma full_buffer (x buf : list Z) : length x = 64%nat -> length buf = 64%nat -> x ++ drop (length x) buf = x.
Proof. intros Hx Hb. rewrite drop_ge by lia. apply app_nil_r. Qed.

Lemma sha256_blocks junk data : length junk = 64%nat ->
  let q := (length data / 64)%nat in
  sha256 junk data = concat (map (be_bytes 4) (state_words (foldl sha256_transform initial_state
    (fips_blocks q data ++ last_blocks (drop (q * 64) data) (Z.of_nat (length data) *w 8))))).
Proof.
  intros Hj q. unfold sha256. rewrite whole_blocks_spec by lia. fold q. set (rest := drop (q * 64) data). set (bits := Z.of_nat (length data) *w 8). set (st := foldl _ _ (fips_blocks q data)).
  assert (Hr : (length rest < 64)%nat) by (unfold rest, q; rewrite length_drop; pose proof (Nat.div_mod_eq (length data) 64); pose proof (Nat.mod_upper_bound (length data) 64); lia).
  rewrite foldl_app. fold st. unfold last_blocks.
  assert (E1 : splice (length rest) [0x80] (splice 0 rest junk) = (rest ++ [0x80]) ++ drop (length (rest ++ [0x80])) junk).
  { rewrite splice_0. apply (splice_grow rest [0x80] junk). }
  assert (Hlen : S (length rest) = length (rest ++ [0x80])) by (rewrite length_app; cbn; lia).
  rewrite E1, Hlen. destruct (Nat.ltb_spec 56 (length (rest ++ [0x80]))) as [H|H]; cbn [foldl].
  - rewrite splice_grow. set (b1 := (rest ++ [0x80]) ++ repeat 0 (64 - length (rest ++ [0x80]))).
    assert (Hb1 : length b1 = 64%nat) by (unfold b1; rewrite length_app, repeat_length; lia). rewrite full_buffer by done.
    rewrite splice_0. change (splice 56) with (splice (length (repeat 0 (56 - 0)))). rewrite splice_grow, full_buffer; [|rewrite length_app, be_bytes_length, repeat_length; lia|done].
    unfold b1. rewrite <- app_assoc. rewrite <- Hlen. done.
  - rewrite splice_grow. set (pre := (rest ++ [0x80]) ++ repeat 0 (56 - length (rest ++ [0x80]))).
    assert (Hp : length pre = 56%nat) by (unfold pre; rewrite length_app, repeat_length; lia). rewrite <- Hp at 1. rewrite splice_grow, full_buffer; [|rewrite length_app, be_bytes_length; lia|done].
    unfold pre. rewrite <- !app_assoc, <- Hlen. done.
Qed.

Lemma last_blocks_pad data : let q := (length data / 64)%nat in
  fips_blocks (length (fips_pad data) / 64) (fips_pad data) = fips_blocks q data ++ last_blocks (drop (q * 64) data) (8 * Z.of_nat (length data)).
Proof.
  intros q. set (rest := drop (q * 64) data). set (bits := 8 * Z.of_nat (length data)).
  pose proof (Nat.div_mod_eq (length data) 64) as Hdm. pose proof (Nat.mod_upper_bound (length data) 64 ltac:(lia)) as Hm. fold q in Hdm.
  assert (Hr : length rest = (length data mod 64)%nat) by (unfold rest; rewrite length_drop; lia).
  assert (Epad : fips_pad data = take (64 * q) data ++ rest ++ [0x80] ++ repeat 0 ((119 - length rest) mod 64)%nat ++ be_bytes 8 bits).
  { unfold fips_pad. rewrite Hr. unfold rest. rewrite (Nat.mul_comm q 64). by rewrite (app_assoc (take _ _)), take_drop. }
  assert (Hx : length (take (64 * q) data) = (64 * q)%nat) by (rewrite length_take; lia).
  rewrite Epad. unfold last_blocks. destruct (Nat.ltb_spec 56 (S (length rest))) as [H|H].
  - replace ((119 - length rest) mod 64)%nat with (63 - length rest + 56)%nat by (rewrite Nat.mod_small; lia). rewrite repeat_app.
    rewrite (length_app (take _ _)), Hx. rewrite !length_app, !repeat_length, be_bytes_length. cbn [length].
    replace ((64 * q + (length rest + (1 + (63 - length rest + 56 + 8)))) / 64)%nat with (q + 2)%nat
      by (replace (64 * q + (length rest + (1 + (63 - length rest + 56 + 8))))%nat with ((q + 2) * 64)%nat by lia; by rewrite Nat.div_mul).
    rewrite fips_blocks_app by done. f_equal; [apply fips_blocks_take|].
    replace (rest ++ [0x80] ++ (repeat 0 (63 - length rest) ++ repeat 0 56) ++ be_bytes 8 bits) with
      ((rest ++ [0x80] ++ repeat 0 (63 - length rest)) ++ (repeat 0 56 ++ be_bytes 8 bits)) by (by rewrite !app_assoc).
    set (b1 := rest ++ [0x80] ++ repeat 0 (63 - length rest)). set (b2 := repeat 0 56 ++ be_bytes 8 bits).
    assert (H1 : length b1 = 64%nat) by (unfold b1; rewrite !length_app, repeat_length; cbn [length]; lia).
    assert (H2 : length b2 = 64%nat) by (unfold b2; rewrite length_app, repeat_length, be_bytes_length; lia).
    cbn [fips_blocks]. rewrite take_app_le, drop_app_ge, H1, Nat.sub_diag by lia. rewrite (take_ge b1), drop_0, take_ge by lia. done.
  - replace ((119 - length rest) mod 64)%nat with (55 - length rest)%nat
      by (replace (119 - length rest)%nat with ((55 - length rest) + 1 * 64)%nat by lia; rewrite Nat.Div0.mod_add, Nat.mod_small; lia).
    set (b := rest ++ [0x80] ++ repeat 0 (55 - length rest) ++ be_bytes 8 bits).
    assert (Hb : length b = 64%nat) by (unfold b; rewrite !length_app, repeat_length, be_bytes_length; cbn [length]; lia).
    rewrite length_app, Hx, Hb. replace ((64 * q + 64) / 64)%nat with (q + 1)%nat by (replace (64 * q + 64)%nat with ((q + 1) * 64)%nat by lia; by rewrite Nat.div_mul).
    rewrite fips_blocks_app by done. f_equal; [apply fips_blocks_take|]. cbn [fips_blocks]. by rewrite take_ge by lia.
Qed.

Lemma foldl_compress l s : foldl sha256_transform s l = foldl fips_compress s l.
Proof. revert s. induction l as [|b l IH]; intros s; cbn [foldl]; [done|]. rewrite transform_compress. apply IH. Qed.

(** C37: The digest is that of FIPS 180-4: for all data of fewer than 2^61 bytes, whatever the
    buffer of the last block held before, hashing block by block with the padding made in the
    buffer gives the digest of the padded message, with the recursive message schedule and the constants
    computed from the roots of the primes. *)
Theorem sha256_is_fips junk data : length junk = 64%nat -> Z.of_nat (length data) < 2 ^ 61 -> sha256 junk data = fips_sha256 data.
Proof.
  intros Hj Hd. rewrite sha256_blocks by done. unfold fips_sha256. rewrite last_blocks_pad, foldl_compress, <- (proj2 constants_are_fips).
  replace (Z.of_nat (length data) *w 8) with (8 * Z.of_nat (length data)) by (rewrite Z.mul_comm, u64_small; [done|unfold is_u64; lia]). done.
Qed.

(** The text of a digest has the digits of a build id. *)
Lemma sha256_hex_format hash : Forall (fun b => 0 <= b < 256) hash -> sha256_hex hash = format_build_id hash.
Proof.
  induction 1 as [|b hash Hb _ IH]; [done|]. cbn [sha256_hex format_build_id]. rewrite IH.
  assert (Hd : forall c, 0 <= c < 16 -> hex_char c = int_to_hex_digit c).
  { intros c Hc. assert (Hin : c ∈ seqZ 0 16) by (apply elem_of_seqZ; lia). clear -Hin. revert c Hin. apply Forall_forall. vm_compute. repeat constructor. }
  rewrite !Hd; [done|..].
  - apply (land_mask_bound b 4). lia.
  - rewrite Z.shiftr_div_pow2 by lia. split; [apply Z.div_pos; lia|apply Z.div_lt_upper_bound; lia].
Qed.

(** The digests of the standard's examples. *)
Example sha256_of_abc : sha256_hex (sha256 (repeat 0xee 64) [97; 98; 99]) = "ba7816bf8f01cfea414140de5dae2223b00361a396177a9cb410ff61f20015ad"%string.
Proof. vm_compute. reflexivity. Qed.

Lemma sha256_is_fips_witness : fips_sha256 (repeat 97 56) = sha256 (repeat 0xee 64) (repeat 97 56) /\
  sha256_hex (fips_sha256 []) = "e3b0c44298fc1c149afbf4c8996fb92427ae41e4649b934ca495991b7852b855"%string.
Proof.
  split.
  - symmetry. apply (sha256_is_fips (repeat 0xee 64) (repeat 97 56)); reflexivity.
  - rewrite <- (sha256_is_fips (repeat 0xee 64) []) by reflexivity. vm_compute. reflexivity.
Defined.
