(* ===== verification/CpuMask.v ===== *)
(** * CPU masks

    Model of [src/ddprof_cpumask.cc]: the set of CPUs on which the profiler runs, as a text of
    hexadecimal digits.  A [cpu_set_t] is a number of 1024 bits; [CPU_SET] of a CPU that it
    cannot hold does nothing. *)

From Stdlib Require Import Ascii.
From S2P Require Import Prelude ElfModule.

Definition CPU_SETSIZE : Z := 1024.

Definition CPU_SET (cpu mask : Z) : Z := if (0 <=? cpu) && (cpu <? CPU_SETSIZE) then Z.setbit mask cpu else mask.
Definition CPU_ISSET (cpu mask : Z) : bool := (0 <=? cpu) && (cpu <? CPU_SETSIZE) && Z.testbit mask cpu.

Definition char_code (c : ascii) : Z := Z.of_nat (nat_of_ascii c).

(** The value of a digit. *)
Definition mask_digit (c : ascii) : option Z :=
  let n := char_code c in
  if (48 <=? n) && (n <=? 57) then Some (n - 48)
  else if (65 <=? n) && (n <=? 70) then Some (n - 65 + 10)
  else if (97 <=? n) && (n <=? 102) then Some (n - 97 + 10)
  else None.

Definition set_bits (v cpu_idx mask : Z) : Z :=
  foldl (fun mask bitpos => if Z.testbit v bitpos then CPU_SET (cpu_idx + bitpos) mask else mask) mask [0; 1; 2; 3].

(** The digits, the last one first. *)
Fixpoint parse_digits (cs : list ascii) (cpu_idx mask : Z) : bool * Z :=
  match cs with
  | [] => (true, mask)
  | c :: cs' =>
      if Ascii.eqb c "," then parse_digits cs' cpu_idx mask
      else
        match mask_digit c with
        | None => (false, mask)
        | Some v => parse_digits cs' (cpu_idx + 4) (set_bits v cpu_idx mask)
        end
  end.

(** Whether the text is a mask, and the CPUs that were set. *)
Definition parse_cpu_mask (s : string) : bool * Z :=
  let s := if String.prefix "0x" s then String.substring 2 (String.length s - 2) s else s in
  parse_digits (rev (String.list_ascii_of_string s)) 0 0.

Definition nibble (cpu_idx mask : Z) : Z :=
  foldl (fun v bitpos => if CPU_ISSET (cpu_idx + bitpos) mask then Z.lor v (Z.shiftl 1 bitpos) else v) 0 [0; 1; 2; 3].

Definition digit_char (v : Z) : ascii := ascii_of_nat (Z.to_nat (if 10 <=? v then v - 10 + 97 else v + 48)).

(** The digits from number [n - 1] down; those before the first that is not 0 are left out. *)
Fixpoint print_digits (n : nat) (mask : Z) (one_cpu_set : bool) : list ascii :=
  match n with
  | O => []
  | S n' =>
      let v := nibble (4 * Z.of_nat n') mask in
      if one_cpu_set || negb (v =? 0) then digit_char v :: print_digits n' mask true else print_digits n' mask false
  end.

Definition cpu_mask_to_string (mask : Z) : string := String.string_of_list_ascii (print_digits 256 mask false).

(** The directories of the CPUs; [None]: the directory cannot be read, and [nprocs] is what the
    library says. *)
Definition is_cpu_dir (is_dir : bool) (name : string) : bool :=
  is_dir && String.prefix "cpu" name &&
  match String.get 3 name with Some c => (48 <=? char_code c) && (char_code c <=? 57) | None => false end.

Definition nprocessors_conf (dir : option (list (bool * string))) (nprocs : Z) : Z :=
  let n := match dir with Some es => Z.of_nat (length (List.filter (fun e => is_cpu_dir (fst e) (snd e)) es)) | None => nprocs end in
  if n =? 0 then 1 else n.

(** ** Theorems *)

(** A number that fits has none of the bits above. *)
Lemma testbit_small v w k : 0 <= v < 2 ^ w -> w <= k -> Z.testbit v k = false.
Proof.
  intros Hv Hk. destruct (decide (v = 0)) as [->|]; [apply Z.testbit_0_l|].
  apply Z.bits_above_log2; [lia|]. apply Z.lt_le_trans with w; [apply Z.log2_lt_pow2; lia|done].
Qed.

Lemma testbit_CPU_SET (b : bool) (m k n : Z) : 0 <= k < CPU_SETSIZE -> Z.testbit (if b then CPU_SET k m else m) n = Z.testbit m n || (b && (k =? n)).
Proof.
  intros Hk. destruct b; cbn [andb]; [|by rewrite orb_false_r]. unfold CPU_SET.
  replace ((0 <=? k) && (k <? CPU_SETSIZE)) with true by (symmetry; rewrite andb_true_iff, Z.leb_le, Z.ltb_lt; lia).
  rewrite Z.setbit_eqb by lia. apply orb_comm.
Qed.

Lemma set_bits_lor v idx mask : 0 <= v < 16 -> 0 <= idx -> idx + 4 <= CPU_SETSIZE -> set_bits v idx mask = Z.lor mask (Z.shiftl v idx).
Proof.
  intros Hv Hi Hs. apply Z.bits_inj'. intros n Hn. rewrite Z.lor_spec, Z.shiftl_spec by lia.
  unfold set_bits. cbn [foldl]. rewrite !testbit_CPU_SET by lia. rewrite <- !orb_assoc. f_equal.
  destruct (decide (idx <= n < idx + 4)) as [Hr|Hr].
  - assert (Hc : n = idx + 0 \/ n = idx + 1 \/ n = idx + 2 \/ n = idx + 3) by lia.
    destruct Hc as [-> | [-> | [-> | ->]]]; rewrite Z.add_simpl_l, Z.eqb_refl, andb_true_r;
      repeat match goal with |- context [idx + ?a =? idx + ?b] => replace (idx + a =? idx + b) with false by (symmetry; apply Z.eqb_neq; lia) end;
      rewrite ?andb_false_r, ?orb_false_r; reflexivity.
  - replace (Z.testbit v (n - idx)) with false.
    + rewrite !(proj2 (Z.eqb_neq _ _)) by lia. by rewrite !andb_false_r.
    + symmetry. destruct (decide (n < idx)); [apply Z.testbit_neg_r; lia|]. apply (testbit_small v 4); [done|lia].
Qed.

Lemma nibble_mod idx m : 0 <= idx -> idx + 4 <= CPU_SETSIZE -> nibble idx m = (m / 2 ^ idx) mod 16.
Proof.
  intros Hi Hs. set (w := m / 2 ^ idx). unfold nibble. cbn [foldl].
  assert (Hb : forall k, 0 <= k < 4 -> CPU_ISSET (idx + k) m = Z.testbit (w mod 16) k).
  { intros k Hk. unfold CPU_ISSET. replace ((0 <=? idx + k) && (idx + k <? CPU_SETSIZE)) with true by (symmetry; rewrite andb_true_iff, Z.leb_le, Z.ltb_lt; lia).
    cbn [andb]. change 16 with (2 ^ 4). rewrite Z.mod_pow2_bits_low by lia. unfold w. rewrite Z.div_pow2_bits by lia. f_equal. lia. }
  rewrite !Hb by lia. pose proof (Z.mod_pos_bound w 16 ltac:(lia)) as Hu. generalize dependent (w mod 16). intros u _ Hu.
  each_digit u; reflexivity.
Qed.

(** The text of a digit is read back. *)
Lemma digit_char_spec v : 0 <= v < 16 -> Ascii.eqb (digit_char v) "," = false /\ mask_digit (digit_char v) = Some v.
Proof. intros Hv. each_digit v; split; reflexivity. Qed.

(** One more digit of a number. *)
Lemma mod_next_digit m (k : Z) : 0 <= k -> Z.lor (m mod 2 ^ k) (Z.shiftl ((m / 2 ^ k) mod 16) k) = m mod 2 ^ (k + 4).
Proof.
  intros Hk. apply Z.bits_inj'. intros n Hn. rewrite Z.lor_spec, Z.shiftl_spec by lia. change 16 with (2 ^ 4).
  destruct (Z.ltb_spec n k).
  - rewrite (Z.testbit_neg_r _ (n - k)) by lia. rewrite orb_false_r, !Z.mod_pow2_bits_low by lia. done.
  - rewrite (Z.mod_pow2_bits_high m k) by lia. cbn [orb]. destruct (Z.ltb_spec n (k + 4)).
    + rewrite !Z.mod_pow2_bits_low by lia. rewrite Z.div_pow2_bits by lia. f_equal. lia.
    + rewrite !Z.mod_pow2_bits_high by lia. done.
Qed.

Lemma parse_printed_digit (n : nat) m tl : 4 * Z.of_nat (S n) <= CPU_SETSIZE ->
  parse_digits (digit_char (nibble (4 * Z.of_nat n) m) :: tl) (4 * Z.of_nat n) (m mod 2 ^ (4 * Z.of_nat n)) =
  parse_digits tl (4 * Z.of_nat (S n)) (m mod 2 ^ (4 * Z.of_nat (S n))).
Proof.
  intros Hn. set (k := 4 * Z.of_nat n). rewrite nibble_mod by lia. pose proof (Z.mod_pos_bound (m / 2 ^ k) 16 ltac:(lia)) as Hv.
  destruct (digit_char_spec _ Hv) as [Hc Hd]. cbn [parse_digits]. rewrite Hc, Hd, set_bits_lor, mod_next_digit by lia.
  by replace (4 * Z.of_nat (S n)) with (k + 4) by lia.
Qed.

Lemma parse_print_true (n : nat) m tl : 4 * Z.of_nat n <= CPU_SETSIZE ->
  parse_digits (rev (print_digits n m true) ++ tl) 0 0 = parse_digits tl (4 * Z.of_nat n) (m mod 2 ^ (4 * Z.of_nat n)).
Proof.
  revert tl. induction n as [|n IH]; intros tl Hn; [by rewrite Z.mod_1_r|].
  cbn [print_digits orb]. cbn [rev]. rewrite <- app_assoc. rewrite IH by lia. by apply parse_printed_digit.
Qed.

Lemma parse_print_false (n : nat) m : 4 * Z.of_nat n <= CPU_SETSIZE -> parse_digits (rev (print_digits n m false)) 0 0 = (true, m mod 2 ^ (4 * Z.of_nat n)).
Proof.
  induction n as [|n IH]; intros Hn; [by rewrite Z.mod_1_r|]. cbn [print_digits orb].
  destruct (Z.eqb_spec (nibble (4 * Z.of_nat n) m) 0) as [Hz|Hz]; cbn [negb].
  - rewrite IH by lia. f_equal. rewrite nibble_mod in Hz by lia. pose proof (mod_next_digit m (4 * Z.of_nat n) ltac:(lia)) as Hm.
    rewrite Hz, Z.shiftl_0_l, Z.lor_0_r in Hm. rewrite Hm. f_equal. f_equal. lia.
  - cbn [rev]. rewrite parse_print_true by lia. by rewrite parse_printed_digit by lia.
Qed.

(** The text of a mask never has the prefix that the parser skips. *)
Lemma print_no_prefix (n : nat) m b : 4 * Z.of_nat n <= CPU_SETSIZE -> String.prefix "0x" (String.string_of_list_ascii (print_digits n m b)) = false.
Proof.
  assert (Hx : forall n m b, 4 * Z.of_nat n <= CPU_SETSIZE -> String.prefix "x" (String.string_of_list_ascii (print_digits n m b)) = false).
  { clear. induction n as [|n IH]; intros m b Hn; [done|]. cbn [print_digits]. destruct (b || _); [|apply IH; lia].
    rewrite nibble_mod by lia. pose proof (Z.mod_pos_bound (m / 2 ^ (4 * Z.of_nat n)) 16 ltac:(lia)) as Hu. generalize dependent ((m / 2 ^ (4 * Z.of_nat n)) mod 16).
    intros u Hu. each_digit u; reflexivity. }
  revert b. induction n as [|n IH]; intros b Hn; [done|]. cbn [print_digits]. destruct (b || _); [|apply IH; lia].
  specialize (Hx n m true ltac:(lia)). revert Hx. generalize (print_digits n m true). intros l Hl. cbn [String.string_of_list_ascii String.prefix]. destruct (ascii_dec _ _); [exact Hl|done].
Qed.

(** the text written for any set of CPUs, the empty one included, is read back by the parser as
    exactly this set. *)
Theorem cpu_mask_roundtrip (m : Z) : 0 <= m < 2 ^ CPU_SETSIZE -> parse_cpu_mask (cpu_mask_to_string m) = (true, m).
Proof.
  intros Hm. unfold parse_cpu_mask, cpu_mask_to_string. rewrite print_no_prefix by done.
  rewrite String.list_ascii_of_string_of_list_ascii, parse_print_false by done. f_equal. by apply Z.mod_small.
Qed.

Lemma cpu_mask_roundtrip_witness : parse_cpu_mask (cpu_mask_to_string (Z.lor 165 (Z.shiftl 1 1023))) = (true, Z.lor 165 (Z.shiftl 1 1023)).
Proof. apply cpu_mask_roundtrip. split; vm_compute; [discriminate|reflexivity]. Defined.

(** The comma of a mask written by the kernel is skipped, and a mask may have more digits than
    there are CPUs. *)
Example parse_kernel_mask : parse_cpu_mask "0xff,000000F0" = (true, 1095216660720).
Proof. vm_compute. reflexivity. Qed.

Example parse_bad_mask : fst (parse_cpu_mask "0x1g") = false.
Proof. reflexivity. Qed.
