(* ===== verification/Demangler.v ===== *)
(** * Demangled names

    Model of [src/demangler/demangler.cc]: the names of Rust functions, which a C++ demangler
    leaves half decoded, are recognised by the hash at their end and decoded further.  Strings are
    lists of characters; the demangler of LLVM is a parameter. *)

From Stdlib Require Import Ascii.
From S2P Require Import Prelude.

Abbreviation chars := (list ascii).
Definition chars_of (s : string) : chars := String.list_ascii_of_string s.

Definition hash_pre : chars := chars_of "::h".
Definition hash_eg : chars := chars_of "0123456789abcdef".
Definition hash_size : nat := length hash_pre + length hash_eg.

Definition code (c : ascii) : Z := Z.of_nat (nat_of_ascii c).
Definition is_hexdig (c : ascii) : bool := ((97 <=? code c) && (code c <=? 102)) || ((48 <=? code c) && (code c <=? 57)).

(** [!str.compare(i, n, pattern)] on the rest of the string. *)
Fixpoint starts (pattern s : chars) : bool :=
  match pattern, s with
  | [], _ => true
  | _ :: _, [] => false
  | a :: pattern', b :: s' => Ascii.eqb a b && starts pattern' s'
  end.

Definition has_hash (str : chars) : bool :=
  if (length str <=? hash_size)%nat then false
  else if negb (starts hash_pre (drop (length str - hash_size) str)) then false
  else forallb is_hexdig (drop (length str - length hash_eg) str).

Definition is_char (c : ascii) (o : option ascii) : bool := match o with Some d => Ascii.eqb d c | None => false end.

(** The loop of [is_probably_rust_legacy] over what is left of the string. *)
Fixpoint rust_scan (s : chars) : bool :=
  if (length s <? hash_size)%nat then true
  else
    match s with
    | [] => true
    | c :: s' =>
        if Ascii.eqb c "$" then
          if is_char "$" (s !! 1%nat) then false else is_char "$" (s !! 2%nat) || is_char "$" (s !! 3%nat) || is_char "$" (s !! 4%nat)
        else if Ascii.eqb c "." then negb (is_char "." (s !! 1%nat)) || negb (is_char "." (s !! 2%nat))
        else rust_scan s'
    end.

Definition is_probably_rust_legacy (str : chars) : bool := if negb (has_hash str) then false else rust_scan str.

Definition hex_to_int (dig : ascii) : Z :=
  let n := code dig in
  if (48 <=? n) && (n <=? 57) then n - 48
  else if (97 <=? n) && (n <=? 102) then n - 97 + 10
  else if (65 <=? n) && (n <=? 70) then n - 65 + 10
  else -1.

Definition patterns : list (chars * chars) :=
  map (fun p => (chars_of (fst p), chars_of (snd p)))
    [("..", "::"); ("$C$", ","); ("$BP$", "*"); ("$GT$", ">"); ("$LT$", "<"); ("$LP$", "("); ("$RP$", ")"); ("$RF$", "&"); ("$SP$", "@")]%string.

(** One pass of the loop of [rust_demangle]: what is appended, and how far the index moves. *)
Definition rust_step (s : chars) : chars * nat :=
  match s with
  | [] => ([], 1%nat)
  | c :: _ =>
      if Ascii.eqb c "." || Ascii.eqb c "$" then
        match List.find (fun p => starts (fst p) s) patterns with
        | Some (pattern, replacement) => (replacement, length pattern)
        | None =>
            if Ascii.eqb c "." then (["-"%char], 1%nat)
            else if starts (chars_of "$u") s && is_char "$" (s !! 4%nat) then
              let hi := hex_to_int (nth 2 s "000"%char) in
              let lo := hex_to_int (nth 3 s "000"%char) in
              if negb (hi =? -1) && negb (lo =? -1) then ([ascii_of_nat (Z.to_nat (lo + 16 * hi))], 5%nat) else (take 5 s, 5%nat)
            else ([c], 1%nat)
        end
      else ([c], 1%nat)
  end.

(** The loop: it ends where the hash begins. *)
Fixpoint rust_loop (fuel : nat) (s : chars) : chars :=
  if (length s <=? hash_size)%nat then []
  else
    match fuel with
    | O => []
    | S fuel' => let '(text, n) := rust_step s in text ++ rust_loop fuel' (drop n s)
    end.

Definition rust_demangle (str : chars) : chars :=
  let i := if is_char "_" (str !! 0%nat) && is_char "$" (str !! 1%nat) then 1%nat else 0%nat in
  rust_loop (length str) (drop i str).

(** [llvm::demangle] always gives a name; [llvm::nonMicrosoftDemangle] may fail. *)
Definition demangle (llvm_demangle : chars -> chars) (mangled : chars) : chars :=
  let demangled := llvm_demangle mangled in
  if is_probably_rust_legacy demangled then rust_demangle demangled else demangled.

Definition non_microsoft_demangle (llvm_demangle : chars -> option chars) (mangled : chars) : chars :=
  match llvm_demangle mangled with
  | Some res => if is_probably_rust_legacy res then rust_demangle res else res
  | None => mangled
  end.

Example demangle_closure :
  rust_demangle (chars_of "_$LT$std..sys..process..CommandArgs$u20$as$u20$Debug$GT$::fmt::h0123456789abcdef") = chars_of "<std::sys::process::CommandArgs as Debug>::fmt".
Proof. vm_compute. reflexivity. Qed.

(** ** Theorems *)

(** The parts of a Rust name, as the Rust compiler writes them in a symbol: a character of an
    identifier; the separator of a path; [-]; a symbol that has an abbreviation; another
    character, by the two hexadecimal digits of its code. *)
Inductive token := Plain (c : ascii) | Sep | Dash | Abbreviated (i : nat) | Coded (hi lo : Z).

Definition digit (v : Z) : ascii := ascii_of_nat (Z.to_nat (if 10 <=? v then v - 10 + 97 else v + 48)).

Definition abbreviation (i : nat) : chars * chars := nth i (tl patterns) ([], []).

Definition escape (t : token) : chars :=
  match t with
  | Plain c => [c] | Sep => chars_of ".." | Dash => chars_of "." | Abbreviated i => fst (abbreviation i)
  | Coded hi lo => chars_of "$u" ++ [digit hi; digit lo; "$"%char]
  end.

Definition render (t : token) : chars :=
  match t with
  | Plain c => [c] | Sep => chars_of "::" | Dash => chars_of "-" | Abbreviated i => snd (abbreviation i)
  | Coded hi lo => [ascii_of_nat (Z.to_nat (lo + 16 * hi))]
  end.

Definition escapes (ts : list token) : chars := mjoin (map escape ts).
Definition renders (ts : list token) : chars := mjoin (map render ts).

(** The characters with a code are those from 16 to 127: below, the compiler writes one digit, and
    from 128 on the text of the character is longer than a byte ([latin_character_one_byte]). *)
Definition token_ok (t : token) : Prop :=
  match t with
  | Plain c => c <> "."%char /\ c <> "$"%char | Abbreviated i => (i < 8)%nat | Coded hi lo => 1 <= hi < 8 /\ 0 <= lo < 16 | Sep | Dash => True
  end.

Definition dotted (t : token) : bool := match t with Sep | Dash => true | _ => false end.
Definition dollar (t : token) : bool := match t with Abbreviated _ | Coded _ _ => true | _ => false end.

(** No two dotted parts in a row: [-] and [::] are not next to each other in a name. *)
Fixpoint tokens_ok (ts : list token) : Prop :=
  match ts with
  | [] => True
  | t :: ts' => token_ok t /\ (dotted t = true -> match ts' with t' :: _ => dotted t' = false | [] => True end) /\ tokens_ok ts'
  end.

(** The compiler puts an underscore before a name that does not start as an identifier. *)
Definition lead (ts : list token) : chars := match ts with t :: _ => if dollar t then chars_of "_" else [] | [] => [] end.

Definition is_hash (h : chars) : Prop := length h = length hash_eg /\ forallb is_hexdig h = true.

Lemma step_token t rest : token_ok t -> (dotted t = true -> is_char "." (rest !! 0%nat) = false) -> rust_step (escape t ++ rest) = (render t, length (escape t)).
Proof.
  intros Ht Hd. destruct t as [c| | |i|hi lo]; cbn [escape render token_ok] in *.
  - destruct Ht as [H1 H2]. apply Ascii.eqb_neq in H1, H2. cbn [app rust_step length]. by rewrite H1, H2.
  - reflexivity.
  - specialize (Hd eq_refl). destruct rest as [|c rest]; [reflexivity|]. cbn in Hd.
    assert (Hf : starts (chars_of "..") ("."%char :: c :: rest) = false) by (cbn [chars_of String.list_ascii_of_string starts]; rewrite (Ascii.eqb_sym _ c), Hd; reflexivity).
    change (chars_of ".") with ["."%char]. cbn [app]. unfold rust_step. cbn [patterns map List.find fst snd]. rewrite Hf. reflexivity.
  - do 8 (destruct i as [|i]; [reflexivity|]). lia.
  - destruct Ht as [H1 H2]. each_digit hi; each_digit lo; reflexivity.
Qed.

Lemma escape_nonempty t : token_ok t -> (1 <= length (escape t))%nat.
Proof. destruct t as [| | |i|]; cbn; try lia. intros Hi. do 8 (destruct i as [|i]; [cbn; lia|]). lia. Qed.

(** How the text of a part begins. *)
Lemma escape_dot t rest : token_ok t -> dotted t = false -> is_char "." ((escape t ++ rest) !! 0%nat) = false.
Proof.
  destruct t as [c| | |i|]; cbn [token_ok dotted]; intros Ht Hd; try done.
  - cbn. destruct Ht as [H _]. by apply Ascii.eqb_neq.
  - do 8 (destruct i as [|i]; [reflexivity|]). lia.
Qed.

(** What follows a name: the hash. *)
Definition suffix (h : chars) : chars := hash_pre ++ h.

Lemma suffix_length h : is_hash h -> length (suffix h) = hash_size.
Proof. intros [Hl _]. unfold suffix, hash_size. by rewrite length_app, Hl. Qed.

Lemma next_not_dot t ts h : tokens_ok (t :: ts) -> dotted t = true -> is_char "." ((escapes ts ++ suffix h) !! 0%nat) = false.
Proof.
  intros (_ & Hd & Hts) Ht. specialize (Hd Ht). destruct ts as [|t' ts]; [reflexivity|].
  unfold escapes. cbn [map mjoin list_join]. rewrite <- app_assoc. apply escape_dot; [apply Hts|done].
Qed.

Lemma escapes_cons t ts : escapes (t :: ts) = escape t ++ escapes ts.
Proof. reflexivity. Qed.

Lemma rust_loop_escapes ts h fuel : is_hash h -> tokens_ok ts -> (length (escapes ts) <= fuel)%nat -> rust_loop fuel (escapes ts ++ suffix h) = renders ts.
Proof.
  intros Hh. revert fuel. induction ts as [|t ts IH]; intros fuel Hts Hf.
  - cbn [escapes map mjoin list_join app]. destruct fuel; cbn [rust_loop]; rewrite suffix_length, Nat.leb_refl by done; reflexivity.
  - pose proof (next_not_dot t ts h Hts) as Hd. destruct Hts as (Ht & _ & Hts). pose proof (escape_nonempty t Ht) as Hn.
    rewrite escapes_cons, length_app in Hf. rewrite escapes_cons, <- app_assoc. destruct fuel as [|fuel]; [lia|]. cbn [rust_loop].
    replace (length (escape t ++ escapes ts ++ suffix h) <=? hash_size)%nat with false
      by (symmetry; apply Nat.leb_gt; rewrite !length_app, suffix_length by done; lia).
    rewrite step_token by done. rewrite drop_app_length. rewrite IH by (done || lia). reflexivity.
Qed.

Lemma rust_scan_cons c s : (hash_size <= length (c :: s))%nat -> c <> "."%char -> c <> "$"%char -> rust_scan (c :: s) = rust_scan s.
Proof.
  intros Hl H1 H2. apply Ascii.eqb_neq in H1, H2. cbn [rust_scan]. rewrite H1, H2.
  destruct (Nat.ltb_spec (length (c :: s)) hash_size); [lia|done].
Qed.

Lemma rust_scan_escapes ts h : is_hash h -> tokens_ok ts -> rust_scan (escapes ts ++ suffix h) = true.
Proof.
  intros Hh. induction ts as [|t ts IH]; intros Hts.
  - cbn [escapes map mjoin list_join app]. pose proof (suffix_length h Hh) as Hl. unfold suffix in *. change (hash_pre ++ h) with (":"%char :: chars_of ":h" ++ h) in *.
    rewrite rust_scan_cons by (done || rewrite Hl; done). cbn in Hl. injection Hl as Hl. cbn. by rewrite Hl.
  - pose proof (next_not_dot t ts h Hts) as Hd. destruct Hts as (Ht & _ & Hts). rewrite escapes_cons, <- app_assoc.
    assert (Hl : (hash_size <= length (escapes ts ++ suffix h))%nat) by (rewrite length_app, suffix_length by done; lia).
    generalize dependent (escapes ts ++ suffix h). intros rest IH Hd Hl.
    assert (Hlen : (length (escape t ++ rest) <? hash_size)%nat = false) by (apply Nat.ltb_ge; rewrite length_app; lia).
    destruct t as [c| | |i|hi lo]; cbn [escape token_ok dotted] in *.
    + destruct Ht as [H1 H2]. cbn [app]. rewrite rust_scan_cons by (done || (cbn [length]; lia)). by apply IH.
    + specialize (Hd eq_refl). cbn [chars_of String.list_ascii_of_string app] in *. cbn [rust_scan]. rewrite Hlen. destruct rest as [|c rest]; [done|].
      cbn in Hd |- *. by rewrite Hd.
    + specialize (Hd eq_refl). cbn [chars_of String.list_ascii_of_string app] in *. cbn [rust_scan]. rewrite Hlen. destruct rest as [|c rest]; [done|].
      cbn in Hd |- *. by rewrite Hd.
    + do 8 (destruct i as [|i]; [cbn [abbreviation nth tl patterns map fst snd chars_of String.list_ascii_of_string app] in *; cbn [rust_scan]; by rewrite Hlen|]). lia.
    + cbn [chars_of String.list_ascii_of_string app] in *. cbn [rust_scan]. rewrite Hlen. destruct Ht as [H1 H2]. each_digit hi; each_digit lo; reflexivity.
Qed.

Lemma has_hash_suffix s h : s <> [] -> is_hash h -> has_hash (s ++ suffix h) = true.
Proof.
  intros Hs Hh. pose proof (suffix_length h Hh) as Hl. destruct Hh as [Hh1 Hh2]. unfold has_hash. rewrite length_app, Hl.
  replace (length s + hash_size <=? hash_size)%nat with false by (symmetry; apply Nat.leb_gt; destruct s; [done|cbn; lia]).
  rewrite Nat.add_sub, drop_app_length. replace (starts hash_pre (suffix h)) with true by reflexivity. cbn [negb].
  replace (length s + hash_size - length hash_eg)%nat with (length (s ++ hash_pre)) by (rewrite length_app; unfold hash_size; lia).
  unfold suffix. rewrite app_assoc.
  by rewrite drop_app_length.
Qed.

(** A name that starts with an underscore of its own does not go on with an escape: the underscore
    would be taken for the one of the compiler. *)
Definition underscore_ok (ts : list token) : Prop :=
  match ts with Plain c :: t :: _ => c = "_"%char -> dollar t = false | _ => True end.

Lemma escape_head t rest : token_ok t -> is_char "$" ((escape t ++ rest) !! 0%nat) = dollar t.
Proof.
  destruct t as [c| | |i|]; cbn [token_ok dollar]; intros Ht; try reflexivity.
  - cbn. destruct Ht as [_ H]. by apply Ascii.eqb_neq.
  - do 8 (destruct i as [|i]; [reflexivity|]). lia.
Qed.

(** The underscore of the compiler is seen, and no other is taken for it. *)
Lemma lead_seen t ts h : tokens_ok (t :: ts) -> underscore_ok (t :: ts) ->
  let str := lead (t :: ts) ++ escapes (t :: ts) ++ suffix h in
  is_char "_" (str !! 0%nat) && is_char "$" (str !! 1%nat) = dollar t.
Proof.
  intros (Ht & _ & Hts) Hu. cbn zeta. rewrite escapes_cons, <- app_assoc. unfold lead. destruct (dollar t) eqn:Ed.
  - transitivity (is_char "$" ((escape t ++ escapes ts ++ suffix h) !! 0%nat)); [reflexivity|by rewrite escape_head].
  - destruct t as [c| | |i|hi lo]; try done. change (Ascii.eqb c "_" && is_char "$" ((escapes ts ++ suffix h) !! 0%nat) = false).
    destruct (Ascii.eqb_spec c "_") as [->|]; [|done]. cbn [andb]. destruct ts as [|t' ts]; [done|].
    rewrite escapes_cons, <- app_assoc. rewrite escape_head by apply Hts. by apply Hu.
Qed.


(** The name of the example above, by its parts. *)
Definition demo_tokens : list token :=
  [Abbreviated 3; Plain "I"; Coded 2 0; Plain "a"; Plain "s"; Coded 2 0; Plain "c"; Sep; Plain "x"; Dash; Plain "y"; Abbreviated 2; Plain ":"; Plain ":"; Plain "n"].


(** A name that does not end in a hash, or that LLVM does not know, is left as it is. *)
Lemma other_names_unchanged (llvm_demangle : chars -> option chars) mangled :
  (forall res, llvm_demangle mangled = Some res -> has_hash res = false) ->
  non_microsoft_demangle llvm_demangle mangled = default mangled (llvm_demangle mangled).
Proof.
  intros H. unfold non_microsoft_demangle. destruct (llvm_demangle mangled) as [res|]; [|done].
  unfold is_probably_rust_legacy. by rewrite (H res eq_refl).
Qed.

(** A character from 128 on is written as one byte, which is not its UTF-8 text (two bytes). *)
Example latin_character_one_byte : rust_demangle (chars_of "caf$ue9$::h0123456789abcdef") = chars_of "caf" ++ ["233"%char].
Proof. vm_compute. reflexivity. Qed.
