(* ===== verification/Identifiers.v ===== *)
(** * Identifiers: containers, UUIDs, random numbers, addresses

    Model of [src/container_id.cc] with the regular expressions it uses, of [src/uuid.cc], of [include/prng.hpp] and of the conversion of
    an address of [src/signal_helper.cc].  A regular expression is matched by backtracking, alternatives in order and repetitions greedy, as
    ECMAScript does; its language is defined on its own and the matcher is shown to decide it. *)

From Stdlib Require Import Ascii.
From S2P Require Import Prelude Ddres Demangler.

Local Open Scope Z_scope.

(** ** Regular expressions *)

(** The constructs of the patterns: a class, a class repeated, an alternative, an optional part. *)
Inductive regex :=
  | Cls (p : ascii -> bool)
  | Seq (r s : regex)
  | Alt (r s : regex)
  | Opt (r : regex)
  | Rep (n : nat) (p : ascii -> bool)
  | Star (p : ascii -> bool).

Fixpoint match_rep {A} (n : nat) (p : ascii -> bool) (s : list ascii) (k : list ascii -> option A) : option A :=
  match n, s with
  | O, _ => k s
  | S n', c :: s' => if p c then match_rep n' p s' k else None
  | S _, [] => None
  end.

Fixpoint match_star {A} (p : ascii -> bool) (s : list ascii) (k : list ascii -> option A) : option A :=
  match s with
  | c :: s' => if p c then match match_star p s' k with Some r => Some r | None => k s end else k s
  | [] => k s
  end.

(** What [k] finds after a match of [r] at the start of [s]. *)
Fixpoint rmatch {A} (r : regex) (s : list ascii) (k : list ascii -> option A) : option A :=
  match r with
  | Cls p => match_rep 1 p s k
  | Seq r1 r2 => rmatch r1 s (fun s => rmatch r2 s k)
  | Alt r1 r2 => match rmatch r1 s k with Some x => Some x | None => rmatch r2 s k end
  | Opt r1 => match rmatch r1 s k with Some x => Some x | None => k s end
  | Rep n p => match_rep n p s k
  | Star p => match_star p s k
  end.

(** The end of the text ([$]), and a group: the characters between two positions. *)
Definition at_end {A} (x : A) (s : list ascii) : option A := match s with [] => Some x | _ => None end.
Definition group (s rest : list ascii) : list ascii := take (length s - length rest) s.

(** The leftmost position with a match. *)
Fixpoint search {A} (f : list ascii -> option A) (s : list ascii) : option A :=
  match f s with
  | Some x => Some x
  | None => match s with [] => None | _ :: s' => search f s' end
  end.

(** ** container_id.cc *)

Definition is_char (c : ascii) (x : ascii) : bool := bool_decide (x = c).
Definition one_of (l : list ascii) (x : ascii) : bool := bool_decide (x ∈ l).
Definition digit (x : ascii) : bool := (48 <=? code x) && (code x <=? 57).
Definition hexdigit : ascii -> bool := is_hexdig.
(** [.]: any character but those that end a line. *)
Definition dot (x : ascii) : bool := negb ((code x =? 10) || (code x =? 13)).
Definition dash : regex := Cls (one_of ["-"; "_"]%char).

Definition UUID_SOURCE : regex :=
  Seq (Rep 8 hexdigit) (Seq dash (Seq (Rep 4 hexdigit) (Seq dash (Seq (Rep 4 hexdigit) (Seq dash (Seq (Rep 4 hexdigit) (Seq dash (Rep 12 hexdigit)))))))).
Definition CONTAINER_SOURCE : regex := Rep 64 hexdigit.
Definition TASK_SOURCE : regex := Seq (Rep 32 hexdigit) (Seq (Cls (is_char "-"%char)) (Seq (Cls digit) (Star digit))).
Definition container_source : regex := Alt UUID_SOURCE (Alt CONTAINER_SOURCE TASK_SOURCE).

(** [(?:.scope)? *] *)
Definition scope_suffix : regex :=
  Seq (Opt (Seq (Cls dot) (Seq (Cls (is_char "s"%char)) (Seq (Cls (is_char "c"%char)) (Seq (Cls (is_char "o"%char)) (Seq (Cls (is_char "p"%char)) (Cls (is_char "e"%char))))))))
      (Star (is_char " "%char)).

(** [^\d+:[^:]*:] *)
Definition line_prefix : regex :=
  Seq (Cls digit) (Seq (Star digit) (Seq (Cls (is_char ":"%char)) (Seq (Star (fun c => negb (is_char ":"%char c))) (Cls (is_char ":"%char))))).
Definition line_path : regex := Seq (Cls dot) (Star dot).

Definition LINE_REGEX (line : list ascii) : option (list ascii) :=
  rmatch line_prefix line (fun s => rmatch line_path s (fun rest => at_end (group s rest) rest)).
Definition CONTAINER_REGEX (s : list ascii) : option (list ascii) :=
  rmatch container_source s (fun rest => rmatch scope_suffix rest (at_end (group s rest))).

Definition container_id_from_line (line : list ascii) : option (list ascii) :=
  match LINE_REGEX line with
  | Some path => search CONTAINER_REGEX path
  | None => None
  end.

Definition DD_WHAT_CGROUP : Z := what_of "CGROUP".
Definition k_container_id_none : list ascii := String.list_ascii_of_string "none".

Fixpoint first_container_id (lines : list (list ascii)) : option (list ascii) :=
  match lines with
  | [] => None
  | line :: lines' => match container_id_from_line line with Some id => Some id | None => first_container_id lines' end
  end.

(** The lines of the file, when it can be opened. *)
Definition extract_container_id (file : option (list (list ascii))) : DDRes * option (list ascii) :=
  match file with
  | None => (ddres_warn DD_WHAT_CGROUP, None)
  | Some lines => (ddres_init, Some (default k_container_id_none (first_container_id lines)))
  end.

(** ** uuid.cc *)

Definition k_version_position : nat := 12.
Definition k_variant_position : nat := 16.
Definition k_version : Z := 4.

(** The eight nibbles of a 32-bit seed. *)
Definition seed_nibbles (seed : Z) : list Z := map (fun shift => Z.land (Z.shiftr seed shift) 0x0F) [28; 24; 20; 16; 12; 8; 4; 0].
Definition Uuid (seed_data : list Z) : list Z :=
  let data := concat (map seed_nibbles seed_data) in
  let data := <[k_version_position := k_version]> data in
  <[k_variant_position := Z.lor 0x8 (Z.land (nth k_variant_position data 0) 0x03)]> data.
Definition get_version (data : list Z) : Z := nth k_version_position data 0.

Definition nibble_char (n : Z) : ascii := ascii_of_nat (Z.to_nat (if n <? 10 then 48 + n else 97 + (n - 10))).
Definition uuid_field (data : list Z) (from len : nat) : list ascii := map nibble_char (take len (drop from data)).
Definition to_string (data : list Z) : list ascii :=
  uuid_field data 0 8 ++ "-"%char :: uuid_field data 8 4 ++ "-"%char :: uuid_field data 12 4 ++ "-"%char :: uuid_field data 16 4 ++ "-"%char :: uuid_field data 20 12.

(** ** prng.hpp *)

Definition splitmix64 (x : Z) : Z * Z :=
  let x := x +w 0x9e3779b97f4a7c15 in
  let z := x in
  let z := Z.lxor z (Z.shiftr z 30) *w 0xbf58476d1ce4e5b9 in
  let z := Z.lxor z (Z.shiftr z 27) *w 0x94d049bb133111eb in
  (Z.lxor z (Z.shiftr z 31), x).

Definition shl64 (x k : Z) : Z := u64 (Z.shiftl x k).
Definition rotl (x k : Z) : Z := Z.lor (shl64 x k) (Z.shiftr x (64 - k)).

Record xoshiro256ss := mkX { x0 : Z; x1 : Z; x2 : Z; x3 : Z }.

Definition xoshiro_seed (seed : Z) : xoshiro256ss :=
  let '(a, seed) := splitmix64 seed in
  let '(b, seed) := splitmix64 seed in
  let '(c, seed) := splitmix64 seed in
  let '(d, seed) := splitmix64 seed in
  mkX a b c d.

Definition xoshiro_next (s : xoshiro256ss) : Z * xoshiro256ss :=
  let result := rotl (x1 s *w 5) 7 *w 9 in
  let t := shl64 (x1 s) 17 in
  let s2 := Z.lxor (x2 s) (x0 s) in
  let s3 := Z.lxor (x3 s) (x1 s) in
  let s1 := Z.lxor (x1 s) s2 in
  let s0 := Z.lxor (x0 s) s3 in
  let s2 := Z.lxor s2 t in
  let s3 := rotl s3 45 in
  (result, mkX s0 s1 s2 s3).

Definition charset : list ascii := String.list_ascii_of_string "0123456789ABCDEFGHIJKLMNOPQRSTUVWXYZabcdefghijklmnopqrstuvwxyz".

(** The characters, drawn by a distribution over the indices of the characters; [None] would be an access outside the array. *)
Fixpoint generate_random_string {E} (distribution : E -> Z * E) (engine : E) (length : nat) : option (list ascii * E) :=
  match length with
  | O => Some ([], engine)
  | S n =>
      let '(i, engine) := distribution engine in
      let? c := charset !! Z.to_nat i in
      let? (s, engine) := generate_random_string distribution engine n in
      Some (c :: s, engine)
  end.

(** ** signal_helper.cc *)

Definition k_ptr_hex_digits : nat := 16.

(** The characters written and the length returned; [-1] when the buffer is too small. *)
Definition convert_addr_to_string (ptr : Z) (buff_size : Z) : Z * list ascii :=
  if buff_size <? Z.of_nat k_ptr_hex_digits + 1 then (-1, [])
  else
    let digits := map (fun i => nibble_char (Z.land (Z.shiftr ptr (4 * Z.of_nat (k_ptr_hex_digits - 1 - i))) 0xF)) (seq 0 k_ptr_hex_digits) in
    (Z.of_nat (length digits), digits ++ [Ascii.zero]).

(** ** The matcher decides the language *)

Fixpoint lang (r : regex) (w : list ascii) : Prop :=
  match r with
  | Cls p => exists c, w = [c] /\ p c = true
  | Seq r1 r2 => exists u v, w = u ++ v /\ lang r1 u /\ lang r2 v
  | Alt r1 r2 => lang r1 w \/ lang r2 w
  | Opt r1 => w = [] \/ lang r1 w
  | Rep n p => length w = n /\ Forall (fun c => p c = true) w
  | Star p => Forall (fun c => p c = true) w
  end.

Lemma match_rep_sound {A} n p s (k : list ascii -> option A) a : match_rep n p s k = Some a ->
  exists w rest, s = w ++ rest /\ length w = n /\ Forall (fun c => p c = true) w /\ k rest = Some a.
Proof.
  revert s. induction n as [|n IH]; intros s; cbn; [intros H; by exists [], s|]. destruct s as [|c s]; [done|]. destruct (p c) eqn:E; [|done].
  intros (w & rest & -> & H1 & H2 & H3)%IH. exists (c :: w), rest. cbn. auto 10.
Qed.

Lemma match_star_sound {A} p s (k : list ascii -> option A) a : match_star p s k = Some a ->
  exists w rest, s = w ++ rest /\ Forall (fun c => p c = true) w /\ k rest = Some a.
Proof.
  induction s as [|c s IH]; cbn; [intros H; by exists [], []|]. destruct (p c) eqn:E; [|intros H; by exists [], (c :: s)].
  destruct (match_star p s k) eqn:Em; [|intros H; by exists [], (c :: s)]. intros (w & rest & -> & H1 & H2)%IH. exists (c :: w), rest. auto.
Qed.

Lemma rmatch_sound {A} r : forall s (k : list ascii -> option A) a, rmatch r s k = Some a -> exists w rest, s = w ++ rest /\ lang r w /\ k rest = Some a.
Proof.
  induction r as [p|r1 IH1 r2 IH2|r1 IH1 r2 IH2|r IH|n p|p]; intros s k a H; cbn [rmatch] in H.
  - apply match_rep_sound in H as (w & rest & -> & H1 & H2 & H3). destruct w as [|c [|]]; try done. exists [c], rest. inv H2. cbn. eauto 10.
  - apply IH1 in H as (u & rest & -> & Hu & H). apply IH2 in H as (v & rest' & -> & Hv & H). exists (u ++ v), rest'. rewrite (assoc_L app). cbn. eauto 10.
  - destruct (rmatch r1 s k) eqn:E; [injection H as ->; apply IH1 in E as (w & rest & ? & ? & ?)|apply IH2 in H as (w & rest & ? & ? & ?)]; exists w, rest; cbn; auto.
  - destruct (rmatch r s k) eqn:E; [injection H as ->; apply IH in E as (w & rest & ? & ? & ?); exists w, rest; cbn; auto|]. exists [], s. cbn. auto.
  - apply match_rep_sound in H as (w & rest & -> & H1 & H2 & H3). exists w, rest. cbn. auto.
  - apply match_star_sound in H as (w & rest & -> & H1 & H2). exists w, rest. cbn. auto.
Qed.

Lemma match_rep_complete {A} p w rest (k : list ascii -> option A) : Forall (fun c => p c = true) w -> match_rep (length w) p (w ++ rest) k = k rest.
Proof. induction 1 as [|c w Hc _ IH]; [by destruct rest|]. cbn. by rewrite Hc. Qed.

Lemma match_star_complete {A} p w rest (k : list ascii -> option A) : Forall (fun c => p c = true) w -> is_Some (k rest) -> is_Some (match_star p (w ++ rest) k).
Proof.
  intros Hw Hk. induction Hw as [|c w Hc _ IH]; cbn.
  - destruct rest as [|c rest]; cbn; [done|]. destruct (p c); [|done]. destruct (match_star p rest k); [eauto|done].
  - rewrite Hc. destruct IH as [x ->]. eauto.
Qed.

Lemma rmatch_complete {A} r : forall w rest (k : list ascii -> option A), lang r w -> is_Some (k rest) -> is_Some (rmatch r (w ++ rest) k).
Proof.
  induction r as [p|r1 IH1 r2 IH2|r1 IH1 r2 IH2|r IH|n p|p]; intros w rest k Hw Hk; cbn [rmatch].
  - destruct Hw as (c & -> & Hc). cbn. by rewrite Hc.
  - destruct Hw as (u & v & -> & Hu & Hv). rewrite <- (assoc_L app). apply IH1; [done|]. by apply IH2.
  - destruct Hw as [Hw|Hw]; [destruct (IH1 w rest k Hw Hk) as [x ->]; eauto|]. destruct (rmatch r1 _ k); [eauto|]. by apply IH2.
  - destruct Hw as [-> | Hw]; [|destruct (IH w rest k Hw Hk) as [x ->]; eauto]. destruct (rmatch r _ k); eauto.
  - destruct Hw as [<- Hw]. by rewrite match_rep_complete.
  - by apply match_star_complete.
Qed.

Lemma search_sound {A} (f : list ascii -> option A) s a : search f s = Some a -> exists before s', s = before ++ s' /\ f s' = Some a.
Proof.
  induction s as [|c s IH]; cbn.
  - destruct (f []) eqn:E; [|done]. intros [= ->]. by exists [], [].
  - destruct (f (c :: s)) eqn:E; [intros [= ->]; by exists [], (c :: s)|]. intros (before & s' & -> & H)%IH. by exists (c :: before), s'.
Qed.

Lemma search_complete {A} (f : list ascii -> option A) before s : is_Some (f s) -> is_Some (search f (before ++ s)).
Proof.
  intros H. induction before as [|c before IH]; cbn.
  - destruct H as [x H]. destruct s; cbn; rewrite H; by eexists.
  - destruct (f (c :: _)); [by eexists|done].
Qed.

Lemma group_app w rest : group (w ++ rest) rest = w.
Proof. unfold group. rewrite length_app. replace (_ - _)%nat with (length w) by lia. by rewrite take_app_length. Qed.

(** ** Containers *)

(** The line of a cgroup file names a container at its end. *)
Definition names_container (line id : list ascii) : Prop :=
  exists prefix before suffix, line = prefix ++ before ++ id ++ suffix /\ lang line_prefix prefix /\ lang container_source id /\ lang scope_suffix suffix /\
    Forall (fun c => dot c = true) (before ++ id ++ suffix).

Lemma split_colon l1 r1 l2 r2 : Forall (fun c => is_char ":" c = false) l1 -> Forall (fun c => is_char ":" c = false) l2 ->
  l1 ++ ":"%char :: r1 = l2 ++ ":"%char :: r2 -> l1 = l2 /\ r1 = r2.
Proof.
  intros H1. revert l2. induction H1 as [|c l1 Hc _ IH]; intros l2 H2 H.
  - destruct H2 as [|c l2 Hc _]; [by simplify_eq/=|]. injection H as <- _. by vm_compute in Hc.
  - destruct H2 as [|c' l2 Hc' H2]; [injection H as -> _; by vm_compute in Hc|]. injection H as -> H. destruct (IH l2 H2 H) as [-> ->]. done.
Qed.

(** The prefix of a line stops at the second colon. *)
Lemma line_prefix_parts w : lang line_prefix w -> exists n c, w = n ++ ":"%char :: c ++ [":"%char] /\ Forall (fun c => is_char ":" c = false) n /\ Forall (fun c => is_char ":" c = false) c.
Proof.
  intros (u & v & -> & (d & -> & Hd) & n & v1 & -> & Hn & c1 & v2 & -> & (x & -> & Hx%bool_decide_eq_true) & c & v3 & -> & Hc & (y & -> & Hy%bool_decide_eq_true)).
  subst. exists (d :: n), c. cbn. split; [done|].
  assert (forall e, digit e = true -> is_char ":" e = false) as He by (intros e He; apply bool_decide_eq_false; by intros ->).
  split; [constructor; [auto|eapply Forall_impl; [exact Hn|auto]]|]. eapply Forall_impl; [exact Hc|]. cbn. intros e Hb. by apply negb_true_iff in Hb.
Qed.

Lemma line_prefix_unique w1 w2 s1 s2 : lang line_prefix w1 -> lang line_prefix w2 -> w1 ++ s1 = w2 ++ s2 -> s1 = s2.
Proof.
  intros (n1 & c1 & -> & Hn1 & Hc1)%line_prefix_parts (n2 & c2 & -> & Hn2 & Hc2)%line_prefix_parts. rewrite <- !(assoc_L app). cbn. rewrite <- !(assoc_L app). cbn.
  intros H. apply split_colon in H as [_ H]; [|done..]. by apply split_colon in H as [_ H].
Qed.

Lemma line_path_lang w : lang line_path w <-> w <> [] /\ Forall (fun c => dot c = true) w.
Proof.
  split.
  - intros (u & v & -> & (c & -> & Hc) & Hv). split; [done|]. by constructor.
  - intros [Hne Hw]. destruct Hw as [|c w Hc Hw]; [done|]. exists [c], w. split; [done|]. split; [by exists c|done].
Qed.

Lemma container_not_empty id : lang container_source id -> id <> [].
Proof.
  intros [(u & v & -> & [Hu _] & _) | [[Hu _] | (u & v & -> & [Hu _] & _)]] H; [|by subst|].
  all: apply app_eq_nil in H as [-> _]; done.
Qed.

Lemma LINE_REGEX_spec line path : LINE_REGEX line = Some path -> exists prefix, line = prefix ++ path /\ lang line_prefix prefix /\ lang line_path path.
Proof.
  intros (prefix & s & -> & Hp & H)%rmatch_sound. apply rmatch_sound in H as (w & rest & -> & Hw & H). destruct rest; [|done]. cbn in H. injection H as <-.
  exists prefix. rewrite group_app, app_nil_r. done.
Qed.

(** A line of a cgroup file gives a container identifier exactly when one of its three forms ends the path, a scope suffix and spaces apart; the identifier is
    the text of that form. *)
Theorem container_id_from_line_spec line :
  (forall id, container_id_from_line line = Some id -> names_container line id) /\ ((exists id, names_container line id) -> is_Some (container_id_from_line line)).
Proof.
  unfold container_id_from_line. split.
  - intros id. destruct (LINE_REGEX line) as [path|] eqn:El; [|done]. apply LINE_REGEX_spec in El as (prefix & -> & Hp & Hd).
    intros (before & s & -> & H)%search_sound. apply rmatch_sound in H as (w & rest & -> & Hw & H). apply rmatch_sound in H as (suffix & end_ & -> & Hs & H).
    destruct end_; [|done]. cbn in H. injection H as <-. rewrite app_nil_r in *. rewrite group_app. apply line_path_lang in Hd as [_ Hd]. by exists prefix, before, suffix.
  - intros (id & prefix & before & suffix & -> & Hp & Hid & Hs & Hd).
    assert (is_Some (LINE_REGEX (prefix ++ before ++ id ++ suffix))) as [path El].
    { apply rmatch_complete; [done|]. rewrite <- (app_nil_r (before ++ id ++ suffix)) at 1. apply rmatch_complete; [|done]. apply line_path_lang. split; [|done].
      intros (_ & H)%app_eq_nil. apply app_eq_nil in H as [H _]. by apply (container_not_empty id). }
    rewrite El. apply LINE_REGEX_spec in El as (prefix' & Heq & Hp' & _). apply line_prefix_unique in Heq; [|done..]. subst path.
    apply search_complete, rmatch_complete; [done|]. rewrite <- (app_nil_r suffix). by apply rmatch_complete.
Qed.

(** The first line that names a container gives the identifier of the process; without one it is [none]. *)
Lemma first_container_id_spec lines id : first_container_id lines = Some id ->
  exists before line after, lines = before ++ line :: after /\ Forall (fun l => container_id_from_line l = None) before /\ container_id_from_line line = Some id.
Proof.
  induction lines as [|l lines IH]; cbn; [done|]. destruct (container_id_from_line l) as [x|] eqn:E.
  - intros [= ->]. by exists [], l, lines.
  - intros (before & line & after & -> & H1 & H2)%IH. exists (l :: before), line, after. auto.
Qed.

(** ** UUIDs *)

Definition is_nibble (n : Z) : Prop := 0 <= n < 16.

Lemma land_nibble x : is_nibble (Z.land x 0x0F).
Proof. apply (land_mask_bound x 4). lia. Qed.

Lemma nibble_char_hex n : is_nibble n -> is_hexdig (nibble_char n) = true.
Proof. intros H. unfold is_nibble in H. by each_digit n. Qed.

Lemma seed_nibbles_spec l : length (concat (map seed_nibbles l)) = (8 * length l)%nat /\ Forall is_nibble (concat (map seed_nibbles l)).
Proof.
  induction l as [|s l [IH1 IH2]]; [done|]. cbn [map concat]. split; [rewrite length_app, IH1; cbn; lia|].
  apply Forall_app. split; [|done]. repeat constructor; apply land_nibble.
Qed.

Lemma Uuid_nibbles l : length l = 4%nat -> length (Uuid l) = 32%nat /\ Forall is_nibble (Uuid l).
Proof.
  intros Hl. destruct (seed_nibbles_spec l) as [H1 H2]. rewrite Hl in H1. unfold Uuid. rewrite !length_insert. split; [done|].
  apply Forall_insert; [apply Forall_insert; [done|unfold is_nibble, k_version; lia]|]. split.
  - apply Z.lor_nonneg. split; [lia|]. apply Z.land_nonneg. lia.
  - pose proof (land_mask_bound (nth k_variant_position (<[k_version_position:=k_version]> (concat (map seed_nibbles l))) 0) 2 ltac:(lia)) as Hb.
    change (2 ^ 2 - 1) with 0x03 in Hb. set (v := Z.land _ 0x03) in *. assert (v = 0 \/ v = 1 \/ v = 2 \/ v = 3) as Hv by lia. by destruct Hv as [-> | [-> | [-> | ->]]].
Qed.

Lemma uuid_field_lang data from len : Forall is_nibble data -> (from + len <= length data)%nat -> lang (Rep len hexdigit) (uuid_field data from len).
Proof.
  intros Hd Hl. unfold uuid_field. split; [rewrite length_map, length_take, length_drop; lia|]. apply Forall_map.
  apply Forall_take, Forall_drop. eapply Forall_impl; [exact Hd|]. exact nibble_char_hex.
Qed.

Lemma uuid_lang data : length data = 32%nat -> Forall is_nibble data -> lang UUID_SOURCE (to_string data).
Proof.
  intros Hl Hd. unfold UUID_SOURCE, to_string.
  assert (forall w r, lang r w -> lang (Seq dash r) ("-"%char :: w)) as Hdash by (intros w r Hr; exists ["-"%char], w; split; [done|]; split; [by exists "-"%char|done]).
  repeat (eexists _, _; split; [reflexivity|]; split; [apply uuid_field_lang; [done|lia]|]; apply Hdash). apply uuid_field_lang; [done|lia].
Qed.

(** Whatever the random device returns, the identifier of a run has the 36 characters of a UUID, of version 4 and of the variant 10xx. *)
Theorem uuid_is_version_4 seed_data : length seed_data = 4%nat ->
  let data := Uuid seed_data in
  lang UUID_SOURCE (to_string data) /\ length (to_string data) = 36%nat /\ get_version data = 4 /\
  to_string data !! 14%nat = Some "4"%char /\ (exists c, to_string data !! 19%nat = Some c /\ c ∈ ["8"; "9"; "a"; "b"]%char).
Proof.
  intros Hl data. destruct (Uuid_nibbles seed_data Hl) as [H1 H2]. fold data in H1, H2. split; [by apply uuid_lang|].
  destruct seed_data as [|a [|b [|c [|d [|]]]]]; try done. split; [done|]. split; [done|]. split; [done|].
  eexists. split; [reflexivity|]. change (nth k_variant_position _ 0) with (Z.land (Z.shiftr c 28) 0x0F).
  pose proof (land_mask_bound (Z.land (Z.shiftr c 28) 0x0F) 2 ltac:(lia)) as Hb. change (2 ^ 2 - 1) with 0x03 in Hb. set (v := Z.land _ 0x03) in *.
  assert (v = 0 \/ v = 1 \/ v = 2 \/ v = 3) as Hv by lia. clearbody v. destruct Hv as [-> | [-> | [-> | ->]]]; rewrite !elem_of_cons; vm_compute; auto 6.
Qed.

(** ** The generator *)

Definition x_bounded (s : xoshiro256ss) : Prop := is_u64 (x0 s) /\ is_u64 (x1 s) /\ is_u64 (x2 s) /\ is_u64 (x3 s).
Definition x_zero : xoshiro256ss := mkX 0 0 0 0.

Lemma u64_bits x : is_u64 x <-> 0 <= x /\ Z.shiftr x 64 = 0.
Proof.
  unfold is_u64. rewrite Z.shiftr_div_pow2 by lia. split.
  - intros H. split; [lia|]. apply Z.div_small. lia.
  - intros [H1 H2]. split; [lia|]. apply Z.div_small_iff in H2; lia.
Qed.

Lemma lxor_u64 x y : is_u64 x -> is_u64 y -> is_u64 (Z.lxor x y).
Proof. rewrite !u64_bits. intros [H1 H2] [H3 H4]. rewrite Z.shiftr_lxor, H2, H4. split; [apply Z.lxor_nonneg; lia|done]. Qed.

Lemma lor_u64 x y : is_u64 x -> is_u64 y -> is_u64 (Z.lor x y).
Proof. rewrite !u64_bits. intros [H1 H2] [H3 H4]. rewrite Z.shiftr_lor, H2, H4. split; [apply Z.lor_nonneg; lia|done]. Qed.

Lemma shiftr_u64 x k : 0 <= k -> is_u64 x -> is_u64 (Z.shiftr x k).
Proof.
  intros Hk [H1 H2]. rewrite Z.shiftr_div_pow2 by lia. unfold is_u64. assert (1 <= 2 ^ k) by (change 1 with (2 ^ 0); apply Z.pow_le_mono_r; lia).
  split; [apply Z.div_pos; lia|]. apply Z.div_lt_upper_bound; [lia|]. nia.
Qed.

Lemma rotl_u64 x k : 0 <= k <= 64 -> is_u64 x -> is_u64 (rotl x k).
Proof. intros Hk Hx. apply lor_u64; [apply u64_range|]. apply shiftr_u64; [lia|done]. Qed.

#[export] Hint Resolve lxor_u64 rotl_u64 u64_range : ddprof.

Lemma rotl_zero x k : 0 < k < 64 -> is_u64 x -> rotl x k = 0 -> x = 0.
Proof.
  intros Hk Hx H. unfold rotl in H. apply Z.lor_eq_0_iff in H as [H1 H2]. rewrite Z.shiftr_div_pow2 in H2 by lia.
  assert (0 < 2 ^ (64 - k)) by (apply Z.pow_pos_nonneg; lia). unfold is_u64 in Hx. apply Z.div_small_iff in H2; [|lia].
  unfold shl64 in H1. rewrite Z.shiftl_mul_pow2 in H1 by lia. assert (2 ^ 64 = 2 ^ (64 - k) * 2 ^ k) as Hp by (rewrite <- Z.pow_add_r by lia; f_equal; lia).
  assert (0 < 2 ^ k) by (apply Z.pow_pos_nonneg; lia). rewrite u64_small in H1 by (unfold is_u64; nia). nia.
Qed.

(** A multiple of the modulus by an odd factor. *)
Lemma odd_factor x c : is_u64 x -> Z.gcd (2 ^ 64) c = 1 -> (2 ^ 64 | c * x) -> x = 0.
Proof. intros Hx Hg Hd. apply Z.gauss in Hd; [|done]. destruct Hd as [q Hq]. unfold is_u64 in Hx. destruct (Z.eq_dec q 0); nia. Qed.

Lemma shl17_fixed x : is_u64 x -> x = shl64 x 17 -> x = 0.
Proof.
  intros Hx H. apply (odd_factor x (2 ^ 17 - 1)); [done|reflexivity|]. unfold shl64, u64 in H. rewrite Z.shiftl_mul_pow2 in H by lia.
  exists (x * 2 ^ 17 / 2 ^ 64). pose proof (Z.div_mod (x * 2 ^ 17) (2 ^ 64) ltac:(lia)). lia.
Qed.

Lemma xoshiro_next_bounded s : x_bounded s -> x_bounded (snd (xoshiro_next s)).
Proof.
  intros (H0 & H1 & H2 & H3). unfold xoshiro_next. cbn.
  assert (is_u64 (shl64 (x1 s) 17)) by apply u64_range. split; [|split; [|split]]; cbn; auto 6 using lxor_u64. apply rotl_u64; [lia|auto using lxor_u64].
Qed.

(** The step is linear with no kernel: only zero leads to zero. *)
Lemma xoshiro_next_zero s : x_bounded s -> snd (xoshiro_next s) = x_zero -> s = x_zero.
Proof.
  intros (H0 & H1 & H2 & H3) H. unfold xoshiro_next in H. cbn in H. injection H as E0 E1 E2 E3.
  apply rotl_zero in E3; [|lia|by apply lxor_u64]. rewrite E3, Z.lxor_0_r in E0. rewrite E0, Z.lxor_0_r in E1, E2. apply Z.lxor_eq in E1, E2, E3.
  assert (x1 s = 0) as Hx1 by (apply shl17_fixed; [done|congruence]). destruct s. cbn in *. unfold x_zero. congruence.
Qed.

Lemma xorshift_zero z k : 0 < k -> is_u64 z -> Z.lxor z (Z.shiftr z k) = 0 -> z = 0.
Proof.
  intros Hk Hz H%Z.lxor_eq. rewrite Z.shiftr_div_pow2 in H by lia. unfold is_u64 in Hz.
  assert (2 <= 2 ^ k) by (change 2 with (2 ^ 1) at 1; apply Z.pow_le_mono_r; lia). pose proof (Z.mul_div_le z (2 ^ k) ltac:(lia)). nia.
Qed.

Lemma mul_odd_zero z c : is_u64 z -> Z.gcd (2 ^ 64) c = 1 -> z *w c = 0 -> z = 0.
Proof. intros Hz Hg H. apply (odd_factor z c); [done..|]. rewrite Z.mul_comm. by apply Z.mod_divide in H. Qed.

(** The mixing of a seed is zero for one seed only. *)
Lemma splitmix64_zero x : is_u64 x -> fst (splitmix64 x) = 0 -> snd (splitmix64 x) = 0.
Proof.
  intros Hx. unfold splitmix64. cbn. set (y := _ +w _). assert (is_u64 y) as Hy by apply u64_range. clearbody y.
  intros H. apply xorshift_zero in H; [|lia|apply u64_range]. apply mul_odd_zero in H; [|apply lxor_u64, shiftr_u64; [apply u64_range|lia|apply u64_range]|reflexivity].
  apply xorshift_zero in H; [|lia|apply u64_range]. apply mul_odd_zero in H; [|apply lxor_u64, shiftr_u64; [done|lia|done]|reflexivity]. by apply xorshift_zero in H.
Qed.

Lemma splitmix64_bounded x : is_u64 (fst (splitmix64 x)) /\ is_u64 (snd (splitmix64 x)).
Proof. unfold splitmix64. cbn. split; [|apply u64_range]. apply lxor_u64; [apply u64_range|]. apply shiftr_u64; [lia|apply u64_range]. Qed.

Lemma xoshiro_seed_ok seed : is_u64 seed -> x_bounded (xoshiro_seed seed) /\ xoshiro_seed seed <> x_zero.
Proof.
  intros Hs. unfold xoshiro_seed. pose proof (splitmix64_bounded seed) as B1. pose proof (splitmix64_zero seed Hs) as Z1.
  destruct (splitmix64 seed) as [a s1]. cbn in B1, Z1. pose proof (splitmix64_bounded s1) as B2. pose proof (splitmix64_zero s1 (proj2 B1)) as Z2.
  assert (snd (splitmix64 s1) = s1 +w 0x9e3779b97f4a7c15) as Hn by done. destruct (splitmix64 s1) as [b s2]. cbn in B2, Z2, Hn.
  pose proof (splitmix64_bounded s2) as B3. destruct (splitmix64 s2) as [c s3]. pose proof (splitmix64_bounded s3) as B4. destruct (splitmix64 s3) as [d s4]. cbn in B3, B4.
  split; [exact (conj (proj1 B1) (conj (proj1 B2) (conj (proj1 B3) (proj1 B4))))|]. intros [= -> -> -> ->]. rewrite Z1, Z2 in Hn by done. by vm_compute in Hn.
Qed.

Fixpoint xoshiro_draws (n : nat) (s : xoshiro256ss) : xoshiro256ss := match n with O => s | S m => xoshiro_draws m (snd (xoshiro_next s)) end.

(** For every seed and after any number of draws, the state of the generator is not the fixed point where it would return zero for ever. *)
Theorem xoshiro_never_stuck seed n : is_u64 seed -> x_bounded (xoshiro_draws n (xoshiro_seed seed)) /\ xoshiro_draws n (xoshiro_seed seed) <> x_zero.
Proof.
  intros Hs. pose proof (xoshiro_seed_ok seed Hs) as H. revert H. generalize (xoshiro_seed seed). induction n as [|n IH]; intros s [Hb Hz]; [done|].
  cbn. apply IH. split; [by apply xoshiro_next_bounded|]. intros H. by apply Hz, xoshiro_next_zero.
Qed.

(** A distribution over the indices gives characters of the set only. *)
Theorem random_string_alphanumeric {E} (distribution : E -> Z * E) engine n : (forall e, 0 <= fst (distribution e) <= Z.of_nat (length charset) - 1) ->
  exists s engine', generate_random_string distribution engine n = Some (s, engine') /\ length s = n /\ Forall (fun c => c ∈ charset) s.
Proof.
  intros Hd. revert engine. induction n as [|n IH]; intros engine; cbn [generate_random_string]; [by eexists _, _|]. specialize (Hd engine). destruct (distribution engine) as [i e]. cbn in Hd.
  destruct (lookup_lt_is_Some_2 charset (Z.to_nat i)) as [c Hc]; [change (length charset) with 62%nat; lia|]. rewrite Hc. destruct (IH e) as (s & e' & -> & Hl & Hs). eexists _, _. split; [done|]. cbn.
  split; [congruence|]. constructor; [by eapply list_elem_of_lookup_2|done].
Qed.

(** ** Addresses *)

Definition char_nibble (c : ascii) : Z := if code c <? 97 then code c - 48 else code c - 87.
Definition hex_value (l : list ascii) : Z := foldl (fun v c => 16 * v + char_nibble c) 0 l.

Lemma char_nibble_char n : is_nibble n -> char_nibble (nibble_char n) = n.
Proof. intros H. unfold is_nibble in H. by each_digit n. Qed.

Lemma hex_value_digits n ptr : 0 <= ptr ->
  hex_value (map (fun i => nibble_char (Z.land (Z.shiftr ptr (4 * Z.of_nat (n - 1 - i))) 0xF)) (seq 0 n)) = ptr mod 16 ^ Z.of_nat n.
Proof.
  revert ptr. induction n as [|n IH]; intros ptr Hp; [by rewrite Z.mod_1_r|]. rewrite seq_S, map_app. unfold hex_value. rewrite foldl_app. cbn [map foldl].
  rewrite char_nibble_char by apply land_nibble. replace (S n - 1 - (0 + n))%nat with 0%nat by lia. rewrite Z.shiftr_0_r.
  change (Z.land ptr 15) with (Z.land ptr (2 ^ 4 - 1)). rewrite land_mask by lia. specialize (IH (Z.shiftr ptr 4)). unfold hex_value in IH.
  rewrite (map_ext_in _ (fun i => nibble_char (Z.land (Z.shiftr (Z.shiftr ptr 4) (4 * Z.of_nat (n - 1 - i))) 0xF))).
  2: { intros i Hi%in_seq. rewrite Z.shiftr_shiftr by lia. repeat f_equal. lia. }
  rewrite IH by (apply Z.shiftr_nonneg; lia). rewrite Z.shiftr_div_pow2 by lia. change (2 ^ 4) with 16.
  replace (16 ^ Z.of_nat (S n)) with (16 * 16 ^ Z.of_nat n) by (rewrite Nat2Z.inj_succ, Z.pow_succ_r by lia; lia).
  rewrite Z.rem_mul_r by (try apply Z.pow_nonzero; try apply Z.pow_pos_nonneg; lia). lia.
Qed.

(** The address that a crash prints reads back as the address. *)
Theorem address_roundtrip ptr size : is_u64 ptr -> 17 <= size ->
  exists digits, convert_addr_to_string ptr size = (16, digits ++ [Ascii.zero]) /\ length digits = 16%nat /\ hex_value digits = ptr.
Proof.
  intros Hp Hs. unfold convert_addr_to_string. change (Z.of_nat k_ptr_hex_digits + 1) with 17. destruct (size <? 17) eqn:E; [lia|]. eexists. rewrite length_map, length_seq.
  split; [reflexivity|]. split; [done|]. unfold is_u64 in Hp. rewrite hex_value_digits by lia. apply Z.mod_small. done.
Qed.

(** ** Examples *)

Module IdentifiersDemo.

Definition text (s : string) : list ascii := String.list_ascii_of_string s.
Definition docker_id : string := "3726184226f5d3147c25fdeab5b60097e378e8a720503a5e19ecfdf29f869860".

Example docker : container_id_from_line (text ("13:name=systemd:/docker/" +:+ docker_id)) = Some (text docker_id).
Proof. vm_compute. reflexivity. Qed.
Example kubernetes : container_id_from_line (text ("1:name=systemd:/kubepods.slice/crio-" +:+ docker_id +:+ ".scope  ")) = Some (text docker_id).
Proof. vm_compute. reflexivity. Qed.
(** The dot before the suffix is any character. *)
Example scope_any_separator : container_id_from_line (text ("1::/" +:+ docker_id +:+ "Xscope")) = Some (text docker_id).
Proof. vm_compute. reflexivity. Qed.
Example no_container : extract_container_id (Some [text "0::/"; text "1:cpu:/user.slice"]) = (ddres_init, Some (text "none")).
Proof. vm_compute. reflexivity. Qed.

Lemma uuid_is_version_4_witness : get_version (Uuid [1; -1; 305419896; 7]) = 4 /\ lang UUID_SOURCE (to_string (Uuid [1; -1; 305419896; 7])).
Proof. destruct (uuid_is_version_4 [1; -1; 305419896; 7] eq_refl) as (H1 & _ & H2 & _). split; [exact H2|exact H1]. Defined.

Lemma xoshiro_never_stuck_witness : xoshiro_draws 100 (xoshiro_seed 42) <> x_zero.
Proof. apply (xoshiro_never_stuck 42 100). vm_compute. split; congruence. Defined.

End IdentifiersDemo.
