(* ===== verification/Hooks.v ===== *)
(** * Interception of the allocation functions

    Model of [src/lib/symbol_overrides.cc]: the hooks that replace the allocation functions of
    the profiled program, with the guard of [include/lib/reentry_guard.hpp].  A hook calls the
    function it replaces, which may call hooked functions in turn, and the tracker; the calls
    of the tracker are logged.  The state is that of one thread.

    The theorems: whatever calls the replaced functions make, the tracker sees each outermost
    allocation and deallocation once, so that it knows the live blocks of the program. *)

From S2P Require Import Prelude.

(** ** State of a thread *)

(** The flags of [TrackerThreadLocalState]. *)
Record tls := mkTls { tls_initialized : bool; tls_reentry_guard : bool; tls_allocation_allowed : bool }.

(** Calls of [track_allocation_s] and [track_deallocation_s]; [allowed] is the flag
    [allocation_allowed] during the call. *)
Inductive tracker_call :=
| TrackAllocation (addr size : Z) (is_large_alloc allowed : bool)
| TrackDeallocation (addr : Z) (is_large_alloc allowed : bool).

Record thread := mkThread { th_tls : tls; th_log : list tracker_call }.

(** A computation of the thread; [None]: an exception is thrown. *)
Definition M (A : Type) : Type := thread -> option A * thread.

Definition ret {A} (x : A) : M A := fun th => (Some x, th).
Definition bind {A B} (m : M A) (k : A -> M B) : M B :=
  fun th => match m th with (Some x, th) => k x th | (None, th) => (None, th) end.
Notation "x <- m ;; k" := (bind m (fun x => k)) (at level 93, m at next level, right associativity) : word_scope.
Notation "m ;;; k" := (bind m (fun _ => k)) (at level 93, right associativity) : word_scope.

Definition when (b : bool) (m : M unit) : M unit := if b then m else ret tt.

Definition get_tls : M tls := fun th => (Some (th_tls th), th).
Definition set_tls (s : tls) : M unit := fun th => (Some tt, mkThread s (th_log th)).

Definition with_guard (s : tls) (b : bool) : tls := mkTls (tls_initialized s) b (tls_allocation_allowed s).
Definition with_allowed (s : tls) (b : bool) : tls := mkTls (tls_initialized s) (tls_reentry_guard s) b.

Section Tracker.
(** Whether the tracker runs, and tracks deallocations: it may stop after any call. *)
Context (is_active is_deallocation_tracking_active : list tracker_call -> bool).

Definition call_tracker (c : bool -> tracker_call) : M unit :=
  fun th => (Some tt, mkThread (th_tls th) (th_log th ++ [c (tls_allocation_allowed (th_tls th))])).

Definition track_allocation_s (addr size : Z) (is_large_alloc : bool) : M unit := call_tracker (fun b => TrackAllocation addr size is_large_alloc b).
Definition track_deallocation_s (addr : Z) (is_large_alloc : bool) : M unit := call_tracker (fun b => TrackDeallocation addr is_large_alloc b).

(** [AllocationTracker::get_tl_state]: whether there is a state. *)
Definition get_tl_state (init_if_not_initialized : bool) : M bool :=
  fun th =>
    let s := th_tls th in
    if tls_initialized s then (Some true, th)
    else if init_if_not_initialized && negb (tls_reentry_guard s) && is_active (th_log th)
    then (Some true, mkThread (mkTls true false true) (th_log th))
    else (Some false, th).

(** ** Guards *)

(** [ReentryGuard]: its constructor on the flag of the thread if there is a state, and its
    destructor. *)
Definition ReentryGuard (has_state : bool) : M bool :=
  if has_state then s <- get_tls;; set_tls (with_guard s true);;; ret (negb (tls_reentry_guard s)) else ret false.

Definition end_ReentryGuard (ok : bool) : M unit := when ok (s <- get_tls;; set_tls (with_guard s false)).

(** A guard in the scope of a block; the destructor runs also when the block throws. *)
Definition scoped {A} (guard : M bool) (body : bool -> M A) : M A :=
  ok <- guard;; (fun th => let '(r, th) := body ok th in (r, snd (end_ReentryGuard ok th))).

Definition MaybeReentryGuard : M bool := has_state <- get_tl_state true;; ReentryGuard has_state.

Definition AllocTrackerHelperImpl (mmap_alloc : bool) : M bool := has_state <- get_tl_state (negb mmap_alloc);; ReentryGuard has_state.

Definition DeallocTrackerHelperImpl (mmap_alloc : bool) : M bool :=
  fun th => (has_state <- (if is_deallocation_tracking_active (th_log th) then get_tl_state (negb mmap_alloc) else ret false);; ReentryGuard has_state) th.

Definition allowing (mmap_alloc : bool) (m : M unit) : M unit :=
  if mmap_alloc then (s <- get_tls;; set_tls (with_allowed s false));;; m;;; (s <- get_tls;; set_tls (with_allowed s true)) else m.

Definition helper_track (mmap_alloc ok : bool) (ptr size : Z) : M unit := when ok (allowing mmap_alloc (track_allocation_s ptr size mmap_alloc)).
Definition helper_untrack (mmap_alloc ok : bool) (ptr : Z) : M unit := when ok (allowing mmap_alloc (track_deallocation_s ptr mmap_alloc)).

Definition AllocTrackerHelper : M bool := AllocTrackerHelperImpl false.
Definition DeallocTrackerHelper : M bool := DeallocTrackerHelperImpl false.
Definition AllocTrackerHelperMmap : M bool := AllocTrackerHelperImpl true.
Definition DeallocTrackerHelperMmap : M bool := DeallocTrackerHelperImpl true.

(** ** Hooks

    [ref] is the function that is replaced, on the arguments of the hook.  A null pointer is 0. *)

Definition MallocHook (size : Z) (ref : M Z) : M Z :=
  scoped AllocTrackerHelper (fun helper => ptr <- ref;; helper_track false helper ptr size;;; ret ptr).

Definition NewHook (size : Z) (ref : M Z) : M Z :=
  scoped AllocTrackerHelper (fun helper => ptr <- ref;; helper_track false helper ptr size;;; ret ptr).

Definition NewNoThrowHook (size : Z) (ref : M Z) : M Z :=
  scoped AllocTrackerHelper (fun helper => ptr <- ref;; helper_track false helper ptr size;;; ret ptr).

Definition NewAlignHook (size : Z) (ref : M Z) : M Z :=
  scoped AllocTrackerHelper (fun helper => ptr <- ref;; helper_track false helper ptr size;;; ret ptr).

Definition NewAlignNoThrowHook (size : Z) (ref : M Z) : M Z :=
  scoped AllocTrackerHelper (fun helper => ptr <- ref;; helper_track false helper ptr size;;; ret ptr).

Definition NewArrayHook (size : Z) (ref : M Z) : M Z :=
  scoped AllocTrackerHelper (fun helper => ptr <- ref;; helper_track false helper ptr size;;; ret ptr).

Definition NewArrayNoThrowHook (size : Z) (ref : M Z) : M Z :=
  scoped AllocTrackerHelper (fun helper => ptr <- ref;; helper_track false helper ptr size;;; ret ptr).

Definition NewArrayAlignHook (size : Z) (ref : M Z) : M Z :=
  scoped AllocTrackerHelper (fun helper => ptr <- ref;; helper_track false helper ptr size;;; ret ptr).

Definition NewArrayAlignNoThrowHook (size : Z) (ref : M Z) : M Z :=
  scoped AllocTrackerHelper (fun helper => ptr <- ref;; helper_track false helper ptr size;;; ret ptr).

Definition FreeHook (ptr : Z) (ref : M Z) : M Z :=
  scoped DeallocTrackerHelper (fun helper => if ptr =? 0 then ret 0 else helper_untrack false helper ptr;;; ref).

Definition FreeSizedHook (ptr : Z) (ref : M Z) : M Z :=
  scoped DeallocTrackerHelper (fun helper => if ptr =? 0 then ret 0 else helper_untrack false helper ptr;;; ref).

Definition FreeAlignedSizedHook (ptr : Z) (ref : M Z) : M Z :=
  scoped DeallocTrackerHelper (fun helper => if ptr =? 0 then ret 0 else helper_untrack false helper ptr;;; ref).

Definition DeleteHook (ptr : Z) (ref : M Z) : M Z :=
  scoped DeallocTrackerHelper (fun helper => if ptr =? 0 then ret 0 else helper_untrack false helper ptr;;; ref).

Definition DeleteArrayHook (ptr : Z) (ref : M Z) : M Z :=
  scoped DeallocTrackerHelper (fun helper => if ptr =? 0 then ret 0 else helper_untrack false helper ptr;;; ref).

Definition DeleteNoThrowHook (ptr : Z) (ref : M Z) : M Z :=
  scoped DeallocTrackerHelper (fun helper => if ptr =? 0 then ret 0 else helper_untrack false helper ptr;;; ref).

Definition DeleteArrayNoThrowHook (ptr : Z) (ref : M Z) : M Z :=
  scoped DeallocTrackerHelper (fun helper => if ptr =? 0 then ret 0 else helper_untrack false helper ptr;;; ref).

Definition DeleteAlignHook (ptr : Z) (ref : M Z) : M Z :=
  scoped DeallocTrackerHelper (fun helper => if ptr =? 0 then ret 0 else helper_untrack false helper ptr;;; ref).

Definition DeleteArrayAlignHook (ptr : Z) (ref : M Z) : M Z :=
  scoped DeallocTrackerHelper (fun helper => if ptr =? 0 then ret 0 else helper_untrack false helper ptr;;; ref).

Definition DeleteAlignNoThrowHook (ptr : Z) (ref : M Z) : M Z :=
  scoped DeallocTrackerHelper (fun helper => if ptr =? 0 then ret 0 else helper_untrack false helper ptr;;; ref).

Definition DeleteArrayAlignNoThrowHook (ptr : Z) (ref : M Z) : M Z :=
  scoped DeallocTrackerHelper (fun helper => if ptr =? 0 then ret 0 else helper_untrack false helper ptr;;; ref).

Definition DeleteSizedHook (ptr : Z) (ref : M Z) : M Z :=
  scoped DeallocTrackerHelper (fun helper => if ptr =? 0 then ret 0 else helper_untrack false helper ptr;;; ref).

Definition DeleteArraySizedHook (ptr : Z) (ref : M Z) : M Z :=
  scoped DeallocTrackerHelper (fun helper => if ptr =? 0 then ret 0 else helper_untrack false helper ptr;;; ref).

Definition DeleteSizedAlignHook (ptr : Z) (ref : M Z) : M Z :=
  scoped DeallocTrackerHelper (fun helper => if ptr =? 0 then ret 0 else helper_untrack false helper ptr;;; ref).

Definition DeleteArraySizedAlignHook (ptr : Z) (ref : M Z) : M Z :=
  scoped DeallocTrackerHelper (fun helper => if ptr =? 0 then ret 0 else helper_untrack false helper ptr;;; ref).

Definition CallocHook (nmemb size : Z) (ref : M Z) : M Z :=
  scoped AllocTrackerHelper (fun helper => ptr <- ref;; helper_track false helper ptr (size *w nmemb);;; ret ptr).

Definition ReallocHook (ptr size : Z) (ref : M Z) : M Z :=
  scoped AllocTrackerHelper (fun helper =>
    when (negb (ptr =? 0) && helper) (track_deallocation_s ptr false);;;
    newptr <- ref;;
    when (negb (size =? 0)) (helper_track false helper newptr size);;;
    ret newptr).

(** [*memptr] after the call of the replaced function. *)
Definition PosixMemalignHook (memptr size : Z) (ref : M Z) : M Z :=
  scoped AllocTrackerHelper (fun helper => r <- ref;; when (r =? 0) (helper_track false helper memptr size);;; ret r).

Definition AlignedAllocHook (size : Z) (ref : M Z) : M Z :=
  scoped AllocTrackerHelper (fun helper => ptr <- ref;; when (negb (ptr =? 0)) (helper_track false helper ptr size);;; ret ptr).

Definition MemalignHook (size : Z) (ref : M Z) : M Z :=
  scoped AllocTrackerHelper (fun helper => ptr <- ref;; when (negb (ptr =? 0)) (helper_track false helper ptr size);;; ret ptr).

Definition PvallocHook (size : Z) (ref : M Z) : M Z :=
  scoped AllocTrackerHelper (fun helper => ptr <- ref;; when (negb (ptr =? 0)) (helper_track false helper ptr size);;; ret ptr).

Definition VallocHook (size : Z) (ref : M Z) : M Z :=
  scoped AllocTrackerHelper (fun helper => ptr <- ref;; when (negb (ptr =? 0)) (helper_track false helper ptr size);;; ret ptr).

Definition ReallocArrayHook (ptr nmemb size : Z) (ref : M Z) : M Z :=
  scoped AllocTrackerHelper (fun helper =>
    when (negb (ptr =? 0) && helper) (track_deallocation_s ptr false);;;
    newptr <- ref;;
    when (negb (newptr =? 0)) (helper_track false helper newptr (size *w nmemb));;;
    ret newptr).

(** [update_overrides] of the library: the relocations are updated under a guard. *)
Definition update_overrides (update : M Z) : M Z := scoped MaybeReentryGuard (fun _ => update).

Definition DlopenHook (ref update : M Z) : M Z := r <- ref;; update_overrides update;;; ret r.

Definition MallocxHook (size : Z) (ref : M Z) : M Z :=
  scoped AllocTrackerHelper (fun helper => ptr <- ref;; helper_track false helper ptr size;;; ret ptr).

Definition RallocxHook (ptr size : Z) (ref : M Z) : M Z :=
  scoped AllocTrackerHelper (fun helper =>
    when (negb (ptr =? 0) && helper) (track_deallocation_s ptr false);;;
    newptr <- ref;;
    when (negb (size =? 0)) (helper_track false helper newptr size);;;
    ret newptr).

Definition XallocxHook (ptr : Z) (ref : M Z) : M Z :=
  scoped AllocTrackerHelper (fun helper =>
    when helper (track_deallocation_s ptr false);;;
    newsize <- ref;;
    helper_track false helper ptr newsize;;;
    ret newsize).

Definition DallocxHook (ptr : Z) (ref : M Z) : M Z :=
  scoped DeallocTrackerHelper (fun helper => r <- ref;; helper_untrack false helper ptr;;; ret r).

Definition SdallocxHook (ptr : Z) (ref : M Z) : M Z :=
  scoped DeallocTrackerHelper (fun helper => r <- ref;; helper_untrack false helper ptr;;; ret r).

(** The state of the new thread before its routine: [notify_thread_start]. *)
Definition my_start (start_routine : M Z) : M Z := get_tl_state true;;; start_routine.

(** The routine that the new thread starts with: [my_start], which wraps the one of the caller,
    unless the arguments of the wrapper could not be allocated. *)
Inductive start := MyStart | StartRoutine.

Definition PthreadCreateHook (args : Z) (ref : start -> M Z) : M Z := if args =? 0 then ref StartRoutine else ref MyStart.

Definition notify_pthread_getattr_np (b : bool) : M unit := s <- get_tls;; when (negb (tls_initialized s)) (set_tls (with_guard s b)).

Definition PthreadGetattrHook (ref : M Z) : M Z :=
  notify_pthread_getattr_np true;;; r <- ref;; notify_pthread_getattr_np false;;; ret r.

Definition MmapHook (addr length fd : Z) (ref : M Z) : M Z :=
  scoped AllocTrackerHelperMmap (fun helper =>
    ptr <- ref;; when ((addr =? 0) && (fd =? -1) && negb (ptr =? 0)) (helper_track true helper ptr length);;; ret ptr).

Definition Mmap_Hook (addr length fd : Z) (ref : M Z) : M Z :=
  scoped AllocTrackerHelperMmap (fun helper =>
    ptr <- ref;; when ((addr =? 0) && (fd =? -1) && negb (ptr =? 0)) (helper_track true helper ptr length);;; ret ptr).

Definition Mmap64Hook (addr length fd : Z) (ref : M Z) : M Z :=
  scoped AllocTrackerHelperMmap (fun helper =>
    ptr <- ref;; when ((addr =? 0) && (fd =? -1) && negb (ptr =? 0)) (helper_track true helper ptr length);;; ret ptr).

Definition MunmapHook (addr : Z) (ref : M Z) : M Z :=
  scoped DeallocTrackerHelperMmap (fun helper => helper_untrack true helper addr;;; ref).

Definition Munmap_Hook (addr : Z) (ref : M Z) : M Z :=
  scoped DeallocTrackerHelperMmap (fun helper => helper_untrack true helper addr;;; ref).

End Tracker.

(** ** The hooked functions *)

Inductive hook :=
| Malloc | New | NewNoThrow | NewAlign | NewAlignNoThrow | NewArray | NewArrayNoThrow | NewArrayAlign | NewArrayAlignNoThrow
| Free | FreeSized | FreeAlignedSized
| Delete | DeleteArray | DeleteNoThrow | DeleteArrayNoThrow | DeleteAlign | DeleteArrayAlign | DeleteAlignNoThrow
| DeleteArrayAlignNoThrow | DeleteSized | DeleteArraySized | DeleteSizedAlign | DeleteArraySizedAlign
| Calloc | Realloc | PosixMemalign | AlignedAlloc | Memalign | Pvalloc | Valloc | ReallocArray
| Dlopen | Mallocx | Rallocx | Xallocx | Dallocx | Sdallocx
| PthreadCreate | PthreadGetattr | Mmap | Mmap_ | Mmap64 | Munmap | Munmap_.

#[export] Instance hook_eq_dec : EqDecision hook.
Proof. solve_decision. Defined.

Definition hook_name (h : hook) : string :=
  match h with
  | Malloc => "malloc" | New => "_Znwm" | NewNoThrow => "_ZnwmRKSt9nothrow_t" | NewAlign => "_ZnwmSt11align_val_t"
  | NewAlignNoThrow => "_ZnwmSt11align_val_tRKSt9nothrow_t" | NewArray => "_Znam" | NewArrayNoThrow => "_ZnamRKSt9nothrow_t"
  | NewArrayAlign => "_ZnamSt11align_val_t" | NewArrayAlignNoThrow => "_ZnamSt11align_val_tRKSt9nothrow_t"
  | Free => "free" | FreeSized => "free_sized" | FreeAlignedSized => "free_aligned_sized"
  | Delete => "_ZdlPv" | DeleteArray => "_ZdaPv" | DeleteNoThrow => "_ZdlPvRKSt9nothrow_t" | DeleteArrayNoThrow => "_ZdaPvRKSt9nothrow_t"
  | DeleteAlign => "_ZdlPvSt11align_val_t" | DeleteArrayAlign => "_ZdaPvSt11align_val_t"
  | DeleteAlignNoThrow => "_ZdlPvSt11align_val_tRKSt9nothrow_t" | DeleteArrayAlignNoThrow => "_ZdaPvSt11align_val_tRKSt9nothrow_t"
  | DeleteSized => "_ZdlPvm" | DeleteArraySized => "_ZdaPvm" | DeleteSizedAlign => "_ZdlPvmSt11align_val_t"
  | DeleteArraySizedAlign => "_ZdaPvmSt11align_val_t"
  | Calloc => "calloc" | Realloc => "realloc" | PosixMemalign => "posix_memalign" | AlignedAlloc => "aligned_alloc" | Memalign => "memalign"
  | Pvalloc => "pvalloc" | Valloc => "valloc" | ReallocArray => "reallocarray" | Dlopen => "dlopen" | Mallocx => "mallocx" | Rallocx => "rallocx"
  | Xallocx => "xallocx" | Dallocx => "dallocx" | Sdallocx => "sdallocx" | PthreadCreate => "pthread_create"
  | PthreadGetattr => "pthread_getattr_np" | Mmap => "mmap" | Mmap_ => "__mmap" | Mmap64 => "mmap64" | Munmap => "munmap" | Munmap_ => "__munmap"
  end.

(** The hooks in the order of [register_hooks]. *)
Definition register_hooks (instrument_cxx_allocators : bool) : list hook :=
  [Malloc; Free; FreeSized; FreeAlignedSized; Calloc; Realloc; PosixMemalign; AlignedAlloc; Memalign; Valloc] ++
  (if instrument_cxx_allocators then
     [New; NewArray; NewNoThrow; NewArrayNoThrow; NewAlign; NewArrayAlign; NewAlignNoThrow; NewArrayAlignNoThrow;
      Delete; DeleteArray; DeleteNoThrow; DeleteArrayNoThrow; DeleteAlign; DeleteArrayAlign; DeleteAlignNoThrow; DeleteArrayAlignNoThrow;
      DeleteSized; DeleteArraySized; DeleteSizedAlign; DeleteArraySizedAlign]
   else []) ++
  [Mmap; Mmap64; Munmap; Mmap_; Munmap_; Mallocx; Rallocx; Xallocx; Dallocx; Sdallocx; ReallocArray; Pvalloc; PthreadCreate; Dlopen; PthreadGetattr].

(** The C++ allocators are hooked when [malloc] is not found, or is in the same library. *)
Definition instrument_cxx_allocators (malloc_value malloc_size new_value new_size : Z) (malloc_object new_object : string) : bool :=
  (malloc_value =? 0) || (malloc_size =? 0) || ((0 <? new_value) && (0 <? new_size) && bool_decide (new_object = malloc_object)).

(** ** Calls *)

(** The arguments of a call that its hook uses; [a_out] is [*memptr] after [posix_memalign], and
    the address of the arguments that [pthread_create] allocates. *)
Record args := mkArgs { a_ptr : Z; a_size : Z; a_nmemb : Z; a_fd : Z; a_out : Z }.

(** A call of a hooked function, the calls that the replaced function makes in turn, and what it
    returns ([None]: it throws).  For [dlopen], the calls while the relocations are updated. *)
Inductive call := Call (h : hook) (a : args) (nested updating : list call) (r : option Z).

Section Run.
Context (is_active is_deallocation_tracking_active : list tracker_call -> bool).

Definition run_hook (h : hook) (a : args) (ref update : M Z) : M Z :=
  let act := is_active in let dea := is_deallocation_tracking_active in
  match h with
  | Malloc => MallocHook act (a_size a) ref | New => NewHook act (a_size a) ref | NewNoThrow => NewNoThrowHook act (a_size a) ref
  | NewAlign => NewAlignHook act (a_size a) ref | NewAlignNoThrow => NewAlignNoThrowHook act (a_size a) ref
  | NewArray => NewArrayHook act (a_size a) ref | NewArrayNoThrow => NewArrayNoThrowHook act (a_size a) ref
  | NewArrayAlign => NewArrayAlignHook act (a_size a) ref | NewArrayAlignNoThrow => NewArrayAlignNoThrowHook act (a_size a) ref
  | Free => FreeHook act dea (a_ptr a) ref | FreeSized => FreeSizedHook act dea (a_ptr a) ref | FreeAlignedSized => FreeAlignedSizedHook act dea (a_ptr a) ref
  | Delete => DeleteHook act dea (a_ptr a) ref | DeleteArray => DeleteArrayHook act dea (a_ptr a) ref
  | DeleteNoThrow => DeleteNoThrowHook act dea (a_ptr a) ref | DeleteArrayNoThrow => DeleteArrayNoThrowHook act dea (a_ptr a) ref
  | DeleteAlign => DeleteAlignHook act dea (a_ptr a) ref | DeleteArrayAlign => DeleteArrayAlignHook act dea (a_ptr a) ref
  | DeleteAlignNoThrow => DeleteAlignNoThrowHook act dea (a_ptr a) ref | DeleteArrayAlignNoThrow => DeleteArrayAlignNoThrowHook act dea (a_ptr a) ref
  | DeleteSized => DeleteSizedHook act dea (a_ptr a) ref | DeleteArraySized => DeleteArraySizedHook act dea (a_ptr a) ref
  | DeleteSizedAlign => DeleteSizedAlignHook act dea (a_ptr a) ref | DeleteArraySizedAlign => DeleteArraySizedAlignHook act dea (a_ptr a) ref
  | Calloc => CallocHook act (a_nmemb a) (a_size a) ref | Realloc => ReallocHook act (a_ptr a) (a_size a) ref
  | PosixMemalign => PosixMemalignHook act (a_out a) (a_size a) ref | AlignedAlloc => AlignedAllocHook act (a_size a) ref
  | Memalign => MemalignHook act (a_size a) ref | Pvalloc => PvallocHook act (a_size a) ref | Valloc => VallocHook act (a_size a) ref
  | ReallocArray => ReallocArrayHook act (a_ptr a) (a_nmemb a) (a_size a) ref | Dlopen => DlopenHook act ref update
  | Mallocx => MallocxHook act (a_size a) ref | Rallocx => RallocxHook act (a_ptr a) (a_size a) ref | Xallocx => XallocxHook act (a_ptr a) ref
  | Dallocx => DallocxHook act dea (a_ptr a) ref | Sdallocx => SdallocxHook act dea (a_ptr a) ref
  | PthreadCreate => PthreadCreateHook (a_out a) (fun _ => ref) | PthreadGetattr => PthreadGetattrHook ref
  | Mmap => MmapHook act (a_ptr a) (a_size a) (a_fd a) ref | Mmap_ => Mmap_Hook act (a_ptr a) (a_size a) (a_fd a) ref
  | Mmap64 => Mmap64Hook act (a_ptr a) (a_size a) (a_fd a) ref
  | Munmap => MunmapHook act dea (a_ptr a) ref | Munmap_ => Munmap_Hook act dea (a_ptr a) ref
  end.

(** Calls one after the other; an exception that a nested call throws is caught by its caller. *)
Definition run_list (run : call -> M Z) (cs : list call) : thread -> thread := fun th => foldl (fun th c => snd (run c th)) th cs.

Fixpoint run_call (c : call) : M Z :=
  match c with
  | Call h a nested updating r =>
      run_hook h a
        (fun th => (r, (fix go cs th := match cs with [] => th | c :: cs => go cs (snd (run_call c th)) end) nested th))
        (fun th => (Some 0, (fix go cs th := match cs with [] => th | c :: cs => go cs (snd (run_call c th)) end) updating th))
  end.

Fixpoint run_calls (cs : list call) (th : thread) : thread :=
  match cs with [] => th | c :: cs => run_calls cs (snd (run_call c th)) end.

Definition ref_of (nested : list call) (r : option Z) : M Z := fun th => (r, run_calls nested th).

Lemma run_call_eq h a nested updating r : run_call (Call h a nested updating r) = run_hook h a (ref_of nested r) (ref_of updating (Some 0)).
Proof. reflexivity. Qed.

(** Induction on calls with their nested calls. *)
Lemma call_nested_ind (P : call -> Prop) : (forall h a nested updating r, Forall P nested -> Forall P updating -> P (Call h a nested updating r)) -> forall c, P c.
Proof.
  intros H. fix IH 1. intros [h a nested updating r]. apply H; [induction nested as [|c cs IHc]|induction updating as [|c cs IHc]]; constructor; [apply IH|exact IHc|apply IH|exact IHc].
Qed.

(** *** Calls in the scope of a guard *)

(** The thread is inside a hook, or inside [pthread_getattr_np] before its state is set up. *)
Definition guarded (th : thread) : Prop := tls_reentry_guard (th_tls th) = true.

(** A computation that does nothing to the thread. *)
Definition inert {A} (th : thread) (m : M A) : Prop := snd (m th) = th.

Lemma with_guard_id th : guarded th -> mkThread (with_guard (th_tls th) true) (th_log th) = th.
Proof. destruct th as [[i g b] l]. unfold guarded. cbn. by intros ->. Qed.

Lemma alloc_helper_guarded mm th : guarded th -> AllocTrackerHelperImpl is_active mm th = (Some false, th).
Proof.
  intros Hg. unfold AllocTrackerHelperImpl, bind, get_tl_state. destruct (tls_initialized (th_tls th)) eqn:Ei.
  - cbn. unfold bind. cbn. unfold guarded in Hg. rewrite Hg. cbn. f_equal. by apply with_guard_id.
  - rewrite Hg. by destruct mm.
Qed.

Lemma dealloc_helper_guarded mm th : guarded th -> DeallocTrackerHelperImpl is_active is_deallocation_tracking_active mm th = (Some false, th).
Proof.
  intros Hg. unfold DeallocTrackerHelperImpl. destruct (is_deallocation_tracking_active _); [by apply alloc_helper_guarded|done].
Qed.

Lemma scoped_inert {A} th guard (body : bool -> M A) : guard th = (Some false, th) -> inert th (body false) -> inert th (scoped guard body).
Proof.
  intros Hg Hb. unfold inert, scoped, bind in *. rewrite Hg. by destruct (body false th) as [r th'].
Qed.

Lemma bind_inert {A B} th (m : M A) (k : A -> M B) : inert th m -> (forall x, inert th (k x)) -> inert th (x <- m;; k x).
Proof.
  intros Hm Hk. unfold inert, bind in *. destruct (m th) as [[x|] th']; cbn in Hm; subst th'; [by apply Hk|done].
Qed.

Lemma when_inert b m th : inert th m -> inert th (when b m).
Proof. by destruct b. Qed.

Lemma when_andb_inert b m th : inert th (when (b && false) m).
Proof. by destruct b. Qed.

(** Hooks without effect: the guard is taken. *)
Ltac inert_hook :=
  repeat first
    [ assumption | reflexivity
    | apply scoped_inert; [first [by apply (alloc_helper_guarded true)|by apply (alloc_helper_guarded false)|by apply (dealloc_helper_guarded true)|by apply (dealloc_helper_guarded false)]|]
    | apply when_andb_inert | apply when_inert
    | match goal with |- inert _ (if ?b then _ else _) => destruct b end
    | apply bind_inert; [|intros ?] ].

Lemma run_hook_inert h a th (ref update : M Z) : guarded th -> (tls_initialized (th_tls th) = true \/ h <> PthreadGetattr) ->
  inert th ref -> inert th update -> inert th (run_hook h a ref update).
Proof.
  intros Hg Hh Hr Hu. destruct h; cbn [run_hook]; try (unfold MallocHook, NewHook, NewNoThrowHook, NewAlignHook, NewAlignNoThrowHook, NewArrayHook,
    NewArrayNoThrowHook, NewArrayAlignHook, NewArrayAlignNoThrowHook, FreeHook, FreeSizedHook, FreeAlignedSizedHook, DeleteHook, DeleteArrayHook,
    DeleteNoThrowHook, DeleteArrayNoThrowHook, DeleteAlignHook, DeleteArrayAlignHook, DeleteAlignNoThrowHook, DeleteArrayAlignNoThrowHook,
    DeleteSizedHook, DeleteArraySizedHook, DeleteSizedAlignHook, DeleteArraySizedAlignHook, CallocHook, ReallocHook, PosixMemalignHook,
    AlignedAllocHook, MemalignHook, PvallocHook, VallocHook, ReallocArrayHook, DlopenHook, update_overrides, MallocxHook, RallocxHook, XallocxHook,
    DallocxHook, SdallocxHook, PthreadCreateHook, MmapHook, Mmap_Hook, Mmap64Hook, MunmapHook, Munmap_Hook; inert_hook; fail).
  destruct Hh as [Hi|]; [|done]. unfold PthreadGetattrHook, notify_pthread_getattr_np. unfold inert, bind, get_tls in *. rewrite Hi. cbn.
  destruct (ref th) as [[x|] th']; cbn in Hr; subst th'; [|done]. cbn. by rewrite Hi.
Qed.

(** No call of the tree is one of [pthread_getattr_np]. *)
Fixpoint no_getattr (c : call) : bool :=
  match c with Call h _ nested updating _ => negb (bool_decide (h = PthreadGetattr)) && forallb no_getattr nested && forallb no_getattr updating end.

Lemma run_calls_inert th cs : Forall (fun c => inert th (run_call c)) cs -> run_calls cs th = th.
Proof. induction 1 as [|c cs Hc _ IH]; [done|]. cbn [run_calls]. by rewrite Hc. Qed.

(** The calls of a guarded thread do nothing. *)
Lemma guarded_inert th c : guarded th -> (tls_initialized (th_tls th) = true \/ no_getattr c = true) -> inert th (run_call c).
Proof.
  intros Hg. induction c as [h a nested updating r IHn IHu] using call_nested_ind. intros Hc. rewrite run_call_eq.
  assert (Hsub : forall cs, Forall (fun c => tls_initialized (th_tls th) = true \/ no_getattr c = true -> inert th (run_call c)) cs ->
    (tls_initialized (th_tls th) = true \/ forallb no_getattr cs = true) -> run_calls cs th = th).
  { intros cs Hcs Hok. apply run_calls_inert. rewrite Forall_forall in Hcs |- *. intros c Hin. apply Hcs; [done|]. destruct Hok as [?|Hall]; [by left|right].
    rewrite forallb_forall in Hall. apply Hall. by apply list_elem_of_In. }
  cbn [no_getattr] in Hc. rewrite !andb_true_iff, negb_true_iff, bool_decide_eq_false in Hc.
  apply run_hook_inert; [done|tauto|apply (Hsub _ IHn); tauto|apply (Hsub _ IHu); tauto].
Qed.

(** *** The live blocks *)

(** What the tracker knows after a call. *)
Definition track_one (m : gmap Z Z) (c : tracker_call) : gmap Z Z :=
  match c with TrackAllocation a n _ _ => <[a := n]> m | TrackDeallocation a _ _ => delete a m end.
Definition tracked (m : gmap Z Z) (l : list tracker_call) : gmap Z Z := foldl track_one m l.

Definition MAP_FAILED : Z := 2 ^ 64 - 1.

Definition free_block (ptr : Z) (m : gmap Z Z) : gmap Z Z := if ptr =? 0 then m else delete ptr m.

(** The live blocks, with their sizes, after a call of the replaced function that returns [r].  Of the mappings only the
    anonymous ones without an address count: a mapping of a file or at a given address is no allocation. *)
Definition heap_after (h : hook) (a : args) (r : option Z) (m : gmap Z Z) : gmap Z Z :=
  match r with
  | None => m
  | Some p =>
      match h with
      | Malloc | New | NewNoThrow | NewAlign | NewAlignNoThrow | NewArray | NewArrayNoThrow | NewArrayAlign | NewArrayAlignNoThrow
      | AlignedAlloc | Memalign | Pvalloc | Valloc | Mallocx => if p =? 0 then m else <[p := a_size a]> m
      | Calloc => if p =? 0 then m else <[p := a_nmemb a * a_size a]> m
      | Free | FreeSized | FreeAlignedSized | Delete | DeleteArray | DeleteNoThrow | DeleteArrayNoThrow | DeleteAlign | DeleteArrayAlign
      | DeleteAlignNoThrow | DeleteArrayAlignNoThrow | DeleteSized | DeleteArraySized | DeleteSizedAlign | DeleteArraySizedAlign
      | Dallocx | Sdallocx => free_block (a_ptr a) m
      | Realloc | Rallocx => if a_size a =? 0 then free_block (a_ptr a) m else if p =? 0 then m else <[p := a_size a]> (free_block (a_ptr a) m)
      | ReallocArray => if p =? 0 then m else <[p := a_nmemb a * a_size a]> (free_block (a_ptr a) m)
      | PosixMemalign => if p =? 0 then <[a_out a := a_size a]> m else m
      | Xallocx => <[a_ptr a := p]> m
      | Mmap | Mmap_ | Mmap64 => if (a_ptr a =? 0) && (a_fd a =? -1) && negb (p =? MAP_FAILED) then <[p := a_size a]> m else m
      | Munmap | Munmap_ => if p =? 0 then delete (a_ptr a) m else m
      | Dlopen | PthreadCreate | PthreadGetattr => m
      end
  end.

(** The replaced function does not fail; only [new] throws. *)
Definition succeeds (h : hook) (a : args) (r : option Z) : Prop :=
  match r with
  | None => h = New \/ h = NewAlign \/ h = NewArray \/ h = NewArrayAlign
  | Some p =>
      match h with
      | Malloc | New | NewNoThrow | NewAlign | NewAlignNoThrow | NewArray | NewArrayNoThrow | NewArrayAlign | NewArrayAlignNoThrow | Mallocx => p <> 0
      | Calloc => p <> 0 /\ 0 <= a_nmemb a * a_size a < 2 ^ 64
      | ReallocArray => p <> 0 /\ 0 <= a_nmemb a * a_size a < 2 ^ 64
      | Realloc | Rallocx => a_size a = 0 \/ p <> 0
      | Dallocx | Sdallocx => a_ptr a <> 0
      | Mmap | Mmap_ | Mmap64 => p <> 0 /\ p <> MAP_FAILED
      | Munmap | Munmap_ => p = 0
      | _ => True
      end
  end.

(** The calls of these functions are calls of the program: no guard is held. *)
Definition transparent (h : hook) : bool := bool_decide (h = Dlopen) || bool_decide (h = PthreadCreate) || bool_decide (h = PthreadGetattr).

Fixpoint heap_call (c : call) (m : gmap Z Z) : gmap Z Z :=
  match c with
  | Call h a nested _ r =>
      if transparent h then (fix go cs m := match cs with [] => m | c :: cs => go cs (heap_call c m) end) nested m else heap_after h a r m
  end.
Definition heap_calls (cs : list call) (m : gmap Z Z) : gmap Z Z := foldl (fun m c => heap_call c m) m cs.

Inductive call_ok : call -> Prop :=
| ok_transparent h a nested updating r : transparent h = true -> is_Some r -> Forall call_ok nested -> call_ok (Call h a nested updating r)
| ok_call h a nested updating r : transparent h = false -> succeeds h a r -> call_ok (Call h a nested updating r).

(** *** Outermost calls *)

Context (Hdealloc : forall l, is_deallocation_tracking_active l = true).

(** A thread outside of any hook, after the calls [l] of the tracker; and inside one. *)
Definition outside (l : list tracker_call) : thread := mkThread (mkTls true false true) l.
Definition inside (l : list tracker_call) : thread := mkThread (mkTls true true true) l.

(** In the mmap hooks, and only there, the tracker must not allocate. *)
Definition call_allowed (c : tracker_call) : Prop :=
  match c with TrackAllocation _ _ large allowed | TrackDeallocation _ large allowed => allowed = negb large end.

(** The calls [es] of the tracker that a hook makes follow the live blocks. *)
Definition follows (es : list tracker_call) (f : gmap Z Z -> gmap Z Z) : Prop := Forall call_allowed es /\ forall m, tracked m es = f m.

Lemma scoped_outside {A} guard (body : bool -> M A) l r l' : guard (outside l) = (Some true, inside l) -> body true (inside l) = (r, inside l') ->
  scoped guard body (outside l) = (r, outside l').
Proof. intros Hg Hb. unfold scoped, bind. by rewrite Hg, Hb. Qed.

Lemma alloc_helper_outside mm l : AllocTrackerHelperImpl is_active mm (outside l) = (Some true, inside l).
Proof. done. Qed.

Lemma dealloc_helper_outside mm l : DeallocTrackerHelperImpl is_active is_deallocation_tracking_active mm (outside l) = (Some true, inside l).
Proof. unfold DeallocTrackerHelperImpl. by rewrite Hdealloc. Qed.

Lemma track_inside mm p n l : helper_track mm true p n (inside l) = (Some tt, inside (l ++ [TrackAllocation p n mm (negb mm)])).
Proof. by destruct mm. Qed.
Lemma untrack_inside mm p l : helper_untrack mm true p (inside l) = (Some tt, inside (l ++ [TrackDeallocation p mm (negb mm)])).
Proof. by destruct mm. Qed.

(** The shapes of the hooks, and the calls of the tracker they make. *)
Section Shapes.
Context (ref : M Z) (r : option Z) (l : list tracker_call) (Href : forall l, ref (inside l) = (r, inside l)).

Definition makes (m : M Z) (es : list tracker_call) : Prop := snd (m (outside l)) = outside (l ++ es).

Definition allocated (mm : bool) (p n : Z) : list tracker_call := [TrackAllocation p n mm (negb mm)].
Definition deallocated (mm : bool) (p : Z) : list tracker_call := [TrackDeallocation p mm (negb mm)].

Lemma alloc_shape size : makes (MallocHook is_active size ref) (match r with Some p => allocated false p size | None => [] end).
Proof. unfold makes, MallocHook, scoped, bind. cbn. rewrite Href. destruct r; cbn; [done|by rewrite app_nil_r]. Qed.

Lemma alloc_found_shape size : makes (AlignedAllocHook is_active size ref) (match r with Some p => if p =? 0 then [] else allocated false p size | None => [] end).
Proof. unfold makes, AlignedAllocHook, scoped, bind. cbn. rewrite Href. destruct r as [p|]; [destruct (p =? 0)|]; cbn; rewrite ?app_nil_r; done. Qed.

Lemma free_shape ptr : makes (FreeHook is_active is_deallocation_tracking_active ptr ref) (if ptr =? 0 then [] else deallocated false ptr).
Proof.
  unfold makes, FreeHook, scoped, bind, DeallocTrackerHelper. rewrite dealloc_helper_outside. destruct (ptr =? 0); cbn; [by rewrite app_nil_r|]. unfold bind. cbn. by rewrite Href.
Qed.

Lemma realloc_shape ptr size : makes (ReallocHook is_active ptr size ref)
  ((if ptr =? 0 then [] else deallocated false ptr) ++ match r with Some p => if size =? 0 then [] else allocated false p size | None => [] end).
Proof.
  unfold makes, ReallocHook, scoped, bind. cbn. destruct (ptr =? 0); cbn; unfold bind; cbn; rewrite Href; destruct r as [p|]; [destruct (size =? 0)| |destruct (size =? 0)|]; cbn;
    rewrite ?app_nil_r, <- ?app_assoc; done.
Qed.

Lemma reallocarray_shape ptr nmemb size : makes (ReallocArrayHook is_active ptr nmemb size ref)
  ((if ptr =? 0 then [] else deallocated false ptr) ++ match r with Some p => if p =? 0 then [] else allocated false p (size *w nmemb) | None => [] end).
Proof.
  unfold makes, ReallocArrayHook, scoped, bind. cbn -[u64]. destruct (ptr =? 0); cbn -[u64]; unfold bind; cbn -[u64]; rewrite Href; destruct r as [p|]; [destruct (p =? 0)| |destruct (p =? 0)|]; cbn -[u64];
    rewrite ?app_nil_r, <- ?app_assoc; done.
Qed.

Lemma posix_shape memptr size : makes (PosixMemalignHook is_active memptr size ref) (match r with Some p => if p =? 0 then allocated false memptr size else [] | None => [] end).
Proof. unfold makes, PosixMemalignHook, scoped, bind. cbn. rewrite Href. destruct r as [p|]; [destruct (p =? 0)|]; cbn; rewrite ?app_nil_r; done. Qed.

Lemma xallocx_shape ptr : makes (XallocxHook is_active ptr ref) (deallocated false ptr ++ match r with Some n => allocated false ptr n | None => [] end).
Proof. unfold makes, XallocxHook, scoped, bind. cbn. unfold bind. cbn. rewrite Href. destruct r; cbn; rewrite <- ?app_assoc; done. Qed.

Lemma dallocx_shape ptr : makes (DallocxHook is_active is_deallocation_tracking_active ptr ref) (match r with Some _ => deallocated false ptr | None => [] end).
Proof. unfold makes, DallocxHook, scoped, bind, DeallocTrackerHelper. rewrite dealloc_helper_outside. unfold bind. rewrite Href. destruct r; cbn; rewrite ?app_nil_r; done. Qed.

Lemma mmap_shape addr length fd : makes (MmapHook is_active addr length fd ref)
  (match r with Some p => if (addr =? 0) && (fd =? -1) && negb (p =? 0) then allocated true p length else [] | None => [] end).
Proof. unfold makes, MmapHook, scoped, bind. cbn. rewrite Href. destruct r as [p|]; [destruct (_ && _ && _)|]; cbn; rewrite ?app_nil_r; done. Qed.

Lemma munmap_shape addr : makes (MunmapHook is_active is_deallocation_tracking_active addr ref) (deallocated true addr).
Proof. unfold makes, MunmapHook, scoped, bind, DeallocTrackerHelperMmap. rewrite dealloc_helper_outside. unfold bind. cbn. by rewrite Href. Qed.

End Shapes.

Lemma mul_size a b : 0 <= a * b < 2 ^ 64 -> b *w a = a * b.
Proof. intros H. rewrite (Z.mul_comm b a). apply Z.mod_small. lia. Qed.

Ltac follow :=
  repeat match goal with
  | H : _ /\ _ |- _ => destruct H
  | H : _ <> 0 |- _ => apply Z.eqb_neq in H
  | H : _ <> MAP_FAILED |- _ => apply Z.eqb_neq in H
  | H : ?x = 0 |- _ => apply Z.eqb_eq in H
  | H : (?x =? ?y) = ?b |- context [?x =? ?y] => rewrite H
  | |- context [match (if ?b then _ else _) with _ => _ end] => destruct b eqn:?
  | |- context [if ?b then _ else _] => destruct b eqn:?
  end.

Lemma run_hook_outside h a (ref update : M Z) r l : transparent h = false -> succeeds h a r ->
  (forall l, ref (inside l) = (r, inside l)) ->
  exists es, snd (run_hook h a ref update (outside l)) = outside (l ++ es) /\ follows es (heap_after h a r).
Proof.
  intros Ht Hs Hr. unfold follows.
  destruct h; try done; cbn [run_hook]; eexists;
    (split; [first [exact (alloc_shape ref r l Hr _)|exact (alloc_found_shape ref r l Hr _)|exact (free_shape ref r l Hr _)|exact (realloc_shape ref r l Hr _ _)
      |exact (reallocarray_shape ref r l Hr _ _ _)|exact (posix_shape ref r l Hr _ _)|exact (xallocx_shape ref r l Hr _)|exact (dallocx_shape ref r l Hr _)
      |exact (mmap_shape ref r l Hr _ _ _)|exact (munmap_shape ref r l Hr _)]|]);
    (destruct r as [p|]; [|cbn [succeeds] in Hs; try (exfalso; destruct Hs as [Hs|[Hs|[Hs|Hs]]]; discriminate Hs)]); cbn [succeeds heap_after] in *; unfold free_block, allocated, deallocated; follow;
    rewrite ?mul_size by done; try (split; [repeat constructor|]; intros m; cbn; done).
  all: try (exfalso; zbool; lia).
  split; [repeat constructor|]. intros m. cbn. apply insert_delete_eq.
Qed.

Lemma tracked_app m l l' : tracked m (l ++ l') = tracked (tracked m l) l'.
Proof. apply foldl_app. Qed.

Lemma follows_app es es' f g : follows es f -> follows es' g -> follows (es ++ es') (fun m => g (f m)).
Proof. intros [A1 T1] [A2 T2]. split; [by apply Forall_app|]. intros m. by rewrite tracked_app, T1, T2. Qed.

Lemma heap_call_transparent h a nested updating r m : transparent h = true -> heap_call (Call h a nested updating r) m = heap_calls nested m.
Proof.
  intros Ht. cbn [heap_call]. rewrite Ht. revert m. induction nested as [|c cs IH]; intros m; [done|]. cbn [heap_calls foldl]. apply IH.
Qed.

(** Calls one after the other. *)
Lemma run_calls_outside cs : Forall (fun c => call_ok c -> forall l, exists es, snd (run_call c (outside l)) = outside (l ++ es) /\ follows es (heap_call c)) cs ->
  Forall call_ok cs -> forall l, exists es, run_calls cs (outside l) = outside (l ++ es) /\ follows es (heap_calls cs).
Proof.
  induction 1 as [|c cs Hc _ IH]; intros Hok l; [exists []; rewrite app_nil_r; split; [done|]; split; [constructor|done]|].
  apply Forall_cons in Hok as [Hok1 Hok2]. destruct (Hc Hok1 l) as (es & E & F). destruct (IH Hok2 (l ++ es)) as (es' & E' & F').
  exists (es ++ es'). cbn [run_calls]. rewrite E, E', app_assoc. split; [done|]. exact (follows_app _ _ _ _ F F').
Qed.

Lemma inside_inert cs l : run_calls cs (inside l) = inside l.
Proof. apply run_calls_inert, Forall_forall. intros c _. apply guarded_inert; [done|by left]. Qed.

(** On the creating thread both starts are one call of the replaced function. *)
Lemma pthread_create_same args (ref : M Z) : PthreadCreateHook args (fun _ => ref) = ref.
Proof. unfold PthreadCreateHook. by case_match. Qed.

Lemma run_call_outside c : call_ok c -> forall l, exists es, snd (run_call c (outside l)) = outside (l ++ es) /\ follows es (heap_call c).
Proof.
  induction c as [h a nested updating r IHn _] using call_nested_ind. intros Hok l. rewrite run_call_eq.
  inversion Hok as [? ? ? ? ? Ht [p ->] Hn|? ? ? ? ? Ht Hs]; subst.
  - destruct (run_calls_outside nested IHn Hn l) as (es & E & F). exists es. split.
    + destruct h; try done; cbn [run_hook]; rewrite ?pthread_create_same; unfold DlopenHook, PthreadGetattrHook, bind, ref_of; cbn; rewrite E; try done.
      unfold update_overrides, scoped, bind. cbn. by rewrite inside_inert.
    + destruct F as [F1 F2]. split; [done|]. intros m. by rewrite heap_call_transparent.
  - destruct (run_hook_outside h a (ref_of nested r) (ref_of updating (Some 0)) r l Ht Hs) as (es & E & F).
    + intros l'. unfold ref_of. by rewrite inside_inert.
    + exists es. split; [done|]. destruct F as [F1 F2]. split; [done|]. intros m. cbn [heap_call]. rewrite Ht. apply F2.
Qed.

End Run.


(** A thread whose state is not set up, and that is inside [pthread_getattr_np]: setting it up
    would call the function again, which waits for itself.  No hooked function that is called
    there sets the state up or calls the tracker, and afterwards the thread is as before. *)
Lemma getattr_defers_setup is_active is_deallocation_tracking_active nested updating a r al l :
  forallb no_getattr nested = true ->
  let th := mkThread (mkTls false false al) l in
  run_call is_active is_deallocation_tracking_active (Call PthreadGetattr a nested updating (Some r)) th = (Some r, th).
Proof.
  intros Hn. rewrite run_call_eq. cbv zeta. cbn [run_hook]. unfold PthreadGetattrHook, bind, notify_pthread_getattr_np, ref_of. cbn.
  rewrite run_calls_inert; [done|]. apply Forall_forall. intros c Hc. apply guarded_inert; [done|right]. rewrite forallb_forall in Hn. apply Hn. by apply list_elem_of_In.
Qed.

(** ** At work *)

Definition size_args (n : Z) : args := mkArgs 0 n 1 (-1) 0.
Definition ptr_args (p n : Z) : args := mkArgs p n 1 (-1) 0.
Definition leaf (h : hook) (a : args) (r : Z) : call := Call h a [] [] (Some r).

(** A [new] that calls [malloc], which maps memory; the block is moved by [realloc], which frees
    and allocates inside; a library whose constructor allocates is loaded; [new] throws; the
    first block is freed. *)
Definition demo_calls : list call :=
  [Call New (size_args 100) [Call Malloc (size_args 100) [leaf Mmap (size_args 4096) 0x7f0000000000] [] (Some 0x1000)] [] (Some 0x1000);
   Call Realloc (ptr_args 0x1000 200) [leaf Malloc (size_args 200) 0x2000; leaf Free (ptr_args 0x1000 0) 0] [] (Some 0x2000);
   Call Dlopen (size_args 0) [leaf Calloc (mkArgs 0 8 4 0 0) 0x3000] [leaf Malloc (size_args 16) 0x4000] (Some 1);
   Call New (size_args 1) [leaf Malloc (size_args 1) 0] [] None;
   leaf Mmap (size_args 8192) 0x7f0000100000; leaf Free (ptr_args 0 0) 0; leaf Free (ptr_args 0x2000 0) 0].


(** ** Divergences *)

(** A failed allocation is reported as one at address 0, and a failed mapping, which is
    [MAP_FAILED] and not null, at the last address. *)
Example failed_allocations_tracked :
  th_log (run_calls (fun _ => true) (fun _ => true) [leaf Malloc (size_args 100) 0; leaf Mmap (size_args 4096) MAP_FAILED] (outside [])) =
  [TrackAllocation 0 100 false true; TrackAllocation MAP_FAILED 4096 true false].
Proof. vm_compute. reflexivity. Qed.

(** A [realloc] that fails leaves the block alone, but it is reported as freed. *)
Example failed_realloc_loses_block :
  let cs := [leaf Malloc (size_args 100) 0x1000; leaf Realloc (ptr_args 0x1000 200) 0] in
  heap_calls cs ∅ !! 0x1000 = Some 100 /\
  tracked ∅ (th_log (run_calls (fun _ => true) (fun _ => true) cs (outside []))) !! 0x1000 = None.
Proof. vm_compute. done. Qed.

(** The size of [calloc] and [reallocarray] wraps. *)
Example calloc_size_wraps :
  th_log (run_calls (fun _ => true) (fun _ => true) [leaf Calloc (mkArgs 0 (2 ^ 32) (2 ^ 32) 0 0) 0] (outside [])) = [TrackAllocation 0 0 false true].
Proof. vm_compute. reflexivity. Qed.

(** The end of a [pthread_getattr_np] inside another opens the guard of the outer one. *)
Example nested_getattr_opens_guard :
  let th := mkThread (mkTls false false true) [] in
  let inner := Call PthreadGetattr (size_args 0) [] [] (Some 0) in
  tls_initialized (th_tls (snd (run_call (fun _ => true) (fun _ => true) (Call PthreadGetattr (size_args 0) [inner; leaf Malloc (size_args 8) 0x1000] [] (Some 0)) th))) = true.
Proof. vm_compute. reflexivity. Qed.
