(* ===== verification/Interposition.v ===== *)
(** * Interposition in the process

    Model of the functions of [src/lib/symbol_overrides.cc] that install the hooks of [Hooks] with
    the overrides of [Overrides]: which functions are hooked, and the global object of the overrides. *)

From Stdlib Require Import Ascii.
From S2P Require Import Prelude ElfLookup Overrides Hooks.

Definition symbol_name (h : hook) : list Z := map (fun c => Z.of_nat (nat_of_ascii c)) (String.list_ascii_of_string (hook_name h)).

Section Interposition.
Context (self : Z) (mprotect : Z -> bool).
(** The addresses of the hooks. *)
Context (hook_address : hook -> Z).

(** [register_hook]: the reference is not known yet. *)
Definition register_hook (s : SymbolOverrides) (h : hook) : SymbolOverrides := snd (register_override s (symbol_name h) (hook_address h) 0 0).

(** [register_hooks]: the C++ allocators are hooked when the lookups say so. *)
Definition register_found_hooks (libs : list Library) (s : SymbolOverrides) : option SymbolOverrides :=
  let? m := lookup_symbol self libs (symbol_name Malloc) false 0 in
  let? n := lookup_symbol self libs (symbol_name New) false 0 in
  let cxx := instrument_cxx_allocators (st_value (lr_symbol m)) (st_size (lr_symbol m)) (st_value (lr_symbol n)) (st_size (lr_symbol n)) (lr_object_name m) (lr_object_name n) in
  Some (foldl register_hook s (register_hooks cxx)).

(** [g]: [g_symbol_overrides]. *)
Definition setup_overrides (g : option SymbolOverrides) (libs : list Library) (adds : Z) (mem : memory) : option (option SymbolOverrides * memory) :=
  let? s := match g with Some s => Some s | None => register_found_hooks libs new_SymbolOverrides end in
  let? (s, mem) := apply_overrides self mprotect s libs adds mem in
  Some (Some s, mem).

Definition restore_overrides (g : option SymbolOverrides) (libs : list Library) (mem : memory) : option (option SymbolOverrides * memory) :=
  match g with
  | Some s => let? (_, mem) := Overrides.restore_overrides mprotect s libs mem in Some (None, mem)
  | None => Some (None, mem)
  end.

Definition update_overrides (g : option SymbolOverrides) (libs : list Library) (adds : Z) (mem : memory) : option (option SymbolOverrides * memory) :=
  match g with
  | Some s => let? (s, mem) := Overrides.update_overrides self mprotect s libs adds mem in Some (Some s, mem)
  | None => Some (None, mem)
  end.

(** ** Theorems *)

(** Every override is the one of a hook. *)
Definition all_hooks (os : gmap (list Z) SymbolOverrideInfo) : Prop := forall name o, os !! name = Some o -> exists h, name = symbol_name h /\ so_new_symbol o = hook_address h.

Lemma register_hook_ok s h : all_hooks (so_overrides s) -> all_hooks (so_overrides (register_hook s h)) /\ so_revert_info (register_hook s h) = so_revert_info s.
Proof.
  intros Hs. unfold register_hook, register_override. destruct (so_overrides s !! symbol_name h); [done|]. split; [|done]. cbn [snd so_overrides].
  intros name o. rewrite lookup_insert_Some. intros [[<- <-]|[_ H]]; [by exists h|by eapply Hs].
Qed.

Lemma register_all_ok hs s : all_hooks (so_overrides s) -> all_hooks (so_overrides (foldl register_hook s hs)) /\ so_revert_info (foldl register_hook s hs) = so_revert_info s.
Proof.
  revert s. induction hs as [|h hs IH]; intros s Ha; [done|]. cbn [foldl]. destruct (register_hook_ok s h Ha) as [Ha' Hr']. destruct (IH _ Ha') as [H1 H2]. split; [done|congruence].
Qed.

Lemma register_found_ok libs s : register_found_hooks libs new_SymbolOverrides = Some s -> all_hooks (so_overrides s) /\ so_revert_info s = ∅.
Proof.
  unfold register_found_hooks. destruct (lookup_symbol _ _ (symbol_name Malloc) _ _) as [m|]; [|done]. destruct (lookup_symbol _ _ (symbol_name New) _ _) as [n|]; [|done].
  intros <-%Some_inj. apply register_all_ok. intros name o H. cbn in H. by rewrite lookup_empty in H.
Qed.

Lemma resolve_hooks libs l l' : resolve_all self libs l = Some l' -> forall name o', (name, o') ∈ l' -> exists o, (name, o) ∈ l /\ so_new_symbol o' = so_new_symbol o.
Proof.
  revert l'. induction l as [|[n o] l IH]; intros l' E; cbn [resolve_all] in E; [injection E as <-; intros ? ? H; by apply not_elem_of_nil in H|].
  unfold resolve in E. destruct (lookup_symbol _ _ _ _ _) as [r|]; [|done]. destruct (resolve_all _ _ l) as [l1|]; [|done]. injection E as <-.
  intros name o' [E0|Hin]%elem_of_cons.
  - injection E0 as -> ->. exists o. split; [apply list_elem_of_here|]. by destruct (_ && _).
  - destruct (IH l1 eq_refl name o' Hin) as (o0 & Ho & Hs). exists o0. split; [by apply list_elem_of_further|done].
Qed.

Lemma apply_hooks L s mem orig n s' mem' : overrides_inv self mprotect L s mem orig -> flags_ok true L -> all_hooks (so_overrides s) ->
  apply_overrides self mprotect s (map snd L) n mem = Some (s', mem') -> all_hooks (so_overrides s').
Proof.
  intros Hinv Hf Ha E. unfold apply_overrides in E. destruct (resolve_all self (map snd L) (map_to_list (so_overrides s))) as [os|] eqn:Eo; [|done].
  pose proof (resolve_more_refs _ _ _ _ Eo) as Hm. destruct (update_spec _ _ _ _ _ _ _ _ _ (overrides_inv_refs _ _ _ _ _ _ _ Hinv Hm) Hf E) as [_ ->]. cbn [so_overrides].
  intros name o Hn. apply elem_of_list_to_map_2 in Hn. destruct (resolve_hooks _ _ _ Eo name o Hn) as (o0 & Ho & ->). apply elem_of_map_to_list in Ho. by eapply Ha.
Qed.

Definition hooked_image (p : process_image) : Prop := image_ok self mprotect p /\ all_hooks (so_overrides (pi_so p)).

Lemma hooked_step p p' : hooked_image p -> image_step self mprotect false p p' -> hooked_image p'.
Proof.
  intros [Hp Ha] Hstep. split; [by eapply image_step_ok|]. destruct Hp as (Hinv & Hf & _). destruct Hstep; cbn [pi_so pi_libs pi_mem pi_orig] in *; try done.
  - by eapply apply_hooks.
  - destruct (update_spec _ _ _ _ _ _ _ _ _ Hinv Hf H) as [_ ->]. done.
Qed.

Lemma setup_hooked L n mem g mem' : libs_ok self mprotect L -> flags_ok true L -> L <> [] -> setup_overrides None (map snd L) n mem = Some (g, mem') ->
  exists s, g = Some s /\ hooked_image (mkPI L n mem' mem s).
Proof.
  intros HL Hf Hne E. unfold setup_overrides in E. destruct (register_found_hooks (map snd L) new_SymbolOverrides) as [s|] eqn:Er; [|done].
  destruct (apply_overrides self mprotect s (map snd L) n mem) as [[s1 m1]|] eqn:Ea; [|done]. injection E as <- <-. exists s1. split; [done|].
  destruct (register_found_ok _ _ Er) as [Ha Hr]. pose proof (image_start self mprotect L n mem s HL Hf Hne Hr) as H0.
  split; [eapply image_step_ok; [by apply step_apply|exact H0]|]. destruct H0 as (Hinv & _). by eapply apply_hooks.
Qed.
End Interposition.

(** C6: in a process whose relocation words can be made writable and belong to one library each:
    after the hooks are installed, whatever libraries it loads and unloads and however often the
    overrides are updated, a word of its memory holds what the program put there or the address of
    one of the hooks; and removing the hooks gives the memory that the process would have without
    them, and forgets the overrides.  Two things are excluded: a library loaded at the address of
    one that was unloaded since the last update (it is taken for the old one,
    [reloaded_library_not_hooked]), and a program that itself writes a redirected word. *)
Theorem interposition_undone self mprotect hook_address L n mem g mem' p :
  libs_ok self mprotect L -> flags_ok true L -> L <> [] -> setup_overrides self mprotect hook_address None (map snd L) n mem = Some (g, mem') ->
  (forall s, g = Some s -> rtc (image_step self mprotect false) (mkPI L n mem' mem s) p) ->
  (forall a v, pi_mem p !! a = Some v -> pi_orig p !! a = Some v \/ exists h, v = hook_address h) /\
  restore_overrides mprotect (Some (pi_so p)) (map snd (pi_libs p)) (pi_mem p) = Some (None, pi_orig p).
Proof.
  intros HL Hf Hne Es Hrun. destruct (setup_hooked self mprotect hook_address L n mem g mem' HL Hf Hne Es) as (s & -> & Hh).
  specialize (Hrun s eq_refl). assert (Hp : hooked_image self mprotect hook_address p) by (clear - Hrun Hh; induction Hrun as [|p1 p2 p3 H12 _ IH]; [done|]; by eapply IH, hooked_step).
  destruct Hp as [Hp Ha]. split.
  - intros a v Hv. destruct (image_redirected _ _ _ _ _ Hp Hv) as [?|(name & o & Ho & _ & Ev)]; [by left|]. right. destruct (Ha name o Ho) as (h & _ & E). exists h. congruence.
  - unfold restore_overrides. by rewrite (image_restored _ _ _ Hp).
Qed.

(** An executable and its library: the words of [malloc] and [free] are redirected, then given back. *)
Definition demo_addresses (h : hook) : Z := match h with Malloc => 0x7e0000000010 | Free => 0x7e0000000020 | _ => 0x7e0000000030 end.

Definition demo_setup : option SymbolOverrides * gmap Z Z :=
  default (None, ∅) (setup_overrides 0 (fun _ => true) demo_addresses None (map snd (demo_loaded false)) 2 demo_memory).

Definition demo_hooks : SymbolOverrides := default new_SymbolOverrides (fst demo_setup).

(** Then a plugin is loaded, and the overrides are updated. *)
Definition demo_hooked : SymbolOverrides * gmap Z Z :=
  or_start (Overrides.update_overrides 0 (fun _ => true) demo_hooks (map snd (demo_loaded true)) 3 (demo_words demo_plugin ∪ snd demo_setup)).
Definition demo_hooked_image : process_image := mkPI (demo_loaded true) 3 (snd demo_hooked) (demo_words demo_plugin ∪ demo_memory) (fst demo_hooked).

Lemma setup_is_some : setup_overrides 0 (fun _ => true) demo_addresses None (map snd (demo_loaded false)) 2 demo_memory = Some (Some demo_hooks, snd demo_setup).
Proof.
  unfold demo_hooks, demo_setup. destruct (setup_overrides _ _ _ _ _ _ _) as [[[s|] m]|] eqn:E; [done|exfalso|exfalso];
    pose proof (f_equal (option_map (fun x => bool_decide (is_Some (fst x)))) E) as E'; vm_compute in E'; discriminate.
Qed.

Lemma demo_hooked_run : rtc (image_step 0 (fun _ => true) false) (mkPI (demo_loaded false) 2 (snd demo_setup) demo_memory demo_hooks) demo_hooked_image.
Proof.
  eapply rtc_l; [apply (step_load 0 (fun _ => true) false (demo_loaded false) 2 _ demo_memory _ demo_plugin (demo_words demo_plugin))|].
  - apply (demo_libs_ok true).
  - intros [? H]. vm_compute in H. discriminate H.
  - apply demo_words_new; vm_compute; reflexivity.
  - apply demo_words_new; vm_compute; reflexivity.
  - eapply rtc_l; [apply step_update, or_start_Some; vm_compute; reflexivity|]. apply rtc_refl.
Qed.

Lemma interposition_undone_witness :
  pi_mem demo_hooked_image !! (lb_addr demo_exe + 0x3000) = Some (demo_addresses Malloc) /\ pi_mem demo_hooked_image !! (lb_addr demo_plugin + 0x3000) = Some (demo_addresses Malloc) /\
  restore_overrides (fun _ => true) (Some (pi_so demo_hooked_image)) (map snd (pi_libs demo_hooked_image)) (pi_mem demo_hooked_image) = Some (None, demo_words demo_plugin ∪ demo_memory).
Proof.
  split; [vm_compute; reflexivity|]. split; [vm_compute; reflexivity|].
  apply (interposition_undone 0 (fun _ => true) demo_addresses (demo_loaded false) 2 demo_memory (Some demo_hooks) (snd demo_setup) demo_hooked_image).
  - apply (demo_libs_ok false).
  - repeat split.
  - discriminate.
  - exact setup_is_some.
  - intros s E. apply Some_inj in E. rewrite <- E. exact demo_hooked_run.
Defined.
