(* ===== verification/Symbols.v ===== *)
(** * Symbol and mapping tables, and their lookups

    Model of [include/symbol.hpp], [include/symbol_hdr.hpp], [src/common_symbol_lookup.cc],
    [src/common_mapinfo_lookup.cc], [src/mapinfo_lookup.cc], [src/dso_symbol_lookup.cc] and
    [src/base_frame_symbol_lookup.cc].  Symbols and mappings live in tables that only grow;
    a lookup caches the index of the entry made for a key.  Indices are 32-bit. *)

From stdpp Require Import pretty.
From S2P Require Import Prelude Dso DsoHdr.

(** ** Tables *)

Record Symbol := mkSymbol { sym_symname : string; sym_demangled_name : string; sym_lineno : Z; sym_srcpath : string }.
Abbreviation SymbolTable := (list Symbol).

Record MapInfo := mkMapInfo { mi_low_addr : Z; mi_high_addr : Z; mi_offset : Z; mi_sopath : string; mi_build_id : string }.
Abbreviation MapInfoTable := (list MapInfo).
Definition empty_MapInfo : MapInfo := mkMapInfo 0 0 0 "" "".

Definition k_symbol_idx_null : Z := -1.
Definition k_mapinfo_idx_null : Z := -1.

(** The index of the next entry of a table. *)
Definition next_idx {A} (t : list A) : Z := i32 (Z.of_nat (length t)).

(** The shape of a lookup: the cached index, or a new entry at the end of the table. *)
Definition find_or_push {A} (cached : option Z) (x : A) (t : list A) : Z * option Z * list A :=
  match cached with
  | Some i => (i, None, t)
  | None => (next_idx t, Some (next_idx t), t ++ [x])
  end.

(** ** Common frames *)

Inductive SymbolErrors := truncated_stack | unknown_mapping | unwind_failure | incomplete_stack | lost_event | max_pids.

#[export] Instance SymbolErrors_eq_dec : EqDecision SymbolErrors.
Proof. solve_decision. Defined.

Definition symbol_errors : list SymbolErrors := [truncated_stack; unknown_mapping; unwind_failure; incomplete_stack; lost_event; max_pids].
Definition error_number (e : SymbolErrors) : nat :=
  match e with
  | truncated_stack => 0 | unknown_mapping => 1 | unwind_failure => 2 | incomplete_stack => 3 | lost_event => 4 | max_pids => 5
  end.

#[export] Instance SymbolErrors_countable : Countable SymbolErrors.
Proof. refine (inj_countable error_number (fun n => symbol_errors !! n) _). by intros []. Defined.

Definition k_common_frame_names : list string :=
  ["[truncated]"; "[unknown mapping]"; "[unwind failure]"; "[incomplete]"; "[lost]"; "[maximum pids]"]%string.

Definition symbol_from_common (lookup_case : SymbolErrors) : option Symbol :=
  let? name := k_common_frame_names !! error_number lookup_case in Some (mkSymbol "" name 0 "").

Abbreviation CommonSymbolLookup := (gmap SymbolErrors Z).

Definition common_get_or_insert (m : CommonSymbolLookup) (lookup_case : SymbolErrors) (t : SymbolTable) :
    option (Z * CommonSymbolLookup * SymbolTable) :=
  let? sym := symbol_from_common lookup_case in
  let '(i, new, t) := find_or_push (m !! lookup_case) sym t in
  Some (i, match new with Some j => <[lookup_case := j]> m | None => m end, t).

(** [CommonMapInfoLookup]: its only case is the empty mapping. *)
Definition common_mapinfo_get_or_insert (m : option Z) (t : MapInfoTable) : Z * option Z * MapInfoTable :=
  let '(i, new, t) := find_or_push m empty_MapInfo t in
  (i, match new with Some j => Some j | None => m end, t).

(** ** Mappings *)

Abbreviation MapInfoLookup := (gmap Z (gmap Z Z)).

Definition mapinfo_from_dso (dso : Dso) (build_id : option string) : MapInfo :=
  mkMapInfo (d_start dso) (d_end dso) (d_offset dso) (default (d_filename dso) (after_last_slash (d_filename dso))) (default "" build_id).

Definition mapinfo_get_or_insert (m : MapInfoLookup) (pid : Z) (t : MapInfoTable) (dso : Dso) (build_id : option string) :
    Z * MapInfoLookup * MapInfoTable :=
  let addr_map := default ∅ (m !! pid) in
  let '(i, new, t) := find_or_push (addr_map !! d_start dso) (mapinfo_from_dso dso build_id) t in
  (i, <[pid := match new with Some j => <[d_start dso := j]> addr_map | None => addr_map end]> m, t).

Definition mapinfo_erase (m : MapInfoLookup) (pid : Z) : MapInfoLookup := delete pid m.

(** ** Symbols of files *)

Definition dso_types : list DsoType :=
  [kStandard; kVdso; kVsysCall; kStack; kHeap; kUndef; kAnon; kRuntime; kSocket; kDDProfiling; kJITDump].

#[export] Instance DsoType_countable : Countable DsoType.
Proof. refine (inj_countable dso_type_str (fun s => List.find (fun t => bool_decide (dso_type_str t = s)) dso_types) _). by intros []. Defined.

Record DsoSymbolLookup := mkDSL { map_dso_path : gmap string (gmap Z Z); map_unhandled_dso : gmap DsoType Z }.

Definition symbol_from_unhandled_dso (dso : Dso) : Symbol := mkSymbol "" "" 0 (dso_type_str (d_type dso)).

(** [path.filename()]: what follows the last slash. *)
Definition path_filename (p : string) : string := default p (after_last_slash p).

Definition hex_digit (d : Z) : Ascii.ascii := Ascii.ascii_of_nat (Z.to_nat (if d <? 10 then 48 + d else 87 + d)).
Fixpoint hex_digits (fuel : nat) (x : Z) (acc : string) : string :=
  match fuel with
  | O => acc
  | S f => if x =? 0 then acc else hex_digits f (x / 16) (String (hex_digit (x mod 16)) acc)
  end.
(** The format "%#x" of a 64-bit number that is not 0. *)
Definition format_hex (x : Z) : string := ("0x" +:+ hex_digits 16 x "")%string.

Definition symbol_from_dso (normalized_addr : Z) (dso : Dso) (addr_type : string) : Symbol :=
  let dso_dbg_str :=
    if negb (normalized_addr =? 0) then ("[" +:+ format_hex normalized_addr +:+ ":" +:+ addr_type +:+ "]")%string
    else path_filename (format_filename dso) in
  mkSymbol dso_dbg_str dso_dbg_str 0 (format_filename dso).

Definition get_or_insert_unhandled_type (l : DsoSymbolLookup) (dso : Dso) (t : SymbolTable) : Z * DsoSymbolLookup * SymbolTable :=
  let '(i, new, t) := find_or_push (map_unhandled_dso l !! d_type dso) (symbol_from_unhandled_dso dso) t in
  (i, match new with Some j => mkDSL (map_dso_path l) (<[d_type dso := j]> (map_unhandled_dso l)) | None => l end, t).

Definition dso_get_or_insert (l : DsoSymbolLookup) (normalized_addr : Z) (dso : Dso) (t : SymbolTable) (addr_type : string) :
    Z * DsoSymbolLookup * SymbolTable :=
  if negb (has_relevant_path (d_type dso)) && negb (bool_decide (d_type dso = kVdso)) && negb (bool_decide (d_type dso = kVsysCall))
  then get_or_insert_unhandled_type l dso t
  else
    let addr_lookup := default ∅ (map_dso_path l !! d_filename dso) in
    let '(i, new, t) := find_or_push (addr_lookup !! normalized_addr) (symbol_from_dso normalized_addr dso addr_type) t in
    (i, mkDSL (<[d_filename dso := match new with Some j => <[normalized_addr := j]> addr_lookup | None => addr_lookup end]> (map_dso_path l))
              (map_unhandled_dso l), t).

(** [get_size], which [stats_display] logs. *)
Definition dso_lookup_size (l : DsoSymbolLookup) : Z := u32 (map_fold (fun _ m n => n + Z.of_nat (size m)) 0 (map_dso_path l)).

(** ** Base frames *)

Definition k_nb_bin_lookups : Z := 10.

Record PidSymbol := mkPidSymbol { pd_symb_idx : Z; pd_nb_bin_lookups : Z }.
Record BaseFrameSymbolLookup := mkBFL { bin_map : gmap Z Z; exe_name_map : gmap Z string; base_pid_map : gmap Z PidSymbol }.

Definition symbol_from_pid (pid : Z) : Symbol := mkSymbol "" "" 0 ("pid_" +:+ pretty pid)%string.

(** [map.insert]: an existing entry stays. *)
Definition insert_new {A} (k : Z) (v : A) (m : gmap Z A) : gmap Z A :=
  match m !! k with Some _ => m | None => <[k := v]> m end.

Definition set_bin (l : BaseFrameSymbolLookup) (pid symbol_idx : Z) (base_name : string) : BaseFrameSymbolLookup :=
  mkBFL (insert_new pid symbol_idx (bin_map l)) (insert_new pid base_name (exe_name_map l)) (base_pid_map l).

(** [exe]: the target of the link [/proc/<pid>/exe]. *)
Definition insert_bin_symbol (l : BaseFrameSymbolLookup) (pid : Z) (t : SymbolTable) (dl : DsoSymbolLookup) (h : DsoHdr) (exe : option string) :
    Z * BaseFrameSymbolLookup * SymbolTable * DsoSymbolLookup * DsoHdr :=
  let pm := get_pid_mapping h pid in
  let h := set_pid_map h (<[pid := pm]> (pid_map h)) in
  let '(it, found) := dso_find_first_std_executable (pm_map pm) in
  let from_link :=
    match exe with
    | Some exe_name =>
        (next_idx t, set_bin l pid (next_idx t) (path_filename exe_name), t ++ [mkSymbol "" (path_filename exe_name) 0 exe_name], dl, h)
    | None => (k_symbol_idx_null, l, t, dl, h)
    end in
  match (if found then pm_map pm !! it else None) with
  | Some (_, dso) =>
      if has_relevant_path (d_type dso) then
        let '(i, dl, t) := dso_get_or_insert dl 0 dso t "elf" in
        (i, set_bin l pid i (path_filename (d_filename dso)), t, dl, h)
      else from_link
  | None => from_link
  end.

Definition base_get_or_insert (l : BaseFrameSymbolLookup) (pid : Z) (t : SymbolTable) (dl : DsoSymbolLookup) (h : DsoHdr) (exe : option string) :
    Z * BaseFrameSymbolLookup * SymbolTable * DsoSymbolLookup * DsoHdr :=
  let it_pid := base_pid_map l !! pid in
  let '(i, l, t, dl, h) :=
    match bin_map l !! pid with
    | Some i => (i, l, t, dl, h)
    | None =>
        match it_pid with
        | None => insert_bin_symbol l pid t dl h exe
        | Some ps =>
            let n := i32 (pd_nb_bin_lookups ps + 1) in
            let l := mkBFL (bin_map l) (exe_name_map l) (<[pid := mkPidSymbol (pd_symb_idx ps) n]> (base_pid_map l)) in
            if n <? k_nb_bin_lookups then insert_bin_symbol l pid t dl h exe else (k_symbol_idx_null, l, t, dl, h)
        end
    end in
  let i := if i =? k_symbol_idx_null then match it_pid with Some ps => pd_symb_idx ps | None => i end else i in
  if i =? k_symbol_idx_null then
    (next_idx t, mkBFL (bin_map l) (exe_name_map l) (insert_new pid (mkPidSymbol (next_idx t) 1) (base_pid_map l)),
     t ++ [symbol_from_pid pid], dl, h)
  else (i, l, t, dl, h).

(** The names of executables are not erased. *)
Definition base_erase (l : BaseFrameSymbolLookup) (pid : Z) : BaseFrameSymbolLookup :=
  mkBFL (delete pid (bin_map l)) (exe_name_map l) (delete pid (base_pid_map l)).

Definition base_get_exe_name (l : BaseFrameSymbolLookup) (pid : Z) : string := default "" (exe_name_map l !! pid).

(** ** Theorems *)

(** The entry of a table at an index. *)
Definition entry {A} (t : list A) (i : Z) : option A := if i <? 0 then None else t !! Z.to_nat i.

Lemma entry_app {A} (t t' : list A) i x : entry t i = Some x -> entry (t ++ t') i = Some x.
Proof. unfold entry. destruct (i <? 0); [done|]. apply lookup_app_l_Some. Qed.

Lemma next_idx_val {A} (t : list A) : Z.of_nat (length t) < 2 ^ 31 -> next_idx t = Z.of_nat (length t).
Proof. intros H. unfold next_idx, i32. rewrite Z.mod_small; lia. Qed.

Lemma entry_next {A} (t : list A) x : Z.of_nat (length t) < 2 ^ 31 -> entry (t ++ [x]) (next_idx t) = Some x /\ 0 <= next_idx t.
Proof.
  intros Hl. rewrite next_idx_val by done.
  split; [|lia]. unfold entry. destruct (Z.ltb_spec (Z.of_nat (length t)) 0); [lia|]. rewrite Nat2Z.id, lookup_app_r by lia.
  by rewrite Nat.sub_diag.
Qed.

Lemma entry_lt {A} (t : list A) i x : entry t i = Some x -> i < Z.of_nat (length t).
Proof. unfold entry. destruct (Z.ltb_spec i 0); [done|]. intros Hl%lookup_lt_Some. lia. Qed.

Lemma entry_nonneg {A} (t : list A) i x : entry t i = Some x -> 0 <= i.
Proof. unfold entry. destruct (Z.ltb_spec i 0); [done|lia]. Qed.

(** The lookups that share the symbol table, but for the runtime symbols. *)
Record symbols := mkSyms { sy_common : CommonSymbolLookup; sy_dso : DsoSymbolLookup; sy_base : BaseFrameSymbolLookup }.

Definition no_symbols : symbols := mkSyms ∅ (mkDSL ∅ ∅) (mkBFL ∅ ∅ ∅).

(** The symbol of an executable is named after its file. *)
Definition names_file (sym : Symbol) : Prop := sym_demangled_name sym = path_filename (sym_srcpath sym).

(** The tables are far from 2^31 entries. *)
Abbreviation room t := (Z.of_nat (length t) + 1 < 2 ^ 31).

Section Shared.

(** The indices that another lookup of the table owns: the runtime symbols, which it may rename. *)
Variable R : Z -> Prop.

(** [sym] is at the index, which is not reserved. *)
Definition view (t : SymbolTable) (i : Z) (sym : Symbol) : Prop := entry t i = Some sym /\ ~ R i.

(** Every cached index leads to the symbol its key stands for. *)
Record symbols_inv (s : symbols) (t : SymbolTable) : Prop := {
  si_reserved : forall i, R i -> 0 <= i < Z.of_nat (length t);
  si_common : forall c i, sy_common s !! c = Some i -> exists sym, symbol_from_common c = Some sym /\ view t i sym;
  si_unhandled : forall ty i, map_unhandled_dso (sy_dso s) !! ty = Some i -> view t i (mkSymbol "" "" 0 (dso_type_str ty));
  si_path : forall f m a i, map_dso_path (sy_dso s) !! f = Some m -> m !! a = Some i ->
    exists dso ty, d_filename dso = f /\ view t i (symbol_from_dso a dso ty);
  si_bin : forall pid i, bin_map (sy_base s) !! pid = Some i -> exists sym, view t i sym /\ names_file sym;
  si_pid : forall pid p, base_pid_map (sy_base s) !! pid = Some p -> view t (pd_symb_idx p) (symbol_from_pid pid)
}.

Lemma no_symbols_inv t : (forall i, R i -> 0 <= i < Z.of_nat (length t)) -> symbols_inv no_symbols t.
Proof. intros HR. split; [done|..]; cbn [no_symbols sy_common sy_dso sy_base map_unhandled_dso map_dso_path bin_map base_pid_map]; intros *; rewrite lookup_empty; done. Qed.

Lemma view_app t t' i sym : view t i sym -> view (t ++ t') i sym.
Proof. intros [He HR]. split; [by apply entry_app|done]. Qed.

Lemma view_nonneg t i sym : view t i sym -> 0 <= i.
Proof. intros [He _]. by eapply entry_nonneg. Qed.

Lemma symbols_inv_app s t t' : symbols_inv s t -> symbols_inv s (t ++ t').
Proof.
  intros [H0 H1 H2 H3 H4 H5]. split.
  - intros i Hi. rewrite length_app. specialize (H0 i Hi). lia.
  - intros c i Hi. destruct (H1 _ _ Hi) as (sym & ? & ?). eauto using view_app.
  - eauto using view_app.
  - intros f m a i Hm Hi. destruct (H3 _ _ _ _ Hm Hi) as (dso & ty & ? & ?). eauto using view_app.
  - intros pid i Hi. destruct (H4 _ _ Hi) as (sym & ? & ?). eauto using view_app.
  - eauto using view_app.
Qed.

Lemma view_next s t sym : symbols_inv s t -> room t -> view (t ++ [sym]) (next_idx t) sym.
Proof.
  intros H Hr. destruct (entry_next t sym) as [En Hn]; [lia|]. split; [done|]. intros HR%(si_reserved _ _ H).
  rewrite next_idx_val in HR; lia.
Qed.

(** A lookup returns an index of the extended table; [sym] is the entry there. *)
Definition found (t : SymbolTable) (i : Z) (t' : SymbolTable) (P : Symbol -> Prop) : Prop :=
  t `prefix_of` t' /\ (length t' <= S (length t))%nat /\ exists sym, view t' i sym /\ P sym.

Lemma common_spec s t c : symbols_inv s t -> room t ->
  exists i m t', common_get_or_insert (sy_common s) c t = Some (i, m, t') /\ symbols_inv (mkSyms m (sy_dso s) (sy_base s)) t' /\
    found t i t' (fun sym => symbol_from_common c = Some sym).
Proof.
  intros H Hr. unfold common_get_or_insert. assert (exists sym, symbol_from_common c = Some sym) as [sym Es] by (destruct c; by eexists).
  rewrite Es. destruct (sy_common s !! c) as [i|] eqn:Ec; cbn [find_or_push].
  - exists i, (sy_common s), t. split; [done|]. split; [by destruct s|]. split; [done|]. split; [lia|].
    destruct (si_common _ _ H _ _ Ec) as (sym' & ? & ?). naive_solver.
  - pose proof (view_next _ t sym H Hr) as En. eexists _, _, _. split; [done|]. split.
    + pose proof (symbols_inv_app _ _ [sym] H) as [H0 H1 H2 H3 H4 H5]. split; try done. cbn [sy_common]. intros c' i Hi.
      apply lookup_insert_Some in Hi as [[<- <-]|[_ Hi]]; eauto.
    + split; [by exists [sym]|]. split; [rewrite length_app; cbn; lia|by exists sym].
Qed.

Lemma symbol_from_dso_names dso ty : names_file (symbol_from_dso 0 dso ty).
Proof. done. Qed.

(** What the symbol of an address of a file says. *)
Definition dso_symbol (a : Z) (dso : Dso) (sym : Symbol) : Prop :=
  if negb (has_relevant_path (d_type dso)) && negb (bool_decide (d_type dso = kVdso)) && negb (bool_decide (d_type dso = kVsysCall))
  then sym_srcpath sym = dso_type_str (d_type dso)
  else exists dso' ty', d_filename dso' = d_filename dso /\ sym = symbol_from_dso a dso' ty'.

Lemma dso_spec s t a dso ty : symbols_inv s t -> room t ->
  let '(i, dl, t') := dso_get_or_insert (sy_dso s) a dso t ty in
  symbols_inv (mkSyms (sy_common s) dl (sy_base s)) t' /\ found t i t' (dso_symbol a dso).
Proof.
  intros H Hr. unfold dso_get_or_insert, dso_symbol. destruct (negb _ && _ && _) eqn:Eh.
  - unfold get_or_insert_unhandled_type. destruct (map_unhandled_dso (sy_dso s) !! d_type dso) as [i|] eqn:Ec; cbn [find_or_push].
    + split; [by destruct s|]. split; [done|]. split; [lia|]. eexists. split; [by apply (si_unhandled _ _ H)|done].
    + pose proof (view_next _ t (symbol_from_unhandled_dso dso) H Hr) as En.
      pose proof (symbols_inv_app _ _ [symbol_from_unhandled_dso dso] H) as [H0 H1 H2 H3 H4 H5]. split; [split|]; try done.
      * cbn [sy_dso map_unhandled_dso]. intros ty' i Hi. apply lookup_insert_Some in Hi as [[<- <-]|[_ Hi]]; eauto.
      * split; [by eexists|]. split; [rewrite length_app; cbn; lia|]. by eexists.
  - set (am := default ∅ _). assert (Ham : forall a' i, am !! a' = Some i -> exists dso' ty', d_filename dso' = d_filename dso /\ view t i (symbol_from_dso a' dso' ty')).
    { intros a' i Hi. unfold am in Hi. destruct (map_dso_path (sy_dso s) !! d_filename dso) as [m|] eqn:Em; cbn [default] in Hi; [|by rewrite lookup_empty in Hi].
      by apply (si_path _ _ H _ m). }
    destruct (am !! a) as [i|] eqn:Ec; cbn [find_or_push].
    + destruct H as [H0 H1 H2 H3 H4 H5]. split; [split|]; try done.
      * cbn [sy_dso map_dso_path]. intros f m a' i' Hm Hi'. apply lookup_insert_Some in Hm as [[<- <-]|[_ Hm]]; eauto.
      * split; [done|]. split; [lia|]. destruct (Ham _ _ Ec) as (dso' & ty' & Hf & He). exists (symbol_from_dso a dso' ty'). eauto.
    + pose proof (view_next _ t (symbol_from_dso a dso ty) H Hr) as En.
      pose proof (symbols_inv_app _ _ [symbol_from_dso a dso ty] H) as [H0 H1 H2 H3 H4 H5]. split; [split|]; try done.
      * cbn [sy_dso map_dso_path]. intros f m a' i' Hm Hi'. apply lookup_insert_Some in Hm as [[<- <-]|[_ Hm]]; [|eauto].
        apply lookup_insert_Some in Hi' as [[<- <-]|[_ Hi']]; [eauto|]. destruct (Ham _ _ Hi') as (dso' & ty' & ? & ?). eauto using view_app.
      * split; [by eexists|]. split; [rewrite length_app; cbn; lia|]. eexists. split; [exact En|]. eauto.
Qed.

Lemma found_same t i sym (P : Symbol -> Prop) : view t i sym -> P sym -> found t i t P.
Proof. intros He Hp. split; [done|]. split; [lia|]. eauto. Qed.

Lemma found_push s t sym (P : Symbol -> Prop) : symbols_inv s t -> room t -> P sym -> found t (next_idx t) (t ++ [sym]) P.
Proof.
  intros H Hr Hp. pose proof (view_next _ t sym H Hr) as En. split; [by eexists|]. split; [rewrite length_app; cbn; lia|]. eauto.
Qed.

Lemma found_impl t i t' (P Q : Symbol -> Prop) : found t i t' P -> (forall sym, P sym -> Q sym) -> found t i t' Q.
Proof. intros (H1 & H2 & sym & ? & ?) HPQ. split; [done|]. split; [done|]. eauto. Qed.

Lemma insert_new_Some {A} k (v : A) m k' v' : insert_new k v m !! k' = Some v' -> m !! k' = Some v' \/ (k' = k /\ v' = v).
Proof.
  unfold insert_new. destruct (m !! k) as [x|] eqn:E; [by left|]. intros [[<- <-]|[_ H]]%lookup_insert_Some; eauto.
Qed.

(** An index that leads to an executable's symbol may be cached for a process. *)
Lemma set_bin_inv c dl l t pid i name sym : symbols_inv (mkSyms c dl l) t -> view t i sym -> names_file sym ->
  symbols_inv (mkSyms c dl (set_bin l pid i name)) t.
Proof.
  intros [H0 H1 H2 H3 H4 H5] He Hn. split; try done. cbn [sy_base bin_map set_bin]. intros p j Hj.
  apply insert_new_Some in Hj as [Hj|[-> ->]]; eauto.
Qed.

(** A lookup of mappings may add the process to the table of the mappings, without mappings. *)
Definition visits (h : DsoHdr) (pid : Z) (h' : DsoHdr) : Prop :=
  h' = h \/ h' = set_pid_map h (<[pid := get_pid_mapping h pid]> (pid_map h)).

Lemma visits_wf h pid h' : hdr_wf h -> visits h pid h' -> hdr_wf h'.
Proof.
  intros H [-> | ->]; [done|]. apply (hdr_wf_insert h _ _ H (get_pid_mapping_wf h _ H) (dh_stats h)).
Qed.

(** The executable of a process: the first file mapped to be executed, or else the target of the
    link of the process.  Its symbol. *)
Definition first_executable (h : DsoHdr) (pid : Z) : option Dso :=
  let m := pm_map (get_pid_mapping h pid) in
  let '(it, found) := dso_find_first_std_executable m in
  match (if found then m !! it else None) with
  | Some (_, dso) => if has_relevant_path (d_type dso) then Some dso else None
  | None => None
  end.

Definition exe_symbol (h : DsoHdr) (pid : Z) (exe : option string) (sym : Symbol) : Prop :=
  match first_executable h pid with
  | Some dso => exists dso' ty, d_filename dso' = d_filename dso /\ sym = symbol_from_dso 0 dso' ty
  | None => exists e, exe = Some e /\ sym = mkSymbol "" (path_filename e) 0 e
  end.

Lemma exe_symbol_names h pid exe sym : exe_symbol h pid exe sym -> names_file sym.
Proof. unfold exe_symbol. destruct (first_executable h pid) as [d0|]; [by intros (dso' & ty & _ & ->)|by intros (e & _ & ->)]. Qed.

Lemma insert_bin_spec c dl l t pid h exe : symbols_inv (mkSyms c dl l) t -> room t ->
  let '(i, l', t', dl', h') := insert_bin_symbol l pid t dl h exe in
  visits h pid h' /\ base_pid_map l' = base_pid_map l /\
  (i = k_symbol_idx_null /\ l' = l /\ t' = t /\ dl' = dl /\ first_executable h pid = None /\ exe = None \/
   symbols_inv (mkSyms c dl' l') t' /\ found t i t' (exe_symbol h pid exe) /\ (bin_map l !! pid = None -> bin_map l' = <[pid := i]> (bin_map l))).
Proof.
  intros H Hr. unfold insert_bin_symbol, exe_symbol, first_executable. destruct (dso_find_first_std_executable _) as [it b].
  set (h' := set_pid_map h _). set (o := if b then _ else _).
  assert (Hbin : forall j name, bin_map l !! pid = None -> bin_map (set_bin l pid j name) = <[pid := j]> (bin_map l)).
  { intros j name E. cbn [set_bin bin_map]. unfold insert_new. by rewrite E. }
  destruct (match o with Some (_, dso) => if has_relevant_path (d_type dso) then Some dso else None | None => None end) as [dso|] eqn:Ed.
  - assert (Er : exists a, o = Some (a, dso) /\ has_relevant_path (d_type dso) = true).
    { destruct o as [[a d]|]; [|done]. destruct (has_relevant_path (d_type d)) eqn:Er; [|done]. injection Ed as ->. by exists a. }
    destruct Er as (a & -> & Er). rewrite Er.
    pose proof (dso_spec (mkSyms c dl l) t 0 dso "elf" H Hr) as Hs. cbn [sy_dso sy_common sy_base] in Hs.
    destruct (dso_get_or_insert dl 0 dso t "elf") as [[i dl'] t']. destruct Hs as [Hi Hf]. split; [by right|]. split; [done|]. right.
    assert (Hn : forall s, dso_symbol 0 dso s -> exists dso' ty, d_filename dso' = d_filename dso /\ s = symbol_from_dso 0 dso' ty) by (intros s; unfold dso_symbol; by rewrite Er).
    pose proof Hf as (_ & _ & sym & He & Hd). split; [|split; [by eapply found_impl|by apply Hbin]].
    eapply set_bin_inv; [done|exact He|]. destruct (Hn _ Hd) as (d & ty & _ & ->). done.
  - assert (Hnone : forall A (f : Dso -> A) (x : A), match o with Some (_, dso) => if has_relevant_path (d_type dso) then f dso else x | None => x end = x).
    { intros A f x. destruct o as [[a d]|]; [|done]. by destruct (has_relevant_path (d_type d)). }
    rewrite (Hnone _ (fun dso => let '(i, dl, t) := dso_get_or_insert dl 0 dso t "elf" in (i, set_bin l pid i (path_filename (d_filename dso)), t, dl, h'))).
    destruct exe as [e|]; (split; [by right|]; split; [done|]); [right|by left].
    pose proof (view_next _ t (mkSymbol "" (path_filename e) 0 e) H Hr) as En.
    split; [by eapply set_bin_inv; [apply symbols_inv_app|..]|]. split; [|by apply Hbin]. eapply found_push; [done|done|]. by exists e.
Qed.

(** The lookups of a process's failed searches may be counted. *)
Lemma count_lookup_inv c dl l t pid ps n : symbols_inv (mkSyms c dl l) t -> base_pid_map l !! pid = Some ps ->
  symbols_inv (mkSyms c dl (mkBFL (bin_map l) (exe_name_map l) (<[pid := mkPidSymbol (pd_symb_idx ps) n]> (base_pid_map l)))) t.
Proof.
  intros [H0 H1 H2 H3 H4 H5] Hp. split; try done. cbn [sy_base base_pid_map]. intros p q Hq.
  apply lookup_insert_Some in Hq as [[<- <-]|[_ Hq]]; [exact (H5 _ _ Hp)|exact (H5 _ _ Hq)].
Qed.

Lemma push_pid_inv c dl l t pid : symbols_inv (mkSyms c dl l) t -> room t ->
  symbols_inv (mkSyms c dl (mkBFL (bin_map l) (exe_name_map l) (insert_new pid (mkPidSymbol (next_idx t) 1) (base_pid_map l))))
    (t ++ [symbol_from_pid pid]).
Proof.
  intros H Hr. pose proof (view_next _ t (symbol_from_pid pid) H Hr) as En.
  pose proof (symbols_inv_app _ _ [symbol_from_pid pid] H) as [H0 H1 H2 H3 H4 H5]. split; try done. cbn [sy_base base_pid_map].
  intros p q Hq. apply insert_new_Some in Hq as [Hq|[-> ->]]; [exact (H5 _ _ Hq)|exact En].
Qed.

(** What the base frame shows: the executable found by an earlier lookup of the process; or the
    executable found now; or the process, when there is no executable or, at the tenth lookup,
    it is no longer searched for. *)
Definition base_symbol (l : BaseFrameSymbolLookup) (pid : Z) (h : DsoHdr) (exe : option string) (i : Z) (sym : Symbol) : Prop :=
  match bin_map l !! pid with
  | Some j => i = j
  | None => exe_symbol h pid exe sym \/
      sym = symbol_from_pid pid /\
      (first_executable h pid = None /\ exe = None \/
       exists ps, base_pid_map l !! pid = Some ps /\ k_nb_bin_lookups <= i32 (pd_nb_bin_lookups ps + 1))
  end.

(** The last part of the lookup: the symbol of the process, when there is none of its executable. *)
Lemma base_fallback c dl l t pid it_pid : symbols_inv (mkSyms c dl l) t -> room t ->
  (forall ps, it_pid = Some ps -> view t (pd_symb_idx ps) (symbol_from_pid pid)) ->
  let i := match it_pid with Some ps => pd_symb_idx ps | None => k_symbol_idx_null end in
  let '(i', l', t') := if i =? k_symbol_idx_null
    then (next_idx t, mkBFL (bin_map l) (exe_name_map l) (insert_new pid (mkPidSymbol (next_idx t) 1) (base_pid_map l)), t ++ [symbol_from_pid pid])
    else (i, l, t) in
  symbols_inv (mkSyms c dl l') t' /\ found t i' t' (eq (symbol_from_pid pid)) /\ bin_map l' = bin_map l.
Proof.
  intros H Hr Hp i. unfold i. destruct it_pid as [ps|].
  - specialize (Hp ps eq_refl). assert (0 <= pd_symb_idx ps) by (by eapply view_nonneg).
    destruct (Z.eqb_spec (pd_symb_idx ps) k_symbol_idx_null) as [E|]; [unfold k_symbol_idx_null in E; lia|].
    split; [done|]. split; [|done]. by apply (found_same _ _ _ _ Hp).
  - rewrite Z.eqb_refl. split; [by apply push_pid_inv|]. split; [|done]. by apply (found_push _ _ _ _ H).
Qed.

Lemma base_spec s t pid h exe : symbols_inv s t -> room t ->
  let '(i, l, t', dl, h') := base_get_or_insert (sy_base s) pid t (sy_dso s) h exe in
  symbols_inv (mkSyms (sy_common s) dl l) t' /\ found t i t' (base_symbol (sy_base s) pid h exe i) /\ visits h pid h' /\
  (bin_map l = bin_map (sy_base s) \/
   bin_map (sy_base s) !! pid = None /\ bin_map l = <[pid := i]> (bin_map (sy_base s)) /\ found t i t' (exe_symbol h pid exe)).
Proof.
  intros H Hr. destruct s as [c dl l]. cbn [sy_base sy_dso sy_common]. unfold base_get_or_insert, base_symbol.
  assert (Hsym : forall ps, base_pid_map l !! pid = Some ps -> view t (pd_symb_idx ps) (symbol_from_pid pid)) by apply (si_pid _ _ H).
  destruct (bin_map l !! pid) as [j|] eqn:Eb.
  { destruct (si_bin _ _ H _ _ Eb) as (sym & He & Hn). assert (0 <= j) by (by eapply view_nonneg).
    destruct (Z.eqb_spec j k_symbol_idx_null) as [E|]; [unfold k_symbol_idx_null in E; lia|]. rewrite (proj2 (Z.eqb_neq _ _)) by done.
    split; [done|]. split; [by apply (found_same _ _ sym)|]. split; [by left|by left]. }
  (* an index was found, or none and the tables are as before but for the count *)
  set (first := match base_pid_map l !! pid with Some ps => _ | None => _ end).
  assert (Hfirst : let '(i, l', t', dl', h') := first in visits h pid h' /\
    (i = k_symbol_idx_null /\ symbols_inv (mkSyms c dl l') t /\ t' = t /\ dl' = dl /\ bin_map l' = bin_map l /\
       (first_executable h pid = None /\ exe = None \/ exists ps, base_pid_map l !! pid = Some ps /\ k_nb_bin_lookups <= i32 (pd_nb_bin_lookups ps + 1)) \/
     symbols_inv (mkSyms c dl' l') t' /\ found t i t' (exe_symbol h pid exe) /\ bin_map l' = <[pid := i]> (bin_map l))).
  { unfold first. destruct (base_pid_map l !! pid) as [ps|] eqn:Ep.
    - pose proof (count_lookup_inv c dl l t pid ps (i32 (pd_nb_bin_lookups ps + 1)) H Ep) as Hc.
      destruct (Z.ltb_spec (i32 (pd_nb_bin_lookups ps + 1)) k_nb_bin_lookups); [|split; [by left|]; left; split_and!; try done; right; by exists ps].
      pose proof (insert_bin_spec _ _ _ _ pid h exe Hc Hr) as Hi. destruct (insert_bin_symbol _ _ _ _ _ _) as [[[[i l'] t'] dl'] h'].
      destruct Hi as (Hv & _ & [(-> & -> & -> & -> & ?)|(? & ? & Hb)]); (split; [done|]); [left; split_and!; try done; by left|right]. split_and!; [done..|by apply Hb].
    - pose proof (insert_bin_spec _ _ _ _ pid h exe H Hr) as Hi. destruct (insert_bin_symbol _ _ _ _ _ _) as [[[[i l'] t'] dl'] h'].
      destruct Hi as (Hv & _ & [(-> & -> & -> & -> & ?)|(? & ? & Hb)]); (split; [done|]); [left; split_and!; try done; by left|right]. split_and!; [done..|by apply Hb]. }
  clearbody first. destruct first as [[[[i l'] t'] dl'] h']. destruct Hfirst as [Hv [(-> & Hi & -> & -> & Eb' & Hwhy)|(Hi & Hf & Eb')]].
  - rewrite Z.eqb_refl. pose proof (base_fallback c dl l' t pid (base_pid_map l !! pid) Hi Hr Hsym) as Hb. cbv zeta in Hb.
    destruct (_ =? k_symbol_idx_null) in Hb |- *; destruct Hb as (Hb1 & Hb2 & Hb3); (split; [done|]; split; [|split; [done|]; left; cbn [bin_map] in *; congruence]);
      (eapply found_impl; [exact Hb2|]; intros sym <-; by right).
  - pose proof Hf as (_ & _ & sym & He & _). assert (0 <= i) by (by eapply view_nonneg).
    destruct (Z.eqb_spec i k_symbol_idx_null) as [E|]; [unfold k_symbol_idx_null in E; lia|]. rewrite (proj2 (Z.eqb_neq _ _)) by done.
    split; [done|]. split; [eapply found_impl; [exact Hf|]; by left|]. split; [done|]. right. done.
Qed.

Lemma base_erase_inv s t pid : symbols_inv s t -> symbols_inv (mkSyms (sy_common s) (sy_dso s) (base_erase (sy_base s) pid)) t.
Proof.
  intros [H0 H1 H2 H3 H4 H5]. split; try done; cbn [sy_base base_erase bin_map base_pid_map]; intros p q [_ Hq]%lookup_delete_Some; eauto.
Qed.

End Shared.

(** The invariant follows the views of the table. *)
Lemma symbols_inv_views (R R' : Z -> Prop) s t t' : symbols_inv R s t -> (forall i, R' i -> 0 <= i < Z.of_nat (length t')) ->
  (forall i sym, view R t i sym -> view R' t' i sym) -> symbols_inv R' s t'.
Proof.
  intros [_ H1 H2 H3 H4 H5] HR Hv. split; [done|..].
  - intros c i Hi. destruct (H1 _ _ Hi) as (sym & ? & ?). eauto.
  - eauto.
  - intros f m a i Hm Hi. destruct (H3 _ _ _ _ Hm Hi) as (dso & ty & ? & ?). eauto 6.
  - intros pid i Hi. destruct (H4 _ _ Hi) as (sym & ? & ?). eauto.
  - eauto.
Qed.

(** The owner of the reserved indices takes a new one, gives some up, or changes their symbols. *)
Lemma symbols_inv_reserve (R : Z -> Prop) s t x : symbols_inv R s t -> room t ->
  symbols_inv (fun i => R i \/ i = next_idx t) s (t ++ [x]).
Proof.
  intros H Hr. assert (En : next_idx t = Z.of_nat (length t)) by (apply next_idx_val; lia).
  assert (Hv : forall i sym, view R t i sym -> view (fun i => R i \/ i = next_idx t) (t ++ [x]) i sym).
  { intros i sym [He HR]. split; [by apply entry_app|]. intros [?| ->]; [done|]. apply entry_lt in He. lia. }
  apply (symbols_inv_views _ _ _ _ _ H); [|done].
  intros i Hi. rewrite length_app. cbn [length]. destruct Hi as [Hi%(si_reserved _ _ _ H)| ->]; lia.
Qed.

Lemma symbols_inv_release (R R' : Z -> Prop) s t : symbols_inv R s t -> (forall i, R' i -> R i) -> symbols_inv R' s t.
Proof.
  intros H HR. apply (symbols_inv_views _ _ _ _ _ H); [intros i Hi; by apply (si_reserved _ _ _ H), HR|].
  intros i sym [He Hn]. split; eauto.
Qed.

Lemma symbols_inv_change (R : Z -> Prop) s t j x : symbols_inv R s t -> R j -> symbols_inv R s (<[Z.to_nat j := x]> t).
Proof.
  intros H Hj. assert (Hv : forall i sym, view R t i sym -> view R (<[Z.to_nat j := x]> t) i sym).
  { intros i sym [He Hn]. split; [|done]. pose proof (si_reserved _ _ _ H j Hj). pose proof (entry_nonneg _ _ _ He).
    unfold entry in *. destruct (i <? 0); [done|]. rewrite list_lookup_insert_ne; [done|]. intros E. apply Hn. by replace i with j by lia. }
  apply (symbols_inv_views _ _ _ _ _ H); [|done]. intros i Hi. rewrite length_insert. by apply (si_reserved _ _ _ H).
Qed.

(** *** Mappings *)

(** Every cached index leads to a mapping that starts at the address. *)
Record mapinfos_inv (common : option Z) (m : MapInfoLookup) (t : MapInfoTable) : Prop := {
  mi_common : forall i, common = Some i -> entry t i = Some empty_MapInfo;
  mi_addr : forall pid am a i, m !! pid = Some am -> am !! a = Some i ->
    exists dso build_id, d_start dso = a /\ entry t i = Some (mapinfo_from_dso dso build_id)
}.

Lemma mapinfos_inv_app common m t t' : mapinfos_inv common m t -> mapinfos_inv common m (t ++ t').
Proof.
  intros [H1 H2]. split; [eauto using entry_app|]. intros pid am a i Hm Hi. destruct (H2 _ _ _ _ Hm Hi) as (dso & b & ? & ?). eauto using entry_app.
Qed.

Lemma common_mapinfo_spec common m t : mapinfos_inv common m t -> room t ->
  let '(i, common', t') := common_mapinfo_get_or_insert common t in
  mapinfos_inv common' m t' /\ t `prefix_of` t' /\ (length t' <= S (length t))%nat /\ entry t' i = Some empty_MapInfo.
Proof.
  intros H Hr. unfold common_mapinfo_get_or_insert. destruct common as [i|]; cbn [find_or_push].
  - split; [done|]. split; [done|]. split; [lia|]. by apply (mi_common _ _ _ H).
  - destruct (entry_next t empty_MapInfo) as [En _]; [lia|]. split; [split|].
    + by intros i [= <-].
    + apply (mi_addr _ _ _ (mapinfos_inv_app _ _ _ _ H)).
    + split; [by eexists|]. split; [rewrite length_app; cbn; lia|done].
Qed.

(** The mapping a lookup leads to starts where the file is mapped. *)
Lemma mapinfo_spec common m t pid dso b : mapinfos_inv common m t -> room t ->
  let '(i, m', t') := mapinfo_get_or_insert m pid t dso b in
  mapinfos_inv common m' t' /\ t `prefix_of` t' /\ (length t' <= S (length t))%nat /\
  exists mi, entry t' i = Some mi /\ mi_low_addr mi = d_start dso.
Proof.
  intros H Hr. unfold mapinfo_get_or_insert. set (am := default ∅ (m !! pid)).
  assert (Ham : forall a i, am !! a = Some i -> exists dso b, d_start dso = a /\ entry t i = Some (mapinfo_from_dso dso b)).
  { intros a i Hi. unfold am in Hi. destruct (m !! pid) as [am'|] eqn:E; cbn [default] in Hi; [|by rewrite lookup_empty in Hi]. by eapply mi_addr. }
  destruct (am !! d_start dso) as [i|] eqn:Ei; cbn [find_or_push].
  - destruct (Ham _ _ Ei) as (d & b' & Hd & He). split; [split; [apply (mi_common _ _ _ H)|]|].
    + intros p am' a j [[<- <-]|[_ Hp]]%lookup_insert_Some Hj; [eauto|]. by eapply mi_addr.
    + split; [done|]. split; [lia|]. eauto.
  - destruct (entry_next t (mapinfo_from_dso dso b)) as [En _]; [lia|]. pose proof (mapinfos_inv_app _ _ _ [mapinfo_from_dso dso b] H) as [H1 H2].
    split; [split; [done|]|].
    + intros p am' a j [[<- <-]|[_ Hp]]%lookup_insert_Some Hj; [|eauto].
      apply lookup_insert_Some in Hj as [[<- <-]|[_ Hj]]; [eauto|]. destruct (Ham _ _ Hj) as (d & b' & ? & ?). eauto using entry_app.
    + split; [by eexists|]. split; [rewrite length_app; cbn; lia|]. eauto.
Qed.

Lemma mapinfo_erase_inv common m t pid : mapinfos_inv common m t -> mapinfos_inv common (mapinfo_erase m pid) t.
Proof. intros [H1 H2]. split; [done|]. unfold mapinfo_erase. intros p am a i [_ Hp]%lookup_delete_Some. eauto. Qed.

(** ** Divergences *)

Definition exe_hdr (path : string) : DsoHdr :=
  set_pid_map (init_DsoHdr "" (-1)) {[42 := mkPM [(4096, new_dso 42 4096 8191 0 path 77 (PROT_READ + PROT_EXEC) kPerfMmapEvent)] init_bp 0]}.

(** After an exec the lookups of the process are erased, but not the name of its executable: the
    new symbol of the base frame names python, and the executable is still sh. *)
Example exe_name_stale_after_exec :
  let '(_, l, t, dl, _) := base_get_or_insert (mkBFL ∅ ∅ ∅) 42 [] (mkDSL ∅ ∅) (exe_hdr "/bin/sh") None in
  let '(i, l, t, _, _) := base_get_or_insert (base_erase l 42) 42 t dl (exe_hdr "/usr/bin/python") None in
  base_get_exe_name l 42 = "sh"%string /\ (sym_demangled_name <$> entry t i) = Some "python"%string.
Proof. vm_compute. done. Qed.

(** Another file mapped where the first one was has the first one's mapping. *)
Example mapinfo_stale_after_remap :
  let lib name := new_dso 42 4096 8191 0 name 77 (PROT_READ + PROT_EXEC) kPerfMmapEvent in
  let '(_, m, t) := mapinfo_get_or_insert ∅ 42 [] (lib "/lib/plugin_a.so"%string) (Some "aaaa"%string) in
  let '(i, _, t) := mapinfo_get_or_insert m 42 t (lib "/lib/plugin_b.so"%string) (Some "bbbb"%string) in
  entry t i = Some (mkMapInfo 4096 8191 0 "plugin_a.so" "aaaa").
Proof. vm_compute. done. Qed.

(** Ten lookups: the base frame is searched for at most ten times, and then stays the process's. *)
Fixpoint base_lookups (n : nat) (s : BaseFrameSymbolLookup * SymbolTable) : BaseFrameSymbolLookup * SymbolTable :=
  match n with
  | O => s
  | S n => let '(_, l, t, _, _) := base_get_or_insert (fst s) 42 (snd s) (mkDSL ∅ ∅) (init_DsoHdr "" (-1)) None in base_lookups n (l, t)
  end.
Example base_frame_given_up :
  let '(l, t) := base_lookups 9 (mkBFL ∅ ∅ ∅, []) in
  let '(i, _, t', _, _) := base_get_or_insert l 42 t (mkDSL ∅ ∅) (exe_hdr "/bin/sh") (Some "/bin/sh"%string) in
  entry t' i = Some (symbol_from_pid 42).
Proof. vm_compute. done. Qed.
