(* ===== verification/RuntimeSymbols.v ===== *)
(** * Symbols of generated code

    Model of [include/symbol_map.hpp], [src/symbol_map.cc], [include/runtime_symbol_lookup.hpp]
    and [src/runtime_symbol_lookup.cc], and of the header [include/symbol_hdr.hpp] that owns all
    the tables.  Per process, a map from start addresses to spans of code and the indices of
    their symbols, filled from a jitdump file or from a perf map when an address is not found.
    The files of the system are a function from paths to bytes. *)

From Stdlib Require Import Sorted.
From stdpp Require Import pretty.
From S2P Require Import Prelude Ddres Dso DsoHdr JitDump Symbols.

(** ** Spans of code *)

Record SymbolSpan := mkSpan { span_end : Z; span_symbol_idx : Z }.

(** [set_end] only pushes the end further. *)
Definition span_set_end (s : SymbolSpan) (e : Z) : SymbolSpan := mkSpan (Z.max (span_end s) e) (span_symbol_idx s).

(** A [std::map]: sorted by address; iterators are positions and [length] is [end()]. *)
Abbreviation SymbolMap := (list (Z * SymbolSpan)).

Definition sm_lower_bound (m : SymbolMap) (a : Z) : nat := find_index (fun kv => a <=? fst kv) m.

Definition span_is_within (norm_pc : Z) (kv : Z * SymbolSpan) : bool :=
  if norm_pc <? fst kv then false else if span_end (snd kv) <? norm_pc then false else true.

Definition find_closest (m : SymbolMap) (norm_pc : Z) : nat * bool :=
  let it := sm_lower_bound m norm_pc in
  match m !! it with
  | Some kv =>
      if span_is_within norm_pc kv then (it, true)
      else match it with
           | O => (length m, false)
           | S p => (p, match m !! p with Some kv => span_is_within norm_pc kv | None => false end)
           end
  | None =>
      match it with
      | O => (length m, false)
      | S p => (p, match m !! p with Some kv => span_is_within norm_pc kv | None => false end)
      end
  end.

(** [emplace]: an element with the same key stays. *)
Fixpoint sm_emplace (k : Z) (v : SymbolSpan) (m : SymbolMap) : SymbolMap :=
  match m with
  | [] => [(k, v)]
  | (k', v') :: m' => if k <? k' then (k, v) :: m else if k =? k' then m else (k', v') :: sm_emplace k v m'
  end.

Definition sm_erase (i : nat) (m : SymbolMap) : SymbolMap := take i m ++ drop (S i) m.

(** ** Insertion *)

Definition uint64_max : Z := 2 ^ 64 - 1.

Definition ignored_symbols_start : list string := ["stub<"%string].
Definition should_skip_symbol (symbol : string) : bool := existsb (fun el => String.prefix el symbol) ignored_symbols_start.

(** What is inserted: not skipped, and a range of addresses. *)
Definition symbol_accepted (symbol : string) (address code_size : Z) : bool :=
  negb (should_skip_symbol symbol) &&
  negb ((address =? 0) || (code_size =? 0) || (address =? uint64_max) || (code_size =? uint64_max)) &&
  negb (uint64_max -w code_size <? address).

Definition insert_or_replace (symbol : string) (address code_size : Z) (m : SymbolMap) (t : SymbolTable) :
    option (bool * SymbolMap * SymbolTable) :=
  if negb (symbol_accepted symbol address code_size) then Some (false, m, t)
  else
    let e := u64 (address + code_size - 1) in
    let '(it, found) := find_closest m address in
    if negb found then Some (true, sm_emplace address (mkSpan e (next_idx t)) m, t ++ [mkSymbol symbol symbol 0 "jit"])
    else
      let? (k, span) := m !! it in
      let existing := span_symbol_idx span in
      let? sym := entry t existing in
      if bool_decide (sym_demangled_name sym = symbol) then Some (true, <[it := (k, span_set_end span e)]> m, t)
      else
        Some (true, sm_emplace address (mkSpan e existing) (sm_erase it m),
              <[Z.to_nat existing := mkSymbol symbol symbol (sym_lineno sym) (sym_srcpath sym)]> t).

(** ** Files *)

Definition string_of_bytes (bs : list Z) : string :=
  fold_right (fun b s => String (Ascii.ascii_of_nat (Z.to_nat b)) s) EmptyString bs.

(** [isspace] of the C locale. *)
Definition is_space (b : Z) : bool := (b =? 32) || ((9 <=? b) && (b <=? 13)).

(** The longest prefix of at most [n] bytes that satisfy [p], and the rest. *)
Fixpoint span_bytes (n : nat) (p : Z -> bool) (bs : list Z) : list Z * list Z :=
  match n, bs with
  | S n, b :: bs' => if p b then let '(x, r) := span_bytes n p bs' in (b :: x, r) else ([], bs)
  | _, _ => ([], bs)
  end.

Definition skip_spaces (bs : list Z) : list Z := snd (span_bytes (length bs) is_space bs).

(** The directive "%<n>s" of [sscanf]. *)
Definition scan_word (n : nat) (bs : list Z) : option (list Z * list Z) :=
  match span_bytes n (fun b => negb (is_space b)) (skip_spaces bs) with
  | ([], _) => None
  | r => Some r
  end.

(** [sscanf] of a line with "%16s %8s %300[^\t\n]", when it converts all three; the string
    ends at its first null byte. *)
Definition scan_line (line : list Z) : option (list Z * list Z * list Z) :=
  let line := fst (span_bytes (length line) (fun b => negb (b =? 0)) line) in
  let? (address_buff, r) := scan_word 16 line in
  let? (size_buff, r) := scan_word 8 (skip_spaces r) in
  match span_bytes 300 (fun b => negb ((b =? 9) || (b =? 10))) (skip_spaces r) with
  | ([], _) => None
  | (buffer, _) => Some (address_buff, size_buff, buffer)
  end.

Definition hex_value (b : Z) : option Z :=
  if (48 <=? b) && (b <=? 57) then Some (b - 48)
  else if (65 <=? b) && (b <=? 70) then Some (b - 55)
  else if (97 <=? b) && (b <=? 102) then Some (b - 87)
  else None.

Fixpoint hex_number (acc : Z) (bs : list Z) : Z :=
  match bs with
  | [] => acc
  | b :: bs' => match hex_value b with Some d => hex_number (acc * 16 + d) bs' | None => acc end
  end.

(** [strtoul] in base 16: a sign, a prefix 0x that digits follow, and saturation. *)
Definition strtoul16 (bs : list Z) : Z :=
  let bs := skip_spaces bs in
  let '(neg, bs) := match bs with b :: bs' => if b =? 45 then (true, bs') else if b =? 43 then (false, bs') else (false, bs) | [] => (false, bs) end in
  let bs := match bs with
            | z :: x :: d :: bs' => if (z =? 48) && ((x =? 120) || (x =? 88)) && bool_decide (is_Some (hex_value d)) then d :: bs' else bs
            | _ => bs
            end in
  let v := hex_number 0 bs in
  if uint64_max <? v then uint64_max else if neg then u64 (- v) else v.

(** [getline]: the lines, each with its newline but perhaps the last. *)
Fixpoint lines_of (bs : list Z) (cur : list Z) : list (list Z) :=
  match bs with
  | [] => match cur with [] => [] | _ => [rev cur] end
  | b :: bs' => if b =? 10 then rev (b :: cur) :: lines_of bs' [] else lines_of bs' (b :: cur)
  end.

Definition PATH_MAX : nat := 4096.

(** ** The lookup *)

Record Stats := mkStats { nb_jit_reads : Z; nb_failed_lookups : Z; symbol_count : Z }.
Record SymbolInfo := mkSI { si_map : SymbolMap; failed_cycle : gmap string Z }.
Record RuntimeSymbolLookup := mkRSL { rt_pid_map : gmap Z SymbolInfo; rt_path_to_proc : string; rt_stats : Stats; cycle_counter : Z }.

Definition init_RuntimeSymbolLookup (path : string) : RuntimeSymbolLookup := mkRSL ∅ path (mkStats 0 0 0) 1.

Definition rt_erase (r : RuntimeSymbolLookup) (pid : Z) : RuntimeSymbolLookup :=
  mkRSL (delete pid (rt_pid_map r)) (rt_path_to_proc r) (rt_stats r) (cycle_counter r).

Definition rt_cycle (r : RuntimeSymbolLookup) : RuntimeSymbolLookup :=
  mkRSL (rt_pid_map r) (rt_path_to_proc r) (mkStats 0 0 0) (u32 (cycle_counter r + 1)).

Definition rt_get_stats (r : RuntimeSymbolLookup) : Stats :=
  mkStats (nb_jit_reads (rt_stats r)) (nb_failed_lookups (rt_stats r))
    (map_fold (fun _ info n => u32 (n + Z.of_nat (length (si_map info)))) 0 (rt_pid_map r)).

Definition has_lookup_failure (r : RuntimeSymbolLookup) (info : SymbolInfo) (path : string) : bool :=
  match failed_cycle info !! path with Some c => c =? cycle_counter r | None => false end.

(** The entry of the process, and the statistics, after a change of them. *)
Definition set_info (r : RuntimeSymbolLookup) (pid : Z) (info : SymbolInfo) : RuntimeSymbolLookup :=
  mkRSL (<[pid := info]> (rt_pid_map r)) (rt_path_to_proc r) (rt_stats r) (cycle_counter r).
Definition count_read (r : RuntimeSymbolLookup) : RuntimeSymbolLookup :=
  mkRSL (rt_pid_map r) (rt_path_to_proc r)
    (mkStats (u32 (nb_jit_reads (rt_stats r) + 1)) (nb_failed_lookups (rt_stats r)) (symbol_count (rt_stats r))) (cycle_counter r).
Definition count_failure (r : RuntimeSymbolLookup) : RuntimeSymbolLookup :=
  mkRSL (rt_pid_map r) (rt_path_to_proc r)
    (mkStats (nb_jit_reads (rt_stats r)) (u32 (nb_failed_lookups (rt_stats r) + 1)) (symbol_count (rt_stats r))) (cycle_counter r).

Definition flag_lookup_failure (r : RuntimeSymbolLookup) (pid : Z) (info : SymbolInfo) (path : string) : RuntimeSymbolLookup :=
  count_failure (set_info r pid (mkSI (si_map info) (<[path := cycle_counter r]> (failed_cycle info)))).

Section Lookup.
(** The contents of a file that can be opened; whether the memory for so many entries of debug
    information is there. *)
Context (read_file : string -> option (list Z)) (alloc_entries : Z -> bool).

Definition perfmaps_open (r : RuntimeSymbolLookup) (pid : Z) (path_to_perfmap : string) : option (list Z) :=
  let buf := (rt_path_to_proc r +:+ "/proc/" +:+ pretty pid +:+ "/root" +:+ path_to_perfmap +:+ "/perf-" +:+ pretty pid +:+ ".map")%string in
  if (PATH_MAX <=? String.length buf)%nat then None
  else
    match read_file buf with
    | Some f => Some f
    | None =>
        let buf := (path_to_perfmap +:+ "/perf-" +:+ pretty pid +:+ ".map")%string in
        read_file (String.substring 0 (PATH_MAX - 1) buf)
    end.

(** [path.front()] of an empty path is undefined. *)
Definition is_absolute_path (path : string) : option bool :=
  match path with EmptyString => None | String c _ => Some (bool_decide (c = Ascii.ascii_of_nat 47)) end.

Fixpoint insert_code_loads (cs : list JITRecordCodeLoad) (m : SymbolMap) (t : SymbolTable) : option (SymbolMap * SymbolTable) :=
  match cs with
  | [] => Some (m, t)
  | c :: cs' =>
      let? (_, m, t) := insert_or_replace (string_of_bytes (jc_func_name c)) (jc_code_addr c) (jc_code_size c) m t in
      insert_code_loads cs' m t
  end.

Definition fill_from_jitdump (r : RuntimeSymbolLookup) (jitdump_path : string) (pid : Z) (m : SymbolMap) (t : SymbolTable) :
    option (DDRes * SymbolMap * SymbolTable) :=
  let? absolute := is_absolute_path jitdump_path in
  let path :=
    (rt_path_to_proc r +:+ "/proc/" +:+ pretty pid +:+ (if absolute then "/root" else "/cwd/") +:+ jitdump_path)%string in
  let? (res, jitdump) := jitdump_read alloc_entries (read_file path) empty_dump in
  let finish jitdump := let? (m, t) := insert_code_loads (code_load jitdump) m t in Some (ddres_init, m, t) in
  if IsDDResNotOK res && (res_what res =? what_of "NO_JIT_FILE") then
    let? (res, jitdump) := jitdump_read alloc_entries (read_file jitdump_path) jitdump in
    if IsDDResFatal res then Some (res, m, t) else finish jitdump
  else finish jitdump.

Fixpoint insert_lines (ls : list (list Z)) (m : SymbolMap) (t : SymbolTable) : option (SymbolMap * SymbolTable) :=
  match ls with
  | [] => Some (m, t)
  | line :: ls' =>
      match scan_line line with
      | None => insert_lines ls' m t
      | Some (address_buff, size_buff, buffer) =>
          let? (_, m, t) := insert_or_replace (string_of_bytes buffer) (strtoul16 address_buff) (strtoul16 size_buff) m t in
          insert_lines ls' m t
      end
  end.

Definition fill_from_perfmap (r : RuntimeSymbolLookup) (pid : Z) (m : SymbolMap) (t : SymbolTable) :
    option (DDRes * SymbolMap * SymbolTable) :=
  match perfmaps_open r pid "/tmp" with
  | None => Some (ddres_error (what_of "NO_JIT_FILE"), m, t)
  | Some bytes => let? (m, t) := insert_lines (lines_of bytes []) m t in Some (ddres_init, m, t)
  end.

(** The end of both lookups: the symbol of the closest span, or a failure for this path. *)
Definition lookup_result (r : RuntimeSymbolLookup) (pid : Z) (info : SymbolInfo) (t : SymbolTable) (pc : Z) (path : string) :
    option (Z * RuntimeSymbolLookup * SymbolTable) :=
  let '(it, found) := find_closest (si_map info) pc in
  if found then let? (_, span) := si_map info !! it in Some (span_symbol_idx span, set_info r pid info, t)
  else Some (k_symbol_idx_null, flag_lookup_failure r pid info path, t).

Definition get_or_insert_jitdump (r : RuntimeSymbolLookup) (pid pc : Z) (t : SymbolTable) (jitdump_path : string) :
    option (Z * RuntimeSymbolLookup * SymbolTable) :=
  let info := default (mkSI [] ∅) (rt_pid_map r !! pid) in
  if negb (snd (find_closest (si_map info) pc)) && negb (has_lookup_failure r info jitdump_path) then
    let r := count_read r in
    let? (res, m, t) := fill_from_jitdump r jitdump_path pid (si_map info) t in
    let info := mkSI m (failed_cycle info) in
    if IsDDResFatal res then Some (k_symbol_idx_null, flag_lookup_failure r pid info jitdump_path, t)
    else lookup_result r pid info t pc jitdump_path
  else lookup_result r pid info t pc jitdump_path.

Definition rt_get_or_insert (r : RuntimeSymbolLookup) (pid pc : Z) (t : SymbolTable) : option (Z * RuntimeSymbolLookup * SymbolTable) :=
  let info := default (mkSI [] ∅) (rt_pid_map r !! pid) in
  if negb (snd (find_closest (si_map info) pc)) && negb (has_lookup_failure r info "perfmap") then
    let r := count_read r in
    let? (_, m, t) := fill_from_perfmap r pid (si_map info) t in
    lookup_result r pid (mkSI m (failed_cycle info)) t pc "perfmap"
  else lookup_result r pid info t pc "perfmap".

End Lookup.

(** ** All the tables *)

Record SymbolHdr := mkSH {
  sh_syms : symbols;                          (* the base frame, common and DSO symbol lookups *)
  runtime_symbol_lookup : RuntimeSymbolLookup;
  symbol_table : SymbolTable;
  common_mapinfo_lookup : option Z;
  mapinfo_lookup : MapInfoLookup;
  mapinfo_table : MapInfoTable
}.

Definition init_SymbolHdr (path_to_proc : string) : SymbolHdr :=
  mkSH no_symbols (init_RuntimeSymbolLookup path_to_proc) [] None ∅ [].

Definition hdr_cycle (h : SymbolHdr) : SymbolHdr :=
  mkSH (sh_syms h) (rt_cycle (runtime_symbol_lookup h)) (symbol_table h) (common_mapinfo_lookup h) (mapinfo_lookup h) (mapinfo_table h).

Definition hdr_clear (h : SymbolHdr) (pid : Z) : SymbolHdr :=
  let s := sh_syms h in
  mkSH (mkSyms (sy_common s) (sy_dso s) (base_erase (sy_base s) pid)) (rt_erase (runtime_symbol_lookup h) pid) (symbol_table h)
    (common_mapinfo_lookup h) (mapinfo_erase (mapinfo_lookup h) pid) (mapinfo_table h).

(** The lookups of the members, as their callers make them. *)
Definition set_syms (h : SymbolHdr) (s : symbols) (t : SymbolTable) : SymbolHdr :=
  mkSH s (runtime_symbol_lookup h) t (common_mapinfo_lookup h) (mapinfo_lookup h) (mapinfo_table h).
Definition set_runtime (h : SymbolHdr) (r : RuntimeSymbolLookup) (t : SymbolTable) : SymbolHdr :=
  mkSH (sh_syms h) r t (common_mapinfo_lookup h) (mapinfo_lookup h) (mapinfo_table h).
Definition set_mapinfos (h : SymbolHdr) (c : option Z) (m : MapInfoLookup) (t : MapInfoTable) : SymbolHdr :=
  mkSH (sh_syms h) (runtime_symbol_lookup h) (symbol_table h) c m t.

Definition hdr_common (h : SymbolHdr) (c : SymbolErrors) : option (Z * SymbolHdr) :=
  let s := sh_syms h in
  let? (i, m, t) := common_get_or_insert (sy_common s) c (symbol_table h) in
  Some (i, set_syms h (mkSyms m (sy_dso s) (sy_base s)) t).

Definition hdr_dso (h : SymbolHdr) (a : Z) (dso : Dso) (addr_type : string) : Z * SymbolHdr :=
  let s := sh_syms h in
  let '(i, dl, t) := dso_get_or_insert (sy_dso s) a dso (symbol_table h) addr_type in
  (i, set_syms h (mkSyms (sy_common s) dl (sy_base s)) t).

Definition hdr_base (h : SymbolHdr) (pid : Z) (dh : DsoHdr) (exe : option string) : Z * SymbolHdr * DsoHdr :=
  let s := sh_syms h in
  let '(i, l, t, dl, dh) := base_get_or_insert (sy_base s) pid (symbol_table h) (sy_dso s) dh exe in
  (i, set_syms h (mkSyms (sy_common s) dl l) t, dh).

Definition hdr_mapinfo (h : SymbolHdr) (pid : Z) (dso : Dso) (build_id : option string) : Z * SymbolHdr :=
  let '(i, m, t) := mapinfo_get_or_insert (mapinfo_lookup h) pid (mapinfo_table h) dso build_id in
  (i, set_mapinfos h (common_mapinfo_lookup h) m t).

Definition hdr_empty_mapinfo (h : SymbolHdr) : Z * SymbolHdr :=
  let '(i, c, t) := common_mapinfo_get_or_insert (common_mapinfo_lookup h) (mapinfo_table h) in
  (i, set_mapinfos h c (mapinfo_lookup h) t).

(** The runtime symbol of an address, from the jitdump file when there is one. *)
Definition hdr_runtime (read_file : string -> option (list Z)) (alloc_entries : Z -> bool) (h : SymbolHdr) (pid pc : Z) (jitdump_path : string) :
    option (Z * SymbolHdr) :=
  let? (i, r, t) :=
    (if bool_decide (jitdump_path = EmptyString) then rt_get_or_insert read_file (runtime_symbol_lookup h) pid pc (symbol_table h)
     else get_or_insert_jitdump read_file alloc_entries (runtime_symbol_lookup h) pid pc (symbol_table h) jitdump_path) in
  Some (i, set_runtime h r t).

(** ** Theorems *)

(** *** The map *)

Record sm_wf (m : SymbolMap) : Prop := {
  sm_sorted : StronglySorted Z.lt (map fst m);
  sm_spans : Forall (fun kv => 0 <= fst kv <= span_end (snd kv)) m
}.

(** The element that starts last at or before [pc]. *)
Definition closest (m : SymbolMap) (pc k : Z) (sp : SymbolSpan) : Prop :=
  (k, sp) ∈ m /\ k <= pc /\ forall k' sp', (k', sp') ∈ m -> k' <= pc -> k' <= k.

Lemma sorted_app_keys a b : StronglySorted Z.lt (map fst (a ++ b : SymbolMap)) ->
  StronglySorted Z.lt (map fst a) /\ StronglySorted Z.lt (map fst b) /\ forall x y, x ∈ a -> y ∈ b -> fst x < fst y.
Proof.
  induction a as [|x a IH]; cbn [app map]; intros H.
  - split; [constructor|]. split; [done|]. intros x y Hx. by apply not_elem_of_nil in Hx.
  - inversion H as [|? ? H1 H2]; subst. destruct (IH H1) as (Ha & Hb & Hab). rewrite map_app in H2. apply Forall_app in H2 as [H2 H3].
    split; [by constructor|]. split; [done|]. intros x' y [->|Hx]%elem_of_cons Hy; [|by apply Hab].
    rewrite Forall_forall in H3. apply H3. apply list_elem_of_fmap. by exists y.
Qed.

Lemma sorted_keys_app a b : StronglySorted Z.lt (map fst a) -> StronglySorted Z.lt (map fst b) ->
  (forall x y, x ∈ a -> y ∈ b -> fst x < fst y) -> StronglySorted Z.lt (map fst (a ++ b : SymbolMap)).
Proof.
  intros Ha Hb Hab. induction a as [|x a IH]; cbn [app map] in *; [done|]. inversion Ha as [|? ? H1 H2]; subst. constructor.
  - apply IH; [done|]. intros y z Hy Hz. apply Hab; [by apply list_elem_of_further|done].
  - rewrite map_app. apply Forall_app. split; [done|]. apply Forall_forall. intros z [y [-> Hy]]%list_elem_of_fmap.
    apply Hab; [apply list_elem_of_here|done].
Qed.

(** The keys of a map are distinct. *)
Lemma sm_key_inj m k sp sp' : sm_wf m -> (k, sp) ∈ m -> (k, sp') ∈ m -> sp = sp'.
Proof.
  intros [Hs _]. induction m as [|x m IH]; [by intros ?%not_elem_of_nil|]. cbn [map] in Hs. inversion Hs as [|? ? H1 H2]; subst.
  assert (Hlt : forall y, y ∈ m -> fst x < fst y).
  { intros y Hy. rewrite Forall_forall in H2. apply H2. apply list_elem_of_fmap. by exists y. }
  intros [<-|Hx]%elem_of_cons [Hy|Hy]%elem_of_cons; [by injection Hy|apply Hlt in Hy; cbn in Hy; lia|..|by apply IH].
  apply Hlt in Hx. rewrite <- Hy in Hx. cbn in Hx. lia.
Qed.

(** The map cut at [lower_bound]. *)
Lemma lower_bound_split m a : sm_wf m ->
  exists x y, m = x ++ y /\ sm_lower_bound m a = length x /\ Forall (fun kv => fst kv < a) x /\ Forall (fun kv => a <= fst kv) y.
Proof.
  intros [Hs _]. unfold sm_lower_bound. induction m as [|kv m IH]; cbn [find_index map] in *.
  - exists [], []. repeat split; constructor.
  - inversion Hs as [|? ? H1 H2]; subst. destruct (Z.leb_spec a (fst kv)) as [Hle|Hlt].
    + exists [], (kv :: m). split; [done|]. split; [done|]. split; [constructor|]. constructor; [done|].
      apply Forall_forall. intros y Hy. rewrite Forall_forall in H2. assert (fst kv < fst y) by (apply H2, list_elem_of_fmap; by exists y). lia.
    + destruct (IH H1) as (x & y & -> & -> & Hx & Hy). exists (kv :: x), y. repeat split; try done. by constructor.
Qed.

Lemma closest_unique m pc k k' sp sp' : sm_wf m -> closest m pc k sp -> closest m pc k' sp' -> k = k' /\ sp = sp'.
Proof.
  intros Hm (Hi & Hle & Hmax) (Hi' & Hle' & Hmax'). assert (k = k') as <- by (specialize (Hmax _ _ Hi' Hle'); specialize (Hmax' _ _ Hi Hle); lia).
  split; [done|]. by eapply sm_key_inj.
Qed.

Lemma elem_of_middle {A} (x : A) l1 l2 : x ∈ l1 ++ x :: l2.
Proof. apply elem_of_app. right. apply list_elem_of_here. Qed.

(** What the search promises: the element that starts last at or before the address, when it
    spans the address. *)
Definition closest_at (m : SymbolMap) (pc : Z) (r : nat * bool) : Prop :=
  if snd r then exists k sp, m !! fst r = Some (k, sp) /\ closest m pc k sp /\ pc <= span_end sp
  else forall k sp, closest m pc k sp -> span_end sp < pc.

(** The element before the lower bound, when none starts at the address. *)
Lemma closest_before x y pc : sm_wf (x ++ y) -> (forall kv, kv ∈ x -> fst kv < pc) -> (forall kv, kv ∈ y -> pc < fst kv) ->
  closest_at (x ++ y) pc
    match length x with
    | O => (length (x ++ y), false)
    | S p => (p, match (x ++ y) !! p with Some kv => span_is_within pc kv | None => false end)
    end.
Proof.
  intros Hm Hx Hy. destruct x as [|[k sp] x _] using rev_ind.
  - cbn. intros k sp (Hi & Hle & _). apply Hy in Hi. cbn in Hi. lia.
  - rewrite length_app, Nat.add_comm. cbn [length Nat.add]. rewrite <- app_assoc in *. cbn [app] in *. rewrite list_lookup_middle by done.
    assert (Hin : (k, sp) ∈ x ++ [(k, sp)]) by apply elem_of_middle. pose proof (Hx _ Hin) as Hk. cbn in Hk.
    assert (Hc : closest (x ++ (k, sp) :: y) pc k sp).
    { split; [apply elem_of_middle|]. split; [lia|]. intros k' sp' [Hi|[[= -> ->]|Hi]%elem_of_cons]%elem_of_app Hle; [|lia|apply Hy in Hi; cbn in Hi; lia].
      destruct (sorted_app_keys x ((k, sp) :: y)) as (_ & _ & Hxy); [apply Hm|].
      specialize (Hxy (k', sp') (k, sp) Hi (list_elem_of_here _ _)). cbn in Hxy. lia. }
    unfold span_is_within, closest_at. cbn [fst snd]. destruct (Z.ltb_spec pc k) as [|_]; [lia|].
    destruct (Z.ltb_spec (span_end sp) pc); [|exists k, sp; by rewrite list_lookup_middle].
    intros k' sp' Hc'. by destruct (closest_unique _ _ _ _ _ _ Hm Hc Hc') as [<- <-].
Qed.

Lemma find_closest_spec m pc : sm_wf m -> closest_at m pc (find_closest m pc).
Proof.
  intros Hm. unfold find_closest. destruct (lower_bound_split m pc Hm) as (x & y & Em & -> & Hx & Hy).
  rewrite Forall_forall in Hx, Hy. subst m. destruct y as [|[k sp] y].
  - rewrite lookup_ge_None_2 by (rewrite app_nil_r; done). apply closest_before; [done|done|]. by intros kv ?%not_elem_of_nil.
  - rewrite list_lookup_middle by done. unfold span_is_within at 1. cbn [fst snd].
    assert (Hk : pc <= k) by (apply (Hy (k, sp)), list_elem_of_here). destruct (Z.ltb_spec pc k) as [Hlt|Hge].
    + apply closest_before; [done|done|]. intros kv [->|Hkv]%elem_of_cons; cbn [fst]; [done|].
      destruct (sorted_app_keys (x ++ [(k, sp)]) y) as (_ & _ & Hxy); [rewrite <- app_assoc; apply Hm|].
      specialize (Hxy (k, sp) kv (elem_of_middle _ _ _) Hkv). cbn in Hxy. lia.
    + assert (k = pc) as -> by lia. assert (Hse : 0 <= pc <= span_end sp).
      { pose proof (sm_spans _ Hm) as Hs. rewrite Forall_forall in Hs. apply (Hs (pc, sp)), elem_of_middle. }
      destruct (Z.ltb_spec (span_end sp) pc); [lia|]. exists pc, sp. cbn [fst]. split; [by rewrite list_lookup_middle|]. split; [|lia].
      split; [apply elem_of_middle|]. split; [lia|]. intros; lia.
Qed.

(** One element takes the place of the element with the key [k], if there is one. *)
Definition sm_update (m m' : SymbolMap) (k : Z) (x : Z * SymbolSpan) : Prop :=
  sm_wf m' /\ forall y, y ∈ m' <-> y = x \/ (y ∈ m /\ fst y <> k).

Lemma sm_emplace_elem k v m y : (forall sp, (k, sp) ∉ m) -> y ∈ sm_emplace k v m <-> y = (k, v) \/ y ∈ m.
Proof.
  induction m as [|[k' v'] m IH]; intros Hn; cbn [sm_emplace]; [by rewrite list_elem_of_singleton, elem_of_nil; intuition|].
  destruct (k <? k'); [by rewrite !elem_of_cons|]. destruct (Z.eqb_spec k k') as [<-|]; [by destruct (Hn v'); apply list_elem_of_here|].
  rewrite !elem_of_cons, IH; [intuition|]. intros sp Hsp. by apply (Hn sp), list_elem_of_further.
Qed.

Lemma sm_emplace_sorted k v m : StronglySorted Z.lt (map fst m) -> StronglySorted Z.lt (map fst (sm_emplace k v m)).
Proof.
  induction m as [|[k' v'] m IH]; intros Hs; cbn [sm_emplace map fst] in *; [by repeat constructor|]. inversion Hs as [|? ? H1 H2]; subst.
  destruct (Z.ltb_spec k k'); [|destruct (Z.eqb_spec k k') as [<-|]; [done|]]; cbn [map fst].
  - constructor; [done|]. constructor; [done|]. eapply Forall_impl; [exact H2|]. cbn. lia.
  - constructor; [by apply IH|]. clear IH H1 Hs. induction m as [|[k2 v2] m IH]; cbn [sm_emplace map fst] in *; [repeat constructor; lia|].
    apply Forall_cons in H2 as [Ha Hb]. destruct (k <? k2); [|destruct (k =? k2)]; cbn [map fst]; repeat (constructor; [lia|]); auto.
Qed.

Lemma sm_emplace_update m k v : sm_wf m -> 0 <= k <= span_end v -> (forall sp, (k, sp) ∉ m) -> sm_update m (sm_emplace k v m) k (k, v).
Proof.
  intros [Hs Hsp] Hv Hn. split; [split; [by apply sm_emplace_sorted|]|].
  - apply Forall_forall. intros y Hy. apply (sm_emplace_elem _ _ _ _ Hn) in Hy as [->|Hy]; [done|]. rewrite Forall_forall in Hsp. by apply Hsp.
  - intros [k' sp']. rewrite (sm_emplace_elem _ _ _ _ Hn). cbn [fst]. split; [|intuition]. intros [?|Hy]; [by left|right].
    split; [done|]. intros ->. by apply (Hn sp').
Qed.

Lemma sm_wf_split x y : sm_wf (x ++ y) -> sm_wf x /\ sm_wf y /\ forall a b, a ∈ x -> b ∈ y -> fst a < fst b.
Proof. intros [Hs Hsp]. destruct (sorted_app_keys _ _ Hs) as (? & ? & ?). apply Forall_app in Hsp as [? ?]. done. Qed.

Lemma sm_erase_elem m i k sp : sm_wf m -> m !! i = Some (k, sp) -> sm_wf (sm_erase i m) /\ forall y, y ∈ sm_erase i m <-> y ∈ m /\ fst y <> k.
Proof.
  intros Hm Hi. unfold sm_erase. rewrite <- (take_drop_middle m i _ Hi) in Hm at 1. set (a := take i m) in *. set (b := drop (S i) m) in *.
  assert (Em : m = a ++ (k, sp) :: b) by (symmetry; by apply take_drop_middle).
  destruct (sm_wf_split _ _ Hm) as (Ha & Hb' & Hab). destruct (sm_wf_split [(k, sp)] b Hb') as (_ & Hb & Hkb). split.
  - split; [apply sorted_keys_app; [apply Ha|apply Hb|]|apply Forall_app; split; [apply Ha|apply Hb]].
    intros x y Hx Hy. apply Hab; [done|by apply list_elem_of_further].
  - intros y. rewrite Em, !elem_of_app, elem_of_cons. split; [|intros [[?|[->|?]] Hne]; [tauto|by destruct Hne|tauto]]. intros [Hy|Hy]; (split; [tauto|]).
    + specialize (Hab y (k, sp) Hy (list_elem_of_here _ _)). cbn in Hab. lia.
    + specialize (Hkb (k, sp) y (list_elem_of_here _ _) Hy). cbn in Hkb. lia.
Qed.

Lemma sm_replace_update m i k sp sp' : sm_wf m -> m !! i = Some (k, sp) -> 0 <= k <= span_end sp' -> sm_update m (<[i := (k, sp')]> m) k (k, sp').
Proof.
  intros Hm Hi Hv. pose proof (sm_erase_elem m i k sp Hm Hi) as [_ He].
  assert (Em : <[i := (k, sp')]> m = take i m ++ (k, sp') :: drop (S i) m) by (apply insert_take_drop; by eapply lookup_lt_Some).
  split; [split|].
  - rewrite (list_fmap_insert fst). rewrite list_insert_id; [apply Hm|]. rewrite list_lookup_fmap, Hi. done.
  - apply Forall_insert; [apply Hm|done].
  - intros y. rewrite <- He, Em. unfold sm_erase. rewrite !elem_of_app, elem_of_cons. tauto.
Qed.

Lemma sm_update_found m m' k0 k sp pc : sm_update m m' k0 (k, sp) -> k <= pc <= span_end sp ->
  (forall k' sp', (k', sp') ∈ m -> k' <> k0 -> k' <= pc -> k' <= k) -> exists i, find_closest m' pc = (i, true) /\ m' !! i = Some (k, sp).
Proof.
  intros [Hm He] Hpc Hmax. assert (Hc : closest m' pc k sp).
  { split; [apply He; by left|]. split; [lia|]. intros k' sp' [[= -> ->]|[Hi Hne]]%He Hle; [lia|]. by eapply Hmax. }
  pose proof (find_closest_spec m' pc Hm) as Hf. destruct (find_closest m' pc) as [i []]; unfold closest_at in Hf; cbn [fst snd] in Hf.
  - destruct Hf as (k' & sp' & Hi & Hc' & _). destruct (closest_unique _ _ _ _ _ _ Hm Hc Hc') as [<- <-]. eauto.
  - apply Hf in Hc. lia.
Qed.

(** *** The symbols of a process *)

(** A runtime symbol: both names are the one of the file. *)
Definition jit_symbol (sym : Symbol) : Prop := sym_symname sym = sym_demangled_name sym /\ sym_lineno sym = 0 /\ sym_srcpath sym = "jit"%string.

Definition map_index (m : SymbolMap) (i : Z) : Prop := exists k sp, (k, sp) ∈ m /\ span_symbol_idx sp = i.

Section Process.

(** The indices of the other processes, and the other lookups of the table. *)
Context (Q : Z -> Prop) (s : symbols).

Definition owned (m : SymbolMap) (i : Z) : Prop := Q i \/ map_index m i.

(** The spans have symbols of their own. *)
Record map_inv (m : SymbolMap) (t : SymbolTable) : Prop := {
  mv_wf : sm_wf m;
  mv_sym : forall i, map_index m i -> ~ Q i /\ exists sym, entry t i = Some sym /\ jit_symbol sym;
  mv_inj : forall k k' sp sp', (k, sp) ∈ m -> (k', sp') ∈ m -> span_symbol_idx sp = span_symbol_idx sp' -> k = k';
  mv_others : symbols_inv (owned m) s t
}.

Definition jit_at (t : SymbolTable) (i : Z) : Prop := exists sym, entry t i = Some sym /\ jit_symbol sym.

(** What insertions do to the table: new symbols are added, and those of the others are as before. *)
Record table_frame (m : SymbolMap) (t : SymbolTable) (m' : SymbolMap) (t' : SymbolTable) : Prop := {
  tf_length : (length t <= length t')%nat;
  tf_others : forall i sym, ~ map_index m i -> entry t i = Some sym -> entry t' i = Some sym;
  tf_index : forall i, map_index m' i -> map_index m i \/ Z.of_nat (length t) <= i;
  tf_jit : forall i, jit_at t i -> jit_at t' i
}.

(** The symbol that a lookup of [pc] finds. *)
Definition names (m : SymbolMap) (t : SymbolTable) (pc : Z) (name : string) : Prop :=
  exists i k sp sym, find_closest m pc = (i, true) /\ m !! i = Some (k, sp) /\ entry t (span_symbol_idx sp) = Some sym /\ sym_demangled_name sym = name.

Lemma accepted_range symbol address code_size : symbol_accepted symbol address code_size = true -> is_u64 address -> is_u64 code_size ->
  0 < address /\ 0 < code_size /\ address + code_size <= uint64_max.
Proof.
  unfold symbol_accepted, is_u64, uint64_max. intros H Ha Hc. zbool. rewrite u64_small in * by (unfold is_u64; lia). lia.
Qed.

Lemma entry_change (t : SymbolTable) j x i : 0 <= j < Z.of_nat (length t) ->
  entry (<[Z.to_nat j := x]> t) i = if i =? j then Some x else entry t i.
Proof.
  intros Hj. unfold entry. destruct (Z.ltb_spec i 0); destruct (Z.eqb_spec i j) as [->|]; try lia; [done|..].
  - apply list_lookup_insert_eq. lia.
  - apply list_lookup_insert_ne. lia.
Qed.

Lemma insert_fresh m t symbol a e : map_inv m t -> room t -> 0 <= a <= e -> (forall sp, (a, sp) ∉ m) ->
  let m' := sm_emplace a (mkSpan e (next_idx t)) m in
  let t' := t ++ [mkSymbol symbol symbol 0 "jit"] in
  map_inv m' t' /\ sm_update m m' a (a, mkSpan e (next_idx t)) /\ entry t' (next_idx t) = Some (mkSymbol symbol symbol 0 "jit").
Proof.
  intros [Hw Hsy Hin Hot] Hr Ha Hn m' t'. pose proof (sm_emplace_update m a (mkSpan e (next_idx t)) Hw Ha Hn) as Hu.
  destruct (entry_next t (mkSymbol symbol symbol 0 "jit")) as [En Hnn]; [lia|].
  assert (Hfresh : forall i sym, entry t i = Some sym -> i <> next_idx t).
  { intros i sym He%entry_lt ->. rewrite next_idx_val in He; lia. }
  assert (Hidx : forall i, map_index m' i <-> map_index m i \/ i = next_idx t).
  { intros i. destruct Hu as [_ Hu]. split.
    - intros (k & sp & [[= -> ->]|[Hi _]]%Hu & <-); [by right|left; by exists k, sp].
    - intros [(k & sp & Hi & <-)| ->]; [exists k, sp; split; [|done]|exists a, (mkSpan e (next_idx t)); split; [|done]]; apply Hu; [right|by left].
      split; [done|]. cbn. intros ->. by apply (Hn sp). }
  split; [|done]. split; [apply Hu|..].
  - intros i [Hi| ->]%Hidx.
    + destruct (Hsy i Hi) as (? & sym & ? & ?). split; [done|]. exists sym. split; [by apply entry_app|done].
    + split; [|by eexists]. intros HQ. pose proof (si_reserved _ _ _ Hot (next_idx t) (or_introl HQ)) as Hb.
      rewrite next_idx_val in Hb; lia.
  - destruct Hu as [_ Hu]. intros k k' sp sp' [[= -> ->]|[Hi _]]%Hu [[= -> ->]|[Hi' _]]%Hu E; cbn [span_symbol_idx] in E; [done|..|by eapply Hin].
    + destruct (Hsy (span_symbol_idx sp')) as (_ & sym & He & _); [by exists k', sp'|]. by destruct (Hfresh _ _ He).
    + destruct (Hsy (span_symbol_idx sp)) as (_ & sym & He & _); [by exists k, sp|]. by destruct (Hfresh _ _ He).
  - eapply symbols_inv_release; [by apply symbols_inv_reserve|]. unfold owned. intros i [?|[?| ->]%Hidx]; eauto.
Qed.

(** The span stays where it is, with the same index. *)
Lemma insert_same m t i k sp e : map_inv m t -> m !! i = Some (k, sp) ->
  map_inv (<[i := (k, span_set_end sp e)]> m) t /\ sm_update m (<[i := (k, span_set_end sp e)]> m) k (k, span_set_end sp e).
Proof.
  intros [Hw Hsy Hin Hot] Hi. assert (Hel : (k, sp) ∈ m) by (by eapply list_elem_of_lookup_2).
  assert (Hk : 0 <= k <= span_end (span_set_end sp e)).
  { pose proof (sm_spans _ Hw) as Hs. rewrite Forall_forall in Hs. specialize (Hs _ Hel). cbn in Hs |- *. lia. }
  pose proof (sm_replace_update m i k sp (span_set_end sp e) Hw Hi Hk) as Hu. split; [|done].
  assert (Hback : forall k' sp', (k', sp') ∈ <[i := (k, span_set_end sp e)]> m ->
    exists sp0, (k', sp0) ∈ m /\ span_symbol_idx sp0 = span_symbol_idx sp').
  { destruct Hu as [_ Hu]. intros k' sp' [[= -> ->]|[Hi' _]]%Hu; eauto. }
  assert (Hidx : forall j, map_index (<[i := (k, span_set_end sp e)]> m) j -> map_index m j).
  { intros j (k' & sp' & (sp0 & ? & ?)%Hback & <-). by exists k', sp0. }
  split; [apply Hu|by intros j Hj%Hidx; apply Hsy|..].
  - intros k1 k2 sp1 sp2 (sp1' & ? & E1)%Hback (sp2' & ? & E2)%Hback E. eapply Hin; [done..|congruence].
  - eapply symbols_inv_release; [done|]. intros j [?|?%Hidx]; [by left|by right].
Qed.

(** The span is replaced by one at the new address, that takes its symbol over. *)
Lemma insert_renamed m t i k sp symbol a e : map_inv m t -> m !! i = Some (k, sp) -> 0 <= a <= e ->
  (forall sp', (a, sp') ∈ m -> a = k) ->
  let j := span_symbol_idx sp in
  let m' := sm_emplace a (mkSpan e j) (sm_erase i m) in
  let t' := <[Z.to_nat j := mkSymbol symbol symbol 0 "jit"]> t in
  map_inv m' t' /\ sm_update m m' k (a, mkSpan e j) /\ entry t' j = Some (mkSymbol symbol symbol 0 "jit") /\
  (forall i', i' <> j -> entry t' i' = entry t i').
Proof.
  intros [Hw Hsy Hin Hot] Hi Ha Hna j m' t'. assert (Hel : (k, sp) ∈ m) by (by eapply list_elem_of_lookup_2).
  assert (Hj : map_index m j) by (by exists k, sp). destruct (Hsy j Hj) as (HQ & sym & Hsym & _).
  destruct (sm_erase_elem m i k sp Hw Hi) as [Hwe He].
  assert (Hn : forall sp', (a, sp') ∉ sm_erase i m) by (intros sp' [Hs Hne]%He; by apply Hne, (Hna sp')).
  destruct (sm_emplace_update _ a (mkSpan e j) Hwe Ha Hn) as [Hw' Hu'].
  assert (Hu : forall y, y ∈ m' <-> y = (a, mkSpan e j) \/ (y ∈ m /\ fst y <> k)).
  { intros y. unfold m'. rewrite Hu', He. split; [tauto|]. intros [?|[Hy Hne]]; [by left|right]. split; [done|].
    destruct y as [ky spy]. cbn [fst] in *. intros ->. by apply Hne, (Hna spy). }
  assert (Hb : 0 <= j < Z.of_nat (length t)) by (apply (si_reserved _ _ _ Hot); by right).
  assert (Ent : forall i', entry t' i' = if i' =? j then Some (mkSymbol symbol symbol 0 "jit") else entry t i') by (intros; by apply entry_change).
  assert (Hidx : forall i', map_index m' i' -> map_index m i').
  { intros i' (k' & sp' & [[= -> ->]|[Hi' _]]%Hu & <-); [done|]. by exists k', sp'. }
  split; [|split; [by split|split; [by rewrite Ent, Z.eqb_refl|]]].
  - split; [done|..].
    + intros i' Hi'%Hidx. destruct (Hsy i' Hi') as (? & sym' & ? & ?). split; [done|]. rewrite Ent. destruct (i' =? j); [by eexists|eauto].
    + intros k1 k2 sp1 sp2 [[= -> ->]|[H1 N1]]%Hu [[= -> ->]|[H2 N2]]%Hu E; cbn [span_symbol_idx fst] in *; [done|..|by eapply Hin].
      * destruct N2. symmetry. by eapply Hin.
      * destruct N1. by eapply Hin.
    + apply symbols_inv_release with (R := owned m); [apply symbols_inv_change; [done|by right]|].
      intros i' [?|?%Hidx]; [by left|by right].
  - intros i' Hne. rewrite Ent. by rewrite (proj2 (Z.eqb_neq _ _)).
Qed.

(** The spans that do not contain the address stay, with their symbols. *)
Definition spans_kept (m : SymbolMap) (t : SymbolTable) (m' : SymbolMap) (t' : SymbolTable) (a : Z) : Prop :=
  forall k sp, (k, sp) ∈ m -> ~ (k <= a <= span_end sp) -> (k, sp) ∈ m' /\ entry t' (span_symbol_idx sp) = entry t (span_symbol_idx sp).

Lemma table_frame_refl m t : table_frame m t m t.
Proof. split; [lia|by intros|by left|done]. Qed.

Lemma table_frame_trans m t m1 t1 m2 t2 : table_frame m t m1 t1 -> table_frame m1 t1 m2 t2 -> table_frame m t m2 t2.
Proof.
  intros [L1 O1 I1 J1] [L2 O2 I2 J2]. split; [lia|..|by intros i Hi; apply J2, J1].
  - intros i sym Hn He. apply O2; [|by apply O1]. intros [?|Hi]%I1; [done|]. apply entry_lt in He. lia.
  - intros i [Hi|Hi]%I2; [by apply I1|right; lia].
Qed.

(** The conclusion of an insertion. *)
Definition inserted (m : SymbolMap) (t : SymbolTable) (symbol : string) (a c : Z) (m' : SymbolMap) (t' : SymbolTable) : Prop :=
  map_inv m' t' /\ table_frame m t m' t' /\ (length t' <= S (length t))%nat /\ spans_kept m t m' t' a /\
  forall pc, a <= pc < a + c -> (forall k sp, (k, sp) ∈ m -> a < k -> pc < k) -> names m' t' pc symbol.

Lemma inserted_fresh m t symbol a c : map_inv m t -> room t -> 0 <= a -> 0 < c -> snd (find_closest m a) = false ->
  inserted m t symbol a c (sm_emplace a (mkSpan (a + c - 1) (next_idx t)) m) (t ++ [mkSymbol symbol symbol 0 "jit"]).
Proof.
  intros Hm Hr Ha Hc Hf. assert (Hn : forall sp, (a, sp) ∉ m).
  { intros sp Hsp. pose proof (find_closest_spec m a (mv_wf _ _ Hm)) as Hs. unfold closest_at in Hs. rewrite Hf in Hs.
    specialize (Hs a sp). pose proof (sm_spans _ (mv_wf _ _ Hm)) as Hall. rewrite Forall_forall in Hall. specialize (Hall _ Hsp). cbn in Hall.
    assert (span_end sp < a); [apply Hs; split; [done|]; split; [lia|]; intros; lia|lia]. }
  destruct (insert_fresh m t symbol a (a + c - 1) Hm Hr ltac:(lia) Hn) as (Hm' & Hu & He). cbv zeta in *.
  split; [done|]. split; [split|split; [rewrite length_app; cbn; lia|split]].
  - rewrite length_app. lia.
  - intros. by apply entry_app.
  - intros i (k & sp & [[= -> ->]|[Hi _]]%(proj2 Hu) & <-); [right; cbn; rewrite next_idx_val; lia|left; by exists k, sp].
  - intros i (sym & Hi & Hj). exists sym. split; [by apply entry_app|done].
  - intros k sp Hsp _. split; [apply Hu; right; split; [done|cbn; intros ->; by apply (Hn sp)]|].
    destruct (mv_sym _ _ Hm (span_symbol_idx sp)) as (_ & sym & Hsy & _); [by exists k, sp|]. rewrite Hsy. by apply entry_app.
  - intros pc Hpc Hnext. destruct (sm_update_found m _ a a _ pc Hu) as (i & Hfi & Hi); [cbn; lia| |].
    + intros k sp Hsp _ Hle. destruct (Z.le_gt_cases k a) as [|Hgt]; [done|]. specialize (Hnext _ _ Hsp Hgt). lia.
    + exists i, a, (mkSpan (a + c - 1) (next_idx t)), (mkSymbol symbol symbol 0 "jit"). done.
Qed.

(** The span that contains the address keeps its symbol, or hands it over. *)
Lemma inserted_over m t symbol a c i k sp sym : map_inv m t -> 0 <= a -> 0 < c -> find_closest m a = (i, true) -> m !! i = Some (k, sp) ->
  entry t (span_symbol_idx sp) = Some sym ->
  let e := a + c - 1 in
  if bool_decide (sym_demangled_name sym = symbol) then inserted m t symbol a c (<[i := (k, span_set_end sp e)]> m) t
  else inserted m t symbol a c (sm_emplace a (mkSpan e (span_symbol_idx sp)) (sm_erase i m)) (<[Z.to_nat (span_symbol_idx sp) := mkSymbol symbol symbol 0 "jit"]> t).
Proof.
  intros Hm Ha Hc Hf Hi Hsy e. pose proof (find_closest_spec m a (mv_wf _ _ Hm)) as Hs. unfold closest_at in Hs. rewrite Hf in Hs. cbn [fst snd] in Hs.
  rewrite Hi in Hs. destruct Hs as (k' & sp' & [= <- <-] & (Hin & Hk & Hmax) & Hend).
  assert (Hnk : forall k' sp', (k', sp') ∈ m -> ~ (k' <= a <= span_end sp') -> k' <> k).
  { intros k' sp' Hi' Hn ->. rewrite (sm_key_inj m k sp' sp) in Hn; [lia|apply Hm|done..]. }
  assert (Hsort : forall pc, a <= pc -> (forall k' sp', (k', sp') ∈ m -> a < k' -> pc < k') ->
    forall k' sp', (k', sp') ∈ m -> k' <= pc -> k' <= k).
  { intros pc Hpc Hnext k' sp' Hi' Hle. destruct (Z.le_gt_cases k' a) as [Hka|Hgt]; [by eapply Hmax|]. specialize (Hnext _ _ Hi' Hgt). lia. }
  case_bool_decide as Hname.
  - destruct (insert_same m t i k sp e Hm Hi) as [Hm' Hu]. split; [done|]. split; [split; [lia|by intros| |done]|split; [lia|split]].
    + intros i' (k' & sp' & [[= -> ->]|[Hi' _]]%(proj2 Hu) & <-); left; [by exists k, sp|by exists k', sp'].
    + intros k' sp' Hi' Hn. split; [|done]. apply Hu. right. eauto.
    + intros pc Hpc Hnext. destruct (sm_update_found m _ k k _ pc Hu) as (i' & Hf' & Hi'); [cbn; lia|intros; by eapply Hsort; [..|done]; [lia|..]|].
      by exists i', k, (span_set_end sp e), sym.
  - destruct (insert_renamed m t i k sp symbol a e Hm Hi ltac:(lia)) as (Hm' & Hu & He & Hoth).
    { intros sp' Hi'. specialize (Hmax a sp' Hi'). lia. }
    cbv zeta in *. split; [done|]. split; [split|split; [rewrite length_insert; lia|split]].
    + by rewrite length_insert.
    + intros i' sym' Hn He'. rewrite Hoth; [done|]. intros ->. apply Hn. by exists k, sp.
    + intros i' (k' & sp' & [[= -> ->]|[Hi' _]]%(proj2 Hu) & <-); left; [by exists k, sp|by exists k', sp'].
    + intros i' (sym' & He' & Hj'). destruct (decide (i' = span_symbol_idx sp)) as [->|Hne]; [by eexists|]. exists sym'. by rewrite Hoth.
    + intros k' sp' Hi' Hn. split; [apply Hu; right; eauto|]. apply Hoth. intros E. apply (Hnk _ _ Hi' Hn). by eapply (mv_inj _ _ Hm).
    + intros pc Hpc Hnext. destruct (sm_update_found m _ k a _ pc Hu) as (i' & Hf' & Hi'); [cbn; lia| |by exists i', a, (mkSpan e (span_symbol_idx sp)), (mkSymbol symbol symbol 0 "jit")].
      intros k' sp' Hi' _ Hle. assert (k' <= k) by (eapply Hsort; [|done..]; lia). lia.
Qed.

(** The property of [insert_or_replace]. *)
Lemma insert_or_replace_spec m t symbol a c : map_inv m t -> room t -> is_u64 a -> is_u64 c ->
  exists m' t', insert_or_replace symbol a c m t = Some (symbol_accepted symbol a c, m', t') /\
    if symbol_accepted symbol a c then inserted m t symbol a c m' t' else m' = m /\ t' = t.
Proof.
  intros Hm Hr Ha Hc. unfold insert_or_replace. destruct (symbol_accepted symbol a c) eqn:Eacc; cbn [negb]; [|by exists m, t].
  destruct (accepted_range _ _ _ Eacc Ha Hc) as (Ha0 & Hc0 & Hsum). rewrite u64_small by (unfold is_u64, uint64_max in *; lia).
  destruct (find_closest m a) as [i b] eqn:Ef. destruct b; cbn [negb].
  - pose proof (find_closest_spec m a (mv_wf _ _ Hm)) as Hs. unfold closest_at in Hs. rewrite Ef in Hs. cbn [fst snd] in Hs.
    destruct Hs as (k & sp & Hi & (Hin & _) & _). rewrite Hi.
    destruct (mv_sym _ _ Hm (span_symbol_idx sp)) as (_ & sym & Hsy & Hj1 & Hj2 & Hj3); [by exists k, sp|]. rewrite Hsy.
    pose proof (inserted_over m t symbol a c i k sp sym Hm ltac:(lia) Hc0 Ef Hi Hsy) as Hins. cbv zeta in Hins.
    rewrite Hj2, Hj3. destruct (bool_decide _); eauto.
  - eexists _, _. split; [done|]. apply inserted_fresh; [done|done|lia|done|by rewrite Ef].
Qed.

(** Several insertions. *)
Definition filled (m : SymbolMap) (t : SymbolTable) (n : nat) (m' : SymbolMap) (t' : SymbolTable) : Prop :=
  map_inv m' t' /\ table_frame m t m' t' /\ (length t' <= length t + n)%nat.

Lemma filled_step m t n symbol a c : map_inv m t -> Z.of_nat (length t + S n) + 1 < 2 ^ 31 -> is_u64 a -> is_u64 c ->
  exists b m1 t1, insert_or_replace symbol a c m t = Some (b, m1, t1) /\ map_inv m1 t1 /\ Z.of_nat (length t1 + n) + 1 < 2 ^ 31 /\
    forall m' t', filled m1 t1 n m' t' -> filled m t (S n) m' t'.
Proof.
  intros Hm Hr Ha Hc. destruct (insert_or_replace_spec m t symbol a c Hm ltac:(lia) Ha Hc) as (m1 & t1 & E & Hins).
  assert (Hf : map_inv m1 t1 /\ table_frame m t m1 t1 /\ (length t1 <= S (length t))%nat).
  { destruct (symbol_accepted _ _ _); [by destruct Hins as (? & ? & ? & _)|]. destruct Hins as [-> ->].
    split; [done|]. split; [apply table_frame_refl|lia]. }
  destruct Hf as (Hm1 & Hf1 & Hl1). exists (symbol_accepted symbol a c), m1, t1. split; [done|]. split; [done|]. split; [lia|].
  intros m' t' (Hm' & Hf' & Hl'). split; [done|]. split; [by eapply table_frame_trans|lia].
Qed.

Lemma filled_none m t n : map_inv m t -> filled m t n m t.
Proof. intros Hm. split; [done|]. split; [apply table_frame_refl|lia]. Qed.

Lemma insert_code_loads_spec cs m t : map_inv m t -> Z.of_nat (length t + length cs) + 1 < 2 ^ 31 -> Forall load_ok cs ->
  exists m' t', insert_code_loads cs m t = Some (m', t') /\ filled m t (length cs) m' t'.
Proof.
  revert m t. induction cs as [|c cs IH]; intros m t Hm Hr Hok; cbn [insert_code_loads length] in *; [eauto using filled_none|].
  apply Forall_cons in Hok as [[Ha Hs] Hok].
  destruct (filled_step m t (length cs) (string_of_bytes (jc_func_name c)) _ _ Hm Hr Ha Hs) as (b & m1 & t1 & -> & Hm1 & Hr1 & Hf).
  destruct (IH m1 t1 Hm1 Hr1 Hok) as (m' & t' & -> & Hm'). eauto.
Qed.

Lemma hex_number_nonneg bs acc : 0 <= acc -> 0 <= hex_number acc bs.
Proof.
  revert acc. induction bs as [|b bs IH]; intros acc H; cbn [hex_number]; [done|]. destruct (hex_value b) as [d|] eqn:E; [|done].
  apply IH. assert (0 <= d); [|lia]. unfold hex_value in E. repeat case_match; zbool; simplify_eq; lia.
Qed.

Lemma strtoul16_range bs : is_u64 (strtoul16 bs).
Proof.
  unfold strtoul16. destruct (match skip_spaces bs with [] => _ | _ => _ end) as [neg bs1]. set (bs2 := match bs1 with [] => _ | _ => _ end).
  pose proof (hex_number_nonneg bs2 0 ltac:(lia)). unfold uint64_max. destruct (Z.ltb_spec (2 ^ 64 - 1) (hex_number 0 bs2)); [unfold is_u64; lia|].
  destruct neg; [apply u64_range|unfold is_u64; lia].
Qed.

Lemma insert_lines_spec ls m t : map_inv m t -> Z.of_nat (length t + length ls) + 1 < 2 ^ 31 ->
  exists m' t', insert_lines ls m t = Some (m', t') /\ filled m t (length ls) m' t'.
Proof.
  revert m t. induction ls as [|l ls IH]; intros m t Hm Hr; cbn [insert_lines length] in *; [eauto using filled_none|].
  destruct (scan_line l) as [[[a c] name]|].
  - destruct (filled_step m t (length ls) (string_of_bytes name) _ _ Hm Hr (strtoul16_range a) (strtoul16_range c)) as (b & m1 & t1 & -> & Hm1 & Hr1 & Hf).
    destruct (IH m1 t1 Hm1 Hr1) as (m' & t' & -> & Hm'). eauto.
  - destruct (IH m t Hm ltac:(lia)) as (m' & t' & -> & Hm' & Hf & Hl). do 2 eexists. split; [done|]. split; [done|]. split; [done|lia].
Qed.

End Process.

(** *** Lookups *)

Section Files.
Context (read_file : string -> option (list Z)) (alloc_entries : Z -> bool).

(** Files of at most [F] symbols: each is a jitdump that LLVM is writing, from its header on, or
    does not start as a jitdump, as a perf map. *)
Definition files_ok (F : nat) : Prop :=
  forall path bytes, read_file path = Some bytes -> Forall (fun b => 0 <= b < 256) bytes /\ (length (lines_of bytes []) <= F)%nat /\
    (not_jitdump bytes \/ exists h rs n, bytes = take n (file_bytes h rs) /\ header_ok h /\ Forall (record_ok alloc_entries) rs /\
       (40 <= n)%nat /\ (length rs <= F)%nat).

(** The reader stays inside such a file. *)
Lemma files_ok_read F path bytes : files_ok F -> read_file path = Some bytes ->
  exists r d, jitdump_read alloc_entries (Some bytes) empty_dump = Some (r, d) /\ (length (code_load d) <= F)%nat.
Proof.
  intros Hf E. destruct (Hf _ _ E) as (_ & _ & [Hn|(h & rs & n & -> & Hh & Hr & Hle & Hl)]).
  - destruct (read_not_jitdump alloc_entries bytes Hn) as (d & -> & Hd). do 2 eexists. split; [done|]. rewrite Hd. cbn. lia.
  - destruct (read_truncated alloc_entries h rs n Hh Hr Hle) as (k & r & -> & _). do 2 eexists. split; [done|].
    pose proof (dump_of_length h (take k rs)) as Hk. rewrite length_take in Hk. lia.
Qed.

Context (F : nat) (Hfiles : files_ok F).

Abbreviation roomy t := (Z.of_nat (length t + F) + 1 < 2 ^ 31).

Lemma filled_le Q s m t n n' m' t' : filled Q s m t n m' t' -> (n <= n')%nat -> filled Q s m t n' m' t'.
Proof. intros (? & ? & ?) Hn. split; [done|]. split; [done|lia]. Qed.

Lemma jitdump_file path : exists r d, jitdump_read alloc_entries (read_file path) empty_dump = Some (r, d) /\
  Forall load_ok (code_load d) /\ (length (code_load d) <= F)%nat /\ (read_file path = None -> d = empty_dump).
Proof.
  destruct (read_file path) as [bytes|] eqn:Ef.
  - destruct (Hfiles _ _ Ef) as (Hb & _). destruct (files_ok_read F _ _ Hfiles Ef) as (r & d & E & Hl). exists r, d. split; [done|].
    destruct (jitdump_loads _ _ _ _ _ E) as [Hok _]; [done|by intros bs [= <-]|done].
  - do 2 eexists. split; [done|]. split; [constructor|]. split; [cbn; lia|done].
Qed.

Lemma fill_from_jitdump_spec Q s r path pid m t : path <> EmptyString -> map_inv Q s m t -> roomy t ->
  exists res m' t', fill_from_jitdump read_file alloc_entries r path pid m t = Some (res, m', t') /\ filled Q s m t F m' t' /\
    (IsDDResFatal res = true -> m' = m).
Proof.
  intros Hp Hm Hr. unfold fill_from_jitdump. destruct path as [|c path]; [done|]. cbn [is_absolute_path]. set (p := String c path) in *.
  set (full := (_ +:+ _)%string). destruct (jitdump_file full) as (res & d & E & Hok & Hl & Hnone). rewrite E.
  assert (Hfin : forall d, Forall load_ok (code_load d) -> (length (code_load d) <= F)%nat -> exists m' t',
    (let? (m, t) := insert_code_loads (code_load d) m t in Some (ddres_init, m, t)) = Some (ddres_init, m', t') /\ filled Q s m t F m' t').
  { intros d' Hok' Hl'. destruct (insert_code_loads_spec Q s (code_load d') m t Hm) as (m' & t' & -> & Hf); [|done|].
    - lia.
    - exists m', t'. split; [done|]. by eapply filled_le. }
  destruct (IsDDResNotOK res && (res_what res =? what_of "NO_JIT_FILE")) eqn:Eres; [|destruct (Hfin d Hok Hl) as (m' & t' & ? & ?); do 3 eexists; split_and!; done].
  assert (Hd : d = empty_dump).
  { destruct (read_file full) as [bytes|] eqn:Ef; [|by apply Hnone]. apply jitdump_not_missing in E. unfold not_missing in E. zbool. congruence. }
  subst d. destruct (jitdump_file p) as (res' & d' & E' & Hok' & Hl' & _). rewrite E'.
  destruct (IsDDResFatal res'); [|destruct (Hfin d' Hok' Hl') as (m' & t' & ? & ?); do 3 eexists; split_and!; done].
  do 3 eexists. split; [done|]. split; [by apply filled_none|done].
Qed.

Lemma fill_from_perfmap_spec Q s r pid m t : map_inv Q s m t -> roomy t ->
  exists res m' t', fill_from_perfmap read_file r pid m t = Some (res, m', t') /\ filled Q s m t F m' t'.
Proof.
  intros Hm Hr. unfold fill_from_perfmap. destruct (perfmaps_open read_file r pid "/tmp") as [bytes|] eqn:Ef.
  - assert (Hl : (length (lines_of bytes []) <= F)%nat).
    { unfold perfmaps_open in Ef. cbv zeta in Ef. destruct (_ <=? _)%nat; [done|].
      destruct (read_file _) as [bs|] eqn:E1 in Ef; [injection Ef as <-; by apply (Hfiles _ _ E1)|by apply (Hfiles _ _ Ef)]. }
    destruct (insert_lines_spec Q s (lines_of bytes []) m t Hm) as (m' & t' & -> & Hf); [lia|].
    do 3 eexists. split; [done|]. eapply filled_le; [done|lia].
  - do 3 eexists. split; [done|]. by apply filled_none.
Qed.

(** The index of the last span that starts at or before the address, when it contains it; otherwise none. *)
Definition rt_answer (m : SymbolMap) (pc i : Z) : Prop :=
  (exists k sp, closest m pc k sp /\ pc <= span_end sp /\ i = span_symbol_idx sp) \/
  i = k_symbol_idx_null /\ forall k sp, closest m pc k sp -> span_end sp < pc.

(** What a lookup of an address of a process does: its map is filled, and the index is that of the address in it. *)
Definition rt_info (r : RuntimeSymbolLookup) (pid : Z) : SymbolInfo := default (mkSI [] ∅) (rt_pid_map r !! pid).

Definition rt_result (Q : Z -> Prop) (s : symbols) (r : RuntimeSymbolLookup) (pid pc : Z) (t : SymbolTable) (res : Z * RuntimeSymbolLookup * SymbolTable) : Prop :=
  let '(i, r', t') := res in
  exists info, rt_pid_map r' = <[pid := info]> (rt_pid_map r) /\ filled Q s (si_map (rt_info r pid)) t F (si_map info) t' /\
    rt_answer (si_map info) pc i.

Lemma lookup_result_spec Q s r0 r pid t m t' fc pc path : filled Q s (si_map (rt_info r0 pid)) t F m t' -> rt_pid_map r = rt_pid_map r0 ->
  exists res, lookup_result r pid (mkSI m fc) t' pc path = Some res /\ rt_result Q s r0 pid pc t res.
Proof.
  intros Hf Hr. unfold lookup_result. cbn [si_map]. pose proof (find_closest_spec m pc (mv_wf _ _ _ _ (proj1 Hf))) as Hs.
  destruct (find_closest m pc) as [i []]; unfold closest_at in Hs; cbn [fst snd] in Hs.
  - destruct Hs as (k & sp & Hi & Hc & Hle). rewrite Hi. eexists. split; [done|]. exists (mkSI m fc). cbn [rt_pid_map set_info si_map]. rewrite Hr.
    split; [done|]. split; [done|]. left. by exists k, sp.
  - eexists. split; [done|]. exists (mkSI m (<[path := cycle_counter r]> fc)). unfold flag_lookup_failure, count_failure, set_info.
    cbn [rt_pid_map si_map failed_cycle]. rewrite Hr. split; [done|]. split; [done|by right].
Qed.

Lemma jitdump_lookup_spec Q s r pid pc t path : path <> EmptyString -> map_inv Q s (si_map (rt_info r pid)) t -> roomy t ->
  exists res, get_or_insert_jitdump read_file alloc_entries r pid pc t path = Some res /\ rt_result Q s r pid pc t res.
Proof.
  intros Hp Hm Hr. unfold get_or_insert_jitdump. fold (rt_info r pid).
  destruct (negb _ && negb _) eqn:En; [|destruct (rt_info r pid) as [m fc] eqn:Ei; apply lookup_result_spec; [rewrite Ei; by apply filled_none|done]].
  destruct (fill_from_jitdump_spec Q s (count_read r) path pid _ t Hp Hm Hr) as (res & m' & t' & -> & Hf & Hsame).
  destruct (IsDDResFatal res); [|by apply lookup_result_spec]. eexists. split; [done|]. rewrite (Hsame eq_refl) in Hf |- *.
  exists (mkSI (si_map (rt_info r pid)) (<[path := cycle_counter r]> (failed_cycle (rt_info r pid)))). split; [done|]. split; [done|]. right. split; [done|].
  apply andb_prop in En as [En _]. apply negb_true_iff in En. pose proof (find_closest_spec _ pc (mv_wf _ _ _ _ Hm)) as Hs. unfold closest_at in Hs. by rewrite En in Hs.
Qed.

Lemma perfmap_lookup_spec Q s r pid pc t : map_inv Q s (si_map (rt_info r pid)) t -> roomy t ->
  exists res, rt_get_or_insert read_file r pid pc t = Some res /\ rt_result Q s r pid pc t res.
Proof.
  intros Hm Hr. unfold rt_get_or_insert. fold (rt_info r pid).
  destruct (negb _ && negb _); [|destruct (rt_info r pid) as [m fc] eqn:Ei; apply lookup_result_spec; [rewrite Ei; by apply filled_none|done]].
  destruct (fill_from_perfmap_spec Q s (count_read r) pid _ t Hm Hr) as (res & m' & t' & -> & Hf). by apply lookup_result_spec.
Qed.

End Files.
