(* ===== verification/PerfMap.v ===== *)
(** * Perf maps

    The text files in which runtimes publish the symbols of the code they generate, as
    [fill_from_perfmap] of [src/runtime_symbol_lookup.cc] reads them: lines of an address, a
    size and a name.  The reader against a writer of the format. *)

From stdpp Require Import pretty.
From S2P Require Import Prelude Symbols RuntimeSymbols.

(** ** The writer: "%lx %x %s\n" *)

Definition hex_byte (d : Z) : Z := if d <? 10 then 48 + d else 87 + d.

Fixpoint print_hex (fuel : nat) (x : Z) (rest : list Z) : list Z :=
  match fuel with
  | O => rest
  | S f => let rest := hex_byte (x mod 16) :: rest in if x / 16 =? 0 then rest else print_hex f (x / 16) rest
  end.

Record perf_entry := mkPE { pe_addr : Z; pe_size : Z; pe_name : list Z }.

Definition perf_line (e : perf_entry) : list Z := print_hex 16 (pe_addr e) [] ++ 32 :: print_hex 8 (pe_size e) [] ++ 32 :: pe_name e ++ [10].
Definition perf_file (es : list perf_entry) : list Z := concat (map perf_line es).

Definition perf_entry_ok (e : perf_entry) : Prop :=
  0 <= pe_addr e < 2 ^ 64 /\ 0 <= pe_size e < 2 ^ 32 /\
  match pe_name e with b :: _ => is_space b = false | [] => False end /\ Forall (fun b => b <> 0 /\ b <> 9 /\ b <> 10) (pe_name e).

(** ** Numbers *)

Definition hexdigit (b : Z) : Prop := 48 <= b <= 57 \/ 97 <= b <= 102.

Lemma hex_byte_digit d : 0 <= d < 16 -> hexdigit (hex_byte d) /\ hex_value (hex_byte d) = Some d.
Proof.
  intros Hd. unfold hexdigit, hex_byte, hex_value. destruct (Z.ltb_spec d 10).
  - split; [lia|]. rewrite (proj2 (Z.leb_le 48 (48 + d))), (proj2 (Z.leb_le (48 + d) 57)) by lia. cbn [andb]. f_equal. lia.
  - split; [lia|]. rewrite (proj2 (Z.leb_gt (87 + d) 57)), (proj2 (Z.leb_gt (87 + d) 70)), andb_false_r by lia. rewrite andb_false_r.
    rewrite (proj2 (Z.leb_le 97 (87 + d))), (proj2 (Z.leb_le (87 + d) 102)) by lia. cbn [andb]. f_equal. lia.
Qed.

Lemma print_hex_number fuel x rest : 0 <= x < 16 ^ Z.of_nat fuel -> (0 < fuel)%nat -> hex_number 0 (print_hex fuel x rest) = hex_number x rest.
Proof.
  revert x rest. induction fuel as [|f IH]; intros x rest Hx Hf; [lia|]. cbn [print_hex].
  destruct (hex_byte_digit (x mod 16)) as [_ Hd]; [apply Z.mod_pos_bound; lia|]. pose proof (Z.div_mod x 16 ltac:(lia)) as Hdm.
  destruct (Z.eqb_spec (x / 16) 0) as [E|Hne].
  - cbn [hex_number]. rewrite Hd. f_equal. lia.
  - rewrite Nat2Z.inj_succ, Z.pow_succ_r in Hx by lia. assert (x / 16 < 16 ^ Z.of_nat f) by (apply Z.div_lt_upper_bound; lia).
    assert (0 <= x / 16) by (apply Z.div_pos; lia). rewrite IH; [|lia|destruct f; [cbn in *; lia|lia]]. cbn [hex_number]. rewrite Hd. f_equal. lia.
Qed.

Lemma print_hex_shape fuel x rest : 0 <= x -> (0 < fuel)%nat ->
  exists ds, print_hex fuel x rest = ds ++ rest /\ Forall hexdigit ds /\ (length ds <= fuel)%nat /\ ds <> [].
Proof.
  revert x rest. induction fuel as [|f IH]; intros x rest Hx Hf; [lia|]. cbn [print_hex]. set (d := hex_byte (x mod 16)).
  assert (Hd : hexdigit d) by (apply hex_byte_digit; apply Z.mod_pos_bound; lia).
  assert (H1 : exists ds, d :: rest = ds ++ rest /\ Forall hexdigit ds /\ (length ds <= S f)%nat /\ ds <> []).
  { exists [d]. split; [done|]. split; [by apply Forall_singleton|]. split; [cbn; lia|done]. }
  destruct (x / 16 =? 0); [done|]. destruct f as [|f]; [done|].
  destruct (IH (x / 16) (d :: rest)) as (ds & E & Hds & Hl & Hn); [apply Z.div_pos; lia|lia|]. exists (ds ++ [d]). rewrite E, <- app_assoc.
  split; [done|]. split; [apply Forall_app; split; [done|by apply Forall_singleton]|]. rewrite length_app. split; [cbn; lia|by destruct ds].
Qed.

Lemma hexdigit_not b : hexdigit b -> is_space b = false /\ b <> 0 /\ (b =? 45) = false /\ (b =? 43) = false /\ (b =? 120) = false /\ (b =? 88) = false.
Proof. unfold hexdigit, is_space. intros Hb. repeat split; lia. Qed.

Lemma strtoul_print fuel x : 0 <= x < 16 ^ Z.of_nat fuel -> (0 < fuel <= 16)%nat -> strtoul16 (print_hex fuel x []) = x.
Proof.
  intros Hx Hf. pose proof (print_hex_number fuel x [] Hx ltac:(lia)) as Hn. destruct (print_hex_shape fuel x [] ltac:(lia) ltac:(lia)) as (ds & E & Hds & Hl & Hne).
  rewrite app_nil_r in E. rewrite E in *. destruct ds as [|b ds]; [done|]. apply Forall_cons in Hds as [Hb Hds].
  destruct (hexdigit_not b Hb) as (Hs & _ & H45 & H43 & _). unfold strtoul16.
  assert (Hskip : skip_spaces (b :: ds) = b :: ds) by (unfold skip_spaces; cbn [length span_bytes]; by rewrite Hs).
  rewrite Hskip, H45, H43. cbv zeta.
  match goal with |- context [hex_number 0 ?bs] => assert (Ebs : bs = b :: ds) end.
  { destruct ds as [|b1 [|b2 ds]]; [done..|]. apply Forall_cons in Hds as [Hb1 _]. destruct (hexdigit_not b1 Hb1) as (_ & _ & _ & _ & -> & ->).
    cbn [orb]. by rewrite andb_false_r. }
  rewrite Ebs, Hn. cbn [hex_number]. assert (x < 2 ^ 64).
  { assert (16 ^ Z.of_nat fuel <= 16 ^ 16) by (apply Z.pow_le_mono_r; lia). change (16 ^ 16) with (2 ^ 64) in *. lia. }
  unfold uint64_max. destruct (Z.ltb_spec (2 ^ 64 - 1) x); [lia|done].
Qed.

(** ** Lines *)

Lemma span_bytes_app n p x rest : Forall (fun b => p b = true) x -> (length x <= n)%nat ->
  match rest with b :: _ => p b = false | [] => True end -> span_bytes n p (x ++ rest) = (x, rest).
Proof.
  revert n. induction x as [|b x IH]; intros n Hx Hl Hr; cbn [app length] in *.
  - destruct n, rest as [|b rest]; try done. cbn [span_bytes]. by rewrite Hr.
  - destruct n as [|n]; [lia|]. apply Forall_cons in Hx as [Hb Hx]. cbn [span_bytes]. rewrite Hb, IH by (done || lia). done.
Qed.

Lemma span_bytes_take n p x : Forall (fun b => p b = true) x -> (n <= length x)%nat -> span_bytes n p x = (take n x, drop n x).
Proof.
  revert n. induction x as [|b x IH]; intros [|n] Hx Hl; cbn [length] in *; try done; try lia. apply Forall_cons in Hx as [Hb Hx].
  cbn [span_bytes take drop]. rewrite Hb, IH by (done || lia). done.
Qed.

Lemma skip_one b rest : is_space b = false -> skip_spaces (32 :: b :: rest) = b :: rest /\ skip_spaces (b :: rest) = b :: rest.
Proof. intros Hb. unfold skip_spaces. cbn [length span_bytes]. split; [|by rewrite Hb]. change (is_space 32) with true. cbn match. by rewrite Hb. Qed.

(** A word that is read whole, and the blank that follows it. *)
Lemma scan_word_app n ds rest : Forall hexdigit ds -> ds <> [] -> (length ds <= n)%nat -> scan_word n (ds ++ 32 :: rest) = Some (ds, 32 :: rest).
Proof.
  intros Hd Hne Hl. destruct ds as [|b ds]; [done|]. pose proof Hd as [Hb _]%Forall_cons. destruct (hexdigit_not b Hb) as (Hs & _).
  unfold scan_word. change ((b :: ds) ++ 32 :: rest) with (b :: (ds ++ 32 :: rest)). rewrite (proj2 (skip_one _ _ Hs)).
  change (b :: (ds ++ 32 :: rest)) with ((b :: ds) ++ 32 :: rest). rewrite span_bytes_app; [done| |done|done].
  eapply Forall_impl; [exact Hd|]. intros c Hc. cbn. by rewrite (proj1 (hexdigit_not c Hc)).
Qed.

(** The name, cut to 300 bytes. *)
Lemma scan_name name : Forall (fun b => b <> 0 /\ b <> 9 /\ b <> 10) name ->
  fst (span_bytes 300 (fun b => negb ((b =? 9) || (b =? 10))) (name ++ [10])) = take 300 name.
Proof.
  intros Hn. assert (Hp : Forall (fun b => negb ((b =? 9) || (b =? 10)) = true) name).
  { eapply Forall_impl; [exact Hn|]. intros b (_ & H9 & H10). cbn. apply Z.eqb_neq in H9, H10. by rewrite H9, H10. }
  destruct (decide (length name <= 300)%nat) as [Hl|Hl].
  - rewrite span_bytes_app by done. cbn [fst]. by rewrite take_ge.
  - assert (Hsplit : name = take 300 name ++ drop 300 name) by (by rewrite take_drop). rewrite Hsplit at 1. rewrite <- app_assoc.
    assert (Hcut : forall m x r, length x = m -> Forall (fun b => negb ((b =? 9) || (b =? 10)) = true) x -> fst (span_bytes m (fun b => negb ((b =? 9) || (b =? 10))) (x ++ r)) = x).
    { clear. induction m as [|m IH]; intros [|b x] r Hl Hx; cbn [length app] in *; try done. apply Forall_cons in Hx as [Hb Hx]. cbn [span_bytes]. rewrite Hb.
      specialize (IH x r ltac:(lia) Hx). destruct (span_bytes _ _ _) as [y q]. cbn [fst] in *. by rewrite IH. }
    apply Hcut; [rewrite length_take; lia|by apply Forall_take].
Qed.

Lemma scan_perf_line e : perf_entry_ok e -> exists ab sb, scan_line (perf_line e) = Some (ab, sb, take 300 (pe_name e)) /\
  strtoul16 ab = pe_addr e /\ strtoul16 sb = pe_size e.
Proof.
  intros (Ha & Hc & Hb & Hn). exists (print_hex 16 (pe_addr e) []), (print_hex 8 (pe_size e) []).
  rewrite !strtoul_print by (cbn; lia). split; [|done]. unfold perf_line, scan_line.
  destruct (print_hex_shape 16 (pe_addr e) [] ltac:(lia) ltac:(lia)) as (ds & Ed & Hds & Hld & Hned). rewrite app_nil_r in Ed. rewrite Ed.
  destruct (print_hex_shape 8 (pe_size e) [] ltac:(lia) ltac:(lia)) as (es & Ee & Hes & Hle & Hnee). rewrite app_nil_r in Ee. rewrite Ee.
  set (line := ds ++ 32 :: es ++ 32 :: pe_name e ++ [10]).
  assert (Hline : fst (span_bytes (length line) (fun b => negb (b =? 0)) line) = line).
  { rewrite span_bytes_take; [cbn [fst]; by rewrite take_ge| |done].
    assert (Hdig : forall x, Forall hexdigit x -> Forall (fun b => negb (b =? 0) = true) x).
    { intros x Hx. eapply Forall_impl; [exact Hx|]. intros b Hbx. cbn. apply negb_true_iff, Z.eqb_neq. by apply (hexdigit_not b). }
    apply Forall_app. split; [by apply Hdig|]. constructor; [done|]. apply Forall_app. split; [by apply Hdig|]. constructor; [done|].
    apply Forall_app. split; [|by constructor]. eapply Forall_impl; [exact Hn|]. intros b (H0 & _). by apply negb_true_iff, Z.eqb_neq. }
  cbv zeta. rewrite Hline. unfold line. rewrite scan_word_app by done. destruct es as [|c es]; [done|]. pose proof Hes as [Hc1 _]%Forall_cons.
  destruct (hexdigit_not c Hc1) as (Hsc & _). change ((c :: es) ++ ?r) with (c :: (es ++ r)). rewrite (proj1 (skip_one _ _ Hsc)).
  change (c :: (es ++ ?r)) with ((c :: es) ++ r). rewrite scan_word_app by done.
  destruct (pe_name e) as [|b name] eqn:En; [done|]. change ((b :: name) ++ [10]) with (b :: (name ++ [10])). rewrite (proj1 (skip_one _ _ Hb)).
  change (b :: (name ++ [10])) with ((b :: name) ++ [10]). pose proof (scan_name (b :: name) Hn) as Hsn.
  destruct (span_bytes 300 _ _) as [buf r]. cbn [fst] in Hsn. rewrite Hsn. by cbn [take].
Qed.

(** ** Files *)

Lemma lines_of_line x rest cur : Forall (fun b => b <> 10) x -> lines_of (x ++ 10 :: rest) cur = (rev cur ++ x ++ [10]) :: lines_of rest [].
Proof.
  revert cur. induction x as [|b x IH]; intros cur Hx; cbn [app lines_of]; [done|]. apply Forall_cons in Hx as [Hb Hx].
  rewrite (proj2 (Z.eqb_neq _ _) Hb), IH by done. cbn [rev]. by rewrite <- app_assoc.
Qed.

Lemma perf_line_no_newline e : perf_entry_ok e -> exists x, perf_line e = x ++ [10] /\ Forall (fun b => b <> 10) x.
Proof.
  intros (Ha & Hc & _ & Hn). unfold perf_line.
  destruct (print_hex_shape 16 (pe_addr e) [] ltac:(lia) ltac:(lia)) as (ds & Ed & Hds & _). rewrite app_nil_r in Ed. rewrite Ed.
  destruct (print_hex_shape 8 (pe_size e) [] ltac:(lia) ltac:(lia)) as (es & Ee & Hes & _). rewrite app_nil_r in Ee. rewrite Ee.
  exists (ds ++ 32 :: es ++ 32 :: pe_name e). split; [by rewrite <- app_assoc, !app_comm_cons, <- app_assoc|].
  assert (Hdig : forall x, Forall hexdigit x -> Forall (fun b => b <> 10) x) by (intros x Hx; eapply Forall_impl; [exact Hx|]; unfold hexdigit; cbn; lia).
  apply Forall_app. split; [by apply Hdig|]. constructor; [done|]. apply Forall_app. split; [by apply Hdig|]. constructor; [done|].
  eapply Forall_impl; [exact Hn|]. by intros b (_ & _ & ?).
Qed.

Lemma lines_of_file es : Forall perf_entry_ok es -> lines_of (perf_file es) [] = map perf_line es.
Proof.
  induction es as [|e es IH]; intros He; [done|]. apply Forall_cons in He as [He Hes]. unfold perf_file. cbn [map concat]. fold (perf_file es).
  destruct (perf_line_no_newline e He) as (x & E & Hx). rewrite E, <- app_assoc. cbn [app]. rewrite lines_of_line by done. by rewrite IH.
Qed.

(** The symbols of a perf map, inserted in order. *)
Fixpoint insert_entries (es : list perf_entry) (m : SymbolMap) (t : SymbolTable) : option (SymbolMap * SymbolTable) :=
  match es with
  | [] => Some (m, t)
  | e :: es' => let? (_, m, t) := insert_or_replace (string_of_bytes (take 300 (pe_name e))) (pe_addr e) (pe_size e) m t in insert_entries es' m t
  end.

(** Reading the perf map of a process gives what was written: for every list of symbols with
    64-bit addresses, 32-bit sizes and names without tabs, newlines or a leading blank, the
    file that lists them is read as these symbols in this order, with their names cut to 300
    bytes. *)
Theorem perfmap_file_read read_file r pid es m t : Forall perf_entry_ok es -> perfmaps_open read_file r pid "/tmp" = Some (perf_file es) ->
  fill_from_perfmap read_file r pid m t = (let? (m, t) := insert_entries es m t in Some (Ddres.ddres_init, m, t)).
Proof.
  intros He Hf. unfold fill_from_perfmap. rewrite Hf, lines_of_file by done.
  assert (Hins : forall m t, insert_lines (map perf_line es) m t = insert_entries es m t); [|by rewrite Hins].
  clear Hf m t. induction He as [|e es He _ IH]; intros m t; [done|]. cbn [map insert_lines insert_entries].
  destruct (scan_perf_line e He) as (ab & sb & -> & -> & ->). destruct (insert_or_replace _ _ _ _ _) as [[[b m1] t1]|]; [apply IH|done].
Qed.

(** The reader at work. *)
Definition bytes_of_string (s : string) : list Z := map (fun c => Z.of_nat (Ascii.nat_of_ascii c)) (String.list_ascii_of_string s).
Definition demo_entries : list perf_entry :=
  [mkPE 0x7f0000001000 0x40 (bytes_of_string "Foo::bar()"); mkPE 0x7f0000002000 0x80 (bytes_of_string "stub<1> Alloc"); mkPE 0x7f0000003000 16 (bytes_of_string "baz [opt]")].
Definition perfmap_files (path : string) : option (list Z) :=
  if bool_decide (path = "/proc/42/root/tmp/perf-42.map"%string) then Some (perf_file demo_entries) else None.

Lemma perfmap_file_read_witness :
  fill_from_perfmap perfmap_files (init_RuntimeSymbolLookup "") 42 [] [] =
  Some (Ddres.ddres_init, [(0x7f0000001000, mkSpan 0x7f000000103f 0); (0x7f0000003000, mkSpan 0x7f000000300f 1)],
        [mkSymbol "Foo::bar()" "Foo::bar()" 0 "jit"; mkSymbol "baz [opt]" "baz [opt]" 0 "jit"]).
Proof.
  rewrite (perfmap_file_read perfmap_files (init_RuntimeSymbolLookup "") 42 demo_entries [] []).
  - vm_compute. reflexivity.
  - unfold perf_entry_ok. repeat (apply Forall_cons; split; [split; [vm_compute; done|split; [vm_compute; done|split; [reflexivity|]]]|]); [..|apply Forall_nil; exact I];
      (apply (bool_decide_unpack _); vm_compute; exact I).
  - vm_compute. reflexivity.
Defined.

(** ** Divergences *)

(** An address that is written with the prefix 0x and all its digits is longer than the sixteen
    bytes that are read for it: its end is taken for the size, and the size for the name. *)
Example prefixed_address_misread :
  (let? (a, c, name) := scan_line (bytes_of_string "0x00007f0000001000 40 foo") in Some (strtoul16 a, strtoul16 c, string_of_bytes name)) =
  Some (0x7f00000010, 0, "40 foo"%string).
Proof. vm_compute. reflexivity. Qed.
