(* ===== verification/SymbolTables.v ===== *)
(** * The header of the symbol tables

    The lookups of [include/symbol_hdr.hpp] together: they share the table of symbols, and only
    the runtime lookup changes symbols that are already there.  The theorems are about any
    sequence of lookups, erasures and cycles. *)

From stdpp Require Import pretty.
From S2P Require Import Prelude Ddres Dso DsoHdr JitDump Symbols RuntimeSymbols PerfMap.

(** ** The invariant *)

(** The indices of the spans of the processes that satisfy [P]. *)
Definition rt_index (P : Z -> Prop) (pm : gmap Z SymbolInfo) (i : Z) : Prop := exists pid info, P pid /\ pm !! pid = Some info /\ map_index (si_map info) i.

Record hdr_inv (h : SymbolHdr) : Prop := {
  hv_process : forall pid, map_inv (rt_index (fun p => p <> pid) (rt_pid_map (runtime_symbol_lookup h))) (sh_syms h)
                 (si_map (rt_info (runtime_symbol_lookup h) pid)) (symbol_table h);
  hv_mapinfos : mapinfos_inv (common_mapinfo_lookup h) (mapinfo_lookup h) (mapinfo_table h)
}.

(** What a process owns, and what the others own. *)
Lemma owned_index r pid i : owned (rt_index (fun p => p <> pid) (rt_pid_map r)) (si_map (rt_info r pid)) i <->
  rt_index (fun _ => True) (rt_pid_map r) i.
Proof.
  unfold owned, rt_index, rt_info. split.
  - intros [(p & info & _ & Hp & Hi)|Hi]; [by exists p, info|]. destruct (rt_pid_map r !! pid) as [info|] eqn:E; [by exists pid, info|].
    destruct Hi as (k & sp & Hi & _). by apply not_elem_of_nil in Hi.
  - intros (p & info & _ & Hp & Hi). destruct (decide (p = pid)) as [->|Hne]; [right; by rewrite Hp|left; by exists p, info].
Qed.

Lemma init_hdr_inv path : hdr_inv (init_SymbolHdr path).
Proof.
  assert (Hno : forall P i, ~ rt_index P ∅ i) by (intros P i (p & info & _ & Hp & _); by rewrite lookup_empty in Hp).
  assert (Hnil : forall i, ~ map_index [] i) by (intros i (k & sp & Hi & _); by apply not_elem_of_nil in Hi).
  split; [|split; [done|intros pid am a i; cbn; by rewrite lookup_empty]]. intros pid. unfold rt_info. cbn [runtime_symbol_lookup init_SymbolHdr init_RuntimeSymbolLookup rt_pid_map].
  rewrite lookup_empty. cbn [default from_option id si_map]. split.
  - split; constructor.
  - intros i Hi. by destruct (Hnil i).
  - intros k k' sp sp' Hi. by apply not_elem_of_nil in Hi.
  - apply no_symbols_inv. intros i [Hi|Hi]; [by destruct (Hno _ _ Hi)|by destruct (Hnil i)].
Qed.

(** The other lookups add to the end of the table. *)
Lemma set_syms_inv h s t : hdr_inv h -> symbol_table h `prefix_of` t ->
  symbols_inv (rt_index (fun _ => True) (rt_pid_map (runtime_symbol_lookup h))) s t -> hdr_inv (set_syms h s t).
Proof.
  intros [Hp Hm] [t1 ->] Hs. split; [|done]. intros pid. cbn [runtime_symbol_lookup sh_syms symbol_table set_syms]. destruct (Hp pid) as [Hw Hsy Hin _]. split; [done| |done|].
  - intros i Hi. destruct (Hsy i Hi) as (? & sym & ? & ?). split; [done|]. exists sym. split; [by apply entry_app|done].
  - eapply symbols_inv_release; [done|]. intros i Hi. by apply owned_index in Hi.
Qed.

Lemma hdr_symbols_inv h : hdr_inv h -> symbols_inv (rt_index (fun _ => True) (rt_pid_map (runtime_symbol_lookup h))) (sh_syms h) (symbol_table h).
Proof. intros [Hp _]. eapply symbols_inv_release; [apply (Hp 0)|]. intros i. apply owned_index. Qed.

(** A lookup of an address changes the symbols of the process only. *)
Lemma set_runtime_inv F h pid pc i r t : hdr_inv h ->
  rt_result F (rt_index (fun p => p <> pid) (rt_pid_map (runtime_symbol_lookup h))) (sh_syms h) (runtime_symbol_lookup h) pid pc (symbol_table h) (i, r, t) ->
  hdr_inv (set_runtime h r t).
Proof.
  intros [Hp Hm] (info & Er & (Hinv & [Hl Hoth Hidx _] & _) & _). split; [|done]. intros p. cbn [runtime_symbol_lookup sh_syms symbol_table set_runtime].
  set (m0 := si_map (rt_info (runtime_symbol_lookup h) pid)) in *.
  assert (Hrest : forall j, rt_index (fun p => p <> pid) (rt_pid_map r) j -> rt_index (fun p => p <> pid) (rt_pid_map (runtime_symbol_lookup h)) j).
  { intros j (q & inf & Hq & Hlq & Hj). rewrite Er, lookup_insert_ne in Hlq by done. by exists q, inf. }
  assert (Hown : symbols_inv (rt_index (fun _ => True) (rt_pid_map r)) (sh_syms h) t).
  { eapply symbols_inv_release; [apply (mv_others _ _ _ _ Hinv)|]. intros j (q & inf & _ & Hlq & Hj). rewrite Er in Hlq.
    apply lookup_insert_Some in Hlq as [[<- <-]|[Hne Hlq]]; [by right|left; by exists q, inf]. }
  assert (Hlast : forall m, si_map (rt_info r p) = m -> symbols_inv (owned (rt_index (fun q => q <> p) (rt_pid_map r)) m) (sh_syms h) t).
  { intros m <-. eapply symbols_inv_release; [exact Hown|]. intros j Hj. by apply owned_index in Hj. }
  destruct (decide (p = pid)) as [->|Hne].
  - assert (Ei : rt_info r pid = info) by (unfold rt_info; by rewrite Er, lookup_insert_eq). destruct Hinv as [Hw Hsy Hin _]. rewrite Ei in *.
    split; [done| |done|by apply Hlast]. intros j Hj. destruct (Hsy j Hj) as (HQ & Hsym). split; [|done]. by intros ?%Hrest.
  - assert (Ei : rt_info r p = rt_info (runtime_symbol_lookup h) p) by (unfold rt_info; by rewrite Er, lookup_insert_ne).
    destruct (Hp p) as [Hw Hsy Hin _]. rewrite Ei in *. split; [done| |done|by apply Hlast].
    intros j Hj. destruct (Hsy j Hj) as (HQ & sym & He & Hjit).
    assert (Hm0 : ~ map_index m0 j).
    { intros Hj0. apply HQ. unfold m0, rt_info in Hj0. destruct (rt_pid_map (runtime_symbol_lookup h) !! pid) as [i0|] eqn:E; [by exists pid, i0|].
      destruct Hj0 as (k & sp & Hi & _). by apply not_elem_of_nil in Hi. }
    split; [|exists sym; split; [by apply Hoth|done]]. intros (q & inf & Hq & Hlq & Hj'). rewrite Er in Hlq.
    apply lookup_insert_Some in Hlq as [[<- <-]|[_ Hlq]]; [|apply HQ; by exists q, inf].
    destruct (Hidx j Hj') as [?|Hge]; [done|]. apply entry_lt in He. lia.
Qed.

(** A process that ends, or executes another file, leaves its symbols in the table. *)
Lemma hdr_clear_inv h pid : hdr_inv h -> hdr_inv (hdr_clear h pid).
Proof.
  intros Hh. pose proof (hdr_symbols_inv h Hh) as Hs. destruct Hh as [Hp Hm]. split; [|by apply mapinfo_erase_inv]. intros p.
  cbn [hdr_clear runtime_symbol_lookup sh_syms symbol_table rt_erase rt_pid_map].
  set (r := runtime_symbol_lookup h) in *.
  assert (Hsub : forall P j, rt_index P (delete pid (rt_pid_map r)) j -> rt_index P (rt_pid_map r) j).
  { intros P j (q & inf & Hq & [_ Hlq]%lookup_delete_Some & Hj). by exists q, inf. }
  assert (Hmap : forall kv, kv ∈ si_map (rt_info (rt_erase r pid) p) -> kv ∈ si_map (rt_info r p)).
  { intros kv. unfold rt_info. cbn [rt_erase rt_pid_map]. destruct (decide (p = pid)) as [->|Hne]; [|by rewrite lookup_delete_ne].
    rewrite lookup_delete_eq. by intros ?%not_elem_of_nil. }
  assert (Hix : forall j, map_index (si_map (rt_info (rt_erase r pid) p)) j -> map_index (si_map (rt_info r p)) j).
  { intros j (k & sp & Hi%Hmap & <-). by exists k, sp. }
  destruct (Hp p) as [Hw Hsy Hin Hot]. fold r in Hot. split.
  - unfold rt_info. cbn [rt_erase rt_pid_map]. destruct (decide (p = pid)) as [->|Hne]; [|rewrite lookup_delete_ne by done; exact Hw].
    rewrite lookup_delete_eq. split; constructor.
  - intros j Hj%Hix. destruct (Hsy j Hj) as (HQ & Hsym). split; [|done]. by intros ?%Hsub.
  - intros k k' sp sp' Hk%Hmap Hk'%Hmap. by eapply Hin.
  - apply base_erase_inv. eapply symbols_inv_release; [exact Hs|]. intros j Hj.
    apply (owned_index (rt_erase r pid) p j) in Hj. by apply Hsub in Hj.
Qed.

Lemma hdr_cycle_inv h : hdr_inv h -> hdr_inv (hdr_cycle h).
Proof. by intros [Hp Hm]. Qed.

(** The calls the unwinder makes. *)
Inductive symbol_op :=
| OCommon (c : SymbolErrors) | ODso (addr : Z) (dso : Dso) (addr_type : string) | OBase (pid : Z) (dh : DsoHdr) (exe : option string)
| ORuntime (pid pc : Z) (jitdump_path : string) | OMapInfo (pid : Z) (dso : Dso) (build_id : option string) | OEmptyMapInfo
| OClear (pid : Z) | OCycle.

Definition symbol_exec read_file alloc_entries (h : SymbolHdr) (o : symbol_op) : option (Z * SymbolHdr) :=
  match o with
  | OCommon c => hdr_common h c
  | ODso a dso ty => Some (hdr_dso h a dso ty)
  | OBase pid dh exe => Some (fst (hdr_base h pid dh exe))
  | ORuntime pid pc path => hdr_runtime read_file alloc_entries h pid pc path
  | OMapInfo pid dso b => Some (hdr_mapinfo h pid dso b)
  | OEmptyMapInfo => Some (hdr_empty_mapinfo h)
  | OClear pid => Some (k_symbol_idx_null, hdr_clear h pid)
  | OCycle => Some (k_symbol_idx_null, hdr_cycle h)
  end.

(** The index is not one of generated code: its symbol is never changed. *)
Definition fixed (h : SymbolHdr) (i : Z) (sym : Symbol) : Prop :=
  view (rt_index (fun _ => True) (rt_pid_map (runtime_symbol_lookup h))) (symbol_table h) i sym.

(** What the index stands for, as the tables alone tell. *)
Definition base_named (pid : Z) (sym : Symbol) : Prop := names_file sym \/ sym = symbol_from_pid pid.

Definition op_result (h : SymbolHdr) (o : symbol_op) (i : Z) : Prop :=
  match o with
  | OCommon c => exists sym, fixed h i sym /\ symbol_from_common c = Some sym
  | ODso a dso _ => exists sym, fixed h i sym /\ dso_symbol a dso sym
  | OBase pid _ _ => exists sym, fixed h i sym /\ base_named pid sym
  | ORuntime _ _ _ => i = k_symbol_idx_null \/ jit_at (symbol_table h) i
  | OMapInfo _ dso _ => exists mi, entry (mapinfo_table h) i = Some mi /\ mi_low_addr mi = d_start dso
  | OEmptyMapInfo => entry (mapinfo_table h) i = Some empty_MapInfo
  | OClear _ | OCycle => i = k_symbol_idx_null
  end.

(** Later tables. *)
Record hdr_later (n : nat) (h h' : SymbolHdr) : Prop := {
  hl_fixed : forall i sym, fixed h i sym -> fixed h' i sym;
  hl_jit : forall i, jit_at (symbol_table h) i -> jit_at (symbol_table h') i;
  hl_mapinfo : mapinfo_table h `prefix_of` mapinfo_table h';
  hl_symbols_length : (length (symbol_table h') <= length (symbol_table h) + n)%nat;
  hl_mapinfo_length : (length (mapinfo_table h') <= length (mapinfo_table h) + n)%nat
}.

Lemma hdr_later_trans n n' h h1 h2 : hdr_later n h h1 -> hdr_later n' h1 h2 -> hdr_later (n + n') h h2.
Proof. intros [A1 B1 C1 D1 E1] [A2 B2 C2 D2 E2]. split; [auto|auto|by etrans|lia|lia]. Qed.

Lemma hdr_later_refl n h : hdr_later n h h.
Proof. split; [done|done|done|lia|lia]. Qed.

(** What an index stands for does not change. *)
Lemma op_result_later n h h' o i : hdr_later n h h' -> op_result h o i -> op_result h' o i.
Proof.
  intros [A B [t C] _ _]. destruct o; cbn [op_result]; try done.
  1-3: intros (sym & ? & ?); eauto.
  - intros [?|?]; [by left|right; auto].
  - intros (mi & ? & ?). exists mi. rewrite C. split; [by apply entry_app|done].
  - rewrite C. apply entry_app.
Qed.

(** The tables may grow by [n] more entries. *)
Definition hdr_room (n : nat) (h : SymbolHdr) : Prop :=
  Z.of_nat (length (symbol_table h) + n) + 1 < 2 ^ 31 /\ Z.of_nat (length (mapinfo_table h) + n) + 1 < 2 ^ 31.

Definition op_outcome (n : nat) (h : SymbolHdr) (o : symbol_op) (i : Z) (h' : SymbolHdr) : Prop :=
  hdr_inv h' /\ op_result h' o i /\ hdr_later n h h'.

(** A call on the symbols of the table that do not change. *)
Lemma syms_outcome n h i s t (P : Symbol -> Prop) o : hdr_inv h -> (1 <= n)%nat ->
  symbols_inv (rt_index (fun _ => True) (rt_pid_map (runtime_symbol_lookup h))) s t ->
  found (rt_index (fun _ => True) (rt_pid_map (runtime_symbol_lookup h))) (symbol_table h) i t P ->
  ((exists sym, fixed (set_syms h s t) i sym /\ P sym) -> op_result (set_syms h s t) o i) -> op_outcome n h o i (set_syms h s t).
Proof.
  intros Hh Hn Hs (Hpre & Hl & sym & Hv & HP) Hres. split; [by apply set_syms_inv|]. split; [apply Hres; eauto|].
  pose proof Hpre as [t1 E]. split; cbn [symbol_table mapinfo_table set_syms]; [|..|done|lia|lia].
  - intros j sym' [He Hn']. unfold fixed. cbn [symbol_table runtime_symbol_lookup set_syms]. rewrite E. by apply view_app.
  - intros j (sym' & He & Hj). exists sym'. rewrite E. split; [by apply entry_app|done].
Qed.

(** The symbol of the base frame, and the executables remembered afterwards. *)
Definition base_outcome (h : SymbolHdr) (pid : Z) (dh : DsoHdr) (exe : option string) (i : Z) (h' : SymbolHdr) : Prop :=
  let bins h := bin_map (sy_base (sh_syms h)) in
  (exists sym, fixed h' i sym /\ base_symbol (sy_base (sh_syms h)) pid dh exe i sym) /\
  (bins h' = bins h \/
   bins h !! pid = None /\ bins h' = <[pid := i]> (bins h) /\ exists sym, fixed h' i sym /\ exe_symbol dh pid exe sym).

Lemma base_exec_spec h pid dh exe : hdr_inv h -> hdr_room 1 h ->
  let '(i, h', dh') := hdr_base h pid dh exe in
  op_outcome 1 h (OBase pid dh exe) i h' /\ base_outcome h pid dh exe i h' /\ visits dh pid dh'.
Proof.
  intros Hh [Hr _]. unfold hdr_base. pose proof (hdr_symbols_inv h Hh) as Hs.
  pose proof (base_spec _ _ _ pid dh exe Hs ltac:(lia)) as Hd. destruct (base_get_or_insert _ _ _ _ _ _) as [[[[i l] t] dl] dh'].
  destruct Hd as (Hs' & Hf & Hv & Hb). split; [|split; [|done]].
  - eapply (syms_outcome 1 _ _ _ _ _ _ Hh ltac:(lia) Hs' Hf). intros (sym & Hfix & Hsym). exists sym. split; [done|]. unfold base_symbol in Hsym.
    destruct (bin_map (sy_base (sh_syms h)) !! pid) as [j|] eqn:Eb; [|destruct Hsym as [?%exe_symbol_names|[-> _]]; [by left|by right]].
    subst j. destruct (si_bin _ _ _ Hs _ _ Eb) as (sym' & [He _] & Hn). left. destruct Hf as ([t1 ->] & _). apply (entry_app _ t1) in He.
    destruct Hfix as [He' _]. cbn [symbol_table set_syms] in He'. congruence.
  - split; [destruct Hf as (_ & _ & sym & ? & ?); by exists sym|]. destruct Hb as [Hb|(Hb1 & Hb2 & Hb3)]; [by left|right].
    split; [done|]. split; [done|]. destruct Hb3 as (_ & _ & sym & ? & ?). by exists sym.
Qed.

Lemma runtime_outcome F h pid pc path i r t : hdr_inv h ->
  rt_result F (rt_index (fun p => p <> pid) (rt_pid_map (runtime_symbol_lookup h))) (sh_syms h) (runtime_symbol_lookup h) pid pc (symbol_table h) (i, r, t) ->
  op_outcome (S F) h (ORuntime pid pc path) i (set_runtime h r t).
Proof.
  intros Hh Hr. pose proof (set_runtime_inv _ _ _ _ _ _ _ Hh Hr) as Hh'. split; [done|]. destruct Hr as (info & Er & (Hinv & [Hl Hoth Hidx Hjit] & Hlen) & Hi).
  split; [|split; cbn [symbol_table mapinfo_table set_runtime]; [|done|done|lia|lia]].
  - destruct Hi as [(k & sp & (Hin & _) & _ & ->)|[-> _]]; [right|by left]. apply (mv_sym _ _ _ _ Hinv). by exists k, sp.
  - intros j sym [He Hn]. cbn [set_runtime runtime_symbol_lookup symbol_table] in *. assert (Hm0 : ~ map_index (si_map (rt_info (runtime_symbol_lookup h) pid)) j).
    { intros Hj. apply Hn. apply (owned_index _ pid). by right. }
    split; [by apply Hoth|]. cbn [set_runtime runtime_symbol_lookup]. intros (q & inf & _ & Hq & Hj). rewrite Er in Hq. apply lookup_insert_Some in Hq as [[<- <-]|[_ Hq]].
    + destruct (Hidx j Hj) as [?|Hge]; [done|]. apply entry_lt in He. lia.
    + apply Hn. by exists q, inf.
Qed.

Lemma mapinfo_outcome n h c m t i o : hdr_inv h -> (1 <= n)%nat -> mapinfos_inv c m t -> mapinfo_table h `prefix_of` t ->
  (length t <= S (length (mapinfo_table h)))%nat -> op_result (set_mapinfos h c m t) o i -> op_outcome n h o i (set_mapinfos h c m t).
Proof.
  intros [Hp _] Hn Hm Hpre Hl Hres. split; [by split|]. split; [done|]. split; cbn [symbol_table mapinfo_table set_mapinfos]; [done|done|done|lia|lia].
Qed.

Lemma clear_later n h pid : hdr_later n h (hdr_clear h pid).
Proof.
  split; cbn [symbol_table mapinfo_table hdr_clear]; [|done|done|lia|lia]. intros i sym [He Hn]. split; [done|].
  cbn [hdr_clear runtime_symbol_lookup rt_erase rt_pid_map]. intros (q & inf & _ & [_ Hq]%lookup_delete_Some & Hi). apply Hn. by exists q, inf.
Qed.

Lemma symbol_exec_spec read_file alloc_entries F h o : files_ok read_file alloc_entries F -> hdr_inv h -> hdr_room (S F) h ->
  exists i h', symbol_exec read_file alloc_entries h o = Some (i, h') /\ op_outcome (S F) h o i h'.
Proof.
  intros Hfiles Hh [Hr Hr']. pose proof (hdr_symbols_inv h Hh) as Hs. assert (Hrt : room (symbol_table h)) by lia.
  destruct o as [c|a dso ty|pid dh exe|pid pc path|pid dso b| |pid|]; cbn [symbol_exec].
  - unfold hdr_common. destruct (common_spec _ _ _ c Hs Hrt) as (i & m & t & -> & Hs' & Hf). do 2 eexists. split; [done|].
    by eapply syms_outcome; [|lia|..].
  - unfold hdr_dso. pose proof (dso_spec _ _ _ a dso ty Hs Hrt) as Hd. destruct (dso_get_or_insert _ _ _ _ _) as [[i dl] t]. destruct Hd as [Hs' Hf].
    do 2 eexists. split; [done|]. by eapply syms_outcome; [|lia|..].
  - pose proof (base_exec_spec h pid dh exe Hh ltac:(unfold hdr_room; lia)) as Hd. destruct (hdr_base h pid dh exe) as [[i h'] dh'].
    destruct Hd as ((H1 & H2 & [A B C D E]) & _). do 2 eexists. split; [done|]. split; [done|]. split; [done|]. split; [done..|lia|lia].
  - unfold hdr_runtime. case_bool_decide as Hpath.
    + destruct (perfmap_lookup_spec _ _ F Hfiles _ _ _ pid pc _ (hv_process _ Hh pid) ltac:(lia)) as ([[i r] t] & -> & Hres).
      do 2 eexists. split; [done|]. by apply runtime_outcome.
    + destruct (jitdump_lookup_spec _ _ F Hfiles _ _ _ pid pc _ path Hpath (hv_process _ Hh pid) ltac:(lia)) as ([[i r] t] & -> & Hres).
      do 2 eexists. split; [done|]. by apply runtime_outcome.
  - unfold hdr_mapinfo. pose proof (mapinfo_spec _ _ _ pid dso b (hv_mapinfos _ Hh) ltac:(lia)) as Hd.
    destruct (mapinfo_get_or_insert _ _ _ _ _) as [[i m] t]. destruct Hd as (Hm & Hpre & Hl & Hres).
    do 2 eexists. split; [done|]. by apply mapinfo_outcome; [|lia|..].
  - unfold hdr_empty_mapinfo. pose proof (common_mapinfo_spec _ _ _ (hv_mapinfos _ Hh) ltac:(lia)) as Hd.
    destruct (common_mapinfo_get_or_insert _ _) as [[i c] t]. destruct Hd as (Hm & Hpre & Hl & Hres).
    do 2 eexists. split; [done|]. by apply mapinfo_outcome; [|lia|..].
  - do 2 eexists. split; [done|]. split; [by apply hdr_clear_inv|]. split; [done|apply clear_later].
  - do 2 eexists. split; [done|]. split; [by apply hdr_cycle_inv|]. split; [done|]. destruct (hdr_later_refl (S F) h) as [A B C D E]. by split.
Qed.

(** A sequence of calls. *)
Fixpoint symbol_run read_file alloc_entries (h : SymbolHdr) (os : list symbol_op) : option (list Z * SymbolHdr) :=
  match os with
  | [] => Some ([], h)
  | o :: os' =>
      let? (i, h) := symbol_exec read_file alloc_entries h o in
      let? (ids, h) := symbol_run read_file alloc_entries h os' in
      Some (i :: ids, h)
  end.

Lemma symbol_run_snoc read_file alloc_entries h os o ids h1 i h2 : symbol_run read_file alloc_entries h os = Some (ids, h1) ->
  symbol_exec read_file alloc_entries h1 o = Some (i, h2) -> symbol_run read_file alloc_entries h (os ++ [o]) = Some (ids ++ [i], h2).
Proof.
  intros E E2. revert h ids E. induction os as [|o' os IH]; intros h ids E; cbn [symbol_run app] in *; [injection E as <- <-; by rewrite E2|].
  destruct (symbol_exec _ _ h o') as [[j h']|]; [|done]. destruct (symbol_run _ _ h' os) as [[js h3]|] eqn:Er; [|done]. injection E as <- ->.
  by rewrite (IH _ _ Er).
Qed.

(** *** What was asked before *)

(** The mappings that were asked for since their process was last forgotten: the first one at
    each address. *)
Definition note_mapping (m : gmap (Z * Z) MapInfo) (o : symbol_op) : gmap (Z * Z) MapInfo :=
  match o with
  | OMapInfo pid dso b => match m !! (pid, d_start dso) with Some _ => m | None => <[(pid, d_start dso) := mapinfo_from_dso dso b]> m end
  | OClear pid => filter (fun kv => fst (fst kv) <> pid) m
  | _ => m
  end.
Definition mappings_asked (os : list symbol_op) : gmap (Z * Z) MapInfo := foldl note_mapping ∅ os.

(** The mappings of a process and the link to its executable, at the lookups of its base frame
    since it was last forgotten. *)
Definition note_base (pid : Z) (l : list (DsoHdr * option string)) (o : symbol_op) : list (DsoHdr * option string) :=
  match o with
  | OBase p dh exe => if p =? pid then l ++ [(dh, exe)] else l
  | OClear p => if p =? pid then [] else l
  | _ => l
  end.
Definition bases_asked (pid : Z) (os : list symbol_op) : list (DsoHdr * option string) := foldl (note_base pid) [] os.

Definition asked_exe (os : list symbol_op) (pid : Z) (sym : Symbol) : Prop :=
  exists dh exe, (dh, exe) ∈ bases_asked pid os /\ exe_symbol dh pid exe sym.

(** The caches hold what was asked. *)
Record remembers (os : list symbol_op) (h : SymbolHdr) : Prop := {
  rm_bin : forall pid i, bin_map (sy_base (sh_syms h)) !! pid = Some i -> exists sym, fixed h i sym /\ asked_exe os pid sym;
  rm_map : forall pid a, match mapinfo_lookup h !! pid ≫= (fun m => m !! a) with
    | Some i => exists mi, mappings_asked os !! (pid, a) = Some mi /\ entry (mapinfo_table h) i = Some mi
    | None => mappings_asked os !! (pid, a) = None
    end
}.

Section History.
Context (read_file : string -> option (list Z)) (alloc_entries : Z -> bool) (path : string).

(** What the answer to the last of [os] stands for in the tables [h], later. *)
Definition answers (os : list symbol_op) (h : SymbolHdr) (o : symbol_op) (i : Z) : Prop :=
  match o with
  | OBase pid _ _ => exists sym, fixed h i sym /\ (sym = symbol_from_pid pid \/ asked_exe os pid sym)
  | ORuntime pid pc _ => (i = k_symbol_idx_null \/ jit_at (symbol_table h) i) /\
      exists ids h1, symbol_run read_file alloc_entries (init_SymbolHdr path) os = Some (ids, h1) /\
        rt_answer (si_map (rt_info (runtime_symbol_lookup h1) pid)) pc i
  | OMapInfo pid dso _ => exists mi, mappings_asked os !! (pid, d_start dso) = Some mi /\ entry (mapinfo_table h) i = Some mi
  | _ => op_result h o i
  end.

Lemma answers_later n os h h' o i : hdr_later n h h' -> answers os h o i -> answers os h' o i.
Proof.
  intros Hl. pose proof (op_result_later _ _ _ o i Hl) as Hres. destruct o; cbn [answers op_result] in *; try done.
  - intros (sym & Hf & Hs). exists sym. split; [by apply (hl_fixed _ _ _ Hl)|done].
  - intros [Hj Hr]. split; [auto|done].
  - intros (mi & Hm & He). exists mi. split; [done|]. destruct (hl_mapinfo _ _ _ Hl) as [t' ->]. by apply entry_app.
Qed.

Lemma asked_snoc os o : mappings_asked (os ++ [o]) = note_mapping (mappings_asked os) o /\ forall pid, bases_asked pid (os ++ [o]) = note_base pid (bases_asked pid os) o.
Proof. unfold mappings_asked, bases_asked. split; [|intros pid]; by rewrite foldl_app. Qed.

(** A call that does not concern the caches. *)
Lemma remembers_same n os o h h' : remembers os h -> hdr_later n h h' -> note_mapping (mappings_asked os) o = mappings_asked os ->
  (forall pid, note_base pid (bases_asked pid os) o = bases_asked pid os) -> bin_map (sy_base (sh_syms h')) = bin_map (sy_base (sh_syms h)) ->
  mapinfo_lookup h' = mapinfo_lookup h -> remembers (os ++ [o]) h'.
Proof.
  intros [H1 H2] Hl Em Eb Eh Eh'. destruct (asked_snoc os o) as [Sm Sb]. split.
  - intros pid i Hi. rewrite Eh in Hi. destruct (H1 _ _ Hi) as (sym & Hf & dh & exe & Hin & He). exists sym. split; [by apply (hl_fixed _ _ _ Hl)|].
    exists dh, exe. by rewrite Sb, Eb.
  - intros pid a. rewrite Eh', Sm, Em. specialize (H2 pid a). case_match; [|done]. destruct H2 as (mi & ? & He). exists mi. split; [done|].
    destruct (hl_mapinfo _ _ _ Hl) as [t' ->]. by apply entry_app.
Qed.

Lemma remembers_base n os pid dh exe h i h' : remembers os h -> hdr_later n h h' -> mapinfo_lookup h' = mapinfo_lookup h -> base_outcome h pid dh exe i h' ->
  remembers (os ++ [OBase pid dh exe]) h' /\ answers (os ++ [OBase pid dh exe]) h' (OBase pid dh exe) i.
Proof.
  intros [H1 H2] Hl Em [(sym & Hf & Hs) Hb]. destruct (asked_snoc os (OBase pid dh exe)) as [Sm Sb]. cbn [note_base note_mapping] in Sm, Sb.
  assert (Hold : forall p s, asked_exe os p s -> asked_exe (os ++ [OBase pid dh exe]) p s).
  { intros p s (d & e & Hin & He). exists d, e. split; [|done]. rewrite Sb. destruct (pid =? p); [apply elem_of_app; by left|done]. }
  assert (Hnew : forall s, exe_symbol dh pid exe s -> asked_exe (os ++ [OBase pid dh exe]) pid s).
  { intros s He. exists dh, exe. split; [|done]. rewrite Sb, Z.eqb_refl. apply elem_of_app. right. apply list_elem_of_singleton. done. }
  split; [split|].
  - assert (Hkeep : forall p j, bin_map (sy_base (sh_syms h)) !! p = Some j -> exists s, fixed h' j s /\ asked_exe (os ++ [OBase pid dh exe]) p s).
    { intros p j Hj. destruct (H1 _ _ Hj) as (s & Hf' & Ha). exists s. split; [by apply (hl_fixed _ _ _ Hl)|auto]. }
    intros p j Hj. destruct Hb as [Hb|(Hb1 & Hb2 & s & Hs1 & Hs2)]; [rewrite Hb in Hj; by apply Hkeep|]. rewrite Hb2 in Hj.
    apply lookup_insert_Some in Hj as [[<- <-]|[_ Hj]]; [exists s; split; [done|auto]|by apply Hkeep].
  - intros p a. rewrite Em, Sm. specialize (H2 p a). case_match; [|done]. destruct H2 as (mi & ? & He). exists mi. split; [done|].
    destruct (hl_mapinfo _ _ _ Hl) as [t' ->]. by apply entry_app.
  - unfold base_symbol in Hs. destruct (bin_map _ !! pid) as [j|] eqn:Ej.
    + subst j. destruct (H1 _ _ Ej) as (s & Hf' & Ha). exists s. split; [by apply (hl_fixed _ _ _ Hl)|right; auto].
    + exists sym. split; [done|]. destruct Hs as [Hs|[-> _]]; [right; auto|by left].
Qed.

Lemma remembers_mapinfo n os pid dso b h : remembers os h -> hdr_later n h (snd (hdr_mapinfo h pid dso b)) -> hdr_room 1 h ->
  remembers (os ++ [OMapInfo pid dso b]) (snd (hdr_mapinfo h pid dso b)) /\
  answers (os ++ [OMapInfo pid dso b]) (snd (hdr_mapinfo h pid dso b)) (OMapInfo pid dso b) (fst (hdr_mapinfo h pid dso b)).
Proof.
  intros [H1 H2] Hl [_ Hr]. destruct (asked_snoc os (OMapInfo pid dso b)) as [Sm Sb]. cbn [note_base note_mapping] in Sm, Sb.
  assert (Hbin : forall p i, bin_map (sy_base (sh_syms h)) !! p = Some i -> exists sym, fixed (snd (hdr_mapinfo h pid dso b)) i sym /\ asked_exe (os ++ [OMapInfo pid dso b]) p sym).
  { intros p i Hi. destruct (H1 _ _ Hi) as (sym & Hf & dh & exe & Hin & He). exists sym. split; [by apply (hl_fixed _ _ _ Hl)|]. exists dh, exe. by rewrite Sb. }
  revert Hl Hbin. unfold hdr_mapinfo, mapinfo_get_or_insert. pose proof (H2 pid (d_start dso)) as Hd. set (am := default ∅ (mapinfo_lookup h !! pid)) in *.
  assert (Ham : mapinfo_lookup h !! pid ≫= (fun m => m !! d_start dso) = am !! d_start dso) by (unfold am; by destruct (mapinfo_lookup h !! pid); cbn; rewrite ?lookup_empty).
  rewrite Ham in Hd. destruct (am !! d_start dso) as [j|] eqn:Ej; cbn [find_or_push fst snd]; intros Hl Hbin.
  - destruct Hd as (mi & Hm & He). rewrite Hm in Sm. split; [split; [exact Hbin|]|]; [|exists mi; by rewrite Sm].
    intros p a. rewrite Sm. cbn [mapinfo_lookup mapinfo_table set_mapinfos]. specialize (H2 p a). destruct (decide (p = pid)) as [->|]; [|by rewrite lookup_insert_ne].
    rewrite lookup_insert_eq. cbn. unfold am. by destruct (mapinfo_lookup h !! pid); cbn in *; rewrite ?lookup_empty.
  - rewrite Hd in Sm. destruct (entry_next (mapinfo_table h) (mapinfo_from_dso dso b)) as [En _]; [lia|]. split; [split; [exact Hbin|]|]; [|eexists; split; [|exact En]; by rewrite Sm, lookup_insert_eq].
    intros p a. rewrite Sm. cbn [mapinfo_lookup mapinfo_table set_mapinfos]. specialize (H2 p a).
    assert (Hother : (p, a) <> (pid, d_start dso) -> (<[pid := <[d_start dso := next_idx (mapinfo_table h)]> am]> (mapinfo_lookup h) !! p ≫= (fun m => m !! a)) = (mapinfo_lookup h !! p ≫= (fun m => m !! a))).
    { intros Hne. destruct (decide (p = pid)) as [->|]; [|by rewrite lookup_insert_ne]. rewrite lookup_insert_eq. cbn. rewrite lookup_insert_ne by congruence.
      unfold am. by destruct (mapinfo_lookup h !! pid); cbn; rewrite ?lookup_empty. }
    destruct (decide ((p, a) = (pid, d_start dso))) as [[= -> ->]|Hne]; [rewrite !lookup_insert_eq; cbn; rewrite lookup_insert_eq; by eexists|].
    rewrite Hother, lookup_insert_ne by congruence. case_match; [|done]. destruct H2 as (mi & ? & ?). exists mi. split; [done|by apply entry_app].
Qed.

Lemma remembers_clear os pid h : remembers os h -> remembers (os ++ [OClear pid]) (hdr_clear h pid).
Proof.
  intros [H1 H2]. destruct (asked_snoc os (OClear pid)) as [Sm Sb]. cbn [note_base note_mapping] in Sm, Sb. split.
  - intros p i Hi. cbn [hdr_clear sh_syms sy_base base_erase bin_map] in Hi. apply lookup_delete_Some in Hi as [Hne Hi].
    destruct (H1 _ _ Hi) as (sym & Hf & dh & exe & Hin & He). exists sym. split; [by apply (hl_fixed _ _ _ (clear_later 0 h pid))|].
    exists dh, exe. rewrite Sb. by rewrite (proj2 (Z.eqb_neq _ _)).
  - intros p a. rewrite Sm. cbn [hdr_clear mapinfo_lookup mapinfo_erase mapinfo_table]. unfold mapinfo_erase. specialize (H2 p a). destruct (decide (p = pid)) as [->|Hne].
    + rewrite lookup_delete_eq. cbn. apply map_lookup_filter_None. right. intros mi _ Hn. by apply Hn.
    + rewrite lookup_delete_ne by done. assert (E : filter (fun kv : Z * Z * MapInfo => fst (fst kv) <> pid) (mappings_asked os) !! (p, a) = mappings_asked os !! (p, a)).
      { destruct (mappings_asked os !! (p, a)) as [mi|] eqn:E; [by apply map_lookup_filter_Some|apply map_lookup_filter_None; by left]. }
      by rewrite E.
Qed.

Context (F : nat) (Hfiles : files_ok read_file alloc_entries F).

(** The index of an address of generated code is the one its process has for it then. *)
Lemma runtime_answer h pid pc p i h' : hdr_inv h -> hdr_room (S F) h -> hdr_runtime read_file alloc_entries h pid pc p = Some (i, h') ->
  rt_answer (si_map (rt_info (runtime_symbol_lookup h') pid)) pc i /\ sh_syms h' = sh_syms h /\ mapinfo_lookup h' = mapinfo_lookup h.
Proof.
  intros Hh [Hr _] E. unfold hdr_runtime in E.
  assert (Hres : forall Q s r t, rt_result F Q s (runtime_symbol_lookup h) pid pc (symbol_table h) (i, r, t) -> rt_answer (si_map (rt_info r pid)) pc i).
  { intros Q s r t (info & Er & _ & Ha). unfold rt_info. by rewrite Er, lookup_insert_eq. }
  case_bool_decide as Hp.
  - destruct (perfmap_lookup_spec _ _ F Hfiles _ _ _ pid pc _ (hv_process _ Hh pid) ltac:(lia)) as ([[j r] t] & El & Hr'). rewrite El in E. injection E as -> <-.
    split; [by eapply Hres|done].
  - destruct (jitdump_lookup_spec _ _ F Hfiles _ _ _ pid pc _ p Hp (hv_process _ Hh pid) ltac:(lia)) as ([[j r] t] & El & Hr'). rewrite El in E. injection E as -> <-.
    split; [by eapply Hres|done].
Qed.

Lemma exec_answers os ids h o i h' : symbol_run read_file alloc_entries (init_SymbolHdr path) os = Some (ids, h) -> remembers os h -> hdr_inv h -> hdr_room (S F) h ->
  symbol_exec read_file alloc_entries h o = Some (i, h') -> op_outcome (S F) h o i h' -> remembers (os ++ [o]) h' /\ answers (os ++ [o]) h' o i.
Proof.
  intros Erun Hm Hh Hr E (Hh' & Hres & Hl). assert (Hr1 : hdr_room 1 h) by (unfold hdr_room in *; lia).
  destruct o as [c|a dso ty|pid dh exe|pid pc p|pid dso b| |pid|]; cbn [symbol_exec answers] in *.
  - split; [|done]. eapply (remembers_same _ _ _ h); [done|done|done|done|..]; unfold hdr_common in E; destruct (common_get_or_insert _ _ _) as [[[j m] t]|]; simplify_eq; done.
  - split; [|done]. eapply (remembers_same _ _ _ h); [done|done|done|done|..]; unfold hdr_dso in E; destruct (dso_get_or_insert _ _ _ _ _) as [[j m] t]; simplify_eq; done.
  - pose proof (base_exec_spec h pid dh exe Hh Hr1) as Hb. assert (Em : mapinfo_lookup h' = mapinfo_lookup h).
    { unfold hdr_base in E. destruct (base_get_or_insert _ _ _ _ _ _) as [[[[? ?] ?] ?] ?]. cbn [fst] in E. injection E as _ <-. done. }
    destruct (hdr_base h pid dh exe) as [[j h2] dh2]. cbn [fst] in E. injection E as -> ->. destruct Hb as (_ & Hb & _). by eapply remembers_base.
  - destruct (runtime_answer h pid pc p i h' Hh Hr E) as (Ha & Es & Em). split; [apply (remembers_same (S F) _ _ h); [done..|by rewrite Es|done]|].
    split; [exact Hres|]. do 2 eexists. split; [by eapply symbol_run_snoc|done].
  - injection E as E. pose proof (f_equal fst E) as Ei. pose proof (f_equal snd E) as Eh. cbn [fst snd] in Ei, Eh. subst i h'. by eapply remembers_mapinfo.
  - split; [|done]. eapply (remembers_same _ _ _ h); [done|done|done|done|..]; unfold hdr_empty_mapinfo in E; destruct (common_mapinfo_get_or_insert _ _) as [[j m] t]; simplify_eq; done.
  - injection E as <- <-. split; [by apply remembers_clear|done].
  - injection E as <- <-. split; [|done]. by eapply (remembers_same _ _ _ h).
Qed.

Lemma run_answers os past ids0 h0 : symbol_run read_file alloc_entries (init_SymbolHdr path) past = Some (ids0, h0) -> remembers past h0 -> hdr_inv h0 ->
  hdr_room (length os * S F) h0 -> exists ids h, symbol_run read_file alloc_entries h0 os = Some (ids, h) /\ length ids = length os /\
    hdr_later (length os * S F) h0 h /\ forall n o i, os !! n = Some o -> ids !! n = Some i -> answers (past ++ take (S n) os) h o i.
Proof.
  revert past ids0 h0. induction os as [|o os IH]; intros past ids0 h0 Erun Hm Hh Hr; cbn [symbol_run length Nat.mul] in *.
  - exists [], h0. split; [done|]. split; [done|]. split; [apply hdr_later_refl|done].
  - assert (Hr1 : hdr_room (S F) h0) by (unfold hdr_room in *; lia).
    destruct (symbol_exec_spec read_file alloc_entries F h0 o Hfiles Hh Hr1) as (i & h1 & E & Hout). rewrite E.
    destruct (exec_answers past ids0 h0 o i h1 Erun Hm Hh Hr1 E Hout) as [Hm1 Ha]. destruct Hout as (Hh1 & _ & Hl).
    destruct (IH (past ++ [o]) (ids0 ++ [i]) h1) as (ids & h2 & -> & Hlen & Hl2 & Hall); [by eapply symbol_run_snoc|done|done|destruct Hl; unfold hdr_room in *; lia|].
    exists (i :: ids), h2. split; [done|]. split; [cbn; lia|]. split; [by eapply hdr_later_trans|]. intros [|n] o' i' Ho Hi; cbn in Ho, Hi.
    + injection Ho as <-. injection Hi as <-. cbn [take]. by eapply answers_later.
    + specialize (Hall n o' i' Ho Hi). rewrite <- app_assoc in Hall. exact Hall.
Qed.

End History.

(** C20: In any sequence of lookups from empty tables, every lookup returns an index, and at the
    end of the sequence the index leads to what was asked for: to the frame of the error; to the
    symbol of the address in the file; for the base frame of a process to the symbol of its
    executable, as one of the lookups of the process since it was last forgotten found it, or to
    the symbol of the process; for a mapping, to the first one that was asked for at its address
    in the process since the process was last forgotten (later files mapped at the address are
    not noticed, [mapinfo_stale_after_remap]); for an address of generated code, the index is the
    one of the last span that starts at or before the address and contains it among the symbols
    the process has after the lookup, and none exactly when there is no such span, but the symbol
    may be renamed afterwards ([stack_symbol_renamed]).  The files of the processes do not change
    during the sequence, and each is a jitdump file as LLVM writes it, complete or not but with its
    40 bytes of header, or does not start with the mark of such files (a perf map); the tables
    have room for the calls, each of which adds at most one entry and one per symbol of a file,
    of at most [F]. *)
Theorem symbol_lookups_correct read_file alloc_entries F path os : files_ok read_file alloc_entries F ->
  Z.of_nat (length os * S F) + 1 < 2 ^ 31 ->
  exists ids h, symbol_run read_file alloc_entries (init_SymbolHdr path) os = Some (ids, h) /\ length ids = length os /\
    forall n o i, os !! n = Some o -> ids !! n = Some i -> answers read_file alloc_entries path (take (S n) os) h o i.
Proof.
  intros Hf Hn. destruct (run_answers read_file alloc_entries path F Hf os [] [] (init_SymbolHdr path) eq_refl) as (ids & h & E & Hlen & _ & H).
  - split; [intros pid i|intros pid a]; cbn; [by rewrite lookup_empty|]. by rewrite lookup_empty.
  - apply init_hdr_inv.
  - split; cbn; lia.
  - eauto.
Qed.

(** A symbol of generated code that is read from a file is found: [insert_or_replace] takes
    exactly the symbols that are not skipped and whose range is one of addresses, and every
    address of the range then leads to it, up to the next symbol that starts inside the range.
    The spans that do not contain its start keep their place and their symbols, and the
    symbols of other processes and lookups are untouched. *)
Theorem runtime_symbol_inserted h pid symbol address code_size :
  let m := si_map (rt_info (runtime_symbol_lookup h) pid) in
  let t := symbol_table h in
  let others i := rt_index (fun p => p <> pid) (rt_pid_map (runtime_symbol_lookup h)) i in
  hdr_inv h -> hdr_room 1 h -> is_u64 address -> is_u64 code_size ->
  exists m' t', insert_or_replace symbol address code_size m t = Some (symbol_accepted symbol address code_size, m', t') /\
    if symbol_accepted symbol address code_size then
      map_inv others (sh_syms h) m' t' /\ spans_kept m t m' t' address /\
      (forall i sym, ~ map_index m i -> entry t i = Some sym -> entry t' i = Some sym) /\
      (forall pc, address <= pc < address + code_size -> (forall k sp, (k, sp) ∈ m -> address < k -> pc < k) -> names m' t' pc symbol)
    else m' = m /\ t' = t.
Proof.
  intros m t others Hh [Hr _] Ha Hc. destruct (insert_or_replace_spec others (sh_syms h) m t symbol address code_size) as (m' & t' & E & H);
    [apply (hv_process _ Hh)|unfold t; lia|done|done|]. exists m', t'. split; [done|]. destruct (symbol_accepted _ _ _); [|done].
  destruct H as (Hm & [_ Hoth _ _] & _ & Hk & Hn). done.
Qed.

(** ** Failed lookups *)

(** What a failure is remembered under. *)
Definition lookup_key (jitdump_path : string) : string := if bool_decide (jitdump_path = EmptyString) then "perfmap"%string else jitdump_path.

Definition remembered (r : RuntimeSymbolLookup) (pid : Z) (key : string) : Prop :=
  has_lookup_failure r (rt_info r pid) key = true.

Lemma flag_remembers r pid info key : remembered (flag_lookup_failure r pid info key) pid key.
Proof.
  unfold remembered, flag_lookup_failure, has_lookup_failure, rt_info. cbn [rt_pid_map count_failure set_info].
  rewrite lookup_insert_eq. cbn [default from_option id failed_cycle]. rewrite lookup_insert_eq. by apply Z.eqb_refl.
Qed.

Lemma lookup_result_failed r pid info t pc key r' t' : lookup_result r pid info t pc key = Some (k_symbol_idx_null, r', t') ->
  (forall i, map_index (si_map info) i -> 0 <= i) -> remembered r' pid key.
Proof.
  intros E Hi. unfold lookup_result in E. destruct (find_closest (si_map info) pc) as [it []].
  - destruct (si_map info !! it) as [[k sp]|] eqn:El; [|done]. injection E as E _ _. assert (0 <= span_symbol_idx sp); [|unfold k_symbol_idx_null in E; lia].
    apply Hi. exists k, sp. split; [by eapply list_elem_of_lookup_2|done].
  - injection E as <- <-. apply flag_remembers.
Qed.

(** A lookup after a failure of the same cycle does not depend on the files. *)
Lemma remembered_lookup rf alloc h pid pc path : remembered (runtime_symbol_lookup h) pid (lookup_key path) ->
  hdr_runtime rf alloc h pid pc path =
  (let? (i, r, t) := lookup_result (runtime_symbol_lookup h) pid (rt_info (runtime_symbol_lookup h) pid) (symbol_table h) pc (lookup_key path) in
   Some (i, set_runtime h r t)).
Proof.
  unfold remembered, hdr_runtime, lookup_key, rt_get_or_insert, get_or_insert_jitdump. fold (rt_info (runtime_symbol_lookup h) pid).
  case_bool_decide; intros ->; by rewrite andb_false_r.
Qed.

(** A lookup that fails is remembered, when the indices of the process are indices. *)
Lemma runtime_failure_remembered rf alloc F h pid pc path h' : files_ok rf alloc F -> hdr_inv h -> hdr_room (S F) h ->
  hdr_runtime rf alloc h pid pc path = Some (k_symbol_idx_null, h') -> remembered (runtime_symbol_lookup h') pid (lookup_key path).
Proof.
  intros Hf Hh [Hr _] E. unfold hdr_runtime, lookup_key in *. set (r := runtime_symbol_lookup h) in *. assert (Hm := hv_process _ Hh pid). fold r in Hm.
  assert (Hpos : forall s Q m t, map_inv Q s m t -> forall i, map_index m i -> 0 <= i).
  { intros s Q m t Hi i Hix. destruct (mv_sym _ _ _ _ Hi i Hix) as (_ & sym & He & _). by eapply entry_nonneg. }
  revert E. case_bool_decide as Hp; intros E.
  - destruct (rt_get_or_insert rf r pid pc (symbol_table h)) as [[[i r'] t']|] eqn:El; [|done]. injection E as -> <-. cbn [runtime_symbol_lookup set_runtime].
    unfold rt_get_or_insert in El. fold (rt_info r pid) in El. destruct (negb _ && negb _); [|by eapply lookup_result_failed; [|eauto]].
    destruct (fill_from_perfmap_spec rf alloc F Hf _ _ (count_read r) pid _ _ Hm ltac:(lia)) as (res & m' & t1 & Ef & Hfill). rewrite Ef in El.
    eapply lookup_result_failed; [exact El|]. eapply Hpos. apply Hfill.
  - destruct (get_or_insert_jitdump rf alloc r pid pc (symbol_table h) path) as [[[i r'] t']|] eqn:El; [|done]. injection E as -> <-. cbn [runtime_symbol_lookup set_runtime].
    unfold get_or_insert_jitdump in El. fold (rt_info r pid) in El. destruct (negb _ && negb _); [|by eapply lookup_result_failed; [|eauto]].
    destruct (fill_from_jitdump_spec rf alloc F Hf _ _ (count_read r) path pid _ _ Hp Hm ltac:(lia)) as (res & m' & t1 & Ef & Hfill & _). rewrite Ef in El.
    destruct (IsDDResFatal res); [injection El as <- <-; apply flag_remembers|].
    eapply lookup_result_failed; [exact El|]. eapply Hpos. apply Hfill.
Qed.

(** A lookup of generated code that finds nothing is not repeated in the cycle: whatever the
    files have become, later lookups of the process that would read the same file do not read
    it, add no symbol, and answer from the symbols that are there; after the next cycle the
    file is read again. *)
Theorem failed_lookup_once_per_cycle rf alloc F h pid pc path h' : files_ok rf alloc F -> hdr_inv h -> hdr_room (S F) h ->
  hdr_runtime rf alloc h pid pc path = Some (k_symbol_idx_null, h') ->
  (forall pc', exists i h'', symbol_table h'' = symbol_table h' /\
     nb_jit_reads (rt_stats (runtime_symbol_lookup h'')) = nb_jit_reads (rt_stats (runtime_symbol_lookup h')) /\
     (forall rf', hdr_runtime rf' alloc h' pid pc' path = Some (i, h''))) /\
  (0 <= cycle_counter (runtime_symbol_lookup h') < 2 ^ 32 ->
   has_lookup_failure (runtime_symbol_lookup (hdr_cycle h')) (rt_info (runtime_symbol_lookup (hdr_cycle h')) pid) (lookup_key path) = false).
Proof.
  intros Hf Hh Hr E. pose proof (runtime_failure_remembered _ _ _ _ _ _ _ _ Hf Hh Hr E) as Hrem.
  destruct (symbol_exec_spec rf alloc F h (ORuntime pid pc path) Hf Hh Hr) as (i & h1 & E1 & Hh1 & _). cbn [symbol_exec] in E1.
  rewrite E in E1. injection E1 as <- <-. split.
  - intros pc'. destruct (find_closest (si_map (rt_info (runtime_symbol_lookup h') pid)) pc') as [it b] eqn:Ec.
    pose proof (find_closest_spec _ pc' (mv_wf _ _ _ _ (hv_process _ Hh1 pid))) as Hs. rewrite Ec in Hs. unfold closest_at in Hs. cbn [fst snd] in Hs.
    assert (exists res, lookup_result (runtime_symbol_lookup h') pid (rt_info (runtime_symbol_lookup h') pid) (symbol_table h') pc' (lookup_key path) = Some res /\
      snd res = symbol_table h' /\ rt_stats (snd (fst res)) = mkStats (nb_jit_reads (rt_stats (runtime_symbol_lookup h'))) (nb_failed_lookups (rt_stats (snd (fst res)))) (symbol_count (rt_stats (snd (fst res))))) as ([[i r] t] & El & Et & Es).
    { unfold lookup_result. rewrite Ec. destruct b; [destruct Hs as (k & sp & -> & _)|]; eexists; (split; [done|]); (split; [done|]); cbn; [by destruct (rt_stats _)|done]. }
    cbn [fst snd] in *. exists i, (set_runtime h' r t). split; [done|]. split; [cbn [runtime_symbol_lookup set_runtime]; by rewrite Es|].
    intros rf'. by rewrite remembered_lookup, El.
  - intros Hc. unfold remembered, has_lookup_failure in *. cbn [hdr_cycle runtime_symbol_lookup rt_cycle cycle_counter].
    change (rt_info (rt_cycle (runtime_symbol_lookup h')) pid) with (rt_info (runtime_symbol_lookup h') pid).
    destruct (failed_cycle _ !! _) as [c|]; [|done]. apply Z.eqb_eq in Hrem as ->. apply Z.eqb_neq.
    destruct (Z.eq_dec (cycle_counter (runtime_symbol_lookup h')) (2 ^ 32 - 1)) as [->|]; [done|]. rewrite u32_small; lia.
Qed.

(** ** The tables at work *)

Lemma perfmap_files_ok : files_ok perfmap_files (fun _ => true) 3.
Proof.
  intros path bytes. unfold perfmap_files. case_bool_decide; [|done]. intros [= <-]. split; [|split].
  - apply (bool_decide_unpack _). vm_compute. exact I.
  - apply Nat.leb_le. vm_compute. reflexivity.
  - left. vm_compute. discriminate.
Qed.

Definition demo_lib : Dso := new_dso 42 4096 8191 0 "/lib/libm.so" 77 (PROT_READ + PROT_EXEC) kPerfMmapEvent.
Definition demo_ops : list symbol_op :=
  [ORuntime 42 0x7f0000001008 ""; OCommon truncated_stack; OBase 42 (exe_hdr "/bin/node") None; ODso 0x20 demo_lib "elf"; OMapInfo 42 demo_lib None;
   OEmptyMapInfo; OClear 42; OCycle; ORuntime 42 0x7f0000003001 ""; OCommon truncated_stack; ORuntime 42 17 ""].

Lemma symbol_lookups_correct_witness :
  exists ids h, symbol_run perfmap_files (fun _ => true) (init_SymbolHdr "") demo_ops = Some (ids, h) /\
    answers perfmap_files (fun _ => true) "" (take 5 demo_ops) h (OMapInfo 42 demo_lib None) 0 /\ ids = [0; 2; 3; 4; 0; 1; -1; -1; 6; 2; -1].
Proof.
  destruct (symbol_lookups_correct perfmap_files (fun _ => true) 3 "" demo_ops) as (ids & h & E & _ & H).
  - exact perfmap_files_ok.
  - vm_compute. reflexivity.
  - exists ids, h. split; [exact E|].
    assert (Eids : fst <$> symbol_run perfmap_files (fun _ => true) (init_SymbolHdr "") demo_ops = Some [0; 2; 3; 4; 0; 1; -1; -1; 6; 2; -1]) by (vm_compute; reflexivity).
    rewrite E in Eids. injection Eids as Eids. split; [|exact Eids]. apply (H 4%nat); [reflexivity|rewrite Eids; reflexivity].
Defined.

Lemma init_room n path : Z.of_nat n + 1 < 2 ^ 31 -> hdr_room n (init_SymbolHdr path).
Proof. intros H. split; cbn; lia. Qed.

Lemma runtime_symbol_inserted_witness :
  exists m' t', insert_or_replace "f" 0x1000 0x40 [] [] = Some (true, m', t') /\ names m' t' 0x1008 "f".
Proof.
  destruct (runtime_symbol_inserted (init_SymbolHdr "") 42 "f" 0x1000 0x40) as (m' & t' & E & _ & _ & _ & Hn).
  - apply init_hdr_inv.
  - apply init_room. vm_compute. reflexivity.
  - split; [vm_compute; discriminate|vm_compute; reflexivity].
  - split; [vm_compute; discriminate|vm_compute; reflexivity].
  - exists m', t'. split; [exact E|]. apply Hn; [split; [vm_compute; discriminate|vm_compute; reflexivity]|].
    intros k sp Hk. apply not_elem_of_nil in Hk. destruct Hk.
Defined.

Lemma failed_lookup_once_per_cycle_witness :
  exists h', hdr_runtime perfmap_files (fun _ => true) (init_SymbolHdr "") 42 17 "" = Some (-1, h') /\
    exists i h'', nb_jit_reads (rt_stats (runtime_symbol_lookup h'')) = 1 /\ forall rf', hdr_runtime rf' (fun _ => true) h' 42 18 "" = Some (i, h'').
Proof.
  destruct (hdr_runtime perfmap_files (fun _ => true) (init_SymbolHdr "") 42 17 "") as [[i h']|] eqn:E.
  - assert (Ei : fst <$> hdr_runtime perfmap_files (fun _ => true) (init_SymbolHdr "") 42 17 "" = Some (-1)) by (vm_compute; reflexivity).
    assert (En : (fun r => nb_jit_reads (rt_stats (runtime_symbol_lookup (snd r)))) <$> hdr_runtime perfmap_files (fun _ => true) (init_SymbolHdr "") 42 17 "" = Some 1) by (vm_compute; reflexivity).
    rewrite E in Ei, En. injection Ei as ->. injection En as En. exists h'. split; [reflexivity|].
    destruct (failed_lookup_once_per_cycle perfmap_files (fun _ => true) 3 (init_SymbolHdr "") 42 17 "" h') as [Hl _].
    + exact perfmap_files_ok.
    + apply init_hdr_inv.
    + apply init_room. vm_compute. reflexivity.
    + exact E.
    + destruct (Hl 18) as (i & h'' & _ & Hr & Hall). exists i, h''. split; [rewrite Hr; exact En|exact Hall].
  - exfalso. revert E. vm_compute. discriminate.
Defined.

(** ** Divergences *)

(** A symbol of generated code that is replaced is renamed in the table: the index that an
    earlier lookup gave out, and that a stack of a live allocation may hold, now names the
    function that took the place. *)
Example stack_symbol_renamed :
  (let? (_, m, t) := insert_or_replace "first" 0x1000 0x40 [] [] in
   let? (_, m, t') := insert_or_replace "second" 0x1020 0x40 m t in
   Some (sym_demangled_name <$> entry t 0, sym_demangled_name <$> entry t' 0, find_closest m 0x1008)) =
  Some (Some "first"%string, Some "second"%string, (1%nat, false)).
Proof. vm_compute. reflexivity. Qed.

(** A record of a kind that is not read is a fatal error.  In a file below the root of the
    process it is ignored and the functions before it are kept; in the same file at the path
    itself they are dropped. *)
Example fatal_error_kept_or_dropped :
  let bytes := file_bytes demo_header (take 1 demo_records) ++ prefix_bytes (mkJP JIT_CODE_MOVE 16 0) in
  let files at_ (path : string) := if bool_decide (path = at_) then Some bytes else None in
  let read at_ := fst <$> hdr_runtime (files at_) (fun _ => true) (init_SymbolHdr "") 42 4097 "/tmp/jit-42.dump" in
  read "/proc/42/root/tmp/jit-42.dump"%string = Some 0 /\ read "/tmp/jit-42.dump"%string = Some (-1).
Proof. vm_compute. done. Qed.
