(* ===== verification/Unwind.v ===== *)
(** * The DWARF unwinder

    Model of [src/unwind_helper.cc], [src/unwind_dwfl.cc], [src/dwfl_wrapper.cc] and of the frames
    that [unwindstate_unwind] of [src/unwind.cc] adds: for each frame libdwfl finds, the mapping,
    the module of its file, and a location for the stack.  libdwfl is a parameter: a state and
    the calls on it; it answers as it likes.  The flag [_errored] of the file infos is the set
    of their identifiers. *)

From S2P Require Import Prelude Ddres LiveAlloc Dso DsoHdr Symbols ElfModule RuntimeSymbols SymbolTables.

(** ** libdwfl *)

Record Dwfl_ops (D : Type) := mkDwfl {
  dwfl_begin : option D;
  dwfl_attach_state : D -> Z -> option D;
  (** [dwfl_getthread_frames]: the first frame of the thread, and the one below a frame. *)
  dwfl_first_frame : D -> Z -> option D;
  dwfl_next_frame : D -> option D;
  dwfl_frame_pc : D -> option Z;
  dwfl_frame_pc_activation : D -> option (Z * bool);
  dwfl_errno : D -> Z * D;
  dwfl_addrmodule : D -> Z -> bool;
  dwfl_report_elf : D -> string -> string -> Z -> option (Z * Z) * D
}.
Arguments dwfl_begin {D} _.
Arguments dwfl_attach_state {D} _ _ _.
Arguments dwfl_first_frame {D} _ _ _.
Arguments dwfl_next_frame {D} _ _.
Arguments dwfl_frame_pc {D} _ _.
Arguments dwfl_frame_pc_activation {D} _ _.
Arguments dwfl_errno {D} _ _.
Arguments dwfl_addrmodule {D} _ _ _.
Arguments dwfl_report_elf {D} _ _ _ _ _.

Record DwflWrapper (D : Type) := mkDW { dw_dwfl : option D; dw_attached : bool; dw_inconsistent : bool; dw_mods : gmap Z DDProfMod }.
Arguments mkDW {D} _ _ _ _.
Arguments dw_dwfl {D} _.
Arguments dw_attached {D} _.
Arguments dw_inconsistent {D} _.
Arguments dw_mods {D} _.

Definition new_wrapper {D} : DwflWrapper D := mkDW None false false ∅.

(** ** State *)

(** [un_reads] counts the times the maps of the process may be read: it selects what the
    environment has to say. *)
Record ustate (D : Type) := mkUn {
  un_dso : DsoHdr; un_sym : SymbolHdr; un_errored : gset Z; un_wrapper : DwflWrapper D; un_pid : Z; un_ip : Z;
  un_locs : list FunLoc; un_nb_frames : Z; un_nb_truncated : Z; un_reads : nat
}.
Arguments mkUn {D} _ _ _ _ _ _ _ _ _ _.
Arguments un_dso {D} _.
Arguments un_sym {D} _.
Arguments un_errored {D} _.
Arguments un_wrapper {D} _.
Arguments un_pid {D} _.
Arguments un_ip {D} _.
Arguments un_locs {D} _.
Arguments un_nb_frames {D} _.
Arguments un_nb_truncated {D} _.
Arguments un_reads {D} _.

Section Unwind.
Context {D : Type} (ops : Dwfl_ops D) (open_elf : string -> option (option Elf)) (get_file_inode : string -> option (Z * Z))
        (read_file : string -> option (list Z)) (alloc_entries : Z -> bool)
        (env : nat -> Z * option (list (option proc_fields))).

Definition with_dso (u : ustate D) (h : DsoHdr) : ustate D :=
  mkUn h (un_sym u) (un_errored u) (un_wrapper u) (un_pid u) (un_ip u) (un_locs u) (un_nb_frames u) (un_nb_truncated u) (un_reads u).
Definition with_sym (u : ustate D) (h : SymbolHdr) : ustate D :=
  mkUn (un_dso u) h (un_errored u) (un_wrapper u) (un_pid u) (un_ip u) (un_locs u) (un_nb_frames u) (un_nb_truncated u) (un_reads u).
Definition with_errored (u : ustate D) (e : gset Z) : ustate D :=
  mkUn (un_dso u) (un_sym u) e (un_wrapper u) (un_pid u) (un_ip u) (un_locs u) (un_nb_frames u) (un_nb_truncated u) (un_reads u).
Definition with_wrapper (u : ustate D) (w : DwflWrapper D) : ustate D :=
  mkUn (un_dso u) (un_sym u) (un_errored u) w (un_pid u) (un_ip u) (un_locs u) (un_nb_frames u) (un_nb_truncated u) (un_reads u).
Definition with_ip (u : ustate D) (ip : Z) : ustate D :=
  mkUn (un_dso u) (un_sym u) (un_errored u) (un_wrapper u) (un_pid u) ip (un_locs u) (un_nb_frames u) (un_nb_truncated u) (un_reads u).
Definition with_locs (u : ustate D) (l : list FunLoc) : ustate D :=
  mkUn (un_dso u) (un_sym u) (un_errored u) (un_wrapper u) (un_pid u) (un_ip u) l (un_nb_frames u) (un_nb_truncated u) (un_reads u).
Definition count_frame (u : ustate D) : ustate D :=
  mkUn (un_dso u) (un_sym u) (un_errored u) (un_wrapper u) (un_pid u) (un_ip u) (un_locs u) (un_nb_frames u + 1) (un_nb_truncated u) (un_reads u).
Definition count_truncated (u : ustate D) : ustate D :=
  mkUn (un_dso u) (un_sym u) (un_errored u) (un_wrapper u) (un_pid u) (un_ip u) (un_locs u) (un_nb_frames u) (un_nb_truncated u + 1) (un_reads u).
Definition next_read (u : ustate D) : ustate D :=
  mkUn (un_dso u) (un_sym u) (un_errored u) (un_wrapper u) (un_pid u) (un_ip u) (un_locs u) (un_nb_frames u) (un_nb_truncated u) (S (un_reads u)).

(** ** Frames *)

Definition max_depth : nat := 512.

Definition is_max_stack_depth_reached (u : ustate D) : bool := (max_depth <=? length (un_locs u) + 2)%nat.

Definition add_frame (symbol_idx file_info_id map_idx pc elf_addr : Z) (u : ustate D) : DDRes * ustate D :=
  if (max_depth <=? length (un_locs u))%nat then (ddres_warn (what_of "UW_MAX_DEPTH"), u)
  else
    let '(map_idx, sym) := if map_idx =? k_mapinfo_idx_null then hdr_empty_mapinfo (un_sym u) else (map_idx, un_sym u) in
    (ddres_init, with_locs (with_sym u sym) (un_locs u ++ [mkFunLoc pc elf_addr file_info_id symbol_idx map_idx])).

Definition add_frame_without_mapping (u : ustate D) (symbol_idx : Z) : ustate D :=
  snd (add_frame symbol_idx k_file_info_undef k_mapinfo_idx_null 0 0 u).

Definition add_common_frame (u : ustate D) (lookup_case : SymbolErrors) : option (ustate D) :=
  let? (i, sym) := hdr_common (un_sym u) lookup_case in Some (add_frame_without_mapping (with_sym u sym) i).

Definition add_dso_frame (u : ustate D) (dso : Dso) (normalized_addr : Z) (addr_type : string) : ustate D :=
  let '(i, sym) := hdr_dso (un_sym u) normalized_addr dso addr_type in add_frame_without_mapping (with_sym u sym) i.

Definition add_virtual_base_frame (u : ustate D) (exe : option string) : ustate D :=
  let '(i, sym, h) := hdr_base (un_sym u) (un_pid u) (un_dso u) exe in add_frame_without_mapping (with_dso (with_sym u sym) h) i.

Definition add_error_frame (dso : option Dso) (u : ustate D) (error_case : SymbolErrors) : option (ustate D) :=
  match dso with
  | Some dso => Some (add_dso_frame u dso 0 "pc")
  | None => add_common_frame u error_case
  end.

(** Three locations with the same address end the stack. *)
Definition is_infinite_loop (u : ustate D) : bool :=
  let n := length (un_locs u) in
  if (n <=? 3)%nat then false
  else
    let ip i := fl_ip <$> un_locs u !! (n - i)%nat in
    bool_decide (ip 1%nat = ip 2%nat) && bool_decide (ip 2%nat = ip 3%nat).

(** The module's build id is always given. *)
Definition add_unsymbolized_frame (u : ustate D) (dso : Dso) (pc : Z) (ddprof_mod : DDProfMod) (file_info_id : Z) : DDRes * ustate D :=
  let '(map_idx, sym) := hdr_mapinfo (un_sym u) (un_pid u) dso (Some (mod_build_id ddprof_mod)) in
  add_frame k_symbol_idx_null file_info_id map_idx pc (pc -w mod_sym_bias ddprof_mod) (with_sym u sym).

Definition add_runtime_symbol_frame (u : ustate D) (dso : Dso) (pc : Z) (jitdump_path : string) : option (DDRes * ustate D) :=
  let? (symbol_idx, sym) := hdr_runtime read_file alloc_entries (un_sym u) (d_pid dso) pc jitdump_path in
  let u := with_sym u sym in
  if symbol_idx =? k_symbol_idx_null then Some (ddres_init, add_dso_frame u dso pc "pc")
  else
    let '(map_idx, sym) := hdr_mapinfo (un_sym u) (un_pid u) dso None in
    Some (add_frame symbol_idx k_file_info_undef map_idx pc (u64 (pc - d_start dso + d_offset dso)) (with_sym u sym)).

(** ** Modules *)

Definition unsafe_get (w : DwflWrapper D) (file_info_id : Z) : option DDProfMod := dw_mods w !! file_info_id.

Definition is_inconsistent (s : ModStatus) : bool := match s with kInconsistent => true | kUnknown => false end.

(** The module when it could be registered. *)
Definition register_mod (u : ustate D) (pc : Z) (dso : Dso) (file : FileInfoValue) : option (DDRes * option DDProfMod * ustate D) :=
  let w := un_wrapper u in
  match dw_dwfl w with
  | Some d =>
      if negb (dw_attached w) then Some (ddres_warn (what_of "DWFL_LIB_ERROR"), None, u)
      else
        let? (res, new_mod, d, errored) :=
          report_module (dwfl_errno ops) (dwfl_addrmodule ops) (dwfl_report_elf ops) open_elf d pc dso file (bool_decide (fiv_id file ∈ un_errored u)) in
        let u := with_errored u (if errored : bool then {[fiv_id file]} ∪ un_errored u else un_errored u) in
        let inconsistent := is_inconsistent (mod_status new_mod) in
        if IsDDResNotOK res then Some (res, None, with_wrapper u (mkDW (Some d) (dw_attached w) inconsistent (dw_mods w)))
        else Some (res, Some new_mod, with_wrapper u (mkDW (Some d) (dw_attached w) inconsistent (<[fiv_id file := new_mod]> (dw_mods w))))
  | None => Some (ddres_warn (what_of "DWFL_LIB_ERROR"), None, u)
  end.

Definition attach (w : DwflWrapper D) (pid : Z) : DDRes * DwflWrapper D :=
  if dw_attached w then (ddres_init, w)
  else
    match dwfl_begin ops with
    | None => (ddres_warn (what_of "DWFL_LIB_ERROR"), mkDW None false (dw_inconsistent w) (dw_mods w))
    | Some d =>
        match dwfl_attach_state ops d pid with
        | None => (ddres_warn (what_of "DWFL_LIB_ERROR"), mkDW (Some d) false (dw_inconsistent w) (dw_mods w))
        | Some d => (ddres_init, mkDW (Some d) true (dw_inconsistent w) (dw_mods w))
        end
    end.

(** ** One frame *)

Inductive module_search :=
| Returned (res : DDRes) (u : ustate D)                             (* [add_symbol] returns *)
| Module (dso : Dso) (ddprof_mod : DDProfMod) (file_info_id : Z) (u : ustate D)
| Retry (u : ustate D)
| NoModule (u : ustate D).

(** The path of the jitdump file of the process, or nothing. *)
Definition jitdump_path_of (pm : PidMapping) : string :=
  if jitdump_addr pm =? 0 then EmptyString
  else
    let '(it, found) := dso_find_closest (pm_map pm) (jitdump_addr pm) in
    match (if found : bool then pm_map pm !! it else None) with Some (_, d) => d_filename d | None => EmptyString end.

(** [get_or_insert_file_info] of a mapping of the process: the identifier is stored in the
    mapping; a file info that is replaced is not errored. *)
Definition file_info_of (u : ustate D) (key : Z) (dso : Dso) : Z * ustate D :=
  let '(id, h) := get_or_insert_file_info get_file_inode (un_dso u) dso in
  let pm := get_pid_mapping h (un_pid u) in
  let pm := mkPM (map_modify key (fun d => set_id d id) (pm_map pm)) (pm_bp pm) (jitdump_addr pm) in
  let path v := fi_path (fiv_info v) in
  let kept := bool_decide (path <$> file_info_vector h !! Z.to_nat id = path <$> file_info_vector (un_dso u) !! Z.to_nat id) in
  (id, with_errored (with_dso u (set_pid_map h (<[un_pid u := pm]> (pid_map h)))) (if kept then un_errored u else un_errored u ∖ {[id]})).

(** The module of the file, which is reported to libdwfl when it is new; after a failure the maps
    are read again, once. *)
Definition module_of_file (u : ustate D) (pc : Z) (first_attempt : bool) (dso : Dso) (file_info_id : Z) (file : FileInfoValue) : option module_search :=
  match unsafe_get (un_wrapper u) file_info_id with
  | Some m => Some (Module dso m file_info_id u)
  | None =>
      let? (res, m, u) := register_mod u pc dso file in
      match m with
      | Some m => Some (Module dso m file_info_id u)
      | None =>
          if first_attempt then
            let '(now, maps) := env (un_reads u) in
            let? (ok, nb_elts_added, h) := pid_backpopulate (un_dso u) (un_pid u) now maps 0 in
            let u := next_read (with_dso u h) in
            if ok && (0 <? nb_elts_added) then Some (Retry (with_errored u (un_errored u ∖ {[fiv_id file]}))) else Some (NoModule u)
          else Some (NoModule u)
      end
  end.

(** One turn of the loop over attempts. *)
Definition search_module (u : ustate D) (pc : Z) (first_attempt : bool) : option module_search :=
  let '(now, maps) := env (un_reads u) in
  let? (it, found, h) := dso_find_or_backpopulate (un_dso u) (un_pid u) pc now maps in
  let u := next_read (with_dso u h) in
  let pm := get_pid_mapping h (un_pid u) in
  if negb found then let? u := add_error_frame None u unknown_mapping in Some (Returned ddres_init u)
  else
    let? (_, dso) := pm_map pm !! it in
    if has_runtime_symbols dso then let? (res, u) := add_runtime_symbol_frame u dso pc (jitdump_path_of pm) in Some (Returned res u)
    else
      let '(file_info_id, u) := file_info_of u (d_start dso) dso in
      if file_info_id <=? k_file_info_error then Some (Returned ddres_init (add_dso_frame u dso pc "pc"))
      else
        let? file := file_info_vector (un_dso u) !! Z.to_nat file_info_id in
        module_of_file u pc first_attempt dso file_info_id file.

Definition warn_uw_error : DDRes := ddres_warn (what_of "UW_ERROR").

(** The location of a frame whose module is known. *)
Definition add_module_frame (u : ustate D) (dso : Dso) (m : DDProfMod) (file_info_id : Z) : option (DDRes * ustate D) :=
  let? d := dw_dwfl (un_wrapper u) in
  match dwfl_frame_pc_activation ops d with
  | None => let? u := add_error_frame None u unwind_failure in Some (ddres_init, u)
  | Some (pc, is_activation) =>
      let pc := if is_activation : bool then pc else pc -w 1 in
      let '(res, u) := add_unsymbolized_frame (with_ip u pc) dso pc m file_info_id in
      Some (if IsDDResNotOK res then warn_uw_error else ddres_init, u)
  end.

Definition after_search (r : module_search) : option (DDRes * ustate D) :=
  match r with
  | Returned res u => Some (res, u)
  | Module dso m id u => add_module_frame u dso m id
  | Retry u | NoModule u => Some (warn_uw_error, u)
  end.

Definition add_symbol (u : ustate D) : option (DDRes * ustate D) :=
  if is_max_stack_depth_reached u then
    let? u := add_common_frame u truncated_stack in Some (ddres_warn (what_of "UW_MAX_DEPTH"), count_truncated u)
  else
    let? d := dw_dwfl (un_wrapper u) in
    match dwfl_frame_pc ops d with
    | None => let? u := add_error_frame None u unwind_failure in Some (ddres_init, u)
    | Some pc =>
        let u := with_ip u pc in
        let h := un_dso u in
        let u := with_dso u (set_pid_map h (<[un_pid u := get_pid_mapping h (un_pid u)]> (pid_map h))) in
        if pc =? 0 then Some (ddres_init, u)
        else
          let? r := search_module u pc true in
          match r with
          | Retry u => let? r := search_module u pc false in after_search r
          | _ => after_search r
          end
    end.

(** [frame_cb]: whether to continue with the next frame. *)
Definition frame_cb (u : ustate D) : option (bool * ustate D) :=
  let w := un_wrapper u in
  let? d := dw_dwfl w in
  let '(err, d) := dwfl_errno ops d in
  let u := with_wrapper u (mkDW (Some d) (dw_attached w) (dw_inconsistent w) (dw_mods w)) in
  if negb (err =? 0) && is_infinite_loop u then Some (false, u)
  else let? (res, u) := add_symbol (count_frame u) in Some (IsDDResOK res, u).

(** ** The stack *)

(** [dwfl_getthread_frames]: the callback for each frame, until it asks to stop or there are no
    more frames; [None] when the fuel runs out. *)
Fixpoint thread_frames (fuel : nat) (u : ustate D) : option (ustate D) :=
  match fuel with
  | O => None
  | S f =>
      let? (continue, u) := frame_cb u in
      if negb continue then Some u
      else
        let w := un_wrapper u in
        let? d := dw_dwfl w in
        match dwfl_next_frame ops d with
        | None => Some u
        | Some d => thread_frames f (with_wrapper u (mkDW (Some d) (dw_attached w) (dw_inconsistent w) (dw_mods w)))
        end
  end.

Definition unwind_init_dwfl (u : ustate D) (avoid_new_attach : bool) : DDRes * ustate D :=
  let w := un_wrapper u in
  if avoid_new_attach && negb (dw_attached w) then (ddres_warn (what_of "UW_MAX_PIDS"), u)
  else let '(res, w) := attach w (un_pid u) in (res, with_wrapper u w).

Definition unwind_dwfl (fuel : nat) (u : ustate D) (avoid_new_attach : bool) : option (DDRes * ustate D) :=
  let '(res, u) := unwind_init_dwfl u avoid_new_attach in
  if negb (IsDDResOK res) then Some (res, u)
  else
    let w := un_wrapper u in
    let? d := dw_dwfl w in
    let? u :=
      match dwfl_first_frame ops d (un_pid u) with
      | None => Some u
      | Some d => thread_frames fuel (with_wrapper u (mkDW (Some d) (dw_attached w) (dw_inconsistent w) (dw_mods w)))
      end in
    Some (match un_locs u with [] => ddres_warn (what_of "DWFL_LIB_ERROR") | _ => ddres_init end, u).

(** [find_dso_add_error_frame] *)
Definition find_dso_add_error_frame (res : DDRes) (u : ustate D) : option (ustate D) :=
  if res_what res =? what_of "UW_MAX_PIDS" then add_common_frame u max_pids
  else
    let pm := get_pid_mapping (un_dso u) (un_pid u) in
    let '(it, found) := dso_find_closest (pm_map pm) (un_ip u) in
    let u := with_dso u (set_pid_map (un_dso u) (<[un_pid u := pm]> (pid_map (un_dso u)))) in
    add_error_frame (if found : bool then snd <$> pm_map pm !! it else None) u unknown_mapping.

(** The frames of [unwindstate_unwind]: its result, and the stack with the base frame. *)
Definition unwind_frames (fuel : nat) (u : ustate D) (avoid_new_attach : bool) (exe : option string) : option (DDRes * ustate D) :=
  let? (res, u) := (if un_pid u =? 0 then Some (ddres_init, u) else unwind_dwfl fuel u avoid_new_attach) in
  let? u :=
    (if IsDDResNotOK res then
       if res_what res =? what_of "UW_MAX_PIDS" then add_common_frame u max_pids else find_dso_add_error_frame res u
     else Some u) in
  Some (res, add_virtual_base_frame u exe).

End Unwind.
