(* ===== verification/UnwindProofs.v ===== *)
(** * The unwinder: files and frames

    The mappings keep well-formed and their file identifiers valid through the lookups of the
    unwinder, and every frame it adds refers to entries of the tables. *)

From Stdlib Require Import Sorted.
From S2P Require Import Prelude Ddres LiveAlloc Dso DsoHdr Symbols ElfModule RuntimeSymbols SymbolTables Unwind.

(** ** File identifiers of the mappings *)

(** What the updates of the mappings leave as it is: they move the bounds of a mapping only. *)
Definition same_file_info (d d' : Dso) : Prop := d_id d' = d_id d /\ d_filename d' = d_filename d /\ d_type d' = d_type d.

(** The table of the files is not touched. *)
Definition same_files (h h' : DsoHdr) : Prop :=
  file_info_vector h' = file_info_vector h /\ file_info_inode_map h' = file_info_inode_map h /\ dd_profiling_file_info h' = dd_profiling_file_info h /\
  dd_profiling_fd h' = dd_profiling_fd h /\ path_to_proc h' = path_to_proc h.

Section Ids.
Context (P : Dso -> Prop) (Pmove : forall d d', same_file_info d d' -> P d -> P d') (Pnew : forall pid f, P (dso_from_proc_line pid (Some f))).

Definition ids_in (m : DsoMap) : Prop := Forall (fun kv => P (snd kv)) m.

Lemma ids_modify m k f : ids_in m -> (forall d, same_file_info d (f d)) -> ids_in (map_modify k f m).
Proof.
  intros Hm Hf. apply Forall_fmap. eapply Forall_impl; [exact Hm|]. intros [k' d] Hd. cbn. destruct (k' =? k); cbn; [by eapply Pmove|done].
Qed.

Lemma ids_assign m k d : ids_in m -> P d -> ids_in (map_assign k d m).
Proof.
  intros Hm Hd. induction m as [|[k' d'] m IH]; cbn [map_assign]; [by apply Forall_singleton|]. apply Forall_cons in Hm as [Hd' Hm].
  destruct (k <? k'); [by repeat constructor|]. destruct (k =? k'); constructor; [done|done|done|by apply IH].
Qed.

Lemma ids_lookup m i k d : ids_in m -> m !! i = Some (k, d) -> P d.
Proof. intros Hm Hi. apply (Forall_lookup_1 _ _ _ _ Hm Hi). Qed.

Lemma ids_erase_front m a b d m' : ids_in m -> erase_front m a b d = Some m' -> ids_in m'.
Proof.
  intros Hm E. unfold erase_front in E. destruct (m !! a) as [[k f]|]; [|done]. destruct (_ && _); injection E as <-; apply Forall_app; split;
    (apply Forall_take || apply Forall_drop); try done; by apply ids_modify.
Qed.

Lemma ids_erase_range m r d m' : ids_in m -> erase_range m r d = Some m' -> ids_in m'.
Proof.
  intros Hm E. unfold erase_range in E. destruct r as [a b]. destruct (_ =? _)%nat; [by injection E as <-|].
  destruct (m !! (b - 1)%nat) as [[k l]|] eqn:El; [|done]. pose proof (ids_lookup _ _ _ _ Hm El) as Hl.
  assert (Hadj : forall x, P (adjust_start l x)) by (intros x; by eapply Pmove; [|exact Hl]).
  destruct (_ && _); [|by eapply ids_erase_front]. destruct (_ <? _).
  - injection E as <-. apply ids_modify; [by apply ids_assign|done].
  - cbv zeta in E. assert (Hm2 : forall x, ids_in (snd (map_insert x (adjust_start l x) (map_erase_at (b - 1) m)))).
    { intros x. assert (He : ids_in (map_erase_at (b - 1) m)) by (apply Forall_app; split; [by apply Forall_take|by apply Forall_drop]).
      unfold map_insert. destruct (map_has _ _); [done|]. by apply ids_assign. }
    specialize (Hm2 (d_end d +w 1)). destruct (map_insert _ _ _) as [ins m2]. cbn [snd] in Hm2. destruct (negb ins); [done|].
    destruct (_ =? _)%nat; [by injection E as <-|by eapply ids_erase_front].
Qed.

Lemma ids_insert s pm d r pm' s' : ids_in (pm_map pm) -> P d -> insert_erase_overlap_pm s pm d = Some (r, pm', s') -> ids_in (pm_map pm').
Proof.
  intros Hm Hd E. unfold insert_erase_overlap_pm in E.
  assert (Hadj : ids_in (snd (dso_find_adjust_same (pm_map pm) d))).
  { unfold dso_find_adjust_same. destruct (pm_map pm !! _) as [[k f]|] eqn:Ef; [|done]. unfold adjust_same.
    pose proof (ids_lookup _ _ _ _ Hm Ef) as Hf. destruct (is_same_or_smaller f d); cbn [snd]; apply Forall_insert; try done.
    by eapply Pmove; [|exact Hf]. }
  destruct (dso_find_adjust_same _ _) as [[it same] m]. cbn [snd] in Hadj. destruct same; [by injection E as <- <- <-|].
  destruct (erase_range _ _ _) as [m1|] eqn:Er; [|done]. apply ids_erase_range in Er; [|done].
  unfold map_insert in E. destruct (map_has _ _); injection E as <- <- <-; [done|]. by apply ids_assign.
Qed.

Lemma ids_lines s pm pid lines n pm' s' n' : ids_in (pm_map pm) -> backpopulate_lines s pm pid lines n = Some (pm', s', n') -> ids_in (pm_map pm').
Proof.
  revert s pm n. induction lines as [|l lines IH]; intros s pm n Hm E; cbn [backpopulate_lines] in E; [by injection E as <- <- <-|].
  cbv zeta in E. destruct l as [f|]; [|change (d_pid (dso_from_proc_line pid None) =? -1) with true in E; eapply IH; [exact Hm|exact E]]. destruct (_ =? -1); [by eapply IH|].
  destruct (insert_erase_overlap_pm _ _ _) as [[[ins pm1] s1]|] eqn:Ei; [|done]. eapply IH; [|exact E]. by eapply ids_insert.
Qed.

Lemma ids_backpopulate s pm pid now maps n0 ok n pm' s' : ids_in (pm_map pm) ->
  pid_backpopulate_pm s pm pid now maps n0 = Some (ok, n, pm', s') -> ids_in (pm_map pm').
Proof.
  intros Hm E. unfold pid_backpopulate_pm in E. cbv zeta in E. destruct (perm _) in E; [by injection E as <- <- <- <-|].
  destruct maps as [lines|]; [|by injection E as <- <- <- <-]. destruct (backpopulate_lines _ _ _ _ _) as [[[pm1 s1] n1]|] eqn:El; [|done].
  apply ids_lines in El; [|done..]. injection E as <- <- <- <-. by destruct (n1 =? 0).
Qed.

Definition hdr_ids (h : DsoHdr) : Prop := forall p pm, pid_map h !! p = Some pm -> ids_in (pm_map pm).

Lemma hdr_ids_get h p : hdr_ids h -> ids_in (pm_map (get_pid_mapping h p)).
Proof. intros H. unfold get_pid_mapping. destruct (pid_map h !! p) as [pm|] eqn:E; [by apply (H p)|constructor]. Qed.

Lemma hdr_ids_set h p pm : hdr_ids h -> ids_in (pm_map pm) -> hdr_ids (set_pid_map h (<[p := pm]> (pid_map h))).
Proof. intros H Hp q pm'. cbn [set_pid_map pid_map]. intros [[<- <-]|[_ Hq]]%lookup_insert_Some; [done|by apply (H q)]. Qed.

Lemma hdr_ids_backpopulate h pid now maps n0 ok n h' : hdr_ids h ->
  pid_backpopulate h pid now maps n0 = Some (ok, n, h') -> hdr_ids h' /\ same_files h h'.
Proof.
  intros H E. unfold pid_backpopulate in E. destruct (pid_backpopulate_pm _ _ _ _ _ _) as [[[[ok1 n1] pm1] s1]|] eqn:Ep; [|done].
  apply ids_backpopulate in Ep; [|by apply hdr_ids_get]. injection E as <- <- <-. split; [|done]. by apply (hdr_ids_set h pid pm1).
Qed.

Lemma hdr_ids_find h pid addr now maps it b h' : hdr_ids h ->
  dso_find_or_backpopulate h pid addr now maps = Some (it, b, h') -> hdr_ids h' /\ same_files h h'.
Proof.
  intros H E. unfold dso_find_or_backpopulate in E. cbv zeta in E. pose proof (hdr_ids_set h pid _ H (hdr_ids_get h pid H)) as H1.
  destruct (_ <? _); [by injection E as <- <- <-|]. destruct (dso_find_closest _ _) as [it1 []]; [by injection E as <- <- <-|].
  destruct (pid_backpopulate _ _ _ _ _) as [[[ok n] h1]|] eqn:Eb; [|done]. apply hdr_ids_backpopulate in Eb; [|done..].
  destruct (ok && _); [destruct (dso_find_closest _ _)|]; by injection E as <- <- <-.
Qed.

End Ids.

(** ** The table of the files *)

Definition valid_id (h : DsoHdr) (id : Z) : Prop := id <= k_file_info_error \/ (Z.to_nat id < length (file_info_vector h))%nat.

(** The identifier of a mapping is one of the table; the preloaded library has a path. *)
Definition dso_fine (h : DsoHdr) (d : Dso) : Prop := valid_id h (d_id d) /\ (d_type d = kDDProfiling -> after_last_slash (d_filename d) <> None).

Lemma dso_fine_move h d d' : same_file_info d d' -> dso_fine h d -> dso_fine h d'.
Proof. unfold dso_fine. by intros (-> & -> & ->). Qed.

Lemma dso_fine_new h pid f : dso_fine h (dso_from_proc_line pid (Some f)).
Proof.
  unfold dso_from_proc_line. cbv zeta. match goal with |- dso_fine _ (new_dso _ _ _ _ ?n _ _ _) => set (name := n) end. split; [by left|]. cbn [d_type d_filename new_dso]. unfold determine_dso_type.
  repeat (case_match; [done|]). destruct (after_last_slash name); done.
Qed.

(** Every file but the first has a path with a slash, and the identifiers lead to files. *)
Record files_fine (h : DsoHdr) : Prop := {
  ff_mappings : hdr_ids (dso_fine h) h;
  ff_keys : forall key id, file_info_inode_map h !! key = Some id -> valid_id h id;
  ff_dd : valid_id h (dd_profiling_file_info h);
  ff_paths : forall i v, file_info_vector h !! S i = Some v -> after_last_slash (fi_path (fiv_info v)) <> None;
  ff_first : (1 <= length (file_info_vector h))%nat
}.

Section Files.
Context (get_file_inode : string -> option (Z * Z)).
(** Files are looked up by their absolute paths. *)
Context (Hpaths : forall p x, get_file_inode p = Some x -> after_last_slash p <> None).

(** The table grows by at most one file. *)
Definition files_grow (n : nat) (h h' : DsoHdr) : Prop := (length (file_info_vector h) <= length (file_info_vector h') <= length (file_info_vector h) + n)%nat.

Lemma valid_id_grow h h' id : (length (file_info_vector h) <= length (file_info_vector h'))%nat -> valid_id h id -> valid_id h' id.
Proof. intros Hl [?|?]; [by left|right; lia]. Qed.

Lemma dso_fine_grow h h' d : (length (file_info_vector h) <= length (file_info_vector h'))%nat -> dso_fine h d -> dso_fine h' d.
Proof. intros Hl [? ?]. split; [by eapply valid_id_grow|done]. Qed.

Lemma find_file_info_path h dso : fi_inode (find_file_info get_file_inode h dso) <> 0 -> after_last_slash (fi_path (find_file_info get_file_inode h dso)) <> None.
Proof.
  unfold find_file_info. cbv zeta. set (p := (_ +:+ _)%string).
  assert (Hproc : fi_inode (match get_file_inode p with Some (inode, size) => mkFI p size inode | None => mkFI "" 0 0 end) <> 0 ->
    after_last_slash (fi_path (match get_file_inode p with Some (inode, size) => mkFI p size inode | None => mkFI "" 0 0 end)) <> None).
  { destruct (get_file_inode p) as [[i s]|] eqn:E; cbn; [intros _; by eapply Hpaths|done]. }
  destruct (get_file_inode (d_filename dso)) as [[i s]|] eqn:E; [|exact Hproc]. destruct (i =? d_inode dso); [intros _; cbn; by eapply Hpaths|exact Hproc].
Qed.

(** A change of the table that keeps its entries, or gives them a path. *)
Lemma files_fine_set h m v dd n : files_fine h -> (length (file_info_vector h) <= length v <= length (file_info_vector h) + n)%nat ->
  (forall i x, v !! S i = Some x -> after_last_slash (fi_path (fiv_info x)) <> None) ->
  (forall key id, m !! key = Some id -> id <= k_file_info_error \/ (Z.to_nat id < length v)%nat) -> (dd <= k_file_info_error \/ (Z.to_nat dd < length v)%nat) ->
  files_fine (set_files h m v dd) /\ files_grow n h (set_files h m v dd).
Proof.
  intros [H1 H2 H3 H4 H5] Hl Hp Hm Hdd. split; [split; cbn [set_files file_info_vector file_info_inode_map dd_profiling_file_info pid_map]; try done; [|lia]|done].
  intros p pm Hq. eapply Forall_impl; [exact (H1 p pm Hq)|]. intros kv Hkv. eapply dso_fine_grow; [|exact Hkv]. cbn. lia.
Qed.

Lemma push_id h : Z.of_nat (length (file_info_vector h)) + 1 < 2 ^ 31 -> i32 (Z.of_nat (length (file_info_vector h))) = Z.of_nat (length (file_info_vector h)).
Proof. intros H. apply i32_small. lia. Qed.

Lemma path_snoc h fi id : files_fine h -> after_last_slash (fi_path fi) <> None ->
  forall i x, (file_info_vector h ++ [mkFIV fi id]) !! S i = Some x -> after_last_slash (fi_path (fiv_info x)) <> None.
Proof.
  intros H Hp i x [Hi|[_ Hi]]%lookup_app_Some; [by eapply ff_paths|]. apply list_lookup_singleton_Some in Hi as [_ <-]. done.
Qed.

Lemma update_from_path_fine h dso : files_fine h -> Z.of_nat (length (file_info_vector h)) + 1 < 2 ^ 31 ->
  let '(id, h') := update_id_from_path get_file_inode h dso in files_fine h' /\ valid_id h' id /\ files_grow 1 h h'.
Proof.
  intros H Hl. unfold update_id_from_path. set (fi := find_file_info _ _ _). pose proof (find_file_info_path h dso) as Hp. fold fi in Hp.
  destruct (Z.eqb_spec (fi_inode fi) 0) as [|Hne]; [split; [done|]; split; [by left|unfold files_grow; lia]|]. specialize (Hp Hne).
  cbv zeta. destruct (file_info_inode_map h !! _) as [id|] eqn:Ek.
  - pose proof (ff_keys _ H _ _ Ek) as Hid. destruct (file_info_vector h !! Z.to_nat id) as [old|] eqn:Eo; [|split; [done|]; split; [done|unfold files_grow; lia]].
    destruct (bool_decide _); [split; [done|]; split; [done|unfold files_grow; lia]|].
    destruct (files_fine_set h (file_info_inode_map h) (<[Z.to_nat id := mkFIV fi id]> (file_info_vector h)) (dd_profiling_file_info h) 1 H) as [Hf Hg];
      [rewrite length_insert; lia| |intros key i Hi; rewrite length_insert; by apply (ff_keys _ H key)|rewrite length_insert; apply (ff_dd _ H)|].
    + intros i x [(_ & <- & _)|[_ Hi]]%list_lookup_insert_Some; [done|by eapply (ff_paths _ H)].
    + split; [done|]. split; [|done]. eapply valid_id_grow; [|exact Hid]. cbn. rewrite length_insert. lia.
  - rewrite push_id by done.
    destruct (files_fine_set h (<[(fi_inode fi, u64 (fi_size fi)) := Z.of_nat (length (file_info_vector h))]> (file_info_inode_map h))
      (file_info_vector h ++ [mkFIV fi (Z.of_nat (length (file_info_vector h)))]) (dd_profiling_file_info h) 1 H) as [Hf Hg];
      [rewrite length_app; cbn; lia|by apply path_snoc| |rewrite length_app; cbn; destruct (ff_dd _ H); [by left|right; lia]|].
    + intros key i [[_ <-]|[_ Hi]]%lookup_insert_Some; rewrite length_app; cbn; [right; lia|]. destruct (ff_keys _ H _ _ Hi); [by left|right; lia].
    + split; [done|]. split; [|done]. right. cbn. rewrite length_app. cbn. lia.
Qed.

Lemma files_fine_dd h dd : files_fine h -> valid_id h dd -> files_fine (set_dd h dd).
Proof. intros [H1 H2 H3 H4 H5] Hd. by split. Qed.

Lemma update_from_dso_fine h dso : files_fine h -> dso_fine h dso -> Z.of_nat (length (file_info_vector h)) + 1 < 2 ^ 31 ->
  let '(id, h') := update_id_from_dso get_file_inode h dso in files_fine h' /\ valid_id h' id /\ files_grow 1 h h'.
Proof.
  intros H [_ Hdso] Hl. unfold update_id_from_dso. destruct (negb _); [split; [done|]; split; [by left|unfold files_grow; lia]|].
  case_bool_decide as Hty; [|by apply update_from_path_fine]. specialize (Hdso Hty). unfold update_id_dd_profiling.
  destruct (negb _); [split; [done|]; split; [apply (ff_dd _ H)|unfold files_grow; lia]|]. destruct (negb _).
  - rewrite push_id by done.
    destruct (files_fine_set h (file_info_inode_map h) (file_info_vector h ++ [mkFIV (mkFI (d_filename dso) 0 0) (Z.of_nat (length (file_info_vector h)))])
      (Z.of_nat (length (file_info_vector h))) 1 H) as [Hf Hg]; [rewrite length_app; cbn; lia|by apply path_snoc|..].
    + intros key i Hi. rewrite length_app. destruct (ff_keys _ H _ _ Hi); [by left|right; lia].
    + rewrite length_app. cbn. right. lia.
    + split; [done|]. split; [|done]. right. cbn. rewrite length_app. cbn. lia.
  - pose proof (update_from_path_fine h dso H Hl) as Hu. destruct (update_id_from_path get_file_inode h dso) as [id h']. destruct Hu as (Hf & Hid & Hg).
    split; [by apply files_fine_dd|]. done.
Qed.

Lemma file_info_fine h dso : files_fine h -> dso_fine h dso -> Z.of_nat (length (file_info_vector h)) + 1 < 2 ^ 31 ->
  let '(id, h') := get_or_insert_file_info get_file_inode h dso in files_fine h' /\ valid_id h' id /\ files_grow 1 h h'.
Proof.
  intros H Hd Hl. unfold get_or_insert_file_info. destruct (negb _); [split; [done|]; split; [apply Hd|unfold files_grow; lia]|].
  apply (update_from_dso_fine (set_stats h (incr_metric (dh_stats h) kTargetDso (d_type dso))) dso); [|done|done].
  destruct H as [H1 H2 H3 H4 H5]. by split.
Qed.

End Files.
