(* ===== verification/UnwindFrames.v ===== *)
(** * The unwinder: stacks

    For any behaviour of libdwfl, every call of the frame callback is defined, keeps the tables
    and the mappings well-formed and adds at most one location, whose symbol and mapping are
    entries of the tables; the stack has room for the base frame. *)

From S2P Require Import Prelude Ddres LiveAlloc Dso DsoHdr JitDump Symbols ElfModule RuntimeSymbols SymbolTables Unwind UnwindProofs.

(** ** Locations *)

(** The index of a symbol of the table, fixed or of generated code. *)
Definition symbol_at (h : SymbolHdr) (i : Z) : Prop := (exists sym, fixed h i sym) \/ jit_at (symbol_table h) i.

(** A location has a symbol, or a file in which it is looked up later; and a mapping. *)
Definition loc_ok (h : SymbolHdr) (f : FunLoc) : Prop :=
  ((fl_symbol_idx f = k_symbol_idx_null /\ k_file_info_error < fl_file_info_id f) \/ symbol_at h (fl_symbol_idx f)) /\
  is_Some (entry (mapinfo_table h) (fl_map_info_idx f)).

Lemma symbol_at_later n h h' i : hdr_later n h h' -> symbol_at h i -> symbol_at h' i.
Proof. intros [A B _ _ _] [[sym H]|H]; [left; eauto|right; auto]. Qed.

Lemma entry_prefix {A} (t t' : list A) i : t `prefix_of` t' -> is_Some (entry t i) -> is_Some (entry t' i).
Proof. intros [x ->] [y Hy]. exists y. by apply entry_app. Qed.

Lemma loc_ok_later n h h' f : hdr_later n h h' -> loc_ok h f -> loc_ok h' f.
Proof.
  intros H [Hs Hm]. split; [|by eapply entry_prefix; [apply (hl_mapinfo _ _ _ H)|]]. destruct Hs as [?|?]; [by left|right; by eapply symbol_at_later].
Qed.

(** The calls that leave the base frames. *)
Definition not_base (o : symbol_op) : bool := match o with OBase _ _ _ | OClear _ => false | _ => true end.

Lemma not_base_keeps read_file alloc_entries h o i h' : not_base o = true -> symbol_exec read_file alloc_entries h o = Some (i, h') ->
  sy_base (sh_syms h') = sy_base (sh_syms h).
Proof.
  intros Ho E. destruct o; try done; cbn [symbol_exec] in E.
  - unfold hdr_common in E. destruct (common_get_or_insert _ _ _) as [[[? ?] ?]|]; simplify_eq; done.
  - unfold hdr_dso in E. destruct (dso_get_or_insert _ _ _ _ _) as [[? ?] ?]. simplify_eq. done.
  - unfold hdr_runtime in E. case_match; [|done]. destruct p as [[? ?] ?]. simplify_eq. done.
  - unfold hdr_mapinfo in E. destruct (mapinfo_get_or_insert _ _ _ _ _) as [[? ?] ?]. simplify_eq. done.
  - unfold hdr_empty_mapinfo in E. destruct (common_mapinfo_get_or_insert _ _) as [[? ?] ?]. simplify_eq. done.
  - simplify_eq. done.
Qed.

(** Storing a file info in a mapping. *)
Lemma set_id_wf pid key id m : map_wf pid m -> map_wf pid (map_modify key (fun d => set_id d id) m).
Proof.
  intros [W1 W2]. split.
  - apply Forall_fmap. eapply Forall_impl; [exact W1|]. intros [k' d'] Hk. cbn. by destruct (k' =? key).
  - clear W1. unfold map_modify. induction W2 as [|[k' d'] l W IH Hb]; cbn [map]; constructor; [done|]. apply Forall_fmap. eapply Forall_impl; [exact Hb|].
    intros [k2 d2] H2. unfold before in *. cbn in *. destruct (k' =? key), (k2 =? key); done.
Qed.

Section Frames.
Context {D : Type} (ops : Dwfl_ops D) (open_elf : string -> option (option Elf)) (get_file_inode : string -> option (Z * Z))
        (read_file : string -> option (list Z)) (alloc_entries : Z -> bool)
        (env : nat -> Z * option (list (option proc_fields))) (F : nat).
Context (Hfiles : files_ok read_file alloc_entries F)
        (Hpaths : forall p x, get_file_inode p = Some x -> after_last_slash p <> None)
        (Henv : forall n, maps_ok (snd (env n))).

(** ** Steps *)

Record uinv (u : ustate D) : Prop := {
  ui_wf : hdr_wf (un_dso u);
  ui_files : files_fine (un_dso u);
  ui_sym : hdr_inv (un_sym u);
  ui_locs : Forall (loc_ok (un_sym u)) (un_locs u)
}.

(** What the callback does to libdwfl itself. *)
Definition lib_step (d d' : D) : Prop := d' = snd (dwfl_errno ops d) \/ exists name path bias, d' = snd (dwfl_report_elf ops d name path bias).

(** From a state to a later one: at most [n] more entries of the tables, [k] more files and
    [added] more locations. *)
Record goes (n k added : nat) (u u' : ustate D) : Prop := {
  g_inv : uinv u';
  g_sym : hdr_later n (un_sym u) (un_sym u');
  g_files : files_grow k (un_dso u) (un_dso u');
  g_locs : exists fs, un_locs u' = un_locs u ++ fs /\ length fs = added;
  g_pid : un_pid u' = un_pid u;
  g_dwfl : forall d, dw_dwfl (un_wrapper u) = Some d -> exists d', dw_dwfl (un_wrapper u') = Some d' /\ rtc lib_step d d';
  g_base : sy_base (sh_syms (un_sym u')) = sy_base (sh_syms (un_sym u))
}.

Definition same_process (u u' : ustate D) : Prop := un_pid u' = un_pid u /\ sy_base (sh_syms (un_sym u')) = sy_base (sh_syms (un_sym u)).

Lemma goes_process n k a u u' : goes n k a u u' -> same_process u u'.
Proof. intros G. split; apply G. Qed.

Definition uroom (n k : nat) (u : ustate D) : Prop := hdr_room n (un_sym u) /\ Z.of_nat (length (file_info_vector (un_dso u)) + k) + 1 < 2 ^ 31.

Lemma goes_trans n k a n' k' a' u u1 u2 : goes n k a u u1 -> goes n' k' a' u1 u2 -> goes (n + n') (k + k') (a + a') u u2.
Proof.
  intros [I1 S1 F1 (f1 & L1 & E1) P1 D1 B1] [I2 S2 F2 (f2 & L2 & E2) P2 D2 B2]. split; [done|by eapply hdr_later_trans|unfold files_grow in *; lia|..].
  - exists (f1 ++ f2). rewrite L2, L1, app_assoc, length_app. split; [done|lia].
  - congruence.
  - intros d Hd. destruct (D1 d Hd) as (d1 & Hd1 & R1). destruct (D2 d1 Hd1) as (d2 & Hd2 & R2). exists d2. split; [done|by etrans].
  - congruence.
Qed.

Lemma hdr_later_le n n' h h' : hdr_later n h h' -> (n <= n')%nat -> hdr_later n' h h'.
Proof. intros [A B C E G] Hn. split; [done|done|done|lia|lia]. Qed.

Lemma goes_le n k n' k' a u u' : goes n k a u u' -> (n <= n')%nat -> (k <= k')%nat -> goes n' k' a u u'.
Proof. intros [I1 S1 F1 L1 P1 D1 B1] Hn Hk. split; try done; [by eapply hdr_later_le|unfold files_grow in *; lia]. Qed.

Lemma uroom_goes n k a m l u u' : uroom (n + m) (k + l) u -> goes n k a u u' -> uroom m l u'.
Proof. intros [[R1 R2] R3] [_ [_ _ _ S1 S2] F1 _ _ _ _]. unfold uroom, hdr_room, files_grow in *. lia. Qed.

Lemma uroom_le n k n' k' u : uroom n k u -> (n' <= n)%nat -> (k' <= k)%nat -> uroom n' k' u.
Proof. intros [[R1 R2] R3] Hn Hk. unfold uroom, hdr_room. lia. Qed.

(** A change of what the invariant does not speak about. *)
Lemma goes_same u u' : uinv u -> un_dso u' = un_dso u -> un_sym u' = un_sym u -> un_locs u' = un_locs u -> un_pid u' = un_pid u ->
  un_wrapper u' = un_wrapper u -> goes 0 0 0 u u'.
Proof.
  intros [A B C E] H1 H2 H3 H4 H5. split; [split; rewrite ?H1, ?H2, ?H3; done|rewrite H2; apply hdr_later_refl|rewrite H1; unfold files_grow; lia|..|done| |].
  - exists []. by rewrite H3, app_nil_r.
  - intros d Hd. exists d. split; [congruence|done].
  - by rewrite H2.
Qed.

(** A change of the symbols. *)
Lemma goes_with_sym n u h' : uinv u -> hdr_inv h' -> hdr_later n (un_sym u) h' -> sy_base (sh_syms h') = sy_base (sh_syms (un_sym u)) -> goes n 0 0 u (with_sym u h').
Proof.
  intros [A B C E] Hh Hl Hb. split; [split; try done|done|unfold files_grow; cbn; lia|exists []; by rewrite app_nil_r|done| |].
  - cbn [with_sym un_sym un_locs]. eapply Forall_impl; [exact E|]. intros f Hf. by eapply loc_ok_later.
  - intros d Hd. by exists d.
  - done.
Qed.

(** A lookup. *)
Lemma sym_call u o : not_base o = true -> uinv u -> hdr_room (S F) (un_sym u) ->
  exists i h', symbol_exec read_file alloc_entries (un_sym u) o = Some (i, h') /\ op_result h' o i /\ goes (S F) 0 0 u (with_sym u h').
Proof.
  intros Ho Hu Hr. destruct (symbol_exec_spec read_file alloc_entries F (un_sym u) o Hfiles (ui_sym _ Hu) Hr) as (i & h' & E & Hi & Hres & Hl).
  exists i, h'. split; [done|]. split; [done|]. apply goes_with_sym; [done..|]. by eapply not_base_keeps.
Qed.

(** A change of the mappings. *)
Lemma goes_with_dso k u h' : uinv u -> hdr_wf h' -> files_fine h' -> files_grow k (un_dso u) h' -> goes 0 k 0 u (with_dso u h').
Proof.
  intros [A B C E] Hw Hf Hg. split; [by split|apply hdr_later_refl|done|exists []; by rewrite app_nil_r|done| |done]. intros d Hd. by exists d.
Qed.

Lemma goes_push u f : uinv u -> loc_ok (un_sym u) f -> goes 0 0 1 u (with_locs u (un_locs u ++ [f])).
Proof.
  intros [A B C E] Hf. split; [split; try done|apply hdr_later_refl|unfold files_grow; cbn; lia|by exists [f]|done| |].
  - cbn [with_locs un_locs un_sym]. apply Forall_app. split; [done|by apply Forall_singleton].
  - intros d Hd. by exists d.
  - done.
Qed.

(** ** Frames *)

Abbreviation shallow u := (length (un_locs u) < max_depth)%nat.

Lemma add_frame_spec sym_idx file_id map_idx pc elf u : uinv u -> uroom (S F) 0 u -> shallow u ->
  (sym_idx = k_symbol_idx_null /\ k_file_info_error < file_id) \/ symbol_at (un_sym u) sym_idx ->
  map_idx = k_mapinfo_idx_null \/ is_Some (entry (mapinfo_table (un_sym u)) map_idx) ->
  exists u', add_frame sym_idx file_id map_idx pc elf u = (ddres_init, u') /\ goes (S F) 0 1 u u'.
Proof.
  intros Hu [Hr _] Hd Hsym Hmap. unfold add_frame. rewrite (proj2 (Nat.leb_gt _ _)) by done.
  destruct (Z.eqb_spec map_idx k_mapinfo_idx_null) as [->|Hne].
  - destruct (sym_call u OEmptyMapInfo eq_refl Hu Hr) as (i & h' & E & Hres & Hg). cbn [symbol_exec op_result] in E, Hres. injection E as E. rewrite E.
    eexists. split; [done|]. replace (S F) with (S F + 0)%nat by lia. apply (goes_trans _ 0 0 _ 0 1 _ _ _ Hg).
    apply (goes_push (with_sym u h')); [apply Hg|]. split; [|by eexists]. cbn [fl_symbol_idx fl_file_info_id]. destruct Hsym as [?|?]; [by left|right].
    eapply symbol_at_later; [apply (g_sym _ _ _ _ _ Hg)|done].
  - eexists. split; [done|]. apply (goes_le 0 0); [|lia|lia]. destruct Hmap as [?|Hmap]; [done|].
    assert (Hsame : goes 0 0 0 u (with_sym u (un_sym u))) by (by apply goes_same). apply (goes_trans 0 0 0 0 0 1 _ _ _ Hsame).
    by apply (goes_push (with_sym u (un_sym u))); [apply Hsame|].
Qed.

Lemma add_without_mapping_spec u i : uinv u -> uroom (S F) 0 u -> shallow u -> symbol_at (un_sym u) i -> goes (S F) 0 1 u (add_frame_without_mapping u i).
Proof.
  intros Hu Hr Hd Hi. unfold add_frame_without_mapping.
  destruct (add_frame_spec i k_file_info_undef k_mapinfo_idx_null 0 0 u Hu Hr Hd) as (u' & -> & Hg); [by right|by left|done].
Qed.

(** A lookup whose symbol becomes a location without a mapping. *)
Lemma call_and_add u o i h' n k : uinv u -> uroom (2 * S F + n) k u -> shallow u -> op_result h' o i -> goes (S F) 0 0 u (with_sym u h') ->
  symbol_at h' i -> goes (2 * S F) 0 1 u (add_frame_without_mapping (with_sym u h') i).
Proof.
  intros Hu Hr Hd Hres Hg Hi. replace (2 * S F)%nat with (S F + S F)%nat by lia. apply (goes_trans _ 0 0 _ 0 1 _ _ _ Hg).
  apply add_without_mapping_spec; [apply Hg| |done|done]. eapply (uroom_goes (S F) 0 0); [|exact Hg]. eapply uroom_le; [exact Hr|lia|lia].
Qed.

Lemma add_common_frame_spec u c n k : uinv u -> uroom (2 * S F + n) k u -> shallow u ->
  exists u', add_common_frame u c = Some u' /\ goes (2 * S F) 0 1 u u'.
Proof.
  intros Hu Hr Hd. destruct (sym_call u (OCommon c) eq_refl Hu) as (i & h' & E & Hres & Hg); [by destruct (uroom_le _ _ (S F) 0 _ Hr ltac:(lia) ltac:(lia))|].
  cbn [symbol_exec] in E. unfold add_common_frame. rewrite E. eexists. split; [done|]. eapply call_and_add; try done.
  destruct Hres as (sym & ? & _). left. eauto.
Qed.

Lemma add_dso_frame_spec u dso a ty n k : uinv u -> uroom (2 * S F + n) k u -> shallow u -> goes (2 * S F) 0 1 u (add_dso_frame u dso a ty).
Proof.
  intros Hu Hr Hd. destruct (sym_call u (ODso a dso ty) eq_refl Hu) as (i & h' & E & Hres & Hg); [by destruct (uroom_le _ _ (S F) 0 _ Hr ltac:(lia) ltac:(lia))|].
  cbn [symbol_exec] in E. injection E as E. unfold add_dso_frame. rewrite E. eapply call_and_add; try done.
  destruct Hres as (sym & ? & _). left. eauto.
Qed.

Lemma add_error_frame_spec dso u c n k : uinv u -> uroom (2 * S F + n) k u -> shallow u ->
  exists u', add_error_frame dso u c = Some u' /\ goes (2 * S F) 0 1 u u'.
Proof.
  intros Hu Hr Hd. destruct dso as [dso|]; cbn [add_error_frame]; [|by eapply add_common_frame_spec]. eexists. split; [done|]. by eapply add_dso_frame_spec.
Qed.

(** A mapping and a location in it. *)
Lemma add_mapped_spec u dso b sym_idx file_id pc elf n k : uinv u -> uroom (2 * S F + n) k u -> shallow u ->
  (sym_idx = k_symbol_idx_null /\ k_file_info_error < file_id) \/ symbol_at (un_sym u) sym_idx ->
  exists u', (let '(map_idx, sym) := hdr_mapinfo (un_sym u) (un_pid u) dso b in add_frame sym_idx file_id map_idx pc elf (with_sym u sym)) = (ddres_init, u') /\
    goes (2 * S F) 0 1 u u'.
Proof.
  intros Hu Hr Hd Hsym. destruct (sym_call u (OMapInfo (un_pid u) dso b) eq_refl Hu) as (i & h' & E & (mi & Hmi & _) & Hg);
    [by destruct (uroom_le _ _ (S F) 0 _ Hr ltac:(lia) ltac:(lia))|]. cbn [symbol_exec] in E. injection E as E. rewrite E.
  destruct (add_frame_spec sym_idx file_id i pc elf (with_sym u h')) as (u' & -> & Hg').
  - apply Hg.
  - eapply (uroom_goes (S F) 0 0); [|exact Hg]. eapply uroom_le; [exact Hr|lia|lia].
  - done.
  - destruct Hsym as [?|?]; [by left|right]. eapply symbol_at_later; [apply (g_sym _ _ _ _ _ Hg)|done].
  - right. by eexists.
  - exists u'. split; [done|]. replace (2 * S F)%nat with (S F + S F)%nat by lia. by apply (goes_trans _ 0 0 _ 0 1 _ _ _ Hg).
Qed.

Lemma add_runtime_frame_spec u dso pc path n k : uinv u -> uroom (3 * S F + n) k u -> shallow u ->
  exists u', add_runtime_symbol_frame read_file alloc_entries u dso pc path = Some (ddres_init, u') /\ goes (3 * S F) 0 1 u u'.
Proof.
  intros Hu Hr Hd. destruct (sym_call u (ORuntime (d_pid dso) pc path) eq_refl Hu) as (i & h' & E & Hres & Hg);
    [by destruct (uroom_le _ _ (S F) 0 _ Hr ltac:(lia) ltac:(lia))|]. cbn [symbol_exec] in E. unfold add_runtime_symbol_frame. rewrite E.
  assert (Hr' : uroom (2 * S F + n) k (with_sym u h')).
  { eapply (uroom_goes (S F) 0 0); [|exact Hg]. eapply uroom_le; [exact Hr|lia|lia]. }
  replace (3 * S F)%nat with (S F + 2 * S F)%nat by lia. destruct (Z.eqb_spec i k_symbol_idx_null) as [|Hne].
  - eexists. split; [done|]. apply (goes_trans _ 0 0 _ 0 1 _ _ _ Hg). eapply add_dso_frame_spec; [apply Hg|exact Hr'|done].
  - destruct (add_mapped_spec (with_sym u h') dso None i k_file_info_undef pc (u64 (pc - d_start dso + d_offset dso)) n k) as (u' & Ea & Hg'); [apply Hg|done|done|..].
    + right. destruct Hres as [?|Hj]; [done|by right].
    + exists u'. revert Ea. destruct (hdr_mapinfo _ _ _ _) as [mi sy]. intros Ea. rewrite Ea. split; [done|]. by apply (goes_trans _ 0 0 _ 0 1 _ _ _ Hg).
Qed.

(** ** Modules *)

Lemma goes_wrapper u w : uinv u -> (forall d, dw_dwfl (un_wrapper u) = Some d -> exists d', dw_dwfl w = Some d' /\ rtc lib_step d d') ->
  goes 0 0 0 u (with_wrapper u w).
Proof.
  intros [A B C E] Hd. split; [by split|apply hdr_later_refl|unfold files_grow; cbn; lia|exists []; by rewrite app_nil_r|done|done|done].
Qed.

Lemma report_module_spec d pc dso file errored : after_last_slash (fi_path (fiv_info file)) <> None ->
  exists res m d' e, report_module (dwfl_errno ops) (dwfl_addrmodule ops) (dwfl_report_elf ops) open_elf d pc dso file errored = Some (res, m, d', e) /\
    rtc lib_step d d'.
Proof.
  intros Hp. unfold report_module. cbv zeta. destruct (after_last_slash _) as [name|]; [|done].
  assert (He : rtc lib_step d (snd (dwfl_errno ops d))) by (apply rtc_once; by left).
  destruct errored; [by do 4 eexists|]. destruct (dwfl_addrmodule ops d pc); [by do 4 eexists|]. destruct (open_elf _) as [[elf|]|]; [|by do 4 eexists|by do 4 eexists].
  destruct (compute_elf_bias elf dso pc) as [r|bias]; [by do 4 eexists|]. destruct (dwfl_report_elf ops _ _ _ _) as [range d'] eqn:Er.
  assert (Hd' : rtc lib_step d d') by (eapply rtc_r; [exact He|]; right; do 3 eexists; by rewrite Er).
  destruct range as [[lo hi]|]; by do 4 eexists.
Qed.

Lemma register_mod_spec u pc dso file : uinv u -> after_last_slash (fi_path (fiv_info file)) <> None ->
  exists res m u', register_mod ops open_elf u pc dso file = Some (res, m, u') /\ goes 0 0 0 u u'.
Proof.
  intros Hu Hp. unfold register_mod. cbv zeta. destruct (dw_dwfl (un_wrapper u)) as [d|] eqn:Ed; [|do 3 eexists; split; [done|by apply goes_same]].
  destruct (negb _); [do 3 eexists; split; [done|by apply goes_same]|].
  destruct (report_module_spec d pc dso file (bool_decide (fiv_id file ∈ un_errored u)) Hp) as (res & m & d' & e & -> & Hr).
  set (u1 := with_errored u _). assert (G1 : goes 0 0 0 u u1) by (by apply goes_same).
  destruct (IsDDResNotOK res); do 3 eexists; (split; [done|]); apply (goes_trans 0 0 0 0 0 0 _ _ _ G1); apply goes_wrapper; try apply G1;
    intros d0 Hd0; change (un_wrapper u1) with (un_wrapper u) in Hd0; rewrite Ed in Hd0; injection Hd0 as <-; by exists d'.
Qed.

(** ** Mappings *)

Lemma same_files_fine h h' : same_files h h' -> hdr_ids (dso_fine h) h' -> files_fine h -> files_fine h'.
Proof.
  intros (E1 & E2 & E3 & _) Hi [H1 H2 H3 H4 H5]. assert (Hv : forall id, valid_id h id -> valid_id h' id) by (intros id; unfold valid_id; by rewrite E1).
  split; rewrite ?E1, ?E2, ?E3; auto.
  - intros p pm Hp. eapply Forall_impl; [exact (Hi p pm Hp)|]. intros kv [? ?]. split; auto.
  - intros key id Hk. apply Hv. eauto.
Qed.

Lemma find_lookup h pid pc now maps it h' : dso_find_or_backpopulate h pid pc now maps = Some (it, true, h') ->
  exists k d, pm_map (get_pid_mapping h' pid) !! it = Some (k, d).
Proof.
  intros E. unfold dso_find_or_backpopulate in E. cbv zeta in E. destruct (_ <? _); [done|].
  assert (Hc : forall m it, dso_find_closest m pc = (it, true) -> exists k d, m !! it = Some (k, d)).
  { intros m it0. unfold dso_find_closest. destruct (upper_bound m pc) as [|i]; [done|]. intros [= <- Hw]. destruct (m !! i) as [[k d]|]; [by exists k, d|done]. }
  destruct (dso_find_closest _ _) as [it1 b] eqn:Ec. destruct b.
  - injection E as <- <-. apply Hc in Ec. unfold get_pid_mapping at 1. cbn [set_pid_map pid_map]. by rewrite lookup_insert_eq.
  - destruct (pid_backpopulate _ _ _ _ _) as [[[ok n] h1]|]; [|done]. destruct (ok && _); [|done].
    destruct (dso_find_closest (pm_map (get_pid_mapping h1 pid)) pc) as [it2 b] eqn:Ec2. injection E as -> -> ->. by apply Hc.
Qed.

(** The file of a mapping that was found. *)
Lemma file_info_of_spec u key dso n k : uinv u -> uroom n (1 + k) u -> dso_fine (un_dso u) dso ->
  let '(id, u') := file_info_of get_file_inode u key dso in
  goes 0 1 0 u u' /\ un_wrapper u' = un_wrapper u /\ (k_file_info_error < id -> exists file, file_info_vector (un_dso u') !! Z.to_nat id = Some file /\ after_last_slash (fi_path (fiv_info file)) <> None).
Proof.
  intros Hu [_ Hr] Hd. unfold file_info_of. pose proof (file_info_fine get_file_inode Hpaths (un_dso u) dso (ui_files _ Hu) Hd ltac:(lia)) as Hf.
  pose proof (file_info_map get_file_inode (un_dso u) dso) as Hmap. destruct (get_or_insert_file_info get_file_inode (un_dso u) dso) as [id h]. cbn [snd] in Hmap.
  destruct Hf as (Hf & Hid & Hg). cbv zeta. set (pm := mkPM (map_modify _ _ _) _ _).
  assert (Hwf : hdr_wf h) by (by eapply hdr_wf_map; [apply Hu|]).
  assert (Hpm : map_wf (un_pid u) (pm_map pm)) by (apply set_id_wf, get_pid_mapping_wf, Hwf).
  assert (Hids : ids_in (dso_fine h) (pm_map pm)).
  { unfold pm. cbn [pm_map]. apply Forall_fmap. eapply Forall_impl; [apply (hdr_ids_get _ h (un_pid u) (ff_mappings _ Hf))|]. intros [k' d'] [Hk1 Hk2]. cbn.
    destruct (k' =? key); [by split|by split]. }
  set (h' := set_pid_map h (<[un_pid u := pm]> (pid_map h))).
  assert (Hf' : files_fine h') by (apply (same_files_fine h); [done|by apply hdr_ids_set; [apply Hf|]|done]).
  assert (G : goes 0 1 0 u (with_dso u h')) by (apply goes_with_dso; [done|apply (hdr_wf_insert h _ _ Hwf Hpm (dh_stats h))|done|exact Hg]).
  split; [|split; [done|]].
  - apply (goes_trans 0 1 0 0 0 0 _ _ _ G). apply goes_same; [apply G|done..].
  - intros Hpos. unfold with_errored. cbn [un_dso with_dso]. change (file_info_vector h') with (file_info_vector h).
    destruct Hid as [?|Hlt]; [lia|]. apply lookup_lt_is_Some_2 in Hlt as [file Hfile]. exists file. split; [done|].
    destruct (Z.to_nat id) as [|i] eqn:Ei; [unfold k_file_info_error in Hpos; lia|]. by apply (ff_paths _ Hf i).
Qed.

(** ** One frame *)

Lemma new_ok h pid f : dso_fine h (dso_from_proc_line pid (Some f)).
Proof. apply dso_fine_new. Qed.

(** Mappings that were read, while the table of the files stays. *)
Lemma goes_read u h' : uinv u -> hdr_wf h' -> hdr_ids (dso_fine (un_dso u)) h' /\ same_files (un_dso u) h' -> goes 0 0 0 u (next_read (with_dso u h')).
Proof.
  intros Hu Hw [Hi Hs]. assert (G : goes 0 0 0 u (with_dso u h')).
  { apply goes_with_dso; [done|done|by apply (same_files_fine (un_dso u)); [..|apply Hu]|]. unfold files_grow. rewrite (proj1 Hs). lia. }
  apply (goes_trans 0 0 0 0 0 0 _ _ _ G). apply goes_same; [apply G|done..].
Qed.

Lemma find_goes u pc : uinv u ->
  exists it b h', dso_find_or_backpopulate (un_dso u) (un_pid u) pc (fst (env (un_reads u))) (snd (env (un_reads u))) = Some (it, b, h') /\
    goes 0 0 0 u (next_read (with_dso u h')).
Proof.
  intros Hu. destruct (hdr_exec_spec get_file_inode (un_dso u) (HFind (un_pid u) pc (fst (env (un_reads u))) (snd (env (un_reads u)))) (ui_wf _ Hu) (Henv _)) as (h1 & E & Hw).
  cbn [hdr_exec] in E. destruct (dso_find_or_backpopulate _ _ _ _ _) as [[[it b] h']|] eqn:Ef; [|done]. injection E as ->. exists it, b, h1. split; [done|].
  apply goes_read; [done|done|]. eapply hdr_ids_find; [apply dso_fine_move|apply new_ok|apply (ff_mappings _ (ui_files _ Hu))|exact Ef].
Qed.

Lemma backpopulate_goes u : uinv u ->
  exists ok n h', pid_backpopulate (un_dso u) (un_pid u) (fst (env (un_reads u))) (snd (env (un_reads u))) 0 = Some (ok, n, h') /\
    goes 0 0 0 u (next_read (with_dso u h')).
Proof.
  intros Hu. destruct (pid_backpopulate_spec (un_dso u) (un_pid u) (fst (env (un_reads u))) (snd (env (un_reads u))) 0 (ui_wf _ Hu) (Henv _)) as (ok & n & h' & E & Hw).
  exists ok, n, h'. split; [done|]. apply goes_read; [done|done|].
  eapply hdr_ids_backpopulate; [apply dso_fine_move|apply new_ok|apply (ff_mappings _ (ui_files _ Hu))|exact E].
Qed.

Definition search_outcome (u : ustate D) (r : module_search) : Prop :=
  match r with
  | Returned res u' => res = ddres_init /\ goes (3 * S F) 1 1 u u'
  | Module _ _ id u' => k_file_info_error < id /\ goes 0 1 0 u u'
  | Retry u' | NoModule u' => goes 0 1 0 u u'
  end.

Abbreviation search := (search_module ops open_elf get_file_inode read_file alloc_entries env).

(** The module of a file that was found. *)
Lemma search_file u pc first dso id file n k : uinv u -> uroom n k u -> after_last_slash (fi_path (fiv_info file)) <> None -> k_file_info_error < id ->
  exists r, module_of_file ops open_elf env u pc first dso id file = Some r /\
    match r with Returned _ _ => False | Module _ _ id u' => k_file_info_error < id /\ goes 0 0 0 u u' | Retry u' | NoModule u' => goes 0 0 0 u u' end.
Proof.
  intros Hu Hr Hp Hid. unfold module_of_file. destruct (unsafe_get (un_wrapper u) id) as [m|]; [eexists; split; [done|]; split; [done|by apply goes_same]|].
  destruct (register_mod_spec u pc dso file Hu Hp) as (res & m & u1 & -> & G1). destruct m as [m|]; [by eexists|]. destruct first; [|by eexists].
  destruct (env (un_reads u1)) as [now maps] eqn:Eenv. destruct (backpopulate_goes u1 (g_inv _ _ _ _ _ G1)) as (ok & n' & h' & E & G2). rewrite Eenv in E. cbn [fst snd] in E.
  rewrite E. pose proof (goes_trans 0 0 0 0 0 0 _ _ _ G1 G2) as G. cbv zeta. destruct (ok && _); eexists; (split; [done|]); [|done].
  apply (goes_trans 0 0 0 0 0 0 _ _ _ G). apply goes_same; [apply G|done..].
Qed.

Lemma search_module_spec u pc first n k : uinv u -> uroom (3 * S F + n) (1 + k) u -> shallow u ->
  exists r, search u pc first = Some r /\ search_outcome u r.
Proof.
  intros Hu Hr Hd. unfold search_module. destruct (env (un_reads u)) as [now maps] eqn:Eenv.
  destruct (find_goes u pc Hu) as (it & b & h & E & G1). rewrite Eenv in E. cbn [fst snd] in E. rewrite E. cbv zeta.
  set (u1 := next_read (with_dso u h)) in *. assert (Hr1 : uroom (3 * S F + n) (1 + k) u1) by (eapply (uroom_goes 0 0 0); [exact Hr|exact G1]).
  assert (Hd1 : shallow u1) by exact Hd. assert (Hu1 : uinv u1) by apply G1.
  assert (Hret : forall res u2, res = ddres_init -> goes (3 * S F) 0 1 u1 u2 -> search_outcome u (Returned res u2)).
  { intros res u2 -> G2. split; [done|]. apply (goes_le (0 + 3 * S F) (0 + 0)); [|lia|lia]. apply (goes_trans 0 0 0 (3 * S F) 0 1 _ _ _ G1 G2). }
  destruct b; cbn [negb].
  - destruct (find_lookup _ _ _ _ _ _ _ E) as (kd & dso & Ek). change (un_pid u1) with (un_pid u). rewrite Ek.
    destruct (has_runtime_symbols dso).
    + destruct (add_runtime_frame_spec u1 dso pc (jitdump_path_of (get_pid_mapping h (un_pid u))) n (1 + k) Hu1 Hr1 Hd1) as (u2 & -> & G2).
      eexists. split; [done|]. by apply Hret.
    + assert (Hdso : dso_fine (un_dso u1) dso).
      { eapply ids_lookup; [|exact Ek]. apply (hdr_ids_get _ h (un_pid u)). apply (ff_mappings _ (ui_files _ Hu1)). }
      pose proof (file_info_of_spec u1 (d_start dso) dso _ _ Hu1 Hr1 Hdso) as Hf. destruct (file_info_of get_file_inode u1 (d_start dso) dso) as [id u2].
      destruct Hf as (G2 & Ew & Hfile). pose proof (goes_trans 0 0 0 0 1 0 _ _ _ G1 G2) as G12.
      destruct (Z.leb_spec id k_file_info_error) as [|Hpos].
      * eexists. split; [done|]. split; [done|]. apply (goes_le (0 + 2 * S F) (1 + 0)); [|lia|lia]. apply (goes_trans 0 1 0 (2 * S F) 0 1 _ _ _ G12).
        apply (add_dso_frame_spec u2 dso pc "pc" n 0); [apply G2| |].
        -- eapply (uroom_goes 0 1 0); [|exact G2]. eapply uroom_le; [exact Hr1|lia|lia].
        -- destruct (g_locs _ _ _ _ _ G2) as (fs & -> & Hfs). rewrite length_app, Hfs. unfold max_depth in *. lia.
      * destruct (Hfile Hpos) as (file & -> & Hp). destruct (search_file u2 pc first dso id file n 0 (g_inv _ _ _ _ _ G2)) as (r & -> & Hout); [|done|done|].
        -- eapply (uroom_goes 0 1 0); [|exact G2]. eapply uroom_le; [exact Hr1|lia|lia].
        -- eexists. split; [done|]. destruct r; [done|destruct Hout as [? Hout]; split; [done|]|..]; by apply (goes_trans 0 1 0 0 0 0 _ _ _ G12).
  - destruct (add_error_frame_spec None u1 unknown_mapping (S F + n) (1 + k) Hu1) as (u2 & -> & G2); [eapply uroom_le; [exact Hr1|lia|lia]|done|].
    eexists. split; [done|]. apply Hret; [done|]. eapply goes_le; [exact G2|lia|lia].
Qed.

Lemma goes_shallow n k u u' : goes n k 0 u u' -> shallow u -> shallow u'.
Proof. intros G Hd. destruct (g_locs _ _ _ _ _ G) as (fs & -> & Hfs). rewrite length_app, Hfs. lia. Qed.

Lemma add_module_frame_spec u dso m id d n k : uinv u -> dw_dwfl (un_wrapper u) = Some d -> uroom (2 * S F + n) k u -> shallow u -> k_file_info_error < id ->
  exists u', add_module_frame ops u dso m id = Some (ddres_init, u') /\ goes (2 * S F) 0 1 u u'.
Proof.
  intros Hu Ed Hr Hd Hid. unfold add_module_frame. rewrite Ed. destruct (dwfl_frame_pc_activation ops d) as [[pc act]|].
  - cbv zeta. set (pc' := if act then pc else pc -w 1). set (u1 := with_ip u pc').
    assert (G1 : goes 0 0 0 u u1) by (by apply goes_same).
    destruct (add_mapped_spec u1 dso (Some (mod_build_id m)) k_symbol_idx_null id pc' (pc' -w mod_sym_bias m) n k) as (u' & Ea & G2); [apply G1|exact Hr|exact Hd|by left|].
    unfold add_unsymbolized_frame. rewrite Ea. exists u'. split; [done|]. apply (goes_trans 0 0 0 (2 * S F) 0 1 _ _ _ G1 G2).
  - destruct (add_error_frame_spec None u unwind_failure n k Hu Hr Hd) as (u' & -> & G). by exists u'.
Qed.

Lemma after_search_spec u r d n k : search_outcome u r -> dw_dwfl (un_wrapper u) = Some d -> uroom (3 * S F + n) (1 + k) u -> shallow u ->
  exists res u', after_search ops r = Some (res, u') /\
    (goes (3 * S F) 1 1 u u' \/ (goes (3 * S F) 1 0 u u' /\ IsDDResOK res = false)).
Proof.
  intros Ho Ed Hr Hd. destruct r as [res u1|dso m id u1|u1|u1]; cbn [search_outcome after_search] in *.
  - destruct Ho as [-> G]. do 2 eexists. split; [done|by left].
  - destruct Ho as [Hid G]. destruct (g_dwfl _ _ _ _ _ G d Ed) as (d1 & Ed1 & _).
    destruct (add_module_frame_spec u1 dso m id d1 n 0) as (u2 & -> & G2);
      [apply G|done|eapply (uroom_goes 0 1 0); [|exact G]; eapply uroom_le; [exact Hr|lia|lia]|by eapply goes_shallow|done|].
    do 2 eexists. split; [done|]. left. eapply goes_le; [exact (goes_trans 0 1 0 (2 * S F) 0 1 _ _ _ G G2)|lia|lia].
  - do 2 eexists. split; [done|]. right. split; [|done]. eapply goes_le; [exact Ho|lia|lia].
  - do 2 eexists. split; [done|]. right. split; [|done]. eapply goes_le; [exact Ho|lia|lia].
Qed.

(** What one call of [add_symbol] does: nothing at the end of the stack, or one location, or it stops. *)
Definition symbol_outcome (u : ustate D) (res : DDRes) (u' : ustate D) : Prop :=
  (goes 0 0 0 u u' /\ exists d, dw_dwfl (un_wrapper u) = Some d /\ dwfl_frame_pc ops d = Some 0) \/
  goes (3 * S F) 2 1 u u' \/ (goes (3 * S F) 2 0 u u' /\ IsDDResOK res = false).

Abbreviation step := (add_symbol ops open_elf get_file_inode read_file alloc_entries env).

Lemma add_symbol_spec u d n k : uinv u -> dw_dwfl (un_wrapper u) = Some d -> uroom (3 * S F + n) (2 + k) u -> shallow u ->
  exists res u', step u = Some (res, u') /\ symbol_outcome u res u' /\ ((510 <= length (un_locs u))%nat -> IsDDResOK res = false).
Proof.
  intros Hu Ed Hr Hd. unfold add_symbol. destruct (is_max_stack_depth_reached u) eqn:Emax.
  - destruct (add_common_frame_spec u truncated_stack (S F + n) (2 + k) Hu) as (u1 & -> & G); [eapply uroom_le; [exact Hr|lia|lia]|done|].
    do 2 eexists. split; [done|]. split; [|done]. right. left. eapply goes_le; [|instantiate (1 := (2 * S F)%nat); lia|instantiate (1 := 0%nat); lia].
    replace (2 * S F)%nat with (2 * S F + 0)%nat by lia. apply (goes_trans (2 * S F) 0 1 0 0 0 _ u1 _ G). apply goes_same; [apply G|done..].
  - assert (Hlt : (length (un_locs u) < 510)%nat) by (unfold is_max_stack_depth_reached, max_depth in Emax; apply Nat.leb_gt in Emax; lia).
    rewrite Ed. destruct (dwfl_frame_pc ops d) as [pc|] eqn:Epc.
    2: { destruct (add_error_frame_spec None u unwind_failure (S F + n) (2 + k) Hu) as (u1 & -> & G); [eapply uroom_le; [exact Hr|lia|lia]|done|].
         do 2 eexists. split; [done|]. split; [right; left; eapply goes_le; [exact G|lia|lia]|lia]. }
    cbv zeta. set (u1 := with_dso (with_ip u pc) _).
    assert (G1 : goes 0 0 0 u u1).
    { assert (G0 : goes 0 0 0 u (with_ip u pc)) by (by apply goes_same). apply (goes_trans 0 0 0 0 0 0 _ _ _ G0). apply goes_with_dso; [apply G0|..].
      - apply (hdr_wf_insert (un_dso u) _ _ (ui_wf _ Hu) (get_pid_mapping_wf _ _ (ui_wf _ Hu)) (dh_stats (un_dso u))).
      - apply (same_files_fine (un_dso u)); [done| |apply Hu]. apply hdr_ids_set; [apply (ui_files _ Hu)|apply hdr_ids_get, (ui_files _ Hu)].
      - unfold files_grow. cbn. lia. }
    destruct (Z.eqb_spec pc 0) as [->|Hpc].
    { do 2 eexists. split; [done|]. split; [left; split; [done|by exists d]|lia]. }
    assert (Hr1 : uroom (3 * S F + n) (2 + k) u1) by (eapply (uroom_goes 0 0 0); [exact Hr|exact G1]).
    assert (Ed1 : dw_dwfl (un_wrapper u1) = Some d) by exact Ed.
    assert (Hfin : forall r u2, search_outcome u2 r -> goes 0 1 0 u u2 \/ goes 0 0 0 u u2 -> dw_dwfl (un_wrapper u2) <> None -> exists res u',
      after_search ops r = Some (res, u') /\ symbol_outcome u res u' /\ ((510 <= length (un_locs u))%nat -> IsDDResOK res = false)).
    { intros r u2 Ho G2 Hd2. destruct (dw_dwfl (un_wrapper u2)) as [d2|] eqn:Ed2; [|done].
      assert (G2' : goes 0 1 0 u u2) by (destruct G2 as [?|?]; [done|eapply goes_le; [done|lia|lia]]).
      destruct (after_search_spec u2 r d2 n k Ho Ed2) as (res & u3 & E & Hout); [eapply (uroom_goes 0 1 0); [|exact G2']; eapply uroom_le; [exact Hr|lia|lia]|by eapply goes_shallow|].
      exists res, u3. split; [done|]. split; [|lia]. right. destruct Hout as [G3|[G3 Hres]]; [left|right; split; [|done]].
      - exact (goes_trans 0 1 0 (3 * S F) 1 1 _ _ _ G2' G3).
      - exact (goes_trans 0 1 0 (3 * S F) 1 0 _ _ _ G2' G3). }
    destruct (search_module_spec u1 pc true n (1 + k) (g_inv _ _ _ _ _ G1) Hr1 Hd) as (r & -> & Ho). destruct r as [res u2|dso m id u2|u2|u2].
    + apply (Hfin (Returned res u2) u1 Ho); [by right|by rewrite Ed1].
    + apply (Hfin (Module dso m id u2) u1 Ho); [by right|by rewrite Ed1].
    + cbn [search_outcome] in Ho. pose proof (goes_trans 0 0 0 0 1 0 _ _ _ G1 Ho) as G2. destruct (g_dwfl _ _ _ _ _ Ho d Ed1) as (d2 & Ed2 & _).
      destruct (search_module_spec u2 pc false n k) as (r & -> & Ho2); [apply Ho|eapply (uroom_goes 0 1 0); [|exact Ho]; eapply uroom_le; [exact Hr1|lia|lia]|by eapply goes_shallow|].
      apply (Hfin r u2 Ho2); [by left|by rewrite Ed2].
    + apply (Hfin (NoModule u2) u1 Ho); [by right|by rewrite Ed1].
Qed.

(** ** The stack *)

Abbreviation callback := (frame_cb ops open_elf get_file_inode read_file alloc_entries env).
Abbreviation frames := (thread_frames ops open_elf get_file_inode read_file alloc_entries env).

Definition cb_outcome (u : ustate D) (continue : bool) (u' : ustate D) : Prop :=
  (goes 0 0 0 u u' /\ (continue = true -> exists d, dwfl_frame_pc ops d = Some 0)) \/
  goes (3 * S F) 2 1 u u' \/ (goes (3 * S F) 2 0 u u' /\ continue = false).

Lemma frame_cb_spec u d n k : uinv u -> dw_dwfl (un_wrapper u) = Some d -> uroom (3 * S F + n) (2 + k) u -> shallow u ->
  exists continue u', callback u = Some (continue, u') /\ cb_outcome u continue u' /\ ((510 <= length (un_locs u))%nat -> continue = false).
Proof.
  intros Hu Ed Hr Hd. unfold frame_cb. rewrite Ed. destruct (dwfl_errno ops d) as [err d1] eqn:Ee. cbv zeta. set (u1 := with_wrapper u _).
  assert (G1 : goes 0 0 0 u u1).
  { apply goes_wrapper; [done|]. intros d0 Hd0. rewrite Ed in Hd0. injection Hd0 as <-. exists d1. split; [done|]. apply rtc_once. left. by rewrite Ee. }
  destruct (_ && _); [do 2 eexists; split; [done|]; split; [by left|done]|].
  assert (G2 : goes 0 0 0 u (count_frame u1)) by (apply (goes_trans 0 0 0 0 0 0 _ _ _ G1); apply goes_same; [apply G1|done..]).
  destruct (add_symbol_spec (count_frame u1) d1 n k) as (res & u2 & -> & Hout & Hmax); [apply G2|done|eapply (uroom_goes 0 0 0); [exact Hr|exact G2]|exact Hd|].
  do 2 eexists. split; [done|]. split; [|exact Hmax]. destruct Hout as [[G3 (d2 & _ & Hpc)]|[G3|[G3 Hres]]].
  - left. split; [exact (goes_trans 0 0 0 0 0 0 _ _ _ G2 G3)|by exists d2].
  - right. left. exact (goes_trans 0 0 0 _ _ _ _ _ _ G2 G3).
  - right. right. split; [exact (goes_trans 0 0 0 _ _ _ _ _ _ G2 G3)|done].
Qed.

(** The location count along a callback. *)
Lemma goes_length n k a u u' : goes n k a u u' -> length (un_locs u') = (length (un_locs u) + a)%nat.
Proof. intros G. destruct (g_locs _ _ _ _ _ G) as (fs & -> & <-). apply length_app. Qed.

(** The entries that the frames of a stack may still need. *)
Definition budget (u : ustate D) : nat := 511 - length (un_locs u).

(** The frames of a stack, when [rank] counts what is left of it. *)
Lemma thread_frames_spec (rank : ustate D -> nat) fuel u d n k :
  (forall u u1 d d1 d2, (length (un_locs u) <= 510)%nat -> dw_dwfl (un_wrapper u) = Some d -> cb_outcome u true u1 -> dw_dwfl (un_wrapper u1) = Some d1 ->
     dwfl_next_frame ops d1 = Some d2 -> (rank (with_wrapper u1 (mkDW (Some d2) (dw_attached (un_wrapper u1)) (dw_inconsistent (un_wrapper u1)) (dw_mods (un_wrapper u1)))) < rank u)%nat) ->
  uinv u -> dw_dwfl (un_wrapper u) = Some d -> (length (un_locs u) <= 510)%nat -> uroom (budget u * (3 * S F) + n) (budget u * 2 + k) u -> (rank u < fuel)%nat ->
  exists u' a, frames fuel u = Some u' /\ uinv u' /\ same_process u u' /\ length (un_locs u') = (length (un_locs u) + a)%nat /\ (length (un_locs u') <= 511)%nat /\
    hdr_later (budget u * (3 * S F)) (un_sym u) (un_sym u') /\ files_grow (budget u * 2) (un_dso u) (un_dso u').
Proof.
  intros Hrank. revert u d. induction fuel as [|f IH]; intros u d Hu Ed Hl Hr Hfuel; [lia|]. cbn [thread_frames].
  assert (Hb : (1 <= budget u)%nat) by (unfold budget; lia).
  destruct (frame_cb_spec u d n k Hu Ed) as (c & u1 & -> & Hout & Hmax); [eapply uroom_le; [exact Hr|nia|lia]|unfold max_depth; lia|].
  assert (G : exists a, goes (3 * S F) 2 a u u1 /\ (a <= 1)%nat) by (destruct Hout as [[G _]|[G|[G _]]]; [exists 0%nat|exists 1%nat|exists 0%nat]; (split; [eapply goes_le; [exact G|lia|lia]|lia])).
  destruct G as (a & G & Ha). pose proof (goes_length _ _ _ _ _ G) as Hlen. destruct c; cbn [negb].
  2: { exists u1, a. split; [done|]. split; [apply G|]. split; [by apply (goes_process _ _ _ _ _ G)|]. split; [done|]. split; [lia|].
       split; [eapply hdr_later_le; [apply G|nia]|]. pose proof (g_files _ _ _ _ _ G). unfold files_grow in *. lia. }
  assert (Hl1 : (length (un_locs u) < 510)%nat) by (destruct (le_lt_dec 510 (length (un_locs u))) as [H5|]; [by specialize (Hmax H5)|done]).
  destruct (g_dwfl _ _ _ _ _ G d Ed) as (d1 & Ed1 & _). rewrite Ed1. destruct (dwfl_next_frame ops d1) as [d2|] eqn:En.
  2: { exists u1, a. split; [done|]. split; [apply G|]. split; [by apply (goes_process _ _ _ _ _ G)|]. split; [done|]. split; [lia|].
       split; [eapply hdr_later_le; [apply G|nia]|]. pose proof (g_files _ _ _ _ _ G). unfold files_grow in *. lia. }
  set (u2 := with_wrapper u1 _). assert (Hu2 : uinv u2) by (destruct (g_inv _ _ _ _ _ G); by split).
  assert (Hcost : exists n1 k1, goes n1 k1 a u u1 /\ (n1 + budget u1 * (3 * S F) <= budget u * (3 * S F))%nat /\ (k1 + budget u1 * 2 <= budget u * 2)%nat).
  { destruct Hout as [[G0 _]|[G0|[_ ?]]]; [| |done]; pose proof (goes_length _ _ _ _ _ G0) as H0.
    - exists 0%nat, 0%nat. replace a with 0%nat by lia. unfold budget. rewrite H0, Nat.add_0_r. split; [done|lia].
    - exists (3 * S F)%nat, 2%nat. replace a with 1%nat by lia. unfold budget. rewrite H0. split; [done|]. replace (511 - length (un_locs u))%nat with (S (511 - (length (un_locs u) + 1)))%nat by lia. lia. }
  destruct Hcost as (n1 & k1 & Gc & Hn1 & Hk1). destruct (IH u2 d2 Hu2 eq_refl) as (u' & a' & E & Hu' & Hp' & Hl' & Hl511 & Hs' & Hf').
  - change (un_locs u2) with (un_locs u1). lia.
  - change (budget u2) with (budget u1). assert (uroom (budget u1 * (3 * S F) + n) (budget u1 * 2 + k) u1); [|done].
    eapply (uroom_goes n1 k1); [|exact Gc]. eapply uroom_le; [exact Hr|lia|lia].
  - assert (rank u2 < rank u)%nat; [|lia]. by eapply (Hrank u u1 d d1).
  - exists u', (a + a')%nat. change (un_locs u2) with (un_locs u1) in *. change (un_sym u2) with (un_sym u1) in *. change (un_dso u2) with (un_dso u1) in *. change (budget u2) with (budget u1) in *.
    split; [done|]. split; [done|]. split; [destruct Hp' as [Hp1 Hp2], (goes_process _ _ _ _ _ G) as [Gp Gb]; split; [exact (eq_trans Hp1 Gp)|exact (eq_trans Hp2 Gb)]|]. split; [lia|]. split; [done|]. split.
    + eapply hdr_later_le; [eapply hdr_later_trans; [apply (g_sym _ _ _ _ _ Gc)|exact Hs']|lia].
    + pose proof (g_files _ _ _ _ _ Gc). unfold files_grow in *. lia.
Qed.

(** ** The whole stack *)

Lemma uinv_wrapper u w : uinv u -> uinv (with_wrapper u w).
Proof. intros [A B C E]. by split. Qed.

Lemma visits_fine h pid h' : hdr_wf h -> files_fine h -> visits h pid h' -> hdr_wf h' /\ files_fine h' /\ files_grow 0 h h'.
Proof.
  intros Hw Hf Hv. split; [by eapply visits_wf|]. destruct Hv as [-> | ->]; (split; [|unfold files_grow; cbn; lia]); [done|].
  apply (same_files_fine h); [done| |done]. apply hdr_ids_set; [apply Hf|apply hdr_ids_get, Hf].
Qed.

(** Looking for the executable does not change it. *)
Lemma visits_executable h pid h' : visits h pid h' -> first_executable h' pid = first_executable h pid.
Proof.
  intros [-> | ->]; [done|]. assert (E : get_pid_mapping (set_pid_map h (<[pid := get_pid_mapping h pid]> (pid_map h))) pid = get_pid_mapping h pid).
  { unfold get_pid_mapping at 1. cbn [set_pid_map pid_map]. by rewrite lookup_insert_eq. }
  unfold first_executable. by rewrite E.
Qed.

Lemma base_frame_spec u exe n k : uinv u -> uroom (2 * S F + n) k u -> shallow u ->
  let u' := add_virtual_base_frame u exe in
  uinv u' /\ length (un_locs u') = S (length (un_locs u)) /\
  exists f sym, last (un_locs u') = Some f /\ fixed (un_sym u') (fl_symbol_idx f) sym /\
    base_symbol (sy_base (sh_syms (un_sym u))) (un_pid u) (un_dso u') exe (fl_symbol_idx f) sym.
Proof.
  intros Hu Hr Hd. unfold add_virtual_base_frame.
  pose proof (base_exec_spec (un_sym u) (un_pid u) (un_dso u) exe (ui_sym _ Hu)) as Hb. destruct (hdr_base _ _ _ _) as [[i sh] dh].
  destruct Hb as ((Hh & _ & Hl) & [(sym & Hfix & Hsym) _] & Hv); [destruct Hr as [[? ?] _]; unfold hdr_room; lia|].
  destruct (visits_fine _ _ _ (ui_wf _ Hu) (ui_files _ Hu) Hv) as (W1 & W2 & W3).
  set (u1 := with_dso (with_sym u sh) dh).
  assert (U1 : uinv u1).
  { split; [done|done|done|]. eapply Forall_impl; [apply (ui_locs _ Hu)|]. intros f Hf. by eapply loc_ok_later. }
  assert (R1 : uroom (S F) 0 u1).
  { destruct Hr as [[R1 R2] R3]. destruct Hl as [_ _ _ S1 S2]. unfold uroom, hdr_room, files_grow in *. cbn [u1 with_dso with_sym un_sym un_dso]. lia. }
  assert (G2 : goes (S F) 0 1 u1 (add_frame_without_mapping u1 i)) by (apply add_without_mapping_spec; [done|done|done|left; by exists sym]).
  split; [apply G2|]. unfold add_frame_without_mapping, add_frame in *. rewrite (proj2 (Nat.leb_gt max_depth (length (un_locs u1)))) in * by done.
  change (k_mapinfo_idx_null =? k_mapinfo_idx_null) with true in *. cbn match in *. destruct (hdr_empty_mapinfo (un_sym u1)) as [mi s2]. cbn [snd] in *.
  split; [cbn; rewrite length_app; cbn; lia|].
  eexists _, sym. split; [cbn; apply last_snoc|]. cbn [fl_symbol_idx]. split; [apply (hl_fixed _ _ _ (g_sym _ _ _ _ _ G2)); exact Hfix|].
  unfold base_symbol, exe_symbol in *. cbn [un_dso with_locs with_sym u1 with_dso]. by rewrite (visits_executable _ _ _ Hv).
Qed.

Lemma find_dso_add_error_spec res u n k : uinv u -> uroom (2 * S F + n) k u -> shallow u ->
  exists u', find_dso_add_error_frame res u = Some u' /\ goes (2 * S F) 0 1 u u'.
Proof.
  intros Hu Hr Hd. unfold find_dso_add_error_frame. destruct (_ =? _); [by eapply add_common_frame_spec|]. cbv zeta.
  destruct (dso_find_closest _ _) as [it b]. set (u1 := with_dso u _).
  assert (G1 : goes 0 0 0 u u1).
  { destruct (visits_fine (un_dso u) (un_pid u) (un_dso u1) (ui_wf _ Hu) (ui_files _ Hu) ltac:(by right)) as (? & ? & ?). by apply goes_with_dso. }
  destruct (add_error_frame_spec (if b then snd <$> pm_map (get_pid_mapping (un_dso u) (un_pid u)) !! it else None) u1 unknown_mapping n k) as (u' & -> & G2);
    [apply G1|exact Hr|exact Hd|]. exists u'. split; [done|]. exact (goes_trans 0 0 0 (2 * S F) 0 1 _ _ _ G1 G2).
Qed.

(** An attached wrapper has libdwfl's state. *)
Definition wrapper_ok (w : DwflWrapper D) : Prop := dw_attached w = true -> is_Some (dw_dwfl w).

(** Fuel is enough for the stacks libdwfl may find. *)
Definition enough (fuel : nat) : Prop :=
  (511 < fuel)%nat /\ (forall d, dwfl_frame_pc ops d <> Some 0) \/
  exists depth : D -> nat, (forall d d', lib_step d d' -> depth d' = depth d) /\ (forall d d', dwfl_next_frame ops d = Some d' -> (depth d' < depth d)%nat) /\
    (forall d pid d', dwfl_first_frame ops d pid = Some d' -> (depth d' < fuel)%nat).

(** The locations before the base frame. *)
Definition stack_outcome (u u' : ustate D) : Prop :=
  uinv u' /\ same_process u u' /\ (length (un_locs u') <= 511)%nat /\
  hdr_later (511 * (3 * S F)) (un_sym u) (un_sym u') /\ files_grow (511 * 2) (un_dso u) (un_dso u').

Lemma frames_enough fuel u d n k : enough fuel -> uinv u -> dw_dwfl (un_wrapper u) = Some d -> (exists d0 pid, dwfl_first_frame ops d0 pid = Some d) -> un_locs u = [] ->
  uroom (511 * (3 * S F) + n) (511 * 2 + k) u -> exists u', frames fuel u = Some u' /\ stack_outcome u u'.
Proof.
  intros Hen Hu Ed (d0 & pid & Hfirst) Hl Hr. assert (Hb : budget u = 511%nat) by (unfold budget; by rewrite Hl).
  assert (Hl0 : (length (un_locs u) <= 510)%nat) by (rewrite Hl; cbn; lia). destruct Hen as [[Hf Hnz]|(depth & Hstep & Hnext & Hdepth)].
  - destruct (thread_frames_spec budget fuel u d n k) as (u' & a & E & H1 & H2 & _ & H4 & H5 & H6); try done; [| |rewrite Hb; lia|].
    + intros v v1 e e1 e2 Hv _ [[_ Hz]|[G|[_ ?]]] _ _; [destruct (Hz eq_refl) as (dz & Hdz); by apply Hnz in Hdz| |done].
      pose proof (goes_length _ _ _ _ _ G) as Hlen. unfold budget. cbn [un_locs with_wrapper]. lia.
    + rewrite Hb. exact Hr.
    + rewrite Hb in *. exists u'. split; [done|]. by split_and!.
  - destruct (thread_frames_spec (fun u => match dw_dwfl (un_wrapper u) with Some d => depth d | None => 0%nat end) fuel u d n k) as (u' & a & E & H1 & H2 & _ & H4 & H5 & H6); try done.
    + intros v v1 e e1 e2 Hv Ee Hcb Ee1 Hn. rewrite Ee. cbn [un_wrapper with_wrapper dw_dwfl].
      assert (Hsame : depth e1 = depth e).
      { assert (Hrtc : exists e', dw_dwfl (un_wrapper v1) = Some e' /\ rtc lib_step e e').
        { destruct Hcb as [[G _]|[G|[G _]]]; by apply (g_dwfl _ _ _ _ _ G). }
        destruct Hrtc as (e' & Ee' & Hr'). rewrite Ee1 in Ee'. injection Ee' as <-. clear -Hr' Hstep. induction Hr' as [|x y z Hxy _ IH]; [done|]. rewrite IH. by apply Hstep. }
      rewrite <- Hsame. by apply Hnext.
    + rewrite Hb. exact Hr.
    + rewrite Ed. by eapply Hdepth.
    + rewrite Hb in *. exists u'. split; [done|]. by split_and!.
Qed.

Lemma unwind_dwfl_spec fuel u avoid n k : enough fuel -> uinv u -> wrapper_ok (un_wrapper u) -> un_locs u = [] -> uroom (511 * (3 * S F) + n) (511 * 2 + k) u ->
  exists res u', unwind_dwfl ops open_elf get_file_inode read_file alloc_entries env fuel u avoid = Some (res, u') /\ stack_outcome u u' /\
    (IsDDResNotOK res = true -> un_locs u' = []).
Proof.
  intros Hen Hu Hw Hl Hr. unfold unwind_dwfl, unwind_init_dwfl. cbv zeta.
  assert (Hstay : forall w, stack_outcome u (with_wrapper u w)).
  { intros w. split; [by apply uinv_wrapper|]. split; [done|]. split; [cbn; rewrite Hl; cbn; lia|]. split; [apply hdr_later_refl|unfold files_grow; cbn; lia]. }
  destruct (avoid && _); [exists (ddres_warn (what_of "UW_MAX_PIDS")), u; split; [done|]; split; [|done]; split; [done|]; split; [done|]; split; [rewrite Hl; cbn; lia|]; split; [apply hdr_later_refl|unfold files_grow; lia]|].
  destruct (attach ops (un_wrapper u) (un_pid u)) as [res w] eqn:Ea. destruct (IsDDResOK res) eqn:Eres; cbn [negb]; [|do 2 eexists; split; [done|]; split; [apply Hstay|done]].
  assert (Hd : exists d, dw_dwfl w = Some d).
  { unfold attach in Ea. destruct (dw_attached (un_wrapper u)) eqn:Eat; [injection Ea as <- <-; by apply Hw|].
    destruct (dwfl_begin ops) as [d0|]; [|by injection Ea as <- <-]. destruct (dwfl_attach_state ops d0 (un_pid u)) as [d1|]; injection Ea as <- <-; [by exists d1|done]. }
  destruct Hd as (d & Ed). cbn [un_wrapper with_wrapper]. rewrite Ed. destruct (dwfl_first_frame ops d _) as [d1|] eqn:Efirst.
  - set (u1 := with_wrapper (with_wrapper u w) _). destruct (frames_enough fuel u1 d1 n k Hen) as (u' & -> & Hout); [by apply uinv_wrapper, uinv_wrapper|done|by eexists _, _|done|exact Hr|].
    do 2 eexists. split; [done|]. split; [exact Hout|]. by destruct (un_locs u').
  - do 2 eexists. split; [done|]. split; [apply Hstay|]. cbn [un_locs with_wrapper]. by rewrite Hl.
Qed.

(** The frame of an error, when no location was found. *)
Lemma error_frame_spec res u1 : uinv u1 -> uroom (4 * S F) 0 u1 -> (IsDDResNotOK res = true -> un_locs u1 = []) -> (length (un_locs u1) <= 511)%nat ->
  exists u2 a, (if IsDDResNotOK res then if res_what res =? what_of "UW_MAX_PIDS" then add_common_frame u1 max_pids else find_dso_add_error_frame res u1 else Some u1) = Some u2 /\
    goes (2 * S F) 0 a u1 u2 /\ (length (un_locs u2) <= 511)%nat.
Proof.
  intros Hu1 Hr1 Hempty Hlen. destruct (IsDDResNotOK res) eqn:Ern.
  - specialize (Hempty eq_refl). assert (Hd1 : shallow u1) by (rewrite Hempty; unfold max_depth; cbn; lia).
    assert (Hroom : uroom (2 * S F + 2 * S F) 0 u1) by (eapply uroom_le; [exact Hr1|lia|lia]).
    assert (Hone : forall u2, goes (2 * S F) 0 1 u1 u2 -> (length (un_locs u2) <= 511)%nat) by (intros u2 G; rewrite (goes_length _ _ _ _ _ G), Hempty; cbn; lia).
    destruct (res_what res =? what_of "UW_MAX_PIDS").
    + destruct (add_common_frame_spec u1 max_pids _ _ Hu1 Hroom Hd1) as (u2 & -> & G). exists u2, 1%nat. auto.
    + destruct (find_dso_add_error_spec res u1 _ _ Hu1 Hroom Hd1) as (u2 & -> & G). exists u2, 1%nat. auto.
  - exists u1, 0%nat. split; [done|]. split; [|done]. eapply goes_le; [by apply goes_same|lia|lia].
Qed.

End Frames.

(** C19: The stack of a sample.  Whatever libdwfl answers — frames, failures, addresses outside
    any mapping, modules that cannot be loaded — as long as the stack it walks is finite, or
    it never yields an address 0, unwinding returns; the result has between one and 512
    locations; each location has a symbol or a file to look it up in, and a mapping; the
    last one is the base frame of the process ([base_symbol]: the symbol remembered for the
    process, or that of the first file mapped to be executed, or of the target of the link, or
    the symbol of the process when there is no executable or it was searched for ten times);
    and the mappings of the processes, the identifiers of their files and the symbol tables
    are well-formed again.  The state is well-formed before ([uinv], with no location yet and
    room in its tables, of 2^31 entries, for 1537 (F + 1) more symbols and mappings and for 1022
    more files), an attached process has libdwfl's state, the files of generated code are jitdump
    files as LLVM writes them, with at least their header, or do not start as such ([files_ok],
    of at most [F] symbols each), the path of a file has a slash, and the maps files have the
    lines the kernel prints. *)
Theorem unwind_stack_complete {D} (ops : Dwfl_ops D) open_elf get_file_inode read_file alloc_entries env F fuel u avoid_new_attach exe :
  files_ok read_file alloc_entries F -> (forall p x, get_file_inode p = Some x -> after_last_slash p <> None) -> (forall n, maps_ok (snd (env n))) ->
  enough ops fuel -> uinv u -> wrapper_ok (un_wrapper u) -> un_locs u = [] -> uroom (1537 * S F) 1022 u ->
  exists res u', unwind_frames ops open_elf get_file_inode read_file alloc_entries env fuel u avoid_new_attach exe = Some (res, u') /\ uinv u' /\
    (1 <= length (un_locs u') <= 512)%nat /\
    exists f sym, last (un_locs u') = Some f /\ fixed (un_sym u') (fl_symbol_idx f) sym /\
      base_symbol (sy_base (sh_syms (un_sym u))) (un_pid u) (un_dso u') exe (fl_symbol_idx f) sym.
Proof.
  intros Hfiles Hpaths Henv Hen Hu Hw Hl Hr. unfold unwind_frames.
  assert (Hstart : exists res u1, (if un_pid u =? 0 then Some (ddres_init, u) else unwind_dwfl ops open_elf get_file_inode read_file alloc_entries env fuel u avoid_new_attach) = Some (res, u1) /\
    stack_outcome F u u1 /\ (IsDDResNotOK res = true -> un_locs u1 = [])).
  { destruct (un_pid u =? 0).
    - exists ddres_init, u. split; [done|]. split; [|done]. split; [done|]. split; [done|]. split; [rewrite Hl; cbn; lia|]. split; [apply hdr_later_refl|unfold files_grow; lia].
    - apply (unwind_dwfl_spec ops open_elf get_file_inode read_file alloc_entries env F Hfiles Hpaths Henv fuel u avoid_new_attach (4 * S F) 0); try done. eapply uroom_le; [exact Hr|lia|lia]. }
  destruct Hstart as (res & u1 & -> & (Hu1 & [Hp1 Hb1] & Hlen & Hs1 & Hf1) & Hempty).
  assert (Hr1 : uroom (4 * S F) 0 u1).
  { destruct Hr as [[R1 R2] R3]. destruct Hs1 as [_ _ _ S1 S2]. unfold uroom, hdr_room, files_grow in *. lia. }
  destruct (error_frame_spec ops read_file alloc_entries F Hfiles res u1 Hu1 Hr1 Hempty Hlen) as (u2 & a & -> & G2 & Hl2).
  destruct (base_frame_spec ops read_file alloc_entries F Hfiles u2 exe 0 0) as (U3 & L3 & f & sym & E1 & E2 & E3).
  - apply G2.
  - eapply uroom_goes; [|exact G2]. eapply uroom_le; [exact Hr1|lia|lia].
  - unfold max_depth. lia.
  - exists res, (add_virtual_base_frame u2 exe). split; [done|]. split; [done|]. split; [lia|].
    exists f, sym. split; [done|]. split; [done|]. destruct (goes_process _ _ _ _ _ _ G2) as [Gp Gb]. by rewrite Gp, Gb, Hp1, Hb1 in E3.
Qed.
