(* ===== verification/UnwindDemo.v ===== *)
(** * The unwinder at work

    A process with an executable, a library and generated code: its stack, through the
    mappings, the modules and the symbol tables. *)

From Stdlib Require Import Ascii.
From S2P Require Import Prelude Ddres LiveAlloc Dso DsoHdr JitDump Symbols ElfModule RuntimeSymbols SymbolTables Unwind UnwindProofs UnwindFrames.

(** libdwfl finds the addresses of a list, the innermost first. *)
Definition list_dwfl : Dwfl_ops (list Z) :=
  mkDwfl (list Z) (Some []) (fun d _ => Some d)
    (fun _ _ => Some [0x7f0000002010; 0x7f0000002021; 0x7f1000000008; 0x99; 0x400011]) (fun d => match d with _ :: (_ :: _) as d' => Some d' | _ => None end)
    (fun d => head d) (fun d => (fun pc => (pc, (length d =? 5)%nat)) <$> head d)
    (fun d => (0, d)) (fun _ _ => false) (fun d _ _ bias => (Some (bias, bias +w 0x10000), d)).

Definition exe_elf : Elf := mkElf (Some ET_EXEC) true [] (Some [Some (mkPhdr PT_LOAD (PF_R + PF_X) 0 0x400000 0x1000 None)]).

Definition list_files (path : string) : option (option Elf) :=
  if bool_decide (path = "/lib/libx.so"%string) then Some (Some demo_elf) else if bool_decide (path = "/bin/app"%string) then Some (Some exe_elf) else None.
Definition list_inode (path : string) : option (Z * Z) :=
  if bool_decide (path = "/lib/libx.so"%string) then Some (7, 0x3000) else if bool_decide (path = "/bin/app"%string) then Some (8, 0x1000) else None.

Definition list_maps : list (option proc_fields) :=
  [Some (mkPF 0x400000 0x401000 ["r"; "-"; "x"; "p"]%char 0 8 " /bin/app");
   Some (mkPF 0x7f0000002000 0x7f0000003000 ["r"; "-"; "x"; "p"]%char 0x1000 7 " /lib/libx.so");
   Some (mkPF 0x7f1000000000 0x7f1000001000 ["r"; "-"; "x"; "p"]%char 0 0 "")].

Definition list_env (n : nat) : Z * option (list (option proc_fields)) := (1000 * Z.of_nat n, Some list_maps).

Lemma list_maps_ok n : maps_ok (snd (list_env n)).
Proof. unfold maps_ok. cbn [list_env snd]. repeat constructor; vm_compute; first [discriminate|reflexivity]. Qed.

Definition list_start : ustate (list Z) :=
  mkUn (init_DsoHdr "" (-1)) (init_SymbolHdr "") ∅ new_wrapper 42 0 [] 0 0 0.

Lemma list_start_inv : uinv list_start.
Proof.
  split; cbn [list_start un_dso un_sym un_locs].
  - intros p pm H. change ((∅ : gmap Z PidMapping) !! p = Some pm) in H. by apply lookup_empty_Some in H.
  - split; cbn.
    + intros p pm H. change ((∅ : gmap Z PidMapping) !! p = Some pm) in H. by apply lookup_empty_Some in H.
    + intros key id H. by apply lookup_empty_Some in H.
    + by left.
    + done.
    + lia.
  - apply init_hdr_inv.
  - constructor.
Qed.

Lemma list_enough : enough list_dwfl 6.
Proof.
  right. exists (fun d => length d). split; [|split].
  - intros d d' [->|(name & path & bias & ->)]; done.
  - intros [|a [|b d]] d'; cbn; [done..|]. intros [= <-]. cbn. lia.
  - intros d pid d'. cbn. intros [= <-]. cbn. lia.
Qed.

Definition list_unwind : option (DDRes * ustate (list Z)) :=
  unwind_frames list_dwfl list_files list_inode (fun _ => None) (fun _ => true) list_env 6 list_start false None.

Definition loc_summary (h : SymbolHdr) (f : FunLoc) : Z * Z * Z * option string :=
  (fl_ip f, fl_elf_addr f, fl_file_info_id f, sym_demangled_name <$> entry (symbol_table h) (fl_symbol_idx f)).

(** Two frames of the library with the address in its file, one in generated code that has no
    symbol, one that no mapping has, and one of the executable; then the base frame. *)
Lemma unwind_stack_complete_witness : exists res u', list_unwind = Some (res, u') /\ uinv u' /\ (1 <= length (un_locs u') <= 512)%nat /\
  map (loc_summary (un_sym u')) (un_locs u') =
    [(0x7f0000002010, 0x2010, 1, None); (0x7f0000002020, 0x2020, 1, None); (0, 0, -1, Some ""%string); (0, 0, -1, Some "[unknown mapping]"%string);
     (0x400010, 0x400010, 2, None); (0, 0, -1, Some "app"%string)].
Proof.
  destruct (unwind_stack_complete list_dwfl list_files list_inode (fun _ => None) (fun _ => true) list_env 0 6 list_start false None) as (res & u' & E & Hu & Hl & _).
  - intros path bytes H. discriminate H.
  - intros p x. unfold list_inode. repeat (case_bool_decide as Hp; [rewrite Hp; intros _; vm_compute; discriminate|clear Hp]). discriminate.
  - apply list_maps_ok.
  - apply list_enough.
  - apply list_start_inv.
  - intros H. discriminate H.
  - reflexivity.
  - split; [apply init_room|]; vm_compute; reflexivity.
  - exists res, u'. split; [exact E|]. split; [exact Hu|]. split; [exact Hl|].
    assert (Em : (fun r => map (loc_summary (un_sym (snd r))) (un_locs (snd r))) <$> list_unwind = Some
      [(0x7f0000002010, 0x2010, 1, None); (0x7f0000002020, 0x2020, 1, None); (0, 0, -1, Some ""%string); (0, 0, -1, Some "[unknown mapping]"%string);
       (0x400010, 0x400010, 2, None); (0, 0, -1, Some "app"%string)]) by (vm_compute; reflexivity).
    unfold list_unwind in Em. rewrite E in Em. injection Em as Em. exact Em.
Defined.
