(* ===== verification/StackMemory.v ===== *)
(** * Registers and stack of a sample

    Model of [include/perf_archmap.hpp] (x86-64), [src/stack_helper.cc],
    [src/dwfl_thread_callbacks.cc] and [unwind_init_sample] of [src/unwind.cc]: the registers
    and the stack that the kernel copied into the sample, as libdwfl asks for them.  The stack
    is the list of its bytes; a read outside of it is [None]. *)

From S2P Require Import Prelude RingBuffer PerfSample.

(** ** Registers *)

Definition k_perf_register_mask : Z := 0xff0fff.

(** The registers of a sample, in the order of perf. *)
Inductive PERF_ARCHMAP_X86 :=
| RAX | RBX | RCX | RDX | RSI | RDI | RBP | RSP | RIP | FL | CS | SS | R8 | R9 | R10 | R11 | R12 | R13 | R14 | R15.

#[export] Instance PERF_ARCHMAP_X86_eq_dec : EqDecision PERF_ARCHMAP_X86.
Proof. solve_decision. Defined.

Definition perf_registers : list PERF_ARCHMAP_X86 :=
  [RAX; RBX; RCX; RDX; RSI; RDI; RBP; RSP; RIP; FL; CS; SS; R8; R9; R10; R11; R12; R13; R14; R15].

Definition regname (r : PERF_ARCHMAP_X86) : nat := find_index (fun x => bool_decide (x = r)) perf_registers.

(** The registers in the order of DWARF. *)
Definition dwarf_registers : list PERF_ARCHMAP_X86 :=
  [RAX; RDX; RCX; RBX; RSI; RDI; RBP; RSP; R8; R9; R10; R11; R12; R13; R14; R15; RIP].

(** [None] is the sentinel. *)
Definition dwarf_to_perf_regno (i : nat) : option nat := regname <$> dwarf_registers !! i.

Definition param_registers : list PERF_ARCHMAP_X86 := [RDI; RSI; RDX; RCX; R8; R9].

(** Parameters are numbered from 1. *)
Definition param_to_perf_regno (param_no : nat) : option nat :=
  match param_no with O => None | S i => regname <$> param_registers !! i end.

(** ** The sample *)

Record SampleStack := mkSS { initial_regs : list Z; stack : list Z; stack_sz : Z; nb_locs : nat }.

(** [unwind_init_sample]: the registers are copied, the stack is not. *)
Definition unwind_init_sample (sample_regs : list Z) (sample_size_stack : Z) (sample_data_stack : list Z) : SampleStack :=
  mkSS (take (Z.to_nat k_perf_register_count) sample_regs) sample_data_stack sample_size_stack 0.

Definition reg (us : SampleStack) (r : PERF_ARCHMAP_X86) : option Z := initial_regs us !! regname r.

(** [next_thread]: one thread. *)
Definition next_thread (thread_arg : bool) (pid : Z) : Z := if thread_arg then 0 else pid.

(** [set_initial_registers]: the registers for libdwfl, in DWARF order, and the program counter. *)
Fixpoint copy_registers (fuel : nat) (us : SampleStack) (regs_num : nat) : option (list Z) :=
  match dwarf_to_perf_regno regs_num with
  | None => Some []
  | Some regs_idx =>
      match fuel with
      | O => None
      | S f =>
          let? x := initial_regs us !! regs_idx in
          let? rest := copy_registers f us (S regs_num) in
          Some (x :: rest)
      end
  end.

Definition set_initial_registers (us : SampleStack) : option (list Z * Z) :=
  let? regs := copy_registers (S (length dwarf_registers)) us 0 in
  let? pc := reg us RIP in
  Some (regs, pc).

Definition zero_page_limit : Z := 4096.
Definition k_expected_address_alignment : Z := 8.
Definition stack_page_size : Z := 4096.
Definition k_red_zone_size : Z := 128.

(** [memory_read]: [Some None] when it refuses; [regno] is the register libdwfl restores, or -1. *)
Definition memory_read (us : SampleStack) (addr regno : Z) : option (option Z) :=
  if addr <? zero_page_limit then Some None
  else if negb (Z.land addr (k_expected_address_alignment - 1) =? 0) then Some None
  else if addr +w 8 <? addr then Some None
  else
    let? sp_start := reg us RSP in
    let sp_end := sp_start +w stack_sz us in
    if (addr <? sp_start) && (sp_start -w stack_page_size <? addr) then
      if (nb_locs us <=? 1)%nat && (sp_start -w k_red_zone_size <=? addr) && (0 <=? regno) && (regno <? k_perf_register_count)
      then let? x := initial_regs us !! Z.to_nat regno in Some (Some x)
      else Some None
    else if (addr <? sp_start) || (sp_end <? addr +w 8) then Some None
    else
      let stack_idx := addr -w sp_start in
      if addr <? stack_idx then Some None
      else let? v := load 8 (stack us) stack_idx in Some (Some v).

(** ** Theorems *)

(** A sample as the kernel writes it. *)
Record sample_ok (us : SampleStack) : Prop := {
  so_regs : length (initial_regs us) = 20%nat;
  so_words : Forall is_u64 (initial_regs us);
  so_size : Z.of_nat (length (stack us)) = stack_sz us /\ stack_sz us < 2 ^ 64
}.

Lemma reg_lookup us r : sample_ok us -> exists x, reg us r = Some x /\ is_u64 x.
Proof.
  intros [Hl Hw _]. unfold reg. destruct (initial_regs us !! regname r) as [x|] eqn:E.
  - exists x. split; [done|]. by eapply Forall_lookup_1 in E.
  - apply lookup_ge_None in E. rewrite Hl in E. destruct r; vm_compute in E; lia.
Qed.

(** The register libdwfl means by a number. *)
Definition dwarf_register (us : SampleStack) (regno : Z) : option Z :=
  if 0 <=? regno then let? r := dwarf_registers !! Z.to_nat regno in reg us r else None.

(** What the reader of the stack promises: an aligned word of the copied stack; below the stack
    pointer, in the red zone of the first frame, the register libdwfl restores; nothing else. *)
Definition memory_spec (us : SampleStack) (sp addr regno : Z) : option Z :=
  if (addr <? zero_page_limit) || negb (addr mod 8 =? 0) || (2 ^ 64 <=? addr + 8) then None
  else if (sp <=? addr) && (addr + 8 <=? sp + stack_sz us) then Some (le_val (take 8 (drop (Z.to_nat (addr - sp)) (stack us))))
  else if (nb_locs us <=? 1)%nat && (sp - k_red_zone_size <=? addr) && (addr <? sp) then dwarf_register us regno
  else None.

(** The numbers of DWARF that are also those of perf (rax, rcx, rsi, rdi, rbp, rsp), and those that
    stand for no register. *)
Definition same_number (regno : Z) : bool :=
  (regno <? 0) || (k_perf_register_count <=? regno) || bool_decide (dwarf_to_perf_regno (Z.to_nat regno) = Some (Z.to_nat regno)).

Lemma load_some n ev off : 0 <= off -> off + Z.of_nat n <= Z.of_nat (length ev) -> load n ev off = Some (le_val (take n (drop (Z.to_nat off) ev))).
Proof. intros H1 H2. unfold load. by rewrite (proj2 (Z.leb_le _ _) H1), (proj2 (Z.leb_le _ _) H2). Qed.

Lemma reg_in_range us regno : sample_ok us -> 0 <= regno < k_perf_register_count -> exists x, initial_regs us !! Z.to_nat regno = Some x.
Proof. intros [Hl _ _] H. apply lookup_lt_is_Some_2. rewrite Hl. unfold k_perf_register_count in H. lia. Qed.

(** The reads are inside the stack, whatever address libdwfl asks for. *)
Lemma memory_read_defined us addr regno : sample_ok us -> is_u64 addr -> exists r, memory_read us addr regno = Some r.
Proof.
  intros Hs Ha. destruct (reg_lookup us RSP Hs) as (sp & Esp & Hsp). pose proof (so_size _ Hs) as [Hl Hsz]. unfold memory_read. rewrite Esp.
  destruct (_ <? zero_page_limit); [by eexists|]. destruct (negb _); [by eexists|]. destruct (Z.ltb_spec (addr +w 8) addr) as [|Hov]; [by eexists|].
  unfold is_u64 in *. assert (Ha8 : addr + 8 < 2 ^ 64).
  { destruct (Z.lt_ge_cases (addr + 8) (2 ^ 64)) as [|Hge]; [done|]. unfold u64 in Hov. replace (addr + 8) with (addr + 8 - 2 ^ 64 + 1 * 2 ^ 64) in Hov by lia.
    rewrite Z.mod_add, Z.mod_small in Hov by lia. lia. }
  rewrite (u64_small (addr + 8)) by (unfold is_u64; lia).
  destruct ((addr <? sp) && _).
  - destruct (_ && _ && _ && _) eqn:E; [|by eexists]. apply andb_prop in E as [[[_ _]%andb_prop H1]%andb_prop H2]. zbool.
    destruct (reg_in_range us regno Hs ltac:(lia)) as (x & ->). by eexists.
  - destruct (Z.ltb_spec addr sp) as [|Hge]; [by eexists|]. cbn [orb]. destruct (Z.ltb_spec (sp +w stack_sz us) (addr + 8)) as [|Hend]; [by eexists|].
    rewrite (u64_small (addr - sp)) by (unfold is_u64; lia). destruct (addr <? addr - sp); [by eexists|].
    assert (Hw : sp +w stack_sz us <= sp + stack_sz us) by (unfold u64; apply Z.mod_le; lia).
    rewrite load_some by lia. by eexists.
Qed.

Lemma register_of_number us regno : sample_ok us -> same_number regno = true ->
  (if (0 <=? regno) && (regno <? k_perf_register_count) then let? x := initial_regs us !! Z.to_nat regno in Some (Some x) else Some None) = Some (dwarf_register us regno).
Proof.
  intros Hs Hn. unfold dwarf_register, same_number in *. destruct (Z.leb_spec 0 regno) as [H0|]; [|done]. cbn [andb].
  destruct (Z.ltb_spec regno k_perf_register_count) as [H1|H1].
  - destruct (Z.ltb_spec regno 0); [lia|]. destruct (Z.leb_spec k_perf_register_count regno); [lia|]. cbn [orb] in Hn.
    apply bool_decide_eq_true in Hn. unfold dwarf_to_perf_regno in Hn. apply fmap_Some in Hn as (r & -> & ->).
    by destruct (reg_lookup us r Hs) as (x & E & _); unfold reg in *; rewrite E.
  - by rewrite (proj2 (lookup_ge_None dwarf_registers (Z.to_nat regno))) by (unfold k_perf_register_count in H1; cbn; lia).
Qed.

(** C33: libdwfl reads the memory of a sample through [memory_read].  For every address and
    register number it asks for, nothing outside the copied stack is read and no register index is
    out of range.  If the stack lies in the address space, above the first page, the answer is
    exactly: the aligned 8-byte words between the stack pointer and the end of the copied
    stack; for the first frame, in the 128 bytes below the stack pointer, the register libdwfl
    restores; and no other memory.  For these 128 bytes the register must be one of those with the
    same number in DWARF and in perf (rax, rcx, rsi, rdi, rbp, rsp), or none: for the others see
    [red_zone_wrong_register]. *)
Theorem memory_read_exact us sp addr regno : sample_ok us -> reg us RSP = Some sp -> is_u64 addr ->
  (exists r, memory_read us addr regno = Some r) /\
  (zero_page_limit <= sp -> sp + stack_sz us < 2 ^ 64 -> (sp - k_red_zone_size <= addr < sp -> same_number regno = true) ->
   memory_read us addr regno = Some (memory_spec us sp addr regno)).
Proof.
  intros Hs Esp Ha. split; [by apply memory_read_defined|]. intros Hsp Hend Hnum. pose proof (so_size _ Hs) as [Hl Hsz].
  unfold memory_read, memory_spec. rewrite Esp. unfold is_u64, zero_page_limit in *. destruct (Z.ltb_spec addr 4096); [done|]. cbn [orb].
  replace (Z.land addr (k_expected_address_alignment - 1)) with (addr mod 8) by (symmetry; apply (land_mask addr 3); lia).
  destruct (Z.eqb_spec (addr mod 8) 0) as [Hal|]; [|done]. cbn [negb orb].
  destruct (Z.lt_ge_cases (addr + 8) (2 ^ 64)) as [H8|H8].
  2: { assert (E8 : addr +w 8 < addr).
       { unfold u64. replace (addr + 8) with (addr + 8 - 2 ^ 64 + 1 * 2 ^ 64) by lia. rewrite Z.mod_add, Z.mod_small by lia. lia. }
       rewrite (proj2 (Z.ltb_lt _ _) E8). by rewrite (proj2 (Z.leb_le _ _) H8). }
  rewrite (proj2 (Z.leb_gt (2 ^ 64) (addr + 8))) by lia.
  rewrite (u64_small (addr + 8)), (u64_small (sp + stack_sz us)), (u64_small (sp - stack_page_size)), (u64_small (sp - k_red_zone_size)) by (unfold is_u64, stack_page_size, k_red_zone_size; lia).
  rewrite (proj2 (Z.ltb_ge (addr + 8) addr)) by lia. unfold stack_page_size, k_red_zone_size in *. destruct (Z.ltb_spec addr sp) as [Hlt|Hge].
  - rewrite (proj2 (Z.leb_gt sp addr)) by lia. cbn [andb orb]. rewrite !andb_true_r. destruct (Z.ltb_spec (sp - 4096) addr).
    + destruct (Z.leb_spec (sp - 128) addr); [|by rewrite !andb_false_r]. rewrite !andb_true_r.
      destruct (nb_locs us <=? 1)%nat; [|done]. cbn [andb]. apply register_of_number; [done|]. by apply Hnum.
    + rewrite (proj2 (Z.leb_gt (sp - 128) addr)) by lia. by rewrite andb_false_r.
  - rewrite (proj2 (Z.leb_le sp addr)) by lia. cbn [andb orb]. rewrite (u64_small (addr - sp)) by (unfold is_u64; lia).
    destruct (Z.ltb_spec (sp + stack_sz us) (addr + 8)), (Z.leb_spec (addr + 8) (sp + stack_sz us)); try lia; [by rewrite !andb_false_r|].
    rewrite (proj2 (Z.ltb_ge addr (addr - sp))) by lia. by rewrite load_some by lia.
Qed.

(** The registers libdwfl starts with are those of the sample, under their DWARF numbers. *)
Lemma initial_registers_spec us : sample_ok us ->
  exists regs pc, set_initial_registers us = Some (regs, pc) /\ reg us RIP = Some pc /\ length regs = 17%nat /\
    forall i r, dwarf_registers !! i = Some r -> regs !! i = reg us r.
Proof.
  intros Hs. unfold set_initial_registers.
  assert (Hreg : forall n, (n < 20)%nat -> exists x, initial_regs us !! n = Some x).
  { intros n Hn. apply lookup_lt_is_Some_2. by rewrite (so_regs _ Hs). }
  assert (Hcopy : forall fuel k, (17 - k < fuel)%nat -> exists regs, copy_registers fuel us k = Some regs /\ length regs = (17 - k)%nat /\
    forall i r, dwarf_registers !! (k + i)%nat = Some r -> regs !! i = reg us r).
  { intros fuel. induction fuel as [|f IH]; intros k Hk; [lia|]. cbn [copy_registers]. destruct (dwarf_to_perf_regno k) as [idx|] eqn:E.
    - assert (Hk17 : (k < 17)%nat) by (unfold dwarf_to_perf_regno in E; apply fmap_Some in E as (r & E%lookup_lt_Some & _); exact E).
      assert (Hidx : exists r, dwarf_registers !! k = Some r /\ idx = regname r) by (unfold dwarf_to_perf_regno in E; apply fmap_Some in E as (r & ? & ->); by exists r).
      destruct Hidx as (r0 & Er0 & ->). destruct (reg_lookup us r0 Hs) as (x & Ex & _). unfold reg in Ex. rewrite Ex.
      destruct (IH (S k) ltac:(lia)) as (rest & -> & Hlen & Hrest). eexists. split; [done|]. split; [cbn; lia|].
      intros [|i] r Hi; [rewrite Nat.add_0_r in Hi; rewrite Hi in Er0; injection Er0 as ->; by unfold reg; rewrite Ex|].
      apply Hrest. by replace (S k + i)%nat with (k + S i)%nat by lia.
    - exists []. split; [done|]. assert (Hk17 : (17 <= k)%nat) by (unfold dwarf_to_perf_regno in E; apply fmap_None in E as E%lookup_ge_None; exact E).
      split; [cbn; lia|]. intros i r Hi%lookup_lt_Some. cbn in Hi. lia. }
  destruct (Hcopy 18%nat 0%nat ltac:(lia)) as (regs & E & Hl & Hall). change (S (length dwarf_registers)) with 18%nat. rewrite E.
  destruct (reg_lookup us RIP Hs) as (pc & -> & _). exists regs, pc. done.
Qed.

(** ** At work *)

Definition demo_stack : SampleStack :=
  mkSS (map Z.of_nat (seq 100 7) ++ 0x7ffc0000 :: map Z.of_nat (seq 108 12)) (concat (map (fun x => le_bytes 8 (Z.of_nat x)) (seq 1 4))) 32 0.

Lemma demo_stack_ok : sample_ok demo_stack.
Proof. split; [reflexivity|apply (bool_decide_unpack _); vm_compute; exact I|split; [reflexivity|vm_compute; reflexivity]]. Qed.

Lemma memory_read_exact_witness :
  memory_read demo_stack 0x7ffc0008 (-1) = Some (Some 2) /\ memory_read demo_stack 0x7ffc0020 (-1) = Some None /\
  memory_read demo_stack 0x7ffbfff8 6 = Some (reg demo_stack RBP).
Proof.
  split_and!.
  - rewrite (proj2 (memory_read_exact demo_stack 0x7ffc0000 0x7ffc0008 (-1) demo_stack_ok eq_refl ltac:(vm_compute; split; [discriminate|reflexivity])));
      [vm_compute; reflexivity|vm_compute; discriminate|vm_compute; reflexivity|reflexivity].
  - rewrite (proj2 (memory_read_exact demo_stack 0x7ffc0000 0x7ffc0020 (-1) demo_stack_ok eq_refl ltac:(vm_compute; split; [discriminate|reflexivity])));
      [vm_compute; reflexivity|vm_compute; discriminate|vm_compute; reflexivity|reflexivity].
  - rewrite (proj2 (memory_read_exact demo_stack 0x7ffc0000 0x7ffbfff8 6 demo_stack_ok eq_refl ltac:(vm_compute; split; [discriminate|reflexivity])));
      [vm_compute; reflexivity|vm_compute; discriminate|vm_compute; reflexivity|reflexivity].
Defined.

(** ** Divergences *)

(** libdwfl asks with the DWARF number of the register it restores; the registers of the sample
    are in the order of perf.  In the red zone the callee-saved rbx is answered with rdx, and
    r12 to r15 with r8 to r11. *)
Example red_zone_wrong_register :
  forall r, r ∈ [RBX; R12; R13; R14; R15] ->
  exists n other, dwarf_registers !! n = Some r /\ memory_read demo_stack 0x7ffbfff8 (Z.of_nat n) = Some (reg demo_stack other) /\ other <> r.
Proof.
  intros r Hr. repeat (apply elem_of_cons in Hr as [->|Hr]).
  - exists 3%nat, RDX. vm_compute. done.
  - exists 12%nat, R8. vm_compute. done.
  - exists 13%nat, R9. vm_compute. done.
  - exists 14%nat, R10. vm_compute. done.
  - exists 15%nat, R11. vm_compute. done.
  - by apply not_elem_of_nil in Hr.
Qed.
