(* ===== verification/Clocks.v ===== *)
(** * Clocks and the rate limiter

    Models [include/chrono_utils.hpp], [src/tsc_clock.cc] and its header,
    [src/perf_clock.cc] and its header, and [src/ratelimiter.cc] and its header.

    [TscClock] turns cycle counts into nanoseconds with a multiplier and a shift
    found by one of three calibrations; [PerfClock] is the clock whose readings can
    be compared with the timestamps of perf events, chosen by trying the candidate
    sources on a real event; [IntervalRateLimiter] lets a number of calls through
    per interval.  What the processor, the kernel and the other clocks answer is an
    argument. *)

From S2P Require Import Prelude RingBuffer PerfSample Ddres.

(** ** Durations *)

Definition k_ns_per_sec : Z := 1000000000.

(** [timespec] and [timeval]: seconds, and nanoseconds or microseconds. *)
Definition duration_to_timespec (d : Z) : Z * Z := (Z.quot d k_ns_per_sec, d - Z.quot d k_ns_per_sec * k_ns_per_sec).
Definition duration_to_timeval (d : Z) : Z * Z :=
  let nsecs := Z.quot d k_ns_per_sec in (nsecs, Z.quot (d - nsecs * k_ns_per_sec) 1000).
Definition timespec_to_duration (ts : Z * Z) : Z := fst ts * k_ns_per_sec + snd ts.
Definition timeval_to_duration (tv : Z * Z) : Z := fst tv * 1000000 + snd tv.

(** ** TscClock *)

Definition k_10mhz : Z := 10000000.

Inductive State := kUninitialized | kUnavailable | kOK.
Inductive CalibrationMethod := kAuto | kPerf | kCpuArch | kClockMonotonicRaw | kManual.
Record CalibrationParams := mkParams { cp_offset : Z; cp_mult : Z; cp_shift : Z }.
Record Calibration := mkCalib { cal_params : CalibrationParams; cal_state : State; cal_method : CalibrationMethod }.

#[global] Instance State_eq_dec : EqDecision State.
Proof. solve_decision. Defined.
#[global] Instance CalibrationMethod_eq_dec : EqDecision CalibrationMethod.
Proof. solve_decision. Defined.

Definition initial_calibration : Calibration := mkCalib (mkParams 0 1 0) kUninitialized kAuto.

Definition rte_cpu_get_model (fam_mod_step : Z) : Z :=
  let family := Z.land (Z.shiftr fam_mod_step 8) 15 in
  let model := Z.land (Z.shiftr fam_mod_step 4) 15 in
  if (family =? 6) || (family =? 15)
  then model + Z.shiftl (Z.land (Z.shiftr fam_mod_step 16) 15) 4
  else model.

Definition check_model_wsm_nhm (model : Z) : bool :=
  existsb (Z.eqb model) [0x25; 0x2C; 0x2F; 0x1E; 0x1F; 0x1A; 0x2E].
Definition check_model_gdm_dnv (model : Z) : bool := existsb (Z.eqb model) [0x5C; 0x5F].

Definition bit_AVX : Z := 2 ^ 28.

(** What the processor answers: the maximal leaf, leaves 0x15 and 0x1 (registers a,
    b, c), the result of reading the MSR and the value read. *)
Record cpu_env := mkCpu { cpu_maxleaf : Z; cpu_leaf15 : Z * Z * Z; cpu_leaf1 : Z * Z * Z; cpu_rdmsr : Z * Z }.

(** [get_tsc_freq_arch] on x86-64; [None] is a division by zero. *)
Definition get_tsc_freq_arch (e : cpu_env) : option Z :=
  let from_model :=
    let '(a, b, c) := cpu_leaf1 e in
    let model := u8 (rte_cpu_get_model a) in
    let from_msr mult :=
      let '(ret, tsc_hz) := cpu_rdmsr e in
      if ret <? 0 then Some 0 else Some (u64 (Z.land (Z.shiftr tsc_hz 8) 255 * mult * 1000000)) in
    if check_model_wsm_nhm model then from_msr 133
    else if negb (Z.land c bit_AVX =? 0) || check_model_gdm_dnv model then from_msr 100
    else Some 0 in
  if 0x15 <=? cpu_maxleaf e then
    let '(a, b, c) := cpu_leaf15 e in
    if negb (b =? 0) && negb (c =? 0) then
      if a =? 0 then None else Some (u64 (c * (b / a)))
    else from_model
  else from_model.

(** One measurement against [CLOCK_MONOTONIC]: the results of the clock and the
    counter before and after the sleep. *)
Record freq_env := mkFreq { fe_ok : bool; fe_start : Z; fe_end : Z; fe_t_start : Z * Z; fe_t_end : Z * Z }.

Definition get_tsc_freq (e : freq_env) : option Z :=
  if fe_ok e then
    let ns := u64 ((fst (fe_t_end e) - fst (fe_t_start e)) * k_ns_per_sec)
              +w (snd (fe_t_end e) - snd (fe_t_start e)) in
    if ns =? 0 then None
    else
      let tsc_hz := u64 ((fe_end e -w fe_start e) * k_ns_per_sec) / ns in
      Some (u64 ((tsc_hz +w k_10mhz / 2) / k_10mhz * k_10mhz))
  else Some 0.

(** [std::sort] on the measurements. *)
Fixpoint insert_sorted (x : Z) (l : list Z) : list Z :=
  match l with
  | [] => [x]
  | y :: l' => if x <=? y then x :: l else y :: insert_sorted x l'
  end.
Definition sort (l : list Z) : list Z := foldr insert_sorted [] l.

Fixpoint measurements (es : list freq_env) : option (list Z) :=
  match es with
  | [] => Some []
  | e :: es' =>
      let? freq := get_tsc_freq e in
      let? freqs := measurements es' in
      Some (if 0 <? freq then freq :: freqs else freqs)
  end.

(** [estimate_tsc_freq] over its three measurements; [None]: the element read was
    never written. *)
Definition estimate_tsc_freq (e1 e2 e3 : freq_env) : option Z :=
  let? freqs := measurements [e1; e2; e3] in
  match freqs with
  | [] => Some 0
  | _ => sort freqs !! ((length freqs + 1) / 2)%nat
  end.

(** The page perf maps for a dummy event: [pm_fd]: the event was opened,
    [pm_map]: [Some] page when the mapping succeeded. *)
Record perf_page := mkPage { pg_cap_user_time : bool; pg_cap_user_time_zero : bool; pg_mult : Z; pg_shift : Z; pg_zero : Z }.
Record perf_env := mkPerfEnv { pm_fd : bool; pm_map : option perf_page }.

Definition init_from_perf (c : Calibration) (e : perf_env) : bool * Calibration :=
  let c := mkCalib (cal_params c) kUnavailable (cal_method c) in
  if pm_fd e then
    match pm_map e with
    | Some p =>
        if pg_cap_user_time p then
          (true, mkCalib (mkParams (if pg_cap_user_time_zero p then i64 (pg_zero p) else 0) (pg_mult p) (pg_shift p))
                         kOK kPerf)
        else (false, c)
    | None => (false, c)
    end
  else (false, c).

(** [TscClock::init(CalibrationParams)]. *)
Definition tsc_init_params (params : CalibrationParams) : Calibration := mkCalib params kOK kManual.

Definition set_method (c : Calibration) (m : CalibrationMethod) : Calibration := mkCalib (cal_params c) (cal_state c) m.

(** The multiplier [init] computes for a frequency, a 32-bit member. *)
Definition tsc_mult (tsc_hz : Z) : Z :=
  u32 (u64 (u64 (k_ns_per_sec * Z.shiftl 1 31) + tsc_hz / 2) / tsc_hz).

(** [TscClock::init(CalibrationMethod)]; [arch] and [est] are the results of
    [get_tsc_freq_arch] and [estimate_tsc_freq]. *)
Definition tsc_init (c : Calibration) (method : CalibrationMethod) (pe : perf_env) (arch est : option Z) :
    option (DDRes * Calibration) :=
  let auto := bool_decide (method = kAuto) in
  let '(perf_ok, c) := if auto || bool_decide (method = kPerf) then init_from_perf c pe else (false, c) in
  if perf_ok then Some (ddres_init, c)
  else
    let? (tsc_hz, c) := (if auto || bool_decide (method = kCpuArch)
                         then let? hz := arch in Some (hz, set_method c kCpuArch) else Some (0, c)) in
    let? (tsc_hz, c) := (if (tsc_hz =? 0) && (auto || bool_decide (method = kClockMonotonicRaw))
                         then let? hz := est in Some (hz, set_method c kClockMonotonicRaw) else Some (tsc_hz, c)) in
    if tsc_hz =? 0 then Some (ddres_error (what_of "TSC"), mkCalib (cal_params c) kUnavailable (cal_method c))
    else Some (ddres_init, mkCalib (mkParams 0 (tsc_mult tsc_hz) 31) kOK (cal_method c)).

(** [cycles_to_duration]: the product has 128 bits, the duration 64. *)
Definition cycles_to_duration (p : CalibrationParams) (cycles : Z) : Z :=
  i64 (Z.shiftr (cycles * cp_mult p) (cp_shift p)).
Definition cycles_to_time_point (p : CalibrationParams) (cycles : Z) : Z := cp_offset p + cycles_to_duration p cycles.

(** ** PerfClock *)

Inductive PerfClockSource := kClockMonotonic | kClockMonotonicRawSource | kTSC | kNoClock.
Inductive clock_func := null_clock | g_clock_monotonic_func | g_clock_monotonic_raw_func | g_tsc_clock_func.
Record PerfClock := mkClock { pc_func : clock_func; pc_source : PerfClockSource }.

#[global] Instance PerfClockSource_eq_dec : EqDecision PerfClockSource.
Proof. solve_decision. Defined.

Definition initial_clock : PerfClock := mkClock null_clock kNoClock.

(** The state of the clocks of the machine at a moment. *)
Record clocks_at := mkAt { at_monotonic : Z * Z; at_monotonic_raw : Z * Z; at_tsc : Z }.

Definition call_clock (p : CalibrationParams) (f : clock_func) (t : clocks_at) : Z :=
  match f with
  | null_clock => 0
  | g_clock_monotonic_func => timespec_to_duration (at_monotonic t)
  | g_clock_monotonic_raw_func => timespec_to_duration (at_monotonic_raw t)
  | g_tsc_clock_func => cycles_to_time_point p (at_tsc t)
  end.

Definition now (p : CalibrationParams) (c : PerfClock) (t : clocks_at) : Z := call_clock p (pc_func c) t.

Definition clock_reset (c : PerfClock) : PerfClock := mkClock null_clock kNoClock.

Definition perf_clock_time_point_from_timestamp (timestamp : Z) : Z := i64 timestamp.

(** One round of [test_clock]: the clocks before and after the [mmap], its success,
    and what the kernel wrote to the ring. *)
Record check_env := mkCheck { ck_before : clocks_at; ck_after : clocks_at; ck_mmap_ok : bool;
                              ck_kernel : RingBuffer -> RingBuffer; ck_alloc : bool }.

(** A run of [test_clock]: the event was opened, its ring mapped and enabled. *)
Record test_env := mkTest { te_fd : bool; te_ring : option RingBuffer; te_enabled : bool; te_checks : list check_env }.

Definition nb_checks : nat := 10.

Definition check_round (p : CalibrationParams) (c : PerfClock) (rb : RingBuffer) (e : check_env) :
    option (option RingBuffer) :=
  let t0 := now p c (ck_before e) in
  let t1 := now p c (ck_after e) in
  if negb (ck_mmap_ok e) then Some None
  else
    let rb := ck_kernel e rb in
    let? (b, rb) := pr_read_all_available rb (pr_update_available rb) (ck_alloc e) in
    match b with
    | None => Some None
    | Some b =>
        if buf_size b =? 0 then Some None
        else
          let? bytes := deref rb b in
          let? h := load_hdr bytes in
          if negb (h_type h =? PERF_RECORD_MMAP2) then Some None
          else
            let? time := hdr_time bytes PERF_SAMPLE_TIME in
            let timestamp := perf_clock_time_point_from_timestamp time in
            if (timestamp <? t0) || (t1 <? timestamp) then Some None
            else if h_size h <? buf_size b then Some None
            else Some (Some rb)
    end.

Fixpoint check_rounds (p : CalibrationParams) (c : PerfClock) (rb : RingBuffer) (es : list check_env) : option bool :=
  match es with
  | [] => Some true
  | e :: es' =>
      let? r := check_round p c rb e in
      match r with Some rb' => check_rounds p c rb' es' | None => Some false end
  end.

Definition test_clock (p : CalibrationParams) (c : PerfClock) (source : PerfClockSource) (e : test_env) : option bool :=
  if bool_decide (source = kNoClock) then Some false
  else if negb (te_fd e) then Some false
  else match te_ring e with
       | None => Some false
       | Some rb => if te_enabled e then check_rounds p c rb (take nb_checks (te_checks e)) else Some false
       end.

(** [PerfClock::init()]: the candidates in order, each tried with its own function
    installed. *)
Definition candidates (cal : Calibration) : list (PerfClockSource * clock_func) :=
  (if bool_decide (cal_state cal = kOK) && bool_decide (cal_method cal = kPerf) then [(kTSC, g_tsc_clock_func)] else [])
  ++ [(kClockMonotonic, g_clock_monotonic_func); (kClockMonotonicRawSource, g_clock_monotonic_raw_func)].

Fixpoint try_clocks (p : CalibrationParams) (c : PerfClock) (l : list (PerfClockSource * clock_func))
    (env : PerfClockSource -> test_env) : option PerfClock :=
  match l with
  | [] => Some (mkClock null_clock kNoClock)
  | (source, f) :: l' =>
      let c := mkClock f (pc_source c) in
      let? ok := test_clock p c source (env source) in
      if ok then Some (mkClock f source) else try_clocks p c l' env
  end.

Definition perf_clock_init (cal : Calibration) (c : PerfClock) (env : PerfClockSource -> test_env) :
    option (PerfClockSource * PerfClock) :=
  let? c := try_clocks (cal_params cal) c (candidates cal) env in Some (pc_source c, c).

(** [PerfClock::init(PerfClockSource)]. *)
Definition func_of_source (s : PerfClockSource) : clock_func :=
  match s with
  | kClockMonotonic => g_clock_monotonic_func
  | kClockMonotonicRawSource => g_clock_monotonic_raw_func
  | kTSC => g_tsc_clock_func
  | kNoClock => null_clock
  end.
Definition perf_clock_init_source (s : PerfClockSource) : PerfClock := mkClock (func_of_source s) s.

(** ** IntervalRateLimiter *)

Record IntervalRateLimiter := mkRL {
  max_count_per_interval : Z;
  interval : Z;
  rl_count : Z;             (* atomic 64-bit counter *)
  interval_end : Z
}.

Definition rate_limiter (max_count itv : Z) : IntervalRateLimiter := mkRL max_count itv (2 ^ 64 - 1) 0.

Definition set_count (r : IntervalRateLimiter) (c : Z) : IntervalRateLimiter :=
  mkRL (max_count_per_interval r) (interval r) c (interval_end r).

(** [check_slow]; [cas]: the weak compare-and-exchange of [_interval_end] succeeds. *)
Definition check_slow (r : IntervalRateLimiter) (t : Z) (cas : bool) : bool * IntervalRateLimiter :=
  if t <? interval_end r then (false, r)
  else if negb cas then (false, r)
  else
    let r' := mkRL (max_count_per_interval r) (interval r) (rl_count r) (t + interval r) in
    if interval_end r =? 0
    then (rl_count r <? max_count_per_interval r, set_count r' (rl_count r +w 1))
    else (true, set_count r' 1).

Definition check (r : IntervalRateLimiter) (t : Z) (cas : bool) : bool * IntervalRateLimiter :=
  let old_count := rl_count r in
  let r := set_count r (rl_count r +w 1) in
  if old_count <? max_count_per_interval r then (true, r) else check_slow r t cas.

(** ** TSC: theorems *)

(** The rounded quotient is within half a unit of the exact one. *)
Lemma rounded_quotient a hz : 0 < hz -> 0 <= a -> Z.abs ((a + hz / 2) / hz * hz - a) * 2 <= hz.
Proof.
  intros Hh Ha. pose proof (Z.div_mod (a + hz / 2) hz). pose proof (Z.mod_pos_bound (a + hz / 2) hz).
  pose proof (Z.div_mod hz 2). pose proof (Z.mod_pos_bound hz 2). lia.
Qed.

Lemma tsc_mult_exact hz : 500000000 < hz < 2 ^ 62 ->
  tsc_mult hz = (k_ns_per_sec * 2 ^ 31 + hz / 2) / hz /\ 0 <= tsc_mult hz < 2 ^ 32.
Proof.
  intros H. unfold tsc_mult, k_ns_per_sec. rewrite Z.shiftl_1_l.
  change (1000000000 * 2 ^ 31) with 2147483648000000000. rewrite (u64_small 2147483648000000000) by done.
  assert (0 <= hz / 2 < 2 ^ 61) by (split; [apply Z.div_pos|apply Z.div_lt_upper_bound]; lia).
  rewrite u64_small by (unfold is_u64; lia).
  assert (0 <= (2147483648000000000 + hz / 2) / hz < 2 ^ 32).
  { split; [apply Z.div_pos; lia|]. apply Z.div_lt_upper_bound; [lia|].
    pose proof (Z.div_mod hz 2). pose proof (Z.mod_pos_bound hz 2). lia. }
  rewrite u32_small by lia. done.
Qed.

Lemma tsc_init_params_of c method pe hz c' :
  tsc_init c method pe (Some hz) (Some hz) = Some (ddres_init, c') -> cal_method c' <> kPerf ->
  cal_params c' = mkParams 0 (tsc_mult hz) 31.
Proof.
  unfold tsc_init, init_from_perf.
  repeat (case_match; simplify_eq/=; try done); intros; by simplify_eq/=.
Qed.

Lemma cycles_to_duration_small mult n : 0 <= n < 2 ^ 62 -> 0 <= mult < 2 ^ 32 ->
  cycles_to_duration (mkParams 0 mult 31) n = n * mult / 2 ^ 31.
Proof.
  intros Hn Hm. unfold cycles_to_duration. cbn [cp_mult cp_shift]. rewrite Z.shiftr_div_pow2 by lia.
  apply i64_small. split; [assert (0 <= n * mult / 2 ^ 31) by (apply Z.div_pos; nia); lia|].
  apply Z.div_lt_upper_bound; nia.
Qed.

(** [TscClock] after a calibration that found a frequency above 500 MHz: the
    conversion of [n] cycles differs from the exact number of nanoseconds
    [n * 10^9 / hz] by at most [1 + n / 2^32], and more cycles never give a smaller
    duration. *)
Theorem tsc_conversion_accurate c method pe hz c' n n' :
  tsc_init c method pe (Some hz) (Some hz) = Some (ddres_init, c') -> cal_method c' <> kPerf ->
  500000000 < hz < 2 ^ 62 -> 0 <= n <= n' -> n' < 2 ^ 62 ->
  Z.abs (cycles_to_duration (cal_params c') n * hz - n * k_ns_per_sec) * 2 ^ 32 <= hz * (2 ^ 32 + n) /\
  cycles_to_duration (cal_params c') n <= cycles_to_duration (cal_params c') n'.
Proof.
  intros Hi Hm Hh Hn Hn'. destruct (tsc_mult_exact hz Hh) as [Em Hb].
  rewrite (tsc_init_params_of _ _ _ _ _ Hi Hm), !cycles_to_duration_small by lia.
  pose proof (rounded_quotient (k_ns_per_sec * 2 ^ 31) hz). unfold k_ns_per_sec in *. rewrite <- Em in *.
  set (m := tsc_mult hz) in *. split; [|apply Z.div_le_mono; nia].
  pose proof (Z.div_mod (n * m) (2 ^ 31)). pose proof (Z.mod_pos_bound (n * m) (2 ^ 31)). nia.
Qed.

Lemma tsc_conversion_accurate_witness :
  tsc_init initial_calibration kCpuArch (mkPerfEnv false None) (Some 2100000000) (Some 2100000000)
    = Some (ddres_init, mkCalib (mkParams 0 1022611261 31) kOK kCpuArch) /\
  Z.abs (cycles_to_duration (mkParams 0 1022611261 31) 2100000000 * 2100000000 - 2100000000 * k_ns_per_sec) * 2 ^ 32
    <= 2100000000 * (2 ^ 32 + 2100000000).
Proof.
  split; [by vm_compute|].
  apply (tsc_conversion_accurate initial_calibration kCpuArch (mkPerfEnv false None) 2100000000
           (mkCalib (mkParams 0 1022611261 31) kOK kCpuArch) 2100000000 2100000000); [by vm_compute|done|lia..].
Defined.

(** A counter slower than 500 MHz (the 25 MHz system counter of many ARM machines)
    needs a multiplier of more than 32 bits: the high bits are lost, and one second of
    cycles converts to less than a hundredth of a second. *)
Lemma tsc_mult_overflow :
  tsc_mult 25000000 <> (k_ns_per_sec * 2 ^ 31 + 25000000 / 2) / 25000000 /\
  cycles_to_duration (mkParams 0 (tsc_mult 25000000) 31) 25000000 = 0.
Proof. split; by vm_compute. Qed.

(** With one usable measurement of three the element returned was never written;
    with three, the largest one is returned, not the middle one. *)
Definition demo_freq (mhz : Z) : freq_env := mkFreq true 0 (mhz * 20000) (5, 0) (5, 20000000).
Definition no_freq : freq_env := mkFreq false 0 0 (0, 0) (0, 0).

Lemma estimate_one_measurement : estimate_tsc_freq (demo_freq 2100) no_freq no_freq = None.
Proof. done. Qed.

Lemma estimate_takes_largest :
  estimate_tsc_freq (demo_freq 2100) (demo_freq 3000) (demo_freq 2200) = Some 3000000000.
Proof. done. Qed.

(** The ratio of leaf 0x15 is divided before it is multiplied: for EBX/EAX = 275/2 and
    a 24 MHz crystal the frequency is 12 MHz too low. *)
Lemma tsc_ratio_truncated :
  get_tsc_freq_arch (mkCpu 0x16 (2, 275, 24000000) (0, 0, 0) (0, 0)) = Some (24000000 * 275 / 2 - 12000000).
Proof. done. Qed.

(** ** PerfClock: theorems *)

(** A round that passes read exactly one event, and its timestamp lies between the
    clock's readings before and after the system call that caused it. *)
Lemma check_round_between p c rb e rb' : check_round p c rb e = Some (Some rb') ->
  exists ts, now p c (ck_before e) <= ts <= now p c (ck_after e) /\
    exists bytes time, hdr_time bytes PERF_SAMPLE_TIME = Some time /\ ts = perf_clock_time_point_from_timestamp time.
Proof.
  unfold check_round. intros H. repeat (case_match; simplify_eq/=; try done). zbool.
  eexists. split; [|by eexists _, _]. lia.
Qed.

Lemma check_rounds_between p c rb es : check_rounds p c rb es = Some true ->
  Forall (fun e => exists ts, now p c (ck_before e) <= ts <= now p c (ck_after e) /\
    exists bytes time, hdr_time bytes PERF_SAMPLE_TIME = Some time /\ ts = perf_clock_time_point_from_timestamp time) es.
Proof.
  revert rb. induction es as [|e es IH]; intros rb; cbn [check_rounds]; [by constructor|].
  destruct (check_round p c rb e) as [[rb'|]|] eqn:E; [|done..]. intros H.
  constructor; [by eapply check_round_between|by eapply IH].
Qed.

(** [try_clocks] stops at the first candidate whose test passes. *)
Lemma try_clocks_spec p c l env c' : try_clocks p c l env = Some c' ->
  (pc_source c' = kNoClock /\ pc_func c' = null_clock /\
    Forall (fun sf => exists c0, test_clock p (mkClock (snd sf) c0) (fst sf) (env (fst sf)) = Some false) l) \/
  (exists l1 l2 c0, l = l1 ++ (pc_source c', pc_func c') :: l2 /\
    test_clock p (mkClock (pc_func c') c0) (pc_source c') (env (pc_source c')) = Some true /\
    Forall (fun sf => exists c0, test_clock p (mkClock (snd sf) c0) (fst sf) (env (fst sf)) = Some false) l1).
Proof.
  revert c. induction l as [|[s f] l IH]; intros c; cbn [try_clocks].
  - intros ?. simplify_eq. by left.
  - destruct (test_clock p (mkClock f (pc_source c)) s (env s)) as [[|]|] eqn:E; [| |done].
    + intros ?. simplify_eq. right. exists [], l, (pc_source c). by split_and!.
    + intros H. destruct (IH _ H) as [(?&?&?)|(l1&l2&c0&->&?&?)].
      * left. split_and!; [done..|]. constructor; [|done]. by exists (pc_source c).
      * right. exists ((s, f) :: l1), l2, c0. split_and!; [done..|]. constructor; [|done]. by exists (pc_source c).
Qed.

Lemma test_clock_passed p c s e : test_clock p c s e = Some true ->
  Forall (fun e => exists ts, now p c (ck_before e) <= ts <= now p c (ck_after e) /\
    exists bytes time, hdr_time bytes PERF_SAMPLE_TIME = Some time /\ ts = perf_clock_time_point_from_timestamp time)
    (take nb_checks (te_checks e)).
Proof. unfold test_clock. repeat case_match; try done. apply check_rounds_between. Qed.

(** [PerfClock::init]: the clock installed is the one of the source returned, and
    is either the null clock, when no candidate passed, or one that passed its test:
    in each of the ten rounds the kernel's timestamp lies between the readings of
    this very clock before and after the event; the TSC is only chosen when it was
    calibrated by perf. *)
Theorem perf_clock_init_sound cal c env s c' :
  perf_clock_init cal c env = Some (s, c') ->
  pc_source c' = s /\ c' = perf_clock_init_source s /\
  (s = kTSC -> cal_state cal = kOK /\ cal_method cal = kPerf) /\
  (s <> kNoClock -> Forall (fun e => exists ts,
     now (cal_params cal) c' (ck_before e) <= ts <= now (cal_params cal) c' (ck_after e) /\
     exists bytes time, hdr_time bytes PERF_SAMPLE_TIME = Some time /\ ts = perf_clock_time_point_from_timestamp time)
     (take nb_checks (te_checks (env s)))).
Proof.
  unfold perf_clock_init. destruct (try_clocks _ _ _ _) as [c1|] eqn:E; [|done]. intros ?. simplify_eq.
  destruct c' as [f s]. cbn [pc_source]. apply try_clocks_spec in E as [(Es & Ef & _)|(l1 & l2 & c0 & El & Ht & _)];
    cbn [pc_source pc_func] in *; [by subst|].
  assert (Hin : (s, f) ∈ candidates cal) by (rewrite El; set_solver).
  unfold candidates in Hin. apply elem_of_app in Hin.
  assert (f = func_of_source s /\ (s = kTSC -> cal_state cal = kOK /\ cal_method cal = kPerf)) as [-> Htsc].
  { destruct Hin as [Hin|Hin].
    - case_match eqn:E; [|by apply elem_of_nil in Hin]. apply list_elem_of_singleton in Hin. simplify_eq.
      by apply andb_true_iff in E as [E1%bool_decide_eq_true E2%bool_decide_eq_true].
    - rewrite !elem_of_cons, elem_of_nil in Hin. destruct Hin as [?|[?|[]]]; by simplify_eq. }
  split_and!; [done..|]. intros _. exact (test_clock_passed _ _ _ _ Ht).
Qed.

(** A kernel that writes one MMAP2 record with its monotonic clock at each round. *)
Definition demo_mmap2 (time : Z) : list Z := [10; 0; 0; 0; 0; 0; 16; 0] ++ le_bytes 8 time.
Definition demo_kernel (time : Z) (rb : RingBuffer) : RingBuffer :=
  set_writer_pos (set_data rb (wr (data rb) (data_size rb) (writer_pos rb) (demo_mmap2 time))) (writer_pos rb + 16).
Definition demo_check (t : Z) : check_env :=
  mkCheck (mkAt (1, t) (9, t) 0) (mkAt (1, t + 10) (9, t + 10) 0) true (demo_kernel (1000000000 + t + 5)) true.
Definition demo_tests (s : PerfClockSource) : test_env :=
  mkTest true (Some (rb_init 4096 8192 (fun _ => 0) 0 0 kPerfRingBuffer true)) true (map demo_check [10; 20; 30; 40; 50; 60; 70; 80; 90; 100]).

(** The monotonic clock passes on that kernel; the raw clock would not. *)
Lemma perf_clock_init_sound_witness :
  perf_clock_init initial_calibration initial_clock demo_tests = Some (kClockMonotonic, perf_clock_init_source kClockMonotonic) /\
  test_clock (mkParams 0 1 0) (perf_clock_init_source kClockMonotonicRawSource) kClockMonotonicRawSource (demo_tests kClockMonotonicRawSource) = Some false /\
  (kClockMonotonic = kTSC -> cal_state initial_calibration = kOK /\ cal_method initial_calibration = kPerf).
Proof.
  split; [by vm_compute|]. split; [by vm_compute|].
  apply (perf_clock_init_sound initial_calibration initial_clock demo_tests kClockMonotonic (perf_clock_init_source kClockMonotonic)).
  by vm_compute.
Defined.

(** ** The rate limiter: theorems *)

(** A sequence of calls: the time of each and whether its exchange succeeds. *)
Fixpoint checks (r : IntervalRateLimiter) (calls : list (Z * bool)) : list bool * IntervalRateLimiter :=
  match calls with
  | [] => ([], r)
  | (t, cas) :: calls' =>
      let '(b, r) := check r t cas in
      let '(bs, r) := checks r calls' in (b :: bs, r)
  end.

Definition accepted (bs : list bool) : Z := Z.of_nat (count_if (fun b => b) bs).

(** Calls the limiter still lets through in the current interval. *)
Definition allowance (r : IntervalRateLimiter) : Z :=
  if rl_count r =? 2 ^ 64 - 1 then max_count_per_interval r else Z.max 0 (max_count_per_interval r - rl_count r).

(** The counter does not wrap in the next [n] calls, its first step apart. *)
Definition no_wrap (r : IntervalRateLimiter) (n : Z) : Prop :=
  0 <= max_count_per_interval r < 2 ^ 64 - 1 /\ 0 <= rl_count r /\ 0 <= n < 2 ^ 62 /\
  (rl_count r + 2 * n < 2 ^ 64 - 1 \/ rl_count r = 2 ^ 64 - 1).

Lemma check_step r t cas n b r' : no_wrap r n -> 0 < n -> check r t cas = (b, r') ->
  no_wrap r' (n - 1) /\ max_count_per_interval r' = max_count_per_interval r /\ interval r' = interval r /\
  ((interval_end r' = interval_end r /\ Z.b2z b + allowance r' <= allowance r) \/
   (interval_end r <= t /\ interval_end r' = t + interval r /\
    Z.b2z b + allowance r' <= Z.max 1 (max_count_per_interval r))).
Proof.
  intros (HM & Hc & Hn & Hw) Hn0. destruct r as [M I c e]. cbn [max_count_per_interval rl_count] in *.
  assert (Hu : c +w 1 = if c =? 2 ^ 64 - 1 then 0 else c + 1).
  { destruct (Z.eqb_spec c (2 ^ 64 - 1)) as [->|]; [done|]. apply u64_small. unfold is_u64. lia. }
  assert (Hu2 : c +w 1 +w 1 = if c =? 2 ^ 64 - 1 then 1 else c + 2).
  { rewrite Hu. destruct (Z.eqb_spec c (2 ^ 64 - 1)) as [->|]; [done|].
    replace (c + 1 + 1) with (c + 2) by lia. apply u64_small. unfold is_u64. lia. }
  unfold check, check_slow, no_wrap, allowance, set_count. cbn [max_count_per_interval interval rl_count interval_end].
  rewrite Hu2, Hu. assert (HW : 2 ^ 63 < 2 ^ 64 - 1) by lia. clear Hu Hu2.
  set (W := 2 ^ 64 - 1) in *. set (N := 2 ^ 62) in *. assert (HN : 2 * N < W) by (unfold N, W; lia). clearbody W N.
  destruct (Z.eqb_spec c W) as [Ec|Ec]; repeat (case_match; try done);
    intros [= <- <-]; cbn [rl_count max_count_per_interval interval interval_end] in *; zbool; unfold Z.b2z; zcases; lia.
Qed.

Lemma allowance_nonneg r n : no_wrap r n -> 0 <= allowance r.
Proof. unfold no_wrap, allowance. intros. zcases; lia. Qed.

Lemma accepted_cons b bs : accepted (b :: bs) = Z.b2z b + accepted bs.
Proof. unfold accepted. destruct b; simpl; lia. Qed.

(** Before the end of the interval only the allowance passes. *)
Lemma within_interval r calls : no_wrap r (Z.of_nat (length calls)) ->
  Forall (fun c => fst c < interval_end r) calls -> accepted (fst (checks r calls)) <= allowance r.
Proof.
  revert r. induction calls as [|[t cas] calls IH]; intros r Hw Hc; cbn [checks].
  { apply allowance_nonneg in Hw. cbn [fst]. change (accepted []) with 0. lia. }
  inversion_clear Hc as [|? ? Ht Hc']. cbn [fst length] in *. destruct (check r t cas) as [b r1] eqn:E.
  destruct (check_step r t cas _ b r1 Hw) as (Hw1 & Hm & Hi & [[He Ha]|[Hx _]]); [lia|done| |lia].
  replace (Z.of_nat (S (length calls)) - 1) with (Z.of_nat (length calls)) in Hw1 by lia.
  specialize (IH r1 Hw1). rewrite He in IH. specialize (IH Hc').
  destruct (checks r1 calls) as [bs r2]. cbn [fst] in *. rewrite accepted_cons. lia.
Qed.

(** A window of one interval's length meets at most one new interval. *)
Lemma within_window r calls T : no_wrap r (Z.of_nat (length calls)) ->
  Forall (fun c => T <= fst c < T + interval r) calls ->
  accepted (fst (checks r calls)) <= allowance r + Z.max 1 (max_count_per_interval r).
Proof.
  revert r. induction calls as [|[t cas] calls IH]; intros r Hw Hc; cbn [checks].
  { apply allowance_nonneg in Hw. cbn [fst]. change (accepted []) with 0. lia. }
  inversion_clear Hc as [|? ? Ht Hc']. cbn [fst length] in *. destruct (check r t cas) as [b r1] eqn:E.
  destruct (check_step r t cas _ b r1 Hw) as (Hw1 & Hm & Hi & Hd); [lia|done|].
  replace (Z.of_nat (S (length calls)) - 1) with (Z.of_nat (length calls)) in Hw1 by lia.
  pose proof (allowance_nonneg _ _ Hw).
  destruct Hd as [[He Ha]|(Hx & He & Ha)].
  - specialize (IH r1 Hw1). rewrite Hi, Hm in IH. specialize (IH Hc').
    destruct (checks r1 calls) as [bs r2]. cbn [fst] in *. rewrite accepted_cons. lia.
  - pose proof (within_interval r1 calls Hw1) as Hin. rewrite He in Hin.
    assert (Forall (fun c => fst c < t + interval r) calls) as Hf.
    { eapply Forall_impl; [exact Hc'|]. intros x. cbn. lia. }
    specialize (Hin Hf). destruct (checks r1 calls) as [bs r2]. cbn [fst] in *. rewrite accepted_cons. lia.
Qed.

Lemma checks_no_wrap r calls n : no_wrap r (Z.of_nat (length calls) + n) -> 0 <= n ->
  no_wrap (snd (checks r calls)) n /\ interval (snd (checks r calls)) = interval r /\
  max_count_per_interval (snd (checks r calls)) = max_count_per_interval r.
Proof.
  revert r. induction calls as [|[t cas] calls IH]; intros r Hw Hn; cbn [checks]; [done|].
  destruct (check r t cas) as [b r1] eqn:E. cbn [length] in Hw.
  destruct (check_step r t cas _ b r1 Hw) as (Hw1 & Hm & Hi & _); [lia|done|].
  destruct (IH r1) as (H1 & H2 & H3); [|done|].
  { replace (Z.of_nat (length calls) + n) with (Z.of_nat (S (length calls)) + n - 1) by lia. done. }
  destruct (checks r1 calls) as [bs r2]. cbn [snd] in *. by rewrite H2, H3, Hi, Hm.
Qed.

(** [IntervalRateLimiter]: after any calls, in any further run of calls whose times
    lie in a window of one interval, at most twice [max 1 N] pass: the limit of [N]
    per interval holds for the limiter's own intervals, and a window can meet two of
    them; races lost on the compare-and-exchange are included. *)
Theorem rate_limit_per_window N I before window T :
  0 <= N < 2 ^ 64 - 1 -> Z.of_nat (length before) + Z.of_nat (length window) < 2 ^ 62 ->
  Forall (fun c => T <= fst c < T + I) window ->
  accepted (fst (checks (snd (checks (rate_limiter N I) before)) window)) <= 2 * Z.max 1 N.
Proof.
  intros HN Hl Hw. destruct (checks_no_wrap (rate_limiter N I) before (Z.of_nat (length window))) as (H1 & H2 & H3).
  { unfold no_wrap. cbn. lia. } { lia. }
  cbn [rate_limiter interval max_count_per_interval] in H2, H3.
  pose proof (within_window _ window T H1) as H. rewrite H2, H3 in H. specialize (H Hw).
  assert (allowance (snd (checks (rate_limiter N I) before)) <= N) by (unfold no_wrap, allowance in *; rewrite H3; zcases; lia).
  lia.
Qed.

(** Two intervals of 100 meet in a window of 100: three calls pass with a limit of 2. *)
Lemma rate_limit_per_window_witness :
  accepted (fst (checks (snd (checks (rate_limiter 2 100) [(50, true)])) [(149, true); (150, true); (151, true); (152, true)])) = 3 /\ 3 <= 2 * Z.max 1 2.
Proof.
  split; [by vm_compute|].
  apply (rate_limit_per_window 2 100 [(50, true)] [(149, true); (150, true); (151, true); (152, true)] 100);
    [lia|cbn; lia|repeat (constructor; [cbn; lia|]); constructor].
Defined.

(** The limit is reached: once an interval has ended, the next call opens a new one and
    it and the [N - 1] after it pass. *)
Lemma new_interval_passes r ts t n : no_wrap r (Z.of_nat (S n)) -> interval_end r <= t -> interval_end r <> 0 ->
  max_count_per_interval r <= rl_count r -> rl_count r <> 2 ^ 64 - 1 ->
  Z.of_nat (S n) <= max_count_per_interval r -> length ts = n ->
  fst (checks r ((t, true) :: ts)) = replicate (S n) true.
Proof.
  intros (HM & Hc & Hn & Hw) Ht He Hm Hne Hle Hts. cbn [checks]. unfold check. cbn [set_count max_count_per_interval].
  destruct (Z.ltb_spec (rl_count r) (max_count_per_interval r)); [lia|]. unfold check_slow. cbn [set_count interval_end negb].
  destruct (Z.ltb_spec t (interval_end r)); [lia|]. destruct (Z.eqb_spec (interval_end r) 0); [done|].
  cbn [interval max_count_per_interval rl_count set_count].
  assert (Hrun : forall (k : Z) I M e ts, 0 <= k -> k + Z.of_nat (length ts) <= M -> M < 2 ^ 64 ->
            fst (checks (mkRL M I k e) ts) = replicate (length ts) true).
  { clear. intros k I M e ts. revert k. induction ts as [|[t cas] ts IH]; intros k Hk Hl HM; [done|].
    cbn [checks length] in *. unfold check. cbn [set_count max_count_per_interval rl_count].
    destruct (Z.ltb_spec k M); [|lia]. unfold set_count. cbn [max_count_per_interval rl_count interval interval_end].
    rewrite u64_small by (unfold is_u64; lia). specialize (IH (k + 1)). destruct (checks _ ts). cbn [fst] in *.
    rewrite IH by lia. done. }
  specialize (Hrun 1 (interval r) (max_count_per_interval r) (t + interval r) ts).
  unfold set_count. cbn [interval max_count_per_interval rl_count interval_end].
  destruct (checks _ ts). cbn [fst] in *. rewrite Hrun by lia. by subst n.
Qed.
