(* ===== verification/AllocTracker.v ===== *)
(** * The allocation tracker of the profiled process

    Model of [src/lib/allocation_tracker.cc], [include/lib/allocation_tracker.hpp],
    [include/lib/allocation_tracker_tls.hpp], [include/lib/allocation_event.hpp],
    [include/lib/reentry_guard.hpp] and of [save_stack] of
    [src/lib/savecontext.cc].  The tracker samples allocations, records the sampled
    addresses in an address set and pushes events into the MPSC ring.

    The address set is used through the interface [AddrSet]; what the machine
    decides (locks, clock, eventfd writes, the stack, random draws) are arguments.
    A reservation is filled by rewriting its whole payload, the bytes the code does
    not assign keeping their value. *)

From S2P Require Import Prelude RingBuffer MpscRing PerfSample Ddres.

(** ** What the tracker asks of the address set *)

Definition trackable (a : Z) : Prop := is_u64 a /\ a <> 0 /\ a <> 1.

Class AddrSet (T : Type) := {
  as_init : Z -> option T;
  as_add : T -> Z -> bool -> option (bool * T);
  as_remove : T -> Z -> bool -> option (bool * T);
  as_count : T -> Z;
  as_active_shards : T -> Z;
  as_wf : T -> Prop;
  (* how often an address is tracked, as a large or a normal allocation *)
  as_tracked : T -> bool -> Z -> nat
}.

Class AddrSetLaws (T : Type) `{AddrSet T} := {
  as_init_spec : exists t, as_init 0 = Some t /\ as_wf t /\ forall l a, trackable a -> as_tracked t l a = 0%nat;
  as_add_spec : forall t a l, as_wf t -> trackable a ->
    exists ok t', as_add t a l = Some (ok, t') /\ as_wf t' /\
      forall l' b, trackable b ->
        as_tracked t' l' b = (as_tracked t l' b + Nat.b2n (ok && bool_decide (l' = l) && (b =? a)%Z))%nat;
  as_remove_spec : forall t a l, as_wf t -> trackable a ->
    exists ok t', as_remove t a l = Some (ok, t') /\ as_wf t' /\ ok = (0 <? as_tracked t l a)%nat /\
      forall l' b, trackable b ->
        as_tracked t l' b = (as_tracked t' l' b + Nat.b2n (ok && bool_decide (l' = l) && (b =? a)%Z))%nat
}.

(** ** State *)

Record TrackerState := mkTS {
  track_deallocations : bool;
  lost_alloc_count : Z;
  lost_dealloc_count : Z;
  failure_count : Z;
  address_conflict_count : Z;
  ts_pid : Z;
  next_check_time : Z
}.

(** Durations and times are in nanoseconds, the unit of [PerfClock]. *)
Record IntervalTimerCheck := mkTimer { has_callback : bool; initial_delay : Z; interval : Z }.
Definition timer_is_set (t : IntervalTimerCheck) : bool :=
  has_callback t && ((0 <? initial_delay t) || (0 <? interval t)).

Definition time_point_max : Z := 2 ^ 63 - 1.
Definition k_max_consecutive_failures : Z := 5.

Section tracker.
Context {T : Type} `{AddrSet T}.
(** Random generator: [draw interval g] is the integer part of a sample of the
    exponential law of mean [interval]. *)
Context {G : Type} (draw : Z -> G -> Z * G).

(** [active]: [_instance] points at the tracker. *)
Record Tracker := mkTracker {
  active : bool;
  st : TrackerState;
  sampling_interval : Z;
  stack_sample_size : Z;
  ring : RingBuffer;
  deterministic_sampling : bool;
  high_priority_area_size : Z;
  address_set : T;
  timer_check : IntervalTimerCheck;
  callbacks : nat                (* calls of the timer callback *)
}.

Record TrackerThreadLocalState := mkTL {
  remaining_bytes : Z;
  stack_begin : Z;
  stack_end : Z;
  gen : G;
  tl_tid : Z;
  reentry_guard : bool;
  allocation_allowed : bool;
  initialized : bool
}.

Definition set_st (t : Tracker) (s : TrackerState) : Tracker :=
  mkTracker (active t) s (sampling_interval t) (stack_sample_size t) (ring t) (deterministic_sampling t)
    (high_priority_area_size t) (address_set t) (timer_check t) (callbacks t).
Definition set_ring (t : Tracker) (r : RingBuffer) : Tracker :=
  mkTracker (active t) (st t) (sampling_interval t) (stack_sample_size t) r (deterministic_sampling t)
    (high_priority_area_size t) (address_set t) (timer_check t) (callbacks t).
Definition set_set (t : Tracker) (s : T) : Tracker :=
  mkTracker (active t) (st t) (sampling_interval t) (stack_sample_size t) (ring t) (deterministic_sampling t)
    (high_priority_area_size t) s (timer_check t) (callbacks t).
Definition set_active (t : Tracker) (b : bool) : Tracker :=
  mkTracker b (st t) (sampling_interval t) (stack_sample_size t) (ring t) (deterministic_sampling t)
    (high_priority_area_size t) (address_set t) (timer_check t) (callbacks t).
Definition call_back (t : Tracker) : Tracker :=
  mkTracker (active t) (st t) (sampling_interval t) (stack_sample_size t) (ring t) (deterministic_sampling t)
    (high_priority_area_size t) (address_set t) (timer_check t) (S (callbacks t)).

Definition st_track (s : TrackerState) (b : bool) : TrackerState :=
  mkTS b (lost_alloc_count s) (lost_dealloc_count s) (failure_count s) (address_conflict_count s) (ts_pid s) (next_check_time s).
Definition st_lost_alloc (s : TrackerState) (x : Z) : TrackerState :=
  mkTS (track_deallocations s) x (lost_dealloc_count s) (failure_count s) (address_conflict_count s) (ts_pid s) (next_check_time s).
Definition st_lost_dealloc (s : TrackerState) (x : Z) : TrackerState :=
  mkTS (track_deallocations s) (lost_alloc_count s) x (failure_count s) (address_conflict_count s) (ts_pid s) (next_check_time s).
Definition st_failures (s : TrackerState) (x : Z) : TrackerState :=
  mkTS (track_deallocations s) (lost_alloc_count s) (lost_dealloc_count s) x (address_conflict_count s) (ts_pid s) (next_check_time s).
Definition st_conflicts (s : TrackerState) (x : Z) : TrackerState :=
  mkTS (track_deallocations s) (lost_alloc_count s) (lost_dealloc_count s) (failure_count s) x (ts_pid s) (next_check_time s).
Definition st_pid (s : TrackerState) (x : Z) : TrackerState :=
  mkTS (track_deallocations s) (lost_alloc_count s) (lost_dealloc_count s) (failure_count s) (address_conflict_count s) x (next_check_time s).
Definition st_check (s : TrackerState) (x : Z) : TrackerState :=
  mkTS (track_deallocations s) (lost_alloc_count s) (lost_dealloc_count s) (failure_count s) (address_conflict_count s) (ts_pid s) x.

Definition tl_remaining (l : TrackerThreadLocalState) (r : Z) (g : G) : TrackerThreadLocalState :=
  mkTL r (stack_begin l) (stack_end l) g (tl_tid l) (reentry_guard l) (allocation_allowed l) (initialized l).

(** What the machine decides during one operation: the outcome of the lock and of
    the eventfd write, the clock, the attempts after a failed reservation (what
    other threads did to the ring meanwhile, and the lock), and the same for the
    state event that the timer may add; the registers, the stack pointer and the
    stack memory. *)
Record env := mkEnv {
  e_lock : bool; e_now : Z; e_write_ok : bool;
  e_retries : nat -> (RingBuffer -> RingBuffer) * bool;
  e_state_lock : bool; e_state_now : Z; e_state_write_ok : bool;
  e_stack_base_ptr : Z; e_regs : list Z; e_sp : Z; e_mem : Z -> Z
}.

Definition WHAT_PERFRB : Z := 2011.

(** ** Events *)

Definition sample_id_bytes (pid tid time : Z) : list Z := le_bytes 4 pid ++ le_bytes 4 tid ++ le_bytes 8 time.

Definition sizeof_AllocationEvent : Z := 56 + 8 * k_perf_register_count.
Definition sizeof_allocation_event (stack_size : Z) : Z := sizeof_AllocationEvent + stack_size + 8.
Definition sizeof_DeallocationEvent : Z := 32.
Definition sizeof_ClearLiveAllocationEvent : Z := 24.
Definition sizeof_AllocationTrackerStateEvent : Z := 48.

(** The bytes before the stack. *)
Definition allocation_event_head (size pid tid time addr period : Z) (regs : list Z) (stack_size : Z) : list Z :=
  hdr_bytes (mkHdr PERF_RECORD_SAMPLE 0 (u16 size)) ++ sample_id_bytes pid tid time ++
  le_bytes 8 addr ++ le_bytes 8 period ++ le_bytes 8 PERF_SAMPLE_REGS_ABI_64 ++
  concat (map (le_bytes 8) regs) ++ le_bytes 8 stack_size.

(** The event over the bytes [old] of the reservation: head, saved stack, and the
    number of bytes saved at the end. *)
Definition fill_allocation_event (old : list Z) (head stack : list Z) (stack_size : Z) : option (list Z) :=
  let? b := store old 0 head in
  let? b := store b sizeof_AllocationEvent stack in
  store b (sizeof_AllocationEvent + stack_size) (le_bytes 8 (Z.of_nat (length stack))).

Definition deallocation_event (pid tid time ptr : Z) : list Z :=
  hdr_bytes (mkHdr PERF_CUSTOM_EVENT_DEALLOCATION 0 sizeof_DeallocationEvent) ++ sample_id_bytes pid tid time ++ le_bytes 8 ptr.
Definition clear_live_allocation_event (pid tid time : Z) : list Z :=
  hdr_bytes (mkHdr PERF_CUSTOM_EVENT_CLEAR_LIVE_ALLOCATION 0 sizeof_ClearLiveAllocationEvent) ++ sample_id_bytes pid tid time.
Definition tracker_state_event (pid time tracked conflicts shards lost_alloc lost_dealloc : Z) : list Z :=
  hdr_bytes (mkHdr PERF_CUSTOM_EVENT_ALLOCATION_TRACKER_STATE 0 sizeof_AllocationTrackerStateEvent) ++
  sample_id_bytes pid 0 time ++ le_bytes 4 (u32 tracked) ++ le_bytes 4 conflicts ++ le_bytes 4 (u32 shards) ++
  le_bytes 4 (u32 lost_alloc) ++ le_bytes 4 (u32 lost_dealloc).

(** [save_stack]: the bytes from the stack pointer to the end of the stack, at
    most [n]; nothing when the pointer is not on this stack. *)
Definition save_stack (begin_ end_ sp : Z) (mem : Z -> Z) (n : Z) : list Z :=
  if (sp <? begin_) || (end_ <=? sp) then []
  else map (fun i => mem (sp + i)) (seqZ 0 (Z.min n (end_ - sp))).

(** ** Pushing *)

(** [reserve(n, &timeout, high_priority)] of a writer with snapshot [tail]. *)
Definition writer_reserve (rb : RingBuffer) (tail area n : Z) (hp lock timeout : bool) :
    option (option ConstBuffer * bool * RingBuffer) :=
  let? (r, rb') := mpsc_reserve rb tail area n hp lock in
  Some (match r with
        | Reserved b => (Some b, timeout, rb')
        | NoSpace => (None, timeout, rb')
        | LockTimeout => (None, true, rb')
        end).

Definition k_max_sleep_attempts : nat := 5.

(** [sleep_and_retry_reserve]: the writer keeps its snapshot [tail]. *)
Fixpoint retry_loop (left : nat) (attempts : nat -> (RingBuffer -> RingBuffer) * bool) (rb : RingBuffer)
    (tail area n : Z) (timeout : bool) : option (option ConstBuffer * bool * RingBuffer) :=
  match left with
  | O => Some (None, timeout, rb)
  | S left' =>
      let '(sleep, lock) := attempts left' in
      let? (b, timeout, rb') := writer_reserve (sleep rb) tail area n true lock timeout in
      match b with
      | Some b => Some (Some b, timeout, rb')
      | None => if timeout : bool then Some (None, timeout, rb') else retry_loop left' attempts rb' tail area n timeout
      end
  end.
Definition sleep_and_retry_reserve := retry_loop k_max_sleep_attempts.

(** Fill the reservation, commit it, and write to the eventfd when the commit asks
    for it: whether a write failed, and the ring. *)
Definition fill_and_commit (rb : RingBuffer) (b : ConstBuffer) (fill : list Z -> option (list Z)) (write_ok : bool) :
    option (bool * RingBuffer) :=
  let? old := deref rb b in
  let? bytes := fill old in
  let? rb := write_payload rb b bytes in
  match buf_data b with
  | InData off => let? (notify, _, rb) := mpsc_commit rb off in Some (notify && negb write_ok, rb)
  | InWrapCopy => None
  end.

Definition push_allocation_tracker_state (t : Tracker) (e : env) : option (DDRes * Tracker) :=
  let rb := ring t in
  let? (b, timeout, rb) := writer_reserve rb (reader_pos rb) (high_priority_area_size t)
                             sizeof_AllocationTrackerStateEvent true (e_state_lock e) false in
  match b with
  | None => Some (if timeout : bool then ddres_error WHAT_PERFRB else ddres_warn WHAT_PERFRB, set_ring t rb)
  | Some b =>
      let s := st t in
      let ev := tracker_state_event (ts_pid s) (e_state_now e) (as_count (address_set t)) (address_conflict_count s)
                  (as_active_shards (address_set t)) (lost_alloc_count s) (lost_dealloc_count s) in
      let s := st_lost_dealloc (st_lost_alloc (st_conflicts s 0) 0) 0 in
      let? (failed, rb) := fill_and_commit rb b (fun old => store old 0 ev) (e_state_write_ok e) in
      Some (if failed : bool then ddres_error WHAT_PERFRB else ddres_init, set_ring (set_st t s) rb)
  end.

Definition update_timer (t : Tracker) (now : Z) (e : env) : option Tracker :=
  if now <=? next_check_time (st t) then Some t
  else if negb (timer_is_set (timer_check t)) || (interval (timer_check t) =? 0)
  then Some (set_st t (st_check (st t) time_point_max))
  else
    let t := set_st t (st_check (st t) (now + interval (timer_check t))) in
    let? (_, t) := push_allocation_tracker_state t e in
    Some (call_back t).

Definition check_timer (t : Tracker) (now : Z) (tl : TrackerThreadLocalState) (e : env) : option Tracker :=
  if allocation_allowed tl && (next_check_time (st t) <? now) then update_timer t now e else Some t.

(** End of a push: error when the eventfd write failed, else the timer. *)
Definition finish_push (t : Tracker) (tl : TrackerThreadLocalState) (e : env) (failed : bool) : option (DDRes * Tracker) :=
  if failed then Some (ddres_error WHAT_PERFRB, t)
  else let? t := check_timer t (e_now e) tl e in Some (ddres_init, t).

Definition push_clear_live_allocation (t : Tracker) (tl : TrackerThreadLocalState) (e : env) : option (DDRes * Tracker) :=
  let rb := ring t in
  let? (b, _, rb) := writer_reserve rb (reader_pos rb) (high_priority_area_size t)
                       sizeof_ClearLiveAllocationEvent true (e_lock e) false in
  match b with
  | None => Some (ddres_error WHAT_PERFRB, set_ring t rb)
  | Some b =>
      let ev := clear_live_allocation_event (ts_pid (st t)) (tl_tid tl) (e_now e) in
      let? (failed, rb) := fill_and_commit rb b (fun old => store old 0 ev) (e_write_ok e) in
      finish_push (set_ring t rb) tl e failed
  end.

Definition push_dealloc_sample (t : Tracker) (addr : Z) (tl : TrackerThreadLocalState) (e : env) : option (DDRes * Tracker) :=
  let rb := ring t in
  let tail := reader_pos rb in
  let? (b, timeout, rb) := writer_reserve rb tail (high_priority_area_size t) sizeof_DeallocationEvent true (e_lock e) false in
  let? (b, timeout, rb) :=
    match b with
    | Some b => Some (Some b, timeout, rb)
    | None => sleep_and_retry_reserve (e_retries e) rb tail (high_priority_area_size t) sizeof_DeallocationEvent timeout
    end in
  match b with
  | None =>
      let t := set_st t (st_lost_dealloc (st t) (lost_dealloc_count (st t) +w 1)) in
      Some (if timeout : bool then ddres_error WHAT_PERFRB else ddres_warn WHAT_PERFRB, set_ring t rb)
  | Some b =>
      let ev := deallocation_event (ts_pid (st t)) (tl_tid tl) (e_now e) addr in
      let? (failed, rb) := fill_and_commit rb b (fun old => store old 0 ev) (e_write_ok e) in
      finish_push (set_ring t rb) tl e failed
  end.

Definition kStackMargin : Z := 192.

Definition alloc_sample_stack_size (t : Tracker) (tl : TrackerThreadLocalState) (e : env) : Z :=
  let stack_size := stack_end tl - e_stack_base_ptr e in
  u32 (align_up (Z.min (Z.max (stack_size + kStackMargin) 0) (stack_sample_size t)) 8).

Definition push_alloc_sample (t : Tracker) (addr allocated_size : Z) (tl : TrackerThreadLocalState) (e : env) :
    option (DDRes * Tracker) :=
  let rb := ring t in
  let sample_stack_size := alloc_sample_stack_size t tl e in
  let event_size := sizeof_allocation_event sample_stack_size in
  let? (b, timeout, rb) := writer_reserve rb (reader_pos rb) (high_priority_area_size t) event_size false (e_lock e) false in
  match b with
  | None =>
      let t := set_st t (st_lost_alloc (st t) (lost_alloc_count (st t) +w 1)) in
      Some (if timeout : bool then ddres_error WHAT_PERFRB else ddres_warn WHAT_PERFRB, set_ring t rb)
  | Some b =>
      let stack := save_stack (stack_begin tl) (stack_end tl) (e_sp e) (e_mem e) sample_stack_size in
      let head := allocation_event_head event_size (ts_pid (st t)) (tl_tid tl) (e_now e) addr allocated_size (e_regs e) sample_stack_size in
      let? (failed, rb) := fill_and_commit rb b (fun old => fill_allocation_event old head stack sample_stack_size) (e_write_ok e) in
      finish_push (set_ring t rb) tl e failed
  end.

(** ** Sampling *)

Definition next_sample_interval (t : Tracker) (g : G) : Z * G :=
  if sampling_interval t =? 1 then (1, g)
  else if deterministic_sampling t then (sampling_interval t, g)
  else
    let '(v, g) := draw (sampling_interval t) g in
    (Z.max (Z.min v (sampling_interval t *w 20)) 8, g).

(** The [do .. while (remaining_bytes >= 0)] loop. *)
Fixpoint sample_loop (fuel : nat) (t : Tracker) (remaining nsamples : Z) (g : G) : option (Z * Z * G) :=
  match fuel with
  | O => None
  | S f =>
      let '(i, g) := next_sample_interval t g in
      let remaining := i64 (remaining - i) in
      let nsamples := nsamples +w 1 in
      if 0 <=? remaining then sample_loop f t remaining nsamples g else Some (remaining, nsamples, g)
  end.

Definition free_tracker (t : Tracker) : Tracker := set_active (set_st t (st_track (st t) false)) false.

Definition free_on_consecutive_failures (t : Tracker) (failure : bool) : Tracker :=
  if failure then
    let t := set_st t (st_failures (st t) (u32 (failure_count (st t) + 1))) in
    if k_max_consecutive_failures <=? failure_count (st t) then free_tracker t else t
  else if 0 <? failure_count (st t) then set_st t (st_failures (st t) 0) else t.

(** The C++ arithmetic mixes [int64_t] and [uint64_t] operands: unsigned division
    and remainder, the result converted back.

    The number of bytes the sampled allocation stands for, and the thread state. *)
Definition account_allocation (t : Tracker) (tl : TrackerThreadLocalState) : option (Z * TrackerThreadLocalState) :=
  let remaining := u64 (remaining_bytes tl) in
  let nsamples := remaining / sampling_interval t in
  let remaining := i64 (remaining mod sampling_interval t) in
  let? (remaining, nsamples, g) := sample_loop (S (Z.to_nat remaining)) t remaining nsamples (gen tl) in
  Some (nsamples *w sampling_interval t, tl_remaining tl remaining g).

Definition track_allocation (t : Tracker) (addr : Z) (tl : TrackerThreadLocalState) (is_large_alloc : bool) (e : env) :
    option (Tracker * TrackerThreadLocalState) :=
  let? (total_size, tl) := account_allocation t tl in
  let? (addr, t) :=
    if track_deallocations (st t) then
      let? (ok, s) := as_add (address_set t) addr is_large_alloc in
      let t := set_set t s in
      if ok : bool then Some (addr, t)
      else Some (0, set_st t (st_conflicts (st t) (u32 (address_conflict_count (st t) + 1))))
    else Some (addr, t) in
  let? (res, t) := push_alloc_sample t addr total_size tl e in
  let t := free_on_consecutive_failures t (IsDDResFatal res) in
  if negb (IsDDResOK res) && track_deallocations (st t) && negb (addr =? 0) then
    let? (_, s) := as_remove (address_set t) addr is_large_alloc in Some (set_set t s, tl)
  else Some (t, tl).

Definition track_deallocation (t : Tracker) (addr : Z) (tl : TrackerThreadLocalState) (is_large_alloc : bool) (e : env) :
    option Tracker :=
  if negb (track_deallocations (st t)) then Some t
  else
    let? (ok, s) := as_remove (address_set t) addr is_large_alloc in
    let t := set_set t s in
    if negb ok then Some t
    else
      let? (res, t) := push_dealloc_sample t addr tl e in
      Some (free_on_consecutive_failures t (IsDDResFatal res)).

(** Entry points of the hooks. *)
Definition track_allocation_s (t : Tracker) (addr size : Z) (tl : TrackerThreadLocalState) (is_large_alloc : bool) (e : env) :
    option (Tracker * TrackerThreadLocalState) :=
  if negb (active t) then Some (t, tl)
  else
    let tl := tl_remaining tl (i64 (remaining_bytes tl + size)) (gen tl) in
    if remaining_bytes tl <? 0 then Some (t, tl) else track_allocation t addr tl is_large_alloc e.

Definition track_deallocation_s (t : Tracker) (addr : Z) (tl : TrackerThreadLocalState) (is_large_alloc : bool) (e : env) :
    option Tracker :=
  if negb (active t) then Some t
  else if track_deallocations (st t) then track_deallocation t addr tl is_large_alloc e else Some t.

(** ** Life cycle *)

Definition init_tl_state_internal (t : Tracker) (tid begin_ end_ : Z) (g : G) : TrackerThreadLocalState :=
  let '(i, g) := next_sample_interval t g in mkTL (0 - i) begin_ end_ g tid false true true.

(** [get_tl_state]; [fresh]: the state [init_tl_state_internal] would build. *)
Definition get_tl_state (t : Tracker) (tl : TrackerThreadLocalState) (init_if_not_initialized : bool)
    (fresh : TrackerThreadLocalState) : option TrackerThreadLocalState :=
  if initialized tl then Some tl
  else if init_if_not_initialized && negb (reentry_guard tl) then if active t then Some fresh else None
  else None.

Definition kTrackDeallocations : Z := 1.
Definition kDeterministicSampling : Z := 2.

(** [allocation_tracking_init] with [init]; [attached]: the ring that
    [ring_buffer_attach] mapped, if it succeeded.  The product of the buffer size by
    0.1 is the floor of a tenth. *)
Definition allocation_tracking_init (t : Tracker) (rate flags stack_sample_size mem_size : Z) (ring_type : RingBufferType)
    (attached : option RingBuffer) (timer : IntervalTimerCheck) (now pid : Z) : option (DDRes * Tracker) :=
  if active t then Some (ddres_error (what_of "UKNW"), t)
  else match ring_type with
  | kPerfRingBuffer => Some (ddres_error WHAT_PERFRB, t)
  | kMPSCRingBuffer =>
      let track := negb (Z.land flags kTrackDeallocations =? 0) in
      let det := negb (Z.land flags kDeterministicSampling =? 0) in
      let? set := if track then as_init 0 else Some (address_set t) in
      let area := if track then Z.min (mem_size / 10) (10000 * (sizeof_DeallocationEvent + 8)) else 0 in
      match attached with
      | None => Some (ddres_error WHAT_PERFRB, mkTracker false (st t) rate stack_sample_size (ring t) det area set (timer_check t) (callbacks t))
      | Some rb =>
          let next := if timer_is_set timer
                      then now + (if initial_delay timer =? 0 then interval timer else initial_delay timer)
                      else time_point_max in
          Some (ddres_init, mkTracker true (mkTS track 0 0 0 0 pid next) rate stack_sample_size rb det area set timer (callbacks t))
      end
  end.

Definition allocation_tracking_free (t : Tracker) : Tracker := if active t then free_tracker t else t.

Definition notify_fork (t : Tracker) (tl : option TrackerThreadLocalState) (pid tid : Z) : Tracker * option TrackerThreadLocalState :=
  (if active t then set_st t (st_pid (st t) pid) else t,
   match tl with
   | Some l => Some (mkTL (remaining_bytes l) (stack_begin l) (stack_end l) (gen l) tid (reentry_guard l) (allocation_allowed l) (initialized l))
   | None => None
   end).

Definition set_guard (tl : TrackerThreadLocalState) (b : bool) : TrackerThreadLocalState :=
  mkTL (remaining_bytes tl) (stack_begin tl) (stack_end tl) (gen tl) (tl_tid tl) b (allocation_allowed tl) (initialized tl).
Definition notify_pthread_getattr_np (tl : TrackerThreadLocalState) : TrackerThreadLocalState :=
  if initialized tl then tl else set_guard tl true.
Definition notify_pthread_getattr_np_end (tl : TrackerThreadLocalState) : TrackerThreadLocalState :=
  if initialized tl then tl else set_guard tl false.

(** [ReentryGuard]: whether the section may run, and the flag while it runs; the
    destructor. *)
Definition guard_enter (flag : bool) : bool * bool := (negb flag, true).
Definition guard_exit (ok flag : bool) : bool := if ok then false else flag.

End tracker.
