(* ===== verification/AllocTrackerProofs.v ===== *)
(** * The allocation tracker: correctness

    Sampling accounts for every allocated byte, the sampling loop terminates, the
    events decode to what was recorded, the address set follows the events, and
    repeated ring failures stop the tracker. *)

From S2P Require Import Prelude RingBuffer MpscRing PerfSample Ddres AllocTracker.

Example WHAT_PERFRB_value : WHAT_PERFRB = what_of "PERFRB".
Proof. reflexivity. Qed.

Section sampling.
Context {T : Type} `{AddrSet T}.
Context {G : Type} (draw : Z -> G -> Z * G).
Implicit Types (t : @Tracker T) (tl : @TrackerThreadLocalState G).

(** ** The sampling loop *)

Lemma next_sample_interval_bounds t g : 1 <= sampling_interval t < 2 ^ 58 ->
  1 <= fst (next_sample_interval draw t g) <= Z.max (20 * sampling_interval t) 8.
Proof.
  intros Hi. unfold next_sample_interval. destruct (Z.eqb_spec (sampling_interval t) 1); [simpl fst; lia|].
  destruct (deterministic_sampling t); [cbn [fst]; lia|]. destruct (draw (sampling_interval t) g) as [v g'].
  cbn [fst]. rewrite u64_small by (unfold is_u64; lia). lia.
Qed.

Lemma sample_loop_total t fuel r n g : 1 <= sampling_interval t < 2 ^ 58 -> 0 <= r < 2 ^ 62 -> (Z.to_nat r < fuel)%nat ->
  exists r' k g', sample_loop draw fuel t r n g = Some (r', u64 (n + k), g') /\
    - Z.max (20 * sampling_interval t) 8 <= r' < 0 /\ 1 <= k <= r + 1.
Proof.
  intros Hi. revert r n g. induction fuel as [|f IH]; intros r n g Hr Hf; [lia|]. cbn [sample_loop].
  pose proof (next_sample_interval_bounds t g Hi) as Hb.
  destruct (next_sample_interval draw t g) as [v g1]. cbn [fst] in Hb. rewrite i64_small by lia.
  destruct (Z.leb_spec 0 (r - v)).
  - destruct (IH (r - v) (n +w 1) g1) as (r' & k & g' & E & Hr' & Hk); [lia|lia|].
    exists r', (k + 1), g'. rewrite E. split; [|lia]. do 3 f_equal. rewrite u64_add_l. f_equal. lia.
  - exists (r - v), 1, g1. split; [done|]. lia.
Qed.

Lemma account_allocation_spec t tl : 1 <= sampling_interval t < 2 ^ 58 -> 0 <= remaining_bytes tl < 2 ^ 63 ->
  exists k r g, account_allocation draw t tl = Some (k *w sampling_interval t, tl_remaining tl r g) /\ 1 <= k /\
    - Z.max (20 * sampling_interval t) 8 <= r < 0.
Proof.
  intros Hi Hr. unfold account_allocation. set (I := sampling_interval t) in *.
  pose proof (Z.mod_pos_bound (remaining_bytes tl) I ltac:(lia)) as Hm. cbv zeta.
  rewrite (u64_small (remaining_bytes tl)), i64_small by (unfold is_u64; lia).
  destruct (sample_loop_total t (S (Z.to_nat (remaining_bytes tl mod I))) (remaining_bytes tl mod I) (remaining_bytes tl / I) (gen tl))
    as (r' & k & g' & E & Hr' & Hk); [done|lia|lia|].
  rewrite E. exists (remaining_bytes tl / I + k), r', g'. split.
  - do 2 f_equal. unfold u64. by rewrite Zmult_mod_idemp_l.
  - assert (0 <= remaining_bytes tl / I) by (apply Z.div_pos; lia). split; [lia|]. exact Hr'.
Qed.

(** Whatever the random draws, accounting a sampled allocation terminates: it
    reports a positive multiple of the sampling interval and leaves the thread with
    a negative byte budget, at least 20 intervals (or 8 bytes) below zero. *)
Theorem account_allocation_terminates t tl :
  1 <= sampling_interval t < 2 ^ 58 -> 0 <= remaining_bytes tl < 2 ^ 63 ->
  exists k tl', account_allocation draw t tl = Some (k *w sampling_interval t, tl') /\ 1 <= k /\
    - Z.max (20 * sampling_interval t) 8 <= remaining_bytes tl' < 0.
Proof.
  intros Hi Hr. destruct (account_allocation_spec t tl Hi Hr) as (k & r & g & E & Hk & Hb). by eexists _, _.
Qed.

(** ** Deterministic sampling *)

Definition deterministic t : Prop := deterministic_sampling t = true \/ sampling_interval t = 1.

Lemma account_deterministic t tl :
  deterministic t -> 1 <= sampling_interval t < 2 ^ 58 -> 0 <= remaining_bytes tl < 2 ^ 63 ->
  exists total tl', account_allocation draw t tl = Some (total, tl') /\
    total + remaining_bytes tl' = remaining_bytes tl /\ - sampling_interval t <= remaining_bytes tl' < 0.
Proof.
  intros Hd Hi Hr. unfold account_allocation. set (I := sampling_interval t) in *.
  assert (Hn : forall g, next_sample_interval draw t g = (I, g)).
  { intros g. unfold next_sample_interval. fold I. destruct (Z.eqb_spec I 1) as [E|E]; [by rewrite E|].
    destruct Hd as [->|E1]; [done|fold I in E1; lia]. }
  rewrite (u64_small (remaining_bytes tl)) by (unfold is_u64; lia).
  set (r := remaining_bytes tl mod I). assert (Hrm : 0 <= r < I) by (apply Z.mod_pos_bound; lia).
  rewrite (i64_small r) by lia. cbn [sample_loop]. rewrite Hn. rewrite i64_small by lia. destruct (Z.leb_spec 0 (r - I)); [lia|].
  assert (Hq : 0 <= remaining_bytes tl / I <= remaining_bytes tl).
  { split; [apply Z.div_pos; lia|]. apply Z.div_le_upper_bound; nia. }
  pose proof (Z.div_mod (remaining_bytes tl) I ltac:(lia)) as Hdm. fold r in Hdm.
  rewrite (u64_small (remaining_bytes tl / I + 1)) by (unfold is_u64; lia).
  eexists _, _. split; [done|]. cbn [tl_remaining remaining_bytes].
  assert (Hsz : 0 <= I * (remaining_bytes tl / I) <= remaining_bytes tl) by (split; [nia|lia]).
  rewrite u64_small by (unfold is_u64; lia). lia.
Qed.

(** What one thread reports for a sequence of allocation sizes: the budget update
    of [track_allocation_s] and, when it becomes non-negative, the accounting of
    [track_allocation]. *)
Fixpoint reported t tl (sizes : list Z) : option (Z * TrackerThreadLocalState) :=
  match sizes with
  | [] => Some (0, tl)
  | size :: sizes' =>
      let tl1 := tl_remaining tl (i64 (remaining_bytes tl + size)) (gen tl) in
      if remaining_bytes tl1 <? 0 then reported t tl1 sizes'
      else
        let? (total, tl2) := account_allocation draw t tl1 in
        let? (rest, tl3) := reported t tl2 sizes' in
        Some (total + rest, tl3)
  end.

(** C40: With deterministic sampling no byte is lost: the sizes a thread reports
    add up to the bytes it allocated plus the change of its byte budget, and the
    budget stays within one sampling interval below zero, so the reported total is
    within one interval of the allocated total. *)
Theorem deterministic_sampling_conserves_bytes t tl sizes :
  deterministic t -> 1 <= sampling_interval t < 2 ^ 58 ->
  - sampling_interval t <= remaining_bytes tl < 0 -> Forall (fun s => 0 <= s < 2 ^ 62) sizes ->
  exists total tl', reported t tl sizes = Some (total, tl') /\
    total + remaining_bytes tl' = zsum sizes + remaining_bytes tl /\
    - sampling_interval t <= remaining_bytes tl' < 0.
Proof.
  intros Hd Hi Hr Hs. revert tl Hr. induction Hs as [|s sizes Hs _ IH]; intros tl Hr; cbn [reported zsum].
  { exists 0, tl. split; [done|]. lia. }
  cbn [tl_remaining remaining_bytes]. rewrite i64_small by lia.
  set (tl1 := tl_remaining tl (remaining_bytes tl + s) (gen tl)).
  destruct (Z.ltb_spec (remaining_bytes tl + s) 0).
  - destruct (IH tl1) as (total & tl' & E & Hc & Hb); [cbn [tl1 tl_remaining remaining_bytes]; lia|].
    exists total, tl'. split; [exact E|]. split; [|done]. cbn [tl1 tl_remaining remaining_bytes] in Hc. lia.
  - destruct (account_deterministic t tl1 Hd Hi) as (total & tl2 & E & Hc & Hb); [cbn [tl1 tl_remaining remaining_bytes]; lia|].
    rewrite E. destruct (IH tl2 Hb) as (rest & tl3 & E3 & Hc3 & Hb3). rewrite E3. exists (total + rest), tl3.
    split; [done|]. split; [|done]. cbn [tl1 tl_remaining remaining_bytes] in Hc. lia.
Qed.

(** ** Stopping on failures *)

Fixpoint after_results t (rs : list bool) : Tracker :=
  match rs with [] => t | r :: rs' => after_results (free_on_consecutive_failures t r) rs' end.

Fixpoint max_streak (n : Z) (rs : list bool) : Z :=
  match rs with [] => n | r :: rs' => Z.max n (max_streak (if r then n + 1 else 0) rs') end.

Lemma max_streak_ge n rs : n <= max_streak n rs.
Proof. destruct rs; cbn [max_streak]; lia. Qed.

Definition switched_off t : Prop := active t = false /\ track_deallocations (st t) = false.
Definition same_switches t t' : Prop := active t' = active t /\ track_deallocations (st t') = track_deallocations (st t).

Lemma switched_off_stays t rs : switched_off t -> switched_off (after_results t rs).
Proof.
  revert t. induction rs as [|r rs IH]; intros t Ht; [done|]. cbn [after_results]. apply IH.
  unfold free_on_consecutive_failures, switched_off in *. repeat case_match; done.
Qed.

Lemma failures_below_five t rs n : failure_count (st t) = n -> 0 <= n < 5 ->
  let t' := after_results t rs in
  if max_streak n rs <? 5 then same_switches t t' else switched_off t'.
Proof.
  revert t n. induction rs as [|r rs IH]; intros t n Hn Hb; cbn [after_results max_streak]; cbv zeta.
  { by destruct (Z.ltb_spec n 5); [|lia]. }
  pose proof (max_streak_ge (if r then n + 1 else 0) rs) as Hge. destruct r.
  - unfold free_on_consecutive_failures, k_max_consecutive_failures. cbn [set_st st st_failures failure_count].
    rewrite Hn, u32_small by lia.
    destruct (Z.leb_spec 5 (n + 1)) as [H5|H5].
    + destruct (Z.ltb_spec (n `max` max_streak (n + 1) rs) 5); [lia|]. by apply switched_off_stays.
    + rewrite Z.max_r by lia. refine (IH (set_st t (st_failures (st t) (n + 1))) (n + 1) _ _); [done|lia].
  - assert (Hc : failure_count (st (free_on_consecutive_failures t false)) = 0 /\ same_switches t (free_on_consecutive_failures t false)).
    { unfold free_on_consecutive_failures. destruct (Z.ltb_spec 0 (failure_count (st t))); [done|]. split; [lia|done]. }
    destruct Hc as [Hc [Ha Ht]]. pose proof (IH _ 0 Hc ltac:(lia)) as IHt. cbv zeta in IHt.
    destruct (Z.ltb_spec (max_streak 0 rs) 5), (Z.ltb_spec (n `max` max_streak 0 rs) 5); try lia.
    + unfold same_switches in *. rewrite Ha, Ht in IHt. done.
    + done.
Qed.

(** The tracker switches itself off exactly when five ring operations in a row
    have failed: as long as no streak reaches five it stays as active as it was and
    keeps tracking deallocations, and once one does it is inactive and tracks no
    deallocation, whatever happens next. *)
Theorem tracker_stops_after_five_failures t rs :
  failure_count (st t) = 0 ->
  let t' := after_results t rs in
  if max_streak 0 rs <? 5 then same_switches t t' else switched_off t'.
Proof. intros H0. apply failures_below_five; lia. Qed.
End sampling.

(** ** Retrying a reservation

    [sleep_and_retry_reserve] keeps the writer object, and so its snapshot of the
    reader position, over all attempts. *)

(** What may happen to the ring while the thread sleeps: other writers move the
    writer position forward; the consumer may release any amount of space. *)
Definition ring_advances (sleep : RingBuffer -> RingBuffer) : Prop :=
  forall rb, mask (sleep rb) = mask rb /\ writer_pos rb <= writer_pos (sleep rb) /\
             (writer_pos rb < 2 ^ 62 -> writer_pos (sleep rb) < 2 ^ 62).

Definition no_room (rb : RingBuffer) (tail n : Z) : Prop :=
  0 <= tail <= writer_pos rb /\ writer_pos rb < 2 ^ 62 /\ mask rb < writer_pos rb + e_len (mkE n Busy []) - tail.

Lemma reserve_no_room rb tail area n lock : 0 < n < 2 ^ 61 -> no_room rb tail n ->
  exists r, mpsc_reserve rb tail area n true lock = Some (r, rb) /\ r = (if lock then NoSpace else LockTimeout).
Proof.
  intros Hn (Ht & Hw & Hm). unfold mpsc_reserve. rewrite reserve_len by done.
  pose proof (e_len_bounds (mkE n Busy []) Hn) as (Hl & _ & Hl16). cbn [e_n] in Hl.
  destruct (Z.eqb_spec (e_len (mkE n Busy [])) 0); [lia|]. destruct lock; cbn [negb]; [|by eexists].
  rewrite (u64_small (_ + _)) by (unfold is_u64; lia). rewrite u64_small by (unfold is_u64; lia).
  destruct (Z.ltb_spec (mask rb) (writer_pos rb + e_len (mkE n Busy []) - tail)); [|lia]. by eexists.
Qed.

Lemma retry_loop_no_room left attempts rb tail area n : 0 < n < 2 ^ 61 ->
  (forall i, ring_advances (fst (attempts i))) -> no_room rb tail n ->
  exists timeout rb', retry_loop left attempts rb tail area n false = Some (None, timeout, rb').
Proof.
  intros Hn Ha. revert rb. induction left as [|left IH]; intros rb Hr; cbn [retry_loop]; [by eexists _, _|].
  specialize (Ha left) as Hs. destruct (attempts left) as [sleep lock]. cbn [fst] in Hs.
  destruct (Hs rb) as (Hm & Hw & Hb). destruct Hr as (Ht & Hw0 & Hroom).
  assert (Hr' : no_room (sleep rb) tail n) by (unfold no_room; rewrite Hm; split; [lia|]; split; [auto|lia]).
  unfold writer_reserve. destruct (reserve_no_room (sleep rb) tail area n lock Hn Hr') as (r & -> & ->).
  destruct lock; [by apply IH|]. by eexists _, _.
Qed.

(** A reservation that failed for lack of space cannot succeed on a retry:
    whatever the consumer releases while the thread sleeps, the writer compares
    with the reader position it read first, so all five attempts of
    [sleep_and_retry_reserve] fail. *)
Theorem retry_after_no_space_fails attempts rb tail area n rb1 :
  0 < n < 2 ^ 61 -> 0 <= tail <= writer_pos rb -> writer_pos rb < 2 ^ 62 ->
  (forall i, ring_advances (fst (attempts i))) ->
  mpsc_reserve rb tail area n true true = Some (NoSpace, rb1) ->
  exists timeout rb', sleep_and_retry_reserve attempts rb1 tail area n false = Some (None, timeout, rb').
Proof.
  intros Hn Ht Hw Ha E. apply retry_loop_no_room; [done|done|]. unfold mpsc_reserve in E.
  rewrite reserve_len in E by done. pose proof (e_len_bounds (mkE n Busy []) Hn) as (Hl & _ & Hl16). cbn [e_n] in Hl.
  destruct (Z.eqb_spec (e_len (mkE n Busy [])) 0); [lia|]. cbn [negb] in E.
  rewrite (u64_small (_ + _)) in E by (unfold is_u64; lia). rewrite u64_small in E by (unfold is_u64; lia).
  destruct (Z.ltb_spec (mask rb) (writer_pos rb + e_len (mkE n Busy []) - tail)); [|by case_match].
  simplify_eq. unfold no_room. lia.
Qed.
