(* ===== verification/AllocTrackerPush.v ===== *)
(** * The allocation tracker: events and the address set

    What a push leaves in the ring, that the profiler's decoder reads back what the
    tracker recorded, and that the address set holds the addresses whose allocation
    the profiler was told about. *)

From S2P Require Import Prelude RingBuffer MpscRing PerfSample Ddres AllocTracker AllocTrackerProofs.

(** ** One event through the ring *)

(** Bound on the reader position that keeps every position of the ring below
    [2^63]: the ring is at most [2^60] bytes. *)
Definition ring_ready (rb : RingBuffer) (q : list entry) (i : nat) : Prop :=
  ring_inv rb q i /\ reader_pos rb < 2 ^ 62.

Lemma ring_ready_writer rb q i : ring_ready rb q i -> writer_pos rb < 2 ^ 63.
Proof.
  intros [H Hr]. destruct (ri_size _ _ _ H) as (k & Hk & _ & Hm). pose proof (ri_room _ _ _ H).
  assert (2 ^ k <= 2 ^ 60) by (apply Z.pow_le_mono_r; lia). lia.
Qed.

Definition fills (fill : list Z -> option (list Z)) (n : Z) (P : list Z -> Prop) : Prop :=
  forall old, Z.of_nat (length old) = n -> exists bytes, fill old = Some bytes /\ Z.of_nat (length bytes) = n /\ P bytes.

Lemma fill_and_commit_spec rb q i n payload fill ok P :
  ring_inv rb (q ++ [mkE n Busy payload]) i -> fills fill n P ->
  exists bytes rb', P bytes /\
    fill_and_commit rb (mkBuf (InData (q_end (reader_pos rb) q mod data_size rb + 8)) n) fill ok
      = Some (bool_decide (q = []) && negb ok, rb') /\
    reader_pos rb' = reader_pos rb /\ ring_inv rb' (q ++ [mkE n Committed bytes]) i.
Proof.
  intros H Hf. pose proof (deref_spec _ _ _ _ _ H) as Hd. cbn [e_n e_data] in Hd.
  destruct (e_len_room _ _ _ _ _ H) as ((Hn & _ & Hrd) & _). cbn [e_n e_data] in Hn, Hrd.
  destruct (Hf payload) as (bytes & Eb & Hlen & HP); [rewrite <- Hrd, length_rd; lia|].
  destruct (write_payload_spec _ _ _ _ _ bytes H) as (rb1 & Ew & Hr1 & Hs1 & Hinv1); [done|]. cbn [e_n] in Ew, Hinv1.
  specialize (Hinv1 Busy eq_refl). destruct (commit_spec _ _ _ _ _ false Hinv1) as (rb2 & Ec & Hr2 & Hinv2); [done|].
  exists bytes, rb2. split; [done|]. split; [|split; [congruence|done]].
  unfold fill_and_commit. rewrite Hd, Eb, Ew. cbn [buf_data]. unfold mpsc_commit. rewrite Hr1, Hs1 in Ec. by rewrite Ec.
Qed.

(** Reserve, fill and commit, with the writer's snapshot [tail] of the reader
    position. *)
Lemma push_event_spec rb q i tail area n hp lock timeout fill ok P :
  ring_ready rb q i -> 0 <= tail <= reader_pos rb -> 0 < n < 2 ^ 61 -> 0 <= area < 2 ^ 61 -> fills fill n P ->
  exists b timeout' rb1, writer_reserve rb tail area n hp lock timeout = Some (b, timeout', rb1) /\
    match b with
    | None => rb1 = rb
    | Some b => exists bytes rb2, P bytes /\
        fill_and_commit rb1 b fill ok = Some (bool_decide (q = []) && negb ok, rb2) /\
        ring_ready rb2 (q ++ [mkE n Committed bytes]) i
    end.
Proof.
  intros Hrdy Ht Hn Ha Hf. pose proof (ring_ready_writer _ _ _ Hrdy) as Hw. destruct Hrdy as [H Hr].
  destruct (reserve_spec rb q i tail area n hp lock) as (r & rb1 & E & Hres); [done|done|done|done|done|].
  unfold writer_reserve. rewrite E. destruct r as [b| |]; [|by eexists _, _, _..].
  destruct Hres as (-> & Hr1 & payload & Hinv). eexists _, _, _. split; [reflexivity|].
  destruct (fill_and_commit_spec _ _ _ _ _ _ ok _ Hinv Hf) as (bytes & rb2 & HP & Ef & Hr2 & Hinv2).
  exists bytes, rb2. split; [done|]. split; [|split; [done|lia]].
  rewrite <- Ef. rewrite Hr1, (mpsc_reserve_size _ _ _ _ _ _ _ _ E), <- (proj1 (ri_writer _ _ _ H)). done.
Qed.

Lemma ring_ready_reader rb q i : ring_ready rb q i -> 0 <= reader_pos rb <= reader_pos rb.
Proof. intros [H _]. pose proof (ri_reader _ _ _ H). lia. Qed.

Lemma store_total ev off bs : 0 <= off -> off + Z.of_nat (length bs) <= Z.of_nat (length ev) ->
  store ev off bs = Some (take (Z.to_nat off) ev ++ bs ++ drop (Z.to_nat off + length bs) ev) /\
  length (take (Z.to_nat off) ev ++ bs ++ drop (Z.to_nat off + length bs) ev) = length ev.
Proof.
  intros H0 H1. unfold store. destruct (Z.leb_spec 0 off); [|lia].
  destruct (Z.leb_spec (off + Z.of_nat (length bs)) (Z.of_nat (length ev))); [|lia]. split; [done|].
  rewrite !length_app, length_take, length_drop. lia.
Qed.

(** An event overwrites the start of the reservation. *)
Definition starts_with (ev bytes : list Z) : Prop := exists pad, bytes = ev ++ pad.

Lemma fills_event ev n : Z.of_nat (length ev) <= n -> fills (fun old => store old 0 ev) n (starts_with ev).
Proof.
  intros Hn old Ho. destruct (store_total old 0 ev) as [-> Hl]; [lia|lia|]. eexists. split; [done|].
  split; [by rewrite Hl|]. by eexists.
Qed.

(** ** The allocation event *)

Definition allocation_layout (head stack : list Z) (stack_size : Z) (bytes : list Z) : Prop :=
  exists pad, bytes = head ++ stack ++ pad ++ le_bytes 8 (Z.of_nat (length stack)) /\
              Z.of_nat (length stack) + Z.of_nat (length pad) = stack_size.

Lemma store_after pre z bs : (length bs <= length z)%nat ->
  store (pre ++ z) (Z.of_nat (length pre)) bs = Some (pre ++ bs ++ drop (length bs) z).
Proof.
  intros Hl. destruct (store_total (pre ++ z) (Z.of_nat (length pre)) bs) as [-> _]; [lia|rewrite length_app; lia|].
  by rewrite Nat2Z.id, take_app_length, drop_app_add.
Qed.

Lemma fills_allocation head stack size :
  Z.of_nat (length head) = sizeof_AllocationEvent -> Z.of_nat (length stack) <= size ->
  fills (fun old => fill_allocation_event old head stack size) (sizeof_allocation_event size) (allocation_layout head stack size).
Proof.
  intros Hh Hs old Ho. unfold fill_allocation_event, sizeof_allocation_event in *.
  pose proof (store_after [] old head ltac:(lia)) as E0. cbn [app length] in E0.
  change (Z.of_nat 0) with 0 in E0. rewrite E0, <- Hh.
  set (rest := drop (length head) old).
  assert (Hrl : Z.of_nat (length rest) = size + 8) by (unfold rest; rewrite length_drop; lia).
  rewrite (store_after head rest stack) by lia.
  set (rest2 := drop (length stack) rest).
  assert (Hrl2 : Z.of_nat (length rest2) = size + 8 - Z.of_nat (length stack)) by (unfold rest2; rewrite length_drop; lia).
  set (pad := take (Z.to_nat (size - Z.of_nat (length stack))) rest2).
  assert (Hp : Z.of_nat (length pad) = size - Z.of_nat (length stack)) by (unfold pad; rewrite length_take; lia).
  rewrite <- (take_drop (Z.to_nat (size - Z.of_nat (length stack))) rest2). fold pad.
  set (r3 := drop _ rest2). assert (Hr3 : length r3 = 8%nat) by (unfold r3; rewrite length_drop; lia).
  replace (Z.of_nat (length head) + size) with (Z.of_nat (length (head ++ stack ++ pad))) by (rewrite !length_app; lia).
  replace (head ++ stack ++ pad ++ r3) with ((head ++ stack ++ pad) ++ r3) by (by rewrite <- !app_assoc).
  rewrite store_after by (rewrite length_le_bytes; lia). rewrite length_le_bytes, (drop_ge r3) by lia.
  eexists. split; [reflexivity|]. rewrite app_nil_r, <- !app_assoc. split.
  - rewrite !length_app, length_le_bytes. lia.
  - exists pad. split; [done|lia].
Qed.

(** The fields of an allocation sample, as the watchers for allocations select
    them. *)
Definition allocation_mask (mask : Z) : Prop :=
  has mask PERF_SAMPLE_IDENTIFIER = false /\ has mask PERF_SAMPLE_IP = false /\ has mask PERF_SAMPLE_TID = true /\
  has mask PERF_SAMPLE_TIME = true /\ has mask PERF_SAMPLE_ADDR = true /\ has mask PERF_SAMPLE_ID = false /\
  has mask PERF_SAMPLE_STREAM_ID = false /\ has mask PERF_SAMPLE_CPU = false /\ has mask PERF_SAMPLE_PERIOD = true /\
  has mask PERF_SAMPLE_READ = false /\ has mask PERF_SAMPLE_CALLCHAIN = false /\ has mask PERF_SAMPLE_RAW = false /\
  has mask PERF_SAMPLE_REGS_USER = true /\ has mask PERF_SAMPLE_STACK_USER = true.

(** What the decoder must return for the event. *)
Definition decodes_as (ev : list Z) (mask pid' tid' time' addr' period' : Z) (regs' stack : list Z) : Prop :=
  forall s0, exists s, hdr2samp s0 ev mask = Some (true, s) /\
    pid s = pid' /\ tid s = tid' /\ time s = time' /\ addr s = addr' /\ period s = period' /\
    (exists off, regs s = Some off /\ memcpy_from ev off (8 * k_perf_register_count) = Some (concat (map (le_bytes 8) regs'))) /\
    size_stack s = Z.of_nat (length stack) /\
    memcpy_from ev (default 0 (data_stack s)) (size_stack s) = Some stack.

Lemma memcpy_at ev off bs rest n : at_off ev off (bs ++ rest) -> n = Z.of_nat (length bs) -> memcpy_from ev off n = Some bs.
Proof.
  intros (pre & -> & ->) ->. unfold memcpy_from. destruct (Z.eqb_spec (Z.of_nat (length bs)) 0) as [E|E].
  { by destruct bs. }
  rewrite !length_app. destruct (Z.leb_spec 0 (Z.of_nat (length pre))); [|lia].
  destruct (Z.leb_spec (Z.of_nat (length pre) + Z.of_nat (length bs)) (Z.of_nat (length pre + (length bs + length rest)))); [|lia].
  cbn [andb]. by rewrite !Nat2Z.id, drop_app_length, take_app_length.
Qed.

Lemma length_concat_words l : length (concat (map (le_bytes 8) l)) = (8 * length l)%nat.
Proof. induction l as [|x l IH]; cbn [map concat length]; [done|]. rewrite length_app, length_le_bytes, IH. lia. Qed.

Lemma allocation_event_decodes size pid' tid' time' addr' period' regs' stack stack_size bytes mask :
  allocation_mask mask -> 0 <= pid' < 2 ^ 32 -> 0 <= tid' < 2 ^ 32 -> is_u64 time' -> is_u64 addr' -> is_u64 period' ->
  Z.of_nat (length regs') = k_perf_register_count -> 0 <= stack_size < 2 ^ 32 -> stack_size mod 8 = 0 ->
  allocation_layout (allocation_event_head size pid' tid' time' addr' period' regs' stack_size) stack stack_size bytes ->
  decodes_as bytes mask pid' tid' time' addr' period' regs' stack.
Proof.
  intros (M1 & M2 & M3 & M4 & M5 & M6 & M7 & M8 & M9 & M10 & M11 & M12 & M13 & M14) Hp Ht Htm Had Hpe Hrg Hss Hs8 (pad & Hb & Hpad) s0.
  unfold allocation_event_head, sample_id_bytes in Hb. rewrite <- !app_assoc in Hb.
  edestruct load_hdr_at as [Eh A]; [exact Hb|cbn [h_type]; unfold PERF_RECORD_SAMPLE; lia|cbn [h_misc]; lia|cbn [h_size]; apply Z.mod_pos_bound; lia|].
  unfold hdr2samp. rewrite Eh. unfold get64 at 1 2. rewrite M1, M2.
  unfold get_halves at 1. rewrite M3.
  destruct (load_word_at _ _ _ _ _ A Hp) as [E1 A1]. destruct (load_word_at _ _ _ _ _ A1 Ht) as [E2 A2].
  change (Z.of_nat 4) with 4 in *. rewrite E1, E2.
  replace (sizeof_hdr + 4 + 4) with (sizeof_hdr + 8) in A2 by reflexivity.
  destruct (load_word_at _ _ _ _ _ A2 Htm) as [E3 A3]. destruct (load_word_at _ _ _ _ _ A3 Had) as [E4 A4].
  destruct (load_word_at _ _ _ _ _ A4 Hpe) as [E5 A5]. change (Z.of_nat 8) with 8 in *.
  unfold get64. rewrite M4, E3, M5, E4, M6, M7. unfold get_halves. rewrite M8, M9, E5, M10, M11, M12, M13.
  destruct (load_word_at _ _ 8 _ _ A5 ltac:(change (256 ^ Z.of_nat 8) with (2 ^ 64); unfold PERF_SAMPLE_REGS_ABI_64; lia)) as [E6 A6]. change (Z.of_nat 8) with 8 in *.
  rewrite E6, Z.eqb_refl. cbn [negb]. rewrite M14.
  pose proof (memcpy_at _ _ _ _ (8 * k_perf_register_count) A6 ltac:(rewrite length_concat_words; lia)) as Er.
  apply at_off_skip in A6. rewrite length_concat_words in A6.
  replace (Z.of_nat (8 * length regs')) with (8 * k_perf_register_count) in A6 by lia.
  destruct (load_word_at _ _ 8 _ _ A6 ltac:(change (256 ^ Z.of_nat 8) with (2 ^ 64); lia)) as [E7 A7]. change (Z.of_nat 8) with 8 in *. rewrite E7.
  destruct (Z.eqb_spec stack_size 0) as [E0|E0].
  - eexists. split; [reflexivity|]. cbn [pid tid time addr period regs size_stack data_stack]. do 5 (split; [done|]).
    split; [by eexists|]. destruct stack; [done|cbn [length] in Hpad; lia].
  - pose proof (memcpy_at _ _ _ _ (Z.of_nat (length stack)) A7 eq_refl) as Es.
    pose proof A7 as A8. apply at_off_skip, at_off_skip in A8. rewrite <- (app_nil_r (le_bytes 8 _)) in A8.
    destruct (load_word_at _ _ 8 _ _ A8 ltac:(change (256 ^ Z.of_nat 8) with (2 ^ 64); lia)) as [E8 _].
    match goal with |- context [load 8 bytes ?o] => replace o with
      (sizeof_hdr + 8 + 8 + 8 + 8 + 8 + 8 * k_perf_register_count + 8 + Z.of_nat (length stack) + Z.of_nat (length pad)) end.
    2: { pose proof (Z.div_mod stack_size 8). assert ((stack_size + 7) / 8 = stack_size / 8); [|lia].
         symmetry. apply (Z.div_unique _ _ _ 7); lia. }
    rewrite E8. eexists. split; [reflexivity|]. cbn [pid tid time addr period regs size_stack data_stack]. do 5 (split; [done|]).
    split; [by eexists|]. destruct (Z.ltb_spec stack_size (Z.of_nat (length stack))); [lia|]. done.
Qed.

Section push.
Context {T : Type} `{AddrSet T}.
Context {G : Type}.
Implicit Types (t : @Tracker T) (tl : @TrackerThreadLocalState G).

(** Tracker fields a push does not touch. *)
Definition same_tracking t t' : Prop :=
  address_set t' = address_set t /\ active t' = active t /\
  track_deallocations (st t') = track_deallocations (st t) /\ failure_count (st t') = failure_count (st t) /\
  high_priority_area_size t' = high_priority_area_size t /\ stack_sample_size t' = stack_sample_size t.

Lemma same_tracking_trans t1 t2 t3 : same_tracking t1 t2 -> same_tracking t2 t3 -> same_tracking t1 t3.
Proof. unfold same_tracking. intuition congruence. Qed.

Definition state_event_entry (e : entry) : Prop :=
  e_n e = sizeof_AllocationTrackerStateEvent /\ e_st e = Committed /\
  exists pid time a b c d f, starts_with (tracker_state_event pid time a b c d f) (e_data e).

Definition tracker_ready t (q : list entry) (i : nat) : Prop :=
  ring_ready (ring t) q i /\ 0 <= high_priority_area_size t < 2 ^ 61.

Lemma push_state_spec t q i (e : env) : tracker_ready t q i ->
  exists res t' extra, push_allocation_tracker_state t e = Some (res, t') /\ same_tracking t t' /\
    tracker_ready t' (q ++ extra) i /\ Forall state_event_entry extra /\ (length extra <= 1)%nat.
Proof.
  intros [Hr Ha]. unfold push_allocation_tracker_state.
  set (ev := tracker_state_event (ts_pid (st t)) (e_state_now e) (as_count (address_set t)) (address_conflict_count (st t))
    (as_active_shards (address_set t)) (lost_alloc_count (st t)) (lost_dealloc_count (st t))).
  destruct (push_event_spec (ring t) q i (reader_pos (ring t)) (high_priority_area_size t) sizeof_AllocationTrackerStateEvent
    true (e_state_lock e) false (fun old => store old 0 ev) (e_state_write_ok e) (starts_with ev) Hr) as (b & to & rb1 & E & Hb);
    [by eapply ring_ready_reader|unfold sizeof_AllocationTrackerStateEvent; lia|done|by apply fills_event|].
  rewrite E. destruct b as [b|].
  - destruct Hb as (bytes & rb2 & Hsw & Ef & Hr2). fold ev. rewrite Ef. eexists _, _, [_]. split; [done|].
    split; [done|]. split; [done|]. split; [|done]. constructor; [|done]. split; [done|]. split; [done|]. by eexists _, _, _, _, _, _, _.
  - subst rb1. eexists _, _, []. split; [done|]. rewrite app_nil_r. split; [done|]. split; [done|]. split; [done|]. simpl. lia.
Qed.

Lemma check_timer_spec t q i now tl (e : env) : tracker_ready t q i ->
  exists t' extra, check_timer t now tl e = Some t' /\ same_tracking t t' /\
    tracker_ready t' (q ++ extra) i /\ Forall state_event_entry extra /\ (length extra <= 1)%nat.
Proof.
  intros Hr. assert (Hsame : forall t', ring t' = ring t -> same_tracking t t' ->
    exists t'' extra, Some t' = Some t'' /\ same_tracking t t'' /\ tracker_ready t'' (q ++ extra) i /\
      Forall state_event_entry extra /\ (length extra <= 1)%nat).
  { intros t' Hring Hs. exists t', []. split; [done|]. split; [done|]. rewrite app_nil_r. split; [|split; [done|simpl; lia]].
    unfold tracker_ready. destruct Hs as (_ & _ & _ & _ & -> & _). by rewrite Hring. }
  unfold check_timer, update_timer. destruct (_ && _); [|by apply Hsame]. destruct (_ <=? _); [by apply Hsame|].
  destruct (_ || _); [by apply Hsame|].
  destruct (push_state_spec (set_st t (st_check (st t) (now + interval (timer_check t)))) q i e Hr)
    as (res & t' & extra & -> & Hs & Hrest). eexists _, extra. split; [done|]. split; [|exact Hrest].
  eapply same_tracking_trans; [|exact Hs]. done.
Qed.

(** What a push did: nothing reached the ring and it did not succeed, or its event
    was committed, possibly followed by a state event; in the latter case it
    succeeded unless the eventfd could not be written. *)
Definition push_outcome t q i (n : Z) (P : list Z -> Prop) (ok : bool) (r : option (DDRes * Tracker)) : Prop :=
  exists res t', r = Some (res, t') /\ same_tracking t t' /\
    ((IsDDResOK res = false /\ tracker_ready t' q i) \/
     (exists bytes extra, P bytes /\ tracker_ready t' (q ++ mkE n Committed bytes :: extra) i /\
        Forall state_event_entry extra /\ (length extra <= 1)%nat /\
        IsDDResOK res = negb (bool_decide (q = []) && negb ok))).

Lemma finish_push_spec t rb1 q i n P bytes tl (e : env) ok :
  0 <= high_priority_area_size t < 2 ^ 61 -> P bytes ->
  ring_ready rb1 (q ++ [mkE n Committed bytes]) i ->
  push_outcome t q i n P ok (finish_push (set_ring t rb1) tl e (bool_decide (q = []) && negb ok)).
Proof.
  intros Ha HP Hr. unfold push_outcome, finish_push. destruct (bool_decide (q = []) && negb ok) eqn:Ef.
  - eexists _, _. split; [done|]. split; [done|]. right. exists bytes, []. split; [done|]. split; [by split|].
    split; [done|]. split; [simpl; lia|done].
  - destruct (check_timer_spec (set_ring t rb1) (q ++ [mkE n Committed bytes]) i (e_now e) tl e) as (t' & extra & -> & Hs & Hr' & Hx);
      [by split|]. eexists _, _. split; [done|]. split; [exact Hs|]. right. exists bytes, extra. split; [done|].
    rewrite <- app_assoc in Hr'. cbn [app] in Hr'. split; [done|]. destruct Hx. done.
Qed.

(** What other threads and the consumer do to the ring while this one sleeps. *)
Definition sleeps_ok (e : env) : Prop := forall k rb q i, ring_ready rb q i ->
  exists q' i', ring_ready (fst (e_retries e k) rb) q' i' /\ reader_pos rb <= reader_pos (fst (e_retries e k) rb).

Lemma retry_loop_spec left (e : env) rb q i tail area n timeout fill ok P :
  ring_ready rb q i -> 0 <= tail <= reader_pos rb -> 0 < n < 2 ^ 61 -> 0 <= area < 2 ^ 61 -> fills fill n P -> sleeps_ok e ->
  exists b timeout' rb1 q' i', retry_loop left (e_retries e) rb tail area n timeout = Some (b, timeout', rb1) /\
    match b with
    | None => ring_ready rb1 q' i'
    | Some b => exists bytes rb2, P bytes /\
        fill_and_commit rb1 b fill ok = Some (bool_decide (q' = []) && negb ok, rb2) /\
        ring_ready rb2 (q' ++ [mkE n Committed bytes]) i'
    end.
Proof.
  intros Hr Ht Hn Ha Hf Hs. revert rb q i timeout Hr Ht. induction left as [|left IH]; intros rb q i timeout Hr Ht; cbn [retry_loop].
  { by exists None, timeout, rb, q, i. }
  destruct (Hs left rb q i Hr) as (q' & i' & Hr' & Hpos). destruct (e_retries e left) as [sleep lock]. cbn [fst] in Hr', Hpos.
  destruct (push_event_spec (sleep rb) q' i' tail area n true lock timeout fill ok P Hr') as (b & to & rb1 & -> & Hb); [lia|done..|].
  destruct b as [b|]; [by eexists _, _, _, q', i'|]. subst rb1. destruct to; [by eexists _, _, _, q', i'|].
  apply (IH _ q' i'); [done|lia].
Qed.

(** The event of a deallocation; [q'] are the records when it was accepted. *)
Lemma push_dealloc_spec t q i a tl (e : env) : tracker_ready t q i -> sleeps_ok e ->
  exists q' i', push_outcome t q' i' sizeof_DeallocationEvent
    (starts_with (deallocation_event (ts_pid (st t)) (tl_tid tl) (e_now e) a)) (e_write_ok e)
    (push_dealloc_sample t a tl e).
Proof.
  intros [Hr Ha] Hs. unfold push_dealloc_sample. set (ev := deallocation_event _ _ _ _).
  assert (Hn : 0 < sizeof_DeallocationEvent < 2 ^ 61) by (unfold sizeof_DeallocationEvent; lia).
  assert (Hf : fills (fun old => store old 0 ev) sizeof_DeallocationEvent (starts_with ev)) by (by apply fills_event).
  pose proof (ring_ready_reader _ _ _ Hr) as Ht.
  destruct (push_event_spec (ring t) q i (reader_pos (ring t)) (high_priority_area_size t) sizeof_DeallocationEvent true
    (e_lock e) false _ (e_write_ok e) _ Hr Ht Hn Ha Hf) as (b & to & rb1 & -> & Hb).
  destruct b as [b|].
  - destruct Hb as (bytes & rb2 & HP & -> & Hr2). exists q, i. by apply (finish_push_spec t rb2 q i _ _ bytes).
  - subst rb1. destruct (retry_loop_spec k_max_sleep_attempts e (ring t) q i (reader_pos (ring t)) (high_priority_area_size t)
      sizeof_DeallocationEvent to _ (e_write_ok e) _ Hr Ht Hn Ha Hf Hs) as (b & to' & rb1 & q' & i' & Er & Hb).
    unfold sleep_and_retry_reserve. rewrite Er. exists q', i'. destruct b as [b|].
    + destruct Hb as (bytes & rb2 & HP & -> & Hr2). by apply (finish_push_spec t rb2 q' i' _ _ bytes).
    + eexists _, _. split; [reflexivity|]. split; [done|]. left. split; [by destruct to'|by split].
Qed.

(** ** Allocation samples *)

Lemma align8_stack x : 0 <= x < 2 ^ 31 -> let n := u32 (align_up x 8) in 0 <= n < 2 ^ 32 /\ n mod 8 = 0 /\ x <= n.
Proof.
  intros Hx. destruct (decide (x = 0)) as [->|]; [vm_compute; done|]. cbv zeta. rewrite align_up8 by lia.
  pose proof (Z.div_mod (x + 7) 8). pose proof (Z.mod_pos_bound (x + 7) 8). rewrite u32_small by lia.
  split; [lia|]. split; [|lia]. rewrite Z.mul_comm. apply Z_mod_mult.
Qed.

Lemma length_save_stack b e sp mem n : 0 <= n -> Z.of_nat (length (save_stack b e sp mem n)) <= n.
Proof. intros Hn. unfold save_stack. destruct (_ || _); [simpl; lia|]. rewrite length_map, length_seqZ. lia. Qed.

Definition alloc_inputs_ok t tl (e : env) (a size : Z) : Prop :=
  0 <= ts_pid (st t) < 2 ^ 32 /\ 0 <= tl_tid tl < 2 ^ 32 /\ is_u64 (e_now e) /\ is_u64 a /\ is_u64 size /\
  Z.of_nat (length (e_regs e)) = k_perf_register_count /\ 0 <= stack_sample_size t < 2 ^ 31.

Lemma push_alloc_spec t q i a size tl (e : env) mask :
  tracker_ready t q i -> allocation_mask mask -> alloc_inputs_ok t tl e a size ->
  let n := alloc_sample_stack_size t tl e in
  push_outcome t q i (sizeof_allocation_event n)
    (fun bytes => decodes_as bytes mask (ts_pid (st t)) (tl_tid tl) (e_now e) a size (e_regs e)
                    (save_stack (stack_begin tl) (stack_end tl) (e_sp e) (e_mem e) n))
    (e_write_ok e) (push_alloc_sample t a size tl e).
Proof.
  intros [Hr Ha] Hm (Hp & Ht & Hnow & Had & Hsz & Hrg & Hss) n. unfold push_alloc_sample. fold n.
  assert (Hn : 0 <= n < 2 ^ 32 /\ n mod 8 = 0) by
    (edestruct align8_stack as (Hn1 & Hn2 & _); [|split; [exact Hn1|exact Hn2]]; lia).
  set (stack := save_stack _ _ _ _ n). assert (Hst : Z.of_nat (length stack) <= n) by (apply length_save_stack; lia).
  set (head := allocation_event_head _ _ _ _ _ _ _ _).
  assert (Hh : Z.of_nat (length head) = sizeof_AllocationEvent).
  { unfold head, allocation_event_head, sample_id_bytes, sizeof_AllocationEvent, hdr_bytes.
    rewrite !length_app, !length_le_bytes, length_concat_words. lia. }
  destruct (push_event_spec (ring t) q i (reader_pos (ring t)) (high_priority_area_size t) (sizeof_allocation_event n) false
    (e_lock e) false _ (e_write_ok e) _ Hr (ring_ready_reader _ _ _ Hr)
    ltac:(unfold sizeof_allocation_event, sizeof_AllocationEvent, k_perf_register_count; lia) Ha (fills_allocation head stack n Hh Hst))
    as (b & to & rb1 & -> & Hb). destruct b as [b|].
  - destruct Hb as (bytes & rb2 & HP & -> & Hr2). apply (finish_push_spec t rb2 q i _ _ bytes); [done| |done].
    destruct Hn. by eapply (allocation_event_decodes (sizeof_allocation_event n)).
  - subst rb1. eexists _, _. split; [reflexivity|]. split; [done|]. left. split; [by destruct to|by split].
Qed.

(** C31: Pushing an allocation sample never goes out of bounds of the ring and
    either leaves the ring as it was and reports a failure, or commits one record
    (possibly followed by a tracker-state record) that [hdr2samp], with the mask
    of an allocation watcher, decodes to exactly what was recorded: process,
    thread, time, address, size, registers and the saved stack bytes; it reports
    success unless the reader had to be woken and could not be. *)
Theorem push_alloc_sample_delivers t q i a size tl (e : env) mask :
  tracker_ready t q i -> allocation_mask mask -> alloc_inputs_ok t tl e a size ->
  let n := alloc_sample_stack_size t tl e in
  push_outcome t q i (sizeof_allocation_event n)
    (fun bytes => decodes_as bytes mask (ts_pid (st t)) (tl_tid tl) (e_now e) a size (e_regs e)
                    (save_stack (stack_begin tl) (stack_end tl) (e_sp e) (e_mem e) n))
    (e_write_ok e) (push_alloc_sample t a size tl e).
Proof. apply push_alloc_spec. Qed.
End push.

(** ** The address set follows the events *)

Section address_set.
Context {T : Type} `{AddrSetLaws T}.
Context {G : Type} (draw : Z -> G -> Z * G).
Implicit Types (t : @Tracker T) (tl : @TrackerThreadLocalState G).

(** The sets track the same addresses, except that [s'] tracks [a] once more when
    [more]. *)
Definition tracks_more (s s' : T) (l : bool) (a : Z) (more : bool) : Prop :=
  forall l' b, trackable b ->
    as_tracked s' l' b = (as_tracked s l' b + Nat.b2n (more && bool_decide (l' = l) && (b =? a)%Z))%nat.

Lemma free_failures_same t failure : let t' := free_on_consecutive_failures t failure in
  ring t' = ring t /\ address_set t' = address_set t /\ high_priority_area_size t' = high_priority_area_size t /\
  (track_deallocations (st t') = true -> track_deallocations (st t) = true).
Proof. unfold free_on_consecutive_failures. repeat case_match; done. Qed.

(** The record of an allocation of [size] bytes reported with address [a]. *)
Definition alloc_record tl (e : env) (pid mask n a size : Z) (r : entry) : Prop :=
  exists bytes, r = mkE (sizeof_allocation_event n) Committed bytes /\
    decodes_as bytes mask pid (tl_tid tl) (e_now e) a size (e_regs e)
      (save_stack (stack_begin tl) (stack_end tl) (e_sp e) (e_mem e) n).

(** The end of [track_allocation], after the address set took the address (or
    [a = 0]). *)
Lemma track_push_spec t q i a tl l (e : env) mask size :
  tracker_ready t q i -> allocation_mask mask -> alloc_inputs_ok t tl e a size -> as_wf (address_set t) ->
  (a = 0 \/ trackable a /\ (0 < as_tracked (address_set t) l a)%nat) ->
  exists t', (let? (res, t) := push_alloc_sample t a size tl e in
   let t := free_on_consecutive_failures t (IsDDResFatal res) in
   if negb (IsDDResOK res) && track_deallocations (st t) && negb (a =? 0) then
     let? (_, s) := as_remove (address_set t) a l in Some (set_set t s, tl)
   else Some (t, tl)) = Some (t', tl) /\ as_wf (address_set t') /\
   exists pushed ok, tracker_ready t' (q ++ pushed) i /\
     (track_deallocations (st t') = true -> tracks_more (address_set t') (address_set t) l a (negb ok && negb (a =? 0)%Z)) /\
     (pushed = [] /\ ok = false \/
      exists r extra, pushed = r :: extra /\ Forall state_event_entry extra /\
        alloc_record tl e (ts_pid (st t)) mask (alloc_sample_stack_size t tl e) a size r /\
        ok = negb (bool_decide (q = []) && negb (e_write_ok e))).
Proof.
  intros Hr Hm Hin Hwf Htr. destruct (push_alloc_spec t q i a size tl e mask Hr Hm Hin) as (res & t1 & -> & Hs & Hout).
  cbv zeta. set (t2 := free_on_consecutive_failures t1 (IsDDResFatal res)).
  destruct (free_failures_same t1 (IsDDResFatal res)) as (Fr & Fs & Fh & _). fold t2 in Fr, Fs, Fh.
  pose proof (proj1 Hs) as Hset.
  assert (Hpushed : exists pushed, tracker_ready t2 (q ++ pushed) i /\
     (pushed = [] /\ IsDDResOK res = false \/
      exists r extra, pushed = r :: extra /\ Forall state_event_entry extra /\
        alloc_record tl e (ts_pid (st t)) mask (alloc_sample_stack_size t tl e) a size r /\
        IsDDResOK res = negb (bool_decide (q = []) && negb (e_write_ok e)))).
  { unfold tracker_ready. rewrite Fr, Fh. destruct Hout as [[Hok Hq]|(bytes & extra & HP & Hq & Hx & _ & Hok)].
    - exists []. rewrite app_nil_r. split; [done|]. by left.
    - exists (mkE (sizeof_allocation_event (alloc_sample_stack_size t tl e)) Committed bytes :: extra). split; [done|].
      right. eexists _, extra. split; [done|]. split; [done|]. split; [|done]. by exists bytes. }
  destruct Hpushed as (pushed & Hq & Hpushed).
  assert (Hnone : tracks_more (address_set t2) (address_set t) l a false).
  { intros l' b Hb. rewrite Fs, Hset. cbn [andb Nat.b2n]. lia. }
  destruct (negb (IsDDResOK res) && track_deallocations (st t2) && negb (a =? 0)) eqn:Ec.
  - zbool. destruct Htr as [->|[Ha Htr]]; [lia|].
    destruct (as_remove_spec (address_set t2) a l) as (rm & s & -> & Hwf' & Hrm & Hcnt); [by rewrite Fs, Hset|done|].
    rewrite Fs, Hset in Hrm, Hcnt. rewrite (proj2 (Nat.ltb_lt _ _) Htr) in Hrm. subst rm.
    eexists. split; [reflexivity|]. split; [done|]. exists pushed, (IsDDResOK res). split; [done|]. split; [|done].
    intros _ l' b Hb. cbn [set_set address_set]. rewrite (Hcnt l' b Hb).
    destruct (IsDDResOK res); [done|]. destruct (Z.eqb_spec a 0); done.
  - eexists. split; [reflexivity|]. split; [by rewrite Fs, Hset|]. exists pushed, (IsDDResOK res). split; [done|]. split; [|done].
    intros Htrk. rewrite Htrk, andb_true_r in Ec. by rewrite Ec.
Qed.

(** How the address set and the ring change with a sampled allocation of the
    address [a]: the record names [a] and the set tracks it once more; or the set
    is unchanged, and the record names no address, or none was accepted, or the
    reader could not be woken for it. *)
Definition allocation_recorded t tl (e : env) mask l a q t' : Prop :=
  exists size pushed addr tracked i', tracker_ready t' (q ++ pushed) i' /\
    (track_deallocations (st t') = true -> tracks_more (address_set t) (address_set t') l a tracked) /\
    (pushed = [] /\ tracked = false \/
     exists r extra, pushed = r :: extra /\ Forall state_event_entry extra /\
       alloc_record tl e (ts_pid (st t)) mask (alloc_sample_stack_size t tl e) addr size r /\
       (tracked = true /\ addr = a \/
        tracked = false /\ addr = 0 \/
        tracked = false /\ addr = a /\ q = [] /\ e_write_ok e = false)).

Lemma tracks_more_undo s s1 s' l a (ok : bool) : tracks_more s s1 l a true -> tracks_more s' s1 l a (negb ok) -> tracks_more s s' l a ok.
Proof.
  intros H1 H2 l' b Hb. specialize (H1 l' b Hb). specialize (H2 l' b Hb). rewrite H1 in H2. clear H1.
  destruct ok; cbn [negb andb] in *; unfold Nat.b2n in *; repeat case_match; lia.
Qed.

Lemma tracks_more_false s s' l a : tracks_more s s' l a false <-> tracks_more s' s l a false.
Proof. unfold tracks_more. cbn [andb Nat.b2n]. split; intros Hx l' b Hb; specialize (Hx l' b Hb); lia. Qed.

Lemma tracks_more_addr s s' l a b : tracks_more s s' l a false -> tracks_more s s' l b false.
Proof. intros Hx l' c Hc. exact (Hx l' c Hc). Qed.

Lemma track_allocation_spec t q i a tl l (e : env) mask :
  tracker_ready t q i -> allocation_mask mask -> (forall size, is_u64 size -> alloc_inputs_ok t tl e a size) ->
  1 <= sampling_interval t < 2 ^ 58 -> 0 <= remaining_bytes tl < 2 ^ 63 ->
  as_wf (address_set t) -> trackable a -> track_deallocations (st t) = true ->
  exists t' tl', track_allocation draw t a tl l e = Some (t', tl') /\ as_wf (address_set t') /\
    allocation_recorded t tl e mask l a q t'.
Proof.
  intros Hr Hm Hin Hi Hrem Hwf Ha Htrk. unfold track_allocation.
  destruct (account_allocation_spec draw t tl Hi Hrem) as (k & r & g & -> & _ & _).
  set (size := k *w sampling_interval t). assert (Hsz : is_u64 size) by apply u64_range. rewrite Htrk.
  destruct (as_add_spec (address_set t) a l Hwf Ha) as (added & s & -> & Hwf1 & Hadd). destruct added.
  - destruct (track_push_spec (set_set t s) q i a (tl_remaining tl r g) l e mask size) as (t' & E & Hwf' & pushed & ok & Hq & Htr & Hp);
      [done|done|by apply Hin|done| |].
    { right. split; [done|]. cbn [set_set address_set]. rewrite (Hadd l a Ha), bool_decide_eq_true_2, Z.eqb_refl by done. cbn. lia. }
    exists t', (tl_remaining tl r g). split; [exact E|]. split; [done|]. exists size, pushed, a, ok, i. split; [done|]. split.
    + intros Ht'. specialize (Htr Ht'). destruct Ha as (_ & Ha0 & _). apply Z.eqb_neq in Ha0. rewrite Ha0, andb_true_r in Htr.
      by apply (tracks_more_undo _ s).
    + destruct Hp as [[-> ->]|(rec & extra & -> & Hx & Hrec & Hok)]; [by left|]. right. exists rec, extra. split; [done|]. split; [done|].
      split; [done|]. destruct ok; [by left|]. right. right. symmetry in Hok. zbool. apply bool_decide_eq_true in H1.
      by rewrite H1.
  - set (t1 := set_st (set_set t s) _).
    destruct (track_push_spec t1 q i 0 (tl_remaining tl r g) l e mask size) as (t' & E & Hwf' & pushed & ok & Hq & Htr & Hp);
      [done|done| |done|by left|].
    { destruct (Hin size Hsz) as (H1 & H2 & H3 & _ & H5). split; [done|]. split; [done|]. split; [done|]. split; [|done]. unfold is_u64. lia. }
    exists t', (tl_remaining tl r g). split; [exact E|]. split; [done|]. exists size, pushed, 0, false, i. split; [done|]. split.
    + intros Ht'. specialize (Htr Ht'). cbn [Z.eqb negb] in Htr. rewrite andb_false_r in Htr.
      intros l' b Hb. rewrite <- (Hadd l' b Hb : as_tracked s l' b = _). specialize (Htr l' b Hb). cbn [andb Nat.b2n] in *.
      cbn [t1 set_st set_set address_set] in Htr. lia.
    + destruct Hp as [[-> ->]|(rec & extra & -> & Hx & Hrec & Hok)]; [by left|]. right. exists rec, extra. split; [done|]. split; [done|].
      split; [done|]. right. by left.
Qed.

(** C32: When the tracker follows deallocations, and unless too many failures in a row make it
    switch that off during the call, a sampled allocation keeps the address set in step with
    what the profiler is told: the address is tracked once more exactly when a record with
    that address was committed and, where the ring was empty and the profiler had to be
    woken, the notification was written; if the set refused the address the record carries
    address 0, if the ring refused the record the address is no longer tracked, and no other
    address is touched.  The address is one the set can hold (not 0 or 1, its two marks), the set and the ring are well-formed, the sampling interval is below
    2^58 bytes, the counter of the thread is not negative, and the watcher samples the fields
    of an allocation.  (Without tracking of deallocations no address is recorded.) *)
Theorem track_allocation_keeps_set_in_step t q i a tl l (e : env) mask :
  tracker_ready t q i -> allocation_mask mask -> (forall size, is_u64 size -> alloc_inputs_ok t tl e a size) ->
  1 <= sampling_interval t < 2 ^ 58 -> 0 <= remaining_bytes tl < 2 ^ 63 ->
  as_wf (address_set t) -> trackable a -> track_deallocations (st t) = true ->
  exists t' tl', track_allocation draw t a tl l e = Some (t', tl') /\ as_wf (address_set t') /\
    allocation_recorded t tl e mask l a q t'.
Proof. apply track_allocation_spec. Qed.

(** A deallocation of an address that is not tracked changes neither the ring
    nor what is tracked; for a tracked address one tracking is removed and the
    ring either gets the deallocation record with that address or the loss is
    reported. *)
Theorem track_deallocation_reports_tracked t q i a tl l (e : env) :
  tracker_ready t q i -> sleeps_ok e -> as_wf (address_set t) -> trackable a -> track_deallocations (st t) = true ->
  exists t', track_deallocation t a tl l e = Some t' /\ as_wf (address_set t') /\
    tracks_more (address_set t') (address_set t) l a (0 <? as_tracked (address_set t) l a)%nat /\
    if (0 <? as_tracked (address_set t) l a)%nat then
      exists q' i' pushed, tracker_ready t' (q' ++ pushed) i' /\
        (pushed = [] \/ exists bytes extra,
           pushed = mkE sizeof_DeallocationEvent Committed bytes :: extra /\ Forall state_event_entry extra /\
           starts_with (deallocation_event (ts_pid (st t)) (tl_tid tl) (e_now e) a) bytes)
    else ring t' = ring t.
Proof.
  intros Hr Hsl Hwf Ha Htrk. unfold track_deallocation. rewrite Htrk. cbn [negb].
  destruct (as_remove_spec (address_set t) a l Hwf Ha) as (ok & s & -> & Hwf' & -> & Hcnt).
  destruct (0 <? as_tracked (address_set t) l a)%nat eqn:Eok; cbn [negb].
  - destruct (push_dealloc_spec (set_set t s) q i a tl e Hr Hsl) as (q' & i' & res & t1 & -> & Hs & Hout).
    set (t2 := free_on_consecutive_failures t1 (IsDDResFatal res)).
    destruct (free_failures_same t1 (IsDDResFatal res)) as (Fr & Fs & Fh & _). fold t2 in Fr, Fs, Fh.
    destruct Hs as (Hset & _). exists t2. split; [done|]. rewrite Fs, Hset. split; [done|]. split; [exact Hcnt|].
    unfold tracker_ready. rewrite Fr, Fh. exists q', i'. destruct Hout as [[_ Hq]|(bytes & extra & HP & Hq & Hx & _)].
    + exists []. rewrite app_nil_r. split; [done|]. by left.
    + eexists. split; [exact Hq|]. right. by exists bytes, extra.
  - eexists. split; [reflexivity|]. split; [done|]. split; [exact Hcnt|]. done.
Qed.
End address_set.
