(* ===== verification/AllocTrackerSet.v ===== *)
(** * The allocation tracker over the address bitset

    [AddressBitset] keeps what the tracker asks of its address set, and the
    tracker's theorems at work on a concrete tracker. *)

From S2P Require Import Prelude AddressSet RingBuffer MpscRing PerfSample Ddres AllocTracker AllocTrackerProofs AllocTrackerPush.

#[export] Instance AddressBitset_AddrSet : AddrSet AddressBitset := {|
  as_init := AddressSet.init;
  as_add := AddressSet.add;
  as_remove := AddressSet.remove;
  as_count := AddressSet.count;
  as_active_shards := AddressSet.active_shards;
  as_wf := bitset_wf;
  as_tracked := fun bs l a => tracked bs (select_ref a l) a
|}.

Lemma trackable_occupied b : trackable b -> occupied b = true.
Proof. intros (_ & H0 & H1). unfold occupied, k_empty_slot, k_deleted_slot. apply Z.eqb_neq in H0, H1. by rewrite H0, H1. Qed.

Lemma select_ref_eq a l l' : bool_decide (select_ref a l' = select_ref a l) = bool_decide (l' = l).
Proof. by destruct l, l'; unfold select_ref; case_bool_decide. Qed.

Lemma selected_eqb a b l l' (ok : bool) :
  ok && bool_decide (select_ref b l' = select_ref a l) && (b =? a) = ok && bool_decide (l' = l) && (b =? a).
Proof. destruct (Z.eqb_spec b a) as [->|]; [by rewrite select_ref_eq|by rewrite !andb_false_r]. Qed.

#[export] Instance AddressBitset_laws : AddrSetLaws AddressBitset.
Proof.
  split.
  - destruct (init_spec 0) as (bs & E & Hwf & H0); [lia|]. exists bs. split; [done|]. split; [done|].
    intros l a Ha. by apply H0, trackable_occupied.
  - intros bs a l Hwf Ha. destruct (add_spec bs a l Hwf Ha) as (ok & bs' & E & Hwf' & H). exists ok, bs'.
    split; [done|]. split; [done|]. intros l' b Hb. cbn [as_tracked AddressBitset_AddrSet].
    rewrite (H _ b (trackable_occupied b Hb)). by rewrite selected_eqb.
  - intros bs a l Hwf Ha. destruct (remove_spec bs a l Hwf Ha) as (ok & bs' & E & Hwf' & Hok & H). exists ok, bs'.
    split; [done|]. split; [done|]. split; [done|]. intros l' b Hb. cbn [as_tracked AddressBitset_AddrSet].
    rewrite (H _ b (trackable_occupied b Hb)). by rewrite selected_eqb.
Qed.

(** ** A concrete tracker *)

Definition demo_ring : RingBuffer := rb_init 4096 8192 (fun _ => 0) 0 0 kMPSCRingBuffer true.
Definition demo_tracker_set : AddressBitset := default (mkBitset 0 None None) (init 0).
Definition demo_tracker : @Tracker AddressBitset :=
  mkTracker true (mkTS true 0 0 0 0 42 1000) 100 64 demo_ring true 409 demo_tracker_set (mkTimer true 0 500) 0.
Definition demo_tl : @TrackerThreadLocalState unit := mkTL 250 10000 20000 tt 43 true true true.
Definition demo_env : env :=
  mkEnv true 1500 true (fun _ => (fun rb => rb, true)) true 1501 true 19000 (replicate 20 7) 19000 (fun a => a mod 256).
Definition demo_draw (m : Z) (g : unit) : Z * unit := (m, g).
Definition demo_alloc_mask : Z :=
  PERF_SAMPLE_TID + PERF_SAMPLE_TIME + PERF_SAMPLE_ADDR + PERF_SAMPLE_PERIOD + PERF_SAMPLE_REGS_USER + PERF_SAMPLE_STACK_USER.

Lemma demo_ring_ready : ring_ready demo_ring [] 0.
Proof.
  split; [|vm_compute; done]. split; try done.
  exists 12. split; [lia|]. by vm_compute.
Qed.

Lemma demo_tracker_ready : tracker_ready demo_tracker [] 0.
Proof. split; [exact demo_ring_ready|]. cbn [high_priority_area_size demo_tracker]. lia. Qed.

Lemma demo_mask_ok : allocation_mask demo_alloc_mask.
Proof. repeat split. Qed.

Lemma demo_inputs_ok size : is_u64 size -> alloc_inputs_ok demo_tracker demo_tl demo_env 0x1000 size.
Proof.
  intros Hs. unfold alloc_inputs_ok, is_u64 in *.
  cbn [ts_pid st demo_tracker tl_tid demo_tl e_now demo_env e_regs stack_sample_size]. repeat split; try lia.
Qed.

Lemma demo_set_tracks : as_wf demo_tracker_set /\ forall l a, trackable a -> as_tracked demo_tracker_set l a = 0%nat.
Proof. destruct as_init_spec as (s & E & Hwf & H0). unfold demo_tracker_set. change (init 0) with (as_init (T := AddressBitset) 0). by rewrite E. Qed.

Lemma demo_trackable : trackable 0x1000.
Proof. split; [unfold is_u64; lia|done]. Qed.

Lemma account_allocation_terminates_witness : exists k tl',
  account_allocation demo_draw demo_tracker demo_tl = Some (k *w 100, tl') /\ k = 3 /\ remaining_bytes tl' = -50.
Proof.
  destruct (account_allocation_terminates demo_draw demo_tracker demo_tl) as (k & tl' & E & Hk & _);
    [cbn; lia|cbn; lia|].
  exists 3, (mkTL (-50) 10000 20000 tt 43 true true true). split; [|done]. vm_compute. reflexivity.
Defined.

Lemma deterministic_sampling_conserves_bytes_witness : exists total tl',
  reported demo_draw demo_tracker (tl_remaining demo_tl (-100) tt) [250; 30; 500] = Some (total, tl') /\ total = 700.
Proof.
  destruct (deterministic_sampling_conserves_bytes demo_draw demo_tracker (tl_remaining demo_tl (-100) tt) [250; 30; 500])
    as (total & tl' & E & _ & _).
  - by left.
  - cbn; lia.
  - cbn; lia.
  - repeat constructor; lia.
  - exists total, tl'. split; [exact E|]. vm_compute in E. by injection E as <- <-.
Defined.

Lemma tracker_stops_after_five_failures_witness :
  switched_off (after_results demo_tracker [true; true; false; true; true; true; true; true; false]) /\
  same_switches demo_tracker (after_results demo_tracker [true; true; true; true; false; true]).
Proof.
  split.
  - exact (tracker_stops_after_five_failures demo_tracker [true; true; false; true; true; true; true; true; false] eq_refl).
  - exact (tracker_stops_after_five_failures demo_tracker [true; true; true; true; false; true] eq_refl).
Defined.

(** The consumer releases the whole ring while the producer sleeps. *)
Definition drain (rb : RingBuffer) : RingBuffer := set_reader_pos rb (writer_pos rb).
Definition demo_full_ring : RingBuffer := rb_init 4096 8192 (fun _ => 0) 4080 0 kMPSCRingBuffer true.

Lemma retry_after_no_space_fails_witness :
  (exists timeout rb', sleep_and_retry_reserve (fun _ => (drain, true)) demo_full_ring 0 0 32 false = Some (None, timeout, rb')) /\
  exists b rb', mpsc_reserve (drain demo_full_ring) (reader_pos (drain demo_full_ring)) 0 32 true true = Some (Reserved b, rb').
Proof.
  split.
  - apply (retry_after_no_space_fails (fun _ => (drain, true)) demo_full_ring 0 0 32 demo_full_ring).
    + lia.
    + cbn; lia.
    + cbn; lia.
    + intros _ rb. cbn [fst drain set_reader_pos mask writer_pos]. lia.
    + reflexivity.
  - eexists _, _. reflexivity.
Defined.

Lemma push_alloc_sample_delivers_witness :
  push_outcome demo_tracker [] 0 (sizeof_allocation_event 64)
    (fun bytes => decodes_as bytes demo_alloc_mask 42 43 1500 0x1000 300 (replicate 20 7)
                    (save_stack 10000 20000 19000 (fun a => a mod 256) 64))
    true (push_alloc_sample demo_tracker 0x1000 300 demo_tl demo_env).
Proof.
  exact (push_alloc_sample_delivers demo_tracker [] 0 0x1000 300 demo_tl demo_env demo_alloc_mask
           demo_tracker_ready demo_mask_ok (demo_inputs_ok 300 ltac:(unfold is_u64; lia))).
Defined.

Lemma track_allocation_keeps_set_in_step_witness : exists t' tl',
  track_allocation demo_draw demo_tracker 0x1000 demo_tl false demo_env = Some (t', tl') /\ as_wf (address_set t') /\
  allocation_recorded demo_tracker demo_tl demo_env demo_alloc_mask false 0x1000 [] t'.
Proof.
  apply (track_allocation_keeps_set_in_step demo_draw demo_tracker [] 0 0x1000 demo_tl false demo_env demo_alloc_mask).
  - exact demo_tracker_ready.
  - exact demo_mask_ok.
  - exact demo_inputs_ok.
  - cbn; lia.
  - cbn; lia.
  - apply demo_set_tracks.
  - exact demo_trackable.
  - reflexivity.
Defined.

Lemma track_deallocation_reports_tracked_witness : exists t',
  track_deallocation demo_tracker 0x1000 demo_tl false demo_env = Some t' /\ ring t' = demo_ring.
Proof.
  destruct (track_deallocation_reports_tracked demo_tracker [] 0 0x1000 demo_tl false demo_env) as (t' & E & _ & _ & Hr).
  - exact demo_tracker_ready.
  - intros k rb q i H. exists q, i. split; [exact H|]. cbn [demo_env e_retries fst]. lia.
  - apply demo_set_tracks.
  - exact demo_trackable.
  - reflexivity.
  - exists t'. split; [exact E|]. cbn [address_set demo_tracker] in Hr.
    rewrite (proj2 demo_set_tracks false 0x1000 demo_trackable) in Hr. exact Hr.
Defined.
