(* ===== verification/Watcher.v ===== *)
(** * Watchers, perf configurations and sample values

    Model of [include/perf_watcher.hpp], [src/perf_watcher.cc],
    [include/event_config.hpp] and of the parts of [src/perf.cc] that compute a
    configuration or a value; [pevent_compute_min_mmap_order] of
    [src/pevent_lib.cc]. *)

From S2P Require Import Prelude RingBuffer PerfSample Ddres AllocTracker.

(** ** Watchers *)

Inductive PerfWatcherUseKernel := kOff | kRequired | kTry.

Inductive EventConfValueSource := kSample | kRegister | kRaw.

(** [EventAggregationMode] is a mask over the positions. *)
Definition kSumPos : Z := 0.
Definition kLiveSumPos : Z := 1.
Definition kDisabled : Z := 0.
Definition kSum : Z := Z.shiftl 1 kSumPos.
Definition kLiveSum : Z := Z.shiftl 1 kLiveSumPos.
Definition kAll : Z := Z.lor kSum kLiveSum.
Definition Any (mode : Z) : bool := negb (mode =? kDisabled).

Record PerfWatcher := mkWatcher {
  sample_type : Z;
  config : Z;
  sample_period : Z;           (* the union with [sample_frequency] *)
  w_desc : string;
  ddprof_event_type : Z;
  w_type : Z;
  use_kernel : PerfWatcherUseKernel;
  is_freq : bool;
  nb_frames_to_skip : Z;
  w_stack_sample_size : Z;
  value_source : EventConfValueSource;
  aggregation_mode : Z;
  regno : Z;
  raw_off : Z;
  raw_sz : Z
}.

(** Kernel constants (uapi/linux/perf_event.h). *)
Definition PERF_TYPE_HARDWARE : Z := 0.
Definition PERF_TYPE_SOFTWARE : Z := 1.
Definition PERF_TYPE_TRACEPOINT : Z := 2.
Definition PERF_TYPE_HW_CACHE : Z := 3.
Definition PERF_TYPE_RAW : Z := 4.
Definition PERF_TYPE_BREAKPOINT : Z := 5.
Definition PERF_TYPE_MAX : Z := 6.
Definition kDDPROF_TYPE_CUSTOM : Z := PERF_TYPE_MAX + 100.
Definition kDDPROF_COUNT_ALLOCATIONS : Z := 0.
Definition PERF_COUNT_SW_TASK_CLOCK : Z := 1.

Definition k_default_perf_stack_sample_size : Z := 32000.
Definition NB_FRAMES_TO_SKIP : Z := 4.

Definition BASE_STYPES : Z :=
  Z.lor (Z.lor (Z.lor (Z.lor PERF_SAMPLE_STACK_USER PERF_SAMPLE_REGS_USER) PERF_SAMPLE_TID) PERF_SAMPLE_TIME) PERF_SAMPLE_PERIOD.
Definition perf_event_default_sample_type : Z := BASE_STYPES.

(** [options] of a row of the table. *)
Record row_options := mkOpt { o_kernel : PerfWatcherUseKernel; o_freq : bool; o_skip : Z }.
Definition NO_OPTIONS := mkOpt kOff false 0.
Definition IS_FREQ := mkOpt kOff true 0.
Definition IS_FREQ_TRY_KERNEL := mkOpt kTry true 0.
Definition USE_KERNEL := mkOpt kRequired false 0.
Definition SKIP_FRAMES := mkOpt kOff false NB_FRAMES_TO_SKIP.

(** Name, description, perf type, perf count type, period or frequency, options. *)
Definition EVENT_CONFIG_TABLE : list (string * string * Z * Z * Z * row_options) :=
  [("hCPU", "CPU Cycles", PERF_TYPE_HARDWARE, 0, 99, IS_FREQ);
   ("hREF", "Ref. CPU Cycles", PERF_TYPE_HARDWARE, 9, 1000, IS_FREQ);
   ("hINST", "Instr. Count", PERF_TYPE_HARDWARE, 1, 1000, IS_FREQ);
   ("hCREF", "Cache Ref.", PERF_TYPE_HARDWARE, 2, 999, NO_OPTIONS);
   ("hCMISS", "Cache Miss", PERF_TYPE_HARDWARE, 3, 999, NO_OPTIONS);
   ("hBRANCH", "Branche Instr.", PERF_TYPE_HARDWARE, 4, 999, NO_OPTIONS);
   ("hBMISS", "Branch Miss", PERF_TYPE_HARDWARE, 5, 999, NO_OPTIONS);
   ("hBUS", "Bus Cycles", PERF_TYPE_HARDWARE, 6, 1000, IS_FREQ);
   ("hBSTF", "Bus Stalls(F)", PERF_TYPE_HARDWARE, 7, 1000, IS_FREQ);
   ("hBSTB", "Bus Stalls(B)", PERF_TYPE_HARDWARE, 8, 1000, IS_FREQ);
   ("sCPU", "CPU Time", PERF_TYPE_SOFTWARE, PERF_COUNT_SW_TASK_CLOCK, 99, IS_FREQ_TRY_KERNEL);
   ("sPF", "Page Faults", PERF_TYPE_SOFTWARE, 2, 1, USE_KERNEL);
   ("sCS", "Con. Switch", PERF_TYPE_SOFTWARE, 3, 1, USE_KERNEL);
   ("sMig", "CPU Migrations", PERF_TYPE_SOFTWARE, 4, 99, IS_FREQ);
   ("sPFMAJ", "Major Faults", PERF_TYPE_SOFTWARE, 6, 99, USE_KERNEL);
   ("sPFMIN", "Minor Faults", PERF_TYPE_SOFTWARE, 5, 99, USE_KERNEL);
   ("sALGN", "Align. Faults", PERF_TYPE_SOFTWARE, 7, 99, IS_FREQ);
   ("sEMU", "Emu. Faults", PERF_TYPE_SOFTWARE, 8, 99, IS_FREQ);
   ("sDUM", "Dummy", PERF_TYPE_SOFTWARE, 9, 1, NO_OPTIONS);
   ("sALLOC", "Allocations", kDDPROF_TYPE_CUSTOM, kDDPROF_COUNT_ALLOCATIONS, 524288, SKIP_FRAMES)]%string.

Definition DDPROF_PWE_LENGTH : Z := Z.of_nat (length EVENT_CONFIG_TABLE).
Definition DDPROF_PWE_TRACEPOINT : Z := -1.

Definition row_name (r : string * string * Z * Z * Z * row_options) : string := fst (fst (fst (fst (fst r)))).

Definition event_type_name_from_idx (idx : Z) : option string :=
  if (idx <? 0) || (DDPROF_PWE_LENGTH <=? idx) then None else row_name <$> EVENT_CONFIG_TABLE !! Z.to_nat idx.

(** The loop of [str_to_event_idx]. *)
Fixpoint find_event (rows : list (string * string * Z * Z * Z * row_options)) (type : Z) (str : string) : Z :=
  match rows with
  | [] => -1
  | r :: rows' => if bool_decide (row_name r = str) then type else find_event rows' (type + 1) str
  end.
Definition str_to_event_idx (str : string) : Z :=
  if bool_decide (str = ""%string) then -1 else find_event EVENT_CONFIG_TABLE 0 str.

Definition ewatcher_from_idx (idx : Z) : option PerfWatcher :=
  if (idx <? 0) || (DDPROF_PWE_LENGTH <=? idx) then None
  else
    let? (name, desc, ty, cfg, freq, o) := EVENT_CONFIG_TABLE !! Z.to_nat idx in
    Some (mkWatcher BASE_STYPES cfg freq desc idx ty (o_kernel o) (o_freq o) (o_skip o) k_default_perf_stack_sample_size
            kSample kSum 0 0 0).

Definition ewatcher_from_str (str : string) : option PerfWatcher := ewatcher_from_idx (str_to_event_idx str).

Definition tracepoint_default_watcher : PerfWatcher :=
  mkWatcher BASE_STYPES 0 1 "Tracepoint" DDPROF_PWE_TRACEPOINT PERF_TYPE_TRACEPOINT kRequired false 0
    k_default_perf_stack_sample_size kSample kSum 0 0 0.

(** ** perf_event_open configurations *)

Record perf_event_attr := mkAttr {
  a_type : Z; a_config : Z; a_sample_period : Z; a_freq : bool; a_sample_type : Z; a_sample_stack_user : Z;
  a_disabled : bool; a_inherit : bool; a_exclude_kernel : bool; a_exclude_hv : bool;
  a_mmap : bool; a_mmap2 : bool; a_comm : bool; a_task : bool; a_enable_on_exec : bool; a_precise_ip : Z;
  a_sample_id_all : bool; a_use_clockid : bool; a_clockid : Z
}.

Definition CLOCK_MONOTONIC : Z := 1.

(** [PerfClockSource]: a posix clock id below [kMaxPosixClock], or another source. *)
Definition kMaxPosixClock : Z := 64.

Definition set_perf_clock_source (a : perf_event_attr) (source : Z) : perf_event_attr :=
  let posix := source <? kMaxPosixClock in
  mkAttr (a_type a) (a_config a) (a_sample_period a) (a_freq a) (a_sample_type a) (a_sample_stack_user a)
    (a_disabled a) (a_inherit a) (a_exclude_kernel a) (a_exclude_hv a) (a_mmap a) (a_mmap2 a) (a_comm a) (a_task a)
    (a_enable_on_exec a) (a_precise_ip a) (a_sample_id_all a) posix (if posix then source else a_clockid a).

Definition perf_config_from_watcher (w : PerfWatcher) (extras : bool) (source : Z) : perf_event_attr :=
  let attr := mkAttr (w_type w) (config w) (sample_period w) (is_freq w) (sample_type w) (w_stack_sample_size w)
                true true (match use_kernel w with kOff => true | _ => false end) true
                extras extras extras extras true 2 true extras (if extras then CLOCK_MONOTONIC else 0) in
  set_perf_clock_source attr source.

Definition with_exclude_kernel (a : perf_event_attr) : perf_event_attr :=
  mkAttr (a_type a) (a_config a) (a_sample_period a) (a_freq a) (a_sample_type a) (a_sample_stack_user a)
    (a_disabled a) (a_inherit a) true (a_exclude_hv a) (a_mmap a) (a_mmap2 a) (a_comm a) (a_task a)
    (a_enable_on_exec a) (a_precise_ip a) (a_sample_id_all a) (a_use_clockid a) (a_clockid a).

Definition all_perf_configs_from_watcher (w : PerfWatcher) (extras : bool) (source : Z) : list perf_event_attr :=
  let attr := perf_config_from_watcher w extras source in
  match use_kernel w with kTry => [attr; with_exclude_kernel attr] | _ => [attr] end.

(** ** The value of a sample *)

(** [perf_value_from_sample] on the sample [s] that points into the event [ev];
    [None]: a read outside the event. *)
Definition perf_value_from_sample (w : PerfWatcher) (ev : list Z) (s : perf_event_sample) : option Z :=
  match value_source w with
  | kRaw =>
      if has (sample_type w) PERF_SAMPLE_RAW then
        if raw_sz w + raw_off w <=? size_raw s then Some 0
        else
          let at_ n := let? p := data_raw s in load n ev (p + raw_off w) in
          if raw_sz w =? 1 then at_ 1%nat
          else if raw_sz w =? 2 then at_ 2%nat
          else if raw_sz w =? 4 then at_ 4%nat
          else if raw_sz w =? 8 then at_ 8%nat
          else Some 0
      else Some 0
  | kRegister => let? p := regs s in load 8 ev (p + 8 * regno w)
  | kSample => Some (period s)
  end.

(** ** Ring size *)

(** [1U << order] is undefined from 32 on. *)
Definition mmap_size (page_size order : Z) : option Z :=
  if (0 <=? order) && (order <? 32) then Some (perf_mmap_size page_size order) else None.

Fixpoint mmap_order_loop (fuel : nat) (page_size order event_size min_samples : Z) : option Z :=
  match fuel with
  | O => None
  | S f =>
      let? size := mmap_size page_size order in
      if (size -w page_size) / event_size <? min_samples
      then mmap_order_loop f page_size (order + 1) event_size min_samples else Some order
  end.

(** The order stays below 32, so 32 iterations are enough. *)
Definition pevent_compute_min_mmap_order (page_size min_order stack_size min_samples : Z) : option Z :=
  mmap_order_loop 32 page_size min_order (sizeof_allocation_event stack_size) min_samples.

Definition k_default_buffer_size_shift : Z := 6.
Definition k_mpsc_buffer_size_shift : Z := 10.
Definition k_min_number_samples_per_ring_buffer : Z := 8.

(** ** Properties *)

Lemma mmap_size_data page order : 1 <= page <= 2 ^ 16 -> 0 <= order < 32 ->
  mmap_size page order = Some (perf_mmap_size page order) /\ perf_mmap_size page order -w page = 2 ^ order * page.
Proof.
  intros Hp Ho. unfold mmap_size, perf_mmap_size. destruct (Z.leb_spec 0 order), (Z.ltb_spec order 32); try lia. split; [done|].
  rewrite Z.shiftl_1_l. assert (1 <= 2 ^ order <= 2 ^ 31) by (split; [apply (Z.pow_le_mono_r 2 0); lia|apply Z.pow_le_mono_r; lia]).
  rewrite (u32_small (2 ^ order)), u32_small by lia. rewrite u64_sub_l, u64_small by (unfold is_u64; nia). lia.
Qed.

Lemma mmap_order_loop_spec fuel page order event min_samples :
  4096 <= page <= 2 ^ 16 -> 0 < event < 2 ^ 33 -> 0 <= min_samples <= 256 -> 0 <= order <= 29 -> (Z.to_nat (30 - order) <= fuel)%nat ->
  exists o, mmap_order_loop fuel page order event min_samples = Some o /\ order <= o <= 29 /\
    min_samples <= (2 ^ o * page) / event /\ forall o', order <= o' < o -> (2 ^ o' * page) / event < min_samples.
Proof.
  intros Hp He Hm. revert order. induction fuel as [|f IH]; intros order Ho Hf; [lia|]. cbn [mmap_order_loop].
  destruct (mmap_size_data page order) as [-> Hd]; [lia|lia|]. rewrite Hd.
  destruct (Z.ltb_spec (2 ^ order * page / event) min_samples) as [Hlt|Hge].
  - assert (Ho29 : order <> 29).
    { intros ->. assert (min_samples <= 2 ^ 29 * page / event); [|lia]. apply Z.div_le_lower_bound; [lia|]. nia. }
    destruct (IH (order + 1)) as (o & E & Hb & Hs & Hleast); [lia|lia|]. exists o. split; [done|]. split; [lia|]. split; [done|].
    intros o' Ho'. destruct (decide (o' = order)) as [->|]; [done|]. apply Hleast. lia.
  - exists order. split; [done|]. split; [lia|]. split; [done|]. intros o' Ho'. lia.
Qed.

(** [pevent_compute_min_mmap_order] terminates without an undefined shift for
    every stack size of 32 bits (and up to 256 requested samples): it returns the
    least order, from the requested minimum, whose ring holds the requested number
    of samples. *)
Theorem min_mmap_order_is_least page min_order stack_size min_samples :
  4096 <= page <= 2 ^ 16 -> 0 <= min_order <= 29 -> 0 <= stack_size < 2 ^ 32 -> 0 <= min_samples <= 256 ->
  exists o, pevent_compute_min_mmap_order page min_order stack_size min_samples = Some o /\ min_order <= o < 32 /\
    min_samples <= (perf_mmap_size page o -w page) / sizeof_allocation_event stack_size /\
    forall o', min_order <= o' < o -> (perf_mmap_size page o' -w page) / sizeof_allocation_event stack_size < min_samples.
Proof.
  intros Hp Ho Hs Hm. unfold pevent_compute_min_mmap_order.
  destruct (mmap_order_loop_spec 32 page min_order (sizeof_allocation_event stack_size) min_samples) as (o & E & Hb & Hfit & Hleast);
    [done|unfold sizeof_allocation_event, sizeof_AllocationEvent, k_perf_register_count; lia|done|done|lia|].
  exists o. split; [done|]. split; [lia|]. rewrite (proj2 (mmap_size_data page o ltac:(lia) ltac:(lia))). split; [done|].
  intros o' Ho'. rewrite (proj2 (mmap_size_data page o' ltac:(lia) ltac:(lia))). by apply Hleast.
Qed.

(** The bounds test of [perf_value_from_sample] is inverted: a raw field that
    lies inside the raw data is reported as 0, and every other value it reports was
    read past the end of the raw data. *)
Theorem raw_value_only_out_of_range w ev s v :
  value_source w = kRaw -> perf_value_from_sample w ev s = Some v ->
  (raw_off w + raw_sz w <= size_raw s -> v = 0) /\
  (v <> 0 -> size_raw s < raw_off w + raw_sz w /\ exists p, data_raw s = Some p /\ load (Z.to_nat (raw_sz w)) ev (p + raw_off w) = Some v).
Proof.
  unfold perf_value_from_sample. intros -> H.
  destruct (has (sample_type w) PERF_SAMPLE_RAW); [|injection H as <-; done].
  destruct (Z.leb_spec (raw_sz w + raw_off w) (size_raw s)); [injection H as <-; split; [done|done]|].
  split; [lia|]. intros Hv. split; [lia|].
  destruct (data_raw s) as [p|]; [exists p; split; [done|]|].
  - destruct (Z.eqb_spec (raw_sz w) 1) as [->|]; [done|]. destruct (Z.eqb_spec (raw_sz w) 2) as [->|]; [done|].
    destruct (Z.eqb_spec (raw_sz w) 4) as [->|]; [done|]. destruct (Z.eqb_spec (raw_sz w) 8) as [->|]; [done|].
    by injection H as <-.
  - repeat (case_match; try done). by injection H as <-.
Qed.

(** Names and indices of the table. *)
Lemma event_names_roundtrip idx name :
  event_type_name_from_idx idx = Some name -> str_to_event_idx name = idx.
Proof.
  unfold event_type_name_from_idx. destruct (_ || _) eqn:Eb; [done|]. zbool. intros E.
  assert (Hall : forall i, (i < 20)%nat -> (str_to_event_idx <$> (row_name <$> EVENT_CONFIG_TABLE !! i)) = Some (Z.of_nat i)).
  { intros i Hi. do 20 (destruct i as [|i]; [vm_compute; reflexivity|]). lia. }
  unfold DDPROF_PWE_LENGTH in *. cbn [length EVENT_CONFIG_TABLE] in *.
  specialize (Hall (Z.to_nat idx) ltac:(lia)). rewrite E in Hall. cbn [fmap option_fmap option_map] in Hall.
  injection Hall as ->. lia.
Qed.

(** ** Witnesses *)

Lemma min_mmap_order_is_least_witness : exists o,
  pevent_compute_min_mmap_order 4096 k_default_buffer_size_shift 65000 k_min_number_samples_per_ring_buffer = Some o /\ o = 7.
Proof.
  destruct (min_mmap_order_is_least 4096 k_default_buffer_size_shift 65000 k_min_number_samples_per_ring_buffer) as (o & E & _).
  - lia.
  - unfold k_default_buffer_size_shift. lia.
  - lia.
  - unfold k_min_number_samples_per_ring_buffer. lia.
  - exists o. split; [exact E|]. vm_compute in E. by injection E as <-.
Defined.

(** A tracepoint whose 4-byte field at offset 8 lies in the 12 bytes of raw data,
    and the same with 8 bytes of raw data. *)
Definition raw_watcher : PerfWatcher :=
  mkWatcher PERF_SAMPLE_RAW 0 1 "raw" DDPROF_PWE_TRACEPOINT PERF_TYPE_TRACEPOINT kRequired false 0 0 kRaw kSum 0 8 4.
Definition raw_event (n : Z) : list Z :=
  hdr_bytes (mkHdr PERF_RECORD_SAMPLE 0 32) ++ le_bytes 4 n ++ replicate 8 1 ++ le_bytes 4 777 ++ replicate 8 0.

Lemma raw_value_only_out_of_range_witness : exists s12 s8,
  hdr2samp zero_sample (raw_event 12) PERF_SAMPLE_RAW = Some (true, s12) /\
  hdr2samp zero_sample (raw_event 8) PERF_SAMPLE_RAW = Some (true, s8) /\
  perf_value_from_sample raw_watcher (raw_event 12) s12 = Some 0 /\
  perf_value_from_sample raw_watcher (raw_event 8) s8 = Some 777 /\ size_raw s8 < 12.
Proof.
  destruct (hdr2samp zero_sample (raw_event 12) PERF_SAMPLE_RAW) as [[ok12 s12]|] eqn:E12; [|vm_compute in E12; discriminate E12].
  destruct (hdr2samp zero_sample (raw_event 8) PERF_SAMPLE_RAW) as [[ok8 s8]|] eqn:E8; [|vm_compute in E8; discriminate E8].
  vm_compute in E12, E8. injection E12 as <- <-. injection E8 as <- <-.
  eexists _, _. split; [reflexivity|]. split; [reflexivity|]. split; [reflexivity|]. split; [reflexivity|].
  refine (proj1 (proj2 (raw_value_only_out_of_range raw_watcher (raw_event 8) _ 777 eq_refl _) _)); [reflexivity|lia].
Defined.
