(* ===== verification/KernelSample.v ===== *)
(** * Samples as the kernel writes them

    The layout of a [PERF_RECORD_SAMPLE] that the documentation of [perf_event_open] gives, for any
    mask of fields without branch stacks (which the profiler does not ask for, and would be between
    raw data and registers) and with read values of one word, and what the decoder of [src/perf_ringbuffer.cc] makes of it.  The allocation
    tracker writes its samples in the same layout. *)

From S2P Require Import Prelude RingBuffer PerfSample Watcher.

(** ** Layout *)

(** What the kernel puts in a sample: the scalar fields, the call chain, the raw data, the ABI and
    the user registers, the copied user stack and the part of it that is valid. *)
Record kernel_sample := mkKS {
  ks_misc : Z; ks_size : Z; ks_id : Z; ks_ip : Z; ks_pid : Z; ks_tid : Z; ks_time : Z; ks_addr : Z; ks_event_id : Z; ks_stream : Z;
  ks_cpu : Z; ks_res : Z; ks_period : Z; ks_read : Z; ks_chain : list Z; ks_raw : list Z; ks_abi : Z; ks_regs : list Z;
  ks_stack : list Z; ks_dyn_size : Z
}.

Definition field (mask flag : Z) (bs : list Z) : list Z := if has mask flag then bs else [].
Definition words (l : list Z) : list Z := concat (map (le_bytes 8) l).

Definition stack_bytes (k : kernel_sample) : list Z :=
  le_bytes 8 (Z.of_nat (length (ks_stack k))) ++ match ks_stack k with [] => [] | l => l ++ le_bytes 8 (ks_dyn_size k) end.

Definition sample_fields (mask : Z) (k : kernel_sample) : list Z :=
  field mask PERF_SAMPLE_IDENTIFIER (le_bytes 8 (ks_id k)) ++
  field mask PERF_SAMPLE_IP (le_bytes 8 (ks_ip k)) ++
  field mask PERF_SAMPLE_TID (le_bytes 4 (ks_pid k) ++ le_bytes 4 (ks_tid k)) ++
  field mask PERF_SAMPLE_TIME (le_bytes 8 (ks_time k)) ++
  field mask PERF_SAMPLE_ADDR (le_bytes 8 (ks_addr k)) ++
  field mask PERF_SAMPLE_ID (le_bytes 8 (ks_event_id k)) ++
  field mask PERF_SAMPLE_STREAM_ID (le_bytes 8 (ks_stream k)) ++
  field mask PERF_SAMPLE_CPU (le_bytes 4 (ks_cpu k) ++ le_bytes 4 (ks_res k)) ++
  field mask PERF_SAMPLE_PERIOD (le_bytes 8 (ks_period k)) ++
  field mask PERF_SAMPLE_READ (le_bytes 8 (ks_read k)) ++
  field mask PERF_SAMPLE_CALLCHAIN (le_bytes 8 (Z.of_nat (length (ks_chain k))) ++ words (ks_chain k)) ++
  field mask PERF_SAMPLE_RAW (le_bytes 4 (Z.of_nat (length (ks_raw k))) ++ ks_raw k) ++
  field mask PERF_SAMPLE_REGS_USER (le_bytes 8 (ks_abi k) ++ words (ks_regs k)) ++
  field mask PERF_SAMPLE_STACK_USER (stack_bytes k).

Definition sample_bytes (mask : Z) (k : kernel_sample) : list Z :=
  hdr_bytes (mkHdr PERF_RECORD_SAMPLE (ks_misc k) (ks_size k)) ++ sample_fields mask k.

(** The ranges of the fields; the raw data fills a word with its size, and there are as many
    registers as the profiler asks for, or none for a thread of the kernel. *)
Record kernel_sample_ok (k : kernel_sample) : Prop := {
  ko_header : 0 <= ks_misc k < 2 ^ 16 /\ 0 <= ks_size k < 2 ^ 16;
  ko_words : is_u64 (ks_id k) /\ is_u64 (ks_ip k) /\ is_u64 (ks_time k) /\ is_u64 (ks_addr k) /\ is_u64 (ks_event_id k) /\
             is_u64 (ks_stream k) /\ is_u64 (ks_period k);
  ko_halves : 0 <= ks_pid k < 2 ^ 32 /\ 0 <= ks_tid k < 2 ^ 32 /\ 0 <= ks_cpu k < 2 ^ 32 /\ 0 <= ks_res k < 2 ^ 32;
  ko_chain : Z.of_nat (length (ks_chain k)) < 2 ^ 64;
  ko_raw : Z.of_nat (length (ks_raw k)) < 2 ^ 32 /\ Z.of_nat (length (ks_raw k)) mod 8 = 4;
  ko_regs : is_u64 (ks_abi k) /\ (ks_abi k = PERF_SAMPLE_REGS_ABI_64 -> Z.of_nat (length (ks_regs k)) = k_perf_register_count);
  ko_stack : Z.of_nat (length (ks_stack k)) < 2 ^ 64 /\ Z.of_nat (length (ks_stack k)) mod 8 = 0 /\ is_u64 (ks_dyn_size k)
}.

(** ** Decoding *)

Lemma length_words l : length (words l) = (8 * length l)%nat.
Proof. unfold words. induction l as [|x l IH]; [done|]. cbn [map concat length]. rewrite length_app, length_le_bytes, IH. lia. Qed.

Lemma load_words l ev p rest i x : at_off ev p (words l ++ rest) -> Forall is_u64 l -> l !! i = Some x -> load 8 ev (p + 8 * Z.of_nat i) = Some x.
Proof.
  revert p i. induction l as [|y l IH]; intros p i H Hl Hi; [done|]. inversion_clear Hl as [|? ? Hy Hl'].
  unfold words in H. cbn [map concat] in H. rewrite <- app_assoc in H. destruct (load_word_at _ _ _ _ _ H Hy) as [E H']. destruct i as [|i]; cbn in Hi.
  - injection Hi as ->. by rewrite Z.add_0_r, E.
  - replace (p + 8 * Z.of_nat (S i)) with (p + Z.of_nat 8 + 8 * Z.of_nat i) by lia. by eapply IH.
Qed.

(** What is left of a record after a field that may be absent. *)
Lemma field_skip mask flag ev buf bs rest : at_off ev buf (field mask flag bs ++ rest) ->
  at_off ev (if has mask flag then buf + Z.of_nat (length bs) else buf) rest.
Proof. unfold field. destruct (has mask flag); [apply at_off_skip|done]. Qed.

(** Whether a sample can be used: with registers, they are those of a 64-bit process. *)
Definition usable (mask : Z) (k : kernel_sample) : bool := negb (has mask PERF_SAMPLE_REGS_USER) || (ks_abi k =? PERF_SAMPLE_REGS_ABI_64).

(** The decoded sample points at the parts of the record. *)
Record decodes (mask : Z) (ev : list Z) (k : kernel_sample) (s0 s : perf_event_sample) : Prop := {
  dc_id : sample_id s = if has mask PERF_SAMPLE_IDENTIFIER then ks_id k else sample_id s0;
  dc_ip : ip s = if has mask PERF_SAMPLE_IP then ks_ip k else ip s0;
  dc_pid : pid s = (if has mask PERF_SAMPLE_TID then ks_pid k else pid s0) /\ tid s = if has mask PERF_SAMPLE_TID then ks_tid k else tid s0;
  dc_time : time s = if has mask PERF_SAMPLE_TIME then ks_time k else time s0;
  dc_addr : addr s = if has mask PERF_SAMPLE_ADDR then ks_addr k else addr s0;
  dc_event : id s = (if has mask PERF_SAMPLE_ID then ks_event_id k else id s0) /\
             stream_id s = if has mask PERF_SAMPLE_STREAM_ID then ks_stream k else stream_id s0;
  dc_cpu : cpu s = (if has mask PERF_SAMPLE_CPU then ks_cpu k else cpu s0) /\ res s = if has mask PERF_SAMPLE_CPU then ks_res k else res s0;
  dc_period : period s = if has mask PERF_SAMPLE_PERIOD then ks_period k else period s0;
  dc_chain : has mask PERF_SAMPLE_CALLCHAIN = true ->
    nr s = Z.of_nat (length (ks_chain k)) /\ exists p rest, ips s = Some p /\ at_off ev p (words (ks_chain k) ++ rest);
  dc_raw : has mask PERF_SAMPLE_RAW = true ->
    size_raw s = Z.of_nat (length (ks_raw k)) /\ exists p rest, data_raw s = Some p /\ at_off ev p (ks_raw k ++ rest);
  dc_regs : has mask PERF_SAMPLE_REGS_USER = true -> exists p rest, regs s = Some p /\ at_off ev p (words (ks_regs k) ++ rest);
  dc_stack : has mask PERF_SAMPLE_STACK_USER = true ->
    if bool_decide (ks_stack k = []) then size_stack s = 0 /\ data_stack s = None
    else size_stack s = (if Z.of_nat (length (ks_stack k)) <? ks_dyn_size k then 0 else ks_dyn_size k) /\
         exists p rest, data_stack s = Some p /\ at_off ev p (ks_stack k ++ rest)
}.

Lemma decode_chain mask ev buf k rest (nr0 : Z) (ips0 : option Z) : kernel_sample_ok k ->
  at_off ev buf (field mask PERF_SAMPLE_CALLCHAIN (le_bytes 8 (Z.of_nat (length (ks_chain k))) ++ words (ks_chain k)) ++ rest) ->
  exists n p buf', (if has mask PERF_SAMPLE_CALLCHAIN then let? n := load 8 ev buf in Some (n, Some (buf + 8), buf + 8 + 8 * n) else Some (nr0, ips0, buf)) = Some (n, p, buf') /\
    at_off ev buf' rest /\
    (has mask PERF_SAMPLE_CALLCHAIN = true -> n = Z.of_nat (length (ks_chain k)) /\ exists q rest, p = Some q /\ at_off ev q (words (ks_chain k) ++ rest)).
Proof.
  intros Hk H. unfold field in H. destruct (has mask PERF_SAMPLE_CALLCHAIN); [|by eexists _, _, _].
  rewrite <- app_assoc in H. pose proof (ko_chain _ Hk). destruct (load_word_at _ _ _ _ _ H) as [-> H1]; [lia|].
  eexists _, _, _. split; [done|]. split; [|intros _; split; [done|]; by eexists _, _].
  apply at_off_skip in H1. rewrite length_words in H1. by replace (buf + Z.of_nat 8 + Z.of_nat (8 * length (ks_chain k))) with (buf + 8 + 8 * Z.of_nat (length (ks_chain k))) in H1 by lia.
Qed.

(** The size of the raw data is followed by as many words as the code skips. *)
Lemma decode_raw mask ev buf k rest (size0 : Z) (data0 : option Z) : kernel_sample_ok k ->
  at_off ev buf (field mask PERF_SAMPLE_RAW (le_bytes 4 (Z.of_nat (length (ks_raw k))) ++ ks_raw k) ++ rest) ->
  exists n p buf', (if has mask PERF_SAMPLE_RAW then let? n := load 4 ev buf in Some (n, if n =? 0 then None else Some (buf + 4), buf + 8 * (1 + n / 8)) else Some (size0, data0, buf)) = Some (n, p, buf') /\
    at_off ev buf' rest /\
    (has mask PERF_SAMPLE_RAW = true -> n = Z.of_nat (length (ks_raw k)) /\ exists q rest, p = Some q /\ at_off ev q (ks_raw k ++ rest)).
Proof.
  intros Hk H. unfold field in H. destruct (has mask PERF_SAMPLE_RAW); [|by eexists _, _, _].
  rewrite <- app_assoc in H. destruct (ko_raw _ Hk) as [Hr Hm]. destruct (load_word_at _ _ _ _ _ H) as [-> H1]; [lia|].
  destruct (Z.eqb_spec (Z.of_nat (length (ks_raw k))) 0) as [E|_]; [by rewrite E in Hm|].
  eexists _, _, _. split; [done|]. split; [|intros _; split; [done|]; by eexists _, _].
  apply at_off_skip in H1. replace (buf + Z.of_nat 4 + Z.of_nat (length (ks_raw k))) with (buf + 8 * (1 + Z.of_nat (length (ks_raw k)) / 8)) in H1; [done|].
  pose proof (Z.div_mod (Z.of_nat (length (ks_raw k))) 8). lia.
Qed.

(** A sample without the registers of a 64-bit process is not read further. *)
Lemma decode_regs mask ev buf k rest (abi0 : Z) (regs0 : option Z) : kernel_sample_ok k ->
  at_off ev buf (field mask PERF_SAMPLE_REGS_USER (le_bytes 8 (ks_abi k) ++ words (ks_regs k)) ++ rest) ->
  exists a p buf', (if has mask PERF_SAMPLE_REGS_USER then
      let? a := load 8 ev buf in
      if a =? PERF_SAMPLE_REGS_ABI_64 then Some (true, a, Some (buf + 8), buf + 8 + 8 * k_perf_register_count) else Some (false, a, regs0, buf + 8)
    else Some (true, abi0, regs0, buf)) = Some (usable mask k, a, p, buf') /\
    (usable mask k = true -> at_off ev buf' rest) /\
    (usable mask k = true -> has mask PERF_SAMPLE_REGS_USER = true -> exists q rest, p = Some q /\ at_off ev q (words (ks_regs k) ++ rest)).
Proof.
  intros Hk H. unfold field in H. unfold usable. destruct (has mask PERF_SAMPLE_REGS_USER); [|by eexists _, _, _].
  rewrite <- app_assoc in H. destruct (ko_regs _ Hk) as [Ha Hl]. destruct (load_word_at _ _ _ _ _ H Ha) as [-> H1]. cbn [negb orb].
  destruct (Z.eqb_spec (ks_abi k) PERF_SAMPLE_REGS_ABI_64) as [E|]; [|by eexists _, _, _].
  eexists _, _, _. split; [done|]. split; [|intros _ _; by eexists _, _]. intros _. specialize (Hl E).
  apply at_off_skip in H1. rewrite length_words in H1. by replace (buf + Z.of_nat 8 + Z.of_nat (8 * length (ks_regs k))) with (buf + 8 + 8 * k_perf_register_count) in H1 by lia.
Qed.

Lemma round_up_whole x : x mod 8 = 0 -> 8 * ((x + 7) / 8) = x.
Proof.
  intros Hm. pose proof (Z.div_mod x 8 ltac:(lia)) as Hd. rewrite Hm in Hd. replace (x + 7) with (7 + x / 8 * 8) by lia.
  rewrite Z.div_add by lia. change (7 / 8) with 0. lia.
Qed.

(** The readers of scalar fields, on a field that may be absent. *)
Lemma get64_field mask flag ev buf old x rest : at_off ev buf (field mask flag (le_bytes 8 x) ++ rest) -> is_u64 x ->
  exists buf', get64 mask flag ev buf old = Some (if has mask flag then x else old, buf') /\ at_off ev buf' rest.
Proof. apply get64_at. Qed.

Lemma get_halves_field mask flag ev buf old0 old1 x y rest : at_off ev buf (field mask flag (le_bytes 4 x ++ le_bytes 4 y) ++ rest) ->
  0 <= x < 2 ^ 32 -> 0 <= y < 2 ^ 32 ->
  exists buf', get_halves mask flag ev buf old0 old1 = Some (if has mask flag then x else old0, if has mask flag then y else old1, buf') /\ at_off ev buf' rest.
Proof. apply get_halves_at. Qed.

Lemma hdr2samp_kernel_sample mask k pad s0 : kernel_sample_ok k ->
  exists s, hdr2samp s0 (sample_bytes mask k ++ pad) mask = Some (usable mask k, s) /\
    (usable mask k = true -> decodes mask (sample_bytes mask k ++ pad) k s0 s).
Proof.
  intros Hk. set (ev := sample_bytes mask k ++ pad). pose proof Hk as [[K1 K2] (W1 & W2 & W3 & W4 & W5 & W6 & W7) (H1 & H2 & H3 & H4) _ _ _ (S1 & S2 & S3)].
  assert (Hev : ev = hdr_bytes (mkHdr PERF_RECORD_SAMPLE (ks_misc k) (ks_size k)) ++ sample_fields mask k ++ pad) by (unfold ev, sample_bytes; by rewrite <- app_assoc).
  destruct (load_hdr_at _ _ _ Hev) as [Eh A]; [cbn; unfold PERF_RECORD_SAMPLE; lia|done|done|]. clearbody ev. clear Hev.
  unfold sample_fields in A. rewrite <- !app_assoc in A. unfold hdr2samp. rewrite Eh.
  destruct (get64_field _ _ _ _ (sample_id s0) _ _ A W1) as (b1 & -> & A1).
  destruct (get64_field _ _ _ _ (ip s0) _ _ A1 W2) as (b2 & -> & A2).
  destruct (get_halves_field _ _ _ _ (pid s0) (tid s0) _ _ _ A2 H1 H2) as (b3 & -> & A3).
  destruct (get64_field _ _ _ _ (time s0) _ _ A3 W3) as (b4 & -> & A4).
  destruct (get64_field _ _ _ _ (addr s0) _ _ A4 W4) as (b5 & -> & A5).
  destruct (get64_field _ _ _ _ (id s0) _ _ A5 W5) as (b6 & -> & A6).
  destruct (get64_field _ _ _ _ (stream_id s0) _ _ A6 W6) as (b7 & -> & A7).
  destruct (get_halves_field _ _ _ _ (cpu s0) (res s0) _ _ _ A7 H3 H4) as (b8 & -> & A8).
  destruct (get64_field _ _ _ _ (period s0) _ _ A8 W7) as (b9 & -> & A9). apply field_skip in A9. rewrite length_le_bytes in A9.
  set (rd := if has mask PERF_SAMPLE_READ then (Some b9, b9 + 8) else (v s0, b9)).
  assert (Erd : snd rd = if has mask PERF_SAMPLE_READ then b9 + Z.of_nat 8 else b9) by (unfold rd; by destruct (has mask PERF_SAMPLE_READ)).
  rewrite <- Erd in A9. destruct rd as [v1 b10]. cbn [snd] in A9.
  destruct (decode_chain mask ev b10 k _ (nr s0) (ips s0) Hk A9) as (n1 & p1 & b11 & -> & A11 & Hchain).
  destruct (decode_raw mask ev b11 k _ (size_raw s0) (data_raw s0) Hk A11) as (n2 & p2 & b12 & -> & A12 & Hraw).
  destruct (decode_regs mask ev b12 k _ (abi s0) (regs s0) Hk A12) as (a & p3 & b13 & -> & A13 & Hregs).
  destruct (usable mask k); cbn [negb]; [|by eexists]. specialize (A13 eq_refl). specialize (Hregs eq_refl). unfold field in A13.
  destruct (has mask PERF_SAMPLE_STACK_USER) eqn:Es; [|eexists; split; [reflexivity|intros _; split; try done; by rewrite Es]].
  unfold stack_bytes in A13. rewrite <- app_assoc in A13. destruct (load_word_at _ _ _ _ _ A13) as [-> A14]; [lia|].
  destruct (Z.eqb_spec (Z.of_nat (length (ks_stack k))) 0) as [E0|E0].
  - eexists. split; [reflexivity|]. intros _. split; try done. intros _. rewrite bool_decide_true by (destruct (ks_stack k); [done|cbn in E0; lia]). done.
  - assert (Hne : ks_stack k <> []) by (by destruct (ks_stack k)).
    assert (A15 : at_off ev (b13 + Z.of_nat 8) (ks_stack k ++ le_bytes 8 (ks_dyn_size k) ++ pad)) by (destruct (ks_stack k); [done|]; by rewrite <- app_assoc in A14).
    pose proof (at_off_skip _ _ _ _ A15) as A16. destruct (load_word_at _ _ _ _ _ A16 S3) as [E16 _].
    rewrite (round_up_whole _ S2).
    change (b13 + 8) with (b13 + Z.of_nat 8). rewrite E16. eexists. split; [reflexivity|]. intros _. split; try done. intros _. rewrite bool_decide_false by done. split; [done|]. by eexists _, _.
Qed.


(** The header of a decoded sample is that of the record. *)
Lemma hdr2samp_header s0 ev mask b s : hdr2samp s0 ev mask = Some (b, s) -> load_hdr ev = Some (header s).
Proof.
  unfold hdr2samp. destruct (load_hdr ev) as [h|]; [|done]. intros H.
  repeat (case_match; try done); by injection H as _ <-.
Qed.

(** ** The value of a sample *)

(** The field of a raw value lies in the raw data, the register of a register value exists. *)
Definition value_field_ok (pw : PerfWatcher) (k : kernel_sample) : Prop :=
  match value_source pw with
  | kRaw => 0 <= raw_off pw /\ 0 <= raw_sz pw /\ raw_sz pw + raw_off pw <= Z.of_nat (length (ks_raw k))
  | kRegister => has (sample_type pw) PERF_SAMPLE_REGS_USER = true /\ Forall is_u64 (ks_regs k) /\ 0 <= regno pw < k_perf_register_count
  | kSample => True
  end.

(** The value is then read inside the record. *)
Lemma kernel_sample_value pw k pad s0 s : kernel_sample_ok k -> usable (sample_type pw) k = true ->
  decodes (sample_type pw) (sample_bytes (sample_type pw) k ++ pad) k s0 s -> value_field_ok pw k ->
  is_Some (perf_value_from_sample pw (sample_bytes (sample_type pw) k ++ pad) s).
Proof.
  intros Hk Hu Hd Hv. unfold perf_value_from_sample, value_field_ok in *. destruct (value_source pw); [by eexists| |].
  - destruct Hv as (Hr & Hw & Hn). destruct (dc_regs _ _ _ _ _ Hd Hr) as (p & rest & -> & Hat). unfold usable in Hu. rewrite Hr in Hu. cbn [negb orb] in Hu.
    apply Z.eqb_eq in Hu. pose proof (proj2 (ko_regs _ Hk) Hu) as Hl. destruct (lookup_lt_is_Some_2 (ks_regs k) (Z.to_nat (regno pw))) as [x Hx]; [lia|].
    pose proof (load_words _ _ _ _ _ _ Hat Hw Hx) as E. rewrite Z2Nat.id in E by lia. rewrite E. by eexists.
  - destruct (has (sample_type pw) PERF_SAMPLE_RAW) eqn:Er; [|by eexists]. destruct (dc_raw _ _ _ _ _ Hd Er) as (-> & _).
    rewrite (proj2 (Z.leb_le _ _)) by lia. by eexists.
Qed.

(** ** At work *)

Definition demo_kernel_mask : Z := PERF_SAMPLE_TID + PERF_SAMPLE_TIME + PERF_SAMPLE_CPU + PERF_SAMPLE_PERIOD + PERF_SAMPLE_RAW + PERF_SAMPLE_REGS_USER + PERF_SAMPLE_STACK_USER.
Definition demo_kernel_sample : kernel_sample :=
  mkKS 2 272 0 0 42 43 1000 0 0 0 3 0 99 0 [] [1; 2; 3; 4] PERF_SAMPLE_REGS_ABI_64 (map Z.of_nat (seq 100 20)) (replicate 16 7) 12.

