(* ===== verification/EventConfig.v ===== *)
(** * Event configurations

    Model of the text that configures the events: the scanner and the grammar
    ([src/event_parser/event_parser.l], [event_parser.y]), and the watchers made of its
    configurations ([src/ddprof_cmdline_watcher.cc], [src/tracepoint_config.cc]).  The scanner takes
    the longest match of a rule, and of those the first rule; the parser calls the actions of the
    grammar from left to right.  The theorems are in [EventConfigProofs]. *)

From S2P Require Import Prelude RingBuffer PerfSample Ddres AllocTracker Watcher StackMemory.
From stdpp Require Import pretty.

Local Open Scope Z_scope.

(** ** Characters *)

Abbreviation chars := (list Ascii.ascii).
Definition code (c : Ascii.ascii) : Z := Z.of_N (Ascii.N_of_ascii c).
Definition between (a b : Z) (c : Ascii.ascii) : bool := (a <=? code c) && (code c <=? b).
Definition is_digit (c : Ascii.ascii) : bool := between 48 57 c.
Definition is_alpha (c : Ascii.ascii) : bool := between 65 90 c || between 97 122 c.
Definition is_start (c : Ascii.ascii) : bool := is_alpha c || (code c =? 95).
Definition is_word (c : Ascii.ascii) : bool := is_start c || is_digit c.
Definition is_sign (c : Ascii.ascii) : bool := (code c =? 43) || (code c =? 45).
Definition is_blank (c : Ascii.ascii) : bool := (code c =? 32) || (code c =? 9).
Definition is_digit_or_dot (c : Ascii.ascii) : bool := is_digit c || (code c =? 46).
Definition is_suffix (c : Ascii.ascii) : bool := (code c =? 102) || (code c =? 70) || (code c =? 100) || (code c =? 68).

Fixpoint span (p : Ascii.ascii -> bool) (l : chars) : chars * chars :=
  match l with
  | [] => ([], [])
  | c :: l' => if p c then let '(a, b) := span p l' in (c :: a, b) else ([], l)
  end.

(** ** Tokens *)

Inductive EventConfField := kValueScale | kRawOffset | kRawSize | kEvent | kFrequency | kGroup | kId | kLabel | kMode | kParameter | kPeriod | kRegisterField | kStackSampleSize.

#[global] Instance EventConfField_eq_dec : EqDecision EventConfField.
Proof. solve_decision. Defined.

(** A decimal number: the digits without their point, and how many are behind it.  Its conversion to a double is not modelled. *)
Record decimal := mkDec { mantissa : Z; decimals : nat }.

Inductive token :=
| EQ | OPTSEP | CONFSEP
| FLOAT (d : decimal) | NUMBER (n : Z) | HEXNUMBER (n : Z)
| WORD (w : string) | KEY (f : EventConfField) | CHAR (c : Z).

Definition keywords : list (string * EventConfField) :=
  [("s", kValueScale); ("value_scale", kValueScale); ("scale", kValueScale);
   ("f", kFrequency); ("frequency", kFrequency); ("freq", kFrequency);
   ("e", kEvent); ("event", kEvent); ("eventname", kEvent); ("ev", kEvent);
   ("g", kGroup); ("group", kGroup); ("groupname", kGroup); ("gr", kGroup);
   ("i", kId); ("id", kId);
   ("l", kLabel); ("label", kLabel);
   ("m", kMode); ("mode", kMode);
   ("n", kParameter); ("arg_num", kParameter); ("argno", kParameter);
   ("o", kRawOffset); ("raw_offset", kRawOffset); ("rawoff", kRawOffset);
   ("p", kPeriod); ("period", kPeriod); ("per", kPeriod);
   ("st", kStackSampleSize); ("stack_sample_size", kStackSampleSize); ("stcksz", kStackSampleSize);
   ("r", kRegisterField); ("register", kRegisterField); ("regno", kRegisterField);
   ("z", kRawSize); ("raw_size", kRawSize); ("rawsz", kRawSize)]%string.

Definition keyword (w : string) : option EventConfField := snd <$> List.find (fun p => bool_decide (fst p = w)) keywords.

(** ** Numbers *)

Definition digits_value (base : Z) (l : chars) : Z := foldl (fun n c => base * n + (code c - 48)) 0 l.

Definition split_sign (l : chars) : bool * chars :=
  match l with
  | c :: l' => if is_sign c then (code c =? 45, l') else (false, l)
  | [] => (false, [])
  end.

(** [strtol] on a sign and digits: out of range, the nearest bound. *)
Definition strtol (base : Z) (negative : bool) (digits : chars) : Z :=
  let v := digits_value base digits in
  Z.max (- 2 ^ 63) (Z.min (2 ^ 63 - 1) (if negative then - v else v)).

(** [strtod] on a sign, digits and points: it stops at the second point. *)
Definition strtod (negative : bool) (l : chars) : decimal :=
  let '(whole, rest) := span is_digit l in
  let fraction := match rest with c :: rest' => if code c =? 46 then fst (span is_digit rest') else [] | [] => [] end in
  let m := digits_value 10 (whole ++ fraction) in
  mkDec (if negative then - m else m) (length fraction).

(** The token of a number, the longest of the three rules (the first of those that are as long), and what follows it. *)
Definition lex_number (l : chars) : option (token * chars) :=
  let '(negative, l) := split_sign l in
  let '(digits, after_digits) := span is_digit l in
  let '(dotted, after_dotted) := span is_digit_or_dot l in
  let hex := match l with
             | z :: x :: l' => if (code z =? 48) && (code x =? 120) then let '(h, r) := span is_digit l' in if (0 <? length h)%nat then Some (h, r) else None else None
             | _ => None
             end in
  match hex with
  | Some (h, r) => Some (HEXNUMBER (strtol 16 negative h), r)
  | None =>
      let with_suffix := match dotted, after_dotted with _ :: _, c :: r => if is_suffix c then Some r else None | _, _ => None end in
      match with_suffix with
      | Some r => Some (FLOAT (strtod negative dotted), r)
      | None =>
          if (length digits <? length dotted)%nat then Some (FLOAT (strtod negative dotted), after_dotted)
          else if (0 <? length digits)%nat then Some (NUMBER (strtol 10 negative digits), after_digits)
          else None
      end
  end.

(** ** The scanner *)

(** A character that no rule but the last matches.  A byte above 127 is a negative number for the parser, the end of its input. *)
Definition lex_char (c : Ascii.ascii) : option token := if 128 <=? code c then None else Some (CHAR (code c)).

(** [in_value]: the start condition VALUE.  A line feed matches no rule and is echoed. *)
Fixpoint lex (fuel : nat) (in_value : bool) (l : chars) : list token :=
  match fuel, l with
  | S f, c :: l' =>
      if is_start c then
        let '(w, r) := span is_word l in
        let w := String.string_of_list_ascii w in
        (if in_value then WORD w else match keyword w with Some k => KEY k | None => WORD w end) :: lex f false r
      else if code c =? 10 then lex f in_value l'
      else if in_value then
        match lex_number l with
        | Some (t, r) => t :: lex f false r
        | None => match lex_char c with Some t => t :: lex f false l' | None => [] end
        end
      else if code c =? 61 then EQ :: lex f true l'
      else if is_blank c then lex f false (snd (span is_blank l))
      else if code c =? 44 then OPTSEP :: lex f false l'
      else if code c =? 59 then CONFSEP :: lex f false l'
      else match lex_char c with Some t => t :: lex f false l' | None => [] end
  | _, _ => []
  end.

Definition tokens_of (msg : string) : list token := let l := String.list_ascii_of_string msg in lex (length l) false l.

(** ** Configurations *)

Inductive EventConfCadenceType := kUndefined | kPeriodCadence | kFrequencyCadence.

Record EventConf := mkConf {
  c_mode : Z; c_id : Z; c_eventname : string; c_groupname : string; c_label : string;
  c_value_source : EventConfValueSource; c_register_num : Z; c_raw_size : Z; c_raw_offset : Z; c_stack_sample_size : Z; c_value_scale : decimal;
  c_cad_type : EventConfCadenceType; c_cadence : Z
}.

Definition set_names (c : EventConf) (e g : string) : EventConf :=
  mkConf (c_mode c) (c_id c) e g (c_label c) (c_value_source c) (c_register_num c) (c_raw_size c) (c_raw_offset c) (c_stack_sample_size c) (c_value_scale c) (c_cad_type c) (c_cadence c).
Definition set_label (c : EventConf) (l : string) : EventConf :=
  mkConf (c_mode c) (c_id c) (c_eventname c) (c_groupname c) l (c_value_source c) (c_register_num c) (c_raw_size c) (c_raw_offset c) (c_stack_sample_size c) (c_value_scale c) (c_cad_type c) (c_cadence c).
Definition set_mode (c : EventConf) (m : Z) : EventConf :=
  mkConf m (c_id c) (c_eventname c) (c_groupname c) (c_label c) (c_value_source c) (c_register_num c) (c_raw_size c) (c_raw_offset c) (c_stack_sample_size c) (c_value_scale c) (c_cad_type c) (c_cadence c).
Definition set_id (c : EventConf) (i : Z) : EventConf :=
  mkConf (c_mode c) i (c_eventname c) (c_groupname c) (c_label c) (c_value_source c) (c_register_num c) (c_raw_size c) (c_raw_offset c) (c_stack_sample_size c) (c_value_scale c) (c_cad_type c) (c_cadence c).
Definition set_raw_size (c : EventConf) (s : Z) : EventConf :=
  mkConf (c_mode c) (c_id c) (c_eventname c) (c_groupname c) (c_label c) (c_value_source c) (c_register_num c) s (c_raw_offset c) (c_stack_sample_size c) (c_value_scale c) (c_cad_type c) (c_cadence c).
Definition set_source (c : EventConf) (v : EventConfValueSource) (reg off : Z) : EventConf :=
  mkConf (c_mode c) (c_id c) (c_eventname c) (c_groupname c) (c_label c) v reg (c_raw_size c) off (c_stack_sample_size c) (c_value_scale c) (c_cad_type c) (c_cadence c).
Definition set_stack (c : EventConf) (s : Z) : EventConf :=
  mkConf (c_mode c) (c_id c) (c_eventname c) (c_groupname c) (c_label c) (c_value_source c) (c_register_num c) (c_raw_size c) (c_raw_offset c) s (c_value_scale c) (c_cad_type c) (c_cadence c).
Definition set_scale (c : EventConf) (d : decimal) : EventConf :=
  mkConf (c_mode c) (c_id c) (c_eventname c) (c_groupname c) (c_label c) (c_value_source c) (c_register_num c) (c_raw_size c) (c_raw_offset c) (c_stack_sample_size c) d (c_cad_type c) (c_cadence c).
Definition set_cadence (c : EventConf) (t : EventConfCadenceType) (n : Z) : EventConf :=
  mkConf (c_mode c) (c_id c) (c_eventname c) (c_groupname c) (c_label c) (c_value_source c) (c_register_num c) (c_raw_size c) (c_raw_offset c) (c_stack_sample_size c) (c_value_scale c) t n.

(** The loop of [mode_from_str]. *)
Fixpoint mode_of_chars (l : chars) (mode : Z) : option Z :=
  match l with
  | [] => Some mode
  | c :: l' =>
      if (code c =? 83) || (code c =? 115) then mode_of_chars l' (Z.lor mode kSum)
      else if (code c =? 76) || (code c =? 108) then mode_of_chars l' (Z.lor mode kLiveSum)
      else if (code c =? 65) || (code c =? 97) || (code c =? 42) then mode_of_chars l' (Z.lor mode kAll)
      else None
  end.
Definition mode_from_str (str : string) : option Z := mode_of_chars (String.list_ascii_of_string str) kDisabled.

(** ** Actions of the grammar *)

(** [KEY EQ WORD] *)
Definition key_word (f : EventConfField) (w : string) (c : EventConf) : option EventConf :=
  match f with
  | kEvent => Some (set_names c w (c_groupname c))
  | kGroup => Some (set_names c (c_eventname c) w)
  | kLabel => Some (set_label c w)
  | kMode => set_mode c <$> mode_from_str w
  | _ => None
  end.

(** [KEY EQ WORD ':' WORD] *)
Definition key_pair (f : EventConfField) (w1 w2 : string) (c : EventConf) : EventConf := match f with kEvent | kGroup => set_names c w1 w2 | _ => c end.

(** [KEY EQ integer] *)
Definition key_integer (f : EventConfField) (n : Z) (c : EventConf) : option EventConf :=
  if (n <? 0) && negb (bool_decide (f = kPeriod)) && negb (bool_decide (f = kValueScale)) then None
  else
    match f with
    | kId => Some (set_id c n)
    | kRawSize => if (n =? 1) || (n =? 2) || (n =? 4) || (n =? 8) then Some (set_raw_size c n) else None
    | kValueScale => Some (set_scale c (mkDec n 0))
    | kMode => Some (set_mode c (Z.land (u8 n) kAll))
    | kParameter | kRegisterField | kRawOffset =>
        match c_value_source c with
        | kSample =>
            match f with
            | kParameter => let? regno := param_to_perf_regno (Z.to_nat (u32 n)) in Some (set_source c kRegister (Z.of_nat regno) (c_raw_offset c))
            | kRegisterField => if k_perf_register_count <=? n then None else Some (set_source c kRegister n (c_raw_offset c))
            | _ => Some (set_source c kRaw (c_register_num c) n)
            end
        | _ => None
        end
    | kStackSampleSize => Some (set_stack c (u32 n))
    | kPeriod | kFrequency =>
        match c_cad_type c with
        | kUndefined => Some (set_cadence c (match f with kPeriod => kPeriodCadence | _ => kFrequencyCadence end) n)
        | _ => None
        end
    | _ => None
    end.

(** [KEY EQ FLOAT] *)
Definition key_float (f : EventConfField) (d : decimal) (c : EventConf) : option EventConf := match f with kValueScale => Some (set_scale c d) | _ => None end.

(** [conf_finalize]: the configuration that is stored. *)
Definition conf_finalize (c : EventConf) : EventConf :=
  let c :=
    if bool_decide (c_label c = ""%string) then
      if negb (bool_decide (c_eventname c = ""%string)) && negb (bool_decide (c_groupname c = ""%string)) then set_label c (c_groupname c +:+ ":" +:+ c_eventname c)%string
      else if negb (bool_decide (c_eventname c = ""%string)) then set_label c (c_eventname c)
      else if negb (c_id c =? 0) then set_label c ("id:" +:+ pretty (c_id c))%string
      else c
    else c in
  match c_cad_type c with kUndefined => set_cadence c kPeriodCadence (c_cadence c) | _ => c end.

(** ** The parser *)

Definition parse_opt (ts : list token) (c : EventConf) : option (EventConf * list token) :=
  match ts with
  | WORD w :: r => Some (set_names c w (c_groupname c), r)
  | KEY f :: EQ :: WORD w1 :: CHAR 58 :: r => match r with WORD w2 :: r => Some (key_pair f w1 w2 c, r) | _ => None end
  | KEY f :: EQ :: WORD w :: r => let? c := key_word f w c in Some (c, r)
  | KEY f :: EQ :: NUMBER n :: r | KEY f :: EQ :: HEXNUMBER n :: r => let? c := key_integer f n c in Some (c, r)
  | KEY f :: EQ :: FLOAT d :: r => let? c := key_float f d c in Some (c, r)
  | _ => None
  end.

(** The options that follow, up to the end of the configuration. *)
Fixpoint parse_opts (fuel : nat) (ts : list token) (c : EventConf) : option (EventConf * list token) :=
  match fuel with
  | O => None
  | S f =>
      match ts with
      | [] | CONFSEP :: _ => Some (c, ts)
      | OPTSEP :: r => let? (c, r) := parse_opt r c in parse_opts f r c
      | _ => let? (c, r) := parse_opt ts c in parse_opts f r c
      end
  end.

(** Configurations separated by [;]; one may be empty. *)
Fixpoint parse_confs (fuel : nat) (template : EventConf) (ts : list token) : option (list EventConf) :=
  match fuel with
  | O => None
  | S f =>
      match ts with
      | [] => Some []
      | CONFSEP :: r => parse_confs f template r
      | _ =>
          let? (c, r) := parse_opt ts template in
          let? (c, r) := parse_opts f r c in
          let? cs := (match r with CONFSEP :: r => parse_confs f template r | _ => Some [] end) in
          Some (conf_finalize c :: cs)
      end
  end.

(** [None]: the result is not 0. *)
Definition EventConf_parse (msg : string) (template_conf : EventConf) : option (list EventConf) :=
  let ts := tokens_of msg in parse_confs (S (length ts)) template_conf ts.

(** ** Watchers *)

(** [stat] tells which directories exist, [read_id] the number read from a file. *)
Definition tracepoint_get_id (stat : string -> bool) (read_id : string -> option Z) (global_name tracepoint_name : string) : Z :=
  if bool_decide (global_name = ""%string) || bool_decide (tracepoint_name = ""%string) then -1
  else
    let fs_path :=
      if stat "/sys/kernel/tracing/events"%string then Some "/sys/kernel/tracing/events"%string
      else if stat "/sys/kernel/debug/tracing/events"%string then Some "/sys/kernel/debug/tracing/events"%string
      else if stat "/proc/1/root/sys/kernel/debug/tracing/events"%string then Some "/proc/1/root/sys/kernel/debug/tracing/events"%string
      else None in
    match fs_path with
    | None => -1
    | Some fs_path => default (-1) (read_id (fs_path +:+ "/" +:+ global_name +:+ "/" +:+ tracepoint_name +:+ "/id")%string)
    end.

(** A watcher with the fields that the configuration sets beside those of [Watcher.PerfWatcher]. *)
Record ConfiguredWatcher := mkCW { cw : PerfWatcher; cw_value_scale : decimal; tracepoint_event : string; tracepoint_group : string; tracepoint_label : string }.

Definition template_scale (w : PerfWatcher) : decimal := if ddprof_event_type w =? DDPROF_PWE_TRACEPOINT then mkDec 1 0 else mkDec 0 0.

Section Environment.
Context (stat : string -> bool) (read_id : string -> option Z).

Definition kIgnoredWatcherID : Z := -1.

Definition watcher_from_config (conf : EventConf) : option ConfiguredWatcher :=
  if bool_decide (c_eventname conf = ""%string) then None
  else
    let? (w, id) :=
      match ewatcher_from_str (c_eventname conf) with
      | Some w => Some (w, kIgnoredWatcherID)
      | None => if bool_decide (c_groupname conf = ""%string) then None else Some (tracepoint_default_watcher, c_id conf)
      end in
    let? config :=
      (if negb (id =? kIgnoredWatcherID) then
         let tracepoint_id := if 0 <? id then id else tracepoint_get_id stat read_id (c_eventname conf) (c_groupname conf) in
         if tracepoint_id =? kIgnoredWatcherID then None else Some (u64 tracepoint_id)
       else Some (config w)) in
    let '(period, freq) :=
      if negb (c_cadence conf =? 0) then
        match c_cad_type conf with
        | kPeriodCadence => (c_cadence conf, is_freq w)
        | kFrequencyCadence => (c_cadence conf, true)
        | kUndefined => (sample_period w, is_freq w)
        end
      else (sample_period w, is_freq w) in
    let '(source, reg, off, sz, raw) :=
      match c_value_source conf with
      | kRaw => (kRaw, regno w, u8 (c_raw_offset conf), if 0 <? c_raw_size conf then c_raw_size conf else 8, PERF_SAMPLE_RAW)
      | kRegister => (kRegister, c_register_num conf, raw_off w, raw_sz w, 0)
      | kSample => (value_source w, regno w, raw_off w, raw_sz w, 0)
      end in
    let types := Z.lor (Z.lor (sample_type w) raw) (if config =? kDDPROF_COUNT_ALLOCATIONS then PERF_SAMPLE_ADDR else 0) in
    Some (mkCW (mkWatcher types config period (w_desc w) (ddprof_event_type w) (w_type w) (use_kernel w) freq (nb_frames_to_skip w) (c_stack_sample_size conf)
                  source (c_mode conf) reg off sz)
            (if mantissa (c_value_scale conf) =? 0 then template_scale w else c_value_scale conf)
            (c_eventname conf) (c_groupname conf) (c_label conf)).

Fixpoint watchers_from_configs (confs : list EventConf) : option (list ConfiguredWatcher) :=
  match confs with
  | [] => Some []
  | c :: confs' => let? w := watcher_from_config c in let? ws := watchers_from_configs confs' in Some (w :: ws)
  end.

Definition template_conf (stack_sample_size : Z) : EventConf := mkConf kSum 0 "" "" "" kSample 0 0 0 stack_sample_size (mkDec 0 0) kUndefined 0.

(** The watchers that are appended; [None]: the text is refused. *)
Definition watchers_from_str (str : string) (stack_sample_size : Z) : option (list ConfiguredWatcher) :=
  let? configs := EventConf_parse str (template_conf stack_sample_size) in watchers_from_configs configs.
End Environment.
