(* ===== verification/EventConfigProofs.v ===== *)
(** * The language of the event configurations

    Theorems about [EventConfig]: the parser accepts exactly the token sequences of the grammar, with
    the values of its actions; a configuration that is written out is read back; the watchers of an
    accepted text are well-formed. *)

From Stdlib Require Import Ascii.
From S2P Require Import Prelude RingBuffer PerfSample Ddres AllocTracker Watcher StackMemory EventConfig.

Local Open Scope Z_scope.

(** ** The grammar *)

(** The productions of [event_parser.y], each with the effect of its action on the configuration. *)
Inductive Opt : list token -> EventConf -> EventConf -> Prop :=
| opt_word w c : Opt [WORD w] c (set_names c w (c_groupname c))
| opt_key_word f w c c' : key_word f w c = Some c' -> Opt [KEY f; EQ; WORD w] c c'
| opt_key_pair f w1 w2 c : Opt [KEY f; EQ; WORD w1; CHAR 58; WORD w2] c (key_pair f w1 w2 c)
| opt_number f n c c' : key_integer f n c = Some c' -> Opt [KEY f; EQ; NUMBER n] c c'
| opt_hexnumber f n c c' : key_integer f n c = Some c' -> Opt [KEY f; EQ; HEXNUMBER n] c c'
| opt_float f d c c' : key_float f d c = Some c' -> Opt [KEY f; EQ; FLOAT d] c c'.

Inductive Conf : list token -> EventConf -> EventConf -> Prop :=
| conf_opt ts c c' : Opt ts c c' -> Conf ts c c'
| conf_sep ts ts' c c1 c2 : Conf ts c c1 -> Opt ts' c1 c2 -> Conf (ts ++ OPTSEP :: ts') c c2
| conf_next ts ts' c c1 c2 : Conf ts c c1 -> Opt ts' c1 c2 -> Conf (ts ++ ts') c c2.

Inductive Confs (template : EventConf) : list token -> list EventConf -> Prop :=
| confs_conf ts c : Conf ts template c -> Confs template ts [conf_finalize c]
| confs_sep_conf ts cs ts' c : Confs template ts cs -> Conf ts' template c -> Confs template (ts ++ CONFSEP :: ts') (cs ++ [conf_finalize c])
| confs_sep ts cs : Confs template ts cs -> Confs template (ts ++ [CONFSEP]) cs
| confs_empty : Confs template [] [].

#[local] Hint Constructors Opt Conf Confs : core.

(** What can follow an option. *)
Definition follow (r : list token) : Prop := match r with [] | OPTSEP :: _ | CONFSEP :: _ | WORD _ :: _ | KEY _ :: _ => True | _ => False end.
(** What can follow a configuration. *)
Definition ends (r : list token) : Prop := match r with [] | CONFSEP :: _ => True | _ => False end.

Lemma ends_follow r : ends r -> follow r.
Proof. destruct r as [|[] r]; done. Qed.

Lemma Opt_starts ts c c' r : Opt ts c c' -> follow (ts ++ r) /\ exists t ts', ts = t :: ts' /\ t <> CONFSEP /\ t <> OPTSEP.
Proof. intros []; (split; [done|by do 2 eexists]). Qed.

Lemma parse_opt_complete ts c c' r : Opt ts c c' -> follow r -> parse_opt (ts ++ r) c = Some (c', r).
Proof.
  intros Ho Hr. destruct Ho as [w c|f w c c' E|f w1 w2 c|f n c c' E|f n c c' E|f d c c' E]; cbn [app parse_opt]; try done; try by rewrite E.
  destruct r as [|[] r]; cbn [parse_opt]; try done; by rewrite E.
Qed.

Lemma parse_opt_sound ts c c' r : parse_opt ts c = Some (c', r) -> exists ts0, ts = ts0 ++ r /\ Opt ts0 c c'.
Proof.
  unfold parse_opt. intros H.
  repeat case_match; simplify_eq; first [solve [eexists [_]; split; [reflexivity|eauto]] | solve [eexists [_; _; _]; split; [reflexivity|eauto]] | eexists [_; _; _; _; _]; split; [reflexivity|eauto]].
Qed.

(** *** Configurations, from left to right *)

(** The options behind the first one. *)
Inductive Tail : list token -> EventConf -> EventConf -> Prop :=
| tail_nil c : Tail [] c c
| tail_sep ts tl c c1 c2 : Opt ts c c1 -> Tail tl c1 c2 -> Tail (OPTSEP :: ts ++ tl) c c2
| tail_next ts tl c c1 c2 : Opt ts c c1 -> Tail tl c1 c2 -> Tail (ts ++ tl) c c2.

#[local] Hint Constructors Tail : core.

Lemma Tail_app a b c c1 c2 : Tail a c c1 -> Tail b c1 c2 -> Tail (a ++ b) c c2.
Proof. intros Ha Hb. induction Ha; [done| |]; cbn [app]; rewrite <- app_assoc; eauto. Qed.

Lemma Conf_split ts c c2 : Conf ts c c2 -> exists ts0 tl c1, ts = ts0 ++ tl /\ Opt ts0 c c1 /\ Tail tl c1 c2.
Proof.
  induction 1 as [ts c c' H|ts ts' c c1 c2 _ (t0 & tl & cm & -> & Ho & Ht) H|ts ts' c c1 c2 _ (t0 & tl & cm & -> & Ho & Ht) H].
  - exists ts, [], c'. rewrite app_nil_r. eauto.
  - exists t0, (tl ++ OPTSEP :: ts'), cm. rewrite app_assoc. split; [done|]. split; [done|]. eapply Tail_app; [done|]. rewrite <- (app_nil_r ts'). eauto.
  - exists t0, (tl ++ ts'), cm. rewrite app_assoc. split; [done|]. split; [done|]. eapply Tail_app; [done|]. rewrite <- (app_nil_r ts'). eauto.
Qed.

Lemma Tail_Conf tl c c1 c2 ts : Conf ts c c1 -> Tail tl c1 c2 -> Conf (ts ++ tl) c c2.
Proof.
  intros Hc Ht. revert ts Hc. induction Ht as [c1|t tl c1 cm c2 Ho _ IH|t tl c1 cm c2 Ho _ IH]; intros ts Hc; [by rewrite app_nil_r| |].
  - rewrite app_comm_cons, app_assoc. eauto.
  - rewrite app_assoc. eauto.
Qed.

Lemma Tail_follow tl c c' r : Tail tl c c' -> follow r -> follow (tl ++ r).
Proof. intros [] Hr; [done|done|]. rewrite <- app_assoc. by eapply Opt_starts. Qed.

Lemma parse_opts_step f ts c c1 r : Opt ts c c1 -> follow r -> parse_opts (S f) (ts ++ r) c = parse_opts f r c1.
Proof.
  intros Ho Hr. pose proof (parse_opt_complete _ _ _ _ Ho Hr) as E. destruct (Opt_starts _ _ _ r Ho) as (Hf & t & ts' & -> & H1 & H2).
  cbn [app] in *. destruct t; try done; cbn [parse_opts]; by rewrite E.
Qed.

Lemma parse_opts_complete tl c c' : Tail tl c c' -> forall f r, ends r -> (length tl < f)%nat -> parse_opts f (tl ++ r) c = Some (c', r).
Proof.
  induction 1 as [c|ts tl c c1 c2 Ho Ht IH|ts tl c c1 c2 Ho Ht IH]; intros f r Hr Hf; destruct f as [|f]; try (cbn in Hf; lia).
  - destruct r as [|[] r]; done.
  - cbn [app parse_opts]. rewrite <- app_assoc. rewrite (parse_opt_complete _ _ _ _ Ho) by (eapply Tail_follow; [done|by apply ends_follow]). apply IH; [done|]. cbn in Hf. rewrite length_app in Hf. lia.
  - rewrite <- app_assoc. rewrite (parse_opts_step _ _ _ _ _ Ho) by (eapply Tail_follow; [done|by apply ends_follow]). apply IH; [done|]. destruct (Opt_starts _ _ _ [] Ho) as (_ & t & ts' & -> & _). rewrite length_app in Hf. cbn in Hf. lia.
Qed.

Lemma parse_opts_sound f ts c c' r : parse_opts f ts c = Some (c', r) -> exists tl, ts = tl ++ r /\ Tail tl c c' /\ ends r.
Proof.
  revert ts c. induction f as [|f IH]; intros ts c E; [done|]. cbn [parse_opts] in E.
  assert (Hstep : forall t c0, (let? (c1, r1) := parse_opt t c0 in parse_opts f r1 c1) = Some (c', r) -> exists t0 tl c1, t = t0 ++ tl ++ r /\ Opt t0 c0 c1 /\ Tail tl c1 c' /\ ends r).
  { intros t c0 Et. destruct (parse_opt t c0) as [[c1 r1]|] eqn:Eo; [|done]. destruct (parse_opt_sound _ _ _ _ Eo) as (t0 & -> & Ho). destruct (IH _ _ Et) as (tl & -> & Ht & He). by exists t0, tl, c1. }
  destruct ts as [|t ts]; [injection E as <- <-; exists []; split; [done|]; split; [constructor|done]|].
  destruct t; try (injection E as <- <-; exists []; split; [done|]; split; [constructor|done]).
  all: first [apply (Hstep ts c) in E | match goal with |- context [?t :: ?l] => apply (Hstep (t :: l) c) in E end]; destruct E as (t0 & tl & c1 & Hts & Ho & Ht & He).
  2: { rewrite Hts. exists (OPTSEP :: t0 ++ tl). split; [cbn; by rewrite app_assoc|]. eauto. }
  all: rewrite Hts; exists (t0 ++ tl); split; [by rewrite app_assoc|eauto].
Qed.

(** *** The whole text *)

(** The configurations from left to right. *)
Inductive Rest (template : EventConf) : list token -> list EventConf -> Prop :=
| rest_nil : Rest template [] []
| rest_sep ts cs : Rest template ts cs -> Rest template (CONFSEP :: ts) cs
| rest_last ts c : Conf ts template c -> Rest template ts [conf_finalize c]
| rest_more ts c r cs : Conf ts template c -> Rest template r cs -> Rest template (ts ++ CONFSEP :: r) (conf_finalize c :: cs).

#[local] Hint Constructors Rest : core.

Lemma Rest_app template a b cs cs' : Rest template a cs -> Rest template b cs' -> Rest template (a ++ CONFSEP :: b) (cs ++ cs').
Proof. intros Ha Hb. induction Ha; cbn [app]; eauto. rewrite <- app_assoc. cbn [app]. eauto. Qed.

Lemma Confs_app template b cs' : Rest template b cs' -> forall a cs, Confs template a cs -> Confs template (a ++ CONFSEP :: b) (cs ++ cs').
Proof.
  induction 1 as [|ts cs' _ IH|ts c Hc|ts c r cs' Hc _ IH]; intros a cs Ha.
  - rewrite app_nil_r. eauto.
  - replace (a ++ CONFSEP :: CONFSEP :: ts) with ((a ++ [CONFSEP]) ++ CONFSEP :: ts) by (by rewrite <- app_assoc). eauto.
  - eauto.
  - replace (a ++ CONFSEP :: ts ++ CONFSEP :: r) with ((a ++ CONFSEP :: ts) ++ CONFSEP :: r) by (by rewrite <- app_assoc).
    replace (cs ++ conf_finalize c :: cs') with ((cs ++ [conf_finalize c]) ++ cs') by (by rewrite <- app_assoc). eauto.
Qed.

Lemma Confs_Rest template ts cs : Confs template ts cs <-> Rest template ts cs.
Proof.
  split.
  - induction 1 as [ts c Hc|ts cs ts' c _ IH Hc|ts cs _ IH|]; [eauto| | |eauto].
    + eapply Rest_app; eauto.
    + rewrite <- (app_nil_r cs). eapply Rest_app; eauto.
  - destruct 1 as [|ts cs H|ts c Hc|ts c r cs Hc H]; [eauto| |eauto|].
    + apply (Confs_app template ts cs H [] []). eauto.
    + apply (Confs_app template r cs H ts [conf_finalize c]). eauto.
Qed.

Lemma parse_confs_conf f template ts0 tl c1 c r : Opt ts0 template c1 -> Tail tl c1 c -> ends r -> (length (ts0 ++ tl) <= f)%nat ->
  parse_confs (S f) template (ts0 ++ tl ++ r) = let? cs := (match r with CONFSEP :: r' => parse_confs f template r' | _ => Some [] end) in Some (conf_finalize c :: cs).
Proof.
  intros Ho Ht Hr Hf. assert (Hfo : follow (tl ++ r)) by (eapply Tail_follow; [done|by apply ends_follow]).
  pose proof (parse_opt_complete _ _ _ _ Ho Hfo) as E. destruct (Opt_starts _ _ _ (tl ++ r) Ho) as (_ & t & ts' & -> & H1 & H2).
  cbn [app] in *. assert (Ep : parse_opts f (tl ++ r) c1 = Some (c, r)) by (eapply parse_opts_complete; [done|done|]; cbn in Hf; rewrite length_app in Hf; lia).
  destruct t; try done; cbn [parse_confs]; rewrite E, Ep; done.
Qed.

Lemma parse_confs_complete template ts cs : Rest template ts cs -> forall f, (length ts < f)%nat -> parse_confs f template ts = Some cs.
Proof.
  induction 1 as [|ts cs _ IH|ts c Hc|ts c r cs Hc _ IH]; intros f Hf; (destruct f as [|f]; [cbn in Hf; lia|]).
  - done.
  - cbn [parse_confs]. apply IH. cbn in Hf. lia.
  - destruct (Conf_split _ _ _ Hc) as (ts0 & tl & c1 & -> & Ho & Ht). pose proof (parse_confs_conf f template ts0 tl c1 c [] Ho Ht) as E. rewrite !app_nil_r in E. rewrite E; [done|done|lia].
  - destruct (Conf_split _ _ _ Hc) as (ts0 & tl & c1 & -> & Ho & Ht). rewrite <- app_assoc. rewrite (parse_confs_conf f template ts0 tl c1 c (CONFSEP :: r) Ho Ht); [|done|rewrite length_app in Hf; lia].
    rewrite IH; [done|]. rewrite length_app in Hf. cbn in Hf. lia.
Qed.

Lemma parse_confs_sound f template ts cs : parse_confs f template ts = Some cs -> Rest template ts cs.
Proof.
  revert ts cs. induction f as [|f IH]; intros ts cs E; [done|]. cbn [parse_confs] in E.
  assert (Hc : (let? (c, r) := parse_opt ts template in let? (c, r) := parse_opts f r c in
    let? cs := (match r with CONFSEP :: r => parse_confs f template r | _ => Some [] end) in Some (conf_finalize c :: cs)) = Some cs -> Rest template ts cs).
  { clear E. intros E. destruct (parse_opt ts template) as [[c1 r1]|] eqn:Eo; [|done]. destruct (parse_opt_sound _ _ _ _ Eo) as (t0 & -> & Ho).
    destruct (parse_opts f r1 c1) as [[c2 r2]|] eqn:Ep; [|done]. destruct (parse_opts_sound _ _ _ _ _ Ep) as (tl & -> & Ht & He).
    assert (HC : Conf (t0 ++ tl) template c2) by (eapply Tail_Conf; eauto). rewrite app_assoc.
    destruct r2 as [|[] r2]; try done; [injection E as <-; rewrite app_nil_r; eauto|].
    destruct (parse_confs f template r2) as [cs'|] eqn:Er; [|done]. injection E as <-. eauto. }
  destruct ts as [|t ts]; [injection E as <-; eauto|]. destruct t; try (by apply Hc). eauto.
Qed.

(** C15: The parser of the event configurations accepts exactly the language of the grammar and computes
    the values of its actions: a text has configurations if and only if its tokens derive from the
    start symbol, and they are those of the derivation, so that no two derivations differ. *)
Theorem event_parser_is_grammar msg template cs : EventConf_parse msg template = Some cs <-> Confs template (tokens_of msg) cs.
Proof.
  rewrite Confs_Rest. unfold EventConf_parse. cbv zeta. split; [apply parse_confs_sound|]. intros H. eapply parse_confs_complete; [done|lia].
Qed.

(** ** Configurations that are written out *)

Ltac char_lia :=
  unfold is_digit_or_dot, is_word, is_start, is_alpha, is_digit, is_sign, is_blank, is_suffix, between in *;
  rewrite ?orb_true_iff, ?orb_false_iff, ?andb_true_iff, ?andb_false_iff, ?Z.leb_le, ?Z.leb_gt, ?Z.eqb_eq, ?Z.eqb_neq in *; lia.

(** *** Scanning *)

Lemma span_length p l : (length (fst (span p l)) + length (snd (span p l)) = length l)%nat.
Proof. induction l as [|c l IH]; [done|]. cbn [span]. destruct (p c); [|done]. destruct (span p l). cbn in *. lia. Qed.

(** [r] does not go on with characters of [p]. *)
Definition stops (p : Ascii.ascii -> bool) (r : chars) : Prop := match r with c :: _ => p c = false | [] => True end.

Lemma span_app p a r : forallb p a = true -> stops p r -> span p (a ++ r) = (a, r).
Proof.
  intros Ha Hr. induction a as [|c a IH]; cbn [app].
  - destruct r as [|c r]; [done|]. cbn [span]. by rewrite Hr.
  - cbn [forallb] in Ha. apply andb_true_iff in Ha as [Hc Ha]. cbn [span]. by rewrite Hc, (IH Ha).
Qed.

Lemma lex_number_length l t r : lex_number l = Some (t, r) -> (length r < length l)%nat.
Proof.
  unfold lex_number. assert (Hs : (length (snd (split_sign l)) <= length l)%nat) by (destruct l as [|c l]; [done|]; cbn; destruct (is_sign c); cbn; lia).
  destruct (split_sign l) as [neg l']. cbn in Hs. pose proof (span_length is_digit l') as H1. pose proof (span_length is_digit_or_dot l') as H2.
  destruct (span is_digit l') as [ds r1]. destruct (span is_digit_or_dot l') as [dt r2]. cbn in H1, H2.
  assert (H3 : forall z x l2, l' = z :: x :: l2 -> (length (snd (span is_digit l2)) < length l')%nat) by (intros z x l2 ->; pose proof (span_length is_digit l2); cbn; lia).
  assert (H4 : forall n m, (n <? m)%nat = true -> (n < m)%nat) by (intros n m; apply Nat.ltb_lt).
  intros E. repeat case_match; simplify_eq; repeat match goal with H : (_ <? _)%nat = true |- _ => apply H4 in H end; cbn in *; try lia.
  all: match goal with H : span is_digit ?l = _ |- _ => specialize (H3 _ _ _ eq_refl); rewrite H in H3; cbn in H3; lia end.
Qed.

(** More fuel than characters makes no difference. *)
Lemma lex_fuel f1 f2 b l : (length l <= f1)%nat -> (length l <= f2)%nat -> lex f1 b l = lex f2 b l.
Proof.
  revert f2 b l. induction f1 as [|f1 IH]; intros f2 b l H1 H2.
  { destruct l; [|cbn in H1; lia]. by destruct f2. }
  destruct l as [|c l]; [by destruct f2|]. destruct f2 as [|f2]; [cbn in H2; lia|]. cbn [length] in H1, H2. cbn [lex].
  pose proof (span_length is_word (c :: l)) as Hw. pose proof (span_length is_blank (c :: l)) as Hb. pose proof (lex_number_length (c :: l)) as Hn.
  destruct (is_start c) eqn:Es.
  { cbn [span] in *. assert (Hc : is_word c = true) by char_lia. rewrite Hc in *. destruct (span is_word l) as [w r]. cbn [fst snd length] in Hw. rewrite (IH f2) by lia. done. }
  destruct (code c =? 10); [apply IH; lia|]. destruct b.
  { destruct (lex_number (c :: l)) as [[t r]|]; [specialize (Hn _ _ eq_refl); cbn in Hn; rewrite (IH f2) by lia; done|]. destruct (lex_char c); [|done]. rewrite (IH f2) by lia. done. }
  destruct (code c =? 61); [rewrite (IH f2) by lia; done|]. destruct (is_blank c) eqn:Eb.
  { apply IH; cbn [span] in *; rewrite Eb in *; destruct (span is_blank l); cbn in *; lia. }
  destruct (code c =? 44); [rewrite (IH f2) by lia; done|]. destruct (code c =? 59); [rewrite (IH f2) by lia; done|].
  destruct (lex_char c); [|done]. rewrite (IH f2) by lia. done.
Qed.

Definition scan (in_value : bool) (l : chars) : list token := lex (length l) in_value l.

(** One token of a word, of a mark, of a blank. *)
Definition word_token (in_value : bool) (w : chars) : token :=
  let w := String.string_of_list_ascii w in if in_value then WORD w else match keyword w with Some k => KEY k | None => WORD w end.

Definition is_identifier (w : chars) : bool := match w with c :: w' => is_start c && forallb is_word w' | [] => false end.

Lemma scan_word b w r : is_identifier w = true -> stops is_word r -> scan b (w ++ r) = word_token b w :: scan false r.
Proof.
  intros Hw Hr. destruct w as [|c w]; [done|]. cbn [is_identifier] in Hw. apply andb_true_iff in Hw as [Hc Hw]. unfold scan. cbn [app length lex]. rewrite Hc.
  rewrite app_comm_cons, span_app; [|cbn [forallb]; rewrite Hw, andb_true_r; char_lia|done]. unfold word_token. f_equal. apply lex_fuel; [rewrite length_app; lia|lia].
Qed.

Lemma scan_eq r : scan false ("="%char :: r) = EQ :: scan true r.
Proof. reflexivity. Qed.
Lemma scan_comma r : scan false (","%char :: r) = OPTSEP :: scan false r.
Proof. reflexivity. Qed.
Lemma scan_semicolon r : scan false (";"%char :: r) = CONFSEP :: scan false r.
Proof. reflexivity. Qed.
Lemma scan_colon r : scan false (":"%char :: r) = CHAR 58 :: scan false r.
Proof. reflexivity. Qed.
Lemma scan_blank r : stops is_blank r -> scan false (" "%char :: r) = scan false r.
Proof. intros Hr. unfold scan. cbn [length lex]. change (lex (length r) false (snd (span is_blank ([" "%char] ++ r))) = lex (length r) false r). by rewrite span_app. Qed.

(** *** Numbers *)

(** The end of the text, or a separator. *)
Definition closed (r : chars) : Prop := match r with c :: _ => code c = 44 \/ code c = 59 \/ code c = 32 | [] => True end.

Lemma closed_stops p r : closed r -> (forall c, code c = 44 \/ code c = 59 \/ code c = 32 -> p c = false) -> stops p r.
Proof. destruct r as [|c r]; [done|]. intros Hc Hp. by apply Hp. Qed.

Ltac stops_closed := apply closed_stops; [done|]; intros; char_lia.

Definition sign_text (negative : bool) : chars := if negative then ["-"%char] else [].

Lemma split_sign_text (negative : bool) c l : is_digit_or_dot c = true -> split_sign (sign_text negative ++ c :: l) = (negative, c :: l).
Proof. intros Hc. destruct negative; [done|]. cbn. assert (Hs : is_sign c = false) by char_lia. by rewrite Hs. Qed.

Lemma lex_number_digits (negative : bool) ds r : ds <> [] -> forallb is_digit ds = true -> closed r ->
  lex_number (sign_text negative ++ ds ++ r) = Some (NUMBER (strtol 10 negative ds), r).
Proof.
  intros Hne Hds Hr. destruct ds as [|c ds]; [done|]. assert (Hc : is_digit c = true /\ forallb is_digit ds = true) by (by apply andb_true_iff). destruct Hc as [Hc Hds'].
  unfold lex_number. cbn [app]. rewrite split_sign_text by char_lia. rewrite !app_comm_cons, !span_app; [|..|stops_closed|done|stops_closed].
  2: { apply forallb_forall. intros x Hx. rewrite forallb_forall in Hds. specialize (Hds x Hx). char_lia. }
  assert (Hx : match ds ++ r with x :: _ => code x =? 120 = false | [] => True end).
  { destruct ds as [|x ds]; cbn [app]; [destruct r as [|x r]; [done|]; cbn in Hr; lia|]. cbn [forallb] in Hds'. apply andb_true_iff in Hds' as [Hx _]. char_lia. }
  cbn [app]. destruct (ds ++ r) as [|x l] eqn:El; [|rewrite Hx, andb_false_r].
  all: assert (Hsuf : match r with x :: _ => is_suffix x = false | [] => True end) by (destruct r; [done|]; cbn in Hr; char_lia).
  all: destruct r as [|y r]; [|rewrite ?Hsuf]; rewrite Nat.ltb_irrefl; done.
Qed.

Lemma lex_number_hex (negative : bool) ds r : ds <> [] -> forallb is_digit ds = true -> closed r ->
  lex_number (sign_text negative ++ "0"%char :: "x"%char :: ds ++ r) = Some (HEXNUMBER (strtol 16 negative ds), r).
Proof.
  intros Hne Hds Hr. unfold lex_number. rewrite split_sign_text by done. destruct (span is_digit _) as [d1 r1]. destruct (span is_digit_or_dot _) as [d2 r2]. cbn [code]. rewrite span_app; [|done|stops_closed].
  destruct ds; [done|]. reflexivity.
Qed.

Lemma lex_number_decimal (negative : bool) whole frac r : whole <> [] -> forallb is_digit whole = true -> forallb is_digit frac = true -> closed r ->
  lex_number (sign_text negative ++ whole ++ "."%char :: frac ++ r) =
  Some (FLOAT (mkDec (let m := digits_value 10 (whole ++ frac) in if negative then - m else m) (length frac)), r).
Proof.
  intros Hne Hw Hf Hr. destruct whole as [|c whole]; [done|]. assert (Hc : is_digit c = true /\ forallb is_digit whole = true) by (by apply andb_true_iff). destruct Hc as [Hc Hw'].
  unfold lex_number. cbn [app]. rewrite split_sign_text by char_lia.
  assert (Hx : match whole ++ "."%char :: frac ++ r with x :: _ => code x =? 120 = false | [] => True end).
  { destruct whole as [|x whole]; [done|]. cbn [app forallb] in *. apply andb_true_iff in Hw' as [Hx _]. char_lia. }
  assert (Hd : span is_digit_or_dot (c :: whole ++ "."%char :: frac ++ r) = (c :: whole ++ "."%char :: frac, r)).
  { replace (c :: whole ++ "."%char :: frac ++ r) with ((c :: whole ++ "."%char :: frac) ++ r) by (cbn; by rewrite <- app_assoc). apply span_app; [|stops_closed].
    cbn [forallb]. rewrite forallb_app. cbn [forallb]. rewrite !andb_true_iff. split; [char_lia|]. split; [|split; [done|]]; apply forallb_forall; intros x Hin; [rewrite forallb_forall in Hw'; specialize (Hw' x Hin)|rewrite forallb_forall in Hf; specialize (Hf x Hin)]; char_lia. }
  rewrite Hd. rewrite app_comm_cons, (span_app is_digit (c :: whole)) by done. cbn [app]. destruct (whole ++ "."%char :: frac ++ r) as [|x l] eqn:El; [by destruct whole|]. rewrite Hx, andb_false_r.
  assert (Hsuf : match r with y :: _ => is_suffix y = false | [] => True end) by (destruct r; [done|]; cbn in Hr; char_lia).
  assert (Hlt : (length (c :: whole) <? length (c :: whole ++ "."%char :: frac))%nat = true) by (apply Nat.ltb_lt; cbn; rewrite length_app; cbn; lia).
  assert (Hv : strtod negative (c :: whole ++ "."%char :: frac) = mkDec (let m := digits_value 10 ((c :: whole) ++ frac) in if negative then - m else m) (length frac)).
  { unfold strtod. rewrite app_comm_cons, span_app by done. pose proof (span_app is_digit frac [] Hf I) as Hsp. rewrite app_nil_r in Hsp. rewrite Hsp. reflexivity. }
  rewrite Hv. destruct r as [|y r]; [|rewrite Hsuf]; by rewrite Hlt.
Qed.

(** *** Settings *)

Inductive value := VWord (w : chars) | VPair (w1 w2 : chars) | VNumber (negative : bool) (ds : chars) | VHex (negative : bool) (ds : chars) | VDecimal (negative : bool) (whole frac : chars).
Inductive setting := SWord (w : chars) | SKey (key : chars) (f : EventConfField) (v : value).

Definition print_value (v : value) : chars :=
  match v with
  | VWord w => w
  | VPair w1 w2 => w1 ++ ":"%char :: w2
  | VNumber n ds => sign_text n ++ ds
  | VHex n ds => sign_text n ++ "0"%char :: "x"%char :: ds
  | VDecimal n whole frac => sign_text n ++ whole ++ "."%char :: frac
  end.
Definition print_setting (s : setting) : chars := match s with SWord w => w | SKey key _ v => key ++ "="%char :: print_value v end.

(** A word that is not a keyword. *)
Definition plain (w : chars) : Prop := is_identifier w = true /\ keyword (String.string_of_list_ascii w) = None.
Definition digits (ds : chars) : Prop := ds <> [] /\ forallb is_digit ds = true.

Definition value_ok (v : value) : Prop :=
  match v with
  | VWord w => is_identifier w = true
  | VPair w1 w2 => is_identifier w1 = true /\ plain w2
  | VNumber _ ds | VHex _ ds => digits ds
  | VDecimal _ whole frac => digits whole /\ forallb is_digit frac = true
  end.
Definition setting_ok (s : setting) : Prop :=
  match s with
  | SWord w => plain w
  | SKey key f v => is_identifier key = true /\ keyword (String.string_of_list_ascii key) = Some f /\ value_ok v
  end.

(** What a setting does to the configuration. *)
Definition apply_setting (s : setting) (c : EventConf) : option EventConf :=
  match s with
  | SWord w => Some (set_names c (String.string_of_list_ascii w) (c_groupname c))
  | SKey _ f (VWord w) => key_word f (String.string_of_list_ascii w) c
  | SKey _ f (VPair w1 w2) => Some (key_pair f (String.string_of_list_ascii w1) (String.string_of_list_ascii w2) c)
  | SKey _ f (VNumber n ds) => key_integer f (strtol 10 n ds) c
  | SKey _ f (VHex n ds) => key_integer f (strtol 16 n ds) c
  | SKey _ f (VDecimal n whole frac) => key_float f (mkDec (let m := digits_value 10 (whole ++ frac) in if n then - m else m) (length frac)) c
  end.

Definition value_tokens (v : value) : list token :=
  match v with
  | VWord w => [WORD (String.string_of_list_ascii w)]
  | VPair w1 w2 => [WORD (String.string_of_list_ascii w1); CHAR 58; WORD (String.string_of_list_ascii w2)]
  | VNumber n ds => [NUMBER (strtol 10 n ds)]
  | VHex n ds => [HEXNUMBER (strtol 16 n ds)]
  | VDecimal n whole frac => [FLOAT (mkDec (let m := digits_value 10 (whole ++ frac) in if n then - m else m) (length frac))]
  end.
Definition setting_tokens (s : setting) : list token :=
  match s with SWord w => [WORD (String.string_of_list_ascii w)] | SKey _ f v => KEY f :: EQ :: value_tokens v end.

Lemma scan_number l t r : match l with c :: _ => is_start c = false /\ code c <> 10 | [] => True end -> lex_number l = Some (t, r) -> scan true l = t :: scan false r.
Proof.
  intros Hc E. pose proof (lex_number_length _ _ _ E) as Hl. destruct l as [|c l]; [cbn in Hl; lia|]. unfold scan. cbn [length lex]. destruct Hc as [-> Hc]. apply Z.eqb_neq in Hc. rewrite Hc, E.
  f_equal. apply lex_fuel; cbn in Hl; lia.
Qed.

Lemma sign_text_starts (n : bool) ds r : digits ds -> match sign_text n ++ ds ++ r with c :: _ => is_start c = false /\ code c <> 10 | [] => True end.
Proof.
  intros [Hne Hds]. destruct n; [done|]. destruct ds as [|c ds]; [done|]. cbn [sign_text app]. cbn [forallb] in Hds. apply andb_true_iff in Hds as [Hc _]. split; [char_lia|]. char_lia.
Qed.

Lemma scan_value v r : value_ok v -> closed r -> scan true (print_value v ++ r) = value_tokens v ++ scan false r.
Proof.
  intros Hv Hr. destruct v as [w|w1 w2|n ds|n ds|n whole frac]; cbn [print_value value_tokens value_ok app] in *.
  - rewrite scan_word; [done|done|stops_closed].
  - destruct Hv as [H1 [H2 Hk]]. rewrite <- app_assoc. cbn [app]. rewrite scan_word by done. rewrite scan_colon, scan_word by (done || stops_closed). unfold word_token. by rewrite Hk.
  - rewrite <- app_assoc. apply scan_number; [by apply sign_text_starts|]. destruct Hv. by apply lex_number_digits.
  - rewrite <- app_assoc. cbn [app]. apply scan_number; [apply (sign_text_starts n ["0"%char]); done|]. destruct Hv. by apply lex_number_hex.
  - destruct Hv as [[Hne Hw] Hf]. rewrite <- !app_assoc. cbn [app]. apply scan_number; [by apply sign_text_starts|]. by apply lex_number_decimal.
Qed.

Lemma scan_setting s r : setting_ok s -> closed r -> scan false (print_setting s ++ r) = setting_tokens s ++ scan false r.
Proof.
  intros Hs Hr. destruct s as [w|key f v]; cbn [print_setting setting_tokens setting_ok app] in *.
  - destruct Hs as [H1 Hk]. rewrite scan_word; [|done|stops_closed]. unfold word_token. by rewrite Hk.
  - destruct Hs as (H1 & Hk & Hv). rewrite <- app_assoc. cbn [app]. rewrite scan_word by done. unfold word_token. rewrite Hk, scan_eq, scan_value by done. done.
Qed.

Lemma parse_setting s r c : follow r -> parse_opt (setting_tokens s ++ r) c = let? c' := apply_setting s c in Some (c', r).
Proof.
  intros Hr. destruct s as [w|key f [w|w1 w2|n ds|n ds|n whole frac]]; cbn [setting_tokens value_tokens apply_setting app parse_opt]; try done.
  destruct r as [|[] r]; try done.
Qed.

(** *** Whole texts *)

(** The first setting and the others, each behind a comma or a blank. *)
Definition configuration : Type := setting * list (bool * setting).

Fixpoint print_tail (l : list (bool * setting)) : chars :=
  match l with [] => [] | (comma, s) :: l' => (if comma : bool then ","%char else " "%char) :: print_setting s ++ print_tail l' end.
Definition print_configuration (c : configuration) : chars := print_setting (fst c) ++ print_tail (snd c).
Fixpoint print_configurations (cs : list configuration) : chars :=
  match cs with [] => [] | c :: cs' => print_configuration c ++ match cs' with [] => [] | _ => ";"%char :: print_configurations cs' end end.

Definition configuration_ok (c : configuration) : Prop := setting_ok (fst c) /\ Forall (fun p => setting_ok (snd p)) (snd c).

Fixpoint apply_tail (l : list (bool * setting)) (c : EventConf) : option EventConf := match l with [] => Some c | (_, s) :: l' => let? c := apply_setting s c in apply_tail l' c end.
Definition configuration_value (template : EventConf) (c : configuration) : option EventConf :=
  let? c1 := apply_setting (fst c) template in let? c2 := apply_tail (snd c) c1 in Some (conf_finalize c2).
Fixpoint configurations_value (template : EventConf) (cs : list configuration) : option (list EventConf) :=
  match cs with [] => Some [] | c :: cs' => let? v := configuration_value template c in let? vs := configurations_value template cs' in Some (v :: vs) end.

Fixpoint tail_tokens (l : list (bool * setting)) : list token := match l with [] => [] | (comma, s) :: l' => (if comma : bool then [OPTSEP] else []) ++ setting_tokens s ++ tail_tokens l' end.
Fixpoint configurations_tokens (cs : list configuration) : list token :=
  match cs with [] => [] | (s, l) :: cs' => setting_tokens s ++ tail_tokens l ++ match cs' with [] => [] | _ => CONFSEP :: configurations_tokens cs' end end.

Lemma closed_tail l r : closed r -> closed (print_tail l ++ r).
Proof. intros Hr. destruct l as [|[[|] s] l]; cbn; [done|by left|by right; right]. Qed.

Lemma setting_not_blank s r : setting_ok s -> stops is_blank (print_setting s ++ r).
Proof.
  assert (Hi : forall w l, is_identifier w = true -> stops is_blank (w ++ l)) by (intros [|c w] l Hw; [done|]; cbn [is_identifier] in Hw; apply andb_true_iff in Hw as [Hc _]; cbn; char_lia).
  destruct s as [w|key f v]; cbn [print_setting setting_ok]; [intros [H _]; by apply Hi|]. intros (H & _). rewrite <- app_assoc. by apply Hi.
Qed.

Lemma scan_tail l r : Forall (fun p => setting_ok (snd p)) l -> closed r -> scan false (print_tail l ++ r) = tail_tokens l ++ scan false r.
Proof.
  intros Hl Hr. induction Hl as [|[comma s] l Hs _ IH]; [done|]. cbn [print_tail tail_tokens snd] in *. cbn [app]. rewrite <- !app_assoc.
  destruct comma; [rewrite scan_comma|rewrite scan_blank by (by apply setting_not_blank)]; rewrite scan_setting by (done || by apply closed_tail); rewrite IH; done.
Qed.

Lemma scan_configurations cs : Forall configuration_ok cs -> scan false (print_configurations cs) = configurations_tokens cs.
Proof.
  induction 1 as [|[s l] cs [Hs Hl] _ IH]; [done|]. cbn [print_configurations configurations_tokens print_configuration fst snd] in *. unfold print_configuration. cbn [fst snd]. rewrite <- app_assoc.
  set (r := match cs with [] => [] | _ => _ end). assert (Hr : closed r) by (subst r; destruct cs; [done|]; cbn; by right; left).
  rewrite scan_setting by (done || by apply closed_tail). rewrite scan_tail by done. f_equal. f_equal. subst r. destruct cs; [done|]. rewrite scan_semicolon. by rewrite IH.
Qed.

Lemma setting_tokens_starts s r : follow (setting_tokens s ++ r) /\ exists t ts, setting_tokens s = t :: ts /\ t <> CONFSEP /\ t <> OPTSEP.
Proof. destruct s as [w|key f v]; (split; [done|by do 2 eexists]). Qed.

Lemma tail_follow l r : ends r -> follow (tail_tokens l ++ r).
Proof. intros Hr. destruct l as [|[[|] s] l]; [by apply ends_follow|done|]. cbn [tail_tokens app]. rewrite <- app_assoc. apply setting_tokens_starts. Qed.

Lemma parse_tail l : forall f r c, ends r -> (length (tail_tokens l) < f)%nat -> parse_opts f (tail_tokens l ++ r) c = let? c' := apply_tail l c in Some (c', r).
Proof.
  induction l as [|[comma s] l IH]; intros f r c Hr Hf; (destruct f as [|f]; [lia|]); [destruct r as [|[] r]; done|]. cbn [tail_tokens apply_tail] in *.
  pose proof (parse_setting s (tail_tokens l ++ r) c (tail_follow l r Hr)) as E. destruct (setting_tokens_starts s []) as (_ & t & ts & Et & H1 & H2). rewrite Et in *. rewrite !length_app in Hf. cbn [app length] in *.
  assert (Estep : forall o : option EventConf, (let? (c0, r0) := (let? c' := o in Some (c', tail_tokens l ++ r)) in parse_opts f r0 c0) = let? c' := (let? c0 := o in apply_tail l c0) in Some (c', r)).
  { intros [c0|]; [|done]. apply IH; [done|]. lia. }
  destruct comma; cbn [app]; rewrite <- app_assoc; cbn [parse_opts].
  - rewrite E. apply Estep.
  - destruct t; try done; rewrite E; apply Estep.
Qed.

Lemma parse_configurations template cs : forall f, (length (configurations_tokens cs) < f)%nat -> parse_confs f template (configurations_tokens cs) = configurations_value template cs.
Proof.
  induction cs as [|[s l] cs IH]; intros f Hf; (destruct f as [|f]; [lia|]); [done|]. cbn [configurations_tokens configurations_value] in *. unfold configuration_value. cbn [fst snd].
  set (r := match cs with [] => [] | _ => _ end) in *. assert (Hr : ends r) by (subst r; destruct cs; done).
  pose proof (parse_setting s (tail_tokens l ++ r) template (tail_follow l r Hr)) as E. rewrite !length_app in Hf.
  destruct (setting_tokens_starts s []) as (_ & t & ts & Et & H1 & H2). rewrite Et in *. cbn [app length] in *.
  assert (Erest : match r with CONFSEP :: r' => parse_confs f template r' | _ => Some [] end = configurations_value template cs).
  { subst r. destruct cs as [|c cs]; [done|]. apply IH. cbn [length] in Hf. lia. }
  assert (Estep : (let? (c0, r0) := (let? c' := apply_setting s template in Some (c', tail_tokens l ++ r)) in let? (c1, r1) := parse_opts f r0 c0 in
      let? vs := (match r1 with CONFSEP :: r' => parse_confs f template r' | _ => Some [] end) in Some (conf_finalize c1 :: vs)) =
    let? v := (let? c1 := apply_setting s template in let? c2 := apply_tail l c1 in Some (conf_finalize c2)) in let? vs := configurations_value template cs in Some (v :: vs)).
  { destruct (apply_setting s template) as [c1|]; [|done]. rewrite parse_tail by (done || lia). destruct (apply_tail l c1) as [c2|]; [|done]. by rewrite Erest. }
  destruct t; try done; cbn [parse_confs]; rewrite E; apply Estep.
Qed.

(** C16: A configuration that is written out is read back: for any configurations made of words and of keys, under
    any of their names, with words, pairs of words, decimal and hexadecimal numbers or decimals, separated by commas,
    blanks and semicolons, the parser gives the configurations that the settings make one after the other,
    or refuses the text if and only if one of them is invalid. *)
Theorem event_text_roundtrip template cs : Forall configuration_ok cs ->
  EventConf_parse (String.string_of_list_ascii (print_configurations cs)) template = configurations_value template cs.
Proof.
  intros Hcs. unfold EventConf_parse, tokens_of. cbv zeta. rewrite String.list_ascii_of_string_of_list_ascii.
  change (lex _ false (print_configurations cs)) with (scan false (print_configurations cs)). rewrite scan_configurations by done. apply parse_configurations. lia.
Qed.

Definition demo_chars (s : string) : chars := String.list_ascii_of_string s.
Definition demo_configurations : list configuration :=
  [(SWord (demo_chars "sCPU"), [(false, SKey (demo_chars "p") kPeriod (VNumber true (demo_chars "50"))); (true, SKey (demo_chars "scale") kValueScale (VDecimal false (demo_chars "1") (demo_chars "25")))]);
   (SKey (demo_chars "event") kEvent (VPair (demo_chars "sched") (demo_chars "switch")), [(true, SKey (demo_chars "id") kId (VHex false (demo_chars "12")))])].

Lemma event_text_roundtrip_witness :
  String.string_of_list_ascii (print_configurations demo_configurations) = "sCPU p=-50,scale=1.25;event=sched:switch,id=0x12"%string /\
  exists c1 c2, EventConf_parse "sCPU p=-50,scale=1.25;event=sched:switch,id=0x12" (template_conf 32000) = Some [c1; c2] /\
    c_cadence c1 = -50 /\ c_value_scale c1 = mkDec 125 2 /\ c_id c2 = 18 /\ c_label c2 = "switch:sched"%string.
Proof.
  split; [reflexivity|]. pose proof (event_text_roundtrip (template_conf 32000) demo_configurations) as H.
  change (String.string_of_list_ascii (print_configurations demo_configurations)) with "sCPU p=-50,scale=1.25;event=sched:switch,id=0x12"%string in H.
  rewrite H by (repeat constructor; done). do 2 eexists. split; [reflexivity|]. repeat split; reflexivity.
Defined.

(** ** The watchers of an accepted text *)

Definition is_i64 (n : Z) : Prop := - 2 ^ 63 <= n < 2 ^ 63.

Record conf_ok (c : EventConf) : Prop := {
  co_mode : 0 <= c_mode c <= kAll;
  co_register : c_value_source c = kRegister -> 0 <= c_register_num c < k_perf_register_count;
  co_raw_size : c_raw_size c ∈ [0; 1; 2; 4; 8];
  co_stack : 0 <= c_stack_sample_size c < 2 ^ 32;
  co_cadence : is_i64 (c_cadence c);
  co_id : 0 <= c_id c < 2 ^ 63
}.

Definition token_ok (t : token) : Prop := match t with NUMBER n | HEXNUMBER n => is_i64 n | _ => True end.

Lemma strtol_range base negative ds : is_i64 (strtol base negative ds).
Proof. unfold is_i64, strtol. cbv zeta. lia. Qed.

Lemma lex_number_ok l t r : lex_number l = Some (t, r) -> token_ok t.
Proof. unfold lex_number. intros E. repeat case_match; simplify_eq; cbn; try done; apply strtol_range. Qed.

Lemma lex_ok f b l : Forall token_ok (lex f b l).
Proof.
  revert b l. induction f as [|f IH]; intros b l; [constructor|]. destruct l as [|c l]; [constructor|]. cbn [lex].
  repeat case_match; repeat (constructor; try done); try apply IH.
  - match goal with H : lex_number _ = _ |- _ => by apply lex_number_ok in H end.
  - match goal with H : lex_char _ = _ |- _ => unfold lex_char in H; case_match; by simplify_eq end.
  - match goal with H : lex_char _ = _ |- _ => unfold lex_char in H; case_match; by simplify_eq end.
Qed.

Lemma mode_of_chars_range l mode m : 0 <= mode <= kAll -> mode_of_chars l mode = Some m -> 0 <= m <= kAll.
Proof.
  assert (Hor : forall a b, 0 <= a <= kAll -> 0 <= b <= kAll -> 0 <= Z.lor a b <= kAll).
  { intros a b Ha Hb. assert (Hk : kAll = 3) by reflexivity. rewrite Hk in *. assert (a = 0 \/ a = 1 \/ a = 2 \/ a = 3) as [-> |[-> |[-> | ->]]] by lia; assert (b = 0 \/ b = 1 \/ b = 2 \/ b = 3) as [-> |[-> |[-> | ->]]] by lia; vm_compute; intuition discriminate. }
  revert mode. induction l as [|c l IH]; intros mode Hm E; cbn in E; [by simplify_eq|]. repeat case_match; try done; (eapply IH; [|exact E]); apply Hor; try done; by vm_compute.
Qed.

Lemma key_word_ok f w c c' : conf_ok c -> key_word f w c = Some c' -> conf_ok c'.
Proof.
  intros [] E. destruct f; cbn in E; simplify_eq; try (by constructor). unfold mode_from_str in E. destruct (mode_of_chars _ _) as [m|] eqn:Em; [|done]. cbn in E. simplify_eq.
  constructor; cbn; try done. eapply mode_of_chars_range; [|exact Em]. by vm_compute.
Qed.

Lemma param_range n r : param_to_perf_regno n = Some r -> 0 <= Z.of_nat r < k_perf_register_count.
Proof. unfold param_to_perf_regno. destruct n as [|n]; [done|]. do 6 (destruct n as [|n]; [intros E; vm_compute in E; simplify_eq; by vm_compute|]). done. Qed.

Lemma key_integer_ok f n c c' : is_i64 n -> conf_ok c -> key_integer f n c = Some c' -> conf_ok c'.
Proof.
  intros Hn Hc E. unfold key_integer in E. destruct ((n <? 0) && _ && _) eqn:Eneg; [done|].
  assert (Hpos : f <> kPeriod -> f <> kValueScale -> 0 <= n).
  { intros H1 H2. rewrite (bool_decide_false (f = kPeriod)), (bool_decide_false (f = kValueScale)) in Eneg by done. cbn in Eneg. rewrite !andb_true_r in Eneg. apply Z.ltb_ge in Eneg. done. }
  destruct Hc as [H1 H2 H3 H4 H5 H6]. unfold is_i64 in Hn. destruct f; try done.
  - simplify_eq. by constructor.
  - repeat case_match; try done; simplify_eq; by constructor.
  - destruct ((n =? 1) || (n =? 2) || (n =? 4) || (n =? 8)) eqn:En; [|done]. simplify_eq. constructor; cbn; try done. rewrite !orb_true_iff, !Z.eqb_eq in En. destruct En as [[[-> | ->] | ->] | ->]; set_solver.
  - destruct (c_cad_type c); try done; simplify_eq; by constructor.
  - simplify_eq. constructor; cbn; try done. specialize (Hpos ltac:(done) ltac:(done)). lia.
  - simplify_eq. constructor; cbn; try done. change kAll with (2 ^ 2 - 1). pose proof (land_mask_bound (u8 n) 2 ltac:(lia)). lia.
  - destruct (c_value_source c); try done. destruct (param_to_perf_regno _) as [r|] eqn:Er; [|done]. simplify_eq. constructor; cbn; try done. intros _. by apply param_range in Er.
  - destruct (c_cad_type c); try done; simplify_eq; by constructor.
  - destruct (c_value_source c); try done. destruct (Z.leb_spec k_perf_register_count n); [done|]. simplify_eq. constructor; cbn; try done. intros _. specialize (Hpos ltac:(done) ltac:(done)). lia.
  - simplify_eq. constructor; cbn; try done. apply u32_range.
Qed.

Lemma Opt_ok ts c c' : Forall token_ok ts -> Opt ts c c' -> conf_ok c -> conf_ok c'.
Proof.
  intros Hts Ho Hc. destruct Ho as [w c|f w c c' E|f w1 w2 c|f n c c' E|f n c c' E|f d c c' E].
  - destruct Hc. by constructor.
  - by eapply key_word_ok.
  - destruct Hc. destruct f; by constructor.
  - rewrite !Forall_cons in Hts. destruct Hts as (_ & _ & Hn & _). by eapply key_integer_ok.
  - rewrite !Forall_cons in Hts. destruct Hts as (_ & _ & Hn & _). by eapply key_integer_ok.
  - destruct f; try done. cbn in E. simplify_eq. destruct Hc. by constructor.
Qed.

Lemma Conf_ok ts c c' : Forall token_ok ts -> Conf ts c c' -> conf_ok c -> conf_ok c'.
Proof.
  intros Hts Hc. induction Hc as [ts c c' H|ts ts' c c1 c2 _ IH H|ts ts' c c1 c2 _ IH H]; intros Hok.
  - by eapply Opt_ok.
  - apply Forall_app in Hts as [H1 H2]. apply Forall_cons in H2 as [_ H2]. eapply Opt_ok; eauto.
  - apply Forall_app in Hts as [H1 H2]. eapply Opt_ok; eauto.
Qed.

Lemma conf_finalize_ok c : conf_ok c -> conf_ok (conf_finalize c).
Proof. intros []. unfold conf_finalize. cbv zeta. repeat case_match; by constructor. Qed.

Lemma Confs_ok template ts cs : Forall token_ok ts -> conf_ok template -> Confs template ts cs -> Forall conf_ok cs.
Proof.
  intros Hts Ht Hc. induction Hc as [ts c H|ts cs ts' c _ IH H|ts cs _ IH|]; [| | |constructor].
  - constructor; [|constructor]. apply conf_finalize_ok. by eapply Conf_ok.
  - apply Forall_app in Hts as [H1 H2]. apply Forall_cons in H2 as [_ H2]. apply Forall_app. split; [by apply IH|]. constructor; [|constructor]. apply conf_finalize_ok. by eapply Conf_ok.
  - apply Forall_app in Hts as [H1 _]. by apply IH.
Qed.

(** The types of a field hold: a watcher that the profiler can open and decode. *)
Record watcher_wf (w : ConfiguredWatcher) : Prop := {
  wf_named : tracepoint_event w <> ""%string;
  wf_kind : ewatcher_from_str (tracepoint_event w) = None -> tracepoint_group w <> ""%string /\ w_type (cw w) = PERF_TYPE_TRACEPOINT;
  wf_config : 0 <= config (cw w) < 2 ^ 64;
  wf_period : is_i64 (sample_period (cw w));
  wf_mode : 0 <= aggregation_mode (cw w) <= kAll;
  wf_stack : 0 <= w_stack_sample_size (cw w) < 2 ^ 32;
  wf_register : value_source (cw w) = kRegister -> 0 <= regno (cw w) < k_perf_register_count;
  wf_raw : value_source (cw w) = kRaw -> 0 <= raw_off (cw w) < 256 /\ raw_sz (cw w) ∈ [1; 2; 4; 8] /\ Z.testbit (sample_type (cw w)) 10 = true;
  wf_base : forall i, Z.testbit BASE_STYPES i = true -> Z.testbit (sample_type (cw w)) i = true
}.

(** Every row of the table is a watcher in range. *)
Lemma ewatcher_wf name w : ewatcher_from_str name = Some w ->
  0 <= config w < 2 ^ 64 /\ is_i64 (sample_period w) /\ value_source w = kSample /\ sample_type w = BASE_STYPES.
Proof.
  unfold ewatcher_from_str, ewatcher_from_idx. intros E. destruct (_ || _); [done|]. set (n := Z.to_nat _) in *. clearbody n.
  assert (Hrow : forall nm d ty cfg fr o, EVENT_CONFIG_TABLE !! n = Some (nm, d, ty, cfg, fr, o) -> 0 <= cfg < 2 ^ 64 /\ 0 <= fr < 2 ^ 63).
  { intros nm d ty cfg fr o Er. assert (Hin : (nm, d, ty, cfg, fr, o) ∈ EVENT_CONFIG_TABLE) by (apply list_elem_of_lookup; by eexists). clear -Hin. unfold EVENT_CONFIG_TABLE in Hin.
    rewrite !elem_of_cons in Hin. repeat (destruct Hin as [Hin|Hin]; [injection Hin as _ _ _ -> -> _; vm_compute; intuition discriminate|]). by apply not_elem_of_nil in Hin. }
  destruct (EVENT_CONFIG_TABLE !! n) as [[[[[[nm d] ty] cfg] fr] o]|]; [|done]. destruct (Hrow _ _ _ _ _ _ eq_refl) as [H1 H2]. injection E as <-. cbn. unfold is_i64. repeat split; try done; lia.
Qed.

Lemma watcher_template conf w id : match ewatcher_from_str (c_eventname conf) with
    | Some w => Some (w, kIgnoredWatcherID)
    | None => if bool_decide (c_groupname conf = ""%string) then None else Some (tracepoint_default_watcher, c_id conf)
    end = Some (w, id) ->
  (0 <= config w < 2 ^ 64 /\ is_i64 (sample_period w) /\ value_source w = kSample /\ sample_type w = BASE_STYPES) /\
  (ewatcher_from_str (c_eventname conf) = None -> c_groupname conf <> ""%string /\ w_type w = PERF_TYPE_TRACEPOINT).
Proof.
  destruct (ewatcher_from_str (c_eventname conf)) as [w'|] eqn:Ew; [intros [= <- <-]; split; [by eapply ewatcher_wf|done]|].
  destruct (bool_decide_reflect (c_groupname conf = ""%string)); [done|]. intros [= <- <-]. split; [|done]. unfold is_i64. cbn. repeat split; try lia.
Qed.

Lemma watcher_from_config_wf stat read_id conf w : conf_ok conf -> watcher_from_config stat read_id conf = Some w -> watcher_wf w.
Proof.
  intros [H1 H2 H3 H4 H5 H6] E. unfold watcher_from_config in E. destruct (bool_decide_reflect (c_eventname conf = ""%string)) as [|Hname]; [done|].
  destruct (match ewatcher_from_str (c_eventname conf) with Some _ => _ | None => _ end) as [[tw id]|] eqn:Et; [|done]. apply watcher_template in Et as ((Hcfg & Hper & Hsrc & Hst) & Hkind).
  destruct (if negb (id =? kIgnoredWatcherID) then _ else _) as [cfg|] eqn:Ec; [|done].
  assert (Hcfg' : 0 <= cfg < 2 ^ 64).
  { revert Ec. cbv zeta. destruct (negb (id =? kIgnoredWatcherID)); [|by intros [= <-]]. destruct (_ =? kIgnoredWatcherID); [done|]. intros [= <-]. apply u64_range. }
  clear Ec.
  set (types := fun raw => Z.lor (Z.lor (sample_type tw) raw) (if cfg =? kDDPROF_COUNT_ALLOCATIONS then PERF_SAMPLE_ADDR else 0)).
  assert (Hbits : forall raw i, Z.testbit (types raw) i = Z.testbit BASE_STYPES i || Z.testbit raw i || Z.testbit (if cfg =? kDDPROF_COUNT_ALLOCATIONS then PERF_SAMPLE_ADDR else 0) i) by (intros raw i; unfold types; by rewrite !Z.lor_spec, Hst).
  assert (Hbase : forall raw i, Z.testbit BASE_STYPES i = true -> Z.testbit (types raw) i = true) by (intros raw i Hi; by rewrite Hbits, Hi).
  destruct (if negb (c_cadence conf =? 0) then _ else _) as [period freq] eqn:Ep. assert (Hp : is_i64 period) by (repeat case_match; by simplify_eq). clear Ep.
  destruct (c_value_source conf) eqn:Es; injection E as <-; constructor; cbn [cw sample_type config sample_period w_type aggregation_mode w_stack_sample_size value_source regno raw_off raw_sz tracepoint_event tracepoint_group]; try done; try (by apply Hbase); try (by rewrite Hsrc).
  intros _. split; [unfold u8; change 256 with (2 ^ 8); by apply Z.mod_pos_bound|]. split.
  2: { change (Z.testbit (types PERF_SAMPLE_RAW) 10 = true). rewrite Hbits. change (Z.testbit PERF_SAMPLE_RAW 10) with true. by rewrite orb_true_r. }
  destruct (Z.ltb_spec 0 (c_raw_size conf)); [|set_solver]. rewrite elem_of_cons in H3. destruct H3 as [H3|H3]; [lia|exact H3].
Qed.

Lemma watchers_from_configs_wf stat read_id confs ws : Forall conf_ok confs -> watchers_from_configs stat read_id confs = Some ws -> Forall watcher_wf ws.
Proof.
  intros Hc. revert ws. induction Hc as [|c confs Hc _ IH]; intros ws E; cbn [watchers_from_configs] in E; [by simplify_eq|].
  destruct (watcher_from_config stat read_id c) as [w|] eqn:Ew; [|done]. destruct (watchers_from_configs stat read_id confs) as [ws'|]; [|done]. injection E as <-.
  constructor; [by eapply watcher_from_config_wf|by apply IH].
Qed.

Lemma watchers_from_str_wf stat read_id str stack_sample_size ws : 0 <= stack_sample_size < 2 ^ 32 ->
  watchers_from_str stat read_id str stack_sample_size = Some ws -> Forall watcher_wf ws.
Proof.
  intros Hs E. unfold watchers_from_str in E. destruct (EventConf_parse str (template_conf stack_sample_size)) as [confs|] eqn:Ep; [|done].
  eapply watchers_from_configs_wf; [|exact E]. unfold EventConf_parse in Ep. apply parse_confs_sound, Confs_Rest in Ep. eapply Confs_ok; [|..|exact Ep]; [apply lex_ok|].
  constructor; cbn; try done; first [set_solver|unfold is_i64; lia].
Qed.

(** C14: Every watcher that comes out of a text is well-typed, whatever the text and the tracepoints of the
    system: it has a name, and a group if it is a tracepoint; its register exists, its raw field has 1, 2, 4 or 8
    bytes at an offset of one byte and raw data is sampled; the mode, the period, the configuration and
    the stack size are in the range of their fields, and the sample has the fields that every watcher needs. *)
Theorem watchers_well_typed stat read_id str stack_sample_size ws : 0 <= stack_sample_size < 2 ^ 32 ->
  watchers_from_str stat read_id str stack_sample_size = Some ws -> Forall watcher_wf ws.
Proof. apply watchers_from_str_wf. Qed.

(** A tracing file system with one tracepoint. *)
Definition demo_stat (path : string) : bool := bool_decide (path = "/sys/kernel/tracing/events"%string).
Definition demo_read_id (path : string) : option Z := if bool_decide (path = "/sys/kernel/tracing/events/sched/switch/id"%string) then Some 42 else None.
Definition demo_watchers (str : string) : option (list (Z * Z * bool * Z * Z)) :=
  map (fun w => (config (cw w), sample_period (cw w), is_freq (cw w), raw_off (cw w), raw_sz (cw w))) <$> watchers_from_str demo_stat demo_read_id str 32000.

Lemma watchers_well_typed_witness : exists ws, watchers_from_str demo_stat demo_read_id "sCPU f=50;event=sched:switch,o=16 z=4" 32000 = Some ws /\ length ws = 2%nat /\ Forall watcher_wf ws.
Proof.
  destruct (watchers_from_str demo_stat demo_read_id "sCPU f=50;event=sched:switch,o=16 z=4" 32000) as [ws|] eqn:E; [|by vm_compute in E].
  exists ws. split; [done|]. split; [vm_compute in E; by injection E as <-|]. apply (watchers_well_typed demo_stat demo_read_id "sCPU f=50;event=sched:switch,o=16 z=4" 32000); [lia|exact E].
Defined.

(** ** Texts that are read in a way that may surprise *)

(** A pair is stored with the group as the event, and the file of the tracepoint is looked up in the same order; an event and its
    group given by their keys are therefore not found, and the label of the pair has them the wrong way round. *)
Example tracepoint_names_swapped :
  demo_watchers "event=sched:switch" = Some [(42, 1, false, 0, 0)] /\ demo_watchers "event=switch,group=sched" = None /\ demo_watchers "group=switch,event=sched" = Some [(42, 1, false, 0, 0)] /\
  option_map (map c_label) (EventConf_parse "event=sched:switch" (template_conf 32000)) = Some ["switch:sched"%string].
Proof. repeat split; vm_compute; reflexivity. Qed.

(** Hexadecimal numbers have decimal digits only: the rest is read as the name of the event. *)
Example hexadecimal_letters : tokens_of "sCPU,period=0xff" = [WORD "sCPU"; OPTSEP; KEY kPeriod; EQ; NUMBER 0; WORD "xff"] /\ demo_watchers "sCPU,period=0xff" = None /\ demo_watchers "period=0xsALLOC" = None /\
  demo_watchers "o=1sALLOC" = Some [(0, 524288, false, 1, 8)].
Proof. repeat split; vm_compute; reflexivity. Qed.

(** A period for an event that has a frequency becomes its frequency. *)
Example period_of_a_frequency : demo_watchers "sCPU,period=1000000" = Some [(1, 1000000, true, 0, 0)].
Proof. vm_compute. reflexivity. Qed.

(** The offset of a raw field is kept in one byte. *)
Example raw_offset_truncated : demo_watchers "event=sched:switch,o=264,z=4" = Some [(42, 1, false, 8, 4)].
Proof. vm_compute. reflexivity. Qed.

(** The events of the hardware cycles are sampled with an address, like the allocations. *)
Example cycles_have_address : option_map (map (fun w => Z.testbit (sample_type (cw w)) 3)) (watchers_from_str demo_stat demo_read_id "hCPU;hINST;sALLOC" 32000) = Some [true; false; true].
Proof. vm_compute. reflexivity. Qed.

(** The text is read up to the first byte that is not ASCII. *)
Example text_after_other_bytes : tokens_of (String.String "s" (String.String (Ascii.ascii_of_nat 233) ",period=7")) = [KEY kValueScale].
Proof. reflexivity. Qed.
