(* ===== verification/Exporter.v ===== *)
(** * Tags and the exporter

    Model of [src/tags.cc] and [src/exporter/ddprof_exporter.cc]: the tags of the user, the address profiles are sent
    to, the tags sent with them, the file they are copied to, and what becomes of the answer of the
    server.  libdatadog is a parameter (which tags it accepts) and an input (its answers). *)

From Stdlib Require Import Ascii.
From S2P Require Import Prelude RingBuffer PerfSample Ddres AllocTracker Watcher StackMemory EventConfig.
From stdpp Require Import pretty.

Local Open Scope Z_scope.

Definition to_chars (s : string) : chars := String.list_ascii_of_string s.
Definition of_chars (l : chars) : string := String.string_of_list_ascii l.

(** ** Tags *)

Abbreviation Tag := (string * string)%type.
Definition k_max_tag_length : nat := 200.

Definition tag_char (c : ascii) : bool :=
  is_alpha c || is_digit c || (code c =? 95) || (code c =? 45) || (code c =? 58) || (code c =? 46) || (code c =? 47) || (code c =? 92).

Definition ValidateTags (tag : chars) : bool :=
  match tag with
  | [] => false
  | c :: _ => (length tag <=? k_max_tag_length)%nat && is_alpha c && negb (code (List.last tag c) =? 58) && forallb tag_char tag
  end.

(** Up to the first [sep], and what is behind it; [None]: it does not occur. *)
Fixpoint cut (sep : Z) (l : chars) : option (chars * chars) :=
  match l with
  | [] => None
  | c :: l' => if code c =? sep then Some ([], l') else match cut sep l' with Some (a, b) => Some (c :: a, b) | None => None end
  end.

Definition split_kv (tag : chars) : Tag :=
  match cut 58 tag with
  | None | Some (_, []) => (""%string, ""%string)
  | Some (k, v) => (of_chars k, of_chars v)
  end.

(** The loop of [split]; a tag that is not valid is skipped. *)
Fixpoint split_loop (fuel : nat) (l : chars) : list Tag :=
  match fuel, l with
  | S f, _ :: _ =>
      let '(tag, rest) := match cut 44 l with Some (a, b) => (a, b) | None => (l, []) end in
      if negb (ValidateTags tag) then split_loop f rest
      else
        let current_tag := split_kv tag in
        if bool_decide (current_tag = (""%string, ""%string)) then split_loop f rest else current_tag :: split_loop f rest
  | _, _ => []
  end.
Definition split (str : string) : list Tag := split_loop (String.length str) (to_chars str).

Definition user_tags (tag_str : string) (nproc nb_hw_thread : Z) : list Tag :=
  (if bool_decide (tag_str = ""%string) then [] else split tag_str) ++
  [("number_of_cpu_cores"%string, pretty nproc); ("number_hw_concurent_threads"%string, pretty nb_hw_thread)].

(** ** The address *)

Record ExporterInput := mkInput {
  api_key : string; environment : string; service : string; service_version : string; host : string; url : string; port : string;
  debug_pprof_prefix : string; runtime_id : string; do_export : bool; language : string; profiler_version : string; agentless : bool
}.

Definition k_size_api_key : nat := 32.

Definition alloc_url_agent (protocol host port : string) : string :=
  if negb (bool_decide (port = ""%string)) then (protocol +:+ host +:+ ":" +:+ port)%string else (protocol +:+ host)%string.

(** Behind the last [sep]. *)
Definition after_last (sep : Z) (l : chars) : option chars := match cut sep (rev l) with Some (a, _) => Some (rev a) | None => None end.

Definition contains_port (url : string) : bool :=
  match after_last 58 (to_chars url) with None => false | Some port_sv => forallb is_digit port_sv end.

Definition lower (c : ascii) : Z := if EventConfig.between 65 90 c then code c + 32 else code c.

(** [strncasecmp (s, "unix", 4) = 0] *)
Definition starts_unix (s : string) : bool := bool_decide (map lower (take 4 (to_chars s)) = map code (to_chars "unix")).

(** [strstr (s, "://")] *)
Fixpoint has_scheme (l : chars) : bool :=
  match l with [] => false | _ :: l' => bool_decide (map code (take 3 l) = map code (to_chars "://")) || has_scheme l' end.

Record DDProfExporter := mkExporter { e_input : ExporterInput; e_url : string; e_debug_pprof_prefix : string; e_agent : bool; e_export : bool; e_nb_consecutive_errors : Z; e_created : option (list Tag) }.

Definition targets_agent (input : ExporterInput) : bool :=
  negb (agentless input && negb (bool_decide (api_key input = ""%string)) && (k_size_api_key <=? String.length (api_key input))%nat).

Definition exporter_url (input : ExporterInput) : string :=
  if targets_agent input then
    if negb (bool_decide (url input = ""%string)) then
      let port_str := if starts_unix (url input) || contains_port (url input) then ""%string else port input in
      if has_scheme (to_chars (url input)) then alloc_url_agent "" (url input) port_str
      else match to_chars (url input) with
           | c :: _ => if code c =? 47 then alloc_url_agent "unix://" (url input) "" else alloc_url_agent "http://" (url input) port_str
           | [] => alloc_url_agent "http://" (url input) port_str
           end
    else alloc_url_agent "http://" (host input) (port input)
  else if negb (bool_decide (url input = ""%string)) then url input
  else alloc_url_agent "http://" (host input) (port input).

(** The exporter keeps its count of errors and the handle of libdatadog. *)
Definition ddprof_exporter_init (input : ExporterInput) (exporter : DDProfExporter) : DDRes * DDProfExporter :=
  let u := exporter_url input in
  if bool_decide (u = ""%string) then (ddres_error (what_of "EXPORTER"), mkExporter input u (e_debug_pprof_prefix exporter) (targets_agent input) (e_export exporter) (e_nb_consecutive_errors exporter) (e_created exporter))
  else (ddres_init, mkExporter input u (debug_pprof_prefix input) (targets_agent input) (do_export input) (e_nb_consecutive_errors exporter) (e_created exporter)).

(** ** Tags that are sent *)

Section Tags.
Context (push_ok : Tag -> bool).

(** The tags one after the other, up to the first that is refused. *)
Fixpoint add_tags (l tags_exporter : list Tag) : DDRes * list Tag :=
  match l with
  | [] => (ddres_init, tags_exporter)
  | t :: l' => if push_ok t then add_tags l' (tags_exporter ++ [t]) else (ddres_error (what_of "EXPORTER"), tags_exporter)
  end.

Definition tag_unless_empty (key value : string) : list Tag := if bool_decide (value = ""%string) then [] else [(key, value)].

Definition stable_tags (user : list Tag) (input : ExporterInput) : list Tag :=
  [("language"%string, language input)] ++ tag_unless_empty "env" (environment input) ++ tag_unless_empty "version" (service_version input) ++
  tag_unless_empty "service" (service input) ++ tag_unless_empty "profiler_version" (profiler_version input) ++ [("runtime-id"%string, runtime_id input)] ++ user.

Definition fill_stable_tags (user : list Tag) (exporter : DDProfExporter) (tags_exporter : list Tag) : DDRes * list Tag :=
  add_tags (stable_tags user (e_input exporter)) tags_exporter.

Definition fill_cycle_tags (additional : list Tag) (profile_seq : Z) (tags : list Tag) : DDRes * list Tag :=
  add_tags (("profile_seq"%string, pretty profile_seq) :: additional) tags.

(** [created]: libdatadog accepts the endpoint.  The result of filling the tags is not looked at. *)
Definition ddprof_exporter_new (user : list Tag) (created : bool) (exporter : DDProfExporter) : DDRes * DDProfExporter :=
  let '(_, tags) := fill_stable_tags user exporter [] in
  if created then (ddres_init, mkExporter (e_input exporter) (e_url exporter) (e_debug_pprof_prefix exporter) (e_agent exporter) (e_export exporter) (e_nb_consecutive_errors exporter) (Some tags))
  else (ddres_error (what_of "EXPORTER"), exporter).

(** ** Writing a profile to a file *)

(** What [write] answers: a number of bytes, an interruption, another error. *)
Inductive write_answer := Written (n : nat) | Interrupted | WriteError.

(** The result and the bytes in the file; [None]: more answers are needed. *)
Fixpoint write_profile (answers : list write_answer) (buffer file : list Z) : option (DDRes * list Z) :=
  match buffer with
  | [] => Some (ddres_init, file)
  | _ :: _ =>
      match answers with
      | [] => None
      | Interrupted :: answers' => write_profile answers' buffer file
      | WriteError :: _ => Some (ddres_error (what_of "EXPORTER"), file)
      | Written n :: answers' => write_profile answers' (drop n buffer) (file ++ take n buffer)
      end
  end.

(** [opened]: the file could be created. *)
Definition write_pprof_file (opened : bool) (answers : list write_answer) (buffer : list Z) : option (DDRes * list Z) :=
  if opened then write_profile answers buffer [] else Some (ddres_error (what_of "EXPORTER"), []).

(** ** Sending *)

Definition check_send_response_code (send_response_code : Z) : DDRes :=
  if (200 <=? send_response_code) && (send_response_code <? 300) then ddres_init
  else if send_response_code =? 504 then ddres_init
  else if send_response_code =? 403 then ddres_error (what_of "EXPORTER")
  else if send_response_code =? 404 then ddres_error (what_of "EXPORTER")
  else ddres_init.

Definition k_max_nb_consecutive_errors_allowed : Z := 3.

Definition set_errors (exporter : DDProfExporter) (n : Z) : DDProfExporter :=
  mkExporter (e_input exporter) (e_url exporter) (e_debug_pprof_prefix exporter) (e_agent exporter) (e_export exporter) n (e_created exporter).

(** What is sent: the bytes and the tags of the cycle. *)
Record request := mkRequest { q_bytes : list Z; q_tags : list Tag }.

(** [serialized]: the bytes of the profile; [files]: how the debug file can be written; [answer]: the HTTP status, or no connection. *)
Record export_env := mkEnv { serialized : option (list Z); file_opened : bool; file_writes : list write_answer; answer : option Z }.

Definition ddprof_exporter_export (additional : list Tag) (profile_seq : Z) (env : export_env) (exporter : DDProfExporter) : option (DDRes * option request * DDProfExporter) :=
  match serialized env with
  | None => Some (ddres_error (what_of "EXPORTER"), None, exporter)
  | Some buffer =>
      let? _ := (if bool_decide (e_debug_pprof_prefix exporter = ""%string) then Some (ddres_init, []) else write_pprof_file (file_opened env) (file_writes env) buffer) in
      if e_export exporter then
        let '(res, tags) := fill_cycle_tags additional profile_seq [] in
        if IsDDResFatal res then Some (res, None, exporter)
        else
          let sent := Some (mkRequest buffer tags) in
          match answer env with
          | None =>
              let n := e_nb_consecutive_errors exporter in
              let res := if k_max_nb_consecutive_errors_allowed <=? n then ddres_error (what_of "EXPORTER") else ddres_warn (what_of "EXPORTER") in
              Some (res, sent, set_errors exporter (i32 (n + 1)))
          | Some code => Some (check_send_response_code code, sent, set_errors exporter 0)
          end
      else Some (ddres_init, None, exporter)
  end.

Definition ddprof_exporter_free (exporter : DDProfExporter) : DDProfExporter :=
  mkExporter (e_input exporter) (e_url exporter) (e_debug_pprof_prefix exporter) (e_agent exporter) (e_export exporter) (e_nb_consecutive_errors exporter) None.
End Tags.

(** ** Theorems *)

(** *** Tags of the user *)

(** The text of a tag, and of several. *)
Definition tag_text (t : Tag) : chars := to_chars (fst t) ++ ":"%char :: to_chars (snd t).
Fixpoint tags_text (l : list Tag) : chars := match l with [] => [] | t :: l' => tag_text t ++ match l' with [] => [] | _ => ","%char :: tags_text l' end end.

Definition tag_ok (t : Tag) : Prop := ValidateTags (tag_text t) = true /\ forallb (fun c => negb (code c =? 58)) (to_chars (fst t)) = true.

Lemma cut_app sep a c b : forallb (fun x => negb (code x =? sep)) a = true -> code c = sep -> cut sep (a ++ c :: b) = Some (a, b).
Proof.
  intros Ha Hc. induction a as [|x a IH]; cbn [app cut]; [by rewrite Hc, Z.eqb_refl|]. cbn [forallb] in Ha. apply andb_true_iff in Ha as [Hx Ha]. apply negb_true_iff in Hx. by rewrite Hx, (IH Ha).
Qed.

Lemma cut_none sep a : forallb (fun x => negb (code x =? sep)) a = true -> cut sep a = None.
Proof. induction a as [|x a IH]; [done|]. cbn [forallb cut]. intros [Hx Ha]%andb_true_iff. apply negb_true_iff in Hx. by rewrite Hx, (IH Ha). Qed.

Lemma valid_tag_no_comma tag : ValidateTags tag = true -> forallb (fun c => negb (code c =? 44)) tag = true /\ tag <> [].
Proof.
  unfold ValidateTags. destruct tag as [|c tag]; [done|]. intros H. rewrite !andb_true_iff in H. destruct H as [_ H]. split; [|done].
  apply forallb_forall. intros x Hx. rewrite forallb_forall in H. specialize (H x Hx). unfold tag_char, is_alpha, is_digit, EventConfig.between in H.
  rewrite !orb_true_iff, !andb_true_iff, !Z.leb_le, !Z.eqb_eq in H. apply negb_true_iff, Z.eqb_neq. lia.
Qed.

Lemma last_app_cons (a b : chars) (c d : ascii) : List.last (a ++ c :: b) d = List.last b c.
Proof.
  induction a as [|x a IH]; cbn [app].
  - destruct b as [|y b]; [done|]. change (List.last (c :: y :: b) d) with (List.last (y :: b) d). revert y. induction b as [|z b IH]; intros y; [done|]. apply IH.
  - destruct (a ++ c :: b) eqn:E; [by destruct a|]. exact IH.
Qed.

(** The value behind the first colon is not empty. *)
Lemma split_kv_tag t : tag_ok t -> split_kv (tag_text t) = t /\ t <> (""%string, ""%string).
Proof.
  intros [Hv Hk]. destruct t as [k v]. unfold tag_text, split_kv in *. cbn [fst snd] in *. rewrite cut_app by done.
  destruct (to_chars v) as [|c cs] eqn:Ev.
  { exfalso. unfold ValidateTags in Hv. destruct (to_chars k ++ [":"%char]) as [|x l] eqn:E; [done|]. rewrite !andb_true_iff in Hv. destruct Hv as [[_ Hl] _]. rewrite <- E, last_app_cons in Hl. done. }
  rewrite <- Ev. unfold of_chars, to_chars. rewrite !String.string_of_list_ascii_of_string. split; [done|]. intros [= -> ->]. done.
Qed.

Lemma split_loop_tags l : Forall tag_ok l -> forall f, (length (tags_text l) <= f)%nat -> split_loop f (tags_text l) = l.
Proof.
  induction 1 as [|t l Ht _ IH]; intros f Hf; [by destruct f|]. destruct (split_kv_tag t Ht) as [Hs Hne]. destruct Ht as [Hv _]. destruct (valid_tag_no_comma _ Hv) as [Hc Hn].
  cbn [tags_text] in *. assert (Hcut : match cut 44 (tag_text t ++ match l with [] => [] | _ => ","%char :: tags_text l end) with Some (a, b) => (a, b) | None => (tag_text t ++ match l with [] => [] | _ => ","%char :: tags_text l end, []) end
    = (tag_text t, match l with [] => [] | _ => tags_text l end)).
  { destruct l as [|u l]; [rewrite app_nil_r, cut_none by done; done|]. by rewrite cut_app. }
  set (rest := match l with [] => [] | _ => ","%char :: tags_text l end) in *. destruct f as [|f]; [destruct (tag_text t); [done|cbn in Hf; lia]|].
  destruct (tag_text t ++ rest) as [|x tl] eqn:E; [by destruct (tag_text t)|]. cbn [split_loop]. rewrite Hcut, Hv. cbn [negb]. rewrite Hs, bool_decide_false by done. f_equal.
  destruct l as [|u l]; [by destruct f|]. apply IH. assert (Hl : length (tag_text t ++ rest) = S (length tl)) by (by rewrite E). rewrite length_app in Hl.
  assert (Hr : length rest = S (length (tags_text (u :: l)))) by reflexivity. assert (Ht : (0 < length (tag_text t))%nat) by (destruct (tag_text t); [done|cbn; lia]). cbn [length] in Hf. lia.
Qed.

(** The tags that a text lists are read back, in order. *)
Theorem split_tags l : Forall tag_ok l -> split (of_chars (tags_text l)) = l.
Proof.
  intros Hl. unfold split, to_chars, of_chars. rewrite String.list_ascii_of_string_of_list_ascii. apply split_loop_tags; [done|].
  clear. induction (tags_text l) as [|c cs IH]; [done|]. cbn. lia.
Qed.

(** *** Files *)

(** A file that is written without an error has the bytes of the profile, however [write] cuts them. *)
Theorem profile_file_complete answers buffer file res out : write_profile answers buffer file = Some (res, out) -> IsDDResFatal res = false -> out = file ++ buffer.
Proof.
  revert buffer file. induction answers as [|a answers IH]; intros [|b buffer] file E Hr; cbn [write_profile] in E; try (injection E as <- <-; by rewrite app_nil_r); [done|].
  destruct a as [n| |]; [|by eapply IH|injection E as <- <-; done]. specialize (IH _ _ E Hr). rewrite IH, <- app_assoc. by rewrite take_drop.
Qed.

(** *** Errors of the connection *)

(** The exports of a run. *)
Fixpoint exports (push_ok : Tag -> bool) (l : list (list Tag * Z * export_env)) (exporter : DDProfExporter) : option (list DDRes * DDProfExporter) :=
  match l with
  | [] => Some ([], exporter)
  | (tags, seq, env) :: l' =>
      let? (res, _, exporter) := ddprof_exporter_export push_ok tags seq env exporter in
      let? (rs, exporter) := exports push_ok l' exporter in Some (res :: rs, exporter)
  end.

(** How many of the last exports had no connection. *)
Fixpoint failures (answers : list (option Z)) (before : Z) : Z :=
  match answers with [] => before | a :: answers' => failures answers' (match a with None => before + 1 | Some _ => 0 end) end.

(** What becomes of an answer after [n] failures. *)
Definition export_result (n : Z) (a : option Z) : DDRes :=
  match a with
  | None => if 3 <=? n then ddres_error (what_of "EXPORTER") else ddres_warn (what_of "EXPORTER")
  | Some code => if (code =? 403) || (code =? 404) then ddres_error (what_of "EXPORTER") else ddres_init
  end.

(** The profile is there, the debug file is not wanted, the tags are accepted. *)
Definition sends (push_ok : Tag -> bool) (p : list Tag * Z * export_env) : Prop :=
  let '(tags, seq, env) := p in is_Some (serialized env) /\ push_ok ("profile_seq"%string, pretty seq) = true /\ Forall (fun t => push_ok t = true) tags.

Lemma add_tags_ok push_ok l acc : Forall (fun t => push_ok t = true) l -> add_tags push_ok l acc = (ddres_init, acc ++ l).
Proof. intros Hl. revert acc. induction Hl as [|t l Ht _ IH]; intros acc; cbn [add_tags]; [by rewrite app_nil_r|]. by rewrite Ht, IH, <- app_assoc. Qed.

Lemma check_code_result n code : check_send_response_code code = export_result n (Some code).
Proof.
  unfold check_send_response_code, export_result. destruct (Z.leb_spec 200 code), (Z.ltb_spec code 300); cbn [andb]; destruct (Z.eqb_spec code 504), (Z.eqb_spec code 403), (Z.eqb_spec code 404); try lia; done.
Qed.

Lemma export_sends push_ok tags seq env exporter : sends push_ok (tags, seq, env) -> e_debug_pprof_prefix exporter = ""%string -> e_export exporter = true ->
  exists buffer n', serialized env = Some buffer /\ n' = (match answer env with None => i32 (e_nb_consecutive_errors exporter + 1) | Some _ => 0 end) /\
    ddprof_exporter_export push_ok tags seq env exporter =
    Some (export_result (e_nb_consecutive_errors exporter) (answer env), Some (mkRequest buffer (("profile_seq"%string, pretty seq) :: tags)), set_errors exporter n').
Proof.
  intros ([buffer Hb] & Hseq & Htags) Hd He. exists buffer. unfold ddprof_exporter_export. rewrite Hb, Hd, He, bool_decide_true by done. unfold fill_cycle_tags. rewrite add_tags_ok by (by constructor).
  change (IsDDResFatal ddres_init) with false. cbn [app]. destruct (answer env) as [code|]; eexists; (split; [done|]); (split; [reflexivity|]); [by rewrite (check_code_result (e_nb_consecutive_errors exporter))|done].
Qed.

Lemma exports_results push_ok l : Forall (sends push_ok) l -> forall exporter, e_debug_pprof_prefix exporter = ""%string -> e_export exporter = true ->
  0 <= e_nb_consecutive_errors exporter -> e_nb_consecutive_errors exporter + Z.of_nat (length l) < 2 ^ 31 ->
  exists rs exporter', exports push_ok l exporter = Some (rs, exporter') /\ length rs = length l /\
    forall i res, rs !! i = Some res -> exists p, l !! i = Some p /\ res = export_result (failures (map (fun q => answer (snd q)) (take i l)) (e_nb_consecutive_errors exporter)) (answer (snd p)).
Proof.
  induction 1 as [|[[tags seq] env] l Hp _ IH]; intros exporter Hd He Hn Hl; [by exists [], exporter|]. cbn [length] in Hl. cbn [exports].
  destruct (export_sends push_ok tags seq env exporter Hp Hd He) as (buffer & n' & Hb & Hn' & ->).
  assert (Hr : 0 <= n' <= e_nb_consecutive_errors exporter + 1 /\ n' = match answer env with None => e_nb_consecutive_errors exporter + 1 | Some _ => 0 end).
  { rewrite Hn'. destruct (answer env); [lia|]. unfold i32. rewrite Z.mod_small by lia. lia. }
  destruct (IH (set_errors exporter n') Hd He ltac:(cbn; lia) ltac:(cbn; lia)) as (rs & ex & -> & Hlen & Hres).
  do 2 eexists. split; [done|]. split; [cbn; by rewrite Hlen|]. intros [|i] res Ei.
  - injection Ei as <-. eexists. split; [done|]. done.
  - destruct (Hres i res Ei) as (p & Hp' & ->). exists p. split; [done|]. cbn [take map failures snd e_nb_consecutive_errors set_errors]. by rewrite <- (proj2 Hr).
Qed.

(** C17: One exporter gives up exactly when it should: in a run of fewer than 2^31 exports of one new exporter that is configured to
    export and writes no debug file, with profiles that can be serialized and tags that libdatadog accepts, every export returns, and it
    stops the profiler, with an error, if and only if the server refuses it (403, 404) or it is at least the fourth in a row of this exporter
    without a connection; the other exports without a connection are warnings, and every other answer is a success.  (The worker has two
    exporters that take turns, each with its own count: [two_exporters_seven_failures].) *)
Theorem exporter_gives_up push_ok l exporter : Forall (sends push_ok) l -> e_debug_pprof_prefix exporter = ""%string -> e_export exporter = true -> e_nb_consecutive_errors exporter = 0 ->
  Z.of_nat (length l) < 2 ^ 31 ->
  exists rs exporter', exports push_ok l exporter = Some (rs, exporter') /\ length rs = length l /\
    forall i res, rs !! i = Some res -> exists p, l !! i = Some p /\ res = export_result (failures (map (fun q => answer (snd q)) (take i l)) 0) (answer (snd p)).
Proof. intros Hl Hd He Hn Hlen. destruct (exports_results push_ok l Hl exporter Hd He ltac:(lia) ltac:(lia)) as (rs & ex & E & Hr & Hres). rewrite Hn in Hres. by exists rs, ex. Qed.

Definition demo_input : ExporterInput := mkInput "" "prod" "web" "1.2" "localhost" "" "8126" "" "id" true "native" "0.1" false.
Definition demo_exporter : DDProfExporter := mkExporter demo_input (exporter_url demo_input) "" true true 0 None.
Definition demo_exports (answers : list (option Z)) : list (list Tag * Z * export_env) := imap (fun i a => ([("k"%string, "v"%string)], Z.of_nat i, mkEnv (Some [1; 2]) true [] a)) answers.

Lemma exporter_gives_up_witness : exists rs exporter',
  exports (fun _ => true) (demo_exports [None; Some 200; None; None; None; None; Some 403]) demo_exporter = Some (rs, exporter') /\
  map IsDDResFatal rs = [false; false; false; false; false; true; true] /\ map IsDDResOK rs = [false; true; false; false; false; false; false].
Proof.
  destruct (exporter_gives_up (fun _ => true) (demo_exports [None; Some 200; None; None; None; None; Some 403]) demo_exporter) as (rs & ex & E & _ & _); [|done|done|done|cbn; lia|].
  - repeat constructor; by eexists.
  - exists rs, ex. split; [done|]. vm_compute in E. injection E as <- <-. by vm_compute.
Defined.

(** The two exporters of the worker take turns, each with its own count: the profiler stops at the seventh failure in a row. *)
Example two_exporters_seven_failures : exists rs0 e0 rs1 e1,
  exports (fun _ => true) (demo_exports [None; None; None; None]) demo_exporter = Some (rs0, e0) /\ map IsDDResFatal rs0 = [false; false; false; true] /\
  exports (fun _ => true) (demo_exports [None; None; None]) demo_exporter = Some (rs1, e1) /\ map IsDDResFatal rs1 = [false; false; false].
Proof. do 4 eexists. repeat split; vm_compute; reflexivity. Qed.

(** The address of the agent. *)
Example agent_addresses :
  let with_url u := mkInput "" "" "" "" "localhost" u "8126" "" "" true "" "" false in
  map (fun u => exporter_url (with_url u)) [""; "myhost"; "myhost:80"; "http://myhost"; "https://myhost:80"; "/var/run/apm.socket"; "unix:///var/run/apm.socket"; "myhost:"]%string =
  ["http://localhost:8126"; "http://myhost:8126"; "http://myhost:80"; "http://myhost:8126"; "https://myhost:80"; "unix:///var/run/apm.socket"; "unix:///var/run/apm.socket"; "http://myhost:"]%string.
Proof. reflexivity. Qed.

(** A path behind the host gets the port at its end. *)
Example address_with_path : exporter_url (mkInput "" "" "" "" "" "http://myhost/api" "8126" "" "" true "" "" false) = "http://myhost/api:8126"%string.
Proof. reflexivity. Qed.

(** A tag that libdatadog refuses drops the tags behind it, and the exporter is created all the same. *)
Example refused_tag_drops_others : ddprof_exporter_new (fun t => negb (bool_decide (fst t = "env"%string))) [("team"%string, "a"%string)] true demo_exporter =
  (ddres_init, mkExporter demo_input "http://localhost:8126" "" true true 0 (Some [("language"%string, "native"%string)])).
Proof. vm_compute. reflexivity. Qed.

Example tags_of_the_user : user_tags "team:a,bad tag:1,env:prod:eu,nocolon,x:," 8 16 =
  [("team", "a"); ("env", "prod:eu"); ("number_of_cpu_cores", "8"); ("number_hw_concurent_threads", "16")]%string.
Proof. vm_compute. reflexivity. Qed.
