(* ===== verification/Pprof.v ===== *)
(** * The pprof profile

    Model of [src/pprof/ddprof_pprof.cc], [src/symbolizer.cc] and [src/ddog_profiling_utils.cc]:
    the value slots of a profile, and the sample (locations, values, labels) that an aggregated
    stack becomes.  libdatadog's profile is the list of the samples it accepted; blazesym is a
    parameter that may answer each call as it likes. *)

From stdpp Require Import pretty.
From S2P Require Import Prelude Ddres LiveAlloc Watcher Dso DsoHdr Symbols RuntimeSymbols Unwind Demangler.

(** ** Sample types ([watcher_sample_types.hpp]) *)

Inductive SampleType := TySample | TyTracepoint | TyCpuTime | TyCpuSamples | TyAllocSpace | TyAllocSamples | TyInuseSpace | TyInuseObjects.

#[export] Instance SampleType_eq_dec : EqDecision SampleType.
Proof. solve_decision. Defined.

Definition sample_type_name (t : SampleType) : string :=
  match t with
  | TySample => "sample" | TyTracepoint => "tracepoint" | TyCpuTime => "cpu-time" | TyCpuSamples => "cpu-samples"
  | TyAllocSpace => "alloc-space" | TyAllocSamples => "alloc-samples" | TyInuseSpace => "inuse-space" | TyInuseObjects => "inuse-objects"
  end.

(** One entry for each aggregation mode, [kSumPos] and [kLiveSumPos]; [None]: [k_stype_none]. *)
Record WatcherSampleTypes := mkST { sample_types : list (option SampleType); count_types : list (option SampleType) }.

Definition k_stype_tracepoint : WatcherSampleTypes := mkST [Some TyTracepoint; None] [None; None].
Definition k_stype_cpu : WatcherSampleTypes := mkST [Some TyCpuTime; None] [Some TyCpuSamples; None].
Definition k_stype_alloc : WatcherSampleTypes := mkST [Some TyAllocSpace; Some TyInuseSpace] [Some TyAllocSamples; Some TyInuseObjects].
Definition k_stype_dummy : WatcherSampleTypes := mkST [None; None] [None; None].

Definition is_pprof_active (st : WatcherSampleTypes) : bool := bool_decide (mjoin (sample_types st !! 0%nat) <> None).

(** The column of the event table. *)
Definition event_sample_types (idx : Z) : WatcherSampleTypes :=
  match event_type_name_from_idx idx with
  | Some "sCPU"%string => k_stype_cpu
  | Some "sDUM"%string => k_stype_dummy
  | Some "sALLOC"%string => k_stype_alloc
  | _ => k_stype_tracepoint
  end.

(** The fields of a watcher that the profile uses. *)
Record PProfIndices := mkPI { pprof_index : Z; pprof_count_index : Z }.
Definition no_indices : PProfIndices := mkPI (-1) (-1).

Record PprofWatcher := mkPW {
  pw_watcher : PerfWatcher; sample_type_info : WatcherSampleTypes; pprof_indices : list PProfIndices;
  tracepoint_event : string; tracepoint_label : string; suppress_pid : bool; suppress_tid : bool
}.

Definition set_indices (w : PprofWatcher) (l : list PProfIndices) : PprofWatcher :=
  mkPW (pw_watcher w) (sample_type_info w) l (tracepoint_event w) (tracepoint_label w) (suppress_pid w) (suppress_tid w).

Definition watcher_has_tracepoint (w : PprofWatcher) : bool :=
  is_pprof_active (sample_type_info w) && bool_decide (mjoin (sample_types (sample_type_info w) !! Z.to_nat kSumPos) = Some TyTracepoint).

(** ** The slots of the values *)

Definition k_max_value_types : nat := 16.
Definition kNbEventAggregationModes : nat := 2.

(** [SlotRegistry::ensure]: the types found so far; [None] is a write past the array. *)
Definition ensure (types : list SampleType) (t : SampleType) : option (Z * list SampleType) :=
  let i := find_index (fun u => bool_decide (u = t)) types in
  if (i <? length types)%nat then Some (Z.of_nat i, types)
  else if (length types <? k_max_value_types)%nat then Some (Z.of_nat (length types), types ++ [t]) else None.

(** The slots of one mode of a watcher. *)
Definition mode_slots (w : PprofWatcher) (m : nat) (types : list SampleType) : option (PProfIndices * list SampleType) :=
  if negb (Any (Z.land (aggregation_mode (pw_watcher w)) (Z.shiftl 1 (Z.of_nat m)))) then Some (no_indices, types)
  else
    match mjoin (sample_types (sample_type_info w) !! m) with
    | None => Some (no_indices, types)
    | Some sample_t =>
        let? (i, types) := ensure types sample_t in
        match mjoin (count_types (sample_type_info w) !! m) with
        | None => Some (mkPI i (-1), types)
        | Some count_t => let? (j, types) := ensure types count_t in Some (mkPI i j, types)
        end
    end.

(** The body of the loop over the watchers. *)
Definition watcher_slots (w : PprofWatcher) (types : list SampleType) : option (PprofWatcher * list SampleType) :=
  if negb (is_pprof_active (sample_type_info w)) then Some (set_indices w [no_indices; no_indices], types)
  else
    let? (sum, types) := mode_slots w 0 types in
    let? (live, types) := mode_slots w 1 types in
    Some (set_indices w [sum; live], types).

Fixpoint assign_slots (ws : list PprofWatcher) (types : list SampleType) : option (list PprofWatcher * list SampleType) :=
  match ws with
  | [] => Some ([], types)
  | w :: ws' =>
      let? (w, types) := watcher_slots w types in
      let? (ws', types) := assign_slots ws' types in
      Some (w :: ws', types)
  end.

(** ** Locations ([ddog_profiling_utils.cc]) *)

Record Mapping := mkMapping { mp_memory_start : Z; mp_memory_limit : Z; mp_file_offset : Z; mp_filename : string; mp_build_id : string }.
Record Function_ := mkFunction { fn_name : string; fn_system_name : string; fn_filename : string }.

(** The buffer of the locations is not initialised: [lc_line] is [None] where the line was never
    written. *)
Record Location := mkLocation { lc_mapping : Mapping; lc_function : Function_; lc_address : Z; lc_line : option Z }.

Definition write_mapping (mi : MapInfo) : Mapping := mkMapping (mi_low_addr mi) (mi_high_addr mi) (mi_offset mi) (mi_sopath mi) (mi_build_id mi).
Definition write_function (demangled_name file_name : string) : Function_ := mkFunction demangled_name "" file_name.
Definition write_function_sym (sym : Symbol) : Function_ := mkFunction (sym_demangled_name sym) "" (sym_srcpath sym).

Definition write_location_sym (loc : FunLoc) (mi : MapInfo) (sym : Symbol) : Location :=
  mkLocation (write_mapping mi) (write_function_sym sym) (fl_elf_addr loc) (Some (sym_lineno sym)).

Definition write_location (ip_or_elf_addr : Z) (demangled_name file_name : string) (lineno : Z) (mi : MapInfo) : Location :=
  mkLocation (write_mapping mi) (write_function demangled_name file_name) ip_or_elf_addr (Some lineno).

Definition write_location_no_sym (ip : Z) (mi : MapInfo) : Location :=
  mkLocation (write_mapping mi) (write_function "" (mi_sopath mi)) ip None.

(** The buffer of [kMaxStackDepth] locations; its length is the write index. *)
Abbreviation buffer := (list Location).
Definition room_left (buf : buffer) : bool := (length buf <? max_depth)%nat.

(** [locations_buff[write_index++] = l]; [None] is a write past the buffer. *)
Definition push (buf : buffer) (l : Location) : option buffer := if room_left buf then Some (buf ++ [l]) else None.

(** ** blazesym *)

Record code_info := mkCI { ci_file : option string; ci_line : Z }.
Record inlined_fn := mkInl { in_name : option string; in_code : code_info }.
Record blaze_sym := mkBS { bs_name : option string; bs_addr : Z; bs_code : code_info; bs_inlined : list inlined_fn }.

(** The symbolizer of a file. *)
Record BlazeSymbolizerWrapper := mkBW { bw_elf_src : string; bw_demangled_names : gmap string string; bw_visited : bool; bw_use_debug : bool }.

(** [sz_calls] counts the calls of blazesym: it selects its answer. *)
Record Symbolizer := mkSZ { symbolizer_map : gmap Z BlazeSymbolizerWrapper; inlined_functions : bool; disable_symbolization : bool; sz_calls : nat }.

Definition set_wrappers (s : Symbolizer) (m : gmap Z BlazeSymbolizerWrapper) : Symbolizer := mkSZ m (inlined_functions s) (disable_symbolization s) (sz_calls s).
Definition count_call (s : Symbolizer) : Symbolizer := mkSZ (symbolizer_map s) (inlined_functions s) (disable_symbolization s) (S (sz_calls s)).

Definition remove_unvisited (s : Symbolizer) : Z * Symbolizer :=
  let kept := filter (fun kv => bw_visited (snd kv) = true) (symbolizer_map s) in
  (Z.of_nat (size (symbolizer_map s)) - Z.of_nat (size kept), set_wrappers s kept).

Definition reset_unvisited_flag (s : Symbolizer) : Symbolizer :=
  set_wrappers s ((fun w => mkBW (bw_elf_src w) (bw_demangled_names w) false (bw_use_debug w)) <$> symbolizer_map s).

Definition get_symbolizer (s : Symbolizer) (file_id : Z) (elf_src : string) : BlazeSymbolizerWrapper * Symbolizer :=
  match symbolizer_map s !! file_id with
  | Some w => (w, s)
  | None =>
      let w := mkBW elf_src ∅ true (inlined_functions s) in
      (w, set_wrappers s (<[file_id := w]> (symbolizer_map s)))
  end.

Section Blaze.
Context (llvm_demangle : chars -> option chars).
(** [blaze_symbolize_elf_virt_offsets]: the number of the call, whether the symbolizer gives inlined functions, the path,
    whether debug symbols are read, the addresses. *)
Context (blaze : nat -> bool -> string -> bool -> list Z -> option (list blaze_sym)).

Definition demangled (sym : string) : string := String.string_of_list_ascii (non_microsoft_demangle llvm_demangle (chars_of sym)).

Definition get_or_insert_demangled_sym (sym : string) (names : gmap string string) : string * gmap string string :=
  match names !! sym with
  | Some n => (n, names)
  | None => (demangled sym, <[sym := demangled sym]> names)
  end.

(** A name, or nothing when there is none. *)
Definition name_or_empty (name : option string) (names : gmap string string) : string * gmap string string :=
  match name with Some n => get_or_insert_demangled_sym n names | None => (""%string, names) end.

Definition blaze_location (elf_addr : Z) (mi : MapInfo) (name : option string) (code : code_info) (names : gmap string string) : Location * gmap string string :=
  let '(n, names) := name_or_empty name names in
  (write_location elf_addr n (default (mi_sopath mi) (ci_file code)) (ci_line code) mi, names).

(** The loop over the inlined functions, the last one first. *)
Fixpoint write_inlined (elf_addr : Z) (mi : MapInfo) (fns : list inlined_fn) (names : gmap string string) (buf : buffer) : gmap string string * buffer :=
  match fns with
  | [] => (names, buf)
  | f :: fns' =>
      if room_left buf then
        let '(l, names) := blaze_location elf_addr mi (in_name f) (in_code f) names in
        write_inlined elf_addr mi fns' names (buf ++ [l])
      else (names, buf)
  end.

Definition write_location_blaze (elf_addr : Z) (names : gmap string string) (mi : MapInfo) (sym : blaze_sym) (buf : buffer) : DDRes * gmap string string * buffer :=
  if negb (room_left buf) then (ddres_warn (what_of "UW_MAX_DEPTH"), names, buf)
  else
    let '(names, buf) := write_inlined elf_addr mi (rev (bs_inlined sym)) names buf in
    if negb (room_left buf) then (ddres_warn (what_of "UW_MAX_DEPTH"), names, buf)
    else
      let '(l, names) := blaze_location elf_addr mi (bs_name sym) (bs_code sym) names in
      (ddres_init, names, buf ++ [l]).

(** The loop over the symbols; a warning of [write_location_blaze] does not stop it. *)
Fixpoint write_syms (addrs : list Z) (syms : list blaze_sym) (mi : MapInfo) (names : gmap string string) (buf : buffer) : option (gmap string string * buffer) :=
  match addrs, syms with
  | a :: addrs', sym :: syms' =>
      if bs_addr sym =? 0 then let? buf := push buf (write_location_no_sym a mi) in write_syms addrs' syms' mi names buf
      else let '(_, names, buf) := write_location_blaze a names mi sym buf in write_syms addrs' syms' mi names buf
  | _, _ => Some (names, buf)
  end.

Fixpoint write_no_syms (addrs : list Z) (mi : MapInfo) (buf : buffer) : option buffer :=
  match addrs with
  | [] => Some buf
  | a :: addrs' => let? buf := push buf (write_location_no_sym a mi) in write_no_syms addrs' mi buf
  end.

(** The calls of blazesym: with debug symbols first, and without when this fails. *)
Definition blaze_calls (w : BlazeSymbolizerWrapper) (s : Symbolizer) (addrs : list Z) : option (list blaze_sym) * BlazeSymbolizerWrapper * Symbolizer :=
  let ask debug s := (blaze (sz_calls s) (inlined_functions s) (bw_elf_src w) debug addrs, count_call s) in
  let '(r, s) := ask (bw_use_debug w) s in
  match r with
  | None =>
      if bw_use_debug w then
        let '(r, s) := ask false s in
        (r, mkBW (bw_elf_src w) (bw_demangled_names w) (bw_visited w) false, s)
      else (None, w, s)
  | Some syms => (Some syms, w, s)
  end.

Definition symbolize_pprof (s : Symbolizer) (addrs : list Z) (file_id : Z) (elf_src : string) (mi : MapInfo) (buf : buffer) : option (DDRes * Symbolizer * buffer) :=
  if bool_decide (addrs = []) || bool_decide (elf_src = ""%string) then Some (ddres_warn (what_of "PPROF"), s, buf)
  else if disable_symbolization s then let? buf := write_no_syms addrs mi buf in Some (ddres_init, s, buf)
  else
    let '(w, s) := get_symbolizer s file_id elf_src in
    let '(r, w, s) := blaze_calls w s addrs in
    match r with
    | Some syms =>
        let? (names, buf) := write_syms addrs syms mi (bw_demangled_names w) buf in
        let w := mkBW (bw_elf_src w) names (bw_visited w) (bw_use_debug w) in
        Some (ddres_init, set_wrappers s (<[file_id := w]> (symbolizer_map s)), buf)
    | None =>
        let? buf := write_no_syms addrs mi buf in
        Some (ddres_init, set_wrappers s (<[file_id := w]> (symbolizer_map s)), buf)
    end.

(** ** The locations of a stack *)

Definition is_ld (path : string) : bool := String.prefix "ld-" path.

Definition s_expected_root_frames : list string :=
  [""; "clone"; "__clone"; "__clone3"; "_exit"; "gnome-shell"; "main"; "runtime.goexit.abi0"; "runtime.systemstack.abi0"; "_start"; "start_thread"; "start_task"]%string.

Definition is_stack_complete (locations : buffer) : bool :=
  match last locations with
  | None => false
  | Some root =>
      if is_ld (mp_filename (lc_mapping root)) then true else bool_decide (fn_name (lc_function root) ∈ s_expected_root_frames)
  end.

Definition adjust_locations (w : PprofWatcher) (locs : list FunLoc) : list FunLoc :=
  let skip := Z.to_nat (nb_frames_to_skip (pw_watcher w)) in
  if (skip <? length locs)%nat then drop skip locs
  else if (2 <=? length locs)%nat then drop (length locs - 1) locs
  else locs.

(** The inner loop: the addresses of the frames of the same file, up to the next frame that has a
    symbol, and the frames that are left. *)
Fixpoint collect (file_id : Z) (rest : list FunLoc) : list Z * list FunLoc :=
  match rest with
  | [] => ([], [])
  | l :: rest' =>
      if fl_file_info_id l =? file_id then
        match rest' with
        | [] => ([fl_elf_addr l], [])
        | l' :: _ =>
            if negb (fl_symbol_idx l' =? k_symbol_idx_null) then ([fl_elf_addr l], rest')
            else let '(addrs, remaining) := collect file_id rest' in (fl_elf_addr l :: addrs, remaining)
        end
      else ([], rest)
  end.

(** The outer loop; [rest]: the frames from the index on, so that two are left when the index is
    before the last.  The flag says whether a fatal error ended it. *)
Fixpoint symbolize_frames (fuel : nat) (h : SymbolHdr) (files : list FileInfoValue) (rest : list FunLoc) (s : Symbolizer) (buf : buffer) : option (bool * Symbolizer * buffer) :=
  match fuel with
  | O => None
  | S fuel' =>
      if (2 <=? length rest)%nat && room_left buf then
        match rest with
        | [] => None
        | l :: rest' =>
            if negb (fl_symbol_idx l =? k_symbol_idx_null) then
              let? mi := entry (mapinfo_table h) (fl_map_info_idx l) in
              let? sym := entry (symbol_table h) (fl_symbol_idx l) in
              let? buf := push buf (write_location_sym l mi sym) in
              symbolize_frames fuel' h files rest' s buf
            else if fl_file_info_id l <=? k_file_info_error then symbolize_frames fuel' h files rest' s buf
            else
              let? file := entry files (fl_file_info_id l) in
              let? mi := entry (mapinfo_table h) (fl_map_info_idx l) in
              let '(addrs, remaining) := collect (fl_file_info_id l) rest in
              let? (res, s, buf) := symbolize_pprof s addrs (fl_file_info_id l) (fi_path (fiv_info file)) mi buf in
              if IsDDResNotOK res then Some (IsDDResFatal res, s, buf) else symbolize_frames fuel' h files remaining s buf
        end
      else Some (false, s, buf)
  end.

(** The location of a frame that has a symbol. *)
Definition symbol_location (h : SymbolHdr) (l : FunLoc) : option Location :=
  let? mi := entry (mapinfo_table h) (fl_map_info_idx l) in
  let? sym := entry (symbol_table h) (fl_symbol_idx l) in
  Some (write_location_sym l mi sym).

Definition incomplete_location : option Location :=
  let? name := k_common_frame_names !! error_number incomplete_stack in Some (write_location 0 name "" 0 empty_MapInfo).

(** The incomplete frame, when the stack does not end where stacks begin. *)
Definition add_incomplete (buf : buffer) : option buffer :=
  if (length buf <? max_depth - 1)%nat && (1 <=? length buf)%nat && negb (is_stack_complete buf) then let? l := incomplete_location in push buf l
  else Some buf.

(** The last frame, the one of the executable. *)
Definition add_binary (h : SymbolHdr) (f : FunLoc) (buf : buffer) : option buffer :=
  if room_left buf && negb (fl_symbol_idx f =? k_symbol_idx_null) then let? l := symbol_location h f in push buf l else Some buf.

(** An empty stack is read out of its bounds. *)
Definition process_symbolization (h : SymbolHdr) (files : list FileInfoValue) (locs : list FunLoc) (s : Symbolizer) : option (DDRes * Symbolizer * buffer) :=
  let? f := last locs in
  let? (fatal, s, buf) := symbolize_frames (S (length locs)) h files locs s [] in
  if fatal : bool then Some (ddres_error (what_of "SYMBOLIZER"), s, buf)
  else
    let? buf := add_incomplete buf in
    let? buf := add_binary h f buf in
    Some (ddres_init, s, buf).

(** ** Labels *)

Definition k_max_pprof_labels : nat := 8.

Definition pid_str (pid : Z) (pid_strs : gmap Z string) : string * gmap Z string :=
  match pid_strs !! pid with
  | Some str => (str, pid_strs)
  | None => (pretty pid, <[pid := pretty pid]> pid_strs)
  end.

Definition label_if (b : bool) (key str : string) : list (string * string) := if b then [(key, str)] else [].
Definition nonempty (str : string) : bool := bool_decide (str <> ""%string).

Definition prepare_labels (uo : UnwindOutput) (w : PprofWatcher) (pid_strs : gmap Z string) : list (string * string) * gmap Z string :=
  let with_pid := negb (suppress_pid w) || negb (suppress_tid w) in
  let '(pid, pid_strs) := if with_pid then pid_str (uo_pid uo) pid_strs else (""%string, pid_strs) in
  let '(tid, pid_strs) := if negb (suppress_tid w) then pid_str (uo_tid uo) pid_strs else (""%string, pid_strs) in
  (label_if (nonempty (container_id uo)) "container_id" (container_id uo) ++
   label_if with_pid "process_id" pid ++
   label_if (negb (suppress_tid w)) "thread id" tid ++
   label_if (watcher_has_tracepoint w) "tracepoint_type" (if nonempty (tracepoint_label w) then tracepoint_label w else tracepoint_event w) ++
   label_if (nonempty (exe_name uo)) "process_name" (exe_name uo) ++
   label_if (nonempty (thread_name uo)) "thread_name" (thread_name uo), pid_strs).

(** ** The profile *)

Record Sample := mkSample { sp_locations : list Location; sp_values : list Z; sp_labels : list (string * string); sp_timestamp : Z }.

(** libdatadog's profile: the sample types and the samples added since the last reset. *)
Record Profile := mkProfile { pf_types : list SampleType; pf_period : option (SampleType * Z); pf_samples : list Sample }.
Definition empty_Profile : Profile := mkProfile [] None [].

Record DDProfPProf := mkPP { pp_profile : Profile; pp_nb_values : nat; pp_tags : list (string * string); pp_pid_str : gmap Z string }.

Record DDProfValuePack := mkPack { pk_value : Z; pk_count : Z; pk_timestamp : Z }.

(** [values[i] = v] in an array of [k_max_value_types] elements. *)
Definition set_value (values : list Z) (i v : Z) : option (list Z) :=
  if (0 <=? i) && (i <? Z.of_nat k_max_value_types) then Some (<[Z.to_nat i := v]> values) else None.

Definition pack_values (pi : PProfIndices) (pack : DDProfValuePack) : option (list Z) :=
  let? values := set_value (replicate k_max_value_types 0) (pprof_index pi) (pk_value pack) in
  if pprof_count_index pi =? -1 then Some values else set_value values (pprof_count_index pi) (i64 (pk_count pack)).

(** [added]: the result of [ddog_prof_Profile_add]. *)
Definition pprof_aggregate (uo : UnwindOutput) (h : SymbolHdr) (pack : DDProfValuePack) (w : PprofWatcher) (files : list FileInfoValue)
    (value_pos : nat) (s : Symbolizer) (pp : DDProfPProf) (added : bool) : option (DDRes * Symbolizer * DDProfPProf) :=
  let? pi := pprof_indices w !! value_pos in
  let? values := pack_values pi pack in
  let? (res, s, buf) := process_symbolization h files (adjust_locations w (locs uo)) s in
  if IsDDResFatal res then Some (res, s, pp)
  else
    let '(labels, pid_strs) := prepare_labels uo w (pp_pid_str pp) in
    let sample := mkSample buf (take (pp_nb_values pp) values) labels (pk_timestamp pack) in
    let p := pp_profile pp in
    if added then
      Some (ddres_init, s, mkPP (mkProfile (pf_types p) (pf_period p) (pf_samples p ++ [sample])) (pp_nb_values pp) (pp_tags pp) pid_strs)
    else Some (ddres_error (what_of "PPROF"), s, mkPP p (pp_nb_values pp) (pp_tags pp) pid_strs).
End Blaze.

Definition pprof_reset (pp : DDProfPProf) (ok : bool) : DDRes * DDProfPProf :=
  if ok then (ddres_init, mkPP (mkProfile (pf_types (pp_profile pp)) (pf_period (pp_profile pp)) []) (pp_nb_values pp) (pp_tags pp) ∅)
  else (ddres_error (what_of "PPROF"), pp).

Definition pprof_free_profile (pp : DDProfPProf) : DDRes * DDProfPProf := (ddres_init, mkPP empty_Profile 0 (pp_tags pp) (pp_pid_str pp)).

(** The period of the profile: the one of the first watcher that has a value; a frequency of 0 is
    a division by zero. *)
Definition profile_period (w : PprofWatcher) : option Z :=
  let p := sample_period (pw_watcher w) in
  if is_freq (pw_watcher w) then if p =? 0 then None else Some (10 ^ 9 ÷ p) else Some p.

Definition default_index (w : PprofWatcher) : Z :=
  default (-1) (List.find (fun i => negb (i =? -1)) (map pprof_index (pprof_indices w))).

Definition profile_tags (include_kernel remote_symbolization : bool) : list (string * string) :=
  [("include_kernel", if include_kernel then "true" else "false"); ("ddprof.custom_ctx", "container_id")]%string ++
  label_if remote_symbolization "remote_symbols" "yes" ++ [("cpu_arch", "amd64")]%string.

(** [created]: the result of [ddog_prof_Profile_new]. *)
Definition pprof_create_profile (pp : DDProfPProf) (watchers : list PprofWatcher) (include_kernel remote_symbolization created : bool) :
    option (DDRes * list PprofWatcher * DDProfPProf) :=
  let? (ws, types) := assign_slots watchers [] in
  let failed := Some (ddres_error (what_of "PPROF"), ws, mkPP (pp_profile pp) (length types) (pp_tags pp) (pp_pid_str pp)) in
  let finish period :=
    if negb created then failed
    else
      Some (ddres_init, ws,
        mkPP (mkProfile types period []) (length types)
          (pp_tags pp ++ profile_tags include_kernel remote_symbolization) (pp_pid_str pp)) in
  if (0 <? length types)%nat then
    match List.find (fun w => is_pprof_active (sample_type_info w)) ws with
    | None => failed
    | Some w =>
        let? period := profile_period w in
        if default_index w =? -1 then failed else let? t := entry types (default_index w) in finish (Some (t, period))
    end
  else finish None.
