(* ===== verification/PprofProofs.v ===== *)
(** * The samples of the profile

    Theorems about [Pprof]: the slots of the values, and the locations of an aggregated stack. *)

From stdpp Require Import pretty.
From S2P Require Import Prelude Ddres LiveAlloc Watcher Dso DsoHdr Symbols RuntimeSymbols Unwind Demangler Pprof.

(** ** Slots *)

Definition all_types : list SampleType := [TySample; TyTracepoint; TyCpuTime; TyCpuSamples; TyAllocSpace; TyAllocSamples; TyInuseSpace; TyInuseObjects].

Lemma types_bound (types : list SampleType) : NoDup types -> (length types <= 8)%nat.
Proof.
  intros Hn. change 8%nat with (length all_types). apply submseteq_length, NoDup_submseteq; [done|].
  intros t _. apply (bool_decide_unpack _). by destruct t.
Qed.

(** The type at a slot, or no slot. *)
Definition slot_of (types : list SampleType) (o : option SampleType) (i : Z) : Prop :=
  match o with Some t => entry types i = Some t | None => i = -1 end.

Lemma slot_of_prefix types types' o i : types `prefix_of` types' -> slot_of types o i -> slot_of types' o i.
Proof. intros [k ->]. destruct o; [|done]. apply entry_app. Qed.

Lemma ensure_spec types t : NoDup types -> exists i types', ensure types t = Some (i, types') /\ NoDup types' /\ types `prefix_of` types' /\ slot_of types' (Some t) i.
Proof.
  intros Hn. pose proof (types_bound types Hn) as Hb. unfold ensure, k_max_value_types. set (p := fun u => bool_decide (u = t)).
  destruct (Nat.ltb_spec (find_index p types) (length types)) as [Hl|Hl].
  - destruct (find_index_lt_lookup p types Hl) as (x & Hx & ->%bool_decide_eq_true). do 2 eexists. split; [done|]. split; [done|]. split; [done|].
    cbn. unfold entry. rewrite Nat2Z.id. by destruct (Z.ltb_spec (Z.of_nat (find_index p types)) 0); [lia|].
  - destruct (Nat.ltb_spec (length types) 16); [|lia]. do 2 eexists. split; [done|]. split; [|split; [by exists [t]|]].
    + apply NoDup_app. split; [done|]. split; [|apply NoDup_singleton]. intros x [i Hi]%list_elem_of_lookup ->%list_elem_of_singleton.
      pose proof (lookup_lt_Some _ _ _ Hi). assert (E : p t = false) by (apply (find_index_before p types i); [lia|done]). unfold p in E. by apply bool_decide_eq_false in E.
    + cbn. unfold entry. destruct (Z.ltb_spec (Z.of_nat (length types)) 0); [lia|]. by rewrite Nat2Z.id, lookup_app_r, Nat.sub_diag by done.
Qed.

(** The types that a mode of a watcher reports. *)
Definition mode_active (w : PprofWatcher) (m : nat) : bool :=
  is_pprof_active (sample_type_info w) && Any (Z.land (aggregation_mode (pw_watcher w)) (Z.shiftl 1 (Z.of_nat m))).
Definition mode_type (w : PprofWatcher) (m : nat) : option SampleType :=
  if mode_active w m then mjoin (sample_types (sample_type_info w) !! m) else None.
Definition mode_count (w : PprofWatcher) (m : nat) : option SampleType :=
  if bool_decide (mode_type w m = None) then None else mjoin (count_types (sample_type_info w) !! m).

Definition mode_ok (types : list SampleType) (w : PprofWatcher) (m : nat) (pi : PProfIndices) : Prop :=
  slot_of types (mode_type w m) (pprof_index pi) /\ slot_of types (mode_count w m) (pprof_count_index pi).

Definition indices_ok (types : list SampleType) (w w' : PprofWatcher) : Prop :=
  exists sum live, w' = set_indices w [sum; live] /\ mode_ok types w 0 sum /\ mode_ok types w 1 live.

Lemma mode_ok_prefix types types' w m pi : types `prefix_of` types' -> mode_ok types w m pi -> mode_ok types' w m pi.
Proof. intros Hp [H1 H2]. split; by eapply slot_of_prefix. Qed.

Lemma mode_slots_spec w m types : NoDup types -> is_pprof_active (sample_type_info w) = true ->
  exists pi types', mode_slots w m types = Some (pi, types') /\ NoDup types' /\ types `prefix_of` types' /\ mode_ok types' w m pi.
Proof.
  intros Hn Ha. unfold mode_slots, mode_ok, mode_count, mode_type, mode_active. rewrite Ha. cbn [andb].
  destruct (Any _); cbn [negb]; [|by exists no_indices, types].
  destruct (mjoin (sample_types _ !! m)) as [t|]; [|by exists no_indices, types].
  destruct (ensure_spec types t Hn) as (i & types1 & -> & Hn1 & Hp1 & Hi). rewrite bool_decide_false by done.
  destruct (mjoin (count_types _ !! m)) as [c|]; [|by exists (mkPI i (-1)), types1].
  destruct (ensure_spec types1 c Hn1) as (j & types2 & -> & Hn2 & Hp2 & Hj). exists (mkPI i j), types2.
  split; [done|]. split; [done|]. split; [by etrans|]. split; [|done]. by eapply slot_of_prefix.
Qed.

Lemma watcher_slots_spec w types : NoDup types ->
  exists w' types', watcher_slots w types = Some (w', types') /\ NoDup types' /\ types `prefix_of` types' /\ indices_ok types' w w'.
Proof.
  intros Hn. unfold watcher_slots. destruct (is_pprof_active (sample_type_info w)) eqn:Ha; cbn [negb].
  - destruct (mode_slots_spec w 0 types Hn Ha) as (s & t1 & -> & Hn1 & Hp1 & Hs). destruct (mode_slots_spec w 1 t1 Hn1 Ha) as (l & t2 & -> & Hn2 & Hp2 & Hl).
    do 2 eexists. split; [done|]. split; [done|]. split; [by etrans|]. exists s, l. split; [done|]. split; [by eapply mode_ok_prefix|done].
  - do 2 eexists. split; [done|]. split; [done|]. split; [done|]. exists no_indices, no_indices. split; [done|].
    unfold mode_ok, mode_count, mode_type, mode_active. by rewrite Ha.
Qed.

Lemma assign_slots_spec ws types : NoDup types ->
  exists ws' types', assign_slots ws types = Some (ws', types') /\ NoDup types' /\ types `prefix_of` types' /\ Forall2 (indices_ok types') ws ws'.
Proof.
  revert types. induction ws as [|w ws IH]; intros types Hn; [by exists [], types|]. cbn [assign_slots].
  destruct (watcher_slots_spec w types Hn) as (w' & t1 & -> & Hn1 & Hp1 & Hw). destruct (IH t1 Hn1) as (ws' & t2 & -> & Hn2 & Hp2 & Hws).
  do 2 eexists. split; [done|]. split; [done|]. split; [by etrans|]. constructor; [|done].
  destruct Hw as (s & l & -> & Hs & Hl). exists s, l. split; [done|]. split; by eapply mode_ok_prefix.
Qed.

(** A watcher that takes part in the profile reports a type, and has a frequency. *)
Definition reports (w : PprofWatcher) : Prop :=
  is_pprof_active (sample_type_info w) = true ->
  (mode_type w 0 <> None \/ mode_type w 1 <> None) /\ (is_freq (pw_watcher w) = true -> sample_period (pw_watcher w) <> 0).

Lemma default_index_entry types w w' : indices_ok types w w' -> mode_type w 0 <> None \/ mode_type w 1 <> None ->
  exists t, entry types (default_index w') = Some t /\ default_index w' <> -1.
Proof.
  intros (s & l & -> & [Hs _] & [Hl _]) Hm. unfold default_index. cbn [set_indices pprof_indices map List.find].
  assert (Hne : forall o i, slot_of types o i -> (negb (i =? -1) = true <-> o <> None)).
  { intros [t|] i Hi; cbn in Hi; [|by subst i]. apply entry_nonneg in Hi. destruct (Z.eqb_spec i (-1)); [lia|]. done. }
  destruct (negb (pprof_index s =? -1)) eqn:Es.
  - destruct (mode_type w 0) as [t|] eqn:Et; [|by apply (Hne _ _ Hs) in Es]. exists t. split; [done|]. cbn. by destruct (Z.eqb_spec (pprof_index s) (-1)).
  - destruct (mode_type w 0) as [t|] eqn:Et; [by rewrite (proj2 (Hne _ _ Hs)) in Es|]. destruct Hm as [|Hm]; [done|].
    pose proof (proj2 (Hne _ _ Hl) Hm) as El. rewrite El. destruct (mode_type w 1) as [t|]; [|done]. exists t. split; [done|]. cbn. by destruct (Z.eqb_spec (pprof_index l) (-1)).
Qed.

Lemma find_active ws ws' types w' : Forall2 (indices_ok types) ws ws' -> List.find (fun w => is_pprof_active (sample_type_info w)) ws' = Some w' ->
  exists w, w ∈ ws /\ indices_ok types w w' /\ is_pprof_active (sample_type_info w) = true.
Proof.
  intros Hws. induction Hws as [|w x ws ws' Hw _ IH]; [done|]. cbn [List.find]. destruct (is_pprof_active (sample_type_info x)) eqn:E; intros H.
  - injection H as <-. exists w. split; [apply list_elem_of_here|]. split; [done|]. destruct Hw as (s & l & -> & _). exact E.
  - destruct (IH H) as (v & Hv & Hr). exists v. split; [by apply list_elem_of_further|done].
Qed.

Lemma find_active_none ws ws' types : Forall2 (indices_ok types) ws ws' -> List.find (fun w => is_pprof_active (sample_type_info w)) ws' = None ->
  forall w, w ∈ ws -> is_pprof_active (sample_type_info w) = false.
Proof.
  intros Hws. induction Hws as [|w x ws ws' Hw _ IH]; intros H v Hv; [by apply not_elem_of_nil in Hv|]. cbn [List.find] in H.
  destruct (is_pprof_active (sample_type_info x)) eqn:E; [done|]. apply elem_of_cons in Hv as [->|Hv]; [|by apply IH]. destruct Hw as (s & l & -> & _). exact E.
Qed.

Lemma slots_need_active ws ws' types : (forall w, w ∈ ws -> is_pprof_active (sample_type_info w) = false) -> assign_slots ws [] = Some (ws', types) -> types = [].
Proof.
  revert ws'. induction ws as [|w ws IH]; intros ws' Ha; cbn [assign_slots]; [by intros [= <- <-]|].
  unfold watcher_slots. rewrite (Ha w (list_elem_of_here _ _)). cbn [negb]. destruct (assign_slots ws []) as [[ws1 t1]|]; [|done].
  intros [= <- <-]. by apply (IH ws1); [intros v Hv; apply Ha, list_elem_of_further|].
Qed.

Lemma create_profile_ok pp ws k r : Forall reports ws ->
  exists ws' types period, pprof_create_profile pp ws k r true =
      Some (ddres_init, ws', mkPP (mkProfile types period []) (length types) (pp_tags pp ++ profile_tags k r) (pp_pid_str pp)) /\
    NoDup types /\ Forall2 (indices_ok types) ws ws'.
Proof.
  intros Hr. unfold pprof_create_profile. destruct (assign_slots_spec ws [] (NoDup_nil_2)) as (ws' & types & E & Hn & _ & Hws). rewrite E. exists ws', types. cbn [negb].
  destruct (Nat.ltb_spec 0 (length types)) as [Hl|Hl]; [|by exists None].
  destruct (List.find _ ws') as [w'|] eqn:Ef.
  - destruct (find_active _ _ _ _ Hws Ef) as (w & Hw & Hi & Ha). rewrite Forall_forall in Hr. destruct (Hr w Hw Ha) as [Hm Hf].
    destruct (default_index_entry types w w' Hi Hm) as (t & Et & Hd). destruct Hi as (s & l & -> & _ & _). unfold profile_period. cbn [set_indices pw_watcher].
    assert (Hp : exists p, (if is_freq (pw_watcher w) then if sample_period (pw_watcher w) =? 0 then None else Some (10 ^ 9 ÷ sample_period (pw_watcher w)) else Some (sample_period (pw_watcher w))) = Some p).
    { destruct (is_freq _) eqn:Eq; [|by eexists]. destruct (Z.eqb_spec (sample_period (pw_watcher w)) 0) as [E0|]; [by specialize (Hf eq_refl)|by eexists]. }
    destruct Hp as [p ->]. destruct (Z.eqb_spec (default_index (set_indices w [s; l])) (-1)); [done|]. rewrite Et. by eexists.
  - apply (slots_need_active ws ws' types) in E; [subst types; cbn in Hl; lia|]. by eapply find_active_none.
Qed.

(** The value of a slot of a sample. *)
Definition slot_value (t : SampleType) (c : option SampleType) (pack : DDProfValuePack) (u : SampleType) : Z :=
  if decide (u = t) then pk_value pack else if decide (c = Some u) then i64 (pk_count pack) else 0.

(** The slot of a type is its own. *)
Lemma set_value_spec types values i t v : NoDup types -> slot_of types (Some t) i -> length values = k_max_value_types ->
  exists values', set_value values i v = Some values' /\ length values' = k_max_value_types /\
    forall k u, types !! k = Some u -> values' !! k = if decide (u = t) then Some v else values !! k.
Proof.
  intros Hn Hi Hlen. pose proof (types_bound types Hn) as Hb. cbn [slot_of] in Hi. pose proof (entry_nonneg _ _ _ Hi) as H0. pose proof (entry_lt _ _ _ Hi) as H1.
  unfold set_value, k_max_value_types in *. destruct ((0 <=? i) && (i <? Z.of_nat 16)) eqn:Eb; [|apply andb_false_iff in Eb as [?%Z.leb_gt|?%Z.ltb_ge]; lia].
  assert (Li : types !! Z.to_nat i = Some t) by (unfold entry in Hi; destruct (Z.ltb_spec i 0); [lia|done]).
  eexists. split; [done|]. split; [by rewrite length_insert|]. intros k u Hu. destruct (decide (k = Z.to_nat i)) as [->|Hk].
  - rewrite list_lookup_insert_eq by lia. rewrite Li in Hu. injection Hu as <-. by rewrite decide_True.
  - rewrite list_lookup_insert_ne by done. rewrite decide_False; [done|]. intros ->. by apply Hk, (NoDup_lookup types _ _ t).
Qed.

Lemma pack_values_spec types pi t c pack : NoDup types -> slot_of types (Some t) (pprof_index pi) -> slot_of types c (pprof_count_index pi) -> c <> Some t ->
  exists values, pack_values pi pack = Some values /\ take (length types) values = map (slot_value t c pack) types.
Proof.
  intros Hn Hi Hj Hc. pose proof (types_bound types Hn) as Hb. unfold pack_values.
  destruct (set_value_spec types (replicate k_max_value_types 0) (pprof_index pi) t (pk_value pack) Hn Hi (length_replicate _ _)) as (v1 & -> & Hl1 & Hv1).
  assert (Hv : exists v2, (if pprof_count_index pi =? -1 then Some v1 else set_value v1 (pprof_count_index pi) (i64 (pk_count pack))) = Some v2 /\
    length v2 = k_max_value_types /\ forall k u, types !! k = Some u -> v2 !! k = Some (slot_value t c pack u)).
  { unfold slot_value. destruct c as [c|].
    - cbn [slot_of] in Hj. pose proof (entry_nonneg _ _ _ Hj) as H0. destruct (Z.eqb_spec (pprof_count_index pi) (-1)); [lia|].
      destruct (set_value_spec types v1 (pprof_count_index pi) c (i64 (pk_count pack)) Hn Hj Hl1) as (v2 & -> & Hl2 & Hv2). exists v2. split; [done|]. split; [done|].
      intros k u Hu. rewrite (Hv2 k u Hu), (Hv1 k u Hu). pose proof (lookup_lt_Some _ _ _ Hu). destruct (decide (u = c)) as [->|].
      + rewrite decide_False by congruence. by rewrite decide_True.
      + rewrite (decide_False (P := Some c = Some u)) by congruence. destruct (decide (u = t)); [done|]. apply lookup_replicate_2. unfold k_max_value_types. lia.
    - cbn [slot_of] in Hj. rewrite Hj. exists v1. split; [done|]. split; [done|]. intros k u Hu. rewrite (Hv1 k u Hu). pose proof (lookup_lt_Some _ _ _ Hu).
      rewrite (decide_False (P := None = Some u)) by done. destruct (decide (u = t)); [done|]. apply lookup_replicate_2. unfold k_max_value_types. lia. }
  destruct Hv as (v2 & -> & Hl2 & Hv2). exists v2. split; [done|]. apply list_eq. intros k. rewrite list_lookup_fmap.
  destruct (types !! k) as [u|] eqn:Hu.
  - rewrite lookup_take_lt by (by eapply lookup_lt_Some). by apply Hv2.
  - apply lookup_ge_None in Hu. apply lookup_ge_None_2. rewrite length_take. lia.
Qed.

(** ** Labels *)

Definition pids_ok (m : gmap Z string) : Prop := forall p str, m !! p = Some str -> str = pretty p.

Lemma pid_str_spec p m : pids_ok m -> fst (pid_str p m) = pretty p /\ pids_ok (snd (pid_str p m)).
Proof.
  intros Hm. unfold pid_str. destruct (m !! p) as [str|] eqn:E; cbn [fst snd]; [by rewrite (Hm _ _ E)|].
  split; [done|]. intros q str. rewrite lookup_insert_Some. intros [[<- <-]|[_ H]]; [done|by apply Hm].
Qed.

(** The labels of a sample. *)
Definition labels_of (uo : UnwindOutput) (w : PprofWatcher) : list (string * string) :=
  label_if (nonempty (container_id uo)) "container_id" (container_id uo) ++
  label_if (negb (suppress_pid w) || negb (suppress_tid w)) "process_id" (pretty (uo_pid uo)) ++
  label_if (negb (suppress_tid w)) "thread id" (pretty (uo_tid uo)) ++
  label_if (watcher_has_tracepoint w) "tracepoint_type" (if nonempty (tracepoint_label w) then tracepoint_label w else tracepoint_event w) ++
  label_if (nonempty (exe_name uo)) "process_name" (exe_name uo) ++
  label_if (nonempty (thread_name uo)) "thread_name" (thread_name uo).

Lemma prepare_labels_spec uo w m : pids_ok m -> fst (prepare_labels uo w m) = labels_of uo w /\ pids_ok (snd (prepare_labels uo w m)).
Proof.
  intros Hm. unfold prepare_labels, labels_of. pose proof (pid_str_spec (uo_pid uo) m Hm) as [Hp Hm1].
  destruct (pid_str (uo_pid uo) m) as [p m1]. cbn [fst snd] in Hp, Hm1. subst p.
  pose proof (pid_str_spec (uo_tid uo) m Hm) as [Ht Hm2]. pose proof (pid_str_spec (uo_tid uo) m1 Hm1) as [Ht' Hm3].
  destruct (suppress_pid w), (suppress_tid w); cbn [negb orb]; try by split.
  all: destruct (pid_str (uo_tid uo) m1) as [t m2]; cbn [fst snd] in *; by subst t.
Qed.

Lemma label_if_length b k v : (length (label_if b k v) <= 1)%nat.
Proof. by destruct b; cbn; lia. Qed.

(** The buffer of the labels is large enough. *)
Lemma labels_fit uo w : (length (labels_of uo w) <= k_max_pprof_labels)%nat.
Proof.
  unfold labels_of, k_max_pprof_labels. rewrite !length_app.
  repeat match goal with |- context [length (label_if ?b ?k ?v)] => pose proof (label_if_length b k v); generalize dependent (length (label_if b k v)); intros end. lia.
Qed.

(** ** Locations *)

Section Locations.
Context (llvm_demangle : chars -> option chars) (blaze : nat -> bool -> string -> bool -> list Z -> option (list blaze_sym)).

(** blazesym answers with one symbol for each address, and gives inlined functions only to those
    who ask. *)
Record blaze_ok : Prop := {
  bl_length : forall n inl path dbg addrs syms, blaze n inl path dbg addrs = Some syms -> length syms = length addrs;
  bl_inlined : forall n path dbg addrs syms, blaze n false path dbg addrs = Some syms -> Forall (fun sym => bs_inlined sym = []) syms
}.
Context (Hblaze : blaze_ok).

(** A symbol that blazesym gave for an address. *)
Definition answers (a : Z) (sym : blaze_sym) : Prop :=
  exists n inl path dbg addrs syms i, blaze n inl path dbg addrs = Some syms /\ addrs !! i = Some a /\ syms !! i = Some sym.

Definition names_ok (names : gmap string string) : Prop := forall k v, names !! k = Some v -> v = demangled llvm_demangle k.

Record sz_inv (s : Symbolizer) : Prop := {
  sz_names : forall id w, symbolizer_map s !! id = Some w -> names_ok (bw_demangled_names w);
  sz_flat : inlined_functions s = false
}.

Definition shown_name (name : option string) : string := match name with Some n => demangled llvm_demangle n | None => "" end.

(** The location of an address that has no symbol in the tables. *)
Definition unnamed (mi : MapInfo) (a : Z) (l : Location) : Prop :=
  l = write_location_no_sym a mi \/
  exists sym, answers a sym /\ bs_addr sym <> 0 /\
    l = write_location a (shown_name (bs_name sym)) (default (mi_sopath mi) (ci_file (bs_code sym))) (ci_line (bs_code sym)) mi.

Lemma blaze_location_spec a mi name code names : names_ok names ->
  exists names', blaze_location llvm_demangle a mi name code names = (write_location a (shown_name name) (default (mi_sopath mi) (ci_file code)) (ci_line code) mi, names') /\ names_ok names'.
Proof.
  intros Hn. unfold blaze_location, name_or_empty, get_or_insert_demangled_sym. destruct name as [n|]; [|by exists names].
  destruct (names !! n) as [d|] eqn:E; [rewrite (Hn _ _ E); by exists names|].
  eexists. split; [done|]. intros k v. rewrite lookup_insert_Some. intros [[<- <-]|[_ H]]; [done|by apply Hn].
Qed.

Lemma push_ok buf l : (length buf < max_depth)%nat -> push buf l = Some (buf ++ [l]).
Proof. intros H. unfold push, room_left. by destruct (Nat.ltb_spec (length buf) max_depth); [|lia]. Qed.

Lemma write_no_syms_spec addrs mi buf : (length buf + length addrs <= max_depth)%nat ->
  exists ls, write_no_syms addrs mi buf = Some (buf ++ ls) /\ Forall2 (unnamed mi) addrs ls.
Proof.
  revert buf. induction addrs as [|a addrs IH]; intros buf Hl; [exists []; by rewrite app_nil_r|]. cbn [write_no_syms length] in *.
  rewrite push_ok by lia. destruct (IH (buf ++ [write_location_no_sym a mi])) as (ls & -> & Hls); [rewrite length_app; cbn [length]; lia|].
  exists (write_location_no_sym a mi :: ls). rewrite <- app_assoc. split; [done|]. constructor; [by left|done].
Qed.

Lemma write_syms_spec addrs syms mi names buf : names_ok names -> (length buf + length addrs <= max_depth)%nat -> length syms = length addrs ->
  Forall (fun sym => bs_inlined sym = []) syms -> (forall i a sym, addrs !! i = Some a -> syms !! i = Some sym -> answers a sym) ->
  exists names' ls, write_syms llvm_demangle addrs syms mi names buf = Some (names', buf ++ ls) /\ names_ok names' /\ Forall2 (unnamed mi) addrs ls.
Proof.
  revert syms names buf. induction addrs as [|a addrs IH]; intros [|sym syms] names buf Hn Hl Hlen Hinl Hans; try done.
  - exists names, []. by rewrite app_nil_r.
  - cbn [write_syms length] in *. apply Forall_cons in Hinl as [Hi Hinl].
    assert (Hcont : forall names' l, names_ok names' -> unnamed mi a l -> exists names'' ls, write_syms llvm_demangle addrs syms mi names' (buf ++ [l]) = Some (names'', buf ++ ls) /\ names_ok names'' /\ Forall2 (unnamed mi) (a :: addrs) ls).
    { intros names' l Hn' Hu. destruct (IH syms names' (buf ++ [l])) as (names2 & ls & -> & Hn2 & Hls); [done|rewrite length_app; cbn [length]; lia|lia|done|intros i; apply (Hans (S i))|].
      exists names2, (l :: ls). rewrite <- app_assoc. split; [done|]. split; [done|by constructor]. }
    destruct (Z.eqb_spec (bs_addr sym) 0) as [E0|E0].
    + rewrite push_ok by lia. apply Hcont; [done|by left].
    + unfold write_location_blaze, room_left. destruct (Nat.ltb_spec (length buf) max_depth); [|lia]. cbn [negb]. rewrite Hi. cbn [rev write_inlined].
      destruct (Nat.ltb_spec (length buf) max_depth); [|lia]. cbn [negb]. destruct (blaze_location_spec a mi (bs_name sym) (bs_code sym) names Hn) as (names' & -> & Hn').
      apply Hcont; [done|]. right. exists sym. split; [by apply (Hans 0%nat)|done].
Qed.

(** Every answer of blazesym is one for its addresses. *)
Lemma blaze_answers n inl path dbg addrs syms : blaze n inl path dbg addrs = Some syms ->
  forall i a sym, addrs !! i = Some a -> syms !! i = Some sym -> answers a sym.
Proof. intros H i a sym Ha Hs. by exists n, inl, path, dbg, addrs, syms, i. Qed.

(** What the calls give back. *)
Lemma blaze_calls_spec w s addrs : sz_inv s -> exists r w' s', blaze_calls blaze w s addrs = (r, w', s') /\
  symbolizer_map s' = symbolizer_map s /\ inlined_functions s' = false /\ bw_demangled_names w' = bw_demangled_names w /\
  match r with
  | Some syms => length syms = length addrs /\ Forall (fun sym => bs_inlined sym = []) syms /\ (forall i a sym, addrs !! i = Some a -> syms !! i = Some sym -> answers a sym)
  | None => True
  end.
Proof.
  intros [_ Hf]. unfold blaze_calls. cbn [count_call inlined_functions symbolizer_map sz_calls]. rewrite Hf.
  assert (Hr : forall n dbg syms, blaze n false (bw_elf_src w) dbg addrs = Some syms ->
    length syms = length addrs /\ Forall (fun sym => bs_inlined sym = []) syms /\ (forall i a sym, addrs !! i = Some a -> syms !! i = Some sym -> answers a sym)).
  { intros n dbg syms E. split; [by eapply bl_length|]. split; [by eapply bl_inlined|]. by eapply blaze_answers. }
  destruct (blaze (sz_calls s) false (bw_elf_src w) (bw_use_debug w) addrs) as [syms|] eqn:E1.
  - do 3 eexists. split; [done|]. repeat (split; [done|]). by eapply Hr.
  - destruct (bw_use_debug w); [|by do 3 eexists].
    destruct (blaze (S (sz_calls s)) false (bw_elf_src w) false addrs) as [syms|] eqn:E2; do 3 eexists; (split; [done|]); repeat (split; [done|]); [by eapply Hr|done].
Qed.

Lemma get_symbolizer_spec s id src : sz_inv s -> sz_inv (snd (get_symbolizer s id src)) /\ names_ok (bw_demangled_names (fst (get_symbolizer s id src))).
Proof.
  intros [Hn Hf]. unfold get_symbolizer. destruct (symbolizer_map s !! id) as [w|] eqn:E; cbn [fst snd]; [split; [by split|by eapply Hn]|].
  split; [|intros k v H; cbn [bw_demangled_names] in H; by rewrite lookup_empty in H]. split; [|done]. intros id' w'. cbn [set_wrappers symbolizer_map]. rewrite lookup_insert_Some. intros [[_ <-]|[_ H]]; [|by eapply Hn].
  intros k v H. cbn [bw_demangled_names] in H. by rewrite lookup_empty in H.
Qed.

Lemma store_wrapper_inv s (m : gmap Z BlazeSymbolizerWrapper) id w : (forall i x, m !! i = Some x -> names_ok (bw_demangled_names x)) -> inlined_functions s = false ->
  names_ok (bw_demangled_names w) -> sz_inv (set_wrappers s (<[id := w]> m)).
Proof.
  intros Hm Hf Hw. split; [|done]. intros i x. cbn [set_wrappers symbolizer_map]. rewrite lookup_insert_Some. intros [[_ <-]|[_ H]]; [done|by eapply Hm].
Qed.

Lemma symbolize_pprof_spec s addrs id src mi buf : sz_inv s -> addrs <> [] -> src <> ""%string -> (length buf + length addrs <= max_depth)%nat ->
  exists s' ls, symbolize_pprof llvm_demangle blaze s addrs id src mi buf = Some (ddres_init, s', buf ++ ls) /\ sz_inv s' /\ Forall2 (unnamed mi) addrs ls.
Proof.
  intros Hs Ha Hsrc Hl. unfold symbolize_pprof. rewrite !bool_decide_false by done. cbn [orb].
  destruct (write_no_syms_spec addrs mi buf Hl) as (ls0 & E0 & Hls0). destruct (disable_symbolization s); [rewrite E0; by exists s, ls0|].
  destruct (get_symbolizer_spec s id src Hs) as [Hs1 Hw]. destruct (get_symbolizer s id src) as [w s1]. cbn [fst snd] in *.
  destruct (blaze_calls_spec w s1 addrs Hs1) as (r & w' & s2 & -> & Em & Ef & En & Hr). destruct Hs1 as [Hn1 _].
  destruct r as [syms|].
  - destruct Hr as (Hlen & Hinl & Hans). rewrite En. destruct (write_syms_spec addrs syms mi (bw_demangled_names w) buf Hw Hl Hlen Hinl Hans) as (names' & ls & -> & Hn' & Hls).
    do 2 eexists. split; [done|]. split; [|done]. rewrite Em. by apply store_wrapper_inv.
  - rewrite E0. do 2 eexists. split; [done|]. split; [|done]. rewrite Em. apply store_wrapper_inv; [done|done|by rewrite En].
Qed.

(** ** Frames *)

Context (h : SymbolHdr) (files : list FileInfoValue).

(** A frame has a mapping, and a symbol or a file. *)
Definition symbolized (f : FunLoc) : Prop := fl_symbol_idx f <> k_symbol_idx_null.
Definition frame_ok (f : FunLoc) : Prop :=
  is_Some (entry (mapinfo_table h) (fl_map_info_idx f)) /\
  (symbolized f -> is_Some (entry (symbol_table h) (fl_symbol_idx f))) /\
  (~ symbolized f -> k_file_info_error < fl_file_info_id f /\ exists v, entry files (fl_file_info_id f) = Some v /\ fi_path (fiv_info v) <> ""%string).

(** The location of a frame: the one of its symbol, or what blazesym knows of its address, in the
    mapping of a frame [first] of the same file. *)
Definition shows (stack : list FunLoc) (f : FunLoc) (l : Location) : Prop :=
  (symbolized f /\ symbol_location h f = Some l) \/
  (~ symbolized f /\ exists first mi, first ∈ stack /\ fl_file_info_id first = fl_file_info_id f /\ entry (mapinfo_table h) (fl_map_info_idx first) = Some mi /\ unnamed mi (fl_elf_addr f) l).

Lemma collect_spec id l rest : fl_file_info_id l = id -> ~ symbolized l -> exists group remaining, collect id (l :: rest) = (map fl_elf_addr (l :: group), remaining) /\
  l :: rest = (l :: group) ++ remaining /\ Forall (fun f => ~ symbolized f /\ fl_file_info_id f = id) (l :: group).
Proof.
  revert l. induction rest as [|l' rest IH]; intros l Hid Hl; cbn [collect].
  - rewrite Hid, Z.eqb_refl. exists [], []. split; [done|]. split; [done|]. by constructor.
  - rewrite Hid, Z.eqb_refl. destruct (Z.eqb_spec (fl_symbol_idx l') k_symbol_idx_null) as [En|En]; cbn [negb].
    + destruct (decide (fl_file_info_id l' = id)) as [Hid'|Hid'].
      * destruct (IH l' Hid') as (g & r & Ec & Er & Hg); [unfold symbolized; by intros []|]. cbn [collect] in Ec. rewrite Ec. exists (l' :: g), r.
        split; [done|]. split; [by rewrite Er|]. by constructor.
      * destruct (Z.eqb_spec (fl_file_info_id l') id); [done|]. exists [], (l' :: rest). split; [done|]. split; [done|]. by constructor.
    + exists [], (l' :: rest). split; [done|]. split; [done|]. by constructor.
Qed.

(** The last frame is left when the frames before it are taken from the front. *)
Lemma split_last {A} (P : A -> Prop) (group remaining front : list A) f : Forall P group -> ~ P f -> group ++ remaining = front ++ [f] ->
  exists front', remaining = front' ++ [f] /\ front = group ++ front'.
Proof.
  intros Hg Hf E. destruct remaining as [|x r _] using rev_ind.
  - rewrite app_nil_r in E. subst group. apply Forall_app in Hg as [_ Hg]. destruct Hf. exact (Forall_inv Hg).
  - rewrite app_assoc in E. apply app_inj_tail in E as [<- ->]. by exists r.
Qed.

(** The locations of a group are those of its frames. *)
Lemma group_shows stack first mi group ls : first ∈ stack -> entry (mapinfo_table h) (fl_map_info_idx first) = Some mi ->
  Forall (fun f => ~ symbolized f /\ fl_file_info_id f = fl_file_info_id first) group -> Forall2 (unnamed mi) (map fl_elf_addr group) ls -> Forall2 (shows stack) group ls.
Proof.
  intros Hin Hmi. revert ls. induction group as [|f group IH]; intros ls Hg Hls; cbn [map] in Hls; [by apply Forall2_nil_inv_l in Hls as ->|].
  apply Forall2_cons_inv_l in Hls as (l & ls' & Hl & Hls & ->). apply Forall_cons in Hg as [[Hn Hid] Hg]. constructor; [|by apply IH].
  right. split; [done|]. by exists first, mi.
Qed.

Lemma symbolize_frames_spec stack f fuel front s buf : sz_inv s -> Forall frame_ok front -> symbolized f -> (length front < fuel)%nat ->
  (length buf + length front < max_depth)%nat -> Forall (.∈ stack) front ->
  exists s' ls, symbolize_frames llvm_demangle blaze fuel h files (front ++ [f]) s buf = Some (false, s', buf ++ ls) /\ sz_inv s' /\ Forall2 (shows stack) front ls.
Proof.
  intros Hs Hok Hf. revert front s buf Hs Hok. induction fuel as [|fuel IH]; intros front s buf Hs Hok Hfuel Hroom Hin; [lia|]. cbn [symbolize_frames].
  destruct front as [|l front]; cbn [app length].
  { cbn [Nat.leb andb]. exists s, []. by rewrite app_nil_r. }
  rewrite length_app. cbn [length] in *. replace ((2 <=? S (length front + 1))%nat) with true by (symmetry; apply Nat.leb_le; lia).
  unfold room_left at 1. replace (length buf <? max_depth)%nat with true by (symmetry; apply Nat.ltb_lt; lia). cbn [andb].
  apply Forall_cons in Hok as [(Hm & Hsym & Hfile) Hok]. pose proof Hin as Hin0. apply Forall_cons in Hin as [Hl Hin].
  destruct (Z.eqb_spec (fl_symbol_idx l) k_symbol_idx_null) as [En|En]; cbn [negb].
  - assert (Hn : ~ symbolized l) by (intros Hc; by apply Hc). destruct (Hfile Hn) as (Hid & v & Hv & Hpath). destruct (Z.leb_spec (fl_file_info_id l) k_file_info_error); [lia|].
    rewrite Hv. destruct Hm as [mi Hmi]. rewrite Hmi. change (l :: front ++ [f]) with ((l :: front) ++ [f]).
    destruct (collect_spec (fl_file_info_id l) l (front ++ [f]) eq_refl Hn) as (g & r & Ec & Er & Hg). cbn [app]. rewrite Ec.
    change (l :: front ++ [f]) with ((l :: front) ++ [f]) in Er. destruct (split_last _ (l :: g) r (l :: front) f Hg ltac:(tauto) (eq_sym Er)) as (front' & -> & Efront).
    assert (Hlen : length front = (length g + length front')%nat) by (injection Efront as ->; by rewrite length_app).
    destruct (symbolize_pprof_spec s (map fl_elf_addr (l :: g)) (fl_file_info_id l) (fi_path (fiv_info v)) mi buf Hs) as (s1 & ls1 & E1 & Hs1 & Hls1); [done|done|rewrite length_map; cbn [length]; lia|].
    rewrite E1. change (IsDDResNotOK ddres_init) with false. cbv iota.
    pose proof (Forall2_length _ _ _ Hls1) as Hlen1. rewrite length_map in Hlen1. cbn [length] in Hlen1. injection Efront as Efront. rewrite Efront in Hok, Hin. apply Forall_app in Hok as [_ Hok]. apply Forall_app in Hin as [Hing Hin].
    destruct (IH front' s1 (buf ++ ls1) Hs1 Hok) as (s2 & ls2 & E2 & Hs2 & Hls2); [lia|rewrite length_app; lia|done|]. rewrite E2. exists s2, (ls1 ++ ls2). rewrite app_assoc.
    split; [done|]. split; [done|]. rewrite Efront, app_comm_cons. apply Forall2_app; [|done].
    by eapply group_shows.
  - specialize (Hsym En). destruct Hm as [mi Hmi], Hsym as [sym Hsy]. rewrite Hmi, Hsy, push_ok by lia.
    destruct (IH front s (buf ++ [write_location_sym l mi sym]) Hs Hok) as (s2 & ls2 & E2 & Hs2 & Hls2); [lia|rewrite length_app; cbn [length]; lia|done|]. rewrite E2.
    exists s2, (write_location_sym l mi sym :: ls2). rewrite <- app_assoc. split; [done|]. split; [done|]. constructor; [|done].
    left. split; [done|]. unfold symbol_location. by rewrite Hmi, Hsy.
Qed.

(** What comes between the frames and the executable. *)
Definition incomplete_part (ls : list Location) : list Location :=
  if (length ls <? max_depth - 1)%nat && (1 <=? length ls)%nat && negb (is_stack_complete ls) then [write_location 0 "[incomplete]" "" 0 empty_MapInfo] else [].

Lemma process_symbolization_spec front f s : sz_inv s -> Forall frame_ok (front ++ [f]) -> symbolized f -> (length front < max_depth)%nat ->
  exists s' ls b, process_symbolization llvm_demangle blaze h files (front ++ [f]) s = Some (ddres_init, s', ls ++ incomplete_part ls ++ [b]) /\ sz_inv s' /\
    Forall2 (shows (front ++ [f])) front ls /\ symbol_location h f = Some b /\ (length (ls ++ incomplete_part ls ++ [b]) <= max_depth)%nat.
Proof.
  intros Hs [Hok (Hm & Hsym & _)%Forall_singleton]%Forall_app Hf Hlen. unfold process_symbolization. rewrite last_snoc.
  destruct (symbolize_frames_spec (front ++ [f]) f (S (length (front ++ [f]))) front s []) as (s' & ls & -> & Hs' & Hls); [done|done|done|rewrite length_app; lia|cbn; lia|apply Forall_forall; intros x Hx; apply elem_of_app; by left|].
  cbn [app]. pose proof (Forall2_length _ _ _ Hls) as Hl. destruct Hm as [mi Hmi], (Hsym Hf) as [sym Hsy].
  assert (Hb : symbol_location h f = Some (write_location_sym f mi sym)) by (unfold symbol_location; by rewrite Hmi, Hsy).
  assert (Hi : add_incomplete ls = Some (ls ++ incomplete_part ls) /\ (length (ls ++ incomplete_part ls) < max_depth)%nat).
  { unfold add_incomplete, incomplete_part. destruct (Nat.ltb_spec (length ls) (max_depth - 1)); cbn [andb]; [|rewrite app_nil_r; split; [done|lia]].
    destruct ((1 <=? length ls)%nat && negb (is_stack_complete ls)); [|rewrite app_nil_r; split; [done|lia]].
    change incomplete_location with (Some (write_location 0 "[incomplete]" "" 0 empty_MapInfo)). cbv iota beta. rewrite push_ok by lia. split; [done|]. rewrite length_app. cbn [length]. unfold max_depth in *. lia. }
  destruct Hi as [Hi Hi']. rewrite Hi. unfold add_binary, room_left. destruct (Nat.ltb_spec (length (ls ++ incomplete_part ls)) max_depth); [|lia].
  destruct (Z.eqb_spec (fl_symbol_idx f) k_symbol_idx_null); [done|]. cbn [negb andb]. rewrite Hb, push_ok by done.
  exists s', ls, (write_location_sym f mi sym). rewrite <- app_assoc. split; [done|]. split; [done|]. split; [done|]. split; [done|]. rewrite app_assoc, length_app. cbn [length]. lia.
Qed.
End Locations.

Lemma adjust_locations_spec w locs : locs <> [] ->
  adjust_locations w locs = drop (Nat.min (Z.to_nat (nb_frames_to_skip (pw_watcher w))) (length locs - 1)) locs.
Proof.
  intros Hne. unfold adjust_locations. destruct (Nat.ltb_spec (Z.to_nat (nb_frames_to_skip (pw_watcher w))) (length locs)); [by rewrite Nat.min_l by lia|].
  rewrite Nat.min_r by lia. destruct (Nat.leb_spec 2 (length locs)); [done|]. replace (length locs - 1)%nat with 0%nat by lia. done.
Qed.

(** ** The profile *)

(** A profile that was created for watchers. *)
Record profile_ok (ws ws' : list PprofWatcher) (pp : DDProfPProf) : Prop := {
  po_types : NoDup (pf_types (pp_profile pp));
  po_nb : pp_nb_values pp = length (pf_types (pp_profile pp));
  po_slots : Forall2 (indices_ok (pf_types (pp_profile pp))) ws ws';
  po_pids : pids_ok (pp_pid_str pp)
}.

(** for any watchers of which those that take part report a type, the profile is created
    without an error; each reported type has one slot; each watcher knows the slots of its types;
    and the profile stays so when it is reset. *)
Theorem profile_created pp ws k r : Forall reports ws -> pids_ok (pp_pid_str pp) ->
  exists ws' pp', pprof_create_profile pp ws k r true = Some (ddres_init, ws', pp') /\ profile_ok ws ws' pp' /\ pf_samples (pp_profile pp') = [] /\
    profile_ok ws ws' (snd (pprof_reset pp' true)).
Proof.
  intros Hr Hp. destruct (create_profile_ok pp ws k r Hr) as (ws' & types & period & -> & Hn & Hws). do 2 eexists. split; [done|].
  split; [by split|]. split; [done|]. split; done.
Qed.

Section Aggregate.
Context (llvm_demangle : chars -> option chars) (blaze : nat -> bool -> string -> bool -> list Z -> option (list blaze_sym)).

(** The frames of a sample that are reported. *)
Definition reported (w : PprofWatcher) (uo : UnwindOutput) : list FunLoc :=
  drop (Nat.min (Z.to_nat (nb_frames_to_skip (pw_watcher w))) (length (locs uo) - 1)) (locs uo).

(** C21: without inlined functions ([inlined_functions] is off, its default; with them a frame
    has several locations and the buffer of 512 can be left, [inlined_functions_overflow]), a stack of 1
    to 512 frames, of which the last has a symbol and each has a mapping and a symbol or a file
    with a path, is aggregated into the profile made for the watchers without an access out of
    bounds, for a value that the watcher reports ([mode_type]; a value without a slot would be
    written before the array) whose count is of another type, when the library takes the sample.
    The profile gets one more sample.  Its locations are those of the frames that are not
    skipped, one for each, in order, then the mark of an incomplete stack if it is one, then the
    executable.  Its values are the value and the count in the slots of the watcher's types, and
    0 in the others.  Its labels are those of the process and the thread.  blazesym gives one
    answer for each address. *)
Theorem aggregated_sample_exact ws ws' pp i w w' m t uo h files pack s :
  blaze_ok blaze -> profile_ok ws ws' pp -> ws !! i = Some w -> ws' !! i = Some w' -> (m < 2)%nat -> mode_type w m = Some t -> mode_count w m <> Some t ->
  (length (locs uo) <= max_depth)%nat -> Forall (frame_ok h files) (locs uo) -> (exists f, last (locs uo) = Some f /\ symbolized f) ->
  inlined_functions s = false -> (forall id sym, symbolizer_map s !! id = Some sym -> names_ok llvm_demangle (bw_demangled_names sym)) ->
  exists s' pp' ls b, pprof_aggregate llvm_demangle blaze uo h pack w' files m s pp true = Some (ddres_init, s', pp') /\ profile_ok ws ws' pp' /\ sz_inv llvm_demangle s' /\
    pf_samples (pp_profile pp') = pf_samples (pp_profile pp) ++
      [mkSample (ls ++ incomplete_part ls ++ [b]) (map (slot_value t (mode_count w m) pack) (pf_types (pp_profile pp))) (labels_of uo w) (pk_timestamp pack)] /\
    (exists front f, reported w uo = front ++ [f] /\ Forall2 (shows llvm_demangle blaze h (reported w uo)) front ls /\ symbol_location h f = Some b) /\
    (length (ls ++ incomplete_part ls ++ [b]) <= max_depth)%nat.
Proof.
  intros Hb [Hn Hnb Hslots Hpids] Hw Hw' Hm Ht Hc Hlen Hok (f & Hlast & Hf) Hflat Hnames. assert (Hs : sz_inv llvm_demangle s) by (by split).
  destruct (Forall2_lookup_lr _ _ _ _ _ _ Hslots Hw Hw') as (sum & live & -> & Hsum & Hlive).
  assert (Hpi : exists pi, [sum; live] !! m = Some pi /\ mode_ok (pf_types (pp_profile pp)) w m pi) by (destruct m as [|[|]]; [by exists sum|by exists live|lia]).
  destruct Hpi as (pi & Epi & [Hi Hj]). rewrite Ht in Hi. unfold pprof_aggregate. cbn [set_indices pprof_indices]. rewrite Epi.
  destruct (pack_values_spec _ pi t (mode_count w m) pack Hn Hi Hj Hc) as (values & -> & Hv).
  assert (Hne : locs uo <> []) by (intros E; by rewrite E in Hlast).
  rewrite (adjust_locations_spec (set_indices w [sum; live]) (locs uo) Hne). cbn [set_indices pw_watcher]. change (drop _ (locs uo)) with (reported w uo).
  assert (Hfront : exists front, reported w uo = front ++ [f]).
  { apply last_Some in Hlast as [l El]. unfold reported. rewrite El, length_app. cbn [length]. exists (drop (Nat.min (Z.to_nat (nb_frames_to_skip (pw_watcher w))) (length l)) l).
    rewrite Nat.add_sub. by rewrite drop_app_le by lia. }
  destruct Hfront as [front Efront].
  assert (Hokr : Forall (frame_ok h files) (reported w uo)) by (by apply Forall_drop). rewrite Efront in *.
  assert (Hlr : (length front < max_depth)%nat).
  { assert (E : length (reported w uo) = S (length front)) by (rewrite Efront, length_app; cbn [length]; lia). unfold reported in E. rewrite length_drop in E. lia. }
  destruct (process_symbolization_spec llvm_demangle blaze Hb h files front f s Hs Hokr Hf Hlr) as (s' & ls & b & -> & Hs' & Hls & Hbl & Hl).
  change (IsDDResFatal ddres_init) with false. cbv iota. destruct (prepare_labels_spec uo w (pp_pid_str pp) Hpids) as [El Hp].
  change (prepare_labels uo (set_indices w [sum; live]) (pp_pid_str pp)) with (prepare_labels uo w (pp_pid_str pp)).
  destruct (prepare_labels uo w (pp_pid_str pp)) as [labels pids]. cbn [fst snd] in El, Hp. subst labels.
  do 4 eexists. split; [done|]. split; [by split|]. split; [done|]. split; [cbn [pf_samples pp_profile]; by rewrite Hnb, Hv|]. split; [|done]. by exists front, f.
Qed.
End Aggregate.
