(* ===== verification/PprofDemo.v ===== *)
(** * The profile: examples

    A profile of CPU time and allocations, the witnesses of the theorems of [PprofProofs], and the
    behaviour of the code outside their hypotheses. *)

From stdpp Require Import pretty.
From S2P Require Import Prelude Ddres LiveAlloc Watcher Dso DsoHdr Symbols RuntimeSymbols Unwind Demangler Pprof PprofProofs.

(** ** Watchers *)

Definition event_watcher (name : string) (mode : Z) : PprofWatcher :=
  let w := default tracepoint_default_watcher (ewatcher_from_str name) in
  mkPW (mkWatcher (sample_type w) (config w) (sample_period w) (w_desc w) (ddprof_event_type w) (w_type w) (use_kernel w) (is_freq w) (nb_frames_to_skip w)
          (w_stack_sample_size w) (value_source w) mode (regno w) (raw_off w) (raw_sz w))
    (event_sample_types (ddprof_event_type w)) [no_indices; no_indices] "" "" false false.

Definition demo_watchers : list PprofWatcher := [event_watcher "sDUM" kSum; event_watcher "sCPU" kSum; event_watcher "sALLOC" kAll].

Definition new_pprof : DDProfPProf := mkPP empty_Profile 0 [] ∅.

Lemma demo_watchers_report : Forall reports demo_watchers.
Proof.
  apply Forall_cons. split; [done|]. apply Forall_cons. split; [|apply Forall_singleton]; intros _; (split; [by left|done]).
Qed.

Definition demo_types : list SampleType := [TyCpuTime; TyCpuSamples; TyAllocSpace; TyAllocSamples; TyInuseSpace; TyInuseObjects].

Lemma profile_created_witness :
  exists ws' pp', pprof_create_profile new_pprof demo_watchers true false true = Some (ddres_init, ws', pp') /\ profile_ok demo_watchers ws' pp' /\ pf_samples (pp_profile pp') = [] /\
    profile_ok demo_watchers ws' (snd (pprof_reset pp' true)).
Proof. apply profile_created; [exact demo_watchers_report|]. intros p str H. cbn in H. by rewrite lookup_empty in H. Defined.

(** The profile and the watchers of the example. *)
Definition demo_created : list PprofWatcher * DDProfPProf :=
  match pprof_create_profile new_pprof demo_watchers true false true with Some (_, ws, pp) => (ws, pp) | None => ([], new_pprof) end.

Example demo_profile_slots :
  map pprof_indices (fst demo_created) = [[no_indices; no_indices]; [mkPI 0 1; no_indices]; [mkPI 2 3; mkPI 4 5]] /\
  pf_types (pp_profile (snd demo_created)) = demo_types /\ pf_period (pp_profile (snd demo_created)) = Some (TyCpuTime, 10101010) /\
  map sample_type_name demo_types = ["cpu-time"; "cpu-samples"; "alloc-space"; "alloc-samples"; "inuse-space"; "inuse-objects"]%string.
Proof. vm_compute. done. Qed.

(** ** A sample *)

Definition demo_map : MapInfo := mkMapInfo 0x400000 0x500000 0 "prog" "".
Definition demo_hdr : SymbolHdr :=
  let h := init_SymbolHdr "" in
  mkSH (sh_syms h) (runtime_symbol_lookup h) [mkSymbol "" "prog" 0 "prog"; mkSymbol "" "[vdso]" 0 ""] (common_mapinfo_lookup h) (mapinfo_lookup h) [demo_map].
Definition demo_files : list FileInfoValue := [mkFIV (mkFI "" 0 0) 0; mkFIV (mkFI "/lib/libdd_profiling.so" 0 0) 1; mkFIV (mkFI "/bin/prog" 0 7) 2].

(** A frame of the vdso, two of the program, and the executable. *)
Definition demo_frames : list FunLoc :=
  [mkFunLoc 0x7fff0010 0x10 0 1 0; mkFunLoc 0x401000 0x1000 2 (-1) 0; mkFunLoc 0x402000 0x2000 2 (-1) 0; mkFunLoc 0 0 0 0 0].
Definition demo_output : UnwindOutput := mkUO demo_frames "" "prog" "worker" 42 43.

(** blazesym knows the second function of the program. *)
Definition demo_blaze (n : nat) (inl : bool) (path : string) (dbg : bool) (addrs : list Z) : option (list blaze_sym) :=
  Some (map (fun a => mkBS (Some "main"%string) (if a =? 0x2000 then 0x1ff0 else 0) (mkCI (Some "prog.c"%string) 12) []) addrs).
Definition no_llvm (c : chars) : option chars := None.

Definition demo_symbolizer : Symbolizer := mkSZ ∅ false false 0.
Definition demo_pack : DDProfValuePack := mkPack 10101010 1 0.

Lemma demo_blaze_ok : blaze_ok demo_blaze.
Proof.
  split; intros * [= <-]; [by rewrite length_map|]. apply Forall_forall. intros sym (a & -> & _)%list_elem_of_fmap. done.
Qed.

Lemma demo_profile_ok : profile_ok demo_watchers (fst demo_created) (snd demo_created).
Proof.
  destruct (create_profile_ok new_pprof demo_watchers true false demo_watchers_report) as (ws & types & period & E & Hn & Hws). unfold demo_created. rewrite E.
  by split.
Qed.

Lemma demo_frames_ok : Forall (frame_ok demo_hdr demo_files) demo_frames.
Proof.
  assert (Hsym : forall l, is_Some (entry (mapinfo_table demo_hdr) (fl_map_info_idx l)) -> is_Some (entry (symbol_table demo_hdr) (fl_symbol_idx l)) -> symbolized l -> frame_ok demo_hdr demo_files l) by (intros l; by split).
  assert (Hfile : forall l, is_Some (entry (mapinfo_table demo_hdr) (fl_map_info_idx l)) -> ~ symbolized l -> fl_file_info_id l = 2 -> frame_ok demo_hdr demo_files l).
  { intros l Hm Hn Hid. split; [done|]. split; [done|]. intros _. rewrite Hid. split; [unfold k_file_info_error; lia|]. by exists (mkFIV (mkFI "/bin/prog" 0 7) 2). }
  apply Forall_forall. intros l Hl. apply list_elem_of_In in Hl. cbn in Hl.
  destruct Hl as [<-|[<-|[<-|[<-|[]]]]]; first [apply Hsym; [by eexists|by eexists|done]|apply Hfile; [by eexists|by intros H; apply H|done]].
Qed.

Lemma demo_symbolizer_inv : sz_inv no_llvm demo_symbolizer.
Proof. split; [|done]. intros id w H. cbn in H. by rewrite lookup_empty in H. Qed.

Lemma aggregated_sample_exact_witness :
  exists s' pp' ls b, pprof_aggregate no_llvm demo_blaze demo_output demo_hdr demo_pack (nth 1 (fst demo_created) (event_watcher "sCPU" kSum)) demo_files 0 demo_symbolizer (snd demo_created) true =
      Some (ddres_init, s', pp') /\ profile_ok demo_watchers (fst demo_created) pp' /\ sz_inv no_llvm s' /\
    pf_samples (pp_profile pp') = pf_samples (pp_profile (snd demo_created)) ++
      [mkSample (ls ++ incomplete_part ls ++ [b]) (map (slot_value TyCpuTime (mode_count (event_watcher "sCPU" kSum) 0) demo_pack) (pf_types (pp_profile (snd demo_created))))
        (labels_of demo_output (event_watcher "sCPU" kSum)) (pk_timestamp demo_pack)] /\
    (exists front f, reported (event_watcher "sCPU" kSum) demo_output = front ++ [f] /\
       Forall2 (shows no_llvm demo_blaze demo_hdr (reported (event_watcher "sCPU" kSum) demo_output)) front ls /\ symbol_location demo_hdr f = Some b) /\
    (length (ls ++ incomplete_part ls ++ [b]) <= max_depth)%nat.
Proof.
  apply (aggregated_sample_exact no_llvm demo_blaze demo_watchers (fst demo_created) (snd demo_created) 1 (event_watcher "sCPU" kSum)
           (nth 1 (fst demo_created) (event_watcher "sCPU" kSum)) 0 TyCpuTime).
  - exact demo_blaze_ok.
  - exact demo_profile_ok.
  - reflexivity.
  - vm_compute. reflexivity.
  - lia.
  - vm_compute. reflexivity.
  - vm_compute. discriminate.
  - vm_compute. lia.
  - exact demo_frames_ok.
  - eexists. split; [reflexivity|]. vm_compute. discriminate.
  - reflexivity.
  - apply demo_symbolizer_inv.
Defined.

(** ** Outside the hypotheses *)

Definition one_map (b : MapInfo) (h : SymbolHdr) : SymbolHdr := mkSH (sh_syms h) (runtime_symbol_lookup h) (symbol_table h) (common_mapinfo_lookup h) (mapinfo_lookup h) (mapinfo_table h ++ [b]).

(** The sample of the example above. *)
Definition demo_sample (h : SymbolHdr) (frames : list FunLoc) (s : Symbolizer) : option (list Location) :=
  match process_symbolization no_llvm demo_blaze h demo_files frames s with Some (_, _, buf) => Some buf | None => None end.

(** The function that blazesym does not know has no name, for the backend to find, and its line
    was never written. *)
Example line_not_initialised :
  option_map (map (fun l => (lc_address l, fn_name (lc_function l), lc_line l))) (demo_sample demo_hdr demo_frames demo_symbolizer) =
  Some [(0x10, "[vdso]", Some 0); (0x1000, "", None); (0x2000, "main", Some 12); (0, "prog", Some 0)]%string.
Proof. vm_compute. reflexivity. Qed.

(** Consecutive frames of one file all get the mapping of the first, although the second is in
    another mapping of the file. *)
Definition second_map : MapInfo := mkMapInfo 0x600000 0x700000 0x100000 "prog" "".

Example mapping_of_first_frame :
  option_map (map (fun l => (lc_address l, mp_memory_start (lc_mapping l))))
    (demo_sample (one_map second_map demo_hdr) [mkFunLoc 0x401000 0x1000 2 (-1) 0; mkFunLoc 0x602000 0x102000 2 (-1) 1; mkFunLoc 0 0 0 0 0] demo_symbolizer) =
  Some [(0x1000, 0x400000); (0x102000, 0x400000); (0, 0x400000)].
Proof. vm_compute. reflexivity. Qed.

(** With inlined functions the buffer can be full before the end of the group: a function that is
    not known is then written past it. *)
Definition deep_blaze (n : nat) (inl : bool) (path : string) (dbg : bool) (addrs : list Z) : option (list blaze_sym) :=
  Some (map (fun a => if a =? 0x1000 then mkBS (Some "f"%string) 0xff0 (mkCI None 0) (replicate 511 (mkInl (Some "g"%string) (mkCI None 0))) else mkBS None 0 (mkCI None 0) []) addrs).

Example inlined_functions_overflow :
  process_symbolization no_llvm deep_blaze demo_hdr demo_files [mkFunLoc 0x401000 0x1000 2 (-1) 0; mkFunLoc 0x402000 0x2000 2 (-1) 0; mkFunLoc 0 0 0 0 0] (mkSZ ∅ true false 0) = None.
Proof. vm_compute. reflexivity. Qed.

(** A watcher that only reports live allocations has no slot for its sum; the lost events are
    aggregated there, before the array of the values. *)
Definition live_created : list PprofWatcher * DDProfPProf :=
  match pprof_create_profile new_pprof [event_watcher "sALLOC" kLiveSum] true false true with Some (_, ws, pp) => (ws, pp) | None => ([], new_pprof) end.

Example lost_events_of_live_watcher :
  map pprof_indices (fst live_created) = [[no_indices; mkPI 0 1]] /\
  forall uo h files s added, pprof_aggregate no_llvm demo_blaze uo h (mkPack 524288 1 0) (nth 0 (fst live_created) (event_watcher "sALLOC" kLiveSum)) files 0 s (snd live_created) added = None.
Proof. split; [vm_compute; reflexivity|]. intros uo h files s added. reflexivity. Qed.

(** A symbolizer that is used in every cycle is marked as visited only in the first: it is thrown
    away at the end of the second, with its cache. *)
Definition used (s : Symbolizer) : Symbolizer := snd (get_symbolizer s 2 "/bin/prog").

Example used_symbolizer_removed :
  let after_cycle s := reset_unvisited_flag (snd (remove_unvisited s)) in
  let s1 := after_cycle (used demo_symbolizer) in
  map fst (map_to_list (symbolizer_map s1)) = [2] /\ fst (remove_unvisited (used s1)) = 1 /\ map_to_list (symbolizer_map (after_cycle (used s1))) = [].
Proof. vm_compute. done. Qed.
