(* ===== verification/Pevent.v ===== *)
(** * Set-up and release of the perf events

    Model of [src/pevent_lib.cc], [src/ringbuffer_utils.cc] and of the mappings of [src/perf.cc]:
    which descriptors and pages the profiler holds while it opens, maps, enables and closes its
    events, whatever calls fail.  The kernel is the set of the open descriptors and the set of the
    mapped pages; it chooses new ones and decides which calls succeed. *)

From S2P Require Import Prelude Ddres RingBuffer Watcher.

Record kernel := mkK { k_fds : gset Z; k_pages : gset Z; k_calls : nat }.

(** What the kernel decides: the number of a call selects its outcome. *)
Record kernel_ops := mkOps {
  new_fd : gset Z -> Z;
  new_region : gset Z -> Z -> Z;      (* the first page of a free region of that many pages *)
  open_ok : nat -> bool; mmap_ok : nat -> bool; munmap_ok : nat -> bool; close_ok : nat -> bool; ioctl_ok : nat -> bool
}.

Definition count (k : kernel) : kernel := mkK (k_fds k) (k_pages k) (S (k_calls k)).
Definition region (first n : Z) : gset Z := dom (list_to_map (map (fun p => (p, tt)) (seqZ first n)) : gmap Z unit).

Section Kernel.
Context (ops : kernel_ops).

(** [perf_event_open], [memfd_create], [eventfd]: the descriptor, or -1. *)
Definition sys_open (k : kernel) : Z * kernel :=
  if open_ok ops (k_calls k) then (new_fd ops (k_fds k), mkK ({[new_fd ops (k_fds k)]} ∪ k_fds k) (k_pages k) (S (k_calls k))) else (-1, count k).

(** A descriptor that is not open cannot be closed. *)
Definition sys_close (fd : Z) (k : kernel) : bool * kernel :=
  if bool_decide (fd ∈ k_fds k) && close_ok ops (k_calls k) then (true, mkK (k_fds k ∖ {[fd]}) (k_pages k) (S (k_calls k))) else (false, count k).

Definition sys_mmap (n : Z) (k : kernel) : option Z * kernel :=
  if mmap_ok ops (k_calls k) then
    let first := new_region ops (k_pages k) n in
    (Some first, mkK (k_fds k) (region first n ∪ k_pages k) (S (k_calls k)))
  else (None, count k).

Definition sys_mmap_fixed (first n : Z) (k : kernel) : bool * kernel :=
  if mmap_ok ops (k_calls k) then (true, mkK (k_fds k) (region first n ∪ k_pages k) (S (k_calls k))) else (false, count k).

Definition sys_munmap (first n : Z) (k : kernel) : bool * kernel :=
  if munmap_ok ops (k_calls k) then (true, mkK (k_fds k) (k_pages k ∖ region first n) (S (k_calls k))) else (false, count k).

(** ** Mappings ([perf.cc]); sizes in pages, addresses in page numbers *)

Record PerfMmapRegion := mkRegion { rg_addr : option Z; rg_mirrored : bool }.
Definition no_region : PerfMmapRegion := mkRegion None false.

Definition single_mapping (size : Z) (k : kernel) : PerfMmapRegion * kernel :=
  let '(single, k) := sys_mmap size k in (mkRegion single false, k).

Definition perfown_sz (size_of_buffer : Z) (allow_single_mapping : bool) (k : kernel) : PerfMmapRegion * kernel :=
  let total_length := 2 * size_of_buffer - 1 in
  let '(reserved, k) := sys_mmap total_length k in
  match reserved with
  | Some reserved =>
      let '(first_map_ok, k) := sys_mmap_fixed (reserved + size_of_buffer - 1) size_of_buffer k in
      let '(second_map_ok, k) := if first_map_ok : bool then sys_mmap_fixed reserved size_of_buffer k else (false, k) in
      if second_map_ok : bool then (mkRegion (Some reserved) true, k)
      else
        let '(_, k) := sys_munmap reserved total_length k in
        if allow_single_mapping then single_mapping size_of_buffer k else (no_region, k)
  | None => if allow_single_mapping then single_mapping size_of_buffer k else (no_region, k)
  end.

Definition perfdisown (first size : Z) (mirrored : bool) (k : kernel) : bool * kernel :=
  if negb mirrored then sys_munmap first size k
  else
    let '(ok1, k) := sys_munmap (first + size - 1) size k in
    let '(ok2, k) := sys_munmap first size k in
    let '(ok3, k) := sys_munmap first (2 * size - 1) k in
    (ok1 && ok2 && ok3, k).

(** ** Events *)

Record PEvent := mkPE {
  pe_watcher_pos : Z; pe_fd : Z; pe_mapfd : Z; pe_attr_idx : Z; pe_size : Z; pe_type : RingBufferType; pe_custom : bool;
  pe_base : option Z; pe_mirrored : bool; pe_sub_fds : list Z
}.

(** The event that [pevent_create] gives to a watcher, as [pevent_init] left it. *)
Definition new_event (watcher_idx : Z) : PEvent := mkPE watcher_idx (-1) (-1) (-1) 0 kMPSCRingBuffer false None false [].

Definition set_base (e : PEvent) (base : option Z) (mirrored : bool) : PEvent :=
  mkPE (pe_watcher_pos e) (pe_fd e) (pe_mapfd e) (pe_attr_idx e) (pe_size e) (pe_type e) (pe_custom e) base mirrored (pe_sub_fds e).
Definition add_sub_fd (e : PEvent) (fd : Z) : PEvent :=
  mkPE (pe_watcher_pos e) (pe_fd e) (pe_mapfd e) (pe_attr_idx e) (pe_size e) (pe_type e) (pe_custom e) (pe_base e) (pe_mirrored e) (pe_sub_fds e ++ [fd]).

Definition k_max_nb_perf_event_open : nat := 450.
Definition kMaxTypeWatcher : nat := 10.

Record PEventHdr := mkHdr { ph_pes : list PEvent; ph_attrs : list perf_event_attr }.
Definition pevent_init : PEventHdr := mkHdr [] [].

Definition pevent_include_kernel_events (h : PEventHdr) : bool := existsb (fun a => negb (a_exclude_kernel a)) (ph_attrs h).

(** The size in pages of the ring of an event; [None]: no order is large enough. *)
Definition ring_pages (page_size min_order stack_sample_size : Z) : option Z :=
  let? order := pevent_compute_min_mmap_order page_size min_order stack_sample_size k_min_number_samples_per_ring_buffer in Some (2 ^ order + 1).

(** [pevent_set_info] *)
Definition pevent_set_info (page_size fd attr_idx stack_sample_size : Z) (e : PEvent) : option PEvent :=
  let? size := ring_pages page_size k_default_buffer_size_shift stack_sample_size in
  Some (mkPE (pe_watcher_pos e) fd fd attr_idx size kPerfRingBuffer false (pe_base e) (pe_mirrored e) (pe_sub_fds e)).

Definition pevent_mmap_event (e : PEvent) (k : kernel) : DDRes * PEvent * kernel :=
  if negb (pe_mapfd e =? -1) then
    let '(mapping, k) := perfown_sz (pe_size e) (match pe_type e with kPerfRingBuffer => true | _ => false end) k in
    match rg_addr mapping with
    | None => (ddres_error (what_of "PERFMMAP"), e, k)
    | Some addr => (ddres_init, set_base e (Some addr) (rg_mirrored mapping), k)
    end
  else (ddres_init, e, k).

Definition pevent_munmap_event (e : PEvent) (k : kernel) : DDRes * PEvent * kernel :=
  match pe_base e with
  | Some base =>
      let '(ok, k) := perfdisown base (pe_size e) (pe_mirrored e) k in
      if negb ok then (ddres_error (what_of "PERFMMAP"), e, k) else (ddres_init, set_base e None (pe_mirrored e), k)
  | None => (ddres_init, e, k)
  end.

Definition with_fds (e : PEvent) (fd mapfd : Z) : PEvent :=
  mkPE (pe_watcher_pos e) fd mapfd (pe_attr_idx e) (pe_size e) (pe_type e) (pe_custom e) (pe_base e) (pe_mirrored e) (pe_sub_fds e).

(** [ring_buffer_create]; [None]: the metadata page of a ring that could not be mapped is written. *)
Definition ring_buffer_create (size : Z) (ty : RingBufferType) (custom : bool) (e : PEvent) (k : kernel) : option (DDRes * PEvent * kernel) :=
  let failed := ddres_error (what_of "PERFOPEN") in
  let '(mapfd, k) := sys_open k in
  if mapfd =? -1 then Some (failed, with_fds e (pe_fd e) mapfd, k)
  else
    let truncated := open_ok ops (k_calls k) in
    let k := count k in
    if negb truncated then let '(_, k) := sys_close mapfd k in Some (failed, with_fds e (pe_fd e) (-1), k)
    else
      let '(fd, k) := sys_open k in
      if fd =? -1 then let '(_, k) := sys_close mapfd k in Some (failed, with_fds e fd (-1), k)
      else
        let e := mkPE (pe_watcher_pos e) fd mapfd (pe_attr_idx e) size ty custom (pe_base e) (pe_mirrored e) (pe_sub_fds e) in
        match ty with
        | kMPSCRingBuffer =>
            let '(_, e, k) := pevent_mmap_event e k in
            let? _ := pe_base e in
            let '(_, e, k) := pevent_munmap_event e k in
            Some (ddres_init, e, k)
        | kPerfRingBuffer => Some (ddres_init, e, k)
        end.

(** ** Opening *)

(** Room for one more event. *)
Definition has_room (h : PEventHdr) : bool := (length (ph_pes h) <? k_max_nb_perf_event_open)%nat.
Definition push_event (h : PEventHdr) (e : PEvent) : PEventHdr := mkHdr (ph_pes h ++ [e]) (ph_attrs h).

(** The configurations one after the other, until one is accepted. *)
Fixpoint try_configs (attrs : list perf_event_attr) (k : kernel) : option (Z * perf_event_attr) * kernel :=
  match attrs with
  | [] => (None, k)
  | a :: attrs' => let '(fd, k) := sys_open k in if fd =? -1 then try_configs attrs' k else (Some (fd, a), k)
  end.

(** The result, the event of the first CPU (when it could be created), the header with its attributes. *)
Definition pevent_register_cpu_0 (page_size : Z) (w : PerfWatcher) (watcher_idx source : Z) (h : PEventHdr) (k : kernel) : option (DDRes * option PEvent * PEventHdr * kernel) :=
  let failed := ddres_error (what_of "PERFOPEN") in
  if negb (has_room h) then Some (failed, None, h, k)
  else
    let e := new_event watcher_idx in
    let '(found, k) := try_configs (all_perf_configs_from_watcher w true source) k in
    match found with
    | None => Some (failed, Some e, h, k)
    | Some (fd, attr) =>
        if negb (length (ph_attrs h) <? kMaxTypeWatcher)%nat then None
        else
          let? e := pevent_set_info page_size fd (Z.of_nat (length (ph_attrs h))) (w_stack_sample_size w) e in
          Some (ddres_init, Some e, mkHdr (ph_pes h) (ph_attrs h ++ [attr]), k)
    end.

(** The events of the other threads, attached to the one of the first. *)
Fixpoint open_sub_events (tids : list Z) (e : PEvent) (k : kernel) : PEvent * kernel :=
  match tids with
  | [] => (e, k)
  | _ :: tids' => let '(fd, k) := sys_open k in open_sub_events tids' (if fd =? -1 then e else add_sub_fd e fd) k
  end.

(** The loop over the CPUs after the first. *)
Fixpoint open_other_cpus (n : nat) (page_size : Z) (w : PerfWatcher) (watcher_idx attr_idx : Z) (tids : list Z) (h : PEventHdr) (k : kernel) : option (DDRes * PEventHdr * kernel) :=
  match n with
  | O => Some (ddres_init, h, k)
  | S n' =>
      let failed := ddres_error (what_of "PERFOPEN") in
      if negb (has_room h) then Some (failed, h, k)
      else
        let '(fd, k) := sys_open k in
        if fd =? -1 then Some (failed, push_event h (new_event watcher_idx), k)
        else
          let? e := pevent_set_info page_size fd attr_idx (w_stack_sample_size w) (new_event watcher_idx) in
          let '(e, k) := open_sub_events tids e k in
          open_other_cpus n' page_size w watcher_idx attr_idx tids (push_event h e) k
  end.

(** [pids]: the process or thread to attach to, and the other threads. *)
Definition pevent_open_all_cpus (page_size : Z) (w : PerfWatcher) (watcher_idx : Z) (pids : list Z) (num_cpu : Z) (source : Z) (h : PEventHdr) (k : kernel) :
    option (DDRes * PEventHdr * kernel) :=
  let? (res, e, h, k) := pevent_register_cpu_0 page_size w watcher_idx source h k in
  match e with
  | None => Some (res, h, k)
  | Some e =>
      if IsDDResFatal res then Some (res, push_event h e, k)
      else if num_cpu <=? 0 then Some (ddres_init, push_event h e, k)
      else
        let '(e, k) := open_sub_events (tail pids) e k in
        open_other_cpus (Z.to_nat (num_cpu - 1)) page_size w watcher_idx (pe_attr_idx e) (tail pids) (push_event h e) k
  end.

(** A custom event: the ring buffer of the allocations. *)
Definition open_custom (page_size : Z) (w : PerfWatcher) (watcher_idx : Z) (h : PEventHdr) (k : kernel) : option (DDRes * PEventHdr * kernel) :=
  if negb (has_room h) then Some (ddres_error (what_of "PERFOPEN"), h, k)
  else
    let? size := ring_pages page_size k_mpsc_buffer_size_shift (w_stack_sample_size w) in
    let? (res, e, k) := ring_buffer_create size kMPSCRingBuffer true (new_event watcher_idx) k in
    Some (res, push_event h e, k).

Fixpoint pevent_open (page_size : Z) (ws : list PerfWatcher) (watcher_idx : Z) (pids : list Z) (num_cpu source : Z) (h : PEventHdr) (k : kernel) : option (DDRes * PEventHdr * kernel) :=
  match ws with
  | [] => Some (ddres_init, h, k)
  | w :: ws' =>
      let? (res, h, k) := (if w_type w <? kDDPROF_TYPE_CUSTOM then pevent_open_all_cpus page_size w watcher_idx pids num_cpu source h k
                           else open_custom page_size w watcher_idx h k) in
      if IsDDResFatal res then Some (res, h, k) else pevent_open page_size ws' (watcher_idx + 1) pids num_cpu source h k
  end.

(** ** Mapping, enabling, release *)

Fixpoint munmap_events (pes : list PEvent) (k : kernel) : DDRes * list PEvent * kernel :=
  match pes with
  | [] => (ddres_init, [], k)
  | e :: pes' =>
      let '(r, e, k) := pevent_munmap_event e k in
      let '(res, pes', k) := munmap_events pes' k in
      (* the last error is kept *)
      (if IsDDResOK res then r else res, e :: pes', k)
  end.

Definition pevent_munmap (h : PEventHdr) (k : kernel) : DDRes * PEventHdr * kernel :=
  let '(res, pes, k) := munmap_events (ph_pes h) k in (res, mkHdr pes (ph_attrs h), k).

(** The loop of [pevent_mmap]: it stops at the first event that cannot be mapped. *)
Fixpoint mmap_events (pes : list PEvent) (k : kernel) : DDRes * list PEvent * kernel :=
  match pes with
  | [] => (ddres_init, [], k)
  | e :: pes' =>
      let '(r, e, k) := pevent_mmap_event e k in
      if IsDDResFatal r then (r, e :: pes', k)
      else let '(res, pes', k) := mmap_events pes' k in (res, e :: pes', k)
  end.

(** [override_ok]: the user could be changed, when it has to be. *)
Definition pevent_mmap (h : PEventHdr) (use_override override_ok : bool) (k : kernel) : DDRes * PEventHdr * kernel :=
  if use_override && negb override_ok then (ddres_error (what_of "USERID"), h, k)
  else
    let '(res, pes, k) := mmap_events (ph_pes h) k in
    let h := mkHdr pes (ph_attrs h) in
    if IsDDResFatal res then let '(_, h, k) := pevent_munmap h k in (res, h, k) else (ddres_init, h, k).

Definition pevent_setup (page_size : Z) (ws : list PerfWatcher) (pids : list Z) (num_cpu source : Z) (override_ok : bool) (h : PEventHdr) (k : kernel) : option (DDRes * PEventHdr * kernel) :=
  let? (res, h, k) := pevent_open page_size ws 0 pids num_cpu source h k in
  if IsDDResFatal res then Some (res, h, k)
  else
    let '(res, h, k) := pevent_mmap h true override_ok k in
    if negb (IsDDResOK res) then
      let '(res, h, k) := pevent_mmap h false override_ok k in
      if IsDDResFatal res then Some (res, h, k) else Some (ddres_init, h, k)
    else Some (ddres_init, h, k).

(** The requests sent to the kernel. *)
Inductive perf_ioctl := SetOutput (fd output_fd : Z) | Enable (fd : Z).

Definition event_ioctls (e : PEvent) : list perf_ioctl :=
  if pe_custom e then [] else mjoin (map (fun fd => [SetOutput fd (pe_fd e); Enable fd]) (pe_sub_fds e)) ++ [Enable (pe_fd e)].

Fixpoint run_ioctls (l : list perf_ioctl) (k : kernel) : DDRes * list perf_ioctl * kernel :=
  match l with
  | [] => (ddres_init, [], k)
  | c :: l' =>
      if ioctl_ok ops (k_calls k) then let '(res, done, k) := run_ioctls l' (count k) in (res, c :: done, k)
      else (ddres_error (what_of "IOCTL"), [c], count k)
  end.

Definition pevent_enable (h : PEventHdr) (k : kernel) : DDRes * list perf_ioctl * kernel := run_ioctls (mjoin (map event_ioctls (ph_pes h))) k.

Fixpoint close_fds (fds : list Z) (k : kernel) : bool * kernel :=
  match fds with
  | [] => (true, k)
  | fd :: fds' => let '(ok, k) := sys_close fd k in if ok : bool then close_fds fds' k else (false, k)
  end.

Definition pevent_close_event (e : PEvent) (k : kernel) : DDRes * PEvent * kernel :=
  let failed := ddres_error (what_of "PERFOPEN") in
  let close_map e k :=
    if pe_custom e && negb (pe_mapfd e =? -1) then
      let '(ok, k) := sys_close (pe_mapfd e) k in (if ok : bool then ddres_init else failed, e, k)
    else (ddres_init, e, k) in
  if negb (pe_fd e =? -1) then
    let '(ok, k) := sys_close (pe_fd e) k in
    if negb ok then (failed, e, k)
    else
      let e := with_fds e (-1) (pe_mapfd e) in
      let '(ok, k) := close_fds (pe_sub_fds e) k in
      if negb ok then (failed, e, k) else close_map e k
  else close_map e k.

Fixpoint close_events (pes : list PEvent) (k : kernel) : DDRes * kernel :=
  match pes with
  | [] => (ddres_init, k)
  | e :: pes' =>
      let '(r, _, k) := pevent_close_event e k in
      let '(res, k) := close_events pes' k in
      (if IsDDResOK res then r else res, k)
  end.

Definition pevent_close (h : PEventHdr) (k : kernel) : DDRes * PEventHdr * kernel :=
  let '(res, k) := close_events (ph_pes h) k in (res, mkHdr [] (ph_attrs h), k).

Definition pevent_cleanup (h : PEventHdr) (k : kernel) : DDRes * PEventHdr * kernel :=
  let '(r1, h, k) := pevent_munmap h k in
  let '(r2, h, k) := pevent_close h k in
  (if negb (IsDDResOK r2) then r2 else r1, h, k).

(** ** Rings of the library ([ringbuffer_utils.cc]) *)

Definition ring_buffer_attach_info (mem_pages ring_fd event_fd ring_buffer_type : Z) (e : PEvent) (k : kernel) : DDRes * PEvent * kernel :=
  let ty := if ring_buffer_type =? 0 then Some kPerfRingBuffer else if ring_buffer_type =? 1 then Some kMPSCRingBuffer else None in
  match ty with
  | None => (ddres_error (what_of "PERFRB"), mkPE (pe_watcher_pos e) event_fd ring_fd (pe_attr_idx e) mem_pages (pe_type e) (pe_custom e) (pe_base e) (pe_mirrored e) (pe_sub_fds e), k)
  | Some ty => pevent_mmap_event (mkPE (pe_watcher_pos e) event_fd ring_fd (pe_attr_idx e) mem_pages ty true (pe_base e) (pe_mirrored e) (pe_sub_fds e)) k
  end.

Definition ring_buffer_setup (size : Z) (ty : RingBufferType) (custom : bool) (e : PEvent) (k : kernel) : option (DDRes * PEvent * kernel) :=
  let? (res, e, k) := ring_buffer_create size ty custom e k in
  if IsDDResFatal res then Some (res, e, k)
  else
    let '(res, e, k) := pevent_mmap_event e k in
    if IsDDResFatal res then Some (res, e, k) else Some (ddres_init, e, k).

Definition ring_buffer_cleanup (e : PEvent) (k : kernel) : DDRes * PEvent * kernel :=
  let '(r1, e, k) := pevent_munmap_event e k in
  let '(r2, e, k) := pevent_close_event e k in
  (if negb (IsDDResOK r1) then r1 else r2, e, k).
End Kernel.
