(* ===== verification/PeventProofs.v ===== *)
(** * The descriptors and pages of the perf events

    Theorems about [Pevent]: what the profiler holds at each point, and that the clean-up gives all
    of it back, whatever calls failed before. *)

From S2P Require Import Prelude RingBuffer PerfSample Ddres AllocTracker Watcher Pevent.

(** ** Sets that grow by what is owned *)

(** The set is [base] and the distinct elements of [l]. *)
Record holds (base : gset Z) (l : list Z) (X : gset Z) : Prop := {
  ho_set : X = base ∪ list_to_set l;
  ho_nodup : NoDup l;
  ho_apart : forall x, x ∈ l -> x ∉ base
}.

Lemma holds_perm base l l' X : l ≡ₚ l' -> holds base l X -> holds base l' X.
Proof. intros Hp [-> Hn Ha]. split; [by rewrite Hp|by rewrite <- Hp|]. intros x Hx. apply Ha. by rewrite Hp. Qed.

Lemma holds_nil base X : holds base [] X -> X = base.
Proof. intros [-> _ _]. cbn. apply (right_id_L ∅ (∪)). Qed.

Lemma holds_start X : holds X [] X.
Proof. split; [cbn; by rewrite (right_id_L ∅ (∪))|constructor|]. intros x Hx. by apply not_elem_of_nil in Hx. Qed.

Lemma holds_add base l m X : holds base l X -> NoDup m -> (forall x, x ∈ m -> x ∉ X) -> holds base (m ++ l) (list_to_set m ∪ X).
Proof.
  intros [-> Hn Ha] Hm Hf. split.
  - rewrite list_to_set_app_L. rewrite (assoc_L (∪)), (comm_L (∪) (list_to_set m) base). by rewrite (assoc_L (∪)).
  - apply NoDup_app. split; [done|]. split; [|done]. intros x Hx Hl. apply (Hf x Hx). apply elem_of_union. right. by apply elem_of_list_to_set.
  - intros x [Hx|Hx]%elem_of_app; [|by apply Ha]. intros Hb. apply (Hf x Hx). apply elem_of_union. by left.
Qed.

Lemma holds_remove base l m X : holds base (m ++ l) X -> holds base l (X ∖ list_to_set m).
Proof.
  intros [-> Hn Ha]. apply NoDup_app in Hn as (_ & Hd & Hl). split; [|done|intros x Hx; apply Ha, elem_of_app; by right].
  apply set_eq. intros x. rewrite elem_of_difference, !elem_of_union, list_to_set_app_L, elem_of_union, !elem_of_list_to_set. split.
  - intros [[Hb|[Hm|Hx]] Hnm]; [by left|done|by right].
  - intros [Hb|Hx]; [split; [by left|]|split; [by right; right|]].
    + intros Hm. apply (Ha x); [apply elem_of_app; by left|done].
    + intros Hm. by apply (Hd x).
Qed.

Lemma union_owned (A X : gset Z) : A ⊆ X -> A ∪ X = X.
Proof. intros H. by apply subseteq_union_1_L. Qed.

(** ** What an event owns *)

Definition owned_fds (e : PEvent) : list Z :=
  (if pe_fd e =? -1 then [] else pe_fd e :: pe_sub_fds e) ++ (if pe_custom e && negb (pe_mapfd e =? -1) then [pe_mapfd e] else []).

Definition map_length (size : Z) (mirrored : bool) : Z := if mirrored then 2 * size - 1 else size.
Definition owned_pages (e : PEvent) : list Z := match pe_base e with Some b => seqZ b (map_length (pe_size e) (pe_mirrored e)) | None => [] end.

Record kernel_ok (ops : kernel_ops) : Prop := {
  ko_fd : forall X, new_fd ops X ∉ X /\ 0 <= new_fd ops X;
  ko_region : forall X n x, x ∈ seqZ (new_region ops X n) n -> x ∉ X;
  ko_munmap : forall n, munmap_ok ops n = true;
  ko_close : forall n, close_ok ops n = true
}.

Section Proofs.
Context (ops : kernel_ops) (Hops : kernel_ok ops).

Lemma region_set first n : region first n = list_to_set (seqZ first n).
Proof. unfold region. rewrite dom_list_to_map_L. f_equal. rewrite <- (map_id (seqZ first n)) at 2. apply (map_map (fun p => (p, tt)) fst). Qed.

Lemma region_elem x first n : x ∈ region first n <-> first <= x < first + n.
Proof. rewrite region_set, elem_of_list_to_set, elem_of_seqZ. done. Qed.

Lemma sys_open_spec B l k : holds B l (k_fds k) -> exists fd k', sys_open ops k = (fd, k') /\ k_pages k' = k_pages k /\
  ((fd = -1 /\ holds B l (k_fds k')) \/ (0 <= fd /\ holds B (fd :: l) (k_fds k'))).
Proof.
  intros Hh. unfold sys_open. destruct (open_ok ops (k_calls k)); [|do 2 eexists; split; [done|]; split; [done|]; by left].
  destruct (ko_fd _ Hops (k_fds k)) as [Hf H0]. do 2 eexists. split; [done|]. split; [done|]. right. split; [done|]. cbn [k_fds].
  pose proof (holds_add B l [new_fd ops (k_fds k)] (k_fds k) Hh (NoDup_singleton _)) as Ha. cbn [list_to_set] in Ha. rewrite (right_id_L ∅ (∪)) in Ha. apply Ha.
  intros x ->%list_elem_of_singleton. done.
Qed.

Lemma sys_close_spec B l k fd : holds B (fd :: l) (k_fds k) -> exists k', sys_close ops fd k = (true, k') /\ k_pages k' = k_pages k /\ holds B l (k_fds k').
Proof.
  intros Hh. unfold sys_close. rewrite (ko_close _ Hops), bool_decide_true by (destruct Hh as [-> _ _]; set_solver). eexists. split; [done|]. split; [done|]. cbn [k_fds].
  pose proof (holds_remove B l [fd] (k_fds k) Hh) as Hr. cbn [list_to_set] in Hr. by rewrite (right_id_L ∅ (∪)) in Hr.
Qed.

Lemma close_fds_spec B fds l k : holds B (fds ++ l) (k_fds k) -> exists k', close_fds ops fds k = (true, k') /\ k_pages k' = k_pages k /\ holds B l (k_fds k').
Proof.
  revert k. induction fds as [|fd fds IH]; intros k Hh; [by exists k|]. cbn [close_fds app] in *.
  destruct (sys_close_spec B (fds ++ l) k fd Hh) as (k1 & -> & Hp & Hh1). destruct (IH k1 Hh1) as (k2 & -> & Hp2 & Hh2). exists k2. split; [done|]. split; [congruence|done].
Qed.

Lemma sys_mmap_spec P l k n : holds P l (k_pages k) -> exists r k', sys_mmap ops n k = (r, k') /\ k_fds k' = k_fds k /\
  match r with Some b => holds P (seqZ b n ++ l) (k_pages k') | None => holds P l (k_pages k') end.
Proof.
  intros Hh. unfold sys_mmap. destruct (mmap_ok ops (k_calls k)); [|by do 2 eexists]. do 2 eexists. split; [done|]. split; [done|]. cbn [k_pages]. rewrite region_set.
  apply holds_add; [done|apply NoDup_seqZ|]. intros x Hx. by apply (ko_region _ Hops _ _ _ Hx).
Qed.

Lemma sys_munmap_spec P l k b n : holds P (seqZ b n ++ l) (k_pages k) -> exists k', sys_munmap ops b n k = (true, k') /\ k_fds k' = k_fds k /\ holds P l (k_pages k').
Proof. intros Hh. unfold sys_munmap. rewrite (ko_munmap _ Hops). eexists. split; [done|]. split; [done|]. cbn [k_pages]. rewrite region_set. by apply holds_remove. Qed.

(** A fixed mapping over pages that are owned changes nothing. *)
Lemma sys_mmap_fixed_spec P l k b n a m : holds P (seqZ b n ++ l) (k_pages k) -> b <= a -> a + m <= b + n ->
  exists ok k', sys_mmap_fixed ops a m k = (ok, k') /\ k_fds k' = k_fds k /\ holds P (seqZ b n ++ l) (k_pages k').
Proof.
  intros Hh H1 H2. unfold sys_mmap_fixed. destruct (mmap_ok ops (k_calls k)); [|by do 2 eexists]. do 2 eexists. split; [done|]. split; [done|]. cbn [k_pages]. rewrite union_owned; [done|].
  destruct Hh as [-> _ _]. intros x Hx%region_elem. rewrite elem_of_union, elem_of_list_to_set, elem_of_app, elem_of_seqZ. right. left. lia.
Qed.

Lemma single_mapping_spec P l k size : holds P l (k_pages k) -> exists r k', single_mapping ops size k = (r, k') /\ k_fds k' = k_fds k /\
  match rg_addr r with Some b => holds P (seqZ b (map_length size (rg_mirrored r)) ++ l) (k_pages k') | None => holds P l (k_pages k') end.
Proof.
  intros Hh. unfold single_mapping. destruct (sys_mmap_spec P l k size Hh) as (r & k' & -> & Hf & Hr). do 2 eexists. split; [done|]. split; [done|]. by destruct r.
Qed.

Lemma perfown_spec P l k size single : 1 <= size -> holds P l (k_pages k) -> exists r k', perfown_sz ops size single k = (r, k') /\ k_fds k' = k_fds k /\
  match rg_addr r with Some b => holds P (seqZ b (map_length size (rg_mirrored r)) ++ l) (k_pages k') | None => holds P l (k_pages k') end.
Proof.
  intros Hs Hh. unfold perfown_sz. assert (Hsingle : forall k1, k_fds k1 = k_fds k -> holds P l (k_pages k1) -> exists r k',
    (if single then single_mapping ops size k1 else (no_region, k1)) = (r, k') /\ k_fds k' = k_fds k /\
    match rg_addr r with Some b => holds P (seqZ b (map_length size (rg_mirrored r)) ++ l) (k_pages k') | None => holds P l (k_pages k') end).
  { intros k1 Hf1 Hh1. destruct single; [|by exists no_region, k1]. destruct (single_mapping_spec P l k1 size Hh1) as (r & k' & -> & Hf & Hr). exists r, k'. split; [done|]. split; [congruence|done]. }
  destruct (sys_mmap_spec P l k (2 * size - 1) Hh) as (r0 & k1 & -> & Hf1 & Hr). destruct r0 as [b|]; [|by apply Hsingle].
  destruct (sys_mmap_fixed_spec P l k1 b (2 * size - 1) (b + size - 1) size Hr ltac:(lia) ltac:(lia)) as (ok1 & k2 & -> & Hf2 & Hr2).
  assert (Hsecond : exists ok k3, (if ok1 then sys_mmap_fixed ops b size k2 else (false, k2)) = (ok, k3) /\ k_fds k3 = k_fds k /\ holds P (seqZ b (2 * size - 1) ++ l) (k_pages k3)).
  { destruct ok1; [|exists false, k2; split; [done|]; split; [congruence|done]]. destruct (sys_mmap_fixed_spec P l k2 b (2 * size - 1) b size Hr2 ltac:(lia) ltac:(lia)) as (ok & k3 & -> & Hf3 & Hr3).
    exists ok, k3. split; [done|]. split; [congruence|done]. }
  destruct Hsecond as (ok2 & k3 & -> & Hf3 & Hr3). destruct ok2; [by exists (mkRegion (Some b) true), k3|].
  destruct (sys_munmap_spec P l k3 b (2 * size - 1) Hr3) as (k4 & -> & Hf4 & Hr4). apply Hsingle; [congruence|done].
Qed.

Lemma perfdisown_spec P l k b size mirrored : 1 <= size -> holds P (seqZ b (map_length size mirrored) ++ l) (k_pages k) ->
  exists k', perfdisown ops b size mirrored k = (true, k') /\ k_fds k' = k_fds k /\ holds P l (k_pages k').
Proof.
  intros Hs Hh. unfold perfdisown. destruct mirrored; cbn [negb map_length] in *; [|by apply sys_munmap_spec].
  unfold sys_munmap. rewrite !(ko_munmap _ Hops). cbn [k_pages k_fds andb]. eexists. split; [done|]. split; [done|]. cbn [k_pages].
  replace (((k_pages k ∖ region (b + size - 1) size) ∖ region b size) ∖ region b (2 * size - 1)) with (k_pages k ∖ region b (2 * size - 1)); [rewrite region_set; by apply holds_remove|].
  apply set_eq. intros x. rewrite !elem_of_difference, !region_elem. split; [|tauto]. intros [Hx Hn]. repeat split; [done|lia|lia|done].
Qed.

(** ** Events *)

(** An event whose descriptors and size make sense. *)
Record event_ok (e : PEvent) : Prop := {
  ev_sub : pe_fd e = -1 -> pe_sub_fds e = [];
  ev_size : pe_mapfd e = -1 \/ 1 <= pe_size e;
  ev_base : pe_base e <> None -> pe_mapfd e <> -1
}.

Definition unmapped (e : PEvent) : Prop := pe_base e = None.

Lemma mmap_event_spec P l k e : event_ok e -> unmapped e -> holds P l (k_pages k) ->
  exists res e' k', pevent_mmap_event ops e k = (res, e', k') /\ k_fds k' = k_fds k /\ event_ok e' /\ owned_fds e' = owned_fds e /\ holds P (owned_pages e' ++ l) (k_pages k') /\
    (IsDDResFatal res = false -> pe_mapfd e <> -1 -> pe_base e' <> None) /\ pe_mapfd e' = pe_mapfd e /\ (IsDDResFatal res = true -> unmapped e').
Proof.
  intros He Hu Hh. unfold pevent_mmap_event. destruct (Z.eqb_spec (pe_mapfd e) (-1)) as [Em|Em]; cbn [negb].
  - do 3 eexists. split; [done|]. split; [done|]. split; [done|]. split; [done|]. unfold owned_pages. rewrite Hu. split; [done|]. split; [done|]. by split.
  - destruct He as [H1 [H2|H2] H3]; [done|]. destruct (perfown_spec P l k (pe_size e) (match pe_type e with kPerfRingBuffer => true | _ => false end) H2 Hh) as (r & k' & -> & Hf & Hr).
    destruct (rg_addr r) as [b|] eqn:Eb.
    + do 3 eexists. split; [done|]. split; [done|]. split; [split; cbn; [done|by right|done]|]. split; [done|]. split; [exact Hr|]. split; [done|]. by split.
    + do 3 eexists. split; [done|]. split; [done|]. split; [split; [done|by right|done]|]. split; [done|]. unfold owned_pages. rewrite Hu. split; [done|]. split; [done|]. by split.
Qed.

Lemma mmap_event_fd e k : pe_fd (snd (fst (pevent_mmap_event ops e k))) = pe_fd e.
Proof. unfold pevent_mmap_event. destruct (negb _); [|done]. destruct (perfown_sz _ _ _ _) as [r k1]. by destruct (rg_addr r). Qed.

Lemma munmap_event_ids e k : let e' := snd (fst (pevent_munmap_event ops e k)) in pe_fd e' = pe_fd e /\ pe_mapfd e' = pe_mapfd e.
Proof. unfold pevent_munmap_event. destruct (pe_base e) as [b|]; [|done]. destruct (perfdisown _ _ _ _ _) as [[|] k1]; done. Qed.

Lemma munmap_event_spec P l k e : event_ok e -> holds P (owned_pages e ++ l) (k_pages k) ->
  exists e' k', pevent_munmap_event ops e k = (ddres_init, e', k') /\ k_fds k' = k_fds k /\ event_ok e' /\ owned_fds e' = owned_fds e /\ unmapped e' /\ holds P l (k_pages k').
Proof.
  intros He Hh. unfold pevent_munmap_event. unfold owned_pages in Hh. destruct (pe_base e) as [b|] eqn:Eb; [|by do 2 eexists].
  destruct He as [H1 H2 H3]. destruct H2 as [H2|H2]; [by destruct H3; [rewrite Eb|]|]. destruct (perfdisown_spec P l k b (pe_size e) (pe_mirrored e) H2 Hh) as (k' & -> & Hf & Hr). cbn [negb].
  do 2 eexists. split; [done|]. split; [done|]. split; [split; cbn; [done|by right|done]|]. done.
Qed.

Lemma close_event_spec B l k e : event_ok e -> holds B (owned_fds e ++ l) (k_fds k) ->
  exists e' k', pevent_close_event ops e k = (ddres_init, e', k') /\ k_pages k' = k_pages k /\ holds B l (k_fds k').
Proof.
  intros [Hsub _ _] Hh. unfold pevent_close_event, owned_fds in *.
  assert (Hmap : forall e1 k1, pe_custom e1 = pe_custom e -> pe_mapfd e1 = pe_mapfd e -> k_pages k1 = k_pages k ->
    holds B ((if pe_custom e && negb (pe_mapfd e =? -1) then [pe_mapfd e] else []) ++ l) (k_fds k1) ->
    exists e' k', (if pe_custom e1 && negb (pe_mapfd e1 =? -1) then let '(ok, k) := sys_close ops (pe_mapfd e1) k1 in (if ok : bool then ddres_init else ddres_error (what_of "PERFOPEN"), e1, k)
      else (ddres_init, e1, k1)) = (ddres_init, e', k') /\ k_pages k' = k_pages k /\ holds B l (k_fds k')).
  { intros e1 k1 -> -> Hp Hh1. destruct (pe_custom e && negb (pe_mapfd e =? -1)); [|by do 2 eexists]. destruct (sys_close_spec B l k1 (pe_mapfd e) Hh1) as (k2 & -> & Hp2 & Hh2).
    do 2 eexists. split; [done|]. split; [congruence|done]. }
  destruct (Z.eqb_spec (pe_fd e) (-1)) as [Ef|Ef]; cbn [negb].
  - by apply Hmap.
  - rewrite <- app_assoc in Hh. cbn [app] in Hh. destruct (sys_close_spec _ _ _ _ Hh) as (k1 & -> & Hp1 & Hh1). cbn [negb]. cbn [with_fds pe_sub_fds].
    destruct (close_fds_spec _ _ _ _ Hh1) as (k2 & -> & Hp2 & Hh2). cbn [negb]. apply Hmap; [done|done|congruence|done].
Qed.

(** ** Lists of events *)

Definition all_fds (pes : list PEvent) : list Z := mjoin (map owned_fds pes).
Definition all_pages (pes : list PEvent) : list Z := mjoin (map owned_pages pes).

Lemma all_fds_cons e pes : all_fds (e :: pes) = owned_fds e ++ all_fds pes.
Proof. reflexivity. Qed.
Lemma all_pages_cons e pes : all_pages (e :: pes) = owned_pages e ++ all_pages pes.
Proof. reflexivity. Qed.
Lemma all_fds_app a b : all_fds (a ++ b) = all_fds a ++ all_fds b.
Proof. induction a as [|e a IH]; [done|]. cbn [app]. by rewrite !all_fds_cons, IH, app_assoc. Qed.

Lemma unmapped_pages pes : Forall unmapped pes -> all_pages pes = [].
Proof. induction 1 as [|e pes He _ IH]; [done|]. rewrite all_pages_cons, IH. unfold owned_pages. by rewrite He. Qed.

Lemma munmap_events_spec P l pes k : Forall event_ok pes -> holds P (all_pages pes ++ l) (k_pages k) ->
  exists pes' k', munmap_events ops pes k = (ddres_init, pes', k') /\ k_fds k' = k_fds k /\ Forall event_ok pes' /\ all_fds pes' = all_fds pes /\ Forall unmapped pes' /\ holds P l (k_pages k').
Proof.
  revert k. induction pes as [|e pes IH]; intros k Hok Hh; [by exists [], k|]. apply Forall_cons in Hok as [He Hok]. cbn [munmap_events]. rewrite all_pages_cons, <- app_assoc in Hh.
  destruct (munmap_event_spec P _ k e He Hh) as (e' & k1 & -> & Hf1 & He' & Ho & Hu & Hh1). destruct (IH k1 Hok Hh1) as (pes' & k2 & -> & Hf2 & Hok' & Ho' & Hu' & Hh2).
  do 2 eexists. split; [done|]. split; [congruence|]. split; [by constructor|]. split; [by rewrite !all_fds_cons, Ho, Ho'|]. split; [by constructor|done].
Qed.

Lemma mmap_events_spec P l pes k : Forall event_ok pes -> Forall unmapped pes -> holds P l (k_pages k) ->
  exists res pes' k', mmap_events ops pes k = (res, pes', k') /\ k_fds k' = k_fds k /\ Forall event_ok pes' /\ all_fds pes' = all_fds pes /\ holds P (all_pages pes' ++ l) (k_pages k') /\
    (IsDDResFatal res = false -> Forall (fun e => pe_mapfd e <> -1 -> pe_base e <> None) pes') /\ map pe_mapfd pes' = map pe_mapfd pes /\ map pe_fd pes' = map pe_fd pes.
Proof.
  revert l k. induction pes as [|e pes IH]; intros l k Hok Hu Hh; [by exists ddres_init, [], k|]. apply Forall_cons in Hok as [He Hok]. apply Forall_cons in Hu as [Hue Hu]. cbn [mmap_events].
  pose proof (mmap_event_fd e k) as Hfd. destruct (mmap_event_spec P l k e He Hue Hh) as (r & e' & k1 & E & Hf1 & He' & Ho & Hh1 & Hm & Em & Hfu). rewrite E in Hfd |- *. cbn [fst snd] in Hfd. destruct (IsDDResFatal r) eqn:Er.
  - do 3 eexists. split; [done|]. split; [done|]. split; [by constructor|]. split; [by rewrite !all_fds_cons, Ho|]. split; [|split; [by rewrite Er|cbn [map]; by rewrite Em, Hfd]].
    rewrite all_pages_cons, (unmapped_pages pes Hu), app_nil_r. done.
  - destruct (IH (owned_pages e' ++ l) k1 Hok Hu Hh1) as (res & pes' & k2 & -> & Hf2 & Hok' & Ho' & Hh2 & Hm' & Em' & Ef'). do 3 eexists. split; [done|]. split; [congruence|]. split; [by constructor|].
    split; [by rewrite !all_fds_cons, Ho, Ho'|]. split; [|split; [|cbn [map]; by rewrite Em, Em', Hfd, Ef']].
    + rewrite all_pages_cons. eapply holds_perm; [|exact Hh2]. rewrite !app_assoc. by rewrite (Permutation_app_comm (all_pages pes') (owned_pages e')).
    + intros Hres. constructor; [|by apply Hm']. rewrite Em. by apply Hm.
Qed.

Lemma close_events_spec B l pes k : Forall event_ok pes -> holds B (all_fds pes ++ l) (k_fds k) ->
  exists k', close_events ops pes k = (ddres_init, k') /\ k_pages k' = k_pages k /\ holds B l (k_fds k').
Proof.
  revert k. induction pes as [|e pes IH]; intros k Hok Hh; [by exists k|]. apply Forall_cons in Hok as [He Hok]. cbn [close_events]. rewrite all_fds_cons, <- app_assoc in Hh.
  destruct (close_event_spec B _ k e He Hh) as (e' & k1 & -> & Hp1 & Hh1). destruct (IH k1 Hok Hh1) as (k2 & -> & Hp2 & Hh2). eexists. split; [done|]. split; [congruence|done].
Qed.

(** ** Opening *)

(** Nothing is mapped and the descriptors above [B] are those of the events. *)
Record opened (B P : gset Z) (pes : list PEvent) (k : kernel) : Prop := {
  op_fds : holds B (all_fds pes) (k_fds k);
  op_pages : k_pages k = P;
  op_ok : Forall event_ok pes;
  op_unmapped : Forall unmapped pes
}.

Lemma opened_push B P pes e k : opened B P pes k -> forall k', holds B (owned_fds e ++ all_fds pes) (k_fds k') -> k_pages k' = k_pages k -> event_ok e -> unmapped e -> opened B P (pes ++ [e]) k'.
Proof.
  intros [_ H2 H3 H4] k' Hh Hp He Hu. split; [|congruence|apply Forall_app; split; [done|by constructor]|apply Forall_app; split; [done|by constructor]].
  rewrite all_fds_app, all_fds_cons, app_nil_r. eapply holds_perm; [|exact Hh]. apply Permutation_app_comm.
Qed.

Lemma ring_pages_pos page_size o s size : ring_pages page_size o s = Some size -> 1 <= size.
Proof. unfold ring_pages. destruct (pevent_compute_min_mmap_order _ _ _ _) as [order|]; [|done]. intros [= <-]. pose proof (Z.pow_nonneg 2 order). lia. Qed.

Lemma new_event_ok i : event_ok (new_event i) /\ unmapped (new_event i) /\ owned_fds (new_event i) = [].
Proof. split; [split; cbn; [done|by left|done]|done]. Qed.

Lemma try_configs_spec B l attrs k : holds B l (k_fds k) -> exists r k', try_configs ops attrs k = (r, k') /\ k_pages k' = k_pages k /\
  match r with Some (fd, _) => 0 <= fd /\ holds B (fd :: l) (k_fds k') | None => holds B l (k_fds k') end.
Proof.
  revert k. induction attrs as [|a attrs IH]; intros k Hh; [by exists None, k|]. cbn [try_configs].
  destruct (sys_open_spec B l k Hh) as (fd & k1 & -> & Hp & [[-> Hh1]|[H0 Hh1]]).
  - cbn. destruct (IH k1 Hh1) as (r & k2 & -> & Hp2 & Hr). exists r, k2. split; [done|]. split; [congruence|done].
  - destruct (Z.eqb_spec fd (-1)); [lia|]. by exists (Some (fd, a)), k1.
Qed.

(** What [pevent_set_info] makes of a new event. *)
Lemma set_info_spec page_size fd attr_idx s i e : 0 <= fd -> pevent_set_info page_size fd attr_idx s (new_event i) = Some e ->
  event_ok e /\ unmapped e /\ owned_fds e = [fd] /\ pe_fd e = fd /\ pe_mapfd e = fd.
Proof.
  intros H0. unfold pevent_set_info. destruct (ring_pages page_size k_default_buffer_size_shift s) as [size|] eqn:Es; [|done]. cbn [mbind option_bind]. intros [= <-].
  split; [split; cbn; [lia|right; by eapply ring_pages_pos|done]|]. split; [done|]. split; [|done]. unfold owned_fds. cbn. destruct (Z.eqb_spec fd (-1)); [lia|done].
Qed.

Lemma open_sub_events_spec B l tids e k : pe_fd e <> -1 -> event_ok e -> unmapped e -> holds B (owned_fds e ++ l) (k_fds k) ->
  exists e' k', open_sub_events ops tids e k = (e', k') /\ k_pages k' = k_pages k /\ holds B (owned_fds e' ++ l) (k_fds k') /\ event_ok e' /\ unmapped e' /\ pe_fd e' = pe_fd e /\ pe_mapfd e' = pe_mapfd e.
Proof.
  revert e k. induction tids as [|t tids IH]; intros e k Hfd He Hu Hh; [by exists e, k|]. cbn [open_sub_events].
  destruct (sys_open_spec B _ k Hh) as (fd & k1 & -> & Hp & [[-> Hh1]|[H0 Hh1]]).
  - destruct (IH e k1 Hfd He Hu Hh1) as (e' & k2 & E & Hp2 & Hr). exists e', k2. cbn. split; [done|]. split; [congruence|done].
  - destruct (Z.eqb_spec fd (-1)); [lia|]. destruct (IH (add_sub_fd e fd) k1) as (e' & k2 & E & Hp2 & Hr).
    + done.
    + destruct He as [H1 H2 H3]. split; cbn; [done|done|done].
    + done.
    + eapply holds_perm; [|exact Hh1]. unfold owned_fds. cbn. destruct (Z.eqb_spec (pe_fd e) (-1)); [done|]. cbn. rewrite <- !app_assoc. cbn. rewrite perm_swap. by rewrite <- Permutation_middle.
    + exists e', k2. split; [done|]. split; [congruence|done].
Qed.

Definition live (e : PEvent) : Prop := pe_fd e <> -1 /\ pe_mapfd e <> -1.

(** What a phase of the opening leaves: the events, all live unless it failed. *)
Definition open_result (B P : gset Z) (pes : list PEvent) (r : option (DDRes * PEventHdr * kernel)) : Prop :=
  forall res h k, r = Some (res, h, k) -> Forall live pes -> opened B P (ph_pes h) k /\ (IsDDResFatal res = false -> Forall live (ph_pes h)).

Lemma open_result_failed B P pes h k what : opened B P (ph_pes h) k -> open_result B P pes (Some (ddres_error what, h, k)).
Proof. intros Ho res h' k' [= <- <- <-] _. by split. Qed.

Lemma open_result_done B P h k : opened B P (ph_pes h) k -> open_result B P (ph_pes h) (Some (ddres_init, h, k)).
Proof. intros Ho res h' k' [= <- <- <-] Hl. by split. Qed.

Lemma open_result_live B P pes pes' r : (Forall live pes -> Forall live pes') -> open_result B P pes' r -> open_result B P pes r.
Proof. intros Hl Hr res h k E Hp. apply (Hr res h k E). by apply Hl. Qed.

Lemma live_push pes e : live e -> Forall live pes -> Forall live (pes ++ [e]).
Proof. intros He Hp. apply Forall_app. split; [done|by constructor]. Qed.

Lemma opened_dead B P pes i k k' : opened B P pes k -> holds B (all_fds pes) (k_fds k') -> k_pages k' = k_pages k -> opened B P (pes ++ [new_event i]) k'.
Proof. intros Ho Hh Hp. destruct (new_event_ok i) as (He & Hu & Hf). eapply opened_push; [exact Ho| |done|done|done]. by rewrite Hf. Qed.

Lemma open_other_cpus_spec B P n page_size w i a tids h k : opened B P (ph_pes h) k -> open_result B P (ph_pes h) (open_other_cpus ops n page_size w i a tids h k).
Proof.
  revert h k. induction n as [|n IH]; intros h k Ho; cbn [open_other_cpus]; [by apply open_result_done|].
  destruct (negb (has_room h)); [by apply open_result_failed|].
  destruct (sys_open_spec B _ k (op_fds _ _ _ _ Ho)) as (fd & k1 & -> & Hp & [[-> Hh1]|[H0 Hh1]]).
  - cbn. apply open_result_failed. by eapply opened_dead.
  - destruct (Z.eqb_spec fd (-1)); [lia|]. destruct (pevent_set_info _ _ _ _ _) as [e|] eqn:Ee; [|by intros res h' k'].
    destruct (set_info_spec _ _ _ _ _ _ H0 Ee) as (He & Hu & Hf & Hfd & Hm). cbn [mbind option_bind].
    destruct (open_sub_events_spec B (all_fds (ph_pes h)) tids e k1) as (e' & k2 & -> & Hp2 & Hh2 & He' & Hu' & Hfd' & Hm'); [congruence|done|done|by rewrite Hf|].
    eapply (open_result_live _ _ _ (ph_pes (push_event h e'))).
    + apply live_push. split; congruence.
    + apply IH. cbn [push_event ph_pes]. eapply opened_push; [exact Ho|exact Hh2|congruence|done|done].
Qed.

Lemma pevent_open_all_cpus_spec B P page_size w i pids num_cpu source h k : opened B P (ph_pes h) k -> open_result B P (ph_pes h) (pevent_open_all_cpus ops page_size w i pids num_cpu source h k).
Proof.
  intros Ho. unfold pevent_open_all_cpus, pevent_register_cpu_0. destruct (negb (has_room h)); [by apply open_result_failed|].
  destruct (try_configs_spec B _ (all_perf_configs_from_watcher w true source) k (op_fds _ _ _ _ Ho)) as (r & k1 & -> & Hp & Hr). destruct r as [[fd attr]|].
  - destruct Hr as [H0 Hh1]. destruct (negb _); [by intros res h' k'|]. destruct (pevent_set_info _ _ _ _ _) as [e|] eqn:Ee; [|by intros res h' k'].
    destruct (set_info_spec _ _ _ _ _ _ H0 Ee) as (He & Hu & Hf & Hfd & Hm). cbn [mbind option_bind]. change (IsDDResFatal ddres_init) with false. cbv iota.
    destruct (num_cpu <=? 0).
    + eapply (open_result_live _ _ _ (ph_pes (push_event (mkHdr (ph_pes h) (ph_attrs h ++ [attr])) e))); [apply live_push; split; lia|]. apply open_result_done.
      cbn [push_event ph_pes]. eapply opened_push; [exact Ho| |done|done|done]. by rewrite Hf.
    + destruct (open_sub_events_spec B (all_fds (ph_pes h)) (tail pids) e k1) as (e' & k2 & -> & Hp2 & Hh2 & He' & Hu' & Hfd' & Hm'); [lia|done|done|by rewrite Hf|].
      eapply (open_result_live _ _ _ (ph_pes (push_event (mkHdr (ph_pes h) (ph_attrs h ++ [attr])) e'))); [apply live_push; split; lia|]. apply open_other_cpus_spec.
      cbn [push_event ph_pes]. eapply opened_push; [exact Ho|exact Hh2|congruence|done|done].
  - cbn [mbind option_bind]. change (IsDDResFatal (ddres_error (what_of "PERFOPEN"))) with true. cbv iota. apply open_result_failed. cbn [push_event ph_pes]. by eapply opened_dead.
Qed.

(** A ring that is created holds its two descriptors and no page; one that is not holds nothing. *)
Lemma ring_buffer_create_spec B l size ty i k : 1 <= size -> holds B l (k_fds k) ->
  match ring_buffer_create ops size ty true (new_event i) k with
  | Some (res, e, k') => k_pages k' = k_pages k /\ holds B (owned_fds e ++ l) (k_fds k') /\ event_ok e /\ unmapped e /\ (IsDDResFatal res = false -> live e)
  | None => True
  end.
Proof.
  intros Hs Hh. destruct (new_event_ok i) as (He0 & Hu0 & Hf0). unfold ring_buffer_create.
  assert (Hdead : forall k', k_pages k' = k_pages k -> holds B l (k_fds k') -> forall what,
    k_pages k' = k_pages k /\ holds B (owned_fds (with_fds (new_event i) (-1) (-1)) ++ l) (k_fds k') /\ event_ok (with_fds (new_event i) (-1) (-1)) /\ unmapped (with_fds (new_event i) (-1) (-1)) /\
    (IsDDResFatal (ddres_error what) = false -> live (with_fds (new_event i) (-1) (-1)))) by (intros k' Hp Hh' what; split; [done|]; split; [done|]; split; [split; cbn; [done|by left|done]|done]).
  destruct (sys_open_spec B l k Hh) as (mapfd & k1 & -> & Hp1 & [[-> Hh1]|[H0 Hh1]]); [cbn [Z.eqb]; by apply Hdead|].
  destruct (Z.eqb_spec mapfd (-1)); [lia|]. cbv zeta. destruct (open_ok ops (k_calls k1)); cbn [negb].
  2: { destruct (sys_close_spec B l (count k1) mapfd Hh1) as (k2 & -> & Hp2 & Hh2). apply Hdead; [by rewrite Hp2|done]. }
  destruct (sys_open_spec B (mapfd :: l) (count k1) Hh1) as (fd & k2 & -> & Hp2 & [[-> Hh2]|[Hf0' Hh2]]).
  { cbn [Z.eqb]. destruct (sys_close_spec B l k2 mapfd Hh2) as (k3 & -> & Hp3 & Hh3). apply Hdead; [by rewrite Hp3, Hp2|done]. }
  destruct (Z.eqb_spec fd (-1)); [lia|]. set (e := mkPE _ fd mapfd _ size ty true _ _ _).
  assert (He : event_ok e) by (split; cbn; [lia|by right|done]). assert (Hu : unmapped e) by done. assert (Hl : live e) by (split; cbn; lia).
  assert (Ho : owned_fds e = [fd; mapfd]) by (unfold owned_fds; subst e; cbn; destruct (Z.eqb_spec fd (-1)); [lia|]; destruct (Z.eqb_spec mapfd (-1)); [lia|done]).
  destruct ty; [|].
  - split; [by rewrite Hp2|]. rewrite Ho. do 3 (split; [done|]). done.
  - destruct (mmap_event_spec (k_pages k2) [] k2 e He Hu (holds_start _)) as (r & e' & k3 & E3 & Hf3 & He' & Ho' & Hp3 & _ & Hm' & _). rewrite E3.
    destruct (pe_base e') as [b|] eqn:Eb; [|done]. cbn [mbind option_bind]. destruct (munmap_event_spec _ _ _ _ He' Hp3) as (e4 & k4 & E4 & Hf4 & He4 & Ho4 & Hu4 & Hp4). rewrite E4.
    pose proof (mmap_event_fd e k2) as Hfd3. rewrite E3 in Hfd3. pose proof (munmap_event_ids e' k3) as [Hfd4 Hm4]. rewrite E4 in Hfd4, Hm4. cbn in Hfd3, Hfd4, Hm4, Hm'.
    apply holds_nil in Hp4. split; [by rewrite Hp4, Hp2|]. rewrite Ho4, Ho', Ho. split; [by rewrite Hf4, Hf3|]. split; [done|]. split; [done|]. intros _. split; lia.
Qed.

Lemma open_custom_spec B P page_size w i h k : opened B P (ph_pes h) k -> open_result B P (ph_pes h) (open_custom ops page_size w i h k).
Proof.
  intros Ho. unfold open_custom. destruct (negb (has_room h)); [by apply open_result_failed|].
  destruct (ring_pages page_size k_mpsc_buffer_size_shift (w_stack_sample_size w)) as [size|] eqn:Es; [|by intros res h' k']. cbn [mbind option_bind].
  pose proof (ring_buffer_create_spec B (all_fds (ph_pes h)) size kMPSCRingBuffer i k (ring_pages_pos _ _ _ _ Es) (op_fds _ _ _ _ Ho)) as Hc.
  destruct (ring_buffer_create _ _ _ _ _ _) as [[[res e] k1]|]; [|by intros res h' k']. cbn [mbind option_bind]. destruct Hc as (Hp & Hh & He & Hu & Hl).
  intros res' h' k' [= <- <- <-] Hpes. cbn [push_event ph_pes]. split; [by eapply opened_push|]. intros Hr. apply live_push; [by apply Hl|done].
Qed.

Lemma pevent_open_spec B P page_size ws i pids num_cpu source h k : opened B P (ph_pes h) k -> open_result B P (ph_pes h) (pevent_open ops page_size ws i pids num_cpu source h k).
Proof.
  revert i h k. induction ws as [|w ws IH]; intros i h k Ho; cbn [pevent_open]; [by apply open_result_done|].
  assert (Hw : open_result B P (ph_pes h) (if w_type w <? kDDPROF_TYPE_CUSTOM then pevent_open_all_cpus ops page_size w i pids num_cpu source h k else open_custom ops page_size w i h k)).
  { destruct (w_type w <? kDDPROF_TYPE_CUSTOM); [by apply pevent_open_all_cpus_spec|by apply open_custom_spec]. }
  destruct (if w_type w <? kDDPROF_TYPE_CUSTOM then _ else _) as [[[res h1] k1]|]; [|by intros res h' k']. cbn [mbind option_bind].
  intros res' h' k' E Hl. destruct (Hw _ _ _ eq_refl Hl) as [Ho1 Hl1]. destruct (IsDDResFatal res) eqn:Er; [simplify_eq; split; [done|congruence]|]. apply (IH _ _ _ Ho1 _ _ _ E). by apply Hl1.
Qed.

(** ** Mapping and release *)

(** The events above [B] and [P], mapped or not. *)
Record held (B P : gset Z) (pes : list PEvent) (k : kernel) : Prop := {
  he_fds : holds B (all_fds pes) (k_fds k);
  he_pages : holds P (all_pages pes) (k_pages k);
  he_ok : Forall event_ok pes
}.

Lemma opened_held B P pes k : opened B P pes k -> held B P pes k.
Proof. intros [H1 <- H3 H4]. split; [done| |done]. rewrite (unmapped_pages _ H4). apply holds_start. Qed.

Lemma live_ids pes pes' : map pe_mapfd pes' = map pe_mapfd pes -> map pe_fd pes' = map pe_fd pes -> Forall live pes -> Forall live pes'.
Proof.
  intros Em Ef Hl. revert pes' Em Ef. induction Hl as [|e pes [Hf Hm] _ IH]; intros [|e' pes'] Em Ef; try done. cbn [map] in Em, Ef. injection Em as Em1 Em2. injection Ef as Ef1 Ef2.
  constructor; [|by apply IH]. unfold live. by rewrite Em1, Ef1.
Qed.

Lemma munmap_events_ids pes k : let pes' := snd (fst (munmap_events ops pes k)) in map pe_mapfd pes' = map pe_mapfd pes /\ map pe_fd pes' = map pe_fd pes.
Proof.
  revert k. induction pes as [|e pes IH]; intros k; [done|]. cbn [munmap_events]. pose proof (munmap_event_ids e k) as [Hf Hm]. destruct (pevent_munmap_event ops e k) as [[r e'] k1].
  specialize (IH k1) as [IH1 IH2]. destruct (munmap_events ops pes k1) as [[res pes'] k2]. cbn in *. split; congruence.
Qed.

Lemma fatal_not_ok res : IsDDResFatal res = true -> IsDDResOK res = false.
Proof. unfold IsDDResFatal, IsDDResOK. intros ->%Z.eqb_eq. reflexivity. Qed.

Lemma pevent_munmap_spec B P h k : held B P (ph_pes h) k -> exists h' k', pevent_munmap ops h k = (ddres_init, h', k') /\ opened B P (ph_pes h') k' /\ (Forall live (ph_pes h) -> Forall live (ph_pes h')).
Proof.
  intros [H1 H2 H3]. unfold pevent_munmap. rewrite <- (app_nil_r (all_pages _)) in H2. destruct (munmap_events_spec P [] (ph_pes h) k H3 H2) as (pes' & k' & E & Hf & Hok & Ho & Hu & Hp).
  pose proof (munmap_events_ids (ph_pes h) k) as [Em Ef]. rewrite E in Em, Ef |- *.
  do 2 eexists. split; [done|]. apply holds_nil in Hp. split; [split; cbn [ph_pes]; [by rewrite Ho, Hf|done|done|done]|]. by apply live_ids.
Qed.

(** Every event is open and mapped. *)
Definition ready (e : PEvent) : Prop := live e /\ pe_base e <> None.

Lemma ready_intro pes pes' : Forall live pes -> map pe_mapfd pes' = map pe_mapfd pes -> map pe_fd pes' = map pe_fd pes ->
  Forall (fun e => pe_mapfd e <> -1 -> pe_base e <> None) pes' -> Forall ready pes'.
Proof.
  intros Hl Em Ef Hb. pose proof (live_ids _ _ Em Ef Hl) as Hl'. apply Forall_forall. intros e He. rewrite Forall_forall in Hb, Hl'. specialize (Hl' e He). split; [done|]. apply Hb; [done|apply Hl'].
Qed.

Lemma pevent_mmap_spec B P h o ok k : opened B P (ph_pes h) k -> exists res h' k', pevent_mmap ops h o ok k = (res, h', k') /\
  ((IsDDResOK res = false /\ IsDDResFatal res = true /\ opened B P (ph_pes h') k' /\ (Forall live (ph_pes h) -> Forall live (ph_pes h'))) \/
   (res = ddres_init /\ held B P (ph_pes h') k' /\ (Forall live (ph_pes h) -> Forall ready (ph_pes h')))).
Proof.
  intros Ho. unfold pevent_mmap. destruct (o && negb ok); [by do 3 eexists; split; [done|]; left|].
  destruct (opened_held _ _ _ _ Ho) as [H1 _ H3]. destruct Ho as [_ <- _ H4].
  destruct (mmap_events_spec (k_pages k) [] (ph_pes h) k H3 H4 (holds_start _)) as (res & pes' & k1 & -> & Hf & Hok & Hfd & Hp & Hb & Em & Ef). rewrite app_nil_r in Hp.
  assert (Hheld : held B (k_pages k) pes' k1) by (split; [by rewrite Hf, Hfd|done|done]).
  destruct (IsDDResFatal res) eqn:Er.
  - destruct (pevent_munmap_spec B (k_pages k) (mkHdr pes' (ph_attrs h)) k1 Hheld) as (h2 & k2 & E & Ho2 & Hl2). rewrite E. do 3 eexists. split; [done|]. left.
    split; [by apply fatal_not_ok|]. split; [done|]. split; [done|]. intros Hl. apply Hl2. by apply (live_ids (ph_pes h)).
  - do 3 eexists. split; [done|]. right. split; [done|]. split; [done|]. intros Hl. cbn [ph_pes]. apply (ready_intro (ph_pes h)); [done|done|done|by apply Hb].
Qed.

Lemma pevent_cleanup_spec B P h k : held B P (ph_pes h) k -> exists h' k', pevent_cleanup ops h k = (ddres_init, h', k') /\ ph_pes h' = [] /\ k_fds k' = B /\ k_pages k' = P.
Proof.
  intros Hh. unfold pevent_cleanup. destruct (pevent_munmap_spec B P h k Hh) as (h1 & k1 & -> & [H1 H2 H3 H4] & _). unfold pevent_close.
  rewrite <- (app_nil_r (all_fds _)) in H1. destruct (close_events_spec B [] (ph_pes h1) k1 H3 H1) as (k2 & -> & Hp & Hf). apply holds_nil in Hf.
  do 2 eexists. split; [done|]. split; [done|]. split; [done|congruence].
Qed.

Lemma pevent_setup_spec page_size ws pids num_cpu source ok h k res h1 k1 : ph_pes h = [] -> pevent_setup ops page_size ws pids num_cpu source ok h k = Some (res, h1, k1) ->
  held (k_fds k) (k_pages k) (ph_pes h1) k1 /\ (IsDDResFatal res = false -> res = ddres_init /\ Forall ready (ph_pes h1)).
Proof.
  intros Hh E. unfold pevent_setup in E.
  assert (Ho : opened (k_fds k) (k_pages k) (ph_pes h) k) by (rewrite Hh; split; [apply holds_start|done|done|done]).
  pose proof (pevent_open_spec _ _ page_size ws 0 pids num_cpu source h k Ho) as Hopen. rewrite Hh in Hopen.
  destruct (pevent_open _ _ _ _ _ _ _ _ _) as [[[res0 h0] k0]|]; [|done]. cbn [mbind option_bind] in E. destruct (Hopen _ _ _ eq_refl (List.Forall_nil _)) as [Ho0 Hl0].
  destruct (IsDDResFatal res0) eqn:Er0; [simplify_eq; split; [by apply opened_held|congruence]|]. specialize (Hl0 eq_refl).
  destruct (pevent_mmap_spec _ _ h0 true ok k0 Ho0) as (r1 & h2 & k2 & E2 & [(Hk & Hf & Ho2 & Hl2)|(-> & Hh2 & Hr2)]); rewrite E2 in E.
  - rewrite Hk in E. cbn [negb] in E. destruct (pevent_mmap_spec _ _ h2 false ok k2 Ho2) as (r3 & h3 & k3 & E3 & [(Hk3 & Hf3 & Ho3 & Hl3)|(-> & Hh3 & Hr3)]); rewrite E3 in E.
    + rewrite Hf3 in E. simplify_eq. split; [by apply opened_held|congruence].
    + change (IsDDResFatal ddres_init) with false in E. cbv iota in E. simplify_eq. split; [done|]. intros _. split; [done|]. by apply Hr3, Hl2.
  - change (IsDDResOK ddres_init) with true in E. cbn [negb] in E. simplify_eq. split; [done|]. intros _. split; [done|]. by apply Hr2.
Qed.

End Proofs.

(** ** The set-up returns *)

Section Defined.
Context (ops : kernel_ops) (page_size : Z) (Hpage : 4096 <= page_size <= 2 ^ 16).

(** A watcher whose events can be opened: a custom one needs its ring to be mapped. *)
Definition watcher_fits (w : PerfWatcher) : Prop :=
  0 <= w_stack_sample_size w < 2 ^ 32 /\ (w_type w < kDDPROF_TYPE_CUSTOM \/ forall n, mmap_ok ops n = true).

(** It returns, with at most one more attribute. *)
Definition returns (h : PEventHdr) (extra : nat) (r : option (DDRes * PEventHdr * kernel)) : Prop :=
  exists res h' k', r = Some (res, h', k') /\ (length (ph_attrs h') <= length (ph_attrs h) + extra)%nat.

Lemma returns_intro h extra res h' k' : (length (ph_attrs h') <= length (ph_attrs h) + extra)%nat -> returns h extra (Some (res, h', k')).
Proof. intros H. by do 3 eexists. Qed.

Lemma ring_pages_defined o stack : 0 <= o <= 29 -> 0 <= stack < 2 ^ 32 -> exists size, ring_pages page_size o stack = Some size.
Proof.
  intros Ho Hs. unfold ring_pages, pevent_compute_min_mmap_order.
  destruct (mmap_order_loop_spec 32 page_size o (sizeof_allocation_event stack) k_min_number_samples_per_ring_buffer) as (r & -> & _);
    [done|unfold sizeof_allocation_event, sizeof_AllocationEvent, k_perf_register_count; lia|unfold k_min_number_samples_per_ring_buffer; lia|done|lia|]. by eexists.
Qed.

Lemma set_info_defined fd a stack e : 0 <= stack < 2 ^ 32 -> exists e', pevent_set_info page_size fd a stack e = Some e'.
Proof. intros Hs. unfold pevent_set_info. destruct (ring_pages_defined k_default_buffer_size_shift stack) as [size ->]; [unfold k_default_buffer_size_shift; lia|done|]. by eexists. Qed.

Lemma open_other_cpus_defined n w i a tids h k : 0 <= w_stack_sample_size w < 2 ^ 32 -> returns h 0 (open_other_cpus ops n page_size w i a tids h k).
Proof.
  intros Hs. revert h k. induction n as [|n IH]; intros h k; cbn [open_other_cpus]; [apply returns_intro; lia|].
  destruct (negb (has_room h)); [apply returns_intro; lia|]. destruct (sys_open ops k) as [fd k1]. destruct (fd =? -1); [apply returns_intro; cbn; lia|].
  destruct (set_info_defined fd a (w_stack_sample_size w) (new_event i) Hs) as [e ->]. cbn [mbind option_bind]. destruct (open_sub_events _ _ _ _) as [e' k2]. apply (IH (push_event h e') k2).
Qed.

Lemma open_all_cpus_defined w i pids num_cpu source h k : 0 <= w_stack_sample_size w < 2 ^ 32 -> (length (ph_attrs h) < kMaxTypeWatcher)%nat ->
  returns h 1 (pevent_open_all_cpus ops page_size w i pids num_cpu source h k).
Proof.
  intros Hs Ha. unfold pevent_open_all_cpus, pevent_register_cpu_0. destruct (negb (has_room h)); [apply returns_intro; lia|].
  destruct (try_configs _ _ _) as [[[fd attr]|] k1]; [|apply returns_intro; cbn; lia]. destruct (Nat.ltb_spec (length (ph_attrs h)) kMaxTypeWatcher); [|lia]. cbn [negb].
  destruct (set_info_defined fd (Z.of_nat (length (ph_attrs h))) (w_stack_sample_size w) (new_event i) Hs) as [e ->]. cbn [mbind option_bind].
  change (IsDDResFatal ddres_init) with false. cbv iota. destruct (num_cpu <=? 0); [apply returns_intro; cbn; rewrite length_app; cbn; lia|]. destruct (open_sub_events _ _ _ _) as [e' k2].
  destruct (open_other_cpus_defined (Z.to_nat (num_cpu - 1)) w i (pe_attr_idx e') (tail pids) (push_event (mkHdr (ph_pes h) (ph_attrs h ++ [attr])) e') k2 Hs) as (res & h' & k' & -> & Hl).
  apply returns_intro. cbn in Hl. rewrite length_app in Hl. cbn in Hl. lia.
Qed.

(** When no mapping is refused the ring is mirrored. *)
Lemma perfown_mirrored size single k : (forall n, mmap_ok ops n = true) -> exists b k', perfown_sz ops size single k = (mkRegion (Some b) true, k').
Proof. intros Hm. unfold perfown_sz, sys_mmap, sys_mmap_fixed. rewrite !Hm. by do 2 eexists. Qed.

Lemma open_custom_defined w i h k : 0 <= w_stack_sample_size w < 2 ^ 32 -> (forall n, mmap_ok ops n = true) -> returns h 1 (open_custom ops page_size w i h k).
Proof.
  intros Hs Hm. unfold open_custom. destruct (negb (has_room h)); [apply returns_intro; lia|].
  destruct (ring_pages_defined k_mpsc_buffer_size_shift (w_stack_sample_size w)) as [size ->]; [unfold k_mpsc_buffer_size_shift; lia|done|]. cbn [mbind option_bind].
  assert (Hc : exists r, ring_buffer_create ops size kMPSCRingBuffer true (new_event i) k = Some r).
  { unfold ring_buffer_create. destruct (sys_open ops k) as [mapfd k1]. destruct (Z.eqb_spec mapfd (-1)); [by eexists|]. cbv zeta. destruct (negb _); [destruct (sys_close _ _ _); by eexists|].
    destruct (sys_open ops (count k1)) as [fd k2]. destruct (fd =? -1); [destruct (sys_close _ _ _); by eexists|]. unfold pevent_mmap_event. cbn [pe_mapfd pe_size pe_type].
    destruct (Z.eqb_spec mapfd (-1)); [done|]. cbn [negb]. destruct (perfown_mirrored size false k2 Hm) as (b & k3 & ->). cbn [rg_addr rg_mirrored set_base pe_base mbind option_bind]. destruct (pevent_munmap_event _ _ _) as [[r e] k4]. by eexists. }
  destruct Hc as [[[res e] k'] ->]. apply returns_intro. cbn. lia.
Qed.

Lemma pevent_open_defined ws i pids num_cpu source h k : Forall watcher_fits ws -> (length (ph_attrs h) + length ws <= kMaxTypeWatcher)%nat ->
  exists r, pevent_open ops page_size ws i pids num_cpu source h k = Some r.
Proof.
  intros Hws. revert i h k. induction Hws as [|w ws [Hs Hw] _ IH]; intros i h k Hl; cbn [pevent_open]; [by eexists|]. cbn [length] in Hl.
  assert (Hr : returns h 1 (if w_type w <? kDDPROF_TYPE_CUSTOM then pevent_open_all_cpus ops page_size w i pids num_cpu source h k else open_custom ops page_size w i h k)).
  { destruct (Z.ltb_spec (w_type w) kDDPROF_TYPE_CUSTOM); [apply open_all_cpus_defined; [done|lia]|]. destruct Hw as [?|Hm]; [lia|]. by apply open_custom_defined. }
  destruct Hr as (res & h' & k' & -> & Hl'). cbn [mbind option_bind]. destruct (IsDDResFatal res); [by eexists|]. apply IH. lia.
Qed.

(** The set-up returns for at most ten watchers, the custom ones when their rings can be mapped. *)
Lemma pevent_setup_defined ws pids num_cpu source ok k : Forall watcher_fits ws -> (length ws <= kMaxTypeWatcher)%nat ->
  exists r, pevent_setup ops page_size ws pids num_cpu source ok pevent_init k = Some r.
Proof.
  intros Hws Hl. unfold pevent_setup. destruct (pevent_open_defined ws 0 pids num_cpu source pevent_init k Hws Hl) as [[[res h] k1] ->]. cbn [mbind option_bind].
  destruct (IsDDResFatal res); [by eexists|]. destruct (pevent_mmap _ _ _ _ _) as [[res1 h1] k2]. destruct (negb _); [|by eexists]. destruct (pevent_mmap _ _ _ _ _) as [[res2 h2] k3]. destruct (IsDDResFatal res2); by eexists.
Qed.
End Defined.


(** ** A concrete kernel *)

(** The descriptors and pages above those in use; the calls in [refused] fail. *)
Definition above (X : gset Z) : Z := foldr Z.max 2 (elements X) + 1.
Definition demo_kernel (opens mmaps : list nat) : kernel_ops :=
  mkOps above (fun X _ => above X) (fun n => negb (existsb (Nat.eqb n) opens)) (fun n => negb (existsb (Nat.eqb n) mmaps)) (fun _ => true) (fun _ => true) (fun _ => true).

Lemma foldr_max_le l x : x ∈ l -> x <= foldr Z.max 2 l.
Proof. induction l as [|y l IH]; [by intros ?%not_elem_of_nil|]. intros [-> | Hx]%elem_of_cons; cbn; [lia|]. specialize (IH Hx). lia. Qed.

Lemma foldr_max_ge l : 2 <= foldr Z.max 2 l.
Proof. induction l as [|y l IH]; cbn; lia. Qed.

Lemma above_fresh X x : above X <= x -> x ∉ X.
Proof. unfold above. intros H Hx%elem_of_elements%foldr_max_le. lia. Qed.

Lemma demo_kernel_ok opens mmaps : kernel_ok (demo_kernel opens mmaps).
Proof.
  split; cbn; [|intros X n x Hx%elem_of_seqZ; apply above_fresh; lia|done|done].
  intros X. split; [by apply above_fresh|]. unfold above. pose proof (foldr_max_ge (elements X)). lia.
Qed.

Definition demo_sw_watcher : PerfWatcher := mkWatcher BASE_STYPES 0 99 "sCPU" 9 PERF_TYPE_SOFTWARE kTry true 0 4096 kSample kSum 0 0 0.
Definition demo_custom_watcher : PerfWatcher := mkWatcher BASE_STYPES 0 524288 "sALLOC" 19 kDDPROF_TYPE_CUSTOM kOff false 3 4096 kSample kSum 0 0 0.
Definition demo_start : kernel := mkK {[0; 1; 2]} {[100]} 0.
Definition summary (r : option (DDRes * PEventHdr * kernel)) : option (bool * list (Z * list Z * bool)) :=
  let? (res, h, k) := r in Some (IsDDResOK res, map (fun e => (pe_fd e, pe_sub_fds e, match pe_base e with Some _ => true | None => false end)) (ph_pes h)).


(** ** Calls that go wrong *)

(** The ring of a custom event that cannot be mapped is written all the same. *)
Example unmapped_ring_is_written :
  pevent_setup (demo_kernel [] [3]%nat) 4096 [demo_custom_watcher] [7] 1 1 true pevent_init demo_start = None.
Proof. vm_compute. reflexivity. Qed.

(** The eleventh attribute does not fit in the table. *)
Example eleven_watchers_overflow :
  pevent_setup (demo_kernel [] []) 4096 (replicate 11 demo_sw_watcher) [7] 1 1 true pevent_init demo_start = None /\
  bool_decide (is_Some (pevent_setup (demo_kernel [] []) 4096 (replicate 10 demo_sw_watcher) [7] 1 1 true pevent_init demo_start)) = true.
Proof. split; vm_compute; reflexivity. Qed.

(** A ring that is cleaned up twice closes its mapped descriptor twice. *)
Example second_cleanup_fails : exists e k e1 k1,
  ring_buffer_setup (demo_kernel [] []) 3 kMPSCRingBuffer true (new_event 0) demo_start = Some (ddres_init, e, k) /\
  ring_buffer_cleanup (demo_kernel [] []) e k = (ddres_init, e1, k1) /\ pe_fd e1 = -1 /\ pe_mapfd e1 = 3 /\ 3 ∉ k_fds k1 /\
  IsDDResOK (ring_buffer_cleanup (demo_kernel [] []) e1 k1).1.1 = false.
Proof.
  do 4 eexists. split; [vm_compute; reflexivity|]. split; [vm_compute; reflexivity|]. split; [vm_compute; reflexivity|]. split; [vm_compute; reflexivity|].
  split; [by apply (bool_decide_eq_false_1 (3 ∈ _)); vm_compute|]. vm_compute. reflexivity.
Qed.
