(* ===== verification/MainLoop.v ===== *)
(** * The main loop: definitions

    Models [src/perf_mainloop.cc]: the worker's loop that polls the rings, takes the
    events out of them, in timestamp order or ring by ring, gives them to the worker
    and triggers exports; and the parent's loop that forks workers.

    The loop shares the rings with the kernel and the instrumented processes: an
    environment of type [E] answers clock readings, allocation results and the
    termination flag, and [env_step] lets the other side of the rings act, before
    every access of the loop to shared state.  The priority queue, the worker and the
    environment are interfaces ([PriorityQueue], [WorkerOps], [LoopEnv]). *)

From S2P Require Import Prelude RingBuffer PerfRing PerfSample MpscRing Ddres Clocks Watcher.

(** ** The events of the loop *)

(** [PEvent]: a ring, its descriptors and the index of its watcher. *)
Record PEvent := mkPE {
  watcher_pos : nat; pe_fd : Z; pe_mapfd : Z; pe_ring_buffer_size : Z; pe_custom_event : bool; pe_rb : RingBuffer
}.

Definition set_rb (pe : PEvent) (rb : RingBuffer) : PEvent :=
  mkPE (watcher_pos pe) (pe_fd pe) (pe_mapfd pe) (pe_ring_buffer_size pe) (pe_custom_event pe) rb.

(** [EventWrapper]: [event] points into ring [buffer_idx]. *)
Record EventWrapper := mkEW { ew_event : ConstBuffer; ew_timestamp : Z; ew_idx : nat }.

(** [EventQueue]: the operations of [std::priority_queue] with the smallest
    timestamp on top. *)
Class PriorityQueue (Q : Type) := {
  pq_empty : Q;
  pq_top : Q -> option EventWrapper;
  pq_push : EventWrapper -> Q -> Q;
  pq_pop : Q -> Q
}.

(** The operations of the worker that the loop calls, with the environment they run
    in: [attr->init_fun], [attr->finish_fun], [pid_backpopulate] of the profiled
    process, [ddprof_worker_process_event], [ddprof_worker_maybe_export], the final
    [ddprof_worker_cycle] and the restart flag of the persistent state. *)
Class WorkerOps (E W : Type) := {
  init_fun : E -> W -> DDRes * W;
  finish_fun : E -> W -> W;
  backpopulate : E -> W -> option W;
  process_event : E -> W -> list Z -> nat -> option (DDRes * W);
  maybe_export : E -> W -> Z -> option (DDRes * W);
  final_cycle : E -> W -> option (DDRes * W);
  wants_restart : W -> bool
}.

(** The result of [poll]: for every descriptor, POLLHUP and POLLIN. *)
Inductive poll_result := PollEintr | PollError | PollReady (revents : list (bool * bool)).

Class LoopEnv (E : Type) := {
  env_step : E -> list PEvent -> E * list PEvent;   (* producers, kernel, time *)
  perf_now : E -> Z;                                (* [PerfClock::now()] *)
  steady_now : E -> Z;
  memalign_ok : E -> bool;
  termination_requested : E -> bool;
  poll_fds : E -> list Z -> poll_result;            (* [poll] on the descriptors *)
  read_eventfd_ok : E -> nat -> bool                (* reading the eventfd of ring [i] *)
}.

Definition kMaxSampleLatency : Z := 50 * 1000.
Definition k_sample_default_wakeup : Z := 100 * 1000000.
Definition time_point_max : Z := 2 ^ 63 - 1.

(** What a loop did: it returned a result, or the iterations given to it ran out. *)
Inductive outcome := Returned (r : DDRes) | OutOfFuel.

Section Loop.

Context {Q E W : Type} `{PriorityQueue Q} `{WorkerOps E W} `{LoopEnv E}.

(** [sample_types]: the [sample_type] of each watcher of the context. *)
Context (sample_types : list Z).

Record LoopState := mkLS {
  ls_pes : list PEvent;
  ls_queue : Q;
  ls_worker : W;
  ls_env : E;
  ls_processed : list (nat * list Z)      (* history: ring and bytes of each event given to the worker *)
}.

Definition set_queue (st : LoopState) (q : Q) : LoopState := mkLS (ls_pes st) q (ls_worker st) (ls_env st) (ls_processed st).
Definition set_ring (st : LoopState) (i : nat) (rb : RingBuffer) : LoopState :=
  mkLS (alter (fun pe => set_rb pe rb) i (ls_pes st)) (ls_queue st) (ls_worker st) (ls_env st) (ls_processed st).
Definition set_worker (st : LoopState) (w : W) : LoopState := mkLS (ls_pes st) (ls_queue st) w (ls_env st) (ls_processed st).
Definition record_event (st : LoopState) (i : nat) (ev : list Z) : LoopState :=
  mkLS (ls_pes st) (ls_queue st) (ls_worker st) (ls_env st) (ls_processed st ++ [(i, ev)]).

(** The other side of the rings acts, and time passes. *)
Definition tick (st : LoopState) : LoopState :=
  let '(e, pes) := env_step (ls_env st) (ls_pes st) in mkLS pes (ls_queue st) (ls_worker st) e (ls_processed st).

(** [perf_clock_time_point_from_timestamp(hdr_time(event, sample_type of the watcher))]. *)
Definition event_time (pe : PEvent) (ev : list Z) : option Z :=
  let? mask := sample_types !! watcher_pos pe in
  let? t := hdr_time ev mask in Some (perf_clock_time_point_from_timestamp t).

(** Enqueue the event at [b] of ring [i], whose state is now [rb]. *)
Definition enqueue (st : LoopState) (i : nat) (pe : PEvent) (rb : RingBuffer) (b : ConstBuffer) : option (Z * LoopState) :=
  let? ev := deref rb b in
  let? timestamp := event_time pe ev in
  Some (timestamp, set_queue (set_ring st i rb) (pq_push (mkEW b timestamp i) (ls_queue st))).

(** The perf ring [i] is read once, unless one of its events is in the queue. *)
Definition dequeue_perf (st : LoopState) (i : nat) : option (nat * LoopState) :=
  let st := tick st in
  let? pe := ls_pes st !! i in
  if perf_rb_has_inflight_events (pe_rb pe) then Some (0%nat, st)
  else
    let? (b, rb) := perf_rb_read_event (pe_rb pe) (memalign_ok (ls_env st)) in
    match b with
    | None => Some (0%nat, set_ring st i rb)
    | Some b => let? (_, st) := enqueue st i pe rb b in Some (1%nat, st)
    end.

(** The multi-producer ring [i] is read until it is empty or an event is too recent. *)
Fixpoint dequeue_mpsc (fuel : nat) (st : LoopState) (i : nat) (max_timestamp : Z) : option (nat * bool * LoopState) :=
  match fuel with
  | O => Some (0%nat, false, st)
  | S f =>
      let st := tick st in
      let? pe := ls_pes st !! i in
      let? (b, rb) := mpsc_rb_read_sample (pe_rb pe) in
      match b with
      | None => Some (0%nat, true, set_ring st i rb)
      | Some b =>
          let? (timestamp, st) := enqueue st i pe rb b in
          if max_timestamp <? timestamp then Some (1%nat, true, st)
          else let? (n, done, st) := dequeue_mpsc f st i max_timestamp in Some (S n, done, st)
      end
  end.

Definition dequeue_ring (fuel : nat) (st : LoopState) (i : nat) (max_timestamp : Z) : option (nat * bool * LoopState) :=
  let? pe := ls_pes st !! i in
  match rb_type (pe_rb pe) with
  | kPerfRingBuffer => let? (n, st) := dequeue_perf st i in Some (n, true, st)
  | kMPSCRingBuffer => dequeue_mpsc fuel st i max_timestamp
  end.

(** The rings [i .. ] in order; the result counts the new events. *)
Fixpoint dequeue_rings (fuel : nat) (st : LoopState) (idx : list nat) (max_timestamp : Z) : option (nat * bool * LoopState) :=
  match idx with
  | [] => Some (0%nat, true, st)
  | i :: idx' =>
      let? (n, done, st) := dequeue_ring fuel st i max_timestamp in
      if done : bool then
        let? (m, done, st) := dequeue_rings fuel st idx' max_timestamp in Some ((n + m)%nat, done, st)
      else Some (n, false, st)
  end.

(** The release of the processed event: the perf ring advances and its next event is
    enqueued; the multi-producer ring advances if possible. *)
Definition release_event (st : LoopState) (evt : EventWrapper) : option LoopState :=
  let i := ew_idx evt in
  let st := tick st in
  let? pe := ls_pes st !! i in
  match rb_type (pe_rb pe) with
  | kPerfRingBuffer =>
      let st := tick (set_ring st i (perf_rb_advance (pe_rb pe))) in
      let? pe := ls_pes st !! i in
      let? (b, rb) := perf_rb_read_event (pe_rb pe) (memalign_ok (ls_env st)) in
      match b with
      | None => Some (set_ring st i rb)
      | Some b => let? (_, st) := enqueue st i pe rb b in Some st
      end
  | kMPSCRingBuffer =>
      match buf_data (ew_event evt) with
      | InData off => let? rb := mpsc_rb_advance_if_possible (pe_rb pe) off in Some (set_ring st i rb)
      | InWrapCopy => None
      end
  end.

(** The worker is given the event on top of the queue. *)
Definition process_top (st : LoopState) (evt : EventWrapper) : option (DDRes * LoopState) :=
  let? pe := ls_pes st !! ew_idx evt in
  let? ev := deref (pe_rb pe) (ew_event evt) in
  let? (res, w) := process_event (ls_env st) (ls_worker st) ev (watcher_pos pe) in
  Some (res, record_event (set_worker st w) (ew_idx evt) ev).

(** How the processing of the queue ended. *)
Inductive queue_end := QueueEmpty | TooRecent | Failed (r : DDRes) | QueueOutOfFuel.

Fixpoint process_queue (fuel : nat) (st : LoopState) (max_timestamp : Z) : option (queue_end * LoopState) :=
  match fuel with
  | O => Some (QueueOutOfFuel, st)
  | S f =>
      match pq_top (ls_queue st) with
      | None => Some (QueueEmpty, st)
      | Some evt =>
          if max_timestamp <? ew_timestamp evt then Some (TooRecent, st)
          else
            let? (res, st) := process_top st evt in
            if negb (IsDDResOK res) then Some (Failed res, st)
            else
              let? st := release_event st evt in
              process_queue f (set_queue st (pq_pop (ls_queue st))) max_timestamp
      end
  end.

(** The body of the outer loop from a clock reading on: rings, then queue.
    [None]: the loop goes on with a new reading. *)
Definition ordered_round (fuel : nat) (st : LoopState) (drain : bool) (now : Z) : option (option outcome * LoopState) :=
  let max_timestamp := if drain then time_point_max else now - kMaxSampleLatency in
  let? (new_events, done, st) := dequeue_rings fuel st (seq 0 (length (ls_pes st))) max_timestamp in
  if negb done then Some (Some OutOfFuel, st)
  else
    let? (e, st) := process_queue fuel st max_timestamp in
    match e with
    | QueueOutOfFuel => Some (Some OutOfFuel, st)
    | TooRecent => Some (Some (Returned ddres_init), st)
    | Failed r => Some (Some (Returned r), st)
    | QueueEmpty => if Nat.eqb new_events 0 then Some (Some (Returned ddres_init), st) else Some (None, st)
    end.

Fixpoint ordered_loop (fuel : nat) (st : LoopState) (drain : bool) (now deadline : Z) : option (outcome * LoopState) :=
  match fuel with
  | O => Some (OutOfFuel, st)
  | S f =>
      if negb (termination_requested (ls_env st)) && (now <=? deadline) then
        let? (o, st) := ordered_round fuel st drain now in
        match o with
        | Some o => Some (o, st)
        | None => let st := tick st in ordered_loop f st drain (perf_now (ls_env st)) deadline
        end
      else Some (Returned ddres_init, st)
  end.

Definition worker_process_ring_buffers_ordered (fuel : nat) (st : LoopState) (drain : bool) : option (outcome * LoopState) :=
  let st := tick st in
  let now := perf_now (ls_env st) in
  let deadline := if drain then time_point_max else now + k_sample_default_wakeup in
  ordered_loop fuel st drain now deadline.

(** ** Without reordering *)

(** The events of a buffer of the perf ring, in order; [reader.advance(hdr->size)]
    releases each after it was processed. *)
Fixpoint process_buffer (fuel : nat) (st : LoopState) (i : nat) (buffer : list Z) : option (outcome * LoopState) :=
  match fuel with
  | O => Some (OutOfFuel, st)
  | S f =>
      match buffer with
      | [] => Some (Returned ddres_init, st)
      | _ =>
          let? pe := ls_pes st !! i in
          let? h := load_hdr buffer in
          let ev := take (Z.to_nat (h_size h)) buffer in
          let? (res, w) := process_event (ls_env st) (ls_worker st) ev (watcher_pos pe) in
          let st := record_event (set_worker st w) i ev in
          if IsDDResNotOK res then Some (Returned res, st)
          else
            let st := tick st in
            let? pe := ls_pes st !! i in
            process_buffer f (set_ring st i (pr_advance (pe_rb pe) (h_size h))) i
              (drop (Z.to_nat (Z.min (h_size h) (Z.of_nat (length buffer)))) buffer)
      end
  end.

(** A perf ring: everything available when the reader was made; its destructor
    releases what was read.  The boolean tells whether there was an event. *)
Definition process_perf_ring (fuel : nat) (st : LoopState) (i : nat) : option (outcome * bool * LoopState) :=
  let st := tick st in
  let? pe := ls_pes st !! i in
  let head := pr_update_available (pe_rb pe) in
  let? (b, rb) := pr_read_all_available (pe_rb pe) head (memalign_ok (ls_env st)) in
  let st := set_ring st i rb in
  let? buffer := match b with Some b => deref rb b | None => Some [] end in
  let? (o, st) := process_buffer fuel st i buffer in
  let? pe := ls_pes st !! i in
  Some (o, bool_decide (buffer <> []), set_ring st i (pr_destroy (pe_rb pe))).

(** A multi-producer ring: the records before the head when the reader was made, each
    released after it was processed. *)
Fixpoint process_samples (fuel : nat) (st : LoopState) (i : nat) (head : Z) : option (outcome * bool * LoopState) :=
  match fuel with
  | O => Some (OutOfFuel, false, st)
  | S f =>
      let? pe := ls_pes st !! i in
      let? (b, rb) := mpsc_rb_read_sample_head (pe_rb pe) head in
      let st := set_ring st i rb in
      match b with
      | None => Some (Returned ddres_init, false, st)
      | Some b =>
          let? ev := deref rb b in
          match ev with
          | [] => Some (Returned ddres_init, false, st)
          | _ =>
              let? (res, w) := process_event (ls_env st) (ls_worker st) ev (watcher_pos pe) in
              let st := record_event (set_worker st w) i ev in
              if IsDDResNotOK res then Some (Returned res, true, st)
              else
                let st := tick st in
                let? pe := ls_pes st !! i in
                let? (o, _, st) := process_samples f (set_ring st i (mr_advance (pe_rb pe))) i head in
                Some (o, true, st)
          end
      end
  end.

Definition process_mpsc_ring (fuel : nat) (st : LoopState) (i : nat) : option (outcome * bool * LoopState) :=
  let st := tick st in
  let? pe := ls_pes st !! i in
  let? (o, events, st) := process_samples fuel st i (writer_pos (pe_rb pe)) in
  let? pe := ls_pes st !! i in
  Some (o, events, set_ring st i (mr_destroy (pe_rb pe))).

Definition process_ring (fuel : nat) (st : LoopState) (i : nat) : option (outcome * bool * LoopState) :=
  let? pe := ls_pes st !! i in
  match rb_type (pe_rb pe) with
  | kPerfRingBuffer => process_perf_ring fuel st i
  | kMPSCRingBuffer => process_mpsc_ring fuel st i
  end.

(** One pass over the rings; it stops at the first error. *)
Fixpoint process_rings (fuel : nat) (st : LoopState) (idx : list nat) : option (outcome * bool * LoopState) :=
  match idx with
  | [] => Some (Returned ddres_init, false, st)
  | i :: idx' =>
      let? (o, events, st) := process_ring fuel st i in
      match o with
      | Returned r =>
          if IsDDResNotOK r then Some (o, events, st)
          else let? (o, events', st) := process_rings fuel st idx' in Some (o, events || events', st)
      | OutOfFuel => Some (o, events, st)
      end
  end.

(** [worker_process_ring_buffers]: passes until there is no event or the time is up;
    returns also the time and whether it timed out. *)
Fixpoint unordered_loop (fuel : nat) (st : LoopState) (loop_start : Z) : option (outcome * Z * bool * LoopState) :=
  match fuel with
  | O => Some (OutOfFuel, 0, false, st)
  | S f =>
      let? (o, events, st) := process_rings fuel st (seq 0 (length (ls_pes st))) in
      match o with
      | Returned r =>
          if IsDDResNotOK r then Some (o, 0, false, st)
          else
            let st := tick st in
            let local_now := steady_now (ls_env st) in
            if events && (local_now - loop_start <? k_sample_default_wakeup) then unordered_loop f st loop_start
            else Some (Returned ddres_init, local_now, events && (k_sample_default_wakeup <=? local_now - loop_start), st)
      | OutOfFuel => Some (o, 0, false, st)
      end
  end.

Definition worker_process_ring_buffers (fuel : nat) (st : LoopState) : option (outcome * Z * bool * LoopState) :=
  let st := tick st in unordered_loop fuel st (steady_now (ls_env st)).

(** ** The worker's loop *)

(** [pollfd_setup]: the descriptors polled, for POLLIN. *)
Definition pollfd_setup (pes : list PEvent) : list Z := map pe_fd pes.

(** How the poll loop ended: it was left to export and stop, it returned, or its
    iterations ran out. *)
Inductive loop_end := LoopLeft | LoopReturned (r : DDRes) | LoopOutOfFuel.

(** The scan of the polled descriptors: whether to stop, or [None] when an eventfd
    could not be read. *)
Fixpoint scan_fds (e : E) (i : nat) (pes : list PEvent) (revents : list (bool * bool)) (skip_poll : bool) : option bool :=
  match pes, revents with
  | pe :: pes', (hup, pollin) :: revents' =>
      if negb hup && negb skip_poll && pollin && pe_custom_event pe && negb (read_eventfd_ok e i) then None
      else match scan_fds e (S i) pes' revents' skip_poll with
           | Some stop => Some (hup || stop)
           | None => None
           end
  | _, _ => Some false
  end.

(** One iteration after the poll: scan, process, export; returns the new [skip_poll],
    or how the loop ends. *)
Definition loop_body (fuel : nat) (st : LoopState) (reorder_events : bool) (revents : list (bool * bool)) (skip_poll : bool) :
    option ((bool + loop_end) * LoopState) :=
  match scan_fds (ls_env st) 0 (ls_pes st) revents skip_poll with
  | None => Some (inr (LoopReturned (ddres_error (what_of "PERFRB"))), st)
  | Some stop =>
      let? (o, now, skip_poll, st) :=
        (if reorder_events : bool then
           let? (o, st) := worker_process_ring_buffers_ordered fuel st stop in
           let st := tick st in Some (o, steady_now (ls_env st), skip_poll, st)
         else worker_process_ring_buffers fuel st) in
      match o with
      | OutOfFuel => Some (inr LoopOutOfFuel, st)
      | Returned r =>
          if IsDDResFatal r then Some (inr (LoopReturned r), st)
          else
            let? (r, w) := maybe_export (ls_env st) (ls_worker st) now in
            let st := set_worker st w in
            if IsDDResFatal r then Some (inr (LoopReturned r), st)
            else if wants_restart w then Some (inr (LoopReturned ddres_init), st)
            else if stop then Some (inr LoopLeft, st)
            else Some (inl skip_poll, st)
      end
  end.

Fixpoint poll_loop (fuel : nat) (st : LoopState) (reorder_events : bool) (revents : list (bool * bool)) (skip_poll : bool) :
    option (loop_end * LoopState) :=
  match fuel with
  | O => Some (LoopOutOfFuel, st)
  | S f =>
      let st := tick st in
      if termination_requested (ls_env st) then Some (LoopLeft, st)
      else
        match (if skip_poll then PollReady revents else poll_fds (ls_env st) (pollfd_setup (ls_pes st))) with
        | PollEintr => poll_loop f st reorder_events revents skip_poll
        | PollError => Some (LoopReturned (ddres_error (what_of "POLLERROR")), st)
        | PollReady revents =>
            let? (r, st) := loop_body fuel st reorder_events revents skip_poll in
            match r with
            | inl skip_poll => poll_loop f st reorder_events revents skip_poll
            | inr e => Some (e, st)
            end
        end
  end.

(** [worker_loop]; [backpop]: a process is profiled, its mappings were asked for at the
    start, and this is the first worker. *)
Definition worker_loop (fuel : nat) (st : LoopState) (backpop reorder_events : bool) : option (outcome * LoopState) :=
  let finish (o : outcome) (st : LoopState) := Some (o, set_worker st (finish_fun (ls_env st) (ls_worker st))) in
  let '(r, w) := init_fun (ls_env st) (ls_worker st) in
  let st := set_worker st w in
  if IsDDResFatal r then finish (Returned r) st
  else
    let? w := (if backpop : bool then backpopulate (ls_env st) (ls_worker st) else Some (ls_worker st)) in
    let st := set_worker st w in
    let? (e, st) := poll_loop fuel (set_queue st pq_empty) reorder_events [] false in
    match e with
    | LoopOutOfFuel => finish OutOfFuel st
    | LoopReturned r => finish (Returned r) st
    | LoopLeft =>
        let st := tick st in
        let? (r, w) := final_cycle (ls_env st) (ls_worker st) in
        let st := set_worker st w in
        if IsDDResFatal r then finish (Returned r) st else finish (Returned ddres_init) st
    end.

(** [worker]: the value of [persistent_worker_state->errors] when it ends. *)
Definition worker (fuel : nat) (st : LoopState) (backpop reorder_events : bool) : option (option bool * LoopState) :=
  let? (o, st) := worker_loop fuel st backpop reorder_events in
  match o with
  | OutOfFuel => Some (None, st)
  | Returned r => Some (Some (IsDDResFatal r), st)
  end.

End Loop.

#[global] Arguments LoopState : clear implicits.

(** ** The parent: [spawn_workers] and [main_loop] *)

Record PersistentWorkerState := mkPWS { pws_restart_worker : bool; pws_errors : bool; pws_profile_seq : Z }.

(** The machine, for the [n]-th worker: is the termination flag set, is this process
    the child, and what the child leaves in the shared state. *)
Record fork_env := mkFork {
  f_terminated : nat -> bool; f_is_child : nat -> bool; f_child_runs : nat -> PersistentWorkerState -> PersistentWorkerState
}.

(** Result, [is_worker], the shared state and the number of workers waited for; [None]
    when the iterations run out. *)
Fixpoint spawn_workers_loop (fuel : nat) (e : fork_env) (n : nat) (p : PersistentWorkerState) :
    option (DDRes * bool * PersistentWorkerState * nat) :=
  match fuel with
  | O => None
  | S f =>
      if f_terminated e n then Some (ddres_init, false, p, n)
      else if f_is_child e n then Some (ddres_init, true, p, n)
      else
        let p := f_child_runs e n p in
        if negb (pws_restart_worker p) then
          if pws_errors p then Some (ddres_warn (what_of "MAINLOOP"), false, p, S n)
          else Some (ddres_init, false, p, S n)
        else spawn_workers_loop f e (S n) p
  end.

Definition spawn_workers (fuel : nat) (handlers_ok : bool) (e : fork_env) (p : PersistentWorkerState) :
    option (DDRes * bool * PersistentWorkerState * nat) :=
  if negb handlers_ok then Some (ddres_error (what_of "MAINLOOP_INIT"), false, p, 0%nat)
  else spawn_workers_loop fuel e 0 p.

(** [main_loop] in the parent, and in a child up to its worker: the result, or the
    state in which the child runs [worker]. *)
Definition main_loop (fuel : nat) (mmap_ok handlers_ok : bool) (e : fork_env) : option (DDRes + PersistentWorkerState) :=
  if negb mmap_ok then Some (inl (ddres_error (what_of "MAINLOOP_INIT")))
  else
    let? (r, is_worker, p, _) := spawn_workers fuel handlers_ok e (mkPWS false false 0) in
    if IsDDResNotOK r then Some (inl r)
    else if is_worker : bool then Some (inr (mkPWS false true (pws_profile_seq p)))
    else Some (inl ddres_init).

(** ** The reply to the instrumented processes *)

Record RingBufferInfo := mkRBI { rbi_mem_size : Z; rbi_ring_fd : Z; rbi_event_fd : Z; rbi_type : Z }.
Record ReplyMessage := mkReply {
  rm_request : Z; rm_pid : Z; rm_allocation_profiling_rate : Z; rm_ring_buffer : RingBufferInfo;
  rm_initial_loaded_libs_check_delay_ms : Z; rm_loaded_libs_check_interval_ms : Z;
  rm_allocation_flags : Z; rm_stack_sample_size : Z
}.

Definition kProfilerInfo : Z := 1.
Definition kReplyLiveSum : Z := 1.

Definition is_allocation_watcher (w : PerfWatcher) : bool :=
  (w_type w =? kDDPROF_TYPE_CUSTOM) && (config w =? kDDPROF_COUNT_ALLOCATIONS).

(** [context_allocation_profiling_watcher_idx]: the index, or -1. *)
Definition context_allocation_profiling_watcher_idx (ws : list PerfWatcher) : Z :=
  let i := find_index is_allocation_watcher ws in
  if Nat.ltb i (length ws) then Z.of_nat i else -1.

Definition type_number (t : RingBufferType) : Z := match t with kPerfRingBuffer => 0 | kMPSCRingBuffer => 1 end.

Definition create_reply_message (ws : list PerfWatcher) (pes : list PEvent) (pid delay_ms interval_ms : Z) : option ReplyMessage :=
  let no_ring := mkRBI (-1) (-1) (-1) 0 in
  let idx := context_allocation_profiling_watcher_idx ws in
  if idx =? -1 then Some (mkReply kProfilerInfo pid 0 no_ring 0 0 0 0)
  else
    match List.find (fun pe => Z.of_nat (watcher_pos pe) =? idx) pes with
    | None => Some (mkReply kProfilerInfo pid 0 no_ring 0 0 0 0)
    | Some pe =>
        let? w := ws !! Z.to_nat idx in
        Some (mkReply kProfilerInfo pid (sample_period w)
                (mkRBI (pe_ring_buffer_size pe) (pe_mapfd pe) (pe_fd pe) (type_number (rb_type (pe_rb pe))))
                (u32 delay_ms) (u32 interval_ms)
                (if Any (Z.land (aggregation_mode w) kLiveSum) then kReplyLiveSum else 0) (u32 (w_stack_sample_size w)))
    end.

(** ** The parent: theorems *)

(** The shared state after [k] more workers, from the [n]-th on. *)
Fixpoint after_workers (e : fork_env) (n : nat) (p : PersistentWorkerState) (k : nat) : PersistentWorkerState :=
  match k with O => p | S k' => after_workers e (S n) (f_child_runs e n p) k' end.

(** the parent's loop: while the workers end asking for a restart it forks a new one,
    it stops at the first that does not, after waiting for each of them, and reports a
    warning exactly when that one ended with errors. *)
Theorem spawn_workers_restarts fuel e n p j :
  (forall k, f_is_child e k = false) -> (forall k, (k <= j)%nat -> f_terminated e (n + k) = false) ->
  (forall k, (0 < k <= j)%nat -> pws_restart_worker (after_workers e n p k) = true) ->
  pws_restart_worker (after_workers e n p (S j)) = false -> (j < fuel)%nat ->
  spawn_workers_loop fuel e n p =
    Some (if pws_errors (after_workers e n p (S j)) then ddres_warn (what_of "MAINLOOP") else ddres_init,
          false, after_workers e n p (S j), (n + S j)%nat).
Proof.
  intros Hc. revert n p j. induction fuel as [|fuel IH]; intros n p j Ht Hr Hs Hf; [lia|]. cbn [spawn_workers_loop].
  pose proof (Ht 0%nat ltac:(lia)) as Ht0. rewrite Nat.add_0_r in Ht0. rewrite Ht0, Hc. destruct j as [|j].
  - cbn [after_workers] in *. rewrite Hs. cbn [negb]. replace (n + 1)%nat with (S n) by lia. by case_match.
  - pose proof (Hr 1%nat ltac:(lia)) as H1. cbn [after_workers] in H1. rewrite H1. cbn [negb].
    replace (n + S (S j))%nat with (S n + S j)%nat by lia.
    apply (IH (S n) (f_child_runs e n p) j); [| | |lia].
    + intros k Hk. replace (S n + k)%nat with (n + S k)%nat by lia. apply Ht. lia.
    + intros k Hk. apply (Hr (S k)). lia.
    + exact Hs.
Qed.

(** Two restarts, then a clean end. *)
Definition demo_fork : fork_env :=
  mkFork (fun _ => false) (fun _ => false) (fun n p => mkPWS (Nat.ltb n 2) false (pws_profile_seq p + 1)).

Lemma spawn_workers_restarts_witness :
  spawn_workers_loop 5 demo_fork 0 (mkPWS false false 0) = Some (ddres_init, false, mkPWS false false 3, 3%nat).
Proof.
  apply (spawn_workers_restarts 5 demo_fork 0 (mkPWS false false 0) 2); [done|done| |done|lia].
  intros k Hk. destruct k as [|[|[|k]]]; [lia|done|done|lia].
Defined.

(** The parent does not reset the restart flag: a worker that dies before it has reset
    the flag itself leaves the request of the worker before it, and the parent forks
    without end. *)
Lemma stale_restart_forks_forever fuel n seq :
  spawn_workers_loop fuel (mkFork (fun _ => false) (fun _ => false) (fun _ p => p)) n (mkPWS true false seq) = None.
Proof. revert n. induction fuel as [|fuel IH]; intros n; [done|]. cbn. apply IH. Qed.
