(* ===== verification/Profiling.v ===== *)
(** * The profiling library: start and stop

    Model of [src/lib/dd_profiling.cc] (with [src/ddprof_cmdline.cc] and [src/daemonize.cc]): the state of the library, its
    environment variables, the start with or without a running profiler, the command line of the
    profiler it spawns, automatic start, stop.  The environment is a map; what the other processes do is
    an input. *)

From Stdlib Require Import Ascii.
From S2P Require Import Prelude RingBuffer PerfSample Ddres AllocTracker Watcher StackMemory EventConfig Exporter MainLoop.
From stdpp Require Import pretty.

Local Open Scope Z_scope.

(** ** Arguments *)

Fixpoint arg_which_from (i : Z) (str : string) (set : list string) : Z :=
  match set with
  | [] => -1
  | s :: set' => if bool_decide (map lower (to_chars s) = map lower (to_chars str)) then i else arg_which_from (i + 1) str set'
  end.
Definition arg_which (str : string) (str_set : list string) : Z := arg_which_from 0 str str_set.
Definition arg_yes (str : string) : bool := negb (arg_which str ["yes"; "true"; "on"; "1"]%string =? -1).
Definition arg_no (str : string) : bool := negb (arg_which str ["no"; "false"; "off"; "0"]%string =? -1).

(** ** Constants *)

Definition k_profiler_active_env_variable : string := "DD_PROFILING_NATIVE_LIBRARY_ACTIVE".
Definition k_profiler_auto_start_env_variable : string := "DD_PROFILING_NATIVE_AUTOSTART".
Definition k_profiler_ddprof_exe_env_variable : string := "DD_PROFILING_NATIVE_DDPROF_EXE".
Definition k_profiler_lib_socket_env_variable : string := "DD_PROFILING_NATIVE_LIB_SOCKET".
Definition k_allocation_profiling_follow_execs : string := "DD_PROFILING_NATIVE_ALLOCATION_PROFILING_FOLLOW_EXECS".
Definition k_libdd_profiling_name : string := "libdd_profiling.so".
Definition k_libdd_profiling_embedded_name : string := "libdd_profiling-embedded.so".
Definition k_libdd_loader_name : string := "libdd_loader.so".
Definition SIGTERM : Z := 15.
Definition SIGKILL : Z := 9.

(** ** State *)

Abbreviation environment_vars := (gmap string string).

(** What the tracker is initialised with. *)
Record tracking := mkTracking { tr_rate : Z; tr_flags : Z; tr_stack_sample_size : Z; tr_ring : RingBufferInfo; tr_delay_ms : Z; tr_interval_ms : Z }.

(** [g_state], the environment, and what the library set up in the process: the overrides, the tracker, the fork handlers; the signals
    it sent.  The active indicator points into the environment. *)
Record library := mkLib {
  initialized : bool; started : bool; allocation_profiling_started : bool; follow_execs : bool; profiler_pid : Z;
  env : environment_vars; overridden : bool; tracker : option tracking; fork_handlers : nat; signals : list (Z * Z)
}.

Definition set_env (s : library) (e : environment_vars) : library :=
  mkLib (initialized s) (started s) (allocation_profiling_started s) (follow_execs s) (profiler_pid s) e (overridden s) (tracker s) (fork_handlers s) (signals s).
Definition set_started (s : library) (b : bool) : library :=
  mkLib (initialized s) b (allocation_profiling_started s) (follow_execs s) (profiler_pid s) (env s) (overridden s) (tracker s) (fork_handlers s) (signals s).
Definition set_pid (s : library) (p : Z) : library :=
  mkLib (initialized s) (started s) (allocation_profiling_started s) (follow_execs s) p (env s) (overridden s) (tracker s) (fork_handlers s) (signals s).
Definition set_tracking (s : library) (started_ over : bool) (t : option tracking) : library :=
  mkLib (initialized s) (started s) started_ (follow_execs s) (profiler_pid s) (env s) over t (fork_handlers s) (signals s).
Definition add_fork_handler (s : library) : library :=
  mkLib (initialized s) (started s) (allocation_profiling_started s) (follow_execs s) (profiler_pid s) (env s) (overridden s) (tracker s) (S (fork_handlers s)) (signals s).
Definition send_signal (s : library) (pid sig : Z) : library :=
  mkLib (initialized s) (started s) (allocation_profiling_started s) (follow_execs s) (profiler_pid s) (env s) (overridden s) (tracker s) (fork_handlers s) (signals s ++ [(pid, sig)]).

(** Before the library is initialised, in a process with the environment [e]. *)
Definition loaded (e : environment_vars) : library := mkLib false false false true 0 e false None 0 [].

(** ** Initialisation *)

Definition init_profiler_library_active (s : library) : library :=
  match env s !! k_profiler_active_env_variable with
  | Some v => if bool_decide (v = "0"%string) || bool_decide (v = "1"%string) then s else set_env s (<[k_profiler_active_env_variable := "0"%string]> (env s))
  | None => set_env s (<[k_profiler_active_env_variable := "0"%string]> (env s))
  end.

Definition get_log_mode (e : environment_vars) : string :=
  default "stderr"%string (match e !! "DD_PROFILING_NATIVE_LIBRARY_LOG_MODE"%string with Some m => Some m | None => e !! "DD_PROFILING_NATIVE_LOG_MODE"%string end).
Definition get_log_level (e : environment_vars) : string :=
  default "error"%string (match e !! "DD_PROFILING_NATIVE_LIBRARY_LOG_LEVEL"%string with Some m => Some m | None => e !! "DD_PROFILING_NATIVE_LOG_LEVEL"%string end).

Definition init_state (s : library) : library :=
  if initialized s then s
  else
    let s := init_profiler_library_active s in
    let follow := negb (match env s !! k_allocation_profiling_follow_execs with Some v => arg_no v | None => false end) in
    mkLib true (started s) (allocation_profiling_started s) follow (profiler_pid s) (env s) (overridden s) (tracker s) (fork_handlers s) (signals s).

Definition is_profiler_library_active (s : library) : bool := initialized s && bool_decide (env s !! k_profiler_active_env_variable = Some "1"%string).
Definition set_profiler_library_active (s : library) : library := if initialized s then set_env s (<[k_profiler_active_env_variable := "1"%string]> (env s)) else s.
Definition set_profiler_library_inactive (s : library) : library := if initialized s then set_env s (<[k_profiler_active_env_variable := "0"%string]> (env s)) else s.

(** ** Preloaded libraries *)

(** The first occurrence of [p]: what is before it and behind it. *)
Fixpoint find_text (p l : chars) (before : chars) : option (chars * chars) :=
  if bool_decide (take (length p) l = p) then Some (rev before, drop (length p) l)
  else match l with [] => None | c :: l' => find_text p l' (c :: before) end.

Definition contains_lib (ldpreload_str libname : string) : bool :=
  match find_text (to_chars libname) (to_chars ldpreload_str) [] with
  | None => false
  | Some (before, behind) =>
      if (match rev before with c :: _ => negb (code c =? 47) | [] => false end) then false
      else match behind with c :: _ => (code c =? 32) || (code c =? 58) || (code c =? 45) | [] => true end
  end.

Definition is_preloaded (e : environment_vars) : bool :=
  match e !! "LD_PRELOAD"%string with
  | None => false
  | Some p => contains_lib p k_libdd_profiling_name || contains_lib p k_libdd_profiling_embedded_name || contains_lib p k_libdd_loader_name
  end.

(** ** The profiler that the library spawns *)

(** What the daemon executes: a file, or the embedded program; its arguments and environment. *)
Inductive program := File (path : string) | Embedded.
Record exec_request := mkExec { ex_program : program; ex_argv : list string; ex_env : environment_vars; ex_signals : list (Z * Z) }.

(** [embedded]: the size of the embedded program; [copied]: it could be written to memory.  [None]: nothing is executed. *)
Definition exec_ddprof (s : library) (target_pid parent_pid pipefd_to_library embedded : Z) (copied : bool) : option exec_request :=
  let argv := ["ddprof"; "-p"; pretty target_pid; "--pipefd"; pretty pipefd_to_library]%string in
  let e := delete "LD_PRELOAD"%string (env s) in
  let sent := [(parent_pid, SIGTERM)] in
  match e !! k_profiler_ddprof_exe_env_variable with
  | Some path => Some (mkExec (File path) argv e sent)
  | None => if (embedded =? 0) || negb copied then None else Some (mkExec Embedded argv e sent)
  end.

(** [daemonize]: the process that returns from it. *)
Inductive DaemonizeResult := Error | InitialProcess (pipe_fd : Z) | IntermediateProcess | DaemonProcess (temp_pid pipe_fd : Z).

(** Which process it is, and what the calls answer: [pipe_ok], the two forks ([None]: failed, [Some 0]: the child), the writes and reads of
    the pid of the daemon, the handler of the signal.  [None]: the process exits. *)
Definition daemonize (pipe_ok : bool) (fork1 fork2 : option Z) (own_pid read_fd write_fd : Z) (handler_set wrote read : bool) : option DaemonizeResult :=
  if negb pipe_ok then Some Error
  else
    match fork1 with
    | None => Some Error
    | Some 0 =>
        match fork2 with
        | Some 0 => if wrote then Some (DaemonProcess own_pid write_fd) else None
        | _ => if handler_set then Some IntermediateProcess else None
        end
    | Some _ => if read then Some (InitialProcess read_fd) else Some Error
    end.

(** ** Start *)

(** What the start meets: the processes of [daemonize], the text read from the pipe, the answer of the profiler, the start of the tracker. *)
Record start_env := mkStart { sv_daemonize : DaemonizeResult; sv_pipe : option string; sv_connected : bool; sv_info : option ReplyMessage; sv_tracking_ok : bool; sv_embedded : Z; sv_copied : bool }.

(** The value returned, or the end of this process: the code and what it executes before. *)
Inductive outcome := Return (r : Z) | Exit (code : Z) (exec : option exec_request).

Definition tracking_of (info : ReplyMessage) : tracking :=
  let rate := rm_allocation_profiling_rate info in
  let flags := Z.lor (if rate <? 0 then kDeterministicSampling else 0) (if negb (Z.land (rm_allocation_flags info) kReplyLiveSum =? 0) then kTrackDeallocations else 0) in
  mkTracking (Z.abs rate) flags (rm_stack_sample_size info) (rm_ring_buffer info) (rm_initial_loaded_libs_check_delay_ms info) (rm_loaded_libs_check_interval_ms info).

(** The part behind the socket. *)
Definition start_with_socket (sv : start_env) (s : library) : outcome * library :=
  if negb (sv_connected sv) then (Return (-1), s)
  else
    match sv_info sv with
    | None => (Return (-1), s)
    | Some info =>
        let s := set_pid s (rm_pid info) in
        let s := if negb (rm_allocation_profiling_rate info =? 0) then
                   if sv_tracking_ok sv then set_tracking s true true (Some (tracking_of info)) else s
                 else s in
        let s := if allocation_profiling_started s then add_fork_handler s else s in
        (Return 0, set_profiler_library_active (set_started s true))
    end.

Definition ddprof_start_profiling (pid : Z) (sv : start_env) (s : library) : outcome * library :=
  if started s || (negb (follow_execs s) && is_profiler_library_active s) then (Return (-1), s)
  else
    let socket_path := default ""%string (env s !! k_profiler_lib_socket_env_variable) in
    if bool_decide (socket_path = ""%string) then
      match sv_daemonize sv with
      | Error => (Return (-1), s)
      | IntermediateProcess => (Exit 0 None, s)
      | DaemonProcess temp_pid pipe_fd => (Exit 1 (exec_ddprof s pid temp_pid pipe_fd (sv_embedded sv) (sv_copied sv)), s)
      | InitialProcess _ =>
          let socket_path := default ""%string (sv_pipe sv) in
          if bool_decide (socket_path = ""%string) then (Return (-1), s)
          else start_with_socket sv (set_env s (<[k_profiler_lib_socket_env_variable := socket_path]> (env s)))
      end
    else start_with_socket sv s.

(** The constructor of the static object of the library. *)
Definition auto_start (pid : Z) (sv : start_env) (e : environment_vars) : option outcome * library :=
  let s := init_state (loaded e) in
  let autostart := (match env s !! k_profiler_auto_start_env_variable with Some v => arg_yes v | None => false end) || is_preloaded (env s) in
  let s := init_profiler_library_active s in
  if autostart then let '(o, s) := ddprof_start_profiling pid sv s in (Some o, s) else (None, s).

(** ** Stop *)

Definition allocation_profiling_stop (s : library) : library := if allocation_profiling_started s then set_tracking s false false None else s.

(** The loop of [ddprof_stop_profiling] on the readings of the clock and on whether the profiler lives after each pause: [Some true] if it died in
    time; [None]: more fuel is needed. *)
Fixpoint wait_for_exit (fuel : nat) (clock : nat -> Z) (alive : nat -> bool) (time_limit : Z) (i : nat) : option bool :=
  match fuel with
  | O => None
  | S f => if clock i <? time_limit then if negb (alive i) then Some true else wait_for_exit f clock alive time_limit (S i) else Some false
  end.

(** A pause takes at least ten milliseconds. *)
Definition wait_fuel (timeout_ms : Z) : nat := S (Z.to_nat (timeout_ms / 10 + 1)).

(** [clock 0] is the first test of the loop; [now], read before, gives the limit; in milliseconds. *)
Definition ddprof_stop_profiling (timeout_ms now : Z) (clock : nat -> Z) (alive : nat -> bool) (s : library) : option library :=
  if negb (started s) then Some s
  else
    let s := allocation_profiling_stop s in
    let s := send_signal s (profiler_pid s) SIGTERM in
    let? exited := wait_for_exit (wait_fuel timeout_ms) clock alive (now + timeout_ms) 0 in
    let s := if exited : bool then s else send_signal s (profiler_pid s) SIGKILL in
    Some (set_profiler_library_inactive (set_started s false)).

(** ** Theorems *)

(** *** Waiting for the profiler *)

(** The profiler is seen dead before the limit. *)
Definition dies_in_time (clock : nat -> Z) (alive : nat -> bool) (limit : Z) : Prop := exists i, alive i = false /\ forall j, (j <= i)%nat -> clock j < limit.

(** The clock goes on by ten milliseconds at least in a pause. *)
Definition clock_ok (now : Z) (clock : nat -> Z) : Prop := forall i, now + 10 * Z.of_nat i <= clock i.

Lemma wait_for_exit_spec now clock alive timeout_ms : clock_ok now clock -> 0 <= timeout_ms -> forall fuel i, (wait_fuel timeout_ms <= i + fuel)%nat -> (forall j, (j < i)%nat -> alive j = true /\ clock j < now + timeout_ms) ->
  exists b, wait_for_exit fuel clock alive (now + timeout_ms) i = Some b /\ (b = true <-> dies_in_time clock alive (now + timeout_ms)).
Proof.
  intros Hc Ht fuel. induction fuel as [|f IH]; intros i Hf Hi.
  - exfalso. unfold wait_fuel in Hf. pose proof (Z.div_pos timeout_ms 10 Ht ltac:(lia)). destruct (Hi (Z.to_nat (timeout_ms / 10 + 1)) ltac:(lia)) as [_ Hlt]. specialize (Hc (Z.to_nat (timeout_ms / 10 + 1))).
    pose proof (Z.mod_pos_bound timeout_ms 10 ltac:(lia)). pose proof (Z.div_mod timeout_ms 10 ltac:(lia)). lia.
  - cbn [wait_for_exit]. destruct (Z.ltb_spec (clock i) (now + timeout_ms)) as [Hlt|Hge].
    + destruct (alive i) eqn:Ea; cbn [negb].
      * apply IH; [lia|]. intros j Hj. destruct (decide (j = i)) as [-> |]; [done|]. apply Hi. lia.
      * exists true. split; [done|]. split; [|done]. intros _. exists i. split; [done|]. intros j Hj. destruct (decide (j = i)) as [-> |]; [done|]. apply Hi. lia.
    + exists false. split; [done|]. split; [done|]. intros (k & Hk & Hall). destruct (decide (k < i)%nat) as [Hlt|]; [destruct (Hi k Hlt); congruence|]. specialize (Hall i ltac:(lia)). lia.
Qed.

(** *** Sessions *)

(** What the library promises: profiling is off, or on with a profiler and perhaps the tracking of allocations. *)
Inductive mode := Off | On (pid : Z) (t : option tracking).

Inductive call := CStart (pid : Z) (sv : start_env) | CStop (timeout_ms now : Z) (clock : nat -> Z) (alive : nat -> bool).

(** A start is refused, ends the process (in those that [daemonize] made), or begins a session; a stop ends it. *)
Inductive session_step : mode -> call -> option outcome -> list (Z * Z) -> mode -> Prop :=
| start_refused m pid sv : session_step m (CStart pid sv) (Some (Return (-1))) [] m
| start_other_process m pid sv code x : sv_daemonize sv <> Error -> (forall fd, sv_daemonize sv <> InitialProcess fd) -> session_step m (CStart pid sv) (Some (Exit code x)) [] m
| start_accepted pid sv info : sv_connected sv = true -> sv_info sv = Some info ->
    session_step Off (CStart pid sv) (Some (Return 0)) [] (On (rm_pid info) (if negb (rm_allocation_profiling_rate info =? 0) && sv_tracking_ok sv then Some (tracking_of info) else None))
| stop_off t n c a : session_step Off (CStop t n c a) None [] Off
| stop_in_time pid tr t n c a : dies_in_time c a (n + t) -> session_step (On pid tr) (CStop t n c a) None [(pid, SIGTERM)] Off
| stop_killed pid tr t n c a : ~ dies_in_time c a (n + t) -> session_step (On pid tr) (CStop t n c a) None [(pid, SIGTERM); (pid, SIGKILL)] Off.

Definition mode_of (s : library) : mode := if started s then On (profiler_pid s) (tracker s) else Off.

(** The process has what its mode needs and nothing else: overrides and tracker exactly while allocations are tracked; the variable that the programs it
    executes look at is set exactly while it is on, or inherited. *)
Record library_inv (s : library) : Prop := {
  li_init : initialized s = true;
  li_active : env s !! k_profiler_active_env_variable = Some "0"%string \/ env s !! k_profiler_active_env_variable = Some "1"%string;
  li_started : started s = true -> env s !! k_profiler_active_env_variable = Some "1"%string;
  li_tracked : allocation_profiling_started s = true -> started s = true;
  li_overrides : overridden s = allocation_profiling_started s;
  li_tracker : allocation_profiling_started s = match tracker s with Some _ => true | None => false end
}.

Definition do_call (c : call) (s : library) : option (option outcome * library) :=
  match c with
  | CStart pid sv => let '(o, s) := ddprof_start_profiling pid sv s in Some (Some o, s)
  | CStop t n clock alive => let? s := ddprof_stop_profiling t n clock alive s in Some (None, s)
  end.

Definition call_ok (c : call) : Prop := match c with CStart _ _ => True | CStop t n clock _ => 0 <= t /\ clock_ok n clock end.

Lemma init_active_spec s : let s' := init_profiler_library_active s in
  (env s' !! k_profiler_active_env_variable = Some "0"%string \/ env s' !! k_profiler_active_env_variable = Some "1"%string) /\
  initialized s' = initialized s /\ started s' = started s /\ allocation_profiling_started s' = allocation_profiling_started s /\ overridden s' = overridden s /\ tracker s' = tracker s /\ signals s' = signals s.
Proof.
  unfold init_profiler_library_active. cbv zeta. destruct (env s !! k_profiler_active_env_variable) as [v|] eqn:E.
  - destruct (bool_decide_reflect (v = "0"%string)) as [-> |]; [cbn; rewrite E; by repeat split; left|]. destruct (bool_decide_reflect (v = "1"%string)) as [-> |]; [cbn; rewrite E; by repeat split; right|].
    cbn. rewrite lookup_insert_eq. by repeat split; left.
  - cbn. rewrite lookup_insert_eq. by repeat split; left.
Qed.

Lemma init_inv e : library_inv (init_profiler_library_active (init_state (loaded e))) /\ mode_of (init_profiler_library_active (init_state (loaded e))) = Off /\ signals (init_profiler_library_active (init_state (loaded e))) = [].
Proof.
  destruct (init_active_spec (init_state (loaded e))) as (Ha & Hi & Hs & Hp & Ho & Ht & Hg). destruct (init_active_spec (loaded e)) as (_ & _ & Hs0 & Hp0 & Ho0 & Ht0 & Hg0).
  unfold init_state in *. cbn [initialized loaded] in *. cbv zeta in *. cbn [started allocation_profiling_started overridden tracker signals initialized loaded] in *.
  split; [constructor; [done|done| | | |]|].
  - rewrite Hs, Hs0. done.
  - rewrite Hp, Hp0. done.
  - rewrite Hp, Ho, Hp0, Ho0. done.
  - rewrite Hp, Ht, Hp0, Ht0. done.
  - split; [unfold mode_of; rewrite Hs, Hs0; done|]. etransitivity; [exact Hg|exact Hg0].
Qed.

Lemma set_env_inv s k v : k <> k_profiler_active_env_variable -> library_inv s -> library_inv (set_env s (<[k := v]> (env s))).
Proof. intros Hk [H1 H2 H3 H4 H5 H6]. constructor; cbn; rewrite ?lookup_insert_ne by done; done. Qed.

Lemma start_with_socket_sim pid sv s : library_inv s -> started s = false ->
  exists o s', start_with_socket sv s = (o, s') /\ library_inv s' /\ signals s' = signals s /\ session_step Off (CStart pid sv) (Some o) [] (mode_of s').
Proof.
  intros Hi Hs. assert (Hoff : mode_of s = Off) by (unfold mode_of; by rewrite Hs). unfold start_with_socket.
  destruct (sv_connected sv) eqn:Ec; cbn [negb]; [|do 2 eexists; split; [done|]; split; [done|]; split; [done|]; rewrite Hoff; constructor].
  destruct (sv_info sv) as [info|] eqn:Ei; [|do 2 eexists; split; [done|]; split; [done|]; split; [done|]; rewrite Hoff; constructor].
  destruct Hi as [H1 H2 H3 H4 H5 H6]. assert (Ha : allocation_profiling_started s = false) by (destruct (allocation_profiling_started s); [specialize (H4 eq_refl); congruence|done]).
  assert (Ht : tracker s = None) by (rewrite Ha in H6; by destruct (tracker s)). assert (Hov : overridden s = false) by congruence.
  pose proof (start_accepted pid sv info Ec Ei) as Hstep. cbv zeta.
  destruct (negb (rm_allocation_profiling_rate info =? 0)); [destruct (sv_tracking_ok sv)|]; cbn [andb] in Hstep; do 2 eexists; (split; [reflexivity|]).
  all: cbn [set_tracking set_pid allocation_profiling_started]; rewrite ?Ha; unfold set_profiler_library_active; cbn [initialized set_started add_fork_handler set_tracking set_pid]; rewrite H1.
  all: split; [constructor; cbn; rewrite ?lookup_insert_eq, ?Ht, ?Ha; try done; by right|]; split; [done|]; unfold mode_of; cbn; rewrite ?Ht; done.
Qed.

Lemma start_sim pid sv s : library_inv s -> exists o s', ddprof_start_profiling pid sv s = (o, s') /\ library_inv s' /\ signals s' = signals s /\ session_step (mode_of s) (CStart pid sv) (Some o) [] (mode_of s').
Proof.
  intros Hi. unfold ddprof_start_profiling. destruct (started s) eqn:Es; cbn [orb]; [do 2 eexists; split; [done|]; split; [done|]; split; [done|constructor]|].
  destruct (negb (follow_execs s) && is_profiler_library_active s); [do 2 eexists; split; [done|]; split; [done|]; split; [done|constructor]|].
  assert (Hoff : mode_of s = Off) by (unfold mode_of; by rewrite Es). cbv zeta. case_bool_decide; [|rewrite Hoff; by apply start_with_socket_sim].
  destruct (sv_daemonize sv) as [|fd| |tmp fd] eqn:Ed; [do 2 eexists; split; [done|]; split; [done|]; split; [done|constructor]| | |].
  - case_bool_decide; [do 2 eexists; split; [done|]; split; [done|]; split; [done|constructor]|]. rewrite Hoff.
    destruct (start_with_socket_sim pid sv (set_env s (<[k_profiler_lib_socket_env_variable := default ""%string (sv_pipe sv)]> (env s)))) as (o & s' & E & H1 & H2 & H3); [by apply set_env_inv|done|]. exists o, s'. do 3 (split; [done|]). done.
  - do 2 eexists. split; [done|]. split; [done|]. split; [done|]. apply start_other_process; congruence.
  - do 2 eexists. split; [done|]. split; [done|]. split; [done|]. apply start_other_process; congruence.
Qed.

Lemma stop_sim t n clock alive s : library_inv s -> 0 <= t -> clock_ok n clock ->
  exists s' sent, ddprof_stop_profiling t n clock alive s = Some s' /\ library_inv s' /\ signals s' = signals s ++ sent /\ session_step (mode_of s) (CStop t n clock alive) None sent (mode_of s').
Proof.
  intros Hi Ht Hc. unfold ddprof_stop_profiling. destruct (started s) eqn:Es; cbn [negb].
  2: { exists s, []. split; [done|]. split; [done|]. rewrite app_nil_r. split; [done|]. unfold mode_of. rewrite Es. constructor. }
  destruct (wait_for_exit_spec n clock alive t Hc Ht (wait_fuel t) 0 ltac:(lia) ltac:(lia)) as (b & -> & Hb). cbv zeta. destruct Hi as [H1 H2 H3 H4 H5 H6].
  assert (Hstop : let s' := allocation_profiling_stop s in initialized s' = true /\ profiler_pid s' = profiler_pid s /\ allocation_profiling_started s' = false /\ overridden s' = false /\ tracker s' = None /\ signals s' = signals s).
  { unfold allocation_profiling_stop. destruct (allocation_profiling_started s) eqn:Ea; cbn; [done|]. rewrite H5, Ea. by destruct (tracker s). }
  destruct Hstop as (Hi' & Hp & Ha & Ho & Htr & Hg). set (s1 := allocation_profiling_stop s) in *.
  assert (Hfinal : forall s2 sent, initialized s2 = true -> allocation_profiling_started s2 = false -> overridden s2 = false -> tracker s2 = None -> signals s2 = signals s ++ sent ->
    session_step (mode_of s) (CStop t n clock alive) None sent Off -> let s' := set_profiler_library_inactive (set_started s2 false) in library_inv s' /\ signals s' = signals s ++ sent /\ session_step (mode_of s) (CStop t n clock alive) None sent (mode_of s')).
  { intros s2 sent G1 G2 G3 G4 G5 G6. unfold set_profiler_library_inactive. cbn [initialized set_started]. rewrite G1. split; [constructor; cbn; rewrite ?lookup_insert_eq, ?G4; try done; [by left|by rewrite G2|congruence]|]. split; [done|]. done. }
  assert (Hm : mode_of s = On (profiler_pid s) (tracker s)) by (unfold mode_of; by rewrite Es).
  destruct b; (eexists _, _; split; [reflexivity|]; eapply Hfinal; try done; [cbn; rewrite Hg, Hp; rewrite <- ?app_assoc; reflexivity|rewrite Hm]).
  - apply stop_in_time. by apply Hb.
  - apply stop_killed. intros H. apply Hb in H. done.
Qed.

(** A run of calls, with what each returns, and of sessions. *)
Fixpoint do_calls (l : list call) (s : library) : option (list (option outcome) * library) :=
  match l with [] => Some ([], s) | c :: l' => let? (o, s) := do_call c s in let? (os, s) := do_calls l' s in Some (o :: os, s) end.

Inductive session_run : mode -> list call -> list (option outcome) -> list (Z * Z) -> mode -> Prop :=
| run_done m : session_run m [] [] [] m
| run_call m c o sent m1 l os sent' m2 : session_step m c o sent m1 -> session_run m1 l os sent' m2 -> session_run m (c :: l) (o :: os) (sent ++ sent') m2.

Lemma do_call_sim c s : library_inv s -> call_ok c -> exists o s' sent, do_call c s = Some (o, s') /\ library_inv s' /\ signals s' = signals s ++ sent /\ session_step (mode_of s) c o sent (mode_of s').
Proof.
  intros Hi Hc. destruct c as [pid sv|t n clock alive]; cbn [do_call].
  - destruct (start_sim pid sv s Hi) as (o & s' & -> & H1 & H2 & H3). exists (Some o), s', []. rewrite app_nil_r. done.
  - destruct Hc as [Ht Hc]. destruct (stop_sim t n clock alive s Hi Ht Hc) as (s' & sent & -> & H1 & H2 & H3). by exists None, s', sent.
Qed.

Lemma do_calls_sim l : Forall call_ok l -> forall s, library_inv s -> exists os s' sent, do_calls l s = Some (os, s') /\ library_inv s' /\ signals s' = signals s ++ sent /\ session_run (mode_of s) l os sent (mode_of s').
Proof.
  induction 1 as [|c l Hc _ IH]; intros s Hi; [exists [], s, []; rewrite app_nil_r; split; [done|]; split; [done|]; split; [done|constructor]|]. cbn [do_calls].
  destruct (do_call_sim c s Hi Hc) as (o & s1 & sent & -> & H1 & H2 & H3). destruct (IH s1 H1) as (os & s2 & sent' & -> & H4 & H5 & H6).
  exists (o :: os), s2, (sent ++ sent'). split; [done|]. split; [done|]. split; [by rewrite H5, H2, app_assoc|]. by econstructor.
Qed.

(** C9: The library implements sessions.  From the loading of the library in a process with any environment, any sequence of starts and stops, whatever the
    profiler, the kernel and the other processes answer, returns (when a pause takes its ten milliseconds), and is a run of the abstract sessions: a start
    succeeds only when profiling is off and the profiler answered, with the tracking that it asked for; a stop sends the signal to the profiler
    of the session, and the second one exactly when it did not die in time; the overrides and the tracker are there exactly during a session that tracks
    allocations, and the variable seen by executed programs is set during one. *)
Theorem library_implements_sessions e l : Forall call_ok l ->
  exists os s, do_calls l (init_profiler_library_active (init_state (loaded e))) = Some (os, s) /\ library_inv s /\ session_run Off l os (signals s) (mode_of s).
Proof.
  intros Hl. destruct (init_inv e) as (Hi & Hm & Hg). destruct (do_calls_sim l Hl _ Hi) as (os & s & sent & E & H1 & H2 & H3). rewrite Hg in H2. cbn [app] in H2. rewrite Hm, <- H2 in H3. by exists os, s.
Qed.

(** The profiler that the library spawns does not preload the library, so that it does not spawn another. *)
Theorem spawned_profiler_not_preloaded pid sv s code x : ddprof_start_profiling pid sv s = (Exit code (Some x), s) -> is_preloaded (ex_env x) = false /\ take 3 (ex_argv x) = ["ddprof"; "-p"; pretty pid]%string.
Proof.
  unfold ddprof_start_profiling. intros E. destruct (_ || _); [done|]. cbv zeta in E.
  assert (Hsock : forall s0, start_with_socket sv s0 <> (Exit code (Some x), s)) by (intros s0; unfold start_with_socket; destruct (negb _); [done|]; destruct (sv_info sv); done).
  case_bool_decide; [|by apply Hsock in E]. destruct (sv_daemonize sv) as [|fd| |tmp fd]; [done|case_bool_decide; [done|by apply Hsock in E]|done|]. injection E as E1 E2.
  unfold exec_ddprof in E2. cbv zeta in E2. unfold is_preloaded. destruct (delete "LD_PRELOAD"%string (env s) !! k_profiler_ddprof_exe_env_variable); [injection E2 as <-|destruct (_ || _); [done|injection E2 as <-]]; cbn [ex_env ex_argv]; by rewrite lookup_delete_eq.
Qed.

Definition demo_reply : ReplyMessage := mkReply 1 77 (-524288) (mkRBI 4096 5 6 1) 10 1000 1 32768.
Definition demo_start (o : option ReplyMessage) : start_env := mkStart (InitialProcess 4) (Some "@/tmp/ddprof.sock"%string) true o true 100 true.
Definition demo_clock (i : nat) : Z := 5 + 10 * Z.of_nat i.

Lemma library_implements_sessions_witness : exists os s,
  do_calls [CStart 42 (demo_start None); CStart 42 (demo_start (Some demo_reply)); CStart 42 (demo_start (Some demo_reply)); CStop 25 5 demo_clock (fun _ => true); CStop 25 5 demo_clock (fun _ => true)]
    (init_profiler_library_active (init_state (loaded ∅))) = Some (os, s) /\
  os = [Some (Return (-1)); Some (Return 0); Some (Return (-1)); None; None] /\ signals s = [(77, SIGTERM); (77, SIGKILL)] /\ library_inv s.
Proof.
  destruct (library_implements_sessions ∅ [CStart 42 (demo_start None); CStart 42 (demo_start (Some demo_reply)); CStart 42 (demo_start (Some demo_reply)); CStop 25 5 demo_clock (fun _ => true); CStop 25 5 demo_clock (fun _ => true)])
    as (os & s & E & Hi & _).
  - assert (Hc : clock_ok 5 demo_clock) by (intros i; unfold demo_clock; lia). repeat constructor; try done; lia.
  - exists os, s. split; [done|]. split; [|split; [|done]]; vm_compute in E; injection E as <- <-; reflexivity.
Defined.

(** The library is not recognised behind another one without a path, or when an earlier name ends like its own. *)
Example preloaded_names : map (fun p => contains_lib p k_libdd_profiling_name) ["libdd_profiling.so"; "/usr/lib/libdd_profiling.so:/b.so"; "libb.so:libdd_profiling.so"; "/l/mylibdd_profiling.so:/l/libdd_profiling.so"]%string = [true; true; false; false].
Proof. vm_compute. reflexivity. Qed.

(** After a session with a profiler of its own, the variable with its socket is still set: the next start tries it and fails. *)
Example restart_uses_old_socket : exists os s,
  do_calls [CStart 42 (demo_start (Some demo_reply)); CStop 25 5 demo_clock (fun _ => false)] (init_profiler_library_active (init_state (loaded ∅))) = Some (os, s) /\
  env s !! k_profiler_lib_socket_env_variable = Some "@/tmp/ddprof.sock"%string /\
  fst (ddprof_start_profiling 42 (mkStart (InitialProcess 4) (Some "@/tmp/new.sock"%string) false (Some demo_reply) true 100 true) s) = Return (-1).
Proof. do 2 eexists. split; [vm_compute; reflexivity|]. split; vm_compute; reflexivity. Qed.
