(* ===== verification/Loader.v ===== *)
(** * Temporary files and the loader of the library

    Model of [src/tempfile.cc], of the libraries to inject of [src/exe/main.cc] and of [src/lib/loader.c]: files created under a
    temporary name and renamed, the search of the installed library and its digest, the functions of the dynamic linker that may be
    missing from the process, the constructor of the loader.  The file system is a map from paths to files; every state it goes
    through is kept, so that what another process can see is part of the model.  What the system calls answer is an input. *)

From Stdlib Require Import Ascii.
From S2P Require Import Prelude Ddres Sha256 EventConfig Profiling.

Local Open Scope Z_scope.

(** ** Files, descriptors and blocks *)

Record file := mkFile { contents : list Z; permissions : Z }.
Abbreviation files := (gmap string file).

(** The files, the states they went through (the latest first), the open descriptors, the allocated blocks, the calls to [malloc]. *)
Record machine := mkMachine { fs : files; past : list files; descriptors : nat; blocks : nat; mallocs : nat }.

Definition set_fs (m : machine) (f : files) : machine := mkMachine f (fs m :: past m) (descriptors m) (blocks m) (mallocs m).
Definition open_fd (m : machine) : machine := mkMachine (fs m) (past m) (S (descriptors m)) (blocks m) (mallocs m).
Definition close_fd (m : machine) : machine := mkMachine (fs m) (past m) (pred (descriptors m)) (blocks m) (mallocs m).
Definition free (m : machine) : machine := mkMachine (fs m) (past m) (descriptors m) (pred (blocks m)) (mallocs m).
Definition malloc (malloc_ok : nat -> bool) (m : machine) : bool * machine :=
  (malloc_ok (mallocs m), mkMachine (fs m) (past m) (descriptors m) (if malloc_ok (mallocs m) then S (blocks m) else blocks m) (S (mallocs m))).

(** The answers to the calls on a temporary file: the characters chosen by [mkostemp], whether [fchmod] succeeds, the bytes written,
    whether [rename] succeeds, whether [stat] sees an existing file, whether [unlink] succeeds. *)
Record temp_answers := mkTemp { suffix : option string; fchmod_ok : bool; written : option nat; rename_ok : bool; visible : bool; unlink_ok : bool }.

(** The file is created exclusively: an existing path is never opened. *)
Definition mkostemp (a : temp_answers) (prefix : string) (m : machine) : option (string * machine) :=
  match suffix a with
  | Some s =>
      let p := (prefix +:+ s)%string in
      match fs m !! p with
      | Some _ => None
      | None => Some (p, open_fd (set_fs m (<[p := mkFile [] 0x180]> (fs m))))
      end
  | None => None
  end.

Definition fchmod (a : temp_answers) (p : string) (mode : Z) (m : machine) : bool * machine :=
  if fchmod_ok a then (true, set_fs m (alter (fun f => mkFile (contents f) mode) p (fs m))) else (false, m).

(** At most the bytes given are written; [-1] is a failure. *)
Definition write (a : temp_answers) (p : string) (data : list Z) (m : machine) : Z * machine :=
  match written a with
  | Some n => (Z.of_nat (min n (length data)), set_fs m (alter (fun f => mkFile (contents f ++ take n data) (permissions f)) p (fs m)))
  | None => (-1, m)
  end.

(** The result of [unlink] is ignored by every caller. *)
Definition unlink (a : temp_answers) (p : string) (m : machine) : machine := if unlink_ok a then set_fs m (delete p (fs m)) else m.

Definition rename (a : temp_answers) (from to : string) (m : machine) : bool * machine :=
  if rename_ok a then
    match fs m !! from with
    | Some f => (true, set_fs m (<[to := f]> (delete from (fs m))))
    | None => (false, m)
    end
  else (false, m).

Definition exists_file (a : temp_answers) (p : string) (m : machine) : bool := visible a && bool_decide (is_Some (fs m !! p)).

(** The first variable that is set, the directory when it is one. *)
Definition temp_directory_path (is_dir : string -> bool) (e : environment_vars) : option string :=
  let tmpdir := match e !! "TMPDIR"%string with Some d => Some d | None =>
                match e !! "TMP"%string with Some d => Some d | None =>
                match e !! "TEMP"%string with Some d => Some d | None => e !! "TEMPDIR"%string end end end in
  let p := default "/tmp"%string tmpdir in
  if is_dir p then Some p else None.

Definition temp_prefix (dir prefix : string) : string := (dir +:+ "/" +:+ prefix +:+ ".")%string.
Definition final_path (dir prefix digest : string) : string := (dir +:+ "/" +:+ prefix +:+ "-" +:+ digest)%string.

(** ** tempfile.cc *)

Definition DD_WHAT_TEMP_FILE : Z := what_of "TEMP_FILE".

Definition create_temp_file (a : temp_answers) (dir : option string) (prefix : string) (data : list Z) (mode : Z) (path : string) (m : machine) :
  DDRes * string * machine :=
  match dir with
  | None => (ddres_error DD_WHAT_TEMP_FILE, path, m)
  | Some d =>
      match mkostemp a (temp_prefix d prefix) m with
      | None => (ddres_error DD_WHAT_TEMP_FILE, path, m)
      | Some (tmp, m) =>
          let '(ok, m) := fchmod a tmp mode m in
          if ok then
            let '(n, m) := write a tmp data m in
            if n =? Z.of_nat (length data) then (ddres_init, tmp, close_fd m)
            else (ddres_error DD_WHAT_TEMP_FILE, path, close_fd (unlink a tmp m))
          else (ddres_error DD_WHAT_TEMP_FILE, path, close_fd (unlink a tmp m))
      end
  end.

Definition get_or_create_temp_file (a : temp_answers) (dir : option string) (prefix : string) (data : list Z) (digest : string) (mode : Z) (m : machine) :
  DDRes * string * machine :=
  let path := final_path (default ""%string dir) prefix digest in
  match dir with
  | None => (ddres_error DD_WHAT_TEMP_FILE, path, m)
  | Some _ =>
      if exists_file a path m then (ddres_init, path, m)
      else
        let '(res, tmp_path, m) := create_temp_file a dir prefix data mode ""%string m in
        if IsDDResNotOK res then (res, path, m)
        else
          let '(ok, m) := rename a tmp_path path m in
          if ok then (ddres_init, path, m)
          else (ddres_error DD_WHAT_TEMP_FILE, path, unlink a tmp_path m)
  end.

(** ** Libraries to inject *)

(** What precedes the last slash of a path, and the last slash and what follows. *)
Fixpoint rsplit (l : list ascii) : option (list ascii * list ascii) :=
  match l with
  | [] => None
  | c :: l' =>
      match rsplit l' with
      | Some (d, f) => Some (c :: d, f)
      | None => if bool_decide (c = "/"%char) then Some ([], c :: l') else None
      end
  end.
Definition strrchr_dir (path : string) : option string := option_map (fun df => String.string_of_list_ascii (fst df)) (rsplit (String.list_ascii_of_string path)).

Definition parent_path (path : string) : string :=
  match strrchr_dir path with Some EmptyString => "/" | Some d => d | None => "" end%string.
Definition join (dir name : string) : string := if bool_decide (dir = "/"%string) then (dir +:+ name)%string else (dir +:+ "/" +:+ name)%string.

Definition find_lib (exe_path : string) (m : machine) (lib_name : string) : string :=
  let in_fs p := bool_decide (is_Some (fs m !! p)) in
  let lib_path := join (parent_path exe_path) lib_name in
  if in_fs lib_path then lib_path
  else
    let lib_path := join (join (parent_path (parent_path exe_path)) "lib") lib_name in
    if in_fs lib_path then lib_path else ""%string.

Definition k_profiler_use_embedded_libdd_profiling_env_variable : string := "DD_PROFILING_NATIVE_USE_EMBEDDED_LIB".

(** A library embedded in a binary, with its digest. *)
Record EmbeddedData := mkEmbedded { e_data : list Z; digest : string }.

(** The paths of both holders: neither is marked as temporary, so that no destructor removes a file. *)
Definition get_library_path (a : string -> temp_answers) (dir : option string) (e : environment_vars) (exe_path : string)
  (profiling_lib loader_lib : EmbeddedData) (m : machine) : DDRes * (string * string) * machine :=
  let embedded := bool_decide (is_Some (e !! k_profiler_use_embedded_libdd_profiling_env_variable)) in
  let profiling_path := if embedded then ""%string else find_lib exe_path m k_libdd_profiling_embedded_name in
  let loader_path := if embedded then ""%string else find_lib exe_path m k_libdd_loader_name in
  let '(res, profiling_path, m) :=
    if bool_decide (profiling_path = ""%string)
    then get_or_create_temp_file (a k_libdd_profiling_embedded_name) dir k_libdd_profiling_embedded_name (e_data profiling_lib) (digest profiling_lib) 0x1a4 m
    else (ddres_init, profiling_path, m) in
  if IsDDResNotOK res then (res, (""%string, ""%string), m)
  else
    let '(res, loader_path, m) :=
      if bool_decide (loader_path = ""%string)
      then get_or_create_temp_file (a k_libdd_loader_name) dir k_libdd_loader_name (e_data loader_lib) (digest loader_lib) 0x1a4 m
      else (ddres_init, loader_path, m) in
    if IsDDResNotOK res then (res, (profiling_path, ""%string), m) else (ddres_init, (profiling_path, loader_path), m).

(** ** loader.c: temporary files *)

Section CFiles.
Context (malloc_ok : nat -> bool).

(** The path returned is an allocated block. *)
Definition create_temp_file_c (a : temp_answers) (dir : option string) (prefix : string) (data : list Z) (mode : Z) (m : machine) : option string * machine :=
  match dir with
  | None => (None, m)
  | Some d =>
      let '(ok, m) := malloc malloc_ok m in
      if ok then
        match mkostemp a (temp_prefix d prefix) m with
        | None => (None, free m)
        | Some (tmp, m) =>
            let '(ok, m) := fchmod a tmp mode m in
            if ok then
              let '(n, m) := write a tmp data m in
              if n =? Z.of_nat (length data) then (Some tmp, close_fd m)
              else (None, free (unlink a tmp (close_fd m)))
            else (None, free (unlink a tmp (close_fd m)))
        end
      else (None, m)
  end.

Definition get_or_create_temp_file_c (a : temp_answers) (dir : option string) (prefix : string) (data : EmbeddedData) (mode : Z) (m : machine) :
  option string * machine :=
  match dir with
  | None => (None, m)
  | Some d =>
      let '(ok, m) := malloc malloc_ok m in
      if ok then
        let path := final_path d prefix (digest data) in
        if exists_file a path m then (Some path, m)
        else
          let '(tmp_path, m) := create_temp_file_c a dir prefix (e_data data) mode m in
          match tmp_path with
          | None => (None, free m)
          | Some tmp_path =>
              let '(ok, m) := rename a tmp_path path m in
              if ok then (Some path, free m) else (None, free (free (unlink a tmp_path m)))
          end
      else (None, m)
  end.

End CFiles.

(** ** loader.c: the dynamic linker *)

(** Where a function comes from: a symbol of the process, the internal one of libc, libdl once it is loaded. *)
Inductive pointer := Pprocess | Plibc | Plibdl.
#[global] Instance pointer_eq_dec : EqDecision pointer.
Proof. solve_decision. Defined.

(** The symbols of the process, and the answers of the linker: to the n-th [dlopen], to a lookup, the file of the loader. *)
Record process := mkProcess {
  has_dlerror : bool; has_dlopen : bool; has_dlsym : bool; has_dladdr : bool; has_libc_dlopen_mode : bool; has_libc_dlsym : bool;
  has_pthread_cancel : bool; has_log : bool; has_timer_create : bool;
  dlopen_answer : nat -> string -> Z -> option Z; dlsym_answer : Z -> string -> option Z; dladdr_answer : option string }.

Definition RTLD_LOCAL : Z := 0.
Definition RTLD_NOW : Z := 2.
Definition RTLD_NOLOAD : Z := 4.
Definition RTLD_GLOBAL : Z := 0x100.

(** A call of [dlopen]: its arguments, the bytes of the file, the handle. *)
Record opening := mkOpening { o_name : string; o_flags : Z; o_bytes : option (list Z); o_handle : option Z }.

(** The static variables of the loader, the environment, the machine. *)
Record world := mkWorld {
  mach : machine; vars : environment_vars; opened : list opening;
  s_libdl_handle : option Z; s_dlerror : option pointer; s_dlopen : option pointer; s_dladdr : option pointer; dlsym_ptr : option pointer;
  s_profiling_lib_handle : option Z; s_start_profiling_func : option Z; s_stop_profiling_func : option Z }.

Definition set_mach (w : world) (m : machine) : world :=
  mkWorld m (vars w) (opened w) (s_libdl_handle w) (s_dlerror w) (s_dlopen w) (s_dladdr w) (dlsym_ptr w) (s_profiling_lib_handle w) (s_start_profiling_func w) (s_stop_profiling_func w).
Definition set_vars (w : world) (e : environment_vars) : world :=
  mkWorld (mach w) e (opened w) (s_libdl_handle w) (s_dlerror w) (s_dlopen w) (s_dladdr w) (dlsym_ptr w) (s_profiling_lib_handle w) (s_start_profiling_func w) (s_stop_profiling_func w).
Definition log_open (w : world) (o : opening) : world :=
  mkWorld (mach w) (vars w) (opened w ++ [o]) (s_libdl_handle w) (s_dlerror w) (s_dlopen w) (s_dladdr w) (dlsym_ptr w) (s_profiling_lib_handle w) (s_start_profiling_func w) (s_stop_profiling_func w).
Definition set_libdl (w : world) (h : option Z) : world :=
  mkWorld (mach w) (vars w) (opened w) h (s_dlerror w) (s_dlopen w) (s_dladdr w) (dlsym_ptr w) (s_profiling_lib_handle w) (s_start_profiling_func w) (s_stop_profiling_func w).
Definition set_dlerror (w : world) (p : option pointer) : world :=
  mkWorld (mach w) (vars w) (opened w) (s_libdl_handle w) p (s_dlopen w) (s_dladdr w) (dlsym_ptr w) (s_profiling_lib_handle w) (s_start_profiling_func w) (s_stop_profiling_func w).
Definition set_dlopen (w : world) (p : option pointer) : world :=
  mkWorld (mach w) (vars w) (opened w) (s_libdl_handle w) (s_dlerror w) p (s_dladdr w) (dlsym_ptr w) (s_profiling_lib_handle w) (s_start_profiling_func w) (s_stop_profiling_func w).
Definition set_dladdr (w : world) (p : option pointer) : world :=
  mkWorld (mach w) (vars w) (opened w) (s_libdl_handle w) (s_dlerror w) (s_dlopen w) p (dlsym_ptr w) (s_profiling_lib_handle w) (s_start_profiling_func w) (s_stop_profiling_func w).
Definition set_dlsym (w : world) (p : option pointer) : world :=
  mkWorld (mach w) (vars w) (opened w) (s_libdl_handle w) (s_dlerror w) (s_dlopen w) (s_dladdr w) p (s_profiling_lib_handle w) (s_start_profiling_func w) (s_stop_profiling_func w).
Definition set_profiling (w : world) (h start stop : option Z) : world :=
  mkWorld (mach w) (vars w) (opened w) (s_libdl_handle w) (s_dlerror w) (s_dlopen w) (s_dladdr w) (dlsym_ptr w) h start stop.

(** The symbols of the process that are there when the loader starts. *)
Definition symbol (b : bool) : option pointer := if b then Some Pprocess else None.
Definition fresh_world (p : process) (m : machine) (e : environment_vars) : world :=
  mkWorld m e [] None (symbol (has_dlerror p)) (symbol (has_dlopen p)) (symbol (has_dladdr p)) (symbol (has_dlsym p)) None None None.

Definition libc_dlopen_mode (p : process) : option pointer := if has_libc_dlopen_mode p then Some Plibc else None.

(** A function found in libdl. *)
Definition from_libdl (r : option Z) : option pointer := match r with Some _ => Some Plibdl | None => None end.

Definition my_dlopen_impl (p : process) (filename : string) (flags : Z) (w : world) : option Z * world :=
  let w := match s_dlopen w with None => set_dlopen w (libc_dlopen_mode p) | Some _ => w end in
  match s_dlopen w with
  | Some _ =>
      let h := dlopen_answer p (length (opened w)) filename flags in
      (h, log_open w (mkOpening filename flags (contents <$> fs (mach w) !! filename) h))
  | None => (None, w)
  end.
Definition my_dlopen := my_dlopen_impl.
Definition my_dlopen_silent := my_dlopen_impl.

(** [None] is a call of a function that is not there, or no fuel left: [my_dlsym] and [ensure_libdl_is_loaded] call each other. *)
Fixpoint my_dlsym (fuel : nat) (p : process) (handle : Z) (sym : string) (w : world) {struct fuel} : option (option Z * world) :=
  match fuel with
  | O => None
  | S f =>
      match dlsym_ptr w with
      | Some _ => Some (dlsym_answer p handle sym, w)
      | None =>
          let? w := match s_libdl_handle w with None => ensure_libdl_is_loaded f p w | Some _ => Some w end in
          let? w :=
            match s_libdl_handle w with
            | Some h => if has_libc_dlsym p then Some (set_dlsym w (from_libdl (dlsym_answer p h "dlsym"%string))) else None
            | None => Some w
            end in
          match dlsym_ptr w with
          | None => Some (None, w)
          | Some _ => Some (dlsym_answer p handle sym, w)
          end
      end
  end
with ensure_libdl_is_loaded (fuel : nat) (p : process) (w : world) {struct fuel} : option world :=
  match fuel with
  | O => None
  | S f =>
      let w :=
        if negb (has_dlsym p) && bool_decide (s_libdl_handle w = None) then
          let '(h, w) := my_dlopen p "libdl.so.2" (Z.lor RTLD_GLOBAL RTLD_NOW) w in set_libdl w h
        else w in
      match s_libdl_handle w with
      | None => Some w
      | Some h =>
          let? w := if bool_decide (s_dlopen w = libc_dlopen_mode p)
                    then let? (r, w) := my_dlsym f p h "dlopen" w in Some (set_dlopen w (from_libdl r)) else Some w in
          let? w := if bool_decide (s_dlerror w = None)
                    then let? (r, w) := my_dlsym f p h "dlerror" w in Some (set_dlerror w (from_libdl r)) else Some w in
          if bool_decide (s_dladdr w = None)
          then let? (r, w) := my_dlsym f p h "dladdr" w in Some (set_dladdr w (from_libdl r)) else Some w
      end
  end.
Definition dl_fuel : nat := 3.

Definition ensure_lib (present : bool) (p : process) (name : string) (w : world) : world :=
  if present then w else snd (my_dlopen p name (Z.lor RTLD_GLOBAL RTLD_NOW) w).
Definition ensure_libm_is_loaded (p : process) : world -> world := ensure_lib (has_log p) p "libm.so.6".
Definition ensure_libpthread_is_loaded (p : process) : world -> world := ensure_lib (has_pthread_cancel p) p "libpthread.so.0".
Definition ensure_librt_is_loaded (p : process) : world -> world := ensure_lib (has_timer_create p) p "librt.so.1".

(** The file of the loader, when [dladdr] is there and finds it. *)
Definition loader_file (p : process) (w : world) : option string := match s_dladdr w with Some _ => dladdr_answer p | None => None end.

Definition ensure_loader_symbols_promoted (soname : option string) (p : process) (w : world) : world :=
  match soname with
  | None => w
  | Some soname =>
      let flags := Z.lor (Z.lor RTLD_GLOBAL RTLD_NOLOAD) RTLD_NOW in
      match loader_file p w with
      | Some fname =>
          let '(self, w) := my_dlopen_silent p fname flags w in
          match self with Some _ => w | None => snd (my_dlopen_silent p soname flags w) end
      | None => snd (my_dlopen_silent p soname flags w)
      end
  end.

(** ** loader.c: the libraries *)

(** The build: the embedded library and executable, the name of the loader.  The answers to the calls of the loader. *)
Record build := mkBuild { lib_data : EmbeddedData; exe_data : EmbeddedData; soname : option string }.
Record load_answers := mkLoad {
  temp : string -> temp_answers; malloc_ok : nat -> bool; is_dir : string -> bool; access_ok : string -> bool; open_ok : string -> bool;
  fstat_ok : bool; mmap_ok : bool; hash_junk : list Z }.

Definition k_profiler_exe_name : string := "ddprof".
Definition k_profiler_lib_env_variable : string := "DD_PROFILING_NATIVE_LIBRARY".

Section Loader.
Context (b : build) (p : process) (a : load_answers).

(** The digest of the file must be that of the build. *)
Definition find_installed_profiling_lib (w : world) : option string * world :=
  match loader_file p w with
  | None => (None, w)
  | Some fname =>
      match strrchr_dir fname with
      | None => (None, w)
      | Some dir =>
          let '(ok, m) := malloc (malloc_ok a) (mach w) in
          if ok then
            let lib_path := (dir +:+ "/" +:+ k_libdd_profiling_embedded_name)%string in
            match (if open_ok a lib_path then fs m !! lib_path else None) with
            | None => (None, set_mach w (free m))
            | Some f =>
                let m := open_fd m in
                if negb (fstat_ok a) || (Z.of_nat (length (contents f)) =? 0) then (None, set_mach w (free (close_fd m)))
                else
                  let m := close_fd m in
                  if mmap_ok a then
                    if bool_decide (sha256_hex (sha256 (hash_junk a) (contents f)) = digest (lib_data b)) then (Some lib_path, set_mach w m)
                    else (None, set_mach w (free m))
                  else (None, set_mach w (free m))
            end
          else (None, set_mach w m)
      end
  end.

Fixpoint first_executable (dir : string) (candidates : list string) (m : machine) : option string * machine :=
  match candidates with
  | [] => (None, m)
  | rel :: candidates' =>
      let '(ok, m) := malloc (malloc_ok a) m in
      if ok then
        let exe_path := (dir +:+ rel)%string in
        if access_ok a exe_path then (Some exe_path, m) else first_executable dir candidates' (free m)
      else first_executable dir candidates' m
  end.

Definition find_ddprof_exe (w : world) : option string * world :=
  match loader_file p w with
  | None => (None, w)
  | Some fname =>
      match strrchr_dir fname with
      | None => (None, w)
      | Some dir => let '(r, m) := first_executable dir ["/../bin/ddprof"; "/ddprof"]%string (mach w) in (r, set_mach w m)
      end
  end.

Definition setenv (k v : string) (w : world) : world := set_vars w (<[k := v]> (vars w)).
Definition unsetenv (k : string) (w : world) : world := set_vars w (delete k (vars w)).
Definition free_w (w : world) : world := set_mach w (free (mach w)).
Definition free_opt (s : option string) (m : machine) : machine := match s with Some _ => free m | None => m end.

Definition load_embedded_profiling_lib (w : world) : option Z * world :=
  if (Z.of_nat (length (e_data (lib_data b))) =? 0) || (Z.of_nat (length (e_data (exe_data b))) =? 0) then (None, w)
  else
    let dir := temp_directory_path (is_dir a) (vars w) in
    let '(lib_path, m) := get_or_create_temp_file_c (malloc_ok a) (temp a k_libdd_profiling_embedded_name) dir k_libdd_profiling_embedded_name (lib_data b) 0x1a4 (mach w) in
    let '(exe_path, m) := get_or_create_temp_file_c (malloc_ok a) (temp a k_profiler_exe_name) dir k_profiler_exe_name (exe_data b) 0x1ed m in
    match lib_path, exe_path with
    | Some lib_path, Some exe_path =>
        let w := setenv k_profiler_ddprof_exe_env_variable exe_path (set_mach w m) in
        let '(handle, w) := my_dlopen p lib_path (Z.lor RTLD_LOCAL RTLD_NOW) (free_w w) in
        (handle, free_w w)
    | _, _ => (None, set_mach w (free_opt exe_path (free_opt lib_path m)))
    end.

(** The installed executable and library, both or none. *)
Definition load_installed (w : world) : option Z * world :=
  let '(exe_path, w) := find_ddprof_exe w in
  match exe_path with
  | None => (None, w)
  | Some exe_path =>
      let '(lib_path, w) := find_installed_profiling_lib w in
      match lib_path with
      | None => (None, free_w w)
      | Some lib_path =>
          let w := setenv k_profiler_ddprof_exe_env_variable exe_path w in
          let '(handle, w) := my_dlopen p lib_path (Z.lor RTLD_LOCAL RTLD_NOW) w in
          let w := match handle with Some _ => w | None => unsetenv k_profiler_ddprof_exe_env_variable w end in
          (handle, free_w (free_w w))
      end
  end.

Definition prepare (w : world) : option world :=
  let? w := ensure_libdl_is_loaded dl_fuel p w in
  Some (ensure_loader_symbols_promoted (soname b) p (ensure_librt_is_loaded p (ensure_libpthread_is_loaded p (ensure_libm_is_loaded p w)))).

Definition load_profiling_lib (w : world) : option Z * world :=
  match vars w !! k_profiler_lib_env_variable with
  | Some lib_profiling_path => my_dlopen p lib_profiling_path (Z.lor RTLD_LOCAL RTLD_NOW) w
  | None => let '(handle, w) := load_installed w in match handle with Some h => (Some h, w) | None => load_embedded_profiling_lib w end
  end.

Definition loader (w : world) : option world :=
  let? w := prepare w in
  let '(handle, w) := load_profiling_lib w in
  match handle with
  | None => Some (set_profiling w None None None)
  | Some h =>
      let? (start, w) := my_dlsym dl_fuel p h "ddprof_start_profiling" w in
      let? (stop, w) := my_dlsym dl_fuel p h "ddprof_stop_profiling" w in
      Some (set_profiling w (Some h) start stop)
  end.

(** The functions of the library, forwarded: [call] is what the function at an address answers. *)
Definition ddprof_start_profiling (call : Z -> Z) (w : world) : Z := match s_start_profiling_func w with Some f => call f | None => -1 end.
Definition ddprof_stop_profiling (call : Z -> Z -> world -> world) (timeout_ms : Z) (w : world) : world :=
  match s_stop_profiling_func w with Some f => call f timeout_ms w | None => w end.

End Loader.
