(* ===== verification/LoaderProofs.v ===== *)
(** * Theorems on temporary files and on the loader

    Files are published atomically and completely, whatever fails, by both implementations ([publishes]); the functions that call each
    other to find those of the linker return; the library that is loaded has the digest of the build. *)

From Stdlib Require Import Ascii.
From S2P Require Import Prelude Ddres Sha256 EventConfig Profiling Loader.

Local Open Scope Z_scope.

(** ** Publication of a file *)

(** The files after an error: as they were, or with one file more, under a temporary name, when it could not be removed. *)
Definition leftover (a : temp_answers) (prefix : string) (base after : files) : Prop :=
  after = base \/ (unlink_ok a = false /\ exists x g, base !! (prefix +:+ x)%string = None /\ after = <[(prefix +:+ x)%string := g]> base).

(** What every implementation promises: no descriptor is left open, another process sees under the path what was there before or the whole file, an
    error leaves the files as they were but for a temporary file that could not be removed; on success the file was there already or is now. *)
Definition publishes (a : temp_answers) (prefix p : string) (f : file) (m m' : machine) (ok : bool) : Prop :=
  descriptors m' = descriptors m /\
  (exists states, past m' = states ++ past m /\ Forall (fun s => s !! p = fs m !! p \/ s !! p = Some f) states) /\
  (if ok then (is_Some (fs m !! p) /\ fs m' = fs m) \/ fs m' = <[p := f]> (fs m) else leftover a prefix (fs m) (fs m')).

(** A temporary file: the states on the way differ at its path only. *)
Definition creates (a : temp_answers) (prefix : string) (f : file) (m m' : machine) (r : option string) : Prop :=
  descriptors m' = descriptors m /\
  (exists states, past m' = states ++ past m /\ Forall (fun s => exists x, forall q, q <> (prefix +:+ x)%string -> s !! q = fs m !! q) states) /\
  match r with
  | Some tmp => exists x, tmp = (prefix +:+ x)%string /\ fs m !! tmp = None /\ fs m' = <[tmp := f]> (fs m)
  | None => leftover a prefix (fs m) (fs m')
  end.

Lemma string_app_assoc (a b c : string) : ((a +:+ b) +:+ c)%string = (a +:+ (b +:+ c))%string.
Proof. induction a as [|x a IH]; [done|]. exact (f_equal (String x) IH). Qed.

Lemma temp_not_final dir prefix digest x : (temp_prefix dir prefix +:+ x)%string <> final_path dir prefix digest.
Proof.
  unfold temp_prefix, final_path. rewrite !string_app_assoc. intros H.
  apply (inj (String.append dir)) in H. cbn in H. injection H as H. by apply (inj (String.append prefix)) in H.
Qed.

Lemma mkostemp_spec a prefix m tmp m' : mkostemp a prefix m = Some (tmp, m') ->
  (exists x, tmp = (prefix +:+ x)%string) /\ fs m !! tmp = None /\ m' = open_fd (set_fs m (<[tmp := mkFile [] 0x180]> (fs m))).
Proof. unfold mkostemp. intros H. repeat case_match; simplify_eq. split; [|done]. eauto. Qed.

(** Writing the created file: the whole data, or an error. *)
Lemma write_all a tmp data mode (m : machine) base n m' :
  fs m = <[tmp := mkFile [] mode]> base -> write a tmp data m = (n, m') -> n = Z.of_nat (length data) ->
  fs m' = <[tmp := mkFile data mode]> base /\ past m' = fs m :: past m /\ descriptors m' = descriptors m /\ blocks m' = blocks m /\ mallocs m' = mallocs m.
Proof.
  intros Hfs. unfold write. destruct (written a) as [k|]; intros [= <- <-] Hn; [|lia].
  assert (take k data = data) as Ht by (apply take_ge; lia). cbn. split; [|done].
  rewrite Hfs, alter_insert. cbn. rewrite ?Ht. by destruct (decide (tmp = tmp)).
Qed.

(** The states on the way, as an explicit list. *)
Ltac temp_states x :=
  repeat (apply List.Forall_cons; [exists x; intros q Hq; rewrite ?lookup_alter_ne, ?lookup_insert_ne by congruence; done|]); apply List.Forall_nil.

(** The calls after the creation, up to the descriptor and the file that are given back on a failure. *)
Definition fill (a : temp_answers) (tmp : string) (data : list Z) (mode : Z) (m : machine) : bool * machine :=
  let '(ok, m) := fchmod a tmp mode m in
  if ok then let '(n, m) := write a tmp data m in (n =? Z.of_nat (length data), m) else (false, m).

Lemma fill_spec a tmp data mode prefix x m m1 ok m' :
  tmp = (prefix +:+ x)%string -> fs m !! tmp = None -> m1 = open_fd (set_fs m (<[tmp := mkFile [] 0x180]> (fs m))) -> fill a tmp data mode m1 = (ok, m') ->
  descriptors m' = S (descriptors m) /\ blocks m' = blocks m /\ mallocs m' = mallocs m /\ (exists g, fs m' = <[tmp := g]> (fs m)) /\
  (ok = true -> fs m' = <[tmp := mkFile data mode]> (fs m)) /\
  (exists x, forall q, q <> (prefix +:+ x)%string -> fs m' !! q = fs m !! q) /\
  exists states, past m' = states ++ past m /\ Forall (fun s => exists x, forall q, q <> (prefix +:+ x)%string -> s !! q = fs m !! q) states.
Proof.
  intros -> Hnone -> H. unfold fill, fchmod in H. destruct (fchmod_ok a).
  - destruct (write a _ data _) as [n m2] eqn:Ew. injection H as <- <-. cbn in Ew. rewrite alter_insert_eq in Ew; cbn in Ew.
    unfold write in Ew; destruct (written a) as [k|] eqn:Ek; injection Ew as <- <-; cbn.
    + rewrite alter_insert_eq; cbn. repeat split; [by eexists| | |].
      * intros Hn%Z.eqb_eq. by rewrite take_ge by lia.
      * exists x. intros q Hq. by rewrite lookup_insert_ne by congruence.
      * eexists [_; _; _]. split; [done|]. temp_states x.
    + repeat split; [by eexists| | |].
      * intros Hn. by destruct (length data).
      * exists x. intros q Hq. by rewrite lookup_insert_ne by congruence.
      * eexists [_; _]. split; [done|]. temp_states x.
  - injection H as <- <-. cbn. repeat split; [by eexists|done| |].
    + exists x. intros q Hq. by rewrite lookup_insert_ne by congruence.
    + eexists [_]. split; [done|]. temp_states x.
Qed.

(** The removal of the temporary file, and what is left when it fails. *)
Lemma unlink_leftover a prefix x m m1 : fs m !! (prefix +:+ x)%string = None -> (exists g, fs m1 = <[(prefix +:+ x)%string := g]> (fs m)) ->
  leftover a prefix (fs m) (fs (unlink a (prefix +:+ x)%string m1)).
Proof.
  intros Hnone (g & Hg). unfold unlink. destruct (unlink_ok a) eqn:E; [left|right; split; [done|by exists x, g]]. cbn. by rewrite Hg, delete_insert_id.
Qed.

Lemma unlink_counts a p m : descriptors (unlink a p m) = descriptors m /\ blocks (unlink a p m) = blocks m.
Proof. unfold unlink. by destruct (unlink_ok a). Qed.

Lemma unlink_past a p m (P : files -> Prop) base : P (fs m) -> (exists states, past m = states ++ base /\ Forall P states) ->
  exists states, past (unlink a p m) = states ++ base /\ Forall P states.
Proof.
  intros Hm (states & Hs & Hall). unfold unlink. destruct (unlink_ok a); [|by exists states]. exists (fs m :: states). cbn. rewrite Hs. split; [done|by constructor].
Qed.

Lemma create_temp_file_creates a d prefix data mode path m : forall res tmp m', create_temp_file a (Some d) prefix data mode path m = (res, tmp, m') ->
  creates a (temp_prefix d prefix) (mkFile data mode) m m' (if IsDDResNotOK res then None else Some tmp).
Proof.
  intros res tmp m'. unfold create_temp_file. destruct (mkostemp a _ m) as [[t m1]|] eqn:Em.
  2: { intros [= <- <- <-]. split; [done|]. split; [by exists []|by left]. }
  apply mkostemp_spec in Em as ((x & Hx) & Hnone & Hm1).
  pose proof (fill_spec a t data mode (temp_prefix d prefix) x m m1) as Hfill. unfold fill in Hfill.
  destruct (fchmod a t mode m1) as [[] m2]; [destruct (write a t data m2) as [n m3]; destruct (n =? _)|];
    destruct (Hfill _ _ Hx Hnone Hm1 eq_refl) as (Hd & _ & _ & Hdel & Hok & Hlast & Hst);
    intros [= <- <- <-]; unfold creates; cbn [IsDDResNotOK IsDDResOK ddres_init]; cbn [fs past descriptors close_fd];
    rewrite ?(proj1 (unlink_counts _ _ _)), Hd; (split; [done|]).
  - destruct Hst as (states & Hst & Hall). change (IsDDResNotOK ddres_init) with false. eauto 10.
  - split; [by apply unlink_past|]. change (IsDDResNotOK (ddres_error DD_WHAT_TEMP_FILE)) with true. subst t. by apply unlink_leftover.
  - split; [by apply unlink_past|]. change (IsDDResNotOK (ddres_error DD_WHAT_TEMP_FILE)) with true. subst t. by apply unlink_leftover.
Qed.

(** The rename, or the removal of the temporary file. *)
Lemma rename_publishes a d prefix digest f m m1 tmp ok m2 :
  creates a (temp_prefix d prefix) f m m1 (Some tmp) -> rename a tmp (final_path d prefix digest) m1 = (ok, m2) ->
  publishes a (temp_prefix d prefix) (final_path d prefix digest) f m (if ok then m2 else unlink a tmp m2) ok.
Proof.
  intros (Hd & (states & Hst & Hall) & x & -> & Hnone & Hfs). pose proof (temp_not_final d prefix digest x) as Hne.
  assert (Forall (fun s => s !! final_path d prefix digest = fs m !! final_path d prefix digest \/ s !! final_path d prefix digest = Some f) states) as Hseen.
  { eapply Forall_impl; [exact Hall|]. intros s (y & Hy). left. apply Hy. apply not_eq_sym, temp_not_final. }
  assert (fs m1 !! final_path d prefix digest = fs m !! final_path d prefix digest) as Hlast by (rewrite Hfs; by apply lookup_insert_ne).
  unfold rename. destruct (rename_ok a); [rewrite Hfs, lookup_insert_eq|]; intros [= <- <-]; unfold publishes.
  - cbn. split; [done|]. rewrite ?delete_insert_id by done. split; [|by right]. rewrite Hst. eexists (_ :: states). split; [done|]. rewrite Hfs.
    constructor; [left; by rewrite lookup_insert_ne|done].
  - rewrite (proj1 (unlink_counts _ _ _)). split; [done|]. split; [apply unlink_past; [by left|by exists states]|]. apply unlink_leftover; [done|by exists f].
Qed.

Lemma creates_none_publishes a prefix p f m m' : (forall x, (prefix +:+ x)%string <> p) -> creates a prefix f m m' None -> publishes a prefix p f m m' false.
Proof.
  intros Hp (Hd & (states & Hst & Hall) & Hfs). split; [done|]. split; [|done]. exists states. split; [done|].
  eapply Forall_impl; [exact Hall|]. intros s (x & Hx). left. by apply Hx, not_eq_sym.
Qed.

Lemma publishes_refl a prefix p f m ok : is_Some (fs m !! p) -> publishes a prefix p f m m ok.
Proof. intros H. split; [done|]. split; [by exists []|]. destruct ok; [auto|by left]. Qed.

(** The function of [tempfile.cc]. *)
Lemma get_or_create_publishes a dir d prefix data digest mode m res path m' :
  dir = Some d -> get_or_create_temp_file a dir prefix data digest mode m = (res, path, m') ->
  path = final_path d prefix digest /\ publishes a (temp_prefix d prefix) path (mkFile data mode) m m' (IsDDResOK res).
Proof.
  intros -> H. unfold get_or_create_temp_file in H. cbn [default] in H. unfold exists_file in H.
  destruct (visible a && _) eqn:Ev.
  { injection H as <- <- <-. split; [done|]. apply andb_true_iff in Ev as [_ Ev%bool_decide_eq_true]. by apply publishes_refl. }
  destruct (create_temp_file _ _ _ _ _ _ _) as [[r tmp] m1] eqn:Ec. apply create_temp_file_creates in Ec.
  destruct (IsDDResNotOK r) eqn:Er.
  - injection H as <- <- <-. split; [done|]. unfold IsDDResOK, IsDDResNotOK in *. apply negb_true_iff in Er. rewrite Er.
    eapply creates_none_publishes; [|done]. intros x. apply temp_not_final.
  - destruct (rename _ _ _ _) as [ok m2] eqn:Erename. eapply rename_publishes in Ec; [|exact Erename]. destruct ok; injection H as <- <- <-; done.
Qed.

(** The blocks do not matter to the files. *)
Definition same_files (m m' : machine) : Prop := fs m = fs m' /\ past m = past m' /\ descriptors m = descriptors m'.

Lemma creates_ext a prefix f m1 m2 m1' m2' r : same_files m1 m1' -> same_files m2 m2' -> creates a prefix f m1 m2 r -> creates a prefix f m1' m2' r.
Proof. intros (H1 & H2 & H3) (H4 & H5 & H6). unfold creates. by rewrite H1, H2, H3, H4, H5, H6. Qed.

Lemma publishes_ext a prefix p f m1 m2 m1' m2' ok : same_files m1 m1' -> same_files m2 m2' -> publishes a prefix p f m1 m2 ok -> publishes a prefix p f m1' m2' ok.
Proof. intros (H1 & H2 & H3) (H4 & H5 & H6). unfold publishes. by rewrite H1, H2, H3, H4, H5, H6. Qed.

Definition held (r : option string) : nat := match r with Some _ => 1 | None => 0 end.

Lemma create_temp_file_c_creates ok a d prefix data mode m r m' : create_temp_file_c ok a (Some d) prefix data mode m = (r, m') ->
  creates a (temp_prefix d prefix) (mkFile data mode) m m' r /\ blocks m' = (held r + blocks m)%nat.
Proof.
  unfold create_temp_file_c, malloc. destruct (ok (mallocs m)).
  2: { intros [= <- <-]. split; [|done]. split; [done|]. split; [by exists []|by left]. }
  set (m0 := mkMachine _ _ _ _ _). destruct (mkostemp a _ m0) as [[t m1]|] eqn:Em.
  2: { intros [= <- <-]. split; [|done]. split; [done|]. split; [by exists []|by left]. }
  apply mkostemp_spec in Em as ((x & Hx) & Hnone & Hm1).
  pose proof (fill_spec a t data mode (temp_prefix d prefix) x m0 m1) as Hfill. unfold fill in Hfill.
  destruct (fchmod a t mode m1) as [[] m2]; [destruct (write a t data m2) as [n m3]; destruct (n =? _)|];
    destruct (Hfill _ _ Hx Hnone Hm1 eq_refl) as (Hd & Hb & _ & Hdel & Hok & Hlast & Hst);
    intros [= <- <-]; unfold creates; cbn [fs past descriptors blocks close_fd free];
    rewrite ?(proj1 (unlink_counts _ _ _)), ?(proj2 (unlink_counts _ _ _)); cbn [fs past descriptors blocks close_fd free]; rewrite ?Hd, ?Hb; (split; [split; [done|]|done]).
  - destruct Hst as (states & Hst & Hall). eauto 10.
  - split; [by apply unlink_past|]. subst t. by apply unlink_leftover.
  - split; [by apply unlink_past|]. subst t. by apply unlink_leftover.
Qed.

Lemma rename_blocks a p q m ok m' : rename a p q m = (ok, m') -> blocks m' = blocks m.
Proof. unfold rename. intros H. by repeat case_match; simplify_eq. Qed.

(** The implementation in C does the same, and gives back every block but the path it returns. *)
Lemma temp_file_c_published ok a d prefix data mode m r m' : get_or_create_temp_file_c ok a (Some d) prefix data mode m = (r, m') ->
  (forall path, r = Some path -> path = final_path d prefix (digest data)) /\
  publishes a (temp_prefix d prefix) (final_path d prefix (digest data)) (mkFile (e_data data) mode) m m' (bool_decide (is_Some r)) /\ blocks m' = (held r + blocks m)%nat.
Proof.
  unfold get_or_create_temp_file_c, malloc. destruct (ok (mallocs m)).
  2: { intros [= <- <-]. split; [done|]. split; [|done]. split; [done|]. split; [by exists []|by left]. }
  set (m0 := mkMachine _ _ _ _ _). assert (same_files m0 m) as Hm0 by done. unfold exists_file. destruct (visible a && _) eqn:Ev.
  { intros [= <- <-]. split; [congruence|]. split; [|done]. apply andb_true_iff in Ev as [_ Ev%bool_decide_eq_true].
    by eapply publishes_ext; [..|by apply (publishes_refl _ _ _ _ m0)]. }
  destruct (create_temp_file_c _ _ _ _ _ _ _) as [r0 m1] eqn:Ec. apply create_temp_file_c_creates in Ec as [Ec Hb]. destruct r0 as [tmp|].
  - destruct (rename _ _ _ _) as [okr m2] eqn:Erename. pose proof (rename_blocks _ _ _ _ _ _ Erename) as Hb2.
    eapply rename_publishes in Ec; [|exact Erename]. destruct okr; intros [= <- <-].
    + split; [congruence|]. split; [|cbn; rewrite Hb2, Hb; done]. by eapply publishes_ext; [..|exact Ec].
    + split; [done|]. split; [|cbn; rewrite (proj2 (unlink_counts _ _ _)), Hb2, Hb; done]. by eapply publishes_ext; [..|exact Ec].
  - intros [= <- <-]. split; [done|]. split; [|cbn; by rewrite Hb]. eapply creates_none_publishes in Ec; [by eapply publishes_ext; [..|exact Ec]|].
    intros x. apply temp_not_final.
Qed.

(** C12: In a process with a temporary directory, whatever the calls answer, both implementations of [get_or_create_temp_file] publish the data: every other
    process sees under the final path what was there before or the whole file with its mode, no descriptor stays open, an error leaves the files as they were,
    except for one file under a temporary name when its removal failed too; the one in C keeps no block but the path. *)
Theorem temp_files_published ok a d prefix data mode m :
  (let '(res, path, m') := get_or_create_temp_file a (Some d) prefix (e_data data) (digest data) mode m in
   path = final_path d prefix (digest data) /\ publishes a (temp_prefix d prefix) path (mkFile (e_data data) mode) m m' (IsDDResOK res)) /\
  (let '(r, m') := get_or_create_temp_file_c ok a (Some d) prefix data mode m in
   (forall path, r = Some path -> path = final_path d prefix (digest data)) /\
   publishes a (temp_prefix d prefix) (final_path d prefix (digest data)) (mkFile (e_data data) mode) m m' (bool_decide (is_Some r)) /\ blocks m' = (held r + blocks m)%nat).
Proof.
  split.
  - destruct (get_or_create_temp_file _ _ _ _ _ _ _) as [[res path] m'] eqn:E. by apply (get_or_create_publishes _ _ d) in E.
  - destruct (get_or_create_temp_file_c _ _ _ _ _ _ _) as [r m'] eqn:E. by apply temp_file_c_published in E.
Qed.

(** ** Libraries to inject *)

Lemma find_lib_exists exe m name : find_lib exe m name <> ""%string -> is_Some (fs m !! find_lib exe m name).
Proof. unfold find_lib. intros H. repeat case_bool_decide; done. Qed.

Lemma insert_keeps_file (m : files) p q f : is_Some (m !! q) -> is_Some (<[p := f]> m !! q).
Proof. intros Hq. destruct (decide (p = q)) as [-> | Hne]; [rewrite lookup_insert_eq|rewrite lookup_insert_ne]; eauto. Qed.

Lemma publishes_exists a prefix p q f m m' ok : publishes a prefix p f m m' ok -> is_Some (fs m !! q) -> is_Some (fs m' !! q).
Proof. intros (_ & _ & H) Hq. destruct ok; [destruct H as [[_ H] | H]|destruct H as [H | (_ & x & g & _ & H)]]; rewrite H; [done|by apply insert_keeps_file|done|by apply insert_keeps_file]. Qed.

Lemma publishes_there a prefix p f m m' : publishes a prefix p f m m' true -> is_Some (fs m' !! p).
Proof. intros (_ & _ & [[H1 H2] | H]); [by rewrite H2|rewrite H, lookup_insert_eq; eauto]. Qed.

(** One of the libraries: found, or published. *)
Lemma library_path_exists a dir name data mode path0 m res path m' : (path0 <> ""%string -> is_Some (fs m !! path0)) ->
  (if bool_decide (path0 = ""%string) then get_or_create_temp_file a dir name (e_data data) (digest data) mode m else (ddres_init, path0, m)) = (res, path, m') ->
  (forall q, is_Some (fs m !! q) -> is_Some (fs m' !! q)) /\ (IsDDResNotOK res = false -> is_Some (fs m' !! path)).
Proof.
  intros H0. case_bool_decide as Hp; [|intros [= <- <- <-]; auto]. destruct dir as [d|]; [|by intros [= <- <- <-]].
  intros H. apply (get_or_create_publishes _ _ d) in H as [-> H]; [|done]. split; [intros q; by eapply publishes_exists|].
  intros Hr. unfold IsDDResNotOK in Hr. apply negb_false_iff in Hr. unfold IsDDResOK in H. rewrite Hr in H. by eapply publishes_there.
Qed.

(** The libraries that are injected exist when they are. *)
Theorem injected_libraries_exist a dir e exe plib llib m res paths m' :
  get_library_path a dir e exe plib llib m = (res, paths, m') -> IsDDResNotOK res = false ->
  is_Some (fs m' !! fst paths) /\ is_Some (fs m' !! snd paths).
Proof.
  unfold get_library_path. intros H Hr.
  set (pp := if bool_decide _ then _ else find_lib exe m k_libdd_profiling_embedded_name) in H.
  set (lp := if bool_decide _ then _ else find_lib exe m k_libdd_loader_name) in H.
  assert (pp <> ""%string -> is_Some (fs m !! pp)) as Hpp by (unfold pp; destruct (bool_decide (is_Some _)); [done|apply find_lib_exists]).
  assert (lp <> ""%string -> is_Some (fs m !! lp)) as Hlp by (unfold lp; destruct (bool_decide (is_Some _)); [done|apply find_lib_exists]).
  clearbody pp lp.
  destruct (if bool_decide (pp = _) then _ else _) as [[r1 p1] m1] eqn:E1. apply library_path_exists in E1 as [Hkeep1 H1]; [|done].
  destruct (IsDDResNotOK r1) eqn:Er1; [congruence|].
  destruct (if bool_decide (lp = _) then _ else _) as [[r2 p2] m2] eqn:E2. apply library_path_exists in E2 as [Hkeep2 H2]; [|auto].
  destruct (IsDDResNotOK r2) eqn:Er2; [congruence|]. injection H as <- <- <-. cbn. auto.
Qed.

(** ** The functions of the linker *)

(** The linker changes neither the files nor the environment, and calls are only added; a [dlsym] that was found is kept. *)
Definition keeps (w w' : world) : Prop :=
  mach w' = mach w /\ vars w' = vars w /\ (exists l, opened w' = opened w ++ l) /\ (is_Some (dlsym_ptr w) -> dlsym_ptr w' = dlsym_ptr w) /\
  (is_Some (s_libdl_handle w) -> s_libdl_handle w' = s_libdl_handle w).

#[global] Instance keeps_preorder : PreOrder keeps.
Proof.
  split.
  - intros w. repeat (split; [done|]). split; [exists []; by rewrite app_nil_r|done].
  - intros w1 w2 w3 (H1 & H2 & (l1 & H3) & H4 & H5) (H1' & H2' & (l2 & H3') & H4' & H5').
    split; [congruence|]. split; [congruence|]. split; [exists (l1 ++ l2); by rewrite H3', H3, (assoc_L app)|].
    split; intros H; [rewrite H4', H4|rewrite H5', H5]; rewrite ?H4, ?H5; done.
Qed.

Ltac keeps_now := repeat (split; [done|]); (split; [first [exists []; by rewrite app_nil_r | by eexists]|split; intros H; done]).

Lemma my_dlopen_keeps p name flags w : keeps w (snd (my_dlopen p name flags w)).
Proof. unfold my_dlopen, my_dlopen_impl. destruct (s_dlopen w) eqn:E; [rewrite E|cbn; destruct (libc_dlopen_mode p)]; cbn; keeps_now. Qed.

Lemma my_dlopen_handle p name flags w h w' : my_dlopen p name flags w = (Some h, w') ->
  opened w' = opened w ++ [mkOpening name flags (contents <$> fs (mach w) !! name) (Some h)].
Proof.
  unfold my_dlopen, my_dlopen_impl. destruct (s_dlopen w) eqn:E; [rewrite E|cbn; destruct (libc_dlopen_mode p)]; cbn; intros H; simplify_eq;
    cbn; by repeat f_equal.
Qed.

(** A process that has [dlsym], or a libc with its own. *)
Definition linkable (p : process) (w : world) : Prop := has_libc_dlsym p = true \/ is_Some (dlsym_ptr w).

Lemma linkable_keeps p w w' : keeps w w' -> linkable p w -> linkable p w'.
Proof. intros (_ & _ & _ & H & _) [Hl|Hl]; [by left|right]. by rewrite H. Qed.

Lemma set_dlsym_keeps w w' q : dlsym_ptr w = None -> keeps w w' -> keeps w (set_dlsym w' q).
Proof. intros H (H1 & H2 & H3 & _ & H5). repeat (split; [done|]). split; [rewrite H; by intros []|done]. Qed.

(** A lookup once libdl is loaded, or with a [dlsym] of the process, needs no other call. *)
Lemma my_dlsym_direct f p h sym w : linkable p w -> is_Some (s_libdl_handle w) \/ is_Some (dlsym_ptr w) ->
  exists r w', my_dlsym (S f) p h sym w = Some (r, w') /\ keeps w w'.
Proof.
  intros Hl Hs. cbn. destruct (dlsym_ptr w) eqn:Ed; [eexists _, _; by split|]. destruct Hs as [[hl Hh]|[? Hs]]; [|congruence].
  destruct Hl as [Hl|[? Hl]]; [|congruence]. rewrite Hh. cbv beta iota. rewrite Hh, Hl.
  pose proof (set_dlsym_keeps w w (from_libdl (dlsym_answer p hl "dlsym")) Ed (reflexivity w)).
  cbn [dlsym_ptr set_dlsym]. destruct (from_libdl _); eexists _, _; by split.
Qed.

(** One of the functions looked up in libdl. *)
Lemma lookup_in_libdl f p h sym w (b : bool) (set : world -> option pointer -> world) :
  linkable p w -> is_Some (s_libdl_handle w) -> (forall w q, keeps w (set w q)) ->
  exists w', (if b then let? (r, w) := my_dlsym (S f) p h sym w in Some (set w (from_libdl r)) else Some w) = Some w' /\ keeps w w'.
Proof.
  intros Hl Hh Hset. destruct b; [|by exists w]. destruct (my_dlsym_direct f p h sym w Hl (or_introl Hh)) as (r & w' & -> & Hk).
  eexists. split; [done|]. by rewrite Hk.
Qed.

Lemma ensure_libdl_returns f p w : linkable p w -> exists w', ensure_libdl_is_loaded (S (S f)) p w = Some w' /\ keeps w w'.
Proof.
  intros Hl. cbn [ensure_libdl_is_loaded].
  set (w1 := if _ && _ then _ else w). assert (keeps w w1) as Hk1.
  { unfold w1. destruct (_ && _) eqn:E; [|done]. apply andb_true_iff in E as [_ E%bool_decide_eq_true].
    pose proof (my_dlopen_keeps p "libdl.so.2" (Z.lor RTLD_GLOBAL RTLD_NOW) w) as (H1 & H2 & H3 & H4 & _).
    destruct (my_dlopen _ _ _ _) as [h w']. repeat (split; [done|]). rewrite E. by intros []. }
  clearbody w1. pose proof (linkable_keeps _ _ _ Hk1 Hl) as Hl1. destruct (s_libdl_handle w1) as [h|] eqn:Eh; [|by exists w1].
  assert (is_Some (s_libdl_handle w1)) as Hs1 by (rewrite Eh; eauto).
  destruct (lookup_in_libdl f p h "dlopen" w1 (bool_decide (s_dlopen w1 = libc_dlopen_mode p)) set_dlopen) as (w2 & -> & Hk2); [done..|intros; keeps_now|].
  assert (is_Some (s_libdl_handle w2)) as Hs2 by (destruct Hk2 as (_ & _ & _ & _ & Hk2); by rewrite Hk2).
  destruct (lookup_in_libdl f p h "dlerror" w2 (bool_decide (s_dlerror w2 = None)) set_dlerror) as (w3 & -> & Hk3); [by eapply linkable_keeps|done|intros; keeps_now|].
  assert (is_Some (s_libdl_handle w3)) as Hs3 by (destruct Hk3 as (_ & _ & _ & _ & Hk3); by rewrite Hk3).
  destruct (lookup_in_libdl f p h "dladdr" w3 (bool_decide (s_dladdr w3 = None)) set_dladdr) as (w4 & -> & Hk4);
    [eapply linkable_keeps; [exact Hk3|]; by eapply linkable_keeps|done|intros; keeps_now|].
  exists w4. split; [done|]. by rewrite Hk1, Hk2, Hk3.
Qed.

Lemma my_dlsym_returns p h sym w : linkable p w -> exists r w', my_dlsym dl_fuel p h sym w = Some (r, w') /\ keeps w w'.
Proof.
  intros Hl. destruct (dlsym_ptr w) as [q|] eqn:Ed; [apply my_dlsym_direct; [done|right; rewrite Ed; eauto]|].
  destruct (s_libdl_handle w) as [hl|] eqn:Eh; [apply my_dlsym_direct; [done|left; rewrite Eh; eauto]|].
  unfold dl_fuel. cbn [my_dlsym]. rewrite Ed, Eh. destruct (ensure_libdl_returns 0 p w Hl) as (w1 & -> & Hk1).
  destruct Hl as [Hl|[? Hl]]; [|congruence]. destruct (s_libdl_handle w1) as [hl|].
  - rewrite Hl. pose proof (set_dlsym_keeps w w1 (from_libdl (dlsym_answer p hl "dlsym")) Ed Hk1).
    cbn [dlsym_ptr set_dlsym]. destruct (from_libdl _); eexists _, _; by split.
  - destruct (dlsym_ptr w1); eexists _, _; by split.
Qed.

(** ** The libraries *)

Lemma keeps_opened w w' : keeps w w' -> exists l, opened w' = opened w ++ l.
Proof. by intros (_ & _ & H & _). Qed.

Lemma keeps_mach w w' : keeps w w' -> mach w' = mach w.
Proof. by intros (H & _). Qed.

Section LoaderProofs.
Context (b : build) (p : process) (a : load_answers).

(** The file is the library of the build, as its digest shows. *)
Definition of_build (bytes : list Z) : Prop := sha256_hex (sha256 (hash_junk a) bytes) = digest (lib_data b).

(** Descriptors and blocks are given back, and the calls already made stay. *)
Definition balanced (w w' : world) : Prop :=
  descriptors (mach w') = descriptors (mach w) /\ blocks (mach w') = blocks (mach w) /\ (exists l, opened w' = opened w ++ l) /\
  (is_Some (dlsym_ptr w) -> dlsym_ptr w' = dlsym_ptr w).

#[local] Instance balanced_preorder : PreOrder balanced.
Proof.
  split.
  - intros w. repeat (split; [done|]). split; [exists []; by rewrite app_nil_r|done].
  - intros w1 w2 w3 (H1 & H2 & (l1 & H3) & H4) (H1' & H2' & (l2 & H3') & H4').
    split; [congruence|]. split; [congruence|]. split; [exists (l1 ++ l2); by rewrite H3', H3, (assoc_L app)|]. intros H. by rewrite H4', H4; rewrite ?H4.
Qed.

Lemma keeps_balanced w w' : keeps w w' -> balanced w w'.
Proof. intros (H1 & H2 & H3 & H4 & _). unfold balanced. rewrite H1. auto. Qed.

Lemma linkable_balanced w w' : balanced w w' -> linkable p w -> linkable p w'.
Proof. intros (_ & _ & _ & H) [Hl|Hl]; [by left|right]. by rewrite H. Qed.

Lemma prepare_returns w : linkable p w -> exists w', prepare b p w = Some w' /\ keeps w w'.
Proof.
  intros Hl. unfold prepare, dl_fuel. destruct (ensure_libdl_returns 1 p w Hl) as (w1 & -> & Hk). eexists. split; [done|]. rewrite Hk. clear.
  assert (forall c n w, keeps w (ensure_lib c p n w)) as He by (intros [] n w; [done|apply my_dlopen_keeps]).
  transitivity (ensure_librt_is_loaded p (ensure_libpthread_is_loaded p (ensure_libm_is_loaded p w1))).
  { etransitivity; [apply He|]. etransitivity; [apply He|]. apply He. }
  generalize (ensure_librt_is_loaded p (ensure_libpthread_is_loaded p (ensure_libm_is_loaded p w1))). intros w. unfold ensure_loader_symbols_promoted.
  destruct (soname b) as [so|]; [|done]. destruct (loader_file p w) as [f|]; [|apply my_dlopen_keeps].
  pose proof (my_dlopen_keeps p f (Z.lor (Z.lor RTLD_GLOBAL RTLD_NOLOAD) RTLD_NOW) w) as H1. change my_dlopen_silent with my_dlopen.
  destruct (my_dlopen p f _ w) as [[h|] w']; [done|]. cbn in H1. rewrite H1. apply my_dlopen_keeps.
Qed.

(** The search of the executable: at most one block is kept. *)
Lemma first_executable_spec dir l m r m' : first_executable a dir l m = (r, m') ->
  same_files m m' /\ blocks m' = (held r + blocks m)%nat /\ (forall e, r = Some e -> access_ok a e = true).
Proof.
  revert m. induction l as [|rel l IH]; intros m; cbn; [by intros [= <- <-]|]. unfold malloc. destruct (malloc_ok a (mallocs m)).
  - destruct (access_ok a (dir +:+ rel)) eqn:E; [intros [= <- <-]; split; [done|]; split; [done|]; congruence|]. intros H. by apply IH in H.
  - intros H. by apply IH in H.
Qed.

Lemma find_ddprof_exe_spec w r w' : find_ddprof_exe p a w = (r, w') ->
  w' = set_mach w (mach w') /\ same_files (mach w) (mach w') /\ blocks (mach w') = (held r + blocks (mach w))%nat /\ (forall e, r = Some e -> access_ok a e = true).
Proof.
  unfold find_ddprof_exe. destruct (loader_file p w) as [f|]; [|intros [= <- <-]; by destruct w]. destruct (strrchr_dir f) as [d|]; [|intros [= <- <-]; by destruct w].
  destruct (first_executable _ _ _ _) as [r0 m] eqn:E. apply first_executable_spec in E. by intros [= <- <-].
Qed.

Lemma find_installed_spec w r w' : find_installed_profiling_lib b p a w = (r, w') ->
  w' = set_mach w (mach w') /\ same_files (mach w) (mach w') /\ blocks (mach w') = (held r + blocks (mach w))%nat /\
  (forall l, r = Some l -> exists f, fs (mach w) !! l = Some f /\ of_build (contents f)).
Proof.
  unfold find_installed_profiling_lib. destruct (loader_file p w) as [fn|]; [|intros [= <- <-]; by destruct w]. destruct (strrchr_dir fn) as [d|]; [|intros [= <- <-]; by destruct w].
  unfold malloc. destruct (malloc_ok a _); [|by intros [= <- <-]]. set (path := (d +:+ _)%string). destruct (open_ok a path); [|by intros [= <- <-]].
  cbn [fs mach]. destruct (fs (mach w) !! path) as [f|] eqn:Ef; [|by intros [= <- <-]]. destruct (_ || _); [by intros [= <- <-]|].
  destruct (mmap_ok a); [|by intros [= <- <-]]. case_bool_decide as Hh; intros [= <- <-]; [|done].
  split; [done|]. split; [done|]. split; [done|]. intros l [= <-]. by exists f.
Qed.

(** What a load of the library leaves behind: the environment apart, a handle comes from a file of the build. *)
Definition loaded_from_build (w w' : world) (r : option Z) : Prop :=
  forall h, r = Some h -> exists o, o ∈ opened w' /\ o_handle o = Some h /\ o_flags o = RTLD_NOW /\ (exists bytes, o_bytes o = Some bytes /\ of_build bytes).

Lemma opened_from_build w path f h w' : my_dlopen p path (Z.lor RTLD_LOCAL RTLD_NOW) w = (Some h, w') -> fs (mach w) !! path = Some f -> of_build (contents f) ->
  exists o, o ∈ opened w' /\ o_handle o = Some h /\ o_flags o = RTLD_NOW /\ (exists bytes, o_bytes o = Some bytes /\ of_build bytes).
Proof.
  intros H Hf Hb. apply my_dlopen_handle in H. rewrite Hf in H. eexists. rewrite H. split; [apply elem_of_app; right; by left|]. cbn. eauto.
Qed.

Lemma load_installed_spec w r w' : load_installed b p a w = (r, w') ->
  balanced w w' /\ fs (mach w') = fs (mach w) /\ loaded_from_build w w' r /\
  (forall h, r = Some h -> exists e, vars w' !! k_profiler_ddprof_exe_env_variable = Some e /\ access_ok a e = true) /\
  (forall k, k <> k_profiler_ddprof_exe_env_variable -> vars w' !! k = vars w !! k).
Proof.
  unfold load_installed. destruct (find_ddprof_exe p a w) as [re w1] eqn:Ee. apply find_ddprof_exe_spec in Ee as (Hw1 & (Hf1 & _ & Hd1) & Hb1 & Hx1).
  assert (opened w1 = opened w /\ vars w1 = vars w /\ dlsym_ptr w1 = dlsym_ptr w) as (Ho1 & Hv1 & Hs1) by (rewrite Hw1; done).
  destruct re as [exe|].
  2: { intros [= <- <-]. repeat split; try done; [by exists []; rewrite app_nil_r, Ho1|by rewrite Hv1]. }
  destruct (find_installed_profiling_lib b p a w1) as [rl w2] eqn:El. apply find_installed_spec in El as (Hw2 & (Hf2 & _ & Hd2) & Hb2 & Hx2).
  assert (opened w2 = opened w1 /\ vars w2 = vars w1 /\ dlsym_ptr w2 = dlsym_ptr w1) as (Ho2 & Hv2 & Hs2) by (rewrite Hw2; done).
  destruct rl as [lib|].
  2: { intros [= <- <-]. unfold balanced. cbn. rewrite Hb2, Hb1. cbn. repeat split; try done; try congruence.
       exists []. rewrite app_nil_r. congruence. }
  destruct (my_dlopen p lib _ _) as [rh w3] eqn:Eo.
  pose proof (my_dlopen_keeps p lib (Z.lor RTLD_LOCAL RTLD_NOW) (setenv k_profiler_ddprof_exe_env_variable exe w2)) as Hk. rewrite Eo in Hk. cbn in Hk.
  destruct Hk as (Hm3 & Hv3 & (l & Ho3) & Hs3 & _). cbn in Hm3, Hv3, Ho3, Hs3.
  assert (balanced w (free_w (free_w w3))) as Hbal.
  { unfold balanced. cbn. rewrite Hm3, Hb2, Hb1. cbn. repeat split; try congruence; [exists l; congruence|]. intros Hs. rewrite Hs3; [congruence|]. by rewrite Hs2, Hs1. }
  destruct rh as [h|]; intros [= <- <-].
  - split; [done|]. split; [cbn; rewrite Hm3; congruence|]. split; [|split].
    + intros h' [= <-]. destruct (Hx2 _ eq_refl) as (f & Hf & Hh). cbn. eapply opened_from_build; [exact Eo| |exact Hh]. cbn. congruence.
    + intros h' [= <-]. exists exe. cbn. rewrite Hv3. split; [apply lookup_insert_eq|]. by apply Hx1.
    + intros k Hk. cbn. rewrite Hv3, lookup_insert_ne by done. congruence.
  - split; [done|]. split; [cbn; rewrite Hm3; congruence|]. split; [done|]. split; [done|].
    intros k Hk. cbn. rewrite Hv3, lookup_delete_ne, lookup_insert_ne by done. congruence.
Qed.

(** The files that were left by an earlier run are those of the build. *)
Definition trusted (m : machine) (dir : option string) : Prop :=
  forall d, dir = Some d ->
    (forall f, fs m !! final_path d k_libdd_profiling_embedded_name (digest (lib_data b)) = Some f -> contents f = e_data (lib_data b)) /\
    (forall f, fs m !! final_path d k_profiler_exe_name (digest (exe_data b)) = Some f -> contents f = e_data (exe_data b)).

Lemma lib_not_exe d x y : final_path d k_libdd_profiling_embedded_name x <> final_path d k_profiler_exe_name y.
Proof. unfold final_path. intros H. by apply (inj (String.append d)) in H. Qed.

(** A published file that is trusted has its contents. *)
Lemma published_contents an prefix path f (data : list Z) m m' : publishes an prefix path f m m' true -> contents f = data ->
  (forall f0, fs m !! path = Some f0 -> contents f0 = data) -> exists f', fs m' !! path = Some f' /\ contents f' = data.
Proof.
  intros (_ & _ & [[[f0 Hf0] Hfs] | Hfs]) Hf Ht; rewrite Hfs; [exists f0; split; [done|]; by apply Ht|exists f; by rewrite lookup_insert_eq].
Qed.

Lemma publishes_other an prefix path q f m m' ok : publishes an prefix path f m m' ok -> q <> path -> (forall x, q <> (prefix +:+ x)%string) -> fs m' !! q = fs m !! q.
Proof.
  intros (_ & _ & H) Hq Hx. destruct ok; [destruct H as [[_ H] | H]|destruct H as [H | (_ & x & g & _ & H)]]; rewrite H;
    [done|by apply lookup_insert_ne|done|by apply lookup_insert_ne, not_eq_sym].
Qed.

Lemma lib_not_temp_exe d x y : final_path d k_libdd_profiling_embedded_name x <> (temp_prefix d k_profiler_exe_name +:+ y)%string.
Proof. unfold final_path, temp_prefix. rewrite !string_app_assoc. intros H. by apply (inj (String.append d)) in H. Qed.

Lemma exe_not_temp_lib d x y : final_path d k_profiler_exe_name x <> (temp_prefix d k_libdd_profiling_embedded_name +:+ y)%string.
Proof. unfold final_path, temp_prefix. rewrite !string_app_assoc. intros H. by apply (inj (String.append d)) in H. Qed.

Lemma load_embedded_spec w r w' : of_build (e_data (lib_data b)) -> trusted (mach w) (temp_directory_path (is_dir a) (vars w)) ->
  load_embedded_profiling_lib b p a w = (r, w') ->
  balanced w w' /\ loaded_from_build w w' r /\
  (forall h, r = Some h -> exists e f, vars w' !! k_profiler_ddprof_exe_env_variable = Some e /\ fs (mach w') !! e = Some f /\ contents f = e_data (exe_data b)).
Proof.
  intros Hb Ht. unfold load_embedded_profiling_lib. destruct (_ || _); [by intros [= <- <-]|].
  destruct (temp_directory_path _ _) as [d|] eqn:Ed; [|intros [= <- <-]; split; [|done]; cbn; unfold balanced; cbn; repeat split; try done; exists []; by rewrite app_nil_r].
  destruct (Ht d eq_refl) as [Htl Hte].
  destruct (get_or_create_temp_file_c _ _ _ k_libdd_profiling_embedded_name _ _ _) as [rl m1] eqn:El. apply temp_file_c_published in El as (Hnl & Hpl & Hbl).
  destruct (get_or_create_temp_file_c _ _ _ k_profiler_exe_name _ _ m1) as [re m2] eqn:Ee. apply temp_file_c_published in Ee as (Hne & Hpe & Hbe).
  assert (descriptors m2 = descriptors (mach w)) as Hd by (destruct Hpl as [Hpl _], Hpe as [Hpe _]; congruence).
  assert (forall w', mach w' = free_opt re (free_opt rl m2) -> descriptors (mach w') = descriptors (mach w) /\ blocks (mach w') = blocks (mach w)) as Hbal.
  { intros w0 ->. destruct rl, re; cbn in *; split; lia || congruence. }
  destruct rl as [lib|]; [destruct re as [exe|]|]; try (intros [= <- <-]; split; [|done]; destruct (Hbal (set_mach w (free_opt re (free_opt None m2))) eq_refl);
    repeat split; try done; exists []; by rewrite app_nil_r).
  2: { intros [= <- <-]. split; [|done]. destruct (Hbal (set_mach w (free m2)) eq_refl). repeat split; try done. exists []. by rewrite app_nil_r. }
  rewrite (Hnl _ eq_refl), (Hne _ eq_refl) in *. destruct (my_dlopen p _ _ _) as [rh w3] eqn:Eo.
  pose proof (my_dlopen_keeps p (final_path d k_libdd_profiling_embedded_name (digest (lib_data b))) (Z.lor RTLD_LOCAL RTLD_NOW)
    (free_w (setenv k_profiler_ddprof_exe_env_variable (final_path d k_profiler_exe_name (digest (exe_data b))) (set_mach w m2)))) as Hk.
  rewrite Eo in Hk. destruct Hk as (Hm3 & Hv3 & (l & Ho3) & Hs3 & _). cbn in Hm3, Hv3, Ho3, Hs3. intros [= <- <-].
  split; [|split].
  - destruct (Hbal (free_w w3)) as [H1 H2]; [cbn; by rewrite Hm3|]. split; [done|]. split; [done|]. split; [by exists l|done].
  - intros h ->. cbn. edestruct (published_contents _ _ _ _ (e_data (lib_data b)) _ _ Hpl) as (f & Hf & Hc); [done|exact Htl|].
    eapply opened_from_build; [exact Eo| |by rewrite Hc]. cbn. rewrite (publishes_other _ _ _ _ _ _ _ _ Hpe); [done|apply lib_not_exe|intros x; apply lib_not_temp_exe].
  - intros h ->. edestruct (published_contents _ _ _ _ (e_data (exe_data b)) _ _ Hpe) as (f & Hf & Hc); [done| |].
    { intros f0. rewrite (publishes_other _ _ _ _ _ _ _ _ Hpl) by (apply not_eq_sym, lib_not_exe || (intros x; apply exe_not_temp_lib)). apply Hte. }
    eexists _, f. cbn. rewrite Hv3, lookup_insert_eq, Hm3. done.
Qed.

Lemma temp_directory_path_ext (d : string -> bool) (e e' : environment_vars) :
  (forall k, k <> k_profiler_ddprof_exe_env_variable -> e' !! k = e !! k) -> temp_directory_path d e' = temp_directory_path d e.
Proof. intros H. unfold temp_directory_path. by rewrite !H by done. Qed.

(** The executable of the environment: one that was found, or the one of the build. *)
Definition exe_of_build (w : world) : Prop :=
  exists e, vars w !! k_profiler_ddprof_exe_env_variable = Some e /\
    (access_ok a e = true \/ exists f, fs (mach w) !! e = Some f /\ contents f = e_data (exe_data b)).

Lemma load_profiling_lib_spec w r w' : vars w !! k_profiler_lib_env_variable = None -> of_build (e_data (lib_data b)) ->
  trusted (mach w) (temp_directory_path (is_dir a) (vars w)) -> load_profiling_lib b p a w = (r, w') ->
  balanced w w' /\ loaded_from_build w w' r /\ (forall h, r = Some h -> exe_of_build w').
Proof.
  intros He Hb Ht. unfold load_profiling_lib. rewrite He. destruct (load_installed b p a w) as [ri w1] eqn:Ei.
  apply load_installed_spec in Ei as (Hbal & Hfs & Hl & Hx & Hv). destruct ri as [h|].
  - intros [= <- <-]. split; [done|]. split; [done|]. intros h' Hh. destruct (Hx _ Hh) as (e & H1 & H2). exists e. auto.
  - intros H. apply load_embedded_spec in H as (Hbal2 & Hl2 & Hx2); [|done|].
    + split; [by rewrite Hbal|]. split; [done|]. intros h Hh. destruct (Hx2 _ Hh) as (e & f & H1 & H2 & H3). exists e. eauto.
    + rewrite (temp_directory_path_ext _ _ _ Hv). intros d Hd. destruct (Ht d Hd) as [H1 H2]. rewrite Hfs. done.
Qed.

(** The end of the loader: both functions of the library. *)
Lemma loader_ends w w1 r w2 : prepare b p w = Some w1 -> load_profiling_lib b p a w1 = (r, w2) -> linkable p w2 ->
  exists w3 start stop, loader b p a w = Some (set_profiling w3 r start stop) /\ keeps w2 w3.
Proof.
  intros Hp E Hl. unfold loader. rewrite Hp, E. destruct r as [h|]; [|by exists w2, None, None].
  destruct (my_dlsym_returns p h "ddprof_start_profiling" w2 Hl) as (start & w3 & -> & Hk3).
  destruct (my_dlsym_returns p h "ddprof_stop_profiling" w3 (linkable_keeps _ _ _ Hk3 Hl)) as (stop & w4 & -> & Hk4).
  exists w4, start, stop. split; [done|]. by rewrite Hk3.
Qed.

(** C11: In a process with a usable dynamic linker and no library chosen by the user, the constructor of the loader returns, gives back every descriptor and
    block, and a library it loads is a file whose SHA-256 is that of the build, with an executable in the environment that was found or is that of the build. *)
Theorem loader_loads_the_build m e :
  linkable p (fresh_world p m e) -> e !! k_profiler_lib_env_variable = None -> of_build (e_data (lib_data b)) -> trusted m (temp_directory_path (is_dir a) e) ->
  exists w, loader b p a (fresh_world p m e) = Some w /\ descriptors (mach w) = descriptors m /\ blocks (mach w) = blocks m /\
    forall h, s_profiling_lib_handle w = Some h ->
      exe_of_build w /\
      exists o bytes, o ∈ opened w /\ o_handle o = Some h /\ o_flags o = RTLD_NOW /\ o_bytes o = Some bytes /\ of_build bytes.
Proof.
  intros Hl He Hb Ht. destruct (prepare_returns _ Hl) as (w1 & Hp & Hk). destruct (load_profiling_lib b p a w1) as [r w2] eqn:E.
  assert (mach w1 = m /\ vars w1 = e) as [Hm1 Hv1] by (destruct Hk as (H1 & H2 & _); done).
  assert (linkable p w1) as Hl1 by by eapply linkable_keeps. pose proof E as Hs.
  apply load_profiling_lib_spec in Hs as (Hbal & Hlib & Hexe); [|congruence|done|by rewrite Hm1, Hv1].
  destruct (loader_ends _ _ _ _ Hp E) as (w3 & start & stop & Hload & Hk3); [by eapply linkable_balanced|].
  eexists. split; [exact Hload|]. destruct Hk3 as (Hm3 & Hv3 & (l & Ho3) & _), Hbal as (Hd & Hbl & _). cbn. rewrite Hm3, Hd, Hbl, Hm1.
  split; [done|]. split; [done|]. intros h ->. split.
  - destruct (Hexe h eq_refl) as (x & Hx & Hor). exists x. cbn. by rewrite Hv3, Hm3.
  - destruct (Hlib h eq_refl) as (o & Ho & H1 & H2 & bytes & H3 & H4). exists o, bytes. rewrite Ho3. split; [apply elem_of_app; by left|done].
Qed.

(** The library that the user chose is the one that is loaded, unverified. *)
Theorem loader_obeys_variable m e path :
  linkable p (fresh_world p m e) -> e !! k_profiler_lib_env_variable = Some path ->
  exists w, loader b p a (fresh_world p m e) = Some w /\ mach w = m /\ vars w = e /\
    forall h, s_profiling_lib_handle w = Some h -> exists o, o ∈ opened w /\ o_handle o = Some h /\ o_name o = path.
Proof.
  intros Hl He. destruct (prepare_returns _ Hl) as (w1 & Hp & Hk). destruct (load_profiling_lib b p a w1) as [r w2] eqn:E.
  pose proof (my_dlopen_keeps p path (Z.lor RTLD_LOCAL RTLD_NOW) w1) as Hk2.
  assert (my_dlopen p path (Z.lor RTLD_LOCAL RTLD_NOW) w1 = (r, w2)) as Eo.
  { unfold load_profiling_lib in E. destruct Hk as (_ & Hv & _). rewrite Hv in E. cbn in E. by rewrite He in E. }
  rewrite Eo in Hk2. cbn in Hk2. assert (keeps (fresh_world p m e) w2) as Hk12 by by rewrite Hk.
  destruct (loader_ends _ _ _ _ Hp E) as (w3 & start & stop & Hload & Hk3); [by eapply linkable_keeps|].
  eexists. split; [exact Hload|]. destruct (transitivity Hk12 Hk3) as (Hm & Hv & _). split; [done|]. split; [done|].
  intros h Hh. cbn in Hh. subst r. apply my_dlopen_handle in Eo. apply keeps_opened in Hk3 as (l & Ho).
  eexists. cbn. rewrite Ho, Eo. split; [apply elem_of_app; left; apply elem_of_app; right; by left|done].
Qed.

(** The variable for the executable: a library of the build replaces what the user wrote in it. *)
Lemma find_exe_overwrites w r w' h : load_installed b p a w = (r, w') -> r = Some h ->
  exists x, find_ddprof_exe p a w = (Some x, snd (find_ddprof_exe p a w)) /\ vars w' !! k_profiler_ddprof_exe_env_variable = Some x.
Proof.
  unfold load_installed. intros H ->. destruct (find_ddprof_exe p a w) as [[x|] w1]; [|done].
  destruct (find_installed_profiling_lib b p a w1) as [[lib|] w2]; [|done].
  destruct (my_dlopen p lib _ _) as [rh w3] eqn:Eo. destruct rh as [h'|]; [|done]. injection H as <- <-. exists x. split; [done|].
  pose proof (my_dlopen_keeps p lib (Z.lor RTLD_LOCAL RTLD_NOW) (setenv k_profiler_ddprof_exe_env_variable x w2)) as (_ & Hv & _). rewrite Eo in Hv. cbn in Hv |- *.
  rewrite Hv. apply lookup_insert_eq.
Qed.

End LoaderProofs.

(** ** Runs *)

Module LoaderDemo.

Definition lib : EmbeddedData := mkEmbedded [1; 2; 3] (sha256_hex (sha256 (repeat 0 64) [1; 2; 3])).
Definition exe : EmbeddedData := mkEmbedded [4; 5] "beef".
Definition demo_build : build := mkBuild lib exe (Some "libdd_profiling.so"%string).
Definition good_temp : temp_answers := mkTemp (Some "AAAAAA"%string) true (Some 10%nat) true true true.

(** An old glibc without libdl: [dlopen] and [dlsym] are those of libc until libdl is loaded. *)
Definition old_glibc (fname : option string) : process :=
  mkProcess false false false false true true false true false (fun n _ _ => Some (Z.of_nat n + 100)) (fun h _ => Some (h * 1000)) fname.
Definition answers (exe_there : bool) : load_answers := mkLoad (fun _ => good_temp) (fun _ => true) (fun _ => true) (fun _ => exe_there) (fun _ => true) true true (repeat 0 64).
Definition machine_of (f : files) : machine := mkMachine f [] 0 0 0.

Definition lib_temp : string := final_path "/tmp" k_libdd_profiling_embedded_name (digest lib).

(** The handle, the bytes loaded for it and the executable. *)
Definition outcome (w : option world) : option (option Z * list (option (list Z)) * option string) :=
  match w with
  | Some w => Some (s_profiling_lib_handle w, map o_bytes (List.filter (fun o => bool_decide (o_handle o = s_profiling_lib_handle w)) (opened w)), vars w !! k_profiler_ddprof_exe_env_variable)
  | None => None
  end.

(** Nothing installed: the embedded library and executable are extracted. *)
Example extracted : outcome (loader demo_build (old_glibc None) (answers false) (fresh_world (old_glibc None) (machine_of ∅) ∅)) =
  Some (Some 104, [Some [1; 2; 3]], Some "/tmp/ddprof-beef"%string).
Proof. vm_compute. reflexivity. Qed.

(** Installed: the variable that the user had set for the executable is replaced. *)
Definition installed_at : string := "/opt/lib/libdd_profiling-embedded.so".
Example installed_replaces_variable :
  outcome (loader demo_build (old_glibc (Some "/opt/lib/libdd_profiling.so"%string)) (answers true)
    (fresh_world (old_glibc (Some "/opt/lib/libdd_profiling.so"%string)) (machine_of {[installed_at := mkFile [1; 2; 3] 0x1a4]}) {[k_profiler_ddprof_exe_env_variable := "/home/me/ddprof"%string]})) =
  Some (Some 104, [Some [1; 2; 3]], Some "/opt/lib/../bin/ddprof"%string).
Proof. vm_compute. reflexivity. Qed.

(** An installed library with another digest is not loaded, but a file that is already under the name of the temporary file is, whatever it holds. *)
Example planted_temp_file_is_loaded :
  outcome (loader demo_build (old_glibc (Some "/opt/lib/libdd_profiling.so"%string)) (answers true)
    (fresh_world (old_glibc (Some "/opt/lib/libdd_profiling.so"%string)) (machine_of {[installed_at := mkFile [6; 6; 6] 0x1a4; lib_temp := mkFile [7; 7; 7] 0x1a4]}) ∅)) =
  Some (Some 104, [Some [7; 7; 7]], Some "/tmp/ddprof-beef"%string).
Proof. vm_compute. reflexivity. Qed.

Lemma loader_loads_the_build_witness :
  exists w, loader demo_build (old_glibc None) (answers false) (fresh_world (old_glibc None) (machine_of ∅) ∅) = Some w /\ descriptors (mach w) = 0%nat.
Proof.
  edestruct (loader_loads_the_build demo_build (old_glibc None) (answers false) (machine_of ∅) ∅) as (w & Hw & Hd & _).
  - by left.
  - reflexivity.
  - reflexivity.
  - intros d _. split; intros f Hf; unfold machine_of in Hf; cbn [fs] in Hf; by rewrite lookup_empty in Hf.
  - exists w. split; [exact Hw|exact Hd].
Defined.

End LoaderDemo.
