(* ===== verification/Logging.v ===== *)
(** * Logs, statistics sockets and small checks

    Model of [src/logger.cc] and [src/logger_setup.cc] (descriptor, levels, the buffer of a message), of [src/statsd.cc] (sockets and
    messages), of [src/system_check.cc] and of the file checks of [src/procutils.cc].  Times, descriptors and answers of system calls are inputs. *)

From Stdlib Require Import Ascii.
From S2P Require Import Prelude Ddres Sha256 Clocks EventConfig Profiling.
From stdpp Require Import pretty.

Local Open Scope Z_scope.

(** ** logger.cc *)

Definition LOG_DISABLE : Z := 0.
Definition LOG_SYSLOG : Z := 1.
Definition LOG_STDOUT : Z := 2.
Definition LOG_STDERR : Z := 3.
Definition LOG_FILE : Z := 4.
Definition LL_EMERGENCY : Z := 0.
Definition LL_ERROR : Z := 3.
Definition LL_WARNING : Z := 4.
Definition LL_NOTICE : Z := 5.
Definition LL_INFORMATIONAL : Z := 6.
Definition LL_DEBUG : Z := 7.
Definition LL_LENGTH : Z := 8.
Definition LF_KERNEL : Z := 0.
Definition LF_USER : Z := 1.
Definition LF_LOCAL7 : Z := 23.

(** The logger, and the descriptors it opened and has not closed. *)
Record LoggerContext := mkLog {
  lfd : Z; lmode : Z; llevel : Z; lfacility : Z; lname : string; rate_limit : option IntervalRateLimiter; has_allowed_function : bool; lowned : list Z }.

Definition log_ctx : LoggerContext := mkLog (-1) LOG_STDERR LL_ERROR LF_USER "" None false [].

Definition LOG_setlevel (lvl : Z) (c : LoggerContext) : LoggerContext :=
  if (LL_EMERGENCY <=? lvl) && (lvl <=? LL_DEBUG) then mkLog (lfd c) (lmode c) lvl (lfacility c) (lname c) (rate_limit c) (has_allowed_function c) (lowned c) else c.
Definition LOG_getlevel (c : LoggerContext) : Z := llevel c.
Definition LOG_setfacility (fac : Z) (c : LoggerContext) : LoggerContext :=
  if (LF_KERNEL <=? fac) && (fac <=? LF_LOCAL7) then mkLog (lfd c) (lmode c) (llevel c) fac (lname c) (rate_limit c) (has_allowed_function c) (lowned c) else c.
Definition LOG_setname (name : string) (c : LoggerContext) : LoggerContext :=
  mkLog (lfd c) (lmode c) (llevel c) (lfacility c) name (rate_limit c) (has_allowed_function c) (lowned c).
Definition set_fd (fd : Z) (owned : list Z) (c : LoggerContext) : LoggerContext :=
  mkLog fd (lmode c) (llevel c) (lfacility c) (lname c) (rate_limit c) (has_allowed_function c) owned.
Definition set_mode (mode : Z) (c : LoggerContext) : LoggerContext :=
  mkLog (lfd c) mode (llevel c) (lfacility c) (lname c) (rate_limit c) (has_allowed_function c) (lowned c).
Definition LOG_setratelimit (max_log_per_interval interval : Z) (c : LoggerContext) : LoggerContext :=
  mkLog (lfd c) (lmode c) (llevel c) (lfacility c) (lname c) (Some (rate_limiter max_log_per_interval interval)) (has_allowed_function c) (lowned c).
Definition LOG_set_logs_allowed_function (c : LoggerContext) : LoggerContext :=
  mkLog (lfd c) (lmode c) (llevel c) (lfacility c) (lname c) (rate_limit c) true (lowned c).

Definition close (fd : Z) (owned : list Z) : list Z := List.filter (fun f => negb (f =? fd)) owned.

(** The answers to [socket], [connect] and [open]. *)
Record log_answers := mkLogAnswers { sock : option Z; connect_ok : bool; file_fd : option Z }.

Definition LOG_syslog_open (a : log_answers) (c : LoggerContext) : bool * LoggerContext :=
  match sock a with
  | None => (false, c)
  | Some fd => if connect_ok a then (true, set_fd fd (fd :: lowned c) c) else (false, set_fd (lfd c) (close fd (fd :: lowned c)) c)
  end.

Definition LOG_close (c : LoggerContext) : LoggerContext :=
  set_fd (-1) (if (lmode c =? LOG_SYSLOG) || (lmode c =? LOG_FILE) then close (lfd c) (lowned c) else lowned c) c.

Definition LOG_open (mode : Z) (a : log_answers) (c : LoggerContext) : bool * LoggerContext :=
  let c := if 0 <=? lfd c then LOG_close c else c in
  let c := set_mode mode c in
  if mode =? LOG_DISABLE then (true, set_mode mode (set_fd (-1) (lowned c) c))
  else if mode =? LOG_SYSLOG then
    let '(ok, c) := LOG_syslog_open a c in if ok then (true, set_mode mode c) else (false, c)
  else if mode =? LOG_STDERR then (true, set_mode mode (set_fd 2 (lowned c) c))
  else if mode =? LOG_FILE then
    match file_fd a with
    | None => (false, c)
    | Some fd => (true, set_mode mode (set_fd fd (fd :: lowned c) c))
    end
  else (true, set_mode mode (set_fd 1 (lowned c) c)).

(** The answer of the injected function and the time are inputs; the limiter counts when it is asked. *)
Definition LOG_is_logging_enabled_for_level (level : Z) (allowed : bool) (now : Z) (cas : bool) (c : LoggerContext) : bool * LoggerContext :=
  if level <=? llevel c then
    if negb (has_allowed_function c) || allowed then
      match rate_limit c with
      | None => (true, c)
      | Some r => let '(ok, r) := check r now cas in
                  (ok, mkLog (lfd c) (lmode c) (llevel c) (lfacility c) (lname c) (Some r) (has_allowed_function c) (lowned c))
      end
    else (false, c)
  else (false, c).

(** ** A message *)

Definition LOG_MSG_CAP : Z := 4096.
Definition bytes_of (s : string) : list Z := map code (String.list_ascii_of_string s).

(** Bytes written in the buffer; [None] is a write outside of it. *)
Definition buf_write (buf : list Z) (off : Z) (bytes : list Z) : option (list Z) :=
  if (0 <=? off) && (off + Z.of_nat (length bytes) <=? Z.of_nat (length buf)) then Some (splice (Z.to_nat off) bytes buf) else None.

(** [snprintf] at an offset: the size is converted to an unsigned integer; the length of the whole text is returned. *)
Definition snprintf (buf : list Z) (off size : Z) (text : list Z) : option (list Z * Z) :=
  let size := u64 size in
  let? buf := if size =? 0 then Some buf else buf_write buf off (take (Z.to_nat (Z.min (size - 1) (Z.of_nat (length text)))) text ++ [0]) in
  Some (buf, Z.of_nat (length text)).

Definition levels : list string := ["EMERGENCY"; "ALERT"; "CRITICAL"; "ERROR"; "WARNING"; "NOTICE"; "INFORMATIONAL"; "DEBUG"]%string.

Fixpoint zeros (n : nat) : string := match n with O => "" | S m => "0" +:+ zeros m end%string.
Definition pad6 (n : Z) : string := let s := pretty n in (zeros (6 - String.length s) +:+ s)%string.

(** The text before the message; [None]: the level has no name. *)
Definition log_header (c : LoggerContext) (lvl fac : Z) (tm_str : string) (us pid : Z) (name_default : string) : option string :=
  let name := if bool_decide (lname c = ""%string) then name_default else lname c in
  let? first := if lmode c =? LOG_SYSLOG then Some (pretty (lvl + fac * LL_LENGTH)) else if 0 <=? lvl then levels !! Z.to_nat lvl else None in
  Some ("<" +:+ first +:+ ">" +:+ tm_str +:+ "." +:+ pad6 us +:+ " " +:+ name +:+ "[" +:+ pretty pid +:+ "]: ")%string.

(** The body after the header in the buffer, and what is sent. *)
Definition log_message (c : LoggerContext) (header body buf : list Z) : option (list Z) :=
  let? (buf, sz_h) := snprintf buf 0 LOG_MSG_CAP header in
  let cap := LOG_MSG_CAP - sz_h - 2 in
  let? (buf, sz) := snprintf buf sz_h cap body in
  let sz := Z.min sz cap + sz_h in
  let? (buf, sz) :=
    if negb (lmode c =? LOG_SYSLOG) then
      let? buf := buf_write buf sz [10] in
      let? buf := buf_write buf (sz + 1) [0] in
      Some (buf, sz + 1)
    else Some (buf, sz) in
  Some (take (Z.to_nat sz) buf).

(** The calls that send it are repeated while they are interrupted: the number of calls. *)
Fixpoint flush (interrupted : list bool) : nat := match interrupted with true :: rest => S (flush rest) | _ => 1 end.

(** What is written, if anything; the buffer holds [junk] before. *)
Definition vlprintfln (c : LoggerContext) (lvl fac : Z) (body : option (list Z)) (tm_str : string) (us pid : Z) (name_default : string) (junk : list Z) :
  option (option (list Z)) :=
  let lvl := if lvl =? -1 then llevel c else lvl in
  let fac := if fac =? -1 then lfacility c else fac in
  if lfd c <? 0 then Some None
  else
    match body with
    | None => Some None
    | Some body =>
        let? header := log_header c lvl fac tm_str us pid name_default in
        let? sent := log_message c (bytes_of header) body junk in
        Some (Some sent)
    end.

(** ** logger_setup.cc *)

Definition setup_logger (log_mode log_level : option string) (name : string) (max_log_per_sec_for_non_debug : Z) (a : log_answers) (c : LoggerContext) : LoggerContext :=
  let idx := match log_mode with Some m => arg_which m ["stdout"; "stderr"; "syslog"; "disabled"]%string | None => 0 end in
  let mode := if idx =? 0 then LOG_STDOUT else if idx =? 1 then LOG_STDERR else if idx =? 2 then LOG_SYSLOG else if idx =? 3 then LOG_DISABLE else LOG_FILE in
  let c := snd (LOG_open mode a c) in
  let lvl := match log_level with Some l => arg_which l ["debug"; "informational"; "notice"; "warn"; "error"]%string | None => -1 end in
  let c := LOG_setlevel (if lvl =? 0 then LL_DEBUG else if lvl =? 1 then LL_INFORMATIONAL else if lvl =? 2 then LL_NOTICE else if lvl =? 4 then LL_ERROR else LL_WARNING) c in
  let c := if LL_DEBUG <? LOG_getlevel c then LOG_setratelimit max_log_per_sec_for_non_debug 1000000000 c else c in
  LOG_setname name c.

(** ** statsd.cc *)

Definition DD_WHAT_STATSD : Z := what_of "STATSD".
Definition sun_path_size : Z := 108.

Definition adjust_uds_path (path : string) : string :=
  if String.prefix "unix://" path then String.substring 7 (String.length path - 7) path else path.

(** The open sockets and the nodes that [bind] created in the file system. *)
Record sockets := mkSockets { open_socks : list Z; nodes : list string }.

Definition statsd_listen (path : string) (sock : option Z) (bind_ok : bool) (s : sockets) : DDRes * option Z * sockets :=
  let path := adjust_uds_path path in
  if sun_path_size - 1 <=? Z.of_nat (String.length path) then (ddres_warn DD_WHAT_STATSD, None, s)
  else
    match sock with
    | None => (ddres_warn DD_WHAT_STATSD, None, s)
    | Some fd =>
        if bind_ok then (ddres_init, Some fd, mkSockets (fd :: open_socks s) (path :: nodes s))
        else (ddres_warn DD_WHAT_STATSD, None, mkSockets (close fd (fd :: open_socks s)) (nodes s))
    end.

Definition path_listen (pid : Z) : string := ("/tmp/ddprof" +:+ pretty pid)%string.
Definition unlink_node (path : string) (s : sockets) : sockets := mkSockets (open_socks s) (List.filter (fun n => negb (bool_decide (n = path))) (nodes s)).

Definition statsd_connect (statsd_socket : string) (pid : Z) (sock : option Z) (bind_ok connect_ok : bool) (s : sockets) : DDRes * option Z * sockets :=
  let statsd_socket := adjust_uds_path statsd_socket in
  if sun_path_size - 1 <=? Z.of_nat (String.length statsd_socket) then (ddres_warn DD_WHAT_STATSD, None, s)
  else
    let '(res, fd, s) := statsd_listen (path_listen pid) sock bind_ok s in
    let s := unlink_node (path_listen pid) s in
    match fd with
    | Some fd =>
        if IsDDResNotOK res then (res, None, s)
        else if connect_ok then (ddres_init, Some fd, s)
        else (ddres_warn DD_WHAT_STATSD, None, mkSockets (close fd (open_socks s)) (nodes s))
    | None => (res, None, s)
    end.

Inductive stat_type := STAT_MS_LONG | STAT_MS_FLOAT | STAT_COUNT | STAT_GAUGE.

(** The value as a number, or the text of a float. *)
Definition statsd_message (key : string) (val : Z) (float_text : string) (type : stat_type) : string :=
  match type with
  | STAT_MS_LONG => key +:+ ":" +:+ pretty val +:+ "|ms"
  | STAT_MS_FLOAT => key +:+ ":" +:+ float_text +:+ "|ms"
  | STAT_COUNT => key +:+ ":" +:+ pretty val +:+ "|c"
  | STAT_GAUGE => key +:+ ":" +:+ pretty val +:+ "|g"
  end%string.

Inductive write_answer := Wrote (n : nat) | Eintr | Eagain | Efail.
Definition k_max_eintr_retries : Z := 10.

(** The bytes sent; [None]: the answers given do not suffice. *)
Fixpoint send_loop (answers : list write_answer) (rest : list Z) (eintr_retries : Z) (sent : list Z) : option (DDRes * list Z) :=
  match rest with
  | [] => Some (ddres_init, sent)
  | _ =>
      match answers with
      | [] => None
      | Wrote n :: answers' => send_loop answers' (drop n rest) eintr_retries (sent ++ take n rest)
      | Eintr :: answers' => if eintr_retries + 1 <? k_max_eintr_retries then send_loop answers' rest (eintr_retries + 1) sent else Some (ddres_warn DD_WHAT_STATSD, sent)
      | Eagain :: _ => Some (ddres_warn DD_WHAT_STATSD, sent)
      | Efail :: _ => Some (ddres_warn DD_WHAT_STATSD, sent)
      end
  end.

Definition k_max_msg_length : Z := 1024.

Definition statsd_send (key : string) (val : Z) (float_text : string) (type : stat_type) (answers : list write_answer) : option (DDRes * list Z) :=
  let msg := bytes_of (statsd_message key val float_text type) in
  let sz := Z.of_nat (length msg) in
  if (sz =? 0) || (k_max_msg_length <=? sz) then Some (ddres_warn DD_WHAT_STATSD, []) else send_loop answers msg 0 [].

Definition statsd_close (fd : Z) (close_ok : bool) (s : sockets) : DDRes * sockets :=
  (DDRES_CHECK_INT (if close_ok then 0 else -1) DD_WHAT_STATSD ddres_init, mkSockets (close fd (open_socks s)) (nodes s)).

(** ** system_check.cc *)

Definition kMinCpuTime : Z := 5000.
Definition kMaxSystemTimePercentage : Z := 10.

(** The user and system times in microseconds before and after each measure; whether a slow clock is reported, [None] when the
    measures do not suffice. *)
Fixpoint clock_vdso_loop (measures : list (option (Z * Z) * option (Z * Z))) (user_time system_time : Z) : option bool :=
  match measures with
  | [] => None
  | (None, _) :: _ => Some false
  | (_, None) :: _ => Some false
  | (Some (u0, s0), Some (u1, s1)) :: rest =>
      let user_time := user_time + (u1 - u0) in
      let system_time := system_time + (s1 - s0) in
      if kMinCpuTime <=? user_time + system_time then Some (Z.quot ((user_time + system_time) * kMaxSystemTimePercentage) 100 <=? system_time)
      else clock_vdso_loop rest user_time system_time
  end.
Definition check_clock_vdso (measures : list (option (Z * Z) * option (Z * Z))) : option bool := clock_vdso_loop measures 0 0.
Definition check_clock_source (line : option string) : bool := bool_decide (line = Some "xen"%string).

(** ** procutils.cc and signal_helper.cc *)

Definition check_file_type (st_mode : option Z) (file_type : Z) : bool := match st_mode with None => false | Some mode => negb (Z.land mode file_type =? 0) end.
Definition get_file_inode (st : option (Z * Z)) : bool * Z * Z := match st with None => (false, 0, 0) | Some (ino, size) => (true, ino, size) end.

Definition ESRCH : Z := 3.
Definition process_is_alive (kill_rc errno : Z) : bool := negb (kill_rc =? -1) || negb (errno =? ESRCH).

(** ** The descriptor of the logger *)

Definition owns_fd (c : LoggerContext) : bool := ((lmode c =? LOG_SYSLOG) || (lmode c =? LOG_FILE)) && (0 <=? lfd c).
Definition log_wf (c : LoggerContext) : Prop := lowned c = (if owns_fd c then [lfd c] else []) /\ -1 <= lfd c.

Inductive log_op := Open (mode : Z) (a : log_answers) | Close | SetLevel (lvl : Z) | SetFacility (fac : Z) | SetName (name : string) | SetLimit (n itv : Z) | Log (level : Z) (allowed : bool) (now : Z) (cas : bool).
Definition log_step (c : LoggerContext) (op : log_op) : LoggerContext :=
  match op with
  | Open mode a => snd (LOG_open mode a c)
  | Close => LOG_close c
  | SetLevel lvl => LOG_setlevel lvl c
  | SetFacility fac => LOG_setfacility fac c
  | SetName name => LOG_setname name c
  | SetLimit n itv => LOG_setratelimit n itv c
  | Log level allowed now cas => snd (LOG_is_logging_enabled_for_level level allowed now cas c)
  end.

(** The kernel returns descriptors that are not negative. *)
Definition answers_ok (a : log_answers) : Prop := (forall fd, sock a = Some fd -> 0 <= fd) /\ (forall fd, file_fd a = Some fd -> 0 <= fd).
Definition op_ok (op : log_op) : Prop := match op with Open _ a => answers_ok a | _ => True end.

#[local] Arguments close : simpl never.

Lemma close_own fd l : close fd (fd :: l) = close fd l.
Proof. unfold close. cbn [List.filter]. by rewrite Z.eqb_refl. Qed.

Lemma LOG_close_wf c : log_wf c -> lowned (LOG_close c) = [] /\ log_wf (LOG_close c).
Proof.
  intros [Ho Hf]. assert (lowned (LOG_close c) = []) as H.
  { unfold LOG_close. cbn. rewrite Ho. unfold owns_fd. destruct (_ || _); cbn; [|done]. destruct (0 <=? lfd c); [by rewrite close_own|done]. }
  split; [done|]. split; [|cbn; lia]. rewrite H. unfold owns_fd. cbn. by rewrite andb_false_r.
Qed.

Lemma log_wf_fd c : lowned c = (if owns_fd c then [lfd c] else []) -> -1 <= lfd c -> log_wf c.
Proof. done. Qed.

Lemma LOG_open_wf mode a c : answers_ok a -> log_wf c -> log_wf (snd (LOG_open mode a c)).
Proof.
  intros [Hs Hf] Hc. unfold LOG_open. set (c0 := if 0 <=? lfd c then LOG_close c else c).
  assert (lowned c0 = [] /\ lfd c0 = -1) as [Ho Hfd].
  { unfold c0. destruct (0 <=? lfd c) eqn:E; [split; [by apply LOG_close_wf|done]|]. destruct Hc as [Hc1 Hc2]. unfold owns_fd in Hc1. rewrite E, andb_false_r in Hc1. split; [done|lia]. }
  clearbody c0. clear Hc.
  destruct (mode =? LOG_DISABLE) eqn:E0; [apply log_wf_fd; cbn; [|lia]; rewrite Ho; unfold owns_fd; cbn; by rewrite andb_false_r|].
  destruct (mode =? LOG_SYSLOG) eqn:E1.
  { unfold LOG_syslog_open. destruct (sock a) as [fd|] eqn:Es; [destruct (connect_ok a)|]; cbn.
    - specialize (Hs fd eq_refl). apply log_wf_fd; cbn; [|lia]. rewrite Ho. unfold owns_fd. cbn. rewrite E1. cbn. destruct (0 <=? fd) eqn:?; [done|lia].
    - apply log_wf_fd; cbn; [|lia]. rewrite close_own, Ho. unfold owns_fd. cbn. by rewrite Hfd, andb_false_r.
    - apply log_wf_fd; cbn; [|lia]. rewrite Ho. unfold owns_fd. cbn. by rewrite Hfd, andb_false_r. }
  destruct (mode =? LOG_STDERR) eqn:E2; [apply log_wf_fd; cbn; [|lia]; rewrite Ho; apply Z.eqb_eq in E2; subst; done|].
  destruct (mode =? LOG_FILE) eqn:E3.
  { destruct (file_fd a) as [fd|] eqn:Es; cbn.
    - specialize (Hf fd eq_refl). apply log_wf_fd; cbn; [|lia]. rewrite Ho. unfold owns_fd. cbn. rewrite E3, orb_true_r. cbn. destruct (0 <=? fd) eqn:?; [done|lia].
    - apply log_wf_fd; cbn; [|lia]. rewrite Ho. unfold owns_fd. cbn. by rewrite Hfd, andb_false_r. }
  apply log_wf_fd; cbn; [|lia]. rewrite Ho. unfold owns_fd. cbn. by rewrite E1, E3.
Qed.

Lemma log_step_wf c op : op_ok op -> log_wf c -> log_wf (log_step c op).
Proof.
  intros Hop Hc. destruct op; cbn [log_step].
  - by apply LOG_open_wf.
  - by apply LOG_close_wf.
  - unfold LOG_setlevel. by destruct (_ && _).
  - unfold LOG_setfacility. by destruct (_ && _).
  - done.
  - done.
  - unfold LOG_is_logging_enabled_for_level. destruct (_ <=? _); [|done]. destruct (_ || _); [|done]. destruct (rate_limit c); [|done]. by destruct (check _ _ _).
Qed.

(** After any history the logger holds the one descriptor it opened, or none; it never holds a standard stream, and nothing once closed. *)
Theorem logger_owns_its_descriptor ops : Forall op_ok ops ->
  let c := foldl log_step log_ctx ops in
  log_wf c /\ lowned (LOG_close c) = [].
Proof.
  intros Hops c. assert (log_wf c) as Hc.
  { unfold c. clear c. assert (log_wf log_ctx) as H0 by (split; [done|cbn; lia]). revert H0. generalize log_ctx. induction Hops as [|op ops Hop _ IH]; intros c Hc; [done|]. cbn. by apply IH, log_step_wf. }
  split; [done|]. by apply LOG_close_wf.
Qed.

(** ** The limit on messages is never set up *)

Lemma LOG_open_limit mode a c : rate_limit (snd (LOG_open mode a c)) = rate_limit c.
Proof.
  unfold LOG_open, LOG_syslog_open. destruct (0 <=? lfd c); repeat (case_match; cbn; try done); by simplify_eq/=.
Qed.

(** Whatever the level that is asked for, [setup_logger] leaves the logger without the limit of messages per second: its test on the level never holds. *)
Theorem setup_logger_no_limit log_mode log_level name max_log a c : rate_limit (setup_logger log_mode log_level name max_log a c) = rate_limit c.
Proof.
  unfold setup_logger. cbn zeta. set (lvl := match log_level with Some _ => _ | None => _ end). set (c1 := snd (LOG_open _ a c)).
  assert (rate_limit c1 = rate_limit c) as H1 by apply LOG_open_limit. clearbody c1 lvl.
  destruct (lvl =? 0), (lvl =? 1), (lvl =? 2), (lvl =? 4); exact H1.
Qed.

(** ** Messages *)

Lemma splice_app a bytes c : splice (length a) bytes (a ++ c) = a ++ bytes ++ drop (length bytes) c.
Proof. unfold splice. by rewrite take_app_length, <- drop_drop, drop_app_length. Qed.

Lemma buf_write_app a bytes c : (length bytes <= length c)%nat -> buf_write (a ++ c) (Z.of_nat (length a)) bytes = Some (a ++ bytes ++ drop (length bytes) c).
Proof. intros H. unfold buf_write. rewrite length_app. destruct (_ && _) eqn:E; [by rewrite Nat2Z.id, splice_app|apply andb_false_iff in E as [E|E]; zbool; lia]. Qed.

Lemma take_min (n : Z) (l : list Z) : take (Z.to_nat (Z.min n (Z.of_nat (length l)))) l = take (Z.to_nat n) l.
Proof. destruct (Z.le_ge_cases n (Z.of_nat (length l))); [by rewrite Z.min_l|]. rewrite Z.min_r by done. rewrite !take_ge by lia. done. Qed.

Lemma snprintf_app a c size text : 0 < size < 2 ^ 64 -> (length (take (Z.to_nat (size - 1)) text) < length c)%nat ->
  exists rest, snprintf (a ++ c) (Z.of_nat (length a)) size text = Some (a ++ take (Z.to_nat (size - 1)) text ++ 0 :: rest, Z.of_nat (length text)) /\
    S (length (take (Z.to_nat (size - 1)) text) + length rest) = length c.
Proof.
  intros Hs Hl. unfold snprintf. rewrite u64_small by (unfold is_u64; lia). destruct (size =? 0) eqn:E; [lia|]. rewrite take_min.
  rewrite buf_write_app by (rewrite length_app; cbn; lia). eexists. rewrite <- (assoc_L app). split; [reflexivity|]. rewrite length_drop, length_app. cbn. lia.
Qed.

(** The end of a message that was cut: the end-of-string character of [vsnprintf] is sent. *)
Definition log_body (room : nat) (body : list Z) : list Z := if (length body <? room)%nat then body else take (room - 1) body ++ [0].

(** A newline at the end of what was written, and the end of the string after it. *)
Lemma newline_after a rest : (2 <= length rest)%nat ->
  (let? buf := buf_write (a ++ rest) (Z.of_nat (length a)) [10] in let? buf := buf_write buf (Z.of_nat (length a) + 1) [0] in Some (buf, Z.of_nat (length a) + 1)) =
  Some (a ++ [10; 0] ++ drop 2 rest, Z.of_nat (length a) + 1).
Proof.
  intros H. rewrite buf_write_app by (cbn; lia). cbn [app length]. destruct rest as [|x [|y rest]]; cbn in H; [lia..|]. cbn [drop].
  change (a ++ 10 :: y :: rest) with (a ++ [10] ++ y :: rest). rewrite (assoc_L app).
  replace (Z.of_nat (length a) + 1) with (Z.of_nat (length (a ++ [10]))) by (rewrite length_app; cbn; lia).
  rewrite buf_write_app by (cbn; lia). by rewrite <- (assoc_L app).
Qed.

Lemma take_front (a b : list Z) n : Z.to_nat n = length a -> take (Z.to_nat n) (a ++ b) = a.
Proof. intros ->. by rewrite take_app_length. Qed.

(** A message whose header leaves room is written inside the buffer and sent whole, with a newline unless it goes to syslog; a body that does not fit is cut
    to the room that is left and ends with a null character. *)
Theorem log_message_in_bounds c header body junk : Z.of_nat (length junk) = LOG_MSG_CAP -> Z.of_nat (length header) <= LOG_MSG_CAP - 3 ->
  log_message c header body junk =
  Some (header ++ log_body (Z.to_nat (LOG_MSG_CAP - 2) - length header) body ++ (if lmode c =? LOG_SYSLOG then [] else [10])).
Proof.
  unfold LOG_MSG_CAP. intros Hj Hh. unfold log_message, LOG_MSG_CAP.
  destruct (snprintf_app [] junk 4096 header) as (r1 & Hs1 & Hr1); [lia|rewrite length_take; lia|]. cbn [app length] in Hs1. change (Z.of_nat 0) with 0 in Hs1. rewrite Hs1.
  rewrite take_ge in * by lia. set (h := length header) in *. set (cap := 4096 - Z.of_nat h - 2).
  destruct (snprintf_app header (0 :: r1) cap body) as (r2 & Hs2 & Hr2); [lia|rewrite length_take; cbn; lia|]. fold h in Hs2. rewrite Hs2. cbn [length] in Hr2.
  rewrite length_take in Hr2. unfold log_body. set (room := (Z.to_nat (4096 - 2) - h)%nat). assert (room = Z.to_nat cap) as Hroom by lia.
  destruct (length body <? room)%nat eqn:Eb.
  - apply Nat.ltb_lt in Eb. rewrite take_ge by lia. rewrite Z.min_l by lia.
    replace (Z.of_nat (length body) + Z.of_nat h) with (Z.of_nat (length (header ++ body))) by (rewrite length_app; lia). rewrite (assoc_L app).
    destruct (lmode c =? LOG_SYSLOG); cbn [negb].
    + rewrite take_front by lia. by rewrite app_nil_r.
    + rewrite newline_after by (cbn; lia). f_equal. change ([10; 0] ++ drop 2 (0 :: r2)) with ([10] ++ 0 :: drop 2 (0 :: r2)).
      rewrite (assoc_L app _ [10]), take_front; [by rewrite <- !(assoc_L app)|]. rewrite !length_app. cbn [length]. lia.
  - apply Nat.ltb_ge in Eb. rewrite Z.min_r by lia. replace (Z.to_nat (cap - 1)) with (room - 1)%nat by lia. set (b := take (room - 1) body) in *.
    assert (length b = (room - 1)%nat) as Hb by (unfold b; rewrite length_take; lia).
    replace (header ++ b ++ 0 :: r2) with ((header ++ b ++ [0]) ++ r2) by (by rewrite <- !(assoc_L app)).
    replace (cap + Z.of_nat h) with (Z.of_nat (length (header ++ b ++ [0]))) by (rewrite !length_app; cbn; lia).
    destruct (lmode c =? LOG_SYSLOG); cbn [negb].
    + rewrite take_front by lia. by rewrite app_nil_r.
    + rewrite newline_after by lia. f_equal. change ([10; 0] ++ drop 2 r2) with ([10] ++ 0 :: drop 2 r2). rewrite (assoc_L app _ [10]), take_front.
      * by rewrite <- !(assoc_L app).
      * rewrite !length_app. cbn [length]. lia.
Qed.

(** ** Statistics sockets *)

Lemma close_not_in fd l : fd ∉ l -> close fd l = l.
Proof.
  unfold close. induction l as [|x l IH]; [done|]. intros H. rewrite not_elem_of_cons in H. destruct H as [H1 H2]. cbn [List.filter].
  destruct (x =? fd) eqn:E; zbool; [congruence|]. cbn. by rewrite IH.
Qed.

Lemma unlink_node_own path l : path ∉ nodes l -> unlink_node path (mkSockets (open_socks l) (path :: nodes l)) = l.
Proof.
  intros H. unfold unlink_node. cbn [nodes open_socks List.filter]. rewrite bool_decide_true by done. cbn [negb].
  assert (forall ns, path ∉ ns -> List.filter (fun n => negb (bool_decide (n = path))) ns = ns) as Hf.
  { induction ns as [|x ns IH]; [done|]. intros [H1 H2]%not_elem_of_cons. cbn [List.filter]. rewrite bool_decide_false by congruence. cbn. by rewrite IH. }
  rewrite Hf by done. by destruct l.
Qed.

Lemma unlink_node_other path l : path ∉ nodes l -> unlink_node path l = l.
Proof.
  intros H. pose proof (unlink_node_own path l H) as Ho. unfold unlink_node in *. cbn [nodes open_socks List.filter] in Ho. rewrite bool_decide_true in Ho by done. exact Ho.
Qed.

Lemma path_listen_plain pid : adjust_uds_path (path_listen pid) = path_listen pid.
Proof. reflexivity. Qed.

(** Connecting leaves one socket on success and none on a failure, and no node of the file system in either case. *)
Theorem statsd_connect_balanced statsd_socket pid sock bind_ok connect_ok s res fd s' :
  path_listen pid ∉ nodes s -> (forall n, sock = Some n -> n ∉ open_socks s) ->
  statsd_connect statsd_socket pid sock bind_ok connect_ok s = (res, fd, s') ->
  nodes s' = nodes s /\
  match fd with
  | Some fd => res = ddres_init /\ sock = Some fd /\ open_socks s' = fd :: open_socks s
  | None => IsDDResNotOK res = true /\ open_socks s' = open_socks s
  end.
Proof.
  intros Hn Hs. unfold statsd_connect. destruct (_ <=? _); [by intros [= <- <- <-]|]. unfold statsd_listen. rewrite path_listen_plain.
  destruct (_ <=? _); [intros [= <- <- <-]; by rewrite unlink_node_other|].
  destruct sock as [n|]; [|intros [= <- <- <-]; by rewrite unlink_node_other]. specialize (Hs n eq_refl). destruct bind_ok.
  - change (IsDDResNotOK ddres_init) with false. cbv iota.
    assert (unlink_node (path_listen pid) (mkSockets (n :: open_socks s) (path_listen pid :: nodes s)) = mkSockets (n :: open_socks s) (nodes s)) as ->.
    { apply (unlink_node_own (path_listen pid) (mkSockets (n :: open_socks s) (nodes s))). done. }
    destruct connect_ok; intros [= <- <- <-]; cbn [open_socks nodes]; [done|]. rewrite close_own, close_not_in by done. done.
  - intros [= <- <- <-]. rewrite close_own, close_not_in by done. rewrite unlink_node_other by done. done.
Qed.

(** The calls of a send: what is sent is always a prefix, all of it when it succeeds. *)
Lemma send_loop_prefix answers : forall rest n sent res out, send_loop answers rest n sent = Some (res, out) ->
  exists k, out = sent ++ take k rest /\ (IsDDResOK res = true -> out = sent ++ rest).
Proof.
  induction answers as [|a answers IH]; intros rest n sent res out; cbn [send_loop].
  - destruct rest; [|done]. intros [= <- <-]. exists 0%nat. cbn [take]. by rewrite app_nil_r.
  - destruct rest as [|b rest]; [intros [= <- <-]; exists 0%nat; cbn [take]; by rewrite app_nil_r|]. destruct a as [m| | |].
    + intros (k & -> & Hk)%IH. exists (m + k)%nat. split; [by rewrite <- (assoc_L app), take_take_drop|]. intros Hr. rewrite (Hk Hr), <- (assoc_L app), take_drop. done.
    + destruct (_ <? _); [apply IH|]. intros [= <- <-]. exists 0%nat. split; [by rewrite app_nil_r|done].
    + intros [= <- <-]. exists 0%nat. split; [by rewrite app_nil_r|done].
    + intros [= <- <-]. exists 0%nat. split; [by rewrite app_nil_r|done].
Qed.

Definition progresses (a : write_answer) : Prop := match a with Wrote n => (0 < n)%nat | _ => True end.

Lemma send_loop_returns answers : forall rest n sent, Forall progresses answers -> 0 <= n <= k_max_eintr_retries ->
  (length rest + Z.to_nat (k_max_eintr_retries - n) <= length answers)%nat -> is_Some (send_loop answers rest n sent).
Proof.
  unfold k_max_eintr_retries. induction answers as [|a answers IH]; intros rest n sent Ha Hn Hl; cbn in *.
  - destruct rest; [by eexists|]. cbn in Hl. lia.
  - apply Forall_cons in Ha as [Ha Has]. destruct rest as [|b rest]; [by eexists|]. destruct a as [m| | |]; cbn in Ha; [|destruct (_ <? _) eqn:E; [|by eexists]|by eexists|by eexists].
    + apply IH; [done|done|]. rewrite length_drop. cbn in *. lia.
    + unfold k_max_eintr_retries in E. apply IH; [done|lia|]. cbn in *. lia.
Qed.

(** A statistic is sent as a prefix of its text, the whole text when the result is a success; after as many calls as it has bytes, and ten interruptions, the loop
    has returned. *)
Theorem statsd_send_whole_or_error key val float_text type answers :
  let msg := bytes_of (statsd_message key val float_text type) in
  Forall progresses answers -> (length msg + 10 <= length answers)%nat ->
  exists res out, statsd_send key val float_text type answers = Some (res, out) /\ out `prefix_of` msg /\
    (IsDDResOK res = true -> out = msg /\ Z.of_nat (length msg) < k_max_msg_length).
Proof.
  intros msg Ha Hl. unfold statsd_send. fold msg. destruct (_ || _) eqn:E.
  - eexists _, _. split; [done|]. split; [apply prefix_nil|done].
  - apply orb_false_iff in E as [_ E]. destruct (send_loop_returns answers msg 0 [] Ha) as [[res out] Hr]; [unfold k_max_eintr_retries; lia|unfold k_max_eintr_retries; lia|].
    exists res, out. split; [done|]. apply send_loop_prefix in Hr as (k & -> & Hok). cbn [app] in *. split; [apply prefix_take|]. intros Hres. split; [by apply Hok|zbool; lia].
Qed.

(** ** Examples *)

Module LoggingDemo.

Definition to_stderr : LoggerContext := snd (LOG_open LOG_STDERR (mkLogAnswers None true None) log_ctx).
Definition junk : list Z := repeat 0xAA 4096.

Example a_line : vlprintfln to_stderr LL_WARNING (-1) (Some (bytes_of "lost events")) "Jan 01 10:20:30" 42 1234 "ddprof" junk =
  Some (Some (bytes_of "<WARNING>Jan 01 10:20:30.000042 ddprof[1234]: lost events" ++ [10])).
Proof. vm_compute. reflexivity. Qed.

(** A body that is too long is sent with a null character before the newline. *)
Example cut_message_has_null :
  option_map (fun m => (length m, drop 4092 m)) (log_message to_stderr (bytes_of "<x>: ") (repeat 97 5000) junk) = Some (4095%nat, [97; 0; 10]).
Proof. vm_compute. reflexivity. Qed.

(** A name that fills the buffer makes the body be written outside of it. *)
Example long_name_overflows : log_message to_stderr (repeat 98 4095) (bytes_of "body") junk = None.
Proof. vm_compute. reflexivity. Qed.

(** The limit of messages for levels other than debug. *)
Example no_limit_for_warnings : rate_limit (setup_logger (Some "stderr"%string) (Some "warn"%string) "ddprof" 100 (mkLogAnswers None true None) log_ctx) = None.
Proof. vm_compute. reflexivity. Qed.

(** A block device and a socket pass for a directory: the types are not single bits. *)
Definition S_IFDIR : Z := 0x4000.
Definition S_IFBLK : Z := 0x6000.
Example block_device_is_directory : check_file_type (Some S_IFBLK) S_IFDIR = true.
Proof. reflexivity. Qed.

(** Twelve percent of system time is reported: the limit is ten percent. *)
Example slow_clock_at_twelve_percent : check_clock_vdso [(Some (0, 0), Some (8800, 1200))] = Some true.
Proof. reflexivity. Qed.

Lemma log_message_in_bounds_witness :
  log_message to_stderr (bytes_of "h: ") (bytes_of "text") junk = Some (bytes_of "h: text" ++ [10]).
Proof. refine (log_message_in_bounds to_stderr (bytes_of "h: ") (bytes_of "text") junk _ _); vm_compute; congruence. Defined.

Example sent_in_pieces : statsd_send "profiler.samples" 12 "" STAT_COUNT [Wrote 4; Eintr; Wrote 100] = Some (ddres_init, bytes_of "profiler.samples:12|c").
Proof. vm_compute. reflexivity. Qed.

End LoggingDemo.
