(* ===== verification/Startup.v ===== *)
(** * Start of the profiler

    Model of the start of the [ddprof] program: the watchers of the events and presets
    ([src/ddprof_context_lib.cc], [src/presets.cc], [add_watchers_from_events] of [src/ddprof_cli.cc]), attaching and detaching ([src/ddprof.cc]), the change of
    user ([src/user_override.cc]), and the processes of [src/exe/main.cc].  The options of the command line are parsed by CLI11: their
    values are the input.  The theorems are in [StartupProofs]. *)

From S2P Require Import Prelude RingBuffer PerfSample Ddres AllocTracker Watcher StackMemory EventConfig Pevent Exporter MainLoop Profiling.

Local Open Scope Z_scope.

(** ** Watchers *)

Definition w_event (w : ConfiguredWatcher) : Z := ddprof_event_type (cw w).
Definition is_perf (w : ConfiguredWatcher) : bool := w_type (cw w) <? PERF_TYPE_MAX.

(** [find_duplicate_event]: the first watcher whose event was seen; [None]: a write outside of [seen], for the type -1 of a tracepoint. *)
Fixpoint find_duplicate (watchers : list ConfiguredWatcher) (seen : list bool) : option (option ConfiguredWatcher) :=
  match watchers with
  | [] => Some None
  | w :: ws =>
      let? s := (if w_event w =? DDPROF_PWE_TRACEPOINT then Some false else if w_event w <? 0 then None else seen !! Z.to_nat (w_event w)) in
      if s : bool then Some (Some w)
      else if (0 <=? w_event w) && (w_event w <? Z.of_nat (length seen)) then find_duplicate ws (<[Z.to_nat (w_event w) := true]> seen) else None
  end.
Definition find_duplicate_event (watchers : list ConfiguredWatcher) : option (option ConfiguredWatcher) := find_duplicate watchers (repeat false (Z.to_nat DDPROF_PWE_LENGTH)).

(** [std::stable_sort] by an order of two classes. *)
Definition order_watchers (watchers : list ConfiguredWatcher) : list ConfiguredWatcher := List.filter is_perf watchers ++ List.filter (fun w => negb (is_perf w)) watchers.

Definition presets : list (string * string) :=
  [("default", "sCPU;sALLOC"); ("default-pid", "sCPU"); ("cpu_only", "sCPU"); ("alloc_only", "sALLOC"); ("alloc_live_heap", "sALLOC mode=sl"); ("cpu_live_heap", "sCPU;sALLOC mode=sl")]%string.

(** The watchers of a preset that are not there yet. *)
Fixpoint add_new (new_watchers watchers : list ConfiguredWatcher) : list ConfiguredWatcher :=
  match new_watchers with
  | [] => watchers
  | w :: new_watchers' =>
      add_new new_watchers'
        (if (w_event w =? DDPROF_PWE_TRACEPOINT) || negb (existsb (fun w' => w_event w' =? w_event w) watchers) then watchers ++ [w] else watchers)
  end.

Section Watchers.
Context (stat : string -> bool) (read_id : string -> option Z).

Definition add_preset (preset : string) (pid_or_global_mode : bool) (stack_sample_size : Z) (watchers : list ConfiguredWatcher) : DDRes * list ConfiguredWatcher :=
  let preset := if bool_decide (preset = "default"%string) && pid_or_global_mode then "default-pid"%string else preset in
  match List.find (fun p => bool_decide (fst p = preset)) presets with
  | None => (ddres_error (what_of "INPUT_PROCESS"), watchers)
  | Some (_, events) =>
      match watchers_from_str stat read_id events stack_sample_size with
      | None => (ddres_error (what_of "INPUT_PROCESS"), watchers)
      | Some new_watchers => (ddres_init, add_new new_watchers watchers)
      end
  end.

(** [add_watchers_from_events]; the watchers before a wrong event are of no use. *)
Fixpoint add_watchers_from_events (events : list string) (stack_sample_size : Z) (watchers : list ConfiguredWatcher) : DDRes * list ConfiguredWatcher :=
  match events with
  | [] => (ddres_init, watchers)
  | el :: events' =>
      match watchers_from_str stat read_id el stack_sample_size with
      | None => (ddres_error (what_of "INPUT_PROCESS"), watchers)
      | Some ws => add_watchers_from_events events' stack_sample_size (watchers ++ ws)
      end
  end.

(** The options that select the watchers. *)
Record cli := mkCli { cli_events : list string; cli_preset : string; cli_global : bool; cli_pid : Z; cli_default_stack_sample_size : Z; cli_pipefd_to_library : Z }.

(** The watcher that only listens to mappings. *)
Definition dummy_watcher : ConfiguredWatcher := mkCW (default tracepoint_default_watcher (ewatcher_from_str "sDUM")) (mkDec 0 0) "" "" "".

(** [None]: undefined behaviour. *)
Definition context_add_watchers (c : cli) : option (DDRes * list ConfiguredWatcher) :=
  let '(res, watchers) := add_watchers_from_events (cli_events c) (cli_default_stack_sample_size c) [] in
  if IsDDResFatal res then Some (res, [])
  else
    let? dup := find_duplicate_event watchers in
    match dup with
    | Some _ => Some (ddres_error (what_of "INPUT_PROCESS"), [])
    | None =>
        let preset := if bool_decide (cli_preset c = ""%string) && bool_decide (watchers = []) then "default"%string else cli_preset c in
        let pid_or_global_mode := (cli_global c || negb (cli_pid c =? 0)) && (cli_pipefd_to_library c =? -1) in
        let '(res, watchers) := if negb (bool_decide (preset = ""%string)) then add_preset preset pid_or_global_mode (cli_default_stack_sample_size c) watchers else (ddres_init, watchers) in
        if IsDDResFatal res then Some (res, [])
        else
          let watchers := if negb (existsb is_perf watchers) then watchers ++ [dummy_watcher] else watchers in
          Some (ddres_init, order_watchers watchers)
    end.
End Watchers.

Definition watchers_of (ws : list ConfiguredWatcher) : list PerfWatcher := map cw ws.

(** [check_incompatible_options] *)
Definition check_incompatible_options (ws : list ConfiguredWatcher) (pid pipefd_to_library : Z) : DDRes :=
  if negb (context_allocation_profiling_watcher_idx (watchers_of ws) =? -1) && negb (pid =? 0) && (pipefd_to_library =? -1) then ddres_error (what_of "INPUT_PROCESS") else ddres_init.

(** [api_key_to_dbg_string]; [None]: the exception of a key of fewer than four characters. *)
Definition api_key_to_dbg_string (value : string) : option string :=
  let len := String.length value in
  if (len <? 4)%nat then None else Some (of_chars (repeat (Ascii.ascii_of_nat 42) (len - 4) ++ drop (len - 4) (to_chars value))).

(** ** Attaching and detaching *)

Section Attach.
Context (ops : kernel_ops).

(** [threads]: the entries of the task directory, [None] if it cannot be read; [stats_ok]: the counters could be allocated. *)
Definition ddprof_setup (page_size : Z) (ws : list PerfWatcher) (pid : Z) (threads : option (list Z)) (num_cpu source : Z) (override_ok stats_ok : bool) (k : kernel) : option (DDRes * PEventHdr * kernel) :=
  match (if pid =? -1 then Some [-1] else threads) with
  | None => Some (ddres_error (what_of "PROCSTATE"), pevent_init, k)
  | Some pids =>
      let? (res, h, k) := pevent_setup ops page_size ws pids num_cpu source override_ok pevent_init k in
      if IsDDResFatal res then Some (res, h, k)
      else if negb stats_ok then Some (ddres_error (what_of "DDPROF_STATS"), h, k)
      else let '(res, _, k) := pevent_enable ops h k in Some (if IsDDResFatal res then res else ddres_init, h, k)
  end.

Definition ddprof_teardown (h : PEventHdr) (k : kernel) : DDRes * PEventHdr * kernel := let '(_, h, k) := pevent_cleanup ops h k in (ddres_init, h, k).
End Attach.

(** ** Users *)

(** Real, effective and saved identifiers. *)
Record ids := mkIds { i_real : Z; i_effective : Z; i_saved : Z }.
Record creds := mkCreds { c_uids : ids; c_gids : ids }.

(** [setresuid (v, v, -1)] and [setresgid (v, v, -1)]: a process that is not privileged can choose among its three identifiers. *)
Definition may_set (privileged : bool) (i : ids) (v : Z) : bool := privileged || (v =? i_real i) || (v =? i_effective i) || (v =? i_saved i).
Definition setres (privileged : bool) (i : ids) (v : Z) : option ids := if may_set privileged i v then Some (mkIds v v (i_saved i)) else None.
(** [setresuid (v, v, v)] *)
Definition setres_all (privileged : bool) (i : ids) (v : Z) : option ids := if may_set privileged i v then Some (mkIds v v v) else None.

Definition privileged (c : creds) : bool := i_effective (c_uids c) =? 0.
Definition no_id : Z := 2 ^ 32 - 1.
Record UIDInfo := mkInfo { u_uid : Z; u_gid : Z }.

Definition user_override (uid gid : Z) (c : creds) : DDRes * creds :=
  let failed := ddres_error (what_of "USERID") in
  if (uid =? no_id) && (gid =? no_id) then (ddres_init, c)
  else
    match (if gid =? no_id then Some (c_gids c) else setres (privileged c) (c_gids c) gid) with
    | None => (failed, c)
    | Some g =>
        let c := mkCreds (c_uids c) g in
        match (if uid =? no_id then Some (c_uids c) else setres (privileged c) (c_uids c) uid) with
        | None => (failed, c)
        | Some u => (ddres_init, mkCreds u g)
        end
    end.

(** [nobody]: the entry of the user database.  The result, the identifiers to go back to, the credentials. *)
Definition user_override_to_nobody_if_root (nobody : option (Z * Z)) (c : creds) : DDRes * UIDInfo * creds :=
  if negb (i_real (c_uids c) =? 0) then (ddres_init, mkInfo no_id no_id, c)
  else
    match nobody with
    | None => (ddres_error (what_of "USERID"), mkInfo no_id no_id, c)
    | Some (uid, gid) => let '(res, c') := user_override uid gid c in (res, mkInfo (i_real (c_uids c)) (i_real (c_gids c)), c')
    end.

(** The calls behind [setresuid] in [become_user] set identifiers that are set already. *)
Definition become_user (user : option (Z * Z)) (initgroups_ok : bool) (c : creds) : DDRes * creds :=
  let failed := ddres_error (what_of "USERID") in
  match user with
  | None => (failed, c)
  | Some (uid, gid) =>
      if negb initgroups_ok then (failed, c)
      else
        match setres_all (privileged c) (c_gids c) gid with
        | None => (failed, c)
        | Some g =>
            let c := mkCreds (c_uids c) g in
            match setres_all (privileged c) (c_uids c) uid with
            | None => (failed, c)
            | Some u => (ddres_init, mkCreds u g)
            end
        end
  end.

(** ** The processes *)

(** What a process of the start does, in order. *)
Inductive action := AKillTemp | ASetup (ok : bool) | ACreateSocket (ok : bool) | ASendSocketPath (ok : bool) | AProfile (res : DDRes) | AUnlinkSocket | ATeardown.

Record params := mkParams { p_enable : bool; p_pid : Z; p_allocation : bool; p_socket_path : string; p_pipefd_to_library : Z; p_affinity : bool; p_reorder_events : bool }.

(** The result of [get_library_path]: the libraries to inject, an error, or an exception of the file system (the link of the executable cannot be read, a directory cannot
    be searched). *)
Inductive library_search := Libraries (profiling loader : string) | NoLibraries | SearchThrows.

(** The answers that the start meets: the libraries to inject, the process after [daemonize], the checks, the clock, ... *)
Record start_answers := mkAnswers {
  sa_libraries : library_search; sa_process : option DaemonizeResult; sa_checks : DDRes; sa_has_clock : bool; sa_affinity_ok : bool;
  sa_setup : DDRes; sa_socket_ok : bool; sa_path_sent : bool; sa_profile : DDRes
}.

(** Result, [exit_on_return], environment of the target, actions. *)
Record start_result := mkSR { sr_result : Z; sr_exit : bool; sr_env : environment_vars; sr_actions : list action }.

(** The environment that injects the library into the target. *)
Definition inject (profiling loader socket : string) (e : environment_vars) : environment_vars :=
  let preload := if bool_decide (loader = ""%string) then profiling else loader in
  let preload := match e !! "LD_PRELOAD"%string with Some s => (preload +:+ ":" +:+ s)%string | None => preload end in
  let e := <["LD_PRELOAD"%string := preload]> e in
  let e := if bool_decide (loader = ""%string) then e else <["DD_PROFILING_NATIVE_LIBRARY"%string := profiling]> e in
  <[k_profiler_active_env_variable := "0"%string]> (<[k_profiler_lib_socket_env_variable := socket]> e).

(** The profiler itself; [temp]: a process waits for a signal. *)
Definition run_profiler (p : params) (a : start_answers) (temp : bool) (e : environment_vars) : start_result :=
  let kill := if temp then [AKillTemp] else [] in
  let failed done := mkSR (-1) true e done in
  if IsDDResFatal (sa_checks a) then failed kill
  else if p_affinity p && negb (sa_affinity_ok a) then failed kill
  else if IsDDResNotOK (sa_setup a) then failed (ASetup false :: kill)
  else if negb (sa_socket_ok a) then failed ([ASetup true; ACreateSocket false; ATeardown] ++ kill)
  else
    let unlink := match to_chars (p_socket_path p) with c :: _ => if code c =? 64 then [] else [AUnlinkSocket] | [] => [AUnlinkSocket] end in
    let before := [ASetup true; ACreateSocket true] ++ kill in
    let finish := unlink ++ [ATeardown] in
    if negb (p_pipefd_to_library p =? -1) && negb (sa_path_sent a) then failed (before ++ ASendSocketPath false :: finish)
    else
      let sent := if negb (p_pipefd_to_library p =? -1) then [ASendSocketPath true] else [] in
      mkSR (if IsDDResNotOK (sa_profile a) then -1 else 0) true e (before ++ sent ++ AProfile (sa_profile a) :: finish).

(** The function returns, the process exits inside [daemonize], or an exception leaves the function. *)
Inductive start_end := StartReturned (r : start_result) | StartExited | StartThrew.

Definition start_profiler_internal (p : params) (a : start_answers) (e : environment_vars) : start_end :=
  if negb (p_enable p) then StartReturned (mkSR 0 false e [])
  else if p_pid p =? 0 then
    match (if p_allocation p then sa_libraries a else Libraries "" "") with
    | NoLibraries => StartReturned (mkSR (-1) false e [])
    | SearchThrows => StartThrew
    | Libraries profiling loader =>
        match sa_process a with
        | None => StartExited
        | Some Error => StartReturned (mkSR (-1) false e [])
        | Some IntermediateProcess => StartReturned (mkSR 0 true e [])
        | Some (InitialProcess _) => StartReturned (mkSR 0 false (if p_allocation p then inject profiling loader (p_socket_path p) e else e) [])
        | Some (DaemonProcess _ _) => StartReturned (run_profiler p a true e)
        end
    end
  else StartReturned (run_profiler p a false e).

(** The end of the program: an exit code, the command it executes, or a null first argument; or an exception that nothing catches. *)
Inductive program_end := Exited (code : Z) (done : list action) | Executed (command : list string) (e : environment_vars) | NullCommand | Terminated.

(** [switch_user]: the result of becoming the requested user, if one is requested.  [None]: the process exits inside [daemonize]. *)
Definition main_program (p : params) (command_line : list string) (switch_user : option DDRes) (a : start_answers) (e : environment_vars) : option program_end :=
  match start_profiler_internal p a e with
  | StartExited => None
  | StartThrew => Some Terminated
  | StartReturned r =>
      if sr_exit r then Some (Exited (sr_result r) (sr_actions r))
      else
        match switch_user with
        | Some res => if negb (IsDDResOK res) then Some (Exited (-1) (sr_actions r)) else match command_line with [] => Some NullCommand | _ => Some (Executed command_line (sr_env r)) end
        | None => match command_line with [] => Some NullCommand | _ => Some (Executed command_line (sr_env r)) end
        end
  end.
