(* ===== verification/StartupProofs.v ===== *)
(** * Start of the profiler: theorems

    Theorems about [Startup]: the watchers that a command line selects, attaching and detaching, the users,
    and what becomes of the target whatever fails in the profiler. *)

From S2P Require Import Prelude RingBuffer PerfSample Ddres AllocTracker Watcher StackMemory EventConfig EventConfigProofs Pevent PeventProofs Exporter MainLoop Profiling Startup.

Local Open Scope Z_scope.

(** ** Watchers *)

(** A watcher of the table of events. *)
Definition from_table (w : ConfiguredWatcher) : Prop := exists w0, ewatcher_from_idx (w_event w) = Some w0 /\ w_type (cw w) = w_type w0.

Lemma ewatcher_idx idx w : ewatcher_from_idx idx = Some w -> ddprof_event_type w = idx /\ 0 <= idx < DDPROF_PWE_LENGTH.
Proof.
  unfold ewatcher_from_idx. destruct (Z.ltb_spec idx 0); [done|]. destruct (Z.leb_spec DDPROF_PWE_LENGTH idx); [done|]. cbn [orb].
  destruct (EVENT_CONFIG_TABLE !! Z.to_nat idx) as [[[[[[nm d] ty] cfg] fr] o]|]; [|done]. intros [= <-]. cbn. lia.
Qed.

Section Watchers.
Context (stat : string -> bool) (read_id : string -> option Z).

Lemma watcher_from_config_table conf w : watcher_from_config stat read_id conf = Some w -> w_event w = DDPROF_PWE_TRACEPOINT \/ from_table w.
Proof.
  unfold watcher_from_config. destruct (bool_decide _); [done|]. unfold ewatcher_from_str. destruct (ewatcher_from_idx _) as [w0|] eqn:Ew.
  - intros E. right. destruct (ewatcher_idx _ _ Ew) as [Hidx _]. cbn [negb Z.eqb kIgnoredWatcherID] in E. change (negb (kIgnoredWatcherID =? kIgnoredWatcherID)) with false in E. cbv iota in E.
    destruct (if negb (c_cadence conf =? 0) then _ else _) as [period freq]. exists w0. destruct (c_value_source conf); injection E as <-; unfold w_event; cbn [cw ddprof_event_type w_type]; by rewrite Hidx.
  - destruct (bool_decide _); [done|]. intros E. left. destruct (if negb (c_id conf =? kIgnoredWatcherID) then _ else _) as [cfg|]; [|done].
    destruct (if negb (c_cadence conf =? 0) then _ else _) as [period freq]. destruct (c_value_source conf); injection E as <-; reflexivity.
Qed.

Definition known (w : ConfiguredWatcher) : Prop := w_event w = DDPROF_PWE_TRACEPOINT \/ from_table w.

Lemma watchers_from_configs_known confs ws : watchers_from_configs stat read_id confs = Some ws -> Forall known ws.
Proof.
  revert ws. induction confs as [|c confs IH]; intros ws E; cbn [watchers_from_configs] in E; [by simplify_eq|].
  destruct (watcher_from_config stat read_id c) as [w|] eqn:Ew; [|done]. destruct (watchers_from_configs stat read_id confs) as [ws'|]; [|done]. injection E as <-.
  constructor; [by eapply watcher_from_config_table|by apply IH].
Qed.

Lemma watchers_from_str_known str stack ws : watchers_from_str stat read_id str stack = Some ws -> Forall known ws.
Proof. unfold watchers_from_str. destruct (EventConf_parse _ _); [|done]. apply watchers_from_configs_known. Qed.

Lemma add_events_spec events stack ws0 res ws : 0 <= stack < 2 ^ 32 -> Forall known ws0 -> Forall watcher_wf ws0 -> add_watchers_from_events stat read_id events stack ws0 = (res, ws) ->
  Forall known ws /\ Forall watcher_wf ws.
Proof.
  intros Hs. revert ws0. induction events as [|el events IH]; intros ws0 Hk Hw E; cbn [add_watchers_from_events] in E; [by simplify_eq|].
  destruct (watchers_from_str stat read_id el stack) as [ws1|] eqn:Ew; [|by simplify_eq]. eapply IH; [| |exact E]; apply Forall_app; split; [done|by eapply watchers_from_str_known|done|by eapply watchers_from_str_wf].
Qed.

(** *** Duplicates *)

Definition in_table (w : ConfiguredWatcher) : Prop := 0 <= w_event w < DDPROF_PWE_LENGTH.

Lemma find_duplicate_spec ws : Forall in_table ws -> forall seen, length seen = Z.to_nat DDPROF_PWE_LENGTH ->
  exists r, find_duplicate ws seen = Some r /\ (r = None -> NoDup (map w_event ws) /\ Forall (fun w => seen !! Z.to_nat (w_event w) = Some false) ws).
Proof.
  induction 1 as [|w ws Hw _ IH]; intros seen Hl; [exists None; split; [done|]; split; constructor|]. cbn [find_duplicate]. unfold in_table in Hw.
  destruct (Z.eqb_spec (w_event w) DDPROF_PWE_TRACEPOINT) as [E|_]; [unfold DDPROF_PWE_TRACEPOINT in E; lia|]. destruct (Z.ltb_spec (w_event w) 0); [lia|].
  destruct (lookup_lt_is_Some_2 seen (Z.to_nat (w_event w)) ltac:(lia)) as [b Eb]. rewrite Eb. destruct b; [by exists (Some w)|].
  destruct (Z.leb_spec 0 (w_event w)); [|lia]. destruct (Z.ltb_spec (w_event w) (Z.of_nat (length seen))); [|lia]. cbn [andb].
  destruct (IH (<[Z.to_nat (w_event w) := true]> seen)) as (r & -> & Hr); [by rewrite length_insert|]. exists r. split; [done|]. intros ->. destruct (Hr eq_refl) as [Hn Hs].
  assert (Hne : forall w', w' ∈ ws -> w_event w' <> w_event w /\ seen !! Z.to_nat (w_event w') = Some false).
  { intros w' Hin. rewrite Forall_forall in Hs. specialize (Hs w' Hin). destruct (decide (Z.to_nat (w_event w') = Z.to_nat (w_event w))) as [E|E]; [rewrite E, list_lookup_insert_eq in Hs by lia; done|].
    rewrite list_lookup_insert_ne in Hs by done. split; [congruence|done]. }
  split; cbn [map]; [constructor; [|done]|constructor; [done|]].
  - intros (w' & E & Hin)%list_elem_of_fmap. by apply (Hne w' Hin).
  - apply Forall_forall. intros w' Hin. by apply Hne.
Qed.

(** *** Presets *)

Lemma add_new_spec new : Forall in_table new -> forall ws, NoDup (map w_event ws) -> NoDup (map w_event (add_new new ws)) /\ (forall w, w ∈ ws -> w ∈ add_new new ws) /\ (forall w, w ∈ add_new new ws -> w ∈ ws \/ w ∈ new).
Proof.
  induction 1 as [|w new Hw _ IH]; intros ws Hn; cbn [add_new]; [split; [done|]; split; [done|by left]|]. unfold in_table in Hw.
  destruct (Z.eqb_spec (w_event w) DDPROF_PWE_TRACEPOINT) as [E|_]; [unfold DDPROF_PWE_TRACEPOINT in E; lia|]. cbn [orb]. destruct (existsb (fun w' => w_event w' =? w_event w) ws) eqn:Ex; cbn [negb].
  - destruct (IH ws Hn) as (H1 & H2 & H3). split; [done|]. split; [done|]. intros x Hx. destruct (H3 x Hx) as [|]; [by left|right; by apply list_elem_of_further].
  - assert (Hnew : NoDup (map w_event (ws ++ [w]))).
    { rewrite map_app. apply NoDup_app. split; [done|]. split; [|apply NoDup_singleton]. intros x (w' & -> & Hin)%list_elem_of_fmap Hx. apply list_elem_of_singleton in Hx.
      assert (existsb (fun w' => w_event w' =? w_event w) ws = true); [|congruence]. apply existsb_exists. exists w'. split; [by apply list_elem_of_In|]. by apply Z.eqb_eq. }
    destruct (IH _ Hnew) as (H1 & H2 & H3). split; [done|]. split; [intros x Hx; apply H2, elem_of_app; by left|]. intros x Hx. destruct (H3 x Hx) as [[Hx'|Hx']%elem_of_app|Hx']; [by left| |right; by apply list_elem_of_further].
    right. apply list_elem_of_singleton in Hx' as ->. apply list_elem_of_here.
Qed.

Lemma preset_events name events stack ws : (name, events) ∈ presets -> watchers_from_str stat read_id events stack = Some ws -> Forall (fun w => w_event w <> DDPROF_PWE_TRACEPOINT) ws.
Proof.
  intros Hin E. assert (Hm : match watchers_from_str stat read_id events stack with Some l => forallb (fun w => negb (w_event w =? -1)) l = true | None => True end).
  { unfold presets in Hin. rewrite !elem_of_cons in Hin. repeat (destruct Hin as [Hin|Hin]; [injection Hin as _ ->; vm_compute; reflexivity|]). by apply not_elem_of_nil in Hin. }
  rewrite E in Hm. apply Forall_forall. intros w Hw. rewrite forallb_forall in Hm. specialize (Hm w (proj1 (list_elem_of_In _ _) Hw)). apply negb_true_iff, Z.eqb_neq in Hm. exact Hm.
Qed.

Lemma known_in_table w : known w -> w_event w <> DDPROF_PWE_TRACEPOINT -> in_table w /\ from_table w.
Proof. intros [H|H] Hn; [done|]. split; [|done]. destruct H as (w0 & E & _). by apply (proj2 (ewatcher_idx _ _ E)). Qed.

Lemma known_all_in_table ws : Forall known ws -> Forall (fun w => w_event w <> DDPROF_PWE_TRACEPOINT) ws -> Forall in_table ws /\ Forall from_table ws.
Proof.
  intros Hk Hn. rewrite !Forall_forall in *. split; intros w Hw; by apply known_in_table; [apply Hk|apply Hn].
Qed.

(** A watcher with the event of the dummy one listens to perf. *)
Lemma dummy_event w : from_table w -> w_event w = w_event dummy_watcher -> is_perf w = true.
Proof. intros (w0 & E & Ht) Hd. rewrite Hd in E. vm_compute in E. injection E as <-. unfold is_perf. by rewrite Ht. Qed.

(** What a set of watchers has to be for the profiler. *)
Record watchers_ok (ws : list ConfiguredWatcher) : Prop := {
  wo_wf : Forall (fun w => w = dummy_watcher \/ watcher_wf w) ws;
  wo_distinct : NoDup (map w_event ws);
  wo_table : Forall in_table ws;
  wo_perf : exists w, w ∈ ws /\ is_perf w = true;
  wo_order : exists a b, ws = a ++ b /\ Forall (fun w => is_perf w = true) a /\ Forall (fun w => is_perf w = false) b
}.

Lemma order_perm ws : order_watchers ws ≡ₚ ws.
Proof.
  unfold order_watchers. induction ws as [|w ws IH]; [done|]. cbn [List.filter]. destruct (is_perf w); cbn [negb]; [cbn; by rewrite IH|]. rewrite <- Permutation_middle. by rewrite IH.
Qed.

Lemma order_split ws : Forall (fun w => is_perf w = true) (List.filter is_perf ws) /\ Forall (fun w => is_perf w = false) (List.filter (fun w => negb (is_perf w)) ws).
Proof.
  split; apply Forall_forall; intros w Hw%list_elem_of_In%List.filter_In; [apply Hw|]. destruct Hw as [_ Hw]. by apply negb_true_iff.
Qed.

Lemma finish_watchers ws : Forall from_table ws -> Forall in_table ws -> Forall watcher_wf ws -> NoDup (map w_event ws) ->
  watchers_ok (order_watchers (if negb (existsb is_perf ws) then ws ++ [dummy_watcher] else ws)).
Proof.
  intros Ht Hi Hw Hn. set (l := if negb (existsb is_perf ws) then ws ++ [dummy_watcher] else ws).
  assert (Hl : Forall (fun w => w = dummy_watcher \/ watcher_wf w) l /\ NoDup (map w_event l) /\ Forall in_table l /\ exists w, w ∈ l /\ is_perf w = true).
  { assert (Hw' : Forall (fun w => w = dummy_watcher \/ watcher_wf w) ws) by (eapply Forall_impl; [exact Hw|]; by right). subst l. destruct (existsb is_perf ws) eqn:Ex; cbn [negb].
    - split; [done|]. split; [done|]. split; [done|]. apply existsb_exists in Ex as (w & Hin & Hp). exists w. split; [by apply list_elem_of_In|done].
    - split; [apply Forall_app; split; [done|]; constructor; [by left|constructor]|]. split; [|split].
      + rewrite map_app. apply NoDup_app. split; [done|]. split; [|apply NoDup_singleton]. intros x (w & -> & Hin)%list_elem_of_fmap Hx. apply list_elem_of_singleton in Hx.
        rewrite Forall_forall in Ht. pose proof (dummy_event w (Ht w Hin) Hx) as Hp. assert (existsb is_perf ws = true); [|congruence]. apply existsb_exists. exists w. split; [by apply list_elem_of_In|done].
      + apply Forall_app. split; [done|]. constructor; [vm_compute; intuition discriminate|constructor].
      + exists dummy_watcher. split; [apply elem_of_app; right; by apply list_elem_of_singleton|reflexivity]. }
  destruct Hl as (H1 & H2 & H3 & w & H4 & H5). pose proof (order_perm l) as Hp. constructor.
  - by rewrite Hp.
  - by rewrite (Permutation_map w_event Hp).
  - by rewrite Hp.
  - exists w. by rewrite Hp.
  - eexists _, _. split; [reflexivity|]. apply order_split.
Qed.

(** C13: The watchers of a command line.  For any options without tracepoints the selection returns; when it reports success there are watchers and they are usable: each comes
    from the table of events with fields in range, no two have the same event, one of them is a perf event (which carries the mappings), and the perf events come before the others. *)
Theorem command_line_watchers c : 0 <= cli_default_stack_sample_size c < 2 ^ 32 ->
  Forall (fun w => w_event w <> DDPROF_PWE_TRACEPOINT) (add_watchers_from_events stat read_id (cli_events c) (cli_default_stack_sample_size c) []).2 ->
  exists res ws, context_add_watchers stat read_id c = Some (res, ws) /\ (IsDDResFatal res = false -> watchers_ok ws).
Proof.
  intros Hs Hn. unfold context_add_watchers. destruct (add_watchers_from_events stat read_id (cli_events c) (cli_default_stack_sample_size c) []) as [res ws] eqn:Ea. cbn [snd] in Hn.
  destruct (add_events_spec _ _ _ _ _ Hs (List.Forall_nil _) (List.Forall_nil _) Ea) as [Hk Hw]. destruct (IsDDResFatal res) eqn:Er; [do 2 eexists; split; [done|congruence]|].
  destruct (known_all_in_table ws Hk Hn) as [Hi Ht]. unfold find_duplicate_event. destruct (find_duplicate_spec ws Hi (repeat false (Z.to_nat DDPROF_PWE_LENGTH)) (repeat_length _ _)) as (r & -> & Hr).
  destruct r as [w|]; [do 2 eexists; split; [done|done]|]. destruct (Hr eq_refl) as [Hd _]. cbv zeta. set (preset := if _ && _ then _ else _). set (mode := _ && _).
  assert (Hp : forall res2 ws2, (if negb (bool_decide (preset = ""%string)) then add_preset stat read_id preset mode (cli_default_stack_sample_size c) ws else (ddres_init, ws)) = (res2, ws2) ->
    Forall from_table ws2 /\ Forall in_table ws2 /\ Forall watcher_wf ws2 /\ NoDup (map w_event ws2)).
  { assert (Hsame : Forall from_table ws /\ Forall in_table ws /\ Forall watcher_wf ws /\ NoDup (map w_event ws)) by (split; [exact Ht|]; split; [exact Hi|]; split; [exact Hw|exact Hd]).
    intros res2 ws2 E. destruct (bool_decide (preset = ""%string)); cbn [negb] in E; [injection E as <- <-; exact Hsame|]. unfold add_preset in E. cbv zeta in E. destruct (List.find _ presets) as [[name events]|] eqn:Ef; [|injection E as <- <-; exact Hsame].
    apply find_some in Ef as [Hin _]. apply list_elem_of_In in Hin. destruct (watchers_from_str stat read_id events _) as [new|] eqn:Ew; [|injection E as <- <-; exact Hsame]. injection E as <- <-.
    destruct (known_all_in_table new (watchers_from_str_known _ _ _ Ew) (preset_events _ _ _ _ Hin Ew)) as [Hi' Ht']. pose proof (watchers_from_str_wf _ _ _ _ _ Hs Ew) as Hw'.
    destruct (add_new_spec new Hi' ws Hd) as (H1 & H2 & H3). rewrite !Forall_forall in *. split; [|split; [|split; [|exact H1]]]; intros y Hy; destruct (H3 y Hy); eauto. }
  destruct (if negb (bool_decide (preset = ""%string)) then _ else _) as [res2 ws2] eqn:Ep. destruct (Hp _ _ eq_refl) as (G1 & G2 & G3 & G4). destruct (IsDDResFatal res2) eqn:Er2; [do 2 eexists; split; [done|congruence]|].
  do 2 eexists. split; [done|]. intros _. by apply finish_watchers.
Qed.
End Watchers.

Lemma command_line_watchers_witness : exists ws,
  context_add_watchers (fun _ => false) (fun _ => None) (mkCli ["sALLOC mode=l"; "hINST,p=100"]%string "cpu_live_heap" false 0 32000 (-1)) = Some (ddres_init, ws) /\ map (fun w => w_desc (cw w)) ws = ["Instr. Count"; "CPU Time"; "Allocations"]%string /\ watchers_ok ws.
Proof.
  destruct (command_line_watchers (fun _ => false) (fun _ => None) (mkCli ["sALLOC mode=l"; "hINST,p=100"]%string "cpu_live_heap" false 0 32000 (-1))) as (res & ws & E & Hok).
  - cbn. lia.
  - vm_compute. repeat constructor; done.
  - exists ws. assert (Hr : res = ddres_init /\ map (fun w => w_desc (cw w)) ws = ["Instr. Count"; "CPU Time"; "Allocations"]%string) by (vm_compute in E; injection E as <- <-; split; reflexivity).
    destruct Hr as [-> Hd]. split; [done|]. split; [done|]. by apply Hok.
Defined.

(** ** Attaching and detaching *)

Lemma run_ioctls_kernel ops l k : k_fds (run_ioctls ops l k).2 = k_fds k /\ k_pages (run_ioctls ops l k).2 = k_pages k.
Proof.
  revert k. induction l as [|c l IH]; intros k; [done|]. cbn [run_ioctls]. destruct (ioctl_ok ops (k_calls k)); [|done]. specialize (IH (count k)). destruct (run_ioctls ops l (count k)) as [[r d] k']. exact IH.
Qed.

(** Whatever goes wrong while the profiler attaches, detaching leaves the descriptors and the pages as they were, and the set-up is reported as successful only with every event open and mapped. *)
Theorem attach_detach ops page_size ws pid threads num_cpu source override_ok stats_ok k res h k' : kernel_ok ops ->
  ddprof_setup ops page_size ws pid threads num_cpu source override_ok stats_ok k = Some (res, h, k') ->
  (IsDDResFatal res = false -> Forall ready (ph_pes h)) /\
  exists h' k'', ddprof_teardown ops h k' = (ddres_init, h', k'') /\ ph_pes h' = [] /\ k_fds k'' = k_fds k /\ k_pages k'' = k_pages k.
Proof.
  intros Hops E. assert (Hend : forall B P h0 k0, held B P (ph_pes h0) k0 -> exists h' k'', ddprof_teardown ops h0 k0 = (ddres_init, h', k'') /\ ph_pes h' = [] /\ k_fds k'' = B /\ k_pages k'' = P).
  { intros B P h0 k0 Hh. unfold ddprof_teardown. destruct (pevent_cleanup_spec ops Hops B P h0 k0 Hh) as (h' & k'' & -> & H). by exists h', k''. }
  unfold ddprof_setup in E. destruct (if pid =? -1 then Some [-1] else threads) as [pids|].
  2: { injection E as <- <- <-. split; [done|]. apply Hend. split; [apply holds_start|apply holds_start|constructor]. }
  destruct (pevent_setup ops page_size ws pids num_cpu source override_ok pevent_init k) as [[[res1 h1] k1]|] eqn:Es; [|done].
  destruct (pevent_setup_spec ops Hops _ _ _ _ _ _ pevent_init _ _ _ _ eq_refl Es) as [Hh Hr]. destruct (IsDDResFatal res1) eqn:Er; [injection E as <- <- <-; split; [congruence|by apply Hend]|].
  destruct stats_ok; cbn [negb] in E; [|injection E as <- <- <-; split; [done|by apply Hend]]. pose proof (run_ioctls_kernel ops (mjoin (map event_ioctls (ph_pes h1))) k1) as [Hf Hp]. unfold pevent_enable in E.
  destruct (run_ioctls ops (mjoin (map event_ioctls (ph_pes h1))) k1) as [[res2 done] k2]. cbn [snd] in Hf, Hp. injection E as <- <- <-. split; [intros _; by apply Hr|]. apply Hend. destruct Hh as [H1 H2 H3]. split; [by rewrite Hf|by rewrite Hp|done].
Qed.

(** ** Users *)

(** Root that becomes nobody to map the rings gets its identity back, and another user never loses its own. *)
Theorem user_override_undone nobody c res info c' : (i_real (c_uids c) = 0 -> i_effective (c_uids c) = 0 /\ i_saved (c_uids c) = 0 /\ i_effective (c_gids c) = i_real (c_gids c) /\ i_saved (c_gids c) = i_real (c_gids c) /\ i_real (c_gids c) <> no_id) ->
  (forall u g, nobody = Some (u, g) -> u <> no_id /\ g <> no_id) ->
  user_override_to_nobody_if_root nobody c = (res, info, c') -> user_override (u_uid info) (u_gid info) c' = (ddres_init, c).
Proof.
  intros Hroot Hnb E. unfold user_override_to_nobody_if_root in E. destruct (Z.eqb_spec (i_real (c_uids c)) 0) as [H0|H0]; cbn [negb] in E; [|injection E as <- <- <-; reflexivity].
  destruct (Hroot H0) as (He & Hs & Hge & Hgs & Hgn). destruct nobody as [[u g]|]; [|injection E as <- <- <-; reflexivity]. destruct (Hnb u g eq_refl) as [Hu Hg].
  unfold user_override at 1 in E. apply Z.eqb_neq in Hu, Hg. rewrite Hu, Hg in E. cbn [andb] in E. unfold setres, may_set, privileged in E. rewrite He in E. cbn [Z.eqb orb c_uids c_gids] in E. rewrite He in E. cbn [Z.eqb orb] in E.
  injection E as <- <- <-. unfold user_override. cbn [u_uid u_gid c_gids c_uids i_saved i_effective i_real]. rewrite H0. destruct (Z.eqb_spec (i_real (c_gids c)) no_id); [done|]. change (0 =? no_id) with false. cbn [andb].
  unfold setres, may_set, privileged. cbn [c_uids c_gids i_real i_effective i_saved]. rewrite Hgs, Hs, !Z.eqb_refl, !orb_true_r. f_equal. destruct c as [[ur ue us] [gr ge gs]]. cbn in *. by subst.
Qed.

(** ** The target *)

Definition in_target (a : start_answers) : Prop := match sa_process a with Some (InitialProcess _) | Some Error => True | _ => False end.

(** How often an action is done. *)
Definition times (p : action -> bool) (l : list action) : nat := length (List.filter p l).
Definition is_kill (x : action) : bool := match x with AKillTemp => true | _ => false end.
Definition is_setup (x : action) : bool := match x with ASetup true => true | _ => false end.
Definition is_teardown (x : action) : bool := match x with ATeardown => true | _ => false end.
Definition is_socket (x : action) : bool := match x with ACreateSocket true => true | _ => false end.
Definition is_unlink (x : action) : bool := match x with AUnlinkSocket => true | _ => false end.

(** What the profiler process undoes, on every path: one signal to the process that waits, one teardown for a set-up, the socket file removed unless it is abstract. *)
Lemma run_profiler_balanced p a temp e : let r := run_profiler p a temp e in
  sr_exit r = true /\ times is_kill (sr_actions r) = (if temp then 1 else 0)%nat /\ times is_teardown (sr_actions r) = times is_setup (sr_actions r) /\
  times is_unlink (sr_actions r) = (match to_chars (p_socket_path p) with c :: _ => if code c =? 64 then 0%nat else times is_socket (sr_actions r) | [] => times is_socket (sr_actions r) end).
Proof.
  unfold run_profiler. cbv zeta. destruct (to_chars (p_socket_path p)) as [|x cs]; [|destruct (code x =? 64)];
    destruct temp, (IsDDResFatal (sa_checks a)), (p_affinity p && negb (sa_affinity_ok a)), (IsDDResNotOK (sa_setup a)), (sa_socket_ok a), (negb (p_pipefd_to_library p =? -1)), (sa_path_sent a); repeat split.
Qed.

(** What ends the start of the target: the search for the libraries throws; the user it shall run as cannot be set. *)
Definition search_throws (p : params) (a : start_answers) : bool :=
  p_enable p && p_allocation p && match sa_libraries a with SearchThrows => true | _ => false end.
Definition switch_fails (switch : option DDRes) : bool := match switch with Some res => negb (IsDDResOK res) | None => false end.

(** The environment of the target: the library is injected when allocations are profiled, it was found and the profiler was started. *)
Definition target_env (p : params) (a : start_answers) (e : environment_vars) : environment_vars :=
  match sa_libraries a, sa_process a with
  | Libraries profiling loader, Some (InitialProcess _) => if p_enable p && p_allocation p then inject profiling loader (p_socket_path p) e else e
  | _, _ => e
  end.

(** C10: When a command is given to profile and no process, what becomes of it is not decided by the profiler.  The process that shall run the command (the one that forked
    the profiler, or the only one when it could not fork) executes the command whatever else fails in the start of the profiler (no library to inject, no process, profiling
    disabled), except in two cases: an exception of the file system in the search for the libraries, with allocation profiling, which ends the process
    ([search_throws_loses_target]), and a user to run as that cannot be set, after which it exits with -1.  The environment of the command is that of the program, with the
    library injected exactly when allocations are profiled, the library was found and the profiler was started.  The profiler process, where the libraries it needs were found,
    never executes the command: it exits, after exactly one signal to the process that waits for it and as many teardowns as successful set-ups. *)
Theorem target_always_runs p command switch a e : p_pid p = 0 -> command <> [] ->
  (in_target a -> main_program p command switch a e =
     Some (if search_throws p a then Terminated else if switch_fails switch then Exited (-1) [] else Executed command (target_env p a e))) /\
  (forall t f, sa_process a = Some (DaemonProcess t f) -> p_enable p = true -> (p_allocation p = true -> exists prof load, sa_libraries a = Libraries prof load) ->
    exists code done, main_program p command switch a e = Some (Exited code done) /\ times is_kill done = 1%nat /\ times is_teardown done = times is_setup done).
Proof.
  intros Hp Hc. assert (Hexec : forall e', match switch with Some res => if negb (IsDDResOK res) then Some (Exited (-1) []) else match command with [] => Some NullCommand | _ => Some (Executed command e') end | None => match command with [] => Some NullCommand | _ => Some (Executed command e') end end = Some (if switch_fails switch then Exited (-1) [] else Executed command e')).
  { intros e'. destruct command as [|x l]; [done|]. destruct switch as [res|]; [|done]. unfold switch_fails. by destruct (negb _). }
  unfold main_program, start_profiler_internal, search_throws, target_env. rewrite Hp, Z.eqb_refl. split.
  - intros Ht. unfold in_target in Ht. destruct (p_enable p); cbn [negb andb sr_exit sr_env sr_actions]; [|rewrite Hexec; by repeat case_match].
    destruct (p_allocation p), (sa_libraries a) as [prof load| |], (sa_process a) as [[|fd| |t f]|]; cbn [sr_exit sr_env sr_actions]; try done; by rewrite Hexec.
  - intros t f Ep He Hl. rewrite He, Ep. cbn [negb]. assert (Hlib : exists prof load, (if p_allocation p then sa_libraries a else Libraries "" "") = Libraries prof load) by (destruct (p_allocation p); [by apply Hl|by do 2 eexists]).
    destruct Hlib as (prof & load & ->). destruct (run_profiler_balanced p a true e) as (H1 & H2 & H3 & _). rewrite H1. by do 2 eexists.
Qed.

Lemma target_always_runs_witness : let p := mkParams true 0 true "@/tmp/s.sock" (-1) false true in
  let a st := mkAnswers (Libraries "/tmp/libdd_profiling-embedded.so" "") (Some st) ddres_init true true (ddres_error (what_of "PERFOPEN")) true true ddres_init in
  main_program p ["ls"]%string None (a Error) ∅ = Some (Executed ["ls"]%string ∅) /\
  (exists env, main_program p ["ls"]%string None (a (InitialProcess 5)) ∅ = Some (Executed ["ls"]%string env) /\ env !! "LD_PRELOAD"%string = Some "/tmp/libdd_profiling-embedded.so"%string) /\
  exists code done, main_program p ["ls"]%string None (a (DaemonProcess 12 4)) ∅ = Some (Exited code done) /\ times is_kill done = 1%nat /\ times is_teardown done = times is_setup done.
Proof.
  intros p a. split; [|split].
  - destruct (target_always_runs p ["ls"]%string None (a Error) ∅) as [H _]; [done|done|]. rewrite (H I). reflexivity.
  - destruct (target_always_runs p ["ls"]%string None (a (InitialProcess 5)) ∅) as [H _]; [done|done|]. rewrite (H I). eexists. split; [reflexivity|]. vm_compute. reflexivity.
  - destruct (target_always_runs p ["ls"]%string None (a (DaemonProcess 12 4)) ∅) as [_ H]; [done|done|]. apply (H 12 4); [done|done|]. intros _. by do 2 eexists.
Defined.

(** ** Cases that go wrong *)

(** With profiling of allocations, an exception of the file system in the search for the libraries ([find_lib]: the link [/proc/self/exe] cannot be read) leaves [main]: the
    command is not executed, although the code means to start the user's process whatever happened. *)
Example search_throws_loses_target :
  main_program (mkParams true 0 true "@/tmp/s.sock" (-1) false true) ["ls"]%string None
    (mkAnswers SearchThrows (Some Error) ddres_init true true ddres_init true true ddres_init) ∅ = Some Terminated.
Proof. reflexivity. Qed.

(** A tracepoint writes before the table of seen events. *)
Example tracepoint_writes_outside : context_add_watchers demo_stat demo_read_id (mkCli ["event=sched:switch"]%string "" false 0 32000 (-1)) = None.
Proof. vm_compute. reflexivity. Qed.

(** A key of fewer than four characters cannot be shown. *)
Example short_api_key : api_key_to_dbg_string "abc" = None /\ api_key_to_dbg_string "abcdef" = Some "**cdef"%string.
Proof. split; reflexivity. Qed.

(** The check for an empty command line is not reached: with profiling disabled and a process given, a null name is executed. *)
Example disabled_without_command p a e : p_enable p = false -> main_program p [] None a e = Some NullCommand.
Proof. intros H. unfold main_program, start_profiler_internal. by rewrite H. Qed.
