(* ===== verification/CommandLine.v ===== *)
(** * From the command line to the run

    Model of what follows the parsing of the options in [src/ddprof_cli.cc], of the context of a run ([src/ddprof_context_lib.cc],
    [include/ddprof_context.hpp]) and of the composition of [src/exe/main.cc]: options, context, profiler, command.  The parsing of the options is
    that of CLI11: its result is the record of the options. *)

From Stdlib Require Import Ascii.
From S2P Require Import Prelude Ddres EventConfig Exporter CpuMask Profiling Startup Identifiers Logging.
From stdpp Require Import pretty.

Local Open Scope Z_scope.

(** ** Options *)

Record DDProfCLI := mkDDProfCLI {
  o_exporter_input : ExporterInput; o_tags : string; o_pid : Z; o_global : bool; o_inlined_functions : bool; o_upload_period : Z; o_worker_period : Z;
  o_events : list string; o_preset : string; o_switch_user : string; o_nice : Z; o_log_level : string; o_log_mode : string; o_internal_stats : string;
  o_version : bool; o_enable : bool; o_cpu_affinity : string; o_default_stack_sample_size : Z; o_initial_loaded_libs_check_delay : Z;
  o_loaded_libs_check_interval : Z; o_show_samples : bool; o_fault_info : bool; o_help_extended : bool; o_remote_symbolization : bool;
  o_disable_symbolization : bool; o_reorder_events : bool; o_maximum_pids : Z; o_socket_path : string; o_pipefd_to_library : Z; o_timeline : bool;
  o_command_line : list string }.

Definition USHRT_MAX : Z := 65535.
Definition k_required_stack_sample_size_alignment : Z := 8.

(** The validators on the number of the option; the remainder is taken on the unsigned conversion of the number. *)
Definition SampleStackSizeValidator (value : Z) : bool := negb ((USHRT_MAX <=? value) || negb (u64 value mod k_required_stack_sample_size_alignment =? 0)).
Definition MaximumPidsValidator (value : Z) : bool := negb ((value <=? 0) && negb (value =? -1)).

Definition get_default_config_file (e : environment_vars) : string := default "./ddprof.toml"%string (e !! "DD_PROFILING_NATIVE_CONFIG"%string).

Definition RequiredError : Z := 106.

(** After the options are parsed: the exit code, and whether the run continues. *)
Definition parse_end (c : DDProfCLI) : Z * bool :=
  if o_help_extended c then (0, false)
  else if o_version c then (0, false)
  else if match o_events c with e :: _ => bool_decide (e = "help"%string) | [] => false end then (0, false)
  else if bool_decide (o_command_line c = []) && (o_pid c =? 0) && negb (o_global c) then (RequiredError, false)
  else (0, true).

(** The arguments of the command, null-terminated ([None]). *)
Definition get_user_command_line (c : DDProfCLI) : list (option string) := map Some (o_command_line c) ++ [None].

(** ** Context *)

Record DDProfParams := mkParams {
  cp_enable : bool; cp_inlined_functions : bool; cp_upload_period : Z; cp_fault_info : bool; cp_nice : Z; cp_num_cpu : Z; cp_pid : Z; cp_worker_period : Z;
  cp_socket_path : string; cp_pipefd_to_library : Z; cp_show_samples : bool; cp_timeline : bool; cp_remote_symbolization : bool; cp_disable_symbolization : bool;
  cp_reorder_events : bool; cp_maximum_pids : Z; cp_cpu_affinity : Z; cp_switch_user : string; cp_internal_stats : string; cp_tags : string;
  cp_initial_loaded_libs_check_delay : Z; cp_loaded_libs_check_interval : Z }.

(** The CPUs that were read are kept when the rest of the option cannot be. *)
Definition copy_cli_values (c : DDProfCLI) (num_cpu : Z) : DDProfParams :=
  let affinity := if bool_decide (o_cpu_affinity c = ""%string) then 0 else snd (parse_cpu_mask (o_cpu_affinity c)) in
  mkParams (o_enable c) (o_inlined_functions c) (o_upload_period c) (o_fault_info c) (o_nice c) num_cpu (if o_global c then -1 else o_pid c) (o_worker_period c)
    (o_socket_path c) (o_pipefd_to_library c) (o_show_samples c) (o_timeline c) (o_remote_symbolization c) (o_disable_symbolization c)
    (o_reorder_events c) (o_maximum_pids c) affinity (o_switch_user c) (o_internal_stats c) (o_tags c)
    (o_initial_loaded_libs_check_delay c) (o_loaded_libs_check_interval c).

Definition set_socket_path (p : DDProfParams) (path : string) : DDProfParams :=
  mkParams (cp_enable p) (cp_inlined_functions p) (cp_upload_period p) (cp_fault_info p) (cp_nice p) (cp_num_cpu p) (cp_pid p) (cp_worker_period p) path
    (cp_pipefd_to_library p) (cp_show_samples p) (cp_timeline p) (cp_remote_symbolization p) (cp_disable_symbolization p) (cp_reorder_events p) (cp_maximum_pids p)
    (cp_cpu_affinity p) (cp_switch_user p) (cp_internal_stats p) (cp_tags p) (cp_initial_loaded_libs_check_delay p) (cp_loaded_libs_check_interval p).

(** An abstract socket, with a random suffix. *)
Definition generate_socket_path (pid : Z) (suffix : list ascii) : string :=
  ("@/tmp/ddprof-" +:+ pretty pid +:+ "-" +:+ String.string_of_list_ascii suffix +:+ ".sock")%string.

(** The options that select the watchers. *)
Definition watcher_options (c : DDProfCLI) : cli :=
  mkCli (o_events c) (o_preset c) (o_global c) (o_pid c) (o_default_stack_sample_size c) (o_pipefd_to_library c).

(** The files of the tracing file system, the logger, the processors and the drawn suffix are inputs; [None]: undefined behaviour. *)
Section Context.
Context (stat : string -> bool) (read_id : string -> option Z) (la : log_answers) (num_cpu pid : Z) (suffix : list ascii).

Definition context_set (c : DDProfCLI) (l : LoggerContext) : option (DDRes * DDProfParams * list ConfiguredWatcher * LoggerContext) :=
  let l := setup_logger (Some (o_log_mode c)) (Some (o_log_level c)) "ddprof" 100 la l in
  let p := copy_cli_values c num_cpu in
  let? (res, ws) := context_add_watchers stat read_id (watcher_options c) in
  if IsDDResFatal res then Some (res, p, [], l)
  else
    let p := if bool_decide (cp_socket_path p = ""%string) then set_socket_path p (generate_socket_path pid suffix) else p in
    Some (ddres_init, p, ws, l).

Definition parse_input (c : DDProfCLI) (l : LoggerContext) : option (DDRes * DDProfParams * list ConfiguredWatcher * LoggerContext) :=
  let? (res, p, ws, l) := context_set c l in
  if IsDDResFatal res then Some (res, p, ws, l)
  else
    let res := check_incompatible_options ws (cp_pid p) (cp_pipefd_to_library p) in
    Some (if IsDDResFatal res then res else ddres_init, p, ws, l).

(** The parameters that the start of the profiler looks at. *)
Definition start_params (p : DDProfParams) (ws : list ConfiguredWatcher) : Startup.params :=
  Startup.mkParams (cp_enable p) (cp_pid p) (negb (MainLoop.context_allocation_profiling_watcher_idx (watchers_of ws) =? -1)) (cp_socket_path p) (cp_pipefd_to_library p)
    (negb (cp_cpu_affinity p =? 0)) (cp_reorder_events p).

(** [main]: the user is switched when one is named. *)
Definition run_main (c : DDProfCLI) (become : DDRes) (a : start_answers) (e : environment_vars) : option program_end :=
  let '(code, continue_exec) := parse_end c in
  if negb continue_exec then Some (Exited code [])
  else
    let? (res, p, ws, _) := parse_input c log_ctx in
    if IsDDResNotOK res then Some (Exited (-1) [])
    else main_program (start_params p ws) (o_command_line c) (if bool_decide (cp_switch_user p = ""%string) then None else Some become) a e.

End Context.

(** ** Theorems *)

Lemma run_profiler_exits p a temp e : sr_exit (run_profiler p a temp e) = true.
Proof. unfold run_profiler. by repeat case_match. Qed.

(** The start of an attached profiler, or of one for the whole system, does not return to the command. *)
Lemma attached_exits p command switch a e : p_enable p = true -> p_pid p <> 0 -> exists code done, main_program p command switch a e = Some (Exited code done).
Proof.
  intros He Hp. unfold main_program, start_profiler_internal. rewrite He. apply Z.eqb_neq in Hp. rewrite Hp. cbn [negb]. rewrite run_profiler_exits. eauto.
Qed.

Lemma command_not_null p command switch a e : command <> [] -> main_program p command switch a e <> Some NullCommand.
Proof. intros Hc. unfold main_program. destruct (start_profiler_internal p a e) as [r| |]; [|done|done]. destruct command; [done|]. by repeat case_match. Qed.

Lemma parse_input_params stat read_id la num_cpu pid suffix c l res p ws l' : parse_input stat read_id la num_cpu pid suffix c l = Some (res, p, ws, l') ->
  cp_enable p = o_enable c /\ cp_pid p = (if o_global c then -1 else o_pid c).
Proof.
  unfold parse_input, context_set. intros H. repeat (case_match; simplify_eq/=; try done).
Qed.

(** Whatever the options, the program never executes a null command while profiling is enabled: the options that are accepted name a command, a process or the
    whole system, and in the last two cases the program ends with the profiler. *)
Theorem no_null_command stat read_id la num_cpu pid suffix c become a e : o_enable c = true ->
  run_main stat read_id la num_cpu pid suffix c become a e <> Some NullCommand /\
  (forall command env, run_main stat read_id la num_cpu pid suffix c become a e = Some (Executed command env) -> command = o_command_line c /\ command <> []).
Proof.
  intros He. unfold run_main. destruct (parse_end c) as [code continue_exec] eqn:Ep. destruct continue_exec; [|done]. cbn [negb].
  destruct (parse_input _ _ _ _ _ _ c log_ctx) as [[[[res p] ws] l']|] eqn:Ei; [|done]. apply parse_input_params in Ei as [Hen Hpid].
  destruct (IsDDResNotOK res); [done|]. destruct (decide (o_command_line c = [])) as [Hc|Hc].
  - assert (cp_pid p <> 0) as Hp.
    { rewrite Hpid. unfold parse_end in Ep. rewrite Hc in Ep. destruct (o_help_extended c); [done|]. destruct (o_version c); [done|].
      destruct (match o_events c with [] => _ | _ => _ end); [done|]. rewrite bool_decide_true in Ep by done. cbn [andb] in Ep.
      destruct (o_global c); [done|]. destruct (o_pid c =? 0) eqn:E; [done|]. by apply Z.eqb_neq. }
    edestruct (attached_exits (start_params p ws) (o_command_line c)) as (code' & done_ & ->); [by rewrite <- He|done|]. done.
  - split; [by apply command_not_null|]. intros command env. unfold main_program. destruct (start_profiler_internal _ _ _) as [r| |]; [|done|done].
    destruct (o_command_line c) as [|x l]; [done|]. intros H. repeat (case_match; simplify_eq; try done).
Qed.

(** The path that is drawn names an abstract socket: no file has to be removed at the end. *)
Theorem generated_socket_leaves_no_file pid suffix p a temp e :
  p_socket_path p = generate_socket_path pid suffix -> AUnlinkSocket ∉ sr_actions (run_profiler p a temp e).
Proof.
  intros Hp. unfold run_profiler. rewrite Hp. change (to_chars (generate_socket_path pid suffix)) with ("@"%char :: tail (to_chars (generate_socket_path pid suffix))).
  change (code "@" =? 64) with true. cbv iota zeta. destruct temp; repeat case_match; cbn; set_solver.
Qed.

(** ** Examples *)

Module CommandLineDemo.

Definition options (pid : Z) (affinity : string) (enable : bool) (command : list string) : DDProfCLI :=
  mkDDProfCLI (mkInput "" "" "" "" "" "" "" "" "" true "native" "" false) "" pid false false 59 240 [] "" "" (-1) "error" "stdout" "" false enable affinity 32000 5000 59000 false true false
    false false true (-1) "" (-1) true command.

(** A mask with a character that is not a digit: the CPUs read before it are kept. *)
Example partial_affinity_kept : cp_cpu_affinity (copy_cli_values (options 0 "0xG3" true ["ls"]%string) 8) = 3.
Proof. reflexivity. Qed.

(** A negative size that is a multiple of 8 is accepted. *)
Example negative_stack_size_accepted : SampleStackSizeValidator (-8) = true /\ SampleStackSizeValidator 65536 = false /\ SampleStackSizeValidator 12 = false.
Proof. vm_compute. done. Qed.

Lemma no_null_command_witness :
  run_main (fun _ => false) (fun _ => None) (mkLogAnswers None true None) 8 12 [] (options 42 "" true []) ddres_init
    (mkAnswers NoLibraries None ddres_init true true ddres_init true true ddres_init) ∅ <> Some NullCommand.
Proof. exact (proj1 (no_null_command (fun _ => false) (fun _ => None) (mkLogAnswers None true None) 8 12 [] (options 42 "" true []) ddres_init
    (mkAnswers NoLibraries None ddres_init true true ddres_init true true ddres_init) ∅ eq_refl)). Defined.

(** The command of a run is executed, without allocations to profile, in the environment of the program. *)
Example a_command : run_main (fun _ => false) (fun _ => None) (mkLogAnswers None true None) 8 12 [] (options 0 "" true ["ls"; "-l"]%string) ddres_init
    (mkAnswers NoLibraries (Some Error) ddres_init true true ddres_init true true ddres_init) ∅ = Some (Executed ["ls"; "-l"]%string ∅).
Proof. vm_compute. reflexivity. Qed.

End CommandLineDemo.
