(* ===== verification/Ipc.v ===== *)
(** * Messages between the library and the profiler

    Model of [src/ipc.cc] and [include/ipc.hpp]: the request and the reply as they lie in memory,
    the loops that send and receive them over a socket with the descriptors of the ring buffer,
    and the server of the worker.  What the kernel answers to each system call is a script. *)

From S2P Require Import Prelude Ddres RingBuffer Watcher MainLoop.

(** ** Messages *)

Record RequestMessage := mkRequest { rq_request : Z; rq_pid : Z }.

Definition request_bytes (m : RequestMessage) : list Z := le_bytes 4 (rq_request m) ++ le_bytes 4 (u32 (rq_pid m)).

(** [padding]: the four bytes that the compiler leaves after the ring buffer. *)
Definition reply_bytes (padding : Z) (m : ReplyMessage) : list Z :=
  le_bytes 4 (rm_request m) ++ le_bytes 4 (u32 (rm_pid m)) ++ le_bytes 8 (u64 (rm_allocation_profiling_rate m)) ++
  le_bytes 8 (u64 (rbi_mem_size (rm_ring_buffer m))) ++ le_bytes 4 (u32 (rbi_ring_fd (rm_ring_buffer m))) ++
  le_bytes 4 (u32 (rbi_event_fd (rm_ring_buffer m))) ++ le_bytes 4 (u32 (rbi_type (rm_ring_buffer m))) ++ le_bytes 4 padding ++
  le_bytes 4 (rm_initial_loaded_libs_check_delay_ms m) ++ le_bytes 4 (rm_loaded_libs_check_interval_ms m) ++
  le_bytes 4 (rm_allocation_flags m) ++ le_bytes 4 (rm_stack_sample_size m).

Definition sizeof_RequestMessage : nat := 8.
Definition sizeof_ReplyMessage : nat := 56.

(** A field of a message. *)
Definition field (n off : nat) (bs : list Z) : Z := le_val (take n (drop off bs)).

Definition request_of (bs : list Z) : RequestMessage := mkRequest (field 4 0 bs) (i32 (field 4 4 bs)).
Definition reply_of (bs : list Z) : ReplyMessage :=
  mkReply (field 4 0 bs) (i32 (field 4 4 bs)) (i64 (field 8 8 bs))
    (mkRBI (i64 (field 8 16 bs)) (i32 (field 4 24 bs)) (i32 (field 4 28 bs)) (i32 (field 4 32 bs)))
    (field 4 40 bs) (field 4 44 bs) (field 4 48 bs) (field 4 52 bs).

(** ** Sockets *)

(** The answers of the kernel to [send] or [sendmsg]: interrupted by a signal, an error, a number
    of bytes accepted; and to [recv] or [recvmsg]: the bytes (none when the other end is closed)
    and the control message, with the rights flag of its header. *)
Inductive send_answer := SInterrupted | SError (errno : Z) | Sent (n : nat).
Inductive recv_answer := RInterrupted | RError (errno : Z) | Received (bytes : list Z) (cmsg : option (bool * list Z)).

Definition kMaxFD : nat := 253.
Definition EAGAIN : Z := 11.

(** [remaining] *)
Definition remaining {A} (buffer : list A) (offset : nat) : list A := drop (Nat.min offset (length buffer)) buffer.

(** [send_partial]: the bytes accepted, the error, and what the kernel will answer next; [None]:
    the call does not return. *)
Fixpoint send_partial (script : list send_answer) (buffer : list Z) : option (list Z * option Z * list send_answer) :=
  match script with
  | [] => None
  | SInterrupted :: script' => send_partial script' buffer
  | SError e :: script' => Some ([], Some e, script')
  | Sent n :: script' => Some (take n buffer, None, script')
  end.

(** [UnixSocket::send]: the bytes sent. *)
Fixpoint send_all (fuel : nat) (script : list send_answer) (buffer : list Z) (written : list Z) : option (list Z * option Z * list send_answer) :=
  match fuel with
  | O => None
  | S fuel' =>
      let? (bs, ec, script) := send_partial script (remaining buffer (length written)) in
      let written := written ++ bs in
      if bool_decide (ec = None) && (length written <? length buffer)%nat then send_all fuel' script buffer written else Some (written, ec, script)
  end.

(** A send with descriptors: what goes out is the bytes and the descriptors with the first of
    them.  Too many descriptors, or an empty buffer, give a count of [-1] and no error. *)
Definition send_fds (script : list send_answer) (buffer : list Z) (fds : list Z) : option (list Z * list Z * option Z * list send_answer) :=
  if (kMaxFD <? length fds)%nat || bool_decide (buffer = []) then Some ([], [], None, script)
  else
    let? (bs, ec, script) := send_partial script buffer in
    if bool_decide (ec = None) && (length bs <? length buffer)%nat then
      let? (rest, ec, script) := send_all (S (length script)) script (remaining buffer (length bs)) [] in Some (bs ++ rest, fds, ec, script)
    else Some (bs, if bool_decide (ec = None) then fds else [], ec, script).

Fixpoint receive_partial (script : list recv_answer) (size : nat) : option (list Z * option Z * list recv_answer) :=
  match script with
  | [] => None
  | RInterrupted :: script' => receive_partial script' size
  | RError e :: script' => Some ([], Some e, script')
  | Received bytes _ :: script' => Some (take size bytes, if bool_decide (bytes = []) then Some EAGAIN else None, script')
  end.

(** [UnixSocket::receive] into a buffer of [size] bytes. *)
Fixpoint receive_all (fuel : nat) (script : list recv_answer) (size : nat) (read : list Z) : option (list Z * option Z * list recv_answer) :=
  match fuel with
  | O => None
  | S fuel' =>
      let? (bs, ec, script) := receive_partial script (size - length read) in
      let read := read ++ bs in
      if bool_decide (ec = None) && (length read <? size)%nat then receive_all fuel' script size read else Some (read, ec, script)
  end.

(** The descriptors of a control message; [room]: how many the caller takes. *)
Definition cmsg_fds (room : nat) (cmsg : option (bool * list Z)) : list Z :=
  match cmsg with
  | None => []
  | Some (rights, fds) => if bool_decide (fds = []) || (room <? length fds)%nat || negb rights then [] else fds
  end.

Fixpoint receive_partial_fds (script : list recv_answer) (size room : nat) : option (list Z * list Z * option Z * list recv_answer) :=
  match script with
  | [] => None
  | RInterrupted :: script' => receive_partial_fds script' size room
  | RError e :: script' => Some ([], [], Some e, script')
  | Received bytes cmsg :: script' =>
      if bool_decide (bytes = []) then Some ([], [], Some EAGAIN, script') else Some (take size bytes, cmsg_fds room cmsg, None, script')
  end.

Definition receive_fds (script : list recv_answer) (size room : nat) : option (list Z * list Z * option Z * list recv_answer) :=
  let? (bs, fds, ec, script) := receive_partial_fds script size room in
  if bool_decide (ec = None) && (length bs <? size)%nat then
    let? (rest, ec, script) := receive_all (S (length script)) script (size - length bs) [] in Some (bs ++ rest, fds, ec, script)
  else Some (bs, fds, ec, script).

(** ** Sending and receiving messages *)

Definition socket_result (ec : option Z) : DDRes := match ec with Some _ => ddres_error (what_of "SOCKET") | None => ddres_init end.

Definition send_request (script : list send_answer) (m : RequestMessage) : option (DDRes * list Z) :=
  let? (bs, ec, _) := send_all (S (length script)) script (request_bytes m) [] in Some (socket_result ec, bs).

Definition send_reply (script : list send_answer) (padding : Z) (m : ReplyMessage) : option (DDRes * list Z * list Z) :=
  let fds := if rbi_mem_size (rm_ring_buffer m) =? -1 then [] else [rbi_ring_fd (rm_ring_buffer m); rbi_event_fd (rm_ring_buffer m)] in
  let? (bs, fds, ec, _) := send_fds script (reply_bytes padding m) fds in Some (socket_result ec, bs, fds).

(** [msg]: what the caller's message holds before. *)
Definition overwrite (old new : list Z) : list Z := new ++ drop (length new) old.

Definition receive_request (script : list recv_answer) (old : RequestMessage) : option (DDRes * RequestMessage) :=
  let? (bs, ec, _) := receive_all (S (length script)) script sizeof_RequestMessage [] in
  Some (socket_result ec, request_of (overwrite (request_bytes old) bs)).

Definition set_fds (m : ReplyMessage) (ring_fd event_fd : Z) : ReplyMessage :=
  mkReply (rm_request m) (rm_pid m) (rm_allocation_profiling_rate m) (mkRBI (rbi_mem_size (rm_ring_buffer m)) ring_fd event_fd (rbi_type (rm_ring_buffer m)))
    (rm_initial_loaded_libs_check_delay_ms m) (rm_loaded_libs_check_interval_ms m) (rm_allocation_flags m) (rm_stack_sample_size m).

Definition receive_reply (script : list recv_answer) (padding : Z) (old : ReplyMessage) : option (DDRes * ReplyMessage) :=
  let? (bs, fds, ec, _) := receive_fds script sizeof_ReplyMessage 2 in
  let m := reply_of (overwrite (reply_bytes padding old) bs) in
  match ec with
  | Some _ => Some (ddres_error (what_of "SOCKET"), m)
  | None =>
      if xorb (negb (rbi_mem_size (rm_ring_buffer m) =? -1)) (length fds =? 2)%nat then Some (ddres_error (what_of "SOCKET"), m)
      else Some (ddres_init, set_fds m (nth 0 fds (-1)) (nth 1 fds (-1)))
  end.

(** [get_profiler_info]: the timeouts, the request, the reply. *)
Definition get_profiler_info (read_timeout_set write_timeout_set : bool) (sends : list send_answer) (recvs : list recv_answer) (pid padding : Z) (reply : ReplyMessage) :
    option (DDRes * ReplyMessage) :=
  if negb read_timeout_set then Some (ddres_error (what_of "SOCKET"), reply)
  else if negb write_timeout_set then Some (ddres_error (what_of "SOCKET"), reply)
  else
    let? (res, _) := send_request sends (mkRequest kProfilerInfo pid) in
    if IsDDResFatal res then Some (res, reply)
    else
      let? (res, reply) := receive_reply recvs padding reply in
      if IsDDResFatal res then Some (res, reply) else Some (ddres_init, reply).

(** ** Addresses *)

Definition sun_path_size : nat := 108.
Definition is_socket_abstract (path : string) : bool := String.prefix "@" path.

(** The path in the address of a socket, zeros after it; [None]: the path is too long. *)
Definition socket_address (path : string) : option (list Z) :=
  let cs := map (fun c => Z.of_nat (Ascii.nat_of_ascii c)) (String.list_ascii_of_string path) in
  if (sun_path_size <=? length cs)%nat then None
  else
    let buf := cs ++ replicate (sun_path_size - length cs) 0 in
    Some (if is_socket_abstract path then 0 :: tail buf else buf).

(** ** Theorems: messages *)

Definition is_i32 (x : Z) : Prop := - 2 ^ 31 <= x < 2 ^ 31.
Definition is_i64 (x : Z) : Prop := - 2 ^ 63 <= x < 2 ^ 63.
Definition is_u32 (x : Z) : Prop := 0 <= x < 2 ^ 32.

Lemma le_val_u32 x : is_u32 x -> le_val (le_bytes 4 x) = x.
Proof. intros H. apply le_val_le_bytes. exact H. Qed.

Lemma le_val_i32 x : is_i32 x -> i32 (le_val (le_bytes 4 (u32 x))) = x.
Proof. unfold is_i32. intros H. rewrite le_val_le_bytes by (change (256 ^ Z.of_nat 4) with (2 ^ 32); apply Z.mod_pos_bound; lia). unfold i32, u32. rewrite Zplus_mod_idemp_l, Z.mod_small; lia. Qed.

Lemma le_val_i64 x : is_i64 x -> i64 (le_val (le_bytes 8 (u64 x))) = x.
Proof. unfold is_i64. intros H. rewrite le_val_le_bytes by (change (256 ^ Z.of_nat 8) with (2 ^ 64); apply Z.mod_pos_bound; lia). unfold i64, u64. rewrite Zplus_mod_idemp_l, Z.mod_small; lia. Qed.

Record reply_ok (m : ReplyMessage) : Prop := {
  ro_request : is_u32 (rm_request m); ro_pid : is_i32 (rm_pid m); ro_rate : is_i64 (rm_allocation_profiling_rate m);
  ro_size : is_i64 (rbi_mem_size (rm_ring_buffer m)); ro_fd : is_i32 (rbi_ring_fd (rm_ring_buffer m)); ro_event : is_i32 (rbi_event_fd (rm_ring_buffer m));
  ro_type : is_i32 (rbi_type (rm_ring_buffer m)); ro_delay : is_u32 (rm_initial_loaded_libs_check_delay_ms m); ro_interval : is_u32 (rm_loaded_libs_check_interval_ms m);
  ro_flags : is_u32 (rm_allocation_flags m); ro_stack : is_u32 (rm_stack_sample_size m)
}.

Lemma length_reply_bytes p m : length (reply_bytes p m) = sizeof_ReplyMessage.
Proof. reflexivity. Qed.

Lemma reply_of_bytes p m : reply_ok m -> reply_of (reply_bytes p m) = m.
Proof.
  intros [H1 H2 H3 H4 H5 H6 H7 H8 H9 H10 H11].
  change (reply_of (reply_bytes p m)) with
    (mkReply (le_val (le_bytes 4 (rm_request m))) (i32 (le_val (le_bytes 4 (u32 (rm_pid m))))) (i64 (le_val (le_bytes 8 (u64 (rm_allocation_profiling_rate m)))))
       (mkRBI (i64 (le_val (le_bytes 8 (u64 (rbi_mem_size (rm_ring_buffer m)))))) (i32 (le_val (le_bytes 4 (u32 (rbi_ring_fd (rm_ring_buffer m))))))
          (i32 (le_val (le_bytes 4 (u32 (rbi_event_fd (rm_ring_buffer m)))))) (i32 (le_val (le_bytes 4 (u32 (rbi_type (rm_ring_buffer m)))))))
       (le_val (le_bytes 4 (rm_initial_loaded_libs_check_delay_ms m))) (le_val (le_bytes 4 (rm_loaded_libs_check_interval_ms m)))
       (le_val (le_bytes 4 (rm_allocation_flags m))) (le_val (le_bytes 4 (rm_stack_sample_size m)))).
  rewrite (le_val_u32 _ H1), (le_val_i32 _ H2), (le_val_i64 _ H3), (le_val_i64 _ H4), (le_val_i32 _ H5), (le_val_i32 _ H6), (le_val_i32 _ H7), (le_val_u32 _ H8), (le_val_u32 _ H9), (le_val_u32 _ H10), (le_val_u32 _ H11).
  by destruct m as [? ? ? []].
Qed.

Lemma request_of_bytes m : is_u32 (rq_request m) -> is_i32 (rq_pid m) -> request_of (request_bytes m) = m.
Proof.
  intros H1 H2. change (request_of (request_bytes m)) with (mkRequest (le_val (le_bytes 4 (rq_request m))) (i32 (le_val (le_bytes 4 (u32 (rq_pid m)))))).
  rewrite le_val_u32, le_val_i32 by done. by destruct m.
Qed.

Lemma overwrite_all old new : length new = length old -> overwrite old new = new.
Proof. intros H. unfold overwrite. rewrite H, drop_all. apply app_nil_r. Qed.

(** The kernel takes [n] bytes: one by one, or many at a time, with interruptions. *)
Inductive takes : nat -> list send_answer -> Prop :=
  | takes_all rest : takes 0 rest
  | takes_interrupted n script : takes (S n) script -> takes (S n) (SInterrupted :: script)
  | takes_sent k n script : takes n script -> takes (S k + n) (Sent (S k) :: script).

(** Bytes arrive, cut anywhere; [tail]: the answers after them. *)
Inductive arrives (tail : list recv_answer) : list Z -> list recv_answer -> Prop :=
  | arrives_all : arrives tail [] tail
  | arrives_interrupted bs script : arrives tail bs script -> bs <> [] -> arrives tail bs (RInterrupted :: script)
  | arrives_received b bs script : arrives tail bs script -> b <> [] -> arrives tail (b ++ bs) (Received b None :: script).

(** The first of them bring a control message. *)
Inductive arrives_with (tail : list recv_answer) (c : option (bool * list Z)) : list Z -> list recv_answer -> Prop :=
  | first_interrupted bs script : arrives_with tail c bs script -> arrives_with tail c bs (RInterrupted :: script)
  | first_received b bs script : arrives tail bs script -> b <> [] -> arrives_with tail c (b ++ bs) (Received b c :: script).

Lemma send_partial_takes n script buffer : takes n script -> n = length buffer -> buffer <> [] ->
  exists bs script', send_partial script buffer = Some (bs, None, script') /\ bs <> [] /\ bs `prefix_of` buffer /\ takes (length buffer - length bs) script' /\ (length script' < length script)%nat.
Proof.
  induction 1 as [rest|n script Ht IH|k n script Ht IH]; intros Hn Hne.
  - destruct buffer; [done|]. cbn in Hn. lia.
  - destruct (IH Hn Hne) as (bs & s' & E & H1 & H2 & H3 & H4). exists bs, s'. cbn [send_partial length]. repeat (split; [done|]). lia.
  - exists (take (S k) buffer), script. cbn [send_partial length]. split; [done|]. split; [by destruct buffer|]. split; [apply prefix_take|].
    rewrite length_take. split; [|lia]. by replace (length buffer - Nat.min (S k) (length buffer))%nat with n by lia.
Qed.

Lemma remaining_app {A} (a b : list A) : remaining (a ++ b) (length a) = b.
Proof. unfold remaining. rewrite length_app, Nat.min_l by lia. apply drop_app_length. Qed.

Lemma send_all_takes fuel script written rest : takes (length rest) script -> rest <> [] -> (length script < fuel)%nat ->
  exists script', send_all fuel script (written ++ rest) written = Some (written ++ rest, None, script').
Proof.
  revert script written rest. induction fuel as [|fuel IH]; intros script written rest Ht Hne Hf; [lia|]. cbn [send_all]. rewrite remaining_app.
  destruct (send_partial_takes _ _ _ Ht eq_refl Hne) as (bs & s' & -> & Hbs & [rest' ->] & Ht' & Hl). rewrite bool_decide_true by done. cbn [andb].
  rewrite !length_app. rewrite length_app, Nat.add_comm, Nat.add_sub in Ht'. destruct (Nat.ltb_spec (length written + length bs) (length written + (length bs + length rest'))) as [Hlt|Hge].
  - rewrite app_assoc. apply IH; [done|intros ->; cbn in Hlt; lia|lia].
  - assert (rest' = []) as -> by (destruct rest'; [done|cbn in Hge; lia]). exists s'. by rewrite app_nil_r.
Qed.

Lemma receive_partial_arrives tail bs script size : arrives tail bs script -> bs <> [] -> (length bs <= size)%nat ->
  exists b bs' script', receive_partial script size = Some (b, None, script') /\ b <> [] /\ bs = b ++ bs' /\ arrives tail bs' script' /\ (length script' < length script)%nat.
Proof.
  induction 1 as [|bs script Ha IH Hne|b bs script Ha IH Hb]; intros Hn Hs; [done| |].
  - destruct (IH Hn Hs) as (b & bs' & s' & E & H1 & H2 & H3 & H4). exists b, bs', s'. cbn [receive_partial length]. repeat (split; [done|]). lia.
  - rewrite length_app in Hs. exists b, bs, script. cbn [receive_partial length]. rewrite take_ge, bool_decide_false by (done || lia). repeat (split; [done|]). lia.
Qed.

Lemma receive_all_arrives fuel tail script size read bs : arrives tail bs script -> bs <> [] -> (length read + length bs = size)%nat -> (length script < fuel)%nat ->
  exists script', receive_all fuel script size read = Some (read ++ bs, None, script').
Proof.
  revert script read bs. induction fuel as [|fuel IH]; intros script read bs Ha Hne Hs Hf; [lia|]. cbn [receive_all].
  destruct (receive_partial_arrives tail bs script (size - length read) Ha Hne) as (b & bs' & s' & -> & Hb & -> & Ha' & Hl); [lia|]. rewrite bool_decide_true by done. cbn [andb].
  rewrite length_app in *. destruct (Nat.ltb_spec (length read + length b) size) as [Hlt|Hge].
  - rewrite app_assoc. apply IH; [done|intros ->; cbn in Hs; lia|rewrite length_app; lia|lia].
  - assert (bs' = []) as -> by (destruct bs'; [done|cbn in Hs; lia]). exists s'. by rewrite app_nil_r.
Qed.

(** The connection breaks: an error, a timeout, or the other end is closed. *)
Definition breaks (tail : list recv_answer) : Prop := exists a rest, tail = a :: rest /\ ((exists e, a = RError e) \/ exists c, a = Received [] c).

Lemma receive_all_breaks fuel tail script size read bs : arrives tail bs script -> breaks tail -> (length read + length bs < size)%nat -> (length script < fuel)%nat ->
  exists script' e, receive_all fuel script size read = Some (read ++ bs, Some e, script').
Proof.
  intros Ha Hb. revert script read bs Ha. induction fuel as [|fuel IH]; intros script read bs Ha Hs Hf; [lia|]. cbn [receive_all]. destruct bs as [|x bs].
  - assert (Hp : exists script' e, receive_partial script (size - length read) = Some ([], Some e, script')).
    { inversion Ha as [E| |b bs' script' _ Hb' E]; subst; [|done|by destruct b]. destruct Hb as (a & rest & -> & [[e ->]|[c ->]]); cbn [receive_partial]; [by eauto|rewrite take_nil; by eauto]. }
    destruct Hp as (s' & e & ->). exists s', e. done.
  - destruct (receive_partial_arrives tail (x :: bs) script (size - length read) Ha) as (b & bs' & s' & -> & Hbn & E & Ha' & Hl); [done|lia|]. rewrite bool_decide_true by done. cbn [andb].
    rewrite E in *. rewrite length_app in *. destruct (Nat.ltb_spec (length read + length b) size); [|lia]. rewrite app_assoc. apply IH; [done|rewrite length_app; lia|lia].
Qed.

(** The control message that brings the descriptors. *)
Definition control (fds : list Z) : option (bool * list Z) := if bool_decide (fds = []) then None else Some (true, fds).

Lemma cmsg_fds_control fds room : (length fds <= room)%nat -> cmsg_fds room (control fds) = fds.
Proof.
  intros H. unfold control. destruct fds as [|f fds]; [done|]. rewrite bool_decide_false by done. cbn [cmsg_fds]. rewrite bool_decide_false by done.
  destruct (Nat.ltb_spec room (length (f :: fds))); [lia|done].
Qed.

Lemma receive_partial_fds_arrives tail c bs script size room : arrives_with tail c bs script -> (length bs <= size)%nat ->
  exists b bs' script', receive_partial_fds script size room = Some (b, cmsg_fds room c, None, script') /\ bs = b ++ bs' /\ arrives tail bs' script'.
Proof.
  induction 1 as [bs script Ha IH|b bs script Ha Hb]; intros Hs; [exact (IH Hs)|]. exists b, bs, script. cbn [receive_partial_fds]. rewrite length_app in Hs.
  rewrite bool_decide_false, take_ge by (done || lia). done.
Qed.

Lemma receive_fds_arrives tail c bs script size room : arrives_with tail c bs script -> length bs = size ->
  exists script', receive_fds script size room = Some (bs, cmsg_fds room c, None, script').
Proof.
  intros Ha Hs. unfold receive_fds.
  destruct (receive_partial_fds_arrives tail c bs script size room Ha ltac:(lia)) as (b & bs' & s' & -> & -> & Ha'). rewrite bool_decide_true by done. cbn [andb]. rewrite length_app in Hs.
  destruct (Nat.ltb_spec (length b) size) as [Hlt|Hge].
  - destruct (receive_all_arrives (S (length s')) tail s' (size - length b) [] bs' Ha') as (s2 & ->); [intros ->; cbn in Hs; lia|cbn; lia|lia|]. by exists s2.
  - assert (bs' = []) as -> by (destruct bs'; [done|cbn in Hs; lia]). exists s'. by rewrite app_nil_r.
Qed.

Lemma receive_fds_breaks tail c bs script size room : arrives_with tail c bs script -> breaks tail -> (length bs < size)%nat ->
  exists fds e script', receive_fds script size room = Some (bs, fds, Some e, script').
Proof.
  intros Ha Hb Hs. unfold receive_fds.
  destruct (receive_partial_fds_arrives tail c bs script size room Ha ltac:(lia)) as (b & bs' & s' & -> & -> & Ha'). rewrite bool_decide_true by done. cbn [andb]. rewrite length_app in Hs.
  destruct (Nat.ltb_spec (length b) size); [|lia]. destruct (receive_all_breaks (S (length s')) tail s' (size - length b) [] bs' Ha' Hb) as (s2 & e & ->); [cbn; lia|lia|]. by eauto.
Qed.

(** The descriptors that go with a reply. *)
Definition reply_fds (m : ReplyMessage) : list Z :=
  if rbi_mem_size (rm_ring_buffer m) =? -1 then [] else [rbi_ring_fd (rm_ring_buffer m); rbi_event_fd (rm_ring_buffer m)].

Lemma send_reply_takes sends padding m : takes sizeof_ReplyMessage sends -> send_reply sends padding m = Some (ddres_init, reply_bytes padding m, reply_fds m).
Proof.
  intros Ht. unfold send_reply, send_fds. change (if rbi_mem_size (rm_ring_buffer m) =? -1 then [] else [rbi_ring_fd (rm_ring_buffer m); rbi_event_fd (rm_ring_buffer m)]) with (reply_fds m).
  assert (Hf : (kMaxFD <? length (reply_fds m))%nat = false) by (unfold reply_fds; by destruct (_ =? -1)). rewrite Hf. pose proof (length_reply_bytes padding m) as Hl.
  generalize dependent (reply_bytes padding m). intros buffer Hl. rewrite <- Hl in Ht. rewrite bool_decide_false by (intros ->; done). cbn [orb].
  destruct (send_partial_takes _ _ _ Ht eq_refl) as (bs & s' & -> & Hb & [rest ->] & Ht' & Hlen); [intros ->; done|]. rewrite bool_decide_true by done. cbn [andb].
  rewrite remaining_app, length_app in *. rewrite Nat.add_comm, Nat.add_sub in Ht'. destruct (Nat.ltb_spec (length bs) (length bs + length rest)) as [Hlt|Hge].
  - destruct (send_all_takes (S (length s')) s' [] rest Ht') as (s2 & E); [intros ->; cbn in Hlt; lia|lia|]. cbn [app] in E. by rewrite E.
  - assert (rest = []) as -> by (destruct rest; [done|cbn in Hge; lia]). by rewrite app_nil_r.
Qed.

Lemma send_request_takes sends m : takes sizeof_RequestMessage sends -> send_request sends m = Some (ddres_init, request_bytes m).
Proof. intros Ht. unfold send_request. destruct (send_all_takes (S (length sends)) sends [] (request_bytes m) Ht) as (s' & E); [done|lia|]. cbn [app] in E. by rewrite E. Qed.

(** C7: the library asks for the ring buffer and gets it: however the kernel cuts the messages
    into pieces and whatever signals interrupt the calls, the server reads the request that was
    sent, and the reply that the library has in the end is the one the server sent, with the two
    descriptors that the kernel made for it when there is a ring buffer. *)
Theorem profiler_info_exchanged pid m sends sends' padding padding' old :
  is_i32 pid -> reply_ok m -> takes sizeof_RequestMessage sends -> takes sizeof_ReplyMessage sends' ->
  (exists bs, send_request sends (mkRequest kProfilerInfo pid) = Some (ddres_init, bs) /\
     forall tail recvs before, arrives tail bs recvs -> receive_request recvs before = Some (ddres_init, mkRequest kProfilerInfo pid)) /\
  exists bs fds, send_reply sends' padding m = Some (ddres_init, bs, fds) /\
    forall tail recvs fds', length fds' = length fds -> arrives_with tail (control fds') bs recvs ->
      get_profiler_info true true sends recvs pid padding' old = Some (ddres_init, set_fds m (nth 0 fds' (-1)) (nth 1 fds' (-1))).
Proof.
  intros Hp Hm Ht Ht'. pose proof (send_request_takes sends (mkRequest kProfilerInfo pid) Ht) as Er. split.
  - exists (request_bytes (mkRequest kProfilerInfo pid)). split; [done|]. intros tail recvs before Ha. unfold receive_request.
    destruct (receive_all_arrives (S (length recvs)) tail recvs sizeof_RequestMessage [] _ Ha) as (s' & ->); [done|done|lia|]. cbn [app socket_result].
    rewrite overwrite_all by done. by rewrite request_of_bytes.
  - exists (reply_bytes padding m), (reply_fds m). split; [by apply send_reply_takes|]. intros tail recvs fds' Hl Ha. unfold get_profiler_info. cbn [negb]. rewrite Er.
    change (IsDDResFatal ddres_init) with false. cbv iota. unfold receive_reply.
    destruct (receive_fds_arrives tail (control fds') (reply_bytes padding m) recvs sizeof_ReplyMessage 2 Ha (length_reply_bytes _ _)) as (s' & ->).
    assert (Hf : (length fds' <= 2)%nat) by (rewrite Hl; unfold reply_fds; destruct (_ =? -1); cbn; lia). rewrite cmsg_fds_control, overwrite_all, reply_of_bytes by done.
    replace (xorb _ _) with false; [done|]. rewrite Hl. unfold reply_fds. by destruct (_ =? -1).
Qed.

(** when the connection breaks (an error, a timeout, the profiler is gone) before the whole
    reply has arrived, the library reports an error; it never uses a part of a reply. *)
Theorem broken_reply_is_error tail c bs recvs padding old : arrives_with tail c bs recvs -> breaks tail -> (length bs < sizeof_ReplyMessage)%nat ->
  exists m, receive_reply recvs padding old = Some (ddres_error (what_of "SOCKET"), m).
Proof.
  intros Ha Hb Hl. unfold receive_reply. destruct (receive_fds_breaks tail c bs recvs sizeof_ReplyMessage 2 Ha Hb Hl) as (fds & e & s' & ->). by eexists.
Qed.

(** The reply for a ring of 64 MiB, cut in the middle of a field, with an interrupted call. *)
Definition demo_reply : ReplyMessage := mkReply kProfilerInfo 100 524288 (mkRBI (2 ^ 26) 7 8 1) 500 1000 1 32768.
Definition empty_reply : ReplyMessage := mkReply 0 (-1) 0 (mkRBI (-1) (-1) (-1) 0) 0 0 0 0.
Definition demo_sends : list send_answer := [SInterrupted; Sent 5; Sent 51].

Lemma demo_reply_ok : reply_ok demo_reply.
Proof. split; (split; [apply Z.leb_le|apply Z.ltb_lt]; vm_compute; reflexivity). Qed.

Lemma demo_takes_reply : takes sizeof_ReplyMessage demo_sends.
Proof. apply takes_interrupted. apply (takes_sent 4 51). apply (takes_sent 50 0). constructor. Qed.

Lemma profiler_info_exchanged_witness :
  (exists bs, send_request [Sent 8] (mkRequest kProfilerInfo 42) = Some (ddres_init, bs) /\
     forall tail recvs before, arrives tail bs recvs -> receive_request recvs before = Some (ddres_init, mkRequest kProfilerInfo 42)) /\
  exists bs fds, send_reply demo_sends 0 demo_reply = Some (ddres_init, bs, fds) /\
    forall tail recvs fds', length fds' = length fds -> arrives_with tail (control fds') bs recvs ->
      get_profiler_info true true [Sent 8] recvs 42 0 empty_reply = Some (ddres_init, set_fds demo_reply (nth 0 fds' (-1)) (nth 1 fds' (-1))).
Proof.
  apply profiler_info_exchanged; [unfold is_i32; lia|exact demo_reply_ok|apply (takes_sent 7 0), takes_all|exact demo_takes_reply].
Defined.

(** The same exchange, run. *)
Example demo_exchange :
  let bs := reply_bytes 0 demo_reply in
  get_profiler_info true true [Sent 8] [Received (take 30 bs) (Some (true, [20; 21])); RInterrupted; Received (drop 30 bs) None] 42 0 empty_reply =
  Some (ddres_init, set_fds demo_reply 20 21).
Proof. vm_compute. reflexivity. Qed.

Lemma broken_reply_is_error_witness :
  exists m, receive_reply [Received [1; 0; 0; 0; 9] None; Received [] None] 0 empty_reply = Some (ddres_error (what_of "SOCKET"), m).
Proof.
  apply (broken_reply_is_error [Received [] None] None [1; 0; 0; 0; 9]).
  - apply (first_received _ _ [1; 0; 0; 0; 9] []); [constructor|done].
  - do 2 eexists. split; [done|]. right. by eexists.
  - cbn. unfold sizeof_ReplyMessage. lia.
Defined.

(** A send with too many descriptors sends nothing and reports no error. *)
Example too_many_descriptors : send_fds [Sent 56] (reply_bytes 0 demo_reply) (replicate 254 5) = Some ([], [], None, [Sent 56]).
Proof. vm_compute. reflexivity. Qed.

(** A path that starts with [@] is abstract: its first byte is zero. *)
Example abstract_address : option_map (take 4) (socket_address "@dd/x") = Some [0; 100; 100; 47] /\ option_map (take 4) (socket_address "/tmp") = Some [47; 116; 109; 112].
Proof. split; reflexivity. Qed.
