(* ===== verification/WorkerServer.v ===== *)
(** * The server of the worker

    Model of the loop of [WorkerServer] ([src/ipc.cc]), which answers the instrumented processes:
    the descriptors it polls, the connections it serves and the order in which it removes them.
    What the kernel answers in each round is given. *)

From S2P Require Import Prelude.

Record pollfd := mkPoll { po_fd : Z; po_revents : Z }.

Definition POLLIN : Z := 1.
Definition readable (x : pollfd) : bool := negb (Z.land (po_revents x) POLLIN =? 0).

Inductive server_event := Replied (fd : Z) | Closed (fd : Z).

(** A round of the loop: the answer of [poll] (the events of a descriptor), whether the request
    of a connection is received, the new connection. *)
Inductive poll_answer := PollFailed (interrupted : bool) | Polled (revents : Z -> Z).
Record round := mkRound { r_poll : poll_answer; r_request_ok : Z -> bool; r_accept : option Z }.

Record server := mkServer { sv_fds : list pollfd; sv_shutting_down : bool; sv_log : list server_event; sv_accepted : list Z }.

(** A connection that has events: a request is answered; the connection is closed. *)
Definition serve_one (request_ok : Z -> bool) (x : pollfd) : list server_event :=
  (if readable x && request_ok (po_fd x) then [Replied (po_fd x)] else []) ++ [Closed (po_fd x)].

(** The inner loop: connections that were served are swapped to the end. *)
Fixpoint serve (fuel : nat) (request_ok : Z -> bool) (v : list pollfd) (first last : nat) (log : list server_event) : option (list pollfd * nat * list server_event) :=
  if (first =? last)%nat then Some (v, last, log)
  else
    match fuel with
    | O => None
    | S fuel' =>
        let? x := v !! first in
        if negb (po_revents x =? 0) then
          let last := (last - 1)%nat in
          let? y := v !! last in
          serve fuel' request_ok (<[first := y]> (<[last := x]> v)) first last (log ++ serve_one request_ok x)
        else serve fuel' request_ok v (S first) last log
    end.

(** [poll] sets the events of all the descriptors. *)
Definition set_revents (v : list pollfd) (revents : Z -> Z) : list pollfd := map (fun x => mkPoll (po_fd x) (revents (po_fd x))) v.

(** One round; [inr]: the loop returns. *)
Definition server_round (s : server) (r : round) : option (server + server) :=
  match r_poll r with
  | PollFailed interrupted => Some (if interrupted then inl s else inr s)
  | Polled revents =>
      let v := set_revents (sv_fds s) revents in
      let? signal := v !! 1%nat in
      let shutting_down := sv_shutting_down s || readable signal in
      let? (v, last, log) := serve (length v) (r_request_ok r) v 2 (length v) (sv_log s) in
      let v := take last v in
      let? listening := v !! 0%nat in
      if readable listening && negb shutting_down then
        match r_accept r with
        | Some fd => Some (inl (mkServer (v ++ [mkPoll fd 0]) shutting_down log (sv_accepted s ++ [fd])))
        | None => Some (inl (mkServer v shutting_down log (sv_accepted s)))
        end
      else Some (inl (mkServer v shutting_down log (sv_accepted s)))
  end.

Definition start_server (socket sfd : Z) : server := mkServer [mkPoll socket 0; mkPoll sfd 0] false [] [].

(** How the loop stands: waiting in [poll], returned because [poll] failed, or ended, all
    descriptors but the listening one closed. *)
Inductive server_end := Waiting | PollError | Ended.

Definition close_all (s : server) : server :=
  mkServer (sv_fds s) (sv_shutting_down s) (sv_log s ++ map (fun x => Closed (po_fd x)) (drop 1 (sv_fds s))) (sv_accepted s).

Fixpoint event_loop (rounds : list round) (s : server) : option (server_end * server) :=
  if sv_shutting_down s && (length (sv_fds s) <=? 2)%nat then Some (Ended, close_all s)
  else
    match rounds with
    | [] => Some (Waiting, s)
    | r :: rounds' =>
        let? next := server_round s r in
        match next with
        | inl s' => event_loop rounds' s'
        | inr s' => Some (PollError, s')
        end
    end.

(** ** Theorems *)

Lemma swap_out {A} (pre m post : list A) x y : let v := pre ++ (x :: m ++ [y]) ++ post in
  v !! length pre = Some x /\ v !! (length pre + S (length m))%nat = Some y /\
  <[length pre := y]> (<[(length pre + S (length m))%nat := x]> v) = pre ++ (y :: m) ++ x :: post.
Proof.
  cbn zeta. split; [|split].
  - by rewrite lookup_app_r, Nat.sub_diag by done.
  - rewrite lookup_app_r by lia. replace (length pre + S (length m) - length pre)%nat with (S (length m)) by lia.
    change (((m ++ [y]) ++ post) !! length m = Some y). rewrite <- app_assoc. by rewrite lookup_app_r, Nat.sub_diag by done.
  - rewrite (insert_app_r_alt pre) by lia. replace (length pre + S (length m) - length pre)%nat with (S (length m)) by lia.
    rewrite (insert_app_r_alt pre) by lia. rewrite Nat.sub_diag. f_equal.
    change (y :: <[length m := x]> ((m ++ [y]) ++ post) = y :: m ++ x :: post). f_equal. rewrite <- app_assoc, insert_app_r_alt, Nat.sub_diag by done. reflexivity.
Qed.

(** The inner loop splits the connections: those that have events are served, each once, the others are kept. *)
Lemma serve_spec fuel request_ok pre mid post log : (length mid <= fuel)%nat ->
  exists kept handled post', serve fuel request_ok (pre ++ mid ++ post) (length pre) (length pre + length mid) log =
      Some (pre ++ kept ++ post', (length pre + length kept)%nat, log ++ mjoin (map (serve_one request_ok) handled)) /\
    mid ≡ₚ handled ++ kept /\ Forall (fun x => po_revents x <> 0) handled /\ Forall (fun x => po_revents x = 0) kept.
Proof.
  revert pre mid post log. induction fuel as [|fuel IH]; intros pre mid post log Hf.
  - destruct mid; [|cbn in Hf; lia]. exists [], [], post. cbn [length serve map mjoin list_join app]. rewrite Nat.add_0_r, Nat.eqb_refl, app_nil_r. done.
  - destruct mid as [|x mid].
    { exists [], [], post. cbn [length serve map mjoin list_join app]. rewrite Nat.add_0_r, Nat.eqb_refl, app_nil_r. done. }
    cbn [serve]. cbn [length] in *. destruct (Nat.eqb_spec (length pre) (length pre + S (length mid))); [lia|].
    assert (Hx : (pre ++ (x :: mid) ++ post) !! length pre = Some x) by (by rewrite lookup_app_r, Nat.sub_diag by done).
    rewrite Hx. destruct (Z.eqb_spec (po_revents x) 0) as [E|E]; cbn [negb].
    + destruct (IH (pre ++ [x]) mid post log ltac:(lia)) as (kept & handled & post' & Es & Hp & Hh & Hk). rewrite length_app in Es. cbn [length] in Es.
      replace (length pre + 1 + length mid)%nat with (length pre + S (length mid))%nat in Es by lia. rewrite Nat.add_1_r, <- app_assoc in Es. cbn [app] in Es |- *. rewrite Es.
      exists (x :: kept), handled, post'. split; [|split; [|split; [done|by constructor]]].
      * rewrite <- app_assoc. cbn [app length]. do 3 f_equal. lia.
      * rewrite Hp. by rewrite Permutation_middle.
    + destruct mid as [|y m _] using rev_ind.
      * cbn [length app] in *. replace (length pre + 1 - 1)%nat with (length pre) by lia. rewrite Hx. rewrite list_insert_insert_eq, list_insert_id by done.
        destruct (IH pre [] (x :: post) (log ++ serve_one request_ok x) ltac:(cbn; lia)) as (kept & handled & post' & Es & Hp & Hh & Hk). cbn [length app] in Es. rewrite Nat.add_0_r in Es.
        rewrite Es. exists kept, (x :: handled), post'. split; [by rewrite <- app_assoc|]. split; [by cbn [app]; rewrite <- Hp|]. split; [by constructor|done].
      * rewrite length_app in *. cbn [length] in *. destruct (swap_out pre m post x y) as (_ & Hy & Hs).
        replace (length pre + S (length m + 1) - 1)%nat with (length pre + S (length m))%nat by lia. rewrite Hy, Hs.
        destruct (IH pre (y :: m) (x :: post) (log ++ serve_one request_ok x) ltac:(cbn; lia)) as (kept & handled & post' & Es & Hp & Hh & Hk). cbn [length] in Es. rewrite Es.
        exists kept, (x :: handled), post'. split; [by cbn [map mjoin list_join]; rewrite <- app_assoc|]. split; [cbn [app]; rewrite <- Hp; by rewrite <- (Permutation_cons_append m y)|]. split; [by constructor|done].
Qed.

(** The connections that were closed, or answered. *)
Definition closed_fds (log : list server_event) : list Z := omap (fun e => match e with Closed fd => Some fd | Replied _ => None end) log.
Definition replied_fds (log : list server_event) : list Z := omap (fun e => match e with Replied fd => Some fd | Closed _ => None end) log.

Definition open_fds (s : server) : list Z := map po_fd (drop 2 (sv_fds s)).

Lemma serve_log_cons ok x handled : mjoin (map (serve_one ok) (x :: handled)) = serve_one ok x ++ mjoin (map (serve_one ok) handled).
Proof. reflexivity. Qed.

Lemma closed_serve ok handled : closed_fds (mjoin (map (serve_one ok) handled)) = map po_fd handled.
Proof.
  induction handled as [|x handled IH]; [done|]. rewrite serve_log_cons. unfold closed_fds in *. rewrite omap_app. cbn [map]. rewrite IH. unfold serve_one. by destruct (_ && _).
Qed.

Lemma replied_serve ok handled : replied_fds (mjoin (map (serve_one ok) handled)) = map po_fd (filter (fun x => readable x && ok (po_fd x) = true) handled).
Proof.
  induction handled as [|x handled IH]; [done|]. rewrite serve_log_cons. unfold replied_fds in *. rewrite omap_app, IH, filter_cons. unfold serve_one.
  destruct (readable x && ok (po_fd x)); [by rewrite decide_True|by rewrite decide_False].
Qed.

(** What one round does: the connections that have events are answered, when their request is
    received, and closed; the others stay; then a new one may come. *)
Lemma server_round_spec s r revents sock sig conns : sv_fds s = sock :: sig :: conns -> r_poll r = Polled revents ->
  exists kept handled new v0 v1, server_round s r = Some (inl (mkServer (v0 :: v1 :: kept ++ map (fun fd => mkPoll fd 0) new)
      (sv_shutting_down s || readable (mkPoll (po_fd sig) (revents (po_fd sig)))) (sv_log s ++ mjoin (map (serve_one (r_request_ok r)) handled)) (sv_accepted s ++ new))) /\
    set_revents conns revents ≡ₚ handled ++ kept /\ Forall (fun x => po_revents x <> 0) handled /\ Forall (fun x => po_revents x = 0) kept /\
    po_fd v0 = po_fd sock /\ po_fd v1 = po_fd sig /\ (length new <= 1)%nat.
Proof.
  intros Hs Hr. unfold server_round. rewrite Hr, Hs. unfold set_revents at 1 2 3 4. cbn [map]. set (v0 := mkPoll (po_fd sock) (revents (po_fd sock))). set (v1 := mkPoll (po_fd sig) (revents (po_fd sig))).
  change (map (fun x => mkPoll (po_fd x) (revents (po_fd x))) conns) with (set_revents conns revents). set (mid := set_revents conns revents). cbn [lookup list_lookup].
  destruct (serve_spec (length (v0 :: v1 :: mid)) (r_request_ok r) [v0; v1] mid [] (sv_log s)) as (kept & handled & post & Es & Hp & Hh & Hk); [cbn; lia|].
  rewrite app_nil_r in Es. cbn [app length] in Es |- *. replace (2 + length mid)%nat with (S (S (length mid))) in Es by lia. rewrite Es.
  assert (Ht : take (2 + length kept) (v0 :: v1 :: kept ++ post) = v0 :: v1 :: kept) by (cbn [Nat.add take]; by rewrite take_app_length). rewrite Ht. cbn [lookup list_lookup].
  destruct (readable v0 && _); [destruct (r_accept r) as [fd|]|]; [exists kept, handled, [fd], v0, v1|exists kept, handled, [], v0, v1|exists kept, handled, [], v0, v1];
    (split; [cbn [map app]; by rewrite ?app_nil_r|]); repeat (split; [done|]); cbn; lia.
Qed.

Record server_inv (socket sfd : Z) (s : server) : Prop := {
  si_fds : exists sock sig conns, sv_fds s = sock :: sig :: conns /\ po_fd sock = socket /\ po_fd sig = sfd;
  si_accepted : sv_accepted s ≡ₚ closed_fds (sv_log s) ++ open_fds s;
  si_replied : replied_fds (sv_log s) ⊆+ closed_fds (sv_log s)
}.

Lemma server_round_inv socket sfd s r : server_inv socket sfd s ->
  exists next, server_round s r = Some next /\ server_inv socket sfd (match next with inl s' => s' | inr s' => s' end).
Proof.
  intros Hi. pose proof Hi as [(sock & sig & conns & Hs & H0 & H1) Ha Hr]. destruct (r_poll r) as [i|revents] eqn:Er.
  - unfold server_round. rewrite Er. destruct i; by eexists.
  - destruct (server_round_spec s r revents sock sig conns Hs Er) as (kept & handled & new & v0 & v1 & -> & Hp & _ & _ & E0 & E1 & _). eexists. split; [done|]. split.
    + exists v0, v1, (kept ++ map (fun fd => mkPoll fd 0) new). by rewrite E0, E1.
    + cbn [sv_accepted sv_log sv_fds open_fds]. unfold open_fds in *. rewrite Hs in Ha. cbn [sv_fds drop] in Ha |- *. unfold closed_fds in *. rewrite omap_app.
      change (omap _ (mjoin _)) with (closed_fds (mjoin (map (serve_one (r_request_ok r)) handled))). rewrite closed_serve. rewrite Ha. rewrite !drop_0, map_app, map_map, map_id.
      assert (Hm : map po_fd conns ≡ₚ map po_fd handled ++ map po_fd kept).
      { rewrite <- map_app, <- Hp. unfold set_revents. by rewrite map_map. }
      rewrite Hm. by rewrite <- !app_assoc.
    + cbn [sv_log]. unfold replied_fds, closed_fds in *. rewrite !omap_app. apply submseteq_app; [done|].
      change (replied_fds (mjoin (map (serve_one (r_request_ok r)) handled)) ⊆+ closed_fds (mjoin (map (serve_one (r_request_ok r)) handled))).
      rewrite closed_serve, replied_serve. apply sublist_submseteq, fmap_sublist, sublist_filter.
Qed.

Lemma event_loop_inv socket sfd rounds s : server_inv socket sfd s ->
  exists e s', event_loop rounds s = Some (e, s') /\
    match e with Waiting | PollError => server_inv socket sfd s' | Ended => closed_fds (sv_log s') ≡ₚ sv_accepted s' ++ [sfd] /\ replied_fds (sv_log s') ⊆+ sv_accepted s' end.
Proof.
  revert s. induction rounds as [|r rounds IH]; intros s Hi; cbn [event_loop].
  all: destruct (sv_shutting_down s && (length (sv_fds s) <=? 2)%nat) eqn:Ee.
  1,3: apply andb_prop in Ee as [_ Hl%Nat.leb_le]; exists Ended, (close_all s); split; [done|]; destruct Hi as [(sock & sig & conns & Hs & H0 & H1) Ha Hr];
    rewrite Hs in Hl; cbn in Hl; assert (conns = []) as -> by (destruct conns; [done|cbn in Hl; lia]);
    unfold open_fds in Ha; rewrite Hs in Ha; cbn in Ha; rewrite app_nil_r in Ha;
    unfold close_all, closed_fds, replied_fds in *; cbn [sv_log sv_accepted]; rewrite Hs, !omap_app; cbn; rewrite H1, app_nil_r; split; [by rewrite Ha|by rewrite Ha].
  - by exists Waiting, s.
  - destruct (server_round_inv socket sfd s r Hi) as (next & -> & Hn). destruct next as [s'|s']; [by apply IH|by exists PollError, s'].
Qed.

(** C8: whatever the kernel reports and whoever connects, in any order: the server never touches a
    descriptor outside its table, and every connection it accepted was answered at most once.
    While the loop runs, and when it stops because [poll] failed, every accepted connection is
    either still open or was closed once (after a failure of [poll] the open ones are left open,
    [poll_error_leaves_open]); when the loop ends after the request to stop, every accepted
    connection and the signal descriptor are closed, once each. *)
Theorem server_serves_each_once socket sfd rounds :
  exists e s', event_loop rounds (start_server socket sfd) = Some (e, s') /\ replied_fds (sv_log s') ⊆+ sv_accepted s' /\
    match e with
    | Waiting | PollError => sv_accepted s' ≡ₚ closed_fds (sv_log s') ++ open_fds s'
    | Ended => closed_fds (sv_log s') ≡ₚ sv_accepted s' ++ [sfd]
    end.
Proof.
  destruct (event_loop_inv socket sfd rounds (start_server socket sfd)) as (e & s' & E & H).
  { split; [by exists (mkPoll socket 0), (mkPoll sfd 0), []|done|done]. }
  assert (Hw : server_inv socket sfd s' -> replied_fds (sv_log s') ⊆+ sv_accepted s').
  { intros [_ Ha Hr]. rewrite Ha. etrans; [exact Hr|]. apply submseteq_inserts_r. done. }
  exists e, s'. split; [done|]. destruct e; [split; [by apply Hw|apply H]|split; [by apply Hw|apply H]|]. by destruct H.
Qed.

(** Two clients; the first sends its request while the second connects, then the worker stops and
    the second hangs up. *)
Definition demo_rounds : list round :=
  let on fds r : Z -> Z := fun fd => if bool_decide (fd ∈ fds) then r else 0 in
  [mkRound (Polled (on [3] 1)) (fun _ => true) (Some 10); mkRound (Polled (on [3; 10] 1)) (fun _ => true) (Some 11);
   mkRound (PollFailed true) (fun _ => true) None; mkRound (Polled (on [4] 1)) (fun _ => true) None; mkRound (Polled (on [11] 16)) (fun _ => true) None].

Example demo_server_ends :
  option_map (fun '(e, s) => (e, sv_log s)) (event_loop demo_rounds (start_server 3 4)) = Some (Ended, [Replied 10; Closed 10; Closed 11; Closed 4]).
Proof. vm_compute. reflexivity. Qed.

(** When [poll] fails, the loop returns with the connections and the signal descriptor open. *)
Example poll_error_leaves_open :
  option_map (fun '(e, s) => (e, open_fds s, sv_log s))
    (event_loop [mkRound (Polled (fun _ => 1)) (fun _ => true) None; mkRound (PollFailed false) (fun _ => true) None] (mkServer [mkPoll 3 0; mkPoll 4 0; mkPoll 10 0] false [] [10])) =
  Some (Ended, [], [Replied 10; Closed 10; Closed 4]) /\
  option_map (fun '(e, s) => (e, open_fds s, sv_log s))
    (event_loop [mkRound (PollFailed false) (fun _ => true) None] (mkServer [mkPoll 3 0; mkPoll 4 0; mkPoll 10 0] false [] [10])) = Some (PollError, [10], []).
Proof. vm_compute. done. Qed.
