(* ===== verification/MainLoopProofs.v ===== *)
(** * The main loop: invariants of the ordered processing

    The contents of the rings and of the priority queue are followed by a ghost state:
    for every ring the events that can be read, the events that were read and are in
    the queue, and all the events it ever held.  Reads, releases and the steps of the
    other side of the rings keep the two in correspondence. *)

From stdpp Require Import sorting.
From S2P Require Import Prelude RingBuffer MpscRing MpscSystem PerfRing PerfSample EventRings Ddres Clocks Watcher MainLoop.

(** ** The interfaces' laws *)

(** A priority queue: [pq_ok] is its internal invariant.  The last law is the one the
    loop needs when it enqueues the next event of a ring before it pops the current
    one: an element that is not smaller does not displace the top. *)
Class PriorityQueueLaws (Q : Type) `{PriorityQueue Q} := {
  pq_ok : Q -> Prop;
  pq_elements : Q -> list EventWrapper;
  pq_empty_ok : pq_ok pq_empty /\ pq_elements pq_empty = [];
  pq_top_none q : pq_ok q -> pq_top q = None -> pq_elements q = [];
  pq_top_min q e : pq_ok q -> pq_top q = Some e ->
    e ∈ pq_elements q /\ forall x, x ∈ pq_elements q -> ew_timestamp e <= ew_timestamp x;
  pq_push_elements q e : pq_ok q -> pq_ok (pq_push e q) /\ pq_elements (pq_push e q) ≡ₚ e :: pq_elements q;
  pq_pop_elements q e : pq_ok q -> pq_top q = Some e -> pq_ok (pq_pop q) /\ e :: pq_elements (pq_pop q) ≡ₚ pq_elements q;
  pq_push_keeps_top q e x : pq_ok q -> pq_top q = Some e -> ew_timestamp e <= ew_timestamp x -> pq_top (pq_push x q) = Some e
}.

(** The worker handles the acceptable events of a watcher, in every state it can be in;
    it can wait. *)
Class WorkerLaws (E W : Type) `{WorkerOps E W} `{LoopEnv E} := {
  worker_ok : E -> W -> Prop;
  acceptable : nat -> list Z -> Prop;
  worker_ok_step e pes w : worker_ok e w -> worker_ok (fst (env_step e pes)) w;
  process_event_total e w ev k : worker_ok e w -> acceptable k ev ->
    exists r w', process_event e w ev k = Some (r, w') /\ worker_ok e w'
}.

Definition upd {A} (f : nat -> A) (i : nat) (x : A) : nat -> A := fun j => if decide (j = i) then x else f j.

Lemma upd_eq {A} (f : nat -> A) i x : upd f i x i = x.
Proof. unfold upd. by rewrite decide_True. Qed.
Lemma upd_ne {A} (f : nat -> A) i j x : j <> i -> upd f i x j = f j.
Proof. intros. unfold upd. by rewrite decide_False. Qed.

Section Proofs.

Context {Q E W : Type} `{PriorityQueueLaws Q} `{WorkerLaws E W}.

(** The rings' watchers and the watchers' sample types do not change. *)
Context (sample_types : list Z) (wps : list nat) (types : list RingBufferType).

Abbreviation state := (LoopState Q E W).
Abbreviation ev_t := (list Z).

(** The time of an event of ring [i], as the loop computes it. *)
Definition ev_time (i : nat) (ev : ev_t) : option Z :=
  let? wp := wps !! i in
  let? mask := sample_types !! wp in
  let? t := hdr_time ev mask in Some (perf_clock_time_point_from_timestamp t).

(** An event of ring [i] whose time can be read and that the worker handles. *)
Definition timed (i : nat) (ev : ev_t) : Prop :=
  is_Some (ev_time i ev) /\ forall k, wps !! i = Some k -> acceptable k ev.
Definition time (i : nat) (ev : ev_t) : Z := default 0 (ev_time i ev).

Definition sorted_by_time (i : nat) (evs : list ev_t) : Prop := StronglySorted (fun a b => time i a <= time i b) evs.

(** What the other side of the rings does: in a step it appends events to the rings,
    which can be timed and handled; to a perf ring it appends in the order of time, where
    [env_floor] is the time up to which the events of the ring were written. *)
Class LoopEnvLaws := {
  env_new : E -> list PEvent -> nat -> list ev_t;
  env_floor : E -> nat -> Z;
  env_log : E -> nat -> list ev_t;          (* everything written to ring [i] so far *)
  env_log_step e pes i : env_log (fst (env_step e pes)) i = env_log e i ++ env_new e pes i;
  env_static e pes : let pes' := snd (env_step e pes) in
    map watcher_pos pes' = map watcher_pos pes /\
    map (fun pe => rb_type (pe_rb pe)) pes' = map (fun pe => rb_type (pe_rb pe)) pes;
  env_appends e pes i pe pe' p h : pes !! i = Some pe -> snd (env_step e pes) !! i = Some pe' ->
    ring_holds (pe_rb pe) p h -> ring_holds (pe_rb pe') (p ++ env_new e pes i) h;
  env_timed e pes i : Forall (timed i) (env_new e pes i);
  env_sorted e pes i : types !! i = Some kPerfRingBuffer ->
    let e' := fst (env_step e pes) in
    env_floor e i <= env_floor e' i /\ sorted_by_time i (env_new e pes i) /\
    Forall (fun ev => env_floor e i <= time i ev <= env_floor e' i) (env_new e pes i)
}.
Context `{!LoopEnvLaws}.

(** ** Ghost state *)

Record ghost := mkG {
  pend : nat -> list ev_t;                (* can be read *)
  held : nat -> held_events               (* read, in the queue *)
}.

Definition wrap (i : nat) (x : ConstBuffer * ev_t) : EventWrapper := mkEW (fst x) (time i (snd x)) i.

Definition queued (hs : nat -> held_events) : list EventWrapper :=
  concat (map (fun i => map (wrap i) (hs i)) (seq 0 (length wps))).

Definition events_of (i : nat) (l : list (nat * ev_t)) : list ev_t :=
  omap (fun x => if decide (fst x = i) then Some (snd x) else None) l.

(** The events of a ring can be timed and handled; those of a perf ring are in the order of time. *)
Definition events_ok (floor : Z) (i : nat) (evs : list ev_t) : Prop :=
  Forall (timed i) evs /\
  (types !! i = Some kPerfRingBuffer -> sorted_by_time i evs /\ Forall (fun ev => time i ev <= floor) evs).

(** The element [w] of the queue, whose event was already released, is not after what
    its perf ring still holds. *)
Definition released_ok (floor : Z) (w : EventWrapper) (evs : list ev_t) : Prop :=
  types !! ew_idx w = Some kPerfRingBuffer ->
  ew_timestamp w <= floor /\ Forall (fun ev => ew_timestamp w <= time (ew_idx w) ev) evs.

(** The events of ring [i] that were not processed. *)
Definition unprocessed (g : ghost) (i : nat) : list ev_t := map snd (held g i) ++ pend g i.

(** The rings and the ghost contents agree; [x] are elements of the queue whose event
    was already released. *)
Record inv (x : list EventWrapper) (g : ghost) (st : state) : Prop := {
  inv_wps : map watcher_pos (ls_pes st) = wps;
  inv_types : map (fun pe => rb_type (pe_rb pe)) (ls_pes st) = types;
  inv_rings : forall i pe, ls_pes st !! i = Some pe -> ring_holds (pe_rb pe) (pend g i) (held g i);
  inv_events : forall i, (i < length wps)%nat -> events_ok (env_floor (ls_env st) i) i (unprocessed g i);
  inv_released : Forall (fun w => released_ok (env_floor (ls_env st) (ew_idx w)) w (unprocessed g (ew_idx w))) x;
  inv_pq : pq_ok (ls_queue st);
  inv_queue : pq_elements (ls_queue st) ≡ₚ x ++ queued (held g);
  inv_worker : worker_ok (ls_env st) (ls_worker st)
}.

(** Every event that was ever in ring [i] was processed, or is in the queue, or can be
    read: exactly once each, and in the order of the ring if it is a perf ring. *)
Definition accounted (e : E) (g : ghost) (l : list (nat * ev_t)) : Prop :=
  forall i, (i < length wps)%nat ->
    if decide (types !! i = Some kPerfRingBuffer)
    then events_of i l ++ unprocessed g i = env_log e i
    else events_of i l ++ unprocessed g i ≡ₚ env_log e i.

(** ** Small steps on rings, queue and ghost state *)

Definition grow (g : ghost) (st : state) : ghost :=
  let new := env_new (ls_env st) (ls_pes st) in
  mkG (fun i => pend g i ++ new i) (held g).

Definition take_event (g : ghost) (i : nat) (b : ConstBuffer) (ev : ev_t) (p : list ev_t) : ghost :=
  mkG (upd (pend g) i p) (upd (held g) i (held g i ++ [(b, ev)])).

(** The other side acts; an event is taken out of a ring and enqueued; a ring is
    touched without effect on its contents. *)
Inductive micro : ghost * state -> ghost * state -> Prop :=
| micro_tick g st : micro (g, st) (grow g st, tick st)
| micro_read g st i pe b ev p rb :
    ls_pes st !! i = Some pe -> pend g i = ev :: p -> rb_type rb = rb_type (pe_rb pe) ->
    ring_holds rb p (held g i ++ [(b, ev)]) ->
    micro (g, st) (take_event g i b ev p,
                   set_queue (set_ring st i rb) (pq_push (wrap i (b, ev)) (ls_queue st)))
| micro_idle g st i pe rb :
    ls_pes st !! i = Some pe -> rb_type rb = rb_type (pe_rb pe) -> ring_holds rb (pend g i) (held g i) ->
    micro (g, st) (g, set_ring st i rb).

(** ** The queue's contents *)

Lemma queued_split hs i : (i < length wps)%nat ->
  exists l1 l2, (forall h, queued (upd hs i h) = l1 ++ map (wrap i) h ++ l2).
Proof.
  intros Hi. exists (concat (map (fun j => map (wrap j) (hs j)) (seq 0 i))),
    (concat (map (fun j => map (wrap j) (hs j)) (seq (S i) (length wps - S i)))).
  intros h. unfold queued. replace (length wps) with (i + (1 + (length wps - S i)))%nat at 1 by lia.
  rewrite !seq_app, !map_app, !concat_app. replace (0 + i + 1)%nat with (S i) by lia.
  cbn [seq map concat Nat.add]. rewrite upd_eq, app_nil_r. f_equal; [|f_equal]; f_equal; apply map_ext_in; intros j Hj; apply in_seq in Hj; rewrite upd_ne; try done; lia.
Qed.

Lemma queued_same hs i : queued (upd hs i (hs i)) = queued hs.
Proof. unfold queued. f_equal. apply map_ext. intros j. f_equal. unfold upd. by case_decide; subst. Qed.

Lemma queued_add hs i x : (i < length wps)%nat -> queued (upd hs i (hs i ++ [x])) ≡ₚ wrap i x :: queued hs.
Proof.
  intros Hi. destruct (queued_split hs i Hi) as (l1 & l2 & Hs). rewrite <- (queued_same hs i), !Hs, map_app. cbn [map].
  rewrite (app_assoc l1 (map (wrap i) (hs i)) l2), Permutation_middle, <- !app_assoc. done.
Qed.

Lemma queued_remove hs i h1 x h2 : (i < length wps)%nat -> hs i = h1 ++ x :: h2 ->
  queued hs ≡ₚ wrap i x :: queued (upd hs i (h1 ++ h2)).
Proof.
  intros Hi Eh. destruct (queued_split hs i Hi) as (l1 & l2 & Hs). rewrite <- (queued_same hs i), !Hs, Eh, !map_app. cbn [map].
  rewrite <- app_assoc, (app_assoc l1), <- app_comm_cons, <- Permutation_middle. by rewrite <- !app_assoc.
Qed.

Lemma elem_of_queued hs w : w ∈ queued hs <-> exists i x, (i < length wps)%nat /\ x ∈ hs i /\ w = wrap i x.
Proof.
  unfold queued. rewrite list_elem_of_In, in_concat. split.
  - intros (l & Hl & Hw). apply in_map_iff in Hl as (i & <- & Hi%in_seq). apply in_map_iff in Hw as (x & <- & Hx).
    exists i, x. split_and!; [lia|by apply list_elem_of_In|done].
  - intros (i & x & Hi & Hx & ->). exists (map (wrap i) (hs i)).
    split; apply in_map_iff; [exists i; split; [done|apply in_seq; lia]|exists x; split; [done|by apply list_elem_of_In]].
Qed.

(** ** The small steps keep the invariant *)

Lemma tick_queue (st : state) : ls_queue (tick st) = ls_queue st.
Proof. unfold tick. by destruct (env_step _ _). Qed.

Lemma tick_env (st : state) : ls_env (tick st) = fst (env_step (ls_env st) (ls_pes st)).
Proof. unfold tick. by destruct (env_step _ _). Qed.

Lemma inv_length x g st : inv x g st -> length (ls_pes st) = length wps.
Proof. intros Hi. by rewrite <- (inv_wps _ _ _ Hi), length_map. Qed.

Lemma inv_lookup x g st i : inv x g st -> (i < length wps)%nat ->
  exists pe, ls_pes st !! i = Some pe /\ wps !! i = Some (watcher_pos pe) /\ types !! i = Some (rb_type (pe_rb pe)).
Proof.
  intros Hi Hlt. rewrite <- (inv_length _ _ _ Hi) in Hlt. apply lookup_lt_is_Some_2 in Hlt as [pe Hpe].
  exists pe. rewrite <- (inv_wps _ _ _ Hi), <- (inv_types _ _ _ Hi), !list_lookup_fmap, Hpe. done.
Qed.

Lemma inv_index x g st i pe : inv x g st -> ls_pes st !! i = Some pe -> (i < length wps)%nat.
Proof. intros Hi Hpe. rewrite <- (inv_length _ _ _ Hi). by eapply lookup_lt_Some. Qed.

Lemma inv_lookup_types x g st i pe : inv x g st -> ls_pes st !! i = Some pe ->
  wps !! i = Some (watcher_pos pe) /\ types !! i = Some (rb_type (pe_rb pe)).
Proof.
  intros Hi Hpe. destruct (inv_lookup _ _ _ i Hi) as (pe' & Hpe' & ? & ?); [by eapply inv_index|]. by simplify_eq.
Qed.

Lemma alter_static (pes : list PEvent) i pe rb : pes !! i = Some pe -> rb_type rb = rb_type (pe_rb pe) ->
  map watcher_pos (alter (fun pe => set_rb pe rb) i pes) = map watcher_pos pes /\
  map (fun pe => rb_type (pe_rb pe)) (alter (fun pe => set_rb pe rb) i pes) = map (fun pe => rb_type (pe_rb pe)) pes.
Proof.
  intros Hi Ht. revert i Hi. induction pes as [|x pes IH]; intros [|i] Hi; simplify_eq/=; [by rewrite Ht|].
  destruct (IH i Hi) as [E1 E2]. split; by f_equal.
Qed.

(** Changing one ring and its ghost contents. *)
Lemma inv_set_ring x x' g g' st i pe rb q :
  inv x g st -> ls_pes st !! i = Some pe -> rb_type rb = rb_type (pe_rb pe) ->
  (forall j, j <> i -> pend g' j = pend g j /\ held g' j = held g j) ->
  ring_holds rb (pend g' i) (held g' i) ->
  events_ok (env_floor (ls_env st) i) i (unprocessed g' i) ->
  Forall (fun w => released_ok (env_floor (ls_env st) (ew_idx w)) w (unprocessed g' (ew_idx w))) x' ->
  pq_ok q -> pq_elements q ≡ₚ x' ++ queued (held g') ->
  inv x' g' (set_queue (set_ring st i rb) q).
Proof.
  intros Hi Hpe Hty Hne Hrb Hev Hrel Hok Hq. destruct (alter_static _ _ _ _ Hpe Hty) as [E1 E2].
  split; cbn [set_queue set_ring ls_pes ls_queue ls_worker ls_env].
  - rewrite E1. apply (inv_wps _ _ _ Hi).
  - rewrite E2. apply (inv_types _ _ _ Hi).
  - intros j pe' Hj. destruct (decide (j = i)) as [->|Hji].
    + rewrite list_lookup_alter_eq, Hpe in Hj. simplify_eq/=. done.
    + rewrite list_lookup_alter_ne in Hj by done. destruct (Hne j Hji) as [-> ->]. by apply (inv_rings _ _ _ Hi).
  - intros j Hj. destruct (decide (j = i)) as [->|Hji]; [done|]. unfold unprocessed. destruct (Hne j Hji) as [-> ->].
    by apply (inv_events _ _ _ Hi).
  - done.
  - done.
  - done.
  - apply (inv_worker _ _ _ Hi).
Qed.

(** What a step of the other side appends keeps the order of the ring. *)
Lemma events_ok_grow e pes i evs : events_ok (env_floor e i) i evs ->
  events_ok (env_floor (fst (env_step e pes)) i) i (evs ++ env_new e pes i).
Proof.
  intros [Htm Hperf]. split; [apply Forall_app; split; [done|apply env_timed]|]. intros Ht.
  destruct (Hperf Ht) as [Hso Hfl]. destruct (env_sorted e pes i Ht) as (Hle & Hson & Hb). split.
  - apply StronglySorted_app_2; [|done..]. intros x y Hx Hy. rewrite Forall_forall in Hfl, Hb.
    specialize (Hfl _ Hx). specialize (Hb _ Hy). lia.
  - apply Forall_app. split; eapply Forall_impl; [exact Hfl| |exact Hb|]; cbn; intros; lia.
Qed.

Lemma released_ok_grow e pes w evs : released_ok (env_floor e (ew_idx w)) w evs ->
  released_ok (env_floor (fst (env_step e pes)) (ew_idx w)) w (evs ++ env_new e pes (ew_idx w)).
Proof.
  intros Hr Ht. destruct (Hr Ht) as [Hfl Hall]. destruct (env_sorted e pes (ew_idx w) Ht) as (Hle & _ & Hb). split; [lia|].
  apply Forall_app. split; [done|]. eapply Forall_impl; [exact Hb|]. cbn. intros. lia.
Qed.

Lemma inv_tick x g st : inv x g st -> inv x (grow g st) (tick st).
Proof.
  intros Hi. unfold tick, grow. pose proof (env_static (ls_env st) (ls_pes st)) as [E1 E2].
  pose proof (env_appends (ls_env st) (ls_pes st)) as Happ. pose proof (events_ok_grow (ls_env st) (ls_pes st)) as Hev.
  pose proof (released_ok_grow (ls_env st) (ls_pes st)) as Hrel.
  pose proof (worker_ok_step (ls_env st) (ls_pes st) _ (inv_worker _ _ _ Hi)) as Hwk.
  destruct (env_step (ls_env st) (ls_pes st)) as [e pes']. cbn [fst snd] in *.
  split; unfold unprocessed; cbn [ls_pes ls_queue ls_worker ls_env pend held].
  - by rewrite E1, (inv_wps _ _ _ Hi).
  - by rewrite E2, (inv_types _ _ _ Hi).
  - intros i pe' Hpe'. assert (i < length wps)%nat as Hlt.
    { apply lookup_lt_Some in Hpe'. rewrite <- (inv_wps _ _ _ Hi), <- E1, length_map. done. }
    destruct (inv_lookup _ _ _ i Hi Hlt) as (pe & Hpe & _). eapply Happ; [done..|]. by apply (inv_rings _ _ _ Hi).
  - intros i Hlt. rewrite app_assoc. apply Hev. by apply (inv_events _ _ _ Hi).
  - eapply Forall_impl; [exact (inv_released _ _ _ Hi)|]. cbn. intros w Hw. rewrite app_assoc. by apply Hrel.
  - apply (inv_pq _ _ _ Hi).
  - apply (inv_queue _ _ _ Hi).
  - exact Hwk.
Qed.

Lemma perf_held_nil rb p h b ev : rb_type rb = kPerfRingBuffer -> ring_holds rb p (h ++ [(b, ev)]) -> h = [].
Proof. unfold ring_holds. intros -> [_ Hh]. destruct h as [|[] [|]]; [done| |]; destruct Hh. Qed.

Lemma take_event_unprocessed g i b ev p j : pend g i = ev :: p -> unprocessed (take_event g i b ev p) j = unprocessed g j.
Proof.
  intros Hp. unfold unprocessed. cbn [take_event pend held]. destruct (decide (j = i)) as [->|Hne].
  - rewrite !upd_eq, Hp, map_app, <- app_assoc. done.
  - by rewrite !upd_ne.
Qed.

Lemma inv_micro x s s' : micro s s' -> inv x (fst s) (snd s) -> inv x (fst s') (snd s').
Proof.
  intros Hm. destruct Hm as [g st|g st i pe b ev p rb Hpe Hp Hty Hrb|g st i pe rb Hpe Hty Hrb]; cbn [fst snd]; intros Hi.
  - by apply inv_tick.
  - pose proof (inv_index _ _ _ _ _ Hi Hpe) as Hlt.
    destruct (pq_push_elements (ls_queue st) (wrap i (b, ev)) (inv_pq _ _ _ Hi)) as [Hok Hel].
    eapply inv_set_ring; [done..| | | | |done|]; rewrite ?take_event_unprocessed by done.
    + intros j Hj. cbn [take_event pend held]. by rewrite !upd_ne.
    + cbn [take_event pend held]. by rewrite !upd_eq.
    + by apply (inv_events _ _ _ Hi).
    + eapply Forall_impl; [exact (inv_released _ _ _ Hi)|]. cbv beta. intros w Hw. by rewrite take_event_unprocessed.
    + rewrite Hel, (inv_queue _ _ _ Hi). cbn [take_event held]. rewrite queued_add by done. by rewrite Permutation_middle.
  - pose proof (inv_index _ _ _ _ _ Hi Hpe) as Hlt.
    change (set_ring st i rb) with (set_queue (set_ring st i rb) (ls_queue st)).
    eapply inv_set_ring; [done..| | |exact (inv_pq _ _ _ Hi)|exact (inv_queue _ _ _ Hi)].
    + by apply (inv_events _ _ _ Hi).
    + exact (inv_released _ _ _ Hi).
Qed.

Lemma accounted_micro l s s' x : micro s s' -> inv x (fst s) (snd s) ->
  accounted (ls_env (snd s)) (fst s) l -> accounted (ls_env (snd s')) (fst s') l.
Proof.
  intros Hm Hi Ha i Hlt. specialize (Ha i Hlt).
  destruct Hm as [g st|g st j pe b ev p rb Hpe Hp Hty Hrb|g st j pe rb Hpe Hty Hrb]; cbn [fst snd] in *; [| |done].
  - rewrite tick_env, env_log_step. unfold unprocessed in *. cbn [grow pend held].
    rewrite (app_assoc (map _ _)), (app_assoc (events_of i l)). by case_decide; rewrite <- Ha.
  - by rewrite take_event_unprocessed.
Qed.

Lemma micro_keeps s s' : micro s s' ->
  ls_worker (snd s') = ls_worker (snd s) /\ ls_processed (snd s') = ls_processed (snd s).
Proof.
  intros Hm. destruct Hm as [g st| |]; try done. cbn [snd]. unfold tick. by destruct (env_step _ _).
Qed.

Lemma steps_inv x l s s' : rtc micro s s' -> inv x (fst s) (snd s) -> accounted (ls_env (snd s)) (fst s) l ->
  inv x (fst s') (snd s') /\ accounted (ls_env (snd s')) (fst s') l /\
  ls_worker (snd s') = ls_worker (snd s) /\ ls_processed (snd s') = ls_processed (snd s).
Proof.
  induction 1 as [s|s1 s2 s3 H12 _ IH]; [done|]. intros Hi Ha.
  destruct (micro_keeps _ _ H12) as [E1 E2]. destruct IH as (? & ? & -> & ->);
    [by eapply inv_micro|by eapply accounted_micro|by rewrite E1, E2].
Qed.

(** ** Reading the rings *)

Lemma enqueue_spec x g st i pe rb b ev p :
  inv x g st -> ls_pes st !! i = Some pe -> pend g i = ev :: p -> deref rb b = Some ev ->
  enqueue sample_types st i pe rb b
    = Some (time i ev, set_queue (set_ring st i rb) (pq_push (wrap i (b, ev)) (ls_queue st))).
Proof.
  intros Hi Hpe Hp Hd. unfold enqueue. rewrite Hd. destruct (inv_lookup_types _ _ _ _ _ Hi Hpe) as [Hw _].
  destruct (inv_events _ _ _ Hi i (inv_index _ _ _ _ _ Hi Hpe)) as [Htm _]. unfold unprocessed in Htm.
  rewrite Hp, Forall_app in Htm. destruct Htm as [_ Htm]. inversion_clear Htm as [|? ? [[t Ht] _] _]. unfold wrap, time. cbn [fst snd]. rewrite Ht. cbn [default].
  unfold ev_time in Ht. rewrite Hw in Ht. unfold event_time. rewrite Ht. done.
Qed.

(** Reading an idle perf ring: the oldest event goes to the queue, unless there is
    none or its copy could not be allocated. *)
Lemma read_perf_spec x g st i pe :
  inv x g st -> ls_pes st !! i = Some pe -> rb_type (pe_rb pe) = kPerfRingBuffer -> held g i = [] ->
  exists b rb g' st', perf_rb_read_event (pe_rb pe) (memalign_ok (ls_env st)) = Some (b, rb) /\
    micro (g, st) (g', st') /\ ls_env st' = ls_env st /\
    match b with
    | Some b => exists ev p, pend g i = ev :: p /\ enqueue sample_types st i pe rb b = Some (time i ev, st') /\
                  g' = take_event g i b ev p /\ ls_queue st' = pq_push (wrap i (b, ev)) (ls_queue st)
    | None => st' = set_ring st i rb /\ g' = g /\ (pend g i = [] \/ memalign_ok (ls_env st) = false)
    end.
Proof.
  intros Hi Hpe Hty Hh. pose proof (inv_rings _ _ _ Hi i pe Hpe) as Hr. unfold ring_holds in Hr. rewrite Hty, Hh in Hr.
  destruct (pend g i) as [|ev p] eqn:Ep.
  - pose proof Hr as [Hpi _]. rewrite perf_read_empty by done. exists None, (pe_rb pe), g, (set_ring st i (pe_rb pe)). split; [done|]. split; [|by auto].
    eapply micro_idle; [done..|]. rewrite Ep, Hh. unfold ring_holds. by rewrite Hty.
  - destruct (perf_holds_read _ _ _ (memalign_ok (ls_env st)) Hr) as (b & rb & -> & Hty' & Hb).
    destruct b as [b|].
    + destruct Hb as [Hd Hrb]. eexists (Some b), rb, (take_event g i b ev p), _. split; [done|]. split.
      * eapply micro_read; [done..|]. rewrite Hh. unfold ring_holds. by rewrite Hty', Hty.
      * split; [done|]. exists ev, p. split; [done|]. split; [by eapply enqueue_spec|done].
    + destruct Hb as [Hm Hrb]. exists None, rb, g, (set_ring st i rb). split; [done|]. split; [|by auto].
      eapply micro_idle; [done..|]. rewrite Ep, Hh. unfold ring_holds. by rewrite Hty', Hty.
Qed.

(** After the reads ring [i] has an event in the queue, or nothing to read, or a copy
    could not be allocated. *)
Definition read_done (g : ghost) (st : state) (i : nat) : Prop :=
  held g i <> [] \/ pend g i = [] \/ memalign_ok (ls_env st) = false.

Lemma dequeue_perf_spec x g st i : inv x g st -> types !! i = Some kPerfRingBuffer ->
  exists n g' st', dequeue_perf sample_types st i = Some (n, st') /\ rtc micro (g, st) (g', st') /\ read_done g' st' i /\
    (n = 0%nat -> g' = grow g st) /\ (pend (grow g st) i = [] -> n = 0%nat).
Proof.
  intros Hi Ht. assert (Hlt : (i < length wps)%nat).
  { apply lookup_lt_Some in Ht. rewrite <- (inv_types _ _ _ Hi), length_map in Ht. by rewrite <- (inv_length _ _ _ Hi). }
  pose proof (inv_tick _ _ _ Hi) as Hi1. destruct (inv_lookup _ _ _ i Hi1 Hlt) as (pe & Hpe & _ & Ht').
  assert (Hty : rb_type (pe_rb pe) = kPerfRingBuffer) by congruence.
  unfold dequeue_perf. rewrite Hpe. pose proof (inv_rings _ _ _ Hi1 i pe Hpe) as Hr. unfold ring_holds in Hr. rewrite Hty in Hr.
  rewrite (perf_holds_inflight _ _ _ Hr). case_bool_decide as Hh.
  - eexists 0%nat, _, _. split; [done|]. split; [apply rtc_once; constructor|]. by split; [left|].
  - assert (Hh' : held (grow g st) i = []) by (destruct (held (grow g st) i); [done|by destruct Hh]).
    destruct (read_perf_spec _ _ _ _ _ Hi1 Hpe Hty Hh') as (b & rb & g' & st' & -> & Hm & Henv & Hb).
    assert (Hsteps : rtc micro (g, st) (g', st')) by (eapply rtc_l; [constructor|by apply rtc_once]).
    destruct b as [b|].
    + destruct Hb as (ev & p & Ep & -> & -> & _). eexists 1%nat, _, st'. split; [done|]. split; [exact Hsteps|]. split; [|by rewrite Ep].
      left. cbn [take_event held]. rewrite upd_eq. by destruct (held (grow g st) i).
    + destruct Hb as (-> & -> & Hp). eexists 0%nat, _, _. split; [done|]. split; [exact Hsteps|]. split; [|done].
      right. by rewrite Henv.
Qed.

(** What a multi-producer ring looks like when the loop stops reading it. *)
Definition mpsc_done (g : ghost) (i : nat) (max_timestamp : Z) : Prop :=
  pend g i = [] \/ exists x, x ∈ held g i /\ max_timestamp < time i (snd x).

Lemma dequeue_mpsc_spec x l max_timestamp fuel g st i :
  inv x g st -> accounted (ls_env st) g l -> types !! i = Some kMPSCRingBuffer ->
  exists n fin g' st', dequeue_mpsc sample_types fuel st i max_timestamp = Some (n, fin, st') /\
    rtc micro (g, st) (g', st') /\ (fin = true -> mpsc_done g' i max_timestamp).
Proof.
  revert g st. induction fuel as [|fuel IH]; intros g st Hi Ha Ht.
  { eexists 0%nat, false, g, st. split; [done|]. split; [done|]. done. }
  assert (Hlt : (i < length wps)%nat).
  { apply lookup_lt_Some in Ht. rewrite <- (inv_types _ _ _ Hi), length_map in Ht. by rewrite <- (inv_length _ _ _ Hi). }
  pose proof (inv_tick _ _ _ Hi) as Hi1. destruct (inv_lookup _ _ _ i Hi1 Hlt) as (pe & Hpe & _ & Ht').
  assert (Hty : rb_type (pe_rb pe) = kMPSCRingBuffer) by congruence.
  cbn [dequeue_mpsc]. rewrite Hpe. pose proof (inv_rings _ _ _ Hi1 i pe Hpe) as Hr. unfold ring_holds in Hr. rewrite Hty in Hr.
  destruct (mpsc_holds_read _ _ _ Hr) as (b & rb & -> & Hty' & Hb).
  destruct b as [b|], (pend (grow g st) i) as [|ev p] eqn:Ep; try done.
  - destruct Hb as [Hd Hrb]. rewrite (enqueue_spec _ _ _ _ _ _ _ _ _ Hi1 Hpe Ep Hd).
    assert (Hm : micro (grow g st, tick st) (take_event (grow g st) i b ev p,
                   set_queue (set_ring (tick st) i rb) (pq_push (wrap i (b, ev)) (ls_queue (tick st))))).
    { eapply micro_read; [done..|]. unfold ring_holds. by rewrite Hty', Hty. }
    assert (Hsteps : rtc micro (g, st) _) by (eapply rtc_l; [constructor|apply rtc_once; exact Hm]).
    destruct (Z.ltb_spec max_timestamp (time i ev)) as [Hgt|_].
    + eexists _, true, _, _. split; [done|]. split; [exact Hsteps|]. intros _. right. exists (b, ev).
      cbn [take_event held]. rewrite upd_eq. split; [|done]. apply elem_of_app. right. by apply list_elem_of_singleton.
    + destruct (steps_inv x l _ _ Hsteps Hi Ha) as (Hi2 & Ha2 & _). destruct (IH _ _ Hi2 Ha2 Ht) as (n & fin & g' & st' & E2 & Hs2 & Hfin).
      cbn [snd] in E2. rewrite E2. eexists _, fin, g', st'. split; [done|]. split; [by etrans|done].
  - eexists _, true, _, _. split; [done|]. split.
    + eapply rtc_l; [constructor|]. apply rtc_once. eapply micro_idle; [done..|]. rewrite Ep. unfold ring_holds. by rewrite Hty', Hty.
    + intros _. by left.
Qed.

(** ** Processing the top of the queue *)

Definition drop_event (g : ghost) (i : nat) (h : held_events) : ghost := mkG (pend g) (upd (held g) i h).

Lemma inv_record x g st w i ev : inv x g st -> worker_ok (ls_env st) w -> inv x g (record_event (set_worker st w) i ev).
Proof. intros [? ? ? ? ? ? ? ?] Hw. by split. Qed.

(** The top of the queue is a held event of a ring. *)
Lemma top_held g st evt : inv [] g st -> pq_top (ls_queue st) = Some evt ->
  exists i b ev, evt = wrap i (b, ev) /\ (i < length wps)%nat /\ (b, ev) ∈ held g i.
Proof.
  intros Hi Ht. destruct (pq_top_min _ _ (inv_pq _ _ _ Hi) Ht) as [Hin _].
  rewrite (inv_queue _ _ _ Hi) in Hin. apply elem_of_queued in Hin as (i & [b ev] & Hlt & Hx & ->). by exists i, b, ev.
Qed.

Lemma process_top_spec g st i b ev : inv [] g st -> (i < length wps)%nat -> (b, ev) ∈ held g i ->
  exists res w, process_top st (wrap i (b, ev)) = Some (res, record_event (set_worker st w) i ev) /\ worker_ok (ls_env st) w /\
    exists k, process_event (ls_env st) (ls_worker st) ev k = Some (res, w).
Proof.
  intros Hi Hlt Hin. destruct (inv_lookup _ _ _ i Hi Hlt) as (pe & Hpe & Hwp & _). unfold process_top. cbn [wrap ew_idx ew_event fst].
  rewrite Hpe. rewrite (ring_holds_deref _ _ _ _ _ (inv_rings _ _ _ Hi i pe Hpe) Hin).
  destruct (inv_events _ _ _ Hi i Hlt) as [Htm _]. rewrite Forall_forall in Htm. destruct (Htm ev) as [_ Hacc].
  { apply elem_of_app. left. apply (list_elem_of_fmap_2 snd _ _ Hin). }
  destruct (process_event_total (ls_env st) (ls_worker st) ev (watcher_pos pe) (inv_worker _ _ _ Hi) (Hacc _ Hwp)) as (r & w & E1 & Hw).
  rewrite E1. exists r, w. split_and!; [done..|]. by eexists.
Qed.

(** A released event leaves the ghost state and stays in the queue until the pop. *)
Lemma inv_drop g st i pe rb b ev h1 h2 :
  inv [] g st -> ls_pes st !! i = Some pe -> rb_type rb = rb_type (pe_rb pe) -> held g i = h1 ++ (b, ev) :: h2 ->
  ring_holds rb (pend g i) (h1 ++ h2) -> (rb_type rb = kPerfRingBuffer -> h1 = [] /\ h2 = []) ->
  inv [wrap i (b, ev)] (drop_event g i (h1 ++ h2)) (set_ring st i rb).
Proof.
  intros Hi Hpe Hty Hh Hrb Hperf. pose proof (inv_index _ _ _ _ _ Hi Hpe) as Hlt.
  destruct (inv_lookup_types _ _ _ _ _ Hi Hpe) as [_ Ht]. destruct (inv_events _ _ _ Hi i Hlt) as [Htm Hso].
  assert (Hun : unprocessed (drop_event g i (h1 ++ h2)) i = map snd (h1 ++ h2) ++ pend g i).
  { unfold unprocessed. cbn [drop_event held pend]. by rewrite upd_eq. }
  assert (Hperf' : types !! i = Some kPerfRingBuffer -> h1 = [] /\ h2 = []) by (intros; apply Hperf; congruence).
  unfold unprocessed in Htm, Hso. rewrite Hh in Htm, Hso.
  change (set_ring st i rb) with (set_queue (set_ring st i rb) (ls_queue st)).
  eapply inv_set_ring; [done..| | | | |exact (inv_pq _ _ _ Hi)|].
  - intros j Hj. cbn [drop_event pend held]. by rewrite upd_ne.
  - cbn [drop_event pend held]. by rewrite upd_eq.
  - rewrite Hun. split.
    + rewrite !map_app in *. cbn [map] in Htm. rewrite !Forall_app in *. rewrite Forall_cons in Htm. tauto.
    + intros Hpt. destruct (Hperf' Hpt) as [-> ->]. destruct (Hso Hpt) as [Hs Hf]. cbn [app map] in *.
      inversion_clear Hs. inversion_clear Hf. done.
  - constructor; [|done]. cbn [wrap ew_idx ew_timestamp fst snd]. rewrite Hun. intros Hpt.
    destruct (Hperf' Hpt) as [-> ->]. destruct (Hso Hpt) as [Hs Hf]. cbn [app map] in *.
    inversion_clear Hs. inversion_clear Hf. done.
  - rewrite (inv_queue _ _ _ Hi). cbn [app drop_event held]. by apply queued_remove.
Qed.

Lemma events_of_app i a b : events_of i (a ++ b) = events_of i a ++ events_of i b.
Proof. apply omap_app. Qed.

Lemma events_of_snoc i l j ev : events_of i (l ++ [(j, ev)]) = if decide (j = i) then events_of i l ++ [ev] else events_of i l.
Proof. rewrite events_of_app. unfold events_of at 2. cbn. case_decide; [done|]. by rewrite app_nil_r. Qed.

Lemma accounted_drop e g l i b ev h1 h2 :
  held g i = h1 ++ (b, ev) :: h2 -> (types !! i = Some kPerfRingBuffer -> h1 = [] /\ h2 = []) ->
  accounted e g l -> accounted e (drop_event g i (h1 ++ h2)) (l ++ [(i, ev)]).
Proof.
  intros Hh Hperf Ha j Hj. specialize (Ha j Hj). unfold unprocessed in *. cbn [drop_event pend held].
  rewrite events_of_snoc. destruct (decide (i = j)) as [<-|Hne].
  - rewrite !upd_eq, Hh in *. case_decide as Hp.
    + destruct (Hperf Hp) as [-> ->]. rewrite <- Ha. cbn. by rewrite <- app_assoc.
    + rewrite <- Ha, !map_app. cbn [map snd]. rewrite <- !app_assoc. cbn [app]. f_equiv. by rewrite <- Permutation_middle.
  - by rewrite upd_ne.
Qed.

Lemma keeps_top x g st i b ev : inv x g st -> wrap i (b, ev) ∈ x -> forall b' ev' p,
  types !! i = Some kPerfRingBuffer -> pend g i = ev' :: p -> pq_top (ls_queue st) = Some (wrap i (b, ev)) ->
  pq_top (pq_push (wrap i (b', ev')) (ls_queue st)) = Some (wrap i (b, ev)).
Proof.
  intros Hi Hx b' ev' p Ht Hp Htop. apply pq_push_keeps_top; [apply (inv_pq _ _ _ Hi)|done|].
  pose proof (inv_released _ _ _ Hi) as Hr. rewrite Forall_forall in Hr. specialize (Hr _ Hx Ht) as [_ Hf].
  cbn [wrap ew_idx ew_timestamp fst snd] in *. unfold unprocessed in Hf. rewrite Hp, Forall_app in Hf.
  destruct Hf as [_ Hf]. by inversion_clear Hf.
Qed.

(** Releasing the top: the event leaves the ring, and the next event of a perf ring
    takes its place in the queue, behind it. *)
Lemma release_event_spec g st i b ev :
  inv [] g st -> (i < length wps)%nat -> (b, ev) ∈ held g i -> pq_top (ls_queue st) = Some (wrap i (b, ev)) ->
  exists h1 h2 st2 g' st', held g i = h1 ++ (b, ev) :: h2 /\ (types !! i = Some kPerfRingBuffer -> h1 = [] /\ h2 = []) /\
    release_event sample_types st (wrap i (b, ev)) = Some st' /\
    inv [wrap i (b, ev)] (drop_event (grow g st) i (h1 ++ h2)) st2 /\
    rtc micro (drop_event (grow g st) i (h1 ++ h2), st2) (g', st') /\
    pq_top (ls_queue st') = Some (wrap i (b, ev)) /\ ls_worker st2 = ls_worker st /\ ls_processed st2 = ls_processed st /\
    ls_env st2 = ls_env (tick st) /\ (types !! i = Some kPerfRingBuffer -> read_done g' st' i).
Proof.
  intros Hi Hlt Hin Htop. apply list_elem_of_split in Hin as (h1 & h2 & Hh). pose proof (inv_tick _ _ _ Hi) as Hi1.
  destruct (inv_lookup _ _ _ i Hi1 Hlt) as (pe & Hpe & _ & Ht). pose proof (inv_rings _ _ _ Hi1 i pe Hpe) as Hr.
  unfold ring_holds in Hr. change (held (grow g st) i) with (held g i) in Hr. rewrite Hh in Hr.
  destruct (micro_keeps _ _ (micro_tick g st)) as [Ew Ep]. cbn [snd] in Ew, Ep.
  unfold release_event. cbn [wrap ew_idx ew_event fst]. rewrite Hpe. destruct (rb_type (pe_rb pe)) eqn:Hty.
  - assert (h1 = [] /\ h2 = []) as [-> ->].
    { destruct Hr as [_ Hr]. destruct h1 as [|[] [|]], h2; done. }
    destruct (perf_holds_advance _ _ _ _ Hr) as [Hadv Htadv].
    assert (Hi2 : inv [wrap i (b, ev)] (drop_event (grow g st) i []) (set_ring (tick st) i (perf_rb_advance (pe_rb pe)))).
    { apply (inv_drop (grow g st) (tick st) i pe _ b ev [] []); [done..| |done]. unfold ring_holds. by rewrite Htadv, Hty. }
    set (st2 := set_ring (tick st) i (perf_rb_advance (pe_rb pe))) in *.
    set (g2 := drop_event (grow g st) i []) in *. pose proof (inv_tick _ _ _ Hi2) as Hi3.
    destruct (inv_lookup _ _ _ i Hi3 Hlt) as (pe3 & Hpe3 & _ & Ht3). rewrite Hpe3.
    assert (Hh3 : held (grow g2 st2) i = []) by (unfold g2; cbn [grow drop_event held]; by rewrite upd_eq).
    destruct (read_perf_spec _ _ _ _ _ Hi3 Hpe3 ltac:(congruence) Hh3) as (b' & rb' & g' & st' & -> & Hm & Henv & Hb).
    assert (Htop2 : pq_top (ls_queue (tick st2)) = Some (wrap i (b, ev))) by (by rewrite tick_queue; unfold st2; cbn; rewrite tick_queue).
    assert (Hsteps : rtc micro (g2, st2) (g', st')) by (eapply rtc_l; [constructor|by apply rtc_once]).
    exists [], [], st2, g', st'. split; [done|]. split; [done|]. destruct b' as [b'|].
    + destruct Hb as (ev' & p & Hp & -> & -> & Hq'). split; [done|]. split; [done|]. split; [done|].
      split_and!; [|done..|].
      * rewrite Hq'. eapply keeps_top; [done|by left|congruence|done|done].
      * intros _. left. cbn [take_event held]. rewrite upd_eq. by destruct (held (grow g2 st2) i).
    + destruct Hb as (-> & -> & Hp). split; [done|]. split; [done|]. split; [done|].
      split_and!; [done..|]. intros _. right. by rewrite Henv.
  - destruct (mpsc_holds_release _ _ _ _ _ _ Hr) as (off & rb & Eoff & Er & Htr & Hrb).
    assert (Hnp : types !! i = Some kPerfRingBuffer -> h1 = [] /\ h2 = []) by congruence.
    cbn [wrap ew_event fst]. rewrite Eoff, Er. exists h1, h2. do 3 eexists. split; [done|]. split; [done|]. split; [done|].
    split; [|split; [reflexivity|]].
    + eapply inv_drop; [done..| |congruence]. unfold ring_holds. by rewrite Htr, Hty.
    + split_and!; [|done..|congruence]. cbn [set_ring ls_queue]. by rewrite tick_queue.
Qed.

(** One event processed: given to the worker, released, the next one of a perf ring
    read, and popped. *)
Inductive pstep (max_timestamp : Z) : ghost * state -> ghost * state -> Prop :=
| pstep_intro g st i b ev h1 h2 w st2 g' st' :
    pq_top (ls_queue st) = Some (wrap i (b, ev)) -> time i ev <= max_timestamp -> (i < length wps)%nat ->
    held g i = h1 ++ (b, ev) :: h2 -> (types !! i = Some kPerfRingBuffer -> h1 = [] /\ h2 = []) -> worker_ok (ls_env st) w ->
    let st1 := record_event (set_worker st w) i ev in
    let g2 := drop_event (grow g st1) i (h1 ++ h2) in
    inv [wrap i (b, ev)] g2 st2 -> rtc micro (g2, st2) (g', st') ->
    pq_top (ls_queue st') = Some (wrap i (b, ev)) -> ls_worker st2 = ls_worker st1 -> ls_processed st2 = ls_processed st1 ->
    ls_env st2 = ls_env (tick st1) -> (types !! i = Some kPerfRingBuffer -> read_done g' st' i) ->
    pstep max_timestamp (g, st) (g', set_queue st' (pq_pop (ls_queue st'))).

Lemma inv_pop g st evt : inv [evt] g st -> pq_top (ls_queue st) = Some evt -> inv [] g (set_queue st (pq_pop (ls_queue st))).
Proof.
  intros Hi Htop. destruct (pq_pop_elements _ _ (inv_pq _ _ _ Hi) Htop) as [Hok Hel].
  rewrite (inv_queue _ _ _ Hi) in Hel. cbn [app] in Hel. apply Permutation_cons_inv in Hel.
  destruct Hi. split; try done.
Qed.

Lemma pstep_inv max_timestamp s s' : pstep max_timestamp s s' -> inv [] (fst s) (snd s) ->
  accounted (ls_env (snd s)) (fst s) (ls_processed (snd s)) ->
  inv [] (fst s') (snd s') /\ accounted (ls_env (snd s')) (fst s') (ls_processed (snd s')) /\
  exists x, ls_processed (snd s') = ls_processed (snd s) ++ [x].
Proof.
  intros Hp. destruct Hp as [g st i b ev h1 h2 w st2 g' st' Htop Htm Hlt Hh Hperf Hw st1 g2 Hi2 Hsteps Htop' Ew Ep Ee Hrd].
  cbn [fst snd]. intros Hi Ha. assert (Ha1 : accounted (ls_env (tick st1)) (grow g st1) (ls_processed st)).
  { apply (accounted_micro _ (g, st1) (grow g st1, tick st1) []); [constructor| |done]. by apply inv_record. }
  apply (accounted_drop _ _ _ i b ev h1 h2) in Ha1; [|done..]. rewrite <- Ee in Ha1.
  destruct (steps_inv _ (ls_processed st ++ [(i, ev)]) _ _ Hsteps Hi2) as (Hi' & Ha' & Ew' & Ep'); [done|].
  cbn [fst snd] in *. split; [by eapply inv_pop|]. cbn [set_queue ls_processed ls_env]. rewrite Ep', Ep. split; [done|]. by exists (i, ev).
Qed.

Lemma psteps_inv max_timestamp s s' : rtc (pstep max_timestamp) s s' -> inv [] (fst s) (snd s) ->
  accounted (ls_env (snd s)) (fst s) (ls_processed (snd s)) ->
  inv [] (fst s') (snd s') /\ accounted (ls_env (snd s')) (fst s') (ls_processed (snd s')).
Proof.
  induction 1 as [s|s1 s2 s3 H12 _ IH]; [done|]. intros Hi Ha.
  destruct (pstep_inv _ _ _ H12 Hi Ha) as (Hi2 & Ha2 & _). by apply IH.
Qed.

(** The result of processing the queue: it was emptied, or its top is too recent, or an
    event was given to the worker and refused. *)
Definition queue_result (max_timestamp : Z) (e : queue_end) (g : ghost) (st st' : state) : Prop :=
  match e with
  | QueueEmpty => st' = st /\ pq_top (ls_queue st) = None
  | TooRecent => st' = st /\ exists evt, pq_top (ls_queue st) = Some evt /\ max_timestamp < ew_timestamp evt
  | QueueOutOfFuel => st' = st
  | Failed r => IsDDResOK r = false /\ exists i b ev w, st' = record_event (set_worker st w) i ev /\ worker_ok (ls_env st) w /\
                  pq_top (ls_queue st) = Some (wrap i (b, ev)) /\ (b, ev) ∈ held g i /\
                  (i < length wps)%nat /\ time i ev <= max_timestamp /\
                  exists e0 w0 k, process_event e0 w0 ev k = Some (r, w)
  end.

Lemma process_queue_spec max_timestamp fuel g st : inv [] g st -> accounted (ls_env st) g (ls_processed st) ->
  exists e n g1 st1 st', process_queue sample_types fuel st max_timestamp = Some (e, st') /\
    nsteps (pstep max_timestamp) n (g, st) (g1, st1) /\ queue_result max_timestamp e g1 st1 st' /\ (e = QueueOutOfFuel -> n = fuel).
Proof.
  revert g st. induction fuel as [|fuel IH]; intros g st Hi Ha; cbn [process_queue].
  { eexists QueueOutOfFuel, 0%nat, g, st, st. by split_and!; [|constructor|..]. }
  destruct (pq_top (ls_queue st)) as [evt|] eqn:Htop; [|eexists QueueEmpty, 0%nat, g, st, st; by split_and!; [|constructor|..]].
  destruct (Z.ltb_spec max_timestamp (ew_timestamp evt)) as [Hgt|Hle].
  { eexists TooRecent, 0%nat, g, st, st. split_and!; [done|constructor|split; [done|by exists evt]|done]. }
  destruct (top_held _ _ _ Hi Htop) as (i & b & ev & -> & Hlt & Hin).
  destruct (process_top_spec _ _ _ _ _ Hi Hlt Hin) as (res & w & -> & Hw & k & Hk). destruct (IsDDResOK res) eqn:Hres; cbn [negb].
  - pose proof (inv_record [] g st w i ev Hi Hw) as Hi1.
    destruct (release_event_spec _ _ _ _ _ Hi1 Hlt Hin Htop) as (h1 & h2 & st2 & g' & st' & Hh & Hperf & -> & Hi2 & Hsteps & Htop' & Ew & Ep & Ee & Hrd).
    assert (Hps : pstep max_timestamp (g, st) (g', set_queue st' (pq_pop (ls_queue st')))) by (by eapply pstep_intro).
    destruct (pstep_inv _ _ _ Hps Hi Ha) as (Hi3 & Ha3 & _).
    destruct (IH _ _ Hi3 Ha3) as (e & n & g1 & st1 & st'' & Hq & Hr & Hend & Hout). cbn [snd] in Hq. rewrite Hq.
    exists e, (S n), g1, st1, st''. split_and!; [done|by eapply nsteps_l|done|]. intros. f_equal. by apply Hout.
  - eexists (Failed res), 0%nat, g, st, _. split_and!; [done|constructor| |done]. split; [done|].
    exists i, b, ev, w. split_and!; [done..|]. by exists (ls_env st), (ls_worker st), k.
Qed.

(** ** The rings, round by round *)

(** What reading ring [i] leaves. *)
Definition ring_read (max_timestamp : Z) (g : ghost) (st : state) (i : nat) : Prop :=
  (types !! i = Some kPerfRingBuffer -> read_done g st i) /\
  (types !! i = Some kMPSCRingBuffer -> mpsc_done g i max_timestamp).

Lemma dequeue_ring_spec l max_timestamp fuel g st i : inv [] g st -> accounted (ls_env st) g l -> (i < length wps)%nat ->
  exists n fin g' st', dequeue_ring sample_types fuel st i max_timestamp = Some (n, fin, st') /\
    rtc micro (g, st) (g', st') /\ (fin = true -> ring_read max_timestamp g' st' i).
Proof.
  intros Hi Ha Hlt. destruct (inv_lookup _ _ _ i Hi Hlt) as (pe & Hpe & _ & Ht). unfold dequeue_ring. rewrite Hpe.
  destruct (rb_type (pe_rb pe)) eqn:Hty.
  - destruct (dequeue_perf_spec _ _ _ _ Hi Ht) as (n & g' & st' & -> & Hs & Hrd & _ & _).
    exists n, true, g', st'. split; [done|]. split; [done|]. intros _. split; [done|congruence].
  - destruct (dequeue_mpsc_spec _ _ max_timestamp fuel _ _ _ Hi Ha Ht) as (n & fin & g' & st' & -> & Hs & Hrd).
    exists n, fin, g', st'. split; [done|]. split; [done|]. intros Hf. split; [congruence|auto].
Qed.

Lemma dequeue_rings_spec l max_timestamp fuel idx g st : inv [] g st -> accounted (ls_env st) g l -> Forall (fun i => i < length wps)%nat idx ->
  exists n fin g' st', dequeue_rings sample_types fuel st idx max_timestamp = Some (n, fin, st') /\ rtc micro (g, st) (g', st').
Proof.
  revert g st. induction idx as [|i idx IH]; intros g st Hi Ha Hf; cbn [dequeue_rings]; [by eexists _, _, g, st|].
  inversion_clear Hf as [|? ? Hlt Hf']. destruct (dequeue_ring_spec l max_timestamp fuel _ _ _ Hi Ha Hlt) as (n & fin & g1 & st1 & -> & Hs & _).
  destruct fin; [|by eexists _, _, g1, st1]. destruct (steps_inv _ _ _ _ Hs Hi Ha) as (Hi1 & Ha1 & _).
  destruct (IH _ _ Hi1 Ha1 Hf') as (m & fin & g2 & st2 & Hq & Hs2). cbn [snd] in Hq. rewrite Hq.
  eexists _, fin, g2, st2. split; [done|]. by etrans.
Qed.

(** The state after a call: an event refused by the worker is both in the history and
    still in the queue. *)
Definition call_result (o : option outcome) (g : ghost) (st : state) : Prop :=
  match o with
  | Some (Returned r) =>
      if IsDDResOK r then inv [] g st /\ accounted (ls_env st) g (ls_processed st)
      else inv [] g st /\ exists l i b ev, ls_processed st = l ++ [(i, ev)] /\ accounted (ls_env st) g l /\ (b, ev) ∈ held g i /\
             exists e0 w0 k w, process_event e0 w0 ev k = Some (r, w)
  | _ => inv [] g st /\ accounted (ls_env st) g (ls_processed st)
  end.

Lemma all_rings : Forall (fun i => i < length wps)%nat (seq 0 (length wps)).
Proof. apply Forall_forall. intros i Hi. apply list_elem_of_In, in_seq in Hi. lia. Qed.

Lemma failed_result max_timestamp r g st st' : queue_result max_timestamp (Failed r) g st st' ->
  inv [] g st -> accounted (ls_env st) g (ls_processed st) -> call_result (Some (Returned r)) g st'.
Proof.
  intros (Hr & i & b & ev & w & -> & Hw & _ & Hin & _ & _ & e0 & w0 & k & He) Hi Ha. cbn [call_result]. rewrite Hr.
  split; [by apply inv_record|]. exists (ls_processed st), i, b, ev. split_and!; [done..|]. by exists e0, w0, k, w.
Qed.

Lemma ordered_round_spec fuel g st drain now : inv [] g st -> accounted (ls_env st) g (ls_processed st) ->
  exists o g' st', ordered_round sample_types fuel st drain now = Some (o, st') /\ call_result o g' st'.
Proof.
  intros Hi Ha. unfold ordered_round. rewrite (inv_length _ _ _ Hi). set (M := if drain then _ else _).
  destruct (dequeue_rings_spec (ls_processed st) M fuel _ _ _ Hi Ha all_rings) as (n & fin & g1 & st1 & -> & Hs).
  destruct (steps_inv _ _ _ _ Hs Hi Ha) as (Hi1 & Ha1 & _ & Ep). cbn [fst snd] in *. rewrite <- Ep in Ha1.
  destruct fin; cbn [negb]; [|by eexists _, g1, st1].
  destruct (process_queue_spec M fuel _ _ Hi1 Ha1) as (e & k & g2 & st2 & st3 & -> & Hp%rtc_nsteps_2 & Hq & _).
  destruct (psteps_inv _ _ _ Hp Hi1 Ha1) as [Hi2 Ha2]. cbn [fst snd] in *. destruct e as [| |r|].
  - destruct Hq as [-> _]. destruct (Nat.eqb n 0); by eexists _, g2, st2.
  - destruct Hq as [-> _]. by eexists _, g2, st2.
  - eexists _, g2, st3. split; [done|]. by eapply failed_result.
  - cbn [queue_result] in Hq. subst st3. by eexists _, g2, st2.
Qed.

Lemma ordered_loop_spec fuel g st drain now deadline : inv [] g st -> accounted (ls_env st) g (ls_processed st) ->
  exists o g' st', ordered_loop sample_types fuel st drain now deadline = Some (o, st') /\ call_result (Some o) g' st'.
Proof.
  revert g st now. induction fuel as [|fuel IH]; intros g st now Hi Ha; cbn [ordered_loop]; [by eexists _, g, st|].
  destruct (negb _ && _); [|by eexists _, g, st].
  destruct (ordered_round_spec (S fuel) g st drain now Hi Ha) as (o & g1 & st1 & -> & Hres).
  destruct o as [o|]; [by eexists o, g1, st1|]. destruct Hres as [Hi1 Ha1].
  destruct (steps_inv _ _ _ _ (rtc_once _ _ (micro_tick g1 st1)) Hi1 Ha1) as (Hi2 & Ha2 & _ & Ep). cbn [fst snd] in *.
  apply (IH _ _ _ Hi2). by rewrite Ep.
Qed.

(** C27: the ordered processing of the rings, for any interleaving with the producers, any
    clock and any allocation failures, when the producers append to each perf ring in the
    order of the timestamps ([env_sorted], as the comment in the code assumes; without it an
    event can be lost, [unordered_ring_loses_event]), nothing of the kind being assumed of
    the MPSC rings, and when the events can be timed and are handled by the worker without
    leaving its preconditions: the code never reads an event that is not in its ring, and
    every event written to a ring is, at the end of the call, processed, in the priority
    queue or still in the ring, exactly once.  For a perf ring the processed events, the
    queued one and those left are the events written, in the order of the ring; for an MPSC
    ring they are a permutation of the events written.  An event the worker refused stays
    queued. *)
Theorem ordered_processing_exactly_once fuel drain g st :
  inv [] g st -> accounted (ls_env st) g (ls_processed st) ->
  exists o g' st', worker_process_ring_buffers_ordered sample_types fuel st drain = Some (o, st') /\ call_result (Some o) g' st'.
Proof.
  intros Hi Ha. unfold worker_process_ring_buffers_ordered.
  destruct (steps_inv _ _ _ _ (rtc_once _ _ (micro_tick g st)) Hi Ha) as (Hi2 & Ha2 & _ & Ep). cbn [fst snd] in *.
  apply (ordered_loop_spec _ (grow g st)); [done|by rewrite Ep].
Qed.

(** ** Draining *)

Fixpoint sum_to (f : nat -> nat) (n : nat) : nat :=
  match n with O => 0%nat | S n' => (sum_to f n' + f n')%nat end.

Lemma sum_to_ext f f' n : (forall j, (j < n)%nat -> f' j = f j) -> sum_to f' n = sum_to f n.
Proof. induction n as [|n IH]; intros Hf; [done|]. cbn [sum_to]. rewrite IH, Hf; [done|lia|]. intros. apply Hf. lia. Qed.

Lemma sum_to_less f f' i n : (i < n)%nat -> (forall j, j <> i -> f' j = f j) -> S (f' i) = f i -> S (sum_to f' n) = sum_to f n.
Proof.
  intros Hi Hne Hf. induction n as [|n IH]; [lia|]. cbn [sum_to]. destruct (decide (i = n)) as [->|Hn].
  - rewrite (sum_to_ext f f' n); [lia|]. intros. apply Hne. lia.
  - rewrite (Hne n) by lia. rewrite <- IH by lia. lia.
Qed.

Lemma sum_to_le f n i : (i < n)%nat -> (f i <= sum_to f n)%nat.
Proof. induction n as [|n IH]; [lia|]. intros Hi. cbn [sum_to]. destruct (decide (i = n)) as [->|]; [lia|]. specialize (IH ltac:(lia)). lia. Qed.

(** The producers are gone, termination was not requested, memory is available and the
    worker accepts the events. *)
Record quiet : Prop := {
  quiet_new e pes i : env_new e pes i = [];
  quiet_running e : termination_requested e = false;
  quiet_alloc e : memalign_ok e = true;
  quiet_clock e : perf_now e <= time_point_max;
  quiet_accepts e w ev i r w' : process_event e w ev i = Some (r, w') -> IsDDResOK r = true
}.

Section Quiet.
Context (Hquiet : quiet).

(** Events that were not processed, in all the rings. *)
Definition left_over (g : ghost) : nat := sum_to (fun i => length (unprocessed g i)) (length wps).

Lemma quiet_grow g st i : pend (grow g st) i = pend g i /\ unprocessed (grow g st) i = unprocessed g i.
Proof. unfold unprocessed. cbn [grow pend held]. rewrite (quiet_new Hquiet), app_nil_r. done. Qed.

Lemma quiet_log e pes i : env_log (fst (env_step e pes)) i = env_log e i.
Proof. by rewrite env_log_step, (quiet_new Hquiet), app_nil_r. Qed.

Lemma quiet_micro s s' : micro s s' ->
  (forall i, unprocessed (fst s') i = unprocessed (fst s) i) /\ (forall i, env_log (ls_env (snd s')) i = env_log (ls_env (snd s)) i).
Proof.
  intros Hm. destruct Hm as [g st|g st j pe b ev p rb Hpe Hp Hty Hrb|g st j pe rb Hpe Hty Hrb]; cbn [fst snd]; [| |done].
  - split; intros i; [apply quiet_grow|]. rewrite tick_env. apply quiet_log.
  - split; [|done]. intros i. by apply take_event_unprocessed.
Qed.

Lemma quiet_steps s s' : rtc micro s s' ->
  (forall i, unprocessed (fst s') i = unprocessed (fst s) i) /\ (forall i, env_log (ls_env (snd s')) i = env_log (ls_env (snd s)) i).
Proof.
  induction 1 as [s|s1 s2 s3 H12 _ [IH1 IH2]]; [done|]. destruct (quiet_micro _ _ H12) as [E1 E2].
  split; intros i; [by rewrite IH1|by rewrite IH2].
Qed.

Lemma quiet_steps_left s s' : rtc micro s s' -> left_over (fst s') = left_over (fst s).
Proof. intros Hs. destruct (quiet_steps _ _ Hs) as [E1 _]. apply sum_to_ext. intros j _. by rewrite E1. Qed.

(** Each processed event is one less. *)
Lemma pstep_left M s s' : pstep M s s' -> S (left_over (fst s')) = left_over (fst s).
Proof.
  intros Hp. destruct Hp as [g st i b ev h1 h2 w st2 g' st' Htop Htm Hlt Hh Hperf Hw st1 g2 Hi2 Hsteps Htop' Ew Ep Ee Hrd].
  destruct (quiet_steps _ _ Hsteps) as [E1 _]. cbn [fst] in *. apply (sum_to_less _ _ i); [done|..].
  - intros j Hj. rewrite E1. unfold g2, unprocessed. cbn [drop_event held pend]. rewrite upd_ne by done.
    by rewrite (proj1 (quiet_grow g st1 j)).
  - rewrite E1. unfold g2, unprocessed. cbn [drop_event held pend]. rewrite upd_eq, (proj1 (quiet_grow g st1 i)), Hh.
    rewrite !length_app, !length_map, !length_app. cbn [length]. lia.
Qed.

(** Nothing to read, or an event of the ring is in the queue. *)
Definition no_wait (g : ghost) (i : nat) : Prop :=
  pend g i = [] \/ (types !! i = Some kPerfRingBuffer /\ held g i <> []).

Lemma no_wait_micro s s' i : micro s s' -> no_wait (fst s) i -> no_wait (fst s') i.
Proof.
  intros Hm Hs. destruct Hm as [g st|g st j pe b ev p rb Hpe Hp Hty Hrb|g st j pe rb Hpe Hty Hrb]; cbn [fst snd] in *; [| |done].
  - unfold no_wait in *. by rewrite (proj1 (quiet_grow g st i)).
  - unfold no_wait in *. cbn [take_event pend held]. destruct (decide (i = j)) as [->|Hne]; [|by rewrite !upd_ne].
    rewrite !upd_eq. destruct Hs as [Hs|[Ht _]]; [by rewrite Hp in Hs|]. right. split; [done|by destruct (held g j)].
Qed.

(** A ring in which nothing waits stays so. *)
Lemma pend_nil_steps s s' i : rtc micro s s' -> pend (fst s) i = [] -> pend (fst s') i = [].
Proof.
  induction 1 as [s|s1 s2 s3 H12 _ IH]; [done|]. intros Hp. apply IH.
  destruct H12 as [g st|g st j pe b ev p rb Hpe Hp' Hty Hrb|g st j pe rb Hpe Hty Hrb]; cbn [fst] in *; [| |done].
  - by rewrite (proj1 (quiet_grow g st i)).
  - cbn [take_event pend]. destruct (decide (i = j)) as [->|Hne]; [congruence|by rewrite upd_ne].
Qed.

Lemma no_wait_steps s s' i : rtc micro s s' -> no_wait (fst s) i -> no_wait (fst s') i.
Proof. induction 1 as [s|s1 s2 s3 H12 _ IH]; [done|]. intros Hs. by eapply IH, no_wait_micro. Qed.

Lemma time_le_max i ev : time i ev <= time_point_max.
Proof.
  unfold time. destruct (ev_time i ev) as [t|] eqn:Et; [|done]. cbn [default]. unfold ev_time in Et.
  repeat (case_match; simplify_eq/=). unfold perf_clock_time_point_from_timestamp, i64, time_point_max.
  match goal with |- (?a + _) mod _ - _ <= _ => pose proof (Z.mod_pos_bound (a + 2 ^ 63) (2 ^ 64)) end. lia.
Qed.

Lemma ring_read_no_wait g st i : inv [] g st -> (i < length wps)%nat -> ring_read time_point_max g st i -> no_wait g i.
Proof.
  intros Hi Hlt [Hp Hm]. destruct (inv_lookup _ _ _ i Hi Hlt) as (pe & _ & _ & Ht). destruct (rb_type (pe_rb pe)).
  - destruct (Hp Ht) as [Hh|[Hn|Ha]]; [by right|by left|]. by rewrite (quiet_alloc Hquiet) in Ha.
  - left. destruct (Hm Ht) as [Hn|(x & _ & HM)]; [done|]. pose proof (time_le_max i (snd x)). lia.
Qed.

Lemma pstep_no_wait M s s' : pstep M s s' -> (forall i, (i < length wps)%nat -> no_wait (fst s) i) ->
  forall i, (i < length wps)%nat -> no_wait (fst s') i.
Proof.
  intros Hp. destruct Hp as [g st i b ev h1 h2 w st2 g' st' Htop Htm Hlt Hh Hperf Hw st1 g2 Hi2 Hsteps Htop' Ew Ep Ee Hrd].
  cbn [fst]. intros Hs j Hj. destruct (decide (types !! i = Some kPerfRingBuffer /\ j = i)) as [[Hpf ->]|Hne].
  - destruct (Hrd Hpf) as [?|[Hn|Ha]]; [by right|by left|]. by rewrite (quiet_alloc Hquiet) in Ha.
  - apply (no_wait_steps _ _ j Hsteps). cbn [fst]. destruct (Hs j Hj) as [Hl|[Hpj Hhj]].
    + left. unfold g2. cbn [drop_event pend]. by rewrite (proj1 (quiet_grow g st1 j)).
    + right. split; [done|]. unfold g2. cbn [drop_event held]. rewrite upd_ne; [done|]. intros ->. by apply Hne.
Qed.

(** With enough iterations the queue is emptied. *)
Lemma process_queue_drain fuel g st : inv [] g st -> accounted (ls_env st) g (ls_processed st) -> (left_over g < fuel)%nat ->
  exists g' st', process_queue sample_types fuel st time_point_max = Some (QueueEmpty, st') /\
    rtc (pstep time_point_max) (g, st) (g', st') /\ pq_top (ls_queue st') = None.
Proof.
  intros Hi Ha Hf. destruct (process_queue_spec time_point_max fuel g st Hi Ha) as (e & n & g' & st' & st'' & -> & Hp & Hq & Hout).
  pose proof (rtc_nsteps_2 _ _ _ Hp) as Hps. destruct (psteps_inv _ _ _ Hps Hi Ha) as [Hi' _]. cbn [fst snd] in Hi'.
  exists g', st'. destruct e as [| |r|].
  - by destruct Hq as [-> Hq].
  - exfalso. destruct Hq as (_ & evt & Htop & Hgt). destruct (top_held _ _ _ Hi' Htop) as (i & b & ev & -> & _ & _).
    pose proof (time_le_max i ev). cbn in Hgt. lia.
  - exfalso. destruct Hq as (Hr & i & b & ev & w & _ & _ & _ & _ & _ & _ & e0 & w0 & k & Hk).
    rewrite (quiet_accepts Hquiet _ _ _ _ _ _ Hk) in Hr. done.
  - exfalso. assert (Hl : (left_over (fst (g', st')) + n = left_over (fst (g, st)))%nat).
    { clear -Hp Hquiet. remember (g, st) as s. remember (g', st') as s'. clear Heqs Heqs'. induction Hp as [s|n s1 s2 s3 H12 _ IH]; [lia|].
      pose proof (pstep_left _ _ _ H12). lia. }
    cbn [fst] in Hl. rewrite (Hout eq_refl) in Hl. lia.
Qed.

(** Reading a multi-producer ring to its end. *)
Lemma dequeue_mpsc_drain l fuel g st i : inv [] g st -> accounted (ls_env st) g l -> types !! i = Some kMPSCRingBuffer ->
  (length (pend g i) < fuel)%nat ->
  exists n g' st', dequeue_mpsc sample_types fuel st i time_point_max = Some (n, true, st') /\ rtc micro (g, st) (g', st') /\
    pend g' i = [] /\ n = length (pend g i).
Proof.
  revert g st. induction fuel as [|fuel IH]; intros g st Hi Ha Ht Hf; [lia|].
  assert (Hlt : (i < length wps)%nat).
  { apply lookup_lt_Some in Ht. rewrite <- (inv_types _ _ _ Hi), length_map in Ht. by rewrite <- (inv_length _ _ _ Hi). }
  pose proof (inv_tick _ _ _ Hi) as Hi1. destruct (inv_lookup _ _ _ i Hi1 Hlt) as (pe & Hpe & _ & Ht').
  assert (Hty : rb_type (pe_rb pe) = kMPSCRingBuffer) by congruence. destruct (quiet_grow g st i) as [Egrow _].
  cbn [dequeue_mpsc]. rewrite Hpe. pose proof (inv_rings _ _ _ Hi1 i pe Hpe) as Hr. unfold ring_holds in Hr. rewrite Hty in Hr.
  destruct (mpsc_holds_read _ _ _ Hr) as (b & rb & -> & Hty' & Hb). rewrite Egrow in Hb.
  destruct b as [b|], (pend g i) as [|ev p] eqn:Ep; try done.
  - destruct Hb as [Hd Hrb]. rewrite (enqueue_spec _ _ _ _ _ _ _ _ _ Hi1 Hpe Egrow Hd).
    assert (Hm : micro (grow g st, tick st) (take_event (grow g st) i b ev p,
                   set_queue (set_ring (tick st) i rb) (pq_push (wrap i (b, ev)) (ls_queue (tick st))))).
    { eapply micro_read; [done..|]. unfold ring_holds. by rewrite Hty', Hty. }
    assert (Hsteps : rtc micro (g, st) _) by (eapply rtc_l; [constructor|apply rtc_once; exact Hm]).
    destruct (Z.ltb_spec time_point_max (time i ev)) as [Hgt|_]; [pose proof (time_le_max i ev); lia|].
    destruct (steps_inv [] l _ _ Hsteps Hi Ha) as (Hi2 & Ha2 & _).
    destruct (IH _ _ Hi2 Ha2 Ht) as (n & g' & st' & E2 & Hs2 & Hp' & Hn).
    { cbn [fst take_event pend]. rewrite upd_eq. cbn [length] in Hf. lia. }
    cbn [snd] in E2. rewrite E2. eexists _, g', st'. split; [done|]. split; [by etrans|]. split; [done|].
    rewrite Hn. cbn [fst take_event pend]. by rewrite upd_eq.
  - eexists _, (grow g st), _. split; [done|]. split; [|by rewrite Egrow].
    eapply rtc_l; [constructor|]. apply rtc_once. eapply micro_idle; [done..|]. rewrite Egrow. unfold ring_holds. by rewrite Hty', Hty.
Qed.

Lemma pend_le_left g i : (i < length wps)%nat -> (length (pend g i) <= left_over g)%nat.
Proof.
  intros Hi. pose proof (sum_to_le (fun i => length (unprocessed g i)) _ _ Hi) as Hl. cbv beta in Hl.
  unfold left_over, unprocessed in *. rewrite length_app in Hl. lia.
Qed.

(** The rings are read until nothing waits in them; when nothing waited before and
    nothing was in the queue, no event is found. *)
Lemma dequeue_rings_drain l fuel idx g st : inv [] g st -> accounted (ls_env st) g l -> Forall (fun i => i < length wps)%nat idx ->
  (left_over g < fuel)%nat ->
  exists n g' st', dequeue_rings sample_types fuel st idx time_point_max = Some (n, true, st') /\ rtc micro (g, st) (g', st') /\
    (forall i, i ∈ idx -> no_wait g' i) /\ ((forall i, i ∈ idx -> pend g i = []) -> n = 0%nat).
Proof.
  revert g st. induction idx as [|i idx IH]; intros g st Hi Ha Hf Hl; cbn [dequeue_rings].
  { eexists _, g, st. split; [done|]. split; [done|]. split; [|done]. intros i Hin. by apply elem_of_nil in Hin. }
  inversion_clear Hf as [|? ? Hlt Hf']. destruct (inv_lookup _ _ _ i Hi Hlt) as (pe & Hpe & _ & Ht).
  assert (exists n g1 st1, dequeue_ring sample_types fuel st i time_point_max = Some (n, true, st1) /\ rtc micro (g, st) (g1, st1) /\
            no_wait g1 i /\ (pend g i = [] -> n = 0%nat)) as (n & g1 & st1 & -> & Hs & Hnw & Hn).
  { unfold dequeue_ring. rewrite Hpe. destruct (rb_type (pe_rb pe)) eqn:Hty.
    - destruct (dequeue_perf_spec _ _ _ _ Hi Ht) as (n & g1 & st1 & -> & Hs & Hrd & _ & Hn). exists n, g1, st1.
      split_and!; [done..| |].
      + destruct Hrd as [Hh|[Hn'|Ha']]; [by right|by left|]. by rewrite (quiet_alloc Hquiet) in Ha'.
      + intros Hp. apply Hn. by rewrite (proj1 (quiet_grow g st i)).
    - destruct (dequeue_mpsc_drain l fuel g st i Hi Ha Ht) as (n & g1 & st1 & -> & Hs & Hp & Hn).
      { pose proof (pend_le_left g i Hlt). lia. }
      exists n, g1, st1. split_and!; [done..|by left|]. intros E0. by rewrite Hn, E0. }
  destruct (steps_inv _ _ _ _ Hs Hi Ha) as (Hi1 & Ha1 & _). pose proof (quiet_steps_left _ _ Hs) as Hl1. cbn [fst snd] in *.
  destruct (IH _ _ Hi1 Ha1 Hf') as (m & g2 & st2 & -> & Hs2 & Hnw2 & Hn2); [lia|].
  eexists _, g2, st2. split; [done|]. split; [by etrans|]. split.
  - intros j Hj. apply elem_of_cons in Hj as [->|Hj]; [by apply (no_wait_steps _ _ _ Hs2)|by apply Hnw2].
  - intros Hall. rewrite Hn, Hn2; [done| |by apply Hall; left]. intros j Hj.
    assert (Hpj : pend g j = []) by (by apply Hall; right). by apply (pend_nil_steps _ _ _ Hs).
Qed.

(** An empty queue and nothing waiting: everything was processed. *)
Lemma nothing_left g st i : inv [] g st -> pq_top (ls_queue st) = None -> (i < length wps)%nat -> no_wait g i -> unprocessed g i = [].
Proof.
  intros Hi Htop Hlt Hnw. pose proof (inv_queue _ _ _ Hi) as Hq. rewrite (pq_top_none _ (inv_pq _ _ _ Hi) Htop) in Hq.
  cbn [app] in Hq. apply Permutation_nil_l in Hq. assert (Hh : held g i = []).
  { destruct (held g i) as [|x h] eqn:Eh; [done|exfalso]. assert (Hx : wrap i x ∈ queued (held g)).
    { apply elem_of_queued. exists i, x. split_and!; [done| |done]. rewrite Eh. by left. }
    rewrite <- Hq in Hx. by apply elem_of_nil in Hx. }
  unfold unprocessed. rewrite Hh. destruct Hnw as [->|[_ Hne]]; done.
Qed.

Lemma ordered_round_drain fuel g st now : inv [] g st -> accounted (ls_env st) g (ls_processed st) -> (left_over g < fuel)%nat ->
  exists o g' st', ordered_round sample_types fuel st true now = Some (o, st') /\ (o = None \/ o = Some (Returned ddres_init)) /\
    inv [] g' st' /\ accounted (ls_env st') g' (ls_processed st') /\ (forall i, (i < length wps)%nat -> unprocessed g' i = []) /\
    ((forall i, (i < length wps)%nat -> pend g i = []) -> o = Some (Returned ddres_init)).
Proof.
  intros Hi Ha Hl. unfold ordered_round. rewrite (inv_length _ _ _ Hi).
  destruct (dequeue_rings_drain (ls_processed st) fuel _ _ _ Hi Ha all_rings Hl) as (n & g1 & st1 & -> & Hs & Hnw & Hn).
  destruct (steps_inv _ _ _ _ Hs Hi Ha) as (Hi1 & Ha1 & _ & Ep). pose proof (quiet_steps_left _ _ Hs) as Hl1. cbn [fst snd negb] in *.
  rewrite <- Ep in Ha1. destruct (process_queue_drain fuel g1 st1 Hi1 Ha1) as (g2 & st2 & -> & Hp & Htop); [lia|].
  destruct (psteps_inv _ _ _ Hp Hi1 Ha1) as [Hi2 Ha2]. cbn [fst snd] in *.
  assert (Hnw2 : forall i, (i < length wps)%nat -> no_wait g2 i).
  { assert (Hnw1 : forall i, (i < length wps)%nat -> no_wait (fst (g1, st1)) i).
    { intros i Hlt. apply Hnw. apply list_elem_of_In, in_seq. lia. }
    clear -Hp Hnw1 Hquiet. change g2 with (fst (g2, st2)). revert Hnw1.
    induction Hp as [s|s1 s2 s3 H12 _ IH]; [done|]. intros Hs. by eapply IH, pstep_no_wait. }
  exists (if Nat.eqb n 0 then Some (Returned ddres_init) else None), g2, st2.
  split; [destruct (Nat.eqb n 0); done|]. split; [destruct (Nat.eqb n 0); by auto|]. split_and!; [done..| |].
  - intros i Hlt. eapply nothing_left; [done..|by apply Hnw2].
  - intros Hall. rewrite Hn; [done|]. intros i Hin. apply Hall. apply list_elem_of_In, in_seq in Hin. lia.
Qed.

Lemma accounted_done g (st : state) : accounted (ls_env st) g (ls_processed st) -> (forall i, (i < length wps)%nat -> unprocessed g i = []) ->
  forall i, (i < length wps)%nat -> if decide (types !! i = Some kPerfRingBuffer)
    then events_of i (ls_processed st) = env_log (ls_env st) i else events_of i (ls_processed st) ≡ₚ env_log (ls_env st) i.
Proof. intros Ha Hu i Hlt. specialize (Ha i Hlt). rewrite Hu, app_nil_r in Ha by done. done. Qed.

(** C29: the last call, which drains the rings once the producers are gone: with an
    iteration for every event that is left, and two, it returns without error, and every
    event ever written to a ring was processed, in the order of the ring for a perf ring,
    in some order for an MPSC ring.  It is assumed ([quiet], [env_sorted]) that nothing is
    written any more, that termination is not requested during the call, that memory for
    wrapped events can be allocated, that the worker accepts every event, and that the
    events of each perf ring are in the order of their timestamps (otherwise one can be
    lost, [unordered_ring_loses_event]). *)
Theorem drain_processes_everything fuel g st :
  inv [] g st -> accounted (ls_env st) g (ls_processed st) -> (left_over g + 1 < fuel)%nat ->
  exists g' st', worker_process_ring_buffers_ordered sample_types fuel st true = Some (Returned ddres_init, st') /\
    inv [] g' st' /\ forall i, (i < length wps)%nat -> if decide (types !! i = Some kPerfRingBuffer)
      then events_of i (ls_processed st') = env_log (ls_env st') i
      else events_of i (ls_processed st') ≡ₚ env_log (ls_env st') i.
Proof.
  intros Hi Ha Hf. unfold worker_process_ring_buffers_ordered. pose proof (rtc_once _ _ (micro_tick g st)) as Ht.
  destruct (steps_inv _ _ _ _ Ht Hi Ha) as (Hi1 & Ha1 & _ & Ep). pose proof (quiet_steps_left _ _ Ht) as Hl1. cbn [fst snd] in *.
  rewrite <- Ep in Ha1. destruct fuel as [|[|fuel]]; [lia..|]. cbn [ordered_loop]. rewrite (quiet_running Hquiet).
  cbn [negb andb]. pose proof (quiet_clock Hquiet) as Hck. rewrite (proj2 (Z.leb_le _ _) (Hck _)).
  destruct (ordered_round_drain (S (S fuel)) _ _ (perf_now (ls_env (tick st))) Hi1 Ha1) as (o & g2 & st2 & -> & Ho & Hi2 & Ha2 & Hu2 & _); [lia|].
  destruct Ho as [->| ->]; [|exists g2, st2; split; [done|]; split; [done|]; by apply (accounted_done g2)].
  pose proof (rtc_once _ _ (micro_tick g2 st2)) as Ht2. destruct (steps_inv _ _ _ _ Ht2 Hi2 Ha2) as (Hi3 & Ha3 & _ & Ep3).
  cbn [fst snd] in *. rewrite <- Ep3 in Ha3. rewrite (quiet_running Hquiet). cbn [negb andb]. rewrite (proj2 (Z.leb_le _ _) (Hck _)).
  assert (Hu3 : forall i, (i < length wps)%nat -> unprocessed (grow g2 st2) i = []) by (intros i Hlt; by rewrite (proj2 (quiet_grow g2 st2 i)), Hu2).
  destruct (ordered_round_drain (S fuel) _ _ (perf_now (ls_env (tick st2))) Hi3 Ha3) as (o & g4 & st4 & -> & _ & Hi4 & Ha4 & Hu4 & Hend).
  { unfold left_over. rewrite (sum_to_ext (fun _ => 0%nat)); [|intros j Hj; by rewrite Hu3]. clear. induction (length wps); cbn [sum_to]; lia. }
  rewrite Hend; [exists g4, st4; split; [done|]; split; [done|]; by apply (accounted_done g4)|].
  intros i Hlt. specialize (Hu3 i Hlt). by apply app_nil in Hu3 as [_ Hu3].
Qed.

End Quiet.

(** ** Order *)

(** The hypotheses under which the order of processing is the order of time: an event
    reaches its ring within [kMaxSampleLatency] of its timestamp, the clock does not
    go back, the rings are ordered, and wrapped events can be copied. *)
Record timely : Prop := {
  timely_latency e pes i : Forall (fun ev => perf_now e - kMaxSampleLatency <= time i ev) (env_new e pes i);
  timely_clock e pes : perf_now e <= perf_now (fst (env_step e pes));
  timely_sorted e pes i : let e' := fst (env_step e pes) in
    env_floor e i <= env_floor e' i /\ sorted_by_time i (env_new e pes i) /\
    Forall (fun ev => env_floor e i <= time i ev <= env_floor e' i) (env_new e pes i);
  timely_alloc e : memalign_ok e = true
}.
Context (Htimely : timely).

Definition times_of (l : list (nat * ev_t)) : list Z := map (fun x => time (fst x) (snd x)) l.

(** Everything processed is in order and at most [B]; everything else is at least [B]. *)
Record in_order (B : Z) (g : ghost) (st : state) : Prop := {
  io_sorted : StronglySorted Z.le (times_of (ls_processed st));
  io_done : Forall (fun t => t <= B) (times_of (ls_processed st));
  io_rest i : (i < length wps)%nat -> Forall (fun ev => B <= time i ev) (unprocessed g i);
  io_ring i : sorted_by_time i (unprocessed g i);
  io_floor i : Forall (fun ev => time i ev <= env_floor (ls_env st) i) (unprocessed g i)
}.

Lemma grow_unprocessed g st i : unprocessed (grow g st) i = unprocessed g i ++ env_new (ls_env st) (ls_pes st) i.
Proof. unfold unprocessed. cbn [grow pend held]. by rewrite app_assoc. Qed.

Lemma in_order_micro B s s' : micro s s' -> B <= perf_now (ls_env (snd s)) - kMaxSampleLatency ->
  in_order B (fst s) (snd s) -> in_order B (fst s') (snd s').
Proof.
  intros Hm HB Ho. destruct Hm as [g st|g st i pe b ev p rb Hpe Hp Hty Hrb|g st i pe rb Hpe Hty Hrb]; cbn [fst snd] in *.
  - destruct (micro_keeps _ _ (micro_tick g st)) as [_ Ep]. cbn [snd] in Ep. destruct Ho as [H1' H2' H3' H4' H5'].
    split; rewrite ?Ep; try done; intros i; rewrite grow_unprocessed.
    + intros Hlt. apply Forall_app. split; [by apply H3'|]. eapply Forall_impl; [apply (timely_latency Htimely)|]. cbv beta. intros. lia.
    + destruct (timely_sorted Htimely (ls_env st) (ls_pes st) i) as (_ & Hs & Hb). apply StronglySorted_app_2; [|exact (H4' i)|done].
      intros x y Hx Hy. specialize (H5' i). rewrite Forall_forall in H5', Hb. specialize (H5' _ Hx). specialize (Hb _ Hy). lia.
    + destruct (timely_sorted Htimely (ls_env st) (ls_pes st) i) as (Hle & _ & Hb). rewrite tick_env.
      apply Forall_app. split; eapply Forall_impl; [exact (H5' i)| |exact Hb|]; cbv beta; intros; lia.
  - destruct Ho as [H1' H2' H3' H4' H5'].
    split; try done; intros j; rewrite take_event_unprocessed by done; [apply H3'|apply H4'|apply H5'].
  - by destruct Ho.
Qed.

Lemma micro_clock s s' : micro s s' -> perf_now (ls_env (snd s)) <= perf_now (ls_env (snd s')).
Proof.
  intros Hm. destruct Hm as [g st| |]; cbn [snd]; [|done..]. rewrite tick_env. apply (timely_clock Htimely).
Qed.

(** Nothing that ring [i] still holds unread is before [M], unless an event of it is in
    the queue. *)
Definition settled (M : Z) (g : ghost) (i : nat) : Prop :=
  Forall (fun ev => M <= time i ev) (pend g i) \/ (types !! i = Some kPerfRingBuffer /\ held g i <> []).

Lemma settled_micro M s s' i : micro s s' -> M <= perf_now (ls_env (snd s)) - kMaxSampleLatency ->
  settled M (fst s) i -> settled M (fst s') i.
Proof.
  intros Hm HM Hs. destruct Hm as [g st|g st j pe b ev p rb Hpe Hp Hty Hrb|g st j pe rb Hpe Hty Hrb]; cbn [fst snd] in *; [| |done].
  - destruct Hs as [Hs|Hs]; [left|by right]. cbn [grow pend]. apply Forall_app. split; [done|].
    eapply Forall_impl; [apply (timely_latency Htimely)|]. cbv beta. intros. lia.
  - unfold settled in *. cbn [take_event pend held]. destruct (decide (i = j)) as [->|Hne]; [|by rewrite !upd_ne].
    rewrite !upd_eq. destruct Hs as [Hs|[Ht _]]; [left|right; split; [done|by destruct (held g j)]].
    rewrite Hp in Hs. by inversion_clear Hs.
Qed.

Lemma steps_order B M s s' : rtc micro s s' -> B <= M -> M <= perf_now (ls_env (snd s)) - kMaxSampleLatency ->
  in_order B (fst s) (snd s) ->
  in_order B (fst s') (snd s') /\ M <= perf_now (ls_env (snd s')) - kMaxSampleLatency /\
  (forall i, settled M (fst s) i -> settled M (fst s') i).
Proof.
  induction 1 as [s|s1 s2 s3 H12 _ IH]; [done|]. intros HB HM Ho. pose proof (micro_clock _ _ H12).
  destruct IH as (Ho3 & HM3 & Hs3); [done|lia|eapply in_order_micro; [done|lia|done]|].
  split_and!; [done..|]. intros i Hi. by eapply Hs3, settled_micro.
Qed.

Lemma ring_read_settled M B g st i : in_order B g st -> inv [] g st -> (i < length wps)%nat -> ring_read M g st i -> settled M g i.
Proof.
  intros Ho Hi Hlt [Hp Hm]. destruct (inv_lookup _ _ _ i Hi Hlt) as (pe & _ & _ & Ht).
  destruct (rb_type (pe_rb pe)).
  - destruct (Hp Ht) as [Hh|[Hn|Ha]]; [right; done|left; by rewrite Hn|]. by rewrite (timely_alloc Htimely) in Ha.
  - left. destruct (Hm Ht) as [->|(x & Hx & HM)]; [constructor|]. pose proof (io_ring _ _ _ Ho i) as Hs.
    apply Forall_forall. intros ev Hev.
    pose proof (StronglySorted_app_1_elem_of _ _ _ (snd x) ev Hs (list_elem_of_fmap_2 snd _ _ Hx) Hev) as Hle. cbv beta in Hle. lia.
Qed.

Lemma settled_rest M B g st t i b ev : in_order B g st -> (forall j, (j < length wps)%nat -> settled M g j) -> t <= M ->
  (forall w, w ∈ queued (held g) -> t <= ew_timestamp w) -> (i < length wps)%nat -> (b, ev) ∈ held g i ->
  forall j, (j < length wps)%nat -> Forall (fun e => t <= time j e) (unprocessed g j).
Proof.
  intros Ho Hs Ht Hmin Hi Hin j Hj. assert (Hheld : forall x, x ∈ held g j -> t <= time j (snd x)).
  { intros x Hx. apply (Hmin (wrap j x)). apply elem_of_queued. by exists j, x. }
  apply Forall_app. split.
  - apply Forall_map, Forall_forall. intros x Hx. by apply Hheld.
  - destruct (Hs j Hj) as [Hp|[_ Hne]].
    + eapply Forall_impl; [exact Hp|]. cbv beta. intros. lia.
    + destruct (held g j) as [|x h] eqn:Eh; [done|]. pose proof (io_ring _ _ _ Ho j) as Hso. unfold unprocessed in Hso.
      rewrite Eh in Hso. inversion_clear Hso as [|? ? _ Hf]. rewrite Forall_app in Hf. destruct Hf as [_ Hf].
      specialize (Hheld x ltac:(by left)). eapply Forall_impl; [exact Hf|]. cbv beta. intros. lia.
Qed.

Lemma sorted_snoc l t : StronglySorted Z.le l -> Forall (fun x => x <= t) l -> StronglySorted Z.le (l ++ [t]).
Proof.
  intros Hs Hf. apply StronglySorted_app_2; [|done|by repeat constructor]. intros x y Hx Hy.
  apply list_elem_of_singleton in Hy as ->. rewrite Forall_forall in Hf. by apply Hf.
Qed.

Lemma Forall_sublist_of {A} (P : A -> Prop) l l' : l `sublist_of` l' -> Forall P l' -> Forall P l.
Proof. intros Hs Hf. rewrite Forall_forall in *. intros x Hx. by eapply Hf, elem_of_sublist. Qed.

Lemma StronglySorted_sublist_of {A} (R : relation A) l l' : l `sublist_of` l' -> StronglySorted R l' -> StronglySorted R l.
Proof.
  induction 1 as [|x l l' Hs IH|x l l' Hs IH]; intros Hso; inversion_clear Hso as [|? ? Hso' Hf]; [constructor|..|by apply IH].
  constructor; [by apply IH|]. by eapply Forall_sublist_of.
Qed.

Lemma in_order_drop B g st st2 i b ev h1 h2 : in_order B g st -> held g i = h1 ++ (b, ev) :: h2 ->
  ls_processed st2 = ls_processed st -> ls_env st2 = ls_env st -> in_order B (drop_event g i (h1 ++ h2)) st2.
Proof.
  intros [H1' H2' H3' H4' H5'] Hh Ep Ee.
  assert (Hsub : forall j, unprocessed (drop_event g i (h1 ++ h2)) j `sublist_of` unprocessed g j).
  { intros j. unfold unprocessed. cbn [drop_event pend held]. apply sublist_app; [|done].
    destruct (decide (j = i)) as [->|Hne]; [|by rewrite upd_ne]. rewrite upd_eq, Hh, !map_app. cbn [map].
    apply sublist_app; [done|by apply sublist_cons]. }
  split; rewrite ?Ep, ?Ee; try done; intros j.
  - intros Hj. eapply Forall_sublist_of; [apply Hsub|by apply H3'].
  - eapply StronglySorted_sublist_of; [apply Hsub|apply H4'].
  - eapply Forall_sublist_of; [apply Hsub|apply H5'].
Qed.

(** The top of the queue, recorded as processed, is the new bound. *)
Lemma in_order_record B M g st i b ev w : inv [] g st -> in_order B g st -> (forall j, (j < length wps)%nat -> settled M g j) ->
  pq_top (ls_queue st) = Some (wrap i (b, ev)) -> time i ev <= M -> (i < length wps)%nat -> (b, ev) ∈ held g i ->
  in_order (time i ev) g (record_event (set_worker st w) i ev).
Proof.
  intros Hi Ho Hset Htop Htm Hlt Hin.
  assert (Hmin : forall w, w ∈ queued (held g) -> time i ev <= ew_timestamp w).
  { intros w' Hw'. apply (pq_top_min _ _ (inv_pq _ _ _ Hi) Htop). by rewrite (inv_queue _ _ _ Hi). }
  pose proof (settled_rest M B g st _ i b ev Ho Hset Htm Hmin Hlt Hin) as Hrest.
  assert (HBt : B <= time i ev).
  { pose proof (io_rest _ _ _ Ho i Hlt) as Hf. rewrite Forall_forall in Hf. apply Hf. unfold unprocessed.
    apply elem_of_app. left. apply (list_elem_of_fmap_2 snd _ _ Hin). }
  destruct Ho as [H1' H2' H3' H4' H5']. split; try done; cbn [record_event set_worker ls_processed];
    unfold times_of; rewrite map_app; cbn [map fst snd].
  - apply sorted_snoc; [done|]. eapply Forall_impl; [exact H2'|]. cbv beta. intros. lia.
  - apply Forall_app. split; [|by repeat constructor]. eapply Forall_impl; [exact H2'|]. cbv beta. intros. lia.
Qed.

(** Processing the top keeps the order, with the time of the event as the new bound. *)
Lemma pstep_order B M s s' : pstep M s s' -> inv [] (fst s) (snd s) -> in_order B (fst s) (snd s) ->
  (forall j, (j < length wps)%nat -> settled M (fst s) j) -> B <= M ->
  M <= perf_now (ls_env (snd s)) - kMaxSampleLatency ->
  exists B', B' <= M /\ in_order B' (fst s') (snd s') /\ (forall j, (j < length wps)%nat -> settled M (fst s') j) /\
    M <= perf_now (ls_env (snd s')) - kMaxSampleLatency.
Proof.
  intros Hp. destruct Hp as [g st i b ev h1 h2 w st2 g' st' Htop Htm Hlt Hh Hperf Hw st1 g2 Hi2 Hsteps Htop' Ew Ep Ee Hrd].
  cbn [fst snd set_queue ls_env]. intros Hi Ho Hset HB HM. exists (time i ev). split; [done|].
  assert (Hin : (b, ev) ∈ held g i) by (rewrite Hh; apply elem_of_app; right; by left).
  assert (Ho1 : in_order (time i ev) g st1) by (by eapply in_order_record).
  destruct (steps_order (time i ev) M (g, st1) _ (rtc_once _ _ (micro_tick g st1))) as (Ho2 & HM2 & Hs2); [done..|].
  cbn [fst snd] in Ho2, HM2, Hs2.
  assert (Ho3 : in_order (time i ev) g2 st2).
  { eapply in_order_drop; [exact Ho2|exact Hh| |exact Ee]. rewrite Ep. symmetry. apply (micro_keeps _ _ (micro_tick g st1)). }
  rewrite <- Ee in HM2. destruct (steps_order (time i ev) M _ _ Hsteps Htm HM2 Ho3) as (Ho4 & HM4 & Hs4). cbn [fst snd] in *.
  split; [by destruct Ho4|]. split; [|done]. intros j Hj.
  destruct (decide (types !! i = Some kPerfRingBuffer /\ j = i)) as [[Hpf ->]|Hne].
  - destruct (Hrd Hpf) as [?|[Hn|Ha]]; [by right|left; by rewrite Hn|]. by rewrite (timely_alloc Htimely) in Ha.
  - apply Hs4. destruct (Hs2 j (Hset j Hj)) as [Hl|[Hpj Hhj]]; [by left|]. right. split; [done|].
    unfold g2. cbn [drop_event held]. rewrite upd_ne; [done|]. intros ->. by apply Hne.
Qed.

Lemma dequeue_rings_order l B M fuel idx g st : inv [] g st -> accounted (ls_env st) g l ->
  Forall (fun i => i < length wps)%nat idx -> in_order B g st -> B <= M ->
  M <= perf_now (ls_env st) - kMaxSampleLatency ->
  exists n fin g' st', dequeue_rings sample_types fuel st idx M = Some (n, fin, st') /\ rtc micro (g, st) (g', st') /\
    (fin = true -> forall i, i ∈ idx -> settled M g' i).
Proof.
  revert g st. induction idx as [|i idx IH]; intros g st Hi Ha Hf Ho HB HM; cbn [dequeue_rings].
  { eexists _, _, g, st. split; [done|]. split; [done|]. intros _ i Hin. by apply elem_of_nil in Hin. }
  inversion_clear Hf as [|? ? Hlt Hf']. destruct (dequeue_ring_spec l M fuel _ _ _ Hi Ha Hlt) as (n & fin & g1 & st1 & -> & Hs & Hfin).
  destruct fin; [|by eexists _, _, g1, st1]. destruct (steps_inv _ _ _ _ Hs Hi Ha) as (Hi1 & Ha1 & _).
  destruct (steps_order _ _ _ _ Hs HB HM Ho) as (Ho1 & HM1 & _). cbn [fst snd] in *.
  pose proof (ring_read_settled _ _ _ _ _ Ho1 Hi1 Hlt (Hfin eq_refl)) as Hset.
  destruct (IH _ _ Hi1 Ha1 Hf' Ho1 HB HM1) as (m & fin & g2 & st2 & -> & Hs2 & Hfin2).
  destruct (steps_order _ _ _ _ Hs2 HB HM1 Ho1) as (_ & _ & Hkeep). cbn [fst snd] in Hkeep.
  eexists _, fin, g2, st2. split; [done|]. split; [by etrans|]. intros Hf j Hj.
  apply elem_of_cons in Hj as [->|Hj]; [by apply Hkeep|by apply Hfin2].
Qed.

Lemma psteps_order B M s s' : rtc (pstep M) s s' -> inv [] (fst s) (snd s) -> accounted (ls_env (snd s)) (fst s) (ls_processed (snd s)) ->
  in_order B (fst s) (snd s) -> (forall j, (j < length wps)%nat -> settled M (fst s) j) -> B <= M ->
  M <= perf_now (ls_env (snd s)) - kMaxSampleLatency ->
  exists B', B' <= M /\ in_order B' (fst s') (snd s') /\ (forall j, (j < length wps)%nat -> settled M (fst s') j) /\
    M <= perf_now (ls_env (snd s')) - kMaxSampleLatency.
Proof.
  intros Hsteps. revert B. induction Hsteps as [s|s1 s2 s3 H12 _ IH]; intros B Hi Ha Ho Hs HB HM; [by exists B|].
  destruct (pstep_inv _ _ _ H12 Hi Ha) as (Hi2 & Ha2 & _). destruct (pstep_order _ _ _ _ H12 Hi Ho Hs HB HM) as (B2 & HB2 & Ho2 & Hs2 & HM2).
  by apply (IH B2).
Qed.

(** A refused event is the last of the history, and still the first of the rest. *)
Lemma failed_order B M r g st st' : queue_result M (Failed r) g st st' -> inv [] g st -> in_order B g st ->
  (forall j, (j < length wps)%nat -> settled M g j) -> exists B', B' <= M /\ in_order B' g st'.
Proof.
  intros (_ & i & b & ev & w & -> & Hw & Htop & Hin & Hlt & Htm & _) Hi Ho Hset.
  exists (time i ev). split; [done|]. by eapply in_order_record.
Qed.

(** One round without draining: what it processed is in order, and nothing it left or
    that comes later is before [now - kMaxSampleLatency]. *)
Lemma ordered_round_order B fuel g st now : inv [] g st -> accounted (ls_env st) g (ls_processed st) -> in_order B g st ->
  B <= now - kMaxSampleLatency -> now <= perf_now (ls_env st) ->
  exists o g' st' B', ordered_round sample_types fuel st false now = Some (o, st') /\ call_result o g' st' /\
    in_order B' g' st' /\ B' <= now - kMaxSampleLatency /\ now <= perf_now (ls_env st').
Proof.
  intros Hi Ha Ho HB Hnow. unfold ordered_round. rewrite (inv_length _ _ _ Hi). set (M := now - kMaxSampleLatency) in *.
  destruct (dequeue_rings_order (ls_processed st) B M fuel _ _ _ Hi Ha all_rings Ho HB) as (n & fin & g1 & st1 & -> & Hs & Hset); [lia|].
  destruct (steps_inv _ _ _ _ Hs Hi Ha) as (Hi1 & Ha1 & _ & Ep).
  destruct (steps_order B M _ _ Hs HB) as (Ho1 & HM1 & _); [cbn [snd]; lia|done|]. cbn [fst snd] in *. rewrite <- Ep in Ha1.
  destruct fin; cbn [negb]; [|eexists _, g1, st1, B; split_and!; [done..|lia]].
  assert (Hset1 : forall j, (j < length wps)%nat -> settled M g1 j).
  { intros j Hj. apply Hset; [done|]. apply list_elem_of_In, in_seq. lia. }
  destruct (process_queue_spec M fuel _ _ Hi1 Ha1) as (e & k & g2 & st2 & st3 & -> & Hp%rtc_nsteps_2 & Hq & _).
  destruct (psteps_inv _ _ _ Hp Hi1 Ha1) as [Hi2 Ha2].
  destruct (psteps_order B M _ _ Hp Hi1 Ha1 Ho1 Hset1 HB HM1) as (B2 & HB2 & Ho2 & Hset2 & HM2). cbn [fst snd] in *.
  destruct e as [| |r|].
  - destruct Hq as [-> _]. destruct (Nat.eqb n 0); eexists _, g2, st2, B2; (split_and!; [done..|lia]).
  - destruct Hq as [-> _]. eexists _, g2, st2, B2. split_and!; [done..|lia].
  - destruct (failed_order _ _ _ _ _ _ Hq Hi2 Ho2 Hset2) as (B3 & HB3 & Ho3). eexists _, g2, st3, B3.
    split; [done|]. split; [by eapply failed_result|]. split_and!; [done..|].
    destruct Hq as (_ & i & b & ev & w & -> & _). cbn [record_event set_worker ls_env]. lia.
  - cbn [queue_result] in Hq. subst st3. eexists _, g2, st2, B2. split_and!; [done..|lia].
Qed.

Lemma ordered_loop_order B fuel g st now deadline : inv [] g st -> accounted (ls_env st) g (ls_processed st) -> in_order B g st ->
  B <= now - kMaxSampleLatency -> now <= perf_now (ls_env st) ->
  exists o g' st' B', ordered_loop sample_types fuel st false now deadline = Some (o, st') /\ call_result (Some o) g' st' /\
    in_order B' g' st' /\ B' <= perf_now (ls_env st') - kMaxSampleLatency.
Proof.
  revert B g st now. induction fuel as [|fuel IH]; intros B g st now Hi Ha Ho HB Hnow; cbn [ordered_loop].
  { eexists _, g, st, B. split_and!; [done..|lia]. }
  destruct (negb _ && _); [|eexists _, g, st, B; split_and!; [done..|lia]].
  destruct (ordered_round_order B (S fuel) g st now Hi Ha Ho HB Hnow) as (o & g1 & st1 & B1 & -> & Hres & Ho1 & HB1 & Hnow1).
  destruct o as [o|]; [eexists o, g1, st1, B1; split_and!; [done..|lia]|]. destruct Hres as [Hi1 Ha1].
  destruct (steps_inv _ _ _ _ (rtc_once _ _ (micro_tick g1 st1)) Hi1 Ha1) as (Hi2 & Ha2 & _ & Ep).
  pose proof (micro_clock _ _ (micro_tick g1 st1)) as Hck. cbn [fst snd] in *.
  apply (IH B1 _ _ _ Hi2); [by rewrite Ep| |lia|lia].
  apply (in_order_micro B1 _ _ (micro_tick g1 st1)); [cbn [snd]; lia|done].
Qed.

Lemma ordered_call_order B fuel g st : inv [] g st -> accounted (ls_env st) g (ls_processed st) -> in_order B g st ->
  B <= perf_now (ls_env st) - kMaxSampleLatency ->
  exists o g' st' B', worker_process_ring_buffers_ordered sample_types fuel st false = Some (o, st') /\ call_result (Some o) g' st' /\
    in_order B' g' st' /\ B' <= perf_now (ls_env st') - kMaxSampleLatency.
Proof.
  intros Hi Ha Ho HB. unfold worker_process_ring_buffers_ordered.
  destruct (steps_inv _ _ _ _ (rtc_once _ _ (micro_tick g st)) Hi Ha) as (Hi2 & Ha2 & _ & Ep).
  pose proof (micro_clock _ _ (micro_tick g st)) as Hck. cbn [fst snd] in *.
  apply (ordered_loop_order B _ (grow g st) (tick st)); [done|by rewrite Ep| |lia|done].
  by apply (in_order_micro B _ _ (micro_tick g st)).
Qed.

(** Successive calls of the ordered processing, until one does not return normally. *)
Fixpoint ordered_calls (fuels : list nat) (st : state) : option state :=
  match fuels with
  | [] => Some st
  | fuel :: fuels' =>
      let? (o, st) := worker_process_ring_buffers_ordered sample_types fuel st false in
      match o with
      | Returned r => if IsDDResOK r then ordered_calls fuels' st else Some st
      | OutOfFuel => Some st
      end
  end.

(** C28: the purpose of the reordering: if events reach their rings within
    [kMaxSampleLatency] of their timestamps, and in the order of their timestamps within
    each ring, MPSC rings included (which those do not guarantee: without it the order can
    be broken, [unsorted_mpsc_ring_out_of_order]), the clock does not go back and wrapped
    events can be copied, then over any number of calls, interleaved in any way with the
    producers, all the events of all the rings are given to the worker in the order of
    their timestamps. *)
Theorem ordered_processing_sorted B fuels g st :
  inv [] g st -> accounted (ls_env st) g (ls_processed st) -> in_order B g st ->
  B <= perf_now (ls_env st) - kMaxSampleLatency ->
  exists st', ordered_calls fuels st = Some st' /\ StronglySorted Z.le (times_of (ls_processed st')).
Proof.
  revert B g st. induction fuels as [|fuel fuels IH]; intros B g st Hi Ha Ho HB; cbn [ordered_calls].
  { exists st. split; [done|apply (io_sorted _ _ _ Ho)]. }
  destruct (ordered_call_order B fuel g st Hi Ha Ho HB) as (o & g' & st' & B' & -> & Hres & Ho' & HB').
  destruct o as [r|]; cbn [call_result] in Hres; [|exists st'; split; [done|apply (io_sorted _ _ _ Ho')]].
  destruct (IsDDResOK r); [|exists st'; split; [done|apply (io_sorted _ _ _ Ho')]].
  destruct Hres as [Hi' Ha']. by apply (IH B' g').
Qed.

End Proofs.
