(* ===== verification/MainLoopSafety.v ===== *)
(** * The worker's loop from start to end

    [worker_loop] (src/perf_mainloop.cc) against the interfaces of the worker, of the
    queue and of the environment: from its start to its last export no call leaves its
    preconditions, and every event of the rings is accounted for at the end. *)

From S2P Require Import Prelude RingBuffer EventRings Ddres Watcher Clocks MainLoop MainLoopProofs.

(** What the loop needs of the worker besides the processing of events: starting, reading
    the mappings of a process, exporting.  [export_ready]: some time has passed since the
    cycle started; [worker_done]: what the last export leaves. *)
Class WorkerLoopLaws (E W : Type) `{WorkerLaws E W} := {
  startable : E -> W -> Prop;
  export_ready : E -> W -> Prop;
  worker_done : W -> Prop;
  export_ready_step e pes w : worker_ok e w -> export_ready (fst (env_step e pes)) w;
  process_event_result e w ev k r w' : process_event e w ev k = Some (r, w') -> IsDDResOK r = true \/ IsDDResFatal r = true;
  init_fun_ok e w r w' : startable e w -> init_fun e w = (r, w') -> IsDDResFatal r = false -> worker_ok e w';
  backpopulate_total e w : worker_ok e w -> exists w', backpopulate e w = Some w' /\ worker_ok e w';
  maybe_export_total e w now : worker_ok e w -> export_ready e w ->
    exists r w', maybe_export e w now = Some (r, w') /\
      (IsDDResFatal r = false -> if wants_restart w' then worker_done w' else worker_ok e w');
  final_cycle_total e w : worker_ok e w -> export_ready e w ->
    exists r w', final_cycle e w = Some (r, w') /\ (IsDDResFatal r = false -> worker_done w')
}.

Section Safety.

Context {Q E W : Type} `{PriorityQueueLaws Q} `{WorkerLoopLaws E W}.
Context (sample_types : list Z) (wps : list nat) (types : list RingBufferType) `{!LoopEnvLaws sample_types wps types}.

Abbreviation state := (LoopState Q E W).
Abbreviation ghost := (@ghost).
Abbreviation inv := (inv sample_types wps types []).
Abbreviation accounted := (accounted sample_types wps types).

(** Every event is accounted for, but for one that the worker refused with a fatal
    error, which is still queued. *)
Definition ended_with (g : ghost) (o : outcome) (st : state) : Prop :=
  exists l, accounted (ls_env st) g l /\
    (ls_processed st = l \/
     exists i b ev r, ls_processed st = l ++ [(i, ev)] /\ (b, ev) ∈ held g i /\ o = Returned r /\ IsDDResFatal r = true).
Definition ended (o : outcome) (st : state) : Prop := exists g, ended_with g o st.

(** The loop can go on. *)
Definition going (g : ghost) (st : state) : Prop := inv g st /\ accounted (ls_env st) g (ls_processed st).

Lemma going_ended o g st : going g st -> ended o st.
Proof. intros [_ Ha]. exists g, (ls_processed st). auto. Qed.

Abbreviation after_tick g st := (grow sample_types wps types g st).

Lemma tick_accounted g st l : inv g st -> accounted (ls_env st) g l ->
  inv (after_tick g st) (tick st) /\ accounted (ls_env (tick st)) (after_tick g st) l /\
  ls_worker (tick st) = ls_worker st /\ ls_processed (tick st) = ls_processed st.
Proof. apply (steps_inv _ _ _ [] l (g, st) (_, tick st)), rtc_once, micro_tick. Qed.

Lemma going_tick g st : going g st ->
  going (after_tick g st) (tick st) /\ export_ready (ls_env (tick st)) (ls_worker (tick st)).
Proof.
  intros [Hi Ha]. destruct (tick_accounted _ _ _ Hi Ha) as (Hi' & Ha' & Ew & Ep).
  split; [split; [done|by rewrite Ep]|]. rewrite Ew, tick_env. by apply export_ready_step, (inv_worker _ _ _ _ _ _ Hi).
Qed.

Lemma ended_tick g o st : inv g st -> ended_with g o st -> ended o (tick st).
Proof.
  intros Hi (l & Ha & Hl). destruct (tick_accounted _ _ _ Hi Ha) as (_ & Ha' & _ & Ep). exists (after_tick g st), l. split; [done|].
  rewrite Ep. destruct Hl as [Hl|(i & b & ev & r & Hl & Hin & Hr)]; [by left|]. right. by exists i, b, ev, r.
Qed.

Lemma going_worker g st w : going g st -> worker_ok (ls_env st) w -> going g (set_worker st w).
Proof. intros [Hi Ha] Hw. split; [|done]. destruct Hi. by split. Qed.

(** The ordered processing keeps the loop going, or the worker failed. *)
Lemma ordered_keeps_going fuel drain g st : going g st ->
  exists o g' st', worker_process_ring_buffers_ordered sample_types fuel st drain = Some (o, st') /\ inv g' st' /\
    ended_with g' o st' /\ (forall r, o = Returned r -> IsDDResFatal r = false -> going g' st').
Proof.
  intros Hg. apply going_tick in Hg as [[Hi Ha] _]. unfold worker_process_ring_buffers_ordered.
  destruct (ordered_loop_spec sample_types wps types fuel _ (tick st) drain (perf_now (ls_env (tick st)))
              (if drain then time_point_max else perf_now (ls_env (tick st)) + k_sample_default_wakeup) Hi Ha) as (o & g' & st' & Eo & Hres).
  assert (Hend : inv g' st' /\ accounted (ls_env st') g' (ls_processed st') -> inv g' st' /\ ended_with g' o st' /\
                   (forall r, o = Returned r -> IsDDResFatal r = false -> going g' st')).
  { intros [Hi' Ha']. split_and!; [done|by exists (ls_processed st'); auto|done]. }
  exists o, g', st'. split; [exact Eo|]. destruct o as [r|]; cbn [call_result] in Hres; [|by apply Hend].
  destruct (IsDDResOK r) eqn:Er; [by apply Hend|].
  destruct Hres as (Hi' & l & i & b & ev & Ep & Ha' & Hin & e0 & w0 & k & w & Hev).
  destruct (process_event_result _ _ _ _ _ _ Hev) as [Hr|Hr]; [congruence|]. split_and!; [done| |].
  - exists l. split; [done|]. right. by exists i, b, ev, r.
  - intros r' [= <-]. congruence.
Qed.

(** How the loop ends. *)
Definition loop_ended (e : loop_end) (st : state) : Prop :=
  match e with
  | LoopLeft => exists g, going g st
  | LoopReturned r => ended (Returned r) st /\ (IsDDResFatal r = false -> worker_done (ls_worker st))
  | LoopOutOfFuel => ended OutOfFuel st
  end.

Lemma loop_failed r st : IsDDResFatal r = true -> ended (Returned r) st -> loop_ended (LoopReturned r) st.
Proof. intros Hr He. split; [done|congruence]. Qed.

Lemma loop_body_safe fuel g st revents skip_poll : going g st ->
  exists r st', loop_body sample_types fuel st true revents skip_poll = Some (r, st') /\
    match r with inl _ => exists g', going g' st' | inr e => loop_ended e st' end.
Proof.
  intros Hg. unfold loop_body. destruct (scan_fds _ _ _ _ _) as [stop|]; [|eexists _, st; split; [done|]; by eapply loop_failed, going_ended].
  destruct (ordered_keeps_going fuel stop g st Hg) as (o & g1 & st1 & -> & Hi1 & He1 & Hgo).
  destruct o as [r|]; [|eexists _, _; split; [done|]; by eapply ended_tick].
  destruct (IsDDResFatal r) eqn:Er; [eexists _, _; split; [done|]; eapply loop_failed; [done|]; by eapply ended_tick|].
  destruct (going_tick _ _ (Hgo r eq_refl Er)) as [Hg2 Hx]. pose proof (inv_worker _ _ _ _ _ _ (proj1 Hg2)) as Hw.
  destruct (maybe_export_total _ _ (steady_now (ls_env (tick st1))) Hw Hx) as (r2 & w2 & -> & Hw2).
  destruct (IsDDResFatal r2) eqn:Er2; [eexists _, _; split; [done|]; eapply loop_failed; [done|exact (going_ended _ _ _ Hg2)]|].
  specialize (Hw2 eq_refl). destruct (wants_restart w2); [eexists _, _; split; [done|]; by split; [exact (going_ended _ _ _ Hg2)|]|].
  pose proof (going_worker _ _ _ Hg2 Hw2) as Hg3. destruct stop; eexists _, _; (split; [done|]); by eexists.
Qed.

Lemma poll_loop_safe fuel g st revents skip_poll : going g st ->
  exists e st', poll_loop sample_types fuel st true revents skip_poll = Some (e, st') /\ loop_ended e st'.
Proof.
  revert g st revents skip_poll. induction fuel as [|fuel IH]; intros g st revents skip_poll Hg; cbn [poll_loop].
  { eexists _, _. split; [done|]. by eapply going_ended. }
  destruct (going_tick _ _ Hg) as [Hg1 _]. destruct (termination_requested _); [eexists _, _; split; [done|]; by eexists|].
  destruct (if skip_poll then _ else _) as [| |revents']; [by eapply IH|eexists _, _; split; [done|]; by eapply loop_failed, going_ended|].
  destruct (loop_body_safe (S fuel) _ _ revents' skip_poll Hg1) as (r & st2 & -> & Hr).
  destruct r as [skip|e]; [destruct Hr as [g' Hr]; by eapply IH|by eexists _, _].
Qed.

(** A worker about to start on rings whose contents are known. *)
Definition at_start (g : ghost) (st : state) : Prop :=
  startable (ls_env st) (ls_worker st) /\ accounted (ls_env st) g (ls_processed st) /\
  forall w, worker_ok (ls_env st) w -> inv g (set_queue (set_worker st w) pq_empty).

(** The worker was released after a last export. *)
Definition released_done (st : state) : Prop := exists w, worker_done w /\ ls_worker st = finish_fun (ls_env st) w.

Lemma worker_loop_spec fuel g st backpop : at_start g st ->
  exists o st', worker_loop sample_types fuel st backpop true = Some (o, st') /\ ended o st' /\
    forall r, o = Returned r -> IsDDResFatal r = false -> released_done st'.
Proof.
  intros (Hs & Ha & Hinv). unfold worker_loop. destruct (init_fun _ _) as [r w] eqn:Ei.
  destruct (IsDDResFatal r) eqn:Er.
  { eexists _, _. split; [done|]. split; [exists g, (ls_processed st); by auto|]. intros r' [= <-]. congruence. }
  pose proof (init_fun_ok _ _ _ _ Hs Ei Er) as Hw. cbn [set_worker ls_env ls_worker].
  assert (Hb : exists w2, (if backpop then backpopulate (ls_env st) w else Some w) = Some w2 /\ worker_ok (ls_env st) w2).
  { destruct backpop; [by apply backpopulate_total|by exists w]. }
  destruct Hb as (w2 & -> & Hw2). destruct (poll_loop_safe fuel g (set_queue (set_worker st w2) pq_empty) [] false) as (e & st2 & Ep & He).
  { split; [by apply Hinv|done]. }
  unfold set_worker in *. cbn [ls_pes ls_queue ls_env ls_processed] in *. rewrite Ep.
  destruct e as [|r2|].
  - destruct He as [g2 Hg2]. apply going_tick in Hg2 as [Hg3 Hx].
    destruct (final_cycle_total _ _ (inv_worker _ _ _ _ _ _ (proj1 Hg3)) Hx) as (r3 & w3 & -> & Hw3).
    destruct (IsDDResFatal r3) eqn:Er3; eexists _, _; (split; [done|]); (split; [exact (going_ended _ _ _ Hg3)|]).
    + intros r' [= <-]. congruence.
    + intros r' _ _. exists w3. split; [by apply Hw3|done].
  - destruct He as [He Hd]. eexists _, _. split; [done|]. split; [exact He|]. intros r' [= <-] Hr'. exists (ls_worker st2). auto.
  - eexists _, _. split; [done|]. split; [exact He|done].
Qed.

End Safety.
