(* ===== verification/MainLoopBatch.v ===== *)
(** * The main loop without reordering

    [worker_process_ring_buffers] takes the rings one after the other and everything that
    is available in each.  While the other side of the rings does nothing, one pass gives
    the worker every pending event of every ring, ring by ring and in the order of each,
    and leaves the rings empty. *)

From S2P Require Import Prelude RingBuffer MpscRing MpscSystem PerfRing PerfSample EventRings Ddres Clocks Watcher MainLoop MainLoopProofs.

(** ** Everything available in a perf ring *)

Lemma rd_app d size p a b : 0 <= a -> 0 <= b -> rd d size p (a + b) = rd d size p a ++ rd d size (p + a) b.
Proof.
  intros Ha Hb. unfold rd. rewrite (seqZ_split (a + b) a) by lia. rewrite map_app, map_map. f_equal.
  replace (a + b - a) with b by lia. apply map_ext. intros i. do 2 f_equal. lia.
Qed.

Lemma rd_events rb p evs : holds_events rb p evs -> rd (data rb) (data_size rb) p (evs_end p evs - p) = concat evs.
Proof.
  revert p. induction evs as [|ev evs IH]; intros p; cbn [holds_events evs_end concat].
  - intros _. by rewrite Z.sub_diag.
  - intros (_ & Hd & Ht). pose proof (evs_end_ge (p + ev_len ev) evs).
    replace (evs_end (p + ev_len ev) evs - p) with (ev_len ev + (evs_end (p + ev_len ev) evs - (p + ev_len ev))) by lia.
    rewrite rd_app, Hd, IH by (unfold ev_len in *; lia || done). done.
Qed.

Lemma read_all_spec rb evs alloc_ok : perf_inv rb evs -> mirrored_mapping rb = true \/ alloc_ok = true ->
  exists b rb', pr_read_all_available rb (pr_update_available rb) alloc_ok = Some (Some b, rb') /\ deref rb' b = Some (concat evs) /\
    same_ring rb rb' /\ intermediate_reader_pos rb' = writer_pos rb.
Proof.
  intros H Hal. pose proof (perf_pos _ _ H) as (Hs & Hm & Hland). pose proof (pi_writer _ _ H) as [Hw Hw64].
  pose proof (pi_reader _ _ H) as [Hr _]. pose proof (pi_room _ _ H) as Hroom. pose proof (pi_events _ _ H) as Hev.
  pose proof (evs_end_ge (intermediate_reader_pos rb) evs) as Hge. pose proof (rd_events _ _ _ Hev) as Hrd. rewrite <- Hw in Hrd.
  unfold pr_read_all_available, pr_update_available. set (p := intermediate_reader_pos rb) in *. rewrite Hland.
  rewrite (u64_small (writer_pos rb - p)) by (unfold is_u64; lia). set (n := writer_pos rb - p) in *.
  set (off := p mod data_size rb). assert (Hoff : 0 <= off < data_size rb) by (apply Z.mod_pos_bound; lia).
  destruct (mirrored_mapping rb) eqn:Hmir; cbn [orb]; [|destruct (Z.leb_spec (off + n) (data_size rb))].
  - eexists _, _. split; [done|]. split; [|done]. unfold deref, access_ok.
    cbn [buf_data buf_size set_intermediate mirrored_mapping data_size data]. rewrite Hmir.
    destruct (Z.leb_spec (off + n) (2 * data_size rb)); [|lia]. unfold off. by rewrite rd_mod, Hrd by lia.
  - eexists _, _. split; [done|]. split; [|done]. unfold deref, access_ok.
    cbn [buf_data buf_size set_intermediate mirrored_mapping data_size data]. rewrite Hmir.
    destruct (Z.leb_spec (off + n) (data_size rb)); [|lia]. unfold off. by rewrite rd_mod, Hrd by lia.
  - destruct Hal as [Hx|Hx]; [done|subst alloc_ok]. destruct (ensure_wrap_copy_buffer rb n true) as [[|] rb1] eqn:Ee.
    2: { destruct (ensure_wrap_copy_fail rb n true rb1) as [? _]; [lia|done|done]. }
    destruct (ensure_wrap_copy_capacity rb n true rb1) as ((w & Hwc) & Hcap & w0 & c0 & ->); [lia|done|].
    destruct (copy_wrapped_deref (set_wrap_copy rb w0 c0) off n w) as (rb2 & E2 & (w2 & ->) & Hde);
      [done|done|done|cbn [set_wrap_copy data_size]; lia..|].
    rewrite E2. eexists _, _. split; [done|]. split; [|done]. rewrite Hde by lia. cbn [data data_size set_wrap_copy].
    unfold off. by rewrite rd_mod, Hrd by lia.
Qed.

(** The header at the front of a buffer of events. *)
Lemma load_hdr_event ev rest : event_ok ev -> exists h, load_hdr (ev ++ rest) = Some h /\ h_size h = ev_len ev.
Proof.
  intros (Hh & Hl & _).
  assert (Hload : forall n off, 0 <= off -> off + Z.of_nat n <= 8 -> load n (ev ++ rest) off = Some (le_val (take n (drop (Z.to_nat off) (ev ++ rest))))).
  { intros n off Ho Hn. unfold load. rewrite length_app, (proj2 (Z.leb_le _ _) Ho). cbn [andb].
    destruct (Z.leb_spec (off + Z.of_nat n) (Z.of_nat (length ev + length rest))); [done|lia]. }
  unfold load_hdr. rewrite !Hload by lia. eexists. split; [done|]. cbn [h_size]. unfold ev_len. rewrite <- Hh. unfold hdr_size.
  rewrite drop_app_le, take_app_le; [done|rewrite length_drop|]; lia.
Qed.

(** ** The reading position of a multi-producer ring in batch mode *)

Definition batch_holds (rb : RingBuffer) (pending : list (list Z)) : Prop :=
  exists s r q i js, rep Batch s r q i js /\ s_rb s = rb /\ pending = deliverable (drop i q).

Lemma batch_read rb p : batch_holds rb p ->
  exists b rb', mpsc_rb_read_sample rb = Some (b, rb') /\ rb_type rb' = rb_type rb /\ writer_pos rb' = writer_pos rb /\
    match b, p with
    | Some b, ev :: p' => deref rb' b = Some ev /\ ev <> [] /\ batch_holds rb' p'
    | None, [] => batch_holds rb' []
    | _, _ => False
    end.
Proof.
  intros (s & r & q & i & js & H & <- & ->). pose proof (rp_ring _ _ _ _ _ _ H) as Hring.
  destruct (read_sample_spec _ _ _ Hring) as (b & rb' & E & Hspec).
  pose proof (rep_read _ _ _ _ _ _ b rb' H E) as Hrep. pose proof (next_sample_deliverable (drop i q)) as Hdel.
  exists b, rb'. split; [done|]. split; [by eapply read_sample_type|].
  destruct (next_sample (drop i q)) as [res c] eqn:En. destruct Hspec as (Hinv & Hrp & _ & Hb). destruct Hdel as [Hdel Hnone].
  split. { pose proof (ri_writer _ _ _ Hinv) as [-> _]. pose proof (ri_writer _ _ _ Hring) as [-> _]. by rewrite Hrp. }
  pose proof (next_sample_split (drop i q)) as Hns. rewrite En in Hns.
  rewrite drop_drop in Hdel. cbn [snd] in Hrep. destruct b as [b|], res as [e|]; try done.
  - destruct Hb as [Eb Hd]. rewrite Hdel. split; [done|]. split.
    { destruct Hns as (_ & (_ & _ & Htk) & _). pose proof (tiles_sizes _ _ _ (ri_tiles _ _ _ Hring)) as Hsz.
      apply (Forall_drop _ i), (Forall_take _ c) in Hsz. rewrite Htk, Forall_app in Hsz. destruct Hsz as [_ Hsz].
      inversion_clear Hsz as [|? ? Hn _]. unfold entry_size_ok in Hn. intros Enil. rewrite Enil, Eb in Hd.
      unfold deref in Hd. cbn [buf_data buf_size] in Hd. case_match; [|done]. injection Hd as Hd.
      apply (f_equal length) in Hd. rewrite length_rd in Hd. cbn in Hd. lia. }
    eexists _, r, q, (i + c)%nat, _. by split; [apply Hrep|].
  - rewrite Hnone by done. eexists _, r, q, (i + c)%nat, _. split; [apply Hrep|]. split; [done|]. by rewrite <- Hdel, Hnone.
Qed.

Lemma batch_advance rb p : batch_holds rb p -> batch_holds (mr_advance rb) p.
Proof.
  intros (s & r & q & i & js & H & <- & ->). eexists _, _, _, _, _. split; [by apply (rep_advance s r q i js)|].
  split; [done|]. by rewrite drop_0.
Qed.

Lemma batch_destroy rb p : batch_holds rb p -> batch_holds (mr_destroy rb) p.
Proof. intros H. unfold mr_destroy. case_match; [by apply batch_advance|done]. Qed.

(** ** A pass over the rings *)

Section Batch.

Context {Q E W : Type} `{PriorityQueue Q} `{WorkerLaws E W}.

(** The other side of the rings does nothing, memory is available and the worker
    accepts the events. *)
Record still : Prop := {
  still_rings e pes : snd (env_step e pes) = pes;
  still_alloc e : memalign_ok e = true;
  still_accepts e w ev k r w' : process_event e w ev k = Some (r, w') -> IsDDResOK r = true
}.
Context (Hstill : still).

Abbreviation state := (LoopState Q E W).

Lemma still_tick (st : state) : ls_pes (tick st) = ls_pes st /\ ls_worker (tick st) = ls_worker st /\
  ls_processed (tick st) = ls_processed st /\ ls_queue (tick st) = ls_queue st.
Proof.
  unfold tick. pose proof (still_rings Hstill (ls_env st) (ls_pes st)) as Hp. destruct (env_step _ _). by cbn in *; subst.
Qed.

Lemma worker_ok_tick (st : state) : worker_ok (ls_env st) (ls_worker st) -> worker_ok (ls_env (tick st)) (ls_worker (tick st)).
Proof. intros Hw. apply (worker_ok_step _ (ls_pes st)) in Hw. unfold tick. by destruct (env_step _ _). Qed.

Definition put (pes : list PEvent) (i : nat) (rb : RingBuffer) : list PEvent := alter (fun pe => set_rb pe rb) i pes.

Lemma set_ring_pes (st : state) i rb : ls_pes (set_ring st i rb) = put (ls_pes st) i rb.
Proof. done. Qed.

Lemma put_twice pes i a b : put (put pes i a) i b = put pes i b.
Proof. unfold put. rewrite list_alter_alter_eq. done. Qed.

Lemma put_lookup pes i pe rb : pes !! i = Some pe -> put pes i rb !! i = Some (set_rb pe rb).
Proof. intros Hp. unfold put. by rewrite list_lookup_alter_eq, Hp. Qed.

Lemma put_self pes i pe : pes !! i = Some pe -> put pes i (pe_rb pe) = pes.
Proof.
  revert i. induction pes as [|x pes IH]; intros [|i] Hp; simplify_eq/=; [by destruct pe|]. f_equal. by apply IH.
Qed.

(** What a ring with pending events looks like to a pass. *)
Definition pending (rb : RingBuffer) (evs : list (list Z)) : Prop :=
  match rb_type rb with
  | kPerfRingBuffer => perf_inv rb evs /\ intermediate_reader_pos rb = reader_pos rb
  | kMPSCRingBuffer => batch_holds rb evs
  end.

(** The result of giving [evs] of ring [i] to the worker and leaving the ring as [rb]. *)
Definition gave (st st' : state) (i : nat) (evs : list (list Z)) (rb : RingBuffer) : Prop :=
  ls_pes st' = put (ls_pes st) i rb /\ ls_processed st' = ls_processed st ++ map (pair i) evs /\ worker_ok (ls_env st') (ls_worker st').

Lemma process_buffer_spec evs fuel st i pe :
  ls_pes st !! i = Some pe -> worker_ok (ls_env st) (ls_worker st) -> Forall event_ok evs -> Forall (acceptable (watcher_pos pe)) evs ->
  (length evs < fuel)%nat -> 0 <= reader_pos (pe_rb pe) -> evs_end (reader_pos (pe_rb pe)) evs < 2 ^ 64 ->
  exists st', process_buffer fuel st i (concat evs) = Some (Returned ddres_init, st') /\
    gave st st' i evs (set_reader_pos (pe_rb pe) (evs_end (reader_pos (pe_rb pe)) evs)).
Proof.
  revert fuel st pe. induction evs as [|ev evs IH]; intros fuel st pe Hpe Hw Hok Hacc Hf H0' Hend; destruct fuel as [|fuel]; [cbn in Hf; lia| |cbn in Hf; lia|].
  { cbn [concat process_buffer evs_end]. exists st. split; [done|]. split; [|by rewrite app_nil_r].
    rewrite <- (put_self _ _ _ Hpe) at 1. by destruct (pe_rb pe). }
  inversion_clear Hok as [|? ? Hok1 Hok']. inversion_clear Hacc as [|? ? Hacc1 Hacc']. cbn [concat process_buffer evs_end] in *.
  pose proof Hok1 as (_ & Hl & _). pose proof (evs_end_ge (reader_pos (pe_rb pe) + ev_len ev) evs) as Hge.
  destruct (ev ++ concat evs) as [|x l] eqn:El; [apply app_nil in El as [-> _]; cbn in Hl; lia|]. rewrite <- El. rewrite Hpe.
  destruct (load_hdr_event ev (concat evs) Hok1) as (h & -> & Hsz). rewrite Hsz.
  assert (Htake : take (Z.to_nat (ev_len ev)) (ev ++ concat evs) = ev) by (unfold ev_len; rewrite Nat2Z.id; apply take_app_length).
  rewrite Htake.
  destruct (process_event_total (ls_env st) (ls_worker st) ev (watcher_pos pe) Hw Hacc1) as (r & w & Ep & Hw').
  rewrite Ep. pose proof (still_accepts Hstill _ _ _ _ _ _ Ep) as Hr. unfold IsDDResOK, IsDDResNotOK in *. rewrite Hr. cbn [negb].
  set (st1 := record_event (set_worker st w) i ev). destruct (still_tick st1) as (E1 & E2 & E3 & _). rewrite E1.
  change (ls_pes st1) with (ls_pes st). rewrite Hpe.
  assert (Hadv : pr_advance (pe_rb pe) (ev_len ev) = set_reader_pos (pe_rb pe) (reader_pos (pe_rb pe) + ev_len ev)).
  { unfold pr_advance. rewrite event_aligned by done. rewrite u64_small; [done|]. unfold is_u64, ev_len in *. lia. }
  rewrite Hadv. set (rb1 := set_reader_pos (pe_rb pe) (reader_pos (pe_rb pe) + ev_len ev)).
  assert (Hdrop : drop (Z.to_nat (Z.min (ev_len ev) (Z.of_nat (length (ev ++ concat evs))))) (ev ++ concat evs) = concat evs).
  { rewrite length_app. unfold ev_len. replace (Z.to_nat _) with (length ev) by lia. apply drop_app_length. }
  rewrite Hdrop. destruct (IH fuel (set_ring (tick st1) i rb1) (set_rb pe rb1)) as (st' & -> & G1 & G2 & G3); try done.
  - rewrite set_ring_pes, E1. apply put_lookup. done.
  - by apply worker_ok_tick.
  - cbn [length] in Hf. lia.
  - cbn. unfold ev_len. lia.
  - exists st'. split; [done|]. split_and!; [|by rewrite G2; cbn [set_ring ls_processed]; rewrite E3; cbn; rewrite <- app_assoc|done].
    rewrite G1, set_ring_pes, E1. apply put_twice.
Qed.

Lemma holds_events_ok rb p evs : holds_events rb p evs -> Forall event_ok evs.
Proof. revert p. induction evs as [|ev evs IH]; intros p; [constructor|]. intros (Hok & _ & Ht). constructor; [done|by eapply IH]. Qed.

Lemma evs_end_aligned rb p evs : holds_events rb p evs -> p mod 8 = 0 -> evs_end p evs mod 8 = 0.
Proof.
  revert p. induction evs as [|ev evs IH]; intros p; [done|]. intros ((_ & _ & Hl8) & _ & Ht) Hp. cbn [evs_end].
  apply IH; [done|]. unfold ev_len. by rewrite Z.add_mod, Hp, Hl8.
Qed.

(** A perf ring of which everything was read and released. *)
Lemma perf_inv_emptied rb evs rb' : perf_inv rb evs -> same_ring rb rb' ->
  perf_inv (set_reader_pos (set_intermediate rb' (writer_pos rb)) (writer_pos rb)) [].
Proof.
  intros [Hsz [Hr Hr8] [Hw Hw64] Hroom Hev] (S1 & S2 & S3 & S4 & S5 & S6 & S7).
  pose proof (evs_end_ge (intermediate_reader_pos rb) evs). pose proof (evs_end_aligned _ _ _ Hev Hr8) as Hal. rewrite <- Hw in Hal.
  split; cbn [set_reader_pos set_intermediate data_size mask reader_pos writer_pos intermediate_reader_pos evs_end holds_events];
    rewrite ?S2, ?S3, ?S6; try done; try lia.
Qed.

Lemma concat_nil_events evs : Forall event_ok evs -> concat evs <> [] <-> evs <> [].
Proof.
  intros Hok. split; [by intros Hc ->|]. destruct evs as [|ev evs]; [done|]. intros _ Hc. inversion_clear Hok as [|? ? (_ & Hl & _) _].
  apply app_nil in Hc as [-> _]. cbn in Hl. lia.
Qed.

Lemma process_perf_ring_spec evs fuel st i pe :
  ls_pes st !! i = Some pe -> worker_ok (ls_env st) (ls_worker st) -> rb_type (pe_rb pe) = kPerfRingBuffer -> pending (pe_rb pe) evs ->
  Forall (acceptable (watcher_pos pe)) evs -> (length evs < fuel)%nat ->
  exists st' rb, process_perf_ring fuel st i = Some (Returned ddres_init, bool_decide (evs <> []), st') /\
    gave st st' i evs rb /\ rb_type rb = kPerfRingBuffer /\ pending rb [].
Proof.
  intros Hpe Hw Hty Hp Hacc Hf. unfold pending in Hp. rewrite Hty in Hp. destruct Hp as [Hinv Hir]. unfold process_perf_ring.
  destruct (still_tick st) as (E1 & E2 & E3 & _). rewrite E1, Hpe, (still_alloc Hstill).
  destruct (read_all_spec (pe_rb pe) evs true Hinv) as (b & rb1 & -> & -> & Hsame & Hi1); [by right|].
  pose proof (pi_writer _ _ Hinv) as [Hw1 Hw64]. pose proof (pi_reader _ _ Hinv) as [Hr _].
  pose proof (holds_events_ok _ _ _ (pi_events _ _ Hinv)) as Hok. pose proof Hsame as (S1 & _ & _ & _ & _ & _ & S7).
  destruct (process_buffer_spec evs fuel (set_ring (tick st) i rb1) i (set_rb pe rb1)) as (st2 & -> & G1 & G2 & G3); try done.
  - rewrite set_ring_pes, E1. by apply put_lookup.
  - by apply worker_ok_tick.
  - cbn [set_rb pe_rb]. rewrite S7. lia.
  - cbn [set_rb pe_rb]. rewrite S7, <- Hir, <- Hw1. lia.
  - rewrite set_ring_pes, E1, put_twice in G1. cbn [set_rb pe_rb set_ring ls_processed] in G1, G2. rewrite S7, <- Hir, <- Hw1 in G1.
    set (rb2 := set_reader_pos rb1 (writer_pos (pe_rb pe))) in *. rewrite G1, (put_lookup _ _ _ rb2 Hpe). cbn [set_rb pe_rb].
    assert (Hdes : pr_destroy rb2 = rb2).
    { unfold pr_destroy, rb2. cbn [set_reader_pos reader_pos intermediate_reader_pos]. by rewrite Hi1, Z.ltb_irrefl. }
    exists (set_ring st2 i rb2), rb2. rewrite Hdes. split.
    { rewrite (bool_decide_ext _ _ (concat_nil_events evs Hok)). done. }
    split; [|split; [by unfold rb2; cbn; rewrite S1|]].
    + split_and!; [|by cbn; rewrite G2, E3|done]. rewrite set_ring_pes, G1. apply put_twice.
    + unfold pending, rb2. cbn [set_reader_pos rb_type intermediate_reader_pos reader_pos]. rewrite S1, Hty, Hi1. split; [|done].
      pose proof (perf_inv_emptied _ _ _ Hinv Hsame) as He. destruct rb1. cbn in *. by subst.
Qed.

Lemma process_samples_spec evs fuel st i pe head :
  ls_pes st !! i = Some pe -> worker_ok (ls_env st) (ls_worker st) -> rb_type (pe_rb pe) = kMPSCRingBuffer -> batch_holds (pe_rb pe) evs ->
  writer_pos (pe_rb pe) = head -> Forall (acceptable (watcher_pos pe)) evs -> (length evs < fuel)%nat ->
  exists st' rb, process_samples fuel st i head = Some (Returned ddres_init, bool_decide (evs <> []), st') /\
    gave st st' i evs rb /\ rb_type rb = kMPSCRingBuffer /\ batch_holds rb [].
Proof.
  revert fuel st pe. induction evs as [|ev evs IH]; intros fuel st pe Hpe Hw Hty Hp Hhd Hacc Hf; destruct fuel as [|fuel]; try (cbn in Hf; lia);
    cbn [process_samples]; rewrite Hpe; destruct (batch_read _ _ Hp) as (b & rb1 & Eb & Hty1 & Hw1 & Hb);
    unfold mpsc_rb_read_sample in Eb; rewrite Hhd in Eb; rewrite Eb; destruct b as [b|]; try done.
  { exists (set_ring st i rb1), rb1. split; [done|]. split; [|by rewrite Hty1]. split; [done|]. by rewrite app_nil_r. }
  destruct Hb as (-> & Hne & Hh1). inversion_clear Hacc as [|? ? Hacc1 Hacc']. destruct ev as [|x ev]; [done|].
  destruct (process_event_total (ls_env (set_ring st i rb1)) (ls_worker st) (x :: ev) (watcher_pos pe) Hw Hacc1) as (r & w & Ep & Hw').
  cbn [set_ring ls_env ls_worker] in *. rewrite Ep. pose proof (still_accepts Hstill _ _ _ _ _ _ Ep) as Hr.
  unfold IsDDResOK, IsDDResNotOK in *. rewrite Hr. cbn [negb].
  set (st1 := record_event (set_worker (set_ring st i rb1) w) i (x :: ev)). destruct (still_tick st1) as (E1 & E2 & E3 & _). rewrite E1.
  change (ls_pes st1) with (put (ls_pes st) i rb1). rewrite (put_lookup _ _ _ rb1 Hpe). cbn [set_rb pe_rb].
  destruct (IH fuel (set_ring (tick st1) i (mr_advance rb1)) (set_rb pe (mr_advance rb1))) as (st' & rb & -> & (G1 & G2 & G3) & Ht' & Hh');
    cbn [set_rb pe_rb watcher_pos]; try done.
  - rewrite set_ring_pes, E1. change (ls_pes st1) with (put (ls_pes st) i rb1).
    rewrite (put_lookup _ _ (set_rb pe rb1)); [done|by apply put_lookup].
  - by apply worker_ok_tick.
  - by cbn; rewrite Hty1.
  - by apply batch_advance.
  - cbn. congruence.
  - cbn [length] in Hf. lia.
  - exists st', rb. split; [done|]. split; [|done]. split_and!; [| |done].
    + rewrite G1, set_ring_pes, E1. change (ls_pes st1) with (put (ls_pes st) i rb1). by rewrite !put_twice.
    + rewrite G2. cbn [set_ring ls_processed]. rewrite E3. cbn. by rewrite <- app_assoc.
Qed.

Definition rings_pending (st : state) (pend : nat -> list (list Z)) : Prop :=
  forall i pe, ls_pes st !! i = Some pe -> pending (pe_rb pe) (pend i) /\ Forall (acceptable (watcher_pos pe)) (pend i).

Lemma process_ring_spec fuel st i pe evs :
  ls_pes st !! i = Some pe -> worker_ok (ls_env st) (ls_worker st) -> pending (pe_rb pe) evs ->
  Forall (acceptable (watcher_pos pe)) evs -> (length evs < fuel)%nat ->
  exists st' rb, process_ring fuel st i = Some (Returned ddres_init, bool_decide (evs <> []), st') /\
    gave st st' i evs rb /\ pending rb [].
Proof.
  intros Hpe Hw Hp Hacc Hf. unfold process_ring. rewrite Hpe. destruct (rb_type (pe_rb pe)) eqn:Hty.
  - destruct (process_perf_ring_spec evs fuel st i pe) as (st' & rb & -> & Hg & _ & Hp'); try done. by exists st', rb.
  - unfold process_mpsc_ring. destruct (still_tick st) as (E1 & E2 & E3 & _). rewrite E1, Hpe.
    unfold pending in Hp. rewrite Hty in Hp.
    destruct (process_samples_spec evs fuel (tick st) i pe (writer_pos (pe_rb pe))) as (st' & rb & -> & (G1 & G2 & G3) & Ht & Hh);
      rewrite ?E1; try done; try by apply worker_ok_tick.
    rewrite E1 in G1. rewrite G1, (put_lookup _ _ _ rb Hpe). cbn [set_rb pe_rb]. exists (set_ring st' i (mr_destroy rb)), (mr_destroy rb).
    split; [done|]. split; [|].
    + split_and!; [rewrite set_ring_pes, G1; apply put_twice|by cbn; rewrite G2, E3|done].
    + unfold pending. assert (rb_type (mr_destroy rb) = kMPSCRingBuffer) as -> by (unfold mr_destroy, mr_advance; by case_match).
      by apply batch_destroy.
Qed.

(** The rings [idx] are emptied, in this order. *)
Lemma process_rings_spec fuel idx st pend : NoDup idx -> Forall (fun i => i < length (ls_pes st))%nat idx -> rings_pending st pend ->
  worker_ok (ls_env st) (ls_worker st) -> (forall i, i ∈ idx -> (length (pend i) < fuel)%nat) ->
  exists st', process_rings fuel st idx = Some (Returned ddres_init, existsb (fun i => bool_decide (pend i <> [])) idx, st') /\
    ls_processed st' = ls_processed st ++ concat (map (fun i => map (pair i) (pend i)) idx) /\
    rings_pending st' (fun i => if decide (i ∈ idx) then [] else pend i) /\
    worker_ok (ls_env st') (ls_worker st') /\ length (ls_pes st') = length (ls_pes st).
Proof.
  revert st pend. induction idx as [|i idx IH]; intros st pend Hnd Hlt Hp Hw Hf; cbn [process_rings].
  { exists st. split; [done|]. cbn. rewrite app_nil_r. split_and!; try done. }
  inversion_clear Hnd as [|? ? Hi Hnd']. inversion_clear Hlt as [|? ? Hlt1 Hlt'].
  destruct (lookup_lt_is_Some_2 _ _ Hlt1) as [pe Hpe]. destruct (Hp i pe Hpe) as [Hpi Hacc].
  destruct (process_ring_spec fuel st i pe (pend i) Hpe Hw Hpi Hacc) as (st1 & rb & -> & (G1 & G2 & G3) & Hp1); [by apply Hf; left|].
  cbn [IsDDResNotOK ddres_init res_sev]. change (negb (0 =? DD_SEV_OK)) with false. cbn match.
  assert (Hlen : length (ls_pes st1) = length (ls_pes st)) by (rewrite G1; apply length_alter).
  assert (Hp' : rings_pending st1 (fun j => if decide (j = i) then [] else pend j)).
  { intros j pe' Hj. rewrite G1 in Hj. destruct (decide (j = i)) as [->|Hne].
    - rewrite (put_lookup _ _ _ rb Hpe) in Hj. simplify_eq. by split; [|constructor].
    - unfold put in Hj. rewrite list_lookup_alter_ne in Hj by done. by apply Hp. }
  destruct (IH st1 (fun j => if decide (j = i) then [] else pend j) Hnd') as (st2 & -> & H1' & H2' & H3' & H4'); [by rewrite Hlen|exact Hp'|done| |].
  { intros j Hj. case_decide; [cbn; assert (0 < fuel)%nat; [|lia]; specialize (Hf i ltac:(by left)); lia|]. apply Hf. by right. }
  assert (Hext : forall j, j ∈ idx -> (if decide (j = i) then [] else pend j) = pend j).
  { intros j Hj. rewrite decide_False; [done|]. by intros ->. }
  exists st2. split.
  { do 2 f_equal. f_equal. cbn [existsb]. f_equal. clear -Hext. induction idx as [|j idx IH]; [done|]. cbn [existsb].
    rewrite Hext by (by left). rewrite IH; [done|]. intros k Hk. apply Hext. by right. }
  split_and!; [| |done|congruence].
  - rewrite H1', G2, <- app_assoc. f_equal. cbn [map concat]. f_equal. f_equal. apply map_ext_in. intros j Hj%list_elem_of_In. by rewrite Hext.
  - intros j pe' Hj. specialize (H2' j pe' Hj). cbv beta in H2'. destruct (decide (j ∈ i :: idx)) as [Hin|Hnin].
    + destruct (decide (j ∈ idx)); [done|]. rewrite decide_True in H2'; [done|]. by apply elem_of_cons in Hin as [->|].
    + rewrite elem_of_cons in Hnin. rewrite !decide_False in H2' by tauto. done.
Qed.

Lemma all_indices n : NoDup (seq 0 n) /\ Forall (fun i => i < n)%nat (seq 0 n).
Proof.
  split; [apply NoDup_ListNoDup, seq_NoDup|]. apply Forall_forall. intros i Hi. apply list_elem_of_In, in_seq in Hi. lia.
Qed.

(** C30: [worker_process_ring_buffers] while nothing is written to the rings, memory for
    wrapped events can be allocated and the worker returns OK for every event ([still]; at
    the first other result the function returns it): it returns without error, and the
    worker was given every pending event of every ring exactly once, ring by ring and in the
    order of each ring; the rings are left empty.  An iteration for each event of the fullest
    ring, and two, are enough. *)
Theorem unordered_processing_complete fuel st pend :
  rings_pending st pend -> worker_ok (ls_env st) (ls_worker st) ->
  (forall i, (i < length (ls_pes st))%nat -> (length (pend i) + 1 < fuel)%nat) -> (1 < fuel)%nat ->
  exists now timeout st', worker_process_ring_buffers fuel st = Some (Returned ddres_init, now, timeout, st') /\
    ls_processed st' = ls_processed st ++ concat (map (fun i => map (pair i) (pend i)) (seq 0 (length (ls_pes st)))) /\
    rings_pending st' (fun i => []) /\ worker_ok (ls_env st') (ls_worker st').
Proof.
  intros Hp Hw Hf Hf1. unfold worker_process_ring_buffers. destruct (still_tick st) as (E1 & E2 & E3 & _).
  set (start := steady_now _). destruct fuel as [|[|fuel]]; [lia..|]. cbn [unordered_loop]. rewrite E1.
  destruct (all_indices (length (ls_pes st))) as [Hnd Hall].
  destruct (process_rings_spec (S (S fuel)) (seq 0 (length (ls_pes st))) (tick st) pend) as (st1 & -> & H1' & H2' & H3' & H4');
    rewrite ?E1; try done; try by apply worker_ok_tick.
  { intros i pe Hi. apply Hp. by rewrite <- E1. } { intros i Hi. apply list_elem_of_In, in_seq in Hi. specialize (Hf i ltac:(lia)). lia. }
  change (IsDDResNotOK ddres_init) with false. cbn match. destruct (still_tick st1) as (F1 & F2 & F3 & _). rewrite E3 in H1'.
  assert (Hempty : rings_pending (tick st1) (fun _ => [])).
  { intros i pe Hi. rewrite F1 in Hi. specialize (H2' i pe Hi). cbv beta in H2'. rewrite decide_True in H2'; [done|].
    apply list_elem_of_In, in_seq. apply lookup_lt_Some in Hi. rewrite H4', E1 in Hi. lia. }
  destruct (existsb _ _ && _); [|by eexists _, _, (tick st1); rewrite F3; split_and!; [..|apply worker_ok_tick]].
  rewrite F1, H4', E1.
  destruct (process_rings_spec (S fuel) (seq 0 (length (ls_pes st))) (tick st1) (fun _ => [])) as (st2 & -> & G1 & G2 & G3 & G4);
    rewrite ?F1, ?H4', ?E1; try done; try by apply worker_ok_tick.
  { intros. cbn. lia. }
  change (IsDDResNotOK ddres_init) with false. cbn match. destruct (still_tick st2) as (I1 & I2 & I3 & _).
  assert (existsb (fun _ : nat => bool_decide (@nil (list Z) <> [])) (seq 0 (length (ls_pes st))) = false) as ->.
  { clear. induction (seq 0 (length (ls_pes st))); [done|]. cbn [existsb]. by rewrite IHl. }
  cbn [andb]. eexists _, _, (tick st2). split; [done|]. rewrite I3, G1, F3, H1'. split_and!; [|intros i pe Hi; rewrite I1 in Hi; specialize (G2 i pe Hi); cbv beta in G2; by case_decide|by apply worker_ok_tick].
  assert (concat (map (fun i : nat => map (pair i) (@nil (list Z))) (seq 0 (length (ls_pes st)))) = []) as ->; [|by rewrite app_nil_r].
  clear. by induction (seq 0 (length (ls_pes st))).
Qed.

End Batch.
