(* ===== verification/MainLoopDemo.v ===== *)
(** * The main loop: instances and concrete runs

    A priority queue that implements the laws, a kernel that writes events to a perf
    ring while the loop runs, runs of the loop on them, and the run that shows what the
    loop does when the events of a perf ring are not in the order of time. *)

From stdpp Require Import sorting.
From S2P Require Import Prelude RingBuffer MpscRing MpscSystem PerfRing PerfSample EventRings Ddres Clocks Watcher MainLoop MainLoopProofs MainLoopBatch.

(** ** A priority queue *)

(** A list in the order of time; an element goes behind those that are not later. *)
Fixpoint insert_event (x : EventWrapper) (q : list EventWrapper) : list EventWrapper :=
  match q with
  | [] => [x]
  | y :: q' => if ew_timestamp x <? ew_timestamp y then x :: q else y :: insert_event x q'
  end.

#[global] Instance list_queue : PriorityQueue (list EventWrapper) :=
  {| pq_empty := []; pq_top := head; pq_push := insert_event; pq_pop := tail |}.

Abbreviation before := (fun a b => ew_timestamp a <= ew_timestamp b).

Lemma insert_event_perm x q : insert_event x q ≡ₚ x :: q.
Proof. induction q as [|y q IH]; cbn [insert_event]; [done|]. zcase; [done|]. by rewrite IH, Permutation_swap. Qed.

Lemma insert_event_sorted x q : StronglySorted before q -> StronglySorted before (insert_event x q).
Proof.
  induction 1 as [|y q Hq IH Hy]; cbn [insert_event]; [by repeat constructor|]. zcase.
  - constructor; [by constructor|]. constructor; [lia|]. eapply Forall_impl; [exact Hy|]. cbv beta. intros. lia.
  - constructor; [done|]. rewrite insert_event_perm. constructor; [lia|done].
Qed.

#[global] Instance list_queue_laws : PriorityQueueLaws (list EventWrapper).
Proof.
  refine {| pq_ok := StronglySorted before; pq_elements := fun q => q |}; cbn [pq_top pq_push pq_pop pq_empty list_queue].
  - split; [constructor|done].
  - by intros [|].
  - intros [|y q] e Hq [= ->]. inversion_clear Hq as [|? ? _ Hy]. split; [by left|]. intros x Hx.
    apply elem_of_cons in Hx as [->|Hx]; [lia|]. rewrite Forall_forall in Hy. by apply Hy.
  - intros q e Hq. split; [by apply insert_event_sorted|apply insert_event_perm].
  - intros [|y q] e Hq [= ->]. by inversion_clear Hq.
  - intros [|y q] e x Hq [= ->] Hle. cbn [insert_event]. destruct (Z.ltb_spec (ew_timestamp x) (ew_timestamp e)); [lia|done].
Defined.

(** ** A kernel and a worker *)

(** The worker that accepts everything. *)
#[global] Instance unit_worker (E : Type) : WorkerOps E unit :=
  {| init_fun := fun _ w => (ddres_init, w); finish_fun := fun _ w => w; backpopulate := fun _ w => Some w;
     process_event := fun _ w _ _ => Some (ddres_init, w); maybe_export := fun _ w _ => Some (ddres_init, w);
     final_cycle := fun _ w => Some (ddres_init, w); wants_restart := fun _ => false |}.

#[global] Instance unit_worker_laws (E : Type) `{LoopEnv E} : WorkerLaws E unit.
Proof. refine {| worker_ok := fun _ _ => True; acceptable := fun _ _ => True |}; [done|]. intros. by eexists _, _. Defined.

(** The kernel writes an event if it fits. *)
Definition kernel_write (rb : RingBuffer) (ev : list Z) : option RingBuffer :=
  if (writer_pos rb + ev_len ev <? 2 ^ 64) && (writer_pos rb + ev_len ev - reader_pos rb <=? data_size rb)
  then Some (set_writer_pos (set_data rb (wr (data rb) (data_size rb) (writer_pos rb mod data_size rb) ev)) (writer_pos rb + ev_len ev))
  else None.

(** State: the number of events written (which drives the clock) and their bytes. *)
Record kernel := mkKernel { k_count : nat; k_log : list (list Z) }.

Definition kernel_time (k : nat) : Z := 100000 * Z.min (Z.of_nat k) 3.

Definition kernel_event (k : kernel) (pes : list PEvent) : option (PEvent * RingBuffer * list Z) :=
  if Nat.ltb (k_count k) 3 then
    match pes with
    | pe :: _ =>
        match rb_type (pe_rb pe) with
        | kPerfRingBuffer =>
            let ev := demo_event (kernel_time (k_count k)) in
            match kernel_write (pe_rb pe) ev with Some rb => Some (pe, rb, ev) | None => None end
        | kMPSCRingBuffer => None
        end
    | [] => None
    end
  else None.

Definition kernel_step (k : kernel) (pes : list PEvent) : kernel * list PEvent :=
  match kernel_event k pes with
  | Some (pe, rb, ev) => (mkKernel (S (k_count k)) (k_log k ++ [ev]), <[0%nat := set_rb pe rb]> pes)
  | None => (k, pes)
  end.

Definition kernel_new (k : kernel) (pes : list PEvent) (i : nat) : list (list Z) :=
  match kernel_event k pes, i with Some (_, _, ev), O => [ev] | _, _ => [] end.

#[global] Instance kernel_env : LoopEnv kernel :=
  {| env_step := kernel_step; perf_now := fun k => kernel_time (k_count k); steady_now := fun k => Z.of_nat (k_count k);
     memalign_ok := fun _ => true; termination_requested := fun _ => false; poll_fds := fun _ _ => PollReady [];
     read_eventfd_ok := fun _ _ => true |}.

(** One perf ring, of a watcher that samples the time only. *)
Definition demo_types : list Z := [PERF_SAMPLE_TIME].

Lemma kernel_event_spec k pes pe rb ev : kernel_event k pes = Some (pe, rb, ev) ->
  pes !! 0%nat = Some pe /\ rb_type (pe_rb pe) = kPerfRingBuffer /\ rb_type rb = kPerfRingBuffer /\
  ev = demo_event (kernel_time (k_count k)) /\ (k_count k < 3)%nat /\
  forall p h, ring_holds (pe_rb pe) p h -> ring_holds rb (p ++ [ev]) h.
Proof.
  unfold kernel_event. destruct (Nat.ltb_spec (k_count k) 3); [|done]. destruct pes as [|pe' pes]; [done|].
  destruct (rb_type (pe_rb pe')) eqn:Hty; [|done]. unfold kernel_write. destruct (_ && _) eqn:Hc; [|done]. zbool.
  intros [= <- <- <-]. split_and!; try done. intros p h. unfold ring_holds. cbn [set_writer_pos set_data rb_type]. rewrite Hty.
  intros Hh. apply perf_holds_write; [done|apply demo_event_ok|lia|lia].
Qed.

Abbreviation k_time := (time demo_types [0%nat]).

Lemma demo_time x : 0 <= x < 2 ^ 63 -> ev_time demo_types [0%nat] 0 (demo_event x) = Some x.
Proof.
  intros Hx. unfold ev_time, demo_types. cbn [lookup list_lookup].
  assert (Ht : hdr_time (demo_event x) PERF_SAMPLE_TIME = Some x).
  { unfold hdr_time. change (has PERF_SAMPLE_TIME PERF_SAMPLE_TIME) with true. cbn [negb].
    change (load_hdr (demo_event x)) with (Some (mkHdr 9 0 16)). cbn [h_type].
    change (9 =? PERF_RECORD_SAMPLE) with true. cbn match.
    change (sizeof_hdr + 8 * popcount [PERF_SAMPLE_IDENTIFIER; PERF_SAMPLE_IP; PERF_SAMPLE_TID] PERF_SAMPLE_TIME) with 8.
    eapply (proj1 (load_word_at (demo_event x) 8 8 x [] _ _)). }
  rewrite Ht. unfold perf_clock_time_point_from_timestamp. by rewrite i64_small by lia.
  Unshelve.
  - by exists [9; 0; 0; 0; 0; 0; 16; 0].
  - change (256 ^ Z.of_nat 8) with (2 ^ 64). lia.
Qed.

Lemma kernel_time_range k : 0 <= kernel_time k <= 300000.
Proof. unfold kernel_time. lia. Qed.

Lemma kernel_new_spec k pes i ev : ev ∈ kernel_new k pes i ->
  i = 0%nat /\ ev = demo_event (kernel_time (k_count k)) /\ k_count (fst (kernel_step k pes)) = S (k_count k) /\ (k_count k < 3)%nat.
Proof.
  unfold kernel_new, kernel_step. destruct (kernel_event k pes) as [[[pe rb] ev']|] eqn:Ek.
  - destruct i; [|by intros ?%elem_of_nil]. intros ->%list_elem_of_singleton.
    destruct (kernel_event_spec _ _ _ _ _ Ek) as (_ & _ & _ & -> & ? & _). done.
  - destruct i; by intros ?%elem_of_nil.
Qed.

Lemma demo_k_time k : k_time 0%nat (demo_event (kernel_time k)) = kernel_time k.
Proof. unfold time. rewrite demo_time; [done|]. pose proof (kernel_time_range k). lia. Qed.

Lemma kernel_sorted k pes i : let e' := fst (kernel_step k pes) in
  kernel_time (k_count k) <= kernel_time (k_count e') /\ sorted_by_time demo_types [0%nat] i (kernel_new k pes i) /\
  Forall (fun ev => kernel_time (k_count k) <= k_time i ev <= kernel_time (k_count e')) (kernel_new k pes i).
Proof.
  cbv zeta. assert (Hle : (k_count k <= k_count (fst (kernel_step k pes)))%nat).
  { unfold kernel_step. destruct (kernel_event k pes) as [[[pe rb] ev]|]; cbn; lia. }
  split; [unfold kernel_time; lia|]. split.
  - unfold kernel_new. destruct (kernel_event k pes) as [[[pe rb] ev]|], i; by repeat constructor.
  - apply Forall_forall. intros ev Hev. destruct (kernel_new_spec _ _ _ _ Hev) as (-> & -> & _). rewrite demo_k_time.
    unfold kernel_time. lia.
Qed.

#[global] Instance kernel_laws : LoopEnvLaws (E := kernel) (W := unit) demo_types [0%nat] [kPerfRingBuffer].
Proof.
  refine (Build_LoopEnvLaws demo_types [0%nat] [kPerfRingBuffer] kernel_new (fun k _ => kernel_time (k_count k))
            (fun k i => match i with O => k_log k | S _ => [] end) _ _ _ _ _); cbn [env_step kernel_env].
  - intros k pes i. unfold kernel_step, kernel_new. destruct (kernel_event k pes) as [[[pe rb] ev]|], i; cbn; by rewrite ?app_nil_r.
  - intros k pes. unfold kernel_step. destruct (kernel_event k pes) as [[[pe rb] ev]|] eqn:Ek; [|done].
    destruct (kernel_event_spec _ _ _ _ _ Ek) as (Hpe & Hty & Hty' & _). destruct pes as [|pe' pes]; [done|]. cbn in *. simplify_eq.
    by rewrite Hty, Hty'.
  - intros k pes i pe pe' p h Hpe Hpe' Hh. unfold kernel_step, kernel_new in *.
    destruct (kernel_event k pes) as [[[pe0 rb] ev]|] eqn:Ek; cbn [snd] in Hpe'.
    + destruct (kernel_event_spec _ _ _ _ _ Ek) as (Hpe0 & _ & _ & _ & _ & Hr). destruct i as [|i].
      * rewrite list_lookup_insert_eq in Hpe' by (by eapply lookup_lt_Some). simplify_eq/=. by apply Hr.
      * rewrite list_lookup_insert_ne in Hpe' by done. simplify_eq. by rewrite app_nil_r.
    + simplify_eq. destruct i; by rewrite app_nil_r.
  - intros k pes i. apply Forall_forall. intros ev Hev. destruct (kernel_new_spec _ _ _ _ Hev) as (-> & -> & _).
    split; [|done]. rewrite demo_time; [done|]. pose proof (kernel_time_range (k_count k)). lia.
  - intros k pes i _. apply kernel_sorted.
Defined.

Lemma kernel_timely : timely (E := kernel) (W := unit) demo_types [0%nat] [kPerfRingBuffer].
Proof.
  split; cbn [env_new kernel_laws perf_now kernel_env env_step env_floor memalign_ok].
  - intros k pes i. eapply Forall_impl; [apply (kernel_sorted k pes i)|]. cbv beta. unfold kMaxSampleLatency. intros. lia.
  - intros k pes. apply (kernel_sorted k pes 0%nat).
  - apply kernel_sorted.
  - done.
Qed.

(** The loop starts on an empty ring of 64 bytes whose positions are about to wrap. *)
Definition demo_pe (rb : RingBuffer) : PEvent := mkPE 0 3 3 64 false rb.
Definition empty_ring : RingBuffer := mkRB kPerfRingBuffer 63 64 (fun _ => 0) false 56 56 56 None 0.
Definition demo_loop : LoopState (list EventWrapper) kernel unit := mkLS [demo_pe empty_ring] [] tt (mkKernel 0 []) [].
Definition demo_ghost : ghost := mkG (fun _ => []) (fun _ => []).

Lemma empty_ring_holds : ring_holds empty_ring [] [].
Proof.
  split; [|done]. split; cbn [data_size mask reader_pos intermediate_reader_pos writer_pos empty_ring evs_end holds_events]; try done; try lia.
  exists 6. done.
Qed.

Lemma demo_inv : inv demo_types [0%nat] [kPerfRingBuffer] [] demo_ghost demo_loop.
Proof.
  split; cbn [demo_loop ls_pes ls_queue ls_worker ls_env]; try done.
  - intros [|[|i]] pe Hpe; cbn in Hpe; simplify_eq. apply empty_ring_holds.
  - intros i _. split; [constructor|]. intros _. split; constructor.
  - constructor.
Qed.

Lemma demo_accounted : accounted demo_types [0%nat] [kPerfRingBuffer] (ls_env demo_loop) demo_ghost (ls_processed demo_loop).
Proof. intros [|i] Hi; cbn in Hi; [|lia]. by rewrite decide_True. Qed.

(** The three events the kernel writes during the calls are processed in order. *)
Lemma ordered_processing_sorted_witness :
  option_map (fun st => map (fun x => k_time (fst x) (snd x)) (ls_processed st)) (ordered_calls demo_types [20%nat; 20%nat] demo_loop)
    = Some [0; 100000; 200000] /\
  exists st', ordered_calls demo_types [20%nat; 20%nat] demo_loop = Some st' /\
    StronglySorted Z.le (times_of demo_types [0%nat] (ls_processed st')).
Proof.
  split; [by vm_compute|].
  apply (ordered_processing_sorted demo_types [0%nat] [kPerfRingBuffer] kernel_timely (-60000) _ demo_ghost);
    [exact demo_inv|exact demo_accounted|by split; try (intros; constructor)|by vm_compute].
Defined.

Lemma ordered_processing_exactly_once_witness :
  exists o g' st', worker_process_ring_buffers_ordered demo_types 20 demo_loop false = Some (o, st') /\
    call_result demo_types [0%nat] [kPerfRingBuffer] (Some o) g' st'.
Proof.
  apply (ordered_processing_exactly_once demo_types [0%nat] [kPerfRingBuffer] 20 false demo_ghost); [exact demo_inv|exact demo_accounted].
Defined.

(** ** A machine without producers *)

(** State: what the rings held at the start. *)
Definition silent : Type := nat -> list (list Z).

#[global] Instance silent_env : LoopEnv silent :=
  {| env_step := fun e pes => (e, pes); perf_now := fun _ => 1000000; steady_now := fun _ => 0; memalign_ok := fun _ => true;
     termination_requested := fun _ => false; poll_fds := fun _ _ => PollReady []; read_eventfd_ok := fun _ _ => true |}.

#[global] Instance silent_laws wps types : LoopEnvLaws (E := silent) (W := unit) demo_types wps types.
Proof.
  refine (Build_LoopEnvLaws demo_types wps types (fun _ _ _ => []) (fun _ _ => time_point_max) (fun e i => e i) _ _ _ _ _);
    cbn [env_step silent_env fst snd].
  - intros. by rewrite app_nil_r.
  - done.
  - intros. simplify_eq. by rewrite app_nil_r.
  - constructor.
  - intros. split; [done|]. split; constructor.
Defined.

Lemma silent_quiet wps types : quiet (E := silent) (W := unit) demo_types wps types.
Proof. split; cbn; try done. intros. by simplify_eq. Qed.

(** A ring of two events with the given times, the second one wrapping. *)
Definition two_events (x y : Z) : RingBuffer :=
  let d := wr (wr (fun _ => 0) 64 40 (demo_event x)) 64 56 (demo_event y) in
  mkRB kPerfRingBuffer 63 64 d false 72 40 40 None 0.
Definition two_loop (x y : Z) : LoopState (list EventWrapper) silent unit :=
  mkLS [demo_pe (two_events x y)] [] tt (fun i => match i with O => [demo_event x; demo_event y] | S _ => [] end) [].
Definition two_ghost (x y : Z) : ghost := mkG (fun i => match i with O => [demo_event x; demo_event y] | S _ => [] end) (fun _ => []).

Lemma two_events_hold : ring_holds (two_events 3 5) [demo_event 3; demo_event 5] [].
Proof.
  split; [|done]. split; cbn [data_size mask reader_pos intermediate_reader_pos writer_pos two_events].
  - exists 6. done.
  - done.
  - done.
  - lia.
  - repeat (split; [apply demo_event_ok|]; split; [by vm_compute|]). done.
Qed.

Lemma two_inv : inv demo_types [0%nat] [kPerfRingBuffer] [] (two_ghost 3 5) (two_loop 3 5).
Proof.
  split; cbn [two_loop ls_pes ls_queue ls_worker ls_env]; try done.
  - intros [|[|i]] pe Hpe; cbn in Hpe; simplify_eq. apply two_events_hold.
  - intros [|i] Hi; cbn in Hi; [|lia]. unfold unprocessed. cbn [two_ghost pend held map app]. split.
    + repeat constructor; by rewrite demo_time.
    + intros _. split; repeat constructor; unfold time; rewrite ?demo_time; done.
  - constructor.
Qed.

Lemma two_accounted : accounted demo_types [0%nat] [kPerfRingBuffer] (ls_env (two_loop 3 5)) (two_ghost 3 5) (ls_processed (two_loop 3 5)).
Proof. intros [|i] Hi; cbn in Hi; [|lia]. by rewrite decide_True. Qed.

Lemma drain_processes_everything_witness :
  left_over [0%nat] (two_ghost 3 5) = 2%nat /\
  exists g' st', worker_process_ring_buffers_ordered demo_types 4 (two_loop 3 5) true = Some (Returned ddres_init, st') /\
    inv demo_types [0%nat] [kPerfRingBuffer] [] g' st'.
Proof.
  split; [done|].
  destruct (drain_processes_everything demo_types [0%nat] [kPerfRingBuffer] (silent_quiet _ _) 4 (two_ghost 3 5) (two_loop 3 5)
              two_inv two_accounted) as (g' & st' & E1 & Hi & _); [cbn; lia|].
  by exists g', st'.
Defined.

(** ** A perf ring that is not in the order of time

    The second event is earlier than the first.  It is pushed before the first is
    popped, becomes the top, and is popped instead: it is never given to the worker, and
    the first one, whose place in the ring was already released, is processed twice. *)
Lemma unordered_ring_loses_event :
  option_map (fun r => (fst r, ls_processed (snd r))) (worker_process_ring_buffers_ordered demo_types 6 (two_loop 5 3) true)
    = Some (Returned ddres_init, [(0%nat, demo_event 5); (0%nat, demo_event 5)]).
Proof. by vm_compute. Qed.

(** ** An MPSC ring that is not in the order of time

    Reading an MPSC ring stops at the first event that is too recent to be processed.  At
    time 1 ms an event of 990 us was written first, behind it one of 945 us (within the
    latency of 50 us when it was written at 992 us); an event of 947 us of a perf ring is
    processed in the first call, and the one of 945 us after it, in the second. *)
Definition late_mpsc : RingBuffer :=
  s_rb (demo_run [CWriter; CReserve 16; CFillCommit 0 (demo_event 990000); CReserve 16; CFillCommit 1 (demo_event 945000)]).
Definition late_loop : LoopState (list EventWrapper) silent unit :=
  mkLS [demo_pe late_mpsc; demo_pe (two_events 947000 999000)] [] tt (fun _ => []) [].
Example unsorted_mpsc_ring_out_of_order :
  option_map (fun st => ls_processed st) (ordered_calls demo_types [9%nat; 9%nat] late_loop)
    = Some [(1%nat, demo_event 947000); (0%nat, demo_event 945000)].
Proof. by vm_compute. Qed.

(** ** The same rings without reordering *)

Lemma silent_still : still (E := silent) (W := unit).
Proof. split; [done|done|]. intros. by simplify_eq/=. Qed.

Lemma unordered_processing_complete_witness :
  option_map (fun r => ls_processed (snd r)) (worker_process_ring_buffers 5 (two_loop 3 5))
    = Some [(0%nat, demo_event 3); (0%nat, demo_event 5)] /\
  exists now timeout st', worker_process_ring_buffers 5 (two_loop 3 5) = Some (Returned ddres_init, now, timeout, st') /\
    rings_pending st' (fun _ => []).
Proof.
  split; [by vm_compute|].
  destruct (unordered_processing_complete silent_still 5 (two_loop 3 5) (pend (two_ghost 3 5))) as (now & timeout & st' & E1 & _ & E3 & _).
  - intros [|i] pe Hpe; [|destruct i; discriminate Hpe]. injection Hpe as <-. split; [|by repeat constructor].
    destruct two_events_hold as [Hp Hi]. by split.
  - done.
  - intros [|i] Hi; cbn in Hi |- *; lia.
  - lia.
  - by exists now, timeout, st'.
Defined.
