(* ===== verification/Stats.v ===== *)
(** * Profiler statistics

    Model of [include/ddprof_stats.hpp] and [src/ddprof_stats.cc]: the table of
    counters and its operations.  The backing store is [None] before
    initialisation; sending goes through the parameter [statsd_send]. *)

From S2P Require Import Prelude Ddres.

Definition STATS_TABLE : list (string * string) :=
  [("EVENT_COUNT", "event.count"); ("EVENT_LOST", "event.lost"); ("EVENT_DEALLOC_LOST", "event.dealloc_lost");
   ("EVENT_OUT_OF_ORDER", "event.out_of_order"); ("SAMPLE_COUNT", "sample.count");
   ("UNMATCHED_DEALLOCATION_COUNT", "unmatched_deallocation.count");
   ("ALREADY_EXISTING_ALLOCATION_COUNT", "already_existing_allocation.count");
   ("TARGET_CPU_USAGE", "target_process.cpu_usage.millicores"); ("UNWIND_AVG_TIME", "unwind.avg_time_ns");
   ("UNWIND_FRAMES", "unwind.frames"); ("UNWIND_ERRORS", "unwind.errors");
   ("UNWIND_TRUNCATED_INPUT", "unwind.stack.truncated_input"); ("UNWIND_TRUNCATED_OUTPUT", "unwind.stack.truncated_output");
   ("UNWIND_INCOMPLETE_STACK", "unwind.stack.incomplete"); ("UNWIND_AVG_STACK_SIZE", "unwind.stack.avg_size");
   ("UNWIND_AVG_STACK_DEPTH", "unwind.stack.avg_depth"); ("UNUSED_SYMBOLS_BINARIES_COUNT", "symbols.binaries.unused.count");
   ("SYMBOLS_JIT_READS", "symbols.jit.reads"); ("SYMBOLS_JIT_FAILED_LOOKUPS", "symbols.jit.failed_lookups");
   ("SYMBOLS_JIT_SYMBOL_COUNT", "symbols.jit.symbol_count"); ("PROFILER_RSS", "profiler.rss");
   ("PROFILER_CPU_USAGE", "profiler.cpu_usage.millicores"); ("DSO_NEW_DSO", "dso.new"); ("DSO_SIZE", "dso.size");
   ("PPROF_SIZE", "pprof.size"); ("PROFILE_DURATION", "profile.duration_ms");
   ("AGGREGATION_AVG_TIME", "aggregation.avg_time_ns"); ("BACKPOPULATE_COUNT", "backpopulate.count")]%string.

Definition STATS_LEN : Z := Z.of_nat (length STATS_TABLE).

(** The enumerator [STATS_<name>]. *)
Definition STATS (name : string) : Z := Z.of_nat (find_index (fun e => bool_decide (fst e = name)) STATS_TABLE).

Definition stats_path (i : nat) : option string := String.append "datadog.profiling.native." <$> (snd <$> STATS_TABLE !! i).

(** The mapped region; [ddprof_stats] is null when [None]. *)
Abbreviation stats_store := (option (list Z)).

Definition DD_WHAT_DDPROF_STATS : Z := what_of "DDPROF_STATS".

(** [mapped]: [mmap] succeeded.  (On failure the code keeps the invalid pointer;
    that state is not represented, the profiler stops on the fatal result.) *)
Definition ddprof_stats_init (s : stats_store) (mapped : bool) : DDRes * stats_store :=
  match s with
  | Some _ => (ddres_init, s)
  | None => if mapped then (ddres_init, Some (replicate (Z.to_nat STATS_LEN) 0)) else (ddres_error DD_WHAT_DDPROF_STATS, None)
  end.

Definition ddprof_stats_free (s : stats_store) (munmap : Z) : DDRes * stats_store :=
  match s with
  | Some _ => if munmap =? -1 then (ddres_error DD_WHAT_DDPROF_STATS, s) else (ddres_init, None)
  | None => (ddres_init, None)
  end.

(** The checks at the head of every accessor, then [f] on the counters. *)
Definition with_stat (s : stats_store) (stat : Z) (f : list Z -> nat -> list Z) : DDRes * stats_store :=
  match s with
  | None => (ddres_warn DD_WHAT_DDPROF_STATS, s)
  | Some l => if STATS_LEN <=? stat then (ddres_warn DD_WHAT_DDPROF_STATS, s) else (ddres_init, Some (f l (Z.to_nat stat)))
  end.

Definition ddprof_stats_add (s : stats_store) (stat in_ : Z) : DDRes * stats_store :=
  with_stat s stat (fun l i => alter (fun x => i64 (x + in_)) i l).
Definition ddprof_stats_set (s : stats_store) (stat n : Z) : DDRes * stats_store := with_stat s stat (fun l i => <[i := n]> l).
(** [n] is not zero. *)
Definition ddprof_stats_divide (s : stats_store) (stat n : Z) : DDRes * stats_store :=
  with_stat s stat (fun l i => alter (fun x => Z.quot x n) i l).
Definition ddprof_stats_clear (s : stats_store) (stat : Z) : DDRes * stats_store := ddprof_stats_set s stat 0.

(** The value read, [None] when the output is left unset. *)
Definition ddprof_stats_get (s : stats_store) (stat : Z) : DDRes * option Z :=
  match s with
  | None => (ddres_warn DD_WHAT_DDPROF_STATS, None)
  | Some l => if STATS_LEN <=? stat then (ddres_warn DD_WHAT_DDPROF_STATS, None) else (ddres_init, l !! Z.to_nat stat)
  end.

(** [ddprof_stats_send]: every counter that is not -1, in order, up to the first
    fatal error; the messages sent and the result. *)
Section send.
Context (statsd_send : string -> Z -> DDRes).

Fixpoint send_from (i : nat) (l : list Z) : list (string * Z) * DDRes :=
  match l with
  | [] => ([], ddres_init)
  | x :: l' =>
      if x =? -1 then send_from (S i) l'
      else
        let path := default ""%string (stats_path i) in
        let r := statsd_send path x in
        if IsDDResNotOK r && IsDDResFatal r then ([(path, x)], r)
        else let '(sent, r') := send_from (S i) l' in ((path, x) :: sent, r')
  end.

Definition ddprof_stats_send (s : list Z) (socket : string) (connected : bool) (close : DDRes) : list (string * Z) * DDRes :=
  if bool_decide (socket = ""%string) then ([], ddres_init)
  else if negb connected then ([], ddres_init)
  else
    let '(sent, r) := send_from 0 s in
    if IsDDResFatal r then (sent, r) else (sent, close).
End send.

(** ** Lemmas *)

Definition stats_ready (s : stats_store) : Prop := exists l, s = Some l /\ length l = length STATS_TABLE.

(** Current value of a counter. *)
Definition stat_value (s : stats_store) (stat : Z) : Z := match s with Some l => default 0 (l !! Z.to_nat stat) | None => 0 end.

Lemma stats_add_value s a x b : stats_ready s -> 0 <= a < STATS_LEN -> 0 <= b ->
  stats_ready (snd (ddprof_stats_add s a x)) /\ fst (ddprof_stats_add s a x) = ddres_init /\
  stat_value (snd (ddprof_stats_add s a x)) b = if b =? a then i64 (stat_value s a + x) else stat_value s b.
Proof.
  intros (l & -> & Hl) Ha Hb. unfold ddprof_stats_add, with_stat. destruct (Z.leb_spec STATS_LEN a); [lia|].
  cbn [fst snd stat_value]. split; [eexists; split; [done|]; by rewrite length_alter|]. split; [done|].
  destruct (Z.eqb_spec b a) as [->|].
  - rewrite list_lookup_alter_eq. assert (Hlt : (Z.to_nat a < length l)%nat) by (unfold STATS_LEN in *; lia).
    destruct (lookup_lt_is_Some_2 l _ Hlt) as [v ->]. done.
  - by rewrite list_lookup_alter_ne by lia.
Qed.

Lemma stats_set_value s a x b : stats_ready s -> 0 <= a < STATS_LEN -> 0 <= b ->
  stats_ready (snd (ddprof_stats_set s a x)) /\
  stat_value (snd (ddprof_stats_set s a x)) b = if b =? a then x else stat_value s b.
Proof.
  intros (l & -> & Hl) Ha Hb. unfold ddprof_stats_set, with_stat. destruct (Z.leb_spec STATS_LEN a); [lia|].
  cbn [fst snd stat_value]. split; [eexists; split; [done|]; by rewrite length_insert|].
  destruct (Z.eqb_spec b a) as [->|].
  - rewrite list_lookup_insert_eq by (unfold STATS_LEN in *; lia). done.
  - by rewrite list_lookup_insert_ne by lia.
Qed.
