(* ===== verification/Process.v ===== *)
(** * Processes

    Model of [include/ddprof_process.hpp] and [src/ddprof_process.cc]: the map of
    known processes, the set of processes visited in the current cycle, and the
    lazily read attributes of a process.  What the files hold is given by the
    parameters of the section. *)

From Stdlib Require Import Ascii.
From stdpp Require Import pretty.
From S2P Require Import Prelude Ddres.

Definition kCGroupNsNull : Z := 2 ^ 64 - 1.
Definition kCGroupNsError : Z := 2 ^ 64 - 2.
Definition k_container_id_unknown : string := "unknown".

(** [_dwfl_wrapper]: whether the unwinding state of the process exists. *)
Record Process := mkProcess {
  thread_name_map : gmap Z string;
  dwfl_wrapper : bool;
  container_id : option string;
  proc_pid : Z;
  cgroup_ns : Z;
  sample_counter : Z
}.

Definition new_process (pid : Z) : Process := mkProcess ∅ false None pid kCGroupNsNull 0.

Definition set_thread_names (p : Process) (m : gmap Z string) : Process :=
  mkProcess m (dwfl_wrapper p) (container_id p) (proc_pid p) (cgroup_ns p) (sample_counter p).
Definition set_container (p : Process) (c : option string) : Process :=
  mkProcess (thread_name_map p) (dwfl_wrapper p) c (proc_pid p) (cgroup_ns p) (sample_counter p).
Definition set_cgroup (p : Process) (c : Z) : Process :=
  mkProcess (thread_name_map p) (dwfl_wrapper p) (container_id p) (proc_pid p) c (sample_counter p).

Definition increment_counter (p : Process) : Z * Process :=
  let c := sample_counter p +w 1 in
  (c, mkProcess (thread_name_map p) (dwfl_wrapper p) (container_id p) (proc_pid p) (cgroup_ns p) c).
Definition get_or_insert_dwfl (p : Process) : Process :=
  mkProcess (thread_name_map p) true (container_id p) (proc_pid p) (cgroup_ns p) (sample_counter p).

(** Position of the last occurrence of [c]. *)
Fixpoint find_last_of (c : Ascii.ascii) (s : string) : option nat :=
  match s with
  | EmptyString => None
  | String x s' => match find_last_of c s' with Some i => Some (S i) | None => if bool_decide (x = c) then Some 0%nat else None end
  end.

Fixpoint substr (s : string) (pos n : nat) : string :=
  match s, pos, n with
  | String _ s', S pos', _ => substr s' pos' n
  | String x s', O, S n' => String x (substr s' 0 n')
  | _, _, _ => EmptyString
  end.

(** [thread_name[len - 1] == '\n'] is replaced by the end of the string. *)
Fixpoint strip_newline (s : string) : string :=
  match s with
  | EmptyString => EmptyString
  | String c EmptyString => if bool_decide (c = Ascii.ascii_of_nat 10) then EmptyString else s
  | String c s' => String c (strip_newline s')
  end.

Section process.
(** The container id [extract_container_id] finds in a cgroup file; the target of
    a link if it fits the buffer; [absl::SimpleAtoi] (success, value stored); the
    first line of a thread's comm file. *)
Context (extract_container_id : string -> option string) (read_link : string -> option string)
        (simple_atoi : string -> bool * Z) (read_comm : Z -> Z -> option string).

Definition format_cgroup_file (pid : Z) (path_to_proc : string) : string :=
  (path_to_proc +:+ "/proc/" +:+ pretty pid +:+ "/cgroup")%string.

Definition get_container_id_of (p : Process) (path_to_proc : string) : option string * Process :=
  match container_id p with
  | Some c => (Some c, p)
  | None =>
      let c := match extract_container_id (format_cgroup_file (proc_pid p) path_to_proc) with
               | Some c => Some c
               | None => Some k_container_id_unknown
               end in
      (c, set_container p c)
  end.

Definition read_cgroup_ns (pid : Z) (path_to_proc : string) : DDRes * Z :=
  let path := (path_to_proc +:+ "/proc/" +:+ pretty pid +:+ "/ns/cgroup")%string in
  match read_link path with
  | None => (ddres_warn (what_of "CGROUP"), kCGroupNsError)
  | Some target =>
      match find_last_of "["%char target, find_last_of "]"%char target with
      | Some start, Some end_ =>
          if (end_ <=? start)%nat then (ddres_warn (what_of "CGROUP"), kCGroupNsError)
          else
            let '(ok, v) := simple_atoi (substr target (start + 1) (end_ - start - 1)) in
            (if ok : bool then ddres_init else ddres_warn (what_of "CGROUP"), v)
      | _, _ => (ddres_warn (what_of "CGROUP"), kCGroupNsError)
      end
  end.

Definition get_cgroup_ns (p : Process) (path_to_proc : string) : Z * Process :=
  if cgroup_ns p =? kCGroupNsNull then
    let c := snd (read_cgroup_ns (proc_pid p) path_to_proc) in (c, set_cgroup p c)
  else (cgroup_ns p, p).

Definition get_or_insert_thread_name (p : Process) (tid : Z) : string * Process :=
  match thread_name_map p !! tid with
  | Some n => (n, p)
  | None =>
      let n := match read_comm (proc_pid p) tid with Some line => strip_newline line | None => EmptyString end in
      (n, set_thread_names p (<[tid := n]> (thread_name_map p)))
  end.

(** ** ProcessHdr *)

Record ProcessHdr := mkPH { visited_pid : gset Z; process_map : gmap Z Process; path_to_proc : string }.

Definition new_ProcessHdr (path : string) : ProcessHdr := mkPH ∅ ∅ path.
Definition set_process (h : ProcessHdr) (pid : Z) (p : Process) : ProcessHdr :=
  mkPH (visited_pid h) (<[pid := p]> (process_map h)) (path_to_proc h).

Definition flag_visited (h : ProcessHdr) (pid : Z) : ProcessHdr := mkPH ({[pid]} ∪ visited_pid h) (process_map h) (path_to_proc h).

Definition get (h : ProcessHdr) (pid : Z) : Process * ProcessHdr :=
  let h := flag_visited h pid in
  match process_map h !! pid with
  | Some p => (p, h)
  | None => let p := new_process pid in (p, set_process h pid p)
  end.

Definition get_container_id (h : ProcessHdr) (pid : Z) : option string * ProcessHdr :=
  let '(p, h) := get h pid in
  let '(c, p) := get_container_id_of p (path_to_proc h) in (c, set_process h pid p).

Definition clear (h : ProcessHdr) (pid : Z) : ProcessHdr := mkPH (visited_pid h) (delete pid (process_map h)) (path_to_proc h).

(** The order in which the hash map lists the processes is not specified; the model
    lists them in the order of [map_to_list]. *)
Definition get_unvisited (h : ProcessHdr) : list Z :=
  List.filter (fun pid => negb (bool_decide (pid ∈ visited_pid h))) (map fst (map_to_list (process_map h))).

Definition get_visited (h : ProcessHdr) : gset Z := visited_pid h.
Definition reset_unvisited (h : ProcessHdr) : ProcessHdr := mkPH ∅ (process_map h) (path_to_proc h).
Definition process_count (h : ProcessHdr) : Z := Z.of_nat (size (process_map h)).

(** ** Lemmas *)

Lemma get_unvisited_spec h pid : pid ∈ get_unvisited h <-> is_Some (process_map h !! pid) /\ pid ∉ visited_pid h.
Proof.
  unfold get_unvisited. rewrite list_elem_of_In, filter_In, <- list_elem_of_In, list_elem_of_fmap.
  rewrite negb_true_iff, bool_decide_eq_false. split.
  - intros [([k p] & -> & Hin) Hv]. apply elem_of_map_to_list in Hin. split; [|done]. by exists p.
  - intros [[p Hp] Hv]. split; [|done]. exists (pid, p). split; [done|]. by apply elem_of_map_to_list.
Qed.

Lemma get_visits h pid : let '(p, h') := get h pid in
  pid ∈ visited_pid h' /\ process_map h' !! pid = Some p /\
  (forall q, q <> pid -> process_map h' !! q = process_map h !! q) /\ visited_pid h' = {[pid]} ∪ visited_pid h.
Proof.
  unfold get. cbn [flag_visited process_map]. destruct (process_map h !! pid) as [p|] eqn:E.
  - split; [set_solver|]. done.
  - cbn [set_process process_map visited_pid flag_visited]. split; [set_solver|]. split; [by rewrite lookup_insert_eq|].
    split; [|done]. intros q Hq. by rewrite lookup_insert_ne.
Qed.

(** Every attribute is read from the file system at most once. *)
Lemma container_id_cached p path : let '(c, p') := get_container_id_of p path in
  is_Some c /\ forall path', get_container_id_of p' path' = (c, p').
Proof.
  unfold get_container_id_of. destruct (container_id p) as [c|] eqn:E.
  - split; [by eexists|]. intros path'. by rewrite E.
  - destruct (extract_container_id _) as [c|]; (split; [by eexists|]; done).
Qed.

Lemma thread_name_cached p tid : let '(n, p') := get_or_insert_thread_name p tid in
  get_or_insert_thread_name p' tid = (n, p').
Proof.
  unfold get_or_insert_thread_name. destruct (thread_name_map p !! tid) as [n|] eqn:E; [by rewrite E|].
  cbn [set_thread_names thread_name_map]. by rewrite lookup_insert_eq.
Qed.
End process.
