(* ===== verification/Worker.v ===== *)
(** * The worker

    Model of [src/ddprof_worker.cc], [include/ddprof_worker_context.hpp] and of
    [unwindstate_unwind], [unwind_pid_free] and [unwind_cycle] of [src/unwind.cc]:
    how perf and custom events update the profiler's state, and the export cycle.

    [unwind_dwfl] with the symbol lookups, the exporter and the clocks are parameters.  A profile
    ([DDProfPProf]) is the list of the values aggregated into it; the result of one
    aggregation is the parameter [aggregate_result], [None] where the code of [Pprof]
    leaves its arrays.  The symbol caches, which only
    influence how frames are named, are not part of the state.  Durations and the
    arithmetic on them are unbounded integers, and exceptions (turned into error
    results by the code) are not represented. *)

From S2P Require Import Prelude RingBuffer PerfSample Clocks Ddres Dso DsoHdr LiveAlloc Watcher Stats Process.

(** ** State *)

(** A call of [pprof_aggregate]: stack, value, count, timestamp, watcher and
    aggregation position. *)
Record pprof_entry := mkEntry {
  pe_output : UnwindOutput; pe_value : Z; pe_count : Z; pe_timestamp : Z; pe_watcher : nat; pe_pos : Z
}.

(** The export thread: none, created and not yet done, done and not yet joined. *)
Inductive thread := NoThread | Running | Finished.

Record Exports := mkExports {
  pprof : bool -> list pprof_entry;              (* [pprof[0]], [pprof[1]] *)
  i_current_pprof : bool;
  exp_tid : thread;
  exp_error : bool;
  profile_seq : Z;
  exported : list (Z * list pprof_entry)         (* what the exporter was given *)
}.

Record UnwindState := mkUS { dso_hdr : DsoHdr; process_hdr : ProcessHdr; us_pid : Z; us_output : UnwindOutput }.

Record Worker := mkWorker {
  us : UnwindState;
  live_allocation : LiveAllocation;
  lost_events_per_watcher : list Z;
  wstats : stats_store;
  ex : Exports;
  count_worker : Z;
  send_time : Z;
  perfclock_offset : Z;
  last_processed_event_timestamp : Z;
  cycle_start_time : Z;
  cpu_time : Z;                                  (* [utime + stime] of [proc_status] *)
  restart_worker : bool;
  static_sample : perf_event_sample;             (* the static sample of [hdr2samp] *)
  internal_stats : string;                       (* statsd socket, empty when suppressed *)
  aggregated : list pprof_entry                  (* every value aggregated so far *)
}.

Record DDProfContext := mkCtx {
  watchers : list PerfWatcher;
  maximum_pids : Z;
  timeline : bool;
  upload_period : Z;
  worker_period : Z
}.

Definition set_us (w : Worker) (u : UnwindState) : Worker :=
  mkWorker u (live_allocation w) (lost_events_per_watcher w) (wstats w) (ex w) (count_worker w) (send_time w) (perfclock_offset w)
    (last_processed_event_timestamp w) (cycle_start_time w) (cpu_time w) (restart_worker w) (static_sample w) (internal_stats w) (aggregated w).
Definition set_live (w : Worker) (l : LiveAllocation) : Worker :=
  mkWorker (us w) l (lost_events_per_watcher w) (wstats w) (ex w) (count_worker w) (send_time w) (perfclock_offset w)
    (last_processed_event_timestamp w) (cycle_start_time w) (cpu_time w) (restart_worker w) (static_sample w) (internal_stats w) (aggregated w).
Definition set_lost (w : Worker) (l : list Z) : Worker :=
  mkWorker (us w) (live_allocation w) l (wstats w) (ex w) (count_worker w) (send_time w) (perfclock_offset w)
    (last_processed_event_timestamp w) (cycle_start_time w) (cpu_time w) (restart_worker w) (static_sample w) (internal_stats w) (aggregated w).
Definition set_wstats (w : Worker) (s : stats_store) : Worker :=
  mkWorker (us w) (live_allocation w) (lost_events_per_watcher w) s (ex w) (count_worker w) (send_time w) (perfclock_offset w)
    (last_processed_event_timestamp w) (cycle_start_time w) (cpu_time w) (restart_worker w) (static_sample w) (internal_stats w) (aggregated w).
Definition set_ex (w : Worker) (e : Exports) : Worker :=
  mkWorker (us w) (live_allocation w) (lost_events_per_watcher w) (wstats w) e (count_worker w) (send_time w) (perfclock_offset w)
    (last_processed_event_timestamp w) (cycle_start_time w) (cpu_time w) (restart_worker w) (static_sample w) (internal_stats w) (aggregated w).
Definition set_times (w : Worker) (count send offset start : Z) : Worker :=
  mkWorker (us w) (live_allocation w) (lost_events_per_watcher w) (wstats w) (ex w) count send offset
    (last_processed_event_timestamp w) start (cpu_time w) (restart_worker w) (static_sample w) (internal_stats w) (aggregated w).
Definition set_last (w : Worker) (t : Z) : Worker :=
  mkWorker (us w) (live_allocation w) (lost_events_per_watcher w) (wstats w) (ex w) (count_worker w) (send_time w) (perfclock_offset w)
    t (cycle_start_time w) (cpu_time w) (restart_worker w) (static_sample w) (internal_stats w) (aggregated w).
Definition set_cpu_time (w : Worker) (t : Z) : Worker :=
  mkWorker (us w) (live_allocation w) (lost_events_per_watcher w) (wstats w) (ex w) (count_worker w) (send_time w) (perfclock_offset w)
    (last_processed_event_timestamp w) (cycle_start_time w) t (restart_worker w) (static_sample w) (internal_stats w) (aggregated w).
Definition set_restart (w : Worker) (b : bool) : Worker :=
  mkWorker (us w) (live_allocation w) (lost_events_per_watcher w) (wstats w) (ex w) (count_worker w) (send_time w) (perfclock_offset w)
    (last_processed_event_timestamp w) (cycle_start_time w) (cpu_time w) b (static_sample w) (internal_stats w) (aggregated w).
Definition set_static (w : Worker) (s : perf_event_sample) : Worker :=
  mkWorker (us w) (live_allocation w) (lost_events_per_watcher w) (wstats w) (ex w) (count_worker w) (send_time w) (perfclock_offset w)
    (last_processed_event_timestamp w) (cycle_start_time w) (cpu_time w) (restart_worker w) s (internal_stats w) (aggregated w).
Definition log_entry (w : Worker) (e : pprof_entry) : Worker :=
  mkWorker (us w) (live_allocation w) (lost_events_per_watcher w) (wstats w) (ex w) (count_worker w) (send_time w) (perfclock_offset w)
    (last_processed_event_timestamp w) (cycle_start_time w) (cpu_time w) (restart_worker w) (static_sample w) (internal_stats w) (aggregated w ++ [e]).

Definition set_socket (w : Worker) (sock : string) : Worker :=
  mkWorker (us w) (live_allocation w) (lost_events_per_watcher w) (wstats w) (ex w) (count_worker w) (send_time w) (perfclock_offset w)
    (last_processed_event_timestamp w) (cycle_start_time w) (cpu_time w) (restart_worker w) (static_sample w) sock (aggregated w).

Definition set_dso (w : Worker) (d : DsoHdr) : Worker :=
  set_us w (mkUS d (process_hdr (us w)) (us_pid (us w)) (us_output (us w))).
Definition set_proc (w : Worker) (p : ProcessHdr) : Worker :=
  set_us w (mkUS (dso_hdr (us w)) p (us_pid (us w)) (us_output (us w))).

Definition set_pprof (e : Exports) (i : bool) (l : list pprof_entry) : Exports :=
  mkExports (fun j => if Bool.eqb j i then l else pprof e j) (i_current_pprof e) (exp_tid e) (exp_error e) (profile_seq e) (exported e).
Definition set_thread (e : Exports) (t : thread) : Exports :=
  mkExports (pprof e) (i_current_pprof e) t (exp_error e) (profile_seq e) (exported e).
Definition set_error (e : Exports) (b : bool) : Exports :=
  mkExports (pprof e) (i_current_pprof e) (exp_tid e) b (profile_seq e) (exported e).
Definition switch_pprof (e : Exports) : Exports :=
  mkExports (pprof e) (negb (i_current_pprof e)) (exp_tid e) (exp_error e) (profile_seq e) (exported e).

Definition stat_add (w : Worker) (name : string) (x : Z) : Worker := set_wstats w (snd (ddprof_stats_add (wstats w) (STATS name) x)).
Definition stat_set (w : Worker) (name : string) (x : Z) : Worker := set_wstats w (snd (ddprof_stats_set (wstats w) (STATS name) x)).
Definition stat_divide (w : Worker) (name : string) (x : Z) : Worker := set_wstats w (snd (ddprof_stats_divide (wstats w) (STATS name) x)).

(** [DDRES_CHECK_FWD(m); k]: stop at a fatal result. *)
Definition fwd (m : option (DDRes * Worker)) (k : Worker -> option (DDRes * Worker)) : option (DDRes * Worker) :=
  let? (r, w) := m in if IsDDResFatal r then Some (r, w) else k w.

Notation "'fwd!' w := m 'in' k" := (fwd m (fun w => k)) (at level 10, w name, m at level 100, k at level 200).

Definition ok (w : Worker) : option (DDRes * Worker) := Some (ddres_init, w).

Definition nano : Z := 10 ^ 9.
Definition kMaxTypeWatcher : Z := 10.
Definition k_unlimited_max_profiled_pids : Z := -1.
Definition PERF_RECORD_MISC_COMM_EXEC : Z := 2 ^ 13.

(** [UnwindOutput::clear]: the process and thread ids stay. *)
Definition clear_output (o : UnwindOutput) : UnwindOutput := mkUO [] k_container_id_unknown "" "" (uo_pid o) (uo_tid o).

(** The bytes of a C string. *)
Fixpoint c_string (bs : list Z) : string :=
  match bs with
  | [] => EmptyString
  | b :: bs' => if b =? 0 then EmptyString else String (Ascii.ascii_of_nat (Z.to_nat b)) (c_string bs')
  end.

(** What [unwind_dwfl] leaves for a sample: its result, the frames, the last
    instruction pointer, whether the modules were found inconsistent, the mappings
    and the process. *)
Record unwound := mkUnwound {
  uw_res : DDRes; uw_locs : list FunLoc; uw_ip : Z; uw_inconsistent : bool; uw_dso : DsoHdr; uw_process : Process
}.

(** The DWARF unwinder (told whether it may attach to a new process) and the lookups
    of the frames added after it: too many processes, unwinding error in a mapping,
    base frame of a process; executable name, container id and thread name. *)
Record Unwinder := mkUnwinder {
  unwind_dwfl : DsoHdr -> Process -> bool -> list Z -> perf_event_sample -> unwound;
  max_pids_frame : FunLoc;
  error_frame : option Dso -> FunLoc;
  base_frame : DsoHdr -> Z -> FunLoc * DsoHdr;
  get_exe_name : Z -> string;
  extract_container_id : string -> option string;
  read_comm : Z -> Z -> option string
}.

(** Readings of the cycle counter during the processing of a sample. *)
Record ticks := mkTicks { ticks0 : Z; unwind_ticks : Z; aggregation_ticks : Z }.

Section worker.
Context (ctx : DDProfContext).
(** Result of [pprof_aggregate], [None] when it writes out of bounds (a watcher without a slot for the
    value, [values[-1]]); the unwinder; the frame of lost events. *)
Context (aggregate_result : pprof_entry -> option DDRes) (unwinder : Unwinder) (lost_frame : FunLoc).

(** ** Aggregation *)

Definition pprof_aggregate (w : Worker) (e : pprof_entry) : option (DDRes * Worker) :=
  let? r := aggregate_result e in
  if IsDDResFatal r then Some (r, w)
  else
    let x := ex w in
    Some (r, log_entry (set_ex w (set_pprof x (i_current_pprof x) (pprof x (i_current_pprof x) ++ [e]))) e).

Fixpoint aggregate_all (w : Worker) (es : list pprof_entry) : option (DDRes * Worker) :=
  match es with
  | [] => ok w
  | e :: es' => fwd! w := pprof_aggregate w e in aggregate_all w es'
  end.

(** The entries of the live stacks of one process. *)
Fixpoint node_entries (ps : PidStacks) (watcher_pos : nat) (ns : list (UnwindOutput * nat)) : option (list pprof_entry) :=
  match ns with
  | [] => Some []
  | (_, n) :: ns' =>
      let? (u, vc) := nodes ps !! n in
      let? rest := node_entries ps watcher_pos ns' in
      Some (mkEntry u (vc_value vc) (Z.max 0 (vc_count vc)) 0 watcher_pos kLiveSumPos :: rest)
  end.
Definition live_entries (ps : PidStacks) (watcher_pos : nat) : option (list pprof_entry) :=
  node_entries ps watcher_pos (map_to_list (unique_stacks ps)).

(** [aggregate_live_allocations_for_pid]: [pid_map[pid]] creates the entry. *)
Fixpoint aggregate_pid_from (w : Worker) (pid : Z) (watcher_pos : nat) (vs : list (gmap Z PidStacks)) : option (DDRes * Worker) :=
  match vs with
  | [] => ok w
  | pm :: vs' =>
      let? _ := watchers ctx !! watcher_pos in
      let ps := default empty_PidStacks (pm !! pid) in
      let la := live_allocation w in
      let w := set_live w (mkLA (<[watcher_pos := <[pid := ps]> pm]> (watcher_vector la)) (stats la)) in
      let? es := live_entries ps watcher_pos in
      fwd! w := aggregate_all w es in aggregate_pid_from w pid (S watcher_pos) vs'
  end.
Definition aggregate_live_allocations_for_pid (w : Worker) (pid : Z) : option (DDRes * Worker) :=
  aggregate_pid_from w pid 0 (watcher_vector (live_allocation w)).

Fixpoint pid_map_entries (pms : list (Z * PidStacks)) (watcher_pos : nat) : option (list pprof_entry) :=
  match pms with
  | [] => Some []
  | (_, ps) :: pms' => let? es := live_entries ps watcher_pos in let? rest := pid_map_entries pms' watcher_pos in Some (es ++ rest)
  end.
Fixpoint aggregate_live_from (w : Worker) (watcher_pos : nat) (vs : list (gmap Z PidStacks)) : option (DDRes * Worker) :=
  match vs with
  | [] => ok w
  | pm :: vs' =>
      let? _ := watchers ctx !! watcher_pos in
      let? es := pid_map_entries (map_to_list pm) watcher_pos in
      fwd! w := aggregate_all w es in aggregate_live_from w (S watcher_pos) vs'
  end.
Definition aggregate_live_allocations (w : Worker) : option (DDRes * Worker) :=
  aggregate_live_from w 0 (watcher_vector (live_allocation w)).

Definition lost_value (pw : PerfWatcher) (nb_lost : Z) : option Z :=
  let? p := if is_freq pw then if sample_period pw =? 0 then None else Some (nano / u64 (sample_period pw))
            else Some (u64 (sample_period pw)) in
  Some (i64 (p *w nb_lost)).

Fixpoint report_lost_from (w : Worker) (watcher_idx : nat) (pws : list PerfWatcher) : option (DDRes * Worker) :=
  match pws with
  | [] => ok w
  | pw :: pws' =>
      let? nb_lost := lost_events_per_watcher w !! watcher_idx in
      if 0 <? nb_lost then
        let u := us w in
        let o := clear_output (us_output u) in
        let o := mkUO [lost_frame] (LiveAlloc.container_id o) (exe_name o) (thread_name o) (uo_pid o) (uo_tid o) in
        let w := set_us w (mkUS (dso_hdr u) (process_hdr u) (us_pid u) o) in
        let? value := lost_value pw nb_lost in
        fwd! w := pprof_aggregate w (mkEntry o value nb_lost 0 watcher_idx kSumPos) in
        report_lost_from (set_lost w (<[watcher_idx := 0]> (lost_events_per_watcher w))) (S watcher_idx) pws'
      else report_lost_from w (S watcher_idx) pws'
  end.
Definition report_lost_events (w : Worker) : option (DDRes * Worker) := report_lost_from w 0 (watchers ctx).

(** ** Processes *)

Definition unwind_pid_free (u : UnwindState) (pid : Z) : UnwindState :=
  mkUS (pid_free (dso_hdr u) pid) (Process.clear (process_hdr u) pid) (us_pid u) (us_output u).

Definition worker_pid_free (w : Worker) (pid : Z) : option (DDRes * Worker) :=
  fwd! w := aggregate_live_allocations_for_pid w pid in
  let w := set_us w (unwind_pid_free (us w) pid) in
  ok (set_live w (clear_pid (live_allocation w) pid)).

Fixpoint free_pids (w : Worker) (pids : list Z) : option (DDRes * Worker) :=
  match pids with
  | [] => ok w
  | p :: pids' => fwd! w := worker_pid_free w p in free_pids w pids'
  end.

Definition clear_unvisited_pids (w : Worker) : option (DDRes * Worker) :=
  fwd! w := free_pids w (get_unvisited (process_hdr (us w))) in
  let visited_pids := get_visited (process_hdr (us w)) in
  let w := set_dso w (snd (clear_unvisited (dso_hdr (us w)) visited_pids)) in
  ok (set_proc w (reset_unvisited (process_hdr (us w)))).

(** ** Events *)

(** [perf_event_mmap2]: addr, len, pgoff, ino, prot and file name. *)
Definition ddprof_pr_mmap (w : Worker) (ev : list Z) (timestamp : Z) : option Worker :=
  let? pid := load 4 ev 8 in
  let? a := load 8 ev 16 in let? len := load 8 ev 24 in let? pgoff := load 8 ev 32 in
  let? ino := load 8 ev 48 in let? prot := load 4 ev 64 in
  let d := new_dso pid a (a +w len -w 1) pgoff (c_string (drop 72 ev)) ino prot kPerfMmapEvent in
  let? (_, h) := maybe_insert_erase_overlap (dso_hdr (us w)) d timestamp in
  let w := set_dso w h in
  Some (set_proc w (flag_visited (process_hdr (us w)) pid)).

Definition incr_lost (w : Worker) (watcher_pos : nat) (n : Z) : option Worker :=
  let? x := lost_events_per_watcher w !! watcher_pos in
  Some (set_lost w (<[watcher_pos := x +w n]> (lost_events_per_watcher w))).

Definition ddprof_pr_lost (w : Worker) (ev : list Z) (watcher_pos : nat) : option Worker :=
  let? lost := load 8 ev 16 in
  incr_lost (stat_add w "EVENT_LOST" lost) watcher_pos lost.

Definition ddprof_pr_comm (w : Worker) (ev : list Z) : option (DDRes * Worker) :=
  let? h := load_hdr ev in let? pid := load 4 ev 8 in
  if has (h_misc h) PERF_RECORD_MISC_COMM_EXEC then fwd! w := worker_pid_free w pid in ok w else ok w.

Definition ddprof_pr_fork (w : Worker) (ev : list Z) : option (DDRes * Worker) :=
  let? pid := load 4 ev 8 in let? ppid := load 4 ev 12 in
  if negb (ppid =? pid) then
    fwd! w := worker_pid_free w pid in
    let w := set_dso w (pid_fork (dso_hdr (us w)) pid ppid) in
    ok (set_proc w (flag_visited (process_hdr (us w)) pid))
  else ok w.

Definition ddprof_pr_exit (w : Worker) : Worker := w.

Definition ddprof_pr_clear_live_allocation (w : Worker) (pid : Z) (watcher_pos : nat) : Worker :=
  set_live w (clear_pid_for_watcher (live_allocation w) watcher_pos pid).

Definition ddprof_pr_deallocation (w : Worker) (ev : list Z) (watcher_pos : nat) : option Worker :=
  let? pid := load 4 ev 8 in let? ptr := load 8 ev 24 in
  let? la := register_deallocation (live_allocation w) ptr watcher_pos pid in
  Some (set_live w la).

Definition ddprof_pr_allocation_tracker_state (w : Worker) (ev : list Z) (watcher_pos : nat) : option Worker :=
  let? pid := load 4 ev 8 in
  let? tracked := load 4 ev 24 in let? conflicts := load 4 ev 28 in
  let? lost_alloc := load 4 ev 36 in let? lost_dealloc := load 4 ev 40 in
  let w := set_live w (register_library_state (live_allocation w) watcher_pos pid conflicts tracked) in
  let w := stat_add w "EVENT_LOST" lost_alloc in
  let w := stat_add w "EVENT_DEALLOC_LOST" lost_dealloc in
  incr_lost w watcher_pos lost_alloc.

(** ** Samples *)

Definition kMaxStackDepth : Z := 512.
Definition add_frame (locs : list FunLoc) (f : FunLoc) : list FunLoc :=
  if kMaxStackDepth <=? Z.of_nat (length locs) then locs else locs ++ [f].

(** [dso_find_closest(pid, ip)]: [_pid_map[pid]] creates the entry. *)
Definition find_dso (h : DsoHdr) (pid ip : Z) : option Dso * DsoHdr :=
  let pm := get_pid_mapping h pid in
  let '(it, found) := dso_find_closest (pm_map pm) ip in
  (if found : bool then snd <$> pm_map pm !! it else None, set_pid_map h (<[pid := pm]> (pid_map h))).

(** The frame that reports a failed unwinding, and whether it counts as an error. *)
Definition add_failure_frame (r : unwound) (pid : Z) : list FunLoc * DsoHdr * bool :=
  if IsDDResNotOK (uw_res r) then
    if res_what (uw_res r) =? what_of "UW_MAX_PIDS" then (add_frame (uw_locs r) (max_pids_frame unwinder), uw_dso r, false)
    else let '(d, h) := find_dso (uw_dso r) pid (uw_ip r) in (add_frame (uw_locs r) (error_frame unwinder d), h, true)
  else (uw_locs r, uw_dso r, false).

(** Container id, and with a timeline the executable and thread names. *)
Definition add_labels (p : Process) (s : perf_event_sample) (locs : list FunLoc) : UnwindOutput * Process :=
  let '(c, p) := get_container_id_of (extract_container_id unwinder) p "" in
  let '(exe, thread, p) :=
    if timeline ctx then
      let '(n, p) := get_or_insert_thread_name (read_comm unwinder) p (tid s) in (get_exe_name unwinder (pid s), n, p)
    else (""%string, ""%string, p) in
  (mkUO locs (default k_container_id_unknown c) exe thread (pid s) (tid s), p).

(** [unwind_init_sample] and [unwindstate_unwind]. *)
Definition unwindstate_unwind (w : Worker) (ev : list Z) (s : perf_event_sample) : DDRes * bool * Worker :=
  let '(p, ph) := get (process_hdr (us w)) (pid s) in
  let avoid_new_attach := negb (maximum_pids ctx =? k_unlimited_max_profiled_pids)
                          && (u32 (maximum_pids ctx) <? process_count ph) in
  let r := if pid s =? 0 then mkUnwound ddres_init [] 0 false (dso_hdr (us w)) p
           else unwind_dwfl unwinder (dso_hdr (us w)) p avoid_new_attach ev s in
  let '(locs, h, error) := add_failure_frame r (pid s) in
  let '(base, h) := base_frame unwinder h (pid s) in
  let '(o, p) := add_labels (uw_process r) s (add_frame locs base) in
  let w := set_us w (mkUS h (set_process ph (pid s) p) (pid s) o) in
  let w := if error : bool then stat_add w "UNWIND_ERRORS" 1 else w in
  let w := stat_add w "UNWIND_AVG_STACK_DEPTH" (Z.of_nat (length locs)) in
  (uw_res r, uw_inconsistent r, w).

Definition ddprof_unwind_sample (w : Worker) (pw : PerfWatcher) (ev : list Z) (s : perf_event_sample) : DDRes * bool * Worker :=
  let w := stat_add w "SAMPLE_COUNT" 1 in
  let w := stat_add w "UNWIND_AVG_STACK_SIZE" (size_stack s) in
  let w := if config pw =? PERF_COUNT_SW_TASK_CLOCK then stat_add w "TARGET_CPU_USAGE" (period s) else w in
  let '(res, inconsistent, w) := unwindstate_unwind w ev s in
  let w := if size_stack s =? w_stack_sample_size pw then stat_add w "UNWIND_TRUNCATED_INPUT" 1 else w in
  (res, inconsistent, w).

Definition ddprof_pr_sample (w : Worker) (watcher_pos : nat) (ev : list Z) (s : perf_event_sample) (t : ticks) :
    option (DDRes * Worker) :=
  let? pw := watchers ctx !! watcher_pos in
  let w := if config pw =? PERF_COUNT_SW_TASK_CLOCK then stat_add w "TARGET_CPU_USAGE" (period s) else w in
  let '(res, inconsistent_pid_state, w) := ddprof_unwind_sample w pw ev s in
  let w := stat_add w "UNWIND_AVG_TIME" (unwind_ticks t - ticks0 t) in
  let? (r, w) :=
    if IsDDResFatal res then ok w
    else
      let? w :=
        if Any (Z.land kLiveSum (aggregation_mode pw)) && negb (addr s =? 0) then
          let? la := register_allocation (live_allocation w) (us_output (us w)) (addr s) (period s) watcher_pos (pid s) in
          Some (set_live w la)
        else Some w in
      if Any (Z.land kSum (aggregation_mode pw)) then
        let? sample_val := perf_value_from_sample pw ev s in
        let timestamp := if timeline ctx && negb (time s =? 0) then time s +w perfclock_offset w else 0 in
        fwd! w := pprof_aggregate w (mkEntry (us_output (us w)) (i64 sample_val) 1 timestamp watcher_pos kSumPos) in ok w
      else ok w in
  if IsDDResFatal r then Some (r, w)
  else
    fwd! w := (if inconsistent_pid_state : bool then fwd! w := worker_pid_free w (us_pid (us w)) in ok w else ok w) in
    ok (stat_add w "AGGREGATION_AVG_TIME" (aggregation_ticks t - unwind_ticks t)).

Definition ddprof_worker_process_event (w : Worker) (ev : list Z) (watcher_pos : nat) (t : ticks) : option (DDRes * Worker) :=
  let w := stat_add w "EVENT_COUNT" 1 in
  let? pw := watchers ctx !! watcher_pos in
  let? record_time := hdr_time ev (sample_type pw) in
  let timestamp := perf_clock_time_point_from_timestamp record_time in
  let w := if timestamp <? last_processed_event_timestamp w then stat_add w "EVENT_OUT_OF_ORDER" 1 else set_last w timestamp in
  let? h := load_hdr ev in
  let ty := h_type h in
  (* the process id, for the types that have one after the header *)
  let with_pid (k : option (DDRes * Worker)) := let? wpid := load 4 ev 8 in if wpid =? 0 then ok w else k in
  if ty =? PERF_RECORD_SAMPLE then
    with_pid (let? (decoded, s) := hdr2samp (static_sample w) ev (sample_type pw) in
              let w := set_static w s in
              if decoded : bool then fwd! w := ddprof_pr_sample w watcher_pos ev s t in ok w else ok w)
  else if ty =? PERF_RECORD_MMAP2 then with_pid (let? w := ddprof_pr_mmap w ev timestamp in ok w)
  else if ty =? PERF_RECORD_COMM then with_pid (fwd! w := ddprof_pr_comm w ev in ok w)
  else if ty =? PERF_RECORD_EXIT then with_pid (ok (ddprof_pr_exit w))
  else if ty =? PERF_RECORD_FORK then with_pid (fwd! w := ddprof_pr_fork w ev in ok w)
  else if ty =? PERF_RECORD_LOST then let? w := ddprof_pr_lost w ev watcher_pos in ok w
  else if ty =? PERF_CUSTOM_EVENT_DEALLOCATION then let? w := ddprof_pr_deallocation w ev watcher_pos in ok w
  else if ty =? PERF_CUSTOM_EVENT_CLEAR_LIVE_ALLOCATION then
    let? pid := load 4 ev 8 in
    fwd! w := aggregate_live_allocations_for_pid w pid in
    ok (ddprof_pr_clear_live_allocation w pid watcher_pos)
  else if ty =? PERF_CUSTOM_EVENT_ALLOCATION_TRACKER_STATE then
    let? w := ddprof_pr_allocation_tracker_state w ev watcher_pos in ok w
  else ok w.

(** ** The export cycle *)

(** What the machine answers during a cycle: the result of resetting a profile, of
    reading the procfs entry of the profiler (result, cpu time in ticks, resident
    pages), the clocks, the number of symbolizers dropped, the counters of the jit
    symbol lookups (reads, failed lookups, symbols), statsd, and whether the export
    thread could be created. *)
Record cycle_env := mkCycle {
  ce_reset : DDRes; ce_proc : DDRes * Z * Z; ce_page_size : Z; ce_clock_ticks_per_sec : Z;
  ce_steady_now : Z; ce_export_time_now : Z; ce_perfclock_epoch : Z; ce_symbolizers_cleared : Z;
  ce_jit : Z * Z * Z;
  ce_connected : bool; ce_close : DDRes; ce_thread_created : bool
}.

Context (export_result : Z -> list pprof_entry -> DDRes) (cycles_to_duration : Z -> Z) (statsd_send : string -> Z -> DDRes).

(** [ddprof_worker_export_thread]. *)
Definition export_thread (x : Exports) : Exports :=
  let i := negb (i_current_pprof x) in
  let seq := profile_seq x in
  let x := mkExports (pprof x) (i_current_pprof x) (exp_tid x) (exp_error x) (u32 (seq + 1)) (exported x ++ [(seq, pprof x i)]) in
  if IsDDResFatal (export_result seq (pprof x i)) then set_error x true else x.

Definition export_time_set (w : Worker) (e : cycle_env) : Worker :=
  set_times w (count_worker w) (ce_export_time_now e + upload_period ctx) (ce_perfclock_epoch e) (cycle_start_time w).

Definition div_opt (x y : Z) : option Z := if y =? 0 then None else Some (Z.quot x y).

(** The statistics read from the process, from the mappings and live allocations,
    and the averages per sample. *)
Definition set_process_stats (w : Worker) (e : cycle_env) (new_cpu_time rss millicores : Z) : Worker :=
  let w := set_cpu_time w new_cpu_time in
  let w := stat_set w "PROFILER_RSS" (ce_page_size e * rss) in
  stat_set w "PROFILER_CPU_USAGE" millicores.

Definition set_source_stats (w : Worker) (e : cycle_env) : Worker :=
  let h := dso_hdr (us w) in
  let la := live_allocation w in
  let w := stat_set w "DSO_NEW_DSO" (sum_event_metric (dh_stats h) kNewDso) in
  let w := stat_set w "DSO_SIZE" (get_nb_dso h) in
  let w := stat_set w "BACKPOPULATE_COUNT" (backpopulate_count (dh_stats h)) in
  let w := stat_set w "UNMATCHED_DEALLOCATION_COUNT" (unmatched_deallocations (stats la)) in
  let w := stat_set w "ALREADY_EXISTING_ALLOCATION_COUNT" (already_existing_allocations (stats la)) in
  stat_set w "UNUSED_SYMBOLS_BINARIES_COUNT" (ce_symbolizers_cleared e).

Definition symbols_update_stats (w : Worker) (jit : Z * Z * Z) : Worker :=
  let '(reads, failed, symbols) := jit in
  let w := stat_set w "SYMBOLS_JIT_READS" reads in
  let w := stat_set w "SYMBOLS_JIT_FAILED_LOOKUPS" failed in
  stat_set w "SYMBOLS_JIT_SYMBOL_COUNT" symbols.

Definition set_average_stats (w : Worker) : Worker :=
  let value name := stat_value (wstats w) (STATS name) in
  let nsamples := value "SAMPLE_COUNT"%string in
  let avg name := if 0 <? nsamples then Z.quot (cycles_to_duration (value name)) nsamples else -1 in
  let avg_unwind := avg "UNWIND_AVG_TIME"%string in
  let avg_aggregation := avg "AGGREGATION_AVG_TIME"%string in
  let w := stat_set w "UNWIND_AVG_TIME" avg_unwind in
  let w := stat_set w "AGGREGATION_AVG_TIME" avg_aggregation in
  if negb (nsamples =? 0)
  then stat_divide (stat_divide w "UNWIND_AVG_STACK_SIZE" nsamples) "UNWIND_AVG_STACK_DEPTH" nsamples
  else stat_set (stat_set w "UNWIND_AVG_STACK_SIZE" (-1)) "UNWIND_AVG_STACK_DEPTH" (-1).

Definition worker_update_stats (w : Worker) (e : cycle_env) (cycle_duration : Z) : option (DDRes * Worker) :=
  let '(r, new_cpu_time, rss) := ce_proc e in
  if IsDDResFatal r then Some (r, w)
  else
    let? millicores := div_opt ((new_cpu_time - cpu_time w) * nano * 1000) (ce_clock_ticks_per_sec e * cycle_duration) in
    let w := symbols_update_stats (set_source_stats (set_process_stats w e new_cpu_time rss millicores) e) (ce_jit e) in
    let? target_millicores := div_opt (stat_value (wstats w) (STATS "TARGET_CPU_USAGE") * 1000) cycle_duration in
    let w := set_average_stats (stat_set w "TARGET_CPU_USAGE" target_millicores) in
    ok (stat_set w "PROFILE_DURATION" (Z.quot cycle_duration (10 ^ 6))).

Definition s_cycled_stats : list string :=
  ["UNWIND_AVG_TIME"; "AGGREGATION_AVG_TIME"; "EVENT_COUNT"; "EVENT_LOST"; "EVENT_DEALLOC_LOST"; "EVENT_OUT_OF_ORDER";
   "SAMPLE_COUNT"; "TARGET_CPU_USAGE"]%string.
Definition ddprof_reset_worker_stats (w : Worker) : Worker := foldl (fun w n => stat_set w n 0) w s_cycled_stats.

(** [unwind_cycle]: the statistics of the mappings and of the unwinder. *)
Definition unwind_metrics : list string :=
  ["UNWIND_FRAMES"; "UNWIND_ERRORS"; "UNWIND_TRUNCATED_INPUT"; "UNWIND_TRUNCATED_OUTPUT";
   "UNWIND_AVG_STACK_SIZE"; "UNWIND_AVG_STACK_DEPTH"]%string.
Definition unwind_cycle (w : Worker) : Worker :=
  let h := dso_hdr (us w) in
  foldl (fun w n => stat_set w n 0) (set_dso w (DsoHdr.set_stats h (reset_stats (dh_stats h)))) unwind_metrics.

(** The end of a cycle, after the statistics: statsd, counters, back-population,
    export time. *)
Definition end_cycle (w : Worker) (e : cycle_env) (now : Z) : Worker :=
  let w := if IsDDResNotOK (snd (ddprof_stats_send statsd_send (default [] (wstats w)) (internal_stats w) (ce_connected e) (ce_close e)))
           then set_socket w "" else w in
  let w := set_dso w (reset_backpopulate_state (dso_hdr (us w)) k_nb_requests_between_backpopulates) in
  let send := send_time w + upload_period ctx in
  let w := set_times w (u32 (count_worker w + 1)) send (perfclock_offset w) (cycle_start_time w) in
  if send <? now then export_time_set w e else w.

Definition finish_cycle (w : Worker) (e : cycle_env) (now : Z) : option (DDRes * Worker) :=
  let cycle_duration := ce_steady_now e - cycle_start_time w in
  let w := set_times w (count_worker w) (send_time w) (perfclock_offset w) (ce_steady_now e) in
  fwd! w := worker_update_stats w e cycle_duration in
  let w := unwind_cycle (end_cycle w e now) in
  let w := set_live w (LiveAlloc.cycle (live_allocation w)) in
  ok (ddprof_reset_worker_stats w).

(** ** Start *)

(** What the start of a worker meets: the clocks, whether the profiler's own binary
    could be opened, the results of mapping the ring buffers with and without the
    user override, of preparing the exporters and profiles in order, and of reading
    procfs (with the cpu time). *)
Record init_env := mkInit {
  ie_now : Z; ie_perfclock_epoch : Z; ie_unwind_state : bool; ie_mmap : DDRes; ie_mmap_retry : DDRes;
  ie_exporters : list DDRes; ie_proc : DDRes * Z; ie_steady_now : Z
}.

Definition worker_library_init (w : Worker) (dd_profiling_fd : Z) (e : init_env) : DDRes * Worker :=
  let w := set_times w 0 (ie_now e + upload_period ctx) (ie_perfclock_epoch e) (cycle_start_time w) in
  let x := ex w in
  let w := set_ex w (mkExports (pprof x) false NoThread (exp_error x) (profile_seq x) (exported x)) in
  if negb (ie_unwind_state e) then (ddres_error (what_of "UW_ERROR"), w)
  else
    let w := set_us w (mkUS (init_DsoHdr "" dd_profiling_fd) (new_ProcessHdr "") (-1) (mkUO [] k_container_id_unknown "" "" 0 0)) in
    let w := set_lost w (replicate (Z.to_nat kMaxTypeWatcher) 0) in
    if IsDDResNotOK (ie_mmap e) && IsDDResFatal (ie_mmap_retry e) then (ie_mmap_retry e, w)
    else (ddres_init, w).

Definition worker_init_stats (w : Worker) (e : init_env) : DDRes * Worker :=
  let '(r, cpu) := ie_proc e in
  if IsDDResFatal r then (r, w)
  else
    let w := set_cpu_time w cpu in
    (ddres_init, set_times w (count_worker w) (send_time w) (perfclock_offset w) (ie_steady_now e)).

(** The first fatal result of a list of calls. *)
Definition first_fatal (rs : list DDRes) : option DDRes := List.find IsDDResFatal rs.

(** The profiles are new; the sequence number of the persistent state is kept. *)
Definition ddprof_worker_init (w : Worker) (dd_profiling_fd : Z) (e : init_env) : DDRes * Worker :=
  let '(r, w) := worker_library_init w dd_profiling_fd e in
  if IsDDResFatal r then (r, w)
  else
    let x := ex w in
    let w := set_ex w (mkExports (fun _ => []) (i_current_pprof x) (exp_tid x) (exp_error x) (profile_seq x) (exported x)) in
    match first_fatal (ie_exporters e) with
    | Some r => (r, w)
    | None => worker_init_stats w e
    end.

(** Joining the export thread succeeds when it has finished.  The result of [pthread_create] is
    ignored: when it fails there is no thread to join, and the profile that was to be exported is
    reset by the next cycle. *)
Definition ddprof_worker_cycle (w : Worker) (e : cycle_env) (now : Z) (synchronous_export : bool) : option (DDRes * Worker) :=
  fwd! w := clear_unvisited_pids w in
  fwd! w := aggregate_live_allocations w in
  let joined := match exp_tid (ex w) with
                | NoThread => Some w
                | Running => None
                | Finished => Some (set_ex w (set_thread (ex w) NoThread))
                end in
  match joined with
  | None => Some (ddres_create DD_SEV_ERROR (what_of "EXPORT_TIMEOUT"), w)
  | Some w =>
      if exp_error (ex w) then Some (ddres_create DD_SEV_ERROR (what_of "EXPORTER"), w)
      else
        fwd! w := report_lost_events w in
        let w := set_ex w (switch_pprof (set_error (ex w) false)) in
        if IsDDResFatal (ce_reset e) then Some (ce_reset e, w)
        else
          let w := set_ex w (set_pprof (ex w) (i_current_pprof (ex w)) []) in
          if synchronous_export then
            let w := set_ex w (export_thread (ex w)) in
            if exp_error (ex w) then Some (ddres_create DD_SEV_ERROR (what_of "EXPORTER"), w) else finish_cycle w e now
          else finish_cycle (set_ex w (set_thread (ex w) (if ce_thread_created e then Running else NoThread))) e now
  end.

Definition ddprof_worker_maybe_export (w : Worker) (e : cycle_env) (now : Z) : option (DDRes * Worker) :=
  if send_time w <? now then
    let w := set_restart w (worker_period ctx <=? u32 (count_worker w + 1)) in
    fwd! w := ddprof_worker_cycle w e now (restart_worker w) in ok w
  else ok w.
End worker.
