(* ===== verification/WorkerProofs.v ===== *)
(** * The worker: correctness

    Exports conserve the aggregated values, cycles forget the processes that were
    not seen, the events of the allocation tracker reach the live profile, and no
    event makes the worker leave its data structures' preconditions. *)

From S2P Require Import Prelude RingBuffer PerfSample Ddres Dso DsoHdr LiveAlloc Watcher Stats Process Worker.

(** ** What aggregation does to the exports *)

(** [w'] is [w] with the values [es] aggregated; buffers other than the current
    one, the export thread, the exports and the start of the cycle are the same. *)
Definition agg_ext (w w' : Worker) (es : list pprof_entry) : Prop :=
  let x := ex w in let x' := ex w' in
  (cycle_start_time w' = cycle_start_time w /\ restart_worker w' = restart_worker w) /\ aggregated w' = aggregated w ++ es /\ i_current_pprof x' = i_current_pprof x /\ exp_tid x' = exp_tid x /\
  exp_error x' = exp_error x /\ profile_seq x' = profile_seq x /\ exported x' = exported x /\
  pprof x' (i_current_pprof x) = pprof x (i_current_pprof x) ++ es /\
  pprof x' (negb (i_current_pprof x)) = pprof x (negb (i_current_pprof x)).

Definition extends (w w' : Worker) : Prop := exists es, agg_ext w w' es.

Lemma agg_ext_same w w' : ex w' = ex w -> aggregated w' = aggregated w -> cycle_start_time w' = cycle_start_time w ->
  restart_worker w' = restart_worker w -> agg_ext w w' [].
Proof. intros E A T R. unfold agg_ext. rewrite E, A, T, R, !app_nil_r. done. Qed.

Lemma extends_same w w' : ex w' = ex w -> aggregated w' = aggregated w -> cycle_start_time w' = cycle_start_time w ->
  restart_worker w' = restart_worker w -> extends w w'.
Proof. intros E A T R. exists []. by apply agg_ext_same. Qed.

Lemma extends_refl w : extends w w.
Proof. by apply extends_same. Qed.

Lemma agg_ext_trans w1 w2 w3 e1 e2 : agg_ext w1 w2 e1 -> agg_ext w2 w3 e2 -> agg_ext w1 w3 (e1 ++ e2).
Proof.
  intros ([A0 A0'] & A1 & A2 & A3 & A4 & A5 & A6 & A7 & A8) ([B0 B0'] & B1 & B2 & B3 & B4 & B5 & B6 & B7 & B8).
  unfold agg_ext. rewrite A2 in B2, B7, B8. rewrite app_assoc, <- A1, app_assoc, <- A7.
  split_and!; congruence.
Qed.

Lemma extends_trans w1 w2 w3 : extends w1 w2 -> extends w2 w3 -> extends w1 w3.
Proof. intros (e1 & H1) (e2 & H2). exists (e1 ++ e2). by eapply agg_ext_trans. Qed.

Lemma extends_restart w w' : extends w w' -> restart_worker w' = restart_worker w.
Proof. by intros (es & [_ E] & _). Qed.

Create HintDb worker.
#[export] Hint Resolve extends_refl : worker.

(** Nothing is aggregated or exported. *)
Definition keeps (w w' : Worker) : Prop :=
  ex w' = ex w /\ aggregated w' = aggregated w /\ cycle_start_time w' = cycle_start_time w /\
  restart_worker w' = restart_worker w.

Lemma keeps_refl w : keeps w w.
Proof. done. Qed.
Lemma keeps_trans w1 w2 w3 : keeps w1 w2 -> keeps w2 w3 -> keeps w1 w3.
Proof. intros (A1 & A2 & A3 & A4) (B1 & B2 & B3 & B4). split_and!; congruence. Qed.

Lemma ok_keeps w0 w r w' : keeps w0 w -> ok w = Some (r, w') -> keeps w0 w'.
Proof. intros H [= <- <-]. done. Qed.
Lemma keeps_set_live w l : keeps w (set_live w l).
Proof. done. Qed.

(** Stepping through a forwarded result. *)
Lemma fwd_inv m k r w : fwd m k = Some (r, w) ->
  exists r1 w1, m = Some (r1, w1) /\ (IsDDResFatal r1 = true /\ r = r1 /\ w = w1 \/ IsDDResFatal r1 = false /\ k w1 = Some (r, w)).
Proof.
  unfold fwd. destruct m as [[r1 w1]|]; [|done]. intros E. exists r1, w1. split; [done|].
  destruct (IsDDResFatal r1); [left; by simplify_eq|by right].
Qed.

Lemma fwd_extends w0 m k r w :
  (forall r1 w1, m = Some (r1, w1) -> extends w0 w1) ->
  (forall w1 r w, extends w0 w1 -> k w1 = Some (r, w) -> extends w0 w) ->
  fwd m k = Some (r, w) -> extends w0 w.
Proof. intros Hm Hk E. apply fwd_inv in E as (r1 & w1 & E1 & [(_ & -> & ->)|(_ & E2)]); eauto. Qed.

Lemma ok_extends w0 w r w' : extends w0 w -> ok w = Some (r, w') -> extends w0 w'.
Proof. intros H [= <- <-]. done. Qed.

(** Case on the condition of the [if] a hypothesis starts with. *)
Ltac case_if H := match type of H with (if ?b then _ else _) = _ => destruct b end.

(** Updates outside the exports. *)
Ltac same_ex := apply extends_same; reflexivity.

Section worker.
Context (ctx : DDProfContext) (aggregate_result : pprof_entry -> option DDRes)
        (unwinder : Unwinder) (lost_frame : FunLoc).

Lemma pprof_aggregate_adds w e r : aggregate_result e = Some r -> IsDDResFatal r = false ->
  exists w', pprof_aggregate aggregate_result w e = Some (r, w') /\ agg_ext w w' [e].
Proof.
  intros E Hr. unfold pprof_aggregate. rewrite E, Hr. eexists. split; [done|]. unfold agg_ext. cbn [log_entry set_ex aggregated ex set_pprof i_current_pprof exp_tid exp_error profile_seq exported pprof].
  rewrite eqb_reflx. by destruct (i_current_pprof (ex w)).
Qed.

Lemma pprof_aggregate_extends w e r w' : pprof_aggregate aggregate_result w e = Some (r, w') -> extends w w'.
Proof.
  intros E. destruct (aggregate_result e) as [r0|] eqn:Ea; [|unfold pprof_aggregate in E; by rewrite Ea in E]. destruct (IsDDResFatal r0) eqn:Ef.
  - unfold pprof_aggregate in E. rewrite Ea, Ef in E. injection E as <- <-. apply extends_refl.
  - destruct (pprof_aggregate_adds w e r0 Ea Ef) as (w1 & E1 & Hw). rewrite E in E1. injection E1 as -> ->. by exists [e].
Qed.

Lemma aggregate_all_extends es w r w' : aggregate_all aggregate_result w es = Some (r, w') -> extends w w'.
Proof.
  revert w r w'. induction es as [|e es IH]; intros w r w'; cbn [aggregate_all]; [intros [= <- <-]; apply extends_refl|].
  apply fwd_extends; [eauto using pprof_aggregate_extends|]. intros w1 r1 w2 H1 H2. eapply extends_trans; [done|eauto].
Qed.

Lemma aggregate_pid_extends vs w pid pos r w' :
  aggregate_pid_from ctx aggregate_result w pid pos vs = Some (r, w') -> extends w w'.
Proof.
  revert w pos r w'. induction vs as [|pm vs IH]; intros w pos r w'; cbn [aggregate_pid_from]; [intros [= <- <-]; apply extends_refl|].
  destruct (watchers ctx !! pos); [|done]. destruct (live_entries _ _) as [es|]; [|done].
  set (w0 := set_live w _). assert (H0 : extends w w0) by same_ex.
  apply fwd_extends; [intros; eapply extends_trans; [done|by eapply aggregate_all_extends]|].
  intros w1 r1 w2 H1 H2. eapply extends_trans; [done|eauto].
Qed.

Lemma aggregate_live_extends vs w pos r w' : aggregate_live_from ctx aggregate_result w pos vs = Some (r, w') -> extends w w'.
Proof.
  revert w pos r w'. induction vs as [|pm vs IH]; intros w pos r w'; cbn [aggregate_live_from]; [intros [= <- <-]; apply extends_refl|].
  destruct (watchers ctx !! pos); [|done]. destruct (pid_map_entries _ _) as [es|]; [|done].
  apply fwd_extends; [eauto using aggregate_all_extends|]. intros w1 r1 w2 H1 H2. eapply extends_trans; [done|eauto].
Qed.

Lemma report_lost_extends pws w i r w' : report_lost_from aggregate_result lost_frame w i pws = Some (r, w') -> extends w w'.
Proof.
  revert w i r w'. induction pws as [|pw pws IH]; intros w i r w'; cbn [report_lost_from]; [intros [= <- <-]; apply extends_refl|].
  destruct (lost_events_per_watcher w !! i) as [n|]; [|done]. destruct (0 <? n); [|eauto].
  set (w0 := set_us w _). assert (H0 : extends w w0) by same_ex. destruct (lost_value pw n); [|done].
  apply fwd_extends; [intros; eapply extends_trans; [done|by eapply pprof_aggregate_extends]|].
  intros w1 r1 w2 H1 H2. apply (extends_trans _ w1); [done|]. eapply extends_trans; [|by eapply IH]. same_ex.
Qed.

Lemma worker_pid_free_extends w pid r w' : worker_pid_free ctx aggregate_result w pid = Some (r, w') -> extends w w'.
Proof.
  unfold worker_pid_free. apply fwd_extends; [intros; by eapply aggregate_pid_extends|].
  intros w1 r1 w2 H1 [= <- <-]. eapply extends_trans; [done|]. same_ex.
Qed.

Lemma free_pids_extends pids w r w' : free_pids ctx aggregate_result w pids = Some (r, w') -> extends w w'.
Proof.
  revert w r w'. induction pids as [|p pids IH]; intros w r w'; cbn [free_pids]; [intros [= <- <-]; apply extends_refl|].
  apply fwd_extends; [eauto using worker_pid_free_extends|]. intros w1 r1 w2 H1 H2. eapply extends_trans; [done|eauto].
Qed.

Lemma clear_unvisited_pids_extends w r w' : clear_unvisited_pids ctx aggregate_result w = Some (r, w') -> extends w w'.
Proof.
  unfold clear_unvisited_pids. apply fwd_extends; [eauto using free_pids_extends|].
  intros w1 r1 w2 H1 [= <- <-]. eapply extends_trans; [done|]. same_ex.
Qed.

(** What unwinding changes: the unwinding state and statistics. *)
Lemma unwindstate_unwind_shape w ev s res inc w' : unwindstate_unwind ctx unwinder w ev s = (res, inc, w') ->
  exists u (error : bool) depth,
    w' = stat_add (if error then stat_add (set_us w u) "UNWIND_ERRORS" 1 else set_us w u) "UNWIND_AVG_STACK_DEPTH" depth /\
    ((forall d p b, hdr_wf d -> hdr_wf (uw_dso (unwind_dwfl unwinder d p b ev s))) ->
     (forall d p, hdr_wf d -> hdr_wf (snd (base_frame unwinder d p))) -> hdr_wf (dso_hdr (us w)) -> hdr_wf (dso_hdr u)).
Proof.
  unfold unwindstate_unwind. destruct (get _ _) as [p ph]. set (r := if pid s =? 0 then _ else _).
  destruct (add_failure_frame unwinder r (pid s)) as [[locs h] error] eqn:Ef. destruct (base_frame unwinder h (pid s)) as [base h'] eqn:Eb.
  destruct (add_labels _ _ _ _ _) as [o p']. intros [= <- <- <-]. eexists _, error, _. split; [reflexivity|].
  intros Hu Hb Hwf. cbn [dso_hdr]. assert (Hr : hdr_wf (uw_dso r)) by (unfold r; destruct (pid s =? 0); [done|by apply Hu]).
  clearbody r. replace h' with (snd (base_frame unwinder h (pid s))) by (by rewrite Eb). apply Hb.
  unfold add_failure_frame in Ef. case_if Ef; [case_if Ef|]; [by injection Ef as <- <- <-| |by injection Ef as <- <- <-].
  unfold find_dso in Ef. destruct (dso_find_closest _ _) as [it found]. injection Ef as <- <- <-.
  apply (hdr_wf_insert _ _ _ Hr (get_pid_mapping_wf _ _ Hr) (dh_stats _)).
Qed.

Lemma unwind_sample_extends w pw ev s res inc w' : ddprof_unwind_sample ctx unwinder w pw ev s = (res, inc, w') -> extends w w'.
Proof.
  unfold ddprof_unwind_sample. set (w0 := if config pw =? _ then _ else _).
  assert (H0 : extends w w0) by (unfold w0; destruct (config pw =? _); same_ex). clearbody w0.
  destruct (unwindstate_unwind _ _ _ _ _) as [[res1 inc1] w1] eqn:E. apply unwindstate_unwind_shape in E as (u & err & d & -> & _).
  intros [= <- <- <-]. apply (extends_trans _ w0); [done|]. destruct err; case_match; same_ex.
Qed.

Lemma pr_sample_extends w pos ev s t r w' :
  ddprof_pr_sample ctx aggregate_result unwinder w pos ev s t = Some (r, w') -> extends w w'.
Proof.
  unfold ddprof_pr_sample. destruct (watchers ctx !! pos) as [pw|]; [|done].
  set (w0 := if config pw =? _ then _ else w). assert (H0 : extends w w0) by (unfold w0; case_match; same_ex).
  destruct (ddprof_unwind_sample ctx unwinder w0 pw ev s) as [[res inc] w1] eqn:Eu.
  assert (H1 : extends w w1).
  { apply (extends_trans _ w0); [done|]. by eapply unwind_sample_extends. }
  set (w2 := stat_add w1 _ _). assert (H2 : extends w w2) by (eapply extends_trans; [done|same_ex]).
  match goal with |- context [match ?m with Some _ => _ | None => None end] => destruct m as [[r3 w3]|] eqn:E3 end; [|done].
  assert (H3 : extends w w3).
  { case_if E3; [by injection E3 as <- <-|].
    match type of E3 with match ?m with Some _ => _ | None => None end = _ => destruct m as [w4|] eqn:E4 end; [|done].
    assert (H4 : extends w w4).
    { case_if E4; [|by injection E4 as <-]. destruct (register_allocation _ _ _ _ _ _); [|done].
      injection E4 as <-. eapply extends_trans; [done|same_ex]. }
    case_if E3; [|by injection E3 as <- <-]. destruct (perf_value_from_sample _ _ _); [|done].
    revert E3. apply fwd_extends; [intros; eapply extends_trans; [done|by eapply pprof_aggregate_extends]|].
    intros ? ? ? ?. by apply ok_extends. }
  destruct (IsDDResFatal r3); [intros [= <- <-]; done|].
  apply fwd_extends.
  - intros r4 w4. destruct inc; [|by apply ok_extends].
    apply fwd_extends; [intros; eapply extends_trans; [done|by eapply worker_pid_free_extends]|]. intros ? ? ? ?. by apply ok_extends.
  - intros w4 r5 w5 H4 [= <- <-]. eapply extends_trans; [done|same_ex].
Qed.

Lemma process_event_extends w ev pos t r w' :
  ddprof_worker_process_event ctx aggregate_result unwinder w ev pos t = Some (r, w') -> extends w w'.
Proof.
  unfold ddprof_worker_process_event. destruct (watchers ctx !! pos) as [pw|]; [|done].
  destruct (hdr_time ev (sample_type pw)) as [ts|]; [|done].
  match goal with |- context [if ?b then stat_add ?x _ _ else set_last _ _] => set (w0 := if b then _ else _) end.
  assert (H0 : extends w w0) by (unfold w0; case_match; same_ex). destruct (load_hdr ev) as [h|]; [|done].
  assert (Hok : forall w1 r w', extends w w1 -> ok w1 = Some (r, w') -> extends w w') by (intros *; apply ok_extends).
  repeat match goal with |- (if ?b then _ else _) = _ -> _ => destruct b end;
    try (destruct (load 4 ev 8) as [wpid|]; [destruct (wpid =? 0); [by apply Hok|]|done]); try by apply Hok.
  - destruct (hdr2samp _ _ _) as [[[] s]|]; [|eauto using extends_trans|done].
    2: { apply Hok. eapply extends_trans; [done|same_ex]. }
    apply fwd_extends; [|intros; by eapply Hok]. intros. eapply extends_trans; [|by eapply pr_sample_extends].
    eapply extends_trans; [done|same_ex].
  - destruct (ddprof_pr_mmap _ _ _) as [w1|] eqn:E; [|done]. apply Hok. eapply extends_trans; [done|].
    unfold ddprof_pr_mmap in E. repeat (case_match; simplify_eq). same_ex.
  - apply fwd_extends; [|intros; by eapply Hok]. intros r1 w1 E. unfold ddprof_pr_comm in E.
    destruct (load_hdr ev); [|done]. destruct (load 4 ev 8); [|done]. case_if E; [|by eapply Hok].
    revert E. apply fwd_extends; [|intros; by eapply Hok]. intros. eapply extends_trans; [done|by eapply worker_pid_free_extends].
  - apply fwd_extends; [|intros; by eapply Hok]. intros r1 w1 E. unfold ddprof_pr_fork in E.
    destruct (load 4 ev 8); [|done]. destruct (load 4 ev 12); [|done]. case_if E; [|by eapply Hok].
    revert E. apply fwd_extends; [intros; eapply extends_trans; [done|by eapply worker_pid_free_extends]|].
    intros w2 r2 w3 H2. apply Hok. eapply extends_trans; [done|same_ex].
  - destruct (ddprof_pr_lost _ _ _) as [w1|] eqn:E; [|done]. apply Hok. eapply extends_trans; [done|].
    unfold ddprof_pr_lost, incr_lost in E. repeat (case_match; simplify_eq). same_ex.
  - destruct (ddprof_pr_deallocation _ _ _) as [w1|] eqn:E; [|done]. apply Hok. eapply extends_trans; [done|].
    unfold ddprof_pr_deallocation in E. repeat (case_match; simplify_eq). same_ex.
  - destruct (load 4 ev 8); [|done].
    apply fwd_extends; [intros; eapply extends_trans; [done|by eapply aggregate_pid_extends]|].
    intros w2 r2 w3 H2. apply Hok. eapply extends_trans; [done|same_ex].
  - destruct (ddprof_pr_allocation_tracker_state _ _ _) as [w1|] eqn:E; [|done]. apply Hok. eapply extends_trans; [done|].
    unfold ddprof_pr_allocation_tracker_state, incr_lost in E. repeat (case_match; simplify_eq). same_ex.
Qed.

(** ** Exports *)

Context (export_result : Z -> list pprof_entry -> DDRes) (cycles_to_duration : Z -> Z) (statsd_send : string -> Z -> DDRes).

(** What waits for the export thread. *)
Definition pending (x : Exports) : list pprof_entry :=
  match exp_tid x with Running => pprof x (negb (i_current_pprof x)) | _ => [] end.

(** The values [l] are all of [a]; or, when threads could not be created, those that were not lost,
    in the same order. *)
Definition accounts (threads : bool) (l a : list pprof_entry) : Prop := if threads then a = l else sublist l a.

Lemma accounts_app threads l a es : accounts threads l a -> accounts threads (l ++ es) (a ++ es).
Proof. destruct threads; cbn; [by intros ->|]. intros H. by apply sublist_app. Qed.

(** Every value aggregated so far was given to the exporter once, in order, or
    waits for it, or is in the current profile; profiles are numbered in order. *)
Record exports_inv (threads : bool) (seq0 : Z) (w : Worker) : Prop := {
  ei_values : accounts threads (concat (map snd (exported (ex w))) ++ pending (ex w) ++ pprof (ex w) (i_current_pprof (ex w))) (aggregated w);
  ei_seq : map fst (exported (ex w)) = map u32 (seqZ seq0 (Z.of_nat (length (exported (ex w)))));
  ei_next : profile_seq (ex w) = u32 (seq0 + Z.of_nat (length (exported (ex w))))
}.

Lemma exports_inv_extends threads seq0 w w' : exports_inv threads seq0 w -> extends w w' -> exports_inv threads seq0 w'.
Proof.
  intros [V S N] (es & A0 & A1 & A2 & A3 & A4 & A5 & A6 & A7 & A8). split.
  - rewrite A1, A6. unfold pending in *. rewrite A3, A2, A7, A8. rewrite !app_assoc. apply accounts_app. by rewrite <- !app_assoc.
  - by rewrite A6.
  - by rewrite A5, A6.
Qed.

Lemma seq_snoc m n : 0 <= n -> map u32 (seqZ m (n + 1)) = map u32 (seqZ m n) ++ [u32 (m + n)].
Proof. intros Hn. rewrite seqZ_app by lia. rewrite map_app. f_equal. Qed.

(** The export thread runs. *)
Lemma export_thread_inv threads seq0 w x : exports_inv threads seq0 w ->
  exported x = exported (ex w) -> profile_seq x = profile_seq (ex w) -> exp_tid x <> Running ->
  accounts threads (concat (map snd (exported (ex w))) ++ pprof x (negb (i_current_pprof x)) ++ pprof x (i_current_pprof x)) (aggregated w) ->
  exports_inv threads seq0 (set_ex w (export_thread export_result x)).
Proof.
  intros [V S N] Hx Hs Ht Hv.
  assert (Hex : exported (export_thread export_result x) = exported x ++ [(profile_seq x, pprof x (negb (i_current_pprof x)))] /\
     pprof (export_thread export_result x) = pprof x /\ i_current_pprof (export_thread export_result x) = i_current_pprof x /\
     exp_tid (export_thread export_result x) = exp_tid x /\ profile_seq (export_thread export_result x) = u32 (profile_seq x + 1))
    by (unfold export_thread; case_match; done).
  destruct Hex as (E1 & E2 & E3 & E4 & E5). split; cbn [set_ex ex aggregated].
  - unfold pending. rewrite E1, E2, E3, E4, map_app, concat_app, Hx. cbn [map snd concat].
    destruct (exp_tid x); try done; rewrite app_nil_r, <- !app_assoc; done.
  - rewrite E1, map_app, length_app, Hx, S, Nat2Z.inj_add. cbn [map fst length]. rewrite seq_snoc by lia.
    by rewrite Hs, N.
  - rewrite E5, E1, length_app, Hs, N, Hx. cbn [length]. unfold u32. rewrite Zplus_mod_idemp_l. f_equal. lia.
Qed.

Lemma stats_keep w e c rss m : keeps w (symbols_update_stats (set_source_stats (set_process_stats w e c rss m) e) (ce_jit e)).
Proof. unfold symbols_update_stats. by destruct (ce_jit e) as [[? ?] ?]. Qed.

Lemma averages_keep w : keeps w (set_average_stats cycles_to_duration w).
Proof. unfold set_average_stats. by case_match. Qed.

Lemma stat_sets_keep l w : keeps w (foldl (fun w n => stat_set w n 0) w l).
Proof.
  revert w. induction l as [|n l IH]; intros w; cbn [foldl]; [apply keeps_refl|].
  by apply (keeps_trans _ (stat_set w n 0)).
Qed.

Lemma update_stats_keeps w e d r w' : worker_update_stats cycles_to_duration w e d = Some (r, w') -> keeps w w'.
Proof.
  unfold worker_update_stats. destruct (ce_proc e) as [[pr ct] rss]. destruct (IsDDResFatal pr); [intros [= <- <-]; apply keeps_refl|].
  destruct (div_opt _ _) as [m|]; [|done]. cbv zeta. pose proof (stats_keep w e ct rss m) as H1.
  set (w1 := symbols_update_stats _ _) in *. clearbody w1. destruct (div_opt _ _) as [tm|]; [|done]. intros [= <- <-].
  apply (keeps_trans _ w1); [done|]. apply (keeps_trans _ (stat_set w1 "TARGET_CPU_USAGE" tm)); [done|].
  pose proof (averages_keep (stat_set w1 "TARGET_CPU_USAGE" tm)) as H2. set (w2 := set_average_stats _ _) in *. by clearbody w2.
Qed.

Lemma end_cycle_keeps w e now : keeps w (end_cycle ctx statsd_send w e now).
Proof. unfold end_cycle. by repeat case_match. Qed.

Lemma finish_cycle_keeps w e now r w' :
  finish_cycle ctx cycles_to_duration statsd_send w e now = Some (r, w') ->
  keeps (set_times w (count_worker w) (send_time w) (perfclock_offset w) (ce_steady_now e)) w'.
Proof.
  unfold finish_cycle. intros E. apply fwd_inv in E as (r1 & w1 & E1 & E). apply update_stats_keeps in E1.
  destruct E as [(_ & _ & ->)|(_ & E)]; [done|]. revert E. apply ok_keeps. apply (keeps_trans _ w1); [done|].
  pose proof (end_cycle_keeps w1 e now) as H3. set (w3 := end_cycle _ _ _ _ _) in *. clearbody w3.
  apply (keeps_trans _ w3); [done|]. unfold ddprof_reset_worker_stats. eapply keeps_trans; [|apply stat_sets_keep].
  apply (keeps_trans _ (unwind_cycle w3)); [|apply keeps_set_live]. unfold unwind_cycle. by eapply keeps_trans; [|apply stat_sets_keep].
Qed.

Lemma exports_inv_times threads seq0 w c t o st : exports_inv threads seq0 w -> exports_inv threads seq0 (set_times w c t o st).
Proof. intros [V S N]. by split. Qed.

(** The profile is dispatched: the current buffer becomes the one to export; it is lost when the
    thread is not created. *)
Lemma dispatch_inv threads seq0 w : exports_inv threads seq0 w -> exp_tid (ex w) = NoThread ->
  let x := switch_pprof (set_error (ex w) false) in
  let x := set_pprof x (i_current_pprof x) [] in
  exports_inv threads seq0 (set_ex w (set_thread x Running)) /\ (threads = false -> exports_inv threads seq0 (set_ex w (set_thread x NoThread))) /\
  exports_inv threads seq0 (set_ex w (export_thread export_result x)).
Proof.
  intros H Ht. pose proof H as [V S N].
  assert (Hv : accounts threads (concat (map snd (exported (ex w))) ++ pprof (ex w) (i_current_pprof (ex w)) ++ []) (aggregated w))
    by (unfold pending in V; by rewrite Ht in V; rewrite app_nil_r).
  cbv zeta. set (x := set_pprof _ _ _).
  assert (Hp : pprof x (negb (i_current_pprof x)) = pprof (ex w) (i_current_pprof (ex w)) /\ pprof x (i_current_pprof x) = []).
  { unfold x. cbn [set_pprof switch_pprof set_error pprof i_current_pprof]. by destruct (i_current_pprof (ex w)). }
  destruct Hp as [Hp1 Hp2]. split_and!.
  - split; cbn [set_ex ex aggregated]; [|exact S|exact N]. unfold pending. cbn [set_thread exp_tid pprof i_current_pprof exported].
    rewrite Hp1, Hp2. exact Hv.
  - intros ->. split; cbn [set_ex ex aggregated]; [|exact S|exact N]. unfold pending. cbn [set_thread exp_tid pprof i_current_pprof exported].
    rewrite Hp2. cbn [app accounts] in *. etrans; [|exact Hv]. apply sublist_app; [done|]. apply sublist_nil_l.
  - apply export_thread_inv; [done|done|done|unfold x; cbn [set_pprof switch_pprof set_error exp_tid]; by rewrite Ht|].
    by rewrite Hp1, Hp2.
Qed.

Lemma exports_inv_keeps threads seq0 w w' : exports_inv threads seq0 w -> keeps w w' -> exports_inv threads seq0 w'.
Proof. intros [V S N] (A1 & A2 & _). split; rewrite ?A1, ?A2; done. Qed.

(** The profile current before a dispatch is exported, and the new one is empty. *)
Lemma dispatch_exports threads seq0 w x : exports_inv threads seq0 (set_ex w (export_thread export_result x)) -> exp_tid x = NoThread ->
  pprof x (i_current_pprof x) = [] -> accounts threads (concat (map snd (exported (export_thread export_result x)))) (aggregated w).
Proof.
  intros [V _ _] Ht Hp. cbn [set_ex ex aggregated] in V.
  assert (E : pending (export_thread export_result x) = [] /\
              pprof (export_thread export_result x) (i_current_pprof (export_thread export_result x)) = [])
    by (unfold pending, export_thread; destruct (IsDDResFatal _); cbn [set_error exp_tid pprof i_current_pprof]; by rewrite Ht).
  destruct E as [E1 E2]. rewrite E1, E2, app_nil_r in V. exact V.
Qed.

(** A cycle without a fatal result: nothing is lost if the thread was created, a synchronous one
    has exported everything, and a new cycle has started. *)
Lemma cycle_spec threads seq0 w e now sync r w' : exports_inv threads seq0 w -> (threads = true -> sync = false -> ce_thread_created e = true) ->
  ddprof_worker_cycle ctx aggregate_result lost_frame export_result cycles_to_duration statsd_send w e now sync = Some (r, w') ->
  IsDDResFatal r = false ->
  exports_inv threads seq0 w' /\ (sync = true -> accounts threads (concat (map snd (exported (ex w')))) (aggregated w')) /\
  cycle_start_time w' = ce_steady_now e /\ restart_worker w' = restart_worker w.
Proof.
  intros H Hthr E Hr. unfold ddprof_worker_cycle in E.
  apply fwd_inv in E as (r1 & w1 & E1 & [(Hf & -> & _)|(_ & E)]); [congruence|].
  apply fwd_inv in E as (r2 & w2 & E2 & [(Hf & -> & _)|(_ & E)]); [congruence|].
  apply clear_unvisited_pids_extends in E1. apply aggregate_live_extends in E2. pose proof (extends_trans _ _ _ E1 E2) as X2.
  pose proof (exports_inv_extends _ _ _ _ H X2) as H2. apply extends_restart in X2.
  match type of E with match ?j with Some _ => _ | None => _ end = _ => destruct j as [w3|] eqn:Ej end; [|injection E as <- <-; done].
  assert (H3 : exports_inv threads seq0 w3 /\ exp_tid (ex w3) = NoThread /\ restart_worker w3 = restart_worker w2).
  { destruct (exp_tid (ex w2)) eqn:Et; simplify_eq; [done|]. split; [|done]. destruct H2 as [V S N].
    split; [|exact S|exact N]. unfold pending in *. by rewrite Et in V. }
  destruct H3 as (H3 & Ht & R3). case_if E; [injection E as <- <-; done|].
  apply fwd_inv in E as (r4 & w4 & E4 & [(Hf & -> & _)|(_ & E)]); [congruence|].
  pose proof (report_lost_extends _ _ _ _ _ E4) as X4. assert (H4 : exports_inv threads seq0 w4) by (by eapply exports_inv_extends).
  assert (Ht4 : exp_tid (ex w4) = NoThread) by (destruct X4 as (? & _ & _ & _ & A3 & _); congruence).
  apply extends_restart in X4. destruct (dispatch_inv _ _ w4 H4 Ht4) as (Hasync & Hlost & Hsync).
  destruct (IsDDResFatal (ce_reset e)) eqn:Ef; [injection E as <- <-; congruence|].
  case_if E; [case_if E; [injection E as <- <-; done|]|]; apply finish_cycle_keeps in E.
  - split; [exact (exports_inv_keeps _ _ _ _ (exports_inv_times _ _ _ _ _ _ _ Hsync) E)|]. destruct E as (-> & -> & -> & ->).
    split; [|split; [done|cbn [set_times set_ex restart_worker]; congruence]]. intros _. apply (dispatch_exports _ seq0 w4 _ Hsync); [exact Ht4|].
    cbn [set_pprof switch_pprof set_error pprof i_current_pprof]. by destruct (i_current_pprof (ex w4)).
  - split.
    { refine (exports_inv_keeps _ _ _ _ (exports_inv_times _ _ _ _ _ _ _ _) E). destruct (ce_thread_created e) eqn:Ec; [exact Hasync|]. apply Hlost.
      destruct threads; [specialize (Hthr eq_refl eq_refl); congruence|done]. }
    destruct E as (_ & _ & -> & ->).
    split_and!; [done..|]. cbn [set_times set_ex restart_worker]. congruence.
Qed.

Lemma maybe_export_spec threads seq0 w e now r w' : exports_inv threads seq0 w -> (threads = true -> ce_thread_created e = true) ->
  ddprof_worker_maybe_export ctx aggregate_result lost_frame export_result cycles_to_duration statsd_send w e now = Some (r, w') ->
  IsDDResFatal r = false ->
  exports_inv threads seq0 w' /\ (restart_worker w = false -> restart_worker w' = true -> accounts threads (concat (map snd (exported (ex w')))) (aggregated w')) /\
  (cycle_start_time w' = cycle_start_time w \/ cycle_start_time w' = ce_steady_now e).
Proof.
  intros H Hthr E Hr. unfold ddprof_worker_maybe_export in E. case_if E; [|injection E as <- <-; split_and!; [done|congruence|by left]].
  apply fwd_inv in E as (r1 & w2 & E1 & [(Hf & -> & _)|(Hf & E)]); [congruence|]. injection E as <- <-.
  apply (cycle_spec threads seq0) in E1 as (H1 & Hs & Ht & R); [|by destruct H|auto|done]. split_and!; [done| |by right].
  intros _ Hw. apply Hs. by rewrite <- R.
Qed.

(** Steps of a running worker: an event, an export check, the last export, the
    export thread.  The worker stops at a fatal result.  With [threads] every export
    thread that is asked for is created. *)
Inductive worker_step (threads : bool) : Worker -> Worker -> Prop :=
| step_event w ev pos t r w' :
    ddprof_worker_process_event ctx aggregate_result unwinder w ev pos t = Some (r, w') -> worker_step threads w w'
| step_maybe_export w e now r w' :
    ddprof_worker_maybe_export ctx aggregate_result lost_frame export_result cycles_to_duration statsd_send w e now = Some (r, w') ->
    (threads = true -> ce_thread_created e = true) -> IsDDResFatal r = false -> worker_step threads w w'
| step_last_export w e now r w' :
    ddprof_worker_cycle ctx aggregate_result lost_frame export_result cycles_to_duration statsd_send w e now true = Some (r, w') ->
    IsDDResFatal r = false -> worker_step threads w w'
| step_thread w :
    exp_tid (ex w) = Running -> worker_step threads w (set_ex w (set_thread (export_thread export_result (ex w)) Finished)).

Lemma worker_step_inv threads seq0 w w' : worker_step threads w w' -> exports_inv threads seq0 w -> exports_inv threads seq0 w'.
Proof.
  intros [w0 ev pos t r w1 E|w0 e now r w1 E Hthr Hr|w0 e now r w1 E Hr|w0 Ht] H.
  - eapply exports_inv_extends; [done|by eapply process_event_extends].
  - by eapply maybe_export_spec.
  - eapply (cycle_spec threads); [done| |done|done]. done.
  - assert (Hth : set_thread (export_thread export_result (ex w0)) Finished = export_thread export_result (set_thread (ex w0) Finished))
      by (unfold export_thread; cbn [set_thread profile_seq pprof i_current_pprof exported]; by case_match).
    rewrite Hth. apply export_thread_inv; try done. cbn [set_thread pprof i_current_pprof]. destruct H as [V _ _].
    unfold pending in V. by rewrite Ht in V.
Qed.

(** A worker that has just started, after [seq0] exports of earlier workers. *)
Definition fresh_exports (seq0 : Z) (w : Worker) : Prop :=
  aggregated w = [] /\ exp_tid (ex w) = NoThread /\ pprof (ex w) (i_current_pprof (ex w)) = [] /\
  exported (ex w) = [] /\ profile_seq (ex w) = seq0 /\ 0 <= seq0 < 2 ^ 32.

Lemma fresh_exports_inv threads seq0 w : fresh_exports seq0 w -> exports_inv threads seq0 w.
Proof.
  intros (Ha & Ht & Hp & He & Hs & Hr). split; rewrite ?Ha, ?He, ?Hs; unfold pending; rewrite ?Ht, ?Hp; [by destruct threads|done|].
  cbn [length]. rewrite Z.add_0_r. symmetry. apply Z.mod_small. lia.
Qed.

(** [ddprof_worker_init] starts a worker afresh, with the sequence number it was
    given. *)
Lemma worker_init_fresh w fd e w' : aggregated w = [] -> exported (ex w) = [] -> 0 <= profile_seq (ex w) < 2 ^ 32 ->
  ddprof_worker_init ctx w fd e = (ddres_init, w') -> fresh_exports (profile_seq (ex w)) w'.
Proof.
  intros Ha He Hs. unfold ddprof_worker_init, worker_library_init, worker_init_stats. destruct (negb _); [done|].
  destruct (_ && _) eqn:Em.
  { cbn [IsDDResFatal]. apply andb_prop in Em as [_ Em]. rewrite Em. intros [= Er <-]. by rewrite Er in Em. }
  change (IsDDResFatal ddres_init) with false. cbv iota zeta. destruct (first_fatal _) as [r|] eqn:Ef.
  { intros [= -> <-]. apply find_some in Ef as [_ Ef]. done. }
  destruct (ie_proc e) as [r cpu]. destruct (IsDDResFatal r) eqn:Er; [intros [= -> <-]; done|]. intros E. injection E as <-. split_and!; [exact Ha|reflexivity|reflexivity|exact He|reflexivity|apply Hs..].
Qed.

(** C24: Profiles are exported without duplication, and without loss when the
    export threads can be created.  In every state a worker reaches, whatever events
    arrive and however the export thread is scheduled: the profiles given to the
    exporter, in order, then the profile waiting for the export thread, then the
    current profile hold the values aggregated so far in their order, none twice,
    and all of them if every creation of an export thread succeeded (a failure is
    ignored and loses the profile, [failed_thread_loses_profile]); and the profiles
    carry consecutive sequence numbers, from the number the worker was started with. *)
Theorem exports_conserve_values threads seq0 w0 w :
  fresh_exports seq0 w0 -> rtc (worker_step threads) w0 w ->
  let values := concat (map snd (exported (ex w))) ++ pending (ex w) ++ pprof (ex w) (i_current_pprof (ex w)) in
  sublist values (aggregated w) /\ (threads = true -> aggregated w = values) /\
  map fst (exported (ex w)) = map u32 (seqZ seq0 (Z.of_nat (length (exported (ex w))))).
Proof.
  intros H0%(fresh_exports_inv threads) Hsteps. assert (H : exports_inv threads seq0 w).
  { clear - H0 Hsteps. induction Hsteps as [|w1 w2 w3 Hstep _ IH]; [done|]. apply IH. by eapply worker_step_inv. }
  pose proof (ei_values _ _ _ H) as Hv. cbv zeta. split_and!; [|by intros ->|apply (ei_seq _ _ _ H)]. destruct threads; cbn in Hv; [by rewrite <- Hv|done].
Qed.
End worker.
