(* ===== verification/WorkerSafety.v ===== *)
(** * The worker: safety

    Every event the kernel or the allocation tracker can deliver is processed
    without leaving the preconditions of the mappings, of the live allocations or
    of the arrays indexed by watcher, and the invariants are kept. *)

From S2P Require Import Prelude RingBuffer PerfSample Ddres Dso DsoHdr LiveAlloc Watcher Stats Process KernelSample Worker WorkerProofs.

Section safety.
Context (ctx : DDProfContext) (aggregate_result : pprof_entry -> option DDRes)
        (unwinder : Unwinder).

(** The unwinder reads and back-populates the mappings through the operations of
    [DsoHdr], which keep them well formed. *)
Definition unwinder_keeps_mappings : Prop :=
  (forall d p b ev s, hdr_wf d -> hdr_wf (uw_dso (unwind_dwfl unwinder d p b ev s))) /\
  (forall d p, hdr_wf d -> hdr_wf (snd (base_frame unwinder d p))).

(** User-space addresses; both architectures use far fewer bits. *)
Definition max_address : Z := 2 ^ 61.
#[local] Arguments max_address : simpl never.

(** The values a watcher has a slot for in the profile. *)
Definition tracks_sum (pw : PerfWatcher) : bool := Any (Z.land kSum (aggregation_mode pw)).
Definition tracks_live (pw : PerfWatcher) : bool := Any (Z.land kLiveSum (aggregation_mode pw)).
Definition live_watcher (w : nat) : Prop := exists pw, watchers ctx !! w = Some pw /\ tracks_live pw = true.
Definition has_slot (e : pprof_entry) : Prop :=
  exists pw, watchers ctx !! pe_watcher e = Some pw /\ (if pe_pos e =? kSumPos then tracks_sum pw else tracks_live pw) = true.

(** The aggregation stays inside its arrays for values with a slot. *)
Definition aggregation_defined : Prop := forall e, has_slot e -> is_Some (aggregate_result e).

(** Live addresses, only of watchers that track them. *)
Definition addresses_ok (la : LiveAllocation) : Prop :=
  forall w p, map_Forall (fun a _ => 0 <= a < max_address /\ live_watcher w) (live (ps_of la w p)).

Definition call_fits (c : la_call) : Prop :=
  match c with CAlloc _ a sz w _ => i64 sz <> 0 /\ 0 <= a < max_address /\ live_watcher w | _ => True end.

(** The addresses bound the number of live allocations. *)
Lemma call_fits_ok la c : la_inv la -> addresses_ok la -> call_fits c -> call_ok la c.
Proof.
  intros Hi Ha. destruct c as [uo a sz w p| | | | |]; try done. intros [Hs _]. split; [done|].
  destruct (Hi w p) as [Hps _]. specialize (Ha w p).
  assert (Z.of_nat (size (address_map (ps_of la w p))) <= max_address) as Hle; [|unfold max_address in Hle; lia].
  rewrite <- (Z2Nat.id max_address) by done. apply inj_le. rewrite <- (size_dom (D := gset Z)).
  apply (size_bounded _ max_address). intros x [v Hv]%elem_of_dom.
  destruct (pv_addr _ Hps _ _ Hv) as (_ & n & [u y] & Hn & Hu). apply (Ha x (u, vpa_value v)).
  by rewrite live_lookup, Hv, Hn, Hu.
Qed.

Lemma addresses_call la c la' : addresses_ok la -> call_fits c ->
  (forall w p, live (ps_of la' w p) = ideal_call c w p (live (ps_of la w p))) -> addresses_ok la'.
Proof.
  intros Ha Hc Hl w p. rewrite Hl. specialize (Ha w p). destruct c as [uo a sz i q|a i q| |i q|q|]; cbn [ideal_call ideal_step];
    try case_decide; try done; try by apply map_Forall_empty.
  - destruct (locs uo); [done|]. match goal with Hx : _ = _ /\ _ |- _ => destruct Hx as [-> _] end. apply map_Forall_insert_2; [apply Hc|done].
  - by apply map_Forall_delete.
Qed.

Record worker_inv (w : Worker) : Prop := {
  wi_dso : hdr_wf (dso_hdr (us w));
  wi_live : la_inv (live_allocation w);
  wi_addresses : addresses_ok (live_allocation w);
  wi_live_len : (length (watcher_vector (live_allocation w)) <= length (watchers ctx))%nat;
  wi_lost : length (lost_events_per_watcher w) = Z.to_nat kMaxTypeWatcher;
  wi_watchers : (length (watchers ctx) <= Z.to_nat kMaxTypeWatcher)%nat
}.

Definition safe (m : option (DDRes * Worker)) : Prop := exists r w, m = Some (r, w) /\ worker_inv w.

Lemma safe_ok w : worker_inv w -> safe (ok w).
Proof. intros H. by exists ddres_init, w. Qed.

Lemma safe_fwd m k : safe m -> (forall w, worker_inv w -> safe (k w)) -> safe (fwd m k).
Proof.
  intros (r & w & -> & H) Hk. unfold fwd. destruct (IsDDResFatal r); [by exists r, w|]. by apply Hk.
Qed.

Lemma worker_inv_same w w' : worker_inv w -> dso_hdr (us w') = dso_hdr (us w) -> live_allocation w' = live_allocation w ->
  lost_events_per_watcher w' = lost_events_per_watcher w -> worker_inv w'.
Proof. intros [H1 H2 H3 H4 H5 H6] E1 E2 E3. split; rewrite ?E1, ?E2, ?E3; done. Qed.

Lemma worker_inv_live w la : worker_inv w -> la_inv la -> addresses_ok la -> (length (watcher_vector la) <= length (watchers ctx))%nat ->
  worker_inv (set_live w la).
Proof. intros [H1 H2 H3 H4 H5] Hla Hlen. by split. Qed.

Lemma worker_inv_dso w d : worker_inv w -> hdr_wf d -> worker_inv (set_dso w d).
Proof. intros [H1 H2 H3 H4 H5] Hd. by split. Qed.

(** ** Aggregation *)

Hypothesis Hdefined : aggregation_defined.

Lemma pprof_aggregate_safe w e : worker_inv w -> has_slot e -> safe (pprof_aggregate aggregate_result w e).
Proof.
  intros H Hs. unfold pprof_aggregate. destruct (Hdefined e Hs) as [r0 ->]. destruct (IsDDResFatal r0); [by exists r0, w|].
  eexists _, _. split; [reflexivity|]. by apply (worker_inv_same w).
Qed.

Lemma aggregate_all_safe es w : worker_inv w -> Forall has_slot es -> safe (aggregate_all aggregate_result w es).
Proof.
  intros H Hes. revert w H. induction Hes as [|e es He _ IH]; intros w H; cbn [aggregate_all]; [by apply safe_ok|].
  apply safe_fwd; [by apply pprof_aggregate_safe|done].
Qed.

(** A stack has a live address. *)
Lemma stack_is_live ps u n : ps_inv ps -> unique_stacks ps !! u = Some n -> live ps <> ∅.
Proof.
  intros H Hu Hl. destruct (pv_fwd _ H _ _ Hu) as [vc Hn]. destruct (pv_count _ H _ _ _ Hn) as (Hc & Hpos & _).
  assert (address_map ps = ∅) as Ha.
  { apply map_empty. intros a. destruct (address_map ps !! a) as [v|] eqn:Ev; [|done].
    destruct (pv_addr _ H _ _ Ev) as (_ & k & [u' x] & Hk & Hx). exfalso.
    assert (live ps !! a = Some (u', vpa_value v)) as E by (by rewrite live_lookup, Ev, Hk, Hx). by rewrite Hl, lookup_empty in E. }
  rewrite Ha, msum_empty in Hc. lia.
Qed.

(** The entries of the live stacks have their slot. *)
Lemma live_entries_slots ps pos es : ps_inv ps -> (live ps <> ∅ -> live_watcher pos) -> live_entries ps pos = Some es -> Forall has_slot es.
Proof.
  intros H Hw E. unfold live_entries in E.
  assert (Hall : Forall (fun un => unique_stacks ps !! fst un = Some (snd un)) (map_to_list (unique_stacks ps))).
  { apply Forall_forall. intros [u n] Hin. by apply elem_of_map_to_list in Hin. }
  revert es E. induction Hall as [|[u n] l Hn _ IH]; intros es E; cbn [node_entries] in E; [by injection E as <-|].
  destruct (nodes ps !! n) as [[u' vc]|]; [|done]. destruct (node_entries ps pos l) as [rest|]; [|done]. injection E as <-.
  constructor; [|by apply IH]. apply Hw. by eapply stack_is_live.
Qed.

(** Every stack has its node. *)
Lemma live_entries_total ps pos : ps_inv ps -> is_Some (live_entries ps pos).
Proof.
  intros H. unfold live_entries. assert (Hall : Forall (fun un => unique_stacks ps !! fst un = Some (snd un)) (map_to_list (unique_stacks ps))).
  { apply Forall_forall. intros [u n] Hin. by apply elem_of_map_to_list in Hin. }
  induction Hall as [|[u n] l Hn _ IH]; cbn [node_entries]; [by eexists|].
  cbn [fst snd] in Hn. destruct (pv_fwd _ H _ _ Hn) as [vc ->]. destruct IH as [rest ->]. by eexists.
Qed.

Lemma ps_of_touch la pos pid pm st w p : watcher_vector la !! pos = Some pm ->
  ps_of (mkLA (<[pos := <[pid := default empty_PidStacks (pm !! pid)]> pm]> (watcher_vector la)) st) w p = ps_of la w p.
Proof.
  intros Hpm. unfold ps_of. cbn [watcher_vector]. destruct (decide (w = pos)) as [->|]; [|by rewrite list_lookup_insert_ne by done].
  rewrite list_lookup_insert_eq by (by eapply lookup_lt_Some). rewrite Hpm.
  change (default ∅ (Some ?x)) with x. destruct (decide (p = pid)) as [->|].
  - by rewrite lookup_insert_eq.
  - by rewrite lookup_insert_ne.
Qed.

(** The live stacks of one process under a watcher. *)
Lemma pid_slots w pos pm ps pid es : worker_inv w -> watcher_vector (live_allocation w) !! pos = Some pm ->
  default empty_PidStacks (pm !! pid) = ps -> ps_inv ps -> live_entries ps pos = Some es -> Forall has_slot es.
Proof.
  intros H Hpm Hps Hi E. eapply live_entries_slots; [done| |done]. intros Hl.
  assert (ps_of (live_allocation w) pos pid = ps) as Hof by (unfold ps_of; by rewrite Hpm).
  apply map_choose in Hl as (a & x & Hx). rewrite <- Hof in Hx. by apply (wi_addresses _ H pos pid a x).
Qed.

Lemma la_inv_entry la pos pm pid : la_inv la -> watcher_vector la !! pos = Some pm -> ps_inv (default empty_PidStacks (pm !! pid)).
Proof. intros H Hpm. destruct (H pos pid) as [Hp _]. unfold ps_of in Hp. by rewrite Hpm in Hp. Qed.

(** Aggregation changes the exports and the log only. *)
Lemma aggregate_all_frame {A} (f : Worker -> A) es w r w' : (forall w x e, f (log_entry (set_ex w x) e) = f w) ->
  aggregate_all aggregate_result w es = Some (r, w') -> f w' = f w.
Proof.
  intros Hf. revert w r w'. induction es as [|e es IH]; intros w r w'; cbn [aggregate_all]; [by intros [= <- <-]|].
  intros E. apply fwd_inv in E as (r1 & w1 & E1 & E). assert (H1 : f w1 = f w).
  { unfold pprof_aggregate in E1. destruct (aggregate_result e) as [r0|]; [|done]. destruct (IsDDResFatal _); injection E1 as <- <-; [done|apply Hf]. }
  destruct E as [(_ & _ & ->)|(_ & E)]; [done|]. rewrite <- H1. by eapply IH.
Qed.

Lemma aggregate_all_live es w r w' : aggregate_all aggregate_result w es = Some (r, w') -> live_allocation w' = live_allocation w.
Proof. by apply (aggregate_all_frame live_allocation). Qed.

Lemma aggregate_pid_frame {A} (f : Worker -> A) vs w pid pos r w' :
  (forall w x e, f (log_entry (set_ex w x) e) = f w) -> (forall w la, f (set_live w la) = f w) ->
  aggregate_pid_from ctx aggregate_result w pid pos vs = Some (r, w') -> f w' = f w.
Proof.
  intros Hf Hl. revert w pos r w'.
  induction vs as [|pm vs IH]; intros w pos r w' E; cbn [aggregate_pid_from] in E; [by injection E as <- <-|].
  destruct (watchers ctx !! pos); [|done]. destruct (live_entries _ _) as [es|]; [|done].
  apply fwd_inv in E as (r1 & w1 & E1 & E). apply (aggregate_all_frame f) in E1; [|done]. rewrite Hl in E1.
  destruct E as [(_ & _ & ->)|(_ & E)]; [done|]. rewrite <- E1. by eapply IH.
Qed.

Lemma aggregate_pid_safe vs w pid pos : worker_inv w -> vs = drop pos (watcher_vector (live_allocation w)) ->
  safe (aggregate_pid_from ctx aggregate_result w pid pos vs).
Proof.
  revert w pos. induction vs as [|pm vs IH]; intros w pos H Hvs; cbn [aggregate_pid_from]; [by apply safe_ok|].
  assert (Hpm : watcher_vector (live_allocation w) !! pos = Some pm).
  { rewrite <- (Nat.add_0_r pos), <- lookup_drop, <- Hvs. done. }
  pose proof (lookup_lt_Some _ _ _ Hpm) as Hlt.
  destruct (lookup_lt_is_Some_2 (watchers ctx) pos) as [pw ->]; [pose proof (wi_live_len _ H); lia|].
  pose proof (la_inv_entry _ _ _ pid (wi_live _ H) Hpm) as Hps.
  destruct (live_entries_total (default empty_PidStacks (pm !! pid)) pos Hps) as [es Ees]. rewrite Ees.
  pose proof (pid_slots _ _ _ _ _ _ H Hpm eq_refl Hps Ees) as Hslots.
  set (la := live_allocation w) in *. set (w0 := set_live w _).
  assert (H0 : worker_inv w0).
  { apply worker_inv_live; [done| | |cbn [watcher_vector]; rewrite length_insert; apply H];
      intros w' p'; rewrite ps_of_touch by done; apply H. }
  destruct (aggregate_all_safe es w0 H0 Hslots) as (r1 & w1 & E1 & H1). rewrite E1. unfold fwd.
  destruct (IsDDResFatal r1); [by exists r1, w1|]. apply IH; [done|].
  rewrite (aggregate_all_live _ _ _ _ E1). cbn [w0 set_live live_allocation watcher_vector].
  rewrite drop_insert_lt by lia. fold la. apply (f_equal (drop 1)) in Hvs. rewrite drop_drop in Hvs.
  cbn [drop] in Hvs. by rewrite Nat.add_1_r in Hvs.
Qed.

Lemma worker_pid_free_safe w pid : worker_inv w -> safe (worker_pid_free ctx aggregate_result w pid).
Proof.
  intros H. unfold worker_pid_free. apply safe_fwd; [by apply aggregate_pid_safe|]. intros w1 H1. apply safe_ok.
  destruct (hdr_exec_spec (fun _ => None) (dso_hdr (us w1)) (HFree pid) (wi_dso _ H1) I) as (h & [= <-] & Hh).
  destruct (live_call_spec (live_allocation w1) (CClearPid pid) (wi_live _ H1) I) as (la & [= <-] & Hla & Hl).
  pose proof (addresses_call _ (CClearPid pid) _ (wi_addresses _ H1) I Hl) as Had.
  destruct H1 as [G1 G2 G3 G4 G5 G6]. split; try done. cbn. unfold clear_pid. cbn [watcher_vector]. by rewrite length_map.
Qed.

(** ** Calls on the components *)

Lemma worker_inv_hdr w o d : worker_inv w -> hdr_op_ok o -> hdr_exec (fun _ => None) (dso_hdr (us w)) o = Some d -> worker_inv (set_dso w d).
Proof.
  intros H Ho E. apply worker_inv_dso; [done|]. destruct (hdr_exec_spec (fun _ => None) _ o (wi_dso _ H) Ho) as (d' & E' & Hd).
  rewrite E in E'. by injection E' as ->.
Qed.

(** The watcher a call on the live allocations names, if any. *)
Definition call_watcher (c : la_call) : option nat :=
  match c with
  | CAlloc _ _ _ w _ | CDealloc _ w _ | CLibraryState _ _ w _ | CClearWatcher w _ => Some w
  | CClearPid _ | CCycle => None
  end.

Lemma la_exec_length la c la' n : la_exec la c = Some la' -> (length (watcher_vector la) <= n)%nat ->
  (forall i, call_watcher c = Some i -> i < n)%nat -> (length (watcher_vector la') <= n)%nat.
Proof.
  assert (Hr : forall v i, (length v <= n -> i < n -> length (access_resize v i) <= n)%nat).
  { intros v i Hv Hi. unfold access_resize. destruct (Nat.leb_spec (length v) i); [|lia]. rewrite length_app, length_replicate. lia. }
  intros E Hn Hi. destruct c as [uo a sz i p|a i p|cf tr i p|i p|p|]; cbn [la_exec call_watcher] in *.
  - unfold register_allocation in E. cbn [pid_entry] in E. destruct (register_allocation_ps _ _ _ _) as [[[? ?] ?]|]; [|done].
    injection E as <-. cbn [watcher_vector]. rewrite length_insert. by auto.
  - unfold register_deallocation in E. cbn [pid_entry] in E. destruct (register_deallocation_ps _ _) as [[? ?]|]; [|done].
    injection E as <-. cbn [watcher_vector]. rewrite length_insert. by auto.
  - injection E as <-. cbn [register_library_state pid_entry watcher_vector]. rewrite length_insert. by auto.
  - injection E as <-. cbn [clear_pid_for_watcher pid_entry watcher_vector]. rewrite length_insert. by auto.
  - injection E as <-. cbn [clear_pid watcher_vector]. by rewrite length_map.
  - by injection E as <-.
Qed.

Lemma worker_inv_call w c : worker_inv w -> call_fits c ->
  (forall i, call_watcher c = Some i -> i < length (watchers ctx))%nat ->
  exists la, la_exec (live_allocation w) c = Some la /\ worker_inv (set_live w la).
Proof.
  intros H Hc Hi. pose proof (call_fits_ok _ c (wi_live _ H) (wi_addresses _ H) Hc) as Hok.
  destruct (live_call_spec _ c (wi_live _ H) Hok) as (la & E & Hla & Hl). exists la. split; [done|].
  apply worker_inv_live; [done|done|by eapply addresses_call; [apply H|..]|]. eapply la_exec_length; [done|apply H|done].
Qed.

(** Updates of the other fields. *)
Ltac same_inv H := apply (worker_inv_same _ _ H); reflexivity.

Lemma worker_inv_stat w n x : worker_inv w -> worker_inv (stat_add w n x).
Proof. intros H. same_inv H. Qed.

Lemma worker_inv_set w n x : worker_inv w -> worker_inv (stat_set w n x).
Proof. intros H. same_inv H. Qed.

Lemma worker_inv_proc w p : worker_inv w -> worker_inv (set_proc w p).
Proof. intros H. same_inv H. Qed.

Lemma incr_lost_safe w i n : worker_inv w -> (i < length (watchers ctx))%nat -> exists w', incr_lost w i n = Some w' /\ worker_inv w'.
Proof.
  intros H Hi. unfold incr_lost. destruct (lookup_lt_is_Some_2 (lost_events_per_watcher w) i) as [x ->].
  { rewrite (wi_lost _ H). pose proof (wi_watchers _ H). lia. }
  eexists. split; [done|]. destruct H as [H1 H2 H3 H4 H5 H6]. split; try done. cbn [set_lost lost_events_per_watcher].
  by rewrite length_insert.
Qed.

(** ** Events *)

Lemma load_total n ev off : 0 <= off -> off + Z.of_nat n <= Z.of_nat (length ev) -> is_Some (load n ev off).
Proof.
  intros H1 H2. unfold load. destruct (Z.leb_spec 0 off); [|lia]. destruct (Z.leb_spec (off + Z.of_nat n) (Z.of_nat (length ev))); [|lia].
  by eexists.
Qed.

(** The range of an mmap record is not empty and ends below the last address. *)
Definition mmap_range_ok (ev : list Z) : Prop :=
  forall a len, load 8 ev 16 = Some a -> load 8 ev 24 = Some len -> 0 <= a /\ 0 < len /\ a + len < 2 ^ 64.

(** What the value and the live allocations need of a sample: the field the value comes from is in
    the record, and an allocation has a size and an address of user space. *)
Definition sample_values_ok (pw : PerfWatcher) (k : kernel_sample) : Prop :=
  (tracks_sum pw = true -> value_field_ok pw k) /\
  (tracks_live pw = true -> has (sample_type pw) PERF_SAMPLE_ADDR = true /\ has (sample_type pw) PERF_SAMPLE_PERIOD = true /\
     (ks_addr k <> 0 -> i64 (ks_period k) <> 0 /\ 0 <= ks_addr k < max_address)).

Definition min_size (ty : Z) : Z :=
  if ty =? PERF_RECORD_MMAP2 then 72
  else if ty =? PERF_RECORD_FORK then 16
  else if ty =? PERF_RECORD_LOST then 24
  else if ty =? PERF_CUSTOM_EVENT_DEALLOCATION then 32
  else if ty =? PERF_CUSTOM_EVENT_ALLOCATION_TRACKER_STATE then 44
  else if ty =? PERF_CUSTOM_EVENT_CLEAR_LIVE_ALLOCATION then 24
  else 12.

(** The records the kernel ends with the identification of the sample. *)
Definition kernel_records : list Z := [PERF_RECORD_MMAP; PERF_RECORD_MMAP2; PERF_RECORD_COMM; PERF_RECORD_EXIT; PERF_RECORD_FORK; PERF_RECORD_LOST].
Definition trailer_size (mask : Z) : Z :=
  8 * popcount [PERF_SAMPLE_TIME; PERF_SAMPLE_ID; PERF_SAMPLE_STREAM_ID; PERF_SAMPLE_CPU; PERF_SAMPLE_IDENTIFIER] mask.

(** A record as the kernel and the allocation tracker write them: as long as its type needs and as
    its header says, a sample in the documented layout. *)
Record event_ok (ev : list Z) (pos : nat) (pw : PerfWatcher) (h : perf_event_header) : Prop := {
  eo_watcher : watchers ctx !! pos = Some pw;
  eo_hdr : load_hdr ev = Some h;
  eo_size : min_size (h_type h) <= Z.of_nat (length ev);
  eo_trailer : existsb (Z.eqb (h_type h)) kernel_records = true -> trailer_size (sample_type pw) <= h_size h <= Z.of_nat (length ev);
  eo_mmap : h_type h = PERF_RECORD_MMAP2 -> mmap_range_ok ev;
  eo_sample : h_type h = PERF_RECORD_SAMPLE ->
    exists k pad, ev = sample_bytes (sample_type pw) k ++ pad /\ kernel_sample_ok k /\ sample_values_ok pw k
}.

(** Such a record has a time. *)
Lemma event_time ev pos pw h : event_ok ev pos pw h -> is_Some (hdr_time ev (sample_type pw)).
Proof.
  intros [_ Hh Hsize Htr _ Hs]. destruct (has (sample_type pw) PERF_SAMPLE_TIME) eqn:Et; [|unfold hdr_time; rewrite Et; by eexists].
  destruct (Z.eqb_spec (h_type h) PERF_RECORD_SAMPLE) as [Ety|Hns].
  { destruct (Hs Ety) as (k & pad & -> & Hk & _). destruct (hdr2samp_kernel_sample (sample_type pw) k pad zero_sample Hk) as (s & E & _).
    eexists. eapply (hdr_time_agrees_with_hdr2samp zero_sample); [exact E| |exact Et]. apply hdr2samp_header in E. congruence. }
  unfold hdr_time. rewrite Et, Hh. cbn [negb]. rewrite (proj2 (Z.eqb_neq _ _) Hns). destruct (existsb _ [PERF_RECORD_MMAP; _; _; _; _; _]) eqn:Ek.
  - specialize (Htr Ek). unfold trailer_size in Htr. apply load_total; [lia|]. unfold popcount in *. cbn [count_if] in *. rewrite Et in *. lia.
  - destruct (existsb _ [PERF_CUSTOM_EVENT_DEALLOCATION; _; _]) eqn:Ec; [|by eexists]. apply load_total; [done|]. cbn [existsb] in Ec. unfold min_size in Hsize.
    change (sizeof_hdr + 8 + Z.of_nat 8) with 24.
    repeat match goal with Hx : context [h_type h =? ?c] |- _ => destruct (Z.eqb_spec (h_type h) c) as [E|]; [rewrite E in *; try discriminate; cbn in Hsize; try lia|] end; try discriminate; try lia.
Qed.

Lemma pr_mmap_safe w ev ts : worker_inv w -> 72 <= Z.of_nat (length ev) -> mmap_range_ok ev ->
  exists w', ddprof_pr_mmap w ev ts = Some w' /\ worker_inv w'.
Proof.
  intros H Hlen Hrange. unfold ddprof_pr_mmap.
  destruct (load_total 4 ev 8) as [pid ->]; [lia..|]. destruct (load_total 8 ev 16) as [a Ea]; [lia..|]. rewrite Ea.
  destruct (load_total 8 ev 24) as [len El]; [lia..|]. rewrite El. destruct (load_total 8 ev 32) as [pgoff ->]; [lia..|].
  destruct (load_total 8 ev 48) as [ino ->]; [lia..|]. destruct (load_total 4 ev 64) as [prot ->]; [lia..|].
  destruct (Hrange a len Ea El) as (Ha & Hl & Hend). set (d := new_dso _ _ _ _ _ _ _ _).
  assert (Hd : hdr_op_ok (HMmap d ts)).
  { cbn [hdr_op_ok]. unfold dso_ok, d. cbn [new_dso d_start d_end]. rewrite (u64_small (a + len)) by (unfold is_u64; lia). rewrite u64_small by (unfold is_u64; lia). lia. }
  destruct (hdr_exec_spec (fun _ => None) _ (HMmap d ts) (wi_dso _ H) Hd) as (h & E & Hh). cbn [hdr_exec] in E.
  destruct (maybe_insert_erase_overlap (dso_hdr (us w)) d ts) as [[b h']|]; [|done]. injection E as ->.
  eexists. split; [done|]. apply worker_inv_proc. by apply worker_inv_dso.
Qed.

Lemma pr_comm_safe w ev h : worker_inv w -> load_hdr ev = Some h -> 12 <= Z.of_nat (length ev) ->
  safe (ddprof_pr_comm ctx aggregate_result w ev).
Proof.
  intros H Eh Hlen. unfold ddprof_pr_comm. rewrite Eh. destruct (load_total 4 ev 8) as [pid ->]; [lia..|].
  destruct (has _ _); [|by apply safe_ok]. apply safe_fwd; [by apply worker_pid_free_safe|apply safe_ok].
Qed.

Lemma pr_fork_safe w ev : worker_inv w -> 16 <= Z.of_nat (length ev) -> safe (ddprof_pr_fork ctx aggregate_result w ev).
Proof.
  intros H Hlen. unfold ddprof_pr_fork. destruct (load_total 4 ev 8) as [pid ->]; [lia..|].
  destruct (load_total 4 ev 12) as [ppid ->]; [lia..|]. destruct (negb _); [|by apply safe_ok].
  apply safe_fwd; [by apply worker_pid_free_safe|]. intros w1 H1. apply safe_ok, worker_inv_proc.
  by apply (worker_inv_hdr w1 (HFork pid ppid)).
Qed.

Hypothesis Hunwind : unwinder_keeps_mappings.

Lemma unwind_sample_safe w pw ev s res inc w' : worker_inv w ->
  ddprof_unwind_sample ctx unwinder w pw ev s = (res, inc, w') ->
  worker_inv w' /\ live_allocation w' = live_allocation w.
Proof.
  intros H E. unfold ddprof_unwind_sample in E. set (w0 := if config pw =? _ then _ else _) in E.
  assert (H0 : worker_inv w0 /\ live_allocation w0 = live_allocation w)
    by (unfold w0; destruct (config pw =? _); (split; [|reflexivity]); repeat apply worker_inv_stat; exact H).
  destruct H0 as [H0 L0]. clearbody w0. destruct (unwindstate_unwind _ _ _ _ _) as [[res1 inc1] w1] eqn:Eu.
  apply unwindstate_unwind_shape in Eu as (u & err & d & -> & Hu). injection E as <- <- <-.
  assert (H1 : worker_inv (set_us w0 u)).
  { destruct Hunwind as [U1 U2]. destruct H0 as [G1 G2 G3 G4 G5]. split; try done. cbn [set_us us]. apply Hu; [intros; by apply U1|exact U2|exact G1]. }
  split; [|by destruct err; case_match]. destruct err; case_match; repeat apply worker_inv_stat; done.
Qed.

Lemma pr_sample_safe w pos pw ev s t : worker_inv w -> watchers ctx !! pos = Some pw ->
  (tracks_sum pw = true -> is_Some (perf_value_from_sample pw ev s)) ->
  (tracks_live pw = true -> addr s <> 0 -> i64 (period s) <> 0 /\ 0 <= addr s < max_address) ->
  safe (ddprof_pr_sample ctx aggregate_result unwinder w pos ev s t).
Proof.
  intros H Hpw Hval Hsize. unfold ddprof_pr_sample. rewrite Hpw.
  set (w0 := if config pw =? _ then _ else w).
  assert (H0 : worker_inv w0 /\ live_allocation w0 = live_allocation w)
    by (unfold w0; case_match; (split; [|done]); try apply worker_inv_stat; done).
  destruct H0 as [H0 L0]. clearbody w0.
  destruct (ddprof_unwind_sample ctx unwinder w0 pw ev s) as [[res inc] w1] eqn:Eu.
  destruct (unwind_sample_safe _ _ _ _ _ _ _ H0 Eu) as [H1 L1]. rewrite L0 in L1.
  set (w2 := stat_add w1 _ _). assert (H2 : worker_inv w2) by (by apply worker_inv_stat).
  assert (L2 : live_allocation w2 = live_allocation w) by exact L1. clearbody w2.
  match goal with |- context [match ?m with Some _ => _ | None => None end] => assert (H3 : safe m) end.
  { destruct (IsDDResFatal res); [by apply safe_ok|].
    match goal with |- context [match ?m with Some _ => _ | None => None end] =>
      assert (H4 : exists w4, m = Some w4 /\ worker_inv w4) end.
    { destruct (Any (Z.land kLiveSum (aggregation_mode pw))) eqn:Elive; [|by exists w2]. destruct (Z.eqb_spec (addr s) 0) as [|Ha]; [by exists w2|].
      destruct (worker_inv_call w2 (CAlloc (us_output (us w2)) (addr s) (period s) pos (pid s)) H2) as (la & E & Hla);
        [destruct (Hsize Elive Ha); split; [done|]; split; [done|by exists pw]|by intros i [= <-]; apply lookup_lt_Some in Hpw|].
      cbn [la_exec] in E. cbn [andb negb]. rewrite E. by eexists. }
    destruct H4 as (w4 & -> & H4). destruct (Any (Z.land kSum (aggregation_mode pw))) eqn:Esum; [|by apply safe_ok].
    destruct (Hval Esum) as [v ->]. apply safe_fwd; [apply pprof_aggregate_safe; [done|by exists pw]|apply safe_ok]. }
  destruct H3 as (r3 & w3 & -> & H3). destruct (IsDDResFatal r3); [by exists r3, w3|].
  apply safe_fwd; [|intros w5 H5; by apply safe_ok, worker_inv_stat].
  destruct inc; [|by apply safe_ok]. apply safe_fwd; [by apply worker_pid_free_safe|apply safe_ok].
Qed.

Lemma tracker_state_safe w ev pos : worker_inv w -> 44 <= Z.of_nat (length ev) -> (pos < length (watchers ctx))%nat ->
  exists w', ddprof_pr_allocation_tracker_state w ev pos = Some w' /\ worker_inv w'.
Proof.
  intros H Hlen Hpos. unfold ddprof_pr_allocation_tracker_state.
  destruct (load_total 4 ev 8) as [p ->]; [lia..|]. destruct (load_total 4 ev 24) as [tr ->]; [lia..|].
  destruct (load_total 4 ev 28) as [cf ->]; [lia..|]. destruct (load_total 4 ev 36) as [l1 ->]; [lia..|].
  destruct (load_total 4 ev 40) as [l2 ->]; [lia..|]. apply incr_lost_safe; [|done]. do 2 apply worker_inv_stat.
  destruct (worker_inv_call w (CLibraryState cf tr pos p) H I) as (la & [= <-] & Hla); [by intros i [= <-]|done].
Qed.

Lemma dealloc_safe w ev pos : worker_inv w -> 32 <= Z.of_nat (length ev) -> (pos < length (watchers ctx))%nat ->
  exists w', ddprof_pr_deallocation w ev pos = Some w' /\ worker_inv w'.
Proof.
  intros H Hlen Hpos. unfold ddprof_pr_deallocation. destruct (load_total 4 ev 8) as [p ->]; [lia..|].
  destruct (load_total 8 ev 24) as [ptr ->]; [lia..|].
  destruct (worker_inv_call w (CDealloc ptr pos p) H I) as (la & E & Hla); [by intros i [= <-]|].
  cbn [la_exec] in E. rewrite E. by eexists.
Qed.

(** The start of the handler: counters and timestamp. *)
Lemma event_start_inv w ts : worker_inv w ->
  worker_inv (if ts <? last_processed_event_timestamp w then stat_add w "EVENT_OUT_OF_ORDER" 1 else set_last w ts).
Proof. intros H. case_match; [by apply worker_inv_stat|]. same_inv H. Qed.

Lemma safe_some m : (exists w', m = Some w' /\ worker_inv w') -> safe (let? w := m in ok w).
Proof. intros (w' & -> & H). by apply safe_ok. Qed.

Lemma safe_pid ev w k : worker_inv w -> 12 <= Z.of_nat (length ev) -> safe k ->
  safe (let? wpid := load 4 ev 8 in if wpid =? 0 then ok w else k).
Proof. intros H Hlen Hk. destruct (load_total 4 ev 8) as [p ->]; [lia..|]. destruct (p =? 0); [by apply safe_ok|done]. Qed.

Lemma process_event_safe w ev pos pw h t : worker_inv w -> event_ok ev pos pw h ->
  safe (ddprof_worker_process_event ctx aggregate_result unwinder w ev pos t).
Proof.
  intros H He. destruct (event_time _ _ _ _ He) as [rt Hts]. destruct He as [Hpw Hh Hsize _ Hmmap Hsample]. unfold ddprof_worker_process_event. rewrite Hpw, Hts, Hh.
  set (ts := Clocks.perf_clock_time_point_from_timestamp rt). pose proof (event_start_inv _ ts (worker_inv_stat w "EVENT_COUNT" 1 H)) as H1.
  set (w1 := if _ <? _ then _ else _) in *.
  assert (L1 : live_allocation w1 = live_allocation w /\ static_sample w1 = static_sample w) by (unfold w1; case_match; done).
  clearbody w1. destruct L1 as [L1 S1]. pose proof (lookup_lt_Some _ _ _ Hpw) as Hpos.
  assert (Hlen : 12 <= Z.of_nat (length ev)) by (unfold min_size in Hsize; repeat case_match; lia).
  unfold min_size in Hsize.
  destruct (Z.eqb_spec (h_type h) PERF_RECORD_SAMPLE) as [Ety|].
  { apply safe_pid; [done..|]. destruct (Hsample Ety) as (k & pad & Hev & Hk & Hsum & Hlive). subst ev.
    destruct (hdr2samp_kernel_sample (sample_type pw) k pad (static_sample w) Hk) as (s & Es & Hdec). rewrite S1, Es.
    assert (H2 : worker_inv (set_static w1 s)) by same_inv H1. destruct (usable (sample_type pw) k) eqn:Eu; [|by apply safe_ok].
    specialize (Hdec eq_refl). apply safe_fwd; [|apply safe_ok]. eapply pr_sample_safe; [done..| |].
    - intros Ht. eapply kernel_sample_value; [done..|by apply Hsum].
    - intros Ht. destruct (Hlive Ht) as (Ha & Hp & Hr). by rewrite (dc_addr _ _ _ _ _ Hdec), (dc_period _ _ _ _ _ Hdec), Ha, Hp. }
  destruct (Z.eqb_spec (h_type h) PERF_RECORD_MMAP2) as [Ety|].
  { apply safe_pid; [done..|]. apply safe_some, pr_mmap_safe; auto. }
  destruct (Z.eqb_spec (h_type h) PERF_RECORD_COMM) as [Ety|].
  { apply safe_pid; [done..|]. apply safe_fwd; [by eapply pr_comm_safe|apply safe_ok]. }
  destruct (Z.eqb_spec (h_type h) PERF_RECORD_EXIT) as [Ety|]; [by apply safe_pid, safe_ok|].
  destruct (Z.eqb_spec (h_type h) PERF_RECORD_FORK) as [Ety|].
  { apply safe_pid; [done..|]. apply safe_fwd; [by apply pr_fork_safe|apply safe_ok]. }
  destruct (Z.eqb_spec (h_type h) PERF_RECORD_LOST) as [Ety|].
  { apply safe_some. unfold ddprof_pr_lost. destruct (load_total 8 ev 16) as [l ->]; [lia..|].
    by apply incr_lost_safe; [apply worker_inv_stat|]. }
  destruct (Z.eqb_spec (h_type h) PERF_CUSTOM_EVENT_DEALLOCATION) as [Ety|]; [by apply safe_some, dealloc_safe|].
  destruct (Z.eqb_spec (h_type h) PERF_CUSTOM_EVENT_CLEAR_LIVE_ALLOCATION) as [Ety|].
  { destruct (load_total 4 ev 8) as [p ->]; [lia..|]. apply safe_fwd; [by apply aggregate_pid_safe|]. intros w2 H2. apply safe_ok.
    destruct (worker_inv_call w2 (CClearWatcher pos p) H2 I) as (la & [= <-] & Hla); [by intros i [= <-]|done]. }
  destruct (Z.eqb_spec (h_type h) PERF_CUSTOM_EVENT_ALLOCATION_TRACKER_STATE) as [Ety|]; [by apply safe_some, tracker_state_safe|].
  by apply safe_ok.
Qed.

(** ** The export cycle *)

Context (lost_frame : FunLoc) (export_result : Z -> list pprof_entry -> DDRes) (cycles_to_duration : Z -> Z)
        (statsd_send : string -> Z -> DDRes).

Lemma pid_map_entries_total l pos : Forall (fun kv => ps_inv (snd kv)) l -> is_Some (pid_map_entries l pos).
Proof.
  induction 1 as [|[p ps] l Hps _ IH]; cbn [pid_map_entries]; [by eexists|]. cbn [snd] in Hps.
  destruct (live_entries_total ps pos Hps) as [es ->]. destruct IH as [rest ->]. by eexists.
Qed.

Lemma pid_map_slots w pos pm l es : worker_inv w -> watcher_vector (live_allocation w) !! pos = Some pm ->
  Forall (fun kv => ps_inv (snd kv) /\ default empty_PidStacks (pm !! fst kv) = snd kv) l -> pid_map_entries l pos = Some es -> Forall has_slot es.
Proof.
  intros H Hpm Hl. revert es. induction Hl as [|[p ps] l [Hps Hp] _ IH]; intros es E; cbn [pid_map_entries fst snd] in *; [by injection E as <-|].
  destruct (live_entries ps pos) as [es1|] eqn:E1; [|done]. destruct (pid_map_entries l pos) as [rest|]; [|done]. injection E as <-.
  apply Forall_app. split; [by eapply pid_slots|by apply IH].
Qed.

Lemma aggregate_live_safe vs w pos : worker_inv w -> vs = drop pos (watcher_vector (live_allocation w)) ->
  safe (aggregate_live_from ctx aggregate_result w pos vs).
Proof.
  revert w pos. induction vs as [|pm vs IH]; intros w pos H Hvs; cbn [aggregate_live_from]; [by apply safe_ok|].
  assert (Hpm : watcher_vector (live_allocation w) !! pos = Some pm).
  { rewrite <- (Nat.add_0_r pos), <- lookup_drop, <- Hvs. done. }
  pose proof (lookup_lt_Some _ _ _ Hpm) as Hlt.
  destruct (lookup_lt_is_Some_2 (watchers ctx) pos) as [pw ->]; [pose proof (wi_live_len _ H); lia|].
  assert (Hall : Forall (fun kv => ps_inv (snd kv) /\ default empty_PidStacks (pm !! fst kv) = snd kv) (map_to_list pm)).
  { apply Forall_forall. intros [p ps] Hin. apply elem_of_map_to_list in Hin.
    pose proof (la_inv_entry _ _ _ p (wi_live _ H) Hpm) as Hps. rewrite Hin in Hps. cbn [fst snd]. by rewrite Hin. }
  destruct (pid_map_entries_total (map_to_list pm) pos) as [es Ees]; [eapply Forall_impl; [exact Hall|]; by intros kv [? _]|]. rewrite Ees.
  pose proof (pid_map_slots w pos pm (map_to_list pm) es H Hpm Hall Ees) as Hslots.
  destruct (aggregate_all_safe es w H Hslots) as (r1 & w1 & E1 & H1). rewrite E1. unfold fwd.
  destruct (IsDDResFatal r1); [by exists r1, w1|]. apply IH; [done|]. rewrite (aggregate_all_live _ _ _ _ E1).
  apply (f_equal (drop 1)) in Hvs. rewrite drop_drop in Hvs. cbn [drop] in Hvs. by rewrite Nat.add_1_r in Hvs.
Qed.

Lemma free_pids_safe pids w : worker_inv w -> safe (free_pids ctx aggregate_result w pids).
Proof.
  revert w. induction pids as [|p pids IH]; intros w H; cbn [free_pids]; [by apply safe_ok|].
  apply safe_fwd; [by apply worker_pid_free_safe|done].
Qed.

Lemma clear_unvisited_pids_safe w : worker_inv w -> safe (clear_unvisited_pids ctx aggregate_result w).
Proof.
  intros H. unfold clear_unvisited_pids. apply safe_fwd; [by apply free_pids_safe|]. intros w1 H1.
  apply safe_ok, worker_inv_proc. by apply (worker_inv_hdr w1 (HClearUnvisited (get_visited (process_hdr (us w1))))).
Qed.

(** The lost events of a watcher can be reported: a frequency is not zero, and the profile has a
    slot for the sum. *)
Definition lost_ok (pws : list PerfWatcher) : Prop :=
  Forall (fun pw => (is_freq pw = true -> sample_period pw <> 0) /\ tracks_sum pw = true) pws.

Lemma report_lost_safe pws w i : worker_inv w -> lost_ok pws -> pws = drop i (watchers ctx) ->
  safe (report_lost_from aggregate_result lost_frame w i pws).
Proof.
  intros H Hp. revert w i H. induction Hp as [|pw pws [Hpw Hsum] _ IH]; intros w i H Hi; cbn [report_lost_from] in *; [by apply safe_ok|].
  assert (Ei : watchers ctx !! i = Some pw) by (rewrite <- (Nat.add_0_r i), <- lookup_drop, <- Hi; done). pose proof (lookup_lt_Some _ _ _ Ei) as Hlt.
  assert (Hnext : pws = drop (S i) (watchers ctx)) by (apply (f_equal (drop 1)) in Hi; rewrite drop_drop in Hi; cbn [drop] in Hi; by rewrite Nat.add_1_r in Hi).
  destruct (lookup_lt_is_Some_2 (lost_events_per_watcher w) i) as [n En].
  { rewrite (wi_lost _ H). pose proof (wi_watchers _ H). lia. }
  rewrite En. destruct (0 <? n); [|by apply IH]. set (w0 := set_us w _). assert (H0 : worker_inv w0) by same_inv H.
  assert (Hv : is_Some (lost_value pw n)).
  { unfold lost_value. destruct (is_freq pw); [|by eexists]. destruct (Z.eqb_spec (sample_period pw) 0); [naive_solver|by eexists]. }
  destruct Hv as [v ->]. apply safe_fwd; [apply pprof_aggregate_safe; [done|by exists pw]|]. intros w1 H1. apply IH; [|done].
  destruct H1 as [G1 G2 G3 G4 G5]. split; try done. cbn [set_lost lost_events_per_watcher]. by rewrite length_insert.
Qed.

Lemma stat_sets_inv l w : worker_inv w -> worker_inv (foldl (fun w n => stat_set w n 0) w l).
Proof. revert w. induction l as [|n l IH]; intros w H; cbn [foldl]; [done|]. by apply IH, worker_inv_set. Qed.

(** The readings of a cycle: time has passed and the clock has ticks. *)
Definition cycle_env_ok (w : Worker) (e : cycle_env) : Prop :=
  cycle_start_time w < ce_steady_now e /\ 0 < ce_clock_ticks_per_sec e.

Lemma update_stats_safe w e d : worker_inv w -> d <> 0 -> ce_clock_ticks_per_sec e <> 0 ->
  safe (worker_update_stats cycles_to_duration w e d).
Proof.
  intros H Hd Ht. unfold worker_update_stats. destruct (ce_proc e) as [[r ct] rss]. destruct (IsDDResFatal r); [by exists r, w|].
  assert (Hdiv : forall x y, y <> 0 -> is_Some (div_opt x y)) by (intros x y Hy; unfold div_opt; case_match; zbool; [done|by eexists]).
  destruct (Hdiv ((ct - cpu_time w) * nano * 1000) (ce_clock_ticks_per_sec e * d)) as [m ->]; [nia|].
  set (w1 := symbols_update_stats _ _).
  assert (H1 : worker_inv w1) by (unfold w1, symbols_update_stats; destruct (ce_jit e) as [[? ?] ?]; same_inv H). clearbody w1.
  match goal with |- context [div_opt ?x d] => destruct (Hdiv x d Hd) as [tm ->] end.
  set (w2 := set_average_stats _ _). assert (H2 : worker_inv w2) by (unfold w2, set_average_stats; case_match; same_inv H1).
  clearbody w2. apply safe_ok. by apply worker_inv_set.
Qed.

Lemma end_cycle_inv w e now : worker_inv w -> worker_inv (end_cycle ctx statsd_send w e now).
Proof.
  intros H. unfold end_cycle. set (w1 := if IsDDResNotOK _ then _ else w).
  assert (H1 : worker_inv w1) by (unfold w1; case_match; same_inv H). clearbody w1.
  set (w2 := set_dso w1 _). assert (H2 : worker_inv w2) by (by apply (worker_inv_hdr w1 (HResetBackpopulate k_nb_requests_between_backpopulates))).
  clearbody w2. case_match; same_inv H2.
Qed.

Lemma unwind_cycle_inv w : worker_inv w -> worker_inv (unwind_cycle w).
Proof. intros H. apply stat_sets_inv. apply worker_inv_dso; [done|exact (wi_dso _ H)]. Qed.

Lemma finish_cycle_safe w e now : worker_inv w -> cycle_env_ok w e ->
  safe (finish_cycle ctx cycles_to_duration statsd_send w e now).
Proof.
  intros H [Hd Ht]. unfold finish_cycle. apply safe_fwd; [apply update_stats_safe; [same_inv H|lia..]|].
  intros w1 H1. apply safe_ok. apply stat_sets_inv. pose proof (unwind_cycle_inv _ (end_cycle_inv w1 e now H1)) as H2.
  set (w2 := unwind_cycle _) in *. clearbody w2.
  destruct (worker_inv_call w2 CCycle H2 I) as (la & [= <-] & Hla); [by intros i|done].
Qed.

Lemma extends_start w w' : extends w w' -> cycle_start_time w' = cycle_start_time w.
Proof. by intros (es & [E _] & _). Qed.

Lemma cycle_safe w e now sync : worker_inv w -> cycle_env_ok w e -> lost_ok (watchers ctx) ->
  safe (ddprof_worker_cycle ctx aggregate_result lost_frame export_result cycles_to_duration statsd_send w e now sync).
Proof.
  intros H Henv Hp. unfold ddprof_worker_cycle.
  destruct (clear_unvisited_pids_safe w H) as (r1 & w1 & E1 & H1). rewrite E1. cbn [fwd].
  destruct (IsDDResFatal r1); [by exists r1, w1|]. apply clear_unvisited_pids_extends, extends_start in E1.
  destruct (aggregate_live_safe (watcher_vector (live_allocation w1)) w1 0 H1 eq_refl) as (r2 & w2 & E2 & H2). unfold aggregate_live_allocations. rewrite E2. cbn [fwd].
  destruct (IsDDResFatal r2); [by exists r2, w2|]. apply aggregate_live_extends, extends_start in E2.
  match goal with |- safe (match ?j with Some _ => _ | None => _ end) => destruct j as [w3|] eqn:Ej end; [|by eexists _, w2].
  assert (H3 : worker_inv w3 /\ cycle_start_time w3 = cycle_start_time w2)
    by (destruct (exp_tid (ex w2)); simplify_eq; split; [done..|same_inv H2|done]).
  destruct H3 as [H3 T3]. destruct (exp_error (ex w3)); [by eexists _, w3|].
  destruct (report_lost_safe (watchers ctx) w3 0 H3 Hp eq_refl) as (r4 & w4 & E4 & H4). unfold report_lost_events. rewrite E4. cbn [fwd].
  destruct (IsDDResFatal r4); [by exists r4, w4|]. apply report_lost_extends, extends_start in E4.
  assert (T4 : cycle_start_time w4 = cycle_start_time w) by congruence.
  assert (Hex : forall x, worker_inv (set_ex w4 x) /\ cycle_env_ok (set_ex w4 x) e).
  { intros x. split; [same_inv H4|]. unfold cycle_env_ok in *. cbn [set_ex cycle_start_time]. by rewrite T4. }
  destruct (IsDDResFatal (ce_reset e)); [eexists _, _; split; [reflexivity|apply Hex]|].
  destruct sync.
  - match goal with |- safe (if ?b then _ else _) => destruct b end; [eexists _, _; split; [reflexivity|apply Hex]|].
    by apply finish_cycle_safe; apply Hex.
  - by apply finish_cycle_safe; apply Hex.
Qed.

Lemma maybe_export_safe w e now : worker_inv w -> cycle_env_ok w e -> lost_ok (watchers ctx) ->
  safe (ddprof_worker_maybe_export ctx aggregate_result lost_frame export_result cycles_to_duration statsd_send w e now).
Proof.
  intros H He Hp. unfold ddprof_worker_maybe_export. destruct (send_time w <? now); [|by exists ddres_init, w].
  apply safe_fwd; [|apply safe_ok]. apply cycle_safe; [|done..]. by apply (worker_inv_same w).
Qed.
End safety.
