(* ===== verification/WorkerUnwinder.v ===== *)
(** * The worker's unwinder

    The worker of [Worker.v] calls an unwinder through the record [Unwinder], and its safety
    needs that the unwinder keeps the mappings well formed.  The unwinder of [Unwind.v]
    (src/unwind_dwfl.cc, src/unwind_helper.cc) does: it changes the mappings only through the operations
    of [DsoHdr], by storing file infos in them and by adding empty processes. *)

From S2P Require Import Prelude PerfSample Ddres LiveAlloc Dso DsoHdr Symbols ElfModule RuntimeSymbols SymbolTables Unwind UnwindFrames Process Worker WorkerSafety.

Section Keeps.
Context {D : Type} (ops : Dwfl_ops D) (open_elf : string -> option (option Elf)) (get_file_inode : string -> option (Z * Z))
        (read_file : string -> option (list Z)) (alloc_entries : Z -> bool)
        (env : nat -> Z * option (list (option proc_fields))) (Henv : forall n, maps_ok (snd (env n))).

Definition wf_after (u u' : ustate D) : Prop := hdr_wf (un_dso u) -> hdr_wf (un_dso u').

Lemma wf_after_same u u' : un_dso u' = un_dso u -> wf_after u u'.
Proof. unfold wf_after. by intros ->. Qed.

Lemma wf_after_trans u1 u2 u3 : wf_after u1 u2 -> wf_after u2 u3 -> wf_after u1 u3.
Proof. unfold wf_after. auto. Qed.

(** ** Frames *)

Lemma add_frame_dso s f m pc a (u : ustate D) : un_dso (snd (Unwind.add_frame s f m pc a u)) = un_dso u.
Proof. unfold Unwind.add_frame. repeat case_match; done. Qed.

Lemma add_common_frame_dso (u u' : ustate D) c : add_common_frame u c = Some u' -> un_dso u' = un_dso u.
Proof.
  unfold add_common_frame, add_frame_without_mapping. destruct (hdr_common _ _) as [[i sym]|]; [|done]. intros [= <-]. by rewrite add_frame_dso.
Qed.

Lemma add_dso_frame_dso (u : ustate D) dso a ty : un_dso (add_dso_frame u dso a ty) = un_dso u.
Proof. unfold add_dso_frame, add_frame_without_mapping. destruct (hdr_dso _ _ _ _) as [i sym]. by rewrite add_frame_dso. Qed.

Lemma add_error_frame_dso dso (u u' : ustate D) c : add_error_frame dso u c = Some u' -> un_dso u' = un_dso u.
Proof.
  unfold add_error_frame. destruct dso as [dso|]; [intros [= <-]; apply add_dso_frame_dso|apply add_common_frame_dso].
Qed.

Lemma add_unsymbolized_frame_dso (u : ustate D) dso pc m id : un_dso (snd (add_unsymbolized_frame u dso pc m id)) = un_dso u.
Proof. unfold add_unsymbolized_frame. destruct (hdr_mapinfo _ _ _ _) as [i sym]. by rewrite add_frame_dso. Qed.

Lemma add_runtime_symbol_frame_dso (u u' : ustate D) dso pc path res :
  add_runtime_symbol_frame read_file alloc_entries u dso pc path = Some (res, u') -> un_dso u' = un_dso u.
Proof.
  unfold add_runtime_symbol_frame. destruct (hdr_runtime _ _ _ _ _ _) as [[i sym]|]; [|done]. destruct (_ =? _).
  - intros [= <- <-]. by rewrite add_dso_frame_dso.
  - destruct (hdr_mapinfo _ _ _ _) as [m sym']. intros [= E]. apply (f_equal snd) in E. cbn [snd] in E. subst u'. by rewrite add_frame_dso.
Qed.

(** ** The base frame *)

Lemma insert_bin_visits l pid t dl h exe : visits h pid (snd (insert_bin_symbol l pid t dl h exe)).
Proof. unfold insert_bin_symbol. right. repeat case_match; done. Qed.

Lemma hdr_base_visits sh pid h exe : visits h pid (snd (hdr_base sh pid h exe)).
Proof.
  assert (B : forall l t dl, visits h pid (snd (base_get_or_insert l pid t dl h exe))).
  { intros l t dl. unfold base_get_or_insert. set (first := match bin_map l !! pid with Some i => _ | None => _ end).
    assert (F : visits h pid (snd first)).
    { unfold first. repeat case_match; try apply insert_bin_visits; by left. }
    destruct first as [[[[i l'] t'] dl'] h']. destruct (_ =? _); exact F. }
  unfold hdr_base. pose proof (B (sy_base (sh_syms sh)) (symbol_table sh) (sy_dso (sh_syms sh))) as F.
  destruct (base_get_or_insert _ _ _ _ _ _) as [[[[? ?] ?] ?] h']. exact F.
Qed.

Lemma add_virtual_base_frame_keeps (u : ustate D) exe : wf_after u (add_virtual_base_frame u exe).
Proof.
  intros H. unfold add_virtual_base_frame. pose proof (hdr_base_visits (un_sym u) (un_pid u) (un_dso u) exe) as V.
  destruct (hdr_base _ _ _ _) as [[i sym] h]. unfold add_frame_without_mapping. rewrite add_frame_dso. by eapply visits_wf.
Qed.

(** ** Modules *)

Lemma file_info_of_keeps (u : ustate D) key dso : wf_after u (snd (file_info_of get_file_inode u key dso)).
Proof.
  intros H. unfold file_info_of. pose proof (file_info_map get_file_inode (un_dso u) dso) as Hmap.
  destruct (get_or_insert_file_info get_file_inode (un_dso u) dso) as [id h]. cbn [snd] in Hmap.
  assert (Hwf : hdr_wf h) by (by eapply hdr_wf_map).
  refine (hdr_wf_insert h _ (mkPM _ _ _) Hwf (set_id_wf _ key id _ (get_pid_mapping_wf h (un_pid u) Hwf)) (dh_stats h)).
Qed.

Lemma register_mod_dso (u u' : ustate D) pc dso file res m : register_mod ops open_elf u pc dso file = Some (res, m, u') -> un_dso u' = un_dso u.
Proof. unfold register_mod. intros E. repeat case_match; simplify_eq; done. Qed.

(** The state a search for the module leaves. *)
Definition searched (r : module_search (D := D)) : ustate D :=
  match r with Returned _ u | Module _ _ _ u | Retry u | NoModule u => u end.

Lemma module_of_file_keeps (u : ustate D) pc first dso id file r :
  module_of_file ops open_elf env u pc first dso id file = Some r -> wf_after u (searched r).
Proof.
  unfold module_of_file. destruct (unsafe_get _ _) as [m|]; [by intros [= <-]; apply wf_after_same|].
  destruct (register_mod _ _ _ _ _ _) as [[[res m] u1]|] eqn:Er; [|done]. apply register_mod_dso in Er.
  destruct m as [m|]; [by intros [= <-]; apply wf_after_same|]. destruct first; [|by intros [= <-]; apply wf_after_same].
  pose proof (Henv (un_reads u1)) as Hm. destruct (env (un_reads u1)) as [now maps]. intros E H. rewrite <- Er in H.
  destruct (pid_backpopulate_spec (un_dso u1) (un_pid u1) now maps 0 H Hm) as (ok & n & h' & Eb & Hwf). rewrite Eb in E.
  destruct (ok && _); by injection E as <-.
Qed.

Lemma search_module_keeps (u : ustate D) pc first r :
  search_module ops open_elf get_file_inode read_file alloc_entries env u pc first = Some r -> wf_after u (searched r).
Proof.
  unfold search_module. intros E H. pose proof (Henv (un_reads u)) as Hm. destruct (env (un_reads u)) as [now maps].
  destruct (hdr_exec_spec get_file_inode (un_dso u) (HFind (un_pid u) pc now maps) H Hm) as (h1 & Ef & Hwf). cbn [hdr_exec] in Ef.
  destruct (dso_find_or_backpopulate _ _ _ _ _) as [[[it b] h]|]; [|done]. injection Ef as ->.
  set (u1 := next_read (with_dso u h1)) in E. assert (H1 : hdr_wf (un_dso u1)) by done. destruct (negb b).
  - destruct (add_error_frame _ _ _) as [u2|] eqn:Ea; [|done]. injection E as <-. cbn [searched]. by rewrite (add_error_frame_dso _ _ _ _ Ea).
  - destruct (pm_map _ !! it) as [[k dso]|]; [|done]. destruct (has_runtime_symbols dso).
    + destruct (add_runtime_symbol_frame _ _ _ _ _ _) as [[res u2]|] eqn:Ea; [|done]. injection E as <-. cbn [searched].
      by rewrite (add_runtime_symbol_frame_dso _ _ _ _ _ _ Ea).
    + pose proof (file_info_of_keeps u1 (d_start dso) dso H1) as H2. destruct (file_info_of _ _ _ _) as [id u2]. cbn [snd] in H2.
      destruct (_ <=? _); [injection E as <-; cbn [searched]; by rewrite add_dso_frame_dso|].
      destruct (file_info_vector _ !! _) as [file|]; [|done]. by apply module_of_file_keeps in E; apply E.
Qed.

Lemma after_search_dso r res u' : after_search ops r = Some (res, u') -> un_dso u' = un_dso (searched r).
Proof.
  destruct r as [res' u|dso m id u|u|u]; cbn [after_search searched]; try by intros [= _ <-].
  unfold add_module_frame. destruct (dw_dwfl _) as [d|]; [|done]. destruct (dwfl_frame_pc_activation _ _) as [[pc act]|].
  - set (pc' := if act then pc else pc -w 1). pose proof (add_unsymbolized_frame_dso (with_ip u pc') dso pc' m id) as Ea.
    destruct (add_unsymbolized_frame _ _ _ _ _) as [res' u2]. by intros [= _ <-].
  - destruct (add_error_frame _ _ _) as [u2|] eqn:Ea; [|done]. intros [= _ <-]. by eapply add_error_frame_dso.
Qed.

(** ** The stack *)

Lemma add_symbol_keeps (u u' : ustate D) res :
  add_symbol ops open_elf get_file_inode read_file alloc_entries env u = Some (res, u') -> wf_after u u'.
Proof.
  unfold add_symbol. destruct (is_max_stack_depth_reached u).
  { destruct (add_common_frame _ _) as [u1|] eqn:Ea; [|done]. intros [= _ <-]. apply wf_after_same. by apply add_common_frame_dso in Ea. }
  destruct (dw_dwfl _) as [d|]; [|done]. destruct (dwfl_frame_pc ops d) as [pc|].
  2:{ destruct (add_error_frame _ _ _) as [u1|] eqn:Ea; [|done]. intros [= _ <-]. apply wf_after_same. by eapply add_error_frame_dso. }
  set (u1 := with_dso _ _). assert (K1 : wf_after u u1).
  { intros H. apply (hdr_wf_insert (un_dso u) _ _ H (get_pid_mapping_wf _ _ H) (dh_stats (un_dso u))). }
  destruct (pc =? 0); [by intros [= _ <-]|].
  destruct (search_module _ _ _ _ _ _ u1 pc true) as [r|] eqn:Es; [|done]. apply search_module_keeps in Es.
  assert (K2 : wf_after u (searched r)) by (by eapply wf_after_trans). intros E.
  destruct r as [res' u2|dso m id u2|u2|u2]; try by apply after_search_dso in E; intros H; rewrite E; apply K2.
  destruct (search_module _ _ _ _ _ _ u2 pc false) as [r|] eqn:Es'; [|done]. apply search_module_keeps in Es'.
  apply after_search_dso in E. intros H. rewrite E. by apply Es', K2.
Qed.

Lemma frame_cb_keeps (u u' : ustate D) b :
  frame_cb ops open_elf get_file_inode read_file alloc_entries env u = Some (b, u') -> wf_after u u'.
Proof.
  unfold frame_cb. destruct (dw_dwfl _) as [d|]; [|done]. destruct (dwfl_errno ops d) as [err d']. destruct (_ && _); [intros [= _ <-]; by apply wf_after_same|].
  destruct (add_symbol _ _ _ _ _ _ _) as [[res u1]|] eqn:Ea; [|done]. intros [= _ <-]. by apply add_symbol_keeps in Ea.
Qed.

Lemma thread_frames_keeps fuel (u u' : ustate D) :
  thread_frames ops open_elf get_file_inode read_file alloc_entries env fuel u = Some u' -> wf_after u u'.
Proof.
  revert u. induction fuel as [|f IH]; intros u; cbn [thread_frames]; [done|].
  destruct (frame_cb _ _ _ _ _ _ u) as [[b u1]|] eqn:Ef; [|done]. apply frame_cb_keeps in Ef. destruct (negb b); [by intros [= <-]|].
  destruct (dw_dwfl _) as [d|]; [|done]. destruct (dwfl_next_frame ops d) as [d'|]; [|by intros [= <-]].
  intros E. apply IH in E. by eapply wf_after_trans.
Qed.

Lemma unwind_dwfl_keeps fuel (u u' : ustate D) b res :
  Unwind.unwind_dwfl ops open_elf get_file_inode read_file alloc_entries env fuel u b = Some (res, u') -> wf_after u u'.
Proof.
  unfold Unwind.unwind_dwfl. assert (I : un_dso (snd (unwind_init_dwfl ops u b)) = un_dso u).
  { unfold unwind_init_dwfl. destruct (_ && _); [done|]. by destruct (attach ops (un_wrapper u) (un_pid u)). }
  destruct (unwind_init_dwfl ops u b) as [res1 u1]. cbn [snd] in I. destruct (negb _); [intros [= _ <-]; by apply wf_after_same|].
  destruct (dw_dwfl _) as [d|]; [|done]. destruct (dwfl_first_frame ops d _) as [d'|].
  - destruct (thread_frames _ _ _ _ _ _ _ _) as [u2|] eqn:Et; [|done]. intros [= _ <-]. apply thread_frames_keeps in Et.
    intros H. apply Et. cbn. by rewrite I.
  - intros [= _ <-]. by apply wf_after_same.
Qed.

End Keeps.

(** ** The interface *)

Section Interface.
Context {D : Type} (ops : Dwfl_ops D) (open_elf : string -> option (option Elf)) (get_file_inode : string -> option (Z * Z))
        (read_file : string -> option (list Z)) (alloc_entries : Z -> bool)
        (env : perf_event_sample -> nat -> Z * option (list (option proc_fields))) (fuel : nat).
(** The symbol tables, the errored files and the modules the unwinder holds when it is called. *)
Context (held : Z -> SymbolHdr * gset Z * DwflWrapper D) (exe : Z -> option string).
(** The frames and names that do not come from the mappings. *)
Context (max_pids_loc : FunLoc) (error_loc : option Dso -> FunLoc) (exe_name : Z -> string)
        (container_id : string -> option string) (comm : Z -> Z -> option string).

Definition start (d : DsoHdr) (pid : Z) : ustate D :=
  let '(sym, errored, wrapper) := held pid in mkUn d sym errored wrapper pid 0 [] 0 0 0.

(** [unwind_dwfl] of [Unwind.v] as the worker calls it.  Where it is undefined, which
    [UnwindFrames.unwind_stack_complete] excludes, it is taken to find nothing. *)
Definition dwarf_unwind (d : DsoHdr) (p : Process) (avoid_new_attach : bool) (s : perf_event_sample) : unwound :=
  match Unwind.unwind_dwfl ops open_elf get_file_inode read_file alloc_entries (env s) fuel (start d (pid s)) avoid_new_attach with
  | Some (res, u) => mkUnwound res (un_locs u) (un_ip u) (dw_inconsistent (un_wrapper u)) (un_dso u) p
  | None => mkUnwound warn_uw_error [] 0 false d p
  end.

Definition dwarf_base (d : DsoHdr) (pid : Z) : FunLoc * DsoHdr :=
  let u := add_virtual_base_frame (start d pid) (exe pid) in
  (default max_pids_loc (head (un_locs u)), un_dso u).

Definition dwarf_unwinder : Unwinder :=
  mkUnwinder (fun d p b _ s => dwarf_unwind d p b s) max_pids_loc error_loc dwarf_base exe_name container_id comm.

(** The unwinder of [Unwind.v] is one the worker is safe with. *)
Theorem dwarf_unwinder_keeps_mappings : (forall s n, maps_ok (snd (env s n))) -> unwinder_keeps_mappings dwarf_unwinder.
Proof.
  intros Henv. assert (S : forall d p, un_dso (start d p) = d) by (intros d p; unfold start; by destruct (held p) as [[? ?] ?]).
  split; cbn.
  - intros d p b ev s H. unfold dwarf_unwind. destruct (Unwind.unwind_dwfl _ _ _ _ _ _ _ _ _) as [[res u]|] eqn:E; [|done].
    apply (unwind_dwfl_keeps _ _ _ _ _ _ (Henv s)) in E. apply E. by rewrite S.
  - intros d p H. apply add_virtual_base_frame_keeps. by rewrite S.
Qed.

End Interface.
