(* ===== verification/WorkerEvents.v ===== *)
(** * The worker: what events do

    The safety theorems of events and export cycles, the effect of the allocation
    tracker's records and of samples on the live profile and on the aggregated
    values, and the processes a cycle forgets. *)

From S2P Require Import Prelude RingBuffer PerfSample Ddres Dso DsoHdr LiveAlloc Watcher Stats Process AllocTracker KernelSample Worker WorkerProofs WorkerSafety.

(** ** Records of the allocation tracker *)

Inductive tracker_record :=
| RDealloc (tid ptr : Z)
| RClear (tid : Z)
| RState (tracked conflicts shards lost_alloc lost_dealloc : Z).

Definition record_bytes (pid time : Z) (r : tracker_record) : list Z :=
  match r with
  | RDealloc tid ptr => deallocation_event pid tid time ptr
  | RClear tid => clear_live_allocation_event pid tid time
  | RState tracked conflicts shards la ld => tracker_state_event pid time tracked conflicts shards la ld
  end.

(** The values fit the fields of the record. *)
Definition record_fits (r : tracker_record) : Prop :=
  match r with
  | RDealloc tid ptr => 0 <= tid < 2 ^ 32 /\ is_u64 ptr
  | RClear tid => 0 <= tid < 2 ^ 32
  | RState tracked conflicts shards la ld => 0 <= conflicts < 2 ^ 32
  end.

(** The call on the live allocations a record stands for. *)
Definition record_call (pid : Z) (pos : nat) (r : tracker_record) : la_call :=
  match r with
  | RDealloc _ ptr => CDealloc ptr pos pid
  | RClear _ => CClearWatcher pos pid
  | RState tracked conflicts _ _ _ => CLibraryState conflicts (u32 tracked) pos pid
  end.

Definition record_type (r : tracker_record) : Z :=
  match r with
  | RDealloc _ _ => PERF_CUSTOM_EVENT_DEALLOCATION
  | RClear _ => PERF_CUSTOM_EVENT_CLEAR_LIVE_ALLOCATION
  | RState _ _ _ _ _ => PERF_CUSTOM_EVENT_ALLOCATION_TRACKER_STATE
  end.

(** Header, process id and timestamp of a record. *)
Lemma record_head pid time r pad : 0 <= pid < 2 ^ 32 -> is_u64 time -> record_fits r ->
  let ev := record_bytes pid time r ++ pad in
  exists sz rest, load_hdr ev = Some (mkHdr (record_type r) 0 sz) /\ load 4 ev 8 = Some pid /\ load 8 ev 16 = Some time /\
    at_off ev 24 (rest ++ pad) /\
    match r with
    | RDealloc _ ptr => rest = le_bytes 8 ptr
    | RClear _ => rest = []
    | RState tr cf sh la ld => rest = le_bytes 4 (u32 tr) ++ le_bytes 4 cf ++ le_bytes 4 (u32 sh) ++ le_bytes 4 (u32 la) ++ le_bytes 4 (u32 ld)
    end.
Proof.
  intros Hp Ht Hr ev.
  assert (Hev : exists sz tid rest, 0 <= sz < 2 ^ 16 /\ 0 <= tid < 2 ^ 32 /\
    ev = hdr_bytes (mkHdr (record_type r) 0 sz) ++ sample_id_bytes pid tid time ++ rest ++ pad /\
    match r with
    | RDealloc _ ptr => rest = le_bytes 8 ptr
    | RClear _ => rest = []
    | RState tr cf sh la ld => rest = le_bytes 4 (u32 tr) ++ le_bytes 4 cf ++ le_bytes 4 (u32 sh) ++ le_bytes 4 (u32 la) ++ le_bytes 4 (u32 ld)
    end).
  { unfold ev. destruct r as [tid ptr|tid|tr cf sh la ld]; cbn [record_bytes record_type record_fits] in *.
    - exists sizeof_DeallocationEvent, tid. eexists. split; [done|]. split; [apply Hr|]. split; [|done]. unfold deallocation_event. by rewrite <- !app_assoc.
    - exists sizeof_ClearLiveAllocationEvent, tid, []. split; [done|]. split; [done|]. split; [|done]. unfold clear_live_allocation_event. by rewrite <- !app_assoc.
    - exists sizeof_AllocationTrackerStateEvent, 0. eexists. split; [done|]. split; [done|]. split; [|done]. unfold tracker_state_event. by rewrite <- !app_assoc. }
  destruct Hev as (sz & tid & rest & Hsz & Htid & Hev & Hrest). clearbody ev.
  destruct (load_hdr_at ev _ _ Hev) as [Eh Hat]; [by destruct r|done|exact Hsz|]. exists sz, rest. split; [done|].
  unfold sample_id_bytes in Hat. rewrite <- !app_assoc in Hat. change sizeof_hdr with 8 in Hat.
  destruct (load_word_at _ _ _ _ _ Hat Hp) as [E1 H1]. destruct (load_word_at _ _ _ _ _ H1 Htid) as [_ H2].
  destruct (load_word_at _ _ _ _ _ H2 Ht) as [E3 H3]. done.
Qed.

Lemma alter_as_insert {A} (g : A -> A) (l : list A) i x : l !! i = Some x -> alter g i l = <[i := g x]> l.
Proof.
  intros Hx. apply list_eq. intros j. destruct (decide (i = j)) as [<-|Hne].
  - rewrite list_lookup_alter_eq, Hx, list_lookup_insert_eq by (by eapply lookup_lt_Some). done.
  - by rewrite list_lookup_alter_ne, list_lookup_insert_ne.
Qed.

Section events.
Context (ctx : DDProfContext) (aggregate_result : pprof_entry -> option DDRes)
        (unwinder : Unwinder).

Lemma record_time pid time r pad mask : 0 <= pid < 2 ^ 32 -> is_u64 time -> record_fits r ->
  is_Some (hdr_time (record_bytes pid time r ++ pad) mask).
Proof.
  intros Hp Ht Hr. destruct (record_head pid time r pad Hp Ht Hr) as (sz & rest & Eh & _ & E2 & _).
  unfold hdr_time. destruct (negb _); [by eexists|]. rewrite Eh. cbn [h_type].
  destruct r; cbn [record_type existsb]; cbn -[load record_bytes app]; change (sizeof_hdr + 8) with 16; rewrite E2; by eexists.
Qed.

(** Every aggregation of a value with a slot succeeds. *)
Definition never_fatal : Prop := forall e, has_slot ctx e -> exists r, aggregate_result e = Some r /\ IsDDResFatal r = false.

Lemma never_fatal_defined : never_fatal -> aggregation_defined ctx aggregate_result.
Proof. intros H e He. destruct (H e He) as (r & -> & _). by eexists. Qed.

Lemma aggregate_all_adds es w : never_fatal -> Forall (has_slot ctx) es ->
  exists w', aggregate_all aggregate_result w es = Some (ddres_init, w') /\ agg_ext w w' es.
Proof.
  intros Hn Hes. revert w. induction Hes as [|e es He _ IH]; intros w; cbn [aggregate_all]; [exists w; split; [done|by apply agg_ext_same]|].
  destruct (Hn e He) as (r & Er & Hr). destruct (pprof_aggregate_adds aggregate_result w e r Er Hr) as (w1 & -> & H1). cbn [fwd]. rewrite Hr.
  destruct (IH w1) as (w2 & -> & H2). exists w2. split; [done|]. by apply (agg_ext_trans w w1 w2 [e] es).
Qed.

(** The values of the live stacks of a process, watcher by watcher. *)
Fixpoint pid_entries_from (pos : nat) (vs : list (gmap Z PidStacks)) (pid : Z) : list pprof_entry :=
  match vs with
  | [] => []
  | pm :: vs' => default [] (live_entries (default empty_PidStacks (pm !! pid)) pos) ++ pid_entries_from (S pos) vs' pid
  end.
Definition pid_entries (la : LiveAllocation) (pid : Z) : list pprof_entry := pid_entries_from 0 (watcher_vector la) pid.

(** Aggregating the live stacks of a process adds their values and leaves the live allocations
    as they are. *)
Lemma aggregate_pid_adds vs w pid pos : worker_inv ctx w -> never_fatal -> vs = drop pos (watcher_vector (live_allocation w)) ->
  exists w', aggregate_pid_from ctx aggregate_result w pid pos vs = Some (ddres_init, w') /\ agg_ext w w' (pid_entries_from pos vs pid) /\
    forall i p, ps_of (live_allocation w') i p = ps_of (live_allocation w) i p.
Proof.
  intros H Hn. revert w pos H. induction vs as [|pm vs IH]; intros w pos H Hvs; cbn [aggregate_pid_from pid_entries_from].
  { exists w. split; [done|]. split; [by apply agg_ext_same|done]. }
  assert (Hpm : watcher_vector (live_allocation w) !! pos = Some pm) by (rewrite <- (Nat.add_0_r pos), <- lookup_drop, <- Hvs; done).
  destruct (lookup_lt_is_Some_2 (watchers ctx) pos) as [pw ->]; [pose proof (wi_live_len _ _ H); apply lookup_lt_Some in Hpm; lia|].
  pose proof (la_inv_entry _ _ _ pid (wi_live _ _ H) Hpm) as Hps.
  destruct (live_entries_total (default empty_PidStacks (pm !! pid)) pos Hps) as [es Ees]. rewrite Ees. cbn [default from_option].
  pose proof (pid_slots ctx _ _ _ _ _ _ H Hpm eq_refl Hps Ees) as Hslots. set (w0 := set_live w _).
  assert (H0 : worker_inv ctx w0).
  { apply worker_inv_live; [done| | |cbn [watcher_vector]; rewrite length_insert; apply H]; intros w' p'; rewrite ps_of_touch by done; apply H. }
  destruct (aggregate_all_adds es w0 Hn Hslots) as (w1 & E1 & X1). rewrite E1. cbn [fwd]. change (IsDDResFatal ddres_init) with false. cbv iota.
  pose proof (aggregate_all_live _ _ _ _ _ E1) as L1.
  assert (H1 : worker_inv ctx w1).
  { apply (worker_inv_same ctx w0 w1 H0); [by apply (aggregate_all_frame _ (fun w => dso_hdr (us w))) in E1|done|by apply (aggregate_all_frame _ lost_events_per_watcher) in E1]. }
  destruct (IH w1 (S pos) H1) as (w2 & E2 & X2 & Hps2).
  { rewrite L1. cbn [w0 set_live live_allocation watcher_vector]. rewrite drop_insert_lt by lia.
    apply (f_equal (drop 1)) in Hvs. rewrite drop_drop in Hvs. cbn [drop] in Hvs. by rewrite Nat.add_1_r in Hvs. }
  exists w2. split; [exact E2|]. split.
  - eapply agg_ext_trans; [|exact X2]. apply (agg_ext_trans w w0 w1 [] es); [by apply agg_ext_same|done].
  - intros i p. rewrite Hps2, L1. cbn [w0 set_live live_allocation]. by apply ps_of_touch.
Qed.

(** What a record leaves besides the live allocations and the statistics: the values of the live
    stacks of the process are aggregated by a clear record, lost allocations are counted by a
    state record. *)
Definition record_rest (pid : Z) (pos : nat) (r : tracker_record) (w w' : Worker) : Prop :=
  us w' = us w /\
  agg_ext w w' (match r with RClear _ => pid_entries (live_allocation w) pid | _ => [] end) /\
  lost_events_per_watcher w' = match r with
    | RState _ _ _ lost_alloc _ => alter (fun x => x +w u32 lost_alloc) pos (lost_events_per_watcher w)
    | _ => lost_events_per_watcher w
    end.

Lemma record_live w pid time r pad pos : worker_inv ctx w ->
  0 <= pid < 2 ^ 32 -> is_u64 time -> record_fits r -> (pos < length (watchers ctx))%nat -> never_fatal ->
  let ev := record_bytes pid time r ++ pad in
  let result := match r with
    | RDealloc _ _ => let? w := ddprof_pr_deallocation w ev pos in ok w
    | RClear _ => let? pid := load 4 ev 8 in
        fwd (aggregate_live_allocations_for_pid ctx aggregate_result w pid) (fun w => ok (ddprof_pr_clear_live_allocation w pid pos))
    | RState _ _ _ _ _ => let? w := ddprof_pr_allocation_tracker_state w ev pos in ok w
    end in
  exists w', result = Some (ddres_init, w') /\ record_rest pid pos r w w' /\
    forall i p, live (ps_of (live_allocation w') i p) = ideal_call (record_call pid pos r) i p (live (ps_of (live_allocation w) i p)).
Proof.
  intros H Hp Ht Hr Hpos Hn ev result. destruct (record_head pid time r pad Hp Ht Hr) as (sz & rest & _ & E1 & _ & Hat & Hrest).
  fold ev in E1, Hat. clearbody ev.
  assert (Hok : forall la, call_ok la (record_call pid pos r)) by (by destruct r).
  destruct (live_call_spec _ _ (wi_live _ _ H) (Hok _)) as (la & E & Hla & Hl). unfold record_rest.
  unfold result. destruct r as [tid ptr|tid|tr cf sh lal ld]; cbn [record_call record_fits la_exec] in *; subst rest.
  - unfold ddprof_pr_deallocation. rewrite E1. destruct (load_word_at _ _ _ _ _ Hat (proj2 Hr)) as [-> _]. rewrite E. eexists. split; [done|]. split; [|done].
    split; [done|]. split; [by apply agg_ext_same|done].
  - rewrite E1. unfold aggregate_live_allocations_for_pid.
    destruct (aggregate_pid_adds (watcher_vector (live_allocation w)) w pid 0 H Hn eq_refl) as (w1 & Ea & X1 & Hps). rewrite Ea.
    cbn [fwd]. eexists. split; [reflexivity|]. split.
    + split_and!; cbn [ddprof_pr_clear_live_allocation set_live us lost_events_per_watcher].
      * by apply (aggregate_pid_frame ctx _ us) in Ea.
      * rewrite <- (app_nil_r (pid_entries _ _)). eapply agg_ext_trans; [exact X1|by apply agg_ext_same].
      * by apply (aggregate_pid_frame ctx _ lost_events_per_watcher) in Ea.
    + cbn [ddprof_pr_clear_live_allocation set_live live_allocation].
      destruct (aggregate_pid_safe ctx aggregate_result (never_fatal_defined Hn) (watcher_vector (live_allocation w)) w pid 0 H eq_refl) as (r1 & w1' & Ea' & H1).
      assert (w1' = w1) as -> by congruence. destruct (live_call_spec _ _ (wi_live _ _ H1) (Hok _)) as (la1 & E2 & _ & Hl1). cbn [la_exec] in E2. injection E2 as ->.
      intros i p. by rewrite Hl1, Hps.
  - assert (Hu : forall x, 0 <= u32 x < 256 ^ Z.of_nat 4) by (intros x; apply Z.mod_pos_bound; lia).
    rewrite <- !app_assoc in Hat. destruct (load_word_at _ _ _ _ _ Hat (Hu tr)) as [E2 H2].
    destruct (load_word_at _ _ _ _ _ H2 Hr) as [E3 H3]. destruct (load_word_at _ _ _ _ _ H3 (Hu sh)) as [_ H4].
    destruct (load_word_at _ _ _ _ _ H4 (Hu lal)) as [E5 H5]. destruct (load_word_at _ _ _ _ _ H5 (Hu ld)) as [E6 _].
    change (24 + Z.of_nat 4) with 28 in *. change (28 + Z.of_nat 4 + Z.of_nat 4) with 36 in *. change (36 + Z.of_nat 4) with 40 in *.
    unfold ddprof_pr_allocation_tracker_state. rewrite E1, E2, E3, E5, E6.
    set (w1 := stat_add _ _ _). assert (L1 : lost_events_per_watcher w1 = lost_events_per_watcher w) by done.
    unfold incr_lost. rewrite L1. destruct (lookup_lt_is_Some_2 (lost_events_per_watcher w) pos) as [x Hx]; [rewrite (wi_lost _ _ H); pose proof (wi_watchers _ _ H); lia|].
    rewrite Hx. eexists. split; [reflexivity|]. cbn [set_lost us lost_events_per_watcher live_allocation]. injection E as <-. split; [|done].
    split; [done|]. split; [by apply agg_ext_same|]. by rewrite (alter_as_insert _ _ _ _ Hx).
Qed.

(** C25: No record makes the worker leave the preconditions of its data.  In a state
    that satisfies the worker's invariant, a record of any type is processed to a
    result, fatal or not, and the invariant holds again: mappings do not overlap,
    live allocations and their aggregates agree, and every array indexed by watcher
    is in range.  The record is as long as its type needs and as its header says; a
    mapping is not empty; a sample has the layout that [perf_event_open] documents, a
    raw value in its raw data, and for live allocations a size and an address of user
    space.  Of the other components it is asked that the unwinder keeps the mappings
    well-formed (which [WorkerUnwinder] shows of the modelled one) and that the aggregation is
    defined for the values the watcher has a slot for (shown in [PprofProofs]). *)
Theorem worker_event_safe w ev pos pw h t :
  unwinder_keeps_mappings unwinder -> aggregation_defined ctx aggregate_result -> worker_inv ctx w -> event_ok ctx ev pos pw h ->
  exists r w', ddprof_worker_process_event ctx aggregate_result unwinder w ev pos t = Some (r, w') /\ worker_inv ctx w'.
Proof. intros Hu Hd H He. by apply (process_event_safe ctx aggregate_result unwinder Hd Hu w ev pos pw h). Qed.

(** The export check is safe: if time has passed since the start of the cycle, no
    frequency is zero and every watcher has a slot for its lost events,
    [ddprof_worker_maybe_export] returns a result, fatal or not, whether or not it is
    time to export and whatever the export thread, procfs and statsd answer, and the
    worker's invariant holds again. *)
Theorem worker_export_safe lost_frame export_result cycles_to_duration statsd_send w e now :
  aggregation_defined ctx aggregate_result -> worker_inv ctx w -> cycle_env_ok w e -> lost_ok (watchers ctx) ->
  exists r w', ddprof_worker_maybe_export ctx aggregate_result lost_frame export_result cycles_to_duration statsd_send w e now
                 = Some (r, w') /\ worker_inv ctx w'.
Proof.
  intros Hd H He Hp. by apply maybe_export_safe.
Qed.

(** C26: The records of the allocation tracker have the effect they stand for, when
    no aggregation fails: whatever bytes follow the record, a deallocation removes its
    address, and a clear removes all addresses, from the live allocations of the
    sending process and of the watcher; a state record leaves them; no other process
    or watcher changes.  Besides, and apart from the statistics: a clear adds the
    values of the live stacks that the process had, under every watcher, to the
    current profile; a state record adds its lost allocations to the lost events of
    the watcher; mappings, processes, exports and the other counters stay. *)
Theorem tracker_records_update_live_profile w pid time r pad pos pw t :
  worker_inv ctx w -> watchers ctx !! pos = Some pw -> never_fatal ->
  0 <= pid < 2 ^ 32 -> is_u64 time -> record_fits r ->
  exists w', ddprof_worker_process_event ctx aggregate_result unwinder w (record_bytes pid time r ++ pad) pos t = Some (ddres_init, w') /\
    record_rest pid pos r w w' /\
    forall i p, live (ps_of (live_allocation w') i p) = ideal_call (record_call pid pos r) i p (live (ps_of (live_allocation w) i p)).
Proof.
  intros H Hpw Hn Hp Ht Hr. unfold ddprof_worker_process_event. rewrite Hpw.
  destruct (record_time pid time r pad (sample_type pw) Hp Ht Hr) as [rt ->]. set (ts := Clocks.perf_clock_time_point_from_timestamp rt).
  destruct (record_head pid time r pad Hp Ht Hr) as (sz & rest & -> & _).
  pose proof (event_start_inv ctx _ ts (worker_inv_stat ctx w "EVENT_COUNT" 1 H)) as H1.
  set (w1 := if _ <? _ then _ else _) in *.
  assert (L1 : live_allocation w1 = live_allocation w /\ us w1 = us w /\ lost_events_per_watcher w1 = lost_events_per_watcher w /\ agg_ext w w1 [])
    by (unfold w1; case_match; (split_and!; [done..|by apply agg_ext_same])). clearbody w1. cbn [h_type].
  destruct L1 as (L1 & U1 & K1 & X1).
  destruct (record_live w1 pid time r pad pos H1 Hp Ht Hr (lookup_lt_Some _ _ _ Hpw) Hn) as (w' & E & (R1 & R2 & R3) & Hl).
  exists w'. split; [by destruct r|]. rewrite <- L1. split; [|exact Hl]. unfold record_rest. rewrite <- U1, <- K1, <- L1. split_and!; [done| |done].
  exact (agg_ext_trans w w1 w' [] _ X1 R2).
Qed.
End events.

(** ** Processes *)

Section processes.
Context (ctx : DDProfContext) (aggregate_result : pprof_entry -> option DDRes).

(** Freeing a process removes its mappings and its entry, and touches no other. *)
Lemma worker_pid_free_us w pid r w' : worker_pid_free ctx aggregate_result w pid = Some (r, w') -> IsDDResFatal r = false ->
  us w' = unwind_pid_free (us w) pid.
Proof.
  intros E Hr. unfold worker_pid_free in E. apply fwd_inv in E as (r1 & w1 & E1 & [(Hf & -> & _)|(_ & E)]); [congruence|].
  injection E as <- <-. apply (aggregate_pid_frame _ _ us) in E1; [|done..]. cbn [set_live set_us us]. by rewrite E1.
Qed.

Lemma free_pids_us pids w r w' : free_pids ctx aggregate_result w pids = Some (r, w') -> IsDDResFatal r = false ->
  us w' = foldl unwind_pid_free (us w) pids.
Proof.
  revert w r w'. induction pids as [|p pids IH]; intros w r w' E Hr; cbn [free_pids foldl] in *; [by injection E as <- <-|].
  apply fwd_inv in E as (r1 & w1 & E1 & [(Hf & -> & _)|(Hf & E)]); [congruence|].
  apply worker_pid_free_us in E1; [|done]. rewrite <- E1. by eapply IH.
Qed.

Lemma lookup_foldl_delete {A} (l : list Z) (m : gmap Z A) q :
  foldl (fun m p => delete p m) m l !! q = if decide (q ∈ l) then None else m !! q.
Proof.
  revert m. induction l as [|p l IH]; intros m; cbn [foldl]; [done|]. rewrite IH.
  destruct (decide (q = p)) as [->|].
  - rewrite lookup_delete_eq, (decide_True (P := p ∈ p :: l)) by apply list_elem_of_here. by case_decide.
  - rewrite lookup_delete_ne by done. destruct (decide (q ∈ l)) as [Hin|Hin].
    + by rewrite decide_True by (by apply list_elem_of_further).
    + rewrite decide_False; [done|]. by rewrite elem_of_cons; intros [?|?].
Qed.

Lemma foldl_pid_free pids u :
  let u' := foldl unwind_pid_free u pids in
  visited_pid (process_hdr u') = visited_pid (process_hdr u) /\
  process_map (process_hdr u') = foldl (fun m p => delete p m) (process_map (process_hdr u)) pids /\
  pid_map (dso_hdr u') = foldl (fun m p => delete p m) (pid_map (dso_hdr u)) pids.
Proof. revert u. induction pids as [|p pids IH]; intros u; cbn [foldl]; [done|]. apply (IH (unwind_pid_free u p)). Qed.

(** At the end of a cycle exactly the processes visited during it are kept: the
    known processes that were not visited are forgotten, with their mappings, every
    other process keeps its entry and its mappings unchanged, and the next cycle
    starts with no process visited. *)
Theorem clear_unvisited_pids_keeps_visited w r w' :
  clear_unvisited_pids ctx aggregate_result w = Some (r, w') -> IsDDResFatal r = false ->
  visited_pid (process_hdr (us w')) = ∅ /\
  forall pid,
    let visited := bool_decide (pid ∈ visited_pid (process_hdr (us w))) in
    process_map (process_hdr (us w')) !! pid = (if visited then process_map (process_hdr (us w)) !! pid else None) /\
    pid_map (dso_hdr (us w')) !! pid = (if visited then pid_map (dso_hdr (us w)) !! pid else None).
Proof.
  intros E Hr. unfold clear_unvisited_pids in E. apply fwd_inv in E as (r1 & w1 & E1 & [(Hf & -> & _)|(Hf & E)]); [congruence|].
  apply free_pids_us in E1; [|done]. injection E as <- <-. split; [done|]. intros pid visited.
  destruct (foldl_pid_free (get_unvisited (process_hdr (us w))) (us w)) as (A & B & C). rewrite <- E1 in A, B, C.
  cbn [set_proc set_dso set_us us process_hdr dso_hdr reset_unvisited process_map clear_unvisited snd set_pid_map pid_map].
  unfold get_visited. rewrite A, lookup_foldl_delete, B, C, !lookup_foldl_delete. unfold visited.
  pose proof (get_unvisited_spec (process_hdr (us w)) pid) as Hu. split.
  - destruct (decide (pid ∈ get_unvisited _)) as [Hin|Hin].
    + apply Hu in Hin as [_ Hin]. by rewrite bool_decide_false.
    + case_bool_decide as Hv; [done|]. destruct (process_map (process_hdr (us w)) !! pid) eqn:Ep; [|done].
      exfalso. apply Hin, Hu. by split; [eexists|].
  - case_bool_decide as Hv.
    + rewrite decide_False by (by rewrite list_elem_of_filter; intros [? _]). rewrite decide_False; [done|]. by rewrite Hu; intros [_ ?].
    + case_decide as Hd; [done|]. case_decide as Hd2; [done|]. destruct (pid_map (dso_hdr (us w)) !! pid) as [pm|] eqn:Ep; [|done].
      exfalso. apply Hd. apply list_elem_of_filter. split; [done|]. apply list_elem_of_fmap. exists (pid, pm).
      split; [done|]. apply elem_of_map_to_list. by rewrite lookup_foldl_delete, decide_False.
Qed.
End processes.

(** ** Target cpu time *)

Definition target_cpu (w : Worker) (v : Z) : Prop :=
  stats_ready (wstats w) /\ stat_value (wstats w) (STATS "TARGET_CPU_USAGE") = v.

Lemma target_same w w' v : wstats w' = wstats w -> target_cpu w v -> target_cpu w' v.
Proof. unfold target_cpu. by intros ->. Qed.

Lemma target_add w name x v : target_cpu w v -> 0 <= STATS name < STATS_LEN ->
  target_cpu (stat_add w name x) (if STATS "TARGET_CPU_USAGE" =? STATS name then i64 (v + x) else v).
Proof.
  intros [Hr <-] Hn. destruct (stats_add_value (wstats w) (STATS name) x (STATS "TARGET_CPU_USAGE") Hr Hn) as (A & _ & B); [done|].
  split; [exact A|]. cbn [stat_add set_wstats wstats]. rewrite B. destruct (Z.eqb_spec (STATS "TARGET_CPU_USAGE") (STATS name)) as [->|]; done.
Qed.

Lemma i64_add_twice x p : i64 (i64 (x + p) + p) = i64 (x + 2 * p).
Proof.
  unfold i64. replace (((x + p + 2 ^ 63) mod 2 ^ 64 - 2 ^ 63 + p + 2 ^ 63)) with ((x + p + 2 ^ 63) mod 2 ^ 64 + p) by lia.
  rewrite Zplus_mod_idemp_l. do 2 f_equal. lia.
Qed.

Section target.
Context (ctx : DDProfContext) (aggregate_result : pprof_entry -> option DDRes)
        (unwinder : Unwinder).

Lemma target_other w name x v : target_cpu w v -> 0 <= STATS name < STATS_LEN -> (STATS "TARGET_CPU_USAGE" =? STATS name) = false ->
  target_cpu (stat_add w name x) v.
Proof. intros H Hn E. pose proof (target_add w name x v H Hn) as G. by rewrite E in G. Qed.

Lemma unwind_sample_target w pw ev s res inc w' v : config pw = PERF_COUNT_SW_TASK_CLOCK -> target_cpu w v ->
  ddprof_unwind_sample ctx unwinder w pw ev s = (res, inc, w') -> target_cpu w' (i64 (v + period s)).
Proof.
  intros Hc H E. unfold ddprof_unwind_sample in E. rewrite Hc, Z.eqb_refl in E.
  apply (target_other w "SAMPLE_COUNT" 1) in H; [|by vm_compute..].
  apply (target_other _ "UNWIND_AVG_STACK_SIZE" (size_stack s)) in H; [|by vm_compute..].
  apply (target_add _ "TARGET_CPU_USAGE" (period s)) in H; [|by vm_compute]. rewrite Z.eqb_refl in H.
  set (w0 := stat_add _ "TARGET_CPU_USAGE" _) in *. clearbody w0.
  destruct (unwindstate_unwind _ _ _ _ _) as [[res1 inc1] w1] eqn:Eu.
  apply unwindstate_unwind_shape in Eu as (u & err & d & -> & _). injection E as <- <- <-.
  apply (target_same w0 (set_us w0 u)) in H; [|done]. set (w1 := set_us w0 u) in *. clearbody w1.
  destruct err; match goal with |- target_cpu (if ?b then _ else _) _ => destruct b end;
    repeat (apply target_other; [|by vm_compute..]); done.
Qed.

Lemma worker_pid_free_wstats w pid r w' : worker_pid_free ctx aggregate_result w pid = Some (r, w') -> wstats w' = wstats w.
Proof.
  intros E. unfold worker_pid_free in E. apply fwd_inv in E as (r1 & w1 & E1 & E).
  apply (aggregate_pid_frame _ _ wstats) in E1; [|done..]. rewrite <- E1. destruct E as [(_ & _ & ->)|(_ & [= <- <-])]; done.
Qed.

(** The cpu time attributed to the profiled program is twice the cpu time
    sampled: a task-clock sample adds its period to the statistic before unwinding
    and again while unwinding. *)
Theorem task_clock_sample_counted_twice w pos pw ev s t r w' :
  stats_ready (wstats w) -> watchers ctx !! pos = Some pw -> config pw = PERF_COUNT_SW_TASK_CLOCK ->
  ddprof_pr_sample ctx aggregate_result unwinder w pos ev s t = Some (r, w') ->
  stat_value (wstats w') (STATS "TARGET_CPU_USAGE") = i64 (stat_value (wstats w) (STATS "TARGET_CPU_USAGE") + 2 * period s).
Proof.
  intros Hready Hpw Hc E. set (v := stat_value (wstats w) _). assert (H : target_cpu w v) by done. clearbody v.
  enough (G : target_cpu w' (i64 (i64 (v + period s) + period s))) by (rewrite (proj2 G); apply i64_add_twice).
  unfold ddprof_pr_sample in E. rewrite Hpw, Hc, Z.eqb_refl in E.
  apply (target_add _ "TARGET_CPU_USAGE" (period s)) in H; [|by vm_compute]. rewrite Z.eqb_refl in H.
  destruct (ddprof_unwind_sample _ _ _ _ _ _) as [[res inc] w1] eqn:Eu in E.
  apply (unwind_sample_target _ _ _ _ _ _ _ _ Hc H) in Eu as H1. clear Eu H.
  apply (target_other _ "UNWIND_AVG_TIME" (unwind_ticks t - ticks0 t)) in H1; [|by vm_compute..].
  set (w2 := stat_add w1 _ _) in *. clearbody w2. revert H1.
  generalize (i64 (i64 (v + period s) + period s)). intros v2 H2.
  match type of E with match ?m with Some _ => _ | None => None end = _ => destruct m as [[r3 w3]|] eqn:E3 end; [|done].
  assert (H3 : target_cpu w3 v2).
  { apply (target_same w2); [|done]. case_if E3; [by injection E3 as <- <-|].
    match type of E3 with match ?m with Some _ => _ | None => None end = _ => destruct m as [w4|] eqn:E4 end; [|done].
    assert (H4 : wstats w4 = wstats w2).
    { case_if E4; [|by injection E4 as <-]. destruct (register_allocation _ _ _ _ _ _); [by injection E4 as <-|done]. }
    case_if E3; [|by injection E3 as <- <-]. destruct (perf_value_from_sample _ _ _) as [z|]; [|done]. rewrite <- H4.
    apply fwd_inv in E3 as (r5 & w5 & E5 & E3). assert (w3 = w5) as -> by (by destruct E3 as [(_ & _ & ->)|(_ & [= _ <-])]).
    unfold pprof_aggregate in E5. destruct (aggregate_result _) as [r0|]; [|done]. destruct (IsDDResFatal _); by injection E5 as <- <-. }
  case_if E; [by injection E as <- <-|]. apply fwd_inv in E as (r6 & w6 & E6 & E).
  assert (H6 : target_cpu w6 v2).
  { apply (target_same w3); [|done]. destruct inc; [|by injection E6 as <- <-].
    apply fwd_inv in E6 as (r7 & w7 & E7 & E6). assert (w6 = w7) as -> by (by destruct E6 as [(_ & _ & ->)|(_ & [= _ <-])]).
    by apply worker_pid_free_wstats in E7. }
  destruct E as [(_ & _ & ->)|(_ & E)]; [done|]. injection E as <- <-. apply target_other; [done|by vm_compute..].
Qed.
End target.
