(* ===== verification/WorkerLoop.v ===== *)
(** * The worker inside the main loop

    The worker of [Worker] implements the interface that [MainLoop] calls, including its
    release ([ddprof_worker_free], [worker_library_free] of src/ddprof_worker.cc), and
    satisfies the laws that the theorems on the loop ask for.  The theorem on the loop
    then holds for the profiler's own worker. *)

From S2P Require Import Prelude RingBuffer PerfSample EventRings Ddres Dso DsoHdr LiveAlloc Watcher Stats Process Clocks MainLoop MainLoopProofs MainLoopSafety Worker WorkerProofs WorkerSafety.

(** ** Release *)

(** An object that was deleted is represented by an empty one. *)
Definition worker_library_free (w : Worker) (munmap : DDRes) : DDRes * Worker :=
  if IsDDResFatal munmap then (munmap, w)
  else (ddres_init, set_us w (mkUS (init_DsoHdr "" (-1)) (new_ProcessHdr "") (-1) (mkUO [] k_container_id_unknown "" "" 0 0))).

(** The exporter and the profile [i]. *)
Definition free_profile (w : Worker) (i : bool) (free_exporter free_pprof : DDRes) : DDRes * Worker :=
  if IsDDResFatal free_exporter then (free_exporter, w)
  else if IsDDResFatal free_pprof then (free_pprof, w)
  else (ddres_init, set_ex w (set_pprof (ex w) i [])).

(** The export thread is joined or cancelled; [frees]: the results of freeing the
    exporters and the profiles. *)
Definition ddprof_worker_free (w : Worker) (munmap : DDRes) (frees : bool -> DDRes * DDRes) : DDRes * Worker :=
  let w := set_ex w (set_thread (ex w) NoThread) in
  let '(r, w) := worker_library_free w munmap in
  if IsDDResFatal r then (r, w)
  else
    let '(r, w) := free_profile w false (fst (frees false)) (snd (frees false)) in
    if IsDDResFatal r then (r, w) else free_profile w true (fst (frees true)) (snd (frees true)).

(** ** The interface *)

(** What the operations of the worker meet in a state of the machine: the counter
    readings around an event, the answers during a cycle and at the start, the time and
    the contents of the maps file of the profiled process, whether the export thread has
    finished, and the results of releasing resources. *)
Class WorkerEnv (E : Type) := {
  event_ticks : E -> ticks;
  cycle_of : E -> cycle_env;
  init_of : E -> init_env;
  maps_of : E -> Z * option (list (option proc_fields));
  thread_done : E -> bool;
  munmap_of : E -> DDRes;
  frees_of : E -> bool -> DDRes * DDRes
}.

Section Instances.

Context (ctx : DDProfContext) (aggregate_result : pprof_entry -> option DDRes) (unwinder : Unwinder) (lost_frame : FunLoc)
        (export_result : Z -> list pprof_entry -> DDRes) (cycles_to_duration : Z -> Z) (statsd_send : string -> Z -> DDRes)
        (profiled_pid dd_profiling_fd seq0 : Z) (threads : bool).
Context {E : Type} `{LoopEnv E} `{WorkerEnv E}.

(** The export thread may have finished meanwhile. *)
Definition run_thread (e : E) (w : Worker) : Worker :=
  match exp_tid (ex w) with
  | Running => if thread_done e then set_ex w (set_thread (export_thread export_result (ex w)) Finished) else w
  | _ => w
  end.

#[local] Instance worker_ops : WorkerOps E Worker := {|
  init_fun e w := ddprof_worker_init ctx w dd_profiling_fd (init_of e);
  finish_fun e w := snd (ddprof_worker_free w (munmap_of e) (frees_of e));
  backpopulate e w :=
    let? (_, _, h) := pid_backpopulate (dso_hdr (us w)) profiled_pid (fst (maps_of e)) (snd (maps_of e)) 0 in Some (set_dso w h);
  process_event e w ev k := ddprof_worker_process_event ctx aggregate_result unwinder w ev k (event_ticks e);
  maybe_export e w now :=
    ddprof_worker_maybe_export ctx aggregate_result lost_frame export_result cycles_to_duration statsd_send
      (run_thread e w) (cycle_of e) now;
  final_cycle e w :=
    ddprof_worker_cycle ctx aggregate_result lost_frame export_result cycles_to_duration statsd_send
      (run_thread e w) (cycle_of e) 0 true;
  wants_restart := restart_worker
|}.

(** What is assumed of the machine: its steady clock advances, the clocks read during a
    cycle and at the start are that clock, and maps files are well-formed.  [threads]:
    export threads are always created. *)
Record worker_env_ok : Prop := {
  clock_advances e pes : steady_now e < steady_now (fst (env_step e pes));
  cycle_clock e : ce_steady_now (cycle_of e) = steady_now e /\ 0 < ce_clock_ticks_per_sec (cycle_of e);
  init_clock e : ie_steady_now (init_of e) = steady_now e;
  maps_fine e : maps_ok (snd (maps_of e));
  threads_created e : threads = true -> ce_thread_created (cycle_of e) = true
}.

Context (Henv : worker_env_ok) (Hdefined : aggregation_defined ctx aggregate_result)
        (Hunwind : unwinder_keeps_mappings unwinder) (Hlost : lost_ok (watchers ctx)).

(** ** The laws *)

(** A running worker: its data are well-formed, the exports account for the values, the
    cycle has started and no restart was asked for. *)
Record running (e : E) (w : Worker) : Prop := {
  rn_inv : worker_inv ctx w;
  rn_exports : exports_inv threads seq0 w;
  rn_clock : cycle_start_time w <= steady_now e;
  rn_restart : restart_worker w = false
}.

Definition record_ok (k : nat) (ev : list Z) : Prop := exists pw h, event_ok ctx ev k pw h.

Lemma running_step e pes w : running e w -> running (fst (env_step e pes)) w.
Proof. intros [H1 H2 H3 H4]. split; try done. pose proof (clock_advances Henv e pes). lia. Qed.

Lemma running_event e w ev k : running e w -> record_ok k ev ->
  exists r w', ddprof_worker_process_event ctx aggregate_result unwinder w ev k (event_ticks e) = Some (r, w') /\ running e w'.
Proof.
  intros [H1 H2 H3 H4] (pw & h & He).
  destruct (process_event_safe ctx aggregate_result unwinder Hdefined Hunwind w ev k pw h (event_ticks e) H1 He) as (r & w' & E1 & Hw').
  pose proof (process_event_extends _ _ _ _ _ _ _ _ _ E1) as X. exists r, w'. split; [done|]. split; [done| | |].
  - by eapply exports_inv_extends.
  - by rewrite (extends_start _ _ X).
  - by rewrite (extends_restart _ _ X).
Qed.

#[local] Instance worker_laws : WorkerLaws E Worker :=
  {| worker_ok := running; acceptable := record_ok; worker_ok_step := running_step; process_event_total := running_event |}.

Lemma running_thread e w : running e w -> running e (run_thread e w).
Proof.
  intros [H1 H2 H3 H4]. unfold run_thread. destruct (exp_tid (ex w)) eqn:Et; [done| |done]. destruct (thread_done e); [|done].
  split; [by apply (worker_inv_same ctx w)| |done..]. eapply (worker_step_inv ctx aggregate_result unwinder lost_frame export_result cycles_to_duration statsd_send); [|done]. by apply step_thread.
Qed.

(** A result is OK or fatal: nothing is processed twice after a warning. *)
Definition ok_or_fatal (m : option (DDRes * Worker)) : Prop :=
  forall r w, m = Some (r, w) -> IsDDResOK r = true \/ IsDDResFatal r = true.

Lemma ok_ok_or_fatal w : ok_or_fatal (ok w).
Proof. intros r w' [= <- _]. by left. Qed.

Lemma fwd_ok_or_fatal m k : (forall w, ok_or_fatal (k w)) -> ok_or_fatal (fwd m k).
Proof. intros Hk r w E1. apply fwd_inv in E1 as (r1 & w1 & _ & [(Hf & -> & _)|(_ & E1)]); [by right|by eapply Hk]. Qed.

Lemma some_ok_or_fatal {A} (m : option A) k : (forall x, ok_or_fatal (k x)) -> ok_or_fatal (let? x := m in k x).
Proof. intros Hk. destruct m; [apply Hk|]. by intros r w [=]. Qed.

Ltac ok_or_fatal :=
  repeat match goal with
  | |- ok_or_fatal (ok _) => apply ok_ok_or_fatal
  | |- ok_or_fatal (fwd _ _) => apply fwd_ok_or_fatal; intros ?
  | |- ok_or_fatal (if ?b then _ else _) => destruct b
  | |- ok_or_fatal (let '(_, _) := ?x in _) => destruct x
  | |- ok_or_fatal _ => apply some_ok_or_fatal; intros ?
  end.

Lemma event_ok_or_fatal w ev k t : ok_or_fatal (ddprof_worker_process_event ctx aggregate_result unwinder w ev k t).
Proof. unfold ddprof_worker_process_event. ok_or_fatal. Qed.

(** A worker that has not started. *)
Record not_started (w : Worker) : Prop := {
  ns_live : la_inv (live_allocation w);
  ns_addresses : addresses_ok ctx (live_allocation w);
  ns_live_len : (length (watcher_vector (live_allocation w)) <= length (watchers ctx))%nat;
  ns_watchers : (length (watchers ctx) <= Z.to_nat kMaxTypeWatcher)%nat;
  ns_exports : aggregated w = [] /\ exported (ex w) = [] /\ profile_seq (ex w) = seq0 /\ 0 <= seq0 < 2 ^ 32;
  ns_restart : restart_worker w = false
}.

(** Starting gives a running worker. *)
Lemma init_running e w r w' : not_started w -> ddprof_worker_init ctx w dd_profiling_fd (init_of e) = (r, w') ->
  IsDDResFatal r = false -> running e w'.
Proof.
  intros [H1 H2 H3 H4 (Ha & He & Hs & Hr) H6] E1 Er.
  assert (Hfresh : r = ddres_init -> fresh_exports seq0 w').
  { intros ->. rewrite <- Hs. eapply worker_init_fresh; [done|done|by rewrite Hs|done]. }
  unfold ddprof_worker_init, worker_library_init, worker_init_stats in E1.
  destruct (negb (ie_unwind_state _)) in E1; [by simplify_eq/=|].
  destruct (_ && _) eqn:Em in E1.
  { apply andb_prop in Em as [_ Em]. rewrite Em in E1. injection E1 as <- _. congruence. }
  change (IsDDResFatal ddres_init) with false in E1. cbv iota zeta in E1. destruct (first_fatal _) as [r1|] eqn:Ef in E1.
  { apply find_some in Ef as [_ Ef]. injection E1 as <- _. congruence. }
  destruct (ie_proc _) as [r1 cpu]. destruct (IsDDResFatal r1) eqn:Er1; [injection E1 as <- _; congruence|].
  injection E1 as <- <-. specialize (Hfresh eq_refl).
  split; [|by apply fresh_exports_inv|cbn; by rewrite (init_clock Henv)|exact H6].
  by split.
Qed.

(** What the last export leaves: everything that was aggregated has been exported, but
    for the profiles whose export thread was not created. *)
Definition all_exported (w : Worker) : Prop :=
  worker_inv ctx w /\ exports_inv threads seq0 w /\ accounts threads (concat (map snd (exported (ex w)))) (aggregated w).

Lemma running_backpopulate e w : running e w -> exists w', backpopulate e w = Some w' /\ running e w'.
Proof.
  intros [H1 H2 H3 H4].
  destruct (pid_backpopulate_spec (dso_hdr (us w)) profiled_pid (fst (maps_of e)) (snd (maps_of e)) 0 (wi_dso _ _ H1) (maps_fine Henv e))
    as (b & n & h & E1 & Hh).
  exists (set_dso w h). split; [unfold backpopulate; cbn [worker_ops]; by rewrite E1|]. split; [by apply worker_inv_dso| |done..].
  by destruct H2.
Qed.

Lemma running_cycle_env e w : running e w -> cycle_start_time w < steady_now e -> cycle_env_ok (run_thread e w) (cycle_of e).
Proof.
  intros Hr Hlt. destruct (cycle_clock Henv e) as [Hc Ht]. split; [|done]. rewrite Hc.
  unfold run_thread. by repeat case_match.
Qed.

Lemma running_maybe_export e w now : running e w -> cycle_start_time w < steady_now e ->
  exists r w', maybe_export e w now = Some (r, w') /\
    (IsDDResFatal r = false -> if restart_worker w' then all_exported w' else running e w').
Proof.
  intros Hr Hlt. pose proof (running_cycle_env e w Hr Hlt) as Hce. destruct (running_thread e w Hr) as [H1 H2 H3 H4].
  cbn [maybe_export worker_ops]. set (w0 := run_thread e w) in *. clearbody w0.
  destruct (maybe_export_safe ctx aggregate_result Hdefined lost_frame export_result cycles_to_duration statsd_send w0 (cycle_of e) now H1 Hce Hlost)
    as (r & w' & E1 & Hi'). exists r, w'. split; [exact E1|]. intros Hf.
  destruct (maybe_export_spec _ _ _ _ _ _ threads _ _ _ _ _ _ H2 (threads_created Henv e) E1 Hf) as (He & Hs & Hc).
  destruct (restart_worker w') eqn:Er; [by split_and!; auto|]. split; [done..| |done].
  destruct (cycle_clock Henv e) as [Hcc _]. rewrite Hcc in Hc. destruct Hc as [->| ->]; lia.
Qed.

Lemma running_final_cycle e w : running e w -> cycle_start_time w < steady_now e ->
  exists r w', final_cycle e w = Some (r, w') /\ (IsDDResFatal r = false -> all_exported w').
Proof.
  intros Hr Hlt. pose proof (running_cycle_env e w Hr Hlt) as Hce. destruct (running_thread e w Hr) as [H1 H2 H3 H4].
  cbn [final_cycle worker_ops]. set (w0 := run_thread e w) in *. clearbody w0.
  destruct (cycle_safe ctx aggregate_result Hdefined lost_frame export_result cycles_to_duration statsd_send w0 (cycle_of e) 0 true H1 Hce Hlost)
    as (r & w' & E1 & Hi'). exists r, w'. split; [exact E1|]. intros Hf.
  destruct (cycle_spec _ _ _ _ _ _ threads _ _ _ _ _ _ _ H2 (fun Ht _ => threads_created Henv e Ht) E1 Hf) as (He & Hs & _). split_and!; auto.
Qed.

Lemma running_ready e pes w : running e w -> cycle_start_time w < steady_now (fst (env_step e pes)).
Proof. intros [_ _ H3 _]. pose proof (clock_advances Henv e pes). lia. Qed.

#[local] Instance worker_loop_laws : WorkerLoopLaws E Worker := {|
  startable _ := not_started; export_ready e w := cycle_start_time w < steady_now e; worker_done := all_exported;
  export_ready_step := running_ready;
  process_event_result e w ev k := event_ok_or_fatal w ev k (event_ticks e);
  init_fun_ok := init_running; backpopulate_total := running_backpopulate;
  maybe_export_total := running_maybe_export; final_cycle_total := running_final_cycle
|}.

(** ** The loop with the worker *)

Context {Q : Type} `{PriorityQueueLaws Q} (sample_types : list Z) (wps : list nat) (types : list RingBufferType)
        `{!LoopEnvLaws sample_types wps types}.

(** C2: the worker process in a well-behaved machine: the worker's loop, run for any number of
    turns from its start, never leaves the preconditions of an operation; every event written
    to a ring was processed once or is still in its ring or queue, but for one on which the
    worker ended with a fatal error; and when it ends without an error (to stop, or to be
    restarted) the values it exported are values it aggregated, once each and in order, in
    profiles with consecutive numbers, and all of them when every export thread could be
    created.  The machine ([LoopEnvLaws], [worker_env_ok], [record_ok]): events only get
    appended to rings, in a perf ring in the order of their times, and each is a record laid
    out as the kernel or the allocation tracker write it (for the watcher it comes from, with
    the field its value is read from in the record); the steady clock advances between two
    turns; maps files have the lines the kernel prints.  The rest of the process: the unwinder
    keeps the mappings well-formed (as [WorkerUnwinder] shows), aggregation stays inside its arrays for the values a
    watcher has a slot for, and every watcher has a summed value and, by frequency, a
    frequency. *)
Theorem profiler_worker_safe fuel g (st : LoopState Q E Worker) backpop : at_start sample_types wps types g st ->
  exists o st', worker_loop sample_types fuel st backpop true = Some (o, st') /\ ended sample_types wps types o st' /\
    forall r, o = Returned r -> IsDDResFatal r = false ->
      exists w, ls_worker st' = snd (ddprof_worker_free w (munmap_of (ls_env st')) (frees_of (ls_env st'))) /\
        worker_inv ctx w /\ sublist (concat (map snd (exported (ex w)))) (aggregated w) /\
        (threads = true -> aggregated w = concat (map snd (exported (ex w)))) /\
        map fst (exported (ex w)) = map u32 (seqZ seq0 (Z.of_nat (length (exported (ex w))))).
Proof.
  intros Hs. destruct (worker_loop_spec sample_types wps types fuel g st backpop Hs) as (o & st' & E1 & He & Hd).
  exists o, st'. split; [done|]. split; [done|]. intros r Ho Hr. destruct (Hd r Ho Hr) as (w & (Hi & Hx & Ha) & Ew).
  exists w. split_and!; [done..| | |apply (ei_seq _ _ _ Hx)]; [|by intros ->]. destruct threads; cbn in Ha; [by rewrite <- Ha|done].
Qed.

End Instances.
