(* ===== verification/WorkerDemo.v ===== *)
(** * The worker: a concrete run

    A worker with two allocation watchers and a cpu watcher, and the theorems on the
    worker applied to it. *)

From S2P Require Import RuntimeSymbols Unwind UnwindDemo.
From S2P Require Import Prelude AddressSet RingBuffer PerfSample Ddres Dso DsoHdr LiveAlloc Watcher Stats Process AllocTracker AllocTrackerSet KernelSample Worker WorkerProofs WorkerSafety WorkerUnwinder WorkerEvents.

Definition alloc_watcher : PerfWatcher :=
  mkWatcher demo_alloc_mask 0 524288 "Allocations" 19 100 kOff false 3 32768 kSample (kSum + kLiveSum) 0 0 0.
Definition cpu_watcher : PerfWatcher := default tracepoint_default_watcher (ewatcher_from_str "sCPU").
Definition demo_ctx : DDProfContext := mkCtx [alloc_watcher; cpu_watcher; alloc_watcher] (-1) false (60 * nano) 240.

(** The DWARF unwinder on the process of [UnwindDemo]. *)
Definition demo_frame (x : Z) : FunLoc := mkFunLoc x 0 0 0 0.
Definition demo_unwind : Unwinder :=
  dwarf_unwinder list_dwfl list_files list_inode (fun _ => None) (fun _ => true) (fun _ => list_env) 6 (fun _ => (init_SymbolHdr "", ∅, new_wrapper)) (fun _ => None)
    (demo_frame 0) (fun _ => demo_frame 1) (fun _ => "exe"%string) (fun _ => None) (fun _ _ => None).
Definition demo_aggregate (e : pprof_entry) : option DDRes := Some ddres_init.
Definition demo_export (seq : Z) (l : list pprof_entry) : DDRes := ddres_init.
Definition demo_statsd (path : string) (v : Z) : DDRes := ddres_init.
Definition demo_lost : FunLoc := mkFunLoc 0 0 0 0 0.

Definition demo_worker : Worker :=
  mkWorker (mkUS (init_DsoHdr "" (-1)) (new_ProcessHdr "") 0 (mkUO [] "" "" "" 0 0)) (mkLA [] (mkStats 0 0)) (replicate 10 0)
    (Some (replicate (Z.to_nat STATS_LEN) 0)) (mkExports (fun _ => []) false NoThread false 0 []) 0 1000 0 0 0 0 false zero_sample "" [].

(** An allocation of 100 bytes at 4096 by process 42. *)
Definition demo_alloc : list Z :=
  allocation_event_head 224 42 43 1500 4096 100 (replicate 20 7) 0.
Definition demo_ticks : ticks := mkTicks 1 2 3.
Definition demo_cycle : cycle_env := mkCycle ddres_init (ddres_init, 5, 10) 4096 100 2000000 3000 0 0 (0, 0, 0) true ddres_init true.

Definition run_or (w : Worker) (m : option (DDRes * Worker)) : Worker := snd (default (ddres_init, w) m).

Lemma run_or_some w (m : option (DDRes * Worker)) : (if m is Some _ then true else false) = true -> m = Some (fst (default (ddres_init, w) m), run_or w m).
Proof. by destruct m as [[r w']|]. Qed.

Definition demo_worker1 : Worker :=
  run_or demo_worker (ddprof_worker_process_event demo_ctx demo_aggregate demo_unwind demo_worker demo_alloc 0 demo_ticks).
Definition demo_worker2 : Worker :=
  run_or demo_worker1 (ddprof_worker_maybe_export demo_ctx demo_aggregate demo_lost demo_export (fun c => c) demo_statsd demo_worker1 demo_cycle 2000).
Definition demo_worker3 : Worker := set_ex demo_worker2 (set_thread (export_thread demo_export (ex demo_worker2)) Finished).

Lemma demo_steps : rtc (worker_step demo_ctx demo_aggregate demo_unwind demo_lost demo_export (fun c => c) demo_statsd true) demo_worker demo_worker3.
Proof.
  apply (rtc_l _ _ demo_worker1); [|apply (rtc_l _ _ demo_worker2); [|apply rtc_once]].
  - eapply step_event, run_or_some. vm_compute. reflexivity.
  - eapply step_maybe_export; [apply run_or_some; vm_compute; reflexivity|done|vm_compute; reflexivity].
  - apply step_thread. vm_compute. reflexivity.
Qed.

(** The sample is in the profile that was exported, once as a value and once as a
    live allocation. *)
Lemma exports_conserve_values_witness :
  aggregated demo_worker3 = concat (map snd (exported (ex demo_worker3))) /\
  map pe_value (aggregated demo_worker3) = [100; 100] /\ map pe_pos (aggregated demo_worker3) = [kSumPos; kLiveSumPos].
Proof.
  split; [|split; vm_compute; reflexivity].
  assert (H0 : fresh_exports 0 demo_worker) by (split_and!; done).
  destruct (exports_conserve_values demo_ctx demo_aggregate demo_unwind demo_lost demo_export (fun c => c) demo_statsd
              true 0 demo_worker demo_worker3 H0 demo_steps) as (_ & E & _).
  rewrite (E eq_refl). vm_compute. reflexivity.
Defined.

(** The result of creating the export thread is not looked at: when the creation fails
    (src/ddprof_worker.cc:622) the profile is not exported, and the export after the next
    one reuses its slot, so its values are lost. *)
Definition no_thread (t : Z) : cycle_env := mkCycle ddres_init (ddres_init, 5, 10) 4096 100 t 3000 0 0 (0, 0, 0) true ddres_init false.
Definition with_thread (t : Z) : cycle_env := mkCycle ddres_init (ddres_init, 5, 10) 4096 100 t 3000 0 0 (0, 0, 0) true ddres_init true.
Definition demo_export_at (w : Worker) (e : cycle_env) (now : Z) : Worker :=
  run_or w (ddprof_worker_maybe_export demo_ctx demo_aggregate demo_lost demo_export (fun c => c) demo_statsd w e now).
Example failed_thread_loses_profile :
  let w1 := run_or demo_worker (ddprof_worker_process_event demo_ctx demo_aggregate demo_unwind demo_worker demo_alloc 0 demo_ticks) in
  let w2 := demo_export_at w1 (no_thread 2000000) 2000 in
  let w3 := demo_export_at w2 (with_thread 200000000000) 200000000000 in
  let w4 := set_ex w3 (set_thread (export_thread demo_export (ex w3)) Finished) in
  map pe_pos (aggregated w1) = [kSumPos] /\
  map (fun x => map pe_pos (snd x)) (exported (ex w4)) = [[kLiveSumPos]] /\ exp_tid (ex w2) = NoThread.
Proof. vm_compute. done. Qed.

Lemma demo_unwinder_keeps : unwinder_keeps_mappings demo_unwind.
Proof. apply dwarf_unwinder_keeps_mappings. intros s n. apply list_maps_ok. Qed.

Lemma demo_worker_inv : worker_inv demo_ctx demo_worker.
Proof.
  split; [|intros w p; exact empty_ps_ok|intros w p; change (ps_of _ w p) with empty_PidStacks; rewrite live_empty; apply map_Forall_empty
         |vm_compute; lia|done|vm_compute; lia].
  intros p pm Hp. change (pid_map (dso_hdr (us demo_worker))) with (∅ : gmap Z PidMapping) in Hp. by rewrite lookup_empty in Hp.
Qed.

Lemma demo_defined : aggregation_defined demo_ctx demo_aggregate.
Proof. intros e _. by eexists. Qed.

(** The allocation in the layout of a sample. *)
Definition demo_sample : kernel_sample :=
  mkKS 0 224 0 0 42 43 1500 4096 0 0 0 0 100 0 [] (replicate 4 0) PERF_SAMPLE_REGS_ABI_64 (replicate 20 7) [] 0.
Lemma demo_alloc_ok pad h : load_hdr (demo_alloc ++ pad) = Some h -> event_ok demo_ctx (demo_alloc ++ pad) 0 alloc_watcher h.
Proof.
  intros Eh. assert (Ety : h_type h = PERF_RECORD_SAMPLE).
  { change (demo_alloc ++ pad) with (hdr_bytes (mkHdr PERF_RECORD_SAMPLE 0 224) ++ drop 8 demo_alloc ++ pad) in Eh.
    destruct (load_hdr_at _ (mkHdr PERF_RECORD_SAMPLE 0 224) (drop 8 demo_alloc ++ pad) eq_refl) as [E _]; [done..|]. rewrite E in Eh. by injection Eh as <-. }
  split; [reflexivity|exact Eh|rewrite Ety, length_app; cbn; lia|rewrite Ety; done|rewrite Ety; done|]. intros _.
  exists demo_sample, pad. split; [vm_compute; reflexivity|]. split; [repeat split; vm_compute; congruence|].
  split; [done|]. intros _. split; [done|]. split; [done|]. intros _. split; [done|]. split; vm_compute; congruence.
Qed.

Lemma worker_event_safe_witness : exists r w',
  ddprof_worker_process_event demo_ctx demo_aggregate demo_unwind demo_worker demo_alloc 0 demo_ticks = Some (r, w') /\
  worker_inv demo_ctx w'.
Proof.
  destruct (load_hdr (demo_alloc ++ [])) as [h|] eqn:Eh; [|vm_compute in Eh; discriminate Eh].
  apply (worker_event_safe demo_ctx demo_aggregate demo_unwind demo_worker demo_alloc 0 alloc_watcher h demo_ticks
           demo_unwinder_keeps demo_defined demo_worker_inv). pose proof (demo_alloc_ok [] h Eh) as H. by rewrite app_nil_r in H.
Defined.

Lemma worker_export_safe_witness : exists r w',
  ddprof_worker_maybe_export demo_ctx demo_aggregate demo_lost demo_export (fun c => c) demo_statsd demo_worker demo_cycle 2000
    = Some (r, w') /\ worker_inv demo_ctx w'.
Proof.
  apply (worker_export_safe demo_ctx demo_aggregate demo_lost demo_export (fun c => c) demo_statsd demo_worker demo_cycle 2000 demo_defined demo_worker_inv).
  - split; vm_compute; reflexivity.
  - repeat constructor; vm_compute; congruence.
Defined.

(** Process 42 has one live allocation; another watcher's is left. *)
Definition demo_la0 : LiveAllocation := mkLA [] (mkStats 0 0).
Definition demo_la1 : LiveAllocation := default demo_la0 (register_allocation demo_la0 (demo_stack 1) 4096 100 0 42).
Definition demo_la2 : LiveAllocation := default demo_la0 (register_allocation demo_la1 (demo_stack 2) 4096 50 2 42).
Definition demo_live_worker : Worker := set_live demo_worker demo_la2.

Lemma demo_live_inv : worker_inv demo_ctx demo_live_worker.
Proof.
  assert (H1 : worker_inv demo_ctx (set_live demo_worker demo_la1)).
  { destruct (worker_inv_call demo_ctx demo_worker (CAlloc (demo_stack 1) 4096 100 0 42) demo_worker_inv) as (la & E & H).
    - split; [done|]. split; [vm_compute; split; congruence|]. by exists alloc_watcher.
    - intros i [= <-]. cbn. lia.
    - unfold demo_la1. cbn [la_exec] in E. change (live_allocation demo_worker) with demo_la0 in E. by rewrite E. }
  destruct (worker_inv_call demo_ctx _ (CAlloc (demo_stack 2) 4096 50 2 42) H1) as (la & E & H).
  - split; [done|]. split; [vm_compute; split; congruence|]. by exists alloc_watcher.
  - intros i [= <-]. cbn. lia.
  - unfold demo_live_worker, demo_la2. cbn [la_exec set_live live_allocation] in E. by rewrite E.
Qed.

Lemma tracker_records_update_live_profile_witness : exists w',
  ddprof_worker_process_event demo_ctx demo_aggregate demo_unwind demo_live_worker
    (record_bytes 42 1600 (RDealloc 43 4096) ++ [0; 0]) 0 demo_ticks = Some (ddres_init, w') /\
  live (ps_of (live_allocation w') 0 42) = ∅ /\ live (ps_of (live_allocation w') 2 42) = {[4096 := (demo_stack 2, 50)]}.
Proof.
  destruct (tracker_records_update_live_profile demo_ctx demo_aggregate demo_unwind demo_live_worker 42 1600 (RDealloc 43 4096) [0; 0] 0
              alloc_watcher demo_ticks demo_live_inv eq_refl) as (w' & E & _ & Hl).
  - intros e _. by exists ddres_init.
  - lia.
  - split; vm_compute; congruence.
  - split; [lia|]. split; vm_compute; congruence.
  - exists w'. split; [exact E|]. rewrite !Hl. split; vm_compute; reflexivity.
Defined.

(** Process 42 was visited, process 7 was not. *)
Definition demo_visited_worker : Worker :=
  set_proc demo_worker (flag_visited (set_process (set_process (new_ProcessHdr "") 42 (new_process 42)) 7 (new_process 7)) 42).

Lemma clear_unvisited_pids_keeps_visited_witness :
  let w' := run_or demo_visited_worker (clear_unvisited_pids demo_ctx demo_aggregate demo_visited_worker) in
  is_Some (process_map (process_hdr (us w')) !! 42) /\ process_map (process_hdr (us w')) !! 7 = None.
Proof.
  cbv zeta. set (w' := run_or _ _).
  assert (E : clear_unvisited_pids demo_ctx demo_aggregate demo_visited_worker
              = Some (fst (default (ddres_init, demo_visited_worker) (clear_unvisited_pids demo_ctx demo_aggregate demo_visited_worker)), w'))
    by (apply run_or_some; vm_compute; reflexivity).
  destruct (clear_unvisited_pids_keeps_visited demo_ctx demo_aggregate demo_visited_worker _ w' E) as [_ H]; [vm_compute; reflexivity|].
  rewrite (proj1 (H 42)), (proj1 (H 7)). split; vm_compute; [eexists; reflexivity|reflexivity].
Defined.

(** A task-clock sample of 10 ms. *)
Definition cpu_sample : perf_event_sample :=
  match hdr2samp zero_sample (hdr_bytes (mkHdr PERF_RECORD_SAMPLE 0 48) ++ le_bytes 4 42 ++ le_bytes 4 43 ++ le_bytes 8 1500 ++
    le_bytes 8 10000000) (PERF_SAMPLE_TID + PERF_SAMPLE_TIME + PERF_SAMPLE_PERIOD) with
  | Some (_, s) => s
  | None => zero_sample
  end.

Lemma task_clock_sample_counted_twice_witness :
  let w' := run_or demo_worker (ddprof_pr_sample demo_ctx demo_aggregate demo_unwind demo_worker 1 [] cpu_sample demo_ticks) in
  period cpu_sample = 10000000 /\ stat_value (wstats w') (STATS "TARGET_CPU_USAGE") = 20000000.
Proof.
  cbv zeta. set (w' := run_or _ _). split; [vm_compute; reflexivity|].
  assert (E : ddprof_pr_sample demo_ctx demo_aggregate demo_unwind demo_worker 1 [] cpu_sample demo_ticks
    = Some (fst (default (ddres_init, demo_worker) (ddprof_pr_sample demo_ctx demo_aggregate demo_unwind demo_worker 1 [] cpu_sample demo_ticks)), w'))
    by (apply run_or_some; vm_compute; reflexivity).
  assert (Hr : stats_ready (wstats demo_worker)) by (eexists; split; [reflexivity|vm_compute; reflexivity]).
  pose proof (task_clock_sample_counted_twice demo_ctx demo_aggregate demo_unwind demo_worker 1 cpu_watcher [] cpu_sample demo_ticks _ w'
                Hr eq_refl eq_refl E) as H.
  rewrite H. vm_compute. reflexivity.
Defined.
