(* ===== verification/WorkerLoopDemo.v ===== *)
(** * The worker in the main loop: a concrete run

    A machine whose steady clock advances with every step, with a perf ring that holds
    one allocation sample, and the worker of [WorkerDemo] on it. *)

From S2P Require Import Prelude AddressSet RingBuffer PerfSample PerfRing EventRings Ddres Dso DsoHdr LiveAlloc Watcher Stats Process AllocTracker AllocTrackerSet Clocks MainLoop MainLoopProofs MainLoopSafety MainLoopDemo Worker WorkerProofs WorkerSafety WorkerEvents WorkerLoop WorkerDemo.

(** The clock, and what the rings held at the start. *)
Definition machine : Type := Z * (nat -> list (list Z)).

#[global] Instance machine_env : LoopEnv machine :=
  {| env_step := fun e pes => ((fst e + 1, snd e), pes); perf_now := fun _ => 1000000; steady_now := fst; memalign_ok := fun _ => true;
     termination_requested := fun e => 30 <=? fst e; poll_fds := fun _ _ => PollReady [(false, true)]; read_eventfd_ok := fun _ _ => true |}.

#[global] Instance machine_worker : WorkerEnv machine := {|
  event_ticks _ := demo_ticks;
  cycle_of e := mkCycle ddres_init (ddres_init, 5, 10) 4096 100 (fst e) 3000 0 0 (0, 0, 0) true ddres_init true;
  init_of e := mkInit 0 0 true ddres_init ddres_init [] (ddres_init, 0) (fst e);
  maps_of _ := (0, None); thread_done _ := true; munmap_of _ := ddres_init; frees_of _ _ := (ddres_init, ddres_init)
|}.

Lemma machine_ok : worker_env_ok true.
Proof. split; cbn; [lia|done|done|done|done]. Qed.

Lemma demo_lost_ok : lost_ok (watchers demo_ctx).
Proof. repeat constructor; vm_compute; congruence. Qed.

#[local] Instance demo_ops : WorkerOps machine Worker :=
  worker_ops demo_ctx demo_aggregate demo_unwind demo_lost demo_export (fun c => c) demo_statsd (-1) (-1).
#[local] Instance demo_worker_laws : WorkerLaws machine Worker :=
  worker_laws demo_ctx demo_aggregate demo_unwind demo_lost demo_export (fun c => c) demo_statsd (-1) (-1) 0 true machine_ok demo_defined demo_unwinder_keeps.
#[local] Instance demo_loop_laws : WorkerLoopLaws machine Worker :=
  worker_loop_laws demo_ctx demo_aggregate demo_unwind demo_lost demo_export (fun c => c) demo_statsd (-1) (-1) 0 true machine_ok demo_defined demo_unwinder_keeps demo_lost_ok.

Definition machine_masks : list Z := map sample_type (watchers demo_ctx).

#[local] Instance machine_laws : LoopEnvLaws (E := machine) (W := Worker) machine_masks [0%nat] [kPerfRingBuffer].
Proof.
  refine (Build_LoopEnvLaws machine_masks [0%nat] [kPerfRingBuffer] (fun _ _ _ => []) (fun _ _ => time_point_max) (fun e i => snd e i) _ _ _ _ _);
    cbn [env_step machine_env fst snd].
  - intros. by rewrite app_nil_r.
  - done.
  - intros. simplify_eq. by rewrite app_nil_r.
  - constructor.
  - intros. split; [done|]. split; constructor.
Defined.

(** A ring with the allocation sample of [WorkerDemo], whose record ends with the size of
    its empty stack. *)
Definition sample_event : list Z := demo_alloc ++ le_bytes 8 0.
Definition sample_ring : RingBuffer := mkRB kPerfRingBuffer 511 512 (wr (fun _ => 0) 512 0 sample_event) false 224 0 0 None 0.
Definition machine_loop : LoopState (list EventWrapper) machine Worker :=
  mkLS [mkPE 0 3 3 512 false sample_ring] [] demo_worker (0, fun i => match i with O => [sample_event] | S _ => [] end) [].
Definition machine_ghost : ghost := mkG (fun i => match i with O => [sample_event] | S _ => [] end) (fun _ => []).

Lemma sample_ring_holds : ring_holds sample_ring [sample_event] [].
Proof.
  split; [|done]. split; cbn [data_size mask reader_pos intermediate_reader_pos writer_pos sample_ring].
  - by exists 9.
  - done.
  - done.
  - lia.
  - split; [by vm_compute|]. split; [by vm_compute|done].
Qed.

Lemma sample_timed : timed (E := machine) (W := Worker) machine_masks [0%nat] 0 sample_event.
Proof.
  split; [eexists; vm_compute; reflexivity|]. intros k [= <-].
  destruct (load_hdr sample_event) as [h|] eqn:Eh; [|vm_compute in Eh; discriminate Eh].
  exists alloc_watcher, h. exact (demo_alloc_ok (le_bytes 8 0) h Eh).
Qed.

Lemma machine_start : at_start machine_masks [0%nat] [kPerfRingBuffer] machine_ghost machine_loop.
Proof.
  split; [|split].
  - destruct demo_worker_inv as [_ H1 H2 H3 _ H5]. by split.
  - intros [|i] Hi; cbn in Hi; [|lia]. by rewrite decide_True.
  - intros w Hw. split; cbn [machine_loop set_worker set_queue ls_pes ls_queue ls_worker ls_env]; try done.
    + intros [|[|i]] pe Hpe; cbn in Hpe; simplify_eq. apply sample_ring_holds.
    + intros [|i] Hi; cbn in Hi; [|lia]. unfold unprocessed. cbn [machine_ghost pend held map app]. split.
      * constructor; [apply sample_timed|constructor].
      * intros _. split; repeat constructor. by vm_compute.
    + constructor.
Qed.

(** The sample is processed, exported at the end, and the worker ends without an error. *)
Lemma profiler_worker_safe_witness :
  exists st', worker_loop machine_masks 20 machine_loop false true = Some (Returned ddres_init, st') /\
    ls_processed st' = [(0%nat, sample_event)] /\ map (fun x => map pe_value (snd x)) (exported (ex (ls_worker st'))) = [[100; 100]] /\
    exists w, aggregated w = concat (map snd (exported (ex w))) /\ exported (ex (ls_worker st')) = exported (ex w).
Proof.
  destruct (profiler_worker_safe demo_ctx demo_aggregate demo_unwind demo_lost demo_export (fun c => c) demo_statsd (-1) (-1) 0 true
              machine_ok demo_defined demo_unwinder_keeps demo_lost_ok machine_masks [0%nat] [kPerfRingBuffer] 20 machine_ghost machine_loop false machine_start)
    as (o & st' & E1 & _ & Hd).
  change (worker_loop machine_masks 20 machine_loop false true = Some (o, st')) in E1.
  assert (Hrun : option_map (fun x => (fst x, ls_processed (snd x), map (fun y => map pe_value (snd y)) (exported (ex (ls_worker (snd x))))))
                   (worker_loop machine_masks 20 machine_loop false true)
                 = Some (Returned ddres_init, [(0%nat, sample_event)], [[100; 100]])) by (vm_compute; reflexivity).
  rewrite E1 in Hrun. cbn [option_map fst snd] in Hrun. injection Hrun as -> Hp Hx. exists st'.
  split; [exact E1|]. split; [exact Hp|]. split; [exact Hx|].
  destruct (Hd ddres_init eq_refl eq_refl) as (w & -> & _ & _ & Ha & _). exists w. split; [exact (Ha eq_refl)|reflexivity].
Defined.
